(* ===== verification/_CoqProject ===== *)
-Q . S2P
Prelude.v
GoErrors.v
Prog.v
Float64.v
GoTime.v
GoStrings.v
PlatformModels.v
ProductCore.v
Subscription.v
SubscriptionRepo.v
SubscriptionService.v
SubscriptionProps.v
APIKeys.v
AssetResolver.v
ProductCoreAdapter.v
GoText.v
SchedulerOutbox.v
OpenAIModels.v
Account.v
ModelMapping.v
AccountQuota.v
AccountQuotaProps.v
SchedulerCache.v
SchedulerSnapshot.v
OutboxProps.v
SchedulerFence.v
SchedulerProps.v
Idempotency.v
IdempotencyProps.v
IdempotencyOutcomes.v
Redis.v
Concurrency.v
ConcurrencyProps.v
ConcurrencyLive.v
ConcurrencyIndex.v
ConcurrencyStartup.v
AccountSelection.v
SelectionProps.v
SelectionSound.v
SelectionOrder.v
SelectionRuns.v
PricingIntervals.v
ModelPricing.v
PricingCatalog.v
FallbackPrices.v
Billing.v
BillingProps.v
UsageBilling.v
UsageBillingProps.v
PaymentAmounts.v
Affiliate.v
AffiliateProps.v
RedeemCodes.v
PaymentStore.v
RedeemService.v
Payments.v
PaymentRefunds.v
PaymentCreate.v
PaymentInvariant.v
PaymentProps.v
PaymentRuns.v
KeywordMatcher.v
KeywordTrie.v
KeywordMatcherProps.v
ModerationInput.v
ModerationConfig.v
Moderation.v
ModerationAdmin.v
ModerationProps.v
ModerationBlocks.v
ModerationBans.v
ModerationRuns.v
UsageMedia.v
UsageRecord.v
UsageGateways.v
UsageEvents.v
UsageRecordProps.v
UsageRuns.v
OpenAIScheduler.v
OpenAISchedulerProps.v
