(* ===== verification/Prelude.v ===== *)
(** * XCode gateway core: verification development

    XCode is a gateway that sells access to language models: a request comes
    with an API key, is routed to a platform (a pool of upstream accounts), is
    paid from a subscription or from the user's balance, and is charged by its
    tokens when it is done.  This library models the part of the Go backend
    (paths below are relative to [src/backend/internal]) that decides who may
    use what, who pays, how much, and which accounts are scheduled, and proves
    what makes these parts correct.

    ** Parts and files

    Foundations.
    - This file: automation, sorting, machine integers, list lemmas.
    - [GoErrors]: error values and the result and state monads.  [Prog]:
      programs of calls, with what holds whatever is answered, and many of them
      over one state, as a pool of threads.  [Float64]: binary64 as Go computes
      with it.  [GoTime]: instants, zones, calendar days.  [GoStrings],
      [GoText]: the string functions of the standard library, numbers in
      decimal, joined keys, the runes of UTF-8 texts.

    Routing.
    - [PlatformModels]: the model rules of platforms
      ([service/platform_model_rules.go]), ranked candidates of a model.
    - [ProductCore]: the authorizer ([productcore]), a function of two ports.
    - [ProductCoreAdapter]: the ports implemented by the services
      ([service/product_core_adapter.go] and its neighbours), and the errors
      they are translated to; its laws discharge what [ProductCore] asks.

    Who pays.
    - [Subscription]: the windows and limits of a user's subscription
      ([service/user_subscription.go]); [SubscriptionRepo]: the statements of
      its table; [SubscriptionService]: the operations over the repository
      interface ([service/subscription_service.go]); [SubscriptionProps].
    - [APIKeys]: the key, its permissions, quotas and rate windows
      ([service/api_key*.go], [repository/api_key_repo.go]).
    - [AssetResolver]: the asset that pays for a request
      ([service/api_key_asset_resolver.go]).  What it asks of the repository
      (class [SubscriptionTerms]: the identity, user, plan and multiplier of a
      subscription are not changed by window maintenance) the table of
      [SubscriptionRepo] satisfies.

    Prices.
    - [OpenAIModels]: spellings of model names.  [PricingIntervals],
      [ModelPricing]: price rules and their validation.  [PricingCatalog]: the
      rule that applies, with [path.Match], and the table of rules.  [FallbackPrices]:
      the built-in prices.  [Billing]: resolution and the cost of a request
      ([service/billing_service.go], [service/model_pricing_resolver.go]);
      [BillingProps].

    Charging.
    - [UsageBilling]: the transaction that applies a charge
      ([repository/usage_billing_repo.go]) to balance, subscription, key and
      account, at most once, and the holds of batch images.  Amounts are sent
      as they are and each column rounds what a statement writes to its eight
      decimals; [UsageBillingProps].
    - [UsageMedia]: sizes, resolutions and prices of images, videos and
      searches ([service/image_billing_size.go],
      [service/video_billing_resolution.go], [service/billing_service.go]).
    - [UsageRecord], [UsageGateways]: from the result of a forwarded request to
      its cost, its billing command and its log, programs of calls to the
      services ([service/gateway_usage_billing.go],
      [service/openai_gateway_usage.go]).
    - [UsageEvents]: the event a dispatched request ends in, the recorder that
      takes one, and the finalizer that makes a recording of it
      ([gatewayruntime], [applicationgateway/gateway.go],
      [handler/runtime_usage_bridge.go],
      [service/sub2api_product_usage_finalizer.go]).
    - [UsageRecordProps] follows recordings and dispatches, [UsageRuns] runs
      them over the database of [UsageBilling].

    Accounts and scheduling.
    - [Account]: the record of an upstream account, its quota windows and
      whether it can be scheduled ([service/account.go]); [AccountQuota]: the
      SQL that counts a cost into it ([repository/account_repo.go]);
      [AccountQuotaProps].
    - [SchedulerOutbox]: the table in which changes are announced
      ([repository/scheduler_outbox_repo.go]); [OutboxProps].
    - [SchedulerCache]: the snapshots in Redis and the scripts that fence their
      writers ([repository/scheduler_cache.go]); [SchedulerFence].
    - [SchedulerSnapshot]: serving, rebuilding and polling
      ([service/scheduler_snapshot_service.go]), with what becomes of each
      call to Redis and to the outbox as arguments ([PublishAnswers],
      [PollFaults]); [SchedulerProps].

    Repeated requests.
    - [Idempotency]: requests that carry a key, as programs of statements over
      the table of keys, and the lock of system operations, a row of that
      table ([service/idempotency.go], [service/system_operation_lock_service.go],
      [repository/idempotency_repo.go]); [IdempotencyProps] interleaves the
      statements of many requests, [IdempotencyOutcomes] follows whole ones.

    Requests in flight.
    - [Redis]: sorted sets, counters and strings with times to live.
    - [Concurrency]: the slots of accounts and users, the leases of live calls
      and of client WebSockets, the wait counters and the index of who has any
      ([repository/concurrency_cache.go]), script by script;
      [ConcurrencyProps] interleaves the commands of all processes,
      [ConcurrencyLive] follows the leases, [ConcurrencyIndex] the index and
      [ConcurrencyStartup] the cleanup of a starting process.

    Which account serves a request.
    - [ModelMapping]: the models an account maps, and the limits its provider
      put on them ([service/account.go], [service/model_rate_limit.go],
      [service/antigravity_quota_scope.go]).
    - [AccountSelection]: sticky sessions, gates, loads, slots and wait plans
      ([service/gateway_scheduling.go]), programs of calls to the repository,
      the caches, the clock and the random numbers; [SelectionProps] follows
      the slots, [SelectionSound] who is selected, [SelectionOrder] in which
      order, and [SelectionRuns] runs them.
    - [OpenAIScheduler]: the choice of the OpenAI and Grok gateways: statistics
      and scores, the heap of the best, the drawn order, the budget of probes,
      slots and waiting ([service/openai_account_scheduler.go]);
      [OpenAISchedulerProps], which also runs it.

    Payments.
    - [PaymentAmounts]: currencies, fees and amounts ([payment/currency.go],
      [payment/fee.go], [service/payment_amounts.go]).
    - [Affiliate]: the balances of users and the rebates of inviters
      ([service/affiliate_service.go], [repository/affiliate_repo.go],
      [repository/user_repo.go]); [AffiliateProps].
    - [RedeemCodes], [RedeemService]: codes and their redemption
      ([service/redeem_service.go], [repository/redeem_code_repo.go]).
    - [PaymentStore]: the row of an order and the snapshot of its provider,
      the tables, the calls and what a call may do to the tables.
    - [Payments]: notifications, fulfilment, cancelling, expiring and
      reconciling ([service/payment_fulfillment.go],
      [service/payment_order_lifecycle.go]); [PaymentRefunds]
      ([service/payment_refund.go]); [PaymentCreate]
      ([service/payment_order.go]).
    - [PaymentInvariant]: what every statement keeps; [PaymentProps]: what
      every interleaving of the programs keeps; [PaymentRuns] runs them.

    Content moderation.
    - [KeywordMatcher]: the automaton over the blocked keywords
      ([service/content_moderation_keyword_matcher.go]) and the direct search;
      [KeywordTrie] and [KeywordMatcherProps] follow the three
      phases of its construction and the scan of a text.
    - [ModerationInput]: what is taken from a request to be reviewed
      ([service/content_moderation_input.go]); [ModerationConfig]: settings,
      thresholds and scope; [Moderation]: the check of a request, the shared
      snapshot of the settings, the keys and their health, the queue, its
      workers and what they do to an account; [ModerationAdmin]: changing the
      settings, lifting bans, refusals of the upstream
      ([service/content_moderation.go]).
    - [ModerationProps]: the state of the process and what a call does to it;
      the snapshot through every interleaving.  [ModerationBlocks] is about
      why a request is blocked, [ModerationBans] about who is disabled and
      which key is found; [ModerationRuns] runs them.

    A request goes through [ResolvePlatformAssetRequest] (routing and asset),
    is forwarded and ends in an event, which [Finalize] hands to one of the two
    recordings: [CalculateCostUnified] (cost), [Apply] (charge), then the log.
    [Apply] counts
    into the account, whose crossed quota is announced in the outbox, which
    makes the snapshot service rebuild the pools the next request is scheduled
    on.  Before it is forwarded, [Check] decides whether its content is
    blocked.

    ** What the theorems show

    - Money: a request is charged at most once and a replay returns the first
      result; balances and holds move by what the commands say, within a
      bounded drift of rounding, which is none for whole units; a
      validated price prices every request, and no charge of tokens (when the
      long-context multipliers are not negative), images, videos or searches
      is negative.
    - Recording: whatever the services answer, a recording that succeeds has
      sent one command that takes the cost its log shows, before the log was
      written, and one that fails has charged and logged nothing; a client's
      request is charged once however often and by whatever gateway it is
      recorded; a dispatch charges and logs at most once; the largest output
      decides the size images are billed at.
    - Payments: however notifications, retries, cancellations,
      reconciliations, refunds and redemptions interleave, and whichever calls
      fail or lose their answer, an order that is completed has been credited,
      or been assigned its subscription, exactly once, and its rebate was
      accrued at most once; a report that disagrees with its order, by a table
      of limits and pinned fields stated apart from the code, changes
      none; the books of the rebates balance, and a transfer moves a quota
      into the balance whole.
    - Choice: the chosen platform, subscription or balance was allowed, active
      and within its limits, and the choice is the first in the order the code
      promises; a subscription is the user's, of an allowed plan and usable
      when it is handed out, reloading included; the order of errors.
    - Windows: a reset in a race never loses usage; the Go code and the SQL
      agree, in a zone of constant offset and for a configuration that they
      read alike, along every sequence of edits and charges, on when a window
      of an account is over and when it resets next; an edit leaves no window that
      is already over.
    - Scheduling: the unread rows of the outbox are those of an abstract queue
      under every step of the service and every failure, where a poll takes
      rows exactly when all it had to do succeeded; every change announced by
      a statement that commits at once is handled after enough successful
      polls; the watermark moves only after a rebuild; a rebuild makes the
      pools whose publication Redis answered those of the database; a retired
      bucket
      fences every older writer and readers never see an older version again;
      the trimmed account in the cache schedules as the account does.
    - Repetition: requests with one key run their work one at a time in every
      timely interleaving (their programs refine a machine of claims); a
      success is replayed to the same method, route, actor and payload and
      refused to others, a failure retried after its backoff; the system lock is held until it is released.
    - Slots: however the commands of all processes interleave, the slots of
      an account or user stay within the largest limit anyone asked with, a
      slot stays until it is released or its time to live is over, and a live
      lease counts in all of its three sets or in none; everyone with load is
      in the index the cleanups go by.
    - Selection: whatever the services answer, every slot that is taken is in
      the result or given back, as long as the repository lists accounts of the
      request's scope; the selected account is the repository's, not
      excluded, in the pool, within its limits on figures that were read, with
      its session registered; the next account tried is the best one left;
      nothing waits before everything with room was tried; the loop ends.
      The OpenAI scheduler tries the best candidates first, in the order of
      the sorted list that its heap does not build; the probes of a widened
      choice are at most its budget.
    - Moderation: the automaton finds the keyword the direct search finds, in
      every snapshot that checks, workers, refreshes and updates store; a
      request is blocked exactly for a keyword of the settings that its text
      contains, a known hash or a score over its threshold, where the mode
      says so; the calls of a review are bounded and use keys that were
      found usable; a search alone finds a usable key when there is one; a
      violation disables only a user whose own violations since the start of
      the window reach the threshold.
    - Divergences: where the code does not do what it means to, a theorem
      states what it does (the announcement that is muted by a late commit, the
      accepted reset hour that stops billing, the stale load that overwrites a
      rebuild, the page number that panics, the price that covers no empty
      request, the permissions that escape validation, the stale reclaim that
      repeats finished work, the system lock that is not renewed, the cut
      response that is never replayed, the start of a process that takes the
      slots of the others, the sticky session of an account that could serve,
      the refused refund that counts as a recharge, the marked text that is
      not reviewed, the key that two searches miss, the keyword with two
      blanks, the failed mail that loses a record, the dispatched video that is
      charged as the shortest, the Grok video that is free, the request without
      price that leaves no log, the half unit that a hold makes, the foreign
      account that keeps its slot, the failed publication that is not retried,
      the weekly day that is null, the negative multiplier that pays).

    ** Bounds and fuel

    Integers are [Z], wrapped to 64 bits where the code can leave the range.
    Floats are bit-exact.  Fuel is used in the loops over strings, where the
    length of the string is enough because each round takes a byte, and in two
    loops of the selection: one removes an account in each round
    ([waits_after_trying] needs its fuel, the number of accounts, to be
    enough), the other excludes one more ([without_load_ends]).  The other
    loops over lists are structural.  The loops of the keyword automaton have
    the number of its nodes or edges as fuel; that it is enough is part of
    [matcher_finds_first], since running out would be a panic there.  JSON
    values are walked with their depth as fuel.  The heap of the OpenAI scheduler
    has its length as fuel, each round going one level; its drawn order has the
    number of candidates, one of which each round removes.  Instants of the quota theorems
    are those of the years 1970 to 2116, zones have a fixed offset of at most a day there.

    ** What stands for code outside the repository

    The time zone database, Unicode tables, RFC 3339 texts, the conversions of
    PostgreSQL, SHA-256, JSON decoding, [shopspring/decimal] and the clients of
    the payment providers are parameters, with the documented
    behaviour the theorems rely on as named hypotheses; the witnesses
    instantiate them.  A statement of the database, a Lua script and a call of
    a repository is one atomic step; a transaction of payments is one step when
    it writes, and its reads are steps of their own.

    ** Not modelled

    Redis calls that fail are followed where the scheduler publishes, polls and
    updates an account; elsewhere the scripts and commands are answered, or the
    failure is an answer of the call.  Amounts of money that are NaN or infinite
    are outside the ledger theorem.

    The HTTP handlers, the protocol translators and upstream gateways (text
    formats and streaming), authentication and mail, the clients of the payment
    providers, the dashboards, configuration, the generated data access layer and the user
    interface: input, output and glue around the parts above.  The remote
    price list is a parameter, because one of its lookups depends on the order
    of a map.  Of payments the selection of a provider instance, the
    candidates that verify a webhook, the OAuth and resume tokens and the mails
    are left out; generating, changing and deleting codes in bulk is modelled,
    but not among the threads of the interleaving theorems, because a bulk
    change can revive a used code.  Of content moderation the HTTP call to the
    service, the redaction of secrets, the mails, the status views and the
    cleanup of logs are parameters or left out; a panic ends a program, what
    the deferred calls of a recovered one do is not followed.  Of the recording of usage
    the executors that forward a request, the versioned contract that copies
    the facts of an event and the counting of images in a Gemini stream are
    left out; log lines and the deadlines of contexts too.  Of the OpenAI
    scheduler the checks of an account's freshness and compatibility, the
    bindings of sessions and the settings are calls with any answer; its
    metrics, the scores an administrator is shown and the choice without it
    are left out. *)

From Stdlib Require Export ZArith Lia Bool.
From stdpp Require Export base tactics option list gmap strings sorting.

#[export] Set Default Goal Selector "!".
Open Scope Z_scope.

(** ** Hint databases and tactics

    [xcode] collects the lemmas that automate the common cases (closure of
    the non-negative floats, permutation and membership facts of the sort). *)

Create HintDb xcode.

(** Split every conditional and every match in the goal. *)
Ltac split_matches := repeat (case_match; simplify_eq/=; try done).

(** Turn boolean connectives and comparisons into propositions. *)
Ltac bool_to_prop :=
  repeat match goal with
  | H : _ && _ = true |- _ => apply andb_true_iff in H as [? ?]
  | H : _ && _ = false |- _ => apply andb_false_iff in H
  | H : _ || _ = true |- _ => apply orb_true_iff in H
  | H : _ || _ = false |- _ => apply orb_false_iff in H as [? ?]
  | H : negb _ = true |- _ => apply negb_true_iff in H
  | H : negb _ = false |- _ => apply negb_false_iff in H
  | H : (_ <? _) = true |- _ => apply Z.ltb_lt in H
  | H : (_ <? _) = false |- _ => apply Z.ltb_ge in H
  | H : (_ <=? _) = true |- _ => apply Z.leb_le in H
  | H : (_ <=? _) = false |- _ => apply Z.leb_gt in H
  | H : (_ =? _) = true |- _ => apply Z.eqb_eq in H
  | H : (_ =? _) = false |- _ => apply Z.eqb_neq in H
  end.

Ltac bool_goal :=
  repeat match goal with
  | |- _ && _ = true => apply andb_true_iff; split
  | |- _ || _ = false => apply orb_false_iff; split
  | |- negb _ = true => apply negb_true_iff
  | |- negb _ = false => apply negb_false_iff
  | |- (_ <? _) = true => apply Z.ltb_lt
  | |- (_ <? _) = false => apply Z.ltb_ge
  | |- (_ <=? _) = true => apply Z.leb_le
  | |- (_ <=? _) = false => apply Z.leb_gt
  | |- (_ =? _) = true => apply Z.eqb_eq
  | |- (_ =? _) = false => apply Z.eqb_neq
  end.

Ltac bool_lia := bool_to_prop; bool_goal; lia.

(** ** Machine integers

    Go's [int] (on the 64-bit targets the project builds for) and [int64]:
    values are [Z], and every operation that can leave the range wraps. *)

Definition min_int64 : Z := - 2 ^ 63.
Definition max_int64 : Z := 2 ^ 63 - 1.
Definition in_int64 (z : Z) : Prop := min_int64 <= z <= max_int64.
Definition wrap64 (z : Z) : Z := (z + 2 ^ 63) mod 2 ^ 64 - 2 ^ 63.
Definition add64 (a b : Z) : Z := wrap64 (a + b).
Definition sub64 (a b : Z) : Z := wrap64 (a - b).
Definition mul64 (a b : Z) : Z := wrap64 (a * b).

Lemma wrap64_id z : in_int64 z -> wrap64 z = z.
Proof.
  unfold in_int64, min_int64, max_int64, wrap64. intros H.
  rewrite Z.mod_small by lia. lia.
Qed.

Lemma wrap64_range z : in_int64 (wrap64 z).
Proof.
  unfold in_int64, min_int64, max_int64, wrap64.
  pose proof (Z.mod_pos_bound (z + 2 ^ 63) (2 ^ 64) ltac:(lia)). lia.
Qed.

(** Unsigned 64- and 32-bit counters. *)
Definition wrapu64 (z : Z) : Z := z mod 2 ^ 64.
Definition wrapu32 (z : Z) : Z := z mod 2 ^ 32.

(** ** Stable sorting

    [sort.SliceStable] with a [less] function: an insertion sort that never
    moves an element in front of an equivalent one that preceded it.  For a
    strict weak order this is the unique stable result, so it also stands for
    [sort.Slice] when no two distinct elements are equivalent. *)

Section StableSort.
Context {A : Type} (less : A -> A -> bool).

Fixpoint sort_insert (x : A) (l : list A) : list A :=
  match l with
  | [] => [x]
  | y :: l' => if less y x then y :: sort_insert x l' else x :: y :: l'
  end.

Definition stable_sort (l : list A) : list A := foldr sort_insert [] l.

Lemma sort_insert_perm x l : sort_insert x l ≡ₚ x :: l.
Proof.
  induction l as [|y l IH]; simpl; [done|]. case_match; [|done].
  rewrite IH. constructor.
Qed.

Lemma stable_sort_perm l : stable_sort l ≡ₚ l.
Proof.
  induction l as [|x l IH]; simpl; [done|]. by rewrite sort_insert_perm, IH.
Qed.

Lemma elem_of_stable_sort x l : x ∈ stable_sort l <-> x ∈ l.
Proof. by rewrite stable_sort_perm. Qed.

Lemma length_stable_sort l : length (stable_sort l) = length l.
Proof. by rewrite stable_sort_perm. Qed.

(** The order the result is sorted by: [y] never comes before [x] when
    [less y x]. *)
Definition not_after (x y : A) : Prop := less y x = false.

Context (Hasym : ∀ x y, less x y = true -> less y x = false)
        (Htrans : ∀ x y z, less y x = false -> less z y = false -> less z x = false).

Lemma sort_insert_sorted x l :
  StronglySorted not_after l -> StronglySorted not_after (sort_insert x l).
Proof.
  induction 1 as [|y l Hs IH Hy]; simpl.
  { repeat constructor. }
  destruct (less y x) eqn:E.
  - constructor; [done|]. rewrite sort_insert_perm. constructor; [|done].
    by apply Hasym.
  - constructor; [by constructor|]. constructor; [done|].
    eapply Forall_impl; [exact Hy|]. intros z Hz. by eapply Htrans.
Qed.

Lemma stable_sort_sorted l : StronglySorted not_after (stable_sort l).
Proof. induction l; simpl; [constructor|]. by apply sort_insert_sorted. Qed.

Lemma stable_sort_head l x :
  head (stable_sort l) = Some x -> x ∈ l /\ ∀ y, y ∈ l -> y = x \/ less y x = false.
Proof.
  pose proof (stable_sort_sorted l) as Hs.
  destruct (stable_sort l) as [|z l'] eqn:E; [done|]. intros [= ->].
  split; [rewrite <- elem_of_stable_sort, E; left|].
  intros y Hy. rewrite <- elem_of_stable_sort, E in Hy.
  apply elem_of_cons in Hy as [->|Hy]; [by left|right].
  apply StronglySorted_inv in Hs as [_ Hf]. by apply (proj1 (Forall_forall _ _) Hf).
Qed.

Lemma stable_sort_head_None l : head (stable_sort l) = None <-> l = [].
Proof.
  pose proof (stable_sort_perm l) as Hp. destruct (stable_sort l) as [|z l']; split.
  - intros _. by apply Permutation_nil.
  - done.
  - done.
  - intros ->. by apply Permutation_nil_r in Hp.
Qed.

(** Stability: elements that are pairwise equivalent keep their order. *)
Lemma sort_insert_filter (P : A -> Prop) `{!∀ x, Decision (P x)} x l :
  (∀ a b, P a -> P b -> less a b = false) ->
  filter P (sort_insert x l) = filter P (x :: l).
Proof.
  intros HP. induction l as [|y l IH]; simpl; [done|].
  destruct (less y x) eqn:E; [|done].
  rewrite !filter_cons. rewrite IH, !filter_cons.
  do 2 case_decide; try done.
  exfalso. rewrite HP in E; done.
Qed.

Lemma stable_sort_stable (P : A -> Prop) `{!∀ x, Decision (P x)} l :
  (∀ a b, P a -> P b -> less a b = false) ->
  filter P (stable_sort l) = filter P l.
Proof.
  intros HP. induction l as [|x l IH]; simpl; [done|].
  rewrite sort_insert_filter by done. rewrite !filter_cons, IH. done.
Qed.
End StableSort.


(** Sorting integers in increasing order, and removing duplicates through a
    set first: the idiom of [normalizePositiveIDs]. *)
Definition int_less (a b : Z) : bool := a <? b.

Lemma stable_sort_int_sorted l : StronglySorted Z.le (stable_sort int_less l).
Proof.
  pose proof (stable_sort_sorted int_less) as H.
  specialize (H ltac:(unfold int_less; intros; bool_lia)
                ltac:(unfold int_less; intros; bool_lia) l).
  induction H as [|x l' _ IH Hx]; constructor; [done|].
  eapply Forall_impl; [exact Hx|]. unfold not_after, int_less. intros. bool_lia.
Qed.

Lemma StronglySorted_lt_of_le l :
  StronglySorted Z.le l -> NoDup l -> StronglySorted Z.lt l.
Proof.
  induction 1 as [|x l _ IH Hx]; intros Hnd; constructor.
  - apply IH. by apply NoDup_cons in Hnd as [_ ?].
  - apply NoDup_cons in Hnd as [Hn _]. apply Forall_forall. intros y Hy.
    pose proof (proj1 (Forall_forall _ _) Hx y Hy).
    assert (x ≠ y) by (intros ->; done). lia.
Qed.

(** Two strictly increasing lists with the same elements are equal. *)
Lemma StronglySorted_lt_unique l1 l2 :
  StronglySorted Z.lt l1 -> StronglySorted Z.lt l2 ->
  (∀ x, x ∈ l1 <-> x ∈ l2) -> l1 = l2.
Proof.
  intros H1. revert l2. induction H1 as [|x l1 H1 IH Hx]; intros l2 H2 Heq.
  - destruct l2 as [|y l2]; [done|]. exfalso.
    specialize (Heq y). rewrite elem_of_cons in Heq.
    destruct Heq as [_ Hy]. specialize (Hy (or_introl eq_refl)). set_solver.
  - destruct H2 as [|y l2 H2 Hy].
    { exfalso. specialize (Heq x). set_solver. }
    rewrite Forall_forall in Hx, Hy.
    assert (x = y) as ->.
    { pose proof (proj1 (Heq x) ltac:(set_solver)) as Hxin.
      pose proof (proj2 (Heq y) ltac:(set_solver)) as Hyin.
      apply elem_of_cons in Hxin as [->|Hxin]; [done|].
      apply elem_of_cons in Hyin as [->|Hyin]; [done|].
      specialize (Hx _ Hyin). specialize (Hy _ Hxin). lia. }
    f_equal. apply IH; [done|]. intros z. specialize (Heq z).
    rewrite !elem_of_cons in Heq. split; intros Hz.
    + destruct Heq as [Heq _]. destruct (Heq (or_intror Hz)) as [->|?]; [|done].
      specialize (Hx _ Hz). lia.
    + destruct Heq as [_ Heq]. destruct (Heq (or_intror Hz)) as [->|?]; [|done].
      specialize (Hy _ Hz). lia.
Qed.

(** ** Options and lists *)

Definition option_eqb {A} (eqb : A -> A -> bool) (x y : option A) : bool :=
  match x, y with
  | Some a, Some b => eqb a b
  | None, None => true
  | _, _ => false
  end.

Definition is_nil {A} (l : list A) : bool := match l with [] => true | _ => false end.

Lemma is_nil_true {A} (l : list A) : is_nil l = true <-> l = [].
Proof. by destruct l. Qed.

Lemma is_nil_false {A} (l : list A) : is_nil l = false <-> l ≠ [].
Proof. by destruct l. Qed.

(** Boolean [filter] that keeps the order, with its specification. *)
Definition filterb {A} (p : A -> bool) (l : list A) : list A := List.filter p l.

Lemma elem_of_filterb {A} (p : A -> bool) l x :
  x ∈ filterb p l <-> x ∈ l /\ p x = true.
Proof. unfold filterb. rewrite !list_elem_of_In, List.filter_In. done. Qed.

Lemma NoDup_map_filterb {A B} (f : A -> B) (p : A -> bool) l :
  NoDup (map f l) -> NoDup (map f (filterb p l)).
Proof.
  induction l as [|x l IH]; simpl; [done|]. intros [Hx Hl]%NoDup_cons.
  destruct (p x); [|by apply IH]. simpl. apply NoDup_cons. split; [|by apply IH].
  intros (y & Hy & Hin)%list_elem_of_fmap. apply Hx. rewrite Hy.
  apply list_elem_of_fmap. exists y. split; [done|].
  by apply elem_of_filterb in Hin as [? _].
Qed.

Lemma length_filterb {A} (p : A -> bool) l : (length (filterb p l) <= length l)%nat.
Proof. induction l as [|y l IH]; simpl; [done|]. destruct (p y); simpl; lia. Qed.
Lemma length_filterb_lt {A} (p : A -> bool) l x : x ∈ l -> p x = false -> (length (filterb p l) < length l)%nat.
Proof.
  intros Hx Hp. induction Hx as [x l|x y l Hx IH]; simpl.
  - rewrite Hp. pose proof (length_filterb p l). lia.
  - specialize (IH Hp). destruct (p y); simpl; lia.
Qed.

Lemma filterb_nil {A} (p : A -> bool) l :
  filterb p l = [] <-> (∀ x, x ∈ l -> p x = false).
Proof.
  induction l as [|y l IH]; simpl.
  { split; [intros _ x Hx; set_solver|done]. }
  destruct (p y) eqn:E.
  - split; [done|]. intros H. rewrite H in E; [done|set_solver].
  - rewrite IH. split; intros H x Hx.
    + apply elem_of_cons in Hx as [->|Hx]; [done|]. by apply H.
    + apply H. set_solver.
Qed.

Definition mem_Z (x : Z) (l : list Z) : bool := existsb (Z.eqb x) l.

Lemma mem_Z_true x l : mem_Z x l = true <-> x ∈ l.
Proof.
  unfold mem_Z. rewrite existsb_exists, list_elem_of_In. split.
  - intros (y & Hy & E). apply Z.eqb_eq in E. by subst.
  - intros H. exists x. split; [done|]. apply Z.eqb_refl.
Qed.

(** The positive elements of a list, as a set, in increasing order: the form
    the code normalises identifier lists to. *)
Definition positive_ids (ids : list Z) : list Z :=
  stable_sort int_less (elements (list_to_set (filterb (λ p, 0 <? p) ids) : gset Z)).

Lemma elem_of_positive_ids ids p : p ∈ positive_ids ids <-> p ∈ ids /\ 0 < p.
Proof.
  unfold positive_ids.
  rewrite elem_of_stable_sort, elem_of_elements, elem_of_list_to_set, elem_of_filterb.
  by rewrite Z.ltb_lt.
Qed.

Lemma positive_ids_sorted ids : StronglySorted Z.lt (positive_ids ids).
Proof.
  unfold positive_ids. apply StronglySorted_lt_of_le; [apply stable_sort_int_sorted|].
  rewrite (stable_sort_perm int_less). apply NoDup_elements.
Qed.

Lemma positive_ids_idem ids : positive_ids (positive_ids ids) = positive_ids ids.
Proof.
  apply StronglySorted_lt_unique; [apply positive_ids_sorted..|].
  intros x. rewrite !elem_of_positive_ids. tauto.
Qed.
