(* ===== verification/GoErrors.v ===== *)
(** * Go error values

    The error values the modelled code builds and inspects: package-level
    sentinels made by [errors.New], the [ApplicationError] of
    [internal/pkg/errors/errors.go], [fmt.Errorf] with a wrapped error and
    [errors.Join]; [errors.Is] over them; and the [(value, error)] returns as
    a sum type with its bind. *)

From S2P Require Import Prelude.

Inductive error : Type :=
  | EPlain (id : string)
      (** a value of [errors.New], identified by the variable that holds it;
          also any error a dependency produced *)
  | EApp (code : Z) (reason message : string)
         (metadata : list (string * string)) (cause : option error)
      (** an [ApplicationError] *)
  | EWrap (msg : string) (inner : error)
      (** [fmt.Errorf("...%w", ..., inner)] *)
  | EJoin (left_err right_err : error)
      (** [errors.Join] of two errors *).

(** [errors.As] into an ApplicationError: code and reason of the first
    application error of the chain. *)
Fixpoint as_app (err : error) : option (Z * string) :=
  match err with
  | EPlain _ => None
  | EApp code reason _ _ _ => Some (code, reason)
  | EWrap _ inner => as_app inner
  | EJoin a b => match as_app a with Some r => Some r | None => as_app b end
  end.

(** [ApplicationError.Is]: the target carries an application error of the
    same code and reason. *)
Definition app_is (code : Z) (reason : string) (target : error) : bool :=
  match as_app target with
  | Some (code', reason') => (code' =? code) && String.eqb reason' reason
  | None => false
  end.

(** [errors.Is]. *)
Fixpoint error_is (err target : error) : bool :=
  match err with
  | EPlain id =>
      match target with EPlain id' => String.eqb id id' | _ => false end
  | EApp code reason _ _ cause =>
      app_is code reason target ||
      match cause with Some e => error_is e target | None => false end
  | EWrap _ inner => error_is inner target
  | EJoin a b => error_is a target || error_is b target
  end.

(** [errors.Reason]: the reason of the chain's application error, or empty. *)
Definition error_reason (err : error) : string :=
  match as_app err with Some (_, reason) => reason | None => "" end.

(** [ApplicationError.WithCause] and [WithMetadata] on a cloned error. *)
Definition with_cause (err cause : error) : error :=
  match err with
  | EApp code reason message metadata _ =>
      EApp code reason message metadata (Some cause)
  | _ => err
  end.

Definition with_metadata (err : error) (md : list (string * string)) : error :=
  match err with
  | EApp code reason message _ cause => EApp code reason message md cause
  | _ => err
  end.

(** Constructors of [internal/pkg/errors/types.go]. *)
Definition new_app (code : Z) (reason message : string) : error :=
  EApp code reason message [] None.
Definition BadRequest := new_app 400.
Definition Forbidden := new_app 403.
Definition NotFound := new_app 404.
Definition Conflict := new_app 409.
Definition TooManyRequests := new_app 429.
Definition InternalServer := new_app 500.
Definition ServiceUnavailable := new_app 503.

(** ** [(value, error)] results *)

Inductive result (A : Type) : Type :=
  | Ok (a : A)
  | Err (e : error).
Arguments Ok {A} a.
Arguments Err {A} e.

Definition rbind {A B} (r : result A) (k : A -> result B) : result B :=
  match r with Ok a => k a | Err e => Err e end.

Declare Scope go_scope.
Delimit Scope go_scope with go.
Notation "'let?' x ':=' c 'in' k" := (rbind c (fun x => k))
  (at level 10, x name, c at level 200, k at level 200) : go_scope.
Open Scope go_scope.

Definition is_ok {A} (r : result A) : bool :=
  match r with Ok _ => true | Err _ => false end.

Lemma rbind_Ok {A B} (r : result A) (k : A -> result B) b :
  rbind r k = Ok b <-> ∃ a, r = Ok a /\ k a = Ok b.
Proof. destruct r; simpl; naive_solver. Qed.

Lemma rbind_Err {A B} (r : result A) (k : A -> result B) e :
  rbind r k = Err e <-> r = Err e \/ ∃ a, r = Ok a /\ k a = Err e.
Proof. destruct r; simpl; naive_solver. Qed.

Lemma error_is_app_refl code reason msg md cause :
  error_is (EApp code reason msg md cause) (EApp code reason msg md cause) = true.
Proof. simpl. unfold app_is. simpl. by rewrite Z.eqb_refl, String.eqb_refl. Qed.

Lemma error_is_with_cause code reason msg md cause e :
  error_is (with_cause (EApp code reason msg md cause) e)
           (EApp code reason msg md cause) = true.
Proof. simpl. unfold app_is. simpl. by rewrite Z.eqb_refl, String.eqb_refl. Qed.

(** ** Stateful operations

    An operation on a shared state returns a result and the state it leaves,
    whether it succeeds or fails: effects before an error stay. *)

Definition M (S A : Type) : Type := S -> result A * S.
Definition mret {S A} (a : A) : M S A := λ st, (Ok a, st).
Definition mfail {S A} (e : error) : M S A := λ st, (Err e, st).
Definition mlift {S A} (r : result A) : M S A := λ st, (r, st).
Definition mbind_ {S A B} (m : M S A) (k : A -> M S B) : M S B := λ st,
  match m st with
  | (Ok a, st') => k a st'
  | (Err e, st') => (Err e, st')
  end.
(** Inspect the result of a call instead of returning its error. *)
Definition mtry {S A B} (m : M S A) (k : result A -> M S B) : M S B := λ st,
  let '(r, st') := m st in k r st'.

Notation "'let!' x ':=' m 'in' k" := (mbind_ m (fun x => k))
  (at level 10, x name, m at level 200, k at level 200) : go_scope.

Lemma mbind_Ok {S A B} (m : M S A) (k : A -> M S B) st b st' :
  mbind_ m k st = (Ok b, st') <->
  ∃ a st1, m st = (Ok a, st1) /\ k a st1 = (Ok b, st').
Proof. unfold mbind_. destruct (m st) as [[a|e] st1]; naive_solver. Qed.
