(* ===== verification/Prog.v ===== *)
(** * Programs of calls

    A function that calls services is a tree of its calls: what happens next
    depends on the answers.  [always] quantifies over every answer of every
    call, so a theorem with it holds whatever the services do and whatever
    happens between two calls; the calls made so far, newest first, are the
    trace.  [exec] runs a program over services with a state.

    Programs that share a state: a call answers and changes the state, and
    between two calls of a program other programs, and other parts of the
    system, run.  [safe] is the rely and guarantee condition of one program:
    whatever the others did to the state, as long as they kept the invariant
    and only extended it, each of its calls keeps the invariant and extends it
    too.  [pool_safe] adds safe programs up: every interleaving keeps the
    invariant, and a program that is done has what it promises. *)

From S2P Require Import Prelude.

Section Prog.
Context {C : Type -> Type}.

Inductive prog (A : Type) : Type :=
| Ret (a : A)
| Do {B : Type} (c : C B) (k : B -> prog A).
Arguments Ret {A} a.
Arguments Do {A B} c k.

Fixpoint pbind {A B} (p : prog A) (f : A -> prog B) : prog B :=
  match p with Ret a => f a | Do c k => Do c (λ b, pbind (k b) f) end.
Definition call {B} (c : C B) : prog B := Do c Ret.

(** A call and its answer. *)
Inductive event : Type :=
| Ev {B : Type} (c : C B) (b : B).
Definition trace := list event.

Fixpoint always {A} (p : prog A) (tr : trace) (Q : trace -> A -> Prop) : Prop :=
  match p with
  | Ret a => Q tr a
  | Do c k => ∀ b, always (k b) (Ev c b :: tr) Q
  end.

Lemma always_bind {A B} (p : prog A) (f : A -> prog B) tr Q :
  always (pbind p f) tr Q <-> always p tr (λ tr' a, always (f a) tr' Q).
Proof. revert tr. induction p as [a|B' c k IH]; cbn; intros tr; [done|]. split; intros H b; apply IH, H. Qed.
Lemma always_mono {A} (p : prog A) tr (Q Q' : trace -> A -> Prop) :
  (∀ tr' a, Q tr' a -> Q' tr' a) -> always p tr Q -> always p tr Q'.
Proof. intros HQ. revert tr. induction p as [a|B c k IH]; cbn; intros tr H; [by apply HQ|]. intros b. by apply IH. Qed.
Lemma always_then {A} (p : prog A) tr (Q Q' : trace -> A -> Prop) :
  always p tr Q -> (∀ tr' a, Q tr' a -> Q' tr' a) -> always p tr Q'.
Proof. intros H HQ. by eapply always_mono. Qed.
Lemma always_and {A} (p : prog A) tr (Q Q' : trace -> A -> Prop) :
  always p tr Q -> always p tr Q' -> always p tr (λ tr' a, Q tr' a /\ Q' tr' a).
Proof. revert tr. induction p as [a|B c k IH]; cbn; intros tr H H'; [done|]. intros b. by apply IH. Qed.
Lemma always_call {B} (c : C B) tr (Q : trace -> B -> Prop) : (∀ b, Q (Ev c b :: tr) b) -> always (call c) tr Q.
Proof. done. Qed.

(** The trace only grows. *)
Definition grows (tr tr' : trace) : Prop := ∃ new, tr' = new ++ tr.
#[global] Instance grows_preorder : PreOrder grows.
Proof.
  split; [by intros tr; exists []|]. intros t1 t2 t3 [n1 ->] [n2 ->]. exists (n2 ++ n1). by rewrite app_assoc.
Qed.
Lemma grows_cons e tr : grows tr (e :: tr).
Proof. by exists [e]. Qed.
Lemma grows_elem e tr tr' : grows tr tr' -> e ∈ tr -> e ∈ tr'.
Proof. intros [new ->] H. apply elem_of_app. by right. Qed.
Lemma always_grows {A} (p : prog A) tr : always p tr (λ tr' _, grows tr tr').
Proof.
  revert tr. induction p as [a|B c k IH]; cbn; intros tr; [done|]. intros b.
  apply (always_mono _ _ (λ tr' _, grows (Ev c b :: tr) tr')); [|apply IH].
  intros tr' _ H. etrans; [apply grows_cons|exact H].
Qed.
(** What holds whatever the answers also holds with the trace grown. *)
Lemma always_strengthen {A} (p : prog A) tr (Q : trace -> A -> Prop) :
  always p tr Q -> always p tr (λ tr' a, grows tr tr' /\ Q tr' a).
Proof. intros H. apply always_and; [apply always_grows|done]. Qed.

(** One part after the other, over a trace that has grown. *)
Lemma always_step {A B} (p : prog A) (f : A -> prog B) tr (R : trace -> A -> Prop) Q :
  always p tr R -> (∀ tr' a, grows tr tr' -> R tr' a -> always (f a) tr' Q) -> always (pbind p f) tr Q.
Proof.
  intros H Hf. apply always_bind. apply (always_then _ _ _ _ (always_strengthen _ _ _ H)). intros tr' a [Hg HR]. by apply Hf.
Qed.
(** Whatever the first part does. *)
Lemma always_skip {A B} (p : prog A) (f : A -> prog B) tr Q :
  (∀ tr' a, grows tr tr' -> always (f a) tr' Q) -> always (pbind p f) tr Q.
Proof. intros Hf. apply (always_step _ _ _ (λ _ _, True)); [|auto]. eapply always_then; [apply always_grows|done]. Qed.

(** Programs that make certain calls only. *)
Fixpoint only (P : ∀ B, C B -> Prop) {A} (p : prog A) : Prop :=
  match p with Ret a => True | Do c k => P _ c /\ ∀ b, only P (k b) end.
Lemma only_bind (P : ∀ B, C B -> Prop) {A B} (p : prog A) (f : A -> prog B) :
  only P p -> (∀ a, only P (f a)) -> only P (pbind p f).
Proof. intros H Hf. induction p as [a|B' c k IH]; cbn in *; [done|]. destruct H as [H1 H2]. split; [done|]. auto. Qed.
Lemma only_call (P : ∀ B, C B -> Prop) {B} (c : C B) : P _ c -> only P (call c).
Proof. done. Qed.
Lemma only_weaken (P Q : ∀ B, C B -> Prop) {A} (p : prog A) : (∀ B c, P B c -> Q B c) -> only P p -> only Q p.
Proof. intros HPQ. induction p as [a|B c k IH]; cbn; [done|]. intros [H1 H2]. split; auto. Qed.
(** A quantity such calls leave alone stays. *)
Lemma only_same {A T} (P : ∀ B, C B -> Prop) (f : trace -> T) (p : prog A) tr :
  (∀ B (c : C B) b tr, P _ c -> f (Ev c b :: tr) = f tr) -> only P p -> always p tr (λ tr' _, f tr' = f tr).
Proof.
  intros Hf. revert tr. induction p as [a|B c k IH]; cbn; intros tr H; [done|]. destruct H as [H1 H2]. intros b.
  rewrite <- (Hf _ c b tr H1). by apply IH.
Qed.

(** ** Services that answer *)

Section Exec.
Context {S : Type} (h : ∀ B, C B -> S -> B * S).
Fixpoint exec {A} (p : prog A) (tr : trace) (s : S) : A * trace * S :=
  match p with
  | Ret a => (a, tr, s)
  | Do c k => let '(b, s) := h _ c s in exec (k b) (Ev c b :: tr) s
  end.
Lemma always_exec {A} (p : prog A) tr (Q : trace -> A -> Prop) s :
  always p tr Q -> Q (exec p tr s).1.2 (exec p tr s).1.1.
Proof.
  revert tr s. induction p as [a|B c k IH]; cbn; intros tr s H; [done|]. destruct (h B c s) as [b s']. by apply IH.
Qed.
End Exec.
End Prog.

Arguments prog : clear implicits.
Arguments event : clear implicits.
Arguments trace : clear implicits.
Arguments Ret {C A} a.
Arguments Do {C A B} c k.

Declare Scope prog_scope.
Delimit Scope prog_scope with prog.
Notation "'let*' x ':=' m 'in' k" := (pbind m (fun x => k))
  (at level 10, x name, m at level 200, k at level 200) : prog_scope.

(** ** What a program adds to a quantity

    [m] measures the trace, for example the slots that are held; the calls of
    [quiet] leave it alone.  [p] adds to it what its result counts for. *)
Section Settle.
Context {C : Type -> Type} (m : trace C -> Z) (quiet : ∀ B, C B -> Prop)
        (Hquiet : ∀ B (c : C B) b tr, quiet _ c -> m (Ev c b :: tr) = m tr).

Definition settles {A} (f : A -> Z) (n : Z) (p : prog C A) : Prop :=
  ∀ tr, m tr = n -> always p tr (λ tr' r, m tr' = n + f r).

Lemma settles_bind {A B} (f : A -> Z) (g : B -> Z) n (p : prog C A) (k : A -> prog C B) :
  settles f n p -> (∀ x, ∃ h, settles h (n + f x) (k x) /\ ∀ r, f x + h r = g r) -> settles g n (pbind p k).
Proof.
  intros Hp Hk tr Hn. apply always_bind. eapply always_then; [by apply Hp|]. intros tr' x Hx.
  destruct (Hk x) as (h & Hm & Hg). eapply always_then; [by apply Hm|]. intros tr'' r Hr. cbn in *. rewrite Hr, <- Hg. lia.
Qed.
Lemma settles_then {A B} (f : A -> Z) (g : B -> Z) n (p : prog C A) (k : A -> prog C B) :
  settles f n p -> (∀ x, settles (λ r, g r - f x) (n + f x) (k x)) -> settles g n (pbind p k).
Proof. intros Hp Hk. apply (settles_bind f); [done|]. intros x. eexists. split; [apply Hk|]. intros r. cbn. lia. Qed.
Lemma settles_zero {A} (g : A -> Z) n d (p : prog C A) : d = 0 -> settles g n p -> settles (λ r, g r - d) (n + d) p.
Proof.
  intros -> Hp tr Hn. eapply always_then; [apply Hp; lia|]. intros tr' r Hr. cbn in *. lia.
Qed.
Lemma settles_ret {A} (f : A -> Z) n x : f x = 0 -> settles f n (Ret x).
Proof. intros Hf tr Hn. cbn. lia. Qed.
Lemma settles_quiet {A} (f : A -> Z) n (p : prog C A) : only quiet p -> (∀ x, f x = 0) -> settles f n p.
Proof.
  intros Hp Hf tr Hn. eapply always_then; [by apply (only_same quiet m)|]. intros tr' x Hx. cbn in *. rewrite Hf. lia.
Qed.
(** The first part adds nothing, and what is known of its result is used. *)
Lemma settles_knowing {A B} (K : A -> Prop) (g : B -> Z) n (p : prog C A) (k : A -> prog C B) :
  only quiet p -> (∀ tr, always p tr (λ _ x, K x)) -> (∀ x, K x -> settles g n (k x)) -> settles g n (pbind p k).
Proof.
  intros Hp HK Hk tr Hn. apply always_bind.
  eapply always_then; [apply always_and; [by apply (only_same quiet m)|apply HK]|].
  cbn. intros tr' x [Hx1 Hx2]. apply Hk; [done|]. by rewrite Hx1.
Qed.
Lemma settles_after {A B} (g : B -> Z) n (p : prog C A) (k : A -> prog C B) :
  only quiet p -> (∀ x, settles g n (k x)) -> settles g n (pbind p k).
Proof.
  intros Hp Hk. apply (settles_knowing (λ _, True)); [done| |auto]. intros tr.
  eapply always_then; [apply always_grows|done].
Qed.
End Settle.

Section Interleave.
Context {C : Type -> Type} {W : Type}.

(** What a call may answer, and the state it leaves. *)
Context (perform : ∀ B, C B -> W -> B -> W -> Prop).
(** The invariant, and how the state may grow under it. *)
Context (inv : W -> Prop) (ext : W -> W -> Prop) `{!PreOrder ext}.

Fixpoint safe {A} (p : prog C A) (w : W) (Q : W -> A -> Prop) : Prop :=
  match p with
  | Ret a => ∀ w1, inv w1 -> ext w w1 -> Q w1 a
  | Do c k => ∀ w1 b w2, inv w1 -> ext w w1 -> perform _ c w1 b w2 -> inv w2 /\ ext w1 w2 /\ safe (k b) w2 Q
  end.

Lemma safe_later {A} (p : prog C A) w w' Q : ext w w' -> safe p w Q -> safe p w' Q.
Proof.
  destruct p as [a|B c k]; cbn; intros Hw H.
  - intros w1 Hi H1. apply H; [done|]. by etrans.
  - intros w1 b w2 Hi H1 Hp. apply H; [done| |done]. by etrans.
Qed.
Lemma safe_mono {A} (p : prog C A) w (Q Q' : W -> A -> Prop) :
  safe p w Q -> (∀ w' a, inv w' -> ext w w' -> Q w' a -> Q' w' a) -> safe p w Q'.
Proof.
  revert w. induction p as [a|B c k IH]; cbn; intros w H HQ; [auto|]. intros w1 b w2 Hi H1 Hp.
  destruct (H w1 b w2 Hi H1 Hp) as (Hi2 & H2 & Hk). split_and!; [done..|]. apply (IH _ _ Hk).
  intros w' a Hi' Hw'. apply HQ; [done|]. etrans; [exact H1|]. by etrans.
Qed.
Lemma safe_bind {A B} (p : prog C A) (f : A -> prog C B) w Q :
  safe p w (λ w' a, safe (f a) w' Q) -> safe (pbind p f) w Q.
Proof.
  revert w. induction p as [a|B' c k IH]; cbn; intros w H.
  - destruct (f a) as [b|B' c k] eqn:E; cbn.
    + intros w1 Hi H1. specialize (H w1 Hi H1). cbn in H. by apply H.
    + intros w1 b w2 Hi H1 Hp. specialize (H w1 Hi H1). cbn in H. by apply H.
  - intros w1 b w2 Hi H1 Hp. destruct (H w1 b w2 Hi H1 Hp) as (Hi2 & H2 & Hk). split_and!; [done..|]. by apply IH.
Qed.
(** One part after the other. *)
Lemma safe_step {A B} (p : prog C A) (f : A -> prog C B) w (R : W -> A -> Prop) Q :
  safe p w R -> (∀ w' a, inv w' -> ext w w' -> R w' a -> safe (f a) w' Q) -> safe (pbind p f) w Q.
Proof. intros H Hf. apply safe_bind. by apply (safe_mono _ _ _ _ H). Qed.
Lemma safe_ret {A} (a : A) w (Q : W -> A -> Prop) : (∀ w1, inv w1 -> ext w w1 -> Q w1 a) -> safe (Ret a) w Q.
Proof. done. Qed.

(** ** Triples

    What a program promises when it starts in a state with [K].  Conditions
    that last are [Stable]: they hold at every later state too. *)

Class Stable (K : W -> Prop) : Prop := stable : ∀ w w', ext w w' -> K w -> K w'.
#[global] Instance stable_and K1 K2 : Stable K1 -> Stable K2 -> Stable (λ w, K1 w /\ K2 w).
Proof. intros H1 H2 w w' He [? ?]. split; [by eapply H1|by eapply H2]. Qed.
#[global] Instance stable_pure (P : Prop) : Stable (λ _, P).
Proof. by intros w w' _. Qed.
#[global] Instance stable_impl (P : Prop) K : Stable K -> Stable (λ w, P -> K w).
Proof. intros H w w' He HK HP. eapply H; eauto. Qed.
#[global] Instance stable_forall {A} (K : A -> W -> Prop) : (∀ a, Stable (K a)) -> Stable (λ w, ∀ a, K a w).
Proof. intros H w w' He HK a. eapply H; eauto. Qed.

Definition triple {A} (K : W -> Prop) (p : prog C A) (R : W -> A -> Prop) : Prop := ∀ w, inv w -> K w -> safe p w R.
Lemma triple_ret {A} K (a : A) (R : W -> A -> Prop) : Stable K -> (∀ w, inv w -> K w -> R w a) -> triple K (Ret a) R.
Proof. intros HK HR w Hi Hw. apply safe_ret. intros w1 Hi1 He. apply HR; [done|by eapply HK]. Qed.
Lemma triple_bind {A B} K (p : prog C A) (f : A -> prog C B) R Q :
  Stable K -> triple K p R -> (∀ a, triple (λ w, K w /\ R w a) (f a) Q) -> triple K (pbind p f) Q.
Proof.
  intros HK Hp Hf w Hi Hw. eapply safe_step; [by apply Hp|]. intros w' a Hi' He HR. apply Hf; [done|]. split; [by eapply HK|done].
Qed.
Lemma triple_weaken {A} (K K' : W -> Prop) (p : prog C A) (R R' : W -> A -> Prop) :
  triple K p R -> (∀ w, inv w -> K' w -> K w) -> (∀ w a, inv w -> R w a -> R' w a) -> triple K' p R'.
Proof. intros H HK HR w Hi Hw. eapply safe_mono; [apply H; [done|by apply HK]|]. auto. Qed.
Lemma triple_post {A} K (p : prog C A) (R R' : W -> A -> Prop) :
  triple K p R -> (∀ w a, inv w -> R w a -> R' w a) -> triple K p R'.
Proof. intros H HR. eapply triple_weaken; eauto. Qed.
(** What is known of the state alone. *)
Lemma triple_pure {A} (P : Prop) (K : W -> Prop) (p : prog C A) R : (∀ w, inv w -> K w -> P) -> (P -> triple K p R) -> triple K p R.
Proof. intros HP H w Hi Hw. apply H; [by eapply HP|done|done]. Qed.

(** ** Many programs *)

Record thread := Thread { th_A : Type; th_prog : prog C th_A; th_post : W -> th_A -> Prop }.
Definition th_safe (w : W) (t : thread) : Prop := safe (th_prog t) w (th_post t).

(** Programs that may be started at any time, and what the rest of the system
    may do at any time. *)
Context (starts : thread -> Prop) (rest : W -> W -> Prop).

Inductive pool_step : W * list thread -> W * list thread -> Prop :=
| pool_call w ts i A B (c : C B) (k : B -> prog C A) Q b w' :
  ts !! i = Some (Thread A (Do c k) Q) -> perform B c w b w' ->
  pool_step (w, ts) (w', <[i := Thread A (k b) Q]> ts)
| pool_start w ts t : starts t -> pool_step (w, ts) (w, ts ++ [t])
| pool_rest w w' ts : rest w w' -> pool_step (w, ts) (w', ts).

Context (Hstarts : ∀ t w, starts t -> inv w -> th_safe w t).
Context (Hrest : ∀ w w', inv w -> rest w w' -> inv w' /\ ext w w').

Lemma pool_step_safe w ts w' ts' :
  pool_step (w, ts) (w', ts') -> inv w -> Forall (th_safe w) ts ->
  inv w' /\ ext w w' /\ Forall (th_safe w') ts'.
Proof.
  assert (∀ w1 w2 l, ext w1 w2 -> Forall (th_safe w1) l -> Forall (th_safe w2) l) as Hlater.
  { intros w1 w2 l He Hl. eapply Forall_impl; [exact Hl|]. intros t Ht. by apply (safe_later _ w1). }
  intros Hs Hi Hall. inversion Hs; subst; clear Hs.
  - assert (Hc := proj1 (Forall_lookup _ _) Hall _ _ ltac:(eassumption)). unfold th_safe in Hc. cbn in Hc.
    destruct (Hc w b w' Hi ltac:(reflexivity) ltac:(eassumption)) as (Hi' & He & Hk).
    split_and!; [done..|]. apply Forall_insert; [|exact Hk]. by apply (Hlater w).
  - split_and!; [done|reflexivity|]. apply Forall_app. split; [done|]. constructor; [by apply Hstarts|done].
  - destruct (Hrest _ _ Hi ltac:(eassumption)) as [Hi' He]. split_and!; [done..|]. by apply (Hlater w).
Qed.
Theorem pool_safe w ts w' ts' :
  rtc pool_step (w, ts) (w', ts') -> inv w -> Forall (th_safe w) ts ->
  inv w' /\ ext w w' /\ Forall (th_safe w') ts'.
Proof.
  intros H. remember (w, ts) as x eqn:Ex. remember (w', ts') as y eqn:Ey. revert w ts Ex w' ts' Ey.
  induction H as [x|x y z Hs H IH]; intros w ts -> w' ts' E.
  - injection E as <- <-. intros Hi Hall. split_and!; [done|reflexivity|done].
  - destruct y as [w1 ts1]. intros Hi Hall.
    destruct (pool_step_safe _ _ _ _ Hs Hi Hall) as (Hi1 & He1 & Hall1).
    destruct (IH _ _ eq_refl _ _ E Hi1 Hall1) as (Hi2 & He2 & Hall2). split_and!; [done| |done]. by etrans.
Qed.

(** A program that runs alone over services with a state is one interleaving. *)
Context {V : Type} (h : ∀ B, C B -> V -> B * V) (view : V -> W).
Context (Hh : ∀ B (c : C B) v, perform B c (view v) (h B c v).1 (view (h B c v).2)).
Lemma exec_pool {A} (p : prog C A) Q ts tr v :
  rtc pool_step (view v, ts ++ [Thread A p Q]) (view (exec h p tr v).2, ts ++ [Thread A (Ret (exec h p tr v).1.1) Q]).
Proof.
  revert tr v. induction p as [a|B c k IH]; intros tr v; cbn [exec]; [reflexivity|].
  pose proof (Hh B c v) as Hp. destruct (h B c v) as [b v'] eqn:E. cbn in Hp. etrans; [|apply (IH b (Ev c b :: tr) v')].
  apply rtc_once. replace (ts ++ [Thread A (k b) Q]) with (<[length ts := Thread A (k b) Q]> (ts ++ [Thread A (Do c k) Q])).
  - eapply pool_call; [by rewrite lookup_app_r, Nat.sub_diag by lia|exact Hp].
  - by rewrite insert_app_r_alt, Nat.sub_diag by lia.
Qed.
(** Start it, and run it to its end. *)
Lemma run_pool {A} (p : prog C A) Q ts tr v : starts (Thread A p Q) ->
  rtc pool_step (view v, ts) (view (exec h p tr v).2, ts ++ [Thread A (Ret (exec h p tr v).1.1) Q]).
Proof. intros Hs. eapply rtc_l; [by apply pool_start|apply exec_pool]. Qed.
End Interleave.
