(* ===== verification/Float64.v ===== *)
(** * IEEE binary64 numbers

    Go's [float64] is the binary64 format with round-to-nearest-even: the
    executable [spec_float] of the Standard Library at precision 53 and
    exponent bound 1024 (no fused multiply-add: the amd64 compiler emits
    none).  The file holds the operations the pricing and limit code uses, the
    decimal literals, the comparison laws and the closure of the values that
    are not below zero under addition, multiplication and division. *)

From Stdlib Require Import SpecFloat.
From S2P Require Import Prelude.

Abbreviation float64 := spec_float.

Definition f64_prec : Z := 53.
Definition f64_emax : Z := 1024.

Definition fadd (x y : float64) : float64 := SFadd f64_prec f64_emax x y.
Definition fsub (x y : float64) : float64 := SFsub f64_prec f64_emax x y.
Definition fmul (x y : float64) : float64 := SFmul f64_prec f64_emax x y.
Definition fdiv (x y : float64) : float64 := SFdiv f64_prec f64_emax x y.
Definition fneg (x : float64) : float64 := SFopp x.
Definition fabs (x : float64) : float64 := SFabs x.
Definition feqb (x y : float64) : bool := SFeqb x y.
Definition fltb (x y : float64) : bool := SFltb x y.
Definition fleb (x y : float64) : bool := SFleb x y.
Definition fgtb (x y : float64) : bool := SFltb y x.
Definition fgeb (x y : float64) : bool := SFleb y x.

(** [math.IsNaN] and [math.IsInf(x, 0)]. *)
Definition is_nan (x : float64) : bool :=
  match x with S754_nan => true | _ => false end.
Definition is_inf (x : float64) : bool :=
  match x with S754_infinity _ => true | _ => false end.
Definition is_finite (x : float64) : bool := negb (is_nan x) && negb (is_inf x).

(** [float64(n)] of an integer, and the literal [m * 10^e], both rounded to
    nearest even. *)
Definition f64_of_Z (n : Z) : float64 := binary_normalize f64_prec f64_emax n 0 false.

Definition f64_lit (m e : Z) : float64 :=
  match m with
  | Z0 => S754_zero false
  | _ =>
    let s := m <? 0 in
    if 0 <=? e then binary_normalize f64_prec f64_emax (m * 10 ^ e) 0 false
    else
      let '(q, ex, l) :=
        SFdiv_core_binary f64_prec f64_emax (Z.abs m) 0 (10 ^ (- e)) 0 in
      binary_round_aux f64_prec f64_emax s q ex l
  end.

Definition f0 : float64 := S754_zero false.
Definition f1 : float64 := f64_of_Z 1.

Declare Scope f64_scope.
Delimit Scope f64_scope with f64.
Infix "+" := fadd : f64_scope.
Infix "-" := fsub : f64_scope.
Infix "*" := fmul : f64_scope.
Infix "/" := fdiv : f64_scope.
Infix "<?" := fltb : f64_scope.
Infix "<=?" := fleb : f64_scope.
Infix ">?" := fgtb : f64_scope.
Infix ">=?" := fgeb : f64_scope.
Infix "=?" := feqb : f64_scope.
Bind Scope f64_scope with spec_float.

Example lit_2_5e_6 : f64_lit 25 (-7) = S754_finite false 5902958103587057 (-71).
Proof. vm_compute. reflexivity. Qed.
Example lit_sum : fadd (f64_lit 1 (-1)) (f64_lit 2 (-1)) = S754_finite false 5404319552844596 (-54).
Proof. vm_compute. reflexivity. Qed.

(** ** Comparison *)

Lemma fltb_fleb x y : fltb x y = true -> fleb x y = true.
Proof.
  unfold fltb, fleb, SFltb, SFleb. by destruct (SFcompare x y) as [[]|].
Qed.

Lemma fleb_nan_l y : fleb S754_nan y = false.
Proof. done. Qed.

Lemma feqb_f0 x : feqb x f0 = true <-> ∃ s, x = S754_zero s.
Proof.
  unfold feqb, SFeqb, f0. destruct x as [s|[]| |[] m e]; simpl; split; try done.
  all: try (by intros [? ?]). by exists s.
Qed.

(** ** Values that are not below zero *)

Definition not_neg (x : float64) : Prop := fltb x f0 = false.

Definition not_negb (x : float64) : bool :=
  match x with
  | S754_zero _ | S754_nan | S754_infinity false | S754_finite false _ _ => true
  | _ => false
  end.

Lemma not_neg_iff x : not_neg x <-> not_negb x = true.
Proof. unfold not_neg, fltb, SFltb, f0. by destruct x as [s|[]| |[] m e]. Qed.

(** The result of rounding has the requested sign, whatever its magnitude. *)
Definition has_sign (s : bool) (x : float64) : Prop :=
  match x with
  | S754_zero s' | S754_infinity s' | S754_finite s' _ _ => s' = s
  | S754_nan => False
  end.

Lemma shr_1_nonneg mrs : 0 <= shr_m mrs -> 0 <= shr_m (shr_1 mrs).
Proof. destruct mrs as [[|[]|] r s]; simpl; lia. Qed.

Lemma iter_pos_ind {A} (P : A -> Prop) (f : A -> A) (n : positive) (x : A) :
  (∀ y, P y -> P (f y)) -> P x -> P (SpecFloat.iter_pos f n x).
Proof. intros Hf. revert x. induction n; simpl; auto. Qed.

Lemma shr_fexp_nonneg m e l :
  0 <= m -> 0 <= shr_m (shr_fexp f64_prec f64_emax m e l).1.
Proof.
  intros Hm. unfold shr_fexp, shr. case_match; simpl.
  all: try (by destruct l as [|[]]).
  apply iter_pos_ind; [by intros; apply shr_1_nonneg|].
  by destruct l as [|[]].
Qed.

Lemma round_nearest_even_nonneg m l : 0 <= m -> 0 <= round_nearest_even m l.
Proof. destruct l as [|[]]; simpl; try case_match; lia. Qed.

Lemma binary_round_aux_sign s m e l :
  0 <= m -> has_sign s (binary_round_aux f64_prec f64_emax s m e l).
Proof.
  intros Hm. unfold binary_round_aux.
  destruct (shr_fexp _ _ m e l) as [mrs e'] eqn:E1.
  pose proof (shr_fexp_nonneg m e l Hm) as H1. rewrite E1 in H1. simpl in H1.
  pose proof (round_nearest_even_nonneg _ (loc_of_shr_record mrs) H1) as H2.
  destruct (shr_fexp _ _ (round_nearest_even _ _) _ _) as [mrs' e''] eqn:E2.
  pose proof (shr_fexp_nonneg _ e' loc_Exact H2) as H3. rewrite E2 in H3.
  simpl in H3. destruct (shr_m mrs') as [|p|p]; [done| |lia].
  by case_match.
Qed.

Lemma has_sign_not_neg x : has_sign false x -> not_neg x.
Proof. rewrite not_neg_iff. destruct x as [[]|[]| |[] m e]; simpl; naive_solver. Qed.

Lemma binary_normalize_not_neg m e :
  0 <= m -> not_neg (binary_normalize f64_prec f64_emax m e false).
Proof.
  intros Hm. destruct m as [|p|p]; simpl; [done| |lia].
  unfold binary_round. destruct (shl_align _ _ _) as [mz ez].
  apply has_sign_not_neg, binary_round_aux_sign. lia.
Qed.

Lemma f64_of_Z_not_neg n : 0 <= n -> not_neg (f64_of_Z n).
Proof. apply binary_normalize_not_neg. Qed.

Lemma fmul_not_neg x y : not_neg x -> not_neg y -> not_neg (fmul x y).
Proof.
  rewrite !not_neg_iff. intros Hx Hy. apply not_neg_iff.
  unfold fmul. destruct x as [sx|[]| |[] mx ex], y as [sy|[]| |[] my ey];
    simpl in *; try done.
  all: apply has_sign_not_neg, binary_round_aux_sign; lia.
Qed.

Lemma fadd_not_neg x y : not_neg x -> not_neg y -> not_neg (fadd x y).
Proof.
  rewrite !not_neg_iff. intros Hx Hy. apply not_neg_iff.
  unfold fadd. destruct x as [[]|[]| |[] mx ex], y as [[]|[]| |[] my ey];
    simpl in *; try done.
  match goal with |- context [binary_round _ _ false ?p ?e] =>
    apply (binary_normalize_not_neg (Zpos p) e) end. lia.
Qed.

Lemma SFdiv_core_nonneg m1 e1 m2 e2 q e l :
  0 <= m1 -> 0 < m2 ->
  SFdiv_core_binary f64_prec f64_emax m1 e1 m2 e2 = (q, e, l) -> 0 <= q.
Proof.
  unfold SFdiv_core_binary. intros H1 H2.
  set (m' := match _ with Z0 => m1 | _ => _ end).
  assert (0 <= m') by (subst m'; case_match; [lia|by apply Z.shiftl_nonneg|lia]).
  clearbody m'. destruct (Z.div_eucl m' m2) as [q' r] eqn:E.
  intros [= <- _ _].
  pose proof (Z.div_pos m' m2) as Hd. unfold Z.div in Hd. rewrite E in Hd. lia.
Qed.

Lemma fdiv_not_neg x y :
  not_neg x -> not_neg y -> y ≠ S754_zero true ->
  not_neg (fdiv x y).
Proof.
  rewrite !not_neg_iff. intros Hx Hy Hz. apply not_neg_iff.
  unfold fdiv. destruct x as [[]|[]| |[] mx ex], y as [[]|[]| |[] my ey];
    simpl in *; try done.
  destruct (SFdiv_core_binary _ _ _ _ _ _) as [[q e] l] eqn:E.
  apply has_sign_not_neg, binary_round_aux_sign.
  by apply (SFdiv_core_nonneg (Zpos mx) ex (Zpos my) ey q e l).
Qed.

Lemma not_neg_f0 : not_neg f0.
Proof. done. Qed.
Lemma not_neg_f1 : not_neg f1.
Proof. done. Qed.

#[export] Hint Resolve fmul_not_neg fadd_not_neg f64_of_Z_not_neg
  not_neg_f0 not_neg_f1 : xcode.

(** [x > 0] and [0 <= x] both rule out the values below zero. *)
Lemma fgtb_not_neg x : fgtb x f0 = true -> not_neg x.
Proof.
  rewrite not_neg_iff. unfold fgtb, SFltb. by destruct x as [s|[]| |[] m e].
Qed.

Lemma fltb_irrefl x : fltb x x = false.
Proof.
  unfold fltb, SFltb. destruct x as [s|[]| |[] m e]; simpl; try done.
  - rewrite Z.compare_refl. change (Pos.compare_cont Eq m m) with (Pos.compare m m).
    by rewrite Pos.compare_refl.
  - rewrite Z.compare_refl. change (Pos.compare_cont Eq m m) with (Pos.compare m m).
    by rewrite Pos.compare_refl.
Qed.

(** ** Order laws, on values that are not NaN *)

Lemma SFcompare_flip x y :
  SFcompare y x = match SFcompare x y with Some c => Some (CompOpp c) | None => None end.
Proof.
  destruct x as [sx|[]| |[] mx ex], y as [sy|[]| |[] my ey]; simpl; try done.
  all: try (by destruct sx). all: try (by destruct sy).
  all: rewrite (Z.compare_antisym ex ey);
    destruct (ex ?= ey); simpl; try done;
    change (Pos.compare_cont Eq my mx) with (Pos.compare my mx);
    change (Pos.compare_cont Eq mx my) with (Pos.compare mx my);
    by rewrite (Pos.compare_antisym mx my).
Qed.

Lemma fltb_asym x y : fltb x y = true -> fltb y x = false.
Proof.
  unfold fltb, SFltb. rewrite (SFcompare_flip x y).
  by destruct (SFcompare x y) as [[]|].
Qed.

Lemma fltb_not_fleb x y : fltb x y = true -> fleb y x = false.
Proof.
  unfold fltb, fleb, SFltb, SFleb. rewrite (SFcompare_flip x y).
  by destruct (SFcompare x y) as [[]|].
Qed.

Lemma SFcompare_None x y :
  SFcompare x y = None -> is_nan x = true \/ is_nan y = true.
Proof. destruct x as [sx|[]| |[] mx ex], y as [sy|[]| |[] my ey]; naive_solver. Qed.

Lemma fltb_fleb_total x y :
  is_nan x = false -> is_nan y = false -> fltb x y = negb (fleb y x).
Proof.
  intros Hx Hy. unfold fltb, fleb, SFltb, SFleb. rewrite (SFcompare_flip x y).
  destruct (SFcompare x y) as [[]|] eqn:E; try done.
  apply SFcompare_None in E. destruct E; congruence.
Qed.

(** [int64(x)]: truncation; out of range the amd64 conversion yields the
    smallest integer. *)
Definition f64_trunc (x : float64) : Z :=
  match x with
  | S754_finite s m e =>
      let v := if (0 <=? e)%Z then (Zpos m * 2 ^ e)%Z else (Zpos m / 2 ^ (- e))%Z in
      if s then (- v)%Z else v
  | _ => 0
  end.
Definition f64_to_int64 (x : float64) : Z :=
  if is_finite x && (min_int64 <=? f64_trunc x)%Z && (f64_trunc x <=? max_int64)%Z
  then f64_trunc x else min_int64.

(** Adding zero to a value that is not NaN keeps how it compares. *)
Lemma fadd_f0_r x : fadd x f0 = x \/ (∃ s, x = S754_zero s /\ fadd x f0 = f0).
Proof. destruct x as [[]|[]| |[] m e]; simpl; try (by left); right; eauto. Qed.

Lemma fltb_fadd_f0 x y : fltb x y = true -> fleb (fadd x f0) y = true.
Proof.
  intros Hlt. destruct (fadd_f0_r x) as [->|(s & -> & ->)].
  - by apply fltb_fleb.
  - revert Hlt. unfold fltb, fleb, SFltb, SFleb, f0.
    by destruct y as [s'|[]| |[] m e].
Qed.
