(* ===== verification/GoTime.v ===== *)
(** * Go's [time] package

    Instants are Unix nanoseconds paired with the [Location] they are
    displayed in; durations are [int64] nanoseconds.  A [Location] is the zone
    database of the host: a lookup that gives, for a Unix second, the UTC
    offset in effect and the interval it is in effect for.  [time.Date] and
    [AddDate] are needed for day arithmetic only, where the calendar cancels:
    the civil date of a local time and back is the identity on the local day
    number, so [go_date] works on the local time counted in nanoseconds. *)

From S2P Require Import Prelude Float64.

Record Location := { loc_lookup : Z -> Z * Z * Z  (* offset, start, end *) }.

Record time := mk_time { t_ns : Z; t_loc : Location }.

Definition fixed_zone (offset : Z) : Location :=
  {| loc_lookup := fun _ => (offset, min_int64, max_int64) |}.
Definition UTC : Location := fixed_zone 0.

Definition nanosecond : Z := 1.
Definition second : Z := 1000000000.
Definition minute : Z := 60 * second.
Definition hour : Z := 60 * minute.
Definition day_ns : Z := 24 * hour.

(** The zero [time.Time]: January 1, year 1, 00:00:00 UTC. *)
Definition time_zero : time := mk_time (-62135596800 * second) UTC.
Definition is_zero (t : time) : bool := t_ns t =? t_ns time_zero.

Definition before (t u : time) : bool := t_ns t <? t_ns u.
Definition after (t u : time) : bool := t_ns u <? t_ns t.
Definition time_equal (t u : time) : bool := t_ns t =? t_ns u.

(** [t.Sub(u)] saturates at the bounds of [time.Duration]. *)
Definition time_sub (t u : time) : Z :=
  Z.max min_int64 (Z.min max_int64 (t_ns t - t_ns u)).
Definition time_add (t : time) (d : Z) : time := mk_time (t_ns t + d) (t_loc t).

Definition offset_at (loc : Location) (sec : Z) : Z := (loc_lookup loc sec).1.1.

(** [t.In(loc)], and the local clock of [t] as nanoseconds. *)
Definition time_in (t : time) (loc : Location) : time := mk_time (t_ns t) loc.
Definition local_ns (t : time) : Z :=
  t_ns t + offset_at (t_loc t) (t_ns t / second) * second.

(** [time.Date(...)] from the local clock: the zone is looked up at the
    clock reading, then again at the resulting instant if that instant is
    outside the interval the first offset holds for. *)
Definition go_date (loc : Location) (local : Z) : time :=
  let unix := local / second in
  let nsec := local mod second in
  let '(offset, start, end_) := loc_lookup loc unix in
  if offset =? 0 then mk_time (unix * second + nsec) loc
  else
    let utc := unix - offset in
    let offset' :=
      if (utc <? start) || (end_ <=? utc) then offset_at loc utc else offset in
    mk_time ((unix - offset') * second + nsec) loc.

(** [t.AddDate(0, 0, days)]. *)
Definition add_days (t : time) (days : Z) : time :=
  go_date (t_loc t) (local_ns t + days * day_ns).

(** [time.Date(t.Year(), t.Month(), t.Day(), 0, 0, 0, 0, t.Location())]. *)
Definition start_of_local_day (t : time) : time :=
  go_date (t_loc t) (local_ns t / day_ns * day_ns).

(** ** Laws *)

Lemma before_after t u : before t u = after u t.
Proof. done. Qed.

Lemma not_before_after t u : before t u = false -> time_equal t u = false -> after t u = true.
Proof. unfold before, time_equal, after. intros. bool_lia. Qed.

Lemma time_sub_exact t u :
  in_int64 (t_ns t - t_ns u) -> time_sub t u = t_ns t - t_ns u.
Proof. unfold in_int64, time_sub. lia. Qed.

Lemma time_sub_pos t u : before u t = true -> 0 < time_sub t u.
Proof. unfold before, time_sub, min_int64, max_int64. lia. Qed.
Lemma time_sub_range t u : in_int64 (time_sub t u).
Proof. unfold in_int64, time_sub, min_int64, max_int64. lia. Qed.

(** In a zone with one offset, [go_date] inverts the local clock. *)
Lemma go_date_fixed offset local :
  in_int64 (local / second - offset) ->
  local / second - offset < max_int64 ->
  t_ns (go_date (fixed_zone offset) local) = local - offset * second.
Proof.
  intros Hr Hm. unfold go_date, fixed_zone; simpl.
  pose proof (Z.div_mod local second ltac:(done)) as Hd.
  assert (0 < second) by done.
  destruct (Z.eqb_spec offset 0) as [->|Hne]; simpl.
  { rewrite Z.mul_comm. lia. }
  unfold in_int64 in Hr.
  replace (local / second - offset <? min_int64) with false by (symmetry; bool_lia).
  replace (max_int64 <=? local / second - offset) with false by (symmetry; bool_lia).
  simpl. nia.
Qed.

Lemma add_days_fixed t offset n :
  t_loc t = fixed_zone offset ->
  in_int64 ((t_ns t + n * day_ns) / second) ->
  (t_ns t + n * day_ns) / second < max_int64 ->
  t_ns (add_days t n) = t_ns t + n * day_ns.
Proof.
  intros Hl Hr Hm. unfold add_days, local_ns. rewrite Hl.
  unfold offset_at; simpl.
  assert (Hq : (t_ns t + offset * second + n * day_ns) / second - offset
          = (t_ns t + n * day_ns) / second).
  { replace (t_ns t + offset * second + n * day_ns)
      with (t_ns t + n * day_ns + offset * second) by lia.
    rewrite Z.div_add by done. lia. }
  rewrite go_date_fixed; rewrite ?Hq; [lia|done|done].
Qed.

(** [Duration.Seconds()] *)
Definition duration_seconds (d : Z) : float64 :=
  fadd (f64_of_Z (Z.quot d second)) (fdiv (f64_of_Z (Z.rem d second)) (f64_lit 1 9)).
