(* ===== verification/GoStrings.v ===== *)
(** * Go's [strings] package

    Strings are byte strings.  [TrimSpace] is complete (every Unicode space
    has one UTF-8 encoding, so trimming runes is trimming those byte
    sequences).  Case mapping takes Go's ASCII path on ASCII strings; on other
    strings it uses the Unicode tables of the [unicode] package, which the
    class [UnicodeCase] stands for. *)

From Stdlib Require OrderedTypeEx.
From S2P Require Import Prelude.
From Stdlib Require Import Ascii String.

Definition bytes := list ascii.
Definition to_bytes (s : string) : bytes := list_ascii_of_string s.
Definition of_bytes (l : bytes) : string := string_of_list_ascii l.

Lemma to_of_bytes l : to_bytes (of_bytes l) = l.
Proof. apply list_ascii_of_string_of_list_ascii. Qed.
Lemma of_to_bytes s : of_bytes (to_bytes s) = s.
Proof. apply string_of_list_ascii_of_string. Qed.

Definition byte_val (c : ascii) : Z := Z.of_N (N_of_ascii c).
Definition byte_of (n : N) : ascii := ascii_of_N n.

(** [len(s)] *)
Definition str_len (s : string) : Z := Z.of_nat (String.length s).
Definition str_empty (s : string) : bool :=
  match s with EmptyString => true | _ => false end.

Lemma str_empty_true s : str_empty s = true <-> s = EmptyString.
Proof. by destruct s. Qed.
Lemma str_empty_false s : str_empty s = false <-> s ≠ EmptyString.
Proof. by destruct s. Qed.

(** ** Prefixes and suffixes *)

Fixpoint strip_prefix (p l : bytes) : option bytes :=
  match p, l with
  | [], _ => Some l
  | a :: p', b :: l' => if Ascii.eqb a b then strip_prefix p' l' else None
  | _ :: _, [] => None
  end.

Lemma strip_prefix_Some p l r : strip_prefix p l = Some r <-> l = p ++ r.
Proof.
  revert l. induction p as [|a p IH]; intros [|b l]; simpl; try naive_solver.
  destruct (Ascii.eqb_spec a b) as [->|Hne].
  - rewrite IH. naive_solver.
  - naive_solver.
Qed.

Definition HasPrefix (s p : string) : bool :=
  match strip_prefix (to_bytes p) (to_bytes s) with Some _ => true | None => false end.

Definition HasSuffix (s p : string) : bool :=
  match strip_prefix (rev (to_bytes p)) (rev (to_bytes s)) with
  | Some _ => true | None => false end.

Definition TrimSuffix (s p : string) : string :=
  match strip_prefix (rev (to_bytes p)) (rev (to_bytes s)) with
  | Some r => of_bytes (rev r) | None => s end.

Definition TrimPrefix (s p : string) : string :=
  match strip_prefix (to_bytes p) (to_bytes s) with
  | Some r => of_bytes r | None => s end.

Fixpoint contains_bytes (s p : bytes) : bool :=
  match strip_prefix p s with
  | Some _ => true
  | None => match s with [] => false | _ :: s' => contains_bytes s' p end
  end.
Definition Contains (s p : string) : bool := contains_bytes (to_bytes s) (to_bytes p).

(** [strings.Count(s, sub)] for a one-byte [sub]. *)
Definition count_byte (s : string) (c : ascii) : Z :=
  Z.of_nat (List.length (List.filter (Ascii.eqb c) (to_bytes s))).

Lemma HasPrefix_spec s p : HasPrefix s p = true <-> ∃ r, to_bytes s = to_bytes p ++ r.
Proof.
  unfold HasPrefix. destruct (strip_prefix _ _) as [r|] eqn:E.
  - apply strip_prefix_Some in E. split; eauto.
  - split; [done|]. intros [r Hr]. apply strip_prefix_Some in Hr. congruence.
Qed.

Lemma HasSuffix_spec s p : HasSuffix s p = true <-> ∃ r, to_bytes s = r ++ to_bytes p.
Proof.
  unfold HasSuffix. destruct (strip_prefix _ _) as [r|] eqn:E.
  - split; [intros _|done]. apply strip_prefix_Some in E.
    exists (rev r). rewrite <- (rev_involutive (to_bytes s)), E, rev_app_distr.
    by rewrite rev_involutive.
  - split; [done|]. intros [r Hr].
    assert (strip_prefix (rev (to_bytes p)) (rev (to_bytes s)) = Some (rev r)) as H.
    { apply strip_prefix_Some. by rewrite Hr, rev_app_distr. }
    congruence.
Qed.

Lemma TrimSuffix_spec s p r :
  to_bytes s = to_bytes r ++ to_bytes p -> TrimSuffix s p = r.
Proof.
  intros Hs. unfold TrimSuffix.
  assert (strip_prefix (rev (to_bytes p)) (rev (to_bytes s)) = Some (rev (to_bytes r))) as ->.
  { apply strip_prefix_Some. by rewrite Hs, rev_app_distr. }
  by rewrite rev_involutive, of_to_bytes.
Qed.

Lemma contains_bytes_spec s p : contains_bytes s p = true <-> ∃ a b, s = a ++ p ++ b.
Proof.
  induction s as [|c s IH]; simpl.
  - destruct p as [|d p]; simpl.
    + split; [intros _; by exists [], []|done].
    + split; [done|]. intros (a & b & H). by destruct a.
  - destruct (strip_prefix p (c :: s)) as [r|] eqn:E.
    + apply strip_prefix_Some in E. split; [intros _; by exists [], r|done].
    + rewrite IH. split.
      * intros (a & b & ->). by exists (c :: a), b.
      * intros ([|c' a] & b & H); simpl in H.
        { symmetry in H. symmetry in H. apply strip_prefix_Some in H. congruence. }
        injection H as -> ->. eauto.
Qed.

(** ** [TrimSpace] *)

(** The UTF-8 encodings of the runes of [unicode.IsSpace]. *)
Definition space_encodings : list bytes :=
  map (map byte_of)
   ([[9]; [10]; [11]; [12]; [13]; [32]; [194; 133]; [194; 160];
     [225; 154; 128];
     [226; 128; 128]; [226; 128; 129]; [226; 128; 130]; [226; 128; 131];
     [226; 128; 132]; [226; 128; 133]; [226; 128; 134]; [226; 128; 135];
     [226; 128; 136]; [226; 128; 137]; [226; 128; 138];
     [226; 128; 168]; [226; 128; 169]; [226; 128; 175]; [226; 129; 159];
     [227; 128; 128]]%N).

Fixpoint strip_any (es : list bytes) (l : bytes) : option bytes :=
  match es with
  | [] => None
  | e :: es' => match strip_prefix e l with Some r => Some r | None => strip_any es' l end
  end.

Fixpoint trim_left (es : list bytes) (fuel : nat) (l : bytes) : bytes :=
  match fuel with
  | O => l
  | S fuel' => match strip_any es l with Some r => trim_left es fuel' r | None => l end
  end.

Definition trim_space_left (l : bytes) : bytes :=
  trim_left space_encodings (List.length l) l.
Definition trim_space_right (l : bytes) : bytes :=
  rev (trim_left (map (@rev ascii) space_encodings) (List.length l) (rev l)).
Definition TrimSpace (s : string) : string :=
  of_bytes (trim_space_right (trim_space_left (to_bytes s))).

Lemma strip_any_Some es l r :
  strip_any es l = Some r -> ∃ e, e ∈ es /\ l = e ++ r.
Proof.
  induction es as [|e es IH]; simpl; [done|].
  destruct (strip_prefix e l) as [r'|] eqn:E.
  - intros [= ->]. apply strip_prefix_Some in E. exists e. set_solver.
  - intros H. destruct (IH H) as (e' & ? & ?). exists e'. set_solver.
Qed.

Lemma strip_any_None es l :
  strip_any es l = None <-> ∀ e, e ∈ es -> strip_prefix e l = None.
Proof.
  induction es as [|e es IH]; simpl.
  - split; [intros _ e He; set_solver|done].
  - destruct (strip_prefix e l) eqn:E.
    + split; [done|]. intros H. specialize (H e). rewrite E in H.
      exfalso. discriminate H. set_solver.
    + rewrite IH. split; intros H e' He'; [|apply H; set_solver].
      apply elem_of_cons in He' as [->|He']; [done|by apply H].
Qed.

(** With the length as fuel, [trim_left] stops on a list none of the
    sequences is a prefix of, and only removes a prefix. *)
Lemma trim_left_spec es fuel l :
  Forall (λ e, e ≠ []) es -> (List.length l <= fuel)%nat ->
  strip_any es (trim_left es fuel l) = None /\ ∃ p, l = p ++ trim_left es fuel l.
Proof.
  intros Hes. revert l. induction fuel as [|fuel IH]; intros l Hl; simpl.
  - destruct l; simpl in Hl; [|lia]. split; [|by exists []].
    apply strip_any_None. intros e He. rewrite Forall_forall in Hes.
    by destruct e; [specialize (Hes _ He)|].
  - destruct (strip_any es l) as [r|] eqn:E.
    + destruct (strip_any_Some _ _ _ E) as (e & He & ->).
      rewrite Forall_forall in Hes. specialize (Hes _ He).
      rewrite length_app in Hl. assert (List.length e ≠ 0%nat) by (by destruct e).
      destruct (IH r ltac:(lia)) as [H1 [p Hp]]. split; [done|].
      exists (e ++ p). rewrite <- app_assoc. by rewrite <- Hp.
    + split; [done|by exists []].
Qed.

Lemma trim_left_fixed es fuel l : strip_any es l = None -> trim_left es fuel l = l.
Proof. intros H. by destruct fuel; simpl; rewrite ?H. Qed.

Lemma strip_any_app_None es l r :
  strip_any es (l ++ r) = None -> strip_any es l = None.
Proof.
  rewrite !strip_any_None. intros H e He. specialize (H e He).
  destruct (strip_prefix e l) as [r'|] eqn:E; [|done].
  apply strip_prefix_Some in E as ->. rewrite <- app_assoc in H.
  assert (strip_prefix e (e ++ r' ++ r) = Some (r' ++ r)) by (by apply strip_prefix_Some).
  congruence.
Qed.

Lemma space_encodings_nonempty : Forall (λ e, e ≠ []) space_encodings.
Proof. repeat constructor; done. Qed.
Lemma space_encodings_rev_nonempty :
  Forall (λ e, e ≠ []) (map (@rev ascii) space_encodings).
Proof. repeat constructor; done. Qed.

(** A trimmed string starts and ends with no space. *)
Lemma TrimSpace_trimmed s :
  strip_any space_encodings (to_bytes (TrimSpace s)) = None /\
  strip_any (map (@rev ascii) space_encodings) (rev (to_bytes (TrimSpace s))) = None.
Proof.
  unfold TrimSpace. rewrite to_of_bytes.
  set (l := to_bytes s).
  destruct (trim_left_spec space_encodings (List.length l) l
              space_encodings_nonempty ltac:(lia)) as [H1 _].
  fold (trim_space_left l) in H1. set (l1 := trim_space_left l) in *.
  destruct (trim_left_spec (map (@rev ascii) space_encodings) (List.length l1) (rev l1)
              space_encodings_rev_nonempty ltac:(rewrite length_rev; lia)) as [H2 [p Hp]].
  unfold trim_space_right. rewrite rev_involutive. split; [|done].
  apply (strip_any_app_None _ _ (rev p)). rewrite <- rev_app_distr, <- Hp.
  by rewrite rev_involutive.
Qed.

Lemma TrimSpace_idem s : TrimSpace (TrimSpace s) = TrimSpace s.
Proof.
  destruct (TrimSpace_trimmed s) as [H1 H2]. set (t := TrimSpace s) in *.
  unfold TrimSpace at 1, trim_space_left. rewrite trim_left_fixed by done.
  unfold trim_space_right. rewrite trim_left_fixed by done.
  by rewrite rev_involutive, of_to_bytes.
Qed.

(** A byte of no space is kept. *)
Lemma trim_left_keeps c es fuel l :
  (∀ e, e ∈ es -> c ∉ e) -> c ∈ l -> c ∈ trim_left es fuel l.
Proof.
  intros Hes. revert l. induction fuel as [|fuel IH]; cbn; intros l Hc; [done|].
  destruct (strip_any es l) as [r|] eqn:E; [|done]. apply IH.
  apply strip_any_Some in E as (e & He & ->). apply elem_of_app in Hc as [Hc|Hc]; [|done].
  by destruct (Hes e He).
Qed.

Lemma TrimSpace_keeps c s :
  forallb (λ e, forallb (λ b, negb (Ascii.eqb c b)) e) space_encodings = true ->
  c ∈ to_bytes s -> c ∈ to_bytes (TrimSpace s).
Proof.
  intros Hne Hc. assert (∀ e, e ∈ space_encodings -> c ∉ e) as He.
  { intros e Hin%list_elem_of_In Hce%list_elem_of_In. rewrite forallb_forall in Hne.
    specialize (Hne e Hin). rewrite forallb_forall in Hne. specialize (Hne c Hce).
    by rewrite Ascii.eqb_refl in Hne. }
  unfold TrimSpace, trim_space_right, trim_space_left. rewrite to_of_bytes.
  apply list_elem_of_In, in_rev. rewrite rev_involutive. apply list_elem_of_In.
  apply trim_left_keeps.
  - intros e [e' [-> He']]%list_elem_of_fmap H%list_elem_of_In%in_rev%list_elem_of_In. by eapply He.
  - apply list_elem_of_In. rewrite <- in_rev. apply list_elem_of_In.
    by apply trim_left_keeps.
Qed.

(** ** Case mapping *)

Class UnicodeCase := {
  u_to_lower : string -> string;
  u_to_upper : string -> string;
  u_equal_fold : string -> string -> bool
}.

Definition is_ascii_byte (c : ascii) : bool := byte_val c <? 128.
Definition is_ascii (s : string) : bool := forallb is_ascii_byte (to_bytes s).

Definition lower_byte (c : ascii) : ascii :=
  let n := N_of_ascii c in
  if ((65 <=? n) && (n <=? 90))%N then ascii_of_N (n + 32) else c.
Definition upper_byte (c : ascii) : ascii :=
  let n := N_of_ascii c in
  if ((97 <=? n) && (n <=? 122))%N then ascii_of_N (n - 32) else c.

Definition ascii_lower (s : string) : string := of_bytes (map lower_byte (to_bytes s)).
Definition ascii_upper (s : string) : string := of_bytes (map upper_byte (to_bytes s)).

Definition ToLower `{UnicodeCase} (s : string) : string :=
  if is_ascii s then ascii_lower s else u_to_lower s.
Definition ToUpper `{UnicodeCase} (s : string) : string :=
  if is_ascii s then ascii_upper s else u_to_upper s.
Definition EqualFold `{UnicodeCase} (s t : string) : bool :=
  if is_ascii s && is_ascii t then String.eqb (ascii_lower s) (ascii_lower t)
  else u_equal_fold s t.

(** A concrete instance for evaluation on ASCII inputs. *)
Definition ascii_only_case : UnicodeCase := {|
  u_to_lower := fun s => s; u_to_upper := fun s => s;
  u_equal_fold := String.eqb |}.

Lemma all_bytes (P : ascii -> bool) :
  forallb P (map ascii_of_nat (seq 0 256)) = true -> ∀ c, P c = true.
Proof.
  rewrite forallb_forall. intros H c. apply H, in_map_iff.
  exists (nat_of_ascii c). rewrite ascii_nat_embedding. split; [done|].
  apply in_seq. pose proof (nat_ascii_bounded c). lia.
Qed.

Lemma lower_byte_idem c : lower_byte (lower_byte c) = lower_byte c.
Proof.
  apply Ascii.eqb_eq, (all_bytes (λ c, Ascii.eqb (lower_byte (lower_byte c)) (lower_byte c))).
  vm_compute. reflexivity.
Qed.

Lemma lower_byte_ascii c : is_ascii_byte (lower_byte c) = is_ascii_byte c.
Proof.
  apply eqb_prop, (all_bytes (λ c, Bool.eqb (is_ascii_byte (lower_byte c)) (is_ascii_byte c))).
  vm_compute. reflexivity.
Qed.

Lemma is_ascii_lower s : is_ascii (ascii_lower s) = is_ascii s.
Proof.
  unfold is_ascii, ascii_lower. rewrite to_of_bytes.
  induction (to_bytes s) as [|c l IH]; simpl; [done|]. by rewrite lower_byte_ascii, IH.
Qed.

Lemma ascii_lower_idem s : ascii_lower (ascii_lower s) = ascii_lower s.
Proof.
  unfold ascii_lower. rewrite to_of_bytes, map_map. f_equal.
  apply map_ext. apply lower_byte_idem.
Qed.

Lemma ToLower_idem_ascii `{UnicodeCase} s :
  is_ascii s = true -> ToLower (ToLower s) = ToLower s.
Proof.
  intros Hs. unfold ToLower at 2 3. rewrite Hs.
  unfold ToLower. by rewrite is_ascii_lower, Hs, ascii_lower_idem.
Qed.

Lemma is_ascii_app l1 l2 :
  forallb is_ascii_byte (l1 ++ l2) = forallb is_ascii_byte l1 && forallb is_ascii_byte l2.
Proof. apply forallb_app. Qed.

(** [strings.HasPrefix] and friends only look at bytes; a string is equal to
    another exactly when their bytes are. *)
Lemma to_bytes_inj s t : to_bytes s = to_bytes t -> s = t.
Proof. intros H. by rewrite <- (of_to_bytes s), H, of_to_bytes. Qed.

(** ** The byte order of strings *)

Lemma string_ltb_lt s t : String.ltb s t = true <-> OrderedTypeEx.String_as_OT.lt s t.
Proof.
  unfold String.ltb. rewrite <- OrderedTypeEx.String_as_OT.cmp_lt.
  unfold OrderedTypeEx.String_as_OT.cmp. by destruct (String.compare s t).
Qed.

Lemma string_ltb_asym s t : String.ltb s t = true -> String.ltb t s = false.
Proof.
  unfold String.ltb. rewrite (String.compare_antisym t s). by destruct (String.compare s t).
Qed.

Lemma string_ltb_false s t : String.ltb s t = false <-> s = t \/ String.ltb t s = true.
Proof.
  unfold String.ltb. rewrite (String.compare_antisym t s).
  destruct (String.compare s t) eqn:E; simpl; split; try done; try (by right).
  - intros _. left. by apply String.compare_eq_iff.
  - intros [->|]; [|done]. exfalso.
    pose proof (String.compare_antisym t t) as H. rewrite E in H. done.
Qed.

Lemma string_ltb_false_trans s t u :
  String.ltb t s = false -> String.ltb u t = false -> String.ltb u s = false.
Proof.
  rewrite !string_ltb_false. intros [->|H1] [->|H2]; auto.
  right. rewrite string_ltb_lt in *. by eapply OrderedTypeEx.String_as_OT.lt_trans.
Qed.
