(* ===== verification/PlatformModels.v ===== *)
(** * Platform model rules

    [service/platform.go] and [service/platform_model_rules.go]: the rules
    that map a requested model to the platforms that serve it, their
    validation, and the two lookups ([ListCandidates], [Resolve]) of
    [platformModelResolver]. *)

From Stdlib Require Import Ascii.
From S2P Require Import Prelude GoErrors GoTime GoStrings.

(** ** Errors *)

Definition ErrPlatformInvalid : error :=
  BadRequest "INVALID_PLATFORM" "invalid platform configuration".
Definition ErrPlatformModelNotFound : error :=
  NotFound "PLATFORM_MODEL_NOT_FOUND" "model is not assigned to an active platform".
Definition ErrPlatformModelAmbiguous : error :=
  Conflict "PLATFORM_MODEL_AMBIGUOUS" "model matches multiple platform rules".
Definition ErrPlatformModelRule : error :=
  BadRequest "INVALID_PLATFORM_MODEL_RULE" "invalid platform model rule".

(** ** Data *)

Record PlatformModelRule := {
  rule_ID : Z;
  rule_PlatformID : Z;
  rule_PlatformCode : string;
  rule_AccountPlatform : string;
  rule_ModelPattern : string;
  rule_UpstreamModel : string;
  rule_EndpointCapabilities : list string;
  rule_Enabled : bool;
  rule_CreatedAt : time;
  rule_UpdatedAt : time
}.

Record ResolvedPlatformModel := {
  rp_PlatformID : Z;
  rp_PlatformCode : string;
  rp_AccountPlatform : string;
  rp_RequestedModel : string;
  rp_UpstreamModel : string;
  rp_EndpointCapabilities : list string;
  rp_MatchPriority : Z;
  rp_RuleID : Z
}.

(** [Platform.IsActive] *)
Definition PlatformStatusActive : string := "active".
Definition platform_IsActive (status : string) : bool :=
  str_empty status || String.eqb status PlatformStatusActive.

Section Rules.
Context {UC : UnicodeCase}.

(** ** Patterns *)

Definition normalizePlatformModelPattern (raw : string) : result (string * bool) :=
  let pattern := ToLower (TrimSpace raw) in
  if str_empty pattern || (1 <? count_byte pattern "*"%char)
     || (Contains pattern "*" && negb (HasSuffix pattern "*"))
  then Err (EWrap "%w: model pattern %q must be exact or use one suffix wildcard"
              ErrPlatformModelRule)
  else Ok (pattern, HasSuffix pattern "*").

Definition platformModelRuleMatches (requested pattern : string) (wildcard : bool) : bool :=
  if wildcard then HasPrefix requested (TrimSuffix pattern "*")
  else String.eqb requested pattern.

(** ** Validation

    The duplicate key [fmt.Sprintf("%d:%s", id, pattern)] is the pair: the
    decimal id holds no colon. *)

Fixpoint validate_rules_loop (seen : gset (Z * string)) (rules : list PlatformModelRule)
  : result unit :=
  match rules with
  | [] => Ok tt
  | rule :: rules' =>
    if negb (rule_Enabled rule) then validate_rules_loop seen rules' else
    let? pw := normalizePlatformModelPattern (rule_ModelPattern rule) in
    if rule_PlatformID rule <=? 0
    then Err (EWrap "%w: platform id is required" ErrPlatformModelRule) else
    let key := (rule_PlatformID rule, pw.1) in
    if decide (key ∈ seen)
    then Err (EWrap "%w: duplicate pattern %q on platform %d" ErrPlatformModelRule)
    else validate_rules_loop ({[key]} ∪ seen) rules'
  end.

Definition validatePlatformModelRules (rules : list PlatformModelRule) : result unit :=
  validate_rules_loop ∅ rules.

(** ** Lookup *)

Definition match_priority (pattern : string) (wildcard : bool) : Z :=
  let priority := str_len (TrimSuffix pattern "*") in
  if wildcard then priority else priority + 1000000.

(** One iteration of the loop of [ListCandidates]. *)
Definition rule_candidate (requested : string) (rule : PlatformModelRule)
  : option ResolvedPlatformModel :=
  if negb (rule_Enabled rule) then None else
  match normalizePlatformModelPattern (rule_ModelPattern rule) with
  | Err _ => None
  | Ok (pattern, wildcard) =>
    if negb (platformModelRuleMatches (ToLower requested) pattern wildcard) then None
    else Some {|
      rp_PlatformID := rule_PlatformID rule;
      rp_PlatformCode := rule_PlatformCode rule;
      rp_AccountPlatform := rule_AccountPlatform rule;
      rp_RequestedModel := requested;
      rp_UpstreamModel :=
        if str_empty (rule_UpstreamModel rule) then requested else rule_UpstreamModel rule;
      rp_EndpointCapabilities := rule_EndpointCapabilities rule;
      rp_MatchPriority := match_priority pattern wildcard;
      rp_RuleID := rule_ID rule |}
  end.

Definition candidate_less (left right : ResolvedPlatformModel) : bool :=
  if negb (rp_MatchPriority left =? rp_MatchPriority right)
  then rp_MatchPriority right <? rp_MatchPriority left
  else rp_RuleID left <? rp_RuleID right.

Definition ListCandidates (rules : list PlatformModelRule) (requestedModel : string)
  : result (list ResolvedPlatformModel) :=
  let requested := TrimSpace requestedModel in
  if str_empty requested then Err ErrPlatformModelNotFound else
  let candidates := omap (rule_candidate requested) rules in
  if is_nil candidates then Err ErrPlatformModelNotFound
  else Ok (stable_sort candidate_less candidates).

(** The scan of [Resolve] over [candidates[1:]]. *)
Fixpoint resolve_scan (bestPriority bestPlatformID : Z)
  (candidates : list ResolvedPlatformModel) : bool :=
  match candidates with
  | [] => true
  | c :: cs =>
    if negb (rp_MatchPriority c =? bestPriority) then true
    else if negb (rp_PlatformID c =? bestPlatformID) then false
    else resolve_scan bestPriority bestPlatformID cs
  end.

Definition Resolve (rules : list PlatformModelRule) (requestedModel : string)
  : result ResolvedPlatformModel :=
  let? candidates := ListCandidates rules requestedModel in
  match candidates with
  | [] => Err ErrPlatformModelNotFound  (* unreachable: the list is never empty *)
  | best :: rest =>
    if resolve_scan (rp_MatchPriority best) (rp_PlatformID best) rest
    then Ok best else Err ErrPlatformModelAmbiguous
  end.

(** [normalizeEndpointCapabilities] *)
Fixpoint endpoint_caps_loop (seen : gset string) (caps : list string) : list string :=
  match caps with
  | [] => []
  | c :: cs =>
    let capability := ToLower (TrimSpace c) in
    if str_empty capability then endpoint_caps_loop seen cs
    else if decide (capability ∈ seen) then endpoint_caps_loop seen cs
    else capability :: endpoint_caps_loop ({[capability]} ∪ seen) cs
  end.
Definition normalizeEndpointCapabilities (capabilities : list string) : list string :=
  stable_sort String.ltb (endpoint_caps_loop ∅ capabilities).

(** ** Lemmas *)

Lemma candidate_less_asym x y : candidate_less x y = true -> candidate_less y x = false.
Proof.
  unfold candidate_less. rewrite (Z.eqb_sym (rp_MatchPriority y)).
  destruct (_ =? _); simpl; intros; bool_lia.
Qed.

Lemma candidate_less_trans x y z :
  candidate_less y x = false -> candidate_less z y = false -> candidate_less z x = false.
Proof.
  unfold candidate_less.
  destruct (Z.eqb_spec (rp_MatchPriority y) (rp_MatchPriority x)),
    (Z.eqb_spec (rp_MatchPriority z) (rp_MatchPriority y)),
    (Z.eqb_spec (rp_MatchPriority z) (rp_MatchPriority x)); simpl; intros; bool_lia.
Qed.

(** The order of a candidate list: better first. *)
Definition ranked (l : list ResolvedPlatformModel) : Prop :=
  StronglySorted (not_after candidate_less) l.

Lemma not_after_priority x y :
  not_after candidate_less x y -> rp_MatchPriority y <= rp_MatchPriority x.
Proof.
  unfold not_after, candidate_less.
  destruct (Z.eqb_spec (rp_MatchPriority y) (rp_MatchPriority x)); simpl; intros; bool_lia.
Qed.

Lemma elem_of_omap_candidates requested (rules : list PlatformModelRule) c :
  c ∈ (omap (rule_candidate requested) rules : list ResolvedPlatformModel) <->
  ∃ r, r ∈ rules /\ rule_candidate requested r = Some c.
Proof. rewrite list_elem_of_omap. done. Qed.

Lemma ListCandidates_Ok rules m cs :
  ListCandidates rules m = Ok cs ->
  cs = stable_sort candidate_less (omap (rule_candidate (TrimSpace m)) rules) /\
  cs ≠ [] /\ TrimSpace m ≠ ""%string.
Proof.
  unfold ListCandidates. destruct (str_empty _) eqn:E; [done|].
  destruct (is_nil _) eqn:E2; [done|]. intros [= <-]. split; [done|].
  apply is_nil_false in E2. split; [|by apply str_empty_false].
  intros Hs. apply E2, Permutation_nil_r. rewrite <- (stable_sort_perm candidate_less).
  by rewrite Hs.
Qed.

Lemma ListCandidates_ranked rules m cs : ListCandidates rules m = Ok cs -> ranked cs.
Proof.
  intros H1. apply ListCandidates_Ok in H1 as [-> _].
  apply stable_sort_sorted; [apply candidate_less_asym|apply candidate_less_trans].
Qed.

Lemma rule_candidate_Some requested rule c :
  rule_candidate requested rule = Some c ->
  rule_Enabled rule = true /\
  ∃ pattern wildcard,
    normalizePlatformModelPattern (rule_ModelPattern rule) = Ok (pattern, wildcard) /\
    platformModelRuleMatches (ToLower requested) pattern wildcard = true /\
    rp_MatchPriority c = match_priority pattern wildcard /\
    rp_PlatformID c = rule_PlatformID rule /\ rp_RuleID c = rule_ID rule.
Proof.
  unfold rule_candidate. destruct (rule_Enabled rule); [|done]. simpl.
  destruct (normalizePlatformModelPattern _) as [[p w]|]; [|done].
  destruct (platformModelRuleMatches _ _ _) eqn:Em; [|done].
  intros [= <-]. simpl. split; [done|]. by exists p, w.
Qed.

(** What [resolve_scan] decides on a ranked list: the candidates that tie with
    the best one are all on its platform. *)
Lemma resolve_scan_spec best rest :
  ranked (best :: rest) ->
  resolve_scan (rp_MatchPriority best) (rp_PlatformID best) rest = true <->
  (∀ c, c ∈ rest -> rp_MatchPriority c = rp_MatchPriority best ->
        rp_PlatformID c = rp_PlatformID best).
Proof.
  induction rest as [|c rest IH]; intros Hr; simpl.
  { split; [intros _ c Hc; set_solver|done]. }
  inversion_clear Hr as [|? ? Hs Hb].
  apply Forall_cons in Hb as [Hbc Hbr].
  inversion_clear Hs as [|? ? Hs' Hc].
  assert (Hr' : ranked (best :: rest)) by (by constructor).
  apply not_after_priority in Hbc as Hle.
  destruct (Z.eqb_spec (rp_MatchPriority c) (rp_MatchPriority best)) as [Ep|Ep]; simpl.
  - destruct (Z.eqb_spec (rp_PlatformID c) (rp_PlatformID best)) as [Ei|Ei]; simpl.
    + rewrite IH by done. split; intros Hx d Hd; [|apply Hx; set_solver].
      apply elem_of_cons in Hd as [->|Hd]; auto.
    + split; [done|]. intros Hx. exfalso. apply Ei, Hx; [set_solver|done].
  - split; [|done]. intros _ d Hd Ed. exfalso.
    apply elem_of_cons in Hd as [->|Hd]; [done|].
    rewrite Forall_forall in Hc. specialize (Hc d Hd).
    apply not_after_priority in Hc. lia.
Qed.

(** ** Properties *)

(** Every candidate is an enabled rule that matches, every enabled matching
    rule is a candidate, and the list is never empty. *)
Theorem ListCandidates_complete rules m cs c :
  ListCandidates rules m = Ok cs ->
  (c ∈ cs <-> ∃ r, r ∈ rules /\ rule_candidate (TrimSpace m) r = Some c) /\ cs ≠ [].
Proof.
  intros H1. apply ListCandidates_Ok in H1 as [-> [Hne _]].
  split; [|done]. by rewrite elem_of_stable_sort, elem_of_omap_candidates.
Qed.

(** The platform a model resolves to is the candidate of highest priority when
    no other platform has a candidate of that priority; a tie between two
    platforms is reported as ambiguous, and a model without a candidate as not
    found: no other error leaves the function. *)
Theorem Resolve_spec rules m :
  match Resolve rules m with
  | Ok best =>
    ∃ cs, ListCandidates rules m = Ok cs /\ best ∈ cs /\
      ∀ c, c ∈ cs -> rp_MatchPriority c <= rp_MatchPriority best /\
        (rp_MatchPriority c = rp_MatchPriority best -> rp_PlatformID c = rp_PlatformID best)
  | Err e =>
    (e = ErrPlatformModelAmbiguous /\ ∃ cs a b, ListCandidates rules m = Ok cs /\
       a ∈ cs /\ b ∈ cs /\ rp_PlatformID a ≠ rp_PlatformID b /\
       rp_MatchPriority a = rp_MatchPriority b /\
       ∀ c, c ∈ cs -> rp_MatchPriority c <= rp_MatchPriority a)
    \/ (e = ErrPlatformModelNotFound /\ ListCandidates rules m = Err e)
  end.
Proof.
  unfold Resolve. destruct (ListCandidates rules m) as [cs|e] eqn:E; simpl.
  2:{ right. split; [|done]. unfold ListCandidates in E.
      repeat case_match; by simplify_eq. }
  pose proof (ListCandidates_ranked _ _ _ E) as Hr.
  apply ListCandidates_Ok in E as [_ [Hne _]].
  destruct cs as [|best rest]; [done|].
  pose proof (resolve_scan_spec best rest Hr) as Hs.
  inversion_clear Hr as [|? ? _ Hb]. rewrite Forall_forall in Hb.
  assert (Hle : ∀ c, c ∈ best :: rest -> rp_MatchPriority c <= rp_MatchPriority best).
  { intros c Hc. apply elem_of_cons in Hc as [->|Hc]; [lia|].
    by apply not_after_priority, Hb. }
  destruct (resolve_scan _ _ rest) eqn:Es.
  - exists (best :: rest). split; [done|]. split; [set_solver|]. intros c Hc.
    split; [by apply Hle|]. apply elem_of_cons in Hc as [->|Hc]; [done|].
    by apply (proj1 Hs).
  - left. split; [done|]. exists (best :: rest), best.
    assert (∃ c, c ∈ rest /\ rp_MatchPriority c = rp_MatchPriority best /\
                 rp_PlatformID c ≠ rp_PlatformID best) as (b & Hb1 & Hb2 & Hb3).
    { clear -Es. induction rest as [|c rest IH]; [done|]. simpl in Es.
      destruct (Z.eqb_spec (rp_MatchPriority c) (rp_MatchPriority best)); [|done].
      destruct (Z.eqb_spec (rp_PlatformID c) (rp_PlatformID best)); simpl in Es.
      - destruct (IH Es) as (d & ? & ?). exists d. split; [set_solver|done].
      - exists c. split; [set_solver|done]. }
    exists b. split; [done|]. split; [set_solver|]. split; [set_solver|].
    split; [congruence|]. split; [congruence|done].
Qed.

(** An exact rule always outranks a wildcard rule whose pattern has fewer than
    a million bytes, the bound the constant of the code stands for. *)
Theorem exact_outranks_wildcard requested r1 r2 c1 c2 p1 p2 :
  rule_candidate requested r1 = Some c1 -> rule_candidate requested r2 = Some c2 ->
  normalizePlatformModelPattern (rule_ModelPattern r1) = Ok (p1, false) ->
  normalizePlatformModelPattern (rule_ModelPattern r2) = Ok (p2, true) ->
  str_len (TrimSuffix p2 "*") < 1000000 ->
  candidate_less c1 c2 = true.
Proof.
  intros H1 H2 N1 N2 Hlen.
  apply rule_candidate_Some in H1 as (_ & q1 & w1 & E1 & _ & P1 & _).
  apply rule_candidate_Some in H2 as (_ & q2 & w2 & E2 & _ & P2 & _).
  rewrite N1 in E1. rewrite N2 in E2. simplify_eq.
  unfold candidate_less. rewrite P1, P2. unfold match_priority.
  assert (0 <= str_len (TrimSuffix q1 "*")) by (unfold str_len; lia).
  destruct (Z.eqb_spec (str_len (TrimSuffix q1 "*") + 1000000)
              (str_len (TrimSuffix q2 "*"))); simpl; bool_lia.
Qed.

Lemma validate_rules_loop_seen seen (rules : list PlatformModelRule) (i : nat) r pat w :
  validate_rules_loop seen rules = Ok tt -> rules !! i = Some r ->
  rule_Enabled r = true -> normalizePlatformModelPattern (rule_ModelPattern r) = Ok (pat, w) ->
  (rule_PlatformID r, pat) ∉ seen /\ 0 < rule_PlatformID r.
Proof.
  revert seen i. induction rules as [|r' rules IH]; intros seen i; [done|]. simpl.
  intros Hv Hi He Hn. destruct i as [|i]; simpl in Hi.
  - simplify_eq. rewrite He, Hn in Hv. simpl in Hv.
    destruct (Z.leb_spec (rule_PlatformID r) 0); [done|].
    case_decide; [done|]. split; [done|lia].
  - destruct (rule_Enabled r'); simpl in Hv; [|eauto].
    destruct (normalizePlatformModelPattern (rule_ModelPattern r')) as [[p' w']|]; [|done].
    simpl in Hv. destruct (rule_PlatformID r' <=? 0); [done|].
    case_decide; [done|]. edestruct IH as [Hs ?]; eauto. split; [set_solver|done].
Qed.

(** Validated rules: two enabled rules of one platform never share a
    normalised pattern. *)
Theorem validatePlatformModelRules_unique (rules : list PlatformModelRule) (i j : nat) ri rj pi pj wi wj :
  validatePlatformModelRules rules = Ok tt ->
  i ≠ j -> rules !! i = Some ri -> rules !! j = Some rj ->
  rule_Enabled ri = true -> rule_Enabled rj = true ->
  normalizePlatformModelPattern (rule_ModelPattern ri) = Ok (pi, wi) ->
  normalizePlatformModelPattern (rule_ModelPattern rj) = Ok (pj, wj) ->
  (rule_PlatformID ri, pi) ≠ (rule_PlatformID rj, pj).
Proof.
  unfold validatePlatformModelRules. generalize (∅ : gset (Z * string)).
  assert (∀ (rules : list PlatformModelRule) seen (i j : nat) ri rj pi pj wi wj, (i < j)%nat ->
    validate_rules_loop seen rules = Ok tt ->
    rules !! i = Some ri -> rules !! j = Some rj ->
    rule_Enabled ri = true -> rule_Enabled rj = true ->
    normalizePlatformModelPattern (rule_ModelPattern ri) = Ok (pi, wi) ->
    normalizePlatformModelPattern (rule_ModelPattern rj) = Ok (pj, wj) ->
    (rule_PlatformID ri, pi) ≠ (rule_PlatformID rj, pj)) as Hlt.
  { clear. induction rules as [|r rules IH]; intros seen i j ri rj pi pj wi wj Hij; [done|].
    simpl. intros Hv Hi Hj Ei Ej Ni Nj. destruct j as [|j]; [lia|]. simpl in Hj.
    destruct i as [|i]; simpl in Hi.
    - simplify_eq. rewrite Ei, Ni in Hv. simpl in Hv.
      destruct (rule_PlatformID ri <=? 0); [done|]. case_decide; [done|].
      destruct (validate_rules_loop_seen _ _ _ _ _ _ Hv Hj Ej Nj) as [Hs _].
      intros Heq. apply Hs. rewrite <- Heq. set_solver.
    - destruct (rule_Enabled r); simpl in Hv; [|eapply (IH seen i j); eauto; lia].
      destruct (normalizePlatformModelPattern (rule_ModelPattern r)) as [[p' w']|]; [|done].
      simpl in Hv. destruct (rule_PlatformID r <=? 0); [done|].
      case_decide; [done|]. eapply (IH _ i j); eauto; lia. }
  intros seen Hv Hij Hi Hj Ei Ej Ni Nj.
  destruct (decide (i < j)%nat).
  - eapply Hlt; eauto.
  - intros Heq. symmetry in Heq. revert Heq. eapply (Hlt rules seen j i); eauto. lia.
Qed.

End Rules.

(** ** Instances *)

Definition ex_rule (id platform : Z) (pattern : string) (enabled : bool) : PlatformModelRule := {|
  rule_ID := id; rule_PlatformID := platform; rule_PlatformCode := "code";
  rule_AccountPlatform := "anthropic"; rule_ModelPattern := pattern; rule_UpstreamModel := "";
  rule_EndpointCapabilities := []; rule_Enabled := enabled; rule_CreatedAt := time_zero;
  rule_UpdatedAt := time_zero |}.
Definition ex_rules : list PlatformModelRule :=
  [ex_rule 1 1 "claude-*" true; ex_rule 2 2 " Claude-Opus-4 " true; ex_rule 3 3 "claude-opus-4" false].

#[local] Existing Instance ascii_only_case.

Lemma ListCandidates_complete_witness :
  ∃ cs, ListCandidates ex_rules "CLAUDE-opus-4" = Ok cs /\ cs ≠ [].
Proof.
  destruct (ListCandidates ex_rules "CLAUDE-opus-4") as [cs|e] eqn:E; [|vm_compute in E; discriminate].
  exists cs. split; [reflexivity|].
  destruct cs as [|c cs]; [vm_compute in E; discriminate|].
  exact (proj2 (ListCandidates_complete _ _ _ c E)).
Defined.

Lemma exact_outranks_wildcard_witness :
  match rule_candidate "claude-opus-4" (ex_rule 2 2 " Claude-Opus-4 " true),
        rule_candidate "claude-opus-4" (ex_rule 1 1 "claude-*" true) with
  | Some c1, Some c2 => candidate_less c1 c2 = true
  | _, _ => False
  end.
Proof.
  destruct (rule_candidate "claude-opus-4" (ex_rule 2 2 " Claude-Opus-4 " true)) as [c1|] eqn:E1;
    [|vm_compute in E1; discriminate].
  destruct (rule_candidate "claude-opus-4" (ex_rule 1 1 "claude-*" true)) as [c2|] eqn:E2;
    [|vm_compute in E2; discriminate].
  apply (exact_outranks_wildcard _ _ _ c1 c2 "claude-opus-4" "claude-*" E1 E2);
    vm_compute; reflexivity.
Defined.
