(* ===== verification/ProductCore.v ===== *)
(** * Product core authorizer

    [internal/productcore]: the decision that turns a request and an access
    grant into one platform and the asset that pays, over two ports
    ([PlatformCatalog], [AssetSelector]).  A pointer is an [option]; the
    selector's own state is threaded, because its implementation remembers the
    subscription it chose. *)

From S2P Require Import Prelude GoErrors GoStrings Float64.

(** ** [errors.go] *)

Definition ErrModelUnavailable : error := EPlain "product core model is unavailable".
Definition ErrPlatformForbidden : error := EPlain "api key is not authorized for platform".
Definition ErrPlatformAmbiguous : error :=
  EPlain "model resolves to multiple equally preferred platforms".
Definition ErrEndpointUnsupported : error := EPlain "platform does not support endpoint".
Definition ErrNoBillingAsset : error := EPlain "no usable billing asset".
Definition ErrInsufficientBalance : error := EPlain "insufficient balance".
Definition ErrDailyLimitExceeded : error := EPlain "daily limit exceeded".
Definition ErrWeeklyLimitExceeded : error := EPlain "weekly limit exceeded".
Definition ErrMonthlyLimitExceeded : error := EPlain "monthly limit exceeded".

(** ** [types.go] *)

Record AccessGrant := {
  grant_KeyID : Z;
  grant_UserID : Z;
  grant_Balance : float64;
  grant_PlatformIDs : list Z;
  grant_SubscriptionPlanIDs : list Z;
  grant_AllowBalance : bool
}.

Record Request := {
  req_Model : string;
  req_EndpointCapability : string;
  req_SkipBilling : bool
}.

Record Platform := {
  pl_ID : Z;
  pl_Code : string;
  pl_AccountPlatform : string;
  pl_RequestedModel : string;
  pl_UpstreamModel : string;
  pl_EndpointCapabilities : list string;
  pl_MatchPriority : Z
}.

Record BillingAsset := {
  ba_Source : string;
  ba_SubscriptionID : option Z;
  ba_PlanID : option Z;
  ba_RateMultiplier : float64
}.

Record Decision := {
  dec_Platform : Platform;
  dec_BillingAsset : option BillingAsset
}.

(** ** [ports.go] *)

Record PlatformCatalog := {
  ListModelCandidates : string -> result (list (option Platform))
}.

Record AssetSelector (S : Type) := {
  Select : S -> AccessGrant -> bool -> result (option BillingAsset) * S
}.
Arguments Select {S} _.

(** What a catalog promises its client: better matches first. *)
Definition ranked_platforms (l : list Platform) : Prop :=
  StronglySorted (λ x y, pl_MatchPriority y <= pl_MatchPriority x) l.

Definition somes {A} (l : list (option A)) : list A := omap id l.

Class CatalogLaws (c : PlatformCatalog) : Prop := {
  catalog_ranked : ∀ model cs, ListModelCandidates c model = Ok cs -> ranked_platforms (somes cs)
}.

Section Authorizer.
Context {UC : UnicodeCase}.

(** ** [authorizer.go] *)

Definition allowsPlatform (allowed : list Z) (platformID : Z) : bool :=
  mem_Z platformID allowed.

Definition supportsEndpoint (configured : list string) (requested : string) : bool :=
  let requested := TrimSpace requested in
  if str_empty requested then true
  else existsb (λ capability, EqualFold (TrimSpace capability) requested) configured.

Fixpoint select_loop (best : option Platform) (candidates : list (option Platform))
  : result Platform :=
  match candidates with
  | [] => match best with None => Err ErrModelUnavailable | Some b => Ok b end
  | None :: rest => select_loop best rest
  | Some candidate :: rest =>
    match best with
    | None => select_loop (Some candidate) rest
    | Some b =>
      if pl_MatchPriority b <? pl_MatchPriority candidate
      then select_loop (Some candidate) rest
      else if (pl_MatchPriority candidate =? pl_MatchPriority b)
              && negb (pl_ID candidate =? pl_ID b)
      then Err ErrPlatformAmbiguous
      else select_loop best rest
    end
  end.

Definition selectPlatformCandidate (candidates : list (option Platform)) : result Platform :=
  match candidates with
  | [] => Err ErrModelUnavailable
  | best :: rest => select_loop best rest
  end.

(** The two filtering loops of [Resolve]. *)
Definition authorized_candidates (grant : AccessGrant) (candidates : list (option Platform))
  : list Platform :=
  filterb (λ c, allowsPlatform (grant_PlatformIDs grant) (pl_ID c)) (somes candidates).

Definition endpoint_candidates (request : Request) (authorized : list Platform) : list Platform :=
  filterb (λ c, supportsEndpoint (pl_EndpointCapabilities c) (req_EndpointCapability request))
    authorized.

Record Authorizer (S : Type) := {
  auth_platforms : option PlatformCatalog;
  auth_assets : option (AssetSelector S)
}.
Arguments auth_platforms {S} _.
Arguments auth_assets {S} _.

(** The part of [Resolve] before the assets are consulted. *)
Definition route {S} (a : option (Authorizer S)) (grant : AccessGrant) (request : Request)
  : result Platform :=
  match a with
  | None => Err ErrModelUnavailable
  | Some a =>
    match auth_platforms a with
    | None => Err ErrModelUnavailable
    | Some platforms =>
      let? candidates := ListModelCandidates platforms (req_Model request) in
      if is_nil candidates then Err ErrModelUnavailable else
      let authorized := authorized_candidates grant candidates in
      if is_nil authorized then Err ErrPlatformForbidden else
      let endpointCandidates := endpoint_candidates request authorized in
      if is_nil endpointCandidates then Err ErrEndpointUnsupported else
      selectPlatformCandidate (map Some endpointCandidates)
    end
  end.

Definition Resolve {S} (a : option (Authorizer S)) (st : S)
  (grant : AccessGrant) (request : Request) : result Decision * S :=
  match route a grant request with
  | Err e => (Err e, st)
  | Ok platform =>
    match a ≫= auth_assets with
    | None => (Err ErrNoBillingAsset, st)
    | Some assets =>
      let '(r, st') := Select assets st grant (req_SkipBilling request) in
      match r with
      | Err e => (Err e, st')
      | Ok None =>
        if negb (req_SkipBilling request) then (Err ErrNoBillingAsset, st')
        else (Ok {| dec_Platform := platform; dec_BillingAsset := None |}, st')
      | Ok (Some asset) =>
        (Ok {| dec_Platform := platform; dec_BillingAsset := Some asset |}, st')
      end
    end
  end.

(** ** Lemmas *)

Lemma somes_map_Some {A} (l : list A) : somes (map Some l) = l.
Proof. unfold somes. induction l; simpl; [done|]. by f_equal. Qed.

Lemma ranked_filterb p l : ranked_platforms l -> ranked_platforms (filterb p l).
Proof.
  induction 1 as [|x l _ IH Hx]; simpl; [constructor|].
  destruct (p x); [|done]. constructor; [done|].
  rewrite Forall_forall in *. intros y Hy. apply Hx. by apply elem_of_filterb in Hy as [? _].
Qed.

(** A candidate ties with the best one when it has its priority but another
    platform id. *)
Definition ties (best c : Platform) : bool :=
  (pl_MatchPriority c =? pl_MatchPriority best) && negb (pl_ID c =? pl_ID best).

Lemma select_loop_ranked best rest :
  ranked_platforms (best :: rest) ->
  select_loop (Some best) (map Some rest) =
  if existsb (ties best) rest then Err ErrPlatformAmbiguous else Ok best.
Proof.
  induction rest as [|c rest IH]; intros Hr; [done|]. simpl.
  inversion_clear Hr as [|? ? Hs Hb]. inversion_clear Hs as [|? ? Hs' _].
  apply Forall_cons in Hb as [Hc Hb].
  replace (pl_MatchPriority best <? pl_MatchPriority c) with false by (symmetry; bool_lia).
  unfold ties at 1. destruct (_ && _) eqn:E; [done|]. simpl. apply IH. by constructor.
Qed.

(** On a ranked list the loop picks the head, and reports an ambiguity exactly
    when the head is tied. *)
Lemma selectPlatformCandidate_ranked best rest :
  ranked_platforms (best :: rest) ->
  selectPlatformCandidate (map Some (best :: rest)) =
  if existsb (ties best) rest then Err ErrPlatformAmbiguous else Ok best.
Proof. apply select_loop_ranked. Qed.

Lemma existsb_ties_false best rest :
  existsb (ties best) rest = false <->
  ∀ c, c ∈ rest -> pl_MatchPriority c = pl_MatchPriority best -> pl_ID c = pl_ID best.
Proof.
  induction rest as [|c rest IH]; simpl; [split; [intros _ ? ?; set_solver|done]|].
  rewrite orb_false_iff, IH. unfold ties.
  split.
  - intros [E Hr] d Hd Ep. apply elem_of_cons in Hd as [->|Hd]; [|auto].
    apply Z.eqb_eq in Ep. rewrite Ep in E. simpl in E.
    apply negb_false_iff, Z.eqb_eq in E. done.
  - intros Hc. split; [|intros d Hd; apply Hc; set_solver].
    destruct (Z.eqb_spec (pl_MatchPriority c) (pl_MatchPriority best)); [|done]. simpl.
    apply negb_false_iff, Z.eqb_eq. apply Hc; [set_solver|done].
Qed.

Lemma select_loop_Ok best rest p :
  select_loop best rest = Ok p -> best = Some p \/ p ∈ somes rest.
Proof.
  revert best. induction rest as [|[c|] rest IH]; intros best; simpl.
  - destruct best; [intros [= ->]; by left|done].
  - destruct best as [b|].
    + destruct (_ <? _); [|destruct (_ && _); [done|]];
        intros [E|E]%IH; simplify_eq; unfold somes in *; simpl; set_solver.
    + intros [E|E]%IH; simplify_eq; unfold somes in *; simpl; set_solver.
  - intros [E|E]%IH; [by left|right]. done.
Qed.

(** What a successful route says of its platform, for any catalog. *)
Lemma route_Ok {S} (a : option (Authorizer S)) grant request p :
  route a grant request = Ok p ->
  ∃ au cat cs, a = Some au /\ auth_platforms au = Some cat /\
    ListModelCandidates cat (req_Model request) = Ok cs /\
    selectPlatformCandidate
      (map Some (endpoint_candidates request (authorized_candidates grant cs))) = Ok p /\
    Some p ∈ cs /\ pl_ID p ∈ grant_PlatformIDs grant /\
    supportsEndpoint (pl_EndpointCapabilities p) (req_EndpointCapability request) = true.
Proof.
  unfold route. destruct a as [au|]; [|done].
  destruct (auth_platforms au) as [cat|] eqn:Ea; [|done].
  destruct (ListModelCandidates cat (req_Model request)) as [cs|] eqn:Ec; [|done]. simpl.
  destruct (is_nil cs); [done|].
  destruct (is_nil (authorized_candidates grant cs)); [done|].
  destruct (is_nil (endpoint_candidates _ _)); [done|]. intros Hs.
  exists au, cat, cs. do 4 (split; [done|]).
  assert (Hin : p ∈ endpoint_candidates request (authorized_candidates grant cs)).
  { unfold selectPlatformCandidate in Hs.
    destruct (endpoint_candidates _ _) as [|b rest]; [done|]. simpl in Hs.
    apply select_loop_Ok in Hs as [[= ->]|Hs]; [set_solver|].
    rewrite somes_map_Some in Hs. set_solver. }
  unfold endpoint_candidates, authorized_candidates in Hin.
  apply elem_of_filterb in Hin as [Hin He]. apply elem_of_filterb in Hin as [Hin Ha].
  unfold somes in Hin. apply list_elem_of_omap in Hin as (x & Hx & Ex). unfold id in Ex.
  subst x. split; [done|]. split; [|done]. by apply mem_Z_true.
Qed.

(** ** Properties *)

(** C29. A decision is sound and best: its platform is a candidate of the model,
    granted to the key, serves the endpoint, and no other such candidate is
    preferred to it or ties with it on another platform; the asset is there
    unless billing is skipped. *)
Theorem Resolve_sound {S} (a : Authorizer S) st grant request d st' cat
  `{!CatalogLaws cat} :
  auth_platforms a = Some cat ->
  Resolve (Some a) st grant request = (Ok d, st') ->
  ∃ cs, ListModelCandidates cat (req_Model request) = Ok cs /\
    Some (dec_Platform d) ∈ cs /\
    pl_ID (dec_Platform d) ∈ grant_PlatformIDs grant /\
    supportsEndpoint (pl_EndpointCapabilities (dec_Platform d))
      (req_EndpointCapability request) = true /\
    (∀ c, Some c ∈ cs -> pl_ID c ∈ grant_PlatformIDs grant ->
       supportsEndpoint (pl_EndpointCapabilities c) (req_EndpointCapability request) = true ->
       pl_MatchPriority c <= pl_MatchPriority (dec_Platform d) /\
       (pl_MatchPriority c = pl_MatchPriority (dec_Platform d) ->
        pl_ID c = pl_ID (dec_Platform d))) /\
    (dec_BillingAsset d = None -> req_SkipBilling request = true).
Proof.
  intros Hcat. unfold Resolve.
  destruct (route (Some a) grant request) as [p|] eqn:Er; [|done]. simpl.
  apply route_Ok in Er as (au & cat' & cs & [= <-] & Hc' & Hl & Hs & Hin & Hg & He).
  rewrite Hcat in Hc'. injection Hc' as <-.
  destruct (auth_assets a) as [sel|]; [|done].
  destruct (Select sel st grant (req_SkipBilling request)) as [[[asset|]|] st''];
    [|destruct (req_SkipBilling request) eqn:Esk; [|done]|done];
    simpl; intros [= <- <-]; simpl; exists cs;
    (do 4 (split; [done|])).
  all: split; [|done].
  all: intros c Hc Hcg Hce.
  all: pose proof (catalog_ranked _ _ Hl) as Hr;
    apply (ranked_filterb (λ c, allowsPlatform (grant_PlatformIDs grant) (pl_ID c))) in Hr;
    apply (ranked_filterb (λ c, supportsEndpoint (pl_EndpointCapabilities c)
             (req_EndpointCapability request))) in Hr;
    fold (authorized_candidates grant cs) in Hr;
    fold (endpoint_candidates request (authorized_candidates grant cs)) in Hr.
  all: assert (Hcin : c ∈ endpoint_candidates request (authorized_candidates grant cs))
    by (apply elem_of_filterb; split; [|done]; apply elem_of_filterb; split;
        [apply list_elem_of_omap; by exists (Some c)|by apply mem_Z_true]).
  all: destruct (endpoint_candidates request (authorized_candidates grant cs)) as [|b rest];
    [done|]; rewrite selectPlatformCandidate_ranked in Hs by done;
    destruct (existsb (ties b) rest) eqn:Et; [done|]; injection Hs as ->;
    apply elem_of_cons in Hcin as [->|Hcin]; [done|];
    inversion_clear Hr as [|? ? _ Hb]; rewrite Forall_forall in Hb; split;
    [by apply Hb|by apply (proj1 (existsb_ties_false _ _) Et)].
Qed.

(** The order of the checks: the asset selector runs only once a platform has
    been chosen, so a request that fails to route leaves the assets alone. *)
Theorem Resolve_route_first {S} (a : option (Authorizer S)) st grant request e :
  route a grant request = Err e -> Resolve a st grant request = (Err e, st).
Proof. intros H1. unfold Resolve. by rewrite H1. Qed.

(** Which error a request gets, in the order model, platform, endpoint. *)
Theorem route_error_order {S} (a : Authorizer S) grant request cat cs :
  auth_platforms a = Some cat ->
  ListModelCandidates cat (req_Model request) = Ok cs -> cs ≠ [] ->
  (route (Some a) grant request = Err ErrPlatformForbidden <->
     ∀ c, Some c ∈ cs -> pl_ID c ∉ grant_PlatformIDs grant) /\
  (route (Some a) grant request = Err ErrEndpointUnsupported <->
     (∃ c, Some c ∈ cs /\ pl_ID c ∈ grant_PlatformIDs grant) /\
     ∀ c, Some c ∈ cs -> pl_ID c ∈ grant_PlatformIDs grant ->
       supportsEndpoint (pl_EndpointCapabilities c) (req_EndpointCapability request) = false).
Proof.
  intros Hc Hl Hne. unfold route. rewrite Hc, Hl. simpl.
  apply is_nil_false in Hne as ->.
  assert (Hau : ∀ c, c ∈ authorized_candidates grant cs <->
            Some c ∈ cs /\ pl_ID c ∈ grant_PlatformIDs grant).
  { intros c. unfold authorized_candidates. rewrite elem_of_filterb.
    unfold somes, allowsPlatform. rewrite list_elem_of_omap, mem_Z_true. unfold id.
    naive_solver. }
  assert (Hsel : ∀ l e, selectPlatformCandidate l = Err e ->
            e = ErrModelUnavailable \/ e = ErrPlatformAmbiguous).
  { intros [|b l] e; simpl; [intros [= <-]; by left|].
    revert b. induction l as [|[c|] l IH]; intros [b|]; simpl; eauto.
    all: try (by intros [= <-]; auto).
    destruct (_ <? _); [|destruct (_ && _); [by intros [= <-]; auto|]]; eauto. }
  destruct (is_nil (authorized_candidates grant cs)) eqn:Ea.
  { apply is_nil_true in Ea. rewrite Ea in Hau. split; split; try done.
    - intros _ c Hin Hg. destruct (Hau c) as [_ Hx]. specialize (Hx (conj Hin Hg)). set_solver.
    - intros [(c & Hin & Hg) _]. destruct (Hau c) as [_ Hx].
      specialize (Hx (conj Hin Hg)). set_solver. }
  assert (Hex : ∃ c, Some c ∈ cs /\ pl_ID c ∈ grant_PlatformIDs grant).
  { destruct (authorized_candidates grant cs) as [|c l]; [done|].
    exists c. apply Hau. set_solver. }
  destruct (is_nil (endpoint_candidates _ _)) eqn:Ee.
  - apply is_nil_true in Ee. unfold endpoint_candidates in Ee. rewrite filterb_nil in Ee.
    split; split; try done.
    + intros Hno. destruct Hex as (c & Hin & Hg). by specialize (Hno c Hin).
    + intros _. split; [done|]. intros c Hin Hg. apply Ee. by apply Hau.
  - split; split.
    + intros Hs. by destruct (Hsel _ _ Hs).
    + intros Hno. destruct Hex as (c & Hin & Hg). by specialize (Hno c Hin).
    + intros Hs. by destruct (Hsel _ _ Hs).
    + intros [_ Hno]. exfalso. apply is_nil_false in Ee. apply Ee.
      apply filterb_nil. intros c Hcin. apply Hau in Hcin as [? ?]. by apply Hno.
Qed.

End Authorizer.
Arguments auth_platforms {S} _.
Arguments auth_assets {S} _.

(** ** A concrete catalog *)

Definition ex_platform (id prio : Z) (caps : list string) : Platform :=
  {| pl_ID := id; pl_Code := "p"; pl_AccountPlatform := "openai";
     pl_RequestedModel := "gpt-5"; pl_UpstreamModel := "gpt-5";
     pl_EndpointCapabilities := caps; pl_MatchPriority := prio |}.

Definition ex_catalog : PlatformCatalog := {|
  ListModelCandidates := fun _ =>
    Ok [Some (ex_platform 1 9 ["responses"%string]);
        Some (ex_platform 2 7 [" Responses"%string]); None;
        Some (ex_platform 3 7 ["chat_completions"%string])] |}.

#[export] Instance ex_catalog_laws : CatalogLaws ex_catalog.
Proof.
  constructor. intros model cs [= <-]. unfold somes; simpl.
  repeat constructor; simpl; lia.
Qed.

Definition ex_selector : AssetSelector nat := {|
  Select := fun n _ _ =>
    (Ok (Some {| ba_Source := "balance"; ba_SubscriptionID := None;
                 ba_PlanID := None; ba_RateMultiplier := f1 |}), S n) |}.

Definition ex_authorizer : Authorizer nat :=
  {| auth_platforms := Some ex_catalog; auth_assets := Some ex_selector |}.
Definition ex_grant : AccessGrant :=
  {| grant_KeyID := 1; grant_UserID := 1; grant_Balance := f1;
     grant_PlatformIDs := [2; 3]; grant_SubscriptionPlanIDs := [];
     grant_AllowBalance := true |}.
Definition ex_request : Request :=
  {| req_Model := "gpt-5"; req_EndpointCapability := "responses"; req_SkipBilling := false |}.

Lemma Resolve_sound_witness :
  ∃ d st, Resolve (UC := ascii_only_case) (Some ex_authorizer) 0%nat ex_grant ex_request = (Ok d, st)
    /\ pl_ID (dec_Platform d) ∈ grant_PlatformIDs ex_grant.
Proof.
  eexists _, _. split; [vm_compute; reflexivity|].
  destruct (Resolve_sound (UC := ascii_only_case) ex_authorizer 0%nat ex_grant ex_request
    {| dec_Platform := ex_platform 2 7 [" Responses"%string];
       dec_BillingAsset := Some {| ba_Source := "balance"; ba_SubscriptionID := None;
                 ba_PlanID := None; ba_RateMultiplier := f1 |} |} 1%nat ex_catalog eq_refl
    ltac:(vm_compute; reflexivity)) as (cs & _ & _ & Hin & _).
  exact Hin.
Defined.

Lemma route_error_order_witness :
  route (UC := ascii_only_case) (Some ex_authorizer)
    {| grant_KeyID := 1; grant_UserID := 1; grant_Balance := f1; grant_PlatformIDs := [9];
       grant_SubscriptionPlanIDs := []; grant_AllowBalance := true |} ex_request
  = Err ErrPlatformForbidden.
Proof.
  apply (route_error_order (UC := ascii_only_case) ex_authorizer _ ex_request ex_catalog _
    eq_refl eq_refl ltac:(done)).
  intros c Hc. simpl.
  repeat (apply elem_of_cons in Hc as [[= ->]|Hc]; [simpl; set_solver|]). set_solver.
Defined.

Lemma Resolve_route_first_witness :
  Resolve (UC := ascii_only_case) (Some ex_authorizer) 0%nat
    {| grant_KeyID := 1; grant_UserID := 1; grant_Balance := f1; grant_PlatformIDs := [];
       grant_SubscriptionPlanIDs := []; grant_AllowBalance := true |} ex_request
  = (Err ErrPlatformForbidden, 0%nat).
Proof.
  apply (Resolve_route_first (UC := ascii_only_case)). vm_compute. reflexivity.
Defined.
