(* ===== verification/Subscription.v ===== *)
(** * User subscriptions

    [service/user_subscription.go]: one purchased instance with its limit and
    multiplier snapshots, its three usage windows, and the pure predicates and
    window arithmetic on it.  [time.Now()] is an argument; the time zone the
    application configures ([timezone.Location()]) is a section variable.  The
    eager-loaded [User] and [AssignedByUser] associations are left out: no
    operation modelled here reads them. *)

From S2P Require Import Prelude GoErrors GoTime Float64.

Definition SubscriptionStatusActive : string := "active".
Definition SubscriptionStatusExpired : string := "expired".
Definition SubscriptionStatusSuspended : string := "suspended".
Definition SubscriptionStatusRevoked : string := "revoked".

Definition subscriptionDayDuration : Z := 24 * hour.
Definition week_ns : Z := 7 * 24 * hour.
Definition month_ns : Z := 30 * 24 * hour.

Record UserSubscription := {
  us_ID : Z;
  us_UserID : Z;
  us_SubscriptionPlanID : option Z;
  us_PlanNameSnapshot : string;
  us_DailyLimitUSDSnapshot : option float64;
  us_WeeklyLimitUSDSnapshot : option float64;
  us_MonthlyLimitUSDSnapshot : option float64;
  us_RateMultiplierSnapshot : float64;
  us_StartsAt : time;
  us_ExpiresAt : time;
  us_Status : string;
  us_DailyWindowStart : option time;
  us_WeeklyWindowStart : option time;
  us_MonthlyWindowStart : option time;
  us_DailyUsageUSD : float64;
  us_WeeklyUsageUSD : float64;
  us_MonthlyUsageUSD : float64;
  us_AssignedBy : option Z;
  us_AssignedAt : time;
  us_Notes : string;
  us_CreatedAt : time;
  us_UpdatedAt : time;
  us_DeletedAt : option time
}.

(** Field updates used by the window operations. *)

Definition set_daily (s : UserSubscription) (v0 : option time) (v1 : float64) : UserSubscription := {|
  us_ID := us_ID s;
  us_UserID := us_UserID s;
  us_SubscriptionPlanID := us_SubscriptionPlanID s;
  us_PlanNameSnapshot := us_PlanNameSnapshot s;
  us_DailyLimitUSDSnapshot := us_DailyLimitUSDSnapshot s;
  us_WeeklyLimitUSDSnapshot := us_WeeklyLimitUSDSnapshot s;
  us_MonthlyLimitUSDSnapshot := us_MonthlyLimitUSDSnapshot s;
  us_RateMultiplierSnapshot := us_RateMultiplierSnapshot s;
  us_StartsAt := us_StartsAt s;
  us_ExpiresAt := us_ExpiresAt s;
  us_Status := us_Status s;
  us_DailyWindowStart := v0;
  us_WeeklyWindowStart := us_WeeklyWindowStart s;
  us_MonthlyWindowStart := us_MonthlyWindowStart s;
  us_DailyUsageUSD := v1;
  us_WeeklyUsageUSD := us_WeeklyUsageUSD s;
  us_MonthlyUsageUSD := us_MonthlyUsageUSD s;
  us_AssignedBy := us_AssignedBy s;
  us_AssignedAt := us_AssignedAt s;
  us_Notes := us_Notes s;
  us_CreatedAt := us_CreatedAt s;
  us_UpdatedAt := us_UpdatedAt s;
  us_DeletedAt := us_DeletedAt s |}.

Definition set_weekly (s : UserSubscription) (v0 : option time) (v1 : float64) : UserSubscription := {|
  us_ID := us_ID s;
  us_UserID := us_UserID s;
  us_SubscriptionPlanID := us_SubscriptionPlanID s;
  us_PlanNameSnapshot := us_PlanNameSnapshot s;
  us_DailyLimitUSDSnapshot := us_DailyLimitUSDSnapshot s;
  us_WeeklyLimitUSDSnapshot := us_WeeklyLimitUSDSnapshot s;
  us_MonthlyLimitUSDSnapshot := us_MonthlyLimitUSDSnapshot s;
  us_RateMultiplierSnapshot := us_RateMultiplierSnapshot s;
  us_StartsAt := us_StartsAt s;
  us_ExpiresAt := us_ExpiresAt s;
  us_Status := us_Status s;
  us_DailyWindowStart := us_DailyWindowStart s;
  us_WeeklyWindowStart := v0;
  us_MonthlyWindowStart := us_MonthlyWindowStart s;
  us_DailyUsageUSD := us_DailyUsageUSD s;
  us_WeeklyUsageUSD := v1;
  us_MonthlyUsageUSD := us_MonthlyUsageUSD s;
  us_AssignedBy := us_AssignedBy s;
  us_AssignedAt := us_AssignedAt s;
  us_Notes := us_Notes s;
  us_CreatedAt := us_CreatedAt s;
  us_UpdatedAt := us_UpdatedAt s;
  us_DeletedAt := us_DeletedAt s |}.

Definition set_monthly (s : UserSubscription) (v0 : option time) (v1 : float64) : UserSubscription := {|
  us_ID := us_ID s;
  us_UserID := us_UserID s;
  us_SubscriptionPlanID := us_SubscriptionPlanID s;
  us_PlanNameSnapshot := us_PlanNameSnapshot s;
  us_DailyLimitUSDSnapshot := us_DailyLimitUSDSnapshot s;
  us_WeeklyLimitUSDSnapshot := us_WeeklyLimitUSDSnapshot s;
  us_MonthlyLimitUSDSnapshot := us_MonthlyLimitUSDSnapshot s;
  us_RateMultiplierSnapshot := us_RateMultiplierSnapshot s;
  us_StartsAt := us_StartsAt s;
  us_ExpiresAt := us_ExpiresAt s;
  us_Status := us_Status s;
  us_DailyWindowStart := us_DailyWindowStart s;
  us_WeeklyWindowStart := us_WeeklyWindowStart s;
  us_MonthlyWindowStart := v0;
  us_DailyUsageUSD := us_DailyUsageUSD s;
  us_WeeklyUsageUSD := us_WeeklyUsageUSD s;
  us_MonthlyUsageUSD := v1;
  us_AssignedBy := us_AssignedBy s;
  us_AssignedAt := us_AssignedAt s;
  us_Notes := us_Notes s;
  us_CreatedAt := us_CreatedAt s;
  us_UpdatedAt := us_UpdatedAt s;
  us_DeletedAt := us_DeletedAt s |}.

Definition set_Status (s : UserSubscription) (v0 : string) : UserSubscription := {|
  us_ID := us_ID s;
  us_UserID := us_UserID s;
  us_SubscriptionPlanID := us_SubscriptionPlanID s;
  us_PlanNameSnapshot := us_PlanNameSnapshot s;
  us_DailyLimitUSDSnapshot := us_DailyLimitUSDSnapshot s;
  us_WeeklyLimitUSDSnapshot := us_WeeklyLimitUSDSnapshot s;
  us_MonthlyLimitUSDSnapshot := us_MonthlyLimitUSDSnapshot s;
  us_RateMultiplierSnapshot := us_RateMultiplierSnapshot s;
  us_StartsAt := us_StartsAt s;
  us_ExpiresAt := us_ExpiresAt s;
  us_Status := v0;
  us_DailyWindowStart := us_DailyWindowStart s;
  us_WeeklyWindowStart := us_WeeklyWindowStart s;
  us_MonthlyWindowStart := us_MonthlyWindowStart s;
  us_DailyUsageUSD := us_DailyUsageUSD s;
  us_WeeklyUsageUSD := us_WeeklyUsageUSD s;
  us_MonthlyUsageUSD := us_MonthlyUsageUSD s;
  us_AssignedBy := us_AssignedBy s;
  us_AssignedAt := us_AssignedAt s;
  us_Notes := us_Notes s;
  us_CreatedAt := us_CreatedAt s;
  us_UpdatedAt := us_UpdatedAt s;
  us_DeletedAt := us_DeletedAt s |}.

Definition set_ExpiresAt (s : UserSubscription) (v0 : time) : UserSubscription := {|
  us_ID := us_ID s;
  us_UserID := us_UserID s;
  us_SubscriptionPlanID := us_SubscriptionPlanID s;
  us_PlanNameSnapshot := us_PlanNameSnapshot s;
  us_DailyLimitUSDSnapshot := us_DailyLimitUSDSnapshot s;
  us_WeeklyLimitUSDSnapshot := us_WeeklyLimitUSDSnapshot s;
  us_MonthlyLimitUSDSnapshot := us_MonthlyLimitUSDSnapshot s;
  us_RateMultiplierSnapshot := us_RateMultiplierSnapshot s;
  us_StartsAt := us_StartsAt s;
  us_ExpiresAt := v0;
  us_Status := us_Status s;
  us_DailyWindowStart := us_DailyWindowStart s;
  us_WeeklyWindowStart := us_WeeklyWindowStart s;
  us_MonthlyWindowStart := us_MonthlyWindowStart s;
  us_DailyUsageUSD := us_DailyUsageUSD s;
  us_WeeklyUsageUSD := us_WeeklyUsageUSD s;
  us_MonthlyUsageUSD := us_MonthlyUsageUSD s;
  us_AssignedBy := us_AssignedBy s;
  us_AssignedAt := us_AssignedAt s;
  us_Notes := us_Notes s;
  us_CreatedAt := us_CreatedAt s;
  us_UpdatedAt := us_UpdatedAt s;
  us_DeletedAt := us_DeletedAt s |}.

Definition set_UpdatedAt (s : UserSubscription) (v0 : time) : UserSubscription := {|
  us_ID := us_ID s;
  us_UserID := us_UserID s;
  us_SubscriptionPlanID := us_SubscriptionPlanID s;
  us_PlanNameSnapshot := us_PlanNameSnapshot s;
  us_DailyLimitUSDSnapshot := us_DailyLimitUSDSnapshot s;
  us_WeeklyLimitUSDSnapshot := us_WeeklyLimitUSDSnapshot s;
  us_MonthlyLimitUSDSnapshot := us_MonthlyLimitUSDSnapshot s;
  us_RateMultiplierSnapshot := us_RateMultiplierSnapshot s;
  us_StartsAt := us_StartsAt s;
  us_ExpiresAt := us_ExpiresAt s;
  us_Status := us_Status s;
  us_DailyWindowStart := us_DailyWindowStart s;
  us_WeeklyWindowStart := us_WeeklyWindowStart s;
  us_MonthlyWindowStart := us_MonthlyWindowStart s;
  us_DailyUsageUSD := us_DailyUsageUSD s;
  us_WeeklyUsageUSD := us_WeeklyUsageUSD s;
  us_MonthlyUsageUSD := us_MonthlyUsageUSD s;
  us_AssignedBy := us_AssignedBy s;
  us_AssignedAt := us_AssignedAt s;
  us_Notes := us_Notes s;
  us_CreatedAt := us_CreatedAt s;
  us_UpdatedAt := v0;
  us_DeletedAt := us_DeletedAt s |}.

Definition set_DeletedAt (s : UserSubscription) (v0 : option time) : UserSubscription := {|
  us_ID := us_ID s;
  us_UserID := us_UserID s;
  us_SubscriptionPlanID := us_SubscriptionPlanID s;
  us_PlanNameSnapshot := us_PlanNameSnapshot s;
  us_DailyLimitUSDSnapshot := us_DailyLimitUSDSnapshot s;
  us_WeeklyLimitUSDSnapshot := us_WeeklyLimitUSDSnapshot s;
  us_MonthlyLimitUSDSnapshot := us_MonthlyLimitUSDSnapshot s;
  us_RateMultiplierSnapshot := us_RateMultiplierSnapshot s;
  us_StartsAt := us_StartsAt s;
  us_ExpiresAt := us_ExpiresAt s;
  us_Status := us_Status s;
  us_DailyWindowStart := us_DailyWindowStart s;
  us_WeeklyWindowStart := us_WeeklyWindowStart s;
  us_MonthlyWindowStart := us_MonthlyWindowStart s;
  us_DailyUsageUSD := us_DailyUsageUSD s;
  us_WeeklyUsageUSD := us_WeeklyUsageUSD s;
  us_MonthlyUsageUSD := us_MonthlyUsageUSD s;
  us_AssignedBy := us_AssignedBy s;
  us_AssignedAt := us_AssignedAt s;
  us_Notes := us_Notes s;
  us_CreatedAt := us_CreatedAt s;
  us_UpdatedAt := us_UpdatedAt s;
  us_DeletedAt := v0 |}.

Definition set_identity (s : UserSubscription) (v0 : Z) (v1 : time) (v2 : time) : UserSubscription := {|
  us_ID := v0;
  us_UserID := us_UserID s;
  us_SubscriptionPlanID := us_SubscriptionPlanID s;
  us_PlanNameSnapshot := us_PlanNameSnapshot s;
  us_DailyLimitUSDSnapshot := us_DailyLimitUSDSnapshot s;
  us_WeeklyLimitUSDSnapshot := us_WeeklyLimitUSDSnapshot s;
  us_MonthlyLimitUSDSnapshot := us_MonthlyLimitUSDSnapshot s;
  us_RateMultiplierSnapshot := us_RateMultiplierSnapshot s;
  us_StartsAt := us_StartsAt s;
  us_ExpiresAt := us_ExpiresAt s;
  us_Status := us_Status s;
  us_DailyWindowStart := us_DailyWindowStart s;
  us_WeeklyWindowStart := us_WeeklyWindowStart s;
  us_MonthlyWindowStart := us_MonthlyWindowStart s;
  us_DailyUsageUSD := us_DailyUsageUSD s;
  us_WeeklyUsageUSD := us_WeeklyUsageUSD s;
  us_MonthlyUsageUSD := us_MonthlyUsageUSD s;
  us_AssignedBy := us_AssignedBy s;
  us_AssignedAt := us_AssignedAt s;
  us_Notes := us_Notes s;
  us_CreatedAt := v1;
  us_UpdatedAt := v2;
  us_DeletedAt := us_DeletedAt s |}.

(** ** State predicates *)

Definition IsActive (s : UserSubscription) (now : time) : bool :=
  String.eqb (us_Status s) SubscriptionStatusActive && before now (us_ExpiresAt s).
Definition IsExpired (s : UserSubscription) (now : time) : bool := after now (us_ExpiresAt s).

Definition daysRemainingAt (s : UserSubscription) (now : time) : Z :=
  let remaining := time_sub (us_ExpiresAt s) now in
  if remaining <=? 0 then 0 else
  let days := Z.quot remaining subscriptionDayDuration in
  if negb (Z.rem remaining subscriptionDayDuration =? 0) then days + 1 else days.

Definition is_Some_b {A} (o : option A) : bool := match o with Some _ => true | None => false end.

Definition IsWindowActivated (s : UserSubscription) : bool :=
  is_Some_b (us_DailyWindowStart s) || is_Some_b (us_WeeklyWindowStart s)
  || is_Some_b (us_MonthlyWindowStart s).

Definition HasOneTimeDailyQuota (s : UserSubscription) : bool :=
  if is_zero (us_StartsAt s) || is_zero (us_ExpiresAt s) then false
  else negb (after (us_ExpiresAt s) (add_days (us_StartsAt s) 1)).

Definition NeedsWeeklyResetAt (s : UserSubscription) (now : time) : bool :=
  match us_WeeklyWindowStart s with
  | None => false
  | Some w => negb (before now (time_add w (7 * 24 * hour)))
  end.
Definition NeedsMonthlyResetAt (s : UserSubscription) (now : time) : bool :=
  match us_MonthlyWindowStart s with
  | None => false
  | Some w => negb (before now (time_add w (30 * 24 * hour)))
  end.

(** [startOfDay] of subscription_service.go: midnight in the time's own zone. *)
Definition startOfDay (t : time) : time := start_of_local_day t.

Section Windows.
Context (tz : Location).

(** [timezone.StartOfDay]: midnight in the configured zone. *)
Definition tz_StartOfDay (t : time) : time := start_of_local_day (time_in t tz).

Definition automaticDailyWindowStartAt (s : UserSubscription) (now : time) : option time :=
  match us_DailyWindowStart s with
  | None => None
  | Some w =>
    if HasOneTimeDailyQuota s then None else
    let today := tz_StartOfDay now in
    if negb (after today (tz_StartOfDay w)) then None else Some today
  end.

Definition NeedsDailyResetAt (s : UserSubscription) (now : time) : bool :=
  is_Some_b (automaticDailyWindowStartAt s now).
Definition canAutomaticallyResetDailyAt (s : UserSubscription) (now : time) : bool :=
  is_Some_b (automaticDailyWindowStartAt s now).

(** The anchor the periods are counted from: the previous window start, or
    [StartsAt] for the midnight that older subscriptions were created with. *)
Definition window_anchor (s : UserSubscription) (previous : time) : time :=
  let legacyAnchor := startOfDay (us_StartsAt s) in
  if before legacyAnchor (us_StartsAt s) && time_equal previous legacyAnchor
  then us_StartsAt s else previous.

Definition automaticWindowStartAt (s : UserSubscription) (previous : option time)
  (period : Z) (now : time) : option time :=
  match previous with
  | None => None
  | Some prev =>
    let anchor := window_anchor s prev in
    let next := time_add anchor period in
    if before now next || negb (before next (us_ExpiresAt s)) then None else
    let periods := Z.quot (time_sub now anchor) period in
    let lastPeriodBeforeExpiry :=
      Z.quot (sub64 (time_sub (us_ExpiresAt s) anchor) 1) period in
    let periods := if lastPeriodBeforeExpiry <? periods then lastPeriodBeforeExpiry
                   else periods in
    Some (time_add anchor (mul64 periods period))
  end.

Definition canAutomaticallyResetWeeklyAt (s : UserSubscription) (now : time) : bool :=
  is_Some_b (automaticWindowStartAt s (us_WeeklyWindowStart s) week_ns now).
Definition canAutomaticallyResetMonthlyAt (s : UserSubscription) (now : time) : bool :=
  is_Some_b (automaticWindowStartAt s (us_MonthlyWindowStart s) month_ns now).

Definition DailyResetTime (s : UserSubscription) : option time :=
  match us_DailyWindowStart s with
  | None => None
  | Some w =>
    if HasOneTimeDailyQuota s then Some (us_ExpiresAt s)
    else Some (add_days (tz_StartOfDay w) 1)
  end.
Definition WeeklyResetTime (s : UserSubscription) : option time :=
  option_map (λ w, time_add w (7 * 24 * hour)) (us_WeeklyWindowStart s).
Definition MonthlyResetTime (s : UserSubscription) : option time :=
  option_map (λ w, time_add w (30 * 24 * hour)) (us_MonthlyWindowStart s).

End Windows.

(** ** Limits *)

Definition dailyLimitUSD (s : UserSubscription) : option float64 := us_DailyLimitUSDSnapshot s.
Definition weeklyLimitUSD (s : UserSubscription) : option float64 := us_WeeklyLimitUSDSnapshot s.
Definition monthlyLimitUSD (s : UserSubscription) : option float64 := us_MonthlyLimitUSDSnapshot s.

Definition hasUsageLimit (limit : option float64) : bool :=
  match limit with Some l => fgtb l f0 | None => false end.

(** [!hasUsageLimit(limit) || usage+cost <= *limit] *)
Definition within_limit (limit : option float64) (usage cost : float64) : bool :=
  negb (hasUsageLimit limit) ||
  match limit with Some l => fleb (fadd usage cost) l | None => false end.

Definition CheckDailyLimit (s : UserSubscription) (additionalCost : float64) : bool :=
  within_limit (dailyLimitUSD s) (us_DailyUsageUSD s) additionalCost.
Definition CheckWeeklyLimit (s : UserSubscription) (additionalCost : float64) : bool :=
  within_limit (weeklyLimitUSD s) (us_WeeklyUsageUSD s) additionalCost.
Definition CheckMonthlyLimit (s : UserSubscription) (additionalCost : float64) : bool :=
  within_limit (monthlyLimitUSD s) (us_MonthlyUsageUSD s) additionalCost.
Definition CheckAllLimits (s : UserSubscription) (additionalCost : float64) : bool * bool * bool :=
  (CheckDailyLimit s additionalCost, CheckWeeklyLimit s additionalCost,
   CheckMonthlyLimit s additionalCost).

(** ** Lemmas *)

Lemma before_spec t u : before t u = true <-> t_ns t < t_ns u.
Proof. apply Z.ltb_lt. Qed.
Lemma before_false t u : before t u = false <-> t_ns u <= t_ns t.
Proof. apply Z.ltb_ge. Qed.

(** Times whose distances are representable: within 292 years of each other. *)
Definition near (t u : time) : Prop := in_int64 (t_ns t - t_ns u) /\ min_int64 < t_ns t - t_ns u.

(** The arithmetic core: with the elapsed times exact, the number of periods is
    the floor of the elapsed time, cut at the last start before the expiry. *)
Lemma automaticWindowStartAt_Some s prev period now w :
  let anchor := window_anchor s prev in
  0 < period -> near now anchor -> near (us_ExpiresAt s) anchor ->
  automaticWindowStartAt s (Some prev) period now = Some w ->
  ∃ k, 1 <= k /\ t_ns w = t_ns anchor + k * period /\ t_loc w = t_loc anchor /\
    t_ns w <= t_ns now /\ t_ns w < t_ns (us_ExpiresAt s) /\
    (t_ns now < t_ns w + period \/ t_ns (us_ExpiresAt s) <= t_ns w + period).
Proof.
  intros anchor Hp [Hn _] [He Hemin]. unfold automaticWindowStartAt.
  fold anchor. set (n := t_ns now) in *. set (a := t_ns anchor) in *.
  set (ex := t_ns (us_ExpiresAt s)) in *.
  destruct (before now _) eqn:E1; [done|]. apply before_false in E1. simpl in E1.
  destruct (before _ (us_ExpiresAt s)) eqn:E2; [|done]. apply before_spec in E2. simpl in E2.
  simpl. rewrite !time_sub_exact by done. fold n a ex.
  unfold sub64. rewrite (wrap64_id (ex - a - 1))
    by (unfold in_int64 in *; lia).
  rewrite !Z.quot_div_nonneg by lia.
  set (p := (n - a) / period). set (q := (ex - a - 1) / period).
  assert (Hmul : ∀ k, 0 <= k -> k <= p -> mul64 k period = k * period).
  { intros k Hk Hkp. unfold mul64. apply wrap64_id.
    pose proof (Z.mul_div_le (n - a) period Hp) as Hdl. fold p in Hdl.
    unfold in_int64, min_int64, max_int64 in *. nia. }
  assert (Hp1 : 1 <= p) by (apply Z.div_le_lower_bound; lia).
  assert (Hq1 : 1 <= q) by (apply Z.div_le_lower_bound; lia).
  pose proof (Z.mul_div_le (n - a) period Hp) as H1. fold p in H1.
  pose proof (Z.mul_succ_div_gt (n - a) period Hp) as H2. fold p in H2.
  pose proof (Z.mul_div_le (ex - a - 1) period Hp) as H3. fold q in H3.
  pose proof (Z.mul_succ_div_gt (ex - a - 1) period Hp) as H4. fold q in H4.
  intros [= <-]. simpl. fold a.
  destruct (Z.ltb_spec q p).
  - exists q. rewrite Hmul by lia. repeat split; try nia.
  - exists p. rewrite Hmul by lia. repeat split; try nia.
Qed.

Lemma automaticWindowStartAt_None s prev period now :
  automaticWindowStartAt s (Some prev) period now = None <->
  t_ns now < t_ns (window_anchor s prev) + period \/
  t_ns (us_ExpiresAt s) <= t_ns (window_anchor s prev) + period.
Proof.
  unfold automaticWindowStartAt.
  destruct (before now _) eqn:E1; simpl.
  { apply before_spec in E1. simpl in E1. split; [intros _; by left|done]. }
  apply before_false in E1. simpl in E1.
  destruct (before _ (us_ExpiresAt s)) eqn:E2; simpl.
  - apply before_spec in E2. simpl in E2. split; [done|lia].
  - apply before_false in E2. simpl in E2. split; [intros _; by right|done].
Qed.

(** The legacy anchor is only substituted for itself, so a start after it
    stands for itself. *)
Lemma window_anchor_after s prev :
  t_ns (startOfDay (us_StartsAt s)) < t_ns prev -> window_anchor s prev = prev.
Proof.
  intros Hlt. unfold window_anchor.
  replace (time_equal prev _) with false; [by rewrite andb_false_r|].
  symmetry. unfold time_equal. bool_goal. lia.
Qed.

Lemma window_anchor_ge s prev : t_ns prev <= t_ns (window_anchor s prev).
Proof.
  unfold window_anchor. destruct (before _ _) eqn:E1; simpl; [|lia].
  destruct (time_equal _ _) eqn:E2; [|lia]. apply before_spec in E1.
  unfold time_equal in E2. bool_to_prop. lia.
Qed.

(** ** Properties *)

(** The window a periodic reset starts: a whole number of periods after the
    anchor, already begun, before the expiry, and the latest such start, so a
    subscription never gets a window past its expiry nor loses one. *)
Theorem automaticWindowStartAt_latest s prev period now w :
  0 < period ->
  near now (window_anchor s prev) -> near (us_ExpiresAt s) (window_anchor s prev) ->
  automaticWindowStartAt s (Some prev) period now = Some w ->
  (∃ k, 1 <= k /\ t_ns w = t_ns (window_anchor s prev) + k * period) /\
  t_ns w <= t_ns now /\ t_ns w < t_ns (us_ExpiresAt s) /\
  ∀ j, t_ns (window_anchor s prev) + j * period <= t_ns now ->
       t_ns (window_anchor s prev) + j * period < t_ns (us_ExpiresAt s) ->
       t_ns (window_anchor s prev) + j * period <= t_ns w.
Proof.
  intros Hp Hn He Hw.
  destruct (automaticWindowStartAt_Some _ _ _ _ _ Hp Hn He Hw)
    as (k & Hk & Hwk & _ & H1 & H2 & H3).
  split; [by exists k|]. split; [done|]. split; [done|].
  intros j Hj1 Hj2. rewrite Hwk in *.
  destruct (Z.le_gt_cases j k); [nia|]. exfalso. destruct H3; nia.
Qed.

(** A reset is done once: with the new window start stored, the same instant
    asks for no further reset, so the usage is not wiped twice. *)
Theorem automaticWindowStartAt_once s prev period now w :
  0 < period ->
  near now (window_anchor s prev) -> near (us_ExpiresAt s) (window_anchor s prev) ->
  t_ns (startOfDay (us_StartsAt s)) <= t_ns prev ->
  automaticWindowStartAt s (Some prev) period now = Some w ->
  automaticWindowStartAt s (Some w) period now = None.
Proof.
  intros Hp Hn He Hs Hw.
  destruct (automaticWindowStartAt_Some _ _ _ _ _ Hp Hn He Hw)
    as (k & Hk & Hwk & _ & H1 & H2 & H3).
  apply automaticWindowStartAt_None.
  rewrite window_anchor_after; [done|].
  pose proof (window_anchor_ge s prev). nia.
Qed.

(** The days left are the elapsed time rounded up: positive exactly while the
    subscription has not expired. *)
Theorem daysRemainingAt_ceil s now :
  in_int64 (t_ns (us_ExpiresAt s) - t_ns now) ->
  let left := t_ns (us_ExpiresAt s) - t_ns now in
  0 <= daysRemainingAt s now /\
  (0 < daysRemainingAt s now <-> 0 < left) /\
  (0 < left -> (daysRemainingAt s now - 1) * day_ns < left <= daysRemainingAt s now * day_ns).
Proof.
  intros Hr left. unfold daysRemainingAt. rewrite time_sub_exact by done. fold left.
  change subscriptionDayDuration with day_ns. assert (0 < day_ns) by done.
  destruct (Z.leb_spec left 0); [lia|].
  rewrite Z.quot_div_nonneg, Z.rem_mod_nonneg by lia.
  pose proof (Z.div_mod left day_ns ltac:(lia)) as Hd.
  pose proof (Z.mod_pos_bound left day_ns ltac:(lia)) as Hm.
  assert (0 <= left / day_ns) by (apply Z.div_pos; lia).
  destruct (Z.eqb_spec (left mod day_ns) 0); simpl; split_and!; try nia.
Qed.
