(* ===== verification/SubscriptionRepo.v ===== *)
(** * The subscription repository

    The interface of [service/user_subscription_port.go] as a record of
    operations, and its implementation on the [user_subscriptions] table of
    [repository/user_subscription_repo.go]: soft-deleted rows stay in the table
    and queries skip them, window writes are conditional on the window the
    caller saw, and usage is incremented in place.  Timestamps and amounts are
    kept as given (the rounding of the column types is not modelled), the
    addition of the database's [decimal] column is a variable, and the
    database does not fail: the failure paths of the callers are covered by
    the interface, whose operations may return any error. *)

From S2P Require Import Prelude GoErrors GoTime Float64 Subscription.

Definition ErrSubscriptionNotFound : error :=
  NotFound "SUBSCRIPTION_NOT_FOUND" "subscription not found".
Definition ErrSubscriptionExpired : error :=
  Forbidden "SUBSCRIPTION_EXPIRED" "subscription has expired".
Definition ErrSubscriptionSuspended : error :=
  Forbidden "SUBSCRIPTION_SUSPENDED" "subscription is suspended".
Definition ErrSubscriptionNotRevoked : error :=
  Conflict "SUBSCRIPTION_NOT_REVOKED" "subscription is not revoked".
Definition ErrInvalidInput : error :=
  BadRequest "INVALID_INPUT" "at least one of resetDaily, resetWeekly, or resetMonthly must be true".
Definition ErrDailyLimitExceeded : error :=
  TooManyRequests "DAILY_LIMIT_EXCEEDED" "daily usage limit exceeded".
Definition ErrWeeklyLimitExceeded : error :=
  TooManyRequests "WEEKLY_LIMIT_EXCEEDED" "weekly usage limit exceeded".
Definition ErrMonthlyLimitExceeded : error :=
  TooManyRequests "MONTHLY_LIMIT_EXCEEDED" "monthly usage limit exceeded".
Definition ErrSubscriptionNilInput : error :=
  BadRequest "SUBSCRIPTION_NIL_INPUT" "subscription input cannot be nil".
Definition ErrAdjustWouldExpire : error :=
  BadRequest "ADJUST_WOULD_EXPIRE" "adjustment would result in expired subscription (remaining days must be > 0)".

Record UserSubscriptionRepository (S : Type) := {
  repo_Create : UserSubscription -> M S UserSubscription;
  repo_GetByID : Z -> M S UserSubscription;
  repo_GetByIDIncludeDeleted : Z -> M S UserSubscription;
  repo_Delete : Z -> M S unit;
  repo_Restore : Z -> string -> M S UserSubscription;
  repo_ListByUserID : Z -> M S (list UserSubscription);
  repo_ListActiveByUserID : Z -> M S (list UserSubscription);
  repo_ListActiveByUserIDAndPlanIDs : Z -> list Z -> M S (list UserSubscription);
  repo_ExtendExpiry : Z -> time -> M S unit;
  repo_UpdateStatus : Z -> string -> M S unit;
  repo_ActivateWindows : Z -> time -> time -> M S unit;
  repo_ResetUsageWindows : Z -> bool -> bool -> bool -> time -> time -> M S unit;
  repo_ResetDailyUsage : Z -> option time -> time -> M S unit;
  repo_ResetWeeklyUsage : Z -> option time -> time -> M S unit;
  repo_ResetMonthlyUsage : Z -> option time -> time -> M S unit;
  repo_IncrementUsage : Z -> float64 -> M S unit;
  repo_BatchUpdateExpiredStatus : M S Z
}.
Arguments repo_Create {S} _. Arguments repo_GetByID {S} _.
Arguments repo_GetByIDIncludeDeleted {S} _. Arguments repo_Delete {S} _.
Arguments repo_Restore {S} _. Arguments repo_ListByUserID {S} _.
Arguments repo_ListActiveByUserID {S} _. Arguments repo_ListActiveByUserIDAndPlanIDs {S} _.
Arguments repo_ExtendExpiry {S} _. Arguments repo_UpdateStatus {S} _.
Arguments repo_ActivateWindows {S} _. Arguments repo_ResetUsageWindows {S} _.
Arguments repo_ResetDailyUsage {S} _. Arguments repo_ResetWeeklyUsage {S} _.
Arguments repo_ResetMonthlyUsage {S} _. Arguments repo_IncrementUsage {S} _.
Arguments repo_BatchUpdateExpiredStatus {S} _.

(** ** The table *)

Record Table := mk_Table {
  tb_rows : gmap Z UserSubscription;
  tb_now : time;
  tb_next_id : Z
}.

Definition set_rows (tb : Table) (rows : gmap Z UserSubscription) : Table :=
  mk_Table rows (tb_now tb) (tb_next_id tb).

Definition entNotFound : error := EPlain "ent: user_subscription not found".
(** [translatePersistenceError(err, ErrSubscriptionNotFound, nil)] on ent's
    not-found error. *)
Definition notFoundError : error := with_cause ErrSubscriptionNotFound entNotFound.

Definition is_deleted (r : UserSubscription) : bool := is_Some_b (us_DeletedAt r).

(** A query by id: soft-deleted rows are filtered out. *)
Definition live_row (tb : Table) (id : Z) : option UserSubscription :=
  match tb_rows tb !! id with
  | Some r => if is_deleted r then None else Some r
  | None => None
  end.

(** [userSubscriptionEntityToServiceWithStatusMapping] *)
Definition entity_to_service (mapDeletedToRevoked : bool) (r : UserSubscription)
  : UserSubscription :=
  if mapDeletedToRevoked && is_deleted r then set_Status r SubscriptionStatusRevoked else r.

(** [client.UserSubscription.Update().Where(IDEQ(id), p).Set...Save]: the
    number of rows changed. Updates reach soft-deleted rows too. *)
Definition update_where (id : Z) (p : UserSubscription -> bool)
  (f : UserSubscription -> UserSubscription) (tb : Table) : Z * Table :=
  match tb_rows tb !! id with
  | Some r =>
    if p r then (1, set_rows tb (<[id := set_UpdatedAt (f r) (tb_now tb)]> (tb_rows tb)))
    else (0, tb)
  | None => (0, tb)
  end.

(** [UpdateOneID(id)...Save] *)
Definition update_one (id : Z) (f : UserSubscription -> UserSubscription) : M Table unit :=
  λ tb, let '(n, tb') := update_where id (λ _, true) f tb in
        if 0 <? n then (Ok tt, tb') else (Err notFoundError, tb').

Definition translateConditionalWindowReset (id : Z) (affected : Z) : M Table unit :=
  λ tb, if 0 <? affected then (Ok tt, tb) else
        if is_Some_b (live_row tb id) then (Ok tt, tb) else (Err ErrSubscriptionNotFound, tb).

Definition conditional_update (id : Z) (p : UserSubscription -> bool)
  (f : UserSubscription -> UserSubscription) : M Table unit :=
  λ tb, let '(n, tb') := update_where id p f tb in translateConditionalWindowReset id n tb'.

(** [WindowStartIsNil()], or [WindowStartEQ] of the expected start. *)
Definition start_matches (expected stored : option time) : bool :=
  option_eqb time_equal expected stored.

Section TableRepo.
Context (db_add : float64 -> float64 -> float64).

Definition table_Create (sub : UserSubscription) : M Table UserSubscription := λ tb,
  let now := tb_now tb in
  let starts := if is_zero (us_StartsAt sub) then now else us_StartsAt sub in
  let status := if String.eqb (us_Status sub) "" then SubscriptionStatusActive else us_Status sub in
  let assigned := if is_zero (us_AssignedAt sub) then now else us_AssignedAt sub in
  let id := tb_next_id tb in
  let stored := {|
    us_ID := id; us_UserID := us_UserID sub;
    us_SubscriptionPlanID := us_SubscriptionPlanID sub;
    us_PlanNameSnapshot := us_PlanNameSnapshot sub;
    us_DailyLimitUSDSnapshot := us_DailyLimitUSDSnapshot sub;
    us_WeeklyLimitUSDSnapshot := us_WeeklyLimitUSDSnapshot sub;
    us_MonthlyLimitUSDSnapshot := us_MonthlyLimitUSDSnapshot sub;
    us_RateMultiplierSnapshot := us_RateMultiplierSnapshot sub;
    us_StartsAt := starts; us_ExpiresAt := us_ExpiresAt sub; us_Status := status;
    us_DailyWindowStart := us_DailyWindowStart sub;
    us_WeeklyWindowStart := us_WeeklyWindowStart sub;
    us_MonthlyWindowStart := us_MonthlyWindowStart sub;
    us_DailyUsageUSD := us_DailyUsageUSD sub; us_WeeklyUsageUSD := us_WeeklyUsageUSD sub;
    us_MonthlyUsageUSD := us_MonthlyUsageUSD sub;
    us_AssignedBy := us_AssignedBy sub; us_AssignedAt := assigned; us_Notes := us_Notes sub;
    us_CreatedAt := now; us_UpdatedAt := now; us_DeletedAt := None |} in
  (Ok (set_identity sub id now now),
   mk_Table (<[id := stored]> (tb_rows tb)) now (id + 1)).

Definition table_GetByID (id : Z) : M Table UserSubscription := λ tb,
  match live_row tb id with
  | Some r => (Ok (entity_to_service true r), tb)
  | None => (Err notFoundError, tb)
  end.

Definition table_GetByIDIncludeDeleted (id : Z) : M Table UserSubscription := λ tb,
  match tb_rows tb !! id with
  | Some r => (Ok (entity_to_service false r), tb)
  | None => (Err notFoundError, tb)
  end.

Definition table_Delete (id : Z) : M Table unit := λ tb,
  let '(_, tb') := update_where id (λ r, negb (is_deleted r))
                     (λ r, set_DeletedAt r (Some (tb_now tb))) tb in (Ok tt, tb').

Definition table_Restore (id : Z) (restoredStatus : string) : M Table UserSubscription :=
  let! _ := update_one id (λ r, set_DeletedAt (set_Status r restoredStatus) None) in
  table_GetByID id.

Definition live_rows (tb : Table) : list UserSubscription :=
  filterb (λ r, negb (is_deleted r)) (map snd (map_to_list (tb_rows tb))).
Definition created_desc (l r : UserSubscription) : bool :=
  before (us_CreatedAt r) (us_CreatedAt l).
Definition is_active_row (now : time) (r : UserSubscription) : bool :=
  String.eqb (us_Status r) SubscriptionStatusActive && after (us_ExpiresAt r) now.

Definition table_ListByUserID (userID : Z) : M Table (list UserSubscription) := λ tb,
  (Ok (map (entity_to_service true)
     (stable_sort created_desc (filterb (λ r, us_UserID r =? userID) (live_rows tb)))), tb).

Definition table_ListActiveByUserID (userID : Z) : M Table (list UserSubscription) := λ tb,
  (Ok (map (entity_to_service true)
     (stable_sort created_desc
       (filterb (λ r, (us_UserID r =? userID) && is_active_row (tb_now tb) r) (live_rows tb)))), tb).

Definition candidate_asc (l r : UserSubscription) : bool :=
  if negb (time_equal (us_ExpiresAt l) (us_ExpiresAt r))
  then before (us_ExpiresAt l) (us_ExpiresAt r)
  else if negb (time_equal (us_CreatedAt l) (us_CreatedAt r))
  then before (us_CreatedAt l) (us_CreatedAt r)
  else us_ID l <? us_ID r.

Definition plan_in (planIDs : list Z) (r : UserSubscription) : bool :=
  match us_SubscriptionPlanID r with Some p => mem_Z p planIDs | None => false end.

Definition table_ListActiveByUserIDAndPlanIDs (userID : Z) (planIDs : list Z)
  : M Table (list UserSubscription) := λ tb,
  if is_nil planIDs then (Ok [], tb) else
  (Ok (map (entity_to_service true)
     (stable_sort candidate_asc
       (filterb (λ r, (us_UserID r =? userID) && is_active_row (tb_now tb) r
                      && plan_in planIDs r) (live_rows tb)))), tb).

Definition table_ExtendExpiry (id : Z) (newExpiresAt : time) : M Table unit :=
  update_one id (λ r, set_ExpiresAt r newExpiresAt).
Definition table_UpdateStatus (id : Z) (status : string) : M Table unit :=
  update_one id (λ r, set_Status r status).

Definition table_ActivateWindows (id : Z) (dailyStart periodicStart : time) : M Table unit :=
  conditional_update id
    (λ r, negb (is_Some_b (us_DailyWindowStart r)) && negb (is_Some_b (us_WeeklyWindowStart r))
          && negb (is_Some_b (us_MonthlyWindowStart r)))
    (λ r, set_monthly (set_weekly (set_daily r (Some dailyStart) (us_DailyUsageUSD r))
                         (Some periodicStart) (us_WeeklyUsageUSD r))
            (Some periodicStart) (us_MonthlyUsageUSD r)).

Definition table_ResetUsageWindows (id : Z) (resetDaily resetWeekly resetMonthly : bool)
  (dailyStart periodicStart : time) : M Table unit :=
  update_one id (λ r,
    let r := if resetDaily then set_daily r (Some dailyStart) f0 else r in
    let r := if resetWeekly then set_weekly r (Some periodicStart) f0 else r in
    if resetMonthly then set_monthly r (Some periodicStart) f0 else r).

Definition table_ResetDailyUsage (id : Z) (expected : option time) (newStart : time)
  : M Table unit :=
  conditional_update id (λ r, start_matches expected (us_DailyWindowStart r))
    (λ r, set_daily r (Some newStart) f0).
Definition table_ResetWeeklyUsage (id : Z) (expected : option time) (newStart : time)
  : M Table unit :=
  conditional_update id (λ r, start_matches expected (us_WeeklyWindowStart r))
    (λ r, set_weekly r (Some newStart) f0).
Definition table_ResetMonthlyUsage (id : Z) (expected : option time) (newStart : time)
  : M Table unit :=
  conditional_update id (λ r, start_matches expected (us_MonthlyWindowStart r))
    (λ r, set_monthly r (Some newStart) f0).

Definition add_usage (cost : float64) (r : UserSubscription) : UserSubscription :=
  set_monthly
    (set_weekly (set_daily r (us_DailyWindowStart r) (db_add (us_DailyUsageUSD r) cost))
       (us_WeeklyWindowStart r) (db_add (us_WeeklyUsageUSD r) cost))
    (us_MonthlyWindowStart r) (db_add (us_MonthlyUsageUSD r) cost).

Definition table_IncrementUsage (id : Z) (costUSD : float64) : M Table unit := λ tb,
  let '(n, tb') := update_where id (λ r, negb (is_deleted r)) (add_usage costUSD) tb in
  if 0 <? n then (Ok tt, tb') else (Err ErrSubscriptionNotFound, tb').

(** [BatchUpdateExpiredStatus]: every active row whose expiry has come. *)
Definition expired_active (now : time) (r : UserSubscription) : bool :=
  String.eqb (us_Status r) SubscriptionStatusActive && negb (after (us_ExpiresAt r) now).
Definition table_BatchUpdateExpiredStatus : M Table Z := λ tb,
  let now := tb_now tb in
  (Ok (Z.of_nat (length (filterb (expired_active now) (map snd (map_to_list (tb_rows tb)))))),
   set_rows tb ((λ r, if expired_active now r
                      then set_UpdatedAt (set_Status r SubscriptionStatusExpired) now else r)
                <$> tb_rows tb)).

Definition table_repo : UserSubscriptionRepository Table := {|
  repo_Create := table_Create;
  repo_GetByID := table_GetByID;
  repo_GetByIDIncludeDeleted := table_GetByIDIncludeDeleted;
  repo_Delete := table_Delete;
  repo_Restore := table_Restore;
  repo_ListByUserID := table_ListByUserID;
  repo_ListActiveByUserID := table_ListActiveByUserID;
  repo_ListActiveByUserIDAndPlanIDs := table_ListActiveByUserIDAndPlanIDs;
  repo_ExtendExpiry := table_ExtendExpiry;
  repo_UpdateStatus := table_UpdateStatus;
  repo_ActivateWindows := table_ActivateWindows;
  repo_ResetUsageWindows := table_ResetUsageWindows;
  repo_ResetDailyUsage := table_ResetDailyUsage;
  repo_ResetWeeklyUsage := table_ResetWeeklyUsage;
  repo_ResetMonthlyUsage := table_ResetMonthlyUsage;
  repo_IncrementUsage := table_IncrementUsage;
  repo_BatchUpdateExpiredStatus := table_BatchUpdateExpiredStatus
|}.

(** ** Concurrent window resets

    The writes several requests make to one row, in the order the database
    serialises them. *)

Inductive usage_op :=
  | OpReset (expected : option time) (newStart : time)
  | OpIncrement (cost : float64).

Definition run_weekly_op (id : Z) (op : usage_op) (tb : Table) : Table :=
  match op with
  | OpReset expected newStart => (table_ResetWeeklyUsage id expected newStart tb).2
  | OpIncrement cost => (table_IncrementUsage id cost tb).2
  end.
Definition run_weekly_ops (id : Z) (ops : list usage_op) (tb : Table) : Table :=
  foldl (λ tb op, run_weekly_op id op tb) tb ops.

(** The costs recorded after the first reset, or all of them when there is
    none, on top of what the window then holds. *)
Fixpoint weekly_total (done : bool) (usage : float64) (ops : list usage_op) : float64 :=
  match ops with
  | [] => usage
  | OpReset _ _ :: ops' =>
      if done then weekly_total true usage ops' else weekly_total true f0 ops'
  | OpIncrement cost :: ops' => weekly_total done (db_add usage cost) ops'
  end.

Lemma conditional_update_rows id p f tb r :
  tb_rows tb !! id = Some r ->
  tb_rows (conditional_update id p f tb).2 !! id =
  Some (if p r then set_UpdatedAt (f r) (tb_now tb) else r).
Proof.
  intros Hr. unfold conditional_update, update_where. rewrite Hr.
  destruct (p r); simpl.
  - unfold translateConditionalWindowReset. simpl. by rewrite lookup_insert_eq.
  - unfold translateConditionalWindowReset. simpl. by destruct (is_Some_b _).
Qed.

Lemma increment_rows id cost tb r :
  tb_rows tb !! id = Some r -> is_deleted r = false ->
  tb_rows (table_IncrementUsage id cost tb).2 !! id =
  Some (set_UpdatedAt (add_usage cost r) (tb_now tb)).
Proof.
  intros Hr Hd. unfold table_IncrementUsage, update_where. rewrite Hr, Hd. simpl.
  by rewrite lookup_insert_eq.
Qed.

(** [stale w0 op]: a reset computed from the window start [w0], for a later
    start; increments qualify. *)
Definition reset_from (w0 : time) (op : usage_op) : Prop :=
  match op with
  | OpReset expected newStart => expected = Some w0 /\ t_ns w0 < t_ns newStart
  | OpIncrement _ => True
  end.

Lemma run_weekly_ops_lookup id w0 ops tb r (done : bool) :
  tb_rows tb !! id = Some r -> is_deleted r = false ->
  Forall (reset_from w0) ops ->
  (if done then ∃ w, us_WeeklyWindowStart r = Some w /\ t_ns w0 < t_ns w
   else us_WeeklyWindowStart r = Some w0) ->
  ∃ r', tb_rows (run_weekly_ops id ops tb) !! id = Some r' /\
    us_WeeklyUsageUSD r' = weekly_total done (us_WeeklyUsageUSD r) ops.
Proof.
  unfold run_weekly_ops. revert tb r done.
  induction ops as [|op ops IH]; intros tb r done Hr Hd Hops Hw; simpl; [by exists r|].
  apply Forall_cons in Hops as [Hop Hops]. destruct op as [expected newStart|cost]; simpl.
  - destruct Hop as [-> Hlt]. set (tb' := (table_ResetWeeklyUsage _ _ _ tb).2).
    assert (Hr' := conditional_update_rows id
      (λ r, start_matches (Some w0) (us_WeeklyWindowStart r))
      (λ r, set_weekly r (Some newStart) f0) tb r Hr).
    cbv beta in Hr'. fold (table_ResetWeeklyUsage id (Some w0) newStart) in Hr'. fold tb' in Hr'.
    destruct done.
    + destruct Hw as (w & Hw & Hlt').
      assert (start_matches (Some w0) (us_WeeklyWindowStart r) = false) as Hm.
      { rewrite Hw. simpl. unfold time_equal. bool_goal. lia. }
      rewrite Hm in Hr'. apply (IH tb' r true); eauto.
    + assert (start_matches (Some w0) (us_WeeklyWindowStart r) = true) as Hm.
      { rewrite Hw. simpl. apply Z.eqb_refl. }
      rewrite Hm in Hr'.
      destruct (IH tb' _ true Hr' Hd Hops) as (r' & H1 & H2); [by exists newStart|].
      exists r'. split; [done|]. rewrite H2. done.
  - set (tb' := (table_IncrementUsage id cost tb).2).
    assert (Hr' := increment_rows id cost tb r Hr Hd). fold tb' in Hr'.
    destruct (IH tb' _ done Hr' Hd Hops) as (r' & H1 & H2); [done|].
    exists r'. split; [done|]. rewrite H2. done.
Qed.

(** However the writes of concurrent requests interleave, the resets they all
    computed from the same expired window take effect once: the weekly usage
    ends as the sum of the costs recorded since the first of them, so no cost
    of the new window is lost to a stale reset. *)
Theorem concurrent_resets_keep_usage id w0 ops tb r :
  tb_rows tb !! id = Some r -> is_deleted r = false ->
  us_WeeklyWindowStart r = Some w0 -> Forall (reset_from w0) ops ->
  ∃ r', tb_rows (run_weekly_ops id ops tb) !! id = Some r' /\
    us_WeeklyUsageUSD r' = weekly_total false (us_WeeklyUsageUSD r) ops.
Proof. intros. by eapply (run_weekly_ops_lookup id w0 ops tb r false). Qed.

End TableRepo.

(** ** What a subscription is sold as

    The user, the plan and the multiplier of a subscription are set when it is
    created.  A repository agrees with itself about them when what it returns
    for an id has the terms of that id, and none of the calls that resolving a
    billing asset makes changes the terms of any. *)

Definition Terms : Type := Z * option Z * float64.
Definition terms_of (s : UserSubscription) : Terms :=
  (us_UserID s, us_SubscriptionPlanID s, us_RateMultiplierSnapshot s).

Section KeepsTerms.
Context {S : Type} (ok : S -> Prop) (terms_at : S -> Z -> option Terms).
Definition keeps_terms {B} (m : M S B) : Prop :=
  ∀ st, ok st -> ok (m st).2 /\ ∀ id, terms_at (m st).2 id = terms_at st id.

Lemma keeps_terms_mret {B} (b : B) : keeps_terms (mret b).
Proof. by intros st. Qed.
Lemma keeps_terms_mfail {B} e : keeps_terms (mfail (A := B) e).
Proof. by intros st. Qed.
Lemma keeps_terms_bind {B C} (m : M S B) (k : B -> M S C) :
  keeps_terms m -> (∀ b, keeps_terms (k b)) -> keeps_terms (mbind_ m k).
Proof.
  intros Hm Hk st Hst. unfold mbind_. destruct (Hm st Hst) as [H1 H2].
  destruct (m st) as [[b|e] st1]; [|done]. destruct (Hk b st1 H1) as [H3 H4]. split; [done|].
  intros id. by rewrite H4.
Qed.
Lemma keeps_terms_try {B C} (m : M S B) (k : result B -> M S C) :
  keeps_terms m -> (∀ r, keeps_terms (k r)) -> keeps_terms (mtry m k).
Proof.
  intros Hm Hk st Hst. unfold mtry. destruct (Hm st Hst) as [H1 H2].
  destruct (m st) as [r st1]. destruct (Hk r st1 H1) as [H3 H4]. split; [done|].
  intros id. by rewrite H4.
Qed.
End KeepsTerms.

Class SubscriptionTerms {S : Type} (repo : UserSubscriptionRepository S) := {
  rows_ok : S -> Prop;
  terms_at : S -> Z -> option Terms;
  terms_GetByID id : keeps_terms rows_ok terms_at (repo_GetByID repo id);
  terms_ListActive u : keeps_terms rows_ok terms_at (repo_ListActiveByUserID repo u);
  terms_ListPlans u l : keeps_terms rows_ok terms_at (repo_ListActiveByUserIDAndPlanIDs repo u l);
  terms_ActivateWindows id d p : keeps_terms rows_ok terms_at (repo_ActivateWindows repo id d p);
  terms_ResetDaily id e w : keeps_terms rows_ok terms_at (repo_ResetDailyUsage repo id e w);
  terms_ResetWeekly id e w : keeps_terms rows_ok terms_at (repo_ResetWeeklyUsage repo id e w);
  terms_ResetMonthly id e w : keeps_terms rows_ok terms_at (repo_ResetMonthlyUsage repo id e w);
  found_terms id st s st' : rows_ok st -> repo_GetByID repo id st = (Ok s, st') ->
    us_ID s = id /\ terms_at st id = Some (terms_of s);
  listed_terms u st l st' : rows_ok st -> repo_ListActiveByUserID repo u st = (Ok l, st') ->
    ∀ s, s ∈ l -> us_UserID s = u /\ terms_at st (us_ID s) = Some (terms_of s);
  listed_plan_terms u ps st l st' : rows_ok st -> repo_ListActiveByUserIDAndPlanIDs repo u ps st = (Ok l, st') ->
    ∀ s, s ∈ l -> us_UserID s = u /\ terms_at st (us_ID s) = Some (terms_of s)
}.

(** *** The table *)

Definition table_ok (tb : Table) : Prop := ∀ id r, tb_rows tb !! id = Some r -> us_ID r = id.
Definition table_terms (tb : Table) (id : Z) : option Terms := terms_of <$> tb_rows tb !! id.

Lemma entity_terms b r : us_ID (entity_to_service b r) = us_ID r /\ terms_of (entity_to_service b r) = terms_of r.
Proof. unfold entity_to_service. by destruct (b && is_deleted r). Qed.

Lemma update_where_terms id p f :
  (∀ r, us_ID (f r) = us_ID r /\ terms_of (f r) = terms_of r) ->
  ∀ tb, table_ok tb -> table_ok (update_where id p f tb).2 /\
    ∀ i, table_terms (update_where id p f tb).2 i = table_terms tb i.
Proof.
  intros Hf tb Hok. unfold update_where. destruct (tb_rows tb !! id) as [r|] eqn:Er; [|done].
  destruct (p r); [|done]. destruct (Hf r) as [Hid Ht]. split.
  - intros i r'. cbn. destruct (decide (i = id)) as [->|Hne].
    + rewrite lookup_insert_eq. intros [= <-]. etrans; [exact Hid|by apply Hok].
    + rewrite lookup_insert_ne by done. apply Hok.
  - intros i. unfold table_terms. cbn. destruct (decide (i = id)) as [->|Hne].
    + rewrite lookup_insert_eq, Er. cbn. f_equal. exact Ht.
    + by rewrite lookup_insert_ne.
Qed.
Lemma conditional_update_terms id p f :
  (∀ r, us_ID (f r) = us_ID r /\ terms_of (f r) = terms_of r) ->
  keeps_terms table_ok table_terms (conditional_update id p f).
Proof.
  intros Hf tb Hok. unfold conditional_update. pose proof (update_where_terms id p f Hf tb Hok) as H.
  destruct (update_where id p f tb) as [n tb']. unfold translateConditionalWindowReset.
  by destruct (0 <? n), (is_Some_b (live_row tb' id)).
Qed.

Lemma live_rows_terms tb r : table_ok tb -> r ∈ live_rows tb -> table_terms tb (us_ID r) = Some (terms_of r).
Proof.
  intros Hok [Hr _]%elem_of_filterb. apply list_elem_of_fmap in Hr as ((id & r') & -> & Hr).
  apply elem_of_map_to_list in Hr. unfold table_terms. cbn. rewrite (Hok _ _ Hr), Hr. done.
Qed.
(** The rows of a listing: sorted, and chosen by a condition on the user. *)
Lemma sorted_rows_terms order p u tb s :
  table_ok tb -> (∀ r, p r = true -> us_UserID r = u) ->
  s ∈ map (entity_to_service true) (stable_sort order (filterb p (live_rows tb))) ->
  us_UserID s = u /\ table_terms tb (us_ID s) = Some (terms_of s).
Proof.
  intros Hok Hp (r & -> & Hr)%list_elem_of_fmap. apply elem_of_stable_sort, elem_of_filterb in Hr as [Hr Hpr].
  destruct (entity_terms true r) as [-> Ht]. rewrite Ht. split; [|by apply live_rows_terms].
  unfold terms_of in Ht. injection Ht as -> _ _. by apply Hp.
Qed.

#[export, refine] Instance table_repo_terms db_add : SubscriptionTerms (table_repo db_add) :=
  {| rows_ok := table_ok; terms_at := table_terms |}.
Proof.
  - intros id tb Hok. cbn. unfold table_GetByID. by destruct (live_row tb id).
  - by intros u tb Hok.
  - intros u l tb Hok. cbn. unfold table_ListActiveByUserIDAndPlanIDs. by destruct (is_nil l).
  - intros id d p. by apply conditional_update_terms.
  - intros id e w. by apply conditional_update_terms.
  - intros id e w. by apply conditional_update_terms.
  - intros id e w. by apply conditional_update_terms.
  - intros id tb s tb' Hok. cbn. unfold table_GetByID, live_row.
    destruct (tb_rows tb !! id) as [r|] eqn:E; [|done]. destruct (is_deleted r); [done|]. intros [= <- <-].
    destruct (entity_terms true r) as [-> ->]. split; [by apply Hok|]. unfold table_terms. by rewrite E.
  - intros u tb l tb' Hok. cbn. unfold table_ListActiveByUserID. intros [= <- <-] s.
    apply sorted_rows_terms; [done|]. intros r [Hu _]%andb_true_iff. lia.
  - intros u ps tb l tb' Hok. cbn. unfold table_ListActiveByUserIDAndPlanIDs.
    destruct (is_nil ps); intros [= <- <-] s; [by intros ?%elem_of_nil|].
    apply sorted_rows_terms; [done|]. intros r [[Hu _]%andb_true_iff _]%andb_true_iff. lia.
Defined.
