(* ===== verification/SubscriptionService.v ===== *)
(** * The subscription service

    [service/subscription_service.go], [service/subscription_plan_snapshot.go]
    and the listing half of [service/subscription_candidates.go], written
    against the repository interface so that every error path is kept.  The
    readings of the clock are arguments, in the order the code takes them; the
    billing cache, the transaction client and the plan table are variables. *)

From S2P Require Import Prelude GoErrors GoTime Float64 Subscription SubscriptionRepo.

(** [time.Date(2099, 12, 31, 23, 59, 59, 0, time.UTC)] *)
Definition MaxExpiresAt : time := mk_time (4102444799 * second) UTC.
Definition MaxValidityDays : Z := 36500.

Definition ErrSubscriptionPlanNotFound : error :=
  NotFound "SUBSCRIPTION_PLAN_NOT_FOUND" "subscription plan not found".
Definition ErrSubscriptionPlanInvalid : error :=
  BadRequest "SUBSCRIPTION_PLAN_INVALID" "subscription plan terms are invalid".

Definition normalizeAssignValidityDays (days : Z) : Z :=
  let days := if days <=? 0 then 30 else days in
  if MaxValidityDays <? days then MaxValidityDays else days.

(** ** In-memory checks *)

Section Checks.
Context (tz : Location).

(** The window start is cleared on display copies only. *)
Definition normalizeExpiredWindowAt (now : time) (sub : UserSubscription) : UserSubscription :=
  let sub := if canAutomaticallyResetDailyAt tz sub now then set_daily sub None f0 else sub in
  let sub := if canAutomaticallyResetWeeklyAt sub now then set_weekly sub None f0 else sub in
  if canAutomaticallyResetMonthlyAt sub now then set_monthly sub None f0 else sub.
Definition normalizeExpiredWindowsAt (subs : list UserSubscription) (now : time)
  : list UserSubscription := map (normalizeExpiredWindowAt now) subs.

Definition normalizeOneStatus (now : time) (sub : UserSubscription) : UserSubscription :=
  if String.eqb (us_Status sub) SubscriptionStatusActive && negb (after (us_ExpiresAt sub) now)
  then set_Status sub SubscriptionStatusExpired else sub.
Definition normalizeSubscriptionStatus (subs : list UserSubscription) (now : time)
  : list UserSubscription := map (normalizeOneStatus now) subs.

Definition CheckUsageLimits (sub : UserSubscription) (additionalCost : float64) : result unit :=
  if negb (CheckDailyLimit sub additionalCost) then Err ErrDailyLimitExceeded
  else if negb (CheckWeeklyLimit sub additionalCost) then Err ErrWeeklyLimitExceeded
  else if negb (CheckMonthlyLimit sub additionalCost) then Err ErrMonthlyLimitExceeded
  else Ok tt.

Definition limit_reached (limit : option float64) (usage : float64) : bool :=
  hasUsageLimit limit && match limit with Some l => fgeb usage l | None => false end.

(** The three in-memory corrections of [ValidateAndCheckLimits], and whether
    any of them applied. *)
Definition correct_windows (now : time) (sub : UserSubscription) : UserSubscription * bool :=
  let '(sub, m) := if canAutomaticallyResetDailyAt tz sub now
    then (set_daily sub (us_DailyWindowStart sub) f0, true) else (sub, false) in
  let '(sub, m) := if canAutomaticallyResetWeeklyAt sub now
    then (set_weekly sub (us_WeeklyWindowStart sub) f0, true) else (sub, m) in
  let '(sub, m) := if canAutomaticallyResetMonthlyAt sub now
    then (set_monthly sub (us_MonthlyWindowStart sub) f0, true) else (sub, m) in
  (sub, if negb (IsWindowActivated sub) then true else m).

Record limit_check := mk_check {
  lc_sub : UserSubscription;
  lc_needsMaintenance : bool;
  lc_err : option error
}.

Definition ValidateAndCheckLimits (now : time) (sub : UserSubscription) : limit_check :=
  if String.eqb (us_Status sub) SubscriptionStatusExpired
  then mk_check sub false (Some ErrSubscriptionExpired) else
  if String.eqb (us_Status sub) SubscriptionStatusSuspended
  then mk_check sub false (Some ErrSubscriptionSuspended) else
  if negb (after (us_ExpiresAt sub) now)
  then mk_check sub false (Some ErrSubscriptionExpired) else
  let '(sub, m) := correct_windows now sub in
  if limit_reached (dailyLimitUSD sub) (us_DailyUsageUSD sub)
  then mk_check sub m (Some ErrDailyLimitExceeded) else
  if limit_reached (weeklyLimitUSD sub) (us_WeeklyUsageUSD sub)
  then mk_check sub m (Some ErrWeeklyLimitExceeded) else
  if limit_reached (monthlyLimitUSD sub) (us_MonthlyUsageUSD sub)
  then mk_check sub m (Some ErrMonthlyLimitExceeded) else
  mk_check sub m None.

(** ** Progress *)

Record UsageWindowProgress := {
  wp_LimitUSD : float64;
  wp_UsedUSD : float64;
  wp_RemainingUSD : float64;
  wp_Percentage : float64;
  wp_WindowStart : time;
  wp_ResetsAt : time;
  wp_ResetsInSeconds : Z
}.
Record SubscriptionProgress := {
  sp_ID : Z;
  sp_PlanName : string;
  sp_ExpiresAt : time;
  sp_ExpiresInDays : Z;
  sp_Daily : option UsageWindowProgress;
  sp_Weekly : option UsageWindowProgress;
  sp_Monthly : option UsageWindowProgress
}.

Definition window_progress (now : time) (limit used : float64) (start resetsAt : time)
  : UsageWindowProgress :=
  let remaining := fsub limit used in
  let percentage := fmul (fdiv used limit) (f64_of_Z 100) in
  let secs := f64_to_int64 (duration_seconds (time_sub resetsAt now)) in
  {| wp_LimitUSD := limit; wp_UsedUSD := used;
     wp_RemainingUSD := if fltb remaining f0 then f0 else remaining;
     wp_Percentage := if fgtb percentage (f64_of_Z 100) then f64_of_Z 100 else percentage;
     wp_WindowStart := start; wp_ResetsAt := resetsAt;
     wp_ResetsInSeconds := if secs <? 0 then 0 else secs |}.

Definition progress_of (now : time) (limit : option float64) (used : float64)
  (start resetsAt : option time) : option UsageWindowProgress :=
  match limit, start, resetsAt with
  | Some l, Some w, Some r =>
    if hasUsageLimit limit then Some (window_progress now l used w r) else None
  | _, _, _ => None
  end.

Definition calculateProgress (now : time) (sub : UserSubscription) : SubscriptionProgress := {|
  sp_ID := us_ID sub;
  sp_PlanName := us_PlanNameSnapshot sub;
  sp_ExpiresAt := us_ExpiresAt sub;
  sp_ExpiresInDays := daysRemainingAt sub now;
  sp_Daily := progress_of now (dailyLimitUSD sub) (us_DailyUsageUSD sub)
                (us_DailyWindowStart sub) (DailyResetTime tz sub);
  sp_Weekly := progress_of now (weeklyLimitUSD sub) (us_WeeklyUsageUSD sub)
                (us_WeeklyWindowStart sub) (WeeklyResetTime sub);
  sp_Monthly := progress_of now (monthlyLimitUSD sub) (us_MonthlyUsageUSD sub)
                (us_MonthlyWindowStart sub) (MonthlyResetTime sub) |}.

End Checks.

(** ** Operations on the repository *)

Section Service.
Context {S : Type} (repo : UserSubscriptionRepository S) (tz : Location).

(** [billingCacheService]: absent, or its [InvalidateSubscription]. *)
Context (billingCache : option (Z -> Z -> M S unit)).

Definition invalidateSubscriptionCache (userID subscriptionID : Z) : M S unit :=
  match billingCache with
  | None => mret tt
  | Some invalidate =>
    if 0 <? subscriptionID then
      mtry (invalidate userID subscriptionID) (λ r,
        match r with
        | Err e => mfail (EWrap "invalidate billing subscription cache: %w" e)
        | Ok _ => mret tt
        end)
    else mret tt
  end.

(** The result of an invalidation the caller only logs. *)
Definition ignore_error {A} (m : M S A) : M S unit := mtry m (λ _, mret tt).

(** The goroutine is run in place: its caller does not observe its result. *)
Definition maybeInvalidateAssignmentCache (userID subscriptionID : Z) (deferred : bool)
  : M S unit :=
  if deferred then mret tt else
  match billingCache with
  | None => mret tt
  | Some _ => ignore_error (invalidateSubscriptionCache userID subscriptionID)
  end.

Definition RevokeSubscription (subscriptionID : Z) : M S unit :=
  let! sub := repo_GetByID repo subscriptionID in
  let! _ := repo_Delete repo subscriptionID in
  invalidateSubscriptionCache (us_UserID sub) (us_ID sub).

Definition RestoreSubscription (now : time) (subscriptionID : Z) : M S UserSubscription :=
  let! sub := repo_GetByIDIncludeDeleted repo subscriptionID in
  match us_DeletedAt sub with
  | None => mfail ErrSubscriptionNotRevoked
  | Some _ =>
    let restoredStatus :=
      if String.eqb (us_Status sub) SubscriptionStatusActive && negb (after (us_ExpiresAt sub) now)
      then SubscriptionStatusExpired else us_Status sub in
    let! restored := repo_Restore repo subscriptionID restoredStatus in
    let! _ := invalidateSubscriptionCache (us_UserID restored) (us_ID restored) in
    mret restored
  end.

Definition clamp_days (days : Z) : Z :=
  let days := if MaxValidityDays <? days then MaxValidityDays else days in
  if days <? - MaxValidityDays then - MaxValidityDays else days.

(** The new expiry [ExtendSubscription] computes, before it is compared with
    the clock. *)
Definition extended_expiry (now : time) (sub : UserSubscription) (days : Z) : time :=
  let isExpired := negb (after (us_ExpiresAt sub) now) in
  let newExpiresAt := if isExpired then add_days now days
                      else add_days (us_ExpiresAt sub) days in
  if after newExpiresAt MaxExpiresAt then MaxExpiresAt else newExpiresAt.

Definition ExtendSubscription (now : time) (subscriptionID days : Z) : M S UserSubscription :=
  mtry (repo_GetByID repo subscriptionID) (λ r,
  match r with
  | Err _ => mfail ErrSubscriptionNotFound
  | Ok sub =>
    let days := clamp_days days in
    let isExpired := negb (after (us_ExpiresAt sub) now) in
    if isExpired && (days <? 0)
    then mfail (BadRequest "CANNOT_SHORTEN_EXPIRED" "cannot shorten an expired subscription")
    else
    let newExpiresAt := extended_expiry now sub days in
    if negb (after newExpiresAt now) then mfail ErrAdjustWouldExpire else
    let! _ := repo_ExtendExpiry repo subscriptionID newExpiresAt in
    let! _ := (if String.eqb (us_Status sub) SubscriptionStatusExpired
               then repo_UpdateStatus repo subscriptionID SubscriptionStatusActive
               else mret tt) in
    let! _ := maybeInvalidateAssignmentCache (us_UserID sub) (us_ID sub) false in
    repo_GetByID repo subscriptionID
  end).

Definition ListUserSubscriptions (now1 now2 : time) (userID : Z) : M S (list UserSubscription) :=
  let! subs := repo_ListByUserID repo userID in
  mret (normalizeSubscriptionStatus (normalizeExpiredWindowsAt tz subs now1) now2).

Definition ListActiveUserSubscriptions (now : time) (userID : Z) : M S (list UserSubscription) :=
  let! subs := repo_ListActiveByUserID repo userID in
  mret (normalizeExpiredWindowsAt tz subs now).

Definition checkAndActivateWindowAt (now : time) (sub : UserSubscription) : M S unit :=
  if IsWindowActivated sub then mret tt
  else repo_ActivateWindows repo (us_ID sub) (tz_StartOfDay tz now) now.

Definition AdminResetQuota (now : time) (subscriptionID : Z)
  (resetDaily resetWeekly resetMonthly : bool) : M S UserSubscription :=
  if negb resetDaily && negb resetWeekly && negb resetMonthly then mfail ErrInvalidInput else
  let! sub := repo_GetByID repo subscriptionID in
  let! _ := repo_ResetUsageWindows repo (us_ID sub) resetDaily resetWeekly resetMonthly
              (tz_StartOfDay tz now) now in
  let! _ := ignore_error (invalidateSubscriptionCache (us_UserID sub) (us_ID sub)) in
  repo_GetByID repo subscriptionID.

(** One conditional reset of [CheckAndResetWindows]: the subscription the
    caller holds is updated only when the repository call succeeds. *)
Definition reset_window (due : option time) (reset : time -> M S unit)
  (apply : time -> UserSubscription) (sub : UserSubscription) (needs : bool)
  : M S (UserSubscription * bool) :=
  match due with
  | None => mret (sub, needs)
  | Some windowStart =>
    let! _ := reset windowStart in
    mret (apply windowStart, true)
  end.

Definition CheckAndResetWindows (now : time) (sub : UserSubscription) : M S UserSubscription :=
  let! d := reset_window (automaticDailyWindowStartAt tz sub now)
    (repo_ResetDailyUsage repo (us_ID sub) (us_DailyWindowStart sub))
    (λ w, set_daily sub (Some w) f0) sub false in
  let sub1 := d.1 in
  let! w := reset_window (automaticWindowStartAt sub1 (us_WeeklyWindowStart sub1) week_ns now)
    (repo_ResetWeeklyUsage repo (us_ID sub1) (us_WeeklyWindowStart sub1))
    (λ w, set_weekly sub1 (Some w) f0) sub1 d.2 in
  let sub2 := w.1 in
  let! m := reset_window (automaticWindowStartAt sub2 (us_MonthlyWindowStart sub2) month_ns now)
    (repo_ResetMonthlyUsage repo (us_ID sub2) (us_MonthlyWindowStart sub2))
    (λ w, set_monthly sub2 (Some w) f0) sub2 w.2 in
  let sub3 := m.1 in
  let! _ := (if m.2 : bool
             then ignore_error (invalidateSubscriptionCache (us_UserID sub3) (us_ID sub3))
             else mret tt) in
  mret sub3.

Definition EnsureWindowMaintenance (now1 now2 : time) (sub : option UserSubscription)
  : M S UserSubscription :=
  match sub with
  | None => mfail ErrSubscriptionNilInput
  | Some sub =>
    let! _ := (if negb (IsWindowActivated sub) then checkAndActivateWindowAt now1 sub
               else mret tt) in
    let! _ := CheckAndResetWindows now2 sub in
    repo_GetByID repo (us_ID sub)
  end.

Definition doWindowMaintenance (now1 now2 : time) (sub : UserSubscription) : M S unit :=
  let! _ := (if negb (IsWindowActivated sub)
             then ignore_error (checkAndActivateWindowAt now1 sub) else mret tt) in
  ignore_error (CheckAndResetWindows now2 sub).

Definition RecordUsage (subscriptionID : Z) (costUSD : float64) : M S unit :=
  repo_IncrementUsage repo subscriptionID costUSD.

Definition GetSubscriptionProgress (now : time) (subscriptionID : Z) : M S SubscriptionProgress :=
  mtry (repo_GetByID repo subscriptionID) (λ r,
    match r with
    | Err _ => mfail ErrSubscriptionNotFound
    | Ok sub => mret (calculateProgress tz now sub)
    end).

Definition GetUserSubscriptionsWithProgress (now : time) (userID : Z)
  : M S (list SubscriptionProgress) :=
  let! subs := repo_ListActiveByUserID repo userID in
  mret (map (calculateProgress tz now) subs).

Definition ValidateSubscription (now : time) (sub : UserSubscription) : M S unit :=
  if String.eqb (us_Status sub) SubscriptionStatusExpired then mfail ErrSubscriptionExpired
  else if String.eqb (us_Status sub) SubscriptionStatusSuspended
  then mfail ErrSubscriptionSuspended
  else if IsExpired sub now then
    let! _ := ignore_error (repo_UpdateStatus repo (us_ID sub) SubscriptionStatusExpired) in
    mfail ErrSubscriptionExpired
  else mret tt.

(** [subscription_candidates.go] *)
Definition ListActiveSubscriptions (userID : Z) : M S (list UserSubscription) :=
  repo_ListActiveByUserID repo userID.

Definition normalizeSubscriptionPlanIDs (planIDs : list Z) : list Z :=
  stable_sort int_less (elements (list_to_set (filterb (λ p, 0 <? p) planIDs) : gset Z)).

(** [planLister]: whether the repository also implements
    [ActiveUserSubscriptionPlanLister]. *)
Definition ListActiveSubscriptionsByPlanIDs (planLister : bool) (userID : Z) (planIDs : list Z)
  : M S (list UserSubscription) :=
  let normalizedPlanIDs := normalizeSubscriptionPlanIDs planIDs in
  if is_nil normalizedPlanIDs then mret [] else
  if negb planLister then mfail ErrSubscriptionNotFound else
  repo_ListActiveByUserIDAndPlanIDs repo userID normalizedPlanIDs.

(** ** Issuing from a plan *)

Record SubscriptionPlan := {
  plan_ID : Z;
  plan_Name : string;
  plan_ValidityDays : Z;
  plan_ValidityUnit : string;
  plan_DailyLimitUsd : option float64;
  plan_WeeklyLimitUsd : option float64;
  plan_MonthlyLimitUsd : option float64;
  plan_RateMultiplier : float64
}.

Record AssignSubscriptionFromPlanInput := {
  asg_UserID : Z;
  asg_PlanID : Z;
  asg_AssignedBy : Z;
  asg_Notes : string
}.

Definition psComputeValidityDays (days : Z) (unit_ : string) : Z :=
  if String.eqb unit_ "week" || String.eqb unit_ "weeks" then mul64 days 7
  else if String.eqb unit_ "month" || String.eqb unit_ "months" then mul64 days 30
  else days.

Definition subscriptionFromPlan (plan : option SubscriptionPlan)
  (input : AssignSubscriptionFromPlanInput) (now : time) : result UserSubscription :=
  match plan with
  | None => Err ErrSubscriptionPlanInvalid
  | Some plan =>
    if (plan_ID plan <=? 0) || (plan_ValidityDays plan <=? 0)
    then Err ErrSubscriptionPlanInvalid else
    let validityDays := psComputeValidityDays (plan_ValidityDays plan) (plan_ValidityUnit plan) in
    let expiresAt := add_days now (normalizeAssignValidityDays validityDays) in
    let expiresAt := if after expiresAt MaxExpiresAt then MaxExpiresAt else expiresAt in
    Ok {|
      us_ID := 0; us_UserID := asg_UserID input;
      us_SubscriptionPlanID := Some (plan_ID plan);
      us_PlanNameSnapshot := plan_Name plan;
      us_DailyLimitUSDSnapshot := plan_DailyLimitUsd plan;
      us_WeeklyLimitUSDSnapshot := plan_WeeklyLimitUsd plan;
      us_MonthlyLimitUSDSnapshot := plan_MonthlyLimitUsd plan;
      us_RateMultiplierSnapshot := plan_RateMultiplier plan;
      us_StartsAt := now; us_ExpiresAt := expiresAt; us_Status := SubscriptionStatusActive;
      us_DailyWindowStart := None; us_WeeklyWindowStart := None; us_MonthlyWindowStart := None;
      us_DailyUsageUSD := f0; us_WeeklyUsageUSD := f0; us_MonthlyUsageUSD := f0;
      us_AssignedBy := if 0 <? asg_AssignedBy input then Some (asg_AssignedBy input) else None;
      us_AssignedAt := now; us_Notes := asg_Notes input;
      us_CreatedAt := now; us_UpdatedAt := now; us_DeletedAt := None |}
  end.

(** The transaction client of the ORM: whether the call already runs in a
    transaction, and the client's begin, commit and rollback when there is one. *)
Record TxClient := { tx_begin : M S unit; tx_commit : M S unit; tx_rollback : M S unit }.
Context (in_tx : bool) (txClient : option TxClient).

Definition withSubscriptionUpdateTx {A} (fn : M S A) : M S A :=
  if in_tx then fn else
  match txClient with
  | None => fn
  | Some c =>
    mtry (tx_begin c) (λ r,
    match r with
    | Err e => mfail (EWrap "begin transaction: %w" e)
    | Ok _ =>
      mtry fn (λ r,
      match r with
      | Err e => mtry (tx_rollback c) (λ _, mfail e)
      | Ok a =>
        mtry (tx_commit c) (λ r,
        match r with
        | Err e => mfail (EWrap "commit transaction: %w" e)
        | Ok _ => mret a
        end)
      end)
    end)
  end.

(** [SubscriptionPlan.Get] of the client, when there is one, and
    [dbent.IsNotFound]. *)
Context (planClient : option (Z -> M S SubscriptionPlan)) (IsNotFound : error -> bool).

Definition assignSubscriptionFromPlan (now : time)
  (input : option AssignSubscriptionFromPlanInput) (deferCacheInvalidation : bool)
  : M S UserSubscription :=
  match input with
  | None => mfail ErrSubscriptionPlanInvalid
  | Some input =>
    if (asg_UserID input <=? 0) || (asg_PlanID input <=? 0)
    then mfail ErrSubscriptionPlanInvalid else
    match planClient with
    | None => mfail (EPlain "subscription plan client is unavailable")
    | Some get =>
      mtry (get (asg_PlanID input)) (λ r,
      match r with
      | Err e => if IsNotFound e then mfail ErrSubscriptionPlanNotFound
                 else mfail (EWrap "get subscription plan: %w" e)
      | Ok plan =>
        let! sub := mlift (subscriptionFromPlan (Some plan) input now) in
        mtry (withSubscriptionUpdateTx (repo_Create repo sub)) (λ r,
        match r with
        | Err e => mfail (EWrap "create subscription from plan: %w" e)
        | Ok sub =>
          let! _ := maybeInvalidateAssignmentCache (us_UserID sub) (us_ID sub)
                      deferCacheInvalidation in
          repo_GetByID repo (us_ID sub)
        end)
      end)
    end
  end.

Record BulkAssignResult := mk_bulk {
  bulk_SuccessCount : Z;
  bulk_CreatedCount : Z;
  bulk_ReusedCount : Z;
  bulk_FailedCount : Z;
  bulk_Subscriptions : list UserSubscription;
  bulk_Errors : list (Z * error)  (* printed as "user %d: %v" *);
  bulk_Statuses : gmap Z string
}.

Definition bulk_failed (userID : Z) (e : error) (acc : BulkAssignResult) : BulkAssignResult :=
  mk_bulk (bulk_SuccessCount acc) (bulk_CreatedCount acc) (bulk_ReusedCount acc)
    (bulk_FailedCount acc + 1) (bulk_Subscriptions acc) (bulk_Errors acc ++ [(userID, e)])
    (<[userID := "failed"%string]> (bulk_Statuses acc)).
Definition bulk_created (userID : Z) (sub : UserSubscription) (acc : BulkAssignResult)
  : BulkAssignResult :=
  mk_bulk (bulk_SuccessCount acc + 1) (bulk_CreatedCount acc + 1) (bulk_ReusedCount acc)
    (bulk_FailedCount acc) (bulk_Subscriptions acc ++ [sub]) (bulk_Errors acc)
    (<[userID := "created"%string]> (bulk_Statuses acc)).

(** [nows]: the clock reading of each issuance, in turn. *)
Fixpoint bulk_assign_loop (nows : nat -> time) (planID assignedBy : Z) (notes : string)
  (userIDs : list Z) (acc : BulkAssignResult) : M S BulkAssignResult :=
  match userIDs with
  | [] => mret acc
  | userID :: rest =>
    mtry (assignSubscriptionFromPlan (nows O)
            (Some {| asg_UserID := userID; asg_PlanID := planID;
                     asg_AssignedBy := assignedBy; asg_Notes := notes |}) false)
      (λ r, bulk_assign_loop (λ i, nows (Datatypes.S i)) planID assignedBy notes rest
              match r with
              | Err e => bulk_failed userID e acc
              | Ok sub => bulk_created userID sub acc
              end)
  end.

Definition BulkAssignSubscriptionFromPlan (nows : nat -> time) (planID assignedBy : Z)
  (notes : string) (userIDs : list Z) : M S BulkAssignResult :=
  if planID <=? 0 then mfail ErrSubscriptionPlanInvalid
  else bulk_assign_loop nows planID assignedBy notes userIDs (mk_bulk 0 0 0 0 [] [] ∅).

End Service.

(** ** Lemmas *)

(** A window admits a request when it has no limit, is due for a reset, or its
    usage is below the limit. *)
Definition window_admits (due : bool) (limit : option float64) (usage : float64) : Prop :=
  hasUsageLimit limit = true -> due = true \/ ∃ l, limit = Some l /\ fgeb usage l = false.

Lemma limit_reached_admits (due : bool) limit usage :
  limit_reached limit (if due then f0 else usage) = false <->
  window_admits due limit usage.
Proof.
  unfold limit_reached, window_admits. destruct limit as [l|]; simpl; [|split; [intros _ Hf; done|done]].
  destruct (fgtb l f0) eqn:Hl; simpl; [|split; [intros _ Hf; done|done]].
  destruct due.
  - split; [auto|]. intros _. by apply fltb_not_fleb.
  - split; [intros H _; right; eauto|]. intros H.
    destruct (H eq_refl) as [E|(l0 & [= <-] & E)]; done.
Qed.

Lemma weekly_due_set_daily s w u now :
  canAutomaticallyResetWeeklyAt (set_daily s w u) now = canAutomaticallyResetWeeklyAt s now.
Proof. done. Qed.
Lemma monthly_due_set_daily s w u now :
  canAutomaticallyResetMonthlyAt (set_daily s w u) now = canAutomaticallyResetMonthlyAt s now.
Proof. done. Qed.
Lemma monthly_due_set_weekly s w u now :
  canAutomaticallyResetMonthlyAt (set_weekly s w u) now = canAutomaticallyResetMonthlyAt s now.
Proof. done. Qed.

(** The corrections zero exactly the windows that are due, and report whether
    anything is to be written back. *)
Lemma correct_windows_spec tz now s :
  let d := canAutomaticallyResetDailyAt tz s now in
  let w := canAutomaticallyResetWeeklyAt s now in
  let m := canAutomaticallyResetMonthlyAt s now in
  let '(s', needs) := correct_windows tz now s in
  us_DailyUsageUSD s' = (if d then f0 else us_DailyUsageUSD s) /\
  us_WeeklyUsageUSD s' = (if w then f0 else us_WeeklyUsageUSD s) /\
  us_MonthlyUsageUSD s' = (if m then f0 else us_MonthlyUsageUSD s) /\
  dailyLimitUSD s' = dailyLimitUSD s /\ weeklyLimitUSD s' = weeklyLimitUSD s /\
  monthlyLimitUSD s' = monthlyLimitUSD s /\
  needs = d || w || m || negb (IsWindowActivated s).
Proof.
  unfold correct_windows. destruct (canAutomaticallyResetDailyAt tz s now);
    rewrite ?weekly_due_set_daily;
    destruct (canAutomaticallyResetWeeklyAt s now);
    rewrite ?monthly_due_set_weekly, ?monthly_due_set_daily;
    destruct (canAutomaticallyResetMonthlyAt s now); simpl;
    unfold IsWindowActivated; simpl; by repeat case_match.
Qed.
