(* ===== verification/SubscriptionProps.v ===== *)
(** * What the subscription service guarantees

    The hot-path check against the limits and the maintenance it asks for, the
    quota reset, the adjustment of an expiry, the issue of a subscription from
    a plan, and revocation, on the subscription table. *)

From S2P Require Import Prelude GoErrors GoTime Float64 Subscription SubscriptionRepo SubscriptionService.

(** ** The hot-path check *)

Definition all_windows_admit (tz : Location) (now : time) (s : UserSubscription) : Prop :=
  window_admits (canAutomaticallyResetDailyAt tz s now) (dailyLimitUSD s) (us_DailyUsageUSD s) /\
  window_admits (canAutomaticallyResetWeeklyAt s now) (weeklyLimitUSD s) (us_WeeklyUsageUSD s) /\
  window_admits (canAutomaticallyResetMonthlyAt s now) (monthlyLimitUSD s) (us_MonthlyUsageUSD s).

(** The shape of every outcome: a status error, or the first limit the
    corrected usages reach. *)
Lemma ValidateAndCheckLimits_cases tz now s :
  let r := ValidateAndCheckLimits tz now s in
  (us_Status s = SubscriptionStatusExpired \/ us_Status s = SubscriptionStatusSuspended \/
   after (us_ExpiresAt s) now = false) /\
  (lc_err r = Some ErrSubscriptionExpired \/ lc_err r = Some ErrSubscriptionSuspended) /\
  lc_sub r = s
  \/
  us_Status s ≠ SubscriptionStatusExpired /\ us_Status s ≠ SubscriptionStatusSuspended /\
  after (us_ExpiresAt s) now = true /\
  (lc_sub r, lc_needsMaintenance r) = correct_windows tz now s /\
  lc_err r =
    let c := (correct_windows tz now s).1 in
    if limit_reached (dailyLimitUSD c) (us_DailyUsageUSD c) then Some ErrDailyLimitExceeded
    else if limit_reached (weeklyLimitUSD c) (us_WeeklyUsageUSD c) then Some ErrWeeklyLimitExceeded
    else if limit_reached (monthlyLimitUSD c) (us_MonthlyUsageUSD c)
    then Some ErrMonthlyLimitExceeded else None.
Proof.
  unfold ValidateAndCheckLimits.
  destruct (String.eqb_spec (us_Status s) SubscriptionStatusExpired) as [E1|E1]; [left; auto|].
  destruct (String.eqb_spec (us_Status s) SubscriptionStatusSuspended) as [E2|E2]; [left; auto|].
  destruct (after (us_ExpiresAt s) now) eqn:E3; simpl; [|left; auto].
  right. do 3 (split; [done|]). destruct (correct_windows tz now s) as [c m]. simpl.
  by repeat case_match.
Qed.

(** The check admits a subscription exactly when it is neither expired nor
    suspended and every limited window is either due for a reset or below its
    limit: usage of a window that has ended never rejects a request. *)
Theorem ValidateAndCheckLimits_admits tz now s :
  lc_err (ValidateAndCheckLimits tz now s) = None <->
  us_Status s ≠ SubscriptionStatusExpired /\ us_Status s ≠ SubscriptionStatusSuspended /\
  after (us_ExpiresAt s) now = true /\ all_windows_admit tz now s.
Proof.
  pose proof (ValidateAndCheckLimits_cases tz now s) as Hc.
  pose proof (correct_windows_spec tz now s) as Hs.
  destruct (correct_windows tz now s) as [c n]. simpl in *.
  destruct Hs as (Hd & Hw & Hm & Ld & Lw & Lm & _).
  unfold all_windows_admit. rewrite <- !limit_reached_admits, <- Hd, <- Hw, <- Hm, <- Ld, <- Lw, <- Lm.
  destruct Hc as [(Hbad & Herr & _)|(N1 & N2 & N3 & _ & ->)].
  - split.
    + intros H. destruct Herr; congruence.
    + intros (? & ? & Ha & _). destruct Hbad as [?|[?|Hb]]; [done|done|congruence].
  - destruct (limit_reached (dailyLimitUSD c) _), (limit_reached (weeklyLimitUSD c) _),
      (limit_reached (monthlyLimitUSD c) _); split; intros H; try done;
      destruct H as (_ & _ & _ & H1 & H2 & H3); done.
Qed.

(** A subscription the check admits also passes [CheckUsageLimits] with no
    additional cost, in the corrected copy the caller goes on with: the two
    comparisons (reached, exceeded) never disagree on an admitted request. *)
Theorem Validate_admits_CheckUsageLimits tz now s :
  is_nan (us_DailyUsageUSD s) = false -> is_nan (us_WeeklyUsageUSD s) = false ->
  is_nan (us_MonthlyUsageUSD s) = false ->
  lc_err (ValidateAndCheckLimits tz now s) = None ->
  CheckUsageLimits (lc_sub (ValidateAndCheckLimits tz now s)) f0 = Ok tt.
Proof.
  intros Nd Nw Nm He.
  pose proof (ValidateAndCheckLimits_cases tz now s) as Hc.
  pose proof (correct_windows_spec tz now s) as Hs.
  destruct (correct_windows tz now s) as [c n]. simpl in *.
  destruct Hs as (Hd & Hw & Hm & _). rewrite He in Hc.
  destruct Hc as [(_ & [?|?] & _)|(_ & _ & _ & [= Hsub _] & Hl)]; [done|done|].
  rewrite Hsub.
  assert (Hin : ∀ limit usage, is_nan usage = false -> limit_reached limit usage = false ->
                within_limit limit usage f0 = true).
  { clear. intros [l|] usage Hn Hr; unfold limit_reached, within_limit in *; simpl in *; [|done].
    destruct (fgtb l f0) eqn:Hl; simpl in *; [|done]. apply fltb_fadd_f0.
    rewrite fltb_fleb_total; [by apply negb_true_iff|done|].
    by destruct l. }
  assert (Hz : ∀ (b : bool) u, is_nan u = false -> is_nan (if b then f0 else u) = false)
    by (by intros []).
  unfold CheckUsageLimits, CheckDailyLimit, CheckWeeklyLimit, CheckMonthlyLimit.
  destruct (limit_reached (dailyLimitUSD c) _) eqn:R1; [done|].
  destruct (limit_reached (weeklyLimitUSD c) _) eqn:R2; [done|].
  destruct (limit_reached (monthlyLimitUSD c) _) eqn:R3; [done|].
  rewrite !Hin; rewrite ?Hd, ?Hw, ?Hm; auto; congruence.
Qed.

(** ** Window maintenance *)

Section Maintenance.
Context {S : Type} (repo : UserSubscriptionRepository S) (tz : Location)
  (billingCache : option (Z -> Z -> M S unit)).

(** Nothing is due and the windows are active. *)
Definition settled (now : time) (s : UserSubscription) : Prop :=
  automaticDailyWindowStartAt tz s now = None /\
  automaticWindowStartAt s (us_WeeklyWindowStart s) week_ns now = None /\
  automaticWindowStartAt s (us_MonthlyWindowStart s) month_ns now = None /\
  IsWindowActivated s = true.

Lemma needsMaintenance_settled now s :
  lc_err (ValidateAndCheckLimits tz now s) = None ->
  lc_needsMaintenance (ValidateAndCheckLimits tz now s) = false <-> settled now s.
Proof.
  intros He. pose proof (ValidateAndCheckLimits_cases tz now s) as Hc.
  pose proof (correct_windows_spec tz now s) as Hs.
  destruct (correct_windows tz now s) as [c n]. simpl in *.
  destruct Hs as (_ & _ & _ & _ & _ & _ & Hn). rewrite He in Hc.
  destruct Hc as [(_ & [?|?] & _)|(_ & _ & _ & [= _ ->] & _)]; [done|done|]. rewrite Hn.
  unfold settled, canAutomaticallyResetDailyAt, canAutomaticallyResetWeeklyAt,
    canAutomaticallyResetMonthlyAt.
  destruct (automaticDailyWindowStartAt tz s now), (automaticWindowStartAt s _ week_ns now),
    (automaticWindowStartAt s _ month_ns now), (IsWindowActivated s); simpl; naive_solver.
Qed.

Lemma CheckAndResetWindows_settled now s st :
  settled now s -> CheckAndResetWindows repo tz billingCache now s st = (Ok s, st).
Proof.
  intros (Hd & Hw & Hm & _). unfold CheckAndResetWindows. rewrite Hd. simpl.
  unfold mbind_ at 1. simpl. rewrite Hw. unfold mbind_ at 1. simpl. rewrite Hm. done.
Qed.

(** When the check asks for no maintenance there is none to do: the
    synchronous maintenance then only reads the subscription back, and the
    queued one leaves the store as it was. *)
Theorem no_maintenance_no_write now s st :
  lc_err (ValidateAndCheckLimits tz now s) = None ->
  lc_needsMaintenance (ValidateAndCheckLimits tz now s) = false ->
  EnsureWindowMaintenance repo tz billingCache now now (Some s) st = repo_GetByID repo (us_ID s) st /\
  doWindowMaintenance repo tz billingCache now now s st = (Ok tt, st).
Proof.
  intros He Hn. apply needsMaintenance_settled in Hn as Hs; [|done].
  pose proof (CheckAndResetWindows_settled now s st Hs) as Hc.
  destruct Hs as (_ & _ & _ & Ha).
  unfold EnsureWindowMaintenance, doWindowMaintenance, ignore_error, mtry, mbind_, mret.
  rewrite Ha. simpl. by rewrite Hc.
Qed.

End Maintenance.

(** ** Maintenance on the table *)

Section TableMaintenance.
Context (db_add : float64 -> float64 -> float64) (tz : Location).
Local Abbreviation repo := (table_repo db_add).

(** Midnight of a midnight is itself: true of every zone that has a midnight
    every day. *)
Definition midnight_stable (now : time) : Prop :=
  t_ns (tz_StartOfDay tz (tz_StartOfDay tz now)) = t_ns (tz_StartOfDay tz now).

(** The windows of a row, for which the distances stay representable. *)
Definition window_ok (now : time) (s : UserSubscription) (prev : option time) : Prop :=
  ∀ p, prev = Some p ->
    near now (window_anchor s p) /\ near (us_ExpiresAt s) (window_anchor s p) /\
    t_ns (startOfDay (us_StartsAt s)) <= t_ns p.

Lemma midnight_stable_fixed offset now :
  tz = fixed_zone offset ->
  let d := (t_ns now + offset * second) / day_ns * day_ns in
  in_int64 (d / second - offset) -> d / second - offset < max_int64 ->
  midnight_stable now.
Proof.
  intros Htz d Hr Hm. unfold midnight_stable, tz_StartOfDay, start_of_local_day.
  assert (Hl : ∀ t, t_loc t = fixed_zone offset -> local_ns t = t_ns t + offset * second)
    by (intros t; unfold local_ns; by intros ->).
  rewrite !(Hl (time_in _ _)) by done. cbn [t_ns t_loc time_in]. fold d.
  rewrite Htz, (go_date_fixed offset d) by done.
  replace (d - offset * second + offset * second) with d by lia.
  replace (d / day_ns * day_ns) with d by (unfold d; by rewrite Z.div_mul).
  by rewrite go_date_fixed.
Qed.

Lemma daily_once now s :
  midnight_stable now -> automaticDailyWindowStartAt tz s now ≠ None ->
  automaticDailyWindowStartAt tz (set_daily s (Some (tz_StartOfDay tz now)) f0) now = None.
Proof.
  unfold midnight_stable, automaticDailyWindowStartAt. intros Hm _. simpl. case_match; [done|].
  unfold after. rewrite Hm, Z.ltb_irrefl. done.
Qed.

Lemma weekly_or_monthly_once now s prev period :
  0 < period -> window_ok now s prev ->
  automaticWindowStartAt s
    (match automaticWindowStartAt s prev period now with Some w => Some w | None => prev end)
    period now = None.
Proof.
  intros Hp Hok. destruct (automaticWindowStartAt s prev period now) as [w|] eqn:E; [|done].
  destruct prev as [p|]; [|done]. destruct (Hok p eq_refl) as (Hn & He & Hs).
  by apply (automaticWindowStartAt_once s p period now w).
Qed.

(** The subscription the resets leave in the caller's hands. *)
Definition after_resets (now : time) (s : UserSubscription) : UserSubscription :=
  let s1 := match automaticDailyWindowStartAt tz s now with
            | Some w => set_daily s (Some w) f0 | None => s end in
  let s2 := match automaticWindowStartAt s1 (us_WeeklyWindowStart s1) week_ns now with
            | Some w => set_weekly s1 (Some w) f0 | None => s1 end in
  match automaticWindowStartAt s2 (us_MonthlyWindowStart s2) month_ns now with
  | Some w => set_monthly s2 (Some w) f0 | None => s2 end.

(** The stored row is the caller's subscription, up to the time of its last
    update. *)
Definition stored_as (tb : Table) (s : UserSubscription) : Prop :=
  ∃ t, tb_rows tb !! us_ID s = Some (set_UpdatedAt s t).

Lemma conditional_update_stored tb s p f :
  stored_as tb s -> (∀ r t, f (set_UpdatedAt r t) = set_UpdatedAt (f r) t) ->
  us_ID (f s) = us_ID s -> (∀ t, p (set_UpdatedAt s t) = true) ->
  ∃ tb', conditional_update (us_ID s) p f tb = (Ok tt, tb') /\ stored_as tb' (f s).
Proof.
  intros [t Ht] Hf Hid Hp. unfold conditional_update, update_where. rewrite Ht, Hp, Hf.
  eexists. split; [done|]. exists (tb_now tb). rewrite Hid. simpl. by rewrite lookup_insert_eq.
Qed.

Lemma start_matches_refl w : start_matches w w = true.
Proof. destruct w; [apply Z.eqb_refl|done]. Qed.

Lemma reset_window_stored tb s due reset apply needs :
  stored_as tb s ->
  (∀ w, ∃ tb', reset w tb = (Ok tt, tb') /\ stored_as tb' (apply w)) ->
  ∃ tb' n, reset_window due reset apply s needs tb =
    (Ok (match due with Some w => apply w | None => s end, n), tb') /\
    stored_as tb' (match due with Some w => apply w | None => s end).
Proof.
  intros Hs Hr. destruct due as [w|]; simpl; [|by exists tb, needs].
  destruct (Hr w) as (tb' & E & Hs'). unfold mbind_. rewrite E. by exists tb', true.
Qed.

Context (billingCache : option (Z -> Z -> M Table unit))
  (Hcache : ∀ f u i tb, billingCache = Some f -> (f u i tb).2 = tb).

Lemma invalidate_keeps u i tb :
  ignore_error (invalidateSubscriptionCache billingCache u i) tb = (Ok tt, tb).
Proof.
  unfold ignore_error, invalidateSubscriptionCache, mtry, mret, mfail.
  destruct billingCache as [f|] eqn:E; [|done]. destruct (0 <? i); [|done].
  specialize (Hcache f u i tb eq_refl). destruct (f u i tb) as [[]]; simpl in *; by subst.
Qed.

Lemma CheckAndResetWindows_table now s tb :
  stored_as tb s ->
  ∃ tb', CheckAndResetWindows repo tz billingCache now s tb = (Ok (after_resets now s), tb') /\
    stored_as tb' (after_resets now s).
Proof.
  intros Hs. unfold CheckAndResetWindows.
  destruct (reset_window_stored tb s (automaticDailyWindowStartAt tz s now)
    (repo_ResetDailyUsage repo (us_ID s) (us_DailyWindowStart s))
    (λ w, set_daily s (Some w) f0) false Hs) as (tb1 & n1 & E1 & H1).
  { intros w. apply (conditional_update_stored tb s _ (λ r, set_daily r (Some w) f0)); try done.
    intros t. apply start_matches_refl. }
  unfold mbind_ at 1. rewrite E1. cbn [fst snd].
  set (s1 := match automaticDailyWindowStartAt tz s now with Some _ => _ | None => s end) in *.
  destruct (reset_window_stored tb1 s1
    (automaticWindowStartAt s1 (us_WeeklyWindowStart s1) week_ns now)
    (repo_ResetWeeklyUsage repo (us_ID s1) (us_WeeklyWindowStart s1))
    (λ w, set_weekly s1 (Some w) f0) n1 H1) as (tb2 & n2 & E2 & H2).
  { intros w. apply (conditional_update_stored tb1 s1 _ (λ r, set_weekly r (Some w) f0)); try done.
    intros t. apply start_matches_refl. }
  unfold mbind_ at 1. rewrite E2. cbn [fst snd].
  set (s2 := match automaticWindowStartAt s1 (us_WeeklyWindowStart s1) week_ns now with
             Some _ => _ | None => s1 end) in *.
  destruct (reset_window_stored tb2 s2
    (automaticWindowStartAt s2 (us_MonthlyWindowStart s2) month_ns now)
    (repo_ResetMonthlyUsage repo (us_ID s2) (us_MonthlyWindowStart s2))
    (λ w, set_monthly s2 (Some w) f0) n2 H2) as (tb3 & n3 & E3 & H3).
  { intros w. apply (conditional_update_stored tb2 s2 _ (λ r, set_monthly r (Some w) f0)); try done.
    intros t. apply start_matches_refl. }
  unfold mbind_ at 1. rewrite E3. cbn [fst snd].
  exists tb3. split; [|done]. unfold mbind_.
  destruct n3; [rewrite invalidate_keeps|]; done.
Qed.

Lemma after_resets_fields now s :
  let s' := after_resets now s in
  let next prev due := match due with Some w => Some w | None => prev end in
  us_StartsAt s' = us_StartsAt s /\ us_ExpiresAt s' = us_ExpiresAt s /\
  us_DailyWindowStart s' = next (us_DailyWindowStart s) (automaticDailyWindowStartAt tz s now) /\
  us_WeeklyWindowStart s' = next (us_WeeklyWindowStart s)
    (automaticWindowStartAt s (us_WeeklyWindowStart s) week_ns now) /\
  us_MonthlyWindowStart s' = next (us_MonthlyWindowStart s)
    (automaticWindowStartAt s (us_MonthlyWindowStart s) month_ns now).
Proof.
  unfold after_resets. destruct (automaticDailyWindowStartAt tz s now) as [d|].
  - change (automaticWindowStartAt (set_daily s (Some d) f0)) with (automaticWindowStartAt s).
    cbn [us_WeeklyWindowStart set_daily].
    destruct (automaticWindowStartAt s (us_WeeklyWindowStart s) week_ns now) as [w|].
    + change (automaticWindowStartAt (set_weekly ?x (Some w) f0)) with (automaticWindowStartAt s).
      cbn [us_MonthlyWindowStart set_weekly set_daily].
      by destruct (automaticWindowStartAt s (us_MonthlyWindowStart s) month_ns now).
    + change (automaticWindowStartAt (set_daily s (Some d) f0)) with (automaticWindowStartAt s).
      cbn [us_MonthlyWindowStart set_daily].
      by destruct (automaticWindowStartAt s (us_MonthlyWindowStart s) month_ns now).
  - destruct (automaticWindowStartAt s (us_WeeklyWindowStart s) week_ns now) as [w|].
    + change (automaticWindowStartAt (set_weekly s (Some w) f0)) with (automaticWindowStartAt s).
      cbn [us_MonthlyWindowStart set_weekly].
      by destruct (automaticWindowStartAt s (us_MonthlyWindowStart s) month_ns now).
    + by destruct (automaticWindowStartAt s (us_MonthlyWindowStart s) month_ns now).
Qed.

Lemma automaticWindowStartAt_ext s s' :
  us_StartsAt s' = us_StartsAt s -> us_ExpiresAt s' = us_ExpiresAt s ->
  automaticWindowStartAt s' = automaticWindowStartAt s.
Proof. unfold automaticWindowStartAt, window_anchor. intros -> ->. done. Qed.

Lemma daily_ext s s' now :
  us_StartsAt s' = us_StartsAt s -> us_ExpiresAt s' = us_ExpiresAt s ->
  us_DailyWindowStart s' = us_DailyWindowStart s ->
  automaticDailyWindowStartAt tz s' now = automaticDailyWindowStartAt tz s now.
Proof. unfold automaticDailyWindowStartAt, HasOneTimeDailyQuota. intros -> -> ->. done. Qed.

Lemma after_resets_settled now s :
  midnight_stable now -> IsWindowActivated s = true ->
  window_ok now s (us_WeeklyWindowStart s) -> window_ok now s (us_MonthlyWindowStart s) ->
  settled tz now (after_resets now s).
Proof.
  intros Hm Ha Hw Hmo.
  destruct (after_resets_fields now s) as (Fs & Fe & Fd & Fw & Fm).
  unfold settled. rewrite (automaticWindowStartAt_ext s) by done. rewrite Fw, Fm.
  split; [|split; [by apply weekly_or_monthly_once|split; [by apply weekly_or_monthly_once|]]].
  - destruct (automaticDailyWindowStartAt tz s now) as [w|] eqn:E1.
    + assert (w = tz_StartOfDay tz now) as ->.
      { unfold automaticDailyWindowStartAt in E1. repeat case_match; by simplify_eq. }
      rewrite <- (daily_once now s Hm ltac:(congruence)). by apply daily_ext.
    + rewrite <- E1. by apply daily_ext.
  - unfold IsWindowActivated in *. rewrite Fd, Fw, Fm.
    clear -Ha. destruct (us_DailyWindowStart s), (us_WeeklyWindowStart s),
      (us_MonthlyWindowStart s), (automaticDailyWindowStartAt tz s now); simpl;
      rewrite ?orb_true_r; try done;
      by repeat case_match.
Qed.

Lemma activated_settled now s :
  midnight_stable now -> IsWindowActivated s = false ->
  settled tz now
    (set_monthly (set_weekly (set_daily s (Some (tz_StartOfDay tz now)) (us_DailyUsageUSD s))
        (Some now) (us_WeeklyUsageUSD s)) (Some now) (us_MonthlyUsageUSD s)).
Proof.
  intros Hm Ha. unfold settled.
  rewrite (automaticWindowStartAt_ext s) by done. cbn [us_WeeklyWindowStart us_MonthlyWindowStart
    set_weekly set_monthly].
  assert (Hnow : ∀ p, 0 < p -> automaticWindowStartAt s (Some now) p now = None).
  { intros p Hp. apply automaticWindowStartAt_None. left.
    pose proof (window_anchor_ge s now). lia. }
  split; [|split; [by apply Hnow|split; [by apply Hnow|done]]].
  unfold automaticDailyWindowStartAt. simpl. case_match; [done|].
  unfold midnight_stable in Hm. unfold after. rewrite Hm, Z.ltb_irrefl. done.
Qed.

Definition preserved_terms (s s' : UserSubscription) : Prop :=
  us_ID s' = us_ID s /\ us_UserID s' = us_UserID s /\ us_Status s' = us_Status s /\
  us_StartsAt s' = us_StartsAt s /\ us_ExpiresAt s' = us_ExpiresAt s /\
  us_DeletedAt s' = us_DeletedAt s /\ dailyLimitUSD s' = dailyLimitUSD s /\
  weeklyLimitUSD s' = weeklyLimitUSD s /\ monthlyLimitUSD s' = monthlyLimitUSD s.

Lemma after_resets_preserved now s : preserved_terms s (after_resets now s).
Proof. unfold preserved_terms, after_resets. repeat case_match; done. Qed.

Lemma GetByID_stored tb s :
  stored_as tb s -> us_DeletedAt s = None ->
  ∃ t, repo_GetByID repo (us_ID s) tb = (Ok (set_UpdatedAt s t), tb).
Proof.
  intros [t Ht] Hd. exists t. simpl. unfold table_GetByID, live_row, is_deleted. rewrite Ht.
  simpl. rewrite Hd. simpl. unfold entity_to_service, is_deleted. simpl. by rewrite Hd.
Qed.

(** Maintenance of a subscription read from the table succeeds and settles
    it: the snapshot it returns has active windows, none of them due at that
    instant, so a second check asks for no maintenance, and its terms are the
    stored ones. *)
Theorem EnsureWindowMaintenance_settles now s tb :
  stored_as tb s -> us_DeletedAt s = None -> midnight_stable now ->
  window_ok now s (us_WeeklyWindowStart s) -> window_ok now s (us_MonthlyWindowStart s) ->
  ∃ s' tb', EnsureWindowMaintenance repo tz billingCache now now (Some s) tb = (Ok s', tb') /\
    settled tz now s' /\ preserved_terms s s'.
Proof.
  intros Hs Hd Hm Hw Hmo. unfold EnsureWindowMaintenance, checkAndActivateWindowAt.
  destruct (IsWindowActivated s) eqn:Ha.
  - destruct (CheckAndResetWindows_table now s tb Hs) as (tb' & E & Hs').
    pose proof (after_resets_preserved now s) as Hp. assert (Hp' := Hp).
    destruct Hp as (Hid & _ & _ & _ & _ & Hdel & _).
    destruct (GetByID_stored tb' (after_resets now s) Hs') as [t Hg]; [by rewrite Hdel|].
    unfold mbind_. cbn [negb mret]. rewrite E. rewrite <- Hid, Hg.
    exists (set_UpdatedAt (after_resets now s) t), tb'. split; [done|]. split; [|done].
    by apply after_resets_settled.
  - set (s' := set_monthly (set_weekly (set_daily s (Some (tz_StartOfDay tz now))
      (us_DailyUsageUSD s)) (Some now) (us_WeeklyUsageUSD s)) (Some now) (us_MonthlyUsageUSD s)).
    destruct (conditional_update_stored tb s
      (λ r, negb (is_Some_b (us_DailyWindowStart r)) && negb (is_Some_b (us_WeeklyWindowStart r))
          && negb (is_Some_b (us_MonthlyWindowStart r)))
      (λ r, set_monthly (set_weekly (set_daily r (Some (tz_StartOfDay tz now)) (us_DailyUsageUSD r))
        (Some now) (us_WeeklyUsageUSD r)) (Some now) (us_MonthlyUsageUSD r)) Hs)
      as (tb' & E & Hs'); [done|done| |].
    { intros t. unfold IsWindowActivated in Ha. simpl.
      apply orb_false_iff in Ha as [Ha ->]. by apply orb_false_iff in Ha as [-> ->]. }
    destruct (GetByID_stored tb' s' Hs') as [t Hg]; [done|].
    unfold mbind_ at 1. cbn [negb].
    change (repo_ActivateWindows repo) with table_ActivateWindows. unfold table_ActivateWindows.
    rewrite E. unfold mbind_ at 1.
    assert (CheckAndResetWindows (table_repo db_add) tz billingCache now s tb' = (Ok s, tb')) as ->.
    { unfold IsWindowActivated in Ha. apply orb_false_iff in Ha as [Ha E3].
      apply orb_false_iff in Ha as [E1 E2].
      unfold CheckAndResetWindows, automaticDailyWindowStartAt.
      destruct (us_DailyWindowStart s); [done|]. unfold mbind_ at 1. simpl.
      destruct (us_WeeklyWindowStart s); [done|]. unfold mbind_ at 1. simpl.
      by destruct (us_MonthlyWindowStart s). }
    change (us_ID s) with (us_ID s').
    exists (set_UpdatedAt s' t), tb'. split; [done|]. split; [|done].
    by apply (activated_settled now s).
Qed.
End TableMaintenance.

(** ** Administrative operations on the table *)

Lemma capped_expiry t : after (if after t MaxExpiresAt then MaxExpiresAt else t) MaxExpiresAt = false.
Proof. destruct (after t MaxExpiresAt) eqn:E; [apply Z.ltb_irrefl|done]. Qed.

Section Admin.
Context (db_add : float64 -> float64 -> float64) (tz : Location).
Context (billingCache : option (Z -> Z -> M Table unit))
  (Hcache : ∀ f u i tb, billingCache = Some f -> (f u i tb).2 = tb).
Local Abbreviation repo := (table_repo db_add).

Lemma update_one_stored tb s f :
  stored_as tb s -> (∀ r t, f (set_UpdatedAt r t) = set_UpdatedAt (f r) t) ->
  us_ID (f s) = us_ID s ->
  ∃ tb', update_one (us_ID s) f tb = (Ok tt, tb') /\ stored_as tb' (f s) /\
    ∀ id, id ≠ us_ID s -> tb_rows tb' !! id = tb_rows tb !! id.
Proof.
  intros [t Ht] Hf Hid. unfold update_one, update_where. rewrite Ht, Hf.
  eexists. split; [done|]. split.
  - exists (tb_now tb). rewrite Hid. simpl. by rewrite lookup_insert_eq.
  - intros id Hne. simpl. by rewrite lookup_insert_ne.
Qed.

Definition window_after (reset : bool) (start : time) (w : option time) (u : float64)
  : option time * float64 := if reset then (Some start, f0) else (w, u).

(** A quota reset empties the selected windows and starts them anew (the
    daily one at midnight, the others now), leaves every other window, term
    and row alone, and returns the stored subscription; with no window
    selected it is refused. *)
Theorem AdminResetQuota_spec now s tb (d w m : bool) :
  stored_as tb s -> us_DeletedAt s = None -> d || w || m = true ->
  ∃ s' tb', AdminResetQuota repo tz billingCache now (us_ID s) d w m tb = (Ok s', tb') /\
    preserved_terms s s' /\ stored_as tb' s' /\
    (us_DailyWindowStart s', us_DailyUsageUSD s') =
      window_after d (tz_StartOfDay tz now) (us_DailyWindowStart s) (us_DailyUsageUSD s) /\
    (us_WeeklyWindowStart s', us_WeeklyUsageUSD s') =
      window_after w now (us_WeeklyWindowStart s) (us_WeeklyUsageUSD s) /\
    (us_MonthlyWindowStart s', us_MonthlyUsageUSD s') =
      window_after m now (us_MonthlyWindowStart s) (us_MonthlyUsageUSD s) /\
    (∀ id, id ≠ us_ID s -> tb_rows tb' !! id = tb_rows tb !! id).
Proof.
  intros Hs Hd Hsel. unfold AdminResetQuota.
  replace (negb d && negb w && negb m) with false by (by destruct d, w, m).
  destruct (GetByID_stored db_add tb s Hs Hd) as [t Hg].
  unfold mbind_ at 1. rewrite Hg.
  set (f := λ r, let r := if d then set_daily r (Some (tz_StartOfDay tz now)) f0 else r in
    let r := if w then set_weekly r (Some now) f0 else r in
    if m then set_monthly r (Some now) f0 else r).
  destruct (update_one_stored tb s f Hs) as (tb' & E & Hs' & Hother);
    [by intros; destruct d, w, m|by destruct d, w, m|].
  unfold mbind_ at 1. change (repo_ResetUsageWindows repo) with table_ResetUsageWindows.
  unfold table_ResetUsageWindows. fold f. cbn [us_ID set_UpdatedAt]. rewrite E.
  unfold mbind_ at 1. rewrite (invalidate_keeps billingCache Hcache).
  destruct (GetByID_stored db_add tb' (f s) Hs') as [t' Hg']; [by destruct d, w, m|].
  replace (us_ID (f s)) with (us_ID s) in Hg' by (by destruct d, w, m). rewrite Hg'.
  exists (set_UpdatedAt (f s) t'), tb'. split; [done|].
  split; [by destruct d, w, m|]. split; [|by destruct d, w, m].
  destruct Hs' as [t2 Hs']. exists t2. by destruct d, w, m.
Qed.

Lemma repo_update_stored tb s f u :
  stored_as tb s -> (∀ r t, f (set_UpdatedAt r t) = set_UpdatedAt (f r) t) ->
  us_ID (f s) = us_ID s -> u = update_one (us_ID s) f ->
  ∃ tb', u tb = (Ok tt, tb') /\ stored_as tb' (f s) /\
    ∀ id, id ≠ us_ID s -> tb_rows tb' !! id = tb_rows tb !! id.
Proof. intros ? ? ? ->. by apply update_one_stored. Qed.

Lemma extended_expiry_max now s days : after (extended_expiry now s days) MaxExpiresAt = false.
Proof. apply capped_expiry. Qed.

(** An adjustment moves the expiry by the clamped number of days, from the
    present for an expired subscription and from the old expiry otherwise,
    never past the year 2099; it reactivates an expired one and touches no
    other row.  One that would leave the subscription expired is refused and
    changes nothing. *)
Theorem ExtendSubscription_spec now s days tb :
  stored_as tb s -> us_DeletedAt s = None ->
  let e := extended_expiry now s (clamp_days days) in
  let '(r, tb') := ExtendSubscription repo billingCache now (us_ID s) days tb in
  if (negb (after (us_ExpiresAt s) now) && (clamp_days days <? 0)) || negb (after e now)
  then (∃ err, r = Err err) /\ tb' = tb
  else ∃ s', r = Ok s' /\ stored_as tb' s' /\
    us_ExpiresAt s' = e /\ after e now = true /\ after e MaxExpiresAt = false /\
    us_Status s' = (if String.eqb (us_Status s) SubscriptionStatusExpired
                    then SubscriptionStatusActive else us_Status s) /\
    (∀ id, id ≠ us_ID s -> tb_rows tb' !! id = tb_rows tb !! id).
Proof.
  intros Hs Hd e. unfold ExtendSubscription, mtry.
  destruct (GetByID_stored db_add tb s Hs Hd) as [t Hg]. rewrite Hg.
  cbn [us_ExpiresAt set_UpdatedAt us_Status us_UserID us_ID].
  change (extended_expiry now (set_UpdatedAt s t)) with (extended_expiry now s). fold e.
  destruct (negb (after (us_ExpiresAt s) now) && (clamp_days days <? 0)); simpl orb; cbv iota;
    [by split; [eexists|]|].
  destruct (after e now) eqn:He; cbn [negb]; [|by split; [eexists|]].
  destruct (repo_update_stored tb s (λ r, set_ExpiresAt r e) (repo_ExtendExpiry repo (us_ID s) e) Hs)
    as (tb1 & E1 & H1 & O1); [done..|].
  unfold mbind_ at 1. rewrite E1. set (s1 := set_ExpiresAt s e) in *.
  assert (∃ s2 tb2, (if String.eqb (us_Status s) SubscriptionStatusExpired
            then repo_UpdateStatus repo (us_ID s) SubscriptionStatusActive else mret tt) tb1
            = (Ok tt, tb2) /\ stored_as tb2 s2 /\ us_ID s2 = us_ID s /\
          us_ExpiresAt s2 = e /\ us_DeletedAt s2 = None /\
          us_Status s2 = (if String.eqb (us_Status s) SubscriptionStatusExpired
                    then SubscriptionStatusActive else us_Status s) /\
          (∀ id, id ≠ us_ID s -> tb_rows tb2 !! id = tb_rows tb !! id))
    as (s2 & tb2 & E2 & H2 & Hid & Hx & Hdel & Hst & O2).
  { destruct (String.eqb (us_Status s) SubscriptionStatusExpired).
    - destruct (repo_update_stored tb1 s1 (λ r, set_Status r SubscriptionStatusActive)
        (repo_UpdateStatus repo (us_ID s1) SubscriptionStatusActive) H1)
        as (tb2 & E2 & H2 & O2); [done..|].
      eexists _, tb2. split; [exact E2|]. split; [exact H2|]. repeat (split; [done|]).
      intros id Hne. rewrite O2; auto.
    - exists s1, tb1. done. }
  unfold mbind_ at 1. rewrite E2. unfold mbind_ at 1.
  assert (maybeInvalidateAssignmentCache billingCache (us_UserID s) (us_ID s) false tb2
          = (Ok tt, tb2)) as ->.
  { pose proof (invalidate_keeps billingCache Hcache (us_UserID s) (us_ID s) tb2) as Hi.
    unfold maybeInvalidateAssignmentCache. by destruct billingCache. }
  destruct (GetByID_stored db_add tb2 s2 H2 Hdel) as [t2 Hg2]. rewrite Hid in Hg2. rewrite Hg2.
  exists (set_UpdatedAt s2 t2). split; [done|]. split; [by destruct H2 as [t3 ?]; exists t3|].
  repeat (split; [done|]). split; [apply extended_expiry_max|done].
Qed.

End Admin.

(** ** Revocation *)

(** Restoring a revoked subscription gives it back with the terms it had,
    marked expired when its time ran out meanwhile; between the two it cannot
    be read by id, and a subscription that is not revoked is not restored. *)
Theorem revoke_restore db_add now s tb :
  let repo := table_repo db_add in
  stored_as tb s -> us_DeletedAt s = None ->
  ∃ tb1 tb2 s', RevokeSubscription repo None (us_ID s) tb = (Ok tt, tb1) /\
    repo_GetByID repo (us_ID s) tb1 = (Err notFoundError, tb1) /\
    RestoreSubscription repo None now (us_ID s) tb1 = (Ok s', tb2) /\
    stored_as tb2 s' /\ preserved_terms (normalizeOneStatus now s) s' /\
    RestoreSubscription repo None now (us_ID s) tb2 = (Err ErrSubscriptionNotRevoked, tb2).
Proof.
  intros repo Hs Hd.
  destruct (GetByID_stored db_add tb s Hs Hd) as [t0 Hg].
  destruct Hs as [t Ht].
  set (tb1 := set_rows tb (<[us_ID s := set_UpdatedAt (set_DeletedAt s (Some (tb_now tb)))
                (tb_now tb)]> (tb_rows tb))).
  assert (HD : repo_Delete repo (us_ID s) tb = (Ok tt, tb1)).
  { simpl. unfold table_Delete, update_where, is_deleted. rewrite Ht. simpl. by rewrite Hd. }
  set (st := us_Status (normalizeOneStatus now s)).
  set (tb2 := set_rows tb1 (<[us_ID s := set_UpdatedAt (set_DeletedAt (set_Status s st) None)
                (tb_now tb)]> (tb_rows tb1))).
  assert (H2 : tb_rows tb2 !! us_ID s =
    Some (set_UpdatedAt (set_DeletedAt (set_Status s st) None) (tb_now tb)))
    by (simpl; by rewrite lookup_insert_eq).
  assert (HR : ∀ status, status = st ->
    repo_Restore repo (us_ID s) status tb1 =
    (Ok (set_UpdatedAt (set_DeletedAt (set_Status s st) None) (tb_now tb)), tb2)).
  { intros status ->. simpl. unfold table_Restore, update_one, update_where, mbind_.
    simpl. rewrite lookup_insert_eq. simpl. unfold table_GetByID, live_row, is_deleted. simpl.
    rewrite lookup_insert_eq. done. }
  exists tb1, tb2, (set_UpdatedAt (set_DeletedAt (set_Status s st) None) (tb_now tb)).
  split_and!.
  - unfold RevokeSubscription, mbind_. change (repo_GetByID repo) with (repo_GetByID (table_repo db_add)).
    rewrite Hg, HD. done.
  - simpl. unfold table_GetByID, live_row, is_deleted. simpl. by rewrite lookup_insert_eq.
  - unfold RestoreSubscription, mbind_. unfold repo_GetByIDIncludeDeleted. simpl.
    unfold table_GetByIDIncludeDeleted. simpl. rewrite lookup_insert_eq. simpl.
    rewrite HR; [done|]. unfold st, normalizeOneStatus. by destruct (_ && _).
  - exists (tb_now tb). exact H2.
  - unfold preserved_terms, st, normalizeOneStatus. simpl. by destruct (_ && _).
  - unfold RestoreSubscription, mbind_. simpl. unfold table_GetByIDIncludeDeleted.
    by rewrite H2.
Qed.

(** ** Issuing *)

Section Issue.
Context (db_add : float64 -> float64 -> float64).
Context (billingCache : option (Z -> Z -> M Table unit))
  (Hcache : ∀ f u i tb, billingCache = Some f -> (f u i tb).2 = tb).
(** Either an outer transaction is open, or the client's begins and commits. *)
Context (in_tx : bool) (txClient : option (@TxClient Table))
  (Htx : ∀ c, in_tx = false -> txClient = Some c ->
     ∀ tb, tx_begin c tb = (Ok tt, tb) /\ tx_commit c tb = (Ok tt, tb)).
Context (planClient : option (Z -> M Table SubscriptionPlan)) (IsNotFound : error -> bool)
  (Hplan : ∀ get p tb, planClient = Some get -> (get p tb).2 = tb).
Local Abbreviation repo := (table_repo db_add).
Local Abbreviation assign :=
  (assignSubscriptionFromPlan repo billingCache in_tx txClient planClient IsNotFound).

(** Identifiers are handed out in increasing order. *)
Definition ids_fresh (tb : Table) : Prop :=
  ∀ id r, tb_rows tb !! id = Some r -> id < tb_next_id tb.

(** The terms a subscription takes from its plan. *)
Definition issued_terms (plan : SubscriptionPlan) (now : time) (sub : UserSubscription) : Prop :=
  us_SubscriptionPlanID sub = Some (plan_ID plan) /\ us_PlanNameSnapshot sub = plan_Name plan /\
  dailyLimitUSD sub = plan_DailyLimitUsd plan /\ weeklyLimitUSD sub = plan_WeeklyLimitUsd plan /\
  monthlyLimitUSD sub = plan_MonthlyLimitUsd plan /\
  us_RateMultiplierSnapshot sub = plan_RateMultiplier plan /\
  us_Status sub = SubscriptionStatusActive /\ IsWindowActivated sub = false /\
  us_DailyUsageUSD sub = f0 /\ us_WeeklyUsageUSD sub = f0 /\ us_MonthlyUsageUSD sub = f0 /\
  after (us_ExpiresAt sub) MaxExpiresAt = false.

Lemma subscriptionFromPlan_terms plan input now sub :
  subscriptionFromPlan (Some plan) input now = Ok sub ->
  us_UserID sub = asg_UserID input /\ us_DeletedAt sub = None /\ issued_terms plan now sub.
Proof.
  unfold subscriptionFromPlan. destruct (_ || _); [done|]. intros [= <-].
  do 2 (split; [done|]). unfold issued_terms. cbn.
  repeat (split; [done|]). apply capped_expiry.
Qed.

Lemma tx_create sub tb :
  withSubscriptionUpdateTx in_tx txClient (repo_Create repo sub) tb = repo_Create repo sub tb.
Proof.
  unfold withSubscriptionUpdateTx. destruct in_tx; [done|]. destruct txClient as [c|]; [|done].
  unfold mtry. destruct (Htx c eq_refl eq_refl tb) as [-> _].
  destruct (repo_Create repo sub tb) as [r tb'] eqn:E. simpl in E.
  unfold table_Create in E. injection E as <- <-.
  match goal with |- context [tx_commit c ?t] =>
    by destruct (Htx c eq_refl eq_refl t) as [_ ->] end.
Qed.

(** One issue, whatever its outcome, keeps every row; a successful one stores a
    new row under a fresh identifier. *)
Lemma assign_step now input tb :
  ids_fresh tb ->
  let '(r, tb') := assign now (Some input) false tb in
  ids_fresh tb' /\ tb_rows tb ⊆ tb_rows tb' /\ tb_next_id tb <= tb_next_id tb' /\
  match r with
  | Ok sub =>
    us_ID sub = tb_next_id tb /\ tb_next_id tb' = tb_next_id tb + 1 /\
    tb_rows tb' !! us_ID sub = Some sub /\ us_UserID sub = asg_UserID input /\
    ∃ get plan, planClient = Some get /\ (get (asg_PlanID input) tb).1 = Ok plan /\
      issued_terms plan now sub
  | Err _ => tb' = tb
  end.
Proof.
  intros Hf. unfold assignSubscriptionFromPlan.
  destruct (_ || _); [done|]. destruct planClient as [get|] eqn:Eg; [|done].
  unfold mtry at 1. pose proof (Hplan get (asg_PlanID input) tb eq_refl) as Hp.
  destruct (get (asg_PlanID input) tb) as [[plan|e] tb0] eqn:Eget; simpl in Hp; subst tb0;
    [|by destruct (IsNotFound e)].
  unfold mbind_ at 1, mlift.
  destruct (subscriptionFromPlan (Some plan) input now) as [sub|] eqn:Es; [|done].
  apply subscriptionFromPlan_terms in Es as (Hu & Hdel & Ht).
  unfold mtry at 1. rewrite tx_create.
  destruct (repo_Create repo sub tb) as [rc tb1] eqn:Ec. simpl in Ec. unfold table_Create in Ec.
  injection Ec as <- <-. set (tb1 := mk_Table _ _ _). unfold mbind_ at 1.
  assert (∀ u i, maybeInvalidateAssignmentCache billingCache u i false tb1 = (Ok tt, tb1)) as ->.
  { intros u i. pose proof (invalidate_keeps billingCache Hcache u i tb1) as Hi.
    unfold maybeInvalidateAssignmentCache. by destruct billingCache. }
  assert (Hnone : tb_rows tb !! tb_next_id tb = None).
  { apply eq_None_not_Some. intros [r Hr]. apply Hf in Hr. lia. }
  change (us_ID (set_identity sub (tb_next_id tb) (tb_now tb) (tb_now tb))) with (tb_next_id tb).
  change (repo_GetByID repo) with table_GetByID.
  unfold table_GetByID, live_row, tb1. cbn [tb_rows]. rewrite lookup_insert_eq.
  unfold is_deleted at 1. cbn [us_DeletedAt is_Some_b]. unfold entity_to_service, is_deleted.
  cbn [us_DeletedAt is_Some_b andb us_ID us_UserID tb_next_id].
  split_and!; [|by apply insert_subseteq|cbn; lia|done|done|by cbn; rewrite lookup_insert_eq|done|].
  - intros id r Hr. cbn in *. apply lookup_insert_Some in Hr as [[<- _]|[_ Hr]]; [lia|].
    apply Hf in Hr. lia.
  - exists get, plan. split; [done|]. rewrite Eget. split; [done|].
    unfold issued_terms in *. cbn in *. destruct Ht as (? & ? & ? & ? & ? & ? & Hst & ?).
    rewrite Hst. done.
Qed.

Definition bulk_outcome (tb tb' : Table) (n : nat) (res : BulkAssignResult) : Prop :=
  bulk_SuccessCount res + bulk_FailedCount res = Z.of_nat n /\
  bulk_CreatedCount res = bulk_SuccessCount res /\ bulk_ReusedCount res = 0 /\
  bulk_SuccessCount res = Z.of_nat (length (bulk_Subscriptions res)) /\
  bulk_FailedCount res = Z.of_nat (length (bulk_Errors res)) /\
  NoDup (map us_ID (bulk_Subscriptions res)) /\
  (∀ sub, sub ∈ bulk_Subscriptions res ->
     tb_rows tb !! us_ID sub = None /\ tb_rows tb' !! us_ID sub = Some sub) /\
  tb_rows tb ⊆ tb_rows tb'.

Lemma bulk_loop_outcome planID by_ notes users : ∀ nows tb0 tb n acc,
  ids_fresh tb -> ids_fresh tb0 -> tb_next_id tb0 <= tb_next_id tb ->
  bulk_outcome tb0 tb n acc ->
  ∃ res tb', bulk_assign_loop repo billingCache in_tx txClient planClient IsNotFound
      nows planID by_ notes users acc tb = (Ok res, tb') /\
    bulk_outcome tb0 tb' (n + length users) res.
Proof.
  induction users as [|u users IH]; intros nows tb0 tb n acc Hf Hf0 Hle Ho;
    cbn [bulk_assign_loop length].
  { rewrite Nat.add_0_r. by exists acc, tb. }
  unfold mtry at 1.
  pose proof (assign_step (nows 0%nat)
    {| asg_UserID := u; asg_PlanID := planID; asg_AssignedBy := by_; asg_Notes := notes |} tb Hf)
    as Hst.
  destruct (assign (nows 0%nat) (Some _) false tb) as [r tb1].
  destruct Hst as (Hf1 & Hsub & Hle1 & Hr).
  replace (n + S (length users))%nat with (S n + length users)%nat by lia.
  destruct Ho as (O1 & O2 & O3 & O4 & O5 & O6 & O7 & O8).
  apply IH; [done|done|lia|].
  destruct r as [sub|e].
  - destruct Hr as (Hid & _ & Hrow & _). unfold bulk_outcome, bulk_created.
    cbn [bulk_SuccessCount bulk_FailedCount bulk_CreatedCount bulk_ReusedCount
         bulk_Subscriptions bulk_Errors].
    rewrite map_app, !length_app. simpl. split_and!; try lia.
    + apply NoDup_app. split; [done|]. split; [|apply NoDup_singleton].
      intros i Hi Hi'. apply list_elem_of_singleton in Hi' as ->.
      apply list_elem_of_fmap in Hi as (s' & Hi & Hs'). apply O7 in Hs' as [_ Hs'].
      apply Hf in Hs'. lia.
    + intros s' Hs'. apply elem_of_app in Hs' as [Hs'|Hs'].
      * destruct (O7 s' Hs'). split; [done|]. by eapply lookup_weaken.
      * apply list_elem_of_singleton in Hs' as ->. split; [|done].
        apply eq_None_not_Some. intros [x Hx]. apply Hf0 in Hx. lia.
    + by etrans.
  - subst tb1. unfold bulk_outcome, bulk_failed.
    cbn [bulk_SuccessCount bulk_FailedCount bulk_CreatedCount bulk_ReusedCount
         bulk_Subscriptions bulk_Errors].
    rewrite !length_app. simpl. split_and!; try lia; done.
Qed.

(** A bulk issue handles every entry of the list, repeated ones included:
    successes and failures add up to its length, each success is a new row
    under its own identifier holding the returned subscription, and no
    existing subscription is extended or changed. *)
Theorem BulkAssign_independent nows planID by_ notes users tb :
  ids_fresh tb -> 0 < planID ->
  ∃ res tb', BulkAssignSubscriptionFromPlan repo billingCache in_tx txClient planClient IsNotFound
      nows planID by_ notes users tb = (Ok res, tb') /\
    bulk_outcome tb tb' (length users) res.
Proof.
  intros Hf Hp. unfold BulkAssignSubscriptionFromPlan.
  destruct (Z.leb_spec planID 0); [lia|].
  apply (bulk_loop_outcome planID by_ notes users nows tb tb 0); [done..|].
  unfold bulk_outcome. simpl. split_and!; try done; [constructor|].
  intros sub Hs. by apply elem_of_nil in Hs.
Qed.

End Issue.

(** ** Display *)

(** Progress is bounded: the remaining amount is never below zero, the
    percentage never above one hundred, the countdown never negative. *)
Theorem window_progress_bounded now limit used start resets :
  let p := window_progress now limit used start resets in
  not_neg (wp_RemainingUSD p) /\ fgtb (wp_Percentage p) (f64_of_Z 100) = false /\
  0 <= wp_ResetsInSeconds p.
Proof.
  unfold window_progress. cbn [wp_RemainingUSD wp_Percentage wp_ResetsInSeconds].
  split_and!.
  - case_match; [done|by unfold not_neg].
  - case_match; [apply fltb_irrefl|done].
  - case_match; bool_to_prop; lia.
Qed.

(** The plan filter is the set of the positive identifiers given, in
    increasing order and without repetition. *)
Theorem normalizeSubscriptionPlanIDs_spec ids :
  StronglySorted Z.lt (normalizeSubscriptionPlanIDs ids) /\
  ∀ p, p ∈ normalizeSubscriptionPlanIDs ids <-> p ∈ ids /\ 0 < p.
Proof.
  split; [apply positive_ids_sorted|intros p; apply elem_of_positive_ids].
Qed.

(** ** Instances

    A thirty-day subscription with a weekly limit of 10 USD and 12 USD used,
    looked at eight days after its start, in a zone at UTC+8. *)

Definition ex_zone : Location := fixed_zone 28800.
Definition ex_start : time := mk_time (1700000000 * second) ex_zone.
Definition ex_now : time := time_add ex_start (8 * day_ns).
Definition ex_sub : UserSubscription := {|
  us_ID := 7; us_UserID := 3; us_SubscriptionPlanID := Some 2; us_PlanNameSnapshot := "pro";
  us_DailyLimitUSDSnapshot := None; us_WeeklyLimitUSDSnapshot := Some (f64_of_Z 10);
  us_MonthlyLimitUSDSnapshot := None; us_RateMultiplierSnapshot := f1;
  us_StartsAt := ex_start; us_ExpiresAt := time_add ex_start (30 * day_ns);
  us_Status := SubscriptionStatusActive;
  us_DailyWindowStart := Some (tz_StartOfDay ex_zone ex_start);
  us_WeeklyWindowStart := Some ex_start; us_MonthlyWindowStart := Some ex_start;
  us_DailyUsageUSD := f64_of_Z 12; us_WeeklyUsageUSD := f64_of_Z 12;
  us_MonthlyUsageUSD := f64_of_Z 12; us_AssignedBy := None; us_AssignedAt := ex_start;
  us_Notes := ""; us_CreatedAt := ex_start; us_UpdatedAt := ex_start; us_DeletedAt := None |}.
Definition ex_table : Table := mk_Table {[ 7 := ex_sub ]} ex_now 8.
Definition ex_plan : SubscriptionPlan := {|
  plan_ID := 2; plan_Name := "pro"; plan_ValidityDays := 1; plan_ValidityUnit := "month";
  plan_DailyLimitUsd := None; plan_WeeklyLimitUsd := Some (f64_of_Z 10);
  plan_MonthlyLimitUsd := None; plan_RateMultiplier := f1 |}.

Lemma ex_stored : stored_as ex_table ex_sub.
Proof. exists ex_start. vm_compute. reflexivity. Qed.

Lemma ex_window_ok w : w = Some ex_start -> window_ok ex_now ex_sub w.
Proof.
  intros -> p [= <-]. unfold near, in_int64. repeat split; vm_compute; congruence.
Qed.

Lemma Validate_admits_CheckUsageLimits_witness :
  CheckUsageLimits (lc_sub (ValidateAndCheckLimits ex_zone ex_now ex_sub)) f0 = Ok tt.
Proof. apply Validate_admits_CheckUsageLimits; vm_compute; reflexivity. Defined.

Lemma no_maintenance_no_write_witness :
  let s := set_weekly ex_sub (Some ex_start) f0 in
  EnsureWindowMaintenance (table_repo fadd) ex_zone None ex_start ex_start (Some s) ex_table =
    repo_GetByID (table_repo fadd) 7 ex_table /\
  doWindowMaintenance (table_repo fadd) ex_zone None ex_start ex_start s ex_table
    = (Ok tt, ex_table).
Proof. apply no_maintenance_no_write; vm_compute; reflexivity. Defined.

Lemma EnsureWindowMaintenance_settles_witness :
  ∃ s' tb', EnsureWindowMaintenance (table_repo fadd) ex_zone None ex_now ex_now (Some ex_sub)
      ex_table = (Ok s', tb') /\ settled ex_zone ex_now s' /\ preserved_terms ex_sub s'.
Proof.
  apply EnsureWindowMaintenance_settles;
    [done|apply ex_stored|done|vm_compute; reflexivity|by apply ex_window_ok..].
Defined.

Lemma AdminResetQuota_spec_witness :
  ∃ s' tb', AdminResetQuota (table_repo fadd) ex_zone None ex_now 7 false true false ex_table
    = (Ok s', tb') /\ us_WeeklyUsageUSD s' = f0 /\ us_MonthlyUsageUSD s' = f64_of_Z 12.
Proof.
  destruct (AdminResetQuota_spec fadd ex_zone None ltac:(done) ex_now ex_sub ex_table
    false true false ex_stored eq_refl eq_refl)
    as (s' & tb' & E & _ & _ & _ & Hw & Hm & _).
  exists s', tb'. split; [exact E|]. split; [exact (f_equal snd Hw)|exact (f_equal snd Hm)].
Defined.

Lemma ExtendSubscription_spec_witness :
  ∃ s', (ExtendSubscription (table_repo fadd) None ex_now 7 10 ex_table).1 = Ok s' /\
    t_ns (us_ExpiresAt s') = t_ns ex_start + 40 * day_ns.
Proof.
  pose proof (ExtendSubscription_spec fadd None ltac:(done) ex_now ex_sub 10 ex_table
    ex_stored eq_refl) as H.
  cbv zeta in H. change (us_ID ex_sub) with 7 in H.
  destruct (ExtendSubscription _ None ex_now 7 10 ex_table) as [r tb'].
  replace (_ || _) with false in H by (vm_compute; reflexivity).
  destruct H as (s' & Hr & _ & He & _). exists s'. split; [exact Hr|].
  rewrite He. vm_compute. reflexivity.
Defined.

Lemma revoke_restore_witness :
  ∃ tb1 tb2 s', RevokeSubscription (table_repo fadd) None 7 ex_table = (Ok tt, tb1) /\
    RestoreSubscription (table_repo fadd) None ex_now 7 tb1 = (Ok s', tb2) /\
    us_Status s' = SubscriptionStatusActive.
Proof.
  destruct (revoke_restore fadd ex_now ex_sub ex_table ex_stored eq_refl)
    as (tb1 & tb2 & s' & H1 & _ & H2 & _ & H3 & _).
  exists tb1, tb2, s'. split; [exact H1|]. split; [exact H2|].
  destruct H3 as (_ & _ & H3 & _). rewrite H3. vm_compute. reflexivity.
Defined.

Lemma BulkAssign_independent_witness :
  ∃ res tb', BulkAssignSubscriptionFromPlan (table_repo fadd) None true None
      (Some (λ p, mret ex_plan)) (λ _, false) (λ _, ex_now) 2 1 "" [3; 0; 3] ex_table
      = (Ok res, tb') /\ bulk_outcome ex_table tb' 3 res.
Proof.
  apply (BulkAssign_independent fadd None ltac:(done) true None ltac:(done)
    (Some (λ p, mret ex_plan)) (λ _, false) ltac:(by intros get p tb [= <-])
    (λ _, ex_now) 2 1 "" [3; 0; 3] ex_table); [|lia].
  intros id r Hr. cbn [tb_rows ex_table] in Hr.
  apply lookup_singleton_Some in Hr as [<- _]. vm_compute. reflexivity.
Defined.

Lemma ex_near t u : Z.abs (t_ns t - t_ns u) < 2 ^ 62 -> near t u.
Proof. unfold near, in_int64, min_int64, max_int64. lia. Qed.

Lemma automaticWindowStartAt_latest_witness :
  ∃ w, automaticWindowStartAt ex_sub (Some ex_start) (7 * day_ns) ex_now = Some w /\
    t_ns w < t_ns (us_ExpiresAt ex_sub).
Proof.
  destruct (automaticWindowStartAt ex_sub (Some ex_start) (7 * day_ns) ex_now) as [w|] eqn:E;
    [|vm_compute in E; discriminate].
  exists w. split; [reflexivity|].
  destruct (automaticWindowStartAt_latest ex_sub ex_start (7 * day_ns) ex_now w) as (_ & _ & H & _);
    [reflexivity|apply ex_near; vm_compute; reflexivity|apply ex_near; vm_compute; reflexivity|
     exact E|exact H].
Defined.

Lemma automaticWindowStartAt_once_witness :
  ∃ w, automaticWindowStartAt ex_sub (Some ex_start) (7 * day_ns) ex_now = Some w /\
    automaticWindowStartAt ex_sub (Some w) (7 * day_ns) ex_now = None.
Proof.
  destruct (automaticWindowStartAt ex_sub (Some ex_start) (7 * day_ns) ex_now) as [w|] eqn:E;
    [|vm_compute in E; discriminate].
  exists w. split; [reflexivity|].
  apply (automaticWindowStartAt_once ex_sub ex_start (7 * day_ns) ex_now w);
    [reflexivity|apply ex_near; vm_compute; reflexivity|apply ex_near; vm_compute; reflexivity|
     vm_compute; congruence|exact E].
Defined.

Lemma daysRemainingAt_ceil_witness :
  0 < daysRemainingAt ex_sub ex_now.
Proof.
  apply (daysRemainingAt_ceil ex_sub ex_now); [|vm_compute; reflexivity].
  unfold in_int64. split; vm_compute; congruence.
Defined.

(** Two requests that saw the window of [ex_start] expired, and their costs. *)
Definition ex_ops : list usage_op :=
  [OpReset (Some ex_start) ex_now; OpIncrement f1; OpReset (Some ex_start) ex_now; OpIncrement f1].

Lemma concurrent_resets_keep_usage_witness :
  ∃ r', tb_rows (run_weekly_ops fadd 7 ex_ops ex_table) !! 7 = Some r' /\
    us_WeeklyUsageUSD r' = f64_of_Z 2.
Proof.
  destruct (concurrent_resets_keep_usage fadd 7 ex_start ex_ops ex_table ex_sub)
    as (r' & H1 & H2); [reflexivity|reflexivity|reflexivity| |].
  - repeat (apply Forall_cons; split); try apply Forall_nil_2; vm_compute; try split; reflexivity.
  - exists r'. split; [exact H1|]. rewrite H2. vm_compute. reflexivity.
Defined.
