(* ===== verification/APIKeys.v ===== *)
(** * API keys

    [service/api_key.go], [service/api_key_asset_permissions.go], the creation,
    update, quota and listing operations of [service/api_key_service.go], and
    the writes of [repository/api_key_repo.go] to the [api_keys] table.  The
    clock readings are arguments.  The compiled IP rules, the last-use data and
    the eager-loaded platforms of the record are left out; the syntax of an IP
    pattern (package [ip]) and the effects of the caches are variables. *)

From Stdlib Require Import Ascii.
From S2P Require Import Prelude GoErrors GoTime GoStrings Float64.

(** ** Data *)

Definition StatusActive : string := "active".
Definition StatusAPIKeyActive : string := "active".
Definition StatusAPIKeyDisabled : string := "disabled".
Definition StatusAPIKeyQuotaExhausted : string := "quota_exhausted".
Definition StatusAPIKeyExpired : string := "expired".

Definition RateLimitWindow5h : Z := 5 * hour.
Definition RateLimitWindow1d : Z := 24 * hour.
Definition RateLimitWindow7d : Z := 7 * 24 * hour.

(** The columns of the owner the modelled code reads. *)
Record User := { user_ID : Z; user_Balance : float64 }.

Record APIKey := {
  key_ID : Z;
  key_UserID : Z;
  key_Key : string;
  key_Name : string;
  key_Status : string;
  key_IPWhitelist : list string;
  key_IPBlacklist : list string;
  key_User : option User;
  key_AllowedPlatformIDs : list Z;
  key_AllowedSubscriptionPlanIDs : list Z;
  key_AllowAllSubscriptions : bool;
  key_AllowBalance : bool;
  key_CurrentConcurrency : Z;
  key_Quota : float64;
  key_QuotaUsed : float64;
  key_ExpiresAt : option time;
  key_RateLimit5h : float64;
  key_RateLimit1d : float64;
  key_RateLimit7d : float64;
  key_Usage5h : float64;
  key_Usage1d : float64;
  key_Usage7d : float64;
  key_Window5hStart : option time;
  key_Window1dStart : option time;
  key_Window7dStart : option time
}.

Definition ErrAPIKeyPlatformRequired : error :=
  BadRequest "API_KEY_PLATFORM_REQUIRED" "api key must authorize at least one platform".
Definition ErrAPIKeyBillingSourceRequired : error :=
  BadRequest "API_KEY_BILLING_SOURCE_REQUIRED" "api key must authorize a subscription plan or balance".
Definition ErrAPIKeyNotFound : error := NotFound "API_KEY_NOT_FOUND" "api key not found".
Definition ErrAPIKeyExists : error := Conflict "API_KEY_EXISTS" "api key already exists".
Definition ErrAPIKeyTooShort : error :=
  BadRequest "API_KEY_TOO_SHORT" "api key must be at least 16 characters".
Definition ErrAPIKeyInvalidChars : error :=
  BadRequest "API_KEY_INVALID_CHARS"
    "api key can only contain letters, numbers, underscores, and hyphens".
Definition ErrInvalidIPPattern : error :=
  BadRequest "INVALID_IP_PATTERN" "invalid IP or CIDR pattern".
Definition ErrAPIKeyExpired : error := Forbidden "API_KEY_EXPIRED" "api key expired".
Definition ErrAPIKeyQuotaExhausted : error :=
  TooManyRequests "API_KEY_QUOTA_EXHAUSTED" "api key quota exhausted".
Definition ErrInsufficientPerms : error :=
  Forbidden "INSUFFICIENT_PERMISSIONS" "insufficient permissions".

(** ** [api_key.go] *)

Definition IsWindowExpired (now : time) (windowStart : option time) (duration : Z) : bool :=
  match windowStart with
  | None => true
  | Some w => duration <=? time_sub now w
  end.

Definition key_IsActive (k : APIKey) : bool := String.eqb (key_Status k) StatusActive.
Definition HasRateLimits (k : APIKey) : bool :=
  fgtb (key_RateLimit5h k) f0 || fgtb (key_RateLimit1d k) f0 || fgtb (key_RateLimit7d k) f0.
Definition key_IsExpired (now : time) (k : APIKey) : bool :=
  match key_ExpiresAt k with None => false | Some e => after now e end.
Definition IsQuotaExhausted (k : APIKey) : bool :=
  if fleb (key_Quota k) f0 then false else fgeb (key_QuotaUsed k) (key_Quota k).
Definition GetQuotaRemaining (k : APIKey) : float64 :=
  if fleb (key_Quota k) f0 then f64_of_Z (-1) else
  let remaining := fsub (key_Quota k) (key_QuotaUsed k) in
  if fltb remaining f0 then f0 else remaining.

(** [Duration.Hours()] *)
Definition duration_hours (d : Z) : float64 :=
  fadd (f64_of_Z (Z.quot d hour)) (fdiv (f64_of_Z (Z.rem d hour)) (f64_lit 36 11)).
Definition GetDaysUntilExpiry (now : time) (k : APIKey) : Z :=
  match key_ExpiresAt k with
  | None => -1
  | Some e =>
    let duration := time_sub e now in
    if duration <? 0 then 0
    else f64_to_int64 (fdiv (duration_hours duration) (f64_of_Z 24))
  end.

Definition effective_usage (now : time) (start : option time) (window : Z) (usage : float64)
  : float64 := if IsWindowExpired now start window then f0 else usage.
Definition EffectiveUsage5h (now : time) (k : APIKey) : float64 :=
  effective_usage now (key_Window5hStart k) RateLimitWindow5h (key_Usage5h k).
Definition EffectiveUsage1d (now : time) (k : APIKey) : float64 :=
  effective_usage now (key_Window1dStart k) RateLimitWindow1d (key_Usage1d k).
Definition EffectiveUsage7d (now : time) (k : APIKey) : float64 :=
  effective_usage now (key_Window7dStart k) RateLimitWindow7d (key_Usage7d k).

(** [CheckAPIKeyQuotaAndExpiry] *)
Definition CheckAPIKeyQuotaAndExpiry (now : time) (k : APIKey) : option error :=
  if key_IsExpired now k then Some ErrAPIKeyExpired
  else if IsQuotaExhausted k then Some ErrAPIKeyQuotaExhausted else None.

(** ** Asset permissions *)

Record APIKeyAssetPermissions := mk_perms {
  perm_PlatformIDs : list Z;
  perm_SubscriptionPlanIDs : list Z;
  perm_AllowAllSubscriptions : bool;
  perm_AllowBalance : bool
}.

Definition normalizePositiveIDs (ids : list Z) : list Z :=
  stable_sort int_less (elements (list_to_set (filterb (λ p, 0 <? p) ids) : gset Z)).

Definition NormalizeAPIKeyAssetPermissions (p : APIKeyAssetPermissions) : APIKeyAssetPermissions :=
  mk_perms (normalizePositiveIDs (perm_PlatformIDs p))
    (normalizePositiveIDs (perm_SubscriptionPlanIDs p))
    (perm_AllowAllSubscriptions p) (perm_AllowBalance p).

Definition ValidateAPIKeyAssetPermissions (p : APIKeyAssetPermissions) : option error :=
  let n := NormalizeAPIKeyAssetPermissions p in
  if is_nil (perm_PlatformIDs n) then Some ErrAPIKeyPlatformRequired
  else if negb (perm_AllowAllSubscriptions n) && is_nil (perm_SubscriptionPlanIDs n)
          && negb (perm_AllowBalance n)
  then Some ErrAPIKeyBillingSourceRequired else None.

(** A slice field of a request: [None] when the field is nil. *)
Record CreateAPIKeyRequest := {
  cr_Name : string;
  cr_PlatformIDs : option (list Z);
  cr_SubscriptionPlanIDs : option (list Z);
  cr_AllowAllSubscriptions : option bool;
  cr_AllowBalance : option bool;
  cr_CustomKey : option string;
  cr_IPWhitelist : list string;
  cr_IPBlacklist : list string;
  cr_Quota : float64;
  cr_ExpiresInDays : option Z;
  cr_RateLimit5h : float64;
  cr_RateLimit1d : float64;
  cr_RateLimit7d : float64
}.

Record UpdateAPIKeyRequest := {
  ur_Name : option string;
  ur_PlatformIDs : option (list Z);
  ur_SubscriptionPlanIDs : option (list Z);
  ur_AllowAllSubscriptions : option bool;
  ur_AllowBalance : option bool;
  ur_Status : option string;
  ur_IPWhitelist : option (list string);
  ur_IPBlacklist : option (list string);
  ur_Quota : option float64;
  ur_ExpiresAt : option time;
  ur_ClearExpiration : bool;
  ur_ResetQuota : option bool;
  ur_RateLimit5h : option float64;
  ur_RateLimit1d : option float64;
  ur_RateLimit7d : option float64;
  ur_ResetRateLimitUsage : option bool
}.

Definition is_set {A} (o : option A) : bool := match o with Some _ => true | None => false end.
Definition slice {A} (o : option (list A)) : list A := default [] o.

Definition create_permissions (req : CreateAPIKeyRequest) : APIKeyAssetPermissions :=
  let allowBalance := default true (cr_AllowBalance req) in
  let allowAllSubscriptions :=
    match cr_AllowAllSubscriptions req with
    | Some b => b
    | None => if negb (is_nil (slice (cr_SubscriptionPlanIDs req))) then false else true
    end in
  NormalizeAPIKeyAssetPermissions
    (mk_perms (slice (cr_PlatformIDs req)) (slice (cr_SubscriptionPlanIDs req))
       allowAllSubscriptions allowBalance).

Definition newAPIKeyFromCreateRequest (req : CreateAPIKeyRequest) : APIKey :=
  let permissions := create_permissions req in {|
  key_ID := 0; key_UserID := 0; key_Key := ""; key_Name := cr_Name req; key_Status := "";
  key_IPWhitelist := cr_IPWhitelist req; key_IPBlacklist := cr_IPBlacklist req;
  key_User := None;
  key_AllowedPlatformIDs := perm_PlatformIDs permissions;
  key_AllowedSubscriptionPlanIDs := perm_SubscriptionPlanIDs permissions;
  key_AllowAllSubscriptions := perm_AllowAllSubscriptions permissions;
  key_AllowBalance := perm_AllowBalance permissions;
  key_CurrentConcurrency := 0; key_Quota := cr_Quota req; key_QuotaUsed := f0;
  key_ExpiresAt := None; key_RateLimit5h := cr_RateLimit5h req;
  key_RateLimit1d := cr_RateLimit1d req; key_RateLimit7d := cr_RateLimit7d req;
  key_Usage5h := f0; key_Usage1d := f0; key_Usage7d := f0;
  key_Window5hStart := None; key_Window1dStart := None; key_Window7dStart := None |}.

Definition createAPIKeyAssetPermissionsProvided (req : CreateAPIKeyRequest) : bool :=
  is_set (cr_PlatformIDs req) || is_set (cr_SubscriptionPlanIDs req)
  || is_set (cr_AllowAllSubscriptions req) || is_set (cr_AllowBalance req).
Definition updateAPIKeyAssetPermissionsProvided (req : UpdateAPIKeyRequest) : bool :=
  is_set (ur_PlatformIDs req) || is_set (ur_SubscriptionPlanIDs req)
  || is_set (ur_AllowAllSubscriptions req) || is_set (ur_AllowBalance req).

Definition key_permissions (k : APIKey) : APIKeyAssetPermissions :=
  mk_perms (key_AllowedPlatformIDs k) (key_AllowedSubscriptionPlanIDs k)
    (key_AllowAllSubscriptions k) (key_AllowBalance k).

Definition updatedAPIKeyAssetPermissions (key : option APIKey) (req : UpdateAPIKeyRequest)
  : APIKeyAssetPermissions :=
  let p := match key with Some k => key_permissions k | None => mk_perms [] [] false false end in
  let platforms := default (perm_PlatformIDs p) (ur_PlatformIDs req) in
  let plans := default (perm_SubscriptionPlanIDs p) (ur_SubscriptionPlanIDs req) in
  let all := if is_set (ur_SubscriptionPlanIDs req) && negb (is_set (ur_AllowAllSubscriptions req))
             then false else perm_AllowAllSubscriptions p in
  let all := default all (ur_AllowAllSubscriptions req) in
  let balance := default (perm_AllowBalance p) (ur_AllowBalance req) in
  NormalizeAPIKeyAssetPermissions (mk_perms platforms plans all balance).

(** ** Keys *)

Definition key_char_ok (c : ascii) : bool :=
  let n := byte_val c in
  ((97 <=? n) && (n <=? 122)) || ((65 <=? n) && (n <=? 90)) || ((48 <=? n) && (n <=? 57))
  || (n =? 95) || (n =? 45).

(** The loop over the runes: a byte above 127 is part of a rune no case allows. *)
Definition ValidateCustomKey (key : string) : option error :=
  if str_len key <? 16 then Some ErrAPIKeyTooShort
  else if forallb key_char_ok (to_bytes key) then None else Some ErrAPIKeyInvalidChars.

(** [html.EscapeString] *)
Definition escape_byte (c : ascii) : bytes :=
  let n := byte_val c in
  if n =? 38 then to_bytes "&amp;" else if n =? 39 then to_bytes "&#39;"
  else if n =? 60 then to_bytes "&lt;" else if n =? 62 then to_bytes "&gt;"
  else if n =? 34 then to_bytes "&#34;" else [c].
Definition EscapeString (s : string) : string := of_bytes (concat (map escape_byte (to_bytes s))).

(** ** Listing by concurrency *)

Definition concurrency_less (desc : bool) (l r : APIKey) : bool :=
  if key_CurrentConcurrency l =? key_CurrentConcurrency r then
    if desc then key_ID r <? key_ID l else key_ID l <? key_ID r
  else if desc then key_CurrentConcurrency r <? key_CurrentConcurrency l
  else key_CurrentConcurrency l <? key_CurrentConcurrency r.
Definition sortAPIKeysByCurrentConcurrency (keys : list APIKey) (sortOrder : string)
  : list APIKey := stable_sort (concurrency_less (negb (String.eqb sortOrder "asc"))) keys.

Record PaginationParams := mk_page { page_Page : Z; page_PageSize : Z }.
Record PaginationResult := mk_page_result {
  pr_Total : Z; pr_Page : Z; pr_PageSize : Z; pr_Pages : Z }.

Definition page_Limit (p : PaginationParams) : Z :=
  if page_PageSize p <? 1 then 20 else if 1000 <? page_PageSize p then 1000 else page_PageSize p.
Definition page_Offset (p : PaginationParams) : Z :=
  let page := if page_Page p <? 1 then 1 else page_Page p in
  mul64 (sub64 page 1) (page_Limit p).

(** The slice expression [keys[offset:end]]: out of range it panics. *)
Definition go_slice {A} (l : list A) (lo hi : Z) : option (list A) :=
  if (0 <=? lo) && (lo <=? hi) && (hi <=? Z.of_nat (length l))
  then Some (take (Z.to_nat (hi - lo)) (drop (Z.to_nat lo) l)) else None.

Definition paginateAPIKeys {A} (keys : list A) (p : PaginationParams) : option (list A) :=
  if is_nil keys then Some [] else
  let limit := page_Limit p in
  let page := if page_Page p <? 1 then 1 else page_Page p in
  let offset := mul64 (sub64 page 1) limit in
  if Z.of_nat (length keys) <=? offset then Some [] else
  let end_ := add64 offset limit in
  let end_ := if Z.of_nat (length keys) <? end_ then Z.of_nat (length keys) else end_ in
  go_slice keys offset end_.

Definition apiKeyPaginationResult (total : Z) (p : PaginationParams) : PaginationResult :=
  let limit := page_Limit p in
  let pages := Z.quot total limit in
  let pages := if 0 <? Z.rem total limit then pages + 1 else pages in
  mk_page_result total (page_Page p) limit pages.

(** ** Updating a key *)

Record APIKeyUpdateFields := mk_fields {
  uf_Name : bool; uf_Status : bool; uf_Quota : bool; uf_ExpiresAt : bool; uf_QuotaUsed : bool;
  uf_RateLimits : bool; uf_RateLimitUsage : bool; uf_IPRules : bool
}.
Definition fields_IsEmpty (f : APIKeyUpdateFields) : bool :=
  negb (uf_Name f || uf_Status f || uf_Quota f || uf_ExpiresAt f || uf_QuotaUsed f
        || uf_RateLimits f || uf_RateLimitUsage f || uf_IPRules f).

(** A copy of a key with new values for the columns an edit can touch. *)
Definition edit_key (k : APIKey) (name status : string) (white black : list string)
  (perms : APIKeyAssetPermissions) (quota used : float64) (expires : option time)
  (l5 l1 l7 u5 u1 u7 : float64) (w5 w1 w7 : option time) : APIKey := {|
  key_ID := key_ID k; key_UserID := key_UserID k; key_Key := key_Key k; key_Name := name;
  key_Status := status; key_IPWhitelist := white; key_IPBlacklist := black;
  key_User := key_User k; key_AllowedPlatformIDs := perm_PlatformIDs perms;
  key_AllowedSubscriptionPlanIDs := perm_SubscriptionPlanIDs perms;
  key_AllowAllSubscriptions := perm_AllowAllSubscriptions perms;
  key_AllowBalance := perm_AllowBalance perms;
  key_CurrentConcurrency := key_CurrentConcurrency k; key_Quota := quota; key_QuotaUsed := used;
  key_ExpiresAt := expires; key_RateLimit5h := l5; key_RateLimit1d := l1; key_RateLimit7d := l7;
  key_Usage5h := u5; key_Usage1d := u1; key_Usage7d := u7;
  key_Window5hStart := w5; key_Window1dStart := w1; key_Window7dStart := w7 |}.

Definition is_true (o : option bool) : bool := match o with Some b => b | None => false end.

(** The status after the edit: the requested one, then the reactivations. *)
Definition updated_status (now : time) (k : APIKey) (req : UpdateAPIKeyRequest) : string :=
  let st := default (key_Status k) (ur_Status req) in
  let st := match ur_Quota req with
    | Some q => if String.eqb st StatusAPIKeyQuotaExhausted
                   && (fleb q f0 || fgtb q (key_QuotaUsed k)) then StatusActive else st
    | None => st end in
  let st := if is_true (ur_ResetQuota req) && String.eqb st StatusAPIKeyQuotaExhausted
            then StatusActive else st in
  if ur_ClearExpiration req
  then if String.eqb st StatusAPIKeyExpired then StatusActive else st
  else match ur_ExpiresAt req with
       | Some e => if String.eqb st StatusAPIKeyExpired && before now e then StatusActive else st
       | None => st end.

(** The edited snapshot and the columns registered for writing. *)
Definition apply_update (now : time) (k : APIKey) (perms : APIKeyAssetPermissions)
  (req : UpdateAPIKeyRequest) : APIKey * APIKeyUpdateFields :=
  let status := updated_status now k req in
  let reset := is_true (ur_ResetRateLimitUsage req) in
  (edit_key k
     (match ur_Name req with Some n => EscapeString n | None => key_Name k end)
     status
     (default (key_IPWhitelist k) (ur_IPWhitelist req))
     (default (key_IPBlacklist k) (ur_IPBlacklist req))
     perms
     (default (key_Quota k) (ur_Quota req))
     (if is_true (ur_ResetQuota req) then f0 else key_QuotaUsed k)
     (if ur_ClearExpiration req then None
      else match ur_ExpiresAt req with Some e => Some e | None => key_ExpiresAt k end)
     (default (key_RateLimit5h k) (ur_RateLimit5h req))
     (default (key_RateLimit1d k) (ur_RateLimit1d req))
     (default (key_RateLimit7d k) (ur_RateLimit7d req))
     (if reset then f0 else key_Usage5h k) (if reset then f0 else key_Usage1d k)
     (if reset then f0 else key_Usage7d k)
     (if reset then None else key_Window5hStart k) (if reset then None else key_Window1dStart k)
     (if reset then None else key_Window7dStart k),
   {| uf_Name := is_set (ur_Name req);
      uf_Status := is_set (ur_Status req) || negb (String.eqb status (key_Status k));
      uf_Quota := is_set (ur_Quota req);
      uf_ExpiresAt := ur_ClearExpiration req || is_set (ur_ExpiresAt req);
      uf_QuotaUsed := is_true (ur_ResetQuota req);
      uf_RateLimits := is_set (ur_RateLimit5h req) || is_set (ur_RateLimit1d req)
                       || is_set (ur_RateLimit7d req);
      uf_RateLimitUsage := reset;
      uf_IPRules := is_set (ur_IPWhitelist req) || is_set (ur_IPBlacklist req) |}).

Record APIKeyQuotaUsageState := mk_quota_state {
  qs_QuotaUsed : float64; qs_Quota : float64; qs_Key : string; qs_Status : string }.

(** [APIKeyRepository], the operations the modelled handlers call;
    [ReplaceAssetPermissions] is absent when the repository does not
    implement it. *)
Record APIKeyRepository (S : Type) := {
  kr_Create : APIKey -> M S APIKey;
  kr_GetByID : Z -> M S APIKey;
  kr_Update : APIKey -> APIKeyUpdateFields -> M S unit;
  kr_ExistsByKey : string -> M S bool;
  kr_IncrementQuotaUsedAndGetState : Z -> float64 -> M S (option APIKeyQuotaUsageState);
  kr_IncrementRateLimitUsage : Z -> float64 -> M S unit;
  kr_ReplaceAssetPermissions : option (Z -> APIKeyAssetPermissions -> M S unit)
}.
Arguments kr_Create {S} _. Arguments kr_GetByID {S} _. Arguments kr_Update {S} _.
Arguments kr_ExistsByKey {S} _. Arguments kr_IncrementQuotaUsedAndGetState {S} _.
Arguments kr_IncrementRateLimitUsage {S} _. Arguments kr_ReplaceAssetPermissions {S} _.

Section Service.
Context {S : Type} (repo : APIKeyRepository S).
(** [ip.ValidateIPPatterns]; the caches: dropping the creation counter of a
    user, the authentication entry of a key, the rate-limit entry of a key. *)
Context (ValidateIPPatterns : list string -> list string)
  (DeleteCreateAttemptCount : Z -> M S unit)
  (InvalidateAuthCacheByKey : string -> M S unit)
  (InvalidateAPIKeyRateLimit : option (Z -> M S unit)).

Definition best_effort {A} (m : M S A) : M S unit := mtry m (λ _, mret tt).

Definition check_ip_patterns (patterns : list string) : M S unit :=
  if negb (is_nil patterns) && negb (is_nil (ValidateIPPatterns patterns))
  then mfail (EWrap "%w: %v" ErrInvalidIPPattern) else mret tt.

Definition key_Update (now : time) (id userID : Z) (req : UpdateAPIKeyRequest) : M S APIKey :=
  mtry (kr_GetByID repo id) (λ r,
  match r with
  | Err e => mfail (EWrap "get api key: %w" e)
  | Ok apiKey =>
    if negb (key_UserID apiKey =? userID) then mfail ErrInsufficientPerms else
    let changed := updateAPIKeyAssetPermissionsProvided req in
    let! writer :=
      (if changed then
         match ValidateAPIKeyAssetPermissions (updatedAPIKeyAssetPermissions (Some apiKey) req),
               kr_ReplaceAssetPermissions repo with
         | Some e, _ => mfail e
         | None, None => mfail (EPlain "api key repository does not support asset permissions")
         | None, Some w => mret (Some w)
         end
       else mret None) in
    let perms := if changed then updatedAPIKeyAssetPermissions (Some apiKey) req
                 else key_permissions apiKey in
    let! _ := check_ip_patterns (slice (ur_IPWhitelist req)) in
    let! _ := check_ip_patterns (slice (ur_IPBlacklist req)) in
    let '(edited, fields) := apply_update now apiKey perms req in
    let! _ := (if is_set (ur_Status req)
               then best_effort (DeleteCreateAttemptCount (key_UserID apiKey)) else mret tt) in
    mtry (kr_Update repo edited fields) (λ r,
    match r with
    | Err e => mfail (EWrap "update api key: %w" e)
    | Ok _ =>
      mtry (match writer with Some w => w (key_ID edited) perms | None => mret tt end) (λ r,
      match r with
      | Err e => mfail (EWrap "replace api key asset permissions: %w" e)
      | Ok _ =>
        let! _ := best_effort (InvalidateAuthCacheByKey (key_Key edited)) in
        let! _ := (if is_true (ur_ResetRateLimitUsage req)
                   then match InvalidateAPIKeyRateLimit with
                        | Some inv => best_effort (inv (key_ID edited)) | None => mret tt end
                   else mret tt) in
        mret edited
      end)
    end)
  end).

Definition UpdateQuotaUsed (apiKeyID : Z) (cost : float64) : M S unit :=
  if fleb cost f0 then mret tt else
  mtry (kr_IncrementQuotaUsedAndGetState repo apiKeyID cost) (λ r,
  match r with
  | Err e => mfail (EWrap "increment quota used: %w" e)
  | Ok (Some state) =>
    if String.eqb (qs_Status state) StatusAPIKeyQuotaExhausted
       && negb (str_empty (TrimSpace (qs_Key state)))
    then best_effort (InvalidateAuthCacheByKey (qs_Key state)) else mret tt
  | Ok None => mret tt
  end).

Definition UpdateRateLimitUsage (apiKeyID : Z) (cost : float64) : M S unit :=
  if fleb cost f0 then mret tt else kr_IncrementRateLimitUsage repo apiKeyID cost.

(** ** Creating a key *)

(** The owner lookup, the platform lister, the attempt limiter and its counter,
    and the random key. *)
Context (GetUser : Z -> M S unit) (platformLister : option (M S (list (Z * bool))))
  (checkAPIKeyRateLimit incrementAPIKeyErrorCount : Z -> M S unit) (GenerateKey : M S string).

(** The permissions the creation validates: those of the request as given. *)
Definition create_validated_permissions (req : CreateAPIKeyRequest) (platformIDs : option (list Z))
  : APIKeyAssetPermissions :=
  mk_perms (slice platformIDs) (slice (cr_SubscriptionPlanIDs req))
    (match cr_AllowAllSubscriptions req with None => true | Some b => b end)
    (match cr_AllowBalance req with None => true | Some b => b end).

Definition with_platforms (req : CreateAPIKeyRequest) (platformIDs : option (list Z))
  : CreateAPIKeyRequest := {|
  cr_Name := cr_Name req; cr_PlatformIDs := platformIDs;
  cr_SubscriptionPlanIDs := cr_SubscriptionPlanIDs req;
  cr_AllowAllSubscriptions := cr_AllowAllSubscriptions req;
  cr_AllowBalance := cr_AllowBalance req; cr_CustomKey := cr_CustomKey req;
  cr_IPWhitelist := cr_IPWhitelist req; cr_IPBlacklist := cr_IPBlacklist req;
  cr_Quota := cr_Quota req; cr_ExpiresInDays := cr_ExpiresInDays req;
  cr_RateLimit5h := cr_RateLimit5h req; cr_RateLimit1d := cr_RateLimit1d req;
  cr_RateLimit7d := cr_RateLimit7d req |}.

Definition default_platforms (req : CreateAPIKeyRequest) : M S (option (list Z)) :=
  match cr_PlatformIDs req, platformLister with
  | None, Some lister =>
    mtry lister (λ r,
    match r with
    | Err e => mfail (EWrap "list platforms: %w" e)
    | Ok ps => let ids := map fst (filterb (λ p, (0 <? p.1) && p.2) ps) in
               mret (if is_nil ids then None else Some ids)
    end)
  | p, _ => mret p
  end.

Definition choose_key (userID : Z) (custom : option string) : M S string :=
  match custom with
  | Some key =>
    if str_empty key then
      mtry GenerateKey (λ r, match r with
        | Err e => mfail (EWrap "generate key: %w" e) | Ok k => mret k end)
    else
      let! _ := checkAPIKeyRateLimit userID in
      match ValidateCustomKey key with
      | Some e => mfail e
      | None =>
        mtry (kr_ExistsByKey repo key) (λ r,
        match r with
        | Err e => mfail (EWrap "check key exists: %w" e)
        | Ok true => let! _ := best_effort (incrementAPIKeyErrorCount userID) in mfail ErrAPIKeyExists
        | Ok false => mret key
        end)
      end
  | None =>
    mtry GenerateKey (λ r, match r with
      | Err e => mfail (EWrap "generate key: %w" e) | Ok k => mret k end)
  end.

(** The record stored for a new key. *)
Definition new_key (now : time) (userID : Z) (key : string) (req : CreateAPIKeyRequest) : APIKey :=
  let k := newAPIKeyFromCreateRequest req in {|
  key_ID := 0; key_UserID := userID; key_Key := key; key_Name := EscapeString (key_Name k);
  key_Status := StatusActive; key_IPWhitelist := key_IPWhitelist k;
  key_IPBlacklist := key_IPBlacklist k; key_User := None;
  key_AllowedPlatformIDs := key_AllowedPlatformIDs k;
  key_AllowedSubscriptionPlanIDs := key_AllowedSubscriptionPlanIDs k;
  key_AllowAllSubscriptions := key_AllowAllSubscriptions k;
  key_AllowBalance := key_AllowBalance k; key_CurrentConcurrency := 0;
  key_Quota := key_Quota k; key_QuotaUsed := f0;
  key_ExpiresAt := match cr_ExpiresInDays req with
    | Some d => if 0 <? d then Some (add_days now d) else None | None => None end;
  key_RateLimit5h := key_RateLimit5h k; key_RateLimit1d := key_RateLimit1d k;
  key_RateLimit7d := key_RateLimit7d k; key_Usage5h := f0; key_Usage1d := f0; key_Usage7d := f0;
  key_Window5hStart := None; key_Window1dStart := None; key_Window7dStart := None |}.

Definition key_Create (now : time) (userID : Z) (req : CreateAPIKeyRequest) : M S APIKey :=
  mtry (GetUser userID) (λ r,
  match r with
  | Err e => mfail (EWrap "get user: %w" e)
  | Ok _ =>
    let! platformIDs := default_platforms req in
    match ValidateAPIKeyAssetPermissions (create_validated_permissions req platformIDs) with
    | Some e => mfail e
    | None =>
      let! _ := check_ip_patterns (cr_IPWhitelist req) in
      let! _ := check_ip_patterns (cr_IPBlacklist req) in
      let! key := choose_key userID (cr_CustomKey req) in
      let req := with_platforms req platformIDs in
      mtry (kr_Create repo (new_key now userID key req)) (λ r,
      match r with
      | Err e => mfail (EWrap "create api key: %w" e)
      | Ok k => let! _ := best_effort (InvalidateAuthCacheByKey (key_Key k)) in mret k
      end)
    end
  end).

End Service.

(** ** The table *)

(** The rows with their deletion mark; [kt_now] is the database's clock. *)
Record KeyTable := mk_KeyTable {
  kt_rows : gmap Z (APIKey * bool);
  kt_now : time;
  kt_next : Z
}.
Definition kt_live (id : Z) (tb : KeyTable) : option APIKey :=
  match kt_rows tb !! id with Some (k, false) => Some k | _ => None end.
(** [UPDATE api_keys SET ... WHERE id = $1 AND deleted_at IS NULL] *)
Definition kt_update (id : Z) (f : APIKey -> APIKey) (tb : KeyTable) : bool * KeyTable :=
  match kt_live id tb with
  | Some k => (true, mk_KeyTable (<[id := (f k, false)]> (kt_rows tb)) (kt_now tb) (kt_next tb))
  | None => (false, tb)
  end.

(** The columns an update writes into a row. *)
Definition write_fields (key : APIKey) (f : APIKeyUpdateFields) (row : APIKey) : APIKey :=
  let pick {A} (b : bool) (g : APIKey -> A) : A := if b then g key else g row in
  edit_key row (pick (uf_Name f) key_Name) (pick (uf_Status f) key_Status)
    (pick (uf_IPRules f) key_IPWhitelist) (pick (uf_IPRules f) key_IPBlacklist)
    (key_permissions row)
    (pick (uf_Quota f) key_Quota) (pick (uf_QuotaUsed f) key_QuotaUsed)
    (pick (uf_ExpiresAt f) key_ExpiresAt)
    (pick (uf_RateLimits f) key_RateLimit5h) (pick (uf_RateLimits f) key_RateLimit1d)
    (pick (uf_RateLimits f) key_RateLimit7d)
    (pick (uf_RateLimitUsage f) key_Usage5h) (pick (uf_RateLimitUsage f) key_Usage1d)
    (pick (uf_RateLimitUsage f) key_Usage7d)
    (pick (uf_RateLimitUsage f) key_Window5hStart) (pick (uf_RateLimitUsage f) key_Window1dStart)
    (pick (uf_RateLimitUsage f) key_Window7dStart).

Definition kt_Update (key : APIKey) (fields : APIKeyUpdateFields) : M KeyTable unit := λ tb,
  if fields_IsEmpty fields then (Ok tt, tb) else
  let '(affected, tb') := kt_update (key_ID key) (write_fields key fields) tb in
  if affected then (Ok tt, tb') else (Err ErrAPIKeyNotFound, tb').

Section KeyTable.
(** The addition of the [decimal] columns, and the session time zone of the
    database, in which [date_trunc('day', ...)] cuts. *)
Context (db_add : float64 -> float64 -> float64) (db_zone : Location).

Definition set_quota_used (k : APIKey) (used : float64) (status : string) : APIKey :=
  edit_key k (key_Name k) status (key_IPWhitelist k) (key_IPBlacklist k) (key_permissions k)
    (key_Quota k) used (key_ExpiresAt k) (key_RateLimit5h k) (key_RateLimit1d k)
    (key_RateLimit7d k) (key_Usage5h k) (key_Usage1d k) (key_Usage7d k)
    (key_Window5hStart k) (key_Window1dStart k) (key_Window7dStart k).
Definition set_usage (k : APIKey) (u5 u1 u7 : float64) (w5 w1 w7 : option time) : APIKey :=
  edit_key k (key_Name k) (key_Status k) (key_IPWhitelist k) (key_IPBlacklist k)
    (key_permissions k) (key_Quota k) (key_QuotaUsed k) (key_ExpiresAt k) (key_RateLimit5h k)
    (key_RateLimit1d k) (key_RateLimit7d k) u5 u1 u7 w5 w1 w7.

Definition increment_quota (amount : float64) (k : APIKey) : APIKey :=
  let used := db_add (key_QuotaUsed k) amount in
  set_quota_used k used
    (if fgtb (key_Quota k) f0 && fgeb used (key_Quota k)
     then StatusAPIKeyQuotaExhausted else key_Status k).

Definition kt_IncrementQuotaUsedAndGetState (id : Z) (amount : float64)
  : M KeyTable (option APIKeyQuotaUsageState) := λ tb,
  match kt_live id tb with
  | Some k =>
    let k' := increment_quota amount k in
    (Ok (Some (mk_quota_state (key_QuotaUsed k') (key_Quota k') (key_Key k') (key_Status k'))),
     (kt_update id (increment_quota amount) tb).2)
  | None => (Err ErrAPIKeyNotFound, tb)
  end.

(** [window_start + interval <= NOW()] for a start that is set. *)
Definition db_window_over (now : time) (start : option time) (window : Z) : bool :=
  match start with Some w => negb (after (time_add w window) now) | None => false end.
Definition db_usage (now : time) (start : option time) (window : Z) (usage cost : float64)
  : float64 := if db_window_over now start window then cost else db_add usage cost.
Definition db_start (now : time) (start : option time) (window : Z) (fresh : time) : option time :=
  match start with
  | None => Some fresh
  | Some w => if db_window_over now start window then Some fresh else start
  end.
Definition db_day (now : time) : time := start_of_local_day (time_in now db_zone).

Definition increment_rate (now : time) (cost : float64) (k : APIKey) : APIKey :=
  set_usage k
    (db_usage now (key_Window5hStart k) RateLimitWindow5h (key_Usage5h k) cost)
    (db_usage now (key_Window1dStart k) RateLimitWindow1d (key_Usage1d k) cost)
    (db_usage now (key_Window7dStart k) RateLimitWindow7d (key_Usage7d k) cost)
    (db_start now (key_Window5hStart k) RateLimitWindow5h now)
    (db_start now (key_Window1dStart k) RateLimitWindow1d (db_day now))
    (db_start now (key_Window7dStart k) RateLimitWindow7d (db_day now)).
Definition kt_IncrementRateLimitUsage (id : Z) (cost : float64) : M KeyTable unit := λ tb,
  (Ok tt, (kt_update id (increment_rate (kt_now tb) cost) tb).2).

Definition reset_windows (now : time) (k : APIKey) : APIKey :=
  let over5 := db_window_over now (key_Window5hStart k) RateLimitWindow5h in
  let over1 := db_window_over now (key_Window1dStart k) RateLimitWindow1d in
  let over7 := db_window_over now (key_Window7dStart k) RateLimitWindow7d in
  set_usage k (if over5 then f0 else key_Usage5h k) (if over1 then f0 else key_Usage1d k)
    (if over7 then f0 else key_Usage7d k)
    (if over5 then Some now else key_Window5hStart k)
    (if over1 then Some (db_day now) else key_Window1dStart k)
    (if over7 then Some (db_day now) else key_Window7dStart k).
Definition kt_ResetRateLimitWindows (id : Z) : M KeyTable unit := λ tb,
  (Ok tt, (kt_update id (reset_windows (kt_now tb)) tb).2).

Definition kt_ReplaceAssetPermissions (id : Z) (p : APIKeyAssetPermissions) : M KeyTable unit := λ tb,
  let p := NormalizeAPIKeyAssetPermissions p in
  (Ok tt, (kt_update id (λ k,
    edit_key k (key_Name k) (key_Status k) (key_IPWhitelist k) (key_IPBlacklist k) p
      (key_Quota k) (key_QuotaUsed k) (key_ExpiresAt k) (key_RateLimit5h k)
      (key_RateLimit1d k) (key_RateLimit7d k) (key_Usage5h k) (key_Usage1d k) (key_Usage7d k)
      (key_Window5hStart k) (key_Window1dStart k) (key_Window7dStart k)) tb).2).

Definition kt_GetByID (id : Z) : M KeyTable APIKey := λ tb,
  match kt_live id tb with Some k => (Ok k, tb) | None => (Err ErrAPIKeyNotFound, tb) end.

End KeyTable.

(** ** Properties *)

(** Normalising permissions is idempotent, changes neither flag, and keeps
    exactly the positive identifiers, each once and in order. *)
Theorem NormalizeAPIKeyAssetPermissions_spec p :
  let n := NormalizeAPIKeyAssetPermissions p in
  NormalizeAPIKeyAssetPermissions n = n /\
  (∀ i, i ∈ perm_PlatformIDs n <-> i ∈ perm_PlatformIDs p /\ 0 < i) /\
  (∀ i, i ∈ perm_SubscriptionPlanIDs n <-> i ∈ perm_SubscriptionPlanIDs p /\ 0 < i) /\
  StronglySorted Z.lt (perm_PlatformIDs n) /\ StronglySorted Z.lt (perm_SubscriptionPlanIDs n) /\
  ValidateAPIKeyAssetPermissions n = ValidateAPIKeyAssetPermissions p.
Proof.
  assert (NormalizeAPIKeyAssetPermissions (NormalizeAPIKeyAssetPermissions p)
          = NormalizeAPIKeyAssetPermissions p) as Hi.
  { unfold NormalizeAPIKeyAssetPermissions. simpl. f_equal; apply positive_ids_idem. }
  split_and!; [done|intros i; apply elem_of_positive_ids|intros i; apply elem_of_positive_ids
    |apply positive_ids_sorted|apply positive_ids_sorted|].
  unfold ValidateAPIKeyAssetPermissions. by rewrite Hi.
Qed.

(** An edit writes the columns it was asked to change and no others: the
    quota used, the rate-limit usage and their windows keep the value the row
    has when the write reaches it, however old the snapshot the edit was
    computed from, unless their reset was requested. *)
Theorem Update_keeps_counters now snapshot perms req tb row :
  kt_live (key_ID snapshot) tb = Some row ->
  let '(edited, fields) := apply_update now snapshot perms req in
  ∃ row', kt_live (key_ID snapshot) (kt_Update edited fields tb).2 = Some row' /\
    (is_true (ur_ResetQuota req) = false -> key_QuotaUsed row' = key_QuotaUsed row) /\
    (is_true (ur_ResetRateLimitUsage req) = false ->
       key_Usage5h row' = key_Usage5h row /\ key_Usage1d row' = key_Usage1d row /\
       key_Usage7d row' = key_Usage7d row /\ key_Window5hStart row' = key_Window5hStart row /\
       key_Window1dStart row' = key_Window1dStart row /\
       key_Window7dStart row' = key_Window7dStart row) /\
    (is_true (ur_ResetRateLimitUsage req) = true ->
       key_Usage5h row' = f0 /\ key_Usage1d row' = f0 /\ key_Usage7d row' = f0 /\
       key_Window5hStart row' = None) /\
    key_Quota row' = default (key_Quota row) (ur_Quota req) /\
    (key_Status row' = key_Status row \/ key_Status row' = updated_status now snapshot req) /\
    key_permissions row' = key_permissions row /\ key_Key row' = key_Key row.
Proof.
  intros Hl. unfold apply_update, kt_Update.
  set (edited := edit_key _ _ _ _ _ _ _ _ _ _ _ _ _ _ _ _ _ _).
  set (fields := {| uf_Name := _ |}).
  destruct (fields_IsEmpty fields) eqn:Ee.
  - exists row. simpl. split; [done|].
    unfold fields_IsEmpty, fields in Ee. simpl in Ee. apply negb_true_iff in Ee.
    repeat (apply orb_false_iff in Ee as [Ee ?]).
    split_and!; try done; [|by destruct (ur_Quota req)|by left].
    intros Hr. congruence.
  - change (key_ID edited) with (key_ID snapshot).
    unfold kt_update. rewrite Hl. simpl.
    exists (write_fields edited fields row). split.
    { unfold kt_live. simpl. by rewrite lookup_insert_eq. }
    unfold write_fields, fields, edited. simpl.
    split_and!; try done.
    + by intros ->.
    + by intros ->.
    + by intros ->.
    + by destruct (ur_Quota req).
    + destruct (_ || _); auto.
Qed.

(** An edit brings an exhausted key back only with quota to spend: when it
    turns the status from exhausted to active without setting it, the edited
    key is not exhausted any more. *)
Theorem Update_reactivates_with_quota now k perms req :
  key_Status k = StatusAPIKeyQuotaExhausted -> ur_Status req = None ->
  key_Status (apply_update now k perms req).1 = StatusActive ->
  IsQuotaExhausted (apply_update now k perms req).1 = false.
Proof.
  intros Hk Hreq. unfold apply_update, updated_status, IsQuotaExhausted. simpl.
  rewrite Hk, Hreq. simpl.
  assert (Hz : ∀ q, fleb q f0 = false -> fgeb f0 q = false).
  { intros q Hq. exact Hq. }
  destruct (ur_Quota req) as [q|]; simpl; destruct (is_true (ur_ResetQuota req)); simpl.
  - intros _. destruct (fleb q f0) eqn:E; [done|by apply Hz].
  - destruct (fleb q f0) eqn:E; simpl; [done|].
    destruct (fgtb q (key_QuotaUsed k)) eqn:E2; simpl; [|by repeat case_match].
    intros _. by apply fltb_not_fleb.
  - intros _. destruct (fleb (key_Quota k) f0) eqn:E; [done|by apply Hz].
  - by repeat case_match.
Qed.

(** Recording a cost marks the key exhausted exactly when its new usage
    exhausts it, and what the caller is told is what the row holds. *)
Theorem IncrementQuotaUsed_marks_exhausted db_add id amount tb row :
  kt_live id tb = Some row -> is_nan (key_Quota row) = false ->
  ∃ row' tb', kt_IncrementQuotaUsedAndGetState db_add id amount tb =
      (Ok (Some (mk_quota_state (key_QuotaUsed row') (key_Quota row') (key_Key row')
                   (key_Status row'))), tb') /\
    kt_live id tb' = Some row' /\ key_QuotaUsed row' = db_add (key_QuotaUsed row) amount /\
    key_Status row' =
      (if IsQuotaExhausted row' then StatusAPIKeyQuotaExhausted else key_Status row).
Proof.
  intros Hl Hn. unfold kt_IncrementQuotaUsedAndGetState, kt_update. rewrite Hl. simpl.
  eexists (increment_quota db_add amount row), _. split; [done|].
  split; [unfold kt_live; simpl; by rewrite lookup_insert_eq|]. split; [done|].
  unfold increment_quota, IsQuotaExhausted. simpl.
  unfold fgtb. rewrite (fltb_fleb_total f0) by done. by destruct (fleb (key_Quota row) f0).
Qed.

(** The database and the in-memory check agree on when a window that has been
    started is over. *)
Lemma db_window_over_expired now w window :
  in_int64 (t_ns now - t_ns w) ->
  db_window_over now (Some w) window = IsWindowExpired now (Some w) window.
Proof.
  intros Hr. unfold db_window_over, IsWindowExpired, after. rewrite time_sub_exact by done.
  simpl. destruct (Z.ltb_spec (t_ns now) (t_ns w + window)); simpl; symmetry; bool_goal; lia.
Qed.

(** The five-hour usage a request is checked against after a cost is
    recorded: the cost alone when the window had ended, the sum otherwise, in
    a window that has not ended. *)
Theorem IncrementRateLimit_effective db_add db_zone now cost k w :
  key_Window5hStart k = Some w -> in_int64 (t_ns now - t_ns w) ->
  let k' := increment_rate db_add db_zone now cost k in
  EffectiveUsage5h now k' =
    (if IsWindowExpired now (Some w) RateLimitWindow5h then cost
     else db_add (EffectiveUsage5h now k) cost) /\
  IsWindowExpired now (key_Window5hStart k') RateLimitWindow5h = false.
Proof.
  intros Hw Hr. unfold EffectiveUsage5h, increment_rate, effective_usage.
  cbn [key_Window5hStart key_Usage5h set_usage edit_key].
  unfold db_start, db_usage. rewrite Hw, db_window_over_expired by done.
  destruct (IsWindowExpired now (Some w) RateLimitWindow5h) eqn:E; [|by rewrite E].
  assert (IsWindowExpired now (Some now) RateLimitWindow5h = false) as ->; [|done].
  unfold IsWindowExpired.
  rewrite time_sub_exact
    by (rewrite Z.sub_diag; unfold in_int64, min_int64, max_int64; lia).
  by rewrite Z.sub_diag.
Qed.

(** ** Pages *)

Lemma page_Limit_range p : 1 <= page_Limit p <= 1000.
Proof. unfold page_Limit. repeat case_match; bool_to_prop; lia. Qed.

(** Every key is on the page its index says, at the index's remainder: the
    pages cut the list without gap or overlap, as far as the page numbers the
    list needs. *)
Theorem paginate_covers {A} (keys : list A) size (i : nat) x :
  Z.of_nat (length keys) < 2 ^ 62 -> keys !! i = Some x ->
  let limit := page_Limit (mk_page 1 size) in
  ∃ l, paginateAPIKeys keys (mk_page (Z.of_nat i / limit + 1) size) = Some l /\
    l !! Z.to_nat (Z.of_nat i mod limit) = Some x /\ Z.of_nat (length l) <= limit.
Proof.
  intros Hlen Hi limit. apply lookup_lt_Some in Hi as Hlt.
  pose proof (page_Limit_range (mk_page 1 size)) as Hlim. fold limit in Hlim.
  pose proof (Z.div_mod (Z.of_nat i) limit ltac:(lia)) as Hd.
  pose proof (Z.mod_pos_bound (Z.of_nat i) limit ltac:(lia)) as Hm.
  assert (0 <= Z.of_nat i / limit) as Hq by (apply Z.div_pos; lia).
  set (q := Z.of_nat i / limit) in *. set (r := Z.of_nat i mod limit) in *.
  unfold paginateAPIKeys. destruct keys as [|k0 keys0] eqn:Ek; [by rewrite lookup_nil in Hi|].
  rewrite <- Ek in *. clear Ek. simpl (is_nil _).
  replace (is_nil keys) with false by (by destruct keys).
  cbn [page_Page]. change (page_Limit (mk_page (q + 1) size)) with limit.
  replace (q + 1 <? 1) with false by (symmetry; bool_lia).
  assert (sub64 (q + 1) 1 = q) as ->.
  { unfold sub64. rewrite wrap64_id; [lia|]. unfold in_int64, min_int64, max_int64. nia. }
  assert (mul64 q limit = q * limit) as ->.
  { unfold mul64. apply wrap64_id. unfold in_int64, min_int64, max_int64. nia. }
  replace (Z.of_nat (length keys) <=? q * limit) with false by (symmetry; bool_goal; nia).
  assert (add64 (q * limit) limit = q * limit + limit) as ->.
  { unfold add64. apply wrap64_id. unfold in_int64, min_int64, max_int64. nia. }
  set (hi := if _ : bool then _ else _).
  assert (q * limit + r < hi <= q * limit + limit /\ hi <= Z.of_nat (length keys)) as [Hhi Hhi2].
  { unfold hi. case_match; bool_to_prop; lia. }
  unfold go_slice.
  replace (_ && _) with true by (symmetry; bool_goal; nia).
  eexists. split; [done|]. split.
  - rewrite lookup_take_lt by lia. rewrite lookup_drop.
    replace (Z.to_nat (q * limit) + Z.to_nat r)%nat with i by nia. done.
  - rewrite length_take, length_drop. lia.
Qed.

(** A page number a client can send makes the offset leave the range of
    [int], and the slice expression then panics. *)
Theorem paginate_overflow_panics {A} (k : A) :
  paginateAPIKeys [k] (mk_page 461168601842738792 20) = None.
Proof. reflexivity. Qed.

(** ** Creation *)

Lemma validate_perms_None p :
  ValidateAPIKeyAssetPermissions p = None <->
  (∃ i, i ∈ perm_PlatformIDs p /\ 0 < i) /\
  (perm_AllowAllSubscriptions p = true \/ perm_AllowBalance p = true \/
   ∃ i, i ∈ perm_SubscriptionPlanIDs p /\ 0 < i).
Proof.
  assert (Hne : ∀ l, is_nil (normalizePositiveIDs l) = false <-> ∃ i, i ∈ l /\ 0 < i).
  { intros l. rewrite is_nil_false. split.
    - intros H. destruct (normalizePositiveIDs l) as [|x t] eqn:E; [done|].
      exists x. apply elem_of_positive_ids. change (positive_ids l) with (normalizePositiveIDs l).
      rewrite E. set_solver.
    - intros (i & Hi & Hp) E. change (positive_ids l = []) in E.
      assert (Hx : i ∈ positive_ids l) by (by apply elem_of_positive_ids).
      rewrite E in Hx. set_solver. }
  unfold ValidateAPIKeyAssetPermissions. simpl.
  rewrite <- (Hne (perm_PlatformIDs p)), <- (Hne (perm_SubscriptionPlanIDs p)).
  destruct (is_nil (normalizePositiveIDs (perm_PlatformIDs p))),
    (is_nil (normalizePositiveIDs (perm_SubscriptionPlanIDs p))),
    (perm_AllowAllSubscriptions p), (perm_AllowBalance p); simpl; naive_solver.
Qed.

(** A request the creation accepts gives a key with valid permissions,
    provided that, when it lists plans and leaves [allow_all_subscriptions]
    out, one of them is positive or the balance is allowed. *)
Theorem Create_permissions_valid req :
  ValidateAPIKeyAssetPermissions (create_validated_permissions req (cr_PlatformIDs req)) = None ->
  (cr_AllowAllSubscriptions req = None -> slice (cr_SubscriptionPlanIDs req) ≠ [] ->
     (∃ i, i ∈ slice (cr_SubscriptionPlanIDs req) /\ 0 < i) \/
     default true (cr_AllowBalance req) = true) ->
  ValidateAPIKeyAssetPermissions (key_permissions (newAPIKeyFromCreateRequest req)) = None.
Proof.
  intros Hv Hp. change (key_permissions (newAPIKeyFromCreateRequest req)) with (create_permissions req).
  unfold create_permissions.
  destruct (NormalizeAPIKeyAssetPermissions_spec (mk_perms (slice (cr_PlatformIDs req))
    (slice (cr_SubscriptionPlanIDs req))
    (match cr_AllowAllSubscriptions req with Some b => b | None =>
       if negb (is_nil (slice (cr_SubscriptionPlanIDs req))) then false else true end)
    (default true (cr_AllowBalance req)))) as (_ & _ & _ & _ & _ & ->).
  rewrite validate_perms_None in Hv |- *. simpl in *. destruct Hv as [Hpl Hb].
  split; [done|]. destruct (cr_AllowAllSubscriptions req) as [b|]; [naive_solver|].
  destruct (slice (cr_SubscriptionPlanIDs req)) as [|x t] eqn:E; [by left|].
  right. destruct (Hp eq_refl ltac:(done)); [by right|by left].
Qed.

Definition gap_request : CreateAPIKeyRequest := {|
  cr_Name := "k"; cr_PlatformIDs := Some [1]; cr_SubscriptionPlanIDs := Some [0];
  cr_AllowAllSubscriptions := None; cr_AllowBalance := Some false; cr_CustomKey := None;
  cr_IPWhitelist := []; cr_IPBlacklist := []; cr_Quota := f0; cr_ExpiresInDays := None;
  cr_RateLimit5h := f0; cr_RateLimit1d := f0; cr_RateLimit7d := f0 |}.

(** Without that proviso the two readings of the request differ: the
    creation validates it as allowing every subscription, and stores a key that
    allows none and no balance either. *)
Theorem Create_validation_gap :
  ValidateAPIKeyAssetPermissions
    (create_validated_permissions gap_request (cr_PlatformIDs gap_request)) = None /\
  ValidateAPIKeyAssetPermissions (key_permissions (newAPIKeyFromCreateRequest gap_request))
    = Some ErrAPIKeyBillingSourceRequired.
Proof. split; vm_compute; reflexivity. Qed.

(** ** Instances *)

Definition ex_clock : time := mk_time (1700000000 * second) UTC.

(** A key with a quota of 5 USD, used up, and a five-hour window begun an hour
    before [ex_clock]. *)
Definition ex_quota_key : APIKey := {|
  key_ID := 1; key_UserID := 3; key_Key := "sk-0123456789abcdef"; key_Name := "k";
  key_Status := StatusAPIKeyQuotaExhausted; key_IPWhitelist := []; key_IPBlacklist := [];
  key_User := None; key_AllowedPlatformIDs := [1]; key_AllowedSubscriptionPlanIDs := [];
  key_AllowAllSubscriptions := true; key_AllowBalance := true; key_CurrentConcurrency := 0;
  key_Quota := f64_of_Z 5; key_QuotaUsed := f64_of_Z 5; key_ExpiresAt := None;
  key_RateLimit5h := f64_of_Z 3; key_RateLimit1d := f0; key_RateLimit7d := f0;
  key_Usage5h := f64_of_Z 2; key_Usage1d := f64_of_Z 2; key_Usage7d := f64_of_Z 2;
  key_Window5hStart := Some (time_add ex_clock (- hour));
  key_Window1dStart := None; key_Window7dStart := None |}.
Definition ex_key_table : KeyTable := mk_KeyTable {[ 1 := (ex_quota_key, false) ]} ex_clock 2.
Definition ex_raise_quota : UpdateAPIKeyRequest := {|
  ur_Name := None; ur_PlatformIDs := None; ur_SubscriptionPlanIDs := None;
  ur_AllowAllSubscriptions := None; ur_AllowBalance := None; ur_Status := None;
  ur_IPWhitelist := None; ur_IPBlacklist := None; ur_Quota := Some (f64_of_Z 10);
  ur_ExpiresAt := None; ur_ClearExpiration := false; ur_ResetQuota := None;
  ur_RateLimit5h := None; ur_RateLimit1d := None; ur_RateLimit7d := None;
  ur_ResetRateLimitUsage := None |}.
Definition ex_perms : APIKeyAssetPermissions := mk_perms [1] [] true true.

Lemma Update_keeps_counters_witness :
  let '(edited, fields) := apply_update ex_clock ex_quota_key ex_perms ex_raise_quota in
  ∃ row', kt_live 1 (kt_Update edited fields ex_key_table).2 = Some row' /\
    key_QuotaUsed row' = f64_of_Z 5 /\ key_Quota row' = f64_of_Z 10.
Proof.
  pose proof (Update_keeps_counters ex_clock ex_quota_key ex_perms ex_raise_quota ex_key_table
    ex_quota_key eq_refl) as H.
  destruct (apply_update ex_clock ex_quota_key ex_perms ex_raise_quota) as [edited fields].
  destruct H as (row' & H1 & H2 & _ & _ & H3 & _).
  exists row'. split; [exact H1|]. split; [exact (H2 eq_refl)|exact H3].
Defined.

Lemma Update_reactivates_with_quota_witness :
  IsQuotaExhausted (apply_update ex_clock ex_quota_key ex_perms ex_raise_quota).1 = false.
Proof. apply Update_reactivates_with_quota; vm_compute; reflexivity. Defined.

Lemma IncrementQuotaUsed_marks_exhausted_witness :
  ∃ row', key_Status row' = StatusAPIKeyQuotaExhausted /\ key_QuotaUsed row' = f64_of_Z 6.
Proof.
  destruct (IncrementQuotaUsed_marks_exhausted fadd 1 f1 ex_key_table ex_quota_key eq_refl eq_refl)
    as (row' & tb' & _ & _ & H1 & H2).
  exists row'. split; [|rewrite H1; vm_compute; reflexivity].
  rewrite H2. destruct (IsQuotaExhausted row'); reflexivity.
Defined.

Lemma IncrementRateLimit_effective_witness :
  EffectiveUsage5h ex_clock (increment_rate fadd UTC ex_clock f1 ex_quota_key) = f64_of_Z 3.
Proof.
  destruct (IncrementRateLimit_effective fadd UTC ex_clock f1 ex_quota_key
    (time_add ex_clock (- hour)) eq_refl) as [H _].
  { unfold in_int64. split; vm_compute; congruence. }
  rewrite H. vm_compute. reflexivity.
Defined.

Lemma paginate_covers_witness :
  ∃ l, paginateAPIKeys [10; 20; 30; 40; 50] (mk_page 3 2) = Some l /\ l !! 0%nat = Some 50.
Proof.
  destruct (paginate_covers [10; 20; 30; 40; 50] 2 4 50) as (l & H1 & H2 & _);
    [reflexivity|reflexivity|].
  exists l. split; [exact H1|exact H2].
Defined.
