(* ===== verification/AssetResolver.v ===== *)
(** * The billing asset of a request

    [service/api_key_asset_resolver.go], [service/billing_multiplier_selection.go]
    and [service/global_balance_rate.go]: after a platform has been chosen, the
    subscription that pays for the request, or the balance.  The subscription
    service is reached through the interfaces the code uses; [service_resolver]
    is its implementation by the subscription service. *)

From S2P Require Import Prelude GoErrors GoTime Float64 Subscription SubscriptionRepo SubscriptionService APIKeys.

Definition BillingSourceSubscription : string := "subscription".
Definition BillingSourceBalance : string := "balance".

Definition ErrNoUsableBillingSource : error :=
  Forbidden "NO_USABLE_BILLING_SOURCE" "no usable subscription or balance source is available".
Definition ErrInsufficientBalance : error :=
  BadRequest "INSUFFICIENT_BALANCE" "insufficient balance".
Definition ErrSubscriptionInvalid : error :=
  Forbidden "SUBSCRIPTION_INVALID" "subscription is invalid or expired".

Record ResolvedBillingAsset := {
  asset_Source : string;
  asset_SubscriptionID : option Z;
  asset_PlanID : option Z;
  asset_RateMultiplier : float64;
  asset_Subscription : option UserSubscription
}.

(** ** Multipliers *)

Definition nonNegativeMultiplier (multiplier : float64) : float64 :=
  if fltb multiplier f0 then f0 else multiplier.
Definition resolveBillingRateMultiplier (subscription : option UserSubscription)
  (fallback : float64) : float64 :=
  match subscription with
  | Some s => nonNegativeMultiplier (us_RateMultiplierSnapshot s)
  | None => nonNegativeMultiplier fallback
  end.
Definition resolveBillingMultipliers (subscription : option UserSubscription)
  (fallback : float64) : float64 * float64 * float64 :=
  let base := resolveBillingRateMultiplier subscription fallback in (base, base, base).

Definition defaultGlobalBalanceRateMultiplier : float64 := f1.
Definition globalBalanceRateMultiplier (provider : option float64) : float64 :=
  match provider with
  | None => defaultGlobalBalanceRateMultiplier
  | Some rate => if fltb rate f0 || is_nan rate || is_inf rate
                 then defaultGlobalBalanceRateMultiplier else rate
  end.

(** ** Interfaces *)

(** [apiKeySubscriptionResolver] with the two listers it may also implement.
    [ValidateAndCheckLimits] writes its corrections into the subscription it is
    given, so it returns it; [EnsureWindowMaintenance] returns a pointer. *)
Record SubscriptionResolver (S : Type) := {
  sr_ValidateAndCheckLimits : UserSubscription -> M S limit_check;
  sr_EnsureWindowMaintenance : UserSubscription -> M S (option UserSubscription);
  sr_ListActiveSubscriptions : option (Z -> M S (list UserSubscription));
  sr_ListActiveSubscriptionsByPlanIDs : option (Z -> list Z -> M S (list UserSubscription))
}.
Arguments sr_ValidateAndCheckLimits {S} _. Arguments sr_EnsureWindowMaintenance {S} _.
Arguments sr_ListActiveSubscriptions {S} _. Arguments sr_ListActiveSubscriptionsByPlanIDs {S} _.

Definition isSubscriptionCandidateUnavailableError (err : error) : bool :=
  error_is err ErrDailyLimitExceeded || error_is err ErrWeeklyLimitExceeded
  || error_is err ErrMonthlyLimitExceeded || error_is err ErrSubscriptionNotFound
  || error_is err ErrSubscriptionInvalid || error_is err ErrSubscriptionExpired
  || error_is err ErrSubscriptionSuspended.

(** ** Candidates *)

Definition makeAllowedPlanIDSet (planIDs : list Z) : gset Z :=
  list_to_set (filterb (λ p, 0 <? p) planIDs).
Definition subscriptionUsesAllowedPlan (s : UserSubscription) (allowed : option (gset Z)) : bool :=
  match us_SubscriptionPlanID s with
  | None => false
  | Some p => match allowed with None => true | Some a => bool_decide (p ∈ a) end
  end.
Definition sortSubscriptionCandidates (candidates : list UserSubscription)
  : list UserSubscription := stable_sort candidate_asc candidates.

Definition resolvedSubscriptionBillingAsset (s : UserSubscription) : option ResolvedBillingAsset :=
  match us_SubscriptionPlanID s with
  | None => None
  | Some planID => Some {|
      asset_Source := BillingSourceSubscription;
      asset_SubscriptionID := Some (us_ID s); asset_PlanID := Some planID;
      asset_RateMultiplier := nonNegativeMultiplier (us_RateMultiplierSnapshot s);
      asset_Subscription := Some s |}
  end.

Section Resolver.
Context {S : Type}.
(** The global balance rate the provider reads, when one is configured. *)
Context (balanceRate : option float64).

(** What the loop does with one candidate: go on with the next, stop on an
    error, or take the subscription. *)
Inductive tried :=
  | Skip
  | Stop (e : error)
  | Take (s : UserSubscription).

Definition judge (err : option error) (s : option UserSubscription) : tried :=
  match s with
  | None => Skip
  | Some s =>
    match err with
    | None => Take s
    | Some e => if isSubscriptionCandidateUnavailableError e then Skip else Stop e
    end
  end.

Definition try_candidate (r : SubscriptionResolver S) (s : UserSubscription) : M S tried :=
  let! c := sr_ValidateAndCheckLimits r s in
  if lc_needsMaintenance c then
    mtry (sr_EnsureWindowMaintenance r (lc_sub c)) (λ res,
    match res with
    | Err e => mret (judge (Some e) None)
    | Ok None => mret (judge None None)
    | Ok (Some refreshed) =>
      let! c2 := sr_ValidateAndCheckLimits r refreshed in
      mret (judge (lc_err c2) (Some (lc_sub c2)))
    end)
  else mret (judge (lc_err c) (Some (lc_sub c))).

Fixpoint candidate_loop (r : SubscriptionResolver S) (allowed : option (gset Z))
  (candidates : list UserSubscription) : M S (option ResolvedBillingAsset) :=
  match candidates with
  | [] => mret None
  | s :: rest =>
    if negb (subscriptionUsesAllowedPlan s allowed) then candidate_loop r allowed rest else
    let! t := try_candidate r s in
    match t with
    | Skip => candidate_loop r allowed rest
    | Stop e => mfail e
    | Take sub => mret (resolvedSubscriptionBillingAsset sub)
    end
  end.

Definition firstUsableSubscriptionAsset (allowedPlanIDs : option (list Z))
  (candidates : list UserSubscription) (r : SubscriptionResolver S)
  : M S (option ResolvedBillingAsset) :=
  candidate_loop r (makeAllowedPlanIDSet <$> allowedPlanIDs)
    (sortSubscriptionCandidates candidates).

Definition resolveSubscriptionBillingAsset (k : APIKey) (subs : option (SubscriptionResolver S))
  : M S (option ResolvedBillingAsset) :=
  if negb (key_AllowAllSubscriptions k) && is_nil (key_AllowedSubscriptionPlanIDs k)
  then mret None else
  match subs with
  | None => mret None
  | Some r =>
    if key_AllowAllSubscriptions k then
      match sr_ListActiveSubscriptions r with
      | None => mret None
      | Some list_ =>
        mtry (list_ (key_UserID k)) (λ res,
        match res with
        | Err e => if isSubscriptionCandidateUnavailableError e then mret None else mfail e
        | Ok candidates => firstUsableSubscriptionAsset None candidates r
        end)
      end
    else
      match sr_ListActiveSubscriptionsByPlanIDs r with
      | None => mret None
      | Some list_ =>
        mtry (list_ (key_UserID k) (key_AllowedSubscriptionPlanIDs k)) (λ res,
        match res with
        | Err e => if isSubscriptionCandidateUnavailableError e then mret None else mfail e
        | Ok candidates =>
          firstUsableSubscriptionAsset (Some (key_AllowedSubscriptionPlanIDs k)) candidates r
        end)
      end
  end.

Definition resolveBalanceBillingAsset (k : APIKey) : result ResolvedBillingAsset :=
  if negb (key_AllowBalance k) then Err ErrNoUsableBillingSource else
  if match key_User k with None => true | Some u => fleb (user_Balance u) f0 end
  then Err ErrInsufficientBalance else
  Ok {| asset_Source := BillingSourceBalance; asset_SubscriptionID := None;
        asset_PlanID := None;
        asset_RateMultiplier := globalBalanceRateMultiplier balanceRate;
        asset_Subscription := None |}.

Definition ResolveBillingAssetForRequest (k : option APIKey)
  (subs : option (SubscriptionResolver S)) (skipBilling : bool)
  : M S (option ResolvedBillingAsset) :=
  match k with
  | None => mfail ErrNoUsableBillingSource
  | Some k =>
    if skipBilling then mret None else
    let! asset := resolveSubscriptionBillingAsset k subs in
    match asset with
    | Some a => mret (Some a)
    | None => mlift (match resolveBalanceBillingAsset k with
                     | Ok a => Ok (Some a) | Err e => Err e end)
    end
  end.

End Resolver.

(** ** The subscription service as the resolver *)

(** One reading of the clock for the whole request; the plan lister is the
    repository's. *)
Definition service_resolver {S} (repo : UserSubscriptionRepository S) (tz : Location)
  (billingCache : option (Z -> Z -> M S unit)) (planLister : bool) (now : time)
  : SubscriptionResolver S := {|
  sr_ValidateAndCheckLimits := λ s, mret (ValidateAndCheckLimits tz now s);
  sr_EnsureWindowMaintenance := λ s,
    let! r := EnsureWindowMaintenance repo tz billingCache now now (Some s) in mret (Some r);
  sr_ListActiveSubscriptions := Some (ListActiveSubscriptions repo);
  sr_ListActiveSubscriptionsByPlanIDs :=
    Some (ListActiveSubscriptionsByPlanIDs repo planLister) |}.

(** ** Lemmas *)

Lemma nonNegativeMultiplier_not_neg m : not_neg (nonNegativeMultiplier m).
Proof. unfold nonNegativeMultiplier. case_match; [apply not_neg_f0|done]. Qed.

Lemma globalBalanceRate_not_neg p : not_neg (globalBalanceRateMultiplier p).
Proof.
  unfold globalBalanceRateMultiplier. destruct p as [r|]; [|done].
  destruct (fltb r f0) eqn:E; simpl; [done|]. by destruct (is_nan r || is_inf r).
Qed.

#[export] Hint Resolve nonNegativeMultiplier_not_neg globalBalanceRate_not_neg : xcode.

Lemma candidate_asc_asym x y : candidate_asc x y = true -> candidate_asc y x = false.
Proof.
  unfold candidate_asc, time_equal, before.
  rewrite (Z.eqb_sym (t_ns (us_ExpiresAt y))), (Z.eqb_sym (t_ns (us_CreatedAt y))).
  destruct (Z.eqb_spec (t_ns (us_ExpiresAt x)) (t_ns (us_ExpiresAt y)));
    destruct (Z.eqb_spec (t_ns (us_CreatedAt x)) (t_ns (us_CreatedAt y))); simpl; intros; bool_lia.
Qed.

Lemma candidate_asc_trans x y z :
  candidate_asc y x = false -> candidate_asc z y = false -> candidate_asc z x = false.
Proof.
  unfold candidate_asc, time_equal, before.
  destruct (Z.eqb_spec (t_ns (us_ExpiresAt y)) (t_ns (us_ExpiresAt x))),
    (Z.eqb_spec (t_ns (us_ExpiresAt z)) (t_ns (us_ExpiresAt y))),
    (Z.eqb_spec (t_ns (us_ExpiresAt z)) (t_ns (us_ExpiresAt x))); simpl;
  destruct (Z.eqb_spec (t_ns (us_CreatedAt y)) (t_ns (us_CreatedAt x))),
    (Z.eqb_spec (t_ns (us_CreatedAt z)) (t_ns (us_CreatedAt y))),
    (Z.eqb_spec (t_ns (us_CreatedAt z)) (t_ns (us_CreatedAt x))); simpl;
    intros; bool_lia.
Qed.

Lemma sortSubscriptionCandidates_sorted l :
  StronglySorted (not_after candidate_asc) (sortSubscriptionCandidates l).
Proof. apply stable_sort_sorted; [apply candidate_asc_asym|apply candidate_asc_trans]. Qed.

(** The earlier candidate never expires later. *)
Lemma candidate_asc_expiry x y :
  not_after candidate_asc x y -> t_ns (us_ExpiresAt x) <= t_ns (us_ExpiresAt y).
Proof.
  unfold not_after, candidate_asc, time_equal, before.
  destruct (Z.eqb_spec (t_ns (us_ExpiresAt y)) (t_ns (us_ExpiresAt x))); simpl; intros; bool_to_prop; lia.
Qed.

Section ServiceLemmas.
Context {S : Type} (repo : UserSubscriptionRepository S) (tz : Location)
  (billingCache : option (Z -> Z -> M S unit)) (planLister : bool) (now : time).
Local Abbreviation svc := (service_resolver repo tz billingCache planLister now).

Local Abbreviation check := (ValidateAndCheckLimits tz now).

Lemma try_candidate_eq s st :
  try_candidate svc s st =
  if lc_needsMaintenance (check s) then
    match EnsureWindowMaintenance repo tz billingCache now now (Some (lc_sub (check s))) st with
    | (Ok r, st1) => (Ok (judge (lc_err (check r)) (Some (lc_sub (check r)))), st1)
    | (Err e, st1) => (Ok Skip, st1)
    end
  else (Ok (judge (lc_err (check s)) (Some (lc_sub (check s)))), st).
Proof.
  unfold try_candidate, mbind_ at 1. cbn [sr_ValidateAndCheckLimits service_resolver mret].
  destruct (lc_needsMaintenance (check s)); [|done].
  unfold mtry. cbn [sr_EnsureWindowMaintenance service_resolver mret]. unfold mbind_.
  destruct (EnsureWindowMaintenance _ _ _ _ _ _ st) as [[r|e] st1]; reflexivity.
Qed.

Lemma judge_Take e o sub : judge e o = Take sub -> e = None /\ o = Some sub.
Proof.
  destruct o as [x|], e as [e|]; simpl; intros H; try congruence.
  - destruct (isSubscriptionCandidateUnavailableError e); congruence.
  - split; congruence.
Qed.

(** A subscription the loop takes has just passed the check. *)
Lemma try_candidate_Take s sub st st' :
  try_candidate svc s st = (Ok (Take sub), st') ->
  ∃ s', lc_err (check s') = None /\ sub = lc_sub (check s') /\
        (s' = s \/ ∃ st0 st1,
           EnsureWindowMaintenance repo tz billingCache now now (Some (lc_sub (check s))) st0
           = (Ok s', st1)).
Proof.
  rewrite try_candidate_eq. destruct (lc_needsMaintenance (check s)).
  - destruct (EnsureWindowMaintenance _ _ _ _ _ _ st) as [[r|e] st1] eqn:Ee; [|done].
    destruct (judge (lc_err (check r)) _) as [|e|x] eqn:Hj; intros [= <- <-].
    apply judge_Take in Hj as [He [= <-]]. exists r. eauto 10.
  - destruct (judge (lc_err (check s)) _) as [|e|x] eqn:Hj; intros [= <- <-].
    apply judge_Take in Hj as [He [= <-]]. exists s. auto.
Qed.

Lemma correct_windows_keeps s c m :
  correct_windows tz now s = (c, m) ->
  us_ID c = us_ID s /\ us_SubscriptionPlanID c = us_SubscriptionPlanID s /\
  us_RateMultiplierSnapshot c = us_RateMultiplierSnapshot s /\ us_UserID c = us_UserID s /\
  us_Status c = us_Status s /\ us_ExpiresAt c = us_ExpiresAt s.
Proof.
  unfold correct_windows.
  destruct (canAutomaticallyResetDailyAt tz s now);
    match goal with |- context [canAutomaticallyResetWeeklyAt ?x now] =>
      destruct (canAutomaticallyResetWeeklyAt x now) end;
    match goal with |- context [canAutomaticallyResetMonthlyAt ?x now] =>
      destruct (canAutomaticallyResetMonthlyAt x now) end; by intros [= <- _].
Qed.

(** A candidate that needs no maintenance is judged without touching the store. *)
Lemma try_candidate_settled s st :
  lc_needsMaintenance (ValidateAndCheckLimits tz now s) = false ->
  try_candidate svc s st =
    (Ok (judge (lc_err (ValidateAndCheckLimits tz now s))
           (Some (lc_sub (ValidateAndCheckLimits tz now s)))), st).
Proof. intros Hn. by rewrite try_candidate_eq, Hn. Qed.

(** The errors of the check all let the loop go on. *)
Lemma ValidateAndCheckLimits_unavailable s e :
  lc_err (ValidateAndCheckLimits tz now s) = Some e ->
  isSubscriptionCandidateUnavailableError e = true.
Proof.
  unfold ValidateAndCheckLimits.
  destruct (correct_windows tz now s) as [c m].
  repeat case_match; simpl; intros [= <-]; reflexivity.
Qed.

(** The check changes usages only. *)
Lemma check_keeps s :
  us_ID (lc_sub (check s)) = us_ID s /\
  us_SubscriptionPlanID (lc_sub (check s)) = us_SubscriptionPlanID s /\
  us_RateMultiplierSnapshot (lc_sub (check s)) = us_RateMultiplierSnapshot s /\
  us_UserID (lc_sub (check s)) = us_UserID s.
Proof.
  unfold ValidateAndCheckLimits.
  destruct (correct_windows tz now s) as [c m] eqn:E.
  destruct (correct_windows_keeps _ _ _ E) as (H1 & H2 & H3 & H4 & _). by repeat case_match.
Qed.

(** A limit above zero has not been used up. *)
Definition room (limit : option float64) (used : float64) : Prop :=
  ∀ l, limit = Some l -> fgtb l f0 = true -> fgeb used l = false.
Lemma limit_not_reached limit used : limit_reached limit used = false -> room limit used.
Proof. unfold limit_reached, hasUsageLimit. intros H l -> Hl. by rewrite Hl in H. Qed.

(** What a subscription that pays is like: neither expired nor suspended, not
    past its expiry, and with room in each of its three windows. *)
Definition usable_now (s : UserSubscription) : Prop :=
  us_Status s <> SubscriptionStatusExpired /\ us_Status s <> SubscriptionStatusSuspended /\
  t_ns now < t_ns (us_ExpiresAt s) /\
  room (us_DailyLimitUSDSnapshot s) (us_DailyUsageUSD s) /\
  room (us_WeeklyLimitUSDSnapshot s) (us_WeeklyUsageUSD s) /\
  room (us_MonthlyLimitUSDSnapshot s) (us_MonthlyUsageUSD s).

Lemma check_passes s : lc_err (check s) = None -> usable_now (lc_sub (check s)).
Proof.
  unfold ValidateAndCheckLimits.
  destruct (String.eqb_spec (us_Status s) SubscriptionStatusExpired) as [|H1]; [done|].
  destruct (String.eqb_spec (us_Status s) SubscriptionStatusSuspended) as [|H2]; [done|].
  destruct (after (us_ExpiresAt s) now) eqn:H3; [|done]. cbn [negb].
  destruct (correct_windows tz now s) as [c m] eqn:E.
  destruct (correct_windows_keeps _ _ _ E) as (_ & _ & _ & _ & Hst & Hex).
  destruct (limit_reached (dailyLimitUSD c) _) eqn:R1; [done|].
  destruct (limit_reached (weeklyLimitUSD c) _) eqn:R2; [done|].
  destruct (limit_reached (monthlyLimitUSD c) _) eqn:R3; [done|]. intros _. cbn [lc_sub].
  unfold usable_now. rewrite Hst, Hex. split_and!; try done; [|by apply limit_not_reached..].
  unfold after in H3. lia.
Qed.

Lemma candidate_loop_settled allowed cs st :
  (∀ c, c ∈ cs -> lc_needsMaintenance (check c) = false) ->
  candidate_loop svc allowed cs st =
  (Ok (match filterb (λ c, subscriptionUsesAllowedPlan c allowed
                           && negb (is_Some_b (lc_err (check c)))) cs with
       | [] => None
       | c :: _ => resolvedSubscriptionBillingAsset (lc_sub (check c))
       end), st).
Proof.
  induction cs as [|c cs IH]; intros Hn; simpl; [done|].
  assert (IH' := IH ltac:(intros; apply Hn; set_solver)).
  destruct (subscriptionUsesAllowedPlan c allowed); simpl; [|done].
  unfold mbind_ at 1. rewrite try_candidate_settled by (apply Hn; set_solver).
  destruct (lc_err (check c)) as [e|] eqn:He; simpl; [|done].
  by rewrite (ValidateAndCheckLimits_unavailable _ _ He).
Qed.

(** With every candidate up to date, the subscription that pays is the
    usable one that expires first among those of the plans the key may use,
    the choice reads the store without writing it, and none is chosen only
    when none is usable. *)
Theorem first_expiring_pays allowedPlanIDs cs st :
  (∀ c, c ∈ cs -> lc_needsMaintenance (check c) = false) ->
  let usable c := subscriptionUsesAllowedPlan c (makeAllowedPlanIDSet <$> allowedPlanIDs) = true
                  /\ lc_err (check c) = None in
  ∃ r, firstUsableSubscriptionAsset allowedPlanIDs cs svc st = (Ok r, st) /\
    match r with
    | None => ∀ c, c ∈ cs -> ~ usable c
    | Some a => ∃ c, c ∈ cs /\ usable c /\
        asset_Source a = BillingSourceSubscription /\ asset_SubscriptionID a = Some (us_ID c) /\
        asset_PlanID a = us_SubscriptionPlanID c /\
        ∀ c', c' ∈ cs -> usable c' -> t_ns (us_ExpiresAt c) <= t_ns (us_ExpiresAt c')
    end.
Proof.
  intros Hn usable. unfold firstUsableSubscriptionAsset.
  rewrite candidate_loop_settled
    by (intros c Hc; apply Hn; by apply elem_of_stable_sort in Hc).
  set (allowed := makeAllowedPlanIDSet <$> allowedPlanIDs) in *.
  set (p := λ c, subscriptionUsesAllowedPlan c allowed && negb (is_Some_b (lc_err (check c)))).
  assert (Hp : ∀ c, p c = true <-> usable c).
  { intros c. unfold p, usable. rewrite andb_true_iff. destruct (lc_err (check c)); simpl; intuition congruence. }
  pose proof (sortSubscriptionCandidates_sorted cs) as Hs.
  assert (Hel : ∀ c, c ∈ filterb p (sortSubscriptionCandidates cs) <-> c ∈ cs /\ usable c).
  { intros c. rewrite elem_of_filterb, Hp. unfold sortSubscriptionCandidates. by rewrite elem_of_stable_sort. }
  assert (Hf : StronglySorted (not_after candidate_asc) (filterb p (sortSubscriptionCandidates cs))).
  { clear Hel. induction Hs as [|x l _ IH Hx]; simpl; [constructor|].
    destruct (p x); [|done]. constructor; [done|]. rewrite Forall_forall in *.
    intros y Hy. apply Hx. by apply elem_of_filterb in Hy as [? _]. }
  eexists. split; [done|].
  destruct (filterb p (sortSubscriptionCandidates cs)) as [|c rest].
  - intros c Hc Hu. destruct (Hel c) as [_ Hx]. specialize (Hx (conj Hc Hu)). set_solver.
  - destruct (proj1 (Hel c) ltac:(set_solver)) as [Hc Hu].
    destruct (check_keeps c) as (Hid & Hplan & _ & _).
    destruct Hu as [Hplan' He]. assert (Hu : usable c) by done.
    unfold subscriptionUsesAllowedPlan in Hplan'.
    unfold resolvedSubscriptionBillingAsset. rewrite Hplan.
    destruct (us_SubscriptionPlanID c) as [pid|] eqn:Epl; [|done].
    exists c. cbn [asset_Source asset_SubscriptionID asset_PlanID]. rewrite Hid.
    do 5 (split; [done|]). intros c' Hc' Hu'.
    pose proof (proj2 (Hel c') (conj Hc' Hu')) as Hin.
    apply elem_of_cons in Hin as [->|Hin]; [lia|]. apply candidate_asc_expiry.
    inversion_clear Hf as [|? ? _ Hall]. rewrite Forall_forall in Hall. by apply Hall.
Qed.

(** *** The subscription that pays is the one that was listed *)

Context {Agrees : SubscriptionTerms repo}.
Local Abbreviation keeps := (keeps_terms rows_ok terms_at).
(** The invalidation of a cached subscription touches no row. *)
Context (Hcache : ∀ invalidate, billingCache = Some invalidate -> ∀ u id, keeps (invalidate u id)).

Lemma terms_reset due (reset : time -> M S unit) (apply : time -> UserSubscription) sub needs :
  (∀ w, keeps (reset w)) -> keeps (reset_window due reset apply sub needs).
Proof.
  intros Hr. destruct due; [|apply keeps_terms_mret].
  apply keeps_terms_bind; [done|]. intros _. apply keeps_terms_mret.
Qed.
Lemma keeps_invalidate u id : keeps (ignore_error (invalidateSubscriptionCache billingCache u id)).
Proof.
  apply keeps_terms_try; [|intros _; apply keeps_terms_mret]. unfold invalidateSubscriptionCache.
  destruct billingCache as [invalidate|]; [|apply keeps_terms_mret].
  destruct (0 <? id); [|apply keeps_terms_mret].
  apply keeps_terms_try; [by apply Hcache|]. intros [r|e]; [apply keeps_terms_mret|apply keeps_terms_mfail].
Qed.
Lemma keeps_CheckAndResetWindows sub : keeps (CheckAndResetWindows repo tz billingCache now sub).
Proof.
  unfold CheckAndResetWindows.
  apply keeps_terms_bind; [apply terms_reset; intros w; apply terms_ResetDaily|]. intros d.
  apply keeps_terms_bind; [apply terms_reset; intros w; apply terms_ResetWeekly|]. intros w.
  apply keeps_terms_bind; [apply terms_reset; intros ?; apply terms_ResetMonthly|]. intros m.
  apply keeps_terms_bind; [destruct m.2; [apply keeps_invalidate|apply keeps_terms_mret]|].
  intros _. apply keeps_terms_mret.
Qed.

(** Maintenance changes no terms, and comes back with the row it was given. *)
Lemma maintenance_terms sub st r st' :
  rows_ok st -> EnsureWindowMaintenance repo tz billingCache now now (Some sub) st = (r, st') ->
  (rows_ok st' /\ ∀ id, terms_at st' id = terms_at st id) /\
  (∀ s', r = Ok s' -> us_ID s' = us_ID sub /\ terms_at st (us_ID sub) = Some (terms_of s')).
Proof.
  intros Hst. unfold EnsureWindowMaintenance. unfold mbind_ at 1.
  set (activate := if negb (IsWindowActivated sub) then checkAndActivateWindowAt repo tz now sub else mret tt).
  assert (keeps activate) as H1.
  { unfold activate. destruct (negb _); [|apply keeps_terms_mret]. unfold checkAndActivateWindowAt.
    destruct (IsWindowActivated sub); [apply keeps_terms_mret|apply terms_ActivateWindows]. }
  destruct (H1 st Hst) as [Hok1 Ht1]. destruct (activate st) as [[[]|e] st1];
    [|intros [= <- <-]; split; [by split|done]]. cbn [snd] in *.
  unfold mbind_. destruct (keeps_CheckAndResetWindows sub st1 Hok1) as [Hok2 Ht2].
  destruct (CheckAndResetWindows repo tz billingCache now sub st1) as [[x|e] st2]; cbn [snd] in *;
    [|intros [= <- <-]; split; [split; [done|]; intros id; by rewrite Ht2, Ht1|done]].
  intros Hg. destruct (terms_GetByID (us_ID sub) st2 Hok2) as [Hok3 Ht3]. rewrite Hg in Hok3, Ht3. split.
  - split; [exact Hok3|]. intros id. cbn [snd] in Ht3. by rewrite Ht3, Ht2, Ht1.
  - intros s' ->. destruct (found_terms _ _ _ _ Hok2 Hg) as [Hid Ht]. split; [done|]. by rewrite <- Ht1, <- Ht2.
Qed.

(** A candidate that agrees with the rows of its id is taken with the same
    id, user, plan and multiplier. *)
Lemma try_candidate_terms s st t st' :
  rows_ok st -> terms_at st (us_ID s) = Some (terms_of s) -> try_candidate svc s st = (Ok t, st') ->
  (rows_ok st' /\ ∀ id, terms_at st' id = terms_at st id) /\
  (∀ sub, t = Take sub -> usable_now sub /\ us_ID sub = us_ID s /\ terms_of sub = terms_of s).
Proof.
  intros Hst Hs. rewrite try_candidate_eq. destruct (check_keeps s) as (Hid & Hplan & Hrate & Huser).
  assert (∀ s', judge (lc_err (check s')) (Some (lc_sub (check s'))) = t -> us_ID s' = us_ID s ->
    terms_of s' = terms_of s -> ∀ sub, t = Take sub ->
    usable_now sub /\ us_ID sub = us_ID s /\ terms_of sub = terms_of s) as Htake.
  { intros s' Hj Hi Ht sub ->. apply judge_Take in Hj as [He [= <-]]. split; [by apply check_passes|].
    destruct (check_keeps s') as (Hid' & Hplan' & Hrate' & Huser'). split; [by rewrite Hid'|].
    rewrite <- Ht. unfold terms_of. by rewrite Hplan', Hrate', Huser'. }
  destruct (lc_needsMaintenance (check s)).
  - destruct (EnsureWindowMaintenance _ _ _ _ _ _ st) as [r st1] eqn:Ee.
    destruct (maintenance_terms _ _ _ _ Hst Ee) as [Hkeep Hr].
    destruct r as [s'|e]; intros [= Hj <-]; (split; [exact Hkeep|]); [|by intros sub ->].
    destruct (Hr s' eq_refl) as [Hi Ht]. rewrite Hid in Hi, Ht. apply (Htake s'); [done|done|congruence].
  - intros [= Hj <-]. split; [done|]. by apply (Htake s).
Qed.

Lemma candidate_loop_terms allowed cs a st st' :
  rows_ok st -> (∀ c, c ∈ cs -> terms_at st (us_ID c) = Some (terms_of c)) ->
  candidate_loop svc allowed cs st = (Ok (Some a), st') ->
  ∃ c sub, c ∈ cs /\ subscriptionUsesAllowedPlan c allowed = true /\ usable_now sub /\
    us_ID sub = us_ID c /\ terms_of sub = terms_of c /\ resolvedSubscriptionBillingAsset sub = Some a.
Proof.
  revert st. induction cs as [|c cs IH]; intros st Hst Hcs; cbn [candidate_loop]; [done|].
  assert (∀ st1, rows_ok st1 -> (∀ id, terms_at st1 id = terms_at st id) ->
    candidate_loop svc allowed cs st1 = (Ok (Some a), st') ->
    ∃ c' sub, c' ∈ c :: cs /\ subscriptionUsesAllowedPlan c' allowed = true /\ usable_now sub /\
      us_ID sub = us_ID c' /\ terms_of sub = terms_of c' /\ resolvedSubscriptionBillingAsset sub = Some a) as Hnext.
  { intros st1 Hok Ht H. destruct (IH st1 Hok) as (c' & sub & Hin & Hrest); [|done|exists c', sub; split; [set_solver|done]].
    intros x Hx. rewrite Ht. apply Hcs. set_solver. }
  destruct (subscriptionUsesAllowedPlan c allowed) eqn:Ep; cbn [negb]; [|by apply (Hnext st)].
  unfold mbind_ at 1. destruct (try_candidate svc c st) as [[t|e] st1] eqn:Et; [|done].
  destruct (try_candidate_terms c st t st1 Hst (Hcs c ltac:(set_solver)) Et) as [[Hok Ht] Htake].
  destruct t as [|e|sub]; [by apply Hnext|done|]. intros [= Ha <-].
  destruct (Htake sub eq_refl) as (Hu & Hi & Hterms). exists c, sub. split; [set_solver|done].
Qed.

(** What an asset may be, given the key and the clock. *)
Definition asset_within (k : APIKey) (a : ResolvedBillingAsset) : Prop :=
  not_neg (asset_RateMultiplier a) /\
  ((asset_Source a = BillingSourceSubscription /\
    ∃ s plan, asset_Subscription a = Some s /\ asset_SubscriptionID a = Some (us_ID s) /\
      us_UserID s = key_UserID k /\
      us_SubscriptionPlanID s = Some plan /\ asset_PlanID a = Some plan /\
      (key_AllowAllSubscriptions k = true \/ plan ∈ key_AllowedSubscriptionPlanIDs k) /\
      asset_RateMultiplier a = nonNegativeMultiplier (us_RateMultiplierSnapshot s) /\
      usable_now s)
   \/
   (asset_Source a = BillingSourceBalance /\ asset_Subscription a = None /\
    key_AllowBalance k = true /\
    ∃ u, key_User k = Some u /\ fleb (user_Balance u) f0 = false)).

Lemma allowed_plan k s :
  subscriptionUsesAllowedPlan s (if key_AllowAllSubscriptions k then None
    else Some (makeAllowedPlanIDSet (key_AllowedSubscriptionPlanIDs k))) = true ->
  ∃ plan, us_SubscriptionPlanID s = Some plan /\
    (key_AllowAllSubscriptions k = true \/ plan ∈ key_AllowedSubscriptionPlanIDs k).
Proof.
  unfold subscriptionUsesAllowedPlan. destruct (us_SubscriptionPlanID s) as [plan|]; [|done].
  destruct (key_AllowAllSubscriptions k); [eauto|]. intros H%bool_decide_eq_true. exists plan. split; [done|].
  right. unfold makeAllowedPlanIDSet in H. apply elem_of_list_to_set, elem_of_filterb in H as [H _]. done.
Qed.

(** The candidates of either listing are subscriptions of the key's user. *)
Lemma resolve_candidates k st sa st1 :
  rows_ok st -> resolveSubscriptionBillingAsset k (Some svc) st = (Ok (Some sa), st1) ->
  ∃ cs st0, rows_ok st0 /\
    (∀ c, c ∈ cs -> us_UserID c = key_UserID k /\ terms_at st0 (us_ID c) = Some (terms_of c)) /\
    candidate_loop svc (if key_AllowAllSubscriptions k then None
      else Some (makeAllowedPlanIDSet (key_AllowedSubscriptionPlanIDs k))) cs st0 = (Ok (Some sa), st1).
Proof.
  intros Hst. unfold resolveSubscriptionBillingAsset. destruct (_ && _); [done|].
  cbn [sr_ListActiveSubscriptions sr_ListActiveSubscriptionsByPlanIDs service_resolver].
  unfold mtry, firstUsableSubscriptionAsset. destruct (key_AllowAllSubscriptions k).
  - unfold ListActiveSubscriptions. destruct (terms_ListActive (key_UserID k) st Hst) as [Hok Ht].
    destruct (repo_ListActiveByUserID repo _ st) as [[cs|e] st0] eqn:El;
      [|by destruct (isSubscriptionCandidateUnavailableError e)].
    intros H. exists (sortSubscriptionCandidates cs), st0. split; [exact Hok|]. split; [|exact H].
    intros c Hc%elem_of_stable_sort. cbn [snd] in Ht. rewrite Ht. by eapply listed_terms.
  - unfold ListActiveSubscriptionsByPlanIDs. cbv zeta. destruct (is_nil _); [done|].
    destruct planLister; cbn [negb]; [|done].
    set (ids := normalizeSubscriptionPlanIDs _). destruct (terms_ListPlans (key_UserID k) ids st Hst) as [Hok Ht].
    destruct (repo_ListActiveByUserIDAndPlanIDs repo _ _ st) as [[cs|e] st0] eqn:El;
      [|by destruct (isSubscriptionCandidateUnavailableError e)].
    intros H. exists (sortSubscriptionCandidates cs), st0. split; [exact Hok|]. split; [|exact H].
    intros c Hc%elem_of_stable_sort. cbn [snd] in Ht. rewrite Ht. by eapply listed_plan_terms.
Qed.

Lemma resolve_asset_within rate k skip st a st' :
  rows_ok st ->
  ResolveBillingAssetForRequest rate (Some k) (Some svc) skip st = (Ok (Some a), st') ->
  skip = false /\ asset_within k a.
Proof.
  intros Hst. unfold ResolveBillingAssetForRequest. destruct skip; [done|].
  unfold mbind_ at 1.
  destruct (resolveSubscriptionBillingAsset k (Some svc) st) as [[[sa|]|e] st1] eqn:Er; [| |done].
  - intros [= <- <-]. split; [done|].
    apply resolve_candidates in Er as (cs & st0 & Hok & Hcs & Hl); [|done].
    apply candidate_loop_terms in Hl as (c & sub & Hc & Hal & Hu & Hi & Ht & Ha); [|done|by intros c Hc; apply Hcs].
    destruct (Hcs c Hc) as [Huser _]. apply allowed_plan in Hal as (plan & Hplan & Hal).
    unfold terms_of in Ht. injection Ht as Hu' Hp' _. unfold resolvedSubscriptionBillingAsset in Ha.
    rewrite Hp', Hplan in Ha. injection Ha as <-.
    split; [apply nonNegativeMultiplier_not_neg|]. left. split; [done|].
    exists sub, plan. split_and!; try done; congruence.
  - unfold mlift, resolveBalanceBillingAsset.
    destruct (key_AllowBalance k) eqn:Eb; [|done].
    destruct (key_User k) as [u|] eqn:Eu; [|done].
    destruct (fleb (user_Balance u) f0) eqn:El; [done|].
    intros [= <- <-]. split; [done|].
    cbn [asset_RateMultiplier asset_Source asset_Subscription].
    split; [apply globalBalanceRate_not_neg|]. right. eauto 10.
Qed.

(** C15. An asset is only handed out within the key's permissions and the
    limits: nothing is billed when billing is skipped; the subscription that
    is handed out, window maintenance and reloading included, is one of the
    key's user, of a plan the key allows, with its own id, plan and multiplier
    in the asset, neither expired nor suspended, not past its expiry and with
    room in every window that has a limit; the balance is used only when the
    key allows it and is positive; and the multiplier is never below zero.
    The repository is asked to agree with itself about whose, of which plan
    and at which multiplier a subscription is ([SubscriptionTerms], which the
    table satisfies), and the cache not to touch its rows. *)
Theorem ResolveBillingAsset_sound rate k skip st a st' :
  rows_ok st ->
  ResolveBillingAssetForRequest rate (Some k) (Some svc) skip st = (Ok (Some a), st') ->
  skip = false /\ asset_within k a.
Proof. apply resolve_asset_within. Qed.

(** A candidate whose maintenance fails is passed over whatever the
    failure was: the pointer that comes back with an error is nil, and the
    loop takes a nil subscription for an unavailable one. *)
Theorem maintenance_failure_is_skipped s st e st1 :
  lc_needsMaintenance (check s) = true ->
  EnsureWindowMaintenance repo tz billingCache now now (Some (lc_sub (check s))) st = (Err e, st1) ->
  try_candidate svc s st = (Ok Skip, st1).
Proof. intros Hn He. by rewrite try_candidate_eq, Hn, He. Qed.

End ServiceLemmas.

(** ** Instances *)

From S2P Require Import SubscriptionProps.

Definition ex_key : APIKey := {|
  key_ID := 1; key_UserID := 3; key_Key := "sk-0123456789abcdef"; key_Name := "k";
  key_Status := StatusActive; key_IPWhitelist := []; key_IPBlacklist := [];
  key_User := Some {| user_ID := 3; user_Balance := f1 |};
  key_AllowedPlatformIDs := [1]; key_AllowedSubscriptionPlanIDs := [2];
  key_AllowAllSubscriptions := false; key_AllowBalance := true; key_CurrentConcurrency := 0;
  key_Quota := f0; key_QuotaUsed := f0; key_ExpiresAt := None; key_RateLimit5h := f0;
  key_RateLimit1d := f0; key_RateLimit7d := f0; key_Usage5h := f0; key_Usage1d := f0;
  key_Usage7d := f0; key_Window5hStart := None; key_Window1dStart := None;
  key_Window7dStart := None |}.

Definition ex_svc : SubscriptionResolver Table :=
  service_resolver (table_repo fadd) ex_zone None true ex_now.
Definition ex_later : UserSubscription :=
  set_ExpiresAt (set_weekly ex_sub (Some ex_now) f0) (time_add ex_start (60 * day_ns)).
Definition ex_sooner : UserSubscription := set_weekly ex_sub (Some ex_now) f1.

Lemma ex_table_ok : rows_ok (repo := table_repo fadd) ex_table.
Proof.
  intros id r. unfold ex_table. cbn [tb_rows].
  intros [<- <-]%lookup_singleton_Some. reflexivity.
Qed.

(** The weekly window of [ex_sub] has ended by [ex_now]: the subscription is
    renewed, passes the check and pays. *)
Lemma ResolveBillingAsset_sound_witness :
  ∃ a st', ResolveBillingAssetForRequest None (Some ex_key) (Some ex_svc) false ex_table
    = (Ok (Some a), st') /\ asset_Source a = BillingSourceSubscription /\
    asset_within ex_now ex_key a.
Proof.
  destruct (ResolveBillingAssetForRequest None (Some ex_key) (Some ex_svc) false ex_table)
    as [[[a|]|e] st'] eqn:E; [|vm_compute in E; discriminate E..].
  exists a, st'. split; [reflexivity|]. split.
  - pose proof (f_equal (λ r, match r.1 with Ok (Some a) => asset_Source a | _ => ""%string end) E)
      as Hs. cbn [fst] in Hs. rewrite <- Hs. vm_compute. reflexivity.
  - apply (ResolveBillingAsset_sound (table_repo fadd) ex_zone None true ex_now
             ltac:(done) None ex_key false ex_table a st' ex_table_ok E).
Defined.

Lemma first_expiring_pays_witness :
  ∃ a, firstUsableSubscriptionAsset (Some [2])
         [set_daily ex_later (Some (tz_StartOfDay ex_zone ex_now)) f0;
          set_daily ex_sooner (Some (tz_StartOfDay ex_zone ex_now)) f0] ex_svc ex_table
    = (Ok (Some a), ex_table) /\
    option_map (λ s, t_ns (us_ExpiresAt s)) (asset_Subscription a)
      = Some (t_ns (us_ExpiresAt ex_sooner)).
Proof.
  destruct (first_expiring_pays (table_repo fadd) ex_zone None true ex_now (Some [2])
    [set_daily ex_later (Some (tz_StartOfDay ex_zone ex_now)) f0;
     set_daily ex_sooner (Some (tz_StartOfDay ex_zone ex_now)) f0] ex_table) as (r & E & H).
  { intros c Hc. repeat (apply elem_of_cons in Hc as [->|Hc]; [vm_compute; reflexivity|]).
    by apply elem_of_nil in Hc. }
  pose proof (f_equal fst E) as E1.
  destruct r as [a|]; [|vm_compute in E1; discriminate E1].
  exists a. split; [exact E|].
  pose proof (f_equal (λ r, match r with
    | Ok (Some a) => option_map (λ s, t_ns (us_ExpiresAt s)) (asset_Subscription a)
    | _ => None end) E1) as E2. cbn [fst] in E2. rewrite <- E2. vm_compute. reflexivity.
Defined.

(** A repository that cannot write: the maintenance fails, and the candidate is
    passed over. *)
Definition ex_broken_repo : UserSubscriptionRepository Table := {|
  repo_Create := λ _, mfail (EPlain "db"); repo_GetByID := λ _, mfail (EPlain "db");
  repo_GetByIDIncludeDeleted := λ _, mfail (EPlain "db"); repo_Delete := λ _, mfail (EPlain "db");
  repo_Restore := λ _ _, mfail (EPlain "db"); repo_ListByUserID := λ _, mfail (EPlain "db");
  repo_ListActiveByUserID := λ _, mfail (EPlain "db");
  repo_ListActiveByUserIDAndPlanIDs := λ _ _, mfail (EPlain "db");
  repo_ExtendExpiry := λ _ _, mfail (EPlain "db"); repo_UpdateStatus := λ _ _, mfail (EPlain "db");
  repo_ActivateWindows := λ _ _ _, mfail (EPlain "db");
  repo_ResetUsageWindows := λ _ _ _ _ _ _, mfail (EPlain "db");
  repo_ResetDailyUsage := λ _ _ _, mfail (EPlain "db");
  repo_ResetWeeklyUsage := λ _ _ _, mfail (EPlain "db");
  repo_ResetMonthlyUsage := λ _ _ _, mfail (EPlain "db");
  repo_IncrementUsage := λ _ _, mfail (EPlain "db");
  repo_BatchUpdateExpiredStatus := mfail (EPlain "db") |}.

Lemma maintenance_failure_is_skipped_witness :
  try_candidate (service_resolver ex_broken_repo ex_zone None true ex_now) ex_sub ex_table
  = (Ok Skip, ex_table).
Proof.
  apply (maintenance_failure_is_skipped ex_broken_repo ex_zone None true ex_now ex_sub ex_table
           (EPlain "db") ex_table); vm_compute; reflexivity.
Defined.
