(* ===== verification/ProductCoreAdapter.v ===== *)
(** * The product core behind the gateway

    [service/product_core_adapter.go], [service/platform_asset_request.go],
    the scheduling scope of [service/platform_account_pool.go], the decision
    conversions of [service/gateway_runtime_bridge.go] and
    [PlatformService.ResolveModelCandidates]: the adapters that implement the
    product core's two ports with the platform rules and the asset resolver,
    and the translation of its errors.  [catalog_adapter_laws] discharges the
    interface the product core's theorems are proved against. *)

From S2P Require Import Prelude GoErrors GoTime GoStrings Float64 Subscription SubscriptionRepo SubscriptionService APIKeys AssetResolver.
From S2P Require PlatformModels ProductCore.

Definition ErrAPIKeyPlatformForbidden : error :=
  Forbidden "API_KEY_PLATFORM_FORBIDDEN" "api key is not authorized for the resolved platform".
Definition ErrPlatformEndpointUnsupported : error :=
  Forbidden "PLATFORM_ENDPOINT_UNSUPPORTED" "the resolved platform does not support this endpoint".

(** ** Errors *)

Definition mapServiceAssetError (err : error) : error :=
  if error_is err ErrNoUsableBillingSource then ProductCore.ErrNoBillingAsset
  else if error_is err ErrInsufficientBalance then ProductCore.ErrInsufficientBalance
  else if error_is err ErrDailyLimitExceeded then ProductCore.ErrDailyLimitExceeded
  else if error_is err ErrWeeklyLimitExceeded then ProductCore.ErrWeeklyLimitExceeded
  else if error_is err ErrMonthlyLimitExceeded then ProductCore.ErrMonthlyLimitExceeded
  else err.

Definition mapProductCoreError (err : error) : error :=
  if error_is err ProductCore.ErrModelUnavailable then PlatformModels.ErrPlatformModelNotFound
  else if error_is err ProductCore.ErrPlatformForbidden then ErrAPIKeyPlatformForbidden
  else if error_is err ProductCore.ErrPlatformAmbiguous
  then PlatformModels.ErrPlatformModelAmbiguous
  else if error_is err ProductCore.ErrEndpointUnsupported then ErrPlatformEndpointUnsupported
  else if error_is err ProductCore.ErrNoBillingAsset then ErrNoUsableBillingSource
  else if error_is err ProductCore.ErrInsufficientBalance then ErrInsufficientBalance
  else if error_is err ProductCore.ErrDailyLimitExceeded then ErrDailyLimitExceeded
  else if error_is err ProductCore.ErrWeeklyLimitExceeded then ErrWeeklyLimitExceeded
  else if error_is err ProductCore.ErrMonthlyLimitExceeded then ErrMonthlyLimitExceeded
  else err.

Section Adapter.
Context {UC : UnicodeCase}.

(** ** Scheduling scope *)

Record PlatformSchedulingScope := mk_scope {
  scope_PlatformID : Z;
  scope_PlatformCode : string;
  scope_AccountPlatform : string
}.

Definition normalizePlatformSchedulingScope (s : PlatformSchedulingScope)
  : PlatformSchedulingScope * bool :=
  let s := mk_scope (scope_PlatformID s) (ToLower (TrimSpace (scope_PlatformCode s)))
             (ToLower (TrimSpace (scope_AccountPlatform s))) in
  (s, (0 <? scope_PlatformID s) && negb (str_empty (scope_AccountPlatform s))).

Definition platformSchedulingCacheID (s : PlatformSchedulingScope) : option Z :=
  let '(n, ok) := normalizePlatformSchedulingScope s in
  if ok then Some (sub64 (sub64 0 (scope_PlatformID n)) 1) else None.

(** The platform and the adapter name of an account. *)
Definition platformSchedulingScopeMatchesAccount (s : PlatformSchedulingScope)
  (account : option (option Z * string)) : bool :=
  let '(n, ok) := normalizePlatformSchedulingScope s in
  match account with
  | Some (Some pid, platform) =>
    ok && (pid =? scope_PlatformID n)
    && EqualFold (TrimSpace platform) (scope_AccountPlatform n)
  | _ => false
  end.

Definition listPlatformPoolSchedulableAccounts {A}
  (lister : option (Z -> string -> result (list A))) (scope : PlatformSchedulingScope)
  : result (list A) :=
  let '(n, ok) := normalizePlatformSchedulingScope scope in
  if negb ok then Err (EWrap "%w: invalid platform scheduling scope" PlatformModels.ErrPlatformInvalid) else
  match lister with
  | None => Err (EWrap "%w: platform account pool is not configured" PlatformModels.ErrPlatformInvalid)
  | Some l => l (scope_PlatformID n) (scope_AccountPlatform n)
  end.

(** ** The catalog *)

(** [ResolveModelCandidates] of the platform service over the stored rules. *)
Definition ResolveModelCandidates (rules : result (list PlatformModels.PlatformModelRule))
  (requestedModel : string) : result (list (option PlatformModels.ResolvedPlatformModel)) :=
  match rules with
  | Err e => Err (EWrap "list platform model rules: %w" e)
  | Ok rules =>
    match PlatformModels.ListCandidates rules requestedModel with
    | Err e => Err e
    | Ok cs => Ok (map Some cs)
    end
  end.

Definition productPlatformFromResolved (r : PlatformModels.ResolvedPlatformModel)
  : ProductCore.Platform := {|
  ProductCore.pl_ID := PlatformModels.rp_PlatformID r;
  ProductCore.pl_Code := PlatformModels.rp_PlatformCode r;
  ProductCore.pl_AccountPlatform := PlatformModels.rp_AccountPlatform r;
  ProductCore.pl_RequestedModel := PlatformModels.rp_RequestedModel r;
  ProductCore.pl_UpstreamModel := PlatformModels.rp_UpstreamModel r;
  ProductCore.pl_EndpointCapabilities := PlatformModels.rp_EndpointCapabilities r;
  ProductCore.pl_MatchPriority := PlatformModels.rp_MatchPriority r |}.

Definition platformCatalogAdapter
  (resolver : string -> result (list (option PlatformModels.ResolvedPlatformModel)))
  : ProductCore.PlatformCatalog := {|
  ProductCore.ListModelCandidates := λ model,
    match resolver model with
    | Err e => if error_is e PlatformModels.ErrPlatformModelNotFound
               then Err ProductCore.ErrModelUnavailable else Err e
    | Ok resolved =>
      if is_nil resolved then Err ProductCore.ErrModelUnavailable else
      let platforms := map productPlatformFromResolved (ProductCore.somes resolved) in
      if is_nil platforms then Err ProductCore.ErrModelUnavailable
      else Ok (map Some platforms)
    end |}.

(** ** The asset selector *)

Section Selector.
Context {S : Type} (balanceRate : option float64).

(** The selector's state: the store and the subscription it remembers. *)
Definition requestAssetSelector (apiKey : APIKey) (subs : option (SubscriptionResolver S))
  : ProductCore.AssetSelector (S * option UserSubscription) := {|
  ProductCore.Select := λ st _ skipBilling,
    let '(r, st') := ResolveBillingAssetForRequest balanceRate (Some apiKey) subs skipBilling st.1 in
    match r with
    | Err e => (Err (mapServiceAssetError e), (st', st.2))
    | Ok None => (Ok None, (st', st.2))
    | Ok (Some a) =>
      (Ok (Some {| ProductCore.ba_Source := asset_Source a;
                   ProductCore.ba_SubscriptionID := asset_SubscriptionID a;
                   ProductCore.ba_PlanID := asset_PlanID a;
                   ProductCore.ba_RateMultiplier := asset_RateMultiplier a |}),
       (st', asset_Subscription a))
    end |}.

Definition productCoreAccessGrant (k : APIKey) : ProductCore.AccessGrant := {|
  ProductCore.grant_KeyID := key_ID k; ProductCore.grant_UserID := key_UserID k;
  ProductCore.grant_Balance := match key_User k with Some u => user_Balance u | None => f0 end;
  ProductCore.grant_PlatformIDs := key_AllowedPlatformIDs k;
  ProductCore.grant_SubscriptionPlanIDs := key_AllowedSubscriptionPlanIDs k;
  ProductCore.grant_AllowBalance := key_AllowBalance k |}.

Definition billingEndpointCapability (endpoint : string) : string :=
  let normalized := ToLower endpoint in
  if Contains normalized "/chat/completions" then "chat_completions"
  else if Contains normalized "/responses" then "responses" else "".

Definition productCoreRequest (model endpoint : string) (skipBilling : bool)
  : ProductCore.Request := {|
  ProductCore.req_Model := model;
  ProductCore.req_EndpointCapability := billingEndpointCapability endpoint;
  ProductCore.req_SkipBilling := skipBilling |}.

Definition validateProductCorePlatform (d : ProductCore.Decision) : result unit :=
  let p := ProductCore.dec_Platform d in
  let scope := mk_scope (ProductCore.pl_ID p) (ProductCore.pl_Code p)
                 (ProductCore.pl_AccountPlatform p) in
  if (normalizePlatformSchedulingScope scope).2 then Ok tt
  else Err (EWrap "%w: resolved platform has no account adapter" PlatformModels.ErrPlatformInvalid).

Definition UsesPlatformAssetPermissions (k : option APIKey) : bool :=
  match k with Some k => negb (is_nil (key_AllowedPlatformIDs k)) | None => false end.

Record PlatformAssetResolution := {
  par_Decision : ProductCore.Decision;
  par_Subscription : option UserSubscription
}.

Definition adapter_Resolve
  (resolver : string -> result (list (option PlatformModels.ResolvedPlatformModel)))
  (subs : option (SubscriptionResolver S)) (apiKey : option APIKey)
  (model endpoint : string) (skipBilling : bool) : M S PlatformAssetResolution := λ st,
  match apiKey with
  | None => (Err ErrAPIKeyPlatformForbidden, st)
  | Some k =>
    if negb (UsesPlatformAssetPermissions (Some k)) then (Err ErrAPIKeyPlatformForbidden, st) else
    let authorizer := {| ProductCore.auth_platforms := Some (platformCatalogAdapter resolver);
                         ProductCore.auth_assets := Some (requestAssetSelector k subs) |} in
    let '(r, (st', subscription)) :=
      ProductCore.Resolve (Some authorizer) (st, None) (productCoreAccessGrant k)
        (productCoreRequest model endpoint skipBilling) in
    match r with
    | Err e => (Err (mapProductCoreError e), st')
    | Ok d =>
      match validateProductCorePlatform d with
      | Err e => (Err e, st')
      | Ok _ => (Ok {| par_Decision := d; par_Subscription := subscription |}, st')
      end
    end
  end.

(** ** The request context *)

Record GatewayPlatformAssetContext := {
  gctx_Platform : PlatformModels.ResolvedPlatformModel;
  gctx_BillingAsset : option ResolvedBillingAsset;
  gctx_SchedulingScope : PlatformSchedulingScope
}.

Definition resolvedBillingAssetFromProduct (asset : option ProductCore.BillingAsset)
  (subscription : option UserSubscription) : option ResolvedBillingAsset :=
  match asset with
  | None => None
  | Some a => Some {|
      asset_Source := ProductCore.ba_Source a;
      asset_SubscriptionID := ProductCore.ba_SubscriptionID a;
      asset_PlanID := ProductCore.ba_PlanID a;
      asset_RateMultiplier := ProductCore.ba_RateMultiplier a;
      asset_Subscription := subscription |}
  end.

(** The priority and the rule identifier are not carried over. *)
Definition gatewayPlatformAssetContextFromDecision (d : ProductCore.Decision)
  (subscription : option UserSubscription) : GatewayPlatformAssetContext :=
  let p := ProductCore.dec_Platform d in {|
  gctx_Platform := {|
    PlatformModels.rp_PlatformID := ProductCore.pl_ID p;
    PlatformModels.rp_PlatformCode := ProductCore.pl_Code p;
    PlatformModels.rp_AccountPlatform := ProductCore.pl_AccountPlatform p;
    PlatformModels.rp_RequestedModel := ProductCore.pl_RequestedModel p;
    PlatformModels.rp_UpstreamModel := ProductCore.pl_UpstreamModel p;
    PlatformModels.rp_EndpointCapabilities := ProductCore.pl_EndpointCapabilities p;
    PlatformModels.rp_MatchPriority := 0; PlatformModels.rp_RuleID := 0 |};
  gctx_BillingAsset := resolvedBillingAssetFromProduct (ProductCore.dec_BillingAsset d) subscription;
  gctx_SchedulingScope := mk_scope (ProductCore.pl_ID p) (ProductCore.pl_Code p)
                            (ProductCore.pl_AccountPlatform p) |}.

Definition ResolvePlatformAssetRequest
  (resolver : string -> result (list (option PlatformModels.ResolvedPlatformModel)))
  (subs : option (SubscriptionResolver S)) (apiKey : option APIKey)
  (requestedModel endpoint : string) (skipBilling : bool) : M S GatewayPlatformAssetContext :=
  if negb (UsesPlatformAssetPermissions apiKey) then mfail ErrAPIKeyPlatformForbidden else
  let! r := adapter_Resolve resolver subs apiKey requestedModel endpoint skipBilling in
  mret (gatewayPlatformAssetContextFromDecision (par_Decision r) (par_Subscription r)).

(** [overridePlatformAssetBillingMultipliers] on the route of the context. *)
Definition overridePlatformAssetBillingMultipliers (route : option GatewayPlatformAssetContext)
  (token image video : float64) : float64 * float64 * float64 :=
  match route ≫= gctx_BillingAsset with
  | None => (token, image, video)
  | Some a => let m := nonNegativeMultiplier (asset_RateMultiplier a) in (m, m, m)
  end.

End Selector.

(** ** Laws *)

#[export] Instance catalog_adapter_laws rules :
  ProductCore.CatalogLaws (platformCatalogAdapter (ResolveModelCandidates rules)).
Proof.
  constructor. intros model cs. simpl. unfold ResolveModelCandidates.
  destruct rules as [rules|e]; [|by case_match].
  destruct (PlatformModels.ListCandidates rules model) as [l|e] eqn:E; [|by case_match].
  destruct (is_nil (map Some l)); [done|].
  destruct (is_nil _); [done|]. intros [= <-].
  rewrite ProductCore.somes_map_Some. unfold ProductCore.somes, ProductCore.ranked_platforms.
  change (omap id (map Some l)) with (ProductCore.somes (map Some l)).
  rewrite ProductCore.somes_map_Some.
  apply PlatformModels.ListCandidates_ranked in E. unfold PlatformModels.ranked in E.
  induction E as [|x l _ IH Hx]; simpl; constructor; [done|].
  apply Forall_forall. intros y Hy. apply list_elem_of_fmap in Hy as (z & -> & Hz).
  simpl. apply PlatformModels.not_after_priority.
  by apply (proj1 (Forall_forall _ _) Hx).
Qed.

(** ** Properties *)

(** The billing errors of the service the product core knows, in the order the
    code looks for them. *)
Definition asset_errors : list error :=
  [ErrNoUsableBillingSource; ErrInsufficientBalance; ErrDailyLimitExceeded;
   ErrWeeklyLimitExceeded; ErrMonthlyLimitExceeded].

(** The two translations undo each other: a billing error of the service,
    bare or wrapped, leaves the product core as the error it wraps, and any
    other error is not touched on the way in. *)
Theorem error_mapping_roundtrip err :
  mapProductCoreError (mapServiceAssetError err) =
  match List.find (error_is err) asset_errors with
  | Some s => s
  | None => mapProductCoreError err
  end.
Proof.
  unfold mapServiceAssetError, asset_errors. simpl.
  destruct (error_is err ErrNoUsableBillingSource); [vm_compute; reflexivity|].
  destruct (error_is err ErrInsufficientBalance); [vm_compute; reflexivity|].
  destruct (error_is err ErrDailyLimitExceeded); [vm_compute; reflexivity|].
  destruct (error_is err ErrWeeklyLimitExceeded); [vm_compute; reflexivity|].
  by destruct (error_is err ErrMonthlyLimitExceeded).
Qed.

Section EndToEnd.
Context {S : Type} (repo : UserSubscriptionRepository S) (tz : Location)
  (billingCache : option (Z -> Z -> M S unit)) (planLister : bool) (now : time).
Context {Agrees : SubscriptionTerms repo}
  (Hcache : ∀ invalidate, billingCache = Some invalidate ->
              ∀ u id, keeps_terms rows_ok terms_at (invalidate u id)).
Local Abbreviation svc := (service_resolver repo tz billingCache planLister now).

Lemma elem_of_somes {A} (x : A) (l : list (option A)) :
  x ∈ ProductCore.somes l <-> Some x ∈ l.
Proof.
  unfold ProductCore.somes. rewrite list_elem_of_omap. unfold id. split; [|eauto].
  intros (y & Hy & ->). done.
Qed.

(** The platforms of the catalog come from the rules. *)
Lemma catalog_platform rules model cs p :
  ProductCore.ListModelCandidates (platformCatalogAdapter (ResolveModelCandidates (Ok rules))) model
    = Ok cs -> Some p ∈ cs ->
  ∃ rule c, rule ∈ rules /\ PlatformModels.rule_candidate (TrimSpace model) rule = Some c /\
    p = productPlatformFromResolved c.
Proof.
  simpl. destruct (PlatformModels.ListCandidates rules model) as [l|e] eqn:E; [|by case_match].
  destruct (is_nil (map Some l)); [done|]. destruct (is_nil _); [done|]. intros [= <-] Hp.
  apply list_elem_of_fmap in Hp as (q & [= <-] & Hp).
  apply list_elem_of_fmap in Hp as (c & -> & Hc).
  apply elem_of_somes in Hc. apply list_elem_of_fmap in Hc as (c' & [= <-] & Hc).
  apply PlatformModels.ListCandidates_Ok in E as (-> & _ & _).
  rewrite elem_of_stable_sort in Hc.
  apply PlatformModels.elem_of_omap_candidates in Hc as (r & Hr & Ec). eauto.
Qed.

Lemma productcore_Resolve_Ok {T} (a : ProductCore.Authorizer T) st grant request d st' :
  ProductCore.Resolve (Some a) st grant request = (Ok d, st') ->
  ProductCore.route (Some a) grant request = Ok (ProductCore.dec_Platform d) /\
  ∃ sel, ProductCore.auth_assets a = Some sel /\
    ProductCore.Select sel st grant (ProductCore.req_SkipBilling request)
      = (Ok (ProductCore.dec_BillingAsset d), st') /\
    (ProductCore.dec_BillingAsset d = None -> ProductCore.req_SkipBilling request = true).
Proof.
  unfold ProductCore.Resolve.
  destruct (ProductCore.route (Some a) grant request) as [p|e]; [|done]. simpl.
  destruct (ProductCore.auth_assets a) as [sel|]; [|done].
  destruct (ProductCore.Select sel st grant (ProductCore.req_SkipBilling request))
    as [[[x|]|e] st1] eqn:Es; [| |done].
  - intros [= <- <-]. split; [done|]. exists sel. by rewrite Es.
  - destruct (ProductCore.req_SkipBilling request) eqn:Esk; [|done]. simpl.
    intros [= <- <-]. split; [done|]. exists sel. by rewrite Es.
Qed.

(** A request that gets through was routed by an enabled rule matching its
    model, to a platform the key is granted, that serves the endpoint and has a
    usable account adapter; unless billing is skipped it carries an asset
    within the key's permissions and the subscription's limits. *)
Theorem ResolvePlatformAssetRequest_sound rate rules k model endpoint skip st ctx st' :
  rows_ok st ->
  ResolvePlatformAssetRequest rate (ResolveModelCandidates (Ok rules)) (Some svc) (Some k)
    model endpoint skip st = (Ok ctx, st') ->
  (∃ rule c, rule ∈ rules /\ PlatformModels.rule_candidate (TrimSpace model) rule = Some c /\
     PlatformModels.rp_PlatformID (gctx_Platform ctx) = PlatformModels.rp_PlatformID c /\
     PlatformModels.rp_UpstreamModel (gctx_Platform ctx) = PlatformModels.rp_UpstreamModel c) /\
  PlatformModels.rp_PlatformID (gctx_Platform ctx) ∈ key_AllowedPlatformIDs k /\
  ProductCore.supportsEndpoint (PlatformModels.rp_EndpointCapabilities (gctx_Platform ctx))
    (billingEndpointCapability endpoint) = true /\
  (normalizePlatformSchedulingScope (gctx_SchedulingScope ctx)).2 = true /\
  match gctx_BillingAsset ctx with
  | None => skip = true
  | Some a => skip = false /\ asset_within now k a
  end.
Proof.
  intros Hst. unfold ResolvePlatformAssetRequest. destruct (UsesPlatformAssetPermissions (Some k)) eqn:Eu;
    [|done]. cbn [negb]. unfold mbind_ at 1, adapter_Resolve. rewrite Eu. cbn [negb].
  set (au := {| ProductCore.auth_platforms := _ |}).
  destruct (ProductCore.Resolve (Some au) (st, None) _ _) as [[d|e] [st1 sub]] eqn:Er; [|done].
  destruct (validateProductCorePlatform d) as [[]|e] eqn:Ev; [|done].
  unfold mret. intros [= <- <-]. cbn [par_Decision par_Subscription].
  apply productcore_Resolve_Ok in Er as (Hroute & sel & [= <-] & Hsel & Hskip).
  apply ProductCore.route_Ok in Hroute as (au' & cat & cs & [= <-] & [= <-] & Hl & _ & Hin & Hg & He).
  destruct (catalog_platform rules _ cs _ Hl Hin) as (rule & c & Hr & Hc & Hp).
  cbn [gctx_Platform gctx_BillingAsset gctx_SchedulingScope gatewayPlatformAssetContextFromDecision
       PlatformModels.rp_PlatformID PlatformModels.rp_UpstreamModel
       PlatformModels.rp_EndpointCapabilities].
  split; [exists rule, c; by rewrite Hp|]. split; [exact Hg|]. split; [exact He|].
  split.
  { unfold validateProductCorePlatform in Ev. by case_match. }
  clear -Hst Agrees Hcache Hsel Hskip. cbn [ProductCore.Select requestAssetSelector fst snd
    productCoreRequest ProductCore.req_SkipBilling] in Hsel.
  destruct (ResolveBillingAssetForRequest rate (Some k) (Some svc) skip st)
    as [[[a|]|e] st2] eqn:Ea.
  - injection Hsel as Hd <- <-. rewrite <- Hd in *. cbn.
    apply (resolve_asset_within repo tz billingCache planLister now Hcache) in Ea as [Hs Ha]; [|done]. by split.
  - injection Hsel as Hd <- <-. rewrite <- Hd in *. cbn. by apply Hskip.
  - done.
Qed.

End EndToEnd.
End Adapter.

(** ** An instance *)

From S2P Require Import SubscriptionProps.

Definition ex_rule : PlatformModels.PlatformModelRule := {|
  PlatformModels.rule_ID := 1; PlatformModels.rule_PlatformID := 1;
  PlatformModels.rule_PlatformCode := "main"; PlatformModels.rule_AccountPlatform := "openai";
  PlatformModels.rule_ModelPattern := "gpt-5*"; PlatformModels.rule_UpstreamModel := "";
  PlatformModels.rule_EndpointCapabilities := ["responses"%string];
  PlatformModels.rule_Enabled := true; PlatformModels.rule_CreatedAt := time_zero;
  PlatformModels.rule_UpdatedAt := time_zero |}.

Lemma ResolvePlatformAssetRequest_sound_witness :
  ∃ ctx st', ResolvePlatformAssetRequest (UC := ascii_only_case) None
      (ResolveModelCandidates (UC := ascii_only_case) (Ok [ex_rule])) (Some ex_svc) (Some ex_key)
      "GPT-5-mini" "/v1/responses" false ex_table = (Ok ctx, st') /\
    PlatformModels.rp_PlatformID (gctx_Platform ctx) ∈ key_AllowedPlatformIDs ex_key.
Proof.
  destruct (ResolvePlatformAssetRequest (UC := ascii_only_case) None
      (ResolveModelCandidates (UC := ascii_only_case) (Ok [ex_rule])) (Some ex_svc) (Some ex_key)
      "GPT-5-mini" "/v1/responses" false ex_table) as [[ctx|e] st'] eqn:E;
    [|vm_compute in E; discriminate E].
  exists ctx, st'. split; [reflexivity|].
  apply (ResolvePlatformAssetRequest_sound (UC := ascii_only_case) (table_repo fadd) ex_zone None
    true ex_now ltac:(done) None [ex_rule] ex_key "GPT-5-mini" "/v1/responses" false ex_table ctx st' ex_table_ok E).
Defined.
