(* ===== verification/GoText.v ===== *)
(** * Text: splitting, numbers, runes

    [strings.Split], [Join], [Fields], [ReplaceAll] and [CutPrefix] on byte
    strings, and [strconv.Atoi].  The separator of a split and the pattern of
    a replacement are never empty in the modelled code; the fuel of the loops
    is the length of the string, of which each round consumes a byte.

    [strconv.Itoa] and [FormatInt] are [pretty]; [Atoi] reads what they write.
    A string joined from parts that do not contain the separating byte splits
    into the same parts, which is what makes composed cache keys readable and
    hashed tuples unambiguous.

    [[]rune(s)] decodes UTF-8 as [unicode/utf8] does: a byte that starts no
    valid encoding becomes U+FFFD alone.  A rune is kept as the bytes that
    [string] encodes it to.  Also [encoding/hex]. *)

From Stdlib Require Import Ascii String.
From stdpp Require Import pretty.
From S2P Require Import Prelude GoStrings.

(** The first occurrence of [sep]: what precedes and what follows it. *)
Fixpoint cut_bytes (sep : bytes) (l : bytes) : option (bytes * bytes) :=
  match strip_prefix sep l with
  | Some r => Some ([], r)
  | None =>
    match l with
    | [] => None
    | c :: l' =>
      match cut_bytes sep l' with Some (a, b) => Some (c :: a, b) | None => None end
    end
  end.

Fixpoint split_bytes (fuel : nat) (sep l : bytes) : list bytes :=
  match fuel with
  | O => [l]
  | S fuel' =>
    match cut_bytes sep l with
    | None => [l]
    | Some (a, b) => a :: split_bytes fuel' sep b
    end
  end.
Definition Split (s sep : string) : list string :=
  map of_bytes (split_bytes (S (List.length (to_bytes s))) (to_bytes sep) (to_bytes s)).

Fixpoint join_bytes (sep : bytes) (ls : list bytes) : bytes :=
  match ls with
  | [] => []
  | [l] => l
  | l :: ls' => l ++ sep ++ join_bytes sep ls'
  end.
Definition Join (ls : list string) (sep : string) : string :=
  of_bytes (join_bytes (to_bytes sep) (map to_bytes ls)).

Definition ReplaceAll (s old new : string) : string :=
  of_bytes (join_bytes (to_bytes new)
    (split_bytes (S (List.length (to_bytes s))) (to_bytes old) (to_bytes s))).

(** The maximal runs of bytes between white space. *)
Fixpoint fields_bytes (fuel : nat) (cur : bytes) (l : bytes) : list bytes :=
  match fuel with
  | O => []
  | S fuel' =>
    match strip_any space_encodings l with
    | Some r => if is_nil cur then fields_bytes fuel' [] r
                else rev cur :: fields_bytes fuel' [] r
    | None =>
      match l with
      | [] => if is_nil cur then [] else [rev cur]
      | c :: r => fields_bytes fuel' (c :: cur) r
      end
    end
  end.
Definition Fields (s : string) : list string :=
  map of_bytes (fields_bytes (S (List.length (to_bytes s))) [] (to_bytes s)).

Definition CutPrefix (s p : string) : option string :=
  match strip_prefix (to_bytes p) (to_bytes s) with
  | Some r => Some (of_bytes r)
  | None => None
  end.

Definition last_string (l : list string) : string := List.last l ""%string.

(** ** [strconv.Atoi] *)

Definition digit_val (c : ascii) : option Z :=
  let n := byte_val c in
  if (48 <=? n) && (n <=? 57) then Some (n - 48) else None.
Fixpoint digits_val (acc : Z) (l : bytes) : option Z :=
  match l with
  | [] => Some acc
  | c :: l' => match digit_val c with Some d => digits_val (acc * 10 + d) l' | None => None end
  end.
(** An optional sign, at least one digit, and a value in the range of [int]. *)
Definition Atoi (s : string) : option Z :=
  let unsigned (neg : bool) (l : bytes) :=
    if is_nil l then None else
    match digits_val 0 l with
    | None => None
    | Some v => let v := if neg then - v else v in
                if (min_int64 <=? v) && (v <=? max_int64) then Some v else None
    end in
  match to_bytes s with
  | c :: l => if byte_val c =? 45 then unsigned true l
              else if byte_val c =? 43 then unsigned false l
              else unsigned false (c :: l)
  | [] => None
  end.

Lemma cut_bytes_Some sep l a b : cut_bytes sep l = Some (a, b) -> l = a ++ sep ++ b.
Proof.
  revert a b. induction l as [|c l IH]; intros a b; simpl.
  - destruct (strip_prefix sep []) as [r|] eqn:E; [|done].
    intros [= <- <-]. by apply strip_prefix_Some in E.
  - destruct (strip_prefix sep (c :: l)) as [r|] eqn:E.
    + intros [= <- <-]. by apply strip_prefix_Some in E.
    + destruct (cut_bytes sep l) as [[a' b']|]; [|done]. intros [= <- <-].
      simpl. f_equal. by apply IH.
Qed.

Lemma cut_bytes_None sep l : cut_bytes sep l = None -> contains_bytes l sep = false.
Proof.
  induction l as [|c l IH]; simpl; [by destruct (strip_prefix sep [])|].
  destruct (strip_prefix sep (c :: l)); [done|].
  destruct (cut_bytes sep l) as [[a b]|]; [done|]. intros _. by apply IH.
Qed.

(** Joining the parts of a split gives the string back. *)
Lemma join_split_bytes fuel sep l : join_bytes sep (split_bytes fuel sep l) = l.
Proof.
  revert l. induction fuel as [|fuel IH]; intros l; simpl; [done|].
  destruct (cut_bytes sep l) as [[a b]|] eqn:E; [|done].
  apply cut_bytes_Some in E. subst l. specialize (IH b).
  destruct (split_bytes fuel sep b) as [|x xs] eqn:Es; simpl in *.
  { destruct fuel; simpl in Es; [done|]. by destruct (cut_bytes sep b) as [[]|]. }
  by rewrite IH.
Qed.

Lemma join_split s sep : Join (Split s sep) sep = s.
Proof.
  unfold Join, Split. rewrite map_map.
  rewrite (map_ext _ id) by (intros; apply to_of_bytes). rewrite map_id.
  by rewrite join_split_bytes, of_to_bytes.
Qed.

(** ** Digits *)

Definition is_digit (c : ascii) : Prop := is_Some (digit_val c).

Lemma digit_char d : (d < 10)%N -> digit_val (pretty_N_char d) = Some (Z.of_N d).
Proof.
  intros H. assert (d = 0 ∨ d = 1 ∨ d = 2 ∨ d = 3 ∨ d = 4 ∨ d = 5 ∨ d = 6 ∨ d = 7 ∨ d = 8 ∨ d = 9)%N as Hd by lia.
  by repeat destruct Hd as [->|Hd]; subst.
Qed.

Lemma pretty_N_go_digits x s :
  ∃ ds, to_bytes (pretty_N_go x s) = ds ++ to_bytes s /\ Forall is_digit ds /\
    ((0 < x)%N -> ds ≠ []) /\ ∀ tail, digits_val 0 (ds ++ tail) = digits_val (Z.of_N x) tail.
Proof.
  revert s. induction (N.lt_wf_0 x) as [x _ IH]; intros s.
  destruct (decide (x = 0)%N) as [->|Hx].
  { exists []. rewrite pretty_N_go_0. split_and!; try done. }
  rewrite pretty_N_go_step by lia.
  destruct (IH (x `div` 10)%N ltac:(apply N.div_lt; lia) (String (pretty_N_char (x `mod` 10)) s))
    as (ds & Hb & Hd & _ & Hv).
  pose proof (digit_char (x `mod` 10)%N ltac:(apply N.mod_lt; lia)) as Hc.
  exists (ds ++ [pretty_N_char (x `mod` 10)]). split_and!.
  - rewrite Hb, <- app_assoc. done.
  - apply Forall_app. split; [done|]. constructor; [|done]. unfold is_digit. by rewrite Hc.
  - by destruct ds.
  - intros tail. rewrite <- app_assoc, Hv. cbn [app digits_val]. rewrite Hc. f_equal.
    rewrite (N.div_mod x 10) at 3 by lia. lia.
Qed.

Lemma pretty_N_digits (n : N) :
  Forall is_digit (to_bytes (pretty n)) /\ to_bytes (pretty n) ≠ [] /\
  digits_val 0 (to_bytes (pretty n)) = Some (Z.of_N n).
Proof.
  unfold pretty, pretty_N. case_decide as Hn.
  { subst n. split_and!; [|done..]. repeat constructor. by eexists. }
  destruct (pretty_N_go_digits n "") as (ds & -> & Hd & Hne & Hv). cbn [to_bytes].
  specialize (Hv []). rewrite !app_nil_r in *. split_and!; [done|apply Hne; lia|done].
Qed.

(** A sign or digits. *)
Definition is_numeral (c : ascii) : Prop := c = "-"%char \/ is_digit c.
Lemma pretty_Z_numeral (z : Z) : Forall is_numeral (to_bytes (pretty z)).
Proof.
  assert (∀ n : N, Forall is_numeral (to_bytes (pretty n))) as H.
  { intros n. eapply Forall_impl; [apply pretty_N_digits|]. by right. }
  destruct z as [|p|p].
  - apply (H 0%N).
  - apply (H (Npos p)).
  - change (to_bytes (pretty (Z.neg p))) with ("-"%char :: to_bytes (pretty (Npos p))).
    constructor; [by left|apply H].
Qed.

Lemma Atoi_pretty (z : Z) : min_int64 <= z <= max_int64 -> Atoi (pretty z) = Some z.
Proof.
  intros Hz. assert (∀ n : N, is_nil (to_bytes (pretty n)) = false) as Hne.
  { intros n. pose proof (pretty_N_digits n) as (_ & Hn & _). by destruct (to_bytes (pretty n)). }
  assert (∀ n : N, Z.of_N n <= max_int64 -> Atoi (pretty n) = Some (Z.of_N n)) as Hpos.
  { intros n Hn. unfold Atoi. specialize (Hne n). pose proof (pretty_N_digits n) as (Hd & _ & Hv).
    destruct (to_bytes (pretty n)) as [|c l]; [done|].
    apply Forall_cons in Hd as [Hc _]. unfold is_digit, digit_val in Hc.
    destruct ((48 <=? byte_val c) && (byte_val c <=? 57)) eqn:Hr; [|by destruct Hc].
    apply andb_true_iff in Hr as [Hr _]. apply Z.leb_le in Hr.
    rewrite (proj2 (Z.eqb_neq _ _)), (proj2 (Z.eqb_neq _ _)) by lia. cbn [is_nil]. rewrite Hv.
    unfold min_int64, max_int64 in *. rewrite (proj2 (Z.leb_le _ _)), (proj2 (Z.leb_le _ _)) by lia. done. }
  destruct z as [|p|p].
  - by apply (Hpos 0%N).
  - apply (Hpos (Npos p)). lia.
  - unfold Atoi. change (to_bytes (pretty (Z.neg p))) with ("-"%char :: to_bytes (pretty (Npos p))).
    cbn [byte_val]. change (byte_val "-" =? 45) with true. cbn iota. rewrite (Hne (Npos p)).
    pose proof (pretty_N_digits (Npos p)) as (_ & _ & ->). cbn iota beta.
    change (- Z.of_N (Npos p)) with (Z.neg p).
    rewrite (proj2 (Z.leb_le _ _)), (proj2 (Z.leb_le _ _)) by lia. done.
Qed.

(** ** Cutting at a byte *)

Definition without (c : ascii) (s : string) : Prop := Forall (.≠ c) (to_bytes s).
Definition byte_string (c : ascii) : string := String c EmptyString.

Lemma numeral_without c (z : Z) : ~ is_numeral c -> without c (pretty z).
Proof.
  intros Hc. eapply Forall_impl; [apply pretty_Z_numeral|]. intros x Hx ->. done.
Qed.

Lemma cut_bytes_at c a b : Forall (.≠ c) a -> cut_bytes [c] (a ++ c :: b) = Some (a, b).
Proof.
  induction 1 as [|x a Hx _ IH]; cbn.
  - by rewrite Ascii.eqb_refl.
  - destruct (Ascii.eqb_spec c x) as [->|_]; [done|]. by rewrite IH.
Qed.
Lemma cut_bytes_absent c l : Forall (.≠ c) l -> cut_bytes [c] l = None.
Proof.
  induction 1 as [|x a Hx _ IH]; cbn; [done|].
  destruct (Ascii.eqb_spec c x) as [->|_]; [done|]. by rewrite IH.
Qed.

Lemma to_bytes_app s t : to_bytes (s ++ t)%string = to_bytes s ++ to_bytes t.
Proof.
  induction s as [|c s IH]; [done|]. change (c :: to_bytes (s ++ t)%string = c :: (to_bytes s ++ to_bytes t)).
  by rewrite IH.
Qed.

(** The first parts agree when neither contains the byte that follows. *)
Lemma cut_unique c a a' b b' :
  without c a -> without c a' ->
  (a ++ byte_string c ++ b)%string = (a' ++ byte_string c ++ b')%string -> a = a' /\ b = b'.
Proof.
  intros Ha Ha' E. apply (f_equal to_bytes) in E. rewrite !to_bytes_app in E. cbn in E.
  pose proof (cut_bytes_at c _ (to_bytes b) Ha) as H. rewrite E, cut_bytes_at in H by done.
  injection H as H1 H2. apply (f_equal of_bytes) in H1, H2. by rewrite !of_to_bytes in *.
Qed.

Lemma split_join_bytes c ls fuel :
  ls ≠ [] -> Forall (Forall (.≠ c)) ls -> (length (join_bytes [c] ls) < fuel)%nat ->
  split_bytes fuel [c] (join_bytes [c] ls) = ls.
Proof.
  intros Hne H. revert fuel. induction H as [|l ls Hl Hls IH]; intros fuel Hf; [done|].
  destruct fuel as [|fuel]; [lia|]. destruct ls as [|l' ls].
  - cbn in *. by rewrite cut_bytes_absent.
  - cbn [join_bytes app] in *. cbn [split_bytes].
    rewrite cut_bytes_at by done. f_equal. apply IH; [done|].
    rewrite length_app in Hf. cbn in Hf. cbn. lia.
Qed.

(** A string joined from parts splits into them. *)
Lemma split_join c ls :
  ls ≠ [] -> Forall (without c) ls -> Split (Join ls (byte_string c)) (byte_string c) = ls.
Proof.
  intros Hne H. unfold Split, Join. rewrite to_of_bytes. cbn [byte_string to_bytes].
  change (to_bytes (byte_string c)) with [c].
  rewrite split_join_bytes; [|by destruct ls|by apply List.Forall_map|lia].
  rewrite map_map. rewrite (map_ext _ id) by (intros; apply of_to_bytes). apply map_id.
Qed.

(** ** UTF-8 *)

Definition rune_error : bytes := map byte_of [239; 191; 189]%N.

Definition byte_within (lo hi : N) (c : ascii) : bool :=
  ((lo <=? N_of_ascii c) && (N_of_ascii c <=? hi))%N.

(** Length of the encoding a first byte announces, and the range of the second
    byte. *)
Definition rune_class (c : ascii) : option (nat * N * N) :=
  if byte_within 0 127 c then Some (1%nat, 0%N, 255%N)
  else if byte_within 194 223 c then Some (2%nat, 128%N, 191%N)
  else if byte_within 224 224 c then Some (3%nat, 160%N, 191%N)
  else if byte_within 237 237 c then Some (3%nat, 128%N, 159%N)
  else if byte_within 225 239 c then Some (3%nat, 128%N, 191%N)
  else if byte_within 240 240 c then Some (4%nat, 144%N, 191%N)
  else if byte_within 241 243 c then Some (4%nat, 128%N, 191%N)
  else if byte_within 244 244 c then Some (4%nat, 128%N, 143%N)
  else None.

(** The length of the valid encoding that starts the bytes. *)
Definition rune_len (l : bytes) : option nat :=
  match l with
  | [] => None
  | c :: rest =>
      match rune_class c with
      | None => None
      | Some (size, lo, hi) =>
          let tail := take (size - 1) rest in
          if (List.length tail =? size - 1)%nat
             && match tail with [] => true | d :: _ => byte_within lo hi d end
             && forallb (byte_within 128 191) tail
          then Some size else None
      end
  end.

Fixpoint runes_loop (fuel : nat) (l : bytes) : list bytes :=
  match fuel, l with
  | S fuel, _ :: rest =>
      match rune_len l with
      | Some k => take k l :: runes_loop fuel (drop k l)
      | None => rune_error :: runes_loop fuel rest
      end
  | _, _ => []
  end.
(** Every rune takes a byte at least. *)
Definition runes (s : string) : list bytes := runes_loop (String.length s) (to_bytes s).
Definition of_runes (rs : list bytes) : string := of_bytes (List.concat rs).

Definition valid_rune (r : bytes) : Prop := rune_len r = Some (List.length r).

Lemma rune_len_bounds l k : rune_len l = Some k -> (0 < k <= List.length l)%nat.
Proof.
  destruct l as [|c rest]; simpl; [done|].
  destruct (rune_class c) as [[[size lo] hi]|] eqn:E; [|done].
  destruct (Nat.eqb_spec (List.length (take (size - 1) rest)) (size - 1)) as [Hl|]; [|done].
  destruct (_ && _); [|done]. intros [= <-]. rewrite length_take in Hl.
  assert (0 < size)%nat; [|lia].
  unfold rune_class in E. repeat case_match; simplify_eq; lia.
Qed.

(** Only the announced bytes matter. *)
Lemma rune_len_app l k rest : rune_len l = Some k -> rune_len (l ++ rest) = Some k.
Proof.
  intros H. pose proof (rune_len_bounds _ _ H) as Hk. revert H. destruct l as [|c l]; [done|]. simpl.
  destruct (rune_class c) as [[[size lo] hi]|]; [|done].
  destruct (Nat.eqb_spec (List.length (take (size - 1) l)) (size - 1)) as [Hl|Hl]; [|done].
  rewrite length_take in Hl. rewrite take_app_le by lia.
  by rewrite (proj2 (Nat.eqb_eq (List.length (take (size - 1) l)) _)) by (rewrite length_take; lia).
Qed.

Lemma rune_len_take l k : rune_len l = Some k -> valid_rune (take k l).
Proof.
  intros H. pose proof (rune_len_bounds _ _ H) as Hk. unfold valid_rune. revert H.
  destruct l as [|c l]; [done|]. destruct k as [|k]; [lia|]. simpl.
  destruct (rune_class c) as [[[size lo] hi]|]; [|done].
  destruct (Nat.eqb_spec (List.length (take (size - 1) l)) (size - 1)) as [Hl|]; [|done].
  cbn [andb]. destruct (_ && _) eqn:E; [|done]. intros [= ->].
  replace (S k - 1)%nat with k in * by lia. rewrite take_take, Nat.min_id.
  rewrite (proj2 (Nat.eqb_eq _ _)) by done. cbn [andb]. rewrite E. f_equal. simpl in Hk. rewrite Hl. done.
Qed.

Lemma rune_error_valid : valid_rune rune_error.
Proof. vm_compute. reflexivity. Qed.

Lemma runes_loop_valid fuel l : Forall valid_rune (runes_loop fuel l).
Proof.
  revert l. induction fuel as [|fuel IH]; intros l; simpl; [constructor|].
  destruct l as [|c rest]; [constructor|]. destruct (rune_len (c :: rest)) as [k|] eqn:E.
  - constructor; [by apply rune_len_take|apply IH].
  - constructor; [apply rune_error_valid|apply IH].
Qed.

(** Encoding valid runes and decoding them gives them back. *)
Lemma runes_loop_concat rs : Forall valid_rune rs ->
  ∀ fuel, (List.length (List.concat rs) <= fuel)%nat -> runes_loop fuel (List.concat rs) = rs.
Proof.
  induction 1 as [|r rs Hr _ IH]; intros fuel Hf; simpl; [by destruct fuel|].
  pose proof (rune_len_bounds _ _ Hr) as Hb. simpl in Hf. rewrite length_app in Hf.
  destruct fuel as [|fuel]; [lia|]. destruct r as [|c r]; [simpl in Hb; lia|].
  pose proof (rune_len_app _ _ (List.concat rs) Hr) as Hl. cbn [runes_loop app] in *.
  rewrite Hl. rewrite app_comm_cons, take_app_length, drop_app_length. f_equal.
  apply IH. simpl in Hf. lia.
Qed.

Lemma runes_of_runes rs : Forall valid_rune rs -> runes (of_runes rs) = rs.
Proof.
  intros H. unfold runes, of_runes. rewrite to_of_bytes. apply runes_loop_concat; [done|].
  unfold of_bytes. clear. induction (List.concat rs); simpl; lia.
Qed.

(** ** [trimRunes] ([service/content_moderation.go]) *)

Definition trimRunes (text : string) (max : Z) : string :=
  if max <=? 0 then EmptyString
  else if Z.of_nat (List.length (runes text)) <=? max then text
  else of_runes (take (Z.to_nat max) (runes text)).

Lemma runes_empty : runes EmptyString = [].
Proof. done. Qed.

Lemma trimRunes_count text max : Z.of_nat (List.length (runes (trimRunes text max))) <= Z.max 0 max.
Proof.
  unfold trimRunes. destruct (Z.leb_spec max 0); [rewrite runes_empty; simpl; lia|].
  destruct (Z.leb_spec (Z.of_nat (List.length (runes text))) max); [lia|].
  rewrite runes_of_runes by (apply Forall_take, runes_loop_valid). rewrite length_take. lia.
Qed.

Lemma trimRunes_idem text max : trimRunes (trimRunes text max) max = trimRunes text max.
Proof.
  pose proof (trimRunes_count text max) as H. unfold trimRunes at 1.
  destruct (Z.leb_spec max 0) as [H0|H0].
  - unfold trimRunes. by destruct (Z.leb_spec max 0); [|lia].
  - by destruct (Z.leb_spec (Z.of_nat (List.length (runes (trimRunes text max)))) max); [|lia].
Qed.

(** ** [encoding/hex] *)

Definition hex_val (c : ascii) : option Z :=
  let v := byte_val c in
  if (48 <=? v) && (v <=? 57) then Some (v - 48)
  else if (97 <=? v) && (v <=? 102) then Some (v - 87)
  else if (65 <=? v) && (v <=? 70) then Some (v - 55)
  else None.

(** [hex.DecodeString]; [None] is its error. *)
Fixpoint hex_decode (l : bytes) : option (list Z) :=
  match l with
  | [] => Some []
  | a :: b :: rest =>
      x ← hex_val a; y ← hex_val b; out ← hex_decode rest; Some (16 * x + y :: out)
  | [_] => None
  end.

Definition hex_digit (v : Z) : ascii := byte_of (Z.to_N (if v <? 10 then 48 + v else 87 + v)).
Definition hex_encode (l : list Z) : string :=
  of_bytes (List.concat (map (λ b, [hex_digit (b / 16); hex_digit (b mod 16)]) l)).

Example runes_mixed : List.length (runes "a界b"%string) = 3%nat.
Proof. vm_compute. reflexivity. Qed.
