(* ===== verification/SchedulerOutbox.v ===== *)
(** * The scheduler outbox

    [repository/scheduler_outbox_repo.go]: changes of accounts and platforms
    are rows of a table that the snapshot worker reads from a watermark on.
    A pending row of a deduplicated event carries a unique key; an equal event
    is then not inserted again, and reading a row releases its key.

    An identifier is drawn from the sequence when the statement runs, also when
    the insertion then meets a conflict; the row is visible from the commit of
    its transaction.  [OBegin] and [OCommit] keep the two apart, because rows
    of concurrent transactions become visible in any order; a statement that
    meets the key of an uncommitted row waits, it is not a step. *)

From stdpp Require Import pretty.
From S2P Require Import Prelude GoErrors GoTime.

Definition SchedulerOutboxEventAccountChanged : string := "account_changed".
Definition SchedulerOutboxEventAccountPlatformChanged : string := "account_platform_changed".
Definition SchedulerOutboxEventAccountBulkChanged : string := "account_bulk_changed".
Definition SchedulerOutboxEventAccountLastUsed : string := "account_last_used".
Definition SchedulerOutboxEventPlatformChanged : string := "platform_changed".
Definition SchedulerOutboxEventFullRebuild : string := "full_rebuild".

(** The payload is the encoded JSON. *)
Record SchedulerOutboxEvent := {
  ev_ID : Z;
  ev_EventType : string;
  ev_AccountID : option Z;
  ev_PlatformID : option Z;
  ev_Payload : option string;
  ev_CreatedAt : time
}.

Record OutboxRow := { row_event : SchedulerOutboxEvent; row_dedup_key : option string }.

(** The rows that are visible, the rows of transactions that are still open,
    the next number of the sequence and the clock. *)
Record Outbox := {
  ob_rows : list OutboxRow;
  ob_open : list OutboxRow;
  ob_next : Z;
  ob_now : time
}.

Definition row_ID (r : OutboxRow) : Z := ev_ID (row_event r).
Definition row_id_less (a b : OutboxRow) : bool := row_ID a <? row_ID b.

(** ** Writing *)

Definition schedulerOutboxEventSupportsDedup (eventType : string) : bool :=
  String.eqb eventType SchedulerOutboxEventAccountChanged
  || String.eqb eventType SchedulerOutboxEventPlatformChanged
  || String.eqb eventType SchedulerOutboxEventFullRebuild.

Section Outbox.
(** SHA-256 in hexadecimal. *)
Context (sha256_hex : string -> string).

Definition nul : string := String Ascii.zero EmptyString.
Definition id_text (id : option Z) : string :=
  match id with Some n => pretty n | None => EmptyString end.
Definition schedulerOutboxDedupKey (eventType : string) (accountID platformID : option Z)
  (payloadJSON : option string) : string :=
  ("scheduler_outbox:" ++ sha256_hex
    (eventType ++ nul ++ id_text accountID ++ nul ++ id_text platformID ++ nul
     ++ default EmptyString payloadJSON))%string.

Definition dedup_key_for (eventType : string) (accountID platformID : option Z)
  (payload : option string) : option string :=
  if schedulerOutboxEventSupportsDedup eventType
  then Some (schedulerOutboxDedupKey eventType accountID platformID payload) else None.

Definition has_key (key : option string) (r : OutboxRow) : bool :=
  match key, row_dedup_key r with
  | Some k, Some k' => String.eqb k k'
  | _, _ => false
  end.

(** The statement, in a transaction that stays open: [None] while it waits. *)
Definition outbox_begin (eventType : string) (accountID platformID : option Z)
  (payload : option string) (ob : Outbox) : option Outbox :=
  let key := dedup_key_for eventType accountID platformID payload in
  let id := ob_next ob in
  let row := {| row_event := {| ev_ID := id; ev_EventType := eventType; ev_AccountID := accountID;
                                ev_PlatformID := platformID; ev_Payload := payload;
                                ev_CreatedAt := ob_now ob |};
                row_dedup_key := key |} in
  if existsb (has_key key) (ob_rows ob)
  then Some {| ob_rows := ob_rows ob; ob_open := ob_open ob; ob_next := id + 1; ob_now := ob_now ob |}
  else if existsb (has_key key) (ob_open ob) then None
  else Some {| ob_rows := ob_rows ob; ob_open := ob_open ob ++ [row]; ob_next := id + 1;
               ob_now := ob_now ob |}.

Definition outbox_commit (id : Z) (ob : Outbox) : Outbox :=
  {| ob_rows := ob_rows ob ++ filterb (λ r, row_ID r =? id) (ob_open ob);
     ob_open := filterb (λ r, negb (row_ID r =? id)) (ob_open ob);
     ob_next := ob_next ob; ob_now := ob_now ob |}.

(** The statement in a transaction of its own. *)
Definition enqueueSchedulerOutbox (eventType : string) (accountID platformID : option Z)
  (payload : option string) (ob : Outbox) : option Outbox :=
  outbox_commit (ob_next ob) <$> outbox_begin eventType accountID platformID payload ob.

(** ** Reading *)

Definition rows_after (afterID : Z) (ob : Outbox) : list OutboxRow :=
  stable_sort row_id_less (filterb (λ r, afterID <? row_ID r) (ob_rows ob)).

Definition release_key (ids : list Z) (r : OutboxRow) : OutboxRow :=
  if mem_Z (row_ID r) ids then Build_OutboxRow (row_event r) None else r.

Definition ListAfterAndReleaseDedup (afterID limit : Z) (ob : Outbox)
  : list SchedulerOutboxEvent * Outbox :=
  let limit := if limit <=? 0 then 100 else limit in
  let selected := take (Z.to_nat limit) (rows_after afterID ob) in
  (map row_event selected,
   {| ob_rows := map (release_key (map row_ID selected)) (ob_rows ob);
      ob_open := ob_open ob; ob_next := ob_next ob; ob_now := ob_now ob |}).

Definition FirstCreatedAtAfter (afterID : Z) (ob : Outbox) : option time :=
  ev_CreatedAt ∘ row_event <$> head (rows_after afterID ob).

Definition MaxID (ob : Outbox) : Z :=
  match map row_ID (ob_rows ob) with [] => 0 | i :: l => foldl Z.max i l end.

Definition schedulerOutboxDefaultCleanSize : Z := 5000.

(** Rows at or below the watermark that are older than ten seconds; the count
    of the deleted rows. *)
Definition DeleteConsumedUpTo (watermark limit : Z) (ob : Outbox) : Z * Outbox :=
  if watermark <=? 0 then (0, ob) else
  let limit := if limit <=? 0 then schedulerOutboxDefaultCleanSize else limit in
  let old r := (row_ID r <=? watermark)
               && before (ev_CreatedAt (row_event r)) (time_add (ob_now ob) (- (10 * second))) in
  let doomed := map row_ID (take (Z.to_nat limit) (stable_sort row_id_less (filterb old (ob_rows ob)))) in
  (Z.of_nat (length doomed),
   {| ob_rows := filterb (λ r, negb (mem_Z (row_ID r) doomed)) (ob_rows ob);
      ob_open := ob_open ob; ob_next := ob_next ob; ob_now := ob_now ob |}).

End Outbox.
