(* ===== verification/OpenAIModels.v ===== *)
(** * OpenAI model names

    [service/openai_model_alias.go] and the model table of
    [service/openai_codex_transform.go]: the spellings a client may use for a
    GPT-5 or Codex model, brought to the name prices are kept under. *)

From Stdlib Require Import Ascii.
From S2P Require Import Prelude GoStrings GoText.

Definition codexModelMap : list (string * string) := [
  ("gpt-5.6-sol", "gpt-5.6-sol"); ("gpt-5.6-terra", "gpt-5.6-terra");
  ("gpt-5.6-luna", "gpt-5.6-luna"); ("gpt-5.5", "gpt-5.5"); ("gpt-5.5-pro", "gpt-5.5-pro");
  ("codex-auto-review", "codex-auto-review"); ("gpt-5.4", "gpt-5.4");
  ("gpt-5.4-mini", "gpt-5.4-mini"); ("gpt-5.4-none", "gpt-5.4"); ("gpt-5.4-low", "gpt-5.4");
  ("gpt-5.4-medium", "gpt-5.4"); ("gpt-5.4-high", "gpt-5.4"); ("gpt-5.4-xhigh", "gpt-5.4");
  ("gpt-5.4-chat-latest", "gpt-5.4"); ("gpt-5.3", "gpt-5.3-codex");
  ("gpt-5.3-none", "gpt-5.3-codex"); ("gpt-5.3-low", "gpt-5.3-codex");
  ("gpt-5.3-medium", "gpt-5.3-codex"); ("gpt-5.3-high", "gpt-5.3-codex");
  ("gpt-5.3-xhigh", "gpt-5.3-codex"); ("gpt-5.3-codex", "gpt-5.3-codex");
  ("gpt-5.3-codex-spark", "gpt-5.3-codex-spark"); ("gpt-5.3-codex-low", "gpt-5.3-codex");
  ("gpt-5.3-codex-medium", "gpt-5.3-codex"); ("gpt-5.3-codex-high", "gpt-5.3-codex");
  ("gpt-5.3-codex-xhigh", "gpt-5.3-codex"); ("gpt-5.2", "gpt-5.2"); ("gpt-5.2-none", "gpt-5.2");
  ("gpt-5.2-low", "gpt-5.2"); ("gpt-5.2-medium", "gpt-5.2"); ("gpt-5.2-high", "gpt-5.2");
  ("gpt-5.2-xhigh", "gpt-5.2"); ("gpt-5", "gpt-5.4"); ("gpt-5-mini", "gpt-5.4");
  ("gpt-5-nano", "gpt-5.4"); ("gpt-5.1", "gpt-5.4"); ("gpt-5.1-codex", "gpt-5.3-codex");
  ("gpt-5.1-codex-max", "gpt-5.3-codex"); ("gpt-5.1-codex-mini", "gpt-5.3-codex");
  ("gpt-5.2-codex", "gpt-5.2"); ("codex-mini-latest", "gpt-5.3-codex");
  ("gpt-5-codex", "gpt-5.3-codex")]%string.

Definition codexVersionModelPrefixes : list (string * string) := [
  ("gpt-5.6-sol", "gpt-5.6-sol"); ("gpt-5.6-terra", "gpt-5.6-terra");
  ("gpt-5.6-luna", "gpt-5.6-luna"); ("gpt-5.3-codex-spark", "gpt-5.3-codex-spark");
  ("gpt-5.3-codex", "gpt-5.3-codex"); ("gpt-5.4-mini", "gpt-5.4-mini");
  ("gpt-5.4-nano", "gpt-5.4-nano"); ("gpt-5.5-pro", "gpt-5.5-pro"); ("gpt-5.5", "gpt-5.5");
  ("gpt-5.4", "gpt-5.4"); ("gpt-5.2", "gpt-5.2")]%string.

Fixpoint assoc (key : string) (l : list (string * string)) : option string :=
  match l with
  | [] => None
  | (k, v) :: l' => if String.eqb key k then Some v else assoc key l'
  end.

Section Models.
Context {UC : UnicodeCase}.

Definition codexModelLookupKey (modelID : string) : string :=
  let modelID := TrimSpace modelID in
  if str_empty modelID then "" else
  let modelID := if Contains modelID "/" then last_string (Split modelID "/") else modelID in
  ToLower (Join (Fields modelID) "-").

Definition getNormalizedCodexModel (modelID : string) : string :=
  let key := codexModelLookupKey modelID in
  if str_empty key then "" else default ""%string (assoc key codexModelMap).

Definition isCodexDateSuffix (suffix : string) : bool :=
  match Split suffix "-" with
  | [y; m; d] =>
    (str_len y =? 4) && (str_len m =? 2) && (str_len d =? 2)
    && forallb (λ p, forallb (λ c, match digit_val c with Some _ => true | None => false end)
                       (to_bytes p)) [y; m; d]
  | _ => false
  end.

Definition isKnownCodexModelSuffix (suffix : string) : bool :=
  existsb (String.eqb suffix) ["none"; "minimal"; "low"; "medium"; "high"; "xhigh"]%string
  || isCodexDateSuffix suffix.

Definition lastOpenAIModelSegment (model : string) : string :=
  let model := TrimSpace model in
  if str_empty model then "" else
  let model := if Contains model "/" then last_string (Split model "/") else model in
  TrimSpace model.

(** The loop [for strings.Contains(s, "--")]: each round drops a byte. *)
Fixpoint collapse_dashes (fuel : nat) (s : string) : string :=
  match fuel with
  | O => s
  | S fuel' => if Contains s "--" then collapse_dashes fuel' (ReplaceAll s "--" "-") else s
  end.

Definition alias_replacements : list (string * string) := [
  ("gpt-5.4mini", "gpt-5.4-mini"); ("gpt-5.4nano", "gpt-5.4-nano");
  ("gpt-5.3-codexspark", "gpt-5.3-codex-spark"); ("gpt-5.3codexspark", "gpt-5.3-codex-spark");
  ("gpt-5.3codex", "gpt-5.3-codex")]%string.

Definition canonicalizeOpenAIModelAliasSpelling (model : string) : string :=
  let model := ToLower (lastOpenAIModelSegment model) in
  if str_empty model then "" else
  let normalized := ReplaceAll model "_" "-" in
  let normalized := Join (Fields normalized) "-" in
  let normalized := collapse_dashes (List.length (to_bytes normalized)) normalized in
  let normalized := if HasPrefix normalized "gpt5"
                    then ("gpt-5" ++ TrimPrefix normalized "gpt5")%string else normalized in
  if negb (HasPrefix normalized "gpt-") && negb (Contains normalized "codex") then "" else
  foldl (λ s r, ReplaceAll s r.1 r.2) normalized alias_replacements.

(** The cases of the switch on substrings, in order. *)
Definition contains_cases : list (string * string) := [
  ("gpt-5.5-pro", "gpt-5.5-pro"); ("gpt-5.5", "gpt-5.5"); ("gpt-5.4-mini", "gpt-5.4-mini");
  ("gpt-5.4-nano", "gpt-5.4-nano"); ("gpt-5.4", "gpt-5.4"); ("gpt-5.2", "gpt-5.2");
  ("gpt-5.3-codex-spark", "gpt-5.3-codex-spark"); ("gpt-5.3-codex", "gpt-5.3-codex");
  ("gpt-5.3", "gpt-5.3-codex"); ("codex", "gpt-5.3-codex"); ("gpt-5", "gpt-5.4")]%string.
Fixpoint first_contained (s : string) (cases : list (string * string)) : string :=
  match cases with
  | [] => ""
  | (sub, result) :: rest => if Contains s sub then result else first_contained s rest
  end.

Definition normalizeKnownOpenAICodexModel (model : string) : string :=
  let normalized := canonicalizeOpenAIModelAliasSpelling model in
  if str_empty normalized then "" else
  let mapped := getNormalizedCodexModel normalized in
  if negb (str_empty mapped) then mapped else
  let compact := if HasSuffix normalized "-openai-compact"
                 then getNormalizedCodexModel (TrimSuffix normalized "-openai-compact") else ""%string in
  if negb (str_empty compact) then compact else
  if Contains normalized "gpt-5.6-sol" then "gpt-5.6-sol"
  else if Contains normalized "gpt-5.6-terra" then "gpt-5.6-terra"
  else if Contains normalized "gpt-5.6-luna" then "gpt-5.6-luna"
  else if String.eqb normalized "gpt-5.6" then "gpt-5.6-sol"
  else if HasPrefix normalized "gpt-5.6-" then
    let suffix := TrimPrefix normalized "gpt-5.6-" in
    if String.eqb suffix "max" || isKnownCodexModelSuffix suffix then "gpt-5.6-sol" else ""
  else first_contained normalized contains_cases.

Definition isOpenAIGPT56Model (model : string) : bool :=
  let normalized := canonicalizeOpenAIModelAliasSpelling model in
  if String.eqb normalized "gpt-5.6" then true else
  if match CutPrefix normalized "gpt-5.6-" with
     | Some suffix => String.eqb suffix "max" || isKnownCodexModelSuffix suffix
     | None => false end then true else
  existsb (λ p, String.eqb normalized p || HasPrefix normalized (p ++ "-"))
    ["gpt-5.6-sol"; "gpt-5.6-terra"; "gpt-5.6-luna"]%string.

Definition usesOpenAILegacyLongContextPricing (normalized : string) : bool :=
  existsb (String.eqb normalized) ["gpt-5.4"; "gpt-5.5"; "gpt-5.5-pro"]%string.

(** ** Models that generate images, and the models of codex *)

Definition IsGPTImageGenerationModel (model : string) : bool := HasPrefix (ToLower (TrimSpace model)) "gpt-image-".
Definition isGrokImageGenerationModel (model : string) : bool :=
  let model := ToLower (TrimSpace model) in
  String.eqb model "grok-imagine" || String.eqb model "grok-imagine-edit" || HasPrefix model "grok-imagine-image".
Definition isOpenAIImageGenerationModel (model : string) : bool :=
  IsGPTImageGenerationModel model || isGrokImageGenerationModel model.

Fixpoint version_prefix (key : string) (items : list (string * string)) : option string :=
  match items with
  | [] => None
  | (prefix, target) :: rest =>
    if String.eqb key prefix then Some target else
    match CutPrefix key (prefix ++ "-") with
    | Some suffix => if isKnownCodexModelSuffix suffix then Some target else version_prefix key rest
    | None => version_prefix key rest
    end
  end.

Definition normalizeKnownCodexModel (model : string) : option string :=
  let model := TrimSpace model in
  if str_empty model then None else
  if isOpenAIImageGenerationModel model then Some model else
  let modelID := lastOpenAIModelSegment model in
  let normalized := canonicalizeOpenAIModelAliasSpelling modelID in
  let modelID := if negb (str_empty normalized) then normalized else modelID in
  let mapped := normalizeKnownOpenAICodexModel modelID in
  if negb (str_empty mapped) then Some mapped else
  let key := codexModelLookupKey modelID in
  if str_empty key then None else
  let mapped := getNormalizedCodexModel key in
  if negb (str_empty mapped) then Some mapped else
  version_prefix key codexVersionModelPrefixes.

Definition normalizeCodexModel (model : string) : string :=
  let model := TrimSpace model in
  if str_empty model then "gpt-5.4" else default model (normalizeKnownCodexModel model).

(** ** Candidate names of a usage record *)

Definition add_candidate (acc : gset string * list string) (candidate : string)
  : gset string * list string :=
  let candidate := TrimSpace candidate in
  if str_empty candidate then acc else
  let key := ToLower candidate in
  if decide (key ∈ acc.1) then acc else ({[key]} ∪ acc.1, acc.2 ++ [candidate]).

Definition appendUsageBillingModelCandidate (acc : gset string * list string) (model : string)
  : gset string * list string :=
  let trimmed := TrimSpace model in
  if str_empty trimmed then acc else
  let acc := add_candidate acc trimmed in
  let acc := add_candidate acc (canonicalizeOpenAIModelAliasSpelling trimmed) in
  add_candidate acc (normalizeKnownOpenAICodexModel trimmed).

Definition usageBillingModelCandidates (primary : string) (alternates : list string)
  : list string :=
  (foldl appendUsageBillingModelCandidate
     (appendUsageBillingModelCandidate (∅, []) primary) alternates).2.

Fixpoint firstUsageBillingModel (candidates : list string) : string :=
  match candidates with
  | [] => ""
  | c :: rest => let t := TrimSpace c in if str_empty t then firstUsageBillingModel rest else t
  end.

End Models.

#[local] Existing Instance ascii_only_case.
Example codex_ex1 : normalizeKnownOpenAICodexModel "openai/GPT5.4 mini" = "gpt-5.4-mini"%string.
Proof. vm_compute. reflexivity. Qed.
Example codex_ex2 : normalizeKnownOpenAICodexModel "gpt-5.6-2026-01-02" = "gpt-5.6-sol"%string.
Proof. vm_compute. reflexivity. Qed.
Example codex_ex3 : normalizeKnownOpenAICodexModel "gpt-4o" = ""%string.
Proof. vm_compute. reflexivity. Qed.

(** ** The loop over dashes ends *)

Lemma length_join_bytes sep ls :
  ls ≠ [] ->
  (length (join_bytes sep ls) + length sep = list_sum (map length ls) + length ls * length sep)%nat.
Proof.
  intros Hne. induction ls as [|l [|l' ls] IH]; [done|cbn; lia|].
  change (join_bytes sep (l :: l' :: ls)) with (l ++ sep ++ join_bytes sep (l' :: ls)).
  rewrite !length_app. specialize (IH ltac:(done)). cbn [map list_sum foldr length] in *. lia.
Qed.

Lemma split_bytes_two fuel sep l :
  contains_bytes l sep = true -> (2 <= length (split_bytes (S fuel) sep l))%nat.
Proof.
  intros Hc. cbn [split_bytes]. destruct (cut_bytes sep l) as [[a b]|] eqn:E.
  - cbn [length]. destruct fuel as [|fuel]; cbn; [lia|].
    destruct (cut_bytes sep b) as [[]|]; cbn; lia.
  - apply cut_bytes_None in E. congruence.
Qed.

Lemma length_ReplaceAll_dashes s :
  Contains s "--" = true -> (length (to_bytes (ReplaceAll s "--" "-")) < length (to_bytes s))%nat.
Proof.
  intros Hc. unfold ReplaceAll. rewrite to_of_bytes.
  pose proof (split_bytes_two (length (to_bytes s)) (to_bytes "--") (to_bytes s) Hc) as Hk.
  pose proof (join_split_bytes (S (length (to_bytes s))) (to_bytes "--") (to_bytes s)) as Hj.
  set (parts := split_bytes _ _ _) in *.
  assert (parts ≠ []) as Hne by (intros E; rewrite E in Hk; cbn in Hk; lia).
  pose proof (length_join_bytes (to_bytes "--") parts Hne) as H1.
  pose proof (length_join_bytes (to_bytes "-") parts Hne) as H2.
  rewrite Hj in H1. cbn [to_bytes length] in H1, H2.
  change (length (to_bytes "--")) with 2%nat in H1. change (length (to_bytes "-")) with 1%nat in H2. lia.
Qed.

Lemma collapse_dashes_ends fuel s :
  (length (to_bytes s) <= fuel)%nat -> Contains (collapse_dashes fuel s) "--" = false.
Proof.
  revert s. induction fuel as [|fuel IH]; intros s Hf; cbn [collapse_dashes].
  - assert (to_bytes s = []) as E by (apply length_zero_iff_nil; lia). unfold Contains. by rewrite E.
  - destruct (Contains s "--") eqn:Hc; [|done]. apply IH.
    pose proof (length_ReplaceAll_dashes s Hc). lia.
Qed.

Lemma collapse_dashes_fuel fuel fuel' s :
  (length (to_bytes s) <= fuel)%nat -> (length (to_bytes s) <= fuel')%nat ->
  collapse_dashes fuel s = collapse_dashes fuel' s.
Proof.
  revert fuel' s. induction fuel as [|fuel IH]; intros fuel' s Hf Hf'.
  - assert (Contains s "--" = false) as E.
    { apply (collapse_dashes_ends 0 s Hf). }
    destruct fuel'; cbn [collapse_dashes]; [done|]. by rewrite E.
  - cbn [collapse_dashes]. destruct (Contains s "--") eqn:Hc.
    + pose proof (length_ReplaceAll_dashes s Hc) as Hl. destruct fuel' as [|fuel']; [lia|].
      cbn [collapse_dashes]. rewrite Hc. apply IH; lia.
    + destruct fuel' as [|fuel']; cbn [collapse_dashes]; [done|]. by rewrite Hc.
Qed.

(** The loop that collapses dashes in a model name ends: each round shortens
    the name, so at most as many rounds as the name has bytes are taken, more
    rounds change nothing, and the name it leaves has no two dashes in a row. *)
Theorem collapse_dashes_terminates s extra :
  let fuel := length (to_bytes s) in
  Contains (collapse_dashes fuel s) "--" = false /\
  collapse_dashes (fuel + extra) s = collapse_dashes fuel s.
Proof. split; [apply collapse_dashes_ends|apply collapse_dashes_fuel]; lia. Qed.
