(* ===== verification/Account.v ===== *)
(** * Upstream accounts: scheduling state and quotas

    [service/account.go]: the account record, the readers of its JSON column
    [extra], the quota windows of an API-key account (total, daily, weekly;
    rolling, or reset at a fixed local hour), the validation and the
    normalisation of their configuration, and whether an account can be
    scheduled.  [time.Now()] is an argument.  The caches of derived values in
    the Go struct are left out.

    [GoHost] holds what the code asks of its host: the time zone database, the
    texts of RFC 3339 and [strconv.ParseFloat]. *)

From S2P Require Import Prelude GoErrors Float64 GoTime GoStrings.

(** ** Decoded JSON: the values behind [any] *)

Inductive json :=
  | JNull
  | JBool (b : bool)
  | JNumber (x : float64)
  | JString (s : string)
  | JArray (l : list json)
  | JObject (fields : list (string * json)).

Abbreviation jmap := (gmap string json).

Definition json_string (v : json) : option string :=
  match v with JString s => Some s | _ => None end.
Definition json_bool (v : json) : option bool :=
  match v with JBool b => Some b | _ => None end.
Definition is_null (v : json) : bool := match v with JNull => true | _ => false end.

(** [s, _ := m[key].(string)] *)
Definition get_string (m : jmap) (key : string) : string :=
  default EmptyString (m !! key ≫= json_string).

Class GoHost := {
  LoadLocation : string -> option Location;
  ParseRFC3339Nano : string -> option time;
  ParseRFC3339 : string -> option time;
  FormatRFC3339 : time -> string;
  ParseFloat : string -> option float64
}.

Record Account := {
  acc_ID : Z;
  acc_Name : string;
  acc_Notes : option string;
  acc_Platform : string;
  acc_PlatformID : option Z;
  acc_PlatformName : string;
  acc_Type : string;
  acc_Credentials : jmap;
  acc_Extra : jmap;
  acc_ProxyID : option Z;
  acc_ProxyFallbackOriginID : option Z;
  acc_ProxyFallbackOriginName : option string;
  acc_Concurrency : Z;
  acc_Priority : Z;
  acc_RateMultiplier : option float64;
  acc_LoadFactor : option Z;
  acc_Status : string;
  acc_ErrorMessage : string;
  acc_LastUsedAt : option time;
  acc_ExpiresAt : option time;
  acc_AutoPauseOnExpired : bool;
  acc_CreatedAt : time;
  acc_UpdatedAt : time;
  acc_Schedulable : bool;
  acc_RateLimitedAt : option time;
  acc_RateLimitResetAt : option time;
  acc_OverloadUntil : option time;
  acc_TempUnschedulableUntil : option time;
  acc_TempUnschedulableReason : string;
  acc_SessionWindowStart : option time;
  acc_SessionWindowEnd : option time;
  acc_SessionWindowStatus : string;
  acc_ParentAccountID : option Z;
  acc_QuotaDimension : string
}.

Definition AccountTypeAPIKey : string := "apikey".
Definition AccountTypeBedrock : string := "bedrock".
Definition StatusActive : string := "active".

(** ** Fixed reset points

    The local day of an instant starts the count; the reset of that day is at
    the configured hour of its local clock. *)

Definition day_reset (hour_ : Z) (tz : Location) (at_ : time) : time :=
  go_date tz (local_ns (time_in at_ tz) / day_ns * day_ns + hour_ * hour).

(** [t.Weekday()]: 1970-01-01 was a Thursday. *)
Definition Weekday (t : time) : Z := (local_ns t / day_ns + 4) mod 7.

Definition nextFixedDailyReset (hour_ : Z) (tz : Location) (after_ : time) : time :=
  let today := day_reset hour_ tz after_ in
  if negb (before after_ today) then add_days today 1 else today.

Definition lastFixedDailyReset (hour_ : Z) (tz : Location) (now : time) : time :=
  let today := day_reset hour_ tz now in
  if before now today then add_days today (-1) else today.

(** The remainder of Go truncates; for days of the week its operand is never
    negative. *)
Definition nextFixedWeeklyReset (day hour_ : Z) (tz : Location) (after_ : time) : time :=
  let todayReset := day_reset hour_ tz after_ in
  let daysForward := Z.rem (add64 (sub64 day (Weekday todayReset)) 7) 7 in
  let daysForward := if (daysForward =? 0) && negb (before after_ todayReset) then 7 else daysForward in
  add_days todayReset daysForward.

Definition lastFixedWeeklyReset (day hour_ : Z) (tz : Location) (now : time) : time :=
  let todayReset := day_reset hour_ tz now in
  let daysBack := Z.rem (add64 (sub64 (Weekday todayReset) day) 7) 7 in
  let daysBack := if (daysBack =? 0) && before now todayReset then 7 else daysBack in
  add_days todayReset (- daysBack).

Definition isPeriodExpired (now periodStart : time) (dur : Z) : bool :=
  if is_zero periodStart then true else dur <=? time_sub now periodStart.

Section Account.
Context {Host : GoHost} {UC : UnicodeCase}.

(** ** Readers of [extra] *)

Definition parseExtraFloat64 (v : json) : float64 :=
  match v with
  | JNumber x => x
  | JString s => default f0 (ParseFloat (TrimSpace s))
  | _ => f0
  end.
Definition parseExtraTime (v : json) : time :=
  match v with
  | JString s =>
    match ParseRFC3339Nano s with
    | Some t => t
    | None => default time_zero (ParseRFC3339 s)
    end
  | _ => time_zero
  end.

Definition getExtraFloat64 (extra : jmap) (key : string) : float64 :=
  match extra !! key with Some v => parseExtraFloat64 v | None => f0 end.
Definition getExtraTime (extra : jmap) (key : string) : time :=
  match extra !! key with Some v => parseExtraTime v | None => time_zero end.
Definition getExtraString (extra : jmap) (key : string) : string := get_string extra key.
Definition getExtraInt (extra : jmap) (key : string) : Z :=
  match extra !! key with Some v => f64_to_int64 (parseExtraFloat64 v) | None => 0 end.

(** The index expression [extra[key]] of a missing key is nil. *)
Definition index (extra : jmap) (key : string) : json := default JNull (extra !! key).

Definition GetQuotaLimit (a : Account) := getExtraFloat64 (acc_Extra a) "quota_limit".
Definition GetQuotaUsed (a : Account) := getExtraFloat64 (acc_Extra a) "quota_used".
Definition GetQuotaDailyLimit (a : Account) := getExtraFloat64 (acc_Extra a) "quota_daily_limit".
Definition GetQuotaDailyUsed (a : Account) := getExtraFloat64 (acc_Extra a) "quota_daily_used".
Definition GetQuotaWeeklyLimit (a : Account) := getExtraFloat64 (acc_Extra a) "quota_weekly_limit".
Definition GetQuotaWeeklyUsed (a : Account) := getExtraFloat64 (acc_Extra a) "quota_weekly_used".

Definition reset_mode (extra : jmap) (key : string) : string :=
  if String.eqb (getExtraString extra key) "fixed" then "fixed"%string else "rolling"%string.
Definition GetQuotaDailyResetMode (a : Account) := reset_mode (acc_Extra a) "quota_daily_reset_mode".
Definition GetQuotaWeeklyResetMode (a : Account) := reset_mode (acc_Extra a) "quota_weekly_reset_mode".
Definition GetQuotaDailyResetHour (a : Account) := getExtraInt (acc_Extra a) "quota_daily_reset_hour".
Definition GetQuotaWeeklyResetDay (a : Account) : Z :=
  match acc_Extra a !! "quota_weekly_reset_day"%string with
  | Some _ => getExtraInt (acc_Extra a) "quota_weekly_reset_day"
  | None => 1
  end.
Definition GetQuotaWeeklyResetHour (a : Account) := getExtraInt (acc_Extra a) "quota_weekly_reset_hour".
Definition GetQuotaResetTimezone (a : Account) : string :=
  let tz := getExtraString (acc_Extra a) "quota_reset_timezone" in
  if str_empty tz then "UTC"%string else tz.

(** ** Quota windows *)

Definition account_zone (a : Account) : Location := default UTC (LoadLocation (GetQuotaResetTimezone a)).

Definition isFixedDailyPeriodExpired (now : time) (a : Account) (periodStart : time) : bool :=
  if is_zero periodStart then true else
  before periodStart (lastFixedDailyReset (GetQuotaDailyResetHour a) (account_zone a) now).
Definition isFixedWeeklyPeriodExpired (now : time) (a : Account) (periodStart : time) : bool :=
  if is_zero periodStart then true else
  before periodStart
    (lastFixedWeeklyReset (GetQuotaWeeklyResetDay a) (GetQuotaWeeklyResetHour a) (account_zone a) now).

Definition IsDailyQuotaPeriodExpired (now : time) (a : Account) : bool :=
  let start := getExtraTime (acc_Extra a) "quota_daily_start" in
  if String.eqb (GetQuotaDailyResetMode a) "fixed" then isFixedDailyPeriodExpired now a start
  else isPeriodExpired now start (24 * hour).
Definition IsWeeklyQuotaPeriodExpired (now : time) (a : Account) : bool :=
  let start := getExtraTime (acc_Extra a) "quota_weekly_start" in
  if String.eqb (GetQuotaWeeklyResetMode a) "fixed" then isFixedWeeklyPeriodExpired now a start
  else isPeriodExpired now start (7 * 24 * hour).

Definition HasAnyQuotaLimit (a : Account) : bool :=
  fgtb (GetQuotaLimit a) f0 || fgtb (GetQuotaDailyLimit a) f0 || fgtb (GetQuotaWeeklyLimit a) f0.

(** The code repeats the two expiry tests inline. *)
Definition IsQuotaExceeded (now : time) (a : Account) : bool :=
  (fgtb (GetQuotaLimit a) f0 && fgeb (GetQuotaUsed a) (GetQuotaLimit a))
  || (fgtb (GetQuotaDailyLimit a) f0
      && (negb (IsDailyQuotaPeriodExpired now a) && fgeb (GetQuotaDailyUsed a) (GetQuotaDailyLimit a)))
  || (fgtb (GetQuotaWeeklyLimit a) f0
      && (negb (IsWeeklyQuotaPeriodExpired now a) && fgeb (GetQuotaWeeklyUsed a) (GetQuotaWeeklyLimit a))).

(** ** Scheduling *)

Definition acc_IsActive (a : Account) : bool := String.eqb (acc_Status a) StatusActive.
Definition IsAPIKeyOrBedrock (a : Account) : bool :=
  String.eqb (acc_Type a) AccountTypeAPIKey || String.eqb (acc_Type a) AccountTypeBedrock.
Definition still_before (now : time) (until : option time) : bool :=
  match until with Some t => before now t | None => false end.

Definition IsSchedulable (now : time) (a : Account) : bool :=
  if negb (acc_IsActive a) || negb (acc_Schedulable a) then false else
  if acc_AutoPauseOnExpired a
     && match acc_ExpiresAt a with Some t => negb (before now t) | None => false end then false else
  if still_before now (acc_OverloadUntil a) then false else
  if still_before now (acc_RateLimitResetAt a) then false else
  if still_before now (acc_TempUnschedulableUntil a) then false else
  negb (IsAPIKeyOrBedrock a && IsQuotaExceeded now a).

(** ** Editing the configuration *)

Definition extra_zone_name (extra : jmap) : string :=
  let name := get_string extra "quota_reset_timezone" in
  if str_empty name then "UTC"%string else name.
Definition extra_zone (extra : jmap) : Location := default UTC (LoadLocation (extra_zone_name extra)).

Definition extra_int (extra : jmap) (key : string) : Z := f64_to_int64 (parseExtraFloat64 (index extra key)).
Definition clamp_hour (h : Z) : Z := if (h <? 0) || (23 <? h) then 0 else h.
Definition configured_day (extra : jmap) : Z :=
  match extra !! "quota_weekly_reset_day"%string with
  | Some v => f64_to_int64 (parseExtraFloat64 v)
  | None => 1
  end.
Definition weekly_day (extra : jmap) : Z :=
  let day := configured_day extra in
  if (day <? 0) || (6 <? day) then 1 else day.

Definition format_utc (t : time) : json := JString (FormatRFC3339 (time_in t UTC)).

Definition ComputeQuotaResetAt (now : time) (extra : jmap) : jmap :=
  let tz := extra_zone extra in
  let extra :=
    if String.eqb (get_string extra "quota_daily_reset_mode") "fixed" then
      <["quota_daily_reset_at"%string :=
        format_utc (nextFixedDailyReset (clamp_hour (extra_int extra "quota_daily_reset_hour")) tz now)]> extra
    else delete "quota_daily_reset_at"%string extra in
  if String.eqb (get_string extra "quota_weekly_reset_mode") "fixed" then
    <["quota_weekly_reset_at"%string :=
      format_utc (nextFixedWeeklyReset (weekly_day extra)
        (clamp_hour (extra_int extra "quota_weekly_reset_hour")) tz now)]> extra
  else delete "quota_weekly_reset_at"%string extra.

(** The window under the keys [used_key] and [start_key] restarts at
    [lastReset] when its start is older. *)
Definition align_window (used_key start_key : string) (lastReset : time) (extra : jmap) : jmap :=
  let start := parseExtraTime (index extra start_key) in
  if is_zero start || before start lastReset
  then <[start_key := format_utc lastReset]> (<[used_key := JNumber f0]> extra) else extra.

Definition NormalizeFixedQuotaWindows (now : time) (extra : jmap) : jmap :=
  let tz := extra_zone extra in
  let extra :=
    if String.eqb (get_string extra "quota_daily_reset_mode") "fixed"
       && fgtb (parseExtraFloat64 (index extra "quota_daily_limit")) f0 then
      align_window "quota_daily_used" "quota_daily_start"
        (lastFixedDailyReset (clamp_hour (extra_int extra "quota_daily_reset_hour")) tz now) extra
    else extra in
  if String.eqb (get_string extra "quota_weekly_reset_mode") "fixed"
     && fgtb (parseExtraFloat64 (index extra "quota_weekly_limit")) f0 then
    align_window "quota_weekly_used" "quota_weekly_start"
      (lastFixedWeeklyReset (weekly_day extra)
         (clamp_hour (extra_int extra "quota_weekly_reset_hour")) tz now) extra
  else extra.

Definition bad_config (message : string) : result unit := Err (EPlain message).
Definition check_mode (extra : jmap) (key message : string) : result unit :=
  match extra !! key ≫= json_string with
  | Some mode => if negb (String.eqb mode "rolling") && negb (String.eqb mode "fixed")
                 then bad_config message else Ok tt
  | None => Ok tt
  end.
Definition check_range (extra : jmap) (key : string) (hi : Z) (message : string) : result unit :=
  match extra !! key with
  | Some v => let n := f64_to_int64 (parseExtraFloat64 v) in
              if (n <? 0) || (hi <? n) then bad_config message else Ok tt
  | None => Ok tt
  end.

Definition ValidateQuotaResetConfig (extra : jmap) : result unit :=
  rbind match extra !! "quota_reset_timezone"%string ≫= json_string with
        | Some tz => if negb (str_empty tz) && negb (bool_decide (is_Some (LoadLocation tz)))
                     then bad_config "invalid quota_reset_timezone: must be a valid IANA timezone name"
                     else Ok tt
        | None => Ok tt end (λ _,
  rbind (check_mode extra "quota_daily_reset_mode"
           "quota_daily_reset_mode must be 'rolling' or 'fixed'") (λ _,
  rbind (check_range extra "quota_daily_reset_hour" 23
           "quota_daily_reset_hour must be between 0 and 23") (λ _,
  rbind (check_mode extra "quota_weekly_reset_mode"
           "quota_weekly_reset_mode must be 'rolling' or 'fixed'") (λ _,
  rbind (check_range extra "quota_weekly_reset_day" 6
           "quota_weekly_reset_day must be between 0 (Sunday) and 6 (Saturday)") (λ _,
  check_range extra "quota_weekly_reset_hour" 23
    "quota_weekly_reset_hour must be between 0 and 23"))))).

End Account.

(** ** Reset points in a zone with one offset

    [reset_point o h k] is the instant at which the clock of a zone [o] seconds
    east of Greenwich shows hour [h] of the local day [k]. *)

Definition reset_point (o h k : Z) : Z := k * day_ns + h * hour - o * second.

(** Instants of the years 1970 to 2116, and offsets of at most a day. *)
Definition instant_ok (t : time) : Prop := 0 <= t_ns t <= 2 ^ 62.
Definition offset_ok (o : Z) : Prop := Z.abs o <= 86400.

Ltac unfold_time := unfold reset_point in *; unfold day_ns, hour, minute, second in *.

Lemma go_date_loc loc x : t_loc (go_date loc x) = loc.
Proof. unfold go_date. destruct (loc_lookup loc _) as [[? ?] ?]. by destruct (_ =? 0). Qed.

Lemma point_date o h k :
  offset_ok o -> 0 <= h < 24 -> - 10 <= k <= 2 ^ 62 / day_ns + 10 ->
  t_ns (go_date (fixed_zone o) (k * day_ns + h * hour)) = reset_point o h k.
Proof.
  unfold offset_ok. intros Ho Hh Hk.
  assert ((k * day_ns + h * hour) / second = k * 86400 + h * 3600) as E.
  { unfold_time. replace (k * (24 * (60 * (60 * 1000000000))) + h * (60 * (60 * 1000000000)))
      with ((k * 86400 + h * 3600) * 1000000000) by lia. apply Z.div_mul. done. }
  assert (2 ^ 62 / day_ns = 53375) as E2 by (vm_compute; reflexivity).
  rewrite go_date_fixed; rewrite ?E; [by unfold reset_point|..];
    unfold in_int64, min_int64, max_int64; lia.
Qed.

Section FixedZone.
Context (o h : Z) (Ho : offset_ok o) (Hh : 0 <= h < 24).
#[local] Abbreviation point := (reset_point o h).
#[local] Abbreviation zone := (fixed_zone o).

Definition local_day (t : time) : Z := (t_ns t + o * second) / day_ns.

Lemma local_day_range t : instant_ok t -> -2 <= local_day t <= 2 ^ 62 / day_ns + 2.
Proof.
  unfold instant_ok, local_day. intros Ht. unfold offset_ok in Ho.
  assert (2 ^ 62 / day_ns = 53375) as -> by (vm_compute; reflexivity).
  unfold_time. split; [apply Z.div_le_lower_bound|apply Z.lt_succ_r, Z.div_lt_upper_bound]; lia.
Qed.

Lemma local_day_spec t :
  local_day t * day_ns - o * second <= t_ns t < (local_day t + 1) * day_ns - o * second.
Proof.
  unfold local_day. pose proof (Z.mul_div_le (t_ns t + o * second) day_ns ltac:(done)).
  pose proof (Z.mul_succ_div_gt (t_ns t + o * second) day_ns ltac:(done)). lia.
Qed.

Lemma day_reset_point t : instant_ok t -> t_ns (day_reset h zone t) = point (local_day t).
Proof.
  intros Ht. pose proof (local_day_range t Ht). unfold day_reset.
  assert (local_ns (time_in t zone) / day_ns = local_day t) as -> by done.
  apply point_date; [done|done|lia].
Qed.

Lemma day_reset_add t n :
  instant_ok t -> -8 <= n <= 8 -> t_ns (add_days (day_reset h zone t) n) = point (local_day t + n).
Proof.
  intros Ht Hn. pose proof (local_day_range t Ht) as Hr.
  assert (2 ^ 62 / day_ns = 53375) as E by (vm_compute; reflexivity). rewrite E in Hr.
  assert (t_ns (day_reset h zone t) + n * day_ns = point (local_day t + n)) as Hp.
  { rewrite day_reset_point by done. unfold_time. lia. }
  assert (point (local_day t + n) / second = (local_day t + n) * 86400 + h * 3600 - o) as Hd.
  { unfold_time. set (x := local_day t + n).
    replace (x * (24 * (60 * (60 * 1000000000))) + h * (60 * (60 * 1000000000)) - o * 1000000000)
      with ((x * 86400 + h * 3600 - o) * 1000000000) by lia. by apply Z.div_mul. }
  unfold offset_ok in Ho. unfold in_int64, min_int64, max_int64.
  rewrite (add_days_fixed _ o); rewrite ?Hp, ?Hd; [done|apply go_date_loc|..];
    unfold in_int64, min_int64, max_int64; lia.
Qed.

Lemma weekday_day_reset t : instant_ok t -> Weekday (day_reset h zone t) = (local_day t + 4) mod 7.
Proof.
  intros Ht. unfold Weekday, local_ns.
  assert (t_loc (day_reset h zone t) = zone) as -> by apply go_date_loc.
  rewrite day_reset_point by done. unfold offset_at; cbn [loc_lookup fixed_zone fst].
  do 2 f_equal. symmetry. apply Z.div_unique_pos with (h * hour); unfold_time; lia.
Qed.

(** The next point is the first one after the instant, the last point the last
    one not after it. *)
Lemma nextFixedDailyReset_point t :
  instant_ok t -> ∃ k, t_ns (nextFixedDailyReset h zone t) = point k /\ point (k - 1) <= t_ns t < point k.
Proof.
  intros Ht. pose proof (local_day_spec t) as Hs. unfold nextFixedDailyReset, before.
  rewrite day_reset_point by done. destruct (Z.ltb_spec (t_ns t) (point (local_day t))); cbn [negb].
  - exists (local_day t). rewrite day_reset_point by done. unfold_time. lia.
  - exists (local_day t + 1). rewrite day_reset_add by (done || lia). unfold_time. lia.
Qed.

Lemma lastFixedDailyReset_point t :
  instant_ok t -> ∃ k, t_ns (lastFixedDailyReset h zone t) = point k /\ point k <= t_ns t < point (k + 1).
Proof.
  intros Ht. pose proof (local_day_spec t) as Hs. unfold lastFixedDailyReset, before.
  rewrite day_reset_point by done. destruct (Z.ltb_spec (t_ns t) (point (local_day t))).
  - exists (local_day t + -1). rewrite day_reset_add by (done || lia). unfold_time. lia.
  - exists (local_day t). rewrite day_reset_point by done. unfold_time. lia.
Qed.

Context (day : Z) (Hday : 0 <= day <= 6).

(** The distance in days to the next, or the last, given day of the week. *)
Lemma week_distance a b :
  0 <= a <= 6 -> 0 <= b <= 6 ->
  let d := Z.rem (add64 (sub64 a b) 7) 7 in 0 <= d <= 6 /\ (b + d) mod 7 = a.
Proof.
  intros Ha Hb. cbv zeta. unfold add64, sub64. unfold wrap64.
  assert (∃ i, a = Z.of_nat i /\ (i < 7)%nat) as (i & -> & Hi) by (exists (Z.to_nat a); lia).
  assert (∃ j, b = Z.of_nat j /\ (j < 7)%nat) as (j & -> & Hj) by (exists (Z.to_nat b); lia).
  do 7 (destruct i as [|i]; [do 7 (destruct j as [|j]; [vm_compute; intuition congruence|]); lia|]).
  lia.
Qed.

Lemma weekday_range k : 0 <= (k + 4) mod 7 <= 6.
Proof. pose proof (Z.mod_pos_bound (k + 4) 7). lia. Qed.

Lemma nextFixedWeeklyReset_point t :
  instant_ok t -> ∃ k, t_ns (nextFixedWeeklyReset day h zone t) = point k /\ (k + 4) mod 7 = day /\ point (k - 7) <= t_ns t < point k.
Proof.
  intros Ht. pose proof (local_day_spec t) as Hs. unfold nextFixedWeeklyReset, before.
  rewrite weekday_day_reset, day_reset_point by done. set (d := local_day t) in *.
  destruct (week_distance day ((d + 4) mod 7) Hday (weekday_range d)) as [Hr Hm].
  set (f := Z.rem _ 7) in *. rewrite Z.add_mod_idemp_l in Hm by done.
  replace (d + 4 + f) with (d + f + 4) in Hm by lia.
  destruct (Z.eqb_spec f 0) as [Hf|Hf]; cbn [andb];
    [destruct (Z.ltb_spec (t_ns t) (point d)); cbn [negb]|].
  - exists (d + f). rewrite day_reset_add by (done || lia). split_and!; [done|done|unfold_time; lia..].
  - exists (d + 7). rewrite day_reset_add by (done || lia). split_and!; [done| |unfold_time; lia..].
    rewrite Hf, Z.add_0_r in Hm. rewrite <- Hm. replace (d + 7 + 4) with (d + 4 + 1 * 7) by lia.
    by apply Z_mod_plus_full.
  - exists (d + f). rewrite day_reset_add by (done || lia). split_and!; [done|done|unfold_time; lia..].
Qed.

Lemma lastFixedWeeklyReset_point t :
  instant_ok t -> ∃ k, t_ns (lastFixedWeeklyReset day h zone t) = point k /\ (k + 4) mod 7 = day /\ point k <= t_ns t < point (k + 7).
Proof.
  intros Ht. pose proof (local_day_spec t) as Hs. unfold lastFixedWeeklyReset, before.
  rewrite weekday_day_reset, day_reset_point by done. set (d := local_day t) in *.
  destruct (week_distance ((d + 4) mod 7) day (weekday_range d) Hday) as [Hr Hm].
  set (f := Z.rem _ 7) in *.
  assert ((d - f + 4) mod 7 = day) as Hm'.
  { replace (d - f + 4) with (d + 4 - f) by lia. rewrite <- Zminus_mod_idemp_l, <- Hm.
    rewrite Zminus_mod_idemp_l. replace (day + f - f) with day by lia. apply Z.mod_small. lia. }
  destruct (Z.eqb_spec f 0) as [Hf|Hf]; cbn [andb];
    [destruct (Z.ltb_spec (t_ns t) (point d))|].
  - exists (d + -7). rewrite day_reset_add by (done || lia). split_and!; [done| |unfold_time; lia..].
    rewrite <- Hm', Hf. replace (d + -7 + 4) with (d - 0 + 4 + (-1) * 7) by lia. apply Z_mod_plus_full.
  - exists (d + - f). rewrite day_reset_add by (done || lia). split_and!; [done|done|unfold_time; lia..].
  - exists (d + - f). rewrite day_reset_add by (done || lia). split_and!; [done|done|unfold_time; lia..].
Qed.
End FixedZone.
