(* ===== verification/ModelMapping.v ===== *)
(** * Model mappings and limits of accounts

    The models an account serves and under which name
    ([service/account.go], [service/antigravity_gateway_service.go],
    [service/openai_model_mapping.go]), the limits a provider put on a model of
    an account ([service/model_rate_limit.go]), and whether an account can be
    scheduled for a model ([service/antigravity_quota_scope.go]).  The values a
    request carries in its context are a record.  The derived mapping the Go
    struct caches is computed each time. *)

From Stdlib Require Import Ascii.
From S2P Require Import Prelude GoErrors Float64 GoTime GoStrings GoText OpenAIModels Account ProductCoreAdapter.

Definition PlatformAnthropic : string := "anthropic".
Definition PlatformOpenAI : string := "openai".
Definition PlatformGemini : string := "gemini".
Definition PlatformAntigravity : string := "antigravity".
Definition PlatformGrok : string := "grok".
Definition AccountTypeOAuth : string := "oauth".
Definition AccountTypeSetupToken : string := "setup-token".
Definition QuotaDimensionGlobal : string := "global".
Definition QuotaDimensionSpark : string := "spark".

(** ** The context of a request *)

Record ReqCtx := {
  ctx_Scope : option PlatformSchedulingScope;
  ctx_UpstreamModel : option string;
  ctx_Thinking : option bool;
  ctx_ImageIntent : bool;
  ctx_StickyNamespace : option Z;
  ctx_StickyAccount : option Z
}.
Definition Background : ReqCtx := {|
  ctx_Scope := None; ctx_UpstreamModel := None; ctx_Thinking := None; ctx_ImageIntent := false;
  ctx_StickyNamespace := None; ctx_StickyAccount := None |}.

(** ** Default mappings *)

Definition AntigravityGemini31ProAgentModel : string := "gemini-pro-agent".
Definition DefaultAntigravityModelMapping : gmap string string := list_to_map [
  ("claude-fable-5", "claude-fable-5"); ("claude-opus-4-8", "claude-opus-4-8");
  ("claude-opus-4-7", "claude-opus-4-7"); ("claude-opus-4-6-thinking", "claude-opus-4-6-thinking");
  ("claude-opus-4-6", "claude-opus-4-6-thinking"); ("claude-opus-4-5-thinking", "claude-opus-4-6-thinking");
  ("claude-sonnet-4-6", "claude-sonnet-4-6"); ("claude-sonnet-4-5", "claude-sonnet-4-5");
  ("claude-sonnet-4-5-thinking", "claude-sonnet-4-5-thinking");
  ("claude-opus-4-5-20251101", "claude-opus-4-6-thinking"); ("claude-sonnet-4-5-20250929", "claude-sonnet-4-5");
  ("claude-haiku-4-5", "claude-sonnet-4-6"); ("claude-haiku-4-5-20251001", "claude-sonnet-4-6");
  ("gemini-2.5-flash", "gemini-2.5-flash"); ("gemini-2.5-flash-image", "gemini-2.5-flash-image");
  ("gemini-2.5-flash-image-preview", "gemini-2.5-flash-image"); ("gemini-2.5-flash-lite", "gemini-2.5-flash-lite");
  ("gemini-2.5-flash-thinking", "gemini-2.5-flash-thinking"); ("gemini-2.5-pro", "gemini-2.5-pro");
  ("gemini-3-flash", "gemini-3-flash"); ("gemini-3-pro-high", "gemini-3-pro-high");
  ("gemini-3-pro-low", "gemini-3-pro-low"); ("gemini-3-flash-preview", "gemini-3-flash");
  ("gemini-3-pro-preview", "gemini-3-pro-high");
  (AntigravityGemini31ProAgentModel, AntigravityGemini31ProAgentModel);
  ("gemini-3.1-pro", AntigravityGemini31ProAgentModel); ("gemini-3.1-pro-high", AntigravityGemini31ProAgentModel);
  ("gemini-3.1-pro-low", "gemini-3.1-pro-low"); ("gemini-3.1-pro-preview", AntigravityGemini31ProAgentModel);
  ("gemini-3.1-flash-image", "gemini-3.1-flash-image");
  ("gemini-3.1-flash-image-preview", "gemini-3.1-flash-image"); ("gemini-3.6-flash", "gemini-3.6-flash");
  ("gemini-3.6-flash-high", "gemini-3.6-flash-high"); ("gemini-3.6-flash-low", "gemini-3.6-flash-low");
  ("gemini-3.6-flash-medium", "gemini-3.6-flash-medium"); ("gemini-3.6-flash-tiered", "gemini-3.6-flash-tiered");
  ("gemini-3-pro-image", "gemini-3.1-flash-image"); ("gemini-3-pro-image-preview", "gemini-3.1-flash-image");
  ("gpt-oss-120b-medium", "gpt-oss-120b-medium"); ("tab_flash_lite_preview", "tab_flash_lite_preview")]%string.

Definition xai_model_ids : list string := [
  "grok-4.5"; "grok-4.3"; "grok-build-0.1"; "grok-composer-2.5-fast"; "grok-4.20-0309-reasoning";
  "grok-4.20-0309-non-reasoning"; "grok-4.20-multi-agent-0309"; "grok-imagine"; "grok-imagine-image";
  "grok-imagine-image-quality"; "grok-imagine-edit"; "grok-imagine-video"; "grok-imagine-video-1.5"]%string.
Definition DefaultModelMapping : gmap string string :=
  list_to_map [
    ("grok-4.20-non-reasoning", "grok-4.20-0309-non-reasoning"); ("grok-4.20-reasoning", "grok-4.20-0309-reasoning");
    ("composer-2.5", "grok-composer-2.5-fast"); ("grok-composer", "grok-composer-2.5-fast");
    ("grok-build-latest", "grok-4.5"); ("grok-build", "grok-build-0.1"); ("grok-4.5-latest", "grok-4.5");
    ("grok-latest", "grok-4.5"); ("grok", "grok-4.5")]%string
  ∪ list_to_map (map (λ id, (id, id)) xai_model_ids).

(** ** Patterns

    A star counts at the end of a pattern only. *)

Definition matchAntigravityWildcard (pattern str : string) : bool :=
  if HasSuffix pattern "*" then HasPrefix str (TrimSuffix pattern "*") else String.eqb pattern str.
Definition matchWildcard : string -> string -> bool := matchAntigravityWildcard.

Definition pattern_less (a b : string * string) : bool :=
  if negb (Nat.eqb (String.length a.1) (String.length b.1))
  then Nat.ltb (String.length b.1) (String.length a.1) else String.ltb a.1 b.1.
Definition pattern_matches (mapping : gmap string string) (model : string) : list (string * string) :=
  filterb (λ kv, matchWildcard kv.1 model) (map_to_list mapping).
Definition matchWildcardMappingResult (mapping : gmap string string) (requestedModel : string) : string * bool :=
  match stable_sort pattern_less (pattern_matches mapping requestedModel) with
  | [] => (requestedModel, false)
  | (_, target) :: _ => (target, true)
  end.
Definition mappingHasWildcardForModel (mapping : gmap string string) (model : string) : bool :=
  existsb (λ kv, matchWildcard kv.1 model) (map_to_list mapping).

Definition resolveRequestedModelInMapping (mapping : gmap string string) (requestedModel : string) : string * bool :=
  if str_empty requestedModel then ("", false)%string else
  match mapping !! requestedModel with
  | Some mapped => (mapped, true)
  | None => matchWildcardMappingResult mapping requestedModel
  end.
Definition mappingSupportsRequestedModel (mapping : gmap string string) (requestedModel : string) : bool :=
  if str_empty requestedModel then false else
  match mapping !! requestedModel with
  | Some _ => true
  | None => mappingHasWildcardForModel mapping requestedModel
  end.

(** ** The mapping of an account *)

Definition ensureAntigravityDefaultPassthrough (mapping : gmap string string) (model : string) : gmap string string :=
  if str_empty model then mapping else
  match mapping !! model with
  | Some _ => mapping
  | None => if mappingHasWildcardForModel mapping model then mapping else <[model := model]> mapping
  end.
Definition ensureAntigravityDefaultPassthroughs (mapping : gmap string string) (models : list string) :=
  foldl ensureAntigravityDefaultPassthrough mapping models.
Definition passthrough_models : list string := [
  "gemini-3-flash"; "gemini-3.1-pro-high"; "gemini-3.1-pro-low"; "gemini-3.6-flash"; "gemini-3.6-flash-high";
  "gemini-3.6-flash-low"; "gemini-3.6-flash-medium"; "gemini-3.6-flash-tiered"]%string.

Definition pro_aliases : list (string * list string) := [
  ("gemini-3.1-pro", ["gemini-3.1-pro"]); ("gemini-3.1-pro-high", ["gemini-3.1-pro-high"]);
  ("gemini-3.1-pro-preview", ["gemini-3.1-pro-preview"; "gemini-3.1-pro-high"])]%string.
Definition apply_alias (target : string) (mapping : gmap string string) (alias : string * list string)
  : gmap string string :=
  match mapping !! alias.1 with
  | Some current => if existsb (String.eqb current) alias.2 then <[alias.1 := target]> mapping else mapping
  | None => if mappingHasWildcardForModel mapping alias.1 then mapping else <[alias.1 := target]> mapping
  end.
Definition applyAntigravityGemini31ProAliases (mapping : gmap string string) : gmap string string :=
  let target := TrimSpace (default EmptyString (mapping !! AntigravityGemini31ProAgentModel)) in
  if str_empty target then mapping else foldl (apply_alias target) mapping pro_aliases.

Definition platform_default_mapping (platform : string) : gmap string string :=
  if String.eqb platform PlatformAntigravity then DefaultAntigravityModelMapping else
  if String.eqb platform PlatformGrok then DefaultModelMapping else ∅.
Definition string_entries (raw : list (string * json)) : gmap string string :=
  list_to_map (omap (λ kv, (λ s, (kv.1, s)) <$> json_string kv.2) raw).
Definition raw_mapping (a : Account) : list (string * json) :=
  match acc_Credentials a !! "model_mapping"%string with Some (JObject fields) => fields | _ => [] end.
Definition resolveModelMapping (a : Account) (rawMapping : list (string * json)) : gmap string string :=
  if is_nil rawMapping then platform_default_mapping (acc_Platform a) else
  let result := string_entries rawMapping in
  if decide (result = ∅) then platform_default_mapping (acc_Platform a) else
  if String.eqb (acc_Platform a) PlatformAntigravity
  then applyAntigravityGemini31ProAliases (ensureAntigravityDefaultPassthroughs result passthrough_models)
  else result.
Definition GetModelMapping (a : Account) : gmap string string := resolveModelMapping a (raw_mapping a).

Definition normalizeRequestedModelForLookup (platform requestedModel : string) : string :=
  let trimmed := TrimSpace requestedModel in
  if str_empty trimmed then ""%string else
  if negb (String.eqb platform PlatformGemini) && negb (String.eqb platform PlatformAntigravity) then trimmed else
  if String.eqb trimmed "gemini-3.1-pro-preview-customtools" then "gemini-3.1-pro-preview"%string else trimmed.

Definition ResolveMappedModel (a : Account) (requestedModel : string) : string * bool :=
  let mapping := GetModelMapping a in
  if decide (mapping = ∅) then (requestedModel, false) else
  match resolveRequestedModelInMapping mapping requestedModel with
  | (mapped, true) => (mapped, true)
  | _ =>
    let normalized := normalizeRequestedModelForLookup (acc_Platform a) requestedModel in
    if negb (String.eqb normalized requestedModel) then
      match resolveRequestedModelInMapping mapping normalized with
      | (mapped, true) => (mapped, true)
      | _ => (requestedModel, false)
      end
    else (requestedModel, false)
  end.
Definition GetMappedModel (a : Account) (requestedModel : string) : string := (ResolveMappedModel a requestedModel).1.

Section Host.
Context {Host : GoHost} {UC : UnicodeCase}.

Definition openAIOAuthForeignModelPrefixes : list string := [
  "deepseek-"; "glm-"; "kimi-"; "moonshot-"; "qwen-"; "qwen2-"; "qwen3-"; "qwen4-"; "qwq-"; "minimax-";
  "gemini-"; "gemma-"; "grok-"; "doubao-"; "hunyuan-"; "llama-"; "llama2-"; "llama3-"; "meta-llama";
  "mistral-"; "mixtral-"; "baichuan-"; "ernie-"; "step-"; "seed-"; "yi-"]%string.
Definition isOpenAIOAuthServableModel (requestedModel : string) : bool :=
  let model := ToLower (lastOpenAIModelSegment requestedModel) in
  if str_empty model then true else
  if String.eqb model "k3" || String.eqb model "k3-256k" then false else
  negb (existsb (HasPrefix model) openAIOAuthForeignModelPrefixes).
Definition isCodexSparkModel (model : string) : bool := String.eqb (normalizeCodexModel model) "gpt-5.3-codex-spark".

Definition IsShadow (a : Account) : bool := match acc_ParentAccountID a with Some _ => true | None => false end.
Definition QuotaDimensionOrDefault (a : Account) : string :=
  if str_empty (TrimSpace (acc_QuotaDimension a)) then QuotaDimensionGlobal else acc_QuotaDimension a.
Definition IsOpenAI (a : Account) : bool := String.eqb (acc_Platform a) PlatformOpenAI.
Definition IsOpenAIOAuth (a : Account) : bool := IsOpenAI a && String.eqb (acc_Type a) AccountTypeOAuth.
Definition extra_bool (a : Account) (key : string) : option bool := acc_Extra a !! key ≫= json_bool.
Definition IsOpenAIPassthroughEnabled (a : Account) : bool :=
  if negb (IsOpenAI a) then false else
  match extra_bool a "openai_passthrough" with
  | Some enabled => enabled
  | None => default false (extra_bool a "openai_oauth_passthrough")
  end.

Definition IsModelSupported (a : Account) (requestedModel : string) : bool :=
  if IsShadow a && String.eqb (QuotaDimensionOrDefault a) QuotaDimensionSpark then isCodexSparkModel requestedModel else
  if IsOpenAIPassthroughEnabled a then true else
  let mapping := GetModelMapping a in
  if decide (mapping = ∅) then (if IsOpenAIOAuth a then isOpenAIOAuthServableModel requestedModel else true) else
  if mappingSupportsRequestedModel mapping requestedModel then true else
  let normalized := normalizeRequestedModelForLookup (acc_Platform a) requestedModel in
  negb (String.eqb normalized requestedModel) && mappingSupportsRequestedModel mapping normalized.

(** [messagesDispatchMappedModel] is empty for the callers modelled here. *)
Definition resolveOpenAIForwardModel (a : Account) (requestedModel messagesDispatchMappedModel : string) : string :=
  let messagesDispatchMappedModel := TrimSpace messagesDispatchMappedModel in
  let '(mappedModel, matched) := ResolveMappedModel a requestedModel in
  if negb matched && negb (str_empty messagesDispatchMappedModel) then messagesDispatchMappedModel else mappedModel.
Definition ResolvedUpstreamModelFromContext (ctx : ReqCtx) : option string :=
  match ctx_UpstreamModel ctx with
  | Some model => let model := TrimSpace model in if str_empty model then None else Some model
  | None => None
  end.
Definition resolveOpenAIForwardModelWithContext (ctx : ReqCtx) (a : Account) (requestedModel dispatch : string) : string :=
  match ResolvedUpstreamModelFromContext ctx with
  | Some platformModel => platformModel
  | None => resolveOpenAIForwardModel a requestedModel dispatch
  end.

Definition mapAntigravityModel (a : Account) (requestedModel : string) : string :=
  let requestedModel := TrimPrefix requestedModel "models/" in
  let mapping := GetModelMapping a in
  if decide (mapping = ∅) then ""%string else
  let mapped := GetMappedModel a requestedModel in
  if negb (String.eqb mapped requestedModel) then mapped else
  if IsModelSupported a requestedModel then requestedModel else ""%string.
Definition applyThinkingModelSuffix (mappedModel : string) (thinkingEnabled : bool) : string :=
  if negb thinkingEnabled then mappedModel else
  if String.eqb mappedModel "claude-sonnet-4-5" then "claude-sonnet-4-5-thinking"%string else mappedModel.
Definition resolveFinalAntigravityModelKey (ctx : ReqCtx) (a : Account) (requestedModel : string) : string :=
  let modelKey := mapAntigravityModel a requestedModel in
  if str_empty modelKey then ""%string else
  match ctx_Thinking ctx with Some enabled => applyThinkingModelSuffix modelKey enabled | None => modelKey end.

(** The part after the last occurrence. *)
Fixpoint after_last (sep l : bytes) : option bytes :=
  match l with
  | [] => None
  | _ :: l' => match after_last sep l' with Some r => Some r | None => strip_prefix sep l end
  end.
Definition after_last_string (s sep : string) : option string := of_bytes <$> after_last (to_bytes sep) (to_bytes s).
Definition normalizeAntigravityModelName (model : string) : string :=
  let normalized := ToLower (TrimSpace model) in
  match after_last_string normalized "/publishers/google/models/" with
  | Some r => r
  | None =>
    match after_last_string normalized "/publishers/anthropic/models/" with
    | Some r => r
    | None =>
      match after_last_string normalized "/models/" with
      | Some r => r
      | None =>
        TrimPrefix (TrimPrefix (TrimPrefix normalized "publishers/google/models/") "publishers/anthropic/models/") "models/"
      end
    end
  end.
Definition isAntigravityGeminiModel (model : string) : bool := HasPrefix (normalizeAntigravityModelName model) "gemini-".

Definition isAnthropicFableModel (model : string) : bool := Contains (ToLower model) "fable".

(** ** Limits of a model *)

Definition modelRateLimitsKey : string := "model_rate_limits".
Definition antigravityGeminiModelRateLimitKey : string := "antigravity:gemini".
Definition openAIImageGenerationRateLimitKey : string := "openai:image_generation".
Definition anthropicFableRateLimitKey : string := "claude-fable-5".
Definition creditsExhaustedKey : string := "AICredits".

Definition openAIImageGenerationRateLimitApplies (ctx : ReqCtx) (requestedModel modelKey : string) : bool :=
  if isOpenAIImageGenerationModel requestedModel || isOpenAIImageGenerationModel modelKey then true
  else ctx_ImageIntent ctx.

(** The name a request has at the provider. *)
Definition upstream_key (ctx : ReqCtx) (a : Account) (requestedModel : string) : string :=
  let modelKey := resolveOpenAIForwardModelWithContext ctx a requestedModel "" in
  TrimSpace (if String.eqb (acc_Platform a) PlatformAntigravity then
    match ResolvedUpstreamModelFromContext ctx with
    | Some platformModel =>
      match ctx_Thinking ctx with Some enabled => applyThinkingModelSuffix platformModel enabled | None => platformModel end
    | None => resolveFinalAntigravityModelKey ctx a requestedModel
    end else modelKey).
Definition family_key (ctx : ReqCtx) (a : Account) (requestedModel modelKey : string) : list string :=
  let add (applies : bool) (key : string) := if applies && negb (String.eqb modelKey key) then [key] else [] in
  if String.eqb (acc_Platform a) PlatformAntigravity
  then add (isAntigravityGeminiModel modelKey) antigravityGeminiModelRateLimitKey else
  if String.eqb (acc_Platform a) PlatformOpenAI
  then add (openAIImageGenerationRateLimitApplies ctx requestedModel modelKey) openAIImageGenerationRateLimitKey else
  if String.eqb (acc_Platform a) PlatformAnthropic
  then add (isAnthropicFableModel modelKey) anthropicFableRateLimitKey else [].
Definition modelRateLimitKeysForRequest (ctx : ReqCtx) (a : Account) (requestedModel : string) : list string :=
  let modelKey := upstream_key ctx a requestedModel in
  if str_empty modelKey then [] else modelKey :: family_key ctx a requestedModel modelKey.

Definition object_get (v : option json) (key : string) : option json :=
  match v with Some (JObject fields) => (list_to_map fields : jmap) !! key | _ => None end.
Definition modelRateLimitResetAt (a : Account) (scope : string) : option time :=
  if str_empty scope then None else
  match object_get (object_get (acc_Extra a !! modelRateLimitsKey) scope) "rate_limit_reset_at" with
  | Some (JString raw) => if str_empty (TrimSpace raw) then None else ParseRFC3339 raw
  | _ => None
  end.
Definition isRateLimitActiveForKey (now : time) (a : Account) (key : string) : bool :=
  match modelRateLimitResetAt a key with Some resetAt => before now resetAt | None => false end.
(** [time.Until] is positive as long as the instant is ahead. *)
Definition getRateLimitRemainingForKey (now : time) (a : Account) (key : string) : Z :=
  match modelRateLimitResetAt a key with
  | Some resetAt => let remaining := time_sub resetAt now in if 0 <? remaining then remaining else 0
  | None => 0
  end.
Definition isModelRateLimitedWithContext (now : time) (ctx : ReqCtx) (a : Account) (requestedModel : string) : bool :=
  existsb (isRateLimitActiveForKey now a) (modelRateLimitKeysForRequest ctx a requestedModel).
Definition GetModelRateLimitRemainingTimeWithContext (now : time) (ctx : ReqCtx) (a : Account) (requestedModel : string) : Z :=
  foldl (λ remaining key, let k := getRateLimitRemainingForKey now a key in if remaining <? k then k else remaining)
    0 (modelRateLimitKeysForRequest ctx a requestedModel).
Definition GetRateLimitRemainingTimeWithContext := GetModelRateLimitRemainingTimeWithContext.

Definition IsOveragesEnabled (a : Account) : bool :=
  if negb (String.eqb (acc_Platform a) PlatformAntigravity) then false else default false (extra_bool a "allow_overages").
Definition isCreditsExhausted (now : time) (a : Account) : bool := isRateLimitActiveForKey now a creditsExhaustedKey.
Definition IsSchedulableForModelWithContext (now : time) (ctx : ReqCtx) (a : Account) (requestedModel : string) : bool :=
  if negb (IsSchedulable now a) then false else
  if isModelRateLimitedWithContext now ctx a requestedModel then
    String.eqb (acc_Platform a) PlatformAntigravity && IsOveragesEnabled a && negb (isCreditsExhausted now a)
  else true.
Definition shouldClearStickySession (now : time) (a : Account) (requestedModel : string) : bool :=
  if negb (IsSchedulable now a) then true else
  0 <? GetRateLimitRemainingTimeWithContext now Background a requestedModel.
End Host.
