(* ===== verification/AccountQuota.v ===== *)
(** * Counting an account's quota in the database

    The statements of [repository/account_repo.go] and
    [repository/usage_billing_repo.go] that count a cost into the JSON column
    of an account: the total, and the daily and the weekly window with their
    two ways of restarting, rolling and at a fixed local hour.  The SQL
    expressions are functions of the column and the clock; [None] is a value
    the server refuses to convert, which fails the statement.

    [Postgres] holds the conversions of the server: texts to numbers, instants
    and zones, local times to instants, and the formats of [to_char]. *)

From S2P Require Import Prelude GoErrors Float64 GoTime GoStrings Account SchedulerOutbox.

Class Postgres := {
  pg_text : json -> string;
  pg_numeric : string -> option float64;
  pg_int : string -> option Z;
  pg_timestamptz : string -> option time;
  pg_zone : string -> option Location;
  pg_from_local : Location -> Z -> time;
  pg_format_us : time -> string;
  pg_format_s : time -> string;
  pg_add : float64 -> float64 -> float64
}.

Record AccountQuotaState := {
  aq_TotalUsed : float64; aq_TotalLimit : float64; aq_DailyUsed : float64;
  aq_DailyLimit : float64; aq_WeeklyUsed : float64; aq_WeeklyLimit : float64
}.

Definition ErrAccountNotFound : error := NotFound "ACCOUNT_NOT_FOUND" "account not found".

Record AccountRow := { ar_account : Account; ar_deleted : bool }.
(** The table of accounts, and the outbox its changes are announced in. *)
Record AccountDB := { ad_rows : gmap Z AccountRow; ad_outbox : Outbox }.

Definition edit_account (a : Account) (extra : jmap) (updated : time)
  (limitedAt resetAt : option time) : Account := {|
  acc_ID := acc_ID a; acc_Name := acc_Name a; acc_Notes := acc_Notes a;
  acc_Platform := acc_Platform a; acc_PlatformID := acc_PlatformID a;
  acc_PlatformName := acc_PlatformName a; acc_Type := acc_Type a;
  acc_Credentials := acc_Credentials a; acc_Extra := extra; acc_ProxyID := acc_ProxyID a;
  acc_ProxyFallbackOriginID := acc_ProxyFallbackOriginID a;
  acc_ProxyFallbackOriginName := acc_ProxyFallbackOriginName a;
  acc_Concurrency := acc_Concurrency a; acc_Priority := acc_Priority a;
  acc_RateMultiplier := acc_RateMultiplier a; acc_LoadFactor := acc_LoadFactor a;
  acc_Status := acc_Status a; acc_ErrorMessage := acc_ErrorMessage a;
  acc_LastUsedAt := acc_LastUsedAt a; acc_ExpiresAt := acc_ExpiresAt a;
  acc_AutoPauseOnExpired := acc_AutoPauseOnExpired a; acc_CreatedAt := acc_CreatedAt a;
  acc_UpdatedAt := updated; acc_Schedulable := acc_Schedulable a;
  acc_RateLimitedAt := limitedAt; acc_RateLimitResetAt := resetAt;
  acc_OverloadUntil := acc_OverloadUntil a; acc_TempUnschedulableUntil := acc_TempUnschedulableUntil a;
  acc_TempUnschedulableReason := acc_TempUnschedulableReason a;
  acc_SessionWindowStart := acc_SessionWindowStart a; acc_SessionWindowEnd := acc_SessionWindowEnd a;
  acc_SessionWindowStatus := acc_SessionWindowStatus a; acc_ParentAccountID := acc_ParentAccountID a;
  acc_QuotaDimension := acc_QuotaDimension a |}.
Definition set_extra (a : Account) (extra : jmap) (now : time) : Account :=
  edit_account a extra now (acc_RateLimitedAt a) (acc_RateLimitResetAt a).

Section SQL.
Context {PG : Postgres} (sha256_hex : string -> string).

(** [extra->>'key'], and [COALESCE((extra->>'key')::type, default)]. *)
Definition sql_text (extra : jmap) (key : string) : option string :=
  match extra !! key with
  | None | Some JNull => None
  | Some (JString s) => Some s
  | Some v => Some (pg_text v)
  end.
Definition sql_cast {B} (cast : string -> option B) (extra : jmap) (key : string) (d : B) : option B :=
  match sql_text extra key with Some s => cast s | None => Some d end.
Definition sql_numeric (extra : jmap) (key : string) : option float64 := sql_cast pg_numeric extra key f0.

Definition epoch : time := mk_time 0 UTC.
Definition is_fixed (extra : jmap) (mode_key : string) : bool :=
  String.eqb (default "rolling"%string (sql_text extra mode_key)) "fixed".

(** [dailyExpiredExpr] and [weeklyExpiredExpr]. *)
Definition expired_expr (mode_key reset_key start_key : string) (period : Z) (now : time) (extra : jmap)
  : option bool :=
  if is_fixed extra mode_key
  then (λ t, negb (before now t)) <$> sql_cast pg_timestamptz extra reset_key epoch
  else (λ t, negb (before now (time_add t period))) <$> sql_cast pg_timestamptz extra start_key epoch.
Definition dailyExpiredExpr := expired_expr "quota_daily_reset_mode" "quota_daily_reset_at"
  "quota_daily_start" (24 * hour).
Definition weeklyExpiredExpr := expired_expr "quota_weekly_reset_mode" "quota_weekly_reset_at"
  "quota_weekly_start" (168 * hour).

Definition sql_zone (extra : jmap) : option Location :=
  pg_zone (default "UTC"%string (sql_text extra "quota_reset_timezone")).
(** [date_trunc('day', NOW() AT TIME ZONE tz) + hour], a local time. *)
Definition today_local (tz : Location) (hour_ : Z) (now : time) : Z :=
  local_ns (time_in now tz) / day_ns * day_ns + hour_ * hour.

(** [Some None] is NULL. *)
Definition nextDailyResetAtExpr (now : time) (extra : jmap) : option (option string) :=
  if is_fixed extra "quota_daily_reset_mode" then
    tz ← sql_zone extra;
    h ← sql_cast pg_int extra "quota_daily_reset_hour" 0;
    let today := today_local tz h now in
    Some (Some (pg_format_s
      (if negb (before now (pg_from_local tz today)) then pg_from_local tz (today + day_ns)
       else pg_from_local tz today)))
  else Some None.

Definition nextWeeklyResetAtExpr (now : time) (extra : jmap) : option (option string) :=
  if is_fixed extra "quota_weekly_reset_mode" then
    tz ← sql_zone extra;
    h ← sql_cast pg_int extra "quota_weekly_reset_hour" 0;
    day ← sql_cast pg_int extra "quota_weekly_reset_day" 1;
    let today := today_local tz h now in
    let days_forward := Z.rem (day - Weekday (time_in now tz) + 7) 7 in
    Some (Some (pg_format_s
      (if (days_forward =? 0) && negb (before now (pg_from_local tz today))
       then pg_from_local tz (today + 7 * day_ns)
       else pg_from_local tz (today + days_forward * day_ns))))
  else Some None.

(** The keys of one window after the statement. *)
Definition window_part (expired : option bool) (next : option (option string))
  (limit_key used_key start_key reset_key : string) (now : time) (amount : float64) (extra : jmap)
  : option jmap :=
  limit ← sql_numeric extra limit_key;
  if fgtb limit f0 then
    e ← expired;
    used ← (if e : bool then Some amount else (λ u, pg_add u amount) <$> sql_numeric extra used_key);
    let start := if e : bool then pg_format_us now else default (pg_format_us now) (sql_text extra start_key) in
    n ← (if e : bool then next else Some None);
    Some (match n with Some r => {[ reset_key := JString r ]} | None => ∅ end
          ∪ {[ used_key := JNumber used; start_key := JString start ]})
  else Some ∅.

(** The column after the UPDATE; every expression reads the old column. *)
Definition sql_increment (now : time) (amount : float64) (extra : jmap) : option jmap :=
  used ← sql_numeric extra "quota_used";
  daily ← window_part (dailyExpiredExpr now extra) (nextDailyResetAtExpr now extra)
            "quota_daily_limit" "quota_daily_used" "quota_daily_start" "quota_daily_reset_at"
            now amount extra;
  weekly ← window_part (weeklyExpiredExpr now extra) (nextWeeklyResetAtExpr now extra)
             "quota_weekly_limit" "quota_weekly_used" "quota_weekly_start" "quota_weekly_reset_at"
             now amount extra;
  Some (weekly ∪ (daily ∪ ({[ "quota_used"%string := JNumber (pg_add used amount) ]} ∪ extra))).

Definition returning (extra : jmap) : option AccountQuotaState :=
  tu ← sql_numeric extra "quota_used"; tl ← sql_numeric extra "quota_limit";
  du ← sql_numeric extra "quota_daily_used"; dl ← sql_numeric extra "quota_daily_limit";
  wu ← sql_numeric extra "quota_weekly_used"; wl ← sql_numeric extra "quota_weekly_limit";
  Some (Build_AccountQuotaState tu tl du dl wu wl).

Definition sql_error : error := EPlain "pq: invalid input syntax".
Definition lock_wait : error := EPlain "pq: canceling statement due to lock timeout".

Definition live_account (id : Z) (db : AccountDB) : option Account :=
  match ad_rows db !! id with
  | Some r => if ar_deleted r then None else Some (ar_account r)
  | None => None
  end.
Definition put_account (id : Z) (a : Account) (db : AccountDB) : AccountDB :=
  Build_AccountDB (<[id := Build_AccountRow a false]> (ad_rows db)) (ad_outbox db).

Definition returning_total (extra : jmap) : option (float64 * float64) :=
  tu ← sql_numeric extra "quota_used"; tl ← sql_numeric extra "quota_limit"; Some (tu, tl).

(** The UPDATE with its RETURNING row; [None] when no row matches. *)
Definition update_quota {B} (ret : jmap -> option B) (id : Z) (amount : float64)
  : M AccountDB (option B) := λ db,
  match live_account id db with
  | None => (Ok None, db)
  | Some a =>
    let now := ob_now (ad_outbox db) in
    match extra ← sql_increment now amount (acc_Extra a); state ← ret extra; Some (extra, state) with
    | Some (extra, state) => (Ok (Some state), put_account id (set_extra a extra now) db)
    | None => (Err sql_error, db)
    end
  end.

Definition announce (id : Z) : M AccountDB unit := λ db,
  match enqueueSchedulerOutbox sha256_hex SchedulerOutboxEventAccountChanged (Some id) None None
          (ad_outbox db) with
  | Some ob => (Ok tt, Build_AccountDB (ad_rows db) ob)
  | None => (Err lock_wait, db)
  end.

Definition crossed (limit used amount : float64) : bool :=
  fgtb limit f0 && fgeb used limit && fltb (used - amount)%f64 limit.

Definition incrementUsageBillingAccountQuota (accountID : Z) (amount : float64)
  : M AccountDB AccountQuotaState :=
  let! row := update_quota returning accountID amount in
  match row with
  | None => mfail ErrAccountNotFound
  | Some state =>
    if crossed (aq_TotalLimit state) (aq_TotalUsed state) amount
       || crossed (aq_DailyLimit state) (aq_DailyUsed state) amount
       || crossed (aq_WeeklyLimit state) (aq_WeeklyUsed state) amount
    then let! _ := announce accountID in mret state
    else mret state
  end.

(** The account repository's own statement: no row is not an error, and a
    failing announcement is logged. *)
Definition repo_IncrementQuotaUsed (id : Z) (amount : float64) : M AccountDB unit :=
  let! row := update_quota returning_total id amount in
  let '(newUsed, limit) := default (f0, f0) row in
  if crossed limit newUsed amount then mtry (announce id) (λ _, mret tt) else mret tt.

Definition reset_extra (extra : jmap) : jmap :=
  delete "quota_daily_start"%string (delete "quota_weekly_start"%string
  (delete "quota_daily_reset_at"%string (delete "quota_weekly_reset_at"%string
  (<["quota_used"%string := JNumber f0]> (<["quota_daily_used"%string := JNumber f0]>
  (<["quota_weekly_used"%string := JNumber f0]> extra)))))).

Definition ResetQuotaUsedAndClearRateLimitCooldown (id : Z) : M AccountDB unit := λ db,
  match live_account id db with
  | None => (Err ErrAccountNotFound, db)
  | Some a =>
    mtry (announce id) (λ _, mret tt)
      (put_account id (edit_account a (reset_extra (acc_Extra a)) (ob_now (ad_outbox db)) None None) db)
  end.

End SQL.
