(* ===== verification/AccountQuotaProps.v ===== *)
(** * Properties of the account quotas

    The statement of the database and the Go code decide alike: the same next
    reset, the same moment a window is over, along every sequence of edits and
    counted costs, in zones of constant offset and for configurations that both
    read alike, which a weekly day of JSON null is not; an edit leaves no window
    that is already over; what is announced when a quota runs out. *)

From Stdlib Require Import Ascii.
From stdpp Require Import pretty.
From S2P Require Import Prelude GoErrors Float64 GoTime GoStrings GoText Account SchedulerOutbox AccountQuota.

(** What the two sides make of the texts they exchange: an RFC 3339 text of
    microsecond precision is the same instant to both, what either side prints
    is the instant it stands for, and a local time of a zone with one offset
    names one instant. *)
Class ClockTexts {Host : GoHost} {PG : Postgres} : Prop := {
  parse_second_format s : ParseRFC3339Nano s = None -> ParseRFC3339 s = None;
  read_same s u : ParseRFC3339Nano s = Some u -> t_ns u mod 1000 = 0 ->
    ∃ v, pg_timestamptz s = Some v /\ t_ns v = t_ns u;
  parse_us t : instant_ok t -> t_ns t mod 1000 = 0 ->
    ∃ u, ParseRFC3339Nano (pg_format_us t) = Some u /\ t_ns u = t_ns t;
  parse_s t : 0 <= t_ns t <= 2 ^ 62 + 8 * day_ns -> t_ns t mod second = 0 ->
    ∃ u, ParseRFC3339Nano (FormatRFC3339 t) = Some u /\ t_ns u = t_ns t;
  format_same t u : t_ns u = t_ns t -> pg_format_s t = FormatRFC3339 (time_in u UTC);
  from_local_fixed o x : t_ns (pg_from_local (fixed_zone o) x) = x - o * second
}.

(** ** Reset points as a progression *)

Section Progression.
Context (o h n c : Z) (Hn : 0 < n) (nextf lastf : time -> time).
Context (Hnext : ∀ t, instant_ok t -> ∃ k, t_ns (nextf t) = reset_point o h k /\ k mod n = c /\
                   reset_point o h (k - n) <= t_ns t < reset_point o h k)
        (Hlast : ∀ t, instant_ok t -> ∃ k, t_ns (lastf t) = reset_point o h k /\ k mod n = c /\
                   reset_point o h k <= t_ns t < reset_point o h (k + n)).

Lemma point_lt i j : reset_point o h i < reset_point o h j <-> i < j.
Proof. unfold_time. lia. Qed.

Lemma congruent_le i j : i mod n = c -> j mod n = c -> i - n < j -> i <= j.
Proof.
  intros Hi Hj Hlt. pose proof (Z.div_mod i n ltac:(lia)). pose proof (Z.div_mod j n ltac:(lia)).
  assert (i / n - 1 < j / n) by nia. nia.
Qed.

(** A window that began at [s] is over at [t] by its next reset exactly when
    it is by the last one. *)
Lemma over_iff s t :
  instant_ok s -> instant_ok t -> t_ns s < t_ns (lastf t) <-> t_ns (nextf s) <= t_ns t.
Proof.
  intros Hs Ht. destruct (Hnext s Hs) as (k & -> & Hk & Hk1 & Hk2).
  destruct (Hlast t Ht) as (j & -> & Hj & Hj1 & Hj2). split; intros H.
  - assert (k <= j) as Hle.
    { apply congruent_le; [done..|]. apply point_lt. lia. }
    unfold_time. nia.
  - assert (k < j + n) as Hle by (apply point_lt; lia).
    assert (k <= j) by (apply congruent_le; [done..|lia]). unfold_time. nia.
Qed.

Lemma next_same s t :
  instant_ok s -> instant_ok t -> t_ns (lastf t) <= t_ns s <= t_ns t -> t_ns (nextf s) = t_ns (nextf t).
Proof.
  intros Hs Ht H. destruct (Hnext s Hs) as (k & -> & Hk & Hk1 & Hk2).
  destruct (Hnext t Ht) as (i & -> & Hi & Hi1 & Hi2).
  destruct (Hlast t Ht) as (j & Ej & Hj & Hj1 & Hj2). rewrite Ej in H.
  assert (j < k) by (apply point_lt; lia). assert (k - n < i) by (apply point_lt; lia).
  assert (i - n < j + n) by (apply point_lt; lia).
  assert (k <= i) by (by apply congruent_le).
  assert (i - n <= j).
  { apply congruent_le; [|done|lia].
    rewrite <- Hi, <- (Z_mod_plus_full (i - n) 1 n). f_equal. lia. }
  assert (i <= k) by (apply congruent_le; [done..|lia]). unfold_time. nia.
Qed.
End Progression.

(** ** What the operations leave alone *)

Definition window_state_keys : list string :=
  ["quota_used"; "quota_daily_used"; "quota_daily_start"; "quota_daily_reset_at";
   "quota_weekly_used"; "quota_weekly_start"; "quota_weekly_reset_at"]%string.
Definition daily_state_keys : list string :=
  ["quota_daily_used"; "quota_daily_start"; "quota_daily_reset_at"]%string.
Definition weekly_state_keys : list string :=
  ["quota_weekly_used"; "quota_weekly_start"; "quota_weekly_reset_at"]%string.
Definition keeps_config (extra extra' : jmap) : Prop :=
  ∀ k, k ∉ window_state_keys -> extra' !! k = extra !! k.

(** Instants between the tenth day of 1970 and 2116. *)
Definition recent (t : time) : Prop := 9 * day_ns <= t_ns t <= 2 ^ 62.

Lemma recent_ok t : recent t -> instant_ok t.
Proof. unfold recent, instant_ok. unfold_time. lia. Qed.

(** Membership of literal keys is decided by evaluation. *)
Ltac decide_key := refine (bool_decide_unpack _ _); vm_compute; exact I.
Ltac key_cases H := repeat (apply elem_of_cons in H as [->|H]); [..|by apply elem_of_nil in H].

Lemma state_keys k :
  k ∉ window_state_keys -> k ≠ ("quota_used"%string) /\ (k ∉ daily_state_keys) /\ (k ∉ weekly_state_keys).
Proof.
  intros Hk. split_and!; [intros ->|intros H..]; apply Hk; [decide_key|key_cases H; decide_key..].
Qed.

Section Props.
Context {Host : GoHost} {UC : UnicodeCase} {PG : Postgres}.

Lemma window_part_Some e next lk uk sk rk now amount extra m :
  window_part e next lk uk sk rk now amount extra = Some m ->
  NoDup [uk; sk; rk] ->
  (m = ∅ /\ ∃ l, sql_numeric extra lk = Some l /\ fgtb l f0 = false) \/
  (∃ (b : bool) used, e = Some b /\
     (if b then used = amount else ∃ u, sql_numeric extra uk = Some u /\ used = pg_add u amount) /\
     m !! uk = Some (JNumber used) /\
     m !! sk = Some (JString (if b then pg_format_us now
                              else default (pg_format_us now) (sql_text extra sk))) /\
     (if b then ∃ n, next = Some n /\ m !! rk = JString <$> n else m !! rk = None) /\
     ∀ k, k ∉ [uk; sk; rk] -> m !! k = None).
Proof.
  intros H Hnd. unfold window_part in H.
  destruct (sql_numeric extra lk) as [l|] eqn:El; [|done]. cbn [mbind option_bind] in H.
  destruct (fgtb l f0) eqn:Ef; [right|injection H as <-; left; by eauto].
  destruct e as [b|]; [|done]. cbn [mbind option_bind] in H.
  assert (uk ≠ sk /\ uk ≠ rk /\ sk ≠ rk) as (N1 & N2 & N3).
  { apply NoDup_cons in Hnd as [H1 Hnd]. apply NoDup_cons in Hnd as [H2 _]. set_solver. }
  assert (∀ (r : option string) used start k,
    (match r with Some r => {[ rk := JString r ]} | None => ∅ end
     ∪ ({[ uk := JNumber used; sk := JString start ]} : jmap)) !! k
    = if decide (k = uk) then Some (JNumber used) else
      if decide (k = sk) then Some (JString start) else
      if decide (k = rk) then JString <$> r else None) as Hlook.
  { intros r used start k. rewrite lookup_union.
    repeat case_decide; subst; destruct r; simplify_map_eq; done. }
  destruct b.
  - destruct next as [n|]; cbn [mbind option_bind] in H; [|done]. injection H as <-.
    exists true, amount. rewrite !Hlook.
    split_and!; [done|done|by rewrite decide_True| | |].
    + by rewrite decide_False, decide_True by done.
    + exists n. split; [done|]. by rewrite !decide_False, decide_True by done.
    + intros k Hk. rewrite Hlook, !decide_False by set_solver. done.
  - destruct (sql_numeric extra uk) as [u|]; cbn in H; [|done]. injection H as <-.
    specialize (Hlook None). cbv iota in Hlook.
    exists false, (pg_add u amount). rewrite !Hlook.
    split_and!; [done|by eauto|by rewrite decide_True| | |].
    + by rewrite decide_False, decide_True by done.
    + by rewrite !decide_False, decide_True by done.
    + intros k Hk. rewrite Hlook, !decide_False by set_solver. done.
Qed.

(** The statement changes each window by its own part and the total. *)
Lemma sql_increment_Some now amount extra extra' :
  sql_increment now amount extra = Some extra' ->
  ∃ used daily weekly, sql_numeric extra "quota_used" = Some used /\
    window_part (dailyExpiredExpr now extra) (nextDailyResetAtExpr now extra)
      "quota_daily_limit" "quota_daily_used" "quota_daily_start" "quota_daily_reset_at"
      now amount extra = Some daily /\
    window_part (weeklyExpiredExpr now extra) (nextWeeklyResetAtExpr now extra)
      "quota_weekly_limit" "quota_weekly_used" "quota_weekly_start" "quota_weekly_reset_at"
      now amount extra = Some weekly /\
    extra' !! "quota_used"%string = Some (JNumber (pg_add used amount)) /\
    (∀ k, k ∈ daily_state_keys ->
       extra' !! k = match daily !! k with Some v => Some v | None => extra !! k end) /\
    (∀ k, k ∈ weekly_state_keys ->
       extra' !! k = match weekly !! k with Some v => Some v | None => extra !! k end) /\
    keeps_config extra extra'.
Proof.
  unfold sql_increment. intros H.
  destruct (sql_numeric extra "quota_used") as [used|]; [|done]. cbn [mbind option_bind] in H.
  destruct (window_part (dailyExpiredExpr now extra) _ _ _ _ _ _ _ _) as [daily|] eqn:Ed; [|done].
  cbn [mbind option_bind] in H.
  destruct (window_part (weeklyExpiredExpr now extra) _ _ _ _ _ _ _ _) as [weekly|] eqn:Ew; [|done].
  injection H as <-. exists used, daily, weekly.
  assert (∀ k, k ∉ daily_state_keys -> daily !! k = None) as Hd.
  { apply window_part_Some in Ed as [[-> _]|(? & ? & _ & _ & _ & _ & _ & Hk)];
      [intros; apply lookup_empty|exact Hk|decide_key]. }
  assert (∀ k, k ∉ weekly_state_keys -> weekly !! k = None) as Hw.
  { apply window_part_Some in Ew as [[-> _]|(? & ? & _ & _ & _ & _ & _ & Hk)];
      [intros; apply lookup_empty|exact Hk|decide_key]. }
  split_and!; try done.
  - rewrite !lookup_union, Hd, Hw by decide_key. rewrite lookup_singleton_eq.
    by destruct (extra !! _).
  - intros k Hk. assert (weekly !! k = None) as Hwk by (apply Hw; key_cases Hk; decide_key).
    assert ("quota_used"%string ≠ k) by (intros <-; revert Hk; decide_key).
    rewrite !lookup_union, Hwk, lookup_singleton_ne by done. by destruct (daily !! k), (extra !! k).
  - intros k Hk. assert (daily !! k = None) as Hdk by (apply Hd; key_cases Hk; decide_key).
    assert ("quota_used"%string ≠ k) by (intros <-; revert Hk; decide_key).
    rewrite !lookup_union, Hdk, lookup_singleton_ne by done. by destruct (weekly !! k), (extra !! k).
  - intros k Hk. destruct (state_keys k Hk) as (Hu & Hdk & Hwk).
    rewrite !lookup_union, Hd, Hw, lookup_singleton_ne by done. by destruct (extra !! k).
Qed.

(** ** One window with fixed resets *)

Section Window.
Context {CT : ClockTexts}.
Context (mk lk uk sk rk : string) (period : Z) (Hkeys : NoDup [uk; sk; rk]).
Context (o h n c : Z) (Hn : 0 < n <= 7) (nextf lastf : time -> time).
Context (Hnext : ∀ t, instant_ok t -> ∃ k, t_ns (nextf t) = reset_point o h k /\ k mod n = c /\
                   reset_point o h (k - n) <= t_ns t < reset_point o h k)
        (Hlast : ∀ t, instant_ok t -> ∃ k, t_ns (lastf t) = reset_point o h k /\ k mod n = c /\
                   reset_point o h k <= t_ns t < reset_point o h (k + n))
        (Hext : ∀ s t, t_ns s = t_ns t -> nextf s = nextf t).

Definition go_over (now : time) (extra : jmap) : bool :=
  let start := getExtraTime extra sk in
  if is_zero start then true else before start (lastf now).

(** The stored reset time is the next one after the stored start. *)
Definition window_ok (extra : jmap) : Prop :=
  ∃ ss s rs r, extra !! sk = Some (JString ss) /\ ParseRFC3339Nano ss = Some s /\ instant_ok s /\
    extra !! rk = Some (JString rs) /\ pg_timestamptz rs = Some r /\ t_ns r = t_ns (nextf s).

Lemma point_second k : reset_point o h k mod second = 0.
Proof.
  unfold_time. replace (_ - _) with ((k * 86400 + h * 3600 - o) * 1000000000) by lia.
  apply Z_mod_mult.
Qed.
Lemma second_micro x : x mod second = 0 -> x mod 1000 = 0.
Proof.
  intros H. apply Z.mod_divide; [done|]. apply Z.mod_divide in H as [q ->]; [|done].
  exists (q * 1000000). unfold_time. lia.
Qed.

Lemma not_zero_ok s : instant_ok s -> is_zero s = false.
Proof. unfold instant_ok, is_zero, time_zero. cbn [t_ns]. unfold_time. intros. bool_lia. Qed.

Lemma window_ok_agree now extra :
  instant_ok now -> window_ok extra -> extra !! mk = Some (JString "fixed") ->
  expired_expr mk rk sk period now extra = Some (go_over now extra).
Proof.
  intros Hnow (ss & s & rs & r & Hs & Hp & Hok & Hr & Hpr & Hr') Hm.
  unfold expired_expr, is_fixed, sql_cast, sql_text, go_over, getExtraTime.
  rewrite Hm, Hr, Hs. cbn [default String.eqb parseExtraTime]. rewrite Hp, Hpr.
  rewrite not_zero_ok by done. cbn. f_equal. unfold before. rewrite Hr'.
  pose proof (over_iff o h n c ltac:(lia) nextf lastf Hnext Hlast s now Hok Hnow) as Hiff.
  destruct (Z.ltb_spec (t_ns now) (t_ns (nextf s))), (Z.ltb_spec (t_ns s) (t_ns (lastf now)));
    cbn; try done; exfalso; lia.
Qed.

Lemma nextf_range t : instant_ok t -> t_ns t < t_ns (nextf t) <= t_ns t + 7 * day_ns.
Proof. intros Ht. destruct (Hnext t Ht) as (k & -> & _ & H1 & H2). unfold_time. nia. Qed.
Lemma lastf_range t : instant_ok t -> t_ns t - 7 * day_ns < t_ns (lastf t) <= t_ns t.
Proof. intros Ht. destruct (Hlast t Ht) as (k & -> & _ & H1 & H2). unfold_time. nia. Qed.

(** The text of a next reset is read back as that instant. *)
Lemma read_next t :
  instant_ok t -> ∃ v, pg_timestamptz (FormatRFC3339 (time_in (nextf t) UTC)) = Some v /\
    t_ns v = t_ns (nextf t).
Proof.
  intros Ht. pose proof (nextf_range t Ht) as Hr. destruct (Hnext t Ht) as (k & Hk & _).
  destruct (parse_s (time_in (nextf t) UTC)) as (u & Hu & Eu).
  { cbn. unfold instant_ok in Ht. unfold_time. lia. }
  { cbn. rewrite Hk. apply point_second. }
  destruct (read_same _ _ Hu) as (v & Hv & Ev).
  { rewrite Eu. cbn. rewrite Hk. apply second_micro, point_second. }
  exists v. split; [done|]. by rewrite Ev, Eu.
Qed.

Lemma window_ok_count now amount extra extra' m :
  recent now -> t_ns now mod 1000 = 0 -> window_ok extra ->
  window_part (expired_expr mk rk sk period now extra)
    (Some (Some (FormatRFC3339 (time_in (nextf now) UTC)))) lk uk sk rk now amount extra = Some m ->
  (∀ k, k ∈ [uk; sk; rk] -> extra' !! k = match m !! k with Some v => Some v | None => extra !! k end) ->
  window_ok extra'.
Proof.
  intros Hnow Hmicro Hok Hm Hl.
  apply window_part_Some in Hm as [[-> _]|(b & used & _ & _ & _ & Hs & Hr & _)]; [| |done].
  { destruct Hok as (ss & s & rs & r & H1 & H2 & H3 & H4 & H5 & H6).
    exists ss, s, rs, r. rewrite !Hl, !lookup_empty by set_solver. done. }
  unfold window_ok. rewrite !Hl, Hs by set_solver. destruct b.
  - destruct Hr as (x & [= <-] & ->). cbn [fmap option_fmap option_map].
    destruct (parse_us now (recent_ok _ Hnow) Hmicro) as (s & Hp & Es).
    destruct (read_next now (recent_ok _ Hnow)) as (v & Hv & Ev).
    exists (pg_format_us now), s, (FormatRFC3339 (time_in (nextf now) UTC)), v.
    split_and!; try done.
    + pose proof (recent_ok _ Hnow) as Hi. unfold instant_ok in *. lia.
    + by rewrite (Hext s now) by done.
  - rewrite Hr. destruct Hok as (ss & s & rs & r & H1 & H2 & H3 & H4 & H5 & H6).
    exists ss, s, rs, r. unfold sql_text. rewrite H1. done.
Qed.

(** After an edit at [now] that keeps no start of the future. *)
Lemma window_ok_edit now extra :
  recent now -> t_ns (parseExtraTime (index extra sk)) <= t_ns now ->
  sk ≠ uk -> rk ≠ uk -> rk ≠ sk -> extra !! rk = Some (format_utc (nextf now)) ->
  window_ok (align_window uk sk (lastf now) extra).
Proof.
  intros Hnow Hpast N1 N2 N3 Hr. pose proof (recent_ok _ Hnow) as Hi.
  destruct (read_next now Hi) as (v & Hv & Ev). pose proof (lastf_range now Hi) as Hlr.
  unfold align_window. remember (parseExtraTime (index extra sk)) as start eqn:Est.
  destruct (is_zero start || before start (lastf now)) eqn:Eb.
  - destruct (Hlast now Hi) as (k & Hk & _).
    destruct (parse_s (time_in (lastf now) UTC)) as (u & Hu & Eu).
    { cbn. unfold recent in Hnow. unfold_time. lia. }
    { cbn. rewrite Hk. apply point_second. }
    cbn in Eu. assert (instant_ok u) as Hou by (unfold instant_ok, recent in *; unfold_time; lia).
    exists (FormatRFC3339 (time_in (lastf now) UTC)), u,
      (FormatRFC3339 (time_in (nextf now) UTC)), v.
    rewrite lookup_insert_eq, lookup_insert_ne, lookup_insert_ne by done.
    split_and!; try done. rewrite Ev. symmetry.
    apply (next_same o h n c ltac:(lia) nextf lastf Hnext Hlast); [done|done|]. lia.
  - apply orb_false_iff in Eb as [Hz Hb]. unfold before in Hb. apply Z.ltb_ge in Hb.
    unfold index in Est. destruct (extra !! sk) as [[| | |ss| |]|] eqn:Es; cbn in Est; subst start; try done.
    destruct (ParseRFC3339Nano ss) as [s|] eqn:Ep.
    2:{ exfalso. by rewrite (parse_second_format ss Ep) in Hz. }
    assert (instant_ok s) as Hos by (unfold instant_ok, recent in *; unfold_time; lia).
    exists ss, s, (FormatRFC3339 (time_in (nextf now) UTC)), v. split_and!; try done.
    rewrite Ev. symmetry.
    apply (next_same o h n c ltac:(lia) nextf lastf Hnext Hlast); [done|done|]. lia.
Qed.
End Window.

(** ** The two windows of an account *)

(** A daily, or weekly, window with fixed resets, whose configuration both
    sides read alike: the zone is one of a constant offset, such as UTC, and is
    the same to Go and to PostgreSQL; the hour, and the weekly day, is one that
    the code's conversion and the statement's cast read as the same number in
    range, which a saved whole number is and a JSON null for the day is not
    ([null_day_disagrees]); the window has a limit. *)
Record daily_config (extra : jmap) (o dh : Z) : Prop := {
  dc_offset : offset_ok o;
  dc_hour_range : 0 <= dh < 24;
  dc_zone : extra_zone extra = fixed_zone o;
  dc_sql_zone : sql_zone extra = Some (fixed_zone o);
  dc_mode : extra !! "quota_daily_reset_mode"%string = Some (JString "fixed");
  dc_hour : extra_int extra "quota_daily_reset_hour" = dh;
  dc_sql_hour : sql_cast pg_int extra "quota_daily_reset_hour" 0 = Some dh;
  dc_limit : fgtb (parseExtraFloat64 (index extra "quota_daily_limit")) f0 = true
}.
Record weekly_config (extra : jmap) (o wd wh : Z) : Prop := {
  wc_offset : offset_ok o;
  wc_hour_range : 0 <= wh < 24;
  wc_day_range : 0 <= wd <= 6;
  wc_zone : extra_zone extra = fixed_zone o;
  wc_sql_zone : sql_zone extra = Some (fixed_zone o);
  wc_mode : extra !! "quota_weekly_reset_mode"%string = Some (JString "fixed");
  wc_hour : extra_int extra "quota_weekly_reset_hour" = wh;
  wc_sql_hour : sql_cast pg_int extra "quota_weekly_reset_hour" 0 = Some wh;
  wc_day : configured_day extra = wd;
  wc_sql_day : sql_cast pg_int extra "quota_weekly_reset_day" 1 = Some wd;
  wc_limit : fgtb (parseExtraFloat64 (index extra "quota_weekly_limit")) f0 = true
}.

Lemma config_reads extra extra' (H : keeps_config extra extra') :
  extra_zone extra' = extra_zone extra /\ sql_zone extra' = sql_zone extra /\
  configured_day extra' = configured_day extra /\
  ∀ k, k ∉ window_state_keys ->
    extra_int extra' k = extra_int extra k /\ index extra' k = index extra k /\
    get_string extra' k = get_string extra k /\
    ∀ {B} (cast : string -> option B) d, sql_cast cast extra' k d = sql_cast cast extra k d.
Proof.
  unfold extra_zone, extra_zone_name, sql_zone, configured_day, extra_int, index, get_string,
    sql_cast, sql_text.
  rewrite !(H "quota_reset_timezone"%string), !(H "quota_weekly_reset_day"%string)
    by decide_key.
  split_and!; try done. intros k Hk. by rewrite (H k Hk).
Qed.

Lemma daily_config_keeps extra extra' o dh :
  keeps_config extra extra' -> daily_config extra' o dh -> daily_config extra o dh.
Proof.
  intros H [H1 H2 H3 H4 H5 H6 H7 H8]. destruct (config_reads _ _ H) as (E1 & E2 & _ & E4).
  rewrite E1 in H3. rewrite E2 in H4. rewrite (H "quota_daily_reset_mode"%string) in H5 by decide_key.
  destruct (E4 "quota_daily_reset_hour"%string ltac:(decide_key)) as (F1 & _ & _ & F4).
  destruct (E4 "quota_daily_limit"%string ltac:(decide_key)) as (_ & F2 & _ & _).
  rewrite F1 in H6. rewrite F4 in H7. rewrite F2 in H8. by constructor.
Qed.

Lemma weekly_config_keeps extra extra' o wd wh :
  keeps_config extra extra' -> weekly_config extra' o wd wh -> weekly_config extra o wd wh.
Proof.
  intros H [H1 H2 Hd H3 H4 H5 H6 H7 H9 H10 H8]. destruct (config_reads _ _ H) as (E1 & E2 & E3 & E4).
  rewrite E1 in H3. rewrite E2 in H4. rewrite (H "quota_weekly_reset_mode"%string) in H5 by decide_key.
  destruct (E4 "quota_weekly_reset_hour"%string ltac:(decide_key)) as (F1 & _ & _ & F4).
  destruct (E4 "quota_weekly_reset_day"%string ltac:(decide_key)) as (_ & _ & _ & F5).
  destruct (E4 "quota_weekly_limit"%string ltac:(decide_key)) as (_ & F2 & _ & _).
  rewrite F1 in H6. rewrite F4 in H7. rewrite E3 in H9. rewrite F5 in H10. rewrite F2 in H8.
  by constructor.
Qed.

(** The instances of the progression. *)
Lemma daily_next o dh : offset_ok o -> 0 <= dh < 24 -> ∀ t, instant_ok t ->
  ∃ k, t_ns (nextFixedDailyReset dh (fixed_zone o) t) = reset_point o dh k /\ k mod 1 = 0 /\
    reset_point o dh (k - 1) <= t_ns t < reset_point o dh k.
Proof.
  intros Ho Hh t Ht. destruct (nextFixedDailyReset_point o dh Ho Hh t Ht) as (k & ? & ?).
  exists k. split_and!; try done; [apply Z.mod_1_r|lia..].
Qed.
Lemma daily_last o dh : offset_ok o -> 0 <= dh < 24 -> ∀ t, instant_ok t ->
  ∃ k, t_ns (lastFixedDailyReset dh (fixed_zone o) t) = reset_point o dh k /\ k mod 1 = 0 /\
    reset_point o dh k <= t_ns t < reset_point o dh (k + 1).
Proof.
  intros Ho Hh t Ht. destruct (lastFixedDailyReset_point o dh Ho Hh t Ht) as (k & ? & ?).
  exists k. split_and!; try done; [apply Z.mod_1_r|lia..].
Qed.
(** Day 4 of the count, a Monday (1970-01-05), is one day after a Sunday. *)
Lemma weekly_class d k : 0 <= d <= 6 -> (k + 4) mod 7 = d <-> k mod 7 = (d + 3) mod 7.
Proof. intros Hd. Z.div_mod_to_equations. lia. Qed.
Lemma weekly_next o d wh : offset_ok o -> 0 <= wh < 24 -> 0 <= d <= 6 -> ∀ t, instant_ok t ->
  ∃ k, t_ns (nextFixedWeeklyReset d wh (fixed_zone o) t) = reset_point o wh k /\
    k mod 7 = (d + 3) mod 7 /\ reset_point o wh (k - 7) <= t_ns t < reset_point o wh k.
Proof.
  intros Ho Hh Hd t Ht.
  destruct (nextFixedWeeklyReset_point o wh Ho Hh d Hd t Ht) as (k & H1 & H2 & H3).
  exists k. rewrite <- weekly_class; done.
Qed.
Lemma weekly_last o d wh : offset_ok o -> 0 <= wh < 24 -> 0 <= d <= 6 -> ∀ t, instant_ok t ->
  ∃ k, t_ns (lastFixedWeeklyReset d wh (fixed_zone o) t) = reset_point o wh k /\
    k mod 7 = (d + 3) mod 7 /\ reset_point o wh k <= t_ns t < reset_point o wh (k + 7).
Proof.
  intros Ho Hh Hd t Ht.
  destruct (lastFixedWeeklyReset_point o wh Ho Hh d Hd t Ht) as (k & H1 & H2 & H3).
  exists k. rewrite <- weekly_class; done.
Qed.

Lemma time_in_ext s t z : t_ns s = t_ns t -> time_in s z = time_in t z.
Proof. intros H. unfold time_in. by rewrite H. Qed.
Lemma nextFixedDailyReset_ext dh z s t :
  t_ns s = t_ns t -> nextFixedDailyReset dh z s = nextFixedDailyReset dh z t.
Proof.
  intros H. unfold nextFixedDailyReset, day_reset, before. by rewrite (time_in_ext s t z H), H.
Qed.
Lemma nextFixedWeeklyReset_ext d wh z s t :
  t_ns s = t_ns t -> nextFixedWeeklyReset d wh z s = nextFixedWeeklyReset d wh z t.
Proof.
  intros H. unfold nextFixedWeeklyReset, day_reset, before. by rewrite (time_in_ext s t z H), H.
Qed.

(** ** The next reset, computed twice *)

Section Laws.
Context {CT : ClockTexts}.

Lemma pg_today o h now :
  offset_ok o -> 0 <= h < 24 -> instant_ok now -> ∀ n,
  t_ns (pg_from_local (fixed_zone o) (today_local (fixed_zone o) h now + n * day_ns))
  = reset_point o h (local_day o now + n).
Proof.
  intros Ho Hh Hnow n. rewrite from_local_fixed.
  assert (today_local (fixed_zone o) h now = local_day o now * day_ns + h * hour) as -> by done.
  unfold reset_point. lia.
Qed.

Lemma pg_next_daily now extra o dh :
  daily_config extra o dh -> instant_ok now ->
  nextDailyResetAtExpr now extra
  = Some (Some (FormatRFC3339 (time_in (nextFixedDailyReset dh (fixed_zone o) now) UTC))).
Proof.
  intros [H1 H2 H3 H4 H5 H6 H7 H8] Hnow. unfold nextDailyResetAtExpr, is_fixed, sql_text.
  rewrite H5, H4, H7. cbn [default String.eqb mbind option_bind]. do 2 f_equal. apply format_same.
  pose proof (pg_today o dh now H1 H2 Hnow) as Ht. unfold nextFixedDailyReset, before.
  pose proof (Ht 0) as Ht0. rewrite Z.mul_0_l, !Z.add_0_r in Ht0.
  pose proof (Ht 1) as Ht1. rewrite Z.mul_1_l in Ht1. rewrite Ht0, day_reset_point by done.
  destruct (t_ns now <? _); cbn [negb]; [by rewrite Ht0, day_reset_point|].
  by rewrite Ht1, day_reset_add by (done || lia).
Qed.

Lemma pg_next_weekly now extra o wd wh :
  weekly_config extra o wd wh -> instant_ok now ->
  nextWeeklyResetAtExpr now extra
  = Some (Some (FormatRFC3339 (time_in (nextFixedWeeklyReset wd wh (fixed_zone o) now) UTC))).
Proof.
  intros [H1 H2 Hd H3 H4 H5 H6 H7 H9 H10 H8] Hnow. unfold nextWeeklyResetAtExpr, is_fixed, sql_text.
  rewrite H5, H4, H7, H10. cbn [default String.eqb mbind option_bind]. do 2 f_equal. apply format_same.
  pose proof (pg_today o wh now H1 H2 Hnow) as Ht. unfold nextFixedWeeklyReset, before.
  rewrite weekday_day_reset, day_reset_point by done.
  assert (Weekday (time_in now (fixed_zone o)) = (local_day o now + 4) mod 7) as -> by done.
  set (cd := (local_day o now + 4) mod 7). pose proof (weekday_range (local_day o now)) as Hcd. fold cd in Hcd.
  assert (add64 (sub64 wd cd) 7 = wd - cd + 7) as ->.
  { unfold add64, sub64. rewrite !(wrap64_id (wd - cd)); [apply wrap64_id|];
      unfold in_int64, min_int64, max_int64; lia. }
  assert (0 <= Z.rem (wd - cd + 7) 7 < 7) as Hr by (apply Z.rem_bound_pos; lia).
  pose proof (Ht 0) as Ht0. rewrite Z.mul_0_l, !Z.add_0_r in Ht0. rewrite Ht0.
  set (f := Z.rem (wd - cd + 7) 7) in *. clearbody f.
  destruct ((f =? 0) && _); rewrite Ht, day_reset_add by (done || lia); done.
Qed.

Lemma clamp_hour_id x : 0 <= x < 24 -> clamp_hour x = x.
Proof. intros Hx. unfold clamp_hour. by replace ((x <? 0) || (23 <? x)) with false by (symmetry; bool_lia). Qed.
Lemma weekly_day_id extra d : configured_day extra = d -> 0 <= d <= 6 -> weekly_day extra = d.
Proof.
  intros <- Hd. unfold weekly_day.
  by replace ((configured_day extra <? 0) || (6 <? configured_day extra)) with false by (symmetry; bool_lia).
Qed.
Lemma get_string_fixed extra k : extra !! k = Some (JString "fixed") -> get_string extra k = "fixed"%string.
Proof. intros H. unfold get_string. by rewrite H. Qed.

Lemma Compute_lookup now extra k :
  k ≠ "quota_daily_reset_at"%string -> k ≠ "quota_weekly_reset_at"%string ->
  ComputeQuotaResetAt now extra !! k = extra !! k.
Proof.
  intros H1 H2. unfold ComputeQuotaResetAt.
  destruct (String.eqb (get_string extra "quota_daily_reset_mode") "fixed");
    destruct (String.eqb (get_string _ "quota_weekly_reset_mode") "fixed");
    rewrite ?lookup_insert_ne, ?lookup_delete_ne, ?lookup_insert_ne, ?lookup_delete_ne by done; done.
Qed.
Lemma Compute_keeps now extra : keeps_config extra (ComputeQuotaResetAt now extra).
Proof. intros k Hk. apply Compute_lookup; intros ->; apply Hk; decide_key. Qed.

Lemma Compute_daily now extra o dh :
  daily_config extra o dh ->
  ComputeQuotaResetAt now extra !! "quota_daily_reset_at"%string
  = Some (format_utc (nextFixedDailyReset dh (fixed_zone o) now)).
Proof.
  intros [H1 H2 H3 H4 H5 H6 H7 H8]. unfold ComputeQuotaResetAt.
  rewrite (get_string_fixed _ _ H5), String.eqb_refl, H3, H6, clamp_hour_id by done.
  destruct (String.eqb (get_string _ "quota_weekly_reset_mode") "fixed");
    rewrite ?lookup_insert_ne, ?lookup_delete_ne by done; apply lookup_insert_eq.
Qed.

Lemma Compute_weekly now extra o wd wh :
  weekly_config extra o wd wh ->
  ComputeQuotaResetAt now extra !! "quota_weekly_reset_at"%string
  = Some (format_utc (nextFixedWeeklyReset wd wh (fixed_zone o) now)).
Proof.
  intros [H1 H2 Hd H3 H4 H5 H6 H7 H9 H10 H8]. unfold ComputeQuotaResetAt.
  set (extra1 := if String.eqb (get_string extra "quota_daily_reset_mode") "fixed" then _ else _).
  assert (keeps_config extra extra1) as Hk.
  { intros k Hk. subst extra1. destruct (String.eqb _ _); [apply lookup_insert_ne|apply lookup_delete_ne];
      intros <-; apply Hk; decide_key. }
  destruct (config_reads _ _ Hk) as (_ & _ & E3 & E4).
  destruct (E4 "quota_weekly_reset_hour"%string ltac:(decide_key)) as (F1 & _).
  destruct (E4 "quota_weekly_reset_mode"%string ltac:(decide_key)) as (_ & _ & F2 & _).
  rewrite F2, (get_string_fixed _ _ H5), String.eqb_refl, F1, H3, H6, clamp_hour_id by done.
  rewrite (weekly_day_id extra1 wd) by (try done; congruence). apply lookup_insert_eq.
Qed.

Lemma align_lookup uk sk last extra k : k ≠ uk -> k ≠ sk -> align_window uk sk last extra !! k = extra !! k.
Proof.
  intros H1 H2. unfold align_window. destruct (_ || _); [|done]. by rewrite !lookup_insert_ne.
Qed.

(** The two parts of the normalisation, which do not meet. *)
Lemma Normalize_lookup now extra k :
  k ∉ ["quota_daily_used"; "quota_daily_start"; "quota_weekly_used"; "quota_weekly_start"]%string ->
  NormalizeFixedQuotaWindows now extra !! k = extra !! k.
Proof.
  intros Hk. unfold NormalizeFixedQuotaWindows.
  destruct (_ && fgtb (parseExtraFloat64 (index extra "quota_daily_limit")) f0);
    destruct (_ && fgtb _ f0); rewrite ?align_lookup by set_solver; done.
Qed.
Lemma Normalize_keeps now extra : keeps_config extra (NormalizeFixedQuotaWindows now extra).
Proof. intros k Hk. apply Normalize_lookup. intros H. apply Hk. unfold window_state_keys. set_solver. Qed.

Lemma Normalize_daily now extra o dh k :
  daily_config extra o dh -> k ∈ daily_state_keys ->
  NormalizeFixedQuotaWindows now extra !! k
  = align_window "quota_daily_used" "quota_daily_start"
      (lastFixedDailyReset dh (fixed_zone o) now) extra !! k.
Proof.
  intros [H1 H2 H3 H4 H5 H6 H7 H8] Hk. unfold NormalizeFixedQuotaWindows.
  rewrite (get_string_fixed _ _ H5), String.eqb_refl, H8, H3, H6, clamp_hour_id by done. cbn [andb].
  destruct (_ && fgtb _ f0); [|done]. rewrite align_lookup by set_solver. done.
Qed.

Lemma Normalize_weekly now extra o wd wh k :
  weekly_config extra o wd wh -> k ∈ weekly_state_keys ->
  NormalizeFixedQuotaWindows now extra !! k
  = align_window "quota_weekly_used" "quota_weekly_start"
      (lastFixedWeeklyReset wd wh (fixed_zone o) now) extra !! k.
Proof.
  intros [H1 H2 Hd H3 H4 H5 H6 H7 H9 H10 H8] Hk. unfold NormalizeFixedQuotaWindows.
  set (extra1 := if String.eqb (get_string extra "quota_daily_reset_mode") "fixed" && _ then _ else _).
  assert (∀ k, k ≠ "quota_daily_used"%string -> k ≠ "quota_daily_start"%string -> extra1 !! k = extra !! k) as He.
  { intros k' K1 K2. subst extra1. destruct (_ && _); [|done]. by rewrite align_lookup. }
  assert (keeps_config extra extra1) as Hkeep by (intros k' K; apply He; intros ->; apply K; decide_key).
  destruct (config_reads _ _ Hkeep) as (_ & _ & E3 & E4).
  destruct (E4 "quota_weekly_reset_hour"%string ltac:(decide_key)) as (F1 & _).
  destruct (E4 "quota_weekly_reset_mode"%string ltac:(decide_key)) as (_ & _ & F2 & _).
  destruct (E4 "quota_weekly_limit"%string ltac:(decide_key)) as (_ & F3 & _).
  rewrite F2, (get_string_fixed _ _ H5), String.eqb_refl, F3, H8, F1, H3, H6, clamp_hour_id by done.
  rewrite (weekly_day_id extra1 wd) by (try done; congruence). cbn [andb].
  unfold align_window, index. rewrite (He "quota_weekly_start"%string) by done.
  assert (k ≠ "quota_daily_used"%string /\ k ≠ "quota_daily_start"%string) as [Nk1 Nk2]
    by (split; intros ->; revert Hk; decide_key).
  destruct (_ || _); [|by apply He].
  destruct (decide (k = "quota_weekly_start"%string)) as [->|N1]; [by rewrite !lookup_insert_eq|].
  rewrite !(lookup_insert_ne _ "quota_weekly_start"%string) by done.
  destruct (decide (k = "quota_weekly_used"%string)) as [->|N2]; [by rewrite !lookup_insert_eq|].
  rewrite !(lookup_insert_ne _ "quota_weekly_used"%string) by done. by apply He.
Qed.

(** ** Edits and counted costs in any order *)

(** Saving a configuration at [now], and counting a cost at [now]: an edit
    starts from a column whose window starts are not in the future. *)
Definition started (now : time) (extra : jmap) (key : string) : Prop :=
  t_ns (parseExtraTime (index extra key)) <= t_ns now.

Inductive quota_reach : jmap -> Prop :=
  | reach_edit now extra :
      recent now -> started now extra "quota_daily_start" -> started now extra "quota_weekly_start" ->
      quota_reach (NormalizeFixedQuotaWindows now (ComputeQuotaResetAt now extra))
  | reach_count now amount extra extra' :
      quota_reach extra -> recent now -> t_ns now mod 1000 = 0 ->
      sql_increment now amount extra = Some extra' -> quota_reach extra'.

Definition daily_ok o dh := window_ok "quota_daily_start" "quota_daily_reset_at"
  (nextFixedDailyReset dh (fixed_zone o)).
Definition weekly_ok o wd wh := window_ok "quota_weekly_start" "quota_weekly_reset_at"
  (nextFixedWeeklyReset wd wh (fixed_zone o)).

Lemma window_ok_ext sk rk nextf extra extra' :
  extra' !! sk = extra !! sk -> extra' !! rk = extra !! rk ->
  window_ok sk rk nextf extra -> window_ok sk rk nextf extra'.
Proof. intros H1 H2. unfold window_ok. by rewrite H1, H2. Qed.

Lemma edit_started now extra key :
  key ≠ "quota_daily_reset_at"%string -> key ≠ "quota_weekly_reset_at"%string ->
  started now extra key -> started now (ComputeQuotaResetAt now extra) key.
Proof. intros H1 H2. unfold started, index. by rewrite Compute_lookup. Qed.

Lemma daily_keys : NoDup ["quota_daily_used"; "quota_daily_start"; "quota_daily_reset_at"]%string.
Proof. repeat constructor; set_solver. Qed.
Lemma weekly_keys : NoDup ["quota_weekly_used"; "quota_weekly_start"; "quota_weekly_reset_at"]%string.
Proof. repeat constructor; set_solver. Qed.

Lemma reach_daily extra o dh : quota_reach extra -> daily_config extra o dh -> daily_ok o dh extra.
Proof.
  intros Hreach. induction Hreach as [now extra Hnow Hd _|now amount extra extra' _ IH Hnow Hmic Hinc]; intros Hc.
  - apply (daily_config_keeps _ _ _ _ (Normalize_keeps now _)) in Hc.
    pose proof (daily_config_keeps _ _ _ _ (Compute_keeps now extra) Hc) as Hc0.
    pose proof Hc0 as [Ho Hh _ _ _ _ _ _].
    eapply window_ok_ext; [apply (Normalize_daily _ _ _ _ _ Hc); set_solver..|].
    eapply (window_ok_edit "quota_daily_used" _ _ o dh 1 0); [lia|by apply daily_next|by apply daily_last
      |done|by apply edit_started|done|done|done|]. by apply Compute_daily.
  - apply sql_increment_Some in Hinc as (used & daily & weekly & _ & Hp & _ & _ & Hl & _ & Hk).
    pose proof (daily_config_keeps _ _ _ _ Hk Hc) as Hc0. specialize (IH Hc0).
    rewrite (pg_next_daily _ _ _ _ Hc0 (recent_ok _ Hnow)) in Hp. pose proof Hc0 as [Ho Hh _ _ _ _ _ _].
    eapply (window_ok_count "quota_daily_reset_mode" _ "quota_daily_used" _ _ _ daily_keys o dh 1 0);
      [..|exact Hp|exact Hl]; try done; [by apply daily_next|by apply daily_last|].
    intros. by apply nextFixedDailyReset_ext.
Qed.

Lemma reach_weekly extra o wd wh : quota_reach extra -> weekly_config extra o wd wh -> weekly_ok o wd wh extra.
Proof.
  intros Hreach. induction Hreach as [now extra Hnow _ Hd|now amount extra extra' _ IH Hnow Hmic Hinc]; intros Hc.
  - apply (weekly_config_keeps _ _ _ _ _ (Normalize_keeps now _)) in Hc.
    pose proof (weekly_config_keeps _ _ _ _ _ (Compute_keeps now extra) Hc) as Hc0.
    pose proof Hc0 as [Ho Hh Hwd _ _ _ _ _ _ _ _].
    eapply window_ok_ext; [apply (Normalize_weekly _ _ _ _ _ _ Hc); set_solver..|].
    eapply (window_ok_edit "quota_weekly_used" _ _ o wh 7); [lia|by apply weekly_next|by apply weekly_last
      |done|by apply edit_started|done|done|done|]. by apply Compute_weekly.
  - apply sql_increment_Some in Hinc as (used & daily & weekly & _ & _ & Hp & _ & _ & Hl & Hk).
    pose proof (weekly_config_keeps _ _ _ _ _ Hk Hc) as Hc0. specialize (IH Hc0).
    rewrite (pg_next_weekly _ _ _ _ _ Hc0 (recent_ok _ Hnow)) in Hp.
    pose proof Hc0 as [Ho Hh Hwd _ _ _ _ _ _ _ _].
    eapply (window_ok_count "quota_weekly_reset_mode" _ "quota_weekly_used" _ _ _ weekly_keys o wh 7);
      [..|exact Hp|exact Hl]; try done; [by apply weekly_next|by apply weekly_last|].
    intros. by apply nextFixedWeeklyReset_ext.
Qed.

Lemma account_zone_extra a : account_zone a = extra_zone (acc_Extra a).
Proof. done. Qed.
Lemma getExtraInt_extra extra k : getExtraInt extra k = extra_int extra k.
Proof. unfold getExtraInt, extra_int, index. by destruct (extra !! k). Qed.
Lemma ResetDay_configured a : GetQuotaWeeklyResetDay a = configured_day (acc_Extra a).
Proof. unfold GetQuotaWeeklyResetDay, configured_day, getExtraInt. by destruct (acc_Extra a !! _). Qed.

Lemma expiry_agrees_lemma a now :
  quota_reach (acc_Extra a) -> instant_ok now ->
  (∀ o dh, daily_config (acc_Extra a) o dh ->
     dailyExpiredExpr now (acc_Extra a) = Some (IsDailyQuotaPeriodExpired now a)) /\
  (∀ o wd wh, weekly_config (acc_Extra a) o wd wh ->
     weeklyExpiredExpr now (acc_Extra a) = Some (IsWeeklyQuotaPeriodExpired now a)).
Proof.
  intros Hr Hnow. split.
  - intros o dh Hc. pose proof Hc as [Ho Hh Hz _ Hm Hhour _ _].
    unfold dailyExpiredExpr.
    rewrite (window_ok_agree _ _ _ _ o dh 1 0 ltac:(lia) _ _ (daily_next o dh Ho Hh)
      (daily_last o dh Ho Hh)) by (done || by eapply reach_daily).
    unfold IsDailyQuotaPeriodExpired, GetQuotaDailyResetMode, reset_mode, getExtraString.
    rewrite (get_string_fixed _ _ Hm). cbn [String.eqb]. do 2 f_equal.
    unfold isFixedDailyPeriodExpired, go_over, GetQuotaDailyResetHour.
    by rewrite account_zone_extra, Hz, getExtraInt_extra, Hhour.
  - intros o wd wh Hc. pose proof Hc as [Ho Hh Hd Hz _ Hm Hhour _ Hday _ _].
    unfold weeklyExpiredExpr.
    rewrite (window_ok_agree _ _ _ _ o wh 7 _ ltac:(lia) _ _ (weekly_next o wd wh Ho Hh Hd)
      (weekly_last o wd wh Ho Hh Hd)) by (done || by eapply reach_weekly).
    unfold IsWeeklyQuotaPeriodExpired, GetQuotaWeeklyResetMode, reset_mode, getExtraString.
    rewrite (get_string_fixed _ _ Hm). cbn [String.eqb]. do 2 f_equal.
    unfold isFixedWeeklyPeriodExpired, go_over, GetQuotaWeeklyResetHour.
    by rewrite account_zone_extra, Hz, getExtraInt_extra, ResetDay_configured, Hhour, Hday.
Qed.

(** C20. The two sides agree on when a window with fixed resets in a zone of
    constant offset is over, provided the two read its configuration alike
    ([daily_config], [weekly_config]: one zone, without changes of offset; an
    hour from 0 to 23 and a day from 0 to 6 that are the same number to the
    code and to the statement; a positive limit).  After any sequence of saved
    configurations and counted costs, the expiry the UPDATE computes from the
    stored reset time is then, at every instant, the one the Go code computes
    from the stored start of the window.  Zones that change their offset are
    left out: an hour that a change skips is another instant to each side. *)
Theorem expiry_agrees a now :
  quota_reach (acc_Extra a) -> instant_ok now ->
  (∀ o dh, daily_config (acc_Extra a) o dh ->
     dailyExpiredExpr now (acc_Extra a) = Some (IsDailyQuotaPeriodExpired now a)) /\
  (∀ o wd wh, weekly_config (acc_Extra a) o wd wh ->
     weeklyExpiredExpr now (acc_Extra a) = Some (IsWeeklyQuotaPeriodExpired now a)).
Proof. apply expiry_agrees_lemma. Qed.

(** The reset time the UPDATE stores when a window is over is, for both
    windows, the text the Go code stores when the configuration is saved at
    that instant. *)
Theorem next_reset_agrees now extra :
  instant_ok now ->
  (∀ o dh, daily_config extra o dh -> ∃ s, nextDailyResetAtExpr now extra = Some (Some s) /\
     ComputeQuotaResetAt now extra !! "quota_daily_reset_at"%string = Some (JString s)) /\
  (∀ o wd wh, weekly_config extra o wd wh -> ∃ s, nextWeeklyResetAtExpr now extra = Some (Some s) /\
     ComputeQuotaResetAt now extra !! "quota_weekly_reset_at"%string = Some (JString s)).
Proof.
  intros Hnow. split.
  - intros o dh Hc. rewrite (pg_next_daily _ _ _ _ Hc Hnow), (Compute_daily _ _ _ _ Hc). by eexists.
  - intros o wd wh Hc. rewrite (pg_next_weekly _ _ _ _ _ Hc Hnow), (Compute_weekly _ _ _ _ _ Hc). by eexists.
Qed.

(** The stored text of a reset that is still to come. *)
Lemma future_reset mk sk rk period now extra t :
  extra !! mk = Some (JString "fixed") -> extra !! rk = Some (format_utc t) ->
  (∃ v, pg_timestamptz (FormatRFC3339 (time_in t UTC)) = Some v /\ t_ns v = t_ns t) ->
  t_ns now < t_ns t -> expired_expr mk rk sk period now extra = Some false.
Proof.
  intros Hm Hr (v & Hv & Ev) Hlt. unfold expired_expr, is_fixed, sql_cast, sql_text.
  rewrite Hm, Hr. cbn [default String.eqb]. unfold format_utc. rewrite Hv. cbn. unfold before.
  rewrite Ev. by replace (t_ns now <? t_ns t) with true by (symmetry; bool_lia).
Qed.

Lemma edited_lookup now extra k :
  k ∉ ["quota_daily_used"; "quota_daily_start"; "quota_weekly_used"; "quota_weekly_start"]%string ->
  k ≠ "quota_daily_reset_at"%string -> k ≠ "quota_weekly_reset_at"%string ->
  NormalizeFixedQuotaWindows now (ComputeQuotaResetAt now extra) !! k = extra !! k.
Proof. intros H1 H2 H3. by rewrite Normalize_lookup, Compute_lookup. Qed.

(** Saving a configuration leaves no window with fixed resets already over:
    usage from before the last reset is dropped, so that a saved limit counts
    from that reset on. *)
Theorem edit_opens_windows now a extra :
  recent now -> started now extra "quota_daily_start" -> started now extra "quota_weekly_start" ->
  acc_Extra a = NormalizeFixedQuotaWindows now (ComputeQuotaResetAt now extra) ->
  (∀ o dh, daily_config (acc_Extra a) o dh -> IsDailyQuotaPeriodExpired now a = false) /\
  (∀ o wd wh, weekly_config (acc_Extra a) o wd wh -> IsWeeklyQuotaPeriodExpired now a = false).
Proof.
  intros Hnow Hd Hw Ha. pose proof (recent_ok _ Hnow) as Hi.
  destruct (expiry_agrees_lemma a now) as [Hag Haw]; [rewrite Ha; by constructor|done|].
  split.
  - intros o dh Hc. specialize (Hag _ _ Hc). rewrite Ha in Hc.
    apply (daily_config_keeps _ _ _ _ (Normalize_keeps now _)) in Hc.
    apply (daily_config_keeps _ _ _ _ (Compute_keeps now _)) in Hc. pose proof Hc as [Ho Hh _ _ Hm _ _ _].
    unfold dailyExpiredExpr in Hag.
    rewrite (future_reset _ _ _ _ _ _ (nextFixedDailyReset dh (fixed_zone o) now)) in Hag; [congruence|..].
    + rewrite Ha, edited_lookup; [done|set_solver|done..].
    + rewrite Ha, Normalize_lookup by set_solver. by apply Compute_daily.
    + by apply (read_next o dh 1 0 ltac:(lia) _ (daily_next o dh Ho Hh)).
    + by apply (nextf_range o dh 1 0 ltac:(lia) _ (daily_next o dh Ho Hh)).
  - intros o wd wh Hc. specialize (Haw _ _ _ Hc). rewrite Ha in Hc.
    apply (weekly_config_keeps _ _ _ _ _ (Normalize_keeps now _)) in Hc.
    apply (weekly_config_keeps _ _ _ _ _ (Compute_keeps now _)) in Hc.
    pose proof Hc as [Ho Hh Hwd _ _ Hm _ _ _ _ _]. unfold weeklyExpiredExpr in Haw.
    rewrite (future_reset _ _ _ _ _ _ (nextFixedWeeklyReset wd wh (fixed_zone o) now)) in Haw; [congruence|..].
    + rewrite Ha, edited_lookup; [done|set_solver|done..].
    + rewrite Ha, Normalize_lookup by set_solver. by apply Compute_weekly.
    + by apply (read_next o wh 7 _ ltac:(lia) _ (weekly_next o wd wh Ho Hh Hwd)).
    + by apply (nextf_range o wh 7 _ ltac:(lia) _ (weekly_next o wd wh Ho Hh Hwd)).
Qed.
End Laws.

(** ** What a counted cost announces *)

Section Announce.
Context (sha256_hex : string -> string).

Definition account_key (id : Z) : string :=
  schedulerOutboxDedupKey sha256_hex SchedulerOutboxEventAccountChanged (Some id) None None.
Definition some_crossed (s : AccountQuotaState) (amount : float64) : bool :=
  crossed (aq_TotalLimit s) (aq_TotalUsed s) amount || crossed (aq_DailyLimit s) (aq_DailyUsed s) amount
  || crossed (aq_WeeklyLimit s) (aq_WeeklyUsed s) amount.

Lemma announce_Ok id db db' :
  announce sha256_hex id db = (Ok tt, db') ->
  ad_rows db' = ad_rows db /\
  ∃ r, r ∈ ob_rows (ad_outbox db') /\ row_dedup_key r = Some (account_key id).
Proof.
  unfold announce, enqueueSchedulerOutbox, outbox_begin.
  assert (dedup_key_for sha256_hex SchedulerOutboxEventAccountChanged (Some id) None None
          = Some (account_key id)) as -> by done.
  destruct (existsb _ (ob_rows (ad_outbox db))) eqn:Ee; cbn.
  - intros [= <-]. split; [done|]. apply existsb_exists in Ee as (r & Hr & Hk). exists r.
    split; [apply elem_of_app; left; by apply list_elem_of_In|].
    unfold has_key in Hk. destruct (row_dedup_key r) as [k|]; [|done].
    by apply String.eqb_eq in Hk as ->.
  - destruct (existsb _ (ob_open (ad_outbox db))); cbn; [done|]. intros [= <-]. split; [done|].
    eexists. split; [apply elem_of_app; right; apply elem_of_filterb; split;
      [apply elem_of_app; right; by left|cbn; apply Z.eqb_refl]|done].
Qed.

Lemma update_quota_outbox {B} (ret : jmap -> option B) id amount db r db' :
  update_quota ret id amount db = (r, db') -> ad_outbox db' = ad_outbox db.
Proof.
  unfold update_quota. destruct (live_account id db) as [a|]; [|by intros [= _ <-]].
  destruct (_ ≫= _) as [[e s]|]; by intros [= _ <-].
Qed.

(** A cost that pushes an account over its total, daily or weekly quota is
    announced to the scheduler in the same transaction: afterwards a pending
    row of the outbox carries the account's key.  A cost that crosses no limit
    announces nothing. *)
Theorem crossing_announced id amount db state db' :
  incrementUsageBillingAccountQuota sha256_hex id amount db = (Ok state, db') ->
  if some_crossed state amount
  then ∃ r, r ∈ ob_rows (ad_outbox db') /\ row_dedup_key r = Some (account_key id)
  else ad_outbox db' = ad_outbox db.
Proof.
  unfold incrementUsageBillingAccountQuota. intros (row & db1 & Hu & H)%mbind_Ok.
  apply update_quota_outbox in Hu. destruct row as [s|]; [|done].
  fold (some_crossed s amount) in H. destruct (some_crossed s amount) eqn:Ec.
  - apply mbind_Ok in H as ([] & db2 & Ha & [= <- <-]). rewrite Ec.
    by apply announce_Ok in Ha as [_ ?].
  - injection H as <- <-. by rewrite Ec.
Qed.

(** The repository's own statement announces the total only: a cost that
    crosses the daily or the weekly limit leaves the outbox as it was, and the
    scheduler keeps an account that is over its quota. *)
Theorem own_statement_announces_total_only id amount db used limit db1 :
  update_quota returning_total id amount db = (Ok (Some (used, limit)), db1) ->
  crossed limit used amount = false ->
  repo_IncrementQuotaUsed sha256_hex id amount db = (Ok tt, db1) /\ ad_outbox db1 = ad_outbox db.
Proof.
  intros Hu Hc. unfold repo_IncrementQuotaUsed, mbind_. rewrite Hu. cbn. rewrite Hc. split; [done|].
  by apply update_quota_outbox in Hu.
Qed.

(** A reset hour with a fraction passes the validation, which truncates it,
    but the server refuses its text as an integer: from the moment the window
    is over, every charge of the account fails and counts nothing. *)
Theorem accepted_hour_stops_billing id amount db a x l :
  live_account id db = Some a ->
  acc_Extra a !! "quota_daily_reset_hour"%string = Some (JNumber x) -> 0 <= f64_to_int64 x <= 23 ->
  pg_int (pg_text (JNumber x)) = None ->
  acc_Extra a !! "quota_daily_reset_mode"%string = Some (JString "fixed") ->
  sql_numeric (acc_Extra a) "quota_daily_limit" = Some l -> fgtb l f0 = true ->
  dailyExpiredExpr (ob_now (ad_outbox db)) (acc_Extra a) = Some true ->
  check_range (acc_Extra a) "quota_daily_reset_hour" 23
    "quota_daily_reset_hour must be between 0 and 23" = Ok tt /\
  incrementUsageBillingAccountQuota sha256_hex id amount db = (Err sql_error, db).
Proof.
  intros Ha Hh Hx Hint Hm Hl Hpos Hover. split.
  - unfold check_range. rewrite Hh. cbn [parseExtraFloat64].
    by replace ((f64_to_int64 x <? 0) || (23 <? f64_to_int64 x)) with false by (symmetry; bool_lia).
  - unfold incrementUsageBillingAccountQuota, mbind_, update_quota. rewrite Ha.
    assert (nextDailyResetAtExpr (ob_now (ad_outbox db)) (acc_Extra a) = None) as Hn.
    { unfold nextDailyResetAtExpr, is_fixed, sql_cast, sql_text. rewrite Hm, Hh.
      cbn [default String.eqb]. rewrite Hint. by destruct (sql_zone (acc_Extra a)). }
    assert (sql_increment (ob_now (ad_outbox db)) amount (acc_Extra a) = None) as ->; [|done].
    unfold sql_increment. destruct (sql_numeric (acc_Extra a) "quota_used"); [|done].
    cbn [mbind option_bind].
    match goal with |- context [window_part (dailyExpiredExpr ?n ?e) ?x ?lk ?uk ?sk ?rk ?t ?am ?e] =>
      assert (window_part (dailyExpiredExpr n e) x lk uk sk rk t am e = None) as -> end; [|done].
    unfold window_part. rewrite Hl. cbn [mbind option_bind]. by rewrite Hpos, Hover, Hn.
Qed.
End Announce.
End Props.

(** ** Instances

    A host and a server whose texts are the binary digits of the instant in
    nanoseconds; the only zone name is UTC; numbers print in decimal, a number
    with a fraction prints as a text that is no integer. *)

Fixpoint bits (p : positive) : string :=
  match p with
  | xH => EmptyString
  | xO q => String "0"%char (bits q)
  | xI q => String "1"%char (bits q)
  end.
Fixpoint read_bits (s : string) : option positive :=
  match s with
  | EmptyString => Some xH
  | String c r =>
    match read_bits r with
    | Some q => if Ascii.eqb c "0"%char then Some (xO q) else if Ascii.eqb c "1"%char then Some (xI q) else None
    | None => None
    end
  end.
Lemma read_bits_bits p : read_bits (bits p) = Some p.
Proof. induction p as [p IH|p IH|]; simpl; [by rewrite IH..|done]. Qed.

Definition ex_print (t : time) : string := bits (Z.to_pos (t_ns t + 1)).
Definition ex_read (s : string) : option time :=
  (λ p, mk_time (Zpos p - 1) UTC) <$> read_bits s.
Definition ex_zone (name : string) : option Location :=
  if String.eqb name "UTC" then Some (fixed_zone 0) else None.
Definition ex_integral (x : float64) : bool := feqb (f64_of_Z (f64_to_int64 x)) x.

#[local] Instance ex_host : GoHost := {|
  LoadLocation := ex_zone; ParseRFC3339Nano := ex_read; ParseRFC3339 := ex_read;
  FormatRFC3339 := ex_print; ParseFloat := λ s, f64_of_Z <$> Atoi s |}.
#[local] Instance ex_postgres : Postgres := {|
  pg_text v := match v with
               | JNumber x => if ex_integral x then pretty (f64_to_int64 x) else "0.5"%string
               | _ => ""%string end;
  pg_numeric s := f64_of_Z <$> Atoi s;
  pg_int := Atoi; pg_timestamptz := ex_read; pg_zone := ex_zone;
  pg_from_local loc x := mk_time (x - offset_at loc 0 * second) loc;
  pg_format_us := ex_print; pg_format_s := ex_print; pg_add := fadd |}.
#[local] Instance ex_texts : ClockTexts.
Proof.
  assert (∀ t, 0 <= t_ns t -> ex_read (ex_print t) = Some (mk_time (t_ns t) UTC)) as Hr.
  { intros t Ht. unfold ex_read, ex_print. rewrite read_bits_bits. cbn. do 2 f_equal. lia. }
  split; cbn.
  - done.
  - intros s u Hu _. by exists u.
  - intros t Ht _. exists (mk_time (t_ns t) UTC). split; [apply Hr, Ht|done].
  - intros t [Ht _] _. exists (mk_time (t_ns t) UTC). split; [by apply Hr|done].
  - intros t u Heq. unfold ex_print. cbn. by rewrite Heq.
  - done.
Qed.

(** 2025-01-01 10:00 UTC; resets at 9 o'clock, weekly on Monday. *)
Definition ex_now : time := mk_time (1735725600 * second) UTC.
Definition ex_outbox : Outbox := {| ob_rows := []; ob_open := []; ob_next := 1; ob_now := ex_now |}.
Definition ex_fixed_extra : jmap :=
  {[ "quota_daily_reset_mode"%string := JString "fixed"; "quota_daily_reset_hour"%string := JNumber (f64_of_Z 9);
     "quota_daily_limit"%string := JNumber (f64_of_Z 10); "quota_weekly_reset_mode"%string := JString "fixed";
     "quota_weekly_reset_hour"%string := JNumber (f64_of_Z 9); "quota_weekly_limit"%string := JNumber (f64_of_Z 20) ]}.
Definition ex_saved : jmap := NormalizeFixedQuotaWindows ex_now (ComputeQuotaResetAt ex_now ex_fixed_extra).
Definition ex_account (extra : jmap) : Account := {|
  acc_ID := 9; acc_Name := "a"; acc_Notes := None; acc_Platform := "anthropic"; acc_PlatformID := Some 1;
  acc_PlatformName := "p"; acc_Type := AccountTypeAPIKey; acc_Credentials := ∅; acc_Extra := extra;
  acc_ProxyID := None; acc_ProxyFallbackOriginID := None; acc_ProxyFallbackOriginName := None;
  acc_Concurrency := 1; acc_Priority := 1; acc_RateMultiplier := None; acc_LoadFactor := None;
  acc_Status := StatusActive; acc_ErrorMessage := ""; acc_LastUsedAt := None; acc_ExpiresAt := None;
  acc_AutoPauseOnExpired := false; acc_CreatedAt := ex_now; acc_UpdatedAt := ex_now;
  acc_Schedulable := true; acc_RateLimitedAt := None; acc_RateLimitResetAt := None;
  acc_OverloadUntil := None; acc_TempUnschedulableUntil := None; acc_TempUnschedulableReason := "";
  acc_SessionWindowStart := None; acc_SessionWindowEnd := None; acc_SessionWindowStatus := "";
  acc_ParentAccountID := None; acc_QuotaDimension := "" |}.
Definition ex_accounts (extra : jmap) : AccountDB :=
  {| ad_rows := {[ 9 := Build_AccountRow (ex_account extra) false ]}; ad_outbox := ex_outbox |}.

#[local] Existing Instance ascii_only_case.

(** The next morning at half past nine, after a reset. *)
Definition ex_later : time := mk_time (t_ns ex_now + 24 * hour - 30 * minute) UTC.
Definition ex_counted : jmap := default ∅ (sql_increment ex_now (f64_of_Z 4) ex_saved).

Lemma ex_counted_eq : sql_increment ex_now (f64_of_Z 4) ex_saved = Some ex_counted.
Proof.
  assert (match sql_increment ex_now (f64_of_Z 4) ex_saved with Some _ => true | None => false end = true)
    as H by (vm_compute; reflexivity).
  unfold ex_counted. by destruct (sql_increment ex_now (f64_of_Z 4) ex_saved).
Qed.
Lemma ex_reach : quota_reach ex_counted.
Proof.
  apply (reach_count ex_now (f64_of_Z 4) ex_saved).
  - apply reach_edit; [by split|by vm_compute..].
  - by split.
  - done.
  - apply ex_counted_eq.
Qed.
Lemma ex_daily_config extra :
  keeps_config extra ex_fixed_extra -> daily_config extra 0 9.
Proof.
  intros H. apply (daily_config_keeps _ _ _ _ H).
  split; try (vm_compute; reflexivity); unfold offset_ok; lia.
Qed.
Lemma ex_weekly_config extra :
  keeps_config extra ex_fixed_extra -> weekly_config extra 0 1 9.
Proof.
  intros H. apply (weekly_config_keeps _ _ _ _ _ H).
  split; try (vm_compute; reflexivity); unfold offset_ok; lia.
Qed.
Lemma ex_counted_keeps : keeps_config ex_counted ex_fixed_extra.
Proof.
  intros k Hk. symmetry.
  destruct (sql_increment_Some _ _ _ _ ex_counted_eq) as (? & ? & ? & _ & _ & _ & _ & _ & _ & Hkeep).
  rewrite (Hkeep k Hk). unfold ex_saved.
  by rewrite (Normalize_keeps ex_now _ k Hk), (Compute_keeps ex_now _ k Hk).
Qed.

Lemma expiry_agrees_witness :
  dailyExpiredExpr ex_later ex_counted = Some true /\ weeklyExpiredExpr ex_later ex_counted = Some false.
Proof.
  destruct (expiry_agrees (ex_account ex_counted) ex_later ex_reach) as [Hd Hw]; [by split|].
  cbn [acc_Extra ex_account] in Hd, Hw.
  rewrite (Hd 0 9 (ex_daily_config _ ex_counted_keeps)), (Hw 0 1 9 (ex_weekly_config _ ex_counted_keeps)).
  vm_compute. split; reflexivity.
Defined.

(** A weekly reset day of JSON null is Sunday to the code and Monday to the
    statement.  A cost counted on Sunday at half past nine opens a window that
    the statement closes on Monday at nine and the code a week later, so on
    Monday at half past nine they disagree. *)
Definition ex_null_day : jmap := <["quota_weekly_reset_day"%string := JNull]> ex_fixed_extra.
Definition ex_sunday : time := mk_time (t_ns ex_now + 96 * hour - 30 * minute) UTC.
Definition ex_monday : time := mk_time (t_ns ex_sunday + 24 * hour) UTC.
Definition ex_null_saved : jmap := NormalizeFixedQuotaWindows ex_now (ComputeQuotaResetAt ex_now ex_null_day).
Definition ex_null_counted : jmap := default ∅ (sql_increment ex_sunday (f64_of_Z 4) ex_null_saved).
Lemma ex_null_counted_eq : sql_increment ex_sunday (f64_of_Z 4) ex_null_saved = Some ex_null_counted.
Proof.
  assert (match sql_increment ex_sunday (f64_of_Z 4) ex_null_saved with Some _ => true | None => false end = true)
    as H by (vm_compute; reflexivity).
  unfold ex_null_counted. by destruct (sql_increment ex_sunday (f64_of_Z 4) ex_null_saved).
Qed.
Theorem null_day_disagrees :
  ValidateQuotaResetConfig ex_null_day = Ok tt /\ quota_reach ex_null_counted /\
  weeklyExpiredExpr ex_monday ex_null_counted = Some true /\
  IsWeeklyQuotaPeriodExpired ex_monday (ex_account ex_null_counted) = false.
Proof.
  split_and!; [vm_compute; reflexivity| |vm_compute; reflexivity..].
  apply (reach_count ex_sunday (f64_of_Z 4) ex_null_saved).
  - apply reach_edit; [by split|by vm_compute..].
  - by split.
  - done.
  - apply ex_null_counted_eq.
Qed.

Lemma next_reset_agrees_witness :
  ∃ s, nextDailyResetAtExpr ex_now ex_fixed_extra = Some (Some s) /\
    ComputeQuotaResetAt ex_now ex_fixed_extra !! "quota_daily_reset_at"%string = Some (JString s).
Proof.
  destruct (next_reset_agrees ex_now ex_fixed_extra) as [Hd _]; [by split|].
  apply (Hd 0 9). by apply ex_daily_config.
Defined.

Lemma edit_opens_windows_witness : IsDailyQuotaPeriodExpired ex_now (ex_account ex_saved) = false.
Proof.
  destruct (edit_opens_windows ex_now (ex_account ex_saved) ex_fixed_extra) as [Hd _];
    [by split|by vm_compute..|reflexivity|].
  apply (Hd 0 9), ex_daily_config. intros k Hk. symmetry. cbn [acc_Extra ex_account].
  unfold ex_saved. by rewrite (Normalize_keeps ex_now _ k Hk), (Compute_keeps ex_now _ k Hk).
Defined.

Abbreviation ex_hash := (λ s : string, s).
(** The third cost of 4 USD crosses the daily limit of 10 USD, not the total. *)
Definition ex_spent : jmap := <["quota_daily_used"%string := JNumber (f64_of_Z 8)]> ex_counted.

Definition ex_charge := incrementUsageBillingAccountQuota ex_hash 9 (f64_of_Z 4) (ex_accounts ex_spent).
Definition ex_own := update_quota returning_total 9 (f64_of_Z 4) (ex_accounts ex_spent).
Lemma ex_charge_crosses :
  match ex_charge.1 with Ok state => some_crossed state (f64_of_Z 4) | Err _ => false end = true.
Proof. vm_compute. reflexivity. Qed.
Lemma ex_own_total_free :
  match ex_own.1 with
  | Ok (Some (used, limit)) => negb (crossed limit used (f64_of_Z 4))
  | _ => false end = true.
Proof. vm_compute. reflexivity. Qed.

Lemma crossing_announced_witness :
  ∃ r, r ∈ ob_rows (ad_outbox ex_charge.2) /\ row_dedup_key r = Some (account_key ex_hash 9).
Proof.
  pose proof ex_charge_crosses as Hc. destruct ex_charge as [[state|e] db'] eqn:E; [|discriminate Hc].
  unfold ex_charge in E.
  pose proof (crossing_announced ex_hash 9 (f64_of_Z 4) (ex_accounts ex_spent) state db' E) as H.
  cbn [fst] in Hc. rewrite Hc in H. exact H.
Defined.

Lemma own_statement_announces_total_only_witness :
  ob_rows (ad_outbox (repo_IncrementQuotaUsed ex_hash 9 (f64_of_Z 4) (ex_accounts ex_spent)).2) = [].
Proof.
  pose proof ex_own_total_free as Hc.
  destruct ex_own as [[[[used limit]|]|e] db1] eqn:E; [|discriminate Hc..].
  unfold ex_own in E.
  destruct (own_statement_announces_total_only ex_hash 9 (f64_of_Z 4) (ex_accounts ex_spent) used limit db1 E)
    as [Hr Ho].
  - cbn [fst] in Hc. by apply negb_true_iff in Hc.
  - rewrite Hr. cbn [snd]. rewrite Ho. reflexivity.
Defined.

Definition ex_half_past : jmap := <["quota_daily_reset_hour"%string := JNumber (f64_lit 95 (-1))]> ex_fixed_extra.
Lemma accepted_hour_stops_billing_witness :
  ValidateQuotaResetConfig ex_half_past = Ok tt /\
  incrementUsageBillingAccountQuota ex_hash 9 (f64_of_Z 4) (ex_accounts ex_half_past)
  = (Err sql_error, ex_accounts ex_half_past).
Proof.
  split; [vm_compute; reflexivity|].
  apply (accepted_hour_stops_billing ex_hash 9 (f64_of_Z 4) (ex_accounts ex_half_past)
           (ex_account ex_half_past) (f64_lit 95 (-1)) (f64_of_Z 10));
    try (vm_compute; reflexivity). vm_compute. split; congruence.
Defined.
