(* ===== verification/SchedulerCache.v ===== *)
(** * The scheduler's snapshot cache

    [repository/scheduler_cache.go] and the types of
    [service/scheduler_cache.go]: versioned snapshots of the account pools in
    Redis.  A bucket has an epoch that fences writers, a persistent mark when
    it is retired, a counter of snapshot versions and the version readers use.
    A script is one step; [SetSnapshot] runs two of them and writes the data in
    between, so that writers interleave.

    The values of the integer keys are written by these scripts only, so they
    are integers here.  A snapshot is a sorted set: a member has the index of
    its last occurrence as its score.  An account that is written is read back
    as it was; [encodable] says which accounts have a JSON form.  A key that
    will expire is marked in [ks_expiring].

    The calls of a publication may fail, each after a part of its commands was
    executed ([call_answer]); the other operations are taken to be answered.
    A pipeline of members breaks at any member, so the chunks it is cut into
    make no difference. *)

From stdpp Require Import pretty.
From S2P Require Import Prelude GoErrors Float64 GoTime GoStrings GoText Account.

Definition SchedulerModeSingle : string := "single".
Definition SchedulerModeMixed : string := "mixed".
Definition SchedulerModeForced : string := "forced".

Definition ErrSchedulerBucketRetired : error := EPlain "scheduler bucket retired".
Definition ErrSchedulerBucketWriteFenced : error := EPlain "scheduler bucket write fenced".
Definition ErrSchedulerPlatformLifecycleLeaseInvalid : error :=
  EPlain "scheduler platform lifecycle lease invalid".
Definition ErrSchedulerPlatformLifecycleLeaseLost : error :=
  EPlain "scheduler platform lifecycle lease lost".

Record SchedulerBucket := { bk_PlatformID : Z; bk_Platform : string; bk_Mode : string }.
#[global] Instance bucket_eq_dec : EqDecision SchedulerBucket.
Proof. solve_decision. Defined.

Record SchedulerBucketWriteToken := { tok_Bucket : SchedulerBucket; tok_Epoch : Z }.
Definition token_ValidFor (t : SchedulerBucketWriteToken) (b : SchedulerBucket) : bool :=
  (0 <? tok_Epoch t) && bool_decide (tok_Bucket t = b).

Record SchedulerPlatformLifecycleLease := { lease_PlatformID : Z; lease_OwnerToken : string }.
Definition lease_ValidFor (l : SchedulerPlatformLifecycleLease) (platformID : Z) : bool :=
  (0 <? platformID) && (lease_PlatformID l =? platformID) && negb (str_empty (lease_OwnerToken l)).

(** [SchedulerBucket.String], also the suffix of the bucket's keys. *)
Definition bucket_String (b : SchedulerBucket) : string :=
  (pretty (bk_PlatformID b) ++ ":" ++ bk_Platform b ++ ":" ++ bk_Mode b)%string.

Definition ParseSchedulerBucket (raw : string) : option SchedulerBucket :=
  match Split raw ":" with
  | [id; platform; mode] =>
    match Atoi id with
    | Some platformID =>
      if str_empty platform || str_empty mode then None
      else Some (Build_SchedulerBucket platformID platform mode)
    | None => None
    end
  | _ => None
  end.

(** ** What is kept of an account *)

Definition kept_keys (keys : list string) (m : jmap) : jmap :=
  filter (λ kv, bool_decide (kv.1 ∈ keys) && negb (is_null kv.2) = true) m.

Definition scheduler_credential_keys : list string :=
  ["compact_model_mapping"; "api_key"; "project_id"; "oauth_type"; "plan_type"]%string.
Definition filterSchedulerCredentials (credentials : jmap) : jmap :=
  kept_keys scheduler_credential_keys credentials.

(** A member of a decoded object, and the members with a value among [keys]. *)
Definition field (key : string) (fields : list (string * json)) : json :=
  match List.find (λ kv, String.eqb kv.1 key) fields with Some (_, v) => v | None => JNull end.
Definition kept_fields (keys : list string) (fields : list (string * json)) : list (string * json) :=
  filterb (λ kv, negb (is_null kv.2)) (map (λ key, (key, field key fields)) keys).

Definition filterSchedulerUpstreamBillingProbe (v : json) : option json :=
  match v with
  | JObject source =>
    match field "status" source with
    | JString status =>
      if str_empty status then None else
      let filtered := ("status"%string, JString status)
        :: kept_fields ["received_at"; "fresh_until"; "next_probe_at"]%string source in
      match field "data" source with
      | JObject data =>
        let filteredData := kept_fields ["billing_scope"; "resolved_rate_multiplier"; "peak_rate_enabled";
          "peak_start"; "peak_end"; "peak_rate_multiplier"; "timezone"]%string data in
        Some (JObject (if is_nil filteredData then filtered
                       else filtered ++ [("data"%string, JObject filteredData)]))
      | _ => Some (JObject filtered)
      end
    | _ => None
    end
  | _ => None
  end.

Definition UpstreamBillingProbeExtraKey : string := "upstream_billing_probe".
Definition GrokMediaEligibleExtraKey : string := "grok_media_eligible".
Definition scheduler_extra_keys : list string :=
  ["quota_limit"; "quota_used"; "quota_daily_limit"; "quota_daily_used"; "quota_daily_start";
   "quota_daily_reset_mode"; "quota_daily_reset_hour"; "quota_weekly_limit"; "quota_weekly_used";
   "quota_weekly_start"; "quota_weekly_reset_mode"; "quota_weekly_reset_day"; "quota_weekly_reset_hour";
   "quota_reset_timezone"; "mixed_scheduling"; "window_cost_limit"; "window_cost_sticky_reserve";
   "max_sessions"; "session_idle_timeout_minutes"; "openai_oauth_responses_websockets_v2_enabled";
   "openai_oauth_responses_websockets_v2_mode"; "openai_apikey_responses_websockets_v2_enabled";
   "openai_apikey_responses_websockets_v2_mode"; "responses_websockets_v2_enabled"; "openai_ws_enabled";
   "openai_ws_force_http"; "openai_responses_mode"; "openai_responses_supported";
   "codex_5h_used_percent"; "codex_7d_used_percent"; "codex_5h_reset_at"; "codex_7d_reset_at";
   "codex_5h_reset_after_seconds"; "codex_7d_reset_after_seconds"; "codex_usage_updated_at";
   "auto_pause_5h_threshold"; "auto_pause_7d_threshold"; "auto_pause_5h_disabled";
   "auto_pause_7d_disabled"; "model_rate_limits"; UpstreamBillingProbeExtraKey;
   GrokMediaEligibleExtraKey; "grok_billing_snapshot"]%string.

Definition filterSchedulerExtra (extra : jmap) : jmap :=
  let kept := kept_keys scheduler_extra_keys extra in
  match kept !! UpstreamBillingProbeExtraKey with
  | Some v =>
    match filterSchedulerUpstreamBillingProbe v with
    | Some v' => <[UpstreamBillingProbeExtraKey := v']> kept
    | None => delete UpstreamBillingProbeExtraKey kept
    end
  | None => kept
  end.

Definition buildSchedulerMetadataAccount (a : Account) : Account := {|
  acc_ID := acc_ID a; acc_Name := acc_Name a; acc_Notes := None; acc_Platform := acc_Platform a;
  acc_PlatformID := None; acc_PlatformName := EmptyString; acc_Type := acc_Type a;
  acc_Credentials := filterSchedulerCredentials (acc_Credentials a);
  acc_Extra := filterSchedulerExtra (acc_Extra a); acc_ProxyID := None;
  acc_ProxyFallbackOriginID := None; acc_ProxyFallbackOriginName := None;
  acc_Concurrency := acc_Concurrency a; acc_Priority := acc_Priority a;
  acc_RateMultiplier := acc_RateMultiplier a; acc_LoadFactor := acc_LoadFactor a;
  acc_Status := acc_Status a; acc_ErrorMessage := EmptyString; acc_LastUsedAt := acc_LastUsedAt a;
  acc_ExpiresAt := acc_ExpiresAt a; acc_AutoPauseOnExpired := acc_AutoPauseOnExpired a;
  acc_CreatedAt := time_zero; acc_UpdatedAt := time_zero; acc_Schedulable := acc_Schedulable a;
  acc_RateLimitedAt := acc_RateLimitedAt a; acc_RateLimitResetAt := acc_RateLimitResetAt a;
  acc_OverloadUntil := acc_OverloadUntil a; acc_TempUnschedulableUntil := acc_TempUnschedulableUntil a;
  acc_TempUnschedulableReason := acc_TempUnschedulableReason a;
  acc_SessionWindowStart := acc_SessionWindowStart a; acc_SessionWindowEnd := acc_SessionWindowEnd a;
  acc_SessionWindowStatus := acc_SessionWindowStatus a; acc_ParentAccountID := acc_ParentAccountID a;
  acc_QuotaDimension := acc_QuotaDimension a |}.

(** ** The keys of one bucket and its scripts

    A script returns a number: -1 for a retired bucket, -2 for an epoch that
    is not the writer's. *)

Record BucketKeys := {
  ks_epoch : option Z;
  ks_retired : option Z;
  ks_version : option Z;
  ks_active : option Z;
  ks_ready : bool;
  ks_registered : bool;
  ks_locked : bool;
  ks_snapshots : gmap Z (gmap Z Z);
  ks_expiring : gset Z
}.
Definition no_keys : BucketKeys := Build_BucketKeys None None None None false false false ∅ ∅.

Definition with_epoch (e : Z) (k : BucketKeys) : BucketKeys :=
  Build_BucketKeys (Some e) (ks_retired k) (ks_version k) (ks_active k) (ks_ready k) (ks_registered k)
    (ks_locked k) (ks_snapshots k) (ks_expiring k).
Definition with_retired (r : option Z) (k : BucketKeys) : BucketKeys :=
  Build_BucketKeys (ks_epoch k) r (ks_version k) (ks_active k) (ks_ready k) (ks_registered k)
    (ks_locked k) (ks_snapshots k) (ks_expiring k).
Definition with_version (v : Z) (k : BucketKeys) : BucketKeys :=
  Build_BucketKeys (ks_epoch k) (ks_retired k) (Some v) (ks_active k) (ks_ready k) (ks_registered k)
    (ks_locked k) (ks_snapshots k) (ks_expiring k).
Definition with_active (a : option Z) (ready registered : bool) (k : BucketKeys) : BucketKeys :=
  Build_BucketKeys (ks_epoch k) (ks_retired k) (ks_version k) a ready registered
    (ks_locked k) (ks_snapshots k) (ks_expiring k).
Definition with_lock (b : bool) (k : BucketKeys) : BucketKeys :=
  Build_BucketKeys (ks_epoch k) (ks_retired k) (ks_version k) (ks_active k) (ks_ready k)
    (ks_registered k) b (ks_snapshots k) (ks_expiring k).
Definition with_snapshots (m : gmap Z (gmap Z Z)) (x : gset Z) (k : BucketKeys) : BucketKeys :=
  Build_BucketKeys (ks_epoch k) (ks_retired k) (ks_version k) (ks_active k) (ks_ready k)
    (ks_registered k) (ks_locked k) m x.

(** [DEL snapshot], and [EXPIRE snapshot ttl], which ignores a missing key. *)
Definition del_snapshot (v : Z) (k : BucketKeys) : BucketKeys :=
  with_snapshots (delete v (ks_snapshots k)) (ks_expiring k ∖ {[ v ]}) k.
Definition expire_snapshot (v : option Z) (k : BucketKeys) : BucketKeys :=
  match v with
  | Some v => if bool_decide (is_Some (ks_snapshots k !! v))
              then with_snapshots (ks_snapshots k) (ks_expiring k ∪ {[ v ]}) k else k
  | None => k
  end.

Definition captureBucketWriteTokenScript (k : BucketKeys) : Z * BucketKeys :=
  if bool_decide (is_Some (ks_retired k)) then (-1, k) else
  match ks_epoch k with
  | None => (1, with_epoch 1 k)
  | Some e => if e <? 1 then (-2, k) else (e, k)
  end.

Definition epoch_is (e : Z) (k : BucketKeys) : bool :=
  match ks_epoch k with Some e' => e' =? e | None => false end.

Definition allocateSnapshotVersionScript (epoch : Z) (k : BucketKeys) : Z * BucketKeys :=
  if bool_decide (is_Some (ks_retired k)) then (-1, k) else
  if negb (epoch_is epoch k) then (-2, k) else
  let v := default 0 (ks_version k) + 1 in (v, with_version v k).

Definition unpublish (k : BucketKeys) : BucketKeys :=
  with_active None false false (expire_snapshot (ks_active k) k).

Definition retireBucketScript (k : BucketKeys) : Z * BucketKeys :=
  let epoch := default 0 (ks_epoch k) in
  match ks_retired k with
  | None =>
    let e := if epoch + 1 <? 1 then 1 else epoch + 1 in
    (e, unpublish (with_retired (Some e) (with_epoch e k)))
  | Some r =>
    if epoch <? 1 then (r, unpublish (with_epoch r k)) else (epoch, unpublish k)
  end.

Definition reopenBucketScript (k : BucketKeys) : Z * BucketKeys :=
  match ks_retired k with
  | None =>
    match ks_epoch k with
    | None => (1, with_epoch 1 k)
    | Some e => if e <? 1 then (-2, k) else (e, k)
    end
  | Some r =>
    if r <? 1 then (-2, k) else
    let e := match ks_epoch k with Some e => if e <? r then r else e | None => r end in
    (e, unpublish (with_retired None (with_epoch e k)))
  end.

Definition activateSnapshotScript (v epoch : Z) (k : BucketKeys) : Z * BucketKeys :=
  if bool_decide (is_Some (ks_retired k)) then (-1, del_snapshot v k) else
  if negb (epoch_is epoch k) then (-2, del_snapshot v k) else
  if match ks_active k with Some cur => v <? cur | None => false end then (0, del_snapshot v k) else
  (1, with_active (Some v) true true
        (if bool_decide (ks_active k = Some v) then k else expire_snapshot (ks_active k) k)).

(** [ZADD] of the members in chunks: the last score of a member stays. *)
Definition zadd_members (ids : list Z) (z : gmap Z Z) : gmap Z Z :=
  foldl (λ z p, <[p.2 := Z.of_nat p.1]> z) z (imap pair ids).
Definition writeSnapshotAccountIDs (v : Z) (ids : list Z) (k : BucketKeys) : BucketKeys :=
  if is_nil ids then k else
  with_snapshots (<[v := zadd_members ids (default ∅ (ks_snapshots k !! v))]> (ks_snapshots k))
    (ks_expiring k) k.

(** [ZRANGE 0 -1]: by score, then by the text of the member. *)
Definition member_less (a b : Z * Z) : bool :=
  (a.2 <? b.2) || ((a.2 =? b.2) && String.ltb (pretty a.1) (pretty b.1)).
Definition zrange (z : gmap Z Z) : list Z := map fst (stable_sort member_less (map_to_list z)).

(** ** The cache *)

Record SchedRedis := {
  sr_buckets : gmap string BucketKeys;
  sr_accounts : gmap Z Account;
  sr_meta : gmap Z Account;
  sr_last_used : gmap Z Z;
  sr_watermark : option Z;
  sr_leases : gmap Z string
}.
Definition empty_redis : SchedRedis := Build_SchedRedis ∅ ∅ ∅ ∅ None ∅.

Definition keys_of (b : SchedulerBucket) (c : SchedRedis) : BucketKeys :=
  default no_keys (sr_buckets c !! bucket_String b).
Definition put_keys (b : SchedulerBucket) (k : BucketKeys) (c : SchedRedis) : SchedRedis :=
  Build_SchedRedis (<[bucket_String b := k]> (sr_buckets c)) (sr_accounts c) (sr_meta c)
    (sr_last_used c) (sr_watermark c) (sr_leases c).
Definition put_accounts (accounts meta : gmap Z Account) (last_used : gmap Z Z) (c : SchedRedis)
  : SchedRedis :=
  Build_SchedRedis (sr_buckets c) accounts meta last_used (sr_watermark c) (sr_leases c).
Definition put_leases (l : gmap Z string) (c : SchedRedis) : SchedRedis :=
  Build_SchedRedis (sr_buckets c) (sr_accounts c) (sr_meta c) (sr_last_used c) (sr_watermark c) l.

(** What becomes of a call: it is answered, or it fails after the first [ran]
    of its commands were executed.  A script is one command; a pipeline's are
    executed in order. *)
Inductive call_answer := Answered | Broken (ran : nat).
#[global] Instance call_answer_eq_dec : EqDecision call_answer.
Proof. solve_decision. Defined.
Definition redis_down : error := EPlain "redis: connection failed".
Definition called {B} (a : call_answer) (m : M SchedRedis B) : M SchedRedis B := λ c,
  match a with
  | Answered => m c
  | Broken O => (Err redis_down, c)
  | Broken (S _) => (Err redis_down, (m c).2)
  end.

(** The calls of one publication. *)
Record PublishAnswers := {
  pa_capture : call_answer;
  pa_allocate : call_answer;
  pa_accounts : call_answer;
  pa_members : call_answer;
  pa_activate : call_answer
}.
Definition all_answered : PublishAnswers :=
  Build_PublishAnswers Answered Answered Answered Answered Answered.

(** Running a script on the keys of a bucket. *)
Definition run_script (b : SchedulerBucket) (script : BucketKeys -> Z * BucketKeys) : M SchedRedis Z := λ c,
  let '(r, k) := script (keys_of b c) in (Ok r, put_keys b k c).

Definition schedulerBucketWriteResultError (result : Z) : option error :=
  if result =? -1 then Some ErrSchedulerBucketRetired
  else if result =? -2 then Some ErrSchedulerBucketWriteFenced else None.
Definition checked_result (result : Z) : M SchedRedis Z :=
  match schedulerBucketWriteResultError result with Some e => mfail e | None => mret result end.

Definition CaptureBucketWriteToken (a : call_answer) (b : SchedulerBucket)
  : M SchedRedis SchedulerBucketWriteToken :=
  let! result := called a (run_script b captureBucketWriteTokenScript) in
  let! epoch := checked_result result in
  mret (Build_SchedulerBucketWriteToken b epoch).

Definition RetireBucket (b : SchedulerBucket) : M SchedRedis unit :=
  let! result := run_script b retireBucketScript in
  if result <? 1 then mfail (EPlain "retire scheduler bucket returned invalid epoch") else mret tt.

Definition ReopenBucket (b : SchedulerBucket) : M SchedRedis SchedulerBucketWriteToken :=
  let! result := run_script b reopenBucketScript in
  let! epoch := checked_result result in
  mret (Build_SchedulerBucketWriteToken b epoch).

Definition allocateSnapshotVersion (a : call_answer) (b : SchedulerBucket)
  (token : SchedulerBucketWriteToken) : M SchedRedis Z :=
  let! result := called a (run_script b (allocateSnapshotVersionScript (tok_Epoch token))) in
  checked_result result.

Definition activateSnapshotVersion (a : call_answer) (b : SchedulerBucket)
  (token : SchedulerBucketWriteToken) (version : Z) : M SchedRedis unit :=
  let! result := called a (run_script b (activateSnapshotScript version (tok_Epoch token))) in
  let! _ := checked_result result in mret tt.

Section Encoding.
Context (encodable : Account -> bool).

(** Two commands for each account, its own key first. *)
Definition put_written (full meta : list Account) (c : SchedRedis) : SchedRedis :=
  put_accounts (foldl (λ m a, <[acc_ID a := a]> m) (sr_accounts c) full)
    (foldl (λ m a, <[acc_ID a := buildSchedulerMetadataAccount a]> m) (sr_meta c) meta)
    (sr_last_used c) c.
(** The accounts that have a JSON form are written and returned, in order;
    without any there is no call. *)
Definition writeAccountIDs (answer : call_answer) (accounts : list Account) : M SchedRedis (list Z) := λ c,
  let written := filterb encodable accounts in
  match answer, written with
  | Broken ran, _ :: _ =>
    (Err redis_down, put_written (take (Nat.div2 (S ran)) written) (take (Nat.div2 ran) written) c)
  | _, _ => (Ok (map acc_ID written), put_written written written c)
  end.

Definition writeSnapshotMembers (answer : call_answer) (b : SchedulerBucket) (version : Z) (ids : list Z)
  : M SchedRedis unit := λ c,
  match answer, ids with
  | Broken ran, _ :: _ =>
    (Err redis_down, put_keys b (writeSnapshotAccountIDs version (take ran ids) (keys_of b c)) c)
  | _, _ => (Ok tt, put_keys b (writeSnapshotAccountIDs version ids (keys_of b c)) c)
  end.

Definition writeSnapshotVersionAndReturnAccountIDs (pa : PublishAnswers) (b : SchedulerBucket) (version : Z)
  (accounts : list Account) : M SchedRedis (list Z) :=
  let! ids := writeAccountIDs (pa_accounts pa) accounts in
  let! _ := writeSnapshotMembers (pa_members pa) b version ids in
  mret ids.

Definition SetSnapshotAndReturnAccountIDs (pa : PublishAnswers) (b : SchedulerBucket)
  (token : SchedulerBucketWriteToken) (accounts : list Account) : M SchedRedis (list Z) :=
  if negb (token_ValidFor token b) then mfail ErrSchedulerBucketWriteFenced else
  let! version := allocateSnapshotVersion (pa_allocate pa) b token in
  let! ids := writeSnapshotVersionAndReturnAccountIDs pa b version accounts in
  let! _ := activateSnapshotVersion (pa_activate pa) b token version in
  mret ids.

Definition SetSnapshot (pa : PublishAnswers) (b : SchedulerBucket) (token : SchedulerBucketWriteToken)
  (accounts : list Account) : M SchedRedis unit :=
  if negb (token_ValidFor token b) then mfail ErrSchedulerBucketWriteFenced else
  let! version := allocateSnapshotVersion (pa_allocate pa) b token in
  let! _ := writeSnapshotVersionAndReturnAccountIDs pa b version accounts in
  activateSnapshotVersion (pa_activate pa) b token version.

Definition SetSnapshotByAccountIDs (pa : PublishAnswers) (b : SchedulerBucket)
  (token : SchedulerBucketWriteToken) (accountIDs : list Z) : M SchedRedis unit :=
  if negb (token_ValidFor token b) then mfail ErrSchedulerBucketWriteFenced else
  let! version := allocateSnapshotVersion (pa_allocate pa) b token in
  let! _ := writeSnapshotMembers (pa_members pa) b version accountIDs in
  activateSnapshotVersion (pa_activate pa) b token version.

(** ** Reading *)

Definition with_last_used (a : Account) (t : time) : Account := {|
  acc_ID := acc_ID a; acc_Name := acc_Name a; acc_Notes := acc_Notes a;
  acc_Platform := acc_Platform a; acc_PlatformID := acc_PlatformID a;
  acc_PlatformName := acc_PlatformName a; acc_Type := acc_Type a;
  acc_Credentials := acc_Credentials a; acc_Extra := acc_Extra a; acc_ProxyID := acc_ProxyID a;
  acc_ProxyFallbackOriginID := acc_ProxyFallbackOriginID a;
  acc_ProxyFallbackOriginName := acc_ProxyFallbackOriginName a;
  acc_Concurrency := acc_Concurrency a; acc_Priority := acc_Priority a;
  acc_RateMultiplier := acc_RateMultiplier a; acc_LoadFactor := acc_LoadFactor a;
  acc_Status := acc_Status a; acc_ErrorMessage := acc_ErrorMessage a; acc_LastUsedAt := Some t;
  acc_ExpiresAt := acc_ExpiresAt a; acc_AutoPauseOnExpired := acc_AutoPauseOnExpired a;
  acc_CreatedAt := acc_CreatedAt a; acc_UpdatedAt := acc_UpdatedAt a;
  acc_Schedulable := acc_Schedulable a; acc_RateLimitedAt := acc_RateLimitedAt a;
  acc_RateLimitResetAt := acc_RateLimitResetAt a; acc_OverloadUntil := acc_OverloadUntil a;
  acc_TempUnschedulableUntil := acc_TempUnschedulableUntil a;
  acc_TempUnschedulableReason := acc_TempUnschedulableReason a;
  acc_SessionWindowStart := acc_SessionWindowStart a; acc_SessionWindowEnd := acc_SessionWindowEnd a;
  acc_SessionWindowStatus := acc_SessionWindowStatus a; acc_ParentAccountID := acc_ParentAccountID a;
  acc_QuotaDimension := acc_QuotaDimension a |}.

Definition millisecond : Z := 1000000.
Definition unix_milli (ms : Z) : time := mk_time (ms * millisecond) UTC.
Definition applySchedulerLastUsed (a : Account) (value : option Z) : Account :=
  match value with
  | None => a
  | Some ms =>
    let t := unix_milli ms in
    if match acc_LastUsedAt a with None => true | Some u => after t u end then with_last_used a t else a
  end.

(** A hit needs a version that is ready, with members whose accounts are all
    there. *)
Definition GetSnapshot (b : SchedulerBucket) (c : SchedRedis) : option (list Account) :=
  let k := keys_of b c in
  if negb (ks_ready k) then None else
  match ks_active k with
  | None => None
  | Some v =>
    let ids := zrange (default ∅ (ks_snapshots k !! v)) in
    if is_nil ids then None else
    mapM (λ id, (λ a, applySchedulerLastUsed a (sr_last_used c !! id)) <$> sr_meta c !! id) ids
  end.

Definition cache_GetAccount (id : Z) (c : SchedRedis) : option Account :=
  (λ a, applySchedulerLastUsed a (sr_last_used c !! id)) <$> sr_accounts c !! id.

Definition DeleteAccount (id : Z) (c : SchedRedis) : SchedRedis :=
  if id <=? 0 then c else
  put_accounts (delete id (sr_accounts c)) (delete id (sr_meta c)) (delete id (sr_last_used c)) c.

(** One call: the account is written, or deleted when it has no JSON form. *)
Definition SetAccount (answer : call_answer) (account : option Account) : M SchedRedis unit :=
  match account with
  | None => mret tt
  | Some a =>
    if acc_ID a <=? 0 then mret tt else
    let! ids := writeAccountIDs answer [a] in
    if is_nil ids then called answer (λ c, (Ok tt, DeleteAccount (acc_ID a) c)) else mret tt
  end.

(** [MarshalJSON] of a time refuses years outside 0 to 9999. *)
Definition schedulerLastUsedMillis (t : time) : option Z :=
  if (-62167219200 * second <=? local_ns t) && (local_ns t <? 253402300800 * second)
  then Some (t_ns t / millisecond) else None.

Definition update_last_used (id : Z) (usedAt : time) (c : SchedRedis) : SchedRedis :=
  if id <=? 0 then c else
  match schedulerLastUsedMillis usedAt with
  | None => DeleteAccount id c
  | Some ms =>
    if bool_decide (is_Some (sr_accounts c !! id))
       && match sr_last_used c !! id with None => true | Some current => current <? ms end
    then put_accounts (sr_accounts c) (sr_meta c) (<[id := ms]> (sr_last_used c)) c else c
  end.
(** The updates of one pipeline name different accounts, so their order does
    not matter. *)
Definition UpdateLastUsed (updates : gmap Z time) (c : SchedRedis) : SchedRedis :=
  foldl (λ c kv, update_last_used kv.1 kv.2 c) c (map_to_list updates).

(** ** Locks, leases, the watermark *)

Definition TryLockBucket (b : SchedulerBucket) (c : SchedRedis) : bool * SchedRedis :=
  if ks_locked (keys_of b c) then (false, c) else (true, put_keys b (with_lock true (keys_of b c)) c).
Definition UnlockBucket (b : SchedulerBucket) (c : SchedRedis) : SchedRedis :=
  put_keys b (with_lock false (keys_of b c)) c.

Definition ListBuckets (c : SchedRedis) : list SchedulerBucket :=
  omap ParseSchedulerBucket (map fst (List.filter (λ kv, ks_registered kv.2) (map_to_list (sr_buckets c)))).

(** The owner token is drawn at random. *)
Definition TryAcquirePlatformLifecycleLease (platformID ttl : Z) (ownerToken : string)
  : M SchedRedis (option SchedulerPlatformLifecycleLease) := λ c,
  if platformID <=? 0 then (Err ErrSchedulerPlatformLifecycleLeaseInvalid, c) else
  if ttl <=? 0 then (Err ErrSchedulerPlatformLifecycleLeaseInvalid, c) else
  match sr_leases c !! platformID with
  | Some _ => (Ok None, c)
  | None => (Ok (Some (Build_SchedulerPlatformLifecycleLease platformID ownerToken)),
             put_leases (<[platformID := ownerToken]> (sr_leases c)) c)
  end.
Definition ReleasePlatformLifecycleLease (l : SchedulerPlatformLifecycleLease) : M SchedRedis unit := λ c,
  if negb (lease_ValidFor l (lease_PlatformID l)) then (Err ErrSchedulerPlatformLifecycleLeaseInvalid, c) else
  if bool_decide (sr_leases c !! lease_PlatformID l = Some (lease_OwnerToken l))
  then (Ok tt, put_leases (delete (lease_PlatformID l) (sr_leases c)) c)
  else (Err ErrSchedulerPlatformLifecycleLeaseLost, c).

Definition GetOutboxWatermark (c : SchedRedis) : Z := default 0 (sr_watermark c).
Definition SetOutboxWatermark (id : Z) (c : SchedRedis) : SchedRedis :=
  Build_SchedRedis (sr_buckets c) (sr_accounts c) (sr_meta c) (sr_last_used c) (Some id) (sr_leases c).

End Encoding.
