(* ===== verification/SchedulerSnapshot.v ===== *)
(** * The scheduler's snapshot service

    [service/scheduler_snapshot_service.go]: the pools of accounts the gateway
    schedules on, served from the cache, loaded from the database on a miss,
    and rebuilt when the outbox announces a change.  The service works on a
    [World]: the cache, the outbox and the database behind the two repositories
    it reads ([SchedulerDB]).  What becomes of its calls to Redis and to the outbox are
    arguments ([PublishAnswers], [PollFaults]); a database that fails is a
    value of [D] whose answers are errors. *)

From stdpp Require Import pretty.
From S2P Require Import Prelude GoErrors Float64 GoTime GoStrings GoText PlatformModels Account SchedulerOutbox SchedulerCache.

(** The fields the service reads of a platform. *)
Record SchedPlatform := { sp_platform_ID : Z; sp_platform_Status : string; sp_AccountPlatform : string }.

Class SchedulerDB (D : Type) := {
  db_ListPlatforms : D -> result (list SchedPlatform);
  db_ListPool : D -> Z -> string -> result (list Account);
  db_GetByID : D -> Z -> result Account
}.

Record World {D : Type} := { w_cache : SchedRedis; w_outbox : Outbox; w_db : D }.
Arguments World D : clear implicits.

Record SchedulingConfig := { OutboxPollIntervalSeconds : Z; FullRebuildIntervalSeconds : Z }.
Definition outboxPollInterval (cfg : option SchedulingConfig) : Z :=
  match cfg with
  | Some c => if OutboxPollIntervalSeconds c <=? 0 then second
              else mul64 (OutboxPollIntervalSeconds c) second
  | None => second
  end.
Definition fullRebuildInterval (cfg : option SchedulingConfig) : Z :=
  match cfg with
  | Some c => if FullRebuildIntervalSeconds c <=? 0 then 0
              else mul64 (FullRebuildIntervalSeconds c) second
  | None => 0
  end.

Definition schedulerPlatformBucket (platformID : Z) (accountPlatform : string) : SchedulerBucket :=
  Build_SchedulerBucket platformID accountPlatform SchedulerModeSingle.

(** ** Last-used times in a payload *)

(** A decoded number is a [float64]; the other cases of the code are values
    the decoder does not produce. *)
Definition schedulerInt64 (v : json) : option Z :=
  match v with JNumber x => Some (f64_to_int64 x) | _ => None end.

Definition merge_last_used (dst : gmap Z time) (kv : string * json) : gmap Z time :=
  match Atoi kv.1 with
  | Some id =>
    if id <=? 0 then dst else
    match schedulerInt64 kv.2 with
    | Some seconds => if 0 <? seconds then <[id := mk_time (seconds * second) UTC]> dst else dst
    | None => dst
    end
  | None => dst
  end.
Definition mergeSchedulerLastUsed (dst : gmap Z time) (payload : list (string * json)) : gmap Z time :=
  match field "last_used" payload with
  | JObject raw => foldl merge_last_used dst raw
  | _ => dst
  end.

Definition asks_rebuild (eventType : string) : bool :=
  String.eqb eventType SchedulerOutboxEventAccountChanged
  || String.eqb eventType SchedulerOutboxEventAccountPlatformChanged
  || String.eqb eventType SchedulerOutboxEventAccountBulkChanged
  || String.eqb eventType SchedulerOutboxEventPlatformChanged
  || String.eqb eventType SchedulerOutboxEventFullRebuild.

Section Service.
Context {D : Type} {DB : SchedulerDB D}.
Context (encodable : Account -> bool)
        (decode_payload : option string -> list (string * json)).

Definition on_cache {B} (m : M SchedRedis B) : M (World D) B := λ w,
  let '(r, c) := m (w_cache w) in
  (r, {| w_cache := c; w_outbox := w_outbox w; w_db := w_db w |}).
Definition set_cache (c : SchedRedis) (w : World D) : World D :=
  {| w_cache := c; w_outbox := w_outbox w; w_db := w_db w |}.

(** ** Publishing *)

(** The token is captured when the accounts are already loaded; a write that
    is refused or fails is only logged. *)
Definition publishSnapshot (pa : PublishAnswers) (b : SchedulerBucket) (accounts : list Account)
  (w : World D) : World D :=
  match on_cache (CaptureBucketWriteToken (pa_capture pa) b) w with
  | (Err _, w) => w
  | (Ok token, w) => (on_cache (SetSnapshot encodable pa b token accounts) w).2
  end.

(** ** Serving *)

(** A snapshot that cannot be read ([unread]) is a miss. *)
Definition lookup_or_load (unread : bool) (platformID : Z) (accountPlatform : string) (w : World D)
  : result (list Account * bool) :=
  let bucket := schedulerPlatformBucket platformID accountPlatform in
  match (if unread then None else GetSnapshot bucket (w_cache w)) with
  | Some cached => Ok (cached, true)
  | None => rbind (db_ListPool (w_db w) platformID accountPlatform) (λ accounts, Ok (accounts, false))
  end.

Definition ListSchedulableAccounts (unread : bool) (pa : PublishAnswers)
  (platformID : option Z) (accountPlatform : string) : M (World D) (list Account) := λ w,
  match platformID with
  | None => (Err ErrPlatformInvalid, w)
  | Some id =>
    if id <=? 0 then (Err ErrPlatformInvalid, w) else
    match lookup_or_load unread id accountPlatform w with
    | Err e => (Err e, w)
    | Ok (accounts, true) => (Ok accounts, w)
    | Ok (accounts, false) =>
      (Ok accounts, publishSnapshot pa (schedulerPlatformBucket id accountPlatform) accounts w)
    end
  end.

Definition GetAccount (unread : bool) (accountID : Z) (w : World D) : result (option Account) :=
  if accountID <=? 0 then Ok None else
  match (if unread then None else cache_GetAccount accountID (w_cache w)) with
  | Some a => Ok (Some a)
  | None => rbind (db_GetByID (w_db w) accountID) (λ a, Ok (Some a))
  end.

Definition UpdateAccountInCache (answer : call_answer) (account : option Account) : M (World D) unit :=
  match account with
  | None => mret tt
  | Some _ => on_cache (SetAccount encodable answer account)
  end.

(** ** Rebuilding *)

(** The calls of a publication, by its bucket. *)
Definition RebuildAnswers : Type := SchedulerBucket -> PublishAnswers.

Fixpoint rebuild_platforms (answers : RebuildAnswers) (platforms : list SchedPlatform)
  : M (World D) unit := λ w,
  match platforms with
  | [] => (Ok tt, w)
  | p :: rest =>
    if (sp_platform_ID p <=? 0) || negb (platform_IsActive (sp_platform_Status p))
    then rebuild_platforms answers rest w else
    let bucket := schedulerPlatformBucket (sp_platform_ID p) (sp_AccountPlatform p) in
    match db_ListPool (w_db w) (sp_platform_ID p) (sp_AccountPlatform p) with
    | Err e => (Err e, w)
    | Ok accounts =>
      rebuild_platforms answers rest (publishSnapshot (answers bucket) bucket accounts w)
    end
  end.
Definition rebuildAll (answers : RebuildAnswers) : M (World D) unit := λ w,
  match db_ListPlatforms (w_db w) with
  | Err e => (Err e, w)
  | Ok platforms => rebuild_platforms answers platforms w
  end.

(** ** Polling the outbox *)

(** What becomes of the calls of a poll: reading the watermark, the statement
    on the outbox, writing last-used times ([Some written] when it fails, with
    the accounts that were written before), the publications, saving the
    watermark. *)
Record PollFaults := {
  watermark_unread : bool;
  outbox_read : call_answer;
  last_used_unwritten : option (Z -> bool);
  rebuild_answers : RebuildAnswers;
  watermark_save : call_answer
}.
Definition no_faults : PollFaults :=
  Build_PollFaults false Answered None (λ _, all_answered) Answered.

Definition last_id (watermark : Z) (events : list SchedulerOutboxEvent) : Z :=
  foldl (λ _ e, ev_ID e) watermark events.
Definition last_used_of (events : list SchedulerOutboxEvent) : gmap Z time :=
  foldl (λ m e, if String.eqb (ev_EventType e) SchedulerOutboxEventAccountLastUsed
                then mergeSchedulerLastUsed m (decode_payload (ev_Payload e)) else m) ∅ events.

(** The end of a poll. *)
Definition rebuild_and_save (f : PollFaults) (watermark : Z) (events : list SchedulerOutboxEvent)
  (w : World D) : World D :=
  let '(r, w) := if existsb (λ e, asks_rebuild (ev_EventType e)) events
                 then rebuildAll (rebuild_answers f) w else (Ok tt, w) in
  match r with
  | Err _ => w
  | Ok _ =>
    match watermark_save f with
    | Broken O => w
    | _ => set_cache (SetOutboxWatermark (last_id watermark events) (w_cache w)) w
    end
  end.

Definition pollOutbox (f : PollFaults) (w : World D) : World D :=
  if watermark_unread f then w else
  let watermark := GetOutboxWatermark (w_cache w) in
  let '(events, ob) := ListAfterAndReleaseDedup watermark 500 (w_outbox w) in
  let read := {| w_cache := w_cache w; w_outbox := ob; w_db := w_db w |} in
  match outbox_read f with
  | Broken O => w
  | Broken (S _) => read
  | Answered =>
    let w := read in
    if is_nil events then w else
    let lastUsed := last_used_of events in
    let touched := bool_decide (lastUsed ≠ ∅) in
    match last_used_unwritten f with
    | Some written =>
      if touched then set_cache (UpdateLastUsed (filter (λ kv, written kv.1 = true) lastUsed) (w_cache w)) w
      else rebuild_and_save f watermark events w
    | None =>
      rebuild_and_save f watermark events
        (if touched then set_cache (UpdateLastUsed lastUsed (w_cache w)) w else w)
    end
  end.

End Service.
