(* ===== verification/OutboxProps.v ===== *)
(** * Properties of the scheduler outbox

    The worker's view of the outbox is a feed: the table and the watermark it
    reads from.  With statements that commit at once the unread rows are a
    queue: an announcement appends, a poll that succeeds drops the rows it
    read, a poll that fails drops none, and no announced change is lost.  With
    transactions that commit out of order a row can stay below the watermark
    for good, and its key then swallows every later change of its account. *)

From stdpp Require Import pretty.
From S2P Require Import Prelude GoErrors Float64 GoTime GoStrings GoText PlatformModels Account SchedulerOutbox SchedulerCache SchedulerSnapshot.

Record Feed := { fd_outbox : Outbox; fd_mark : Z }.

Definition empty_outbox (next : Z) (now : time) : Outbox :=
  {| ob_rows := []; ob_open := []; ob_next := next; ob_now := now |}.
Definition empty_feed (now : time) : Feed := {| fd_outbox := empty_outbox 1 now; fd_mark := 0 |}.

Definition poll_limit : Z := 500.

(** What a poll does to the feed: the rows are read and their keys released
    in any case, the watermark moves when the rest of the poll succeeds. *)
Definition poll_feed (ok : bool) (s : Feed) : list SchedulerOutboxEvent * Feed :=
  let '(events, ob) := ListAfterAndReleaseDedup (fd_mark s) poll_limit (fd_outbox s) in
  (events, {| fd_outbox := ob; fd_mark := if ok then last_id (fd_mark s) events else fd_mark s |}).

Definition feed_of {D} (w : World D) : Feed :=
  {| fd_outbox := w_outbox w; fd_mark := GetOutboxWatermark (w_cache w) |}.

(** ** The poll of the service *)

Section Poll.
Context {D : Type} {DB : SchedulerDB D}.
Context (encodable : Account -> bool) (decode_payload : option string -> list (string * json)).

Lemma run_script_watermark b script c :
  GetOutboxWatermark (run_script b script c).2 = GetOutboxWatermark c.
Proof. unfold run_script. by destruct (script (keys_of b c)). Qed.

Lemma bind_watermark {A B} (m : M SchedRedis A) (k : A -> M SchedRedis B) c :
  (∀ c, GetOutboxWatermark (m c).2 = GetOutboxWatermark c) ->
  (∀ a c, GetOutboxWatermark (k a c).2 = GetOutboxWatermark c) ->
  GetOutboxWatermark (mbind_ m k c).2 = GetOutboxWatermark c.
Proof.
  intros Hm Hk. unfold mbind_. specialize (Hm c). destruct (m c) as [[a|e] c1]; [|exact Hm].
  by rewrite Hk.
Qed.

Lemma checked_watermark r c : GetOutboxWatermark (checked_result r c).2 = GetOutboxWatermark c.
Proof. unfold checked_result. by destruct (schedulerBucketWriteResultError r). Qed.

Lemma called_watermark {B} a (m : M SchedRedis B) c :
  GetOutboxWatermark (m c).2 = GetOutboxWatermark c -> GetOutboxWatermark (called a m c).2 = GetOutboxWatermark c.
Proof. intros H. by destruct a as [|[|n]]. Qed.
Lemma accounts_watermark a accounts c :
  GetOutboxWatermark (writeAccountIDs encodable a accounts c).2 = GetOutboxWatermark c.
Proof. unfold writeAccountIDs. by destruct a, (filterb encodable accounts). Qed.
Lemma members_watermark a b v ids c :
  GetOutboxWatermark (writeSnapshotMembers a b v ids c).2 = GetOutboxWatermark c.
Proof. unfold writeSnapshotMembers. by destruct a, ids. Qed.

Ltac watermark :=
  repeat first
    [ progress intros
    | apply bind_watermark | apply called_watermark | apply run_script_watermark | apply checked_watermark
    | apply accounts_watermark | apply members_watermark | reflexivity ].

Lemma publish_feed pa b accounts (w : World D) :
  feed_of (publishSnapshot encodable pa b accounts w) = feed_of w.
Proof.
  unfold publishSnapshot, on_cache, feed_of.
  assert (∀ a c, GetOutboxWatermark (CaptureBucketWriteToken a b c).2 = GetOutboxWatermark c) as Hc.
  { unfold CaptureBucketWriteToken. watermark. }
  assert (∀ t c, GetOutboxWatermark (SetSnapshot encodable pa b t accounts c).2 = GetOutboxWatermark c) as Hs.
  { intros t. unfold SetSnapshot, writeSnapshotVersionAndReturnAccountIDs,
      allocateSnapshotVersion, activateSnapshotVersion. destruct (negb _); watermark. }
  specialize (Hc (pa_capture pa) (w_cache w)).
  destruct (CaptureBucketWriteToken _ b (w_cache w)) as [[t|e] c1]; cbn in *.
  - specialize (Hs t c1). destruct (SetSnapshot encodable pa b t accounts c1) as [r c2]; cbn in *.
    by rewrite Hs, Hc.
  - by rewrite Hc.
Qed.

Lemma publish_db pa b accounts (w : World D) : w_db (publishSnapshot encodable pa b accounts w) = w_db w.
Proof.
  unfold publishSnapshot, on_cache. destruct (CaptureBucketWriteToken _ b (w_cache w)) as [[t|e] c1]; cbn;
    [by destruct (SetSnapshot encodable pa b t accounts c1)|done].
Qed.

(** A platform that a rebuild publishes. *)
Definition active_platform (p : SchedPlatform) : bool :=
  negb ((sp_platform_ID p <=? 0) || negb (platform_IsActive (sp_platform_Status p))).
(** The database answers for every active platform. *)
Definition readable (d : D) : bool :=
  match db_ListPlatforms d with
  | Ok ps => forallb (λ p, negb (active_platform p)
                           || match db_ListPool d (sp_platform_ID p) (sp_AccountPlatform p) with
                              | Ok _ => true | Err _ => false end) ps
  | Err _ => false
  end.

Lemma rebuild_feed answers ps (w : World D) : feed_of (rebuild_platforms encodable answers ps w).2 = feed_of w.
Proof.
  revert w. induction ps as [|p ps IH]; intros w; cbn [rebuild_platforms]; [done|].
  destruct (_ || _); [apply IH|]. destruct (db_ListPool _ _ _) as [accounts|e]; [|done].
  by rewrite IH, publish_feed.
Qed.
Lemma rebuildAll_feed answers (w : World D) : feed_of (rebuildAll encodable answers w).2 = feed_of w.
Proof. unfold rebuildAll. destruct (db_ListPlatforms (w_db w)); [apply rebuild_feed|done]. Qed.

(** A rebuild succeeds exactly when the database answers, whatever becomes of
    its calls to Redis. *)
Lemma rebuildAll_readable answers (w : World D) :
  match (rebuildAll encodable answers w).1 with Ok _ => true | Err _ => false end = readable (w_db w).
Proof.
  unfold rebuildAll, readable. destruct (db_ListPlatforms (w_db w)) as [ps|e]; [|done].
  assert (∀ w' : World D, w_db w' = w_db w ->
    match (rebuild_platforms encodable answers ps w').1 with Ok _ => true | Err _ => false end
    = forallb (λ p, negb (active_platform p)
         || match db_ListPool (w_db w) (sp_platform_ID p) (sp_AccountPlatform p) with
            | Ok _ => true | Err _ => false end) ps) as H; [|by apply H].
  induction ps as [|p ps IH]; intros w' Hw; cbn [rebuild_platforms forallb]; [done|].
  unfold active_platform at 1. rewrite negb_involutive.
  destruct (_ || _); cbn [orb andb]; [by apply IH|]. rewrite Hw.
  destruct (db_ListPool _ _ _) as [accounts|e]; [|done]. cbn [andb].
  apply IH. by rewrite publish_db.
Qed.

(** The pools of the active platforms, published one after the other as the
    database lists them. *)
Definition publish_pool (answers : RebuildAnswers) (w : World D) (p : SchedPlatform) : World D :=
  match db_ListPool (w_db w) (sp_platform_ID p) (sp_AccountPlatform p) with
  | Ok accounts =>
    let b := {| bk_PlatformID := sp_platform_ID p; bk_Platform := sp_AccountPlatform p; bk_Mode := "single" |} in
    publishSnapshot encodable (answers b) b accounts w
  | Err _ => w
  end.
Definition publish_all (answers : RebuildAnswers) (ps : list SchedPlatform) (w : World D) : World D :=
  foldl (publish_pool answers) w (filterb active_platform ps).
Lemma rebuild_publishes answers ps (w w' : World D) :
  rebuild_platforms encodable answers ps w = (Ok tt, w') -> w' = publish_all answers ps w.
Proof.
  unfold publish_all. revert w. induction ps as [|p ps IH]; intros w; cbn [rebuild_platforms filterb].
  { by intros [= <-]. }
  assert (filterb active_platform (p :: ps) = if active_platform p then p :: filterb active_platform ps
    else filterb active_platform ps) as -> by done.
  destruct (active_platform p) eqn:Ep; unfold active_platform in Ep.
  - apply negb_true_iff in Ep as ->. cbn [foldl].
    assert (publish_pool answers w p = match db_ListPool (w_db w) (sp_platform_ID p) (sp_AccountPlatform p) with
      | Ok accounts => publishSnapshot encodable (answers (schedulerPlatformBucket (sp_platform_ID p) (sp_AccountPlatform p)))
          (schedulerPlatformBucket (sp_platform_ID p) (sp_AccountPlatform p)) accounts w
      | Err _ => w end) as -> by done.
    destruct (db_ListPool _ _ _) as [accounts|e]; [|done]. apply IH.
  - apply negb_false_iff in Ep as ->. apply IH.
Qed.

Lemma update_last_used_watermark m c : GetOutboxWatermark (UpdateLastUsed m c) = GetOutboxWatermark c.
Proof.
  unfold UpdateLastUsed. generalize (map_to_list m). intros l. revert c.
  induction l as [|[id t] l IH]; intros c; cbn [foldl]; [done|]. rewrite IH. cbn.
  unfold update_last_used, DeleteAccount. destruct (id <=? 0); [done|].
  destruct (schedulerLastUsedMillis t); [by destruct (_ && _)|by destruct (id <=? 0)].
Qed.

(** What a poll has come to: not begun, or the rows were read and it succeeded
    or failed.  It succeeds when the statement on the outbox is answered, the
    last-used times are written if there are any, the database answers if a
    rebuild is asked for, and the watermark is saved, be it unanswered. *)
Definition rebuild_types : list string :=
  ["account_changed"; "account_platform_changed"; "account_bulk_changed"; "platform_changed"; "full_rebuild"]%string.
Definition asks (e : SchedulerOutboxEvent) : bool := bool_decide (ev_EventType e ∈ rebuild_types).
Definition poll_succeeds (f : PollFaults) (events : list SchedulerOutboxEvent) (d : D) : bool :=
  bool_decide (outbox_read f = Answered)
  && (bool_decide (last_used_of decode_payload events = ∅) || match last_used_unwritten f with None => true | Some _ => false end)
  && (negb (existsb asks events) || readable d)
  && negb (bool_decide (watermark_save f = Broken 0)).
Definition poll_began (f : PollFaults) : bool :=
  negb (watermark_unread f) && negb (bool_decide (outbox_read f = Broken 0)).

Lemma asks_rebuild_asks e : asks_rebuild (ev_EventType e) = asks e.
Proof.
  unfold asks_rebuild, asks, rebuild_types. apply eq_true_iff_eq. rewrite bool_decide_eq_true.
  rewrite !elem_of_cons, elem_of_nil, !orb_true_iff, !String.eqb_eq. tauto.
Qed.

(** The end of a poll, with the rows read and their keys released. *)
Lemma save_feed f m events (w : World D) :
  events ≠ [] -> GetOutboxWatermark (w_cache w) = m ->
  feed_of (rebuild_and_save encodable f m events w)
  = {| fd_outbox := w_outbox w;
       fd_mark := if (negb (existsb asks events) || readable (w_db w))
                     && negb (bool_decide (watermark_save f = Broken 0))
                  then last_id m events else m |}.
Proof.
  intros Hne Hm. unfold rebuild_and_save.
  assert (existsb (λ e, asks_rebuild (ev_EventType e)) events = existsb asks events) as ->.
  { clear. induction events as [|e l IH]; [done|]. cbn [existsb]. by rewrite asks_rebuild_asks, IH. }
  pose proof (rebuildAll_feed (rebuild_answers f) w) as Hf.
  pose proof (rebuildAll_readable (rebuild_answers f) w) as Hr.
  destruct (existsb asks events); cbn [negb orb].
  - destruct (rebuildAll encodable (rebuild_answers f) w) as [[[]|e] w1]; cbn [fst snd] in Hf, Hr; rewrite <- Hr;
      cbn [andb]; [|by rewrite Hf; unfold feed_of; rewrite Hm].
    injection Hf as Hmark Hob. unfold feed_of.
    destruct (watermark_save f) as [|[|n]]; cbn; rewrite ?Hob, ?Hmark, ?Hm; done.
  - unfold feed_of. destruct (watermark_save f) as [|[|n]]; cbn; rewrite ?Hm; done.
Qed.

(** A poll of the service is a poll of the feed, that succeeds when it should
    and fails otherwise, or does not begin. *)
Lemma pollOutbox_feed f (w : World D) :
  feed_of (pollOutbox encodable decode_payload f w) =
    if poll_began f
    then (poll_feed (poll_succeeds f (poll_feed true (feed_of w)).1 (w_db w)) (feed_of w)).2
    else feed_of w.
Proof.
  unfold pollOutbox, poll_began. destruct (watermark_unread f); [done|]. cbn [negb andb].
  unfold poll_feed at 1. cbn [feed_of fd_mark fd_outbox]. unfold poll_limit.
  assert ((poll_feed true (feed_of w)).1 = (ListAfterAndReleaseDedup (GetOutboxWatermark (w_cache w)) 500 (w_outbox w)).1) as ->
    by (unfold poll_feed, poll_limit; cbn [feed_of fd_mark fd_outbox]; by destruct (ListAfterAndReleaseDedup _ _ _)).
  destruct (ListAfterAndReleaseDedup _ 500 (w_outbox w)) as [events ob] eqn:El. cbn [fst].
  unfold poll_succeeds. destruct (outbox_read f) as [|[|n]]; cbn; [|done|done].
  destruct (is_nil events) eqn:En.
  { apply is_nil_true in En as ->. unfold feed_of; cbn. by destruct (_ && _). }
  assert (events ≠ []) as Hne by (by intros ->).
  destruct (decide (last_used_of decode_payload events = ∅)) as [Ht|Ht].
  - rewrite (bool_decide_eq_true_2 (last_used_of _ _ = ∅)) by done.
    rewrite (bool_decide_eq_false_2 (last_used_of _ _ ≠ ∅)) by (by intros []).
    cbn [orb andb]. destruct (last_used_unwritten f); by rewrite (save_feed _ (GetOutboxWatermark (w_cache w))).
  - rewrite (bool_decide_eq_false_2 (last_used_of _ _ = ∅)) by done.
    rewrite (bool_decide_eq_true_2 (last_used_of _ _ ≠ ∅)) by done.
    destruct (last_used_unwritten f); cbn [orb andb negb].
    + unfold feed_of; cbn. by rewrite update_last_used_watermark.
    + rewrite (save_feed _ (GetOutboxWatermark (w_cache w))); [done|done|]. cbn. apply update_last_used_watermark.
Qed.
End Poll.

(** ** Rows in the order of their identifiers *)

Definition id_lt (a b : OutboxRow) : Prop := row_ID a < row_ID b.
#[export] Instance id_lt_anti : AntiSymm (=) id_lt.
Proof. intros a b. unfold id_lt. lia. Qed.

Lemma row_id_less_asym a b : row_id_less a b = true -> row_id_less b a = false.
Proof. unfold row_id_less. bool_lia. Qed.
Lemma row_id_less_trans a b c :
  row_id_less b a = false -> row_id_less c b = false -> row_id_less c a = false.
Proof. unfold row_id_less. bool_lia. Qed.

Lemma id_sorted_strict l :
  StronglySorted (not_after row_id_less) l -> NoDup (map row_ID l) -> StronglySorted id_lt l.
Proof.
  induction 1 as [|r l _ IH Hr]; cbn [map]; intros Hnd; constructor; apply NoDup_cons in Hnd as [Hni Hnd].
  { by apply IH. }
  apply Forall_forall. intros x Hx. rewrite Forall_forall in Hr. specialize (Hr x Hx).
  unfold not_after, row_id_less in Hr. unfold id_lt.
  assert (row_ID r ≠ row_ID x) by (intros E; apply Hni; rewrite E; by apply (list_elem_of_fmap_2 row_ID)).
  bool_lia.
Qed.

Lemma id_sorted_NoDup l : StronglySorted id_lt l -> NoDup l.
Proof.
  induction 1 as [|r l _ IH Hr]; constructor; [|done]. intros Hin.
  rewrite Forall_forall in Hr. specialize (Hr r Hin). unfold id_lt in Hr. lia.
Qed.

Lemma id_sorted_unique l1 l2 :
  StronglySorted id_lt l1 -> StronglySorted id_lt l2 -> (∀ r, r ∈ l1 <-> r ∈ l2) -> l1 = l2.
Proof.
  intros H1 H2 H. apply (StronglySorted_unique id_lt); [done..|].
  by apply NoDup_Permutation; [apply id_sorted_NoDup..|].
Qed.

Lemma id_sorted_map f l :
  (∀ r, row_ID (f r) = row_ID r) -> StronglySorted id_lt l -> StronglySorted id_lt (map f l).
Proof.
  intros Hf. induction 1 as [|r l _ IH Hr]; cbn; constructor; [done|].
  apply List.Forall_map. eapply Forall_impl; [exact Hr|]. unfold id_lt. intros x. by rewrite !Hf.
Qed.

(** The rows past the last row taken are those dropped. *)
Lemma id_sorted_split l n m :
  StronglySorted id_lt l -> (∀ r, r ∈ l -> m < row_ID r) ->
  ∀ r, r ∈ l -> (last_id m (map row_event (take n l)) < row_ID r <-> r ∈ drop n l).
Proof.
  intros Hs. revert n m. induction Hs as [|x l Hs IH Hx]; intros n m Hm r Hr; [by apply elem_of_nil in Hr|].
  rewrite Forall_forall in Hx. destruct n as [|n]; cbn [take drop map last_id foldl].
  { split; [done|]. intros _. by apply Hm. }
  change (foldl _ _ _) with (last_id (row_ID x) (map row_event (take n l))).
  apply elem_of_cons in Hr as [->|Hr]; [|by apply IH].
  split.
  - intros Hlt. exfalso. revert Hlt. apply Z.le_ngt. clear -Hx.
    assert (∀ m, row_ID x <= m -> (∀ r, r ∈ take n l -> row_ID x <= row_ID r) ->
      row_ID x <= last_id m (map row_event (take n l))) as H.
    { generalize (take n l). intros l'. unfold last_id.
      induction l' as [|y l' IH]; cbn; intros m Hm Hl; [done|].
      apply IH; [apply Hl; left|]. intros r Hr. apply Hl. by right. }
    apply H; [lia|]. intros r Hr%elem_of_take. destruct Hr as (i & Hr & _).
    apply list_elem_of_lookup_2, Hx in Hr. unfold id_lt in Hr. lia.
  - intros Hd. apply list_elem_of_lookup in Hd as [i Hi]. rewrite lookup_drop in Hi.
    apply list_elem_of_lookup_2, Hx in Hi. unfold id_lt in Hi. lia.
Qed.

Lemma last_id_above m l : (∀ r, r ∈ l -> m < row_ID r) -> m <= last_id m (map row_event l).
Proof.
  unfold last_id. intros H. assert (∀ m', m <= m' -> m <= foldl (λ _ e, ev_ID e) m' (map row_event l)) as G.
  { induction l as [|r l IH]; cbn; intros m' Hm; [done|]. apply IH; [set_solver|].
    specialize (H r ltac:(left)). unfold row_ID in H. lia. }
  apply G. lia.
Qed.

Lemma release_id ids r : row_ID (release_key ids r) = row_ID r.
Proof. unfold release_key. by destruct (mem_Z _ _). Qed.
Lemma release_event ids r : row_event (release_key ids r) = row_event r.
Proof. unfold release_key. by destruct (mem_Z _ _). Qed.

(** ** The unread rows are a queue *)

(** An event to announce: type, account, platform, payload. *)
Definition Announcement : Type := string * option Z * option Z * option string.
Definition announcement_of (e : SchedulerOutboxEvent) : Announcement :=
  (ev_EventType e, ev_AccountID e, ev_PlatformID e, ev_Payload e).

(** The specification: announcements with the key that is still held. *)
Definition Entry : Type := Announcement * option string.
Definition entry_of (r : OutboxRow) : Entry := (announcement_of (row_event r), row_dedup_key r).
Definition entry_has_key (key : option string) (x : Entry) : bool :=
  match key, x.2 with Some k, Some k' => String.eqb k k' | _, _ => false end.

Inductive feed_op := FEnqueue (a : Announcement) | FPoll (ok : bool).
Definition is_ok_poll (op : feed_op) : bool := match op with FPoll ok => ok | FEnqueue _ => false end.
Definition ok_polls (ops : list feed_op) : nat := length (filterb is_ok_poll ops).

Lemma ok_polls_cons op ops : ok_polls (op :: ops) = ((if is_ok_poll op then 1 else 0) + ok_polls ops)%nat.
Proof. unfold ok_polls; cbn. by destruct (is_ok_poll op). Qed.

(** Steps that report the changes they handled. *)
Fixpoint run_ops {S} (step : feed_op -> S -> list Announcement * S) (ops : list feed_op) (s : S)
  : list Announcement * S :=
  match ops with
  | [] => ([], s)
  | op :: rest =>
    let '(out, s) := step op s in
    let '(outs, s) := run_ops step rest s in (out ++ outs, s)
  end.

Section Queue.
Context (sha256_hex : string -> string).

Definition key_of (a : Announcement) : option string :=
  let '(t, acc, plat, payload) := a in dedup_key_for sha256_hex t acc plat payload.
Definition begin_of (a : Announcement) (ob : Outbox) : option Outbox :=
  let '(t, acc, plat, payload) := a in outbox_begin sha256_hex t acc plat payload ob.
Definition enqueue_of (a : Announcement) (ob : Outbox) : option Outbox :=
  let '(t, acc, plat, payload) := a in enqueueSchedulerOutbox sha256_hex t acc plat payload ob.

(** The queue: an announcement is appended unless its key is held, a poll
    that succeeds handles a batch, one that fails only gives up its keys. *)
Definition queue_step (op : feed_op) (q : list Entry) : list Announcement * list Entry :=
  match op with
  | FEnqueue a => ([], if existsb (entry_has_key (key_of a)) q then q else q ++ [(a, key_of a)])
  | FPoll true => (map fst (take 500 q), drop 500 q)
  | FPoll false => ([], map (λ x, (x.1, None)) (take 500 q) ++ drop 500 q)
  end.

(** The feed: statements that commit at once, and polls. *)
Definition feed_step (op : feed_op) (s : Feed) : list Announcement * Feed :=
  match op with
  | FEnqueue a =>
    match enqueue_of a (fd_outbox s) with
    | Some ob => ([], {| fd_outbox := ob; fd_mark := fd_mark s |})
    | None => ([], s)
    end
  | FPoll ok => let '(events, s) := poll_feed ok s in (if ok then map announcement_of events else [], s)
  end.

Definition unread_rows (s : Feed) : list OutboxRow := rows_after (fd_mark s) (fd_outbox s).
Definition queue_of (s : Feed) : list Entry := map entry_of (unread_rows s).
Definition feed_rows (s : Feed) : list OutboxRow := ob_rows (fd_outbox s).

(** The feed of statements that committed at once: no transaction is open,
    identifiers are distinct and below the sequence, and a row that holds a key
    is unread and holds its own. *)
Record feed_ok (s : Feed) : Prop := {
  fo_open : ob_open (fd_outbox s) = [];
  fo_nodup : NoDup (map row_ID (feed_rows s));
  fo_below : ∀ r, r ∈ feed_rows s -> row_ID r < ob_next (fd_outbox s);
  fo_mark : fd_mark s < ob_next (fd_outbox s);
  fo_unread : ∀ r, r ∈ feed_rows s -> is_Some (row_dedup_key r) -> fd_mark s < row_ID r;
  fo_own : ∀ r k, r ∈ feed_rows s -> row_dedup_key r = Some k ->
    key_of (announcement_of (row_event r)) = Some k
}.

Lemma elem_of_unread r s : r ∈ unread_rows s <-> r ∈ feed_rows s /\ fd_mark s < row_ID r.
Proof.
  unfold unread_rows, rows_after, feed_rows. rewrite elem_of_stable_sort, elem_of_filterb.
  by rewrite Z.ltb_lt.
Qed.

Lemma unread_sorted s : NoDup (map row_ID (feed_rows s)) -> StronglySorted id_lt (unread_rows s).
Proof.
  intros Hnd. apply id_sorted_strict; [apply (stable_sort_sorted row_id_less row_id_less_asym row_id_less_trans)|].
  unfold unread_rows, rows_after. rewrite (stable_sort_perm row_id_less). by apply NoDup_map_filterb.
Qed.

(** A held key is held by an unread row. *)
Lemma key_held s key :
  feed_ok s ->
  existsb (has_key key) (feed_rows s) = existsb (entry_has_key key) (queue_of s).
Proof.
  intros Hok. apply eq_true_iff_eq. rewrite !existsb_exists. split.
  - intros (r & Hr%list_elem_of_In & Hk). exists (entry_of r). split; [|done].
    apply list_elem_of_In, list_elem_of_fmap. exists r. split; [done|].
    apply elem_of_unread. split; [done|]. apply (fo_unread _ Hok r Hr).
    unfold has_key in Hk. destruct key, (row_dedup_key r); first [done|by eexists].
  - intros (x & Hx%list_elem_of_In & Hk). apply list_elem_of_fmap in Hx as (r & -> & Hr).
    exists r. split; [|done]. by apply list_elem_of_In, elem_of_unread.
Qed.

(** *** An announcement *)

Lemma enqueue_rows a ob ob' :
  enqueue_of a ob = Some ob' -> ob_open ob = [] ->
  ob_open ob' = [] /\ ob_next ob' = ob_next ob + 1 /\
  ((existsb (has_key (key_of a)) (ob_rows ob) = true /\ ob_rows ob' = ob_rows ob) \/
   (existsb (has_key (key_of a)) (ob_rows ob) = false /\
    ∃ r, ob_rows ob' = ob_rows ob ++ [r] /\ row_ID r = ob_next ob /\ entry_of r = (a, key_of a))).
Proof.
  destruct a as [[[t acc] plat] payload]. cbn [enqueue_of key_of].
  unfold enqueueSchedulerOutbox, outbox_begin. intros H Hop. rewrite Hop in H. cbn [existsb app] in H.
  destruct (existsb _ (ob_rows ob)) eqn:E; cbn in H; injection H as <-; cbn.
  - rewrite app_nil_r. split_and!; [done..|]. by left.
  - rewrite Z.eqb_refl. cbn.
    split_and!; [done..|]. right. split; [done|]. by eexists.
Qed.

Lemma enqueue_total a ob : ob_open ob = [] -> is_Some (enqueue_of a ob).
Proof.
  destruct a as [[[t acc] plat] payload]. intros H. unfold enqueue_of, enqueueSchedulerOutbox, outbox_begin.
  rewrite H. destruct (existsb _ (ob_rows ob)); cbn; by eexists.
Qed.

Lemma enqueue_ok a s : feed_ok s -> feed_ok (feed_step (FEnqueue a) s).2.
Proof.
  intros [H1 H2 H3 H4 H5 H6]. cbn [feed_step].
  destruct (enqueue_of a (fd_outbox s)) as [ob|] eqn:E; [|done]. unfold feed_rows in *.
  destruct (enqueue_rows _ _ _ E H1) as (Ho & Hn & [[_ Hr]|(_ & r & Hr & Hid & Hk)]);
    split; unfold feed_rows; cbn [snd fd_outbox fd_mark]; rewrite ?Hn, ?Hr; try done.
  - intros r Hin. specialize (H3 r Hin). lia.
  - lia.
  - rewrite map_app. cbn [map]. rewrite Hid. apply NoDup_app. split_and!; [done| |apply NoDup_singleton].
    intros i (r' & -> & Hin)%list_elem_of_fmap Hi%list_elem_of_singleton. specialize (H3 _ Hin). lia.
  - intros r' [Hin|Hin%list_elem_of_singleton]%elem_of_app; [specialize (H3 r' Hin)|subst r']; lia.
  - lia.
  - intros r' [Hr'|Hr'%list_elem_of_singleton]%elem_of_app Hk'; [by apply H5|subst r'; lia].
  - intros r' k [Hr'|Hr'%list_elem_of_singleton]%elem_of_app Hk'; [by apply H6|subst r'].
    apply pair_equal_spec in Hk as [-> Hk]. congruence.
Qed.

Lemma enqueue_queue a s :
  feed_ok s -> queue_of (feed_step (FEnqueue a) s).2 = (queue_step (FEnqueue a) (queue_of s)).2.
Proof.
  intros Hok. pose proof (fo_nodup _ (enqueue_ok a s Hok)) as Hnd. cbn [queue_step snd].
  rewrite <- (key_held s _ Hok). destruct Hok as [H1 H2 H3 H4 H5 H6]. revert Hnd. cbn [feed_step].
  destruct (enqueue_total a (fd_outbox s) H1) as [ob E]. rewrite E. cbn [snd]. intros Hnd.
  unfold queue_of, feed_rows in *.
  destruct (enqueue_rows _ _ _ E H1) as (_ & _ & [[-> Hr]|(-> & r & Hr & Hid & <-)]).
  - f_equal. unfold unread_rows, rows_after. cbn [fd_outbox fd_mark]. by rewrite Hr.
  - change [entry_of r] with (map entry_of [r]). rewrite <- map_app. f_equal.
    apply id_sorted_unique.
    + by apply unread_sorted.
    + apply StronglySorted_app_2; [|by apply unread_sorted|repeat constructor].
      intros x y [Hx _]%elem_of_unread ->%list_elem_of_singleton. unfold id_lt. rewrite Hid. by apply H3.
    + intros x. rewrite elem_of_app, !elem_of_unread. unfold feed_rows. cbn [fd_outbox fd_mark].
      rewrite Hr, elem_of_app, list_elem_of_singleton. split; [naive_solver|].
      intros [?|Hx]; [naive_solver|subst x]. split; [by right|lia].
Qed.

(** *** A poll *)

Definition batch (s : Feed) : list OutboxRow := take 500 (unread_rows s).
Definition released (s : Feed) : OutboxRow -> OutboxRow := release_key (map row_ID (batch s)).
Lemma poll_rows ok s :
  poll_feed ok s
  = (map row_event (batch s),
     {| fd_outbox := {| ob_rows := map (released s) (feed_rows s);
                        ob_open := ob_open (fd_outbox s); ob_next := ob_next (fd_outbox s);
                        ob_now := ob_now (fd_outbox s) |};
        fd_mark := if ok then last_id (fd_mark s) (map row_event (batch s)) else fd_mark s |}).
Proof. done. Qed.

Lemma released_id s r : row_ID (released s r) = row_ID r.
Proof. apply release_id. Qed.
Lemma map_released_ids s l : map row_ID (map (released s) l) = map row_ID l.
Proof. rewrite map_map. apply map_ext, released_id. Qed.

Lemma elem_of_batch_unread r s : r ∈ batch s -> r ∈ unread_rows s.
Proof. unfold batch. intros (i & H & _)%elem_of_take. by eapply list_elem_of_lookup_2. Qed.
Lemma unread_above s r : r ∈ unread_rows s -> fd_mark s < row_ID r.
Proof. by intros [_ ?]%elem_of_unread. Qed.

(** Rows with the same identifier are one row. *)
Lemma row_by_id s x y :
  NoDup (map row_ID (feed_rows s)) -> x ∈ feed_rows s -> y ∈ feed_rows s -> row_ID x = row_ID y -> x = y.
Proof.
  intros Hnd (i & Hi)%list_elem_of_lookup (j & Hj)%list_elem_of_lookup E.
  assert (i = j) as ->.
  { eapply NoDup_lookup; [exact Hnd|rewrite list_lookup_fmap, Hi; reflexivity|].
    rewrite list_lookup_fmap, Hj. cbn. by rewrite E. }
  congruence.
Qed.

Lemma released_batch s r : r ∈ batch s -> released s r = Build_OutboxRow (row_event r) None.
Proof.
  intros Hr. unfold released, release_key.
  assert (mem_Z (row_ID r) (map row_ID (batch s)) = true) as ->; [|done].
  apply mem_Z_true, list_elem_of_fmap. by exists r.
Qed.
Lemma released_other s r :
  NoDup (map row_ID (feed_rows s)) -> r ∈ feed_rows s -> r ∉ batch s -> released s r = r.
Proof.
  intros Hnd Hr Hb. unfold released, release_key.
  destruct (mem_Z _ _) eqn:E; [|done]. exfalso. apply Hb.
  apply mem_Z_true, list_elem_of_fmap in E as (r' & Hid & Hr').
  rewrite (row_by_id s r r' Hnd Hr); [done| |done].
  by apply elem_of_batch_unread, elem_of_unread in Hr' as [? _].
Qed.

Lemma poll_unread ok s :
  NoDup (map row_ID (feed_rows s)) ->
  unread_rows (poll_feed ok s).2 = map (released s) (if ok then drop 500 (unread_rows s) else unread_rows s).
Proof.
  intros Hnd. pose proof (unread_sorted s Hnd) as Hs. apply id_sorted_unique.
  - apply unread_sorted. rewrite poll_rows. unfold feed_rows at 1; cbn. by rewrite map_released_ids.
  - apply id_sorted_map; [apply released_id|]. destruct ok; [|done].
    rewrite <- (take_drop 500 (unread_rows s)) in Hs. by apply StronglySorted_app in Hs as (_ & _ & Hs).
  - intros x. rewrite elem_of_unread, poll_rows, list_elem_of_fmap. unfold feed_rows at 1; cbn [snd fd_outbox fd_mark ob_rows].
    rewrite list_elem_of_fmap. pose proof (id_sorted_split _ 500 _ Hs (unread_above s)) as Hsplit.
    fold (batch s) in Hsplit. split.
    + intros [(r & -> & Hr) Hlt]. exists r. split; [done|]. rewrite released_id in Hlt.
      destruct ok; [|by apply elem_of_unread].
      assert (r ∈ unread_rows s) as Hu; [|by apply Hsplit].
      apply elem_of_unread. split; [done|]. eapply Z.le_lt_trans; [|exact Hlt].
      apply last_id_above. intros y Hy. by apply unread_above, elem_of_batch_unread.
    + intros (r & -> & Hr). assert (r ∈ unread_rows s) as Hu.
      { destruct ok; [|done]. rewrite <- (take_drop 500 (unread_rows s)). apply elem_of_app. by right. }
      rewrite released_id. split.
      * exists r. split; [done|]. by apply elem_of_unread in Hu as [? _].
      * destruct ok; [by apply Hsplit|by apply unread_above].
Qed.

Lemma map_released_drop s :
  NoDup (map row_ID (feed_rows s)) ->
  map (released s) (drop 500 (unread_rows s)) = drop 500 (unread_rows s).
Proof.
  intros Hnd. pose proof (id_sorted_NoDup _ (unread_sorted s Hnd)) as Hu.
  rewrite <- (take_drop 500 (unread_rows s)) in Hu. apply NoDup_app in Hu as (_ & Hdis & _).
  rewrite <- (map_id (drop 500 (unread_rows s))) at 2. apply map_ext_in. intros r Hr%list_elem_of_In.
  apply released_other; [done| |intros Hb; by apply (Hdis r Hb)].
  apply (elem_of_unread r s). rewrite <- (take_drop 500 (unread_rows s)). apply elem_of_app. by right.
Qed.

Lemma map_released_batch s :
  map entry_of (map (released s) (batch s)) = map (λ x, (x.1, None)) (map entry_of (batch s)).
Proof.
  rewrite !map_map. apply map_ext_in. intros r Hr%list_elem_of_In. by rewrite released_batch.
Qed.

Lemma poll_queue ok s :
  feed_ok s ->
  (feed_step (FPoll ok) s).1 = (queue_step (FPoll ok) (queue_of s)).1 /\
  queue_of (feed_step (FPoll ok) s).2 = (queue_step (FPoll ok) (queue_of s)).2.
Proof.
  intros [_ Hnd _ _ _ _]. assert (snd (feed_step (FPoll ok) s) = (poll_feed ok s).2) as -> by done.
  unfold queue_of. rewrite (poll_unread ok s Hnd). destruct ok.
  - rewrite (map_released_drop s Hnd). cbn [queue_step snd fst]. split; [|by rewrite skipn_map].
    cbn [feed_step]. rewrite poll_rows. cbn [fst]. rewrite firstn_map, !map_map. done.
  - split; [done|]. cbn [queue_step snd]. rewrite firstn_map, skipn_map. fold (batch s).
    rewrite <- map_released_batch, <- (map_released_drop s Hnd).
    rewrite <- !map_app. unfold batch. by rewrite take_drop.
Qed.

Lemma poll_ok ok s : feed_ok s -> feed_ok (feed_step (FPoll ok) s).2.
Proof.
  intros Hok. assert (snd (feed_step (FPoll ok) s) = (poll_feed ok s).2) as -> by done.
  pose proof (unread_sorted s (fo_nodup _ Hok)) as Hs.
  pose proof (id_sorted_split _ 500 _ Hs (unread_above s)) as Hsplit. fold (batch s) in Hsplit.
  destruct Hok as [H1 H2 H3 H4 H5 H6]. rewrite poll_rows.
  split; unfold feed_rows; cbn [snd fd_outbox fd_mark ob_rows ob_open ob_next].
  - done.
  - by rewrite map_released_ids.
  - intros r (r' & -> & Hr)%list_elem_of_fmap. rewrite released_id. by apply H3.
  - destruct ok; [|done].
    assert (∀ r, r ∈ batch s -> row_ID r < ob_next (fd_outbox s)) as Hb.
    { intros r Hr. by apply H3, (elem_of_unread r s), elem_of_batch_unread. }
    revert H4 Hb. generalize (fd_mark s) (batch s). unfold last_id. intros m l.
    revert m. induction l as [|r l IH]; cbn; intros m Hm Hl; [done|]. apply IH; [apply (Hl r); left|].
    intros r' Hr'. apply Hl. by right.
  - intros r (r' & -> & Hr)%list_elem_of_fmap Hk. rewrite released_id.
    assert (r' ∉ batch s) as Hb.
    { intros Hb. rewrite (released_batch _ _ Hb) in Hk. by destruct Hk. }
    rewrite (released_other s r' H2 Hr Hb) in Hk. specialize (H5 r' Hr Hk). destruct ok; [|done].
    assert (r' ∈ unread_rows s) as Hu by (by apply elem_of_unread).
    apply Hsplit; [done|]. unfold batch in Hb.
    rewrite <- (take_drop 500 (unread_rows s)) in Hu. by apply elem_of_app in Hu as [?|?].
  - intros r k (r' & -> & Hr)%list_elem_of_fmap. unfold released. rewrite release_event.
    unfold release_key. destruct (mem_Z _ _); [done|]. by apply H6.
Qed.

(** *** Traces *)

Lemma feed_step_queue op s :
  feed_ok s ->
  feed_ok (feed_step op s).2 /\
  (feed_step op s).1 = (queue_step op (queue_of s)).1 /\
  queue_of (feed_step op s).2 = (queue_step op (queue_of s)).2.
Proof.
  intros Hok. destruct op as [a|ok].
  - split_and!; [by apply enqueue_ok| |by apply enqueue_queue].
    cbn [feed_step queue_step]. by destruct (enqueue_of a (fd_outbox s)).
  - split; [by apply poll_ok|by apply poll_queue].
Qed.

Lemma run_ops_cons {S} (step : feed_op -> S -> list Announcement * S) op ops s :
  run_ops step (op :: ops) s
  = ((step op s).1 ++ (run_ops step ops (step op s).2).1, (run_ops step ops (step op s).2).2).
Proof. cbn. destruct (step op s) as [o s1]; cbn. by destruct (run_ops step ops s1). Qed.

Lemma feed_run_queue ops s :
  feed_ok s ->
  feed_ok (run_ops feed_step ops s).2 /\
  (run_ops feed_step ops s).1 = (run_ops queue_step ops (queue_of s)).1 /\
  queue_of (run_ops feed_step ops s).2 = (run_ops queue_step ops (queue_of s)).2.
Proof.
  revert s. induction ops as [|op ops IH]; intros s Hok; [done|].
  destruct (feed_step_queue op s Hok) as (Hok' & Ho & Hq). rewrite !run_ops_cons. cbn [fst snd].
  rewrite <- Hq, <- Ho. destruct (IH _ Hok') as (? & -> & ->). done.
Qed.

Lemma queue_step_pending op q :
  ∃ tail, map fst (queue_step op q).2 = drop (if is_ok_poll op then 500 else 0) (map fst q) ++ tail.
Proof.
  destruct op as [a|[]]; cbn [queue_step snd is_ok_poll].
  - destruct (existsb _ q); [exists []; by rewrite app_nil_r|]. exists [a]. by rewrite map_app.
  - exists []. by rewrite app_nil_r, skipn_map.
  - exists []. rewrite app_nil_r, map_app, map_map. cbn [fst].
    by rewrite <- map_app, take_drop.
Qed.

(** A pending announcement is handled by the poll its position calls for. *)
Lemma queue_handles ops q i a :
  map fst q !! i = Some a -> (i < 500 * ok_polls ops)%nat -> a ∈ (run_ops queue_step ops q).1.
Proof.
  revert q i. induction ops as [|op ops IH]; intros q i Hi Hn; [cbn in Hn; lia|].
  rewrite run_ops_cons. cbn [fst]. apply elem_of_app.
  destruct (queue_step_pending op q) as [tail Ht].
  rewrite ok_polls_cons in Hn. destruct (decide (is_ok_poll op = true /\ i < 500)%nat) as [[Hp Hlt]|Hge].
  - left. destruct op as [|[]]; try done. cbn [queue_step fst]. rewrite <- firstn_map.
    apply list_elem_of_lookup. exists i. by rewrite lookup_take_lt.
  - right. destruct (is_ok_poll op).
    + apply (IH _ (i - 500)%nat); [|lia]. rewrite Ht. apply lookup_app_l_Some. rewrite lookup_drop.
      by replace (500 + (i - 500))%nat with i by lia.
    + apply (IH _ i); [|lia]. rewrite Ht. by apply lookup_app_l_Some.
Qed.



(** *** Keys *)

(** Two announcements the worker cannot tell apart: an absent payload is an
    empty one. *)
Definition same_change (a b : Announcement) : Prop :=
  let '(t, acc, plat, payload) := a in
  let '(t', acc', plat', payload') := b in
  t = t' /\ acc = acc' /\ plat = plat' /\ default EmptyString payload = default EmptyString payload'.

Lemma id_text_inj i j : id_text i = id_text j -> i = j.
Proof.
  assert (∀ z : Z, EmptyString ≠ pretty z) as Hne.
  { intros [|p|p]; try done. intros E. pose proof (pretty_N_digits (Npos p)) as (_ & H & _).
    apply H. change (pretty (Npos p)) with (pretty (Zpos p)). by rewrite <- E. }
  destruct i as [i|], j as [j|]; cbn; intros E; [|by symmetry in E; destruct (Hne i)|by destruct (Hne j)|done].
  f_equal. by apply (inj pretty).
Qed.

Lemma id_text_without i : without Ascii.zero (id_text i).
Proof.
  destruct i as [i|]; [|constructor]. apply numeral_without. intros [H|[d H]]; [done|]. done.
Qed.

Lemma dedup_type t acc plat payload k :
  dedup_key_for sha256_hex t acc plat payload = Some k -> without Ascii.zero t.
Proof.
  unfold dedup_key_for, schedulerOutboxEventSupportsDedup.
  destruct (_ || _ || _) eqn:E; [|done]. intros _.
  rewrite !orb_true_iff, !String.eqb_eq in E.
  destruct E as [[->| ->]| ->]; unfold without; repeat constructor; done.
Qed.

Lemma key_identifies a b k :
  key_of a = Some k -> key_of b = Some k ->
  same_change a b \/ ∃ x y, x ≠ y /\ sha256_hex x = sha256_hex y.
Proof.
  destruct a as [[[t acc] plat] payload], b as [[[t' acc'] plat'] payload']. cbn [key_of].
  intros Ha Hb. pose proof (dedup_type _ _ _ _ _ Ha) as Ht. pose proof (dedup_type _ _ _ _ _ Hb) as Ht'.
  unfold dedup_key_for in Ha, Hb.
  destruct (schedulerOutboxEventSupportsDedup t); [|done].
  destruct (schedulerOutboxEventSupportsDedup t'); [|done]. rewrite <- Hb in Ha.
  unfold schedulerOutboxDedupKey in Ha. injection Ha as Ha.
  match type of Ha with (_ ++ sha256_hex ?x)%string = (_ ++ sha256_hex ?y)%string =>
    destruct (decide (x = y)) as [E|Hn]; [left|right; by exists x, y] end.
  apply cut_unique in E as [-> E]; [|done..].
  apply cut_unique in E as [E1 E]; [|apply id_text_without..].
  apply cut_unique in E as [E2 E]; [|apply id_text_without..].
  apply id_text_inj in E1, E2. done.
Qed.

(** ** Transactions *)

Inductive tx_op := TBegin (a : Announcement) | TCommit (id : Z) | TPoll (ok : bool).
Definition tx_step (op : tx_op) (s : Feed) : Feed :=
  match op with
  | TBegin a =>
    match begin_of a (fd_outbox s) with
    | Some ob => {| fd_outbox := ob; fd_mark := fd_mark s |}
    | None => s
    end
  | TCommit id => {| fd_outbox := outbox_commit id (fd_outbox s); fd_mark := fd_mark s |}
  | TPoll ok => (poll_feed ok s).2
  end.
Definition run_tx (ops : list tx_op) (s : Feed) : Feed := foldl (λ s op, tx_step op s) s ops.

(** A row at or below the watermark that holds the key of [a]. *)
Definition muted (a : Announcement) (s : Feed) : Prop :=
  ∃ r k, r ∈ feed_rows s /\ row_ID r <= fd_mark s /\ row_dedup_key r = Some k /\ key_of a = Some k.

Lemma begin_rows a ob ob' : begin_of a ob = Some ob' -> ob_rows ob' = ob_rows ob.
Proof.
  destruct a as [[[t acc] plat] payload]. cbn [begin_of]. unfold outbox_begin.
  destruct (existsb _ (ob_rows ob)); [by intros [= <-]|]. destruct (existsb _ (ob_open ob)); [done|].
  by intros [= <-].
Qed.

Lemma muted_begin a s :
  muted a s ->
  begin_of a (fd_outbox s) = Some {| ob_rows := feed_rows s; ob_open := ob_open (fd_outbox s);
                                      ob_next := ob_next (fd_outbox s) + 1; ob_now := ob_now (fd_outbox s) |}.
Proof.
  intros (r & k & Hr & _ & Hk & Ha). destruct a as [[[t acc] plat] payload]. cbn [begin_of key_of] in *.
  unfold outbox_begin. rewrite Ha.
  assert (existsb (has_key (Some k)) (ob_rows (fd_outbox s)) = true) as ->; [|done].
  apply existsb_exists. exists r. split; [by apply list_elem_of_In|]. unfold has_key. rewrite Hk.
  apply String.eqb_refl.
Qed.

Lemma muted_step op a s : muted a s -> muted a (tx_step op s).
Proof.
  intros (r & k & Hr & Hm & Hk & Ha). destruct op as [b|id|ok]; cbn [tx_step].
  - destruct (begin_of b (fd_outbox s)) as [ob|] eqn:E; [|by exists r, k].
    exists r, k. unfold feed_rows; cbn. by rewrite (begin_rows _ _ _ E).
  - exists r, k. unfold feed_rows; cbn. rewrite elem_of_app. auto.
  - rewrite poll_rows. exists r, k. unfold feed_rows at 1; cbn [snd fd_outbox fd_mark ob_rows].
    assert (∀ x, x ∈ batch s -> fd_mark s < row_ID x) as Hb by
      (intros x Hx; by apply unread_above, elem_of_batch_unread).
    split_and!; [|destruct ok; [pose proof (last_id_above _ _ Hb); lia|done]|done..].
    apply list_elem_of_fmap. exists r. split; [|done]. unfold released, release_key.
    destruct (mem_Z _ _) eqn:E; [|done]. exfalso.
    apply mem_Z_true, list_elem_of_fmap in E as (x & Hid & Hx). specialize (Hb x Hx). lia.
Qed.

Lemma muted_run ops a s : muted a s -> muted a (run_tx ops s).
Proof.
  revert s. induction ops as [|op ops IH]; intros s H; [done|]. apply IH. by apply muted_step.
Qed.

(** A commit publishes the rows of its transaction, whatever the watermark. *)
Lemma late_commit_muted a s id r k :
  r ∈ ob_open (fd_outbox s) -> row_ID r = id -> id <= fd_mark s ->
  row_dedup_key r = Some k -> key_of a = Some k -> muted a (tx_step (TCommit id) s).
Proof.
  intros Hr Hid Hm Hk Ha. exists r, k. unfold feed_rows; cbn. rewrite elem_of_app. split_and!; [right|lia|done..].
  apply elem_of_filterb. split; [done|]. by apply Z.eqb_eq.
Qed.

End Queue.

(** ** The service *)

Section World.
Context {D : Type} {DB : SchedulerDB D}.
Context (sha256_hex : string -> string) (encodable : Account -> bool)
        (decode_payload : option string -> list (string * json)).

(** What happens around the service: the database changes, with or without an
    announcement in the same statement, and the service polls, rebuilds,
    serves a pool and refreshes an account. *)
Inductive world_op :=
| WChange (d : D) (a : option Announcement)
| WPoll (f : PollFaults)
| WRebuild (answers : RebuildAnswers)
| WList (unread : bool) (pa : PublishAnswers) (platformID : option Z) (accountPlatform : string)
| WUpdate (answer : call_answer) (account : option Account).

Definition announce (a : option Announcement) (ob : Outbox) : Outbox :=
  match a with Some a => default ob (enqueue_of sha256_hex a ob) | None => ob end.
Definition world_step (op : world_op) (w : World D) : World D :=
  match op with
  | WChange d a => {| w_cache := w_cache w; w_outbox := announce a (w_outbox w); w_db := d |}
  | WPoll f => pollOutbox encodable decode_payload f w
  | WRebuild answers => (rebuildAll encodable answers w).2
  | WList unread pa id p => (ListSchedulableAccounts encodable unread pa id p w).2
  | WUpdate answer account => (UpdateAccountInCache encodable answer account w).2
  end.
Definition run_world (ops : list world_op) (w : World D) : World D := foldl (λ w op, world_step op w) w ops.

(** What a step is for the queue: a change is its announcement, a poll that
    begins succeeds or fails, and nothing else touches it. *)
Definition poll_events (w : World D) : list SchedulerOutboxEvent :=
  map row_event (take 500 (unread_rows (feed_of w))).
Definition succeeds (f : PollFaults) (w : World D) : bool :=
  poll_succeeds decode_payload f (poll_events w) (w_db w).
Definition op_feed (op : world_op) (w : World D) : list feed_op :=
  match op with
  | WChange _ (Some a) => [FEnqueue a]
  | WPoll f => if poll_began f then [FPoll (succeeds f w)] else []
  | _ => []
  end.
Fixpoint feed_ops (ops : list world_op) (w : World D) : list feed_op :=
  match ops with
  | [] => []
  | op :: rest => op_feed op w ++ feed_ops rest (world_step op w)
  end.

Lemma list_feed unread pa id p (w : World D) :
  feed_of (ListSchedulableAccounts encodable unread pa id p w).2 = feed_of w.
Proof.
  unfold ListSchedulableAccounts. destruct id as [id|]; [|done]. destruct (id <=? 0); [done|].
  destruct (lookup_or_load unread id p w) as [[accounts []]|e]; try done. apply publish_feed.
Qed.

Lemma update_feed answer account (w : World D) :
  feed_of (UpdateAccountInCache encodable answer account w).2 = feed_of w.
Proof.
  destruct account as [a|]; [|done]. unfold UpdateAccountInCache, on_cache, feed_of.
  assert (GetOutboxWatermark (SetAccount encodable answer (Some a) (w_cache w)).2
          = GetOutboxWatermark (w_cache w)) as H.
  { unfold SetAccount. destruct (acc_ID a <=? 0) eqn:Ea; [done|]. apply bind_watermark.
    - intros c. apply accounts_watermark.
    - intros ids c. destruct (is_nil ids); [|done]. apply called_watermark. cbn. unfold DeleteAccount. by rewrite Ea. }
  destruct (SetAccount _ _ _ _) as [r c]. cbn in *. by rewrite H.
Qed.

Lemma world_step_feed op (w : World D) :
  feed_of (world_step op w) = (run_ops (feed_step sha256_hex) (op_feed op w) (feed_of w)).2.
Proof.
  destruct op as [d a|f|answers|unread pa id p|answer account]; cbn [world_step op_feed].
  - destruct a as [a|]; [|done]. unfold feed_of; cbn. by destruct (enqueue_of sha256_hex a (w_outbox w)).
  - rewrite pollOutbox_feed. destruct (poll_began f); [|done]. done.
  - apply rebuildAll_feed.
  - apply list_feed.
  - apply update_feed.
Qed.

Lemma run_ops_app {S} (step : feed_op -> S -> list Announcement * S) ops1 ops2 s :
  (run_ops step (ops1 ++ ops2) s).2 = (run_ops step ops2 (run_ops step ops1 s).2).2.
Proof.
  revert s. induction ops1 as [|op ops1 IH]; intros s; [done|]. cbn [app]. rewrite !run_ops_cons. apply IH.
Qed.

Lemma world_step_queue op (w : World D) :
  feed_ok sha256_hex (feed_of w) ->
  feed_ok sha256_hex (feed_of (world_step op w)) /\
  queue_of (feed_of (world_step op w)) = (run_ops (queue_step sha256_hex) (op_feed op w) (queue_of (feed_of w))).2.
Proof.
  intros Hok. rewrite world_step_feed.
  by destruct (feed_run_queue sha256_hex (op_feed op w) (feed_of w) Hok) as (Hok1 & _ & Hq1).
Qed.

Lemma run_world_queue ops (w : World D) :
  feed_ok sha256_hex (feed_of w) ->
  feed_ok sha256_hex (feed_of (run_world ops w)) /\
  queue_of (feed_of (run_world ops w)) = (run_ops (queue_step sha256_hex) (feed_ops ops w) (queue_of (feed_of w))).2.
Proof.
  revert w. induction ops as [|op ops IH]; intros w Hok; [done|].
  destruct (world_step_queue op w Hok) as [Hok1 Hq1]. destruct (IH _ Hok1) as [Hok2 Hq2].
  split; [exact Hok2|]. cbn [run_world foldl feed_ops]. rewrite run_ops_app, <- Hq1. exact Hq2.
Qed.

(** *** What a poll that succeeds has done *)

(** The rows are read, with their keys given up, and their last-used times
    written. *)
Definition times_written (w : World D) : World D :=
  let times := last_used_of decode_payload (poll_events w) in
  {| w_cache := if bool_decide (times = ∅) then w_cache w else UpdateLastUsed times (w_cache w);
     w_outbox := (ListAfterAndReleaseDedup (GetOutboxWatermark (w_cache w)) 500 (w_outbox w)).2; w_db := w_db w |}.
(** Then the pool of every active platform is published as the database lists
    it, and then the watermark is moved past the rows read; and nothing else
    is done. *)
Definition rebuilt (f : PollFaults) (w : World D) : Prop :=
  ∃ ps, db_ListPlatforms (w_db w) = Ok ps /\ readable (w_db w) = true /\
    let w2 := publish_all encodable (rebuild_answers f) ps (times_written w) in
    pollOutbox encodable decode_payload f w
    = set_cache (SetOutboxWatermark (last_id (GetOutboxWatermark (w_cache w)) (poll_events w)) (w_cache w2)) w2.

Lemma success_rebuilds f (w : World D) :
  poll_began f = true -> succeeds f w = true -> existsb asks (poll_events w) = true -> rebuilt f w.
Proof.
  unfold rebuilt, succeeds, poll_succeeds, poll_began, pollOutbox, times_written. intros [Hm _]%andb_true_iff Hs Hask.
  destruct (watermark_unread f); [done|].
  assert ((ListAfterAndReleaseDedup (GetOutboxWatermark (w_cache w)) 500 (w_outbox w)).1 = poll_events w) as He by done.
  destruct (ListAfterAndReleaseDedup _ 500 (w_outbox w)) as [events ob]. cbn [fst snd] in *. subst events.
  set (events := poll_events w) in *. rewrite Hask in Hs. cbn [negb orb] in Hs.
  rewrite !andb_true_iff, bool_decide_eq_true in Hs. destruct Hs as [[[-> Hlast] Hdb] Hsave].
  assert (is_nil events = false) as -> by (by destruct events).
  destruct (db_ListPlatforms (w_db w)) as [ps|e] eqn:Eps; [|by unfold readable in Hdb; rewrite Eps in Hdb].
  exists ps. split; [done|]. split; [done|]. cbv zeta.
  assert (∀ w1 : World D, w_db w1 = w_db w ->
    rebuild_and_save encodable f (GetOutboxWatermark (w_cache w)) events w1
    = set_cache (SetOutboxWatermark (last_id (GetOutboxWatermark (w_cache w)) events)
        (w_cache (publish_all encodable (rebuild_answers f) ps w1))) (publish_all encodable (rebuild_answers f) ps w1)) as Hend.
  { intros w1 Hw1. unfold rebuild_and_save.
    assert (existsb (λ e, asks_rebuild (ev_EventType e)) events = true) as ->.
    { apply existsb_exists in Hask as (e & Hin & Hx). apply existsb_exists. exists e. by rewrite asks_rebuild_asks. }
    pose proof (rebuildAll_readable encodable (rebuild_answers f) w1) as Hr. rewrite Hw1, Hdb in Hr.
    unfold rebuildAll in *. rewrite Hw1, Eps in *.
    destruct (rebuild_platforms encodable (rebuild_answers f) ps w1) as [[[]|e] w2] eqn:Er; [|done].
    apply rebuild_publishes in Er as ->.
    apply negb_true_iff, bool_decide_eq_false in Hsave. by destruct (watermark_save f) as [|[|n]]. }
  destruct (last_used_unwritten f) as [written|].
  - rewrite orb_false_r, bool_decide_eq_true in Hlast. rewrite (bool_decide_eq_true_2 (_ = ∅)) by done.
    rewrite bool_decide_eq_false_2 by (by intros []). by apply Hend.
  - destruct (decide (last_used_of decode_payload events = ∅)) as [El|El].
    + rewrite (bool_decide_eq_true_2 (_ = ∅)) by done. rewrite bool_decide_eq_false_2 by (by intros []). by apply Hend.
    + rewrite (bool_decide_eq_false_2 (_ = ∅)) by done. rewrite bool_decide_eq_true_2 by done. by apply Hend.
Qed.

(** *** Pending changes *)


End World.

(** ** Properties *)

(** C16. Whatever the service does and whatever fails, the unread rows of the
    outbox are the queue of the specification, run on the operations that the
    steps stand for: a change appends its announcement unless its key is held;
    a poll that could not begin does nothing; a poll takes the first 500
    exactly when it succeeds, that is, when the statement on the outbox was
    answered, the last-used times were written, the database answered for the
    platforms and every active pool if one of the rows asks for a rebuild, and
    the watermark was saved, and otherwise it only gives up their keys; and no
    other step touches the queue.  Statements commit at once ([feed_ok]). *)
Theorem service_refines_queue {D} `{DB : SchedulerDB D} sha256_hex encodable decode_payload
  (ops : list (world_op (D := D))) (w : World D) :
  feed_ok sha256_hex (feed_of w) ->
  let w' := run_world sha256_hex encodable decode_payload ops w in
  feed_ok sha256_hex (feed_of w') /\
  queue_of (feed_of w')
  = (run_ops (queue_step sha256_hex) (feed_ops sha256_hex encodable decode_payload ops w)
       (queue_of (feed_of w))).2.
Proof. apply run_world_queue. Qed.


(** The watermark moves past a change only when every active platform has
    been rebuilt from the database as it is now. *)
Theorem watermark_after_rebuild {D} `{DB : SchedulerDB D} encodable decode_payload f (w : World D) :
  existsb asks (poll_events w) = true ->
  GetOutboxWatermark (w_cache (pollOutbox encodable decode_payload f w)) ≠ GetOutboxWatermark (w_cache w) ->
  rebuilt encodable decode_payload f w.
Proof.
  intros Hask Hne. pose proof (f_equal fd_mark (pollOutbox_feed encodable decode_payload f w)) as Hf.
  cbn [feed_of fd_mark] in Hf. destruct (poll_began f) eqn:Hb; [|done].
  rewrite poll_rows in Hf. cbn [snd fd_mark] in Hf.
  destruct (succeeds decode_payload f w) eqn:Hs; [by apply success_rebuilds|].
  change (poll_succeeds _ _ _ _) with (succeeds decode_payload f w) in Hf. rewrite Hs in Hf. done.
Qed.

(** An event is dropped as a duplicate only for the same change, unless two
    texts have the same SHA-256. *)
Theorem dedup_key_identifies sha256_hex a b k :
  key_of sha256_hex a = Some k -> key_of sha256_hex b = Some k ->
  same_change a b \/ ∃ x y, x ≠ y /\ sha256_hex x = sha256_hex y.
Proof. apply key_identifies. Qed.

(** C40. A transaction that commits after the watermark has passed its row leaves
    the row unread with its key held: from then on no statement announces that
    change again, whatever polls and commits follow. *)
Theorem late_commit_mutes sha256_hex a s id r k ops :
  r ∈ ob_open (fd_outbox s) -> row_ID r = id -> id <= fd_mark s ->
  row_dedup_key r = Some k -> key_of sha256_hex a = Some k ->
  let s' := run_tx sha256_hex ops (tx_step sha256_hex (TCommit id) s) in
  muted sha256_hex a s' /\
  begin_of sha256_hex a (fd_outbox s')
  = Some {| ob_rows := feed_rows s'; ob_open := ob_open (fd_outbox s');
            ob_next := ob_next (fd_outbox s') + 1; ob_now := ob_now (fd_outbox s') |}.
Proof.
  intros Hr Hid Hm Hk Ha s'.
  assert (muted sha256_hex a s') as H by (by eapply muted_run, late_commit_muted).
  split; [exact H|]. by apply muted_begin.
Qed.

(** ** Witnesses *)

Definition ex_change (id : Z) : Announcement := (SchedulerOutboxEventAccountChanged, Some id, None, None).
Definition ex_clock : time := mk_time (1700000000 * second) UTC.

(** A database of platforms with their pools. *)
Definition PoolDB : Type := list (SchedPlatform * list Account).
#[export] Instance pool_db : SchedulerDB PoolDB := {|
  db_ListPlatforms := λ d, Ok (map fst d);
  db_ListPool := λ d id p,
    Ok (default [] (snd <$> List.find (λ e, (sp_platform_ID e.1 =? id) && String.eqb (sp_AccountPlatform e.1) p) d));
  db_GetByID := λ d id,
    match List.find (λ a, acc_ID a =? id) (concat (map snd d)) with
    | Some a => Ok a
    | None => Err (EPlain "account not found")
    end
|}.
Definition ex_platform : SchedPlatform :=
  {| sp_platform_ID := 1; sp_platform_Status := "active"; sp_AccountPlatform := "openai" |}.
Definition ex_world : World PoolDB :=
  {| w_cache := empty_redis; w_outbox := empty_outbox 1 ex_clock; w_db := [(ex_platform, [])] |}.

Lemma empty_feed_ok sha256_hex next now : 0 < next ->
  feed_ok sha256_hex {| fd_outbox := empty_outbox next now; fd_mark := 0 |}.
Proof.
  intros H. split; cbn; first [done|apply NoDup_nil_2|intros r Hr; by apply elem_of_nil in Hr|intros r k Hr; by apply elem_of_nil in Hr].
Qed.

Definition ex_steps : list (world_op (D := PoolDB)) :=
  [WChange [(ex_platform, [])] (Some (ex_change 7)); WPoll no_faults].
Lemma service_refines_queue_witness :
  let w' := run_world id (λ _, true) (λ _, []) ex_steps ex_world in
  feed_ok id (feed_of w') /\ queue_of (feed_of w') = [].
Proof.
  destruct (service_refines_queue id (λ _, true) (λ _, []) ex_steps ex_world) as [Hok Hq].
  { apply empty_feed_ok. lia. }
  split; [exact Hok|]. rewrite Hq. vm_compute. reflexivity.
Defined.


Definition ex_announced_world : World PoolDB :=
  world_step id (λ _, true) (λ _, []) (WChange [(ex_platform, [])] (Some (ex_change 7))) ex_world.
Lemma watermark_after_rebuild_witness : rebuilt (λ _, true) (λ _, []) no_faults ex_announced_world.
Proof.
  apply (watermark_after_rebuild (λ _, true) (λ _, []) no_faults ex_announced_world).
  - vm_compute. reflexivity.
  - apply Z.eqb_neq. vm_compute. reflexivity.
Defined.

Lemma dedup_key_identifies_witness :
  same_change (ex_change 7) (ex_change 7) \/ ∃ x y : string, x ≠ y /\ id x = id y.
Proof. eapply (dedup_key_identifies id (ex_change 7) (ex_change 7)); reflexivity. Defined.

(** Account 7 changes in a transaction that is slow to commit; account 8
    changes meanwhile and the worker reads its row, which has the higher
    number. *)
Definition ex_late : Feed :=
  run_tx id [TBegin (ex_change 7); TBegin (ex_change 8); TCommit 2; TPoll true] (empty_feed ex_clock).
Lemma late_commit_mutes_witness :
  let s' := run_tx id [TBegin (ex_change 7); TCommit 3; TPoll true] (tx_step id (TCommit 1) ex_late) in
  muted id (ex_change 7) s' /\ ob_open (fd_outbox s') = [] /\ unread_rows s' = [].
Proof.
  split.
  - eapply (late_commit_mutes id (ex_change 7) ex_late 1 _ _ [TBegin (ex_change 7); TCommit 3; TPoll true]);
      [left|reflexivity|vm_compute; discriminate|reflexivity|reflexivity].
  - split; reflexivity.
Defined.
