(* ===== verification/SchedulerFence.v ===== *)
(** * The write fence of a snapshot bucket

    Writers of a bucket hold a token, the epoch at which they captured it; they
    allocate a version, write it and activate it, and the bucket is retired and
    reopened meanwhile.  [fence_step] is the interleaving of the scripts; its
    invariant gives the two promises of the cache: a retirement fences every
    token captured before it, and readers never go back to an older version. *)

From S2P Require Import Prelude GoErrors SchedulerCache.

(** ** Interleavings *)

(** The keys, the tokens handed out and the versions being written, each with
    the epoch of its writer. *)
Record Fence := { fn_keys : BucketKeys; fn_tokens : list Z; fn_writers : list (Z * Z) }.
Definition fence_init : Fence := Build_Fence no_keys [] [].

Definition granted (r : Z) (tokens : list Z) : list Z := if 1 <=? r then r :: tokens else tokens.
Definition started (v e : Z) (writers : list (Z * Z)) : list (Z * Z) :=
  if 1 <=? v then (v, e) :: writers else writers.

Inductive fence_step : Fence -> Fence -> Prop :=
| step_capture k k' T W r :
  captureBucketWriteTokenScript k = (r, k') ->
  fence_step (Build_Fence k T W) (Build_Fence k' (granted r T) W)
| step_allocate k k' T W e v :
  e ∈ T -> allocateSnapshotVersionScript e k = (v, k') ->
  fence_step (Build_Fence k T W) (Build_Fence k' T (started v e W))
| step_write k T W v e ids :
  (v, e) ∈ W -> fence_step (Build_Fence k T W) (Build_Fence (writeSnapshotAccountIDs v ids k) T W)
| step_activate k k' T W v e r :
  (v, e) ∈ W -> activateSnapshotScript v e k = (r, k') ->
  fence_step (Build_Fence k T W) (Build_Fence k' T W)
| step_retire k k' T W r :
  retireBucketScript k = (r, k') -> fence_step (Build_Fence k T W) (Build_Fence k' T W)
| step_reopen k k' T W r :
  reopenBucketScript k = (r, k') ->
  fence_step (Build_Fence k T W) (Build_Fence k' (granted r T) W)
| step_expire k T W v :
  v ∈ ks_expiring k -> fence_step (Build_Fence k T W) (Build_Fence (del_snapshot v k) T W).

(** ** The invariant *)

Definition epoch_of (k : BucketKeys) : Z := default 0 (ks_epoch k).
Definition version_of (k : BucketKeys) : Z := default 0 (ks_version k).
Definition retired (k : BucketKeys) : Prop := is_Some (ks_retired k).

(** An epoch, once set, is positive; the mark of a retired bucket is its epoch
    and nothing of it is published; a published version was allocated, and so
    was every snapshot. *)
Record bucket_ok (k : BucketKeys) : Prop := {
  bo_epoch : ∀ e, ks_epoch k = Some e -> 1 <= e;
  bo_version : 0 <= version_of k;
  bo_retired : ∀ r, ks_retired k = Some r ->
    ks_epoch k = Some r /\ ks_active k = None /\ ks_ready k = false /\ ks_registered k = false;
  bo_active : ∀ v, ks_active k = Some v ->
    1 <= v <= version_of k /\ ks_ready k = true /\ ks_registered k = true /\ 1 <= epoch_of k;
  bo_snapshots : ∀ v, is_Some (ks_snapshots k !! v) -> v <= version_of k
}.

(** A token is at most the epoch, and below it when the bucket is retired; a
    writer holds a token and an allocated version. *)
Record fence_ok (s : Fence) : Prop := {
  fk_bucket : bucket_ok (fn_keys s);
  fk_tokens : ∀ e, e ∈ fn_tokens s ->
    1 <= e <= epoch_of (fn_keys s) /\ (retired (fn_keys s) -> e < epoch_of (fn_keys s));
  fk_writers : ∀ v e, (v, e) ∈ fn_writers s -> e ∈ fn_tokens s /\ 1 <= v <= version_of (fn_keys s)
}.

Lemma elem_of_granted e r T : e ∈ granted r T <-> e ∈ T \/ (1 <= r /\ e = r).
Proof. unfold granted. destruct (Z.leb_spec 1 r); rewrite ?elem_of_cons; intuition lia. Qed.
Lemma elem_of_started x v e W : x ∈ started v e W <-> x ∈ W \/ (1 <= v /\ x = (v, e)).
Proof. unfold started. destruct (Z.leb_spec 1 v); rewrite ?elem_of_cons; intuition lia. Qed.

(** What each script does to a bucket, by cases. *)

Lemma capture_spec k r k' :
  captureBucketWriteTokenScript k = (r, k') -> bucket_ok k ->
  (retired k /\ r = -1 /\ k' = k) \/
  (~ retired k /\ 1 <= r /\ (k' = k /\ ks_epoch k = Some r \/ ks_epoch k = None /\ r = 1 /\ k' = with_epoch 1 k)).
Proof.
  unfold captureBucketWriteTokenScript. intros H Hok. case_bool_decide as Hr; [injection H as <- <-; by left|].
  right. split; [done|]. destruct (ks_epoch k) as [e|] eqn:E.
  - pose proof (bo_epoch k Hok e E). destruct (Z.ltb_spec e 1); [lia|]. injection H as <- <-. auto.
  - injection H as <- <-. split; [lia|by right].
Qed.

Lemma epoch_is_true e k : epoch_is e k = true <-> ks_epoch k = Some e.
Proof. unfold epoch_is. destruct (ks_epoch k); [rewrite Z.eqb_eq|]; naive_solver. Qed.

Lemma allocate_spec e k v k' :
  allocateSnapshotVersionScript e k = (v, k') -> bucket_ok k ->
  ((retired k \/ ks_epoch k ≠ Some e) /\ v < 0 /\ k' = k) \/
  (~ retired k /\ ks_epoch k = Some e /\ v = version_of k + 1 /\ k' = with_version v k).
Proof.
  unfold allocateSnapshotVersionScript. intros H Hok. case_bool_decide as Hr.
  { injection H as <- <-. left. split_and!; [by left|lia|done]. }
  destruct (epoch_is e k) eqn:E; cbn in H; injection H as <- <-.
  - right. apply epoch_is_true in E. done.
  - left. split_and!; [right|lia|done]. intros E'. apply epoch_is_true in E'. congruence.
Qed.

Lemma activate_spec v e k r k' :
  activateSnapshotScript v e k = (r, k') ->
  ((retired k \/ ks_epoch k ≠ Some e) /\ r < 0 /\ k' = del_snapshot v k) \/
  (~ retired k /\ ks_epoch k = Some e /\
   ((r = 0 /\ k' = del_snapshot v k) \/
    (r = 1 /\ (∀ cur, ks_active k = Some cur -> cur <= v) /\
     ∃ x, k' = with_active (Some v) true true (with_snapshots (ks_snapshots k) x k)))).
Proof.
  unfold activateSnapshotScript. intros H. case_bool_decide as Hr.
  { injection H as <- <-. left. split_and!; [by left|lia|done]. }
  destruct (epoch_is e k) eqn:E; cbn in H.
  2:{ injection H as <- <-. left. split_and!; [right|lia|done]. intros E'. apply epoch_is_true in E'. congruence. }
  apply epoch_is_true in E. right. split_and!; [done..|].
  destruct (match ks_active k with Some cur => v <? cur | None => false end) eqn:Ea.
  { left. by injection H as <- <-. }
  right. injection H as <- <-. split_and!; [done| |].
  - intros cur Hc. rewrite Hc in Ea. by apply Z.ltb_ge in Ea.
  - unfold expire_snapshot. destruct (bool_decide _) eqn:Eb.
    + exists (ks_expiring k); reflexivity.
    + destruct (ks_active k) as [cur|]; [|exists (ks_expiring k); reflexivity].
      destruct (bool_decide (is_Some _)); [by eexists|]. exists (ks_expiring k); reflexivity.
Qed.

(** Retiring and reopening unpublish the bucket; the epoch grows with the first
    retirement only. *)
Definition unpublished (k k' : BucketKeys) : Prop :=
  ks_version k' = ks_version k /\ ks_snapshots k' = ks_snapshots k /\
  ks_active k' = None /\ ks_ready k' = false /\ ks_registered k' = false.

Lemma unpublish_spec k :
  unpublished k (unpublish k) /\ ks_epoch (unpublish k) = ks_epoch k /\ ks_retired (unpublish k) = ks_retired k.
Proof.
  unfold unpublish, expire_snapshot, unpublished.
  destruct (ks_active k); [case_bool_decide|]; done.
Qed.

Lemma retire_spec k r k' :
  retireBucketScript k = (r, k') -> bucket_ok k ->
  unpublished k k' /\ ks_retired k' = Some r /\ ks_epoch k' = Some r /\ 1 <= r /\
  ((retired k /\ r = epoch_of k) \/ (~ retired k /\ r = epoch_of k + 1)).
Proof.
  unfold retireBucketScript. intros H Hok. fold (epoch_of k) in H.
  destruct (ks_retired k) as [m|] eqn:Er.
  - destruct (bo_retired k Hok m Er) as (He & _). pose proof (bo_epoch k Hok m He) as Hm.
    assert (epoch_of k = m) as Hem by (unfold epoch_of; by rewrite He). rewrite Hem in H.
    destruct (Z.ltb_spec m 1); [lia|]. injection H as <- <-.
    destruct (unpublish_spec k) as (Hu & Hue & Hur). rewrite Hue, Hur. split_and!; [done..|].
    left. split; [by eexists|done].
  - assert (0 <= epoch_of k) as He.
    { unfold epoch_of. destruct (ks_epoch k) as [e|] eqn:E; cbn; [|lia]. pose proof (bo_epoch k Hok e E). lia. }
    destruct (Z.ltb_spec (epoch_of k + 1) 1); [lia|]. injection H as <- <-.
    destruct (unpublish_spec (with_retired (Some (epoch_of k + 1)) (with_epoch (epoch_of k + 1) k))) as (Hu & Hue & Hur).
    rewrite Hue, Hur. split_and!; [exact Hu|done|done|lia|]. right. split; [|done].
    unfold retired. rewrite Er. by intros [? ?].
Qed.

Lemma reopen_spec k r k' :
  reopenBucketScript k = (r, k') -> bucket_ok k ->
  ~ retired k' /\ ks_epoch k' = Some r /\ 1 <= r /\
  ((retired k /\ r = epoch_of k /\ unpublished k k') \/
   (~ retired k /\ (k' = k \/ ks_epoch k = None /\ r = 1 /\ k' = with_epoch 1 k))).
Proof.
  unfold reopenBucketScript, retired. intros H Hok. destruct (ks_retired k) as [m|] eqn:Er.
  - destruct (bo_retired k Hok m Er) as (He & _). pose proof (bo_epoch k Hok m He) as Hm.
    destruct (Z.ltb_spec m 1); [lia|]. rewrite He, Z.ltb_irrefl in H. injection H as <- <-.
    destruct (unpublish_spec (with_retired None (with_epoch m k))) as (Hu & Hue & Hur).
    rewrite Hue, Hur. split_and!; [by intros [? ?]|done|lia|]. left. split_and!; [by eexists| |exact Hu].
    unfold epoch_of. by rewrite He.
  - assert (~ is_Some (@None Z)) as Hn by (by intros [? ?]).
    destruct (ks_epoch k) as [e|] eqn:Ee.
    + pose proof (bo_epoch k Hok e Ee). destruct (Z.ltb_spec e 1); [lia|]. injection H as <- <-.
      rewrite Er. split_and!; [done..|right]. split; [done|by left].
    + injection H as <- <-. cbn. rewrite Er. split_and!; [done..|right]. split; [done|by right].
Qed.

(** ** Every step keeps the invariant *)

Lemma epoch_of_Some k e : ks_epoch k = Some e -> epoch_of k = e.
Proof. unfold epoch_of. by intros ->. Qed.

Lemma unpublished_ok k k' r :
  bucket_ok k -> unpublished k k' -> ks_epoch k' = Some r -> 1 <= r ->
  (∀ m, ks_retired k' = Some m -> m = r) -> bucket_ok k'.
Proof.
  intros [_ Hv _ _ Hs] (Ev & Es & Ea & Er & Eg) He Hr Hm. unfold version_of in *. split; unfold version_of.
  - intros e Ee. congruence.
  - by rewrite Ev.
  - intros m Em. by rewrite (Hm m Em).
  - intros v. by rewrite Ea.
  - intros v. by rewrite Es, Ev; apply Hs.
Qed.

Lemma with_epoch_ok k : bucket_ok k -> ks_epoch k = None -> bucket_ok (with_epoch 1 k).
Proof.
  intros [_ Hv Hr Ha Hs] He. split; cbn; try done.
  - intros e [= <-]. lia.
  - intros r Em. destruct (Hr r Em) as (E & _). congruence.
  - intros v Hx. destruct (Ha v Hx) as (? & ? & ? & _). unfold epoch_of, version_of in *; cbn. split_and!; (done || lia).
Qed.

Lemma del_snapshot_ok v k : bucket_ok k -> bucket_ok (del_snapshot v k).
Proof.
  intros [He Hv Hr Ha Hs]. split; try done.
  intros u. cbn. rewrite lookup_delete_is_Some. intros [_ Hu]. by apply Hs.
Qed.

Lemma with_version_ok k : bucket_ok k -> bucket_ok (with_version (version_of k + 1) k).
Proof.
  intros [He Hv Hr Ha Hs]. split; try done; unfold version_of in *; cbn.
  - lia.
  - intros v Hx. destruct (Ha v Hx) as (? & ?). split; [lia|done].
  - intros v Hx. specialize (Hs v Hx). lia.
Qed.

Lemma write_ok v ids k : 1 <= v <= version_of k -> bucket_ok k -> bucket_ok (writeSnapshotAccountIDs v ids k).
Proof.
  intros Hv Hok. unfold writeSnapshotAccountIDs. destruct (is_nil ids); [done|].
  destruct Hok as [He Hv0 Hr Ha Hs]. split; try done.
  intros u. cbn. rewrite lookup_insert_is_Some. unfold version_of in *; cbn. intros [->|[_ Hu]]; [lia|by apply Hs].
Qed.

Lemma activated_ok v x k :
  bucket_ok k -> ~ retired k -> 1 <= v <= version_of k -> 1 <= epoch_of k ->
  bucket_ok (with_active (Some v) true true (with_snapshots (ks_snapshots k) x k)).
Proof.
  intros [He Hv0 Hr Ha Hs] Hn Hv Hep. split; cbn; try done.
  - intros r Er. exfalso. apply Hn. by eexists.
  - by intros u [= <-].
Qed.

Lemma fence_init_ok : fence_ok fence_init.
Proof.
  split; cbn.
  - split; cbn; try done. intros v [x Hx]. by rewrite lookup_empty in Hx.
  - intros e He. by apply elem_of_nil in He.
  - intros v e He. by apply elem_of_nil in He.
Qed.

(** The tokens and writers stay good when the epoch does not go back, grows at
    a retirement, and the versions do not go back. *)
Lemma fence_ok_mono k k' T W :
  fence_ok (Build_Fence k T W) -> bucket_ok k' ->
  epoch_of k <= epoch_of k' -> version_of k <= version_of k' ->
  (retired k' -> retired k \/ epoch_of k < epoch_of k') -> fence_ok (Build_Fence k' T W).
Proof.
  intros [_ Ht Hw] Hok He Hv Hr. split; cbn in *; [done|..].
  - intros e Hin. destruct (Ht e Hin) as [H1 H2]. split; [lia|]. intros [H3|H3]%Hr; [specialize (H2 H3)|]; lia.
  - intros v e Hin. destruct (Hw v e Hin). split; [done|lia].
Qed.

Lemma granted_ok k T W r :
  fence_ok (Build_Fence k T W) -> (1 <= r -> r = epoch_of k /\ ~ retired k) ->
  fence_ok (Build_Fence k (granted r T) W).
Proof.
  intros [Hok Ht Hw] Hr. split; cbn in *; [done|..].
  - intros e [Hin|[H1 ->]]%elem_of_granted; [by apply Ht|]. destruct (Hr H1) as [-> Hn]. split; [lia|done].
  - intros v e Hin. destruct (Hw v e Hin). split; [|done]. apply elem_of_granted. by left.
Qed.

Lemma epoch_nonneg k : bucket_ok k -> 0 <= epoch_of k.
Proof.
  intros Hok. unfold epoch_of. destruct (ks_epoch k) as [e|] eqn:E; cbn; [|lia].
  pose proof (bo_epoch k Hok e E). lia.
Qed.

Lemma capture_ok k k' T W r :
  captureBucketWriteTokenScript k = (r, k') -> fence_ok (Build_Fence k T W) ->
  fence_ok (Build_Fence k' (granted r T) W).
Proof.
  intros H Hok. pose proof (fk_bucket _ Hok) as Hb. cbn in Hb.
  destruct (capture_spec _ _ _ H Hb) as [(Hr & -> & ->)|(Hn & H1 & [[-> He]|(He & -> & ->)])].
  - by apply granted_ok.
  - apply granted_ok; [done|]. by rewrite (epoch_of_Some _ _ He).
  - apply granted_ok; [|done]. pose proof (epoch_nonneg k Hb).
    apply (fence_ok_mono k); [done|by apply with_epoch_ok| | |by left]; unfold epoch_of, version_of; cbn; [|lia].
    rewrite He. cbn. lia.
Qed.

Lemma reopen_ok k k' T W r :
  reopenBucketScript k = (r, k') -> fence_ok (Build_Fence k T W) ->
  fence_ok (Build_Fence k' (granted r T) W).
Proof.
  intros H Hok. pose proof (fk_bucket _ Hok) as Hb. cbn in Hb.
  destruct (reopen_spec _ _ _ H Hb) as (Hn & He & H1 & Hc).
  apply granted_ok; [|by rewrite (epoch_of_Some _ _ He)].
  destruct Hc as [(Hr & -> & Hu)|(Hr & [->|(He' & -> & ->)])]; [|done|].
  - apply (fence_ok_mono k); [done| | | |done].
    + eapply unpublished_ok; [done..|]. intros m Hm. exfalso. apply Hn. by eexists.
    + by rewrite (epoch_of_Some _ _ He).
    + unfold version_of. destruct Hu as (-> & _). lia.
  - apply (fence_ok_mono k); [done|by apply with_epoch_ok| | |by left]; unfold epoch_of, version_of; cbn; [|lia].
    rewrite He'. cbn. lia.
Qed.

Lemma retire_ok k k' T W r :
  retireBucketScript k = (r, k') -> fence_ok (Build_Fence k T W) -> fence_ok (Build_Fence k' T W).
Proof.
  intros H Hok. pose proof (fk_bucket _ Hok) as Hb. cbn in Hb.
  destruct (retire_spec _ _ _ H Hb) as (Hu & Hr & He & H1 & Hc).
  apply (fence_ok_mono k); [done| | | |].
  - eapply unpublished_ok; [done..|]. intros m Hm. congruence.
  - rewrite (epoch_of_Some _ _ He). destruct Hc as [[_ ->]|[_ ->]]; lia.
  - unfold version_of. destruct Hu as (-> & _). lia.
  - intros _. rewrite (epoch_of_Some _ _ He). destruct Hc as [[Hret _]|[_ ->]]; [by left|right; lia].
Qed.

Lemma activate_ok k k' T W v e r :
  (v, e) ∈ W -> activateSnapshotScript v e k = (r, k') -> fence_ok (Build_Fence k T W) ->
  fence_ok (Build_Fence k' T W).
Proof.
  intros Hin H Hok. pose proof (fk_bucket _ Hok) as Hb. cbn in Hb.
  destruct (fk_writers _ Hok v e Hin) as [_ Hv]; cbn in Hv.
  destruct (activate_spec _ _ _ _ _ H) as [(_ & _ & ->)|(Hn & He & [(_ & ->)|(_ & _ & x & ->)])].
  1,2: apply (fence_ok_mono k); [done|by apply del_snapshot_ok|done..|by left].
  pose proof (bo_epoch k Hb e He).
  apply (fence_ok_mono k); [done|apply activated_ok; [done..|by rewrite (epoch_of_Some _ _ He)]|done..|by left].
Qed.

Lemma fence_step_ok s s' : fence_step s s' -> fence_ok s -> fence_ok s'.
Proof.
  destruct 1 as [k k' T W r H|k k' T W e v Hin H|k T W v e ids Hin|k k' T W v e r Hin H|k k' T W r H
                |k k' T W r H|k T W v Hin]; intros Hok; pose proof (fk_bucket _ Hok) as Hb; cbn in Hb.
  - by eapply capture_ok.
  - destruct (allocate_spec _ _ _ _ H Hb) as [(_ & Hv & ->)|(Hn & He & -> & ->)].
    { unfold started. destruct (Z.leb_spec 1 v); [lia|done]. }
    pose proof (bo_version k Hb). unfold started. destruct (Z.leb_spec 1 (version_of k + 1)); [|lia].
    assert (fence_ok (Build_Fence (with_version (version_of k + 1) k) T W)) as [Hb' Ht' Hw'].
    { apply (fence_ok_mono k); [done|by apply with_version_ok|done|unfold version_of; cbn; lia|by left]. }
    split; cbn in *; [done..|]. intros u f [[= -> ->]|Hu]%elem_of_cons; [|by apply Hw'].
    unfold version_of in *; cbn. split; [done|lia].
  - destruct (fk_writers _ Hok v e Hin) as [_ Hv]; cbn in Hv.
    apply (fence_ok_mono k); [done|by apply write_ok|..]; unfold writeSnapshotAccountIDs;
      destruct (is_nil ids); by try left.
  - by eapply activate_ok.
  - by eapply retire_ok.
  - by eapply reopen_ok.
  - apply (fence_ok_mono k); [done|by apply del_snapshot_ok|done..|by left].
Qed.

Lemma fence_reach_ok s s' : rtc fence_step s s' -> fence_ok s -> fence_ok s'.
Proof. induction 1 as [|x y z Hxy _ IH]; intros Hok; [done|]. apply IH. by eapply fence_step_ok. Qed.

(** ** A retirement fences older tokens *)

(** The epoch does not go back. *)
Lemma fence_step_epoch s s' :
  fence_step s s' -> fence_ok s -> epoch_of (fn_keys s) <= epoch_of (fn_keys s').
Proof.
  destruct 1 as [k k' T W r H|k k' T W e v Hin H|k T W v e ids Hin|k k' T W v e r Hin H|k k' T W r H
                |k k' T W r H|k T W v Hin]; intros Hok; pose proof (fk_bucket _ Hok) as Hb; cbn in Hb |- *.
  - pose proof (epoch_nonneg k Hb).
    destruct (capture_spec _ _ _ H Hb) as [(_ & _ & ->)|(_ & _ & [[-> _]|(He & _ & ->)])]; [done..|].
    unfold epoch_of in *; cbn. rewrite He. cbn. lia.
  - by destruct (allocate_spec _ _ _ _ H Hb) as [(_ & _ & ->)|(_ & _ & _ & ->)].
  - unfold writeSnapshotAccountIDs. by destruct (is_nil ids).
  - by destruct (activate_spec _ _ _ _ _ H) as [(_ & _ & ->)|(_ & _ & [(_ & ->)|(_ & _ & x & ->)])].
  - destruct (retire_spec _ _ _ H Hb) as (_ & _ & He & _ & Hc). rewrite (epoch_of_Some _ _ He).
    destruct Hc as [[_ ->]|[_ ->]]; lia.
  - pose proof (epoch_nonneg k Hb).
    destruct (reopen_spec _ _ _ H Hb) as (_ & He & _ & [(_ & -> & _)|(_ & [->|(He' & -> & ->)])]);
      rewrite ?(epoch_of_Some _ _ He); [done|done|].
    unfold epoch_of in *. rewrite He'. cbn. lia.
  - done.
Qed.

Lemma fence_reach_epoch s s' :
  rtc fence_step s s' -> fence_ok s -> epoch_of (fn_keys s) <= epoch_of (fn_keys s').
Proof.
  induction 1 as [|x y z Hxy _ IH]; intros Hok; [done|].
  etrans; [by eapply fence_step_epoch|]. apply IH. by eapply fence_step_ok.
Qed.

(** A token below the epoch allocates nothing and publishes nothing. *)
Definition fenced (e : Z) (k : BucketKeys) : Prop :=
  (allocateSnapshotVersionScript e k).1 < 0 /\ (allocateSnapshotVersionScript e k).2 = k /\
  ∀ v, (activateSnapshotScript v e k).1 < 0 /\ (activateSnapshotScript v e k).2 = del_snapshot v k.

Lemma old_epoch_fenced e k : bucket_ok k -> e < epoch_of k -> fenced e k.
Proof.
  intros Hok He. assert (ks_epoch k ≠ Some e) as Hne.
  { intros E. unfold epoch_of in He. rewrite E in He. cbn in He. lia. }
  unfold fenced. destruct (allocateSnapshotVersionScript e k) as [r k'] eqn:Ea.
  destruct (allocate_spec _ _ _ _ Ea Hok) as [(_ & Hr & ->)|(_ & Ee & _)]; [|done].
  split_and!; [done..|]. intros v. destruct (activateSnapshotScript v e k) as [r' k''] eqn:Ec.
  by destruct (activate_spec _ _ _ _ _ Ec) as [(_ & Hr' & ->)|(_ & Ee & _)].
Qed.

Lemma retire_fences_lemma s e r k s' :
  fence_ok s -> e ∈ fn_tokens s -> retireBucketScript (fn_keys s) = (r, k) ->
  rtc fence_step (Build_Fence k (fn_tokens s) (fn_writers s)) s' -> fenced e (fn_keys s').
Proof.
  intros Hok Hin Hr Hreach. pose proof (fk_bucket _ Hok) as Hb.
  assert (fence_step s (Build_Fence k (fn_tokens s) (fn_writers s))) as Hstep
    by (destruct s; by eapply step_retire).
  pose proof (fence_step_ok _ _ Hstep Hok) as Hok1.
  apply old_epoch_fenced; [by apply fk_bucket, (fence_reach_ok _ _ Hreach)|].
  eapply Z.lt_le_trans; [|by apply (fence_reach_epoch _ _ Hreach)]. cbn.
  destruct (fk_tokens _ Hok e Hin) as [H1 H2].
  destruct (retire_spec _ _ _ Hr Hb) as (_ & _ & He & _ & Hc). rewrite (epoch_of_Some _ _ He).
  destruct Hc as [[Hret ->]|[_ ->]]; [by apply H2|lia].
Qed.

(** ** Readers never go back *)

(** What holds after version [v0] was active at epoch [e0]: at that epoch a
    version is still active, a later epoch only starts later versions. *)
Record since (v0 e0 : Z) (s : Fence) : Prop := {
  sn_version : v0 <= version_of (fn_keys s);
  sn_epoch : 1 <= e0 <= epoch_of (fn_keys s);
  sn_retired : retired (fn_keys s) -> e0 < epoch_of (fn_keys s);
  sn_writers : ∀ v e, (v, e) ∈ fn_writers s -> e0 < e -> v0 < v;
  sn_active : ∀ v, ks_active (fn_keys s) = Some v -> v0 <= v;
  sn_open : epoch_of (fn_keys s) = e0 -> is_Some (ks_active (fn_keys s))
}.

Lemma since_same v0 e0 k k' T T' W :
  since v0 e0 (Build_Fence k T W) -> ks_epoch k' = ks_epoch k -> ks_version k' = ks_version k ->
  ks_retired k' = ks_retired k -> ks_active k' = ks_active k -> since v0 e0 (Build_Fence k' T' W).
Proof.
  intros [H1 H2 H3 H4 H5 H6] Ee Ev Er Ea.
  split; cbn in *; unfold version_of, epoch_of, retired in *; rewrite ?Ee, ?Ev, ?Er, ?Ea; done.
Qed.

Lemma since_unpublished v0 e0 k k' T T' W :
  since v0 e0 (Build_Fence k T W) -> unpublished k k' -> e0 < epoch_of k' ->
  since v0 e0 (Build_Fence k' T' W).
Proof.
  intros [H1 H2 H3 H4 H5 H6] (Ev & _ & Ea & _ & _) He.
  split; cbn in *; unfold version_of in *; rewrite ?Ev, ?Ea; try done; lia.
Qed.

Lemma since_step v0 e0 s s' : fence_step s s' -> fence_ok s -> since v0 e0 s -> since v0 e0 s'.
Proof.
  destruct 1 as [k k' T W r H|k k' T W e v Hin H|k T W v e ids Hin|k k' T W v e r Hin H|k k' T W r H
                |k k' T W r H|k T W v Hin]; intros Hok Hs; pose proof (fk_bucket _ Hok) as Hb; cbn in Hb;
    pose proof (sn_epoch _ _ _ Hs) as Hep; cbn in Hep.
  - destruct (capture_spec _ _ _ H Hb) as [(_ & _ & ->)|(_ & _ & [[-> _]|(He & _ & ->)])].
    1,2: by eapply since_same. unfold epoch_of in Hep. rewrite He in Hep. cbn in Hep. lia.
  - destruct (allocate_spec _ _ _ _ H Hb) as [(_ & Hv & ->)|(Hn & He & -> & ->)].
    { unfold started. destruct (Z.leb_spec 1 v); [lia|]. by eapply since_same. }
    destruct Hs as [H1 H2 H3 H4 H5 H6]. split; cbn in *; unfold version_of in *; cbn; try done; [lia|].
    intros u f [Hu|[_ [= -> ->]]]%elem_of_started; [by eapply H4|]. lia.
  - unfold writeSnapshotAccountIDs. destruct (is_nil ids); by eapply since_same.
  - destruct (activate_spec _ _ _ _ _ H) as [(_ & _ & ->)|(Hn & He & [(_ & ->)|(_ & Hcur & x & ->)])].
    1,2: by eapply since_same.
    destruct Hs as [H1 H2 H3 H4 H5 H6]. split; cbn in *; unfold epoch_of, version_of, retired in *; cbn in *; try done.
    intros u [= <-]. rewrite He in *; cbn in *.
    destruct (decide (e = e0)) as [->|Hne]; [|apply Z.lt_le_incl, (H4 v e); [done|lia]].
    destruct (H6 eq_refl) as [cur Ec]. specialize (H5 cur Ec). specialize (Hcur cur Ec). lia.
  - destruct (retire_spec _ _ _ H Hb) as (Hu & _ & He & _ & Hc). eapply since_unpublished; [done..|].
    rewrite (epoch_of_Some _ _ He). destruct Hc as [[Hr ->]|[_ ->]]; [by apply (sn_retired _ _ _ Hs)|lia].
  - destruct (reopen_spec _ _ _ H Hb) as (_ & He & _ & [(Hr & -> & Hu)|(_ & [->|(He' & -> & ->)])]).
    + eapply since_unpublished; [done..|]. rewrite (epoch_of_Some _ _ He). by apply (sn_retired _ _ _ Hs).
    + by eapply since_same.
    + unfold epoch_of in Hep. rewrite He' in Hep. cbn in Hep. lia.
  - by eapply since_same.
Qed.

Lemma since_reach v0 e0 s s' : rtc fence_step s s' -> fence_ok s -> since v0 e0 s -> since v0 e0 s'.
Proof.
  induction 1 as [|x y z Hxy _ IH]; intros Hok Hs; [done|].
  apply IH; [by eapply fence_step_ok|by eapply since_step].
Qed.

Lemma since_now v0 s : fence_ok s -> ks_active (fn_keys s) = Some v0 -> since v0 (epoch_of (fn_keys s)) s.
Proof.
  intros [Hb Ht Hw] Ha. destruct (bo_active _ Hb v0 Ha) as (Hv & _ & _ & He). split; try done; [lia|..].
  - intros [m Hm]. destruct (bo_retired _ Hb m Hm) as (_ & Hn & _). congruence.
  - intros v e Hin Hlt. destruct (Hw v e Hin) as [Hin' _]. destruct (Ht e Hin'). lia.
  - intros v E. rewrite Ha in E. injection E as <-. lia.
Qed.

(** ** Properties *)

(** C36. The state of a bucket is well formed under every interleaving of captures,
    writers, retirements and reopenings: what is published is an allocated
    version, a retired bucket publishes nothing, and no token is ahead of the
    epoch. *)
Theorem fence_invariant s : rtc fence_step fence_init s -> fence_ok s.
Proof. intros H. apply (fence_reach_ok _ _ H), fence_init_ok. Qed.

(** C22. A retirement fences every token captured before it: whatever happens
    afterwards, a reopening included, such a token allocates no version and
    publishes none. *)
Theorem retirement_fences s e r k s' :
  rtc fence_step fence_init s -> e ∈ fn_tokens s -> retireBucketScript (fn_keys s) = (r, k) ->
  rtc fence_step (Build_Fence k (fn_tokens s) (fn_writers s)) s' -> fenced e (fn_keys s').
Proof.
  intros H. apply retire_fences_lemma. apply (fence_reach_ok _ _ H), fence_init_ok.
Qed.

(** C21. Readers never go back: once version [v] has been published, every version
    published later, by any writer and after any retirement and reopening, is
    at least [v]. *)
Theorem published_never_back s s' v v' :
  rtc fence_step fence_init s -> rtc fence_step s s' ->
  ks_active (fn_keys s) = Some v -> ks_active (fn_keys s') = Some v' -> v <= v'.
Proof.
  intros H Hs Ev Ev'. pose proof (fence_reach_ok _ _ H fence_init_ok) as Hok.
  exact (sn_active _ _ _ (since_reach _ _ _ _ Hs Hok (since_now v s Hok Ev)) v' Ev').
Qed.

(** ** Witnesses *)

(** Two writers captured epoch 1; the second publishes version 2, the bucket is
    retired and reopened, and a writer of epoch 2 publishes version 3. *)
Definition ex_k1 : BucketKeys := (captureBucketWriteTokenScript no_keys).2.
Definition ex_k2 : BucketKeys := (allocateSnapshotVersionScript 1 ex_k1).2.
Definition ex_k3 : BucketKeys := (activateSnapshotScript 1 1 ex_k2).2.
Definition ex_k4 : BucketKeys := (retireBucketScript ex_k3).2.
Definition ex_k5 : BucketKeys := (reopenBucketScript ex_k4).2.
Definition ex_k6 : BucketKeys := (allocateSnapshotVersionScript 2 ex_k5).2.
Definition ex_k7 : BucketKeys := (activateSnapshotScript 2 2 ex_k6).2.

Ltac script_pair := match goal with |- ?f = _ => rewrite (surjective_pairing f) end; reflexivity.

Lemma ex_published : rtc fence_step fence_init (Build_Fence ex_k3 [1] [(1, 1)]).
Proof.
  eapply rtc_l; [eapply (step_capture _ ex_k1 [] [] 1); script_pair|].
  eapply rtc_l; [eapply (step_allocate _ ex_k2 _ _ 1 1); [left|script_pair]|].
  eapply rtc_l; [eapply (step_activate _ ex_k3 _ _ 1 1 1); [left|script_pair]|]. apply rtc_refl.
Qed.

Lemma ex_republished :
  rtc fence_step (Build_Fence ex_k4 [1] [(1, 1)]) (Build_Fence ex_k7 [2; 1] [(2, 2); (1, 1)]).
Proof.
  eapply rtc_l; [eapply (step_reopen _ ex_k5 _ _ 2); script_pair|].
  eapply rtc_l; [eapply (step_allocate _ ex_k6 _ _ 2 2); [left|script_pair]|].
  eapply rtc_l; [eapply (step_activate _ ex_k7 _ _ 2 2 1); [left|script_pair]|]. apply rtc_refl.
Qed.

Lemma fence_invariant_witness : fence_ok (Build_Fence ex_k3 [1] [(1, 1)]).
Proof. apply fence_invariant. apply ex_published. Defined.

Lemma retirement_fences_witness : fenced 1 ex_k7.
Proof.
  apply (retirement_fences _ 1 2 ex_k4 (Build_Fence ex_k7 [2; 1] [(2, 2); (1, 1)]) ex_published);
    [left|reflexivity|apply ex_republished].
Defined.

Lemma published_never_back_witness : ks_active ex_k3 = Some 1 /\ ks_active ex_k7 = Some 2 /\ 1 <= 2.
Proof.
  split; [reflexivity|]. split; [reflexivity|].
  apply (published_never_back _ (Build_Fence ex_k7 [2; 1] [(2, 2); (1, 1)]) 1 2 ex_published);
    [|reflexivity|reflexivity].
  eapply rtc_l; [|apply ex_republished]. eapply (step_retire _ ex_k4 _ _ 2). reflexivity.
Defined.
