(* ===== verification/SchedulerProps.v ===== *)
(** * What the scheduler serves

    A published pool is served back, in its order, as the accounts the
    scheduler keeps; a rebuild makes every active platform whose publication
    Redis answered serve the database as it is, whatever became of the others,
    while a publication that fails is not reported; what is kept of an account decides its scheduling
    as the account does, but for one configuration; and a load that a rebuild
    overtook is published over it. *)

From stdpp Require Import pretty.
From Stdlib Require Import Ascii.
From S2P Require Import Prelude GoErrors Float64 GoTime GoStrings GoText PlatformModels Account AccountQuotaProps SchedulerOutbox SchedulerCache SchedulerSnapshot SchedulerFence OutboxProps.

(** ** Sorted sets *)

Section SortExt.
Context {A : Type} (less less' : A -> A -> bool).

Lemma sort_insert_ext x l : (∀ y, y ∈ l -> less y x = less' y x) -> sort_insert less x l = sort_insert less' x l.
Proof.
  induction l as [|y l IH]; intros H; cbn; [done|]. rewrite (H y) by left.
  destruct (less' y x); [|done]. f_equal. apply IH. intros z Hz. apply H. by right.
Qed.

Lemma stable_sort_ext l :
  (∀ x y, x ∈ l -> y ∈ l -> less x y = less' x y) -> stable_sort less l = stable_sort less' l.
Proof.
  induction l as [|x l IH]; intros H; [done|].
  change (sort_insert less x (stable_sort less l) = sort_insert less' x (stable_sort less' l)).
  rewrite IH by (intros; apply H; by right). apply sort_insert_ext.
  intros y Hy%elem_of_stable_sort. apply H; [by right|left].
Qed.
End SortExt.

Definition score_less (a b : Z * Z) : bool := a.2 <? b.2.
Definition score_lt (a b : Z * Z) : Prop := a.2 < b.2.
#[export] Instance score_lt_anti : AntiSymm (=) score_lt.
Proof. intros a b. unfold score_lt. lia. Qed.

Lemma score_sorted_strict l :
  StronglySorted (not_after score_less) l -> NoDup (map snd l) -> StronglySorted score_lt l.
Proof.
  induction 1 as [|r l _ IH Hr]; cbn [map]; intros Hnd; constructor; apply NoDup_cons in Hnd as [Hni Hnd].
  { by apply IH. }
  apply Forall_forall. intros x Hx. rewrite Forall_forall in Hr. specialize (Hr x Hx).
  unfold not_after, score_less in Hr. unfold score_lt.
  assert (r.2 ≠ x.2) by (intros E; apply Hni; rewrite E; by apply (list_elem_of_fmap_2 snd)).
  bool_lia.
Qed.

Lemma ltb_irrefl s : String.ltb s s = false.
Proof. unfold String.ltb. pose proof (String.compare_antisym s s) as H. by destruct (String.compare s s). Qed.

(** Members with different scores come in the order of their scores. *)
Lemma member_sort l l' :
  NoDup (map snd l) -> l ≡ₚ l' -> StronglySorted score_lt l' -> stable_sort member_less l = l'.
Proof.
  intros Hnd Hp Hs. rewrite (stable_sort_ext member_less score_less).
  - apply (StronglySorted_unique score_lt); [|done|].
    + apply score_sorted_strict.
      * apply stable_sort_sorted; unfold score_less; intros; bool_lia.
      * by rewrite (stable_sort_perm score_less).
    + by rewrite (stable_sort_perm score_less).
  - intros x y Hx Hy. unfold member_less, score_less.
    destruct (decide (x.2 = y.2)) as [E|Hne].
    + assert (x = y) as ->.
      { apply list_elem_of_lookup in Hx as [i Hi], Hy as [j Hj].
        assert (i = j) as ->; [|congruence].
        eapply NoDup_lookup; [exact Hnd|apply (list_lookup_fmap_Some_2 snd); exact Hi|].
        rewrite E. by apply (list_lookup_fmap_Some_2 snd). }
      by rewrite ltb_irrefl, andb_false_r, orb_false_r.
    + rewrite (proj2 (Z.eqb_neq _ _) Hne). cbn. by rewrite orb_false_r.
Qed.

(** The members of a list, scored from [n] on. *)
Definition scored (n : nat) (ids : list Z) : list (Z * Z) := imap (λ i x, (x, Z.of_nat (n + i))) ids.
Lemma scored_cons n x ids : scored n (x :: ids) = (x, Z.of_nat n) :: scored (S n) ids.
Proof.
  unfold scored. cbn. rewrite Nat.add_0_r. f_equal. apply imap_ext. intros i y _. cbn. do 2 f_equal. lia.
Qed.
Lemma scored_fst n ids : map fst (scored n ids) = ids.
Proof. revert n. induction ids as [|x ids IH]; intros n; [done|]. rewrite scored_cons. cbn. by rewrite IH. Qed.
Lemma scored_sorted n ids : StronglySorted score_lt (scored n ids) /\ Forall (λ p, Z.of_nat n <= p.2) (scored n ids).
Proof.
  revert n. induction ids as [|x ids IH]; intros n; [by repeat constructor|]. rewrite scored_cons.
  destruct (IH (S n)) as [Hs Hb]. split; constructor; cbn; [done| |lia|].
  - eapply Forall_impl; [exact Hb|]. unfold score_lt; cbn. intros. lia.
  - eapply Forall_impl; [exact Hb|]. cbn. intros. lia.
Qed.

Lemma sorted_scores_NoDup l : StronglySorted score_lt l -> NoDup (map snd l).
Proof.
  induction 1 as [|p l _ IH Hp]; cbn; constructor; [|done].
  intros (q & E & Hq)%list_elem_of_fmap. rewrite Forall_forall in Hp. specialize (Hp q Hq).
  unfold score_lt in Hp. lia.
Qed.

Lemma zadd_scored ids z :
  NoDup ids -> (∀ x, x ∈ ids -> z !! x = None) ->
  map_to_list (zadd_members ids z) ≡ₚ scored 0 ids ++ map_to_list z.
Proof.
  unfold zadd_members, scored. intros Hnd. change (imap pair ids) with (imap (λ i x, (0 + i, x)%nat) ids).
  generalize 0%nat. revert z. induction Hnd as [|x ids Hx Hnd IH]; intros z n Hz; [done|].
  cbn [imap foldl]. rewrite Nat.add_0_r. cbn [fst snd].
  rewrite (imap_ext (_ ∘ S) (λ i x, ((S n) + i, x)%nat)) by (intros; cbn; f_equal; lia).
  rewrite IH.
  - rewrite map_to_list_insert by (apply Hz; left).
    rewrite (imap_ext ((λ i y, (y, Z.of_nat (n + i))) ∘ S) (λ i y, (y, Z.of_nat (S n + i))))
      by (intros; cbn; do 2 f_equal; lia).
    cbn. by rewrite Permutation_middle.
  - intros y Hy. rewrite lookup_insert_ne by (intros ->; done). apply Hz. by right.
Qed.

(** A set that was empty ranges over what was added, in order. *)
Lemma zrange_zadd ids : NoDup ids -> zrange (zadd_members ids ∅) = ids.
Proof.
  intros Hnd. unfold zrange. rewrite (member_sort _ (scored 0 ids)).
  - apply scored_fst.
  - assert (map_to_list (zadd_members ids ∅) ≡ₚ scored 0 ids) as Hp.
    { rewrite zadd_scored by (done || (intros; apply lookup_empty)). by rewrite map_to_list_empty, app_nil_r. }
    rewrite Hp. apply sorted_scores_NoDup, scored_sorted.
  - rewrite zadd_scored by (done || (intros; apply lookup_empty)). by rewrite map_to_list_empty, app_nil_r.
  - apply scored_sorted.
Qed.

(** ** Publishing a pool *)

Definition live (c : SchedRedis) (b : SchedulerBucket) : Prop :=
  bucket_ok (keys_of b c) /\ ~ retired (keys_of b c).

Lemma keys_of_put b k c : keys_of b (put_keys b k c) = k.
Proof. unfold keys_of, put_keys; cbn. by rewrite lookup_insert_eq. Qed.
Lemma keys_of_put_other b b' k c :
  bucket_String b ≠ bucket_String b' -> keys_of b' (put_keys b k c) = keys_of b' c.
Proof. intros H. unfold keys_of, put_keys; cbn. by rewrite lookup_insert_ne. Qed.

Definition put_meta (accounts : list Account) (m : gmap Z Account) : gmap Z Account :=
  foldl (λ m a, <[acc_ID a := buildSchedulerMetadataAccount a]> m) m accounts.

Lemma put_meta_other accounts m id :
  (∀ a, a ∈ accounts -> acc_ID a ≠ id) -> put_meta accounts m !! id = m !! id.
Proof.
  unfold put_meta. revert m. induction accounts as [|a l IH]; intros m H; cbn; [done|].
  rewrite IH by (intros; apply H; by right). apply lookup_insert_ne, H. left.
Qed.
Lemma put_meta_in accounts m a :
  a ∈ accounts -> (∀ a', a' ∈ accounts -> acc_ID a' = acc_ID a -> a' = a) ->
  put_meta accounts m !! acc_ID a = Some (buildSchedulerMetadataAccount a).
Proof.
  unfold put_meta. revert m. induction accounts as [|x l IH]; intros m Ha H; cbn; [by apply elem_of_nil in Ha|].
  destruct (decide (Exists (λ y, acc_ID y = acc_ID a) l)) as [He|Hn].
  - apply Exists_exists in He as (y & Hy & Ey).
    assert (y = a) as -> by (apply H; [by right|done]).
    apply IH; [done|]. intros a' Ha' E. apply H; [by right|done].
  - fold (put_meta l (<[acc_ID x := buildSchedulerMetadataAccount x]> m)). rewrite put_meta_other.
    + apply elem_of_cons in Ha as [->|Ha]; [apply lookup_insert_eq|]. exfalso. apply Hn, Exists_exists. eauto.
    + intros a' Ha' E. apply Hn, Exists_exists. eauto.
Qed.

(** A pool whose identifiers are distinct and whose accounts can be written. *)
Record pool_ok (encodable : Account -> bool) (accounts : list Account) : Prop := {
  po_nodup : NoDup (map acc_ID accounts);
  po_encodable : ∀ a, a ∈ accounts -> encodable a = true
}.

Lemma pool_unique encodable accounts a a' :
  pool_ok encodable accounts -> a ∈ accounts -> a' ∈ accounts -> acc_ID a' = acc_ID a -> a' = a.
Proof.
  intros [Hnd _] (i & Hi)%list_elem_of_lookup (j & Hj)%list_elem_of_lookup E.
  assert (i = j) as ->; [|congruence].
  eapply NoDup_lookup; [exact Hnd|apply (list_lookup_fmap_Some_2 acc_ID); exact Hi|].
  rewrite <- E. by apply (list_lookup_fmap_Some_2 acc_ID).
Qed.

Lemma pool_filter (encodable : Account -> bool) accounts :
  (∀ a, a ∈ accounts -> encodable a = true) -> filterb encodable accounts = accounts.
Proof.
  intros H. induction accounts as [|a l IH]; cbn; [done|].
  rewrite (H a) by left. f_equal. apply IH. intros x Hx. apply H. by right.
Qed.

(** The bucket holds the pool: its version is ready, ranges over the pool, and
    the metadata of each account is there. *)
Record holds (c : SchedRedis) (b : SchedulerBucket) (accounts : list Account) : Prop := {
  ho_ready : ks_ready (keys_of b c) = true;
  ho_range : ∃ v, ks_active (keys_of b c) = Some v /\
    zrange (default ∅ (ks_snapshots (keys_of b c) !! v)) = map acc_ID accounts;
  ho_meta : ∀ a, a ∈ accounts -> sr_meta c !! acc_ID a = Some (buildSchedulerMetadataAccount a)
}.

(** What the scheduler gets of an account. *)
Definition served (c : SchedRedis) (a : Account) : Account :=
  applySchedulerLastUsed (buildSchedulerMetadataAccount a) (sr_last_used c !! acc_ID a).

Lemma mapM_total {A B} (f : A -> option B) (g : A -> B) l :
  (∀ x, x ∈ l -> f x = Some (g x)) -> mapM f l = Some (map g l).
Proof.
  induction l as [|x l IH]; intros H; cbn; [done|]. rewrite (H x) by left. cbn.
  rewrite IH by (intros; apply H; by right). done.
Qed.

Lemma holds_served c b accounts :
  holds c b accounts ->
  GetSnapshot b c = if is_nil accounts then None else Some (map (served c) accounts).
Proof.
  intros [Hr (v & Ha & Hz) Hm]. unfold GetSnapshot. rewrite Hr, Ha, Hz. cbn [negb].
  assert (is_nil (map acc_ID accounts) = is_nil accounts) as -> by (by destruct accounts).
  destruct (is_nil accounts); [done|].
  assert (∀ l, mapM (λ id, (λ a, applySchedulerLastUsed a (sr_last_used c !! id)) <$> sr_meta c !! id) (map acc_ID l)
    = mapM (λ a, (λ x, applySchedulerLastUsed x (sr_last_used c !! acc_ID a)) <$> sr_meta c !! acc_ID a) l) as E.
  { induction l as [|a l IH]; cbn; [done|]. by rewrite IH. }
  rewrite E. apply mapM_total. intros a Hin. by rewrite (Hm a Hin).
Qed.

(** The keys a writer leaves after capturing, allocating, writing [ids] and
    activating, uninterrupted. *)
Lemma write_cycle k ids :
  bucket_ok k -> ~ retired k -> NoDup ids ->
  ∃ e k1 v k2 k3,
    captureBucketWriteTokenScript k = (e, k1) /\ 1 <= e /\
    allocateSnapshotVersionScript e k1 = (v, k2) /\ 1 <= v /\
    activateSnapshotScript v e (writeSnapshotAccountIDs v ids k2) = (1, k3) /\
    bucket_ok k3 /\ ~ retired k3 /\ ks_ready k3 = true /\ ks_active k3 = Some v /\
    zrange (default ∅ (ks_snapshots k3 !! v)) = ids.
Proof.
  intros Hok Hnr Hnd. destruct (captureBucketWriteTokenScript k) as [e k1] eqn:Ec.
  assert (bucket_ok k1 /\ ~ retired k1 /\ ks_epoch k1 = Some e /\ 1 <= e) as (Hok1 & Hn1 & He1 & Hpos).
  { destruct (capture_spec _ _ _ Ec Hok) as [(Hr & _)|(_ & H1 & [[-> He]|(He & -> & ->)])]; [done|done|].
    split_and!; [by apply with_epoch_ok|done|done|lia]. }
  destruct (allocateSnapshotVersionScript e k1) as [v k2] eqn:Ea.
  destruct (allocate_spec _ _ _ _ Ea Hok1) as [([Hr|Hr] & _)|(_ & _ & Ev & Ek2)]; [done|done|].
  pose proof (bo_version k1 Hok1) as Hv0. assert (1 <= v) as Hv by lia.
  assert (bucket_ok k2 /\ ~ retired k2 /\ ks_epoch k2 = Some e /\ v = version_of k2 /\
          ks_snapshots k2 !! v = None /\ (∀ cur, ks_active k2 = Some cur -> cur <= v)) as (Hok2 & Hn2 & He2 & Hver & Hfree & Hcur).
  { subst k2. split_and!; [rewrite Ev; by apply with_version_ok|done|done|done| |].
    - cbn. destruct (ks_snapshots k1 !! v) eqn:Es; [|done].
      pose proof (bo_snapshots k1 Hok1 v ltac:(by eexists)). lia.
    - cbn. intros cur Hc. destruct (bo_active k1 Hok1 cur Hc). lia. }
  set (k2' := writeSnapshotAccountIDs v ids k2).
  assert (bucket_ok k2' /\ ks_retired k2' = ks_retired k2 /\ ks_epoch k2' = Some e /\ ks_active k2' = ks_active k2 /\
          version_of k2' = version_of k2 /\
          zrange (default ∅ (ks_snapshots k2' !! v)) = ids) as (Hok2' & Hr2' & He2' & Ha2' & Hv2' & Hz).
  { split_and!; [apply write_ok; [lia|done]|..]; unfold k2', writeSnapshotAccountIDs; destruct ids as [|i ids];
      cbn [is_nil]; try done.
    - by rewrite Hfree.
    - cbn [with_snapshots ks_snapshots]. rewrite lookup_insert_eq, Hfree. cbn [default]. by apply zrange_zadd. }
  destruct (activateSnapshotScript v e k2') as [r k3] eqn:Eact.
  assert (~ retired k2') as Hn2' by (unfold retired; rewrite Hr2'; exact Hn2).
  destruct (activate_spec _ _ _ _ _ Eact) as [([H|H] & _)|(_ & _ & [(-> & _)|(-> & _ & x & ->)])]; try done.
  - exfalso. unfold activateSnapshotScript in Eact. rewrite bool_decide_eq_false_2 in Eact by done.
    rewrite (proj2 (epoch_is_true e k2') He2') in Eact. cbn [negb] in Eact. rewrite Ha2' in Eact.
    destruct (ks_active k2) as [cur|] eqn:Eac; [|done]. specialize (Hcur cur eq_refl).
    destruct (Z.ltb_spec v cur); [lia|done].
  - exists e, k1, v, k2, (with_active (Some v) true true (with_snapshots (ks_snapshots k2') x k2')).
    split_and!; try done. apply activated_ok; [done|done|lia|]. by rewrite (epoch_of_Some _ _ He2').
Qed.


Lemma checked_positive r c : 0 <= r -> checked_result r c = (Ok r, c).
Proof.
  intros H. unfold checked_result, schedulerBucketWriteResultError.
  rewrite (proj2 (Z.eqb_neq r (-1))), (proj2 (Z.eqb_neq r (-2))) by lia. done.
Qed.

Section Publish.
Context {D : Type} {DB : SchedulerDB D} (encodable : Account -> bool).

(** What a publication leaves: the bucket holds the pool and stays live, the
    other buckets keep their keys. *)
Record publishes (b : SchedulerBucket) (accounts : list Account) (w w' : World D) : Prop := {
  pb_outbox : w_outbox w' = w_outbox w;
  pb_db : w_db w' = w_db w;
  pb_holds : holds (w_cache w') b accounts;
  pb_live : live (w_cache w') b;
  pb_meta : sr_meta (w_cache w') = put_meta accounts (sr_meta (w_cache w));
  pb_last_used : sr_last_used (w_cache w') = sr_last_used (w_cache w);
  pb_others : ∀ b', bucket_String b ≠ bucket_String b' ->
    keys_of b' (w_cache w') = keys_of b' (w_cache w)
}.

Lemma publish_holds b accounts (w : World D) :
  live (w_cache w) b -> pool_ok encodable accounts ->
  publishes b accounts w (publishSnapshot encodable all_answered b accounts w).
Proof.
  intros [Hok Hnr] Hp.
  destruct (write_cycle _ (map acc_ID accounts) Hok Hnr (po_nodup _ _ Hp))
    as (e & k1 & v & k2 & k3 & Hc & He & Ha & Hv & Hact & Hok3 & Hn3 & Hr3 & Ha3 & Hz).
  set (c := w_cache w) in *.
  set (c3 := put_keys b k3 (put_keys b (writeSnapshotAccountIDs v (map acc_ID accounts) k2)
    (put_accounts (foldl (λ m a, <[acc_ID a := a]> m) (sr_accounts c) accounts)
       (put_meta accounts (sr_meta c)) (sr_last_used c) (put_keys b k2 (put_keys b k1 c))))).
  assert (publishSnapshot encodable all_answered b accounts w
    = {| w_cache := c3; w_outbox := w_outbox w; w_db := w_db w |}) as ->.
  { unfold publishSnapshot, on_cache, CaptureBucketWriteToken, mbind_, run_script.
    cbn [called pa_capture all_answered]. fold c. rewrite Hc.
    rewrite checked_positive by lia. cbn [mret w_cache w_outbox w_db].
    unfold SetSnapshot, token_ValidFor. cbn [tok_Epoch tok_Bucket].
    rewrite (proj2 (Z.ltb_lt 0 e)) by lia. rewrite bool_decide_eq_true_2 by done. cbn [negb andb].
    unfold allocateSnapshotVersion, writeSnapshotVersionAndReturnAccountIDs, activateSnapshotVersion,
      writeAccountIDs, writeSnapshotMembers, put_written, run_script, mbind_.
    cbn [tok_Epoch called pa_allocate pa_accounts pa_members pa_activate all_answered mret].
    rewrite keys_of_put, Ha, checked_positive by lia.
    rewrite (pool_filter _ _ (po_encodable _ _ Hp)). cbn [fst snd].
    change (keys_of b (put_accounts ?x ?y ?z ?u)) with (keys_of b u).
    rewrite keys_of_put.
    rewrite keys_of_put, Hact, checked_positive by lia. done. }
  subst c3. split; cbn; try done.
  - split.
    + by rewrite keys_of_put.
    + exists v. by rewrite keys_of_put.
    + intros a Hin. cbn. apply put_meta_in; [done|]. intros a' Hin' E. by eapply pool_unique.
  - unfold live. by rewrite keys_of_put.
  - intros b' Hb. do 2 rewrite keys_of_put_other by done.
    change (keys_of b' (put_accounts ?x ?y ?z ?u)) with (keys_of b' u). by do 2 rewrite keys_of_put_other by done.
Qed.








(** ** Rebuilding *)

Definition bucket_of (p : SchedPlatform) : SchedulerBucket :=
  schedulerPlatformBucket (sp_platform_ID p) (sp_AccountPlatform p).









(** ** Polls with nothing to read *)

Context (decode_payload : option string -> list (string * json)).

Lemma idle_poll f (w : World D) :
  rows_after (GetOutboxWatermark (w_cache w)) (w_outbox w) = [] ->
  w_cache (pollOutbox encodable decode_payload f w) = w_cache w /\
  rows_after (GetOutboxWatermark (w_cache w)) (w_outbox (pollOutbox encodable decode_payload f w)) = [].
Proof.
  intros E. unfold pollOutbox. destruct (watermark_unread f); [done|].
  unfold ListAfterAndReleaseDedup. cbn [Z.leb Z.compare]. rewrite E. cbn.
  destruct (outbox_read f) as [|[|n]]; cbn [w_cache w_outbox]; (split; [done|]);
    unfold rows_after in *; cbn [take map ob_rows] in *;
    try (rewrite (map_ext _ id) by done; rewrite map_id); done.
Qed.

Lemma idle_polls fs (w : World D) :
  rows_after (GetOutboxWatermark (w_cache w)) (w_outbox w) = [] ->
  w_cache (foldl (λ w f, pollOutbox encodable decode_payload f w) w fs) = w_cache w.
Proof.
  revert w. induction fs as [|f fs IH]; intros w E; [done|]. cbn [foldl].
  destruct (idle_poll f w E) as [Hc Ho]. rewrite IH; [done|]. by rewrite Hc.
Qed.
End Publish.

(** ** What is kept of an account schedules alike *)

Definition kept_key (key : string) : bool :=
  existsb (String.eqb key) scheduler_extra_keys && negb (String.eqb key UpstreamBillingProbeExtraKey).

(** A key that is kept loses a null value only. *)
Lemma extra_kept key e :
  kept_key key = true ->
  filterSchedulerExtra e !! key = (v ← e !! key; if is_null v then None else Some v).
Proof.
  unfold kept_key. intros [Hin Hne]%andb_true_iff.
  apply existsb_exists in Hin as (k & Hin%list_elem_of_In & ->%String.eqb_eq).
  apply negb_true_iff, String.eqb_neq in Hne.
  assert (kept_keys scheduler_extra_keys e !! k = (v ← e !! k; if is_null v then None else Some v)) as E.
  { unfold kept_keys. destruct (e !! k) as [v|] eqn:Ev; cbn.
    - destruct (is_null v) eqn:En.
      + apply map_lookup_filter_None. right. intros v' Ev' H. cbn in H.
        rewrite Ev in Ev'. injection Ev' as <-. rewrite En, andb_false_r in H. done.
      + apply map_lookup_filter_Some. split; [done|]. cbn. rewrite En, bool_decide_eq_true_2 by done. done.
    - apply map_lookup_filter_None. by left. }
  unfold filterSchedulerExtra. destruct (_ !! UpstreamBillingProbeExtraKey) as [v|]; [|done].
  destruct (filterSchedulerUpstreamBillingProbe v).
  - by rewrite lookup_insert_ne.
  - by rewrite lookup_delete_ne.
Qed.

Section Metadata.
Context {Host : GoHost} {UC : UnicodeCase}.

Ltac kept := intros H; rewrite (extra_kept _ _ H);
  match goal with |- context [?e !! ?key] => destruct (e !! key) as [[]|]; reflexivity end.
Lemma kept_float key e : kept_key key = true -> getExtraFloat64 (filterSchedulerExtra e) key = getExtraFloat64 e key.
Proof. unfold getExtraFloat64. kept. Qed.
Lemma kept_time key e : kept_key key = true -> getExtraTime (filterSchedulerExtra e) key = getExtraTime e key.
Proof. unfold getExtraTime. kept. Qed.
Lemma kept_string key e : kept_key key = true -> getExtraString (filterSchedulerExtra e) key = getExtraString e key.
Proof. unfold getExtraString, get_string. kept. Qed.
Lemma kept_int key e : kept_key key = true -> getExtraInt (filterSchedulerExtra e) key = getExtraInt e key.
Proof. unfold getExtraInt. kept. Qed.

Lemma kept_week_day a :
  acc_Extra a !! "quota_weekly_reset_day"%string ≠ Some JNull ->
  GetQuotaWeeklyResetDay (buildSchedulerMetadataAccount a) = GetQuotaWeeklyResetDay a.
Proof.
  intros H. unfold GetQuotaWeeklyResetDay. cbn [acc_Extra buildSchedulerMetadataAccount].
  rewrite (extra_kept _ _ (eq_refl : kept_key "quota_weekly_reset_day" = true)), kept_int by reflexivity.
  destruct (_ !! _) as [[]|]; done.
Qed.

Lemma metadata_schedulable now a :
  acc_Extra a !! "quota_weekly_reset_day"%string ≠ Some JNull ->
  IsSchedulable now (buildSchedulerMetadataAccount a) = IsSchedulable now a.
Proof.
  intros H. set (m := buildSchedulerMetadataAccount a).
  assert (∀ key, kept_key key = true -> getExtraFloat64 (acc_Extra m) key = getExtraFloat64 (acc_Extra a) key) as Hf
    by (intros; by apply kept_float).
  assert (∀ key, kept_key key = true -> getExtraTime (acc_Extra m) key = getExtraTime (acc_Extra a) key) as Ht
    by (intros; by apply kept_time).
  assert (∀ key, kept_key key = true -> getExtraString (acc_Extra m) key = getExtraString (acc_Extra a) key) as Hs
    by (intros; by apply kept_string).
  assert (∀ key, kept_key key = true -> getExtraInt (acc_Extra m) key = getExtraInt (acc_Extra a) key) as Hi
    by (intros; by apply kept_int).
  assert (account_zone m = account_zone a) as Hz.
  { unfold account_zone, GetQuotaResetTimezone. by rewrite Hs. }
  assert (GetQuotaWeeklyResetDay m = GetQuotaWeeklyResetDay a) as Hd by (by apply kept_week_day).
  assert (IsQuotaExceeded now m = IsQuotaExceeded now a) as Hq.
  { unfold IsQuotaExceeded, GetQuotaLimit, GetQuotaUsed, GetQuotaDailyLimit, GetQuotaDailyUsed,
      GetQuotaWeeklyLimit, GetQuotaWeeklyUsed, IsDailyQuotaPeriodExpired, IsWeeklyQuotaPeriodExpired,
      isFixedDailyPeriodExpired, isFixedWeeklyPeriodExpired, GetQuotaDailyResetMode, GetQuotaWeeklyResetMode,
      GetQuotaDailyResetHour, GetQuotaWeeklyResetHour, reset_mode.
    rewrite Hz, Hd, !Hf, !Ht, !Hs, !Hi by reflexivity. done. }
  unfold IsSchedulable. rewrite Hq. done.
Qed.
End Metadata.

(** ** Properties *)

Section Properties.
Context {D : Type} {DB : SchedulerDB D} (encodable : Account -> bool).


(** A load that a rebuild overtook is published over it: the older pool is
    served, and polls do not correct it until another change is announced. *)
Theorem stale_load_wins decode_payload b old new (w : World D) fs :
  live (w_cache w) b -> pool_ok encodable old -> pool_ok encodable new -> old ≠ [] ->
  let w1 := publishSnapshot encodable all_answered b new w in
  let w2 := publishSnapshot encodable all_answered b old w1 in
  rows_after (GetOutboxWatermark (w_cache w2)) (w_outbox w2) = [] ->
  let w3 := foldl (λ w f, pollOutbox encodable decode_payload f w) w2 fs in
  GetSnapshot b (w_cache w3) = Some (map (served (w_cache w2)) old).
Proof.
  intros Hl Ho Hn Hne w1 w2 Hidle w3. unfold w3. rewrite idle_polls by exact Hidle.
  pose proof (publish_holds encodable b new w Hl Hn) as P1.
  pose proof (publish_holds encodable b old w1 (pb_live _ _ _ _ P1) Ho) as P2.
  assert (holds (w_cache w2) b old) as Hh by apply (pb_holds _ _ _ _ P2).
  rewrite (holds_served _ _ _ Hh). by destruct old.
Qed.
End Properties.

(** The scheduler decides on the account it keeps as on the account itself,
    quota windows included, unless the weekly reset day is a JSON null. *)
Theorem metadata_schedules_alike `{Host : GoHost} `{UC : UnicodeCase} now a :
  acc_Extra a !! "quota_weekly_reset_day"%string ≠ Some JNull ->
  IsSchedulable now (buildSchedulerMetadataAccount a) = IsSchedulable now a.
Proof. apply metadata_schedulable. Qed.

(** A weekly reset day of JSON null is Sunday to the account and Monday to the
    account the scheduler keeps. *)
Theorem null_week_day_differs `{Host : GoHost} `{UC : UnicodeCase} a :
  acc_Extra a !! "quota_weekly_reset_day"%string = Some JNull ->
  GetQuotaWeeklyResetDay a = 0 /\ GetQuotaWeeklyResetDay (buildSchedulerMetadataAccount a) = 1.
Proof.
  intros H. unfold GetQuotaWeeklyResetDay, getExtraInt. cbn [acc_Extra buildSchedulerMetadataAccount].
  rewrite (extra_kept _ _ (eq_refl : kept_key "quota_weekly_reset_day" = true)), H. split; reflexivity.
Qed.

(** The name of a bucket is read back, so the registered buckets are listed as
    they are. *)
Theorem ParseSchedulerBucket_String b :
  min_int64 <= bk_PlatformID b <= max_int64 ->
  without ":" (bk_Platform b) -> bk_Platform b ≠ EmptyString ->
  without ":" (bk_Mode b) -> bk_Mode b ≠ EmptyString ->
  ParseSchedulerBucket (bucket_String b) = Some b.
Proof.
  intros Hid Hp Hpe Hm Hme. unfold ParseSchedulerBucket.
  assert (bucket_String b = Join [pretty (bk_PlatformID b); bk_Platform b; bk_Mode b] (byte_string ":")) as ->.
  { unfold Join, bucket_String. cbn [map join_bytes]. rewrite <- (of_to_bytes (_ ++ _)).
    rewrite !to_bytes_app. done. }
  rewrite (split_join ":") by (done || (repeat constructor; try done; apply numeral_without; intros [?|[??]]; done)).
  rewrite Atoi_pretty by done.
  rewrite (proj2 (str_empty_false _) Hpe), (proj2 (str_empty_false _) Hme). by destruct b.
Qed.

(** ** Witnesses *)

Definition ex_writable (a : Account) : bool := true.
Definition ex_pool : list Account := [ex_account ∅].
Definition ex_pool_world : World PoolDB :=
  {| w_cache := empty_redis; w_outbox := empty_outbox 1 ex_clock; w_db := [(ex_platform, ex_pool)] |}.

Lemma empty_live b : live empty_redis b.
Proof. split; [apply (fk_bucket _ fence_init_ok)|]. by intros [? ?]. Qed.
Lemma ex_pool_ok extra : pool_ok ex_writable [ex_account extra].
Proof. split; [apply NoDup_singleton|done]. Qed.


Definition ex_limited : jmap := {[ "quota_limit"%string := JNumber (f64_of_Z 5) ]}.
Lemma ex_drained :
  let w1 := publishSnapshot ex_writable all_answered (bucket_of ex_platform) [ex_account ex_limited] ex_pool_world in
  let w2 := publishSnapshot ex_writable all_answered (bucket_of ex_platform) ex_pool w1 in
  rows_after (GetOutboxWatermark (w_cache w2)) (w_outbox w2) = [].
Proof. apply length_zero_iff_nil. vm_compute. reflexivity. Qed.
Lemma stale_load_wins_witness :
  let w1 := publishSnapshot ex_writable all_answered (bucket_of ex_platform) [ex_account ex_limited] ex_pool_world in
  let w2 := publishSnapshot ex_writable all_answered (bucket_of ex_platform) ex_pool w1 in
  let w3 := foldl (λ w f, pollOutbox ex_writable (λ _, []) f w) w2 [no_faults] in
  GetSnapshot (bucket_of ex_platform) (w_cache w3) = Some (map (served (w_cache w2)) ex_pool).
Proof.
  exact (stale_load_wins ex_writable (λ _, []) (bucket_of ex_platform) ex_pool [ex_account ex_limited]
    ex_pool_world [no_faults] (empty_live _) (ex_pool_ok ∅) (ex_pool_ok ex_limited)
    ltac:(discriminate) ex_drained).
Defined.

(** The pool of platform 1 is served, changes and is announced; the poll that
    reads the announcement cannot capture a write token.  Its rebuild succeeds
    and the watermark passes the announcement, so no later poll, however well
    it goes, corrects the pool that is served. *)
Definition ex_changed : World PoolDB :=
  world_step id ex_writable (λ _, []) (WChange [(ex_platform, [ex_account ex_limited])] (Some (ex_change 9)))
    (publishSnapshot ex_writable all_answered (bucket_of ex_platform) ex_pool ex_pool_world).
Definition ex_capture_down : RebuildAnswers :=
  λ _, Build_PublishAnswers (Broken 0) Answered Answered Answered Answered.
Definition ex_poll_down : PollFaults := Build_PollFaults false Answered None ex_capture_down Answered.
Theorem failed_publication_is_swallowed fs :
  let w1 := pollOutbox ex_writable (λ _, []) ex_poll_down ex_changed in
  let w2 := foldl (λ w f, pollOutbox ex_writable (λ _, []) f w) w1 fs in
  (rebuildAll ex_writable ex_capture_down ex_changed).1 = Ok tt /\
  GetOutboxWatermark (w_cache ex_changed) = 0 /\ GetOutboxWatermark (w_cache w1) = 1 /\
  db_ListPool (w_db w1) 1 "openai" = Ok [ex_account ex_limited] /\
  (ListSchedulableAccounts ex_writable false all_answered (Some 1) "openai" w2).1
  = Ok (map (served (w_cache w1)) ex_pool).
Proof.
  intros w1 w2. split_and!; [vm_compute; reflexivity..|].
  assert (w_cache w2 = w_cache w1) as E.
  { apply idle_polls, length_zero_iff_nil. vm_compute. reflexivity. }
  assert (GetSnapshot (bucket_of ex_platform) (w_cache w1) = Some (map (served (w_cache w1)) ex_pool)) as Hs
    by (vm_compute; reflexivity).
  unfold ListSchedulableAccounts, lookup_or_load. rewrite E. cbn [Z.leb Z.compare].
  change (schedulerPlatformBucket 1 "openai") with (bucket_of ex_platform). by rewrite Hs.
Qed.

#[local] Existing Instance ex_host.
#[local] Existing Instance ascii_only_case.
Lemma metadata_schedules_alike_witness :
  IsSchedulable ex_now (buildSchedulerMetadataAccount (ex_account ex_saved))
  = IsSchedulable ex_now (ex_account ex_saved).
Proof.
  apply metadata_schedules_alike. cbn [acc_Extra ex_account].
  assert (match ex_saved !! "quota_weekly_reset_day"%string with Some JNull => true | _ => false end = false) as H
    by (vm_compute; reflexivity).
  destruct (ex_saved !! _) as [[]|]; by try discriminate.
Defined.

Lemma null_week_day_differs_witness :
  GetQuotaWeeklyResetDay (ex_account {[ "quota_weekly_reset_day"%string := JNull ]}) = 0 /\
  GetQuotaWeeklyResetDay (buildSchedulerMetadataAccount (ex_account {[ "quota_weekly_reset_day"%string := JNull ]})) = 1.
Proof. apply null_week_day_differs. reflexivity. Defined.

Lemma ParseSchedulerBucket_String_witness :
  ParseSchedulerBucket "7:openai:single" = Some (Build_SchedulerBucket 7 "openai" SchedulerModeSingle).
Proof.
  apply (ParseSchedulerBucket_String (Build_SchedulerBucket 7 "openai" SchedulerModeSingle));
    [by split|repeat constructor; discriminate|discriminate|repeat constructor; discriminate|discriminate].
Defined.
