(* ===== verification/Idempotency.v ===== *)
(** * Keyed idempotency

    [service/idempotency.go], [service/system_operation_lock_service.go] and
    the table of [repository/idempotency_repo.go]: a request that carries a key
    is executed once, its response is stored and replayed, a failure may be
    retried after a while; and the lock of system operations, which is a row of
    the same table.

    The coordinator and the lock are programs of calls ([prog]): the clock, the
    statements and the request's own work are commands, everything between two
    of them is the code's control flow.  [run] executes one program alone;
    [idem_step] interleaves the commands of several.  Metrics and audit logs
    are left out.  JSON, SHA-256 and the redaction of stored responses are
    parameters. *)

From Stdlib Require Import Ascii.
From stdpp Require Import pretty.
From S2P Require Import Prelude GoErrors Float64 GoTime GoStrings GoText.

Definition IdempotencyStatusProcessing : string := "processing".
Definition IdempotencyStatusSucceeded : string := "succeeded".
Definition IdempotencyStatusFailedRetryable : string := "failed_retryable".

Definition ErrIdempotencyKeyRequired := BadRequest "IDEMPOTENCY_KEY_REQUIRED" "idempotency key is required".
Definition ErrIdempotencyKeyInvalid := BadRequest "IDEMPOTENCY_KEY_INVALID" "idempotency key is invalid".
Definition ErrIdempotencyKeyConflict :=
  Conflict "IDEMPOTENCY_KEY_CONFLICT" "idempotency key reused with different payload".
Definition ErrIdempotencyInProgress :=
  Conflict "IDEMPOTENCY_IN_PROGRESS" "idempotent request is still processing".
Definition ErrIdempotencyRetryBackoff :=
  Conflict "IDEMPOTENCY_RETRY_BACKOFF" "idempotent request is in retry backoff window".
Definition ErrIdempotencyStoreUnavail :=
  ServiceUnavailable "IDEMPOTENCY_STORE_UNAVAILABLE" "idempotency store unavailable".
Definition ErrIdempotencyInvalidPayload :=
  BadRequest "IDEMPOTENCY_PAYLOAD_INVALID" "failed to normalize request payload".
Definition ErrSystemOperationBusy :=
  Conflict "SYSTEM_OPERATION_BUSY" "another system operation is in progress".

Record IdempotencyRecord := {
  ir_ID : Z;
  ir_Scope : string;
  ir_IdempotencyKeyHash : string;
  ir_RequestFingerprint : string;
  ir_Status : string;
  ir_ResponseStatus : option Z;
  ir_ResponseBody : option string;
  ir_ErrorReason : option string;
  ir_LockedUntil : option time;
  ir_ExpiresAt : time;
  ir_CreatedAt : time;
  ir_UpdatedAt : time
}.

Record IdempotencyConfig := {
  DefaultTTL : Z;
  SystemOperationTTL : Z;
  ProcessingTimeout : Z;
  FailedRetryBackoff : Z;
  MaxStoredResponseLen : Z;
  ObserveOnly : bool
}.
Definition DefaultIdempotencyConfig : IdempotencyConfig := {|
  DefaultTTL := 24 * hour; SystemOperationTTL := 1 * hour; ProcessingTimeout := 30 * second;
  FailedRetryBackoff := 5 * second; MaxStoredResponseLen := 64 * 1024; ObserveOnly := true |}.

(** ** The table

    The unique index on scope and key hash makes the rows a map. *)

Record IdemTable := { it_rows : gmap (string * string) IdempotencyRecord; it_next : Z }.
Definition empty_table : IdemTable := {| it_rows := ∅; it_next := 1 |}.

Definition CreateProcessing (clock : time) (r : IdempotencyRecord) (t : IdemTable) : option Z * IdemTable :=
  let key := (ir_Scope r, ir_IdempotencyKeyHash r) in
  match it_rows t !! key with
  | Some _ => (None, {| it_rows := it_rows t; it_next := it_next t + 1 |})
  | None =>
    (Some (it_next t),
     {| it_rows := <[key := {|
          ir_ID := it_next t; ir_Scope := ir_Scope r; ir_IdempotencyKeyHash := ir_IdempotencyKeyHash r;
          ir_RequestFingerprint := ir_RequestFingerprint r; ir_Status := ir_Status r;
          ir_ResponseStatus := None; ir_ResponseBody := None; ir_ErrorReason := None;
          ir_LockedUntil := ir_LockedUntil r; ir_ExpiresAt := ir_ExpiresAt r;
          ir_CreatedAt := clock; ir_UpdatedAt := clock |}]> (it_rows t);
        it_next := it_next t + 1 |})
  end.

Definition GetByScopeAndKeyHash (scope keyHash : string) (t : IdemTable) : option IdempotencyRecord :=
  it_rows t !! (scope, keyHash).

(** [UPDATE ... WHERE], with whether a row was affected. *)
Definition update_rows (p : IdempotencyRecord -> bool) (f : IdempotencyRecord -> IdempotencyRecord)
  (t : IdemTable) : bool * IdemTable :=
  (existsb (λ kv, p kv.2) (map_to_list (it_rows t)),
   {| it_rows := (λ r, if p r then f r else r) <$> it_rows t; it_next := it_next t |}).

Definition unlocked_at (now : time) (locked : option time) : bool :=
  match locked with None => true | Some l => negb (after l now) end.

Definition reclaimed (clock newLockedUntil newExpiresAt : time) (r : IdempotencyRecord) := {|
  ir_ID := ir_ID r; ir_Scope := ir_Scope r; ir_IdempotencyKeyHash := ir_IdempotencyKeyHash r;
  ir_RequestFingerprint := ir_RequestFingerprint r; ir_Status := IdempotencyStatusProcessing;
  ir_ResponseStatus := ir_ResponseStatus r; ir_ResponseBody := ir_ResponseBody r; ir_ErrorReason := None;
  ir_LockedUntil := Some newLockedUntil; ir_ExpiresAt := newExpiresAt;
  ir_CreatedAt := ir_CreatedAt r; ir_UpdatedAt := clock |}.
Definition can_reclaim (id : Z) (fromStatus : string) (now : time) (r : IdempotencyRecord) : bool :=
  (ir_ID r =? id) && String.eqb (ir_Status r) fromStatus && unlocked_at now (ir_LockedUntil r).
Definition TryReclaim (clock : time) (id : Z) (fromStatus : string) (now newLockedUntil newExpiresAt : time)
  : IdemTable -> bool * IdemTable :=
  update_rows (can_reclaim id fromStatus now) (reclaimed clock newLockedUntil newExpiresAt).

Definition extended (clock newLockedUntil newExpiresAt : time) (r : IdempotencyRecord) := {|
  ir_ID := ir_ID r; ir_Scope := ir_Scope r; ir_IdempotencyKeyHash := ir_IdempotencyKeyHash r;
  ir_RequestFingerprint := ir_RequestFingerprint r; ir_Status := ir_Status r;
  ir_ResponseStatus := ir_ResponseStatus r; ir_ResponseBody := ir_ResponseBody r;
  ir_ErrorReason := ir_ErrorReason r; ir_LockedUntil := Some newLockedUntil;
  ir_ExpiresAt := newExpiresAt; ir_CreatedAt := ir_CreatedAt r; ir_UpdatedAt := clock |}.
Definition ExtendProcessingLock (clock : time) (id : Z) (requestFingerprint : string)
  (newLockedUntil newExpiresAt : time) : IdemTable -> bool * IdemTable :=
  update_rows (λ r, (ir_ID r =? id) && String.eqb (ir_Status r) IdempotencyStatusProcessing
                    && String.eqb (ir_RequestFingerprint r) requestFingerprint)
    (extended clock newLockedUntil newExpiresAt).

Definition succeeded (clock : time) (status : Z) (body : string) (expiresAt : time) (r : IdempotencyRecord) := {|
  ir_ID := ir_ID r; ir_Scope := ir_Scope r; ir_IdempotencyKeyHash := ir_IdempotencyKeyHash r;
  ir_RequestFingerprint := ir_RequestFingerprint r; ir_Status := IdempotencyStatusSucceeded;
  ir_ResponseStatus := Some status; ir_ResponseBody := Some body; ir_ErrorReason := None;
  ir_LockedUntil := None; ir_ExpiresAt := expiresAt; ir_CreatedAt := ir_CreatedAt r; ir_UpdatedAt := clock |}.
Definition MarkSucceeded (clock : time) (id status : Z) (body : string) (expiresAt : time) (t : IdemTable)
  : IdemTable :=
  (update_rows (λ r, ir_ID r =? id) (succeeded clock status body expiresAt) t).2.

Definition failed_retryable (clock : time) (reason : string) (lockedUntil expiresAt : time)
  (r : IdempotencyRecord) := {|
  ir_ID := ir_ID r; ir_Scope := ir_Scope r; ir_IdempotencyKeyHash := ir_IdempotencyKeyHash r;
  ir_RequestFingerprint := ir_RequestFingerprint r; ir_Status := IdempotencyStatusFailedRetryable;
  ir_ResponseStatus := ir_ResponseStatus r; ir_ResponseBody := ir_ResponseBody r;
  ir_ErrorReason := Some reason; ir_LockedUntil := Some lockedUntil; ir_ExpiresAt := expiresAt;
  ir_CreatedAt := ir_CreatedAt r; ir_UpdatedAt := clock |}.
Definition MarkFailedRetryable (clock : time) (id : Z) (reason : string) (lockedUntil expiresAt : time)
  (t : IdemTable) : IdemTable :=
  (update_rows (λ r, ir_ID r =? id) (failed_retryable clock reason lockedUntil expiresAt) t).2.

(** The expired rows, the oldest first, at most [limit] of them. *)
Definition expires_less (a b : IdempotencyRecord) : bool := before (ir_ExpiresAt a) (ir_ExpiresAt b).
Definition DeleteExpired (now : time) (limit : Z) (t : IdemTable) : Z * IdemTable :=
  let limit := if limit <=? 0 then 500 else limit in
  let victims := map ir_ID (take (Z.to_nat limit) (stable_sort expires_less
    (filterb (λ r, negb (after (ir_ExpiresAt r) now)) (map snd (map_to_list (it_rows t)))))) in
  (Z.of_nat (length victims),
   {| it_rows := filter (λ kv, mem_Z (ir_ID kv.2) victims = false) (it_rows t); it_next := it_next t |}).

(** ** Programs *)

Section Programs.
Context {Data : Type}.

(** A statement answers an error when the store is not available. *)
Inductive cmd : Type -> Type :=
| CNow : cmd time
| CCreate (r : IdempotencyRecord) : cmd (result (option Z))
| CGet (scope keyHash : string) : cmd (result (option IdempotencyRecord))
| CReclaim (id : Z) (fromStatus : string) (now newLockedUntil newExpiresAt : time) : cmd (result bool)
| CExtend (id : Z) (fingerprint : string) (newLockedUntil newExpiresAt : time) : cmd (result bool)
| CSucceed (id status : Z) (body : string) (expiresAt : time) : cmd (result unit)
| CFail (id : Z) (reason : string) (lockedUntil expiresAt : time) : cmd (result unit)
| CBody : cmd (result Data).

Inductive prog (A : Type) : Type :=
| Ret (a : A)
| Do {B : Type} (c : cmd B) (k : B -> prog A).
Arguments Ret {A} a.
Arguments Do {A B} c k.

(** What a command answers: the clock is [clock], the request's own work gives
    [body]; and how often that work ran. *)
Definition perform {B} (clock : time) (body : result Data) (c : cmd B) (t : IdemTable)
  : B * IdemTable * nat :=
  match c in cmd B return B * IdemTable * nat with
  | CNow => (clock, t, 0%nat)
  | CBody => (body, t, 1%nat)
  | CCreate r => let '(o, t) := CreateProcessing clock r t in (Ok o, t, 0%nat)
  | CGet scope h => (Ok (GetByScopeAndKeyHash scope h t), t, 0%nat)
  | CReclaim id from now l e => let '(b, t) := TryReclaim clock id from now l e t in (Ok b, t, 0%nat)
  | CExtend id f l e => let '(b, t) := ExtendProcessingLock clock id f l e t in (Ok b, t, 0%nat)
  | CSucceed id s b e => (Ok tt, MarkSucceeded clock id s b e t, 0%nat)
  | CFail id r l e => (Ok tt, MarkFailedRetryable clock id r l e t, 0%nat)
  end.

(** The answer of a statement that fails. *)
Definition failure {B} (e : error) (c : cmd B) : option B :=
  match c in cmd B return option B with
  | CNow | CBody => None
  | CCreate _ | CGet _ _ | CReclaim _ _ _ _ _ | CExtend _ _ _ _ | CSucceed _ _ _ _ | CFail _ _ _ _ =>
    Some (Err e)
  end.

(** One program alone, at one instant, over a store that answers. *)
Fixpoint run {A} (clock : time) (body : result Data) (p : prog A) (t : IdemTable) : A * IdemTable * nat :=
  match p with
  | Ret a => (a, t, 0%nat)
  | Do c k =>
    let '(b, t, n) := perform clock body c t in
    let '(a, t, m) := run clock body (k b) t in (a, t, (n + m)%nat)
  end.
End Programs.
Arguments prog : clear implicits.
Arguments Ret {Data A} a.
Arguments Do {Data A B} c k.
Arguments cmd : clear implicits.

(** ** Keys and fingerprints *)

(** A byte outside 33 to 126 is, or begins, a rune outside that range. *)
Definition visible_byte (c : ascii) : bool := (33 <=? byte_val c) && (byte_val c <=? 126).
Definition NormalizeIdempotencyKey (raw : string) : result string :=
  let key := TrimSpace raw in
  if str_empty key then Ok EmptyString else
  if 128 <? str_len key then Err ErrIdempotencyKeyInvalid else
  if forallb visible_byte (to_bytes key) then Ok key else Err ErrIdempotencyKeyInvalid.

(** [utf8.ValidString]: the continuation ranges of each leading byte. *)
Definition in_range (lo hi : Z) (c : ascii) : bool := (lo <=? byte_val c) && (byte_val c <=? hi).
Definition continuation : ascii -> bool := in_range 128 191.
Fixpoint valid_utf8 (l : bytes) : bool :=
  match l with
  | [] => true
  | a :: l1 =>
    if byte_val a <? 128 then valid_utf8 l1 else
    match l1 with
    | [] => false
    | b :: l2 =>
      if in_range 194 223 a then continuation b && valid_utf8 l2 else
      match l2 with
      | [] => false
      | c :: l3 =>
        if in_range 224 239 a then
          in_range (if byte_val a =? 224 then 160 else 128) (if byte_val a =? 237 then 159 else 191) b
          && continuation c && valid_utf8 l3
        else
        match l3 with
        | [] => false
        | d :: l4 =>
          in_range 240 244 a
          && in_range (if byte_val a =? 240 then 144 else 128) (if byte_val a =? 244 then 143 else 191) b
          && continuation c && continuation d && valid_utf8 l4
        end
      end
    end
  end.

Fixpoint truncate_bytes (maxBytes : nat) (s : bytes) : bytes :=
  if valid_utf8 (take maxBytes s) then take maxBytes s else
  match maxBytes with O => [] | S n => truncate_bytes n s end.
Definition truncateUTF8 (s : string) (maxBytes : Z) : string :=
  if (maxBytes <=? 0) || (str_len s <=? maxBytes) then s
  else of_bytes (truncate_bytes (Z.to_nat maxBytes) (to_bytes s)).

Record IdempotencyExecuteOptions (Data : Type) := {
  io_Scope : string;
  io_ActorScope : string;
  io_Method : string;
  io_Route : string;
  io_IdempotencyKey : string;
  io_Payload : Data;
  io_TTL : Z;
  io_RequireKey : bool
}.
Arguments io_Scope {Data}. Arguments io_ActorScope {Data}. Arguments io_Method {Data}.
Arguments io_Route {Data}. Arguments io_IdempotencyKey {Data}. Arguments io_Payload {Data}.
Arguments io_TTL {Data}. Arguments io_RequireKey {Data}.

Record IdempotencyExecuteResult (Data : Type) := { ie_Data : Data; ie_Replayed : bool }.
Arguments Build_IdempotencyExecuteResult {Data}. Arguments ie_Data {Data}. Arguments ie_Replayed {Data}.

Section Coordinator.
Context {UC : UnicodeCase} {Data : Type}.
(** JSON, the digest, the redaction of [util/logredact], and the value decoded
    from an empty body. *)
Context (json_Marshal : Data -> option string) (json_Unmarshal : string -> option Data)
        (sha256_hex RedactText : string -> string) (empty_object : Data).

Definition newline : string := String (ascii_of_N 10) EmptyString.
Definition HashIdempotencyKey (key : string) : string := sha256_hex key.
Definition BuildIdempotencyFingerprint (method route actorScope : string) (payload : Data) : result string :=
  let method := if str_empty method then "POST"%string else method in
  let route := if str_empty route then "/"%string else route in
  let actorScope := if str_empty actorScope then "anonymous"%string else actorScope in
  match json_Marshal payload with
  | None => Err (with_cause ErrIdempotencyInvalidPayload (EPlain "json"))
  | Some raw => Ok (sha256_hex (ToUpper method ++ newline ++ route ++ newline ++ actorScope ++ newline ++ raw))
  end.

Definition marshalStoredResponse (cfg : IdempotencyConfig) (data : Data) : option string :=
  match json_Marshal data with
  | None => None
  | Some raw =>
    let redacted := RedactText raw in
    Some (if (0 <? MaxStoredResponseLen cfg) && (MaxStoredResponseLen cfg <? str_len redacted)
          then (truncateUTF8 redacted (MaxStoredResponseLen cfg) ++ "...(truncated)")%string
          else redacted)
  end.
Definition decodeStoredResponse (stored : option string) : option Data :=
  match stored with
  | None => Some empty_object
  | Some s => if str_empty (TrimSpace s) then Some empty_object else json_Unmarshal s
  end.

Definition retry_seconds (lockedUntil now : time) : Z :=
  let sec := f64_to_int64 (duration_seconds (time_sub lockedUntil now)) in
  if sec <=? 0 then 1 else sec.
Definition conflictWithRetryAfter (base : error) (lockedUntil : option time) (now : time) : error :=
  match lockedUntil with
  | None => base
  | Some l => with_metadata base [("retry_after", pretty (retry_seconds l now))]%string
  end.

(** ** [Execute] *)

#[local] Abbreviation Outcome := (result (IdempotencyExecuteResult Data)).
#[local] Abbreviation prog := (prog Data).
Definition unavailable (cause : option error) : Outcome :=
  match cause with
  | Some e => Err (with_cause ErrIdempotencyStoreUnavail e)
  | None => Err ErrIdempotencyStoreUnavail
  end.

Section Execute.
Context (cfg : IdempotencyConfig) (scope keyHash fingerprint : string).
Context (now lockedUntil expiresAt : time).

(** The request's own work, and the mark it leaves. *)
Definition after_body (id : Z) (r : result Data) : prog Outcome :=
  match r with
  | Err execErr =>
    Do CNow (λ clock,
    let backoffUntil := time_add clock (FailedRetryBackoff cfg) in
    let reason := error_reason execErr in
    let reason := if str_empty reason then "EXECUTION_FAILED"%string else reason in
    Do (CFail id reason backoffUntil expiresAt) (λ _, Ret (Err execErr)))
  | Ok data =>
    match marshalStoredResponse cfg data with
    | None => Ret (unavailable (Some (EPlain "json")))
    | Some storedBody =>
      Do (CSucceed id 200 storedBody expiresAt) (λ marked,
      match marked with
      | Err e => Ret (unavailable (Some e))
      | Ok _ => Ret (Ok (Build_IdempotencyExecuteResult data false))
      end)
    end
  end.
Definition claimed (id : Z) : prog Outcome :=
  if id =? 0 then Ret (unavailable None) else Do CBody (after_body id).

Definition after_retry_reclaim (existing : IdempotencyRecord) (r : result bool) : prog Outcome :=
  match r with
  | Err e => Ret (unavailable (Some e))
  | Ok false => Ret (Err (conflictWithRetryAfter ErrIdempotencyInProgress (ir_LockedUntil existing) now))
  | Ok true => claimed (ir_ID existing)
  end.

Definition by_status (existing : IdempotencyRecord) : prog Outcome :=
  if String.eqb (ir_Status existing) IdempotencyStatusSucceeded then
    match decodeStoredResponse (ir_ResponseBody existing) with
    | None => Ret (unavailable (Some (EPlain "decode stored response")))
    | Some data => Ret (Ok (Build_IdempotencyExecuteResult data true))
    end
  else if String.eqb (ir_Status existing) IdempotencyStatusProcessing then
    Ret (Err (conflictWithRetryAfter ErrIdempotencyInProgress (ir_LockedUntil existing) now))
  else if String.eqb (ir_Status existing) IdempotencyStatusFailedRetryable then
    if match ir_LockedUntil existing with Some l => after l now | None => false end
    then Ret (Err (conflictWithRetryAfter ErrIdempotencyRetryBackoff (ir_LockedUntil existing) now))
    else Do (CReclaim (ir_ID existing) IdempotencyStatusFailedRetryable now lockedUntil expiresAt)
            (after_retry_reclaim existing)
  else Ret (Err ErrIdempotencyKeyConflict).

Definition after_second_get (r : result (option IdempotencyRecord)) : prog Outcome :=
  match r with
  | Err e => Ret (unavailable (Some e))
  | Ok None => Ret (unavailable None)
  | Ok (Some latest) =>
    if negb (String.eqb (ir_RequestFingerprint latest) fingerprint) then Ret (Err ErrIdempotencyKeyConflict)
    else by_status latest
  end.

Definition after_expired_reclaim (existing : IdempotencyRecord) (r : result bool) : prog Outcome :=
  match r with
  | Err e => Ret (unavailable (Some e))
  | Ok true => claimed (ir_ID existing)
  | Ok false => Do (CGet scope keyHash) after_second_get
  end.

Definition after_get (r : result (option IdempotencyRecord)) : prog Outcome :=
  match r with
  | Err e => Ret (unavailable (Some e))
  | Ok None => Ret (unavailable None)
  | Ok (Some existing) =>
    if negb (String.eqb (ir_RequestFingerprint existing) fingerprint) then Ret (Err ErrIdempotencyKeyConflict)
    else if negb (after (ir_ExpiresAt existing) now)
    then Do (CReclaim (ir_ID existing) (ir_Status existing) now lockedUntil expiresAt)
            (after_expired_reclaim existing)
    else by_status existing
  end.

Definition after_create (r : result (option Z)) : prog Outcome :=
  match r with
  | Err e => Ret (unavailable (Some e))
  | Ok (Some id) => claimed id
  | Ok None => Do (CGet scope keyHash) after_get
  end.

Definition new_record : IdempotencyRecord := {|
  ir_ID := 0; ir_Scope := scope; ir_IdempotencyKeyHash := keyHash; ir_RequestFingerprint := fingerprint;
  ir_Status := IdempotencyStatusProcessing; ir_ResponseStatus := None; ir_ResponseBody := None;
  ir_ErrorReason := None; ir_LockedUntil := Some lockedUntil; ir_ExpiresAt := expiresAt;
  ir_CreatedAt := time_zero; ir_UpdatedAt := time_zero |}.
End Execute.

Definition ttl_of (cfg : IdempotencyConfig) (opts : IdempotencyExecuteOptions Data) : Z :=
  if io_TTL opts <=? 0 then DefaultTTL cfg else io_TTL opts.

(** The claim, from the reading of the clock on. *)
Definition claim (cfg : IdempotencyConfig) (ttl : Z) (scope keyHash fingerprint : string) (now : time)
  : prog Outcome :=
  let expiresAt := time_add now ttl in
  let lockedUntil := time_add now (ProcessingTimeout cfg) in
  Do (CCreate (new_record scope keyHash fingerprint lockedUntil expiresAt))
     (after_create cfg scope keyHash fingerprint now lockedUntil expiresAt).

Definition Execute (cfg : IdempotencyConfig) (has_repo has_executor : bool)
  (opts : IdempotencyExecuteOptions Data) : prog Outcome :=
  if negb has_executor
  then Ret (Err (InternalServer "IDEMPOTENCY_EXECUTOR_NIL" "idempotency executor is nil")) else
  match NormalizeIdempotencyKey (io_IdempotencyKey opts) with
  | Err e => Ret (Err e)
  | Ok key =>
    if str_empty key then
      if io_RequireKey opts && negb (ObserveOnly cfg) then Ret (Err ErrIdempotencyKeyRequired) else
      Do CBody (λ r, match r with
        | Err e => Ret (Err e)
        | Ok data => Ret (Ok (Build_IdempotencyExecuteResult data false))
        end)
    else if negb has_repo then Ret (unavailable None)
    else if str_empty (io_Scope opts)
    then Ret (Err (BadRequest "IDEMPOTENCY_SCOPE_REQUIRED" "idempotency scope is required"))
    else
      match BuildIdempotencyFingerprint (io_Method opts) (io_Route opts) (io_ActorScope opts) (io_Payload opts) with
      | Err e => Ret (Err e)
      | Ok fingerprint =>
        Do CNow (claim cfg (ttl_of cfg opts) (io_Scope opts) (HashIdempotencyKey key) fingerprint)
      end
  end.

(** ** The lock of system operations *)

Definition systemOperationLockScope : string := "admin.system.operations.global_lock".
Definition systemOperationLockKey : string := "global-system-operation-lock".

Record SystemOperationLockService := { ls_lease : Z; ls_renewInterval : Z; ls_ttl : Z }.
Definition NewSystemOperationLockService (cfg : IdempotencyConfig) : SystemOperationLockService :=
  let lease := if ProcessingTimeout cfg <=? 0 then 30 * second else ProcessingTimeout cfg in
  let renewInterval := Z.quot lease 3 in
  {| ls_lease := lease;
     ls_renewInterval := if renewInterval <? second then second else renewInterval;
     ls_ttl := if SystemOperationTTL cfg <=? 0 then hour else SystemOperationTTL cfg |}.

Record SystemOperationLock := { lk_recordID : Z; lk_operationID : string }.

Definition busyError (operationID : string) (lockedUntil : option time) (now : time) : error :=
  let metadata :=
    (if str_empty operationID then [] else [("operation_id"%string, operationID)])
    ++ match lockedUntil with
       | Some l => [("retry_after"%string, pretty (retry_seconds l now))]
       | None => []
       end in
  if is_nil metadata then ErrSystemOperationBusy else with_metadata ErrSystemOperationBusy metadata.

Definition lock_unavailable (cause : option error) : result SystemOperationLock :=
  match cause with
  | Some e => Err (with_cause ErrIdempotencyStoreUnavail e)
  | None => Err ErrIdempotencyStoreUnavail
  end.
Definition acquired (id : Z) (operationID : string) : result SystemOperationLock :=
  if id =? 0 then lock_unavailable None
  else Ok {| lk_recordID := id; lk_operationID := operationID |}.

Definition Acquire (s : SystemOperationLockService) (operationID : string)
  : prog (result SystemOperationLock) :=
  if str_empty operationID
  then Ret (Err (BadRequest "SYSTEM_OPERATION_ID_REQUIRED" "operation id is required")) else
  Do CNow (λ now,
  let expiresAt := time_add now (ls_ttl s) in
  let lockedUntil := time_add now (ls_lease s) in
  let keyHash := HashIdempotencyKey systemOperationLockKey in
  Do (CCreate (new_record systemOperationLockScope keyHash operationID lockedUntil expiresAt)) (λ owner,
  match owner with
  | Err e => Ret (lock_unavailable (Some e))
  | Ok (Some id) => Ret (acquired id operationID)
  | Ok None =>
    Do (CGet systemOperationLockScope keyHash) (λ got,
    match got with
    | Err e => Ret (lock_unavailable (Some e))
    | Ok None => Ret (lock_unavailable None)
    | Ok (Some existing) =>
      if String.eqb (ir_Status existing) IdempotencyStatusProcessing
         && match ir_LockedUntil existing with Some l => after l now | None => false end
      then Ret (Err (busyError (ir_RequestFingerprint existing) (ir_LockedUntil existing) now))
      else
      Do (CReclaim (ir_ID existing) (ir_Status existing) now lockedUntil expiresAt) (λ taken,
      match taken with
      | Err e => Ret (lock_unavailable (Some e))
      | Ok true => Ret (acquired (ir_ID existing) operationID)
      | Ok false =>
        Do (CGet systemOperationLockScope keyHash) (λ latest,
        match latest with
        | Ok (Some r) => Ret (Err (busyError (ir_RequestFingerprint r) (ir_LockedUntil r) now))
        | _ => Ret (Err ErrSystemOperationBusy)
        end)
      end)
    end)
  end)).

Definition quoted (s : string) : string :=
  let quote := String (ascii_of_N 34) EmptyString in (quote ++ s ++ quote)%string.
Definition Release (s : SystemOperationLockService) (lock : SystemOperationLock) (ok : bool)
  (failureReason : string) : prog (result unit) :=
  Do CNow (λ now,
  let expiresAt := time_add now (ls_ttl s) in
  if ok then
    Do (CSucceed (lk_recordID lock) 200
          ("{" ++ quoted "operation_id" ++ ":" ++ quoted (lk_operationID lock) ++ ","
           ++ quoted "released" ++ ":true}") expiresAt)
       (λ r, Ret r)
  else
    Do CNow (λ unlocked,
    Do (CFail (lk_recordID lock)
          (if str_empty failureReason then "SYSTEM_OPERATION_FAILED"%string else failureReason)
          unlocked expiresAt) (λ r, Ret r))).

(** One tick of the renewal loop: whether the loop goes on. *)
Definition renew (s : SystemOperationLockService) (lock : SystemOperationLock) : prog bool :=
  Do CNow (λ now,
  Do (CExtend (lk_recordID lock) (lk_operationID lock) (time_add now (ls_lease s)) (time_add now (ls_ttl s)))
     (λ r, match r with Err _ => Ret true | Ok ok => Ret ok end)).

End Coordinator.
