(* ===== verification/IdempotencyProps.v ===== *)
(** * Properties of keyed idempotency

    A request and its repetitions run their work once at a time: the programs
    of the coordinator refine a machine of claims ([move]), whose invariant
    gives mutual exclusion under every interleaving that keeps its deadlines.
    A stored response is replayed, another payload is refused; where the
    promise ends: a reclaim of an expired record that another request has
    renewed, a response too long to be stored, and the lock of system
    operations, whose renewal fails after a reclaim. *)

From S2P Require Import Prelude GoErrors Float64 GoTime GoStrings GoText Idempotency.

(** ** The table *)

Definition row_key (r : IdempotencyRecord) : string * string := (ir_Scope r, ir_IdempotencyKeyHash r).

Record table_ok (t : IdemTable) : Prop := {
  to_ids : ∀ key r, it_rows t !! key = Some r -> 1 <= ir_ID r < it_next t;
  to_unique : ∀ k1 k2 r1 r2, it_rows t !! k1 = Some r1 -> it_rows t !! k2 = Some r2 ->
    ir_ID r1 = ir_ID r2 -> k1 = k2;
  to_next : 1 <= it_next t
}.

Lemma lookup_update p f t key :
  it_rows (update_rows p f t).2 !! key = (λ r, if p r then f r else r) <$> it_rows t !! key.
Proof. unfold update_rows; cbn. apply lookup_fmap. Qed.

Lemma update_affected p f t :
  (update_rows p f t).1 = true <-> ∃ key r, it_rows t !! key = Some r /\ p r = true.
Proof.
  unfold update_rows; cbn. rewrite existsb_exists. split.
  - intros ([key r] & Hin%list_elem_of_In%elem_of_map_to_list & Hp). eauto.
  - intros (key & r & Hr & Hp). exists (key, r). split; [|done].
    by apply list_elem_of_In, elem_of_map_to_list.
Qed.

(** An update that keeps the identifiers keeps the table well formed. *)
Lemma update_ok p f t : (∀ r, ir_ID (f r) = ir_ID r) -> table_ok t -> table_ok (update_rows p f t).2.
Proof.
  intros Hf [Hi Hu Hn].
  assert (∀ key r, it_rows (update_rows p f t).2 !! key = Some r ->
    ∃ r0, it_rows t !! key = Some r0 /\ ir_ID r = ir_ID r0) as H.
  { intros key r. rewrite lookup_update. intros (r0 & -> & Hr0)%fmap_Some. exists r0.
    split; [done|]. subst r. destruct (p r0); [apply Hf|done]. }
  split; [|intros k1 k2 r1 r2 H1 H2 E|done].
  - intros key r (r0 & Hr0 & ->)%H. apply (Hi key r0 Hr0).
  - apply H in H1 as (a & Ha & E1), H2 as (b & Hb & E2). eapply Hu; [exact Ha|exact Hb|congruence].
Qed.

Lemma create_spec clock r t o t' :
  CreateProcessing clock r t = (o, t') -> table_ok t ->
  table_ok t' /\ it_next t <= it_next t' /\
  match o with
  | None => is_Some (it_rows t !! row_key r) /\ it_rows t' = it_rows t
  | Some id => id = it_next t /\ it_rows t !! row_key r = None /\
      ∃ r', it_rows t' = <[row_key r := r']> (it_rows t) /\ ir_ID r' = id /\ ir_Status r' = ir_Status r /\
        ir_LockedUntil r' = ir_LockedUntil r /\ ir_ExpiresAt r' = ir_ExpiresAt r
  end.
Proof.
  intros H [Hi Hu Hn]. unfold CreateProcessing in H. change (ir_Scope r, ir_IdempotencyKeyHash r) with (row_key r) in H.
  destruct (it_rows t !! row_key r) as [e|] eqn:E; injection H as <- <-; cbn.
  - split_and!; [|lia|by eexists|done]. split; cbn; [|done|lia].
    intros key x Hx. specialize (Hi key x Hx). lia.
  - split_and!; [|lia|done|done|by eexists]. split; cbn; [| |lia].
    + intros key x [[_ <-]|[_ Hx]]%lookup_insert_Some; cbn; [lia|]. specialize (Hi key x Hx). lia.
    + intros k1 k2 r1 r2 [[<- <-]|[_ H1]]%lookup_insert_Some [[<- <-]|[_ H2]]%lookup_insert_Some Ei; cbn in Ei.
      * done.
      * specialize (Hi k2 r2 H2). lia.
      * specialize (Hi k1 r1 H1). lia.
      * by eapply Hu.
Qed.

(** ** Claims *)

(** Where a request stands: not in the store, about to create its record,
    about to read the record that is there, about to take over an expired
    record, or one that failed, and owner of a record. *)
Inductive pos :=
| PIdle | PCreate | PGet | PExpired (r : IdempotencyRecord) | PGet2 | PRetry (r : IdempotencyRecord) | POwn (id : Z).

Record Claimer := { ct_key : string * string; ct_now : time; ct_lock : time; ct_exp : time; ct_pos : pos }.
Definition at_pos (c : Claimer) (p : pos) : Claimer :=
  {| ct_key := ct_key c; ct_now := ct_now c; ct_lock := ct_lock c; ct_exp := ct_exp c; ct_pos := p |}.

(** The record a reclaim is about, and the status it expects. *)
Definition reclaims (c : Claimer) : option (IdempotencyRecord * string) :=
  match ct_pos c with
  | PExpired r => Some (r, ir_Status r)
  | PRetry r => Some (r, IdempotencyStatusFailedRetryable)
  | _ => None
  end.

(** What a request may do to the table at the instant [n]. *)
Inductive move (n : time) : IdemTable -> Claimer -> IdemTable -> Claimer -> Prop :=
| mv_stop t c : move n t c t (at_pos c PIdle)
| mv_begin t c key lock exp :
  ct_pos c = PIdle -> move n t c t (Build_Claimer key n lock exp PCreate)
| mv_create t c r o t' p :
  ct_pos c = PCreate -> CreateProcessing n r t = (o, t') ->
  row_key r = ct_key c -> ir_Status r = IdempotencyStatusProcessing ->
  ir_LockedUntil r = Some (ct_lock c) -> ir_ExpiresAt r = ct_exp c ->
  p = PIdle \/ p = match o with Some id => POwn id | None => PGet end ->
  move n t c t' (at_pos c p)
| mv_expired t c r :
  ct_pos c = PGet -> it_rows t !! ct_key c = Some r -> after (ir_ExpiresAt r) (ct_now c) = false ->
  move n t c t (at_pos c (PExpired r))
| mv_retry t c r :
  ct_pos c = PGet \/ ct_pos c = PGet2 -> it_rows t !! ct_key c = Some r ->
  move n t c t (at_pos c (PRetry r))
| mv_reclaim t c r from b t' p :
  reclaims c = Some (r, from) ->
  TryReclaim n (ir_ID r) from (ct_now c) (ct_lock c) (ct_exp c) t = (b, t') ->
  p = PIdle \/ p = (if b then POwn (ir_ID r) else PGet2) ->
  move n t c t' (at_pos c p)
| mv_work t c id : ct_pos c = POwn id -> move n t c t c
| mv_succeed t c id status body :
  ct_pos c = POwn id -> move n t c (MarkSucceeded n id status body (ct_exp c) t) (at_pos c PIdle)
| mv_fail t c id reason lock :
  ct_pos c = POwn id -> move n t c (MarkFailedRetryable n id reason lock (ct_exp c) t) (at_pos c PIdle).

(** The deadlines: a statement that takes a record is executed before the lock
    it sets is over, and an owner is done before its record expires. *)
Definition in_time (n : time) (c : Claimer) : Prop :=
  match ct_pos c with
  | PCreate | PExpired _ | PRetry _ => before n (ct_lock c) = true
  | POwn _ => before n (ct_exp c) = true
  | _ => True
  end.

Record Claims := { cs_table : IdemTable; cs_clock : time; cs_claimers : list Claimer }.

Inductive claims_step : Claims -> Claims -> Prop :=
| cs_move t n cs i c t' c' :
  cs !! i = Some c -> move n t c t' c' ->
  claims_step (Build_Claims t n cs) (Build_Claims t' n (<[i := c']> cs))
| cs_tick t n n' cs : t_ns n <= t_ns n' -> claims_step (Build_Claims t n cs) (Build_Claims t n' cs)
| cs_arrive t n cs c : ct_pos c = PIdle -> t_ns (ct_now c) <= t_ns n ->
  claims_step (Build_Claims t n cs) (Build_Claims t n (cs ++ [c]))
| cs_clean t n cs limit :
  claims_step (Build_Claims t n cs) (Build_Claims (DeleteExpired n limit t).2 n cs).

(** A row belongs to its owner: it is being processed, until the owner's times. *)
Definition owns (t : IdemTable) (c : Claimer) (id : Z) : Prop :=
  ∃ r, it_rows t !! ct_key c = Some r /\ ir_ID r = id /\ ir_Status r = IdempotencyStatusProcessing /\
    ir_ExpiresAt r = ct_exp c /\ ir_LockedUntil r = Some (ct_lock c).

(** The identifier, when it is still in the table, is under the key. *)
Definition row_of (t : IdemTable) (key : string * string) (id : Z) : Prop :=
  id < it_next t /\ ∀ key' r', it_rows t !! key' = Some r' -> ir_ID r' = id -> key' = key.

Record claims_ok (s : Claims) : Prop := {
  co_table : table_ok (cs_table s);
  co_now : ∀ c, c ∈ cs_claimers s -> t_ns (ct_now c) <= t_ns (cs_clock s);
  co_own : ∀ c id, c ∈ cs_claimers s -> ct_pos c = POwn id -> owns (cs_table s) c id;
  co_alone : ∀ i j ci cj id, cs_claimers s !! i = Some ci -> cs_claimers s !! j = Some cj ->
    ct_pos ci = POwn id -> ct_pos cj = POwn id -> i = j;
  co_reclaim : ∀ c r from, c ∈ cs_claimers s -> reclaims c = Some (r, from) ->
    row_of (cs_table s) (ct_key c) (ir_ID r);
  (* a record being taken over as expired is not owned yet, or was locked later *)
  co_expired : ∀ c r c', c ∈ cs_claimers s -> c' ∈ cs_claimers s ->
    ct_pos c = PExpired r -> ct_pos c' = POwn (ir_ID r) -> t_ns (ct_now c) < t_ns (ct_lock c')
}.

(** *** Tables that grow *)

(** Every row was there under its key, or is new. *)
Definition grows (t t' : IdemTable) : Prop :=
  it_next t <= it_next t' /\
  ∀ key r', it_rows t' !! key = Some r' ->
    it_next t <= ir_ID r' \/ ∃ r, it_rows t !! key = Some r /\ ir_ID r = ir_ID r'.

Lemma row_of_grows t t' key id : grows t t' -> row_of t key id -> row_of t' key id.
Proof.
  intros [Hn Hg] [Hid Hk]. split; [lia|]. intros key' r' Hr' E.
  destruct (Hg key' r' Hr') as [H|(r & Hr & Er)]; [lia|]. apply (Hk key' r Hr). congruence.
Qed.

Lemma grows_refl t : grows t t.
Proof. split; [lia|]. intros key r' H. right. eauto. Qed.

Lemma update_grows p f t : (∀ r, ir_ID (f r) = ir_ID r) -> grows t (update_rows p f t).2.
Proof.
  intros Hf. split; [cbn; lia|]. intros key r'. rewrite lookup_update. intros (r & Hr & ->)%fmap_Some.
  right. exists r. split; [done|]. destruct (p r); [by rewrite Hf|done].
Qed.

Lemma create_grows clock r t o t' : CreateProcessing clock r t = (o, t') -> table_ok t -> grows t t'.
Proof.
  intros H Hok. destruct (create_spec _ _ _ _ _ H Hok) as (_ & Hn & Ho). split; [done|].
  intros key x. destruct o as [id|].
  - destruct Ho as (-> & _ & r' & -> & Hid & _). intros [[_ <-]|[_ Hx]]%lookup_insert_Some; [left; lia|right; eauto].
  - destruct Ho as [_ ->]. intros Hx. right. eauto.
Qed.

Lemma update_other p f t key r : it_rows t !! key = Some r -> p r = false ->
  it_rows (update_rows p f t).2 !! key = Some r.
Proof. intros Hr Hp. rewrite lookup_update, Hr. cbn. by rewrite Hp. Qed.

(** An owner keeps its row when its row is not touched. *)
Lemma owns_update p f t c id :
  owns t c id -> (∀ r, it_rows t !! ct_key c = Some r -> p r = false) -> owns (update_rows p f t).2 c id.
Proof. intros (r & Hr & H) Hp. exists r. split; [by apply update_other, Hp|done]. Qed.

(** *** A step of one claimer keeps the invariant *)

Section Step.
Context (t : IdemTable) (n : time) (cs : list Claimer) (Hok : claims_ok (Build_Claims t n cs))
        (Htime : ∀ c, c ∈ cs -> in_time n c).
Context (i : nat) (c : Claimer) (Hi : cs !! i = Some c).

Lemma c_in : c ∈ cs.
Proof. by eapply list_elem_of_lookup_2. Qed.

(** The other claimers keep what they have, and the mover is fine. *)
Lemma step_ok t' c' :
  table_ok t' -> grows t t' -> t_ns (ct_now c') <= t_ns n ->
  (∀ j cj id, j ≠ i -> cs !! j = Some cj -> ct_pos cj = POwn id -> owns t' cj id) ->
  (∀ id, ct_pos c' = POwn id -> owns t' c' id) ->
  (∀ j cj id, j ≠ i -> cs !! j = Some cj -> ct_pos cj = POwn id -> ct_pos c' = POwn id -> False) ->
  (∀ r from, reclaims c' = Some (r, from) -> row_of t' (ct_key c') (ir_ID r)) ->
  (∀ r cj, cj ∈ cs -> ct_pos c' = PExpired r -> ct_pos cj = POwn (ir_ID r) -> t_ns (ct_now c') < t_ns (ct_lock cj)) ->
  (∀ id, ct_pos c' = POwn id -> ct_pos c = POwn id /\ ct_lock c' = ct_lock c \/ t_ns n < t_ns (ct_lock c')) ->
  claims_ok (Build_Claims t' n (<[i := c']> cs)).
Proof.
  intros Ht Hg Hnow Hothers Hown Halone Hrec Hexp Hlock. destruct Hok as [H1 H2 H3 H4 H5 H6]; cbn in *.
  assert (∀ x, x ∈ <[i := c']> cs -> x = c' \/ ∃ j, j ≠ i /\ cs !! j = Some x) as Hin.
  { intros x [j Hj]%list_elem_of_lookup. destruct (decide (j = i)) as [->|Hne].
    - left. rewrite list_lookup_insert_eq in Hj by (by eapply lookup_lt_Some). congruence.
    - right. exists j. rewrite list_lookup_insert_ne in Hj by done. done. }
  assert (∀ j x, j ≠ i -> cs !! j = Some x -> x ∈ cs) as Hsub by (intros j x _ Hj; by eapply list_elem_of_lookup_2).
  split; cbn.
  - done.
  - intros x [->|(j & Hj & Hx)]%Hin; [done|]. by apply H2, (Hsub j).
  - intros x id [->|(j & Hj & Hx)]%Hin Hp; [by apply Hown|by eapply Hothers].
  - intros a b ca cb id Ha Hb Hpa Hpb.
    destruct (decide (a = i)) as [->|Hai], (decide (b = i)) as [->|Hbi]; [done|..].
    + rewrite list_lookup_insert_eq in Ha by (by eapply lookup_lt_Some). injection Ha as <-.
      rewrite list_lookup_insert_ne in Hb by done. exfalso. by eapply (Halone b).
    + rewrite list_lookup_insert_eq in Hb by (by eapply lookup_lt_Some). injection Hb as <-.
      rewrite list_lookup_insert_ne in Ha by done. exfalso. by eapply (Halone a).
    + rewrite list_lookup_insert_ne in Ha, Hb by done. by eapply H4.
  - intros x r from [->|(j & Hj & Hx)]%Hin Hp; [by eapply Hrec|].
    eapply row_of_grows; [exact Hg|]. by eapply H5; [apply (Hsub j)|].
  - intros x r y [->|(j & Hj & Hx)]%Hin [->|(k & Hk & Hy)]%Hin Hpx Hpy.
    + congruence.
    + eapply Hexp; [by apply (Hsub k)|done..].
    + destruct (Hlock _ Hpy) as [[Hc ->]|Hl].
      * eapply H6; [by apply (Hsub j)|apply c_in|done|done].
      * pose proof (H2 x (Hsub j x Hj Hx)). lia.
    + eapply H6; [by apply (Hsub j)|by apply (Hsub k)|done|done].
Qed.

(** A move that touches neither the table nor an owner. *)
Lemma quiet_ok p :
  (∀ id, p ≠ POwn id) ->
  (∀ r from, reclaims (at_pos c p) = Some (r, from) -> row_of t (ct_key c) (ir_ID r)) ->
  (∀ r cj, cj ∈ cs -> p = PExpired r -> ct_pos cj = POwn (ir_ID r) -> t_ns (ct_now c) < t_ns (ct_lock cj)) ->
  claims_ok (Build_Claims t n (<[i := at_pos c p]> cs)).
Proof.
  intros Hp Hr He. pose proof Hok as [H1 H2 H3 H4 H5 H6]; cbn in *.
  apply step_ok; cbn.
  - done.
  - apply grows_refl.
  - apply H2, c_in.
  - intros j cj id Hj Hcj Hpos. apply H3; [by eapply list_elem_of_lookup_2|done].
  - intros id E. by destruct (Hp id).
  - intros j cj id _ _ _ E. by destruct (Hp id).
  - exact Hr.
  - exact He.
  - intros id E. by destruct (Hp id).
Qed.

Lemma stop_ok : claims_ok (Build_Claims t n (<[i := at_pos c PIdle]> cs)).
Proof. by apply quiet_ok. Qed.

(** The row read from the table under the claimer's key. *)
Lemma read_row r : it_rows t !! ct_key c = Some r -> row_of t (ct_key c) (ir_ID r).
Proof.
  intros Hr. destruct (co_table _ Hok) as [Hids Hu _]; cbn in *. split; [by apply (Hids _ _ Hr)|].
  intros key' r' Hr' E. by eapply Hu.
Qed.

Lemma expired_unowned r cj :
  it_rows t !! ct_key c = Some r -> after (ir_ExpiresAt r) (ct_now c) = false -> cj ∈ cs ->
  ct_pos cj = POwn (ir_ID r) -> False.
Proof.
  intros Hr He Hj Hp. destruct (co_own _ Hok cj _ Hj Hp) as (r' & Hr' & Hid & _ & Hexp & _); cbn in Hr'.
  assert (ct_key cj = ct_key c) as Hkey by (eapply (to_unique _ (co_table _ Hok)); [exact Hr'|exact Hr|done]).
  rewrite Hkey in Hr'. assert (r' = r) as -> by congruence.
  pose proof (Htime cj Hj) as Ht. unfold in_time in Ht. rewrite Hp in Ht.
  pose proof (co_now _ Hok c c_in); cbn in *. unfold before, after in *. rewrite Hexp in He.
  apply Z.ltb_lt in Ht. apply Z.ltb_ge in He. lia.
Qed.

Lemma create_ok r o t' p :
  ct_pos c = PCreate -> CreateProcessing n r t = (o, t') -> row_key r = ct_key c ->
  ir_Status r = IdempotencyStatusProcessing -> ir_LockedUntil r = Some (ct_lock c) ->
  ir_ExpiresAt r = ct_exp c -> p = PIdle \/ p = match o with Some id => POwn id | None => PGet end ->
  claims_ok (Build_Claims t' n (<[i := at_pos c p]> cs)).
Proof.
  intros Hpos H Hk Hs Hl He Hp. pose proof (co_table _ Hok) as Htab; cbn in Htab.
  destruct (create_spec _ _ _ _ _ H Htab) as (Htab' & Hnx & Ho).
  pose proof (create_grows _ _ _ _ _ H Htab) as Hg.
  assert (∀ id, p = POwn id -> o = Some id) as Hpo by (intros id ->; destruct Hp as [Hp|Hp], o; congruence).
  assert (∀ r0, p ≠ PExpired r0 /\ p ≠ PRetry r0) as Hpn by (intros r0; destruct Hp as [->| ->], o; done).
  apply step_ok; cbn.
  - done.
  - done.
  - apply (co_now _ Hok c c_in).
  - intros j cj id Hj Hcj Hpj.
    destruct (co_own _ Hok cj id) as (r' & Hr' & Hrest); [by eapply list_elem_of_lookup_2|done|]; cbn in Hr'.
    exists r'. split; [|done]. destruct o as [id'|].
    + destruct Ho as (_ & Hn & r2 & -> & _). rewrite lookup_insert_ne; [done|]. intros E.
      rewrite E in Hn. congruence.
    + by destruct Ho as [_ ->].
  - intros id E. apply Hpo in E as ->. destruct Ho as (-> & _ & r2 & Hrows & Hid & Hs2 & Hl2 & He2).
    exists r2. rewrite Hrows, Hk; cbn. rewrite lookup_insert_eq. split_and!; congruence.
  - intros j cj id Hj Hcj Hpj E. apply Hpo in E as ->. destruct Ho as (-> & _).
    destruct (co_own _ Hok cj (it_next t)) as (r' & Hr' & Hid & _); [by eapply list_elem_of_lookup_2|done|]; cbn in Hr'.
    pose proof (to_ids _ Htab _ _ Hr'). lia.
  - intros r0 from E. unfold reclaims in E; cbn in E. destruct (Hpn r0) as [H1 H2].
    destruct p; try done; injection E as -> _; done.
  - intros r0 cj _ E. by destruct (Hpn r0).
  - intros id _. right. pose proof (Htime c c_in) as Ht. unfold in_time in Ht. rewrite Hpos in Ht.
    by apply Z.ltb_lt in Ht.
Qed.

(** A row that is owned is not reclaimed. *)
Lemma owned_not_reclaimed r from cj id r' :
  reclaims c = Some (r, from) -> cj ∈ cs -> ct_pos cj = POwn id -> it_rows t !! ct_key cj = Some r' ->
  can_reclaim (ir_ID r) from (ct_now c) r' = false.
Proof.
  intros Hrec Hj Hp Hr'. destruct (co_own _ Hok cj id Hj Hp) as (r2 & Hr2 & Hid & Hs & _ & Hl); cbn in Hr2.
  assert (r2 = r') as -> by congruence. unfold can_reclaim.
  destruct (Z.eqb_spec (ir_ID r') (ir_ID r)) as [E|]; [|done]. cbn [andb].
  unfold reclaims in Hrec. destruct (ct_pos c) as [| | |re| |re|] eqn:Hc; try done; injection Hrec as -> <-.
  - rewrite Hl. cbn. assert (t_ns (ct_now c) < t_ns (ct_lock cj)) as Hlt.
    { apply (co_expired _ Hok c r cj); [apply c_in|done|done|cbn; congruence]. }
    unfold after. rewrite (proj2 (Z.ltb_lt _ _) Hlt). apply andb_false_r.
  - rewrite Hs. done.
Qed.

Lemma reclaim_ok r from b t' p :
  reclaims c = Some (r, from) ->
  TryReclaim n (ir_ID r) from (ct_now c) (ct_lock c) (ct_exp c) t = (b, t') ->
  p = PIdle \/ p = (if b then POwn (ir_ID r) else PGet2) ->
  claims_ok (Build_Claims t' n (<[i := at_pos c p]> cs)).
Proof.
  intros Hrec H Hp. pose proof (co_table _ Hok) as Htab; cbn in Htab. unfold TryReclaim in H.
  set (pr := can_reclaim (ir_ID r) from (ct_now c)) in *. set (f := reclaimed n (ct_lock c) (ct_exp c)) in *.
  assert (b = (update_rows pr f t).1 /\ t' = (update_rows pr f t).2) as [Hb ->] by (by rewrite H).
  assert (∀ x, ir_ID (f x) = ir_ID x) as Hf by done.
  assert (∀ id, p = POwn id -> b = true /\ id = ir_ID r) as Hpo.
  { intros id ->. destruct Hp as [Hp|Hp]; [done|]. destruct b; [|done]. split; congruence. }
  assert (∀ r0, p ≠ PExpired r0 /\ p ≠ PRetry r0) as Hpn by (intros r0; destruct Hp as [->| ->], b; done).
  apply step_ok; cbn.
  - by apply update_ok.
  - by apply update_grows.
  - apply (co_now _ Hok c c_in).
  - intros j cj id Hj Hcj Hpj. apply owns_update.
    + by apply (co_own _ Hok); [eapply list_elem_of_lookup_2|].
    + intros r' Hr'. eapply owned_not_reclaimed; [done|by eapply list_elem_of_lookup_2|done..].
  - intros id E. apply Hpo in E as [Hbt ->]. rewrite Hb in Hbt. apply update_affected in Hbt as (key & r' & Hr' & Hpr).
    pose proof Hpr as Hpr'. unfold pr, can_reclaim in Hpr'. apply andb_true_iff in Hpr' as [[Hid%Z.eqb_eq _]%andb_true_iff _].
    destruct (co_reclaim _ Hok c r from c_in Hrec) as [_ Hkey]; cbn in Hkey. rewrite (Hkey key r' Hr' Hid) in Hr'.
    exists (f r'). split_and!; try done. cbn [it_rows ct_key at_pos]. rewrite lookup_fmap, Hr'. cbn. by rewrite Hpr.
  - intros j cj id Hj Hcj Hpj E. apply Hpo in E as [Hbt ->]. rewrite Hb in Hbt.
    apply update_affected in Hbt as (key & r' & Hr' & Hpr).
    assert (cj ∈ cs) as Hin by (by eapply list_elem_of_lookup_2).
    destruct (co_own _ Hok cj _ Hin Hpj) as (r2 & Hr2 & Hid2 & _); cbn in Hr2.
    pose proof Hpr as Hpr'. unfold pr, can_reclaim in Hpr'. apply andb_true_iff in Hpr' as [[Hid%Z.eqb_eq _]%andb_true_iff _].
    assert (ct_key cj = key) as Hk by (eapply (to_unique _ Htab); [exact Hr2|exact Hr'|congruence]).
    rewrite <- Hk in Hr'. pose proof (owned_not_reclaimed r from cj _ r' Hrec Hin Hpj Hr'). unfold pr in Hpr. congruence.
  - intros r0 from0 E. unfold reclaims in E; cbn in E. destruct (Hpn r0) as [H1 H2].
    destruct p; try done; injection E as -> _; done.
  - intros r0 cj _ E. by destruct (Hpn r0).
  - intros id _. right. pose proof (Htime c c_in) as Ht. unfold in_time in Ht. unfold reclaims in Hrec.
    destruct (ct_pos c); try done; by apply Z.ltb_lt in Ht.
Qed.

Lemma mark_ok id f :
  ct_pos c = POwn id -> (∀ r, ir_ID (f r) = ir_ID r) ->
  claims_ok (Build_Claims (update_rows (λ r, ir_ID r =? id) f t).2 n (<[i := at_pos c PIdle]> cs)).
Proof.
  intros Hpos Hf. apply step_ok; cbn; try done.
  - apply update_ok; [done|apply (co_table _ Hok)].
  - by apply update_grows.
  - apply (co_now _ Hok c c_in).
  - intros j cj id' Hj Hcj Hpj. assert (cj ∈ cs) as Hin by (by eapply list_elem_of_lookup_2).
    destruct (co_own _ Hok cj id' Hin Hpj) as (r & Hr & Hid & Hrest); cbn in Hr.
    exists r. split; [|done]. apply update_other; [done|]. apply Z.eqb_neq. intros E.
    apply Hj. symmetry. apply (co_alone _ Hok i j c cj id'); [done|done| |done]. cbn. congruence.
Qed.

End Step.

Lemma claims_move_ok t n cs i c t' c' :
  claims_ok (Build_Claims t n cs) -> (∀ c, c ∈ cs -> in_time n c) -> cs !! i = Some c ->
  move n t c t' c' -> claims_ok (Build_Claims t' n (<[i := c']> cs)).
Proof.
  intros Hok Htime Hi Hm. pose proof (co_now _ Hok c (c_in cs i c Hi)) as Hnow. cbn in Hnow.
  destruct Hm as [t c|t c key lock exp Hp|t c r o t' p Hp H1 H2 H3 H4 H5 H6|t c r Hp Hr He
    |t c r Hp Hr|t c r from b t' p Hrec H Hp|t c id Hp|t c id status body Hp|t c id reason lock Hp].
  - by apply stop_ok.
  - apply (step_ok t n cs Hok i c Hi); cbn; try done.
    + apply (co_table _ Hok).
    + apply grows_refl.
    + intros j cj id _ Hcj Hpj. apply (co_own _ Hok); [by eapply list_elem_of_lookup_2|done].
  - by eapply create_ok.
  - apply (quiet_ok t n cs Hok i c Hi); [done| |].
    + intros r0 from E. injection E as -> _. by eapply read_row.
    + intros r0 cj Hj [= <-] Hpj. exfalso. by eapply (expired_unowned t n cs Hok Htime i c Hi r).
  - apply (quiet_ok t n cs Hok i c Hi); [done| |done]. intros r0 from E. injection E as -> _. by eapply read_row.
  - by eapply reclaim_ok.
  - assert (<[i := c]> cs = cs) as -> by (by apply list_insert_id). done.
  - by apply (mark_ok t n cs Hok i c Hi id (succeeded n status body (ct_exp c))).
  - by apply (mark_ok t n cs Hok i c Hi id (failed_retryable n reason lock (ct_exp c))).
Qed.

(** *** Other steps *)

Lemma clean_ok t n cs limit :
  claims_ok (Build_Claims t n cs) -> (∀ c, c ∈ cs -> in_time n c) ->
  claims_ok (Build_Claims (DeleteExpired n limit t).2 n cs).
Proof.
  intros [H1 H2 H3 H4 H5 H6] Htime. cbn in *. unfold DeleteExpired; cbn.
  set (limit' := if limit <=? 0 then 500 else limit).
  set (victims := map ir_ID _). set (t' := {| it_rows := _; it_next := it_next t |}).
  assert (∀ key r, it_rows t' !! key = Some r -> it_rows t !! key = Some r) as Hsub.
  { intros key r [Hr _]%map_lookup_filter_Some. done. }
  assert (∀ key r, it_rows t !! key = Some r -> after (ir_ExpiresAt r) n = true -> it_rows t' !! key = Some r) as Hkeep.
  { intros key r Hr He. apply map_lookup_filter_Some. split; [done|]. cbn.
    apply not_true_iff_false. intros Hv%mem_Z_true. unfold victims in Hv.
    apply list_elem_of_fmap in Hv as (x & Hid & Hx). apply elem_of_take in Hx as (k & Hx%list_elem_of_lookup_2 & _).
    apply elem_of_stable_sort, elem_of_filterb in Hx as [Hx Hex].
    apply list_elem_of_fmap in Hx as ([key' x'] & -> & Hx%elem_of_map_to_list). cbn in *.
    assert (key = key') as <- by (eapply (to_unique _ H1); [exact Hr|exact Hx|congruence]).
    assert (r = x') as -> by congruence. rewrite He in Hex. done. }
  split; cbn; [|done| |done| |done].
  - destruct H1 as [Ha Hb Hc]. split; cbn; [|intros k1 k2 r1 r2 Hr1%Hsub Hr2%Hsub; by eapply Hb|done].
    intros key r Hr%Hsub. by apply (Ha key).
  - intros c id Hc Hp. destruct (H3 c id Hc Hp) as (r & Hr & Hid & Hs & He & Hl). exists r. split; [|done].
    apply Hkeep; [done|]. pose proof (Htime c Hc) as Ht. unfold in_time in Ht. rewrite Hp in Ht.
    unfold after. rewrite He. exact Ht.
  - intros c r from Hc Hr. destruct (H5 c r from Hc Hr) as [Hid Hk]. split; [done|].
    intros key' r' Hr'%Hsub. by apply Hk.
Qed.

Lemma claims_step_ok s s' :
  claims_step s s' -> (∀ c, c ∈ cs_claimers s -> in_time (cs_clock s) c) -> claims_ok s -> claims_ok s'.
Proof.
  destruct 1 as [t n cs i c t' c' Hi Hm|t n n' cs Hn|t n cs c Hp Hnow|t n cs limit]; cbn; intros Htime Hok.
  - by eapply claims_move_ok.
  - destruct Hok as [H1 H2 H3 H4 H5 H6]; split; cbn in *; try done. intros c Hc. specialize (H2 c Hc). lia.
  - destruct Hok as [H1 H2 H3 H4 H5 H6]; cbn in *.
    assert (∀ x, x ∈ cs ++ [c] -> ct_pos x ≠ PIdle -> x ∈ cs) as Hin.
    { intros x [Hx|Hx%list_elem_of_singleton]%elem_of_app Hx'; [done|congruence]. }
    split; cbn.
    + done.
    + intros x [Hx|Hx%list_elem_of_singleton]%elem_of_app; [by apply H2|by subst x].
    + intros x id Hx Hpx. apply H3; [apply Hin; [done|congruence]|done].
    + assert (∀ j x id, (cs ++ [c]) !! j = Some x -> ct_pos x = POwn id -> cs !! j = Some x) as Hl.
      { intros j x id [Hj|[_ Hj]]%lookup_app_Some Hx; [done|]. apply list_lookup_singleton_Some in Hj as [_ <-]. congruence. }
      intros a b ca cb id Ha Hb Hpa Hpb. eapply H4; [by eapply Hl|by eapply Hl|done|done].
    + intros x r from Hx Hr. eapply H5; [|exact Hr]. apply Hin; [done|]. unfold reclaims in Hr. by destruct (ct_pos x).
    + intros x r y Hx Hy Hpx Hpy. eapply H6; [apply Hin; [done|congruence]|apply Hin; [done|congruence]|done..].
  - by apply clean_ok.
Qed.

(** ** The programs refine the claims *)

Section Refinement.
Context {UC : UnicodeCase} {Data : Type}.
Context (json_Marshal : Data -> option string) (json_Unmarshal : string -> option Data)
        (sha256_hex RedactText : string -> string) (empty_object : Data).
Context (cfg : IdempotencyConfig).

#[local] Abbreviation Outcome := (result (IdempotencyExecuteResult Data)).
#[local] Abbreviation prog := (prog Data Outcome).
#[local] Abbreviation opts_t := (IdempotencyExecuteOptions Data).
#[local] Abbreviation Execute := (Execute json_Marshal json_Unmarshal sha256_hex RedactText empty_object cfg).
#[local] Abbreviation claim := (claim json_Marshal json_Unmarshal RedactText empty_object cfg).

(** A request in progress: its options, the clock it read first, the rest of
    its program. *)
Record Thread := { th_opts : opts_t; th_now : option time; th_prog : prog }.

Definition advance (n : time) (body : result Data) (p : prog) (t : IdemTable) : option (prog * IdemTable) :=
  match p with
  | Ret _ => None
  | Do c k => let '(b, t', _) := perform n body c t in Some (k b, t')
  end.
Definition advance_error (e : error) (p : prog) : option prog :=
  match p with Ret _ => None | Do c k => k <$> failure e c end.

Definition reads_clock (p : prog) : bool :=
  match p with Do c _ => match c with CNow => true | _ => false end | Ret _ => false end.
Definition next_thread (n : time) (th : Thread) (p : prog) : Thread := {|
  th_opts := th_opts th;
  th_now := match th_now th with
            | None => if reads_clock (th_prog th) then Some n else None
            | Some t0 => Some t0
            end;
  th_prog := p |}.

Record Idem := { id_table : IdemTable; id_clock : time; id_threads : list Thread }.

(** A statement may fail, before or after it took effect; requests arrive,
    time passes and expired records are deleted. *)
Inductive idem_step : Idem -> Idem -> Prop :=
| st_run t n ths i th body p t' :
  ths !! i = Some th -> advance n body (th_prog th) t = Some (p, t') ->
  idem_step (Build_Idem t n ths) (Build_Idem t' n (<[i := next_thread n th p]> ths))
| st_error t n ths i th e p :
  ths !! i = Some th -> advance_error e (th_prog th) = Some p ->
  idem_step (Build_Idem t n ths) (Build_Idem t n (<[i := next_thread n th p]> ths))
| st_lost t n ths i th body e p p' t' :
  ths !! i = Some th -> advance n body (th_prog th) t = Some (p, t') ->
  advance_error e (th_prog th) = Some p' ->
  idem_step (Build_Idem t n ths) (Build_Idem t' n (<[i := next_thread n th p']> ths))
| st_tick t n n' ths : t_ns n <= t_ns n' -> idem_step (Build_Idem t n ths) (Build_Idem t n' ths)
| st_arrive t n ths opts has_executor :
  idem_step (Build_Idem t n ths)
    (Build_Idem t n (ths ++ [{| th_opts := opts; th_now := None; th_prog := Execute true has_executor opts |}]))
| st_clean t n ths limit :
  idem_step (Build_Idem t n ths) (Build_Idem (DeleteExpired n limit t).2 n ths).

(** The deadlines: a statement that takes a record is executed within the
    processing timeout, and the request's own work ends, and is marked, within
    its time to live. *)
Definition thread_in_time (n : time) (th : Thread) : bool :=
  match th_now th, th_prog th with
  | Some t0, Do c _ =>
    match c with
    | CCreate _ | CReclaim _ _ _ _ _ => before n (time_add t0 (ProcessingTimeout cfg))
    | CGet _ _ | CExtend _ _ _ _ => true
    | CNow | CSucceed _ _ _ _ | CFail _ _ _ _ | CBody => before n (time_add t0 (ttl_of cfg (th_opts th)))
    end
  | _, _ => true
  end.
Definition timely (s : Idem) : bool := forallb (thread_in_time (id_clock s)) (id_threads s).
Definition timely_step (s s' : Idem) : Prop := timely s = true /\ idem_step s s'.

(** The request is doing its own work, under a key. *)
Definition working (th : Thread) : bool :=
  match th_now th, th_prog th with
  | Some _, Do c _ => match c with CBody => true | _ => false end
  | _, _ => false
  end.
Definition key_hash (opts : opts_t) : string :=
  match NormalizeIdempotencyKey (io_IdempotencyKey opts) with
  | Ok key => HashIdempotencyKey sha256_hex key
  | Err _ => EmptyString
  end.

(** *** Where a program stands *)

Section At.
Context (opts : opts_t) (fp : string) (t0 : time).
#[local] Abbreviation scope := (io_Scope opts).
#[local] Abbreviation h := (key_hash opts).
#[local] Abbreviation lock := (time_add t0 (ProcessingTimeout cfg)).
#[local] Abbreviation exp := (time_add t0 (ttl_of cfg opts)).

Definition owner_prog (id : Z) (p : prog) : Prop :=
  p = Do CBody (after_body json_Marshal RedactText cfg exp id) \/
  (∃ reason backoff e, p = Do CNow (λ clock, Do (CFail id reason (time_add clock backoff) exp) (λ _, Ret (Err e)))) \/
  (∃ reason l e, p = Do (CFail id reason l exp) (λ _, Ret (Err e))) \/
  (∃ body k, p = Do (CSucceed id 200 body exp) k /\ ∀ r, ∃ a, k r = Ret a).

Definition prog_at (q : pos) (p : prog) : Prop :=
  match q with
  | PIdle => ∃ a, p = Ret a
  | PCreate => p = claim (ttl_of cfg opts) scope h fp t0
  | PGet => p = Do (CGet scope h)
      (after_get json_Marshal json_Unmarshal RedactText empty_object cfg scope h fp t0 lock exp)
  | PExpired r => p = Do (CReclaim (ir_ID r) (ir_Status r) t0 lock exp)
      (after_expired_reclaim json_Marshal json_Unmarshal RedactText empty_object cfg scope h fp t0 lock exp r)
  | PGet2 => p = Do (CGet scope h)
      (after_second_get json_Marshal json_Unmarshal RedactText empty_object cfg fp t0 lock exp)
  | PRetry r => p = Do (CReclaim (ir_ID r) IdempotencyStatusFailedRetryable t0 lock exp)
      (after_retry_reclaim json_Marshal RedactText cfg t0 exp r)
  | POwn id => owner_prog id p
  end.

Lemma by_status_at r :
  (∃ a, by_status json_Marshal json_Unmarshal RedactText empty_object cfg t0 lock exp r = Ret a) \/
  prog_at (PRetry r) (by_status json_Marshal json_Unmarshal RedactText empty_object cfg t0 lock exp r).
Proof.
  unfold by_status. destruct (String.eqb _ _).
  { left. destruct (decodeStoredResponse _ _ _); by eexists. }
  destruct (String.eqb _ _); [left; by eexists|]. destruct (String.eqb _ _); [|left; by eexists].
  destruct (match ir_LockedUntil r with Some l => _ | None => _ end); [left; by eexists|by right].
Qed.

Lemma claimed_at id : (∃ a, claimed json_Marshal RedactText cfg exp id = Ret a) \/
  prog_at (POwn id) (claimed json_Marshal RedactText cfg exp id).
Proof. unfold claimed. destruct (id =? 0); [left; by eexists|right; by left]. Qed.

(** The claimer of a thread. *)
Definition claimer (q : pos) : Claimer :=
  {| ct_key := (scope, h); ct_now := t0; ct_lock := lock; ct_exp := exp; ct_pos := q |}.

(** What a program that reached the claim does is a move; so is a statement
    that fails, and one whose answer is lost. *)
Lemma own_advance n body t id p p' t' :
  owner_prog id p -> advance n body p t = Some (p', t') ->
  ∃ q, move n t (claimer (POwn id)) t' (claimer q) /\ prog_at q p'.
Proof.
  intros [->|[(reason & backoff & e & ->)|[(reason & l & e & ->)|(b & k & -> & Hk)]]] H;
    cbn in H; injection H as <- <-.
  - unfold after_body. destruct body as [data|e].
    + destruct (marshalStoredResponse json_Marshal RedactText cfg data) as [stored|].
      * exists (POwn id). split; [by eapply mv_work|]. right; right; right. do 2 eexists. split; [done|].
        intros [|]; by eexists.
      * exists PIdle. split; [apply (mv_stop n t (claimer (POwn id)))|by eexists].
    + exists (POwn id). split; [by eapply mv_work|]. right; left. by do 3 eexists.
  - exists (POwn id). split; [by eapply mv_work|]. right; right; left. by do 3 eexists.
  - exists PIdle. split; [by apply (mv_fail n t (claimer (POwn id)))|by eexists].
  - exists PIdle. split; [by apply (mv_succeed n t (claimer (POwn id)))|apply Hk].
Qed.

Lemma read_move q n t r p :
  q = PGet \/ q = PGet2 -> it_rows t !! (scope, h) = Some r ->
  p = by_status json_Marshal json_Unmarshal RedactText empty_object cfg t0 lock exp r ->
  ∃ q', move n t (claimer q) t (claimer q') /\ prog_at q' p.
Proof.
  intros Hq Hr ->. destruct (by_status_at r) as [[a E]|E].
  - exists PIdle. rewrite E. split; [apply (mv_stop n t (claimer q))|by eexists].
  - exists (PRetry r). split; [|done]. apply (mv_retry n t (claimer q)); [by destruct Hq as [->| ->]; [left|right]|done].
Qed.

Lemma claim_move q q0 n t t' id :
  (∀ p, p = PIdle \/ p = POwn id -> move n t (claimer q) t' (claimer p)) ->
  q0 = claimed json_Marshal RedactText cfg exp id ->
  ∃ q', move n t (claimer q) t' (claimer q') /\ prog_at q' q0.
Proof.
  intros Hm ->. destruct (claimed_at id) as [[a E]|E].
  - exists PIdle. rewrite E. split; [apply Hm; by left|by eexists].
  - exists (POwn id). split; [apply Hm; by right|done].
Qed.

Lemma create_move n t r o t' p :
  r = new_record scope h fp lock exp -> CreateProcessing n r t = (o, t') ->
  p = PIdle \/ p = match o with Some id => POwn id | None => PGet end ->
  move n t (claimer PCreate) t' (claimer p).
Proof. intros -> H Hp. by apply (mv_create n t (claimer PCreate) (new_record scope h fp lock exp) o t'). Qed.

Lemma reclaim_move q r from n t b t' p :
  reclaims (claimer q) = Some (r, from) -> TryReclaim n (ir_ID r) from t0 lock exp t = (b, t') ->
  p = PIdle \/ p = (if b then POwn (ir_ID r) else PGet2) -> move n t (claimer q) t' (claimer p).
Proof. intros Hr H Hp. by eapply (mv_reclaim n t (claimer q) r from b t'). Qed.

Lemma prog_advance q n body t p p' t' :
  prog_at q p -> advance n body p t = Some (p', t') ->
  ∃ q', move n t (claimer q) t' (claimer q') /\ prog_at q' p'.
Proof.
  destruct q as [| | |r| |r|id]; cbn [prog_at].
  - intros [a ->] H. done.
  - intros -> H. unfold claim in H; cbn [advance perform] in H.
    destruct (CreateProcessing n _ t) as [o t1] eqn:Ec. injection H as <- <-. destruct o as [id|]; cbn [after_create].
    + eapply claim_move; [|reflexivity]. intros q Hq. by eapply create_move.
    + exists PGet. split; [|done]. eapply create_move; [reflexivity|exact Ec|by right].
  - intros -> H. injection H as <- <-. cbn [after_get]. unfold GetByScopeAndKeyHash.
    destruct (it_rows t !! (scope, h)) as [r|] eqn:Er.
    2: { exists PIdle. split; [apply (mv_stop n t (claimer PGet))|by eexists]. }
    destruct (negb (String.eqb _ _)); [exists PIdle; split; [apply (mv_stop n t (claimer PGet))|by eexists]|].
    destruct (after (ir_ExpiresAt r) t0) eqn:Ee; cbn [negb].
    + by apply (read_move PGet n t r); [left| |].
    + exists (PExpired r). split; [by apply (mv_expired n t (claimer PGet))|done].
  - intros -> H. cbn [advance perform] in H. destruct (TryReclaim _ _ _ _ _ _ t) as [b t1] eqn:Et.
    injection H as <- <-. destruct b; cbn [after_expired_reclaim].
    + eapply claim_move; [|reflexivity]. intros q Hq. by eapply (reclaim_move (PExpired r)).
    + exists PGet2. split; [|done]. eapply (reclaim_move (PExpired r)); [reflexivity|exact Et|by right].
  - intros -> H. injection H as <- <-. cbn [after_second_get]. unfold GetByScopeAndKeyHash.
    destruct (it_rows t !! (scope, h)) as [r|] eqn:Er.
    2: { exists PIdle. split; [apply (mv_stop n t (claimer PGet2))|by eexists]. }
    destruct (negb (String.eqb _ _)); [exists PIdle; split; [apply (mv_stop n t (claimer PGet2))|by eexists]|].
    by apply (read_move PGet2 n t r); [right| |].
  - intros -> H. cbn [advance perform] in H. destruct (TryReclaim _ _ _ _ _ _ t) as [b t1] eqn:Et.
    injection H as <- <-. destruct b; cbn [after_retry_reclaim].
    + eapply claim_move; [|reflexivity]. intros q Hq. by eapply (reclaim_move (PRetry r)).
    + exists PIdle. split; [|by eexists]. eapply (reclaim_move (PRetry r)); [reflexivity|exact Et|by left].
  - apply own_advance.
Qed.

(** A statement that fails ends the request. *)
Lemma prog_error q p e p' : prog_at q p -> advance_error e p = Some p' -> ∃ a, p' = Ret a.
Proof.
  destruct q as [| | |r| |r|id]; cbn [prog_at]; [intros [a ->] H; done|intros -> H; injection H as <-; by eexists..|].
  intros [->|[(reason & backoff & e0 & ->)|[(reason & l & e0 & ->)|(b & k & -> & Hk)]]] H; try done;
    injection H as <-; [by eexists|apply Hk].
Qed.

(** So does one whose answer is lost, which took effect. *)
Lemma prog_lost q n body t p p1 t' e p' :
  prog_at q p -> advance n body p t = Some (p1, t') -> advance_error e p = Some p' ->
  move n t (claimer q) t' (claimer PIdle).
Proof.
  destruct q as [| | |r| |r|id]; cbn [prog_at].
  - intros [a ->] H. done.
  - intros -> H _. unfold claim in H; cbn [advance perform] in H.
    destruct (CreateProcessing n _ t) as [o t1] eqn:Ec. injection H as _ <-.
    eapply create_move; [reflexivity|exact Ec|by left].
  - intros -> H _. injection H as _ <-. apply (mv_stop n t (claimer PGet)).
  - intros -> H _. cbn [advance perform] in H. destruct (TryReclaim _ _ _ _ _ _ t) as [b t1] eqn:Et.
    injection H as _ <-. eapply (reclaim_move (PExpired r)); [reflexivity|exact Et|by left].
  - intros -> H _. injection H as _ <-. apply (mv_stop n t (claimer PGet2)).
  - intros -> H _. cbn [advance perform] in H. destruct (TryReclaim _ _ _ _ _ _ t) as [b t1] eqn:Et.
    injection H as _ <-. eapply (reclaim_move (PRetry r)); [reflexivity|exact Et|by left].
  - intros [->|[(reason & backoff & e0 & ->)|[(reason & l & e0 & ->)|(b & k & -> & Hk)]]] H He; try done;
      injection H as _ <-; [by apply (mv_fail n t (claimer (POwn id)))|by apply (mv_succeed n t (claimer (POwn id)))].
Qed.

(** The deadlines of the program are those of the claimer. *)
Lemma prog_in_time q n p :
  prog_at q p -> thread_in_time n {| th_opts := opts; th_now := Some t0; th_prog := p |} = true ->
  in_time n (claimer q).
Proof.
  unfold in_time. destruct q as [| | |r| |r|id]; cbn [prog_at ct_pos claimer]; try done; try (by intros ->).
  intros [->|[(reason & backoff & e0 & ->)|[(reason & l & e0 & ->)|(b & k & -> & Hk)]]]; done.
Qed.
End At.

(** *** Threads *)

(** Before the claim a request has not touched the store. *)
Definition unclaimed (opts : opts_t) (p : prog) : Prop :=
  (∃ a, p = Ret a) \/ (∃ k, p = Do CBody k /\ ∀ r, ∃ a, k r = Ret a) \/
  (∃ fp, p = Do CNow (claim (ttl_of cfg opts) (io_Scope opts) (key_hash opts) fp)).

Lemma Execute_unclaimed has_executor opts : unclaimed opts (Execute true has_executor opts).
Proof.
  unfold Execute. destruct has_executor; cbn [negb]; [|left; by eexists].
  destruct (NormalizeIdempotencyKey (io_IdempotencyKey opts)) as [key|e] eqn:Ek; [|left; by eexists].
  destruct (str_empty key).
  - destruct (_ && _); [left; by eexists|]. right; left. eexists. split; [done|]. intros [|]; by eexists.
  - destruct (str_empty (io_Scope opts)); [left; by eexists|].
    destruct (BuildIdempotencyFingerprint _ _ _ _ _ _) as [fp|e]; [|left; by eexists].
    right; right. exists fp. unfold key_hash. by rewrite Ek.
Qed.

Definition simulates (th : Thread) (c : Claimer) : Prop :=
  match th_now th with
  | None => ct_pos c = PIdle /\ unclaimed (th_opts th) (th_prog th)
  | Some t0 => ∃ q fp, c = claimer (th_opts th) t0 q /\ prog_at (th_opts th) fp t0 q (th_prog th)
  end.

(** The steps of a thread, as its claimer sees them. *)
Lemma thread_moves n body t th c p t' :
  simulates th c -> advance n body (th_prog th) t = Some (p, t') ->
  ∃ c', move n t c t' c' /\ simulates (next_thread n th p) c'.
Proof.
  unfold simulates, next_thread. destruct th as [opts [t0|] pr]; cbn.
  - intros (q & fp & -> & Hat) H. destruct (prog_advance opts fp t0 q n body t pr p t' Hat H) as (q' & Hm & Hat').
    exists (claimer opts t0 q'). split; [done|]. by exists q', fp.
  - intros [Hpos [(a & ->)|[(k & -> & Hk)|(fp & ->)]]] H; [done|injection H as <- <-..].
    + exists (at_pos c PIdle). split; [constructor|]. cbn. split; [done|]. left. apply Hk.
    + exists (claimer opts n PCreate). split; [by constructor|]. cbn. by exists PCreate, fp.
Qed.

Lemma thread_stops n t th c e p :
  simulates th c -> advance_error e (th_prog th) = Some p ->
  ∃ c', move n t c t c' /\ simulates (next_thread n th p) c'.
Proof.
  unfold simulates, next_thread. destruct th as [opts [t0|] pr]; cbn.
  - intros (q & fp & -> & Hat) H. exists (claimer opts t0 PIdle).
    split; [apply (mv_stop n t (claimer opts t0 q))|]. exists PIdle, fp. split; [done|]. by eapply prog_error.
  - by intros [Hpos [(a & ->)|[(k & -> & Hk)|(fp & ->)]]].
Qed.

Lemma thread_lost n body t th c e p p' t' :
  simulates th c -> advance n body (th_prog th) t = Some (p, t') -> advance_error e (th_prog th) = Some p' ->
  ∃ c', move n t c t' c' /\ simulates (next_thread n th p') c'.
Proof.
  unfold simulates, next_thread. destruct th as [opts [t0|] pr]; cbn.
  - intros (q & fp & -> & Hat) H He. exists (claimer opts t0 PIdle).
    split; [by eapply prog_lost|]. exists PIdle, fp. split; [done|]. by eapply prog_error.
  - by intros [Hpos [(a & ->)|[(k & -> & Hk)|(fp & ->)]]].
Qed.

(** *** Mutual exclusion *)

Definition simulated (s : Idem) (a : Claims) : Prop :=
  id_table s = cs_table a /\ id_clock s = cs_clock a /\ Forall2 simulates (id_threads s) (cs_claimers a).

Lemma simulated_in_time s a :
  simulated s a -> timely s = true -> ∀ c, c ∈ cs_claimers a -> in_time (cs_clock a) c.
Proof.
  intros (_ & Hn & Hth) Ht c [i Hi]%list_elem_of_lookup.
  destruct (Forall2_lookup_r _ _ _ _ _ Hth Hi) as (th & Hith & Hs).
  unfold timely in Ht. rewrite forallb_forall in Ht.
  specialize (Ht th). rewrite <- list_elem_of_In in Ht. specialize (Ht (list_elem_of_lookup_2 _ _ _ Hith)).
  rewrite Hn in Ht. unfold simulates in Hs. destruct th as [opts [t0|] pr]; cbn in *.
  - destruct Hs as (q & fp & -> & Hat). by eapply prog_in_time.
  - destruct Hs as [Hp _]. unfold in_time. by rewrite Hp.
Qed.

Lemma idle_claimer opts n : ct_pos (claimer opts n PIdle) = PIdle.
Proof. done. Qed.

Lemma idem_step_claims s s' a :
  idem_step s s' -> simulated s a -> ∃ a', claims_step a a' /\ simulated s' a'.
Proof.
  intros Hstep (Ht & Hn & Hth). destruct a as [t0 n0 cs]; cbn in *.
  destruct Hstep as [t n ths i th body p t' Hi H|t n ths i th e p Hi H|t n ths i th body e p p' t' Hi H He
    |t n n' ths Hle|t n ths opts hx|t n ths limit]; cbn in *; subst t0 n0.
  - destruct (Forall2_lookup_l _ _ _ _ _ Hth Hi) as (c & Hc & Hs).
    destruct (thread_moves n body t th c p t' Hs H) as (c' & Hm & Hs').
    eexists. split; [by eapply cs_move|]. split_and!; [done|done|]. by apply Forall2_insert.
  - destruct (Forall2_lookup_l _ _ _ _ _ Hth Hi) as (c & Hc & Hs).
    destruct (thread_stops n t th c e p Hs H) as (c' & Hm & Hs').
    eexists. split; [by eapply cs_move|]. split_and!; [done|done|]. by apply Forall2_insert.
  - destruct (Forall2_lookup_l _ _ _ _ _ Hth Hi) as (c & Hc & Hs).
    destruct (thread_lost n body t th c e p p' t' Hs H He) as (c' & Hm & Hs').
    eexists. split; [by eapply cs_move|]. split_and!; [done|done|]. by apply Forall2_insert.
  - eexists. split; [by apply cs_tick|]. done.
  - exists (Build_Claims t n (cs ++ [claimer opts n PIdle])). split; [by apply cs_arrive|].
    split_and!; [done|done|]. apply Forall2_app; [done|]. constructor; [|done].
    split; [done|apply Execute_unclaimed].
  - eexists. split; [by apply cs_clean|]. done.
Qed.

Lemma reachable_claims s s' a :
  rtc timely_step s s' -> simulated s a -> claims_ok a -> ∃ a', simulated s' a' /\ claims_ok a'.
Proof.
  intros Hr. revert a. induction Hr as [s|s1 s2 s3 [Ht Hs] _ IH]; intros a Hsim Hok; [eauto|].
  destruct (idem_step_claims _ _ _ Hs Hsim) as (a' & Ha & Hsim').
  apply (IH a' Hsim'). eapply claims_step_ok; [exact Ha|by eapply simulated_in_time|done].
Qed.

Lemma working_owns th c :
  simulates th c -> working th = true ->
  ∃ id, ct_pos c = POwn id /\ ct_key c = (io_Scope (th_opts th), key_hash (th_opts th)).
Proof.
  unfold simulates, working. destruct th as [opts [t0|] pr]; cbn; [|done].
  intros (q & fp & -> & Hat) Hw. destruct q as [| | |r| |r|id]; cbn [prog_at] in Hat;
    try (rewrite Hat in Hw; done); [by destruct Hat as [a ->]|]. eauto.
Qed.

Lemma no_claims_ok t n : table_ok t -> claims_ok (Build_Claims t n []).
Proof.
  intros Ht. assert (∀ c : Claimer, c ∉ []) as Hno by (intros c H; by apply elem_of_nil in H).
  split; cbn.
  - done.
  - intros c H. by destruct (Hno c).
  - intros c id H. by destruct (Hno c).
  - intros i j ci cj id H. by rewrite lookup_nil in H.
  - intros c r from H. by destruct (Hno c).
  - intros c r c' H. by destruct (Hno c).
Qed.

Lemma exclusive t n s i j th th' :
  table_ok t -> rtc timely_step (Build_Idem t n []) s ->
  id_threads s !! i = Some th -> id_threads s !! j = Some th' ->
  working th = true -> working th' = true ->
  io_Scope (th_opts th) = io_Scope (th_opts th') -> key_hash (th_opts th) = key_hash (th_opts th') -> i = j.
Proof.
  intros Htab Hr Hi Hj Hw Hw' Hs Hk.
  destruct (reachable_claims _ _ (Build_Claims t n []) Hr) as (a & (_ & _ & Hth) & Hok); [done| |].
  { by apply no_claims_ok. }
  destruct (Forall2_lookup_l _ _ _ _ _ Hth Hi) as (c & Hc & Hsim), (Forall2_lookup_l _ _ _ _ _ Hth Hj) as (c' & Hc' & Hsim').
  destruct (working_owns _ _ Hsim Hw) as (id & Hp & Hkey), (working_owns _ _ Hsim' Hw') as (id' & Hp' & Hkey').
  destruct (co_own _ Hok c id) as (r & Hrow & Hid & _); [by eapply list_elem_of_lookup_2|done|].
  destruct (co_own _ Hok c' id') as (r' & Hrow' & Hid' & _); [by eapply list_elem_of_lookup_2|done|].
  assert (ct_key c = ct_key c') as E by congruence. rewrite E in Hrow.
  assert (id = id') as <- by congruence. by eapply (co_alone _ Hok).
Qed.

(** A schedule of threads, each step within the deadlines. *)
Fixpoint schedule (body : result Data) (order : list nat) (s : Idem) : option Idem :=
  match order with
  | [] => Some s
  | i :: order =>
    if timely s then
      match id_threads s !! i with
      | None => None
      | Some th =>
        match advance (id_clock s) body (th_prog th) (id_table s) with
        | None => None
        | Some (p, t') =>
          schedule body order (Build_Idem t' (id_clock s) (<[i := next_thread (id_clock s) th p]> (id_threads s)))
        end
      end
    else None
  end.

Lemma schedule_steps body order s s' : schedule body order s = Some s' -> rtc timely_step s s'.
Proof.
  revert s. induction order as [|i order IH]; cbn; intros s H; [by injection H as ->|].
  destruct (timely s) eqn:Et; [|done]. destruct (id_threads s !! i) as [th|] eqn:Ei; [|done].
  destruct (advance _ _ _ _) as [[p t']|] eqn:Ea; [|done].
  eapply rtc_l; [|by apply IH]. split; [done|]. destruct s as [t n ths]. by eapply st_run.
Qed.

Lemma arrive_steps t n ths opts hx :
  timely (Build_Idem t n ths) = true ->
  rtc timely_step (Build_Idem t n ths)
    (Build_Idem t n (ths ++ [{| th_opts := opts; th_now := None; th_prog := Execute true hx opts |}])).
Proof. intros H. apply rtc_once. split; [done|constructor]. Qed.

(** C17. Keyed requests run their own work one at a time: from any well-formed
    table, in every interleaving of the statements of any number of requests,
    with statements that fail, statements whose answer is lost, and the
    deletion of expired records, two requests of the same scope and key are
    never both in their own work — as long as every statement that takes a
    record runs within the processing timeout of its request, and every request
    has marked its record before its time to live is over.  Times are kept to the
    nanosecond; the store's microseconds round each deadline. *)
Theorem one_at_a_time t n s i j th th' :
  table_ok t -> rtc timely_step (Build_Idem t n []) s ->
  id_threads s !! i = Some th -> id_threads s !! j = Some th' ->
  working th = true -> working th' = true ->
  io_Scope (th_opts th) = io_Scope (th_opts th') -> key_hash (th_opts th) = key_hash (th_opts th') -> i = j.
Proof. apply exclusive. Qed.
End Refinement.

(** ** A concrete run

    Two requests with one key: the first has created its record and is in its
    own work, the second has found the record. *)

Definition sample_opts : IdempotencyExecuteOptions string := {|
  io_Scope := "orders"; io_ActorScope := "user:1"; io_Method := "POST"; io_Route := "/orders";
  io_IdempotencyKey := "k1"; io_Payload := "p"; io_TTL := 0; io_RequireKey := true |}.
Definition sample_Execute (cfg : IdempotencyConfig) (opts : IdempotencyExecuteOptions string) :=
  @Execute ascii_only_case string Some Some id id EmptyString cfg true true opts.
Lemma empty_table_ok : table_ok empty_table.
Proof. split; [by intros key r H|by intros k1 k2 r1 r2 H|done]. Qed.

Definition sample_time (n : Z) : time := mk_time n UTC.
Definition sample_thread : Thread :=
  {| th_opts := sample_opts; th_now := None; th_prog := sample_Execute DefaultIdempotencyConfig sample_opts |}.
Definition sample_start : Idem := Build_Idem empty_table (sample_time 0) [sample_thread; sample_thread].
Definition sample_state : Idem :=
  default sample_start (schedule DefaultIdempotencyConfig (Ok "done"%string) [0; 0; 1; 1; 1]%nat sample_start).
Definition sample_owner : Thread := default sample_thread (id_threads sample_state !! 0%nat).

Lemma default_Some {A} (d : A) (o : option A) : bool_decide (is_Some o) = true -> o = Some (default d o).
Proof. intros [x ->]%bool_decide_eq_true. done. Qed.

Lemma one_at_a_time_witness :
  length (id_threads sample_state) = 2%nat /\ working sample_owner = true /\ 0%nat = 0%nat.
Proof.
  split; [by vm_compute|]. split; [by vm_compute|].
  refine (@one_at_a_time ascii_only_case string Some Some id id EmptyString DefaultIdempotencyConfig
    empty_table (sample_time 0) sample_state 0 0 sample_owner sample_owner empty_table_ok _ _ _ _ _ _ _).
  - etrans; [by apply (arrive_steps _ _ _ _ _ _ _ _ [] sample_opts true)|].
    etrans; [by apply (arrive_steps _ _ _ _ _ _ _ _ [sample_thread] sample_opts true)|].
    eapply schedule_steps. apply default_Some. by vm_compute.
  - apply default_Some. by vm_compute.
  - apply default_Some. by vm_compute.
  - by vm_compute.
  - by vm_compute.
  - done.
  - done.
Defined.
