(* ===== verification/IdempotencyOutcomes.v ===== *)
(** * What keyed requests answer

    [run] of the coordinator and of the system lock on whole requests: a stored
    response is replayed to the same request and another method, route, actor or
    payload refused, a failure backs off, an
    unfinished record blocks until it expires; and where the promise ends: a
    stale reclaim repeats the work, a response too long to be stored is never
    replayed, and a system lock taken over from an earlier operation is not
    renewed. *)

From S2P Require Import Prelude GoErrors Float64 GoTime GoStrings GoText Idempotency IdempotencyProps.

(** An identifier was drawn for an insert that found its key. *)
Definition drawn (t : IdemTable) : IdemTable := {| it_rows := it_rows t; it_next := it_next t + 1 |}.

Lemma drawn_ok t : table_ok t -> table_ok (drawn t).
Proof.
  intros [Hi Hu Hn]. split; cbn; [|done|lia]. intros key r Hr. specialize (Hi key r Hr). lia.
Qed.

Lemma create_known clock r t x :
  it_rows t !! row_key r = Some x -> CreateProcessing clock r t = (None, drawn t).
Proof. unfold row_key, CreateProcessing. by intros ->. Qed.

(** The update of a row by its identifier. *)
Lemma update_key p f t key r :
  it_rows t !! key = Some r -> p r = true -> it_rows (update_rows p f t).2 !! key = Some (f r).
Proof. intros Hr Hp. rewrite lookup_update, Hr. cbn. by rewrite Hp. Qed.

Lemma update_rows_nothing p f t :
  (∀ key r, it_rows t !! key = Some r -> p r = false) -> update_rows p f t = (false, t).
Proof.
  intros H. destruct t as [rows next]; cbn in H. unfold update_rows; cbn. f_equal.
  - apply not_true_iff_false. intros ([key r] & Hin%list_elem_of_In%elem_of_map_to_list & Hp)%existsb_exists.
    cbn in Hp. rewrite (H key r Hin) in Hp. done.
  - f_equal. rewrite <- (map_fmap_id rows) at 2. apply map_fmap_ext. intros key r Hr. by rewrite (H key r Hr).
Qed.

Lemma reclaim_hits clock id from now l e t key r :
  it_rows t !! key = Some r -> can_reclaim id from now r = true ->
  TryReclaim clock id from now l e t = (true, (TryReclaim clock id from now l e t).2) /\
  it_rows (TryReclaim clock id from now l e t).2 !! key = Some (reclaimed clock l e r).
Proof.
  intros Hr Hp. unfold TryReclaim. split.
  - rewrite (surjective_pairing (update_rows _ _ _)) at 1. f_equal. apply update_affected. eauto.
  - by apply update_key.
Qed.

Section Outcomes.
Context {UC : UnicodeCase} {Data : Type}.
Context (json_Marshal : Data -> option string) (json_Unmarshal : string -> option Data)
        (sha256_hex RedactText : string -> string) (empty_object : Data).
Context (cfg : IdempotencyConfig).

#[local] Abbreviation Outcome := (result (IdempotencyExecuteResult Data)).
#[local] Abbreviation opts_t := (IdempotencyExecuteOptions Data).
#[local] Abbreviation Execute :=
  (Execute json_Marshal json_Unmarshal sha256_hex RedactText empty_object cfg true true).
#[local] Abbreviation claim := (claim json_Marshal json_Unmarshal RedactText empty_object cfg).
#[local] Abbreviation stored := (marshalStoredResponse json_Marshal RedactText cfg).
#[local] Abbreviation decode := (decodeStoredResponse json_Unmarshal empty_object).
#[local] Abbreviation by_status := (by_status json_Marshal json_Unmarshal RedactText empty_object cfg).
#[local] Abbreviation claimed := (claimed json_Marshal RedactText cfg).

Definition fresh (d : Data) : Outcome := Ok (Build_IdempotencyExecuteResult d false).
Definition replayed (d : Data) : Outcome := Ok (Build_IdempotencyExecuteResult d true).

(** The request reaches the store, with a key and a fingerprint. *)
Definition keyed (opts : opts_t) (fp : string) : Prop :=
  ∃ k, NormalizeIdempotencyKey (io_IdempotencyKey opts) = Ok k /\ str_empty k = false /\
    str_empty (io_Scope opts) = false /\
    BuildIdempotencyFingerprint json_Marshal sha256_hex (io_Method opts) (io_Route opts) (io_ActorScope opts)
      (io_Payload opts) = Ok fp.
Definition store_key (opts : opts_t) : string * string := (io_Scope opts, key_hash sha256_hex opts).
Definition lock_of (n : time) : time := time_add n (ProcessingTimeout cfg).
Definition expiry_of (opts : opts_t) (n : time) : time := time_add n (ttl_of cfg opts).

(** ** Whole runs *)

Lemma Execute_keyed opts fp : keyed opts fp ->
  Execute opts = Do CNow (claim (ttl_of cfg opts) (io_Scope opts) (key_hash sha256_hex opts) fp).
Proof.
  intros (k & Hk & Hne & Hs & Hf). unfold Idempotency.Execute, key_hash; cbn [negb].
  by rewrite Hk, Hne, Hs, Hf.
Qed.

Lemma run_do {A B} n body (c : cmd Data B) (k : B -> prog Data A) t b t1 m :
  perform n body c t = (b, t1, m) ->
  run n body (Do c k) t = (let '(a, t2, m') := run n body (k b) t1 in (a, t2, (m + m')%nat)).
Proof. intros H. cbn. by rewrite H. Qed.

Lemma run_claimed_ok n d s exp id t : id ≠ 0 -> stored d = Some s ->
  run n (Ok d) (claimed exp id) t = (fresh d, MarkSucceeded n id 200 s exp t, 1%nat).
Proof.
  intros Hid Hs. unfold Idempotency.claimed. rewrite (proj2 (Z.eqb_neq id 0) Hid).
  erewrite run_do by reflexivity. cbn [after_body]. rewrite Hs. done.
Qed.

Definition failure_reason (e : error) : string :=
  if str_empty (error_reason e) then "EXECUTION_FAILED" else error_reason e.
Lemma run_claimed_err n e exp id t : id ≠ 0 ->
  run n (Err e) (claimed exp id) t =
  (Err e, MarkFailedRetryable n id (failure_reason e) (time_add n (FailedRetryBackoff cfg)) exp t, 1%nat).
Proof.
  intros Hid. unfold Idempotency.claimed. rewrite (proj2 (Z.eqb_neq id 0) Hid). done.
Qed.

(** The first request of a key. *)
Lemma run_new opts fp n body t :
  keyed opts fp -> it_rows t !! store_key opts = None -> table_ok t ->
  ∃ r, it_rows (CreateProcessing n (new_record (io_Scope opts) (key_hash sha256_hex opts) fp
                  (lock_of n) (expiry_of opts n)) t).2 !! store_key opts = Some r /\
    ir_ID r = it_next t /\ ir_RequestFingerprint r = fp /\
    run n body (Execute opts) t =
    run n body (claimed (expiry_of opts n) (it_next t))
      (CreateProcessing n (new_record (io_Scope opts) (key_hash sha256_hex opts) fp
                             (lock_of n) (expiry_of opts n)) t).2.
Proof.
  intros Hk Hnone Hok. rewrite (Execute_keyed _ _ Hk). unfold store_key in *. cbn [run perform Idempotency.claim].
  unfold lock_of, expiry_of, CreateProcessing. cbn [ir_Scope ir_IdempotencyKeyHash new_record]. rewrite Hnone.
  eexists. split_and!; [cbn; apply lookup_insert_eq|done|done|].
  cbn [after_create snd]. by destruct (run _ _ _ _) as [[a t'] m].
Qed.

(** A later request finds the record. *)
Lemma run_known opts fp n body t r :
  keyed opts fp -> it_rows t !! store_key opts = Some r ->
  run n body (Execute opts) t =
  run n body (after_get json_Marshal json_Unmarshal RedactText empty_object cfg (io_Scope opts)
                (key_hash sha256_hex opts) fp n (lock_of n) (expiry_of opts n) (Ok (Some r))) (drawn t).
Proof.
  intros Hk Hr. rewrite (Execute_keyed _ _ Hk). unfold store_key in Hr. cbn [run perform Idempotency.claim].
  rewrite (create_known n _ t r) by exact Hr. cbn [after_create run perform].
  unfold GetByScopeAndKeyHash. cbn [it_rows drawn]. rewrite Hr. unfold lock_of, expiry_of.
  by destruct (run _ _ _ _) as [[a t'] m].
Qed.

Lemma run_live opts fp n body t r :
  keyed opts fp -> it_rows t !! store_key opts = Some r -> ir_RequestFingerprint r = fp ->
  t_ns n < t_ns (ir_ExpiresAt r) ->
  run n body (Execute opts) t =
  run n body (by_status n (lock_of n) (expiry_of opts n) r) (drawn t).
Proof.
  intros Hk Hr Hf He. rewrite (run_known _ _ _ _ _ _ Hk Hr). cbn [after_get].
  rewrite Hf, String.eqb_refl; cbn [negb]. unfold after. by rewrite (proj2 (Z.ltb_lt _ _) He).
Qed.

Lemma run_conflict opts fp n body t r :
  keyed opts fp -> it_rows t !! store_key opts = Some r -> ir_RequestFingerprint r ≠ fp ->
  run n body (Execute opts) t = (Err ErrIdempotencyKeyConflict, drawn t, 0%nat).
Proof.
  intros Hk Hr Hf. rewrite (run_known _ _ _ _ _ _ Hk Hr). cbn [after_get].
  by rewrite (proj2 (String.eqb_neq _ _) Hf).
Qed.

Lemma run_replay opts fp n body t r d :
  keyed opts fp -> it_rows t !! store_key opts = Some r -> ir_RequestFingerprint r = fp ->
  t_ns n < t_ns (ir_ExpiresAt r) -> ir_Status r = IdempotencyStatusSucceeded ->
  decode (ir_ResponseBody r) = d ->
  run n body (Execute opts) t =
  (match d with Some d => replayed d | None => unavailable (Some (EPlain "decode stored response")) end,
   drawn t, 0%nat).
Proof.
  intros Hk Hr Hf He Hs Hd. rewrite (run_live _ _ _ _ _ _ Hk Hr Hf He). unfold Idempotency.by_status.
  rewrite Hs, String.eqb_refl, Hd. by destruct d.
Qed.

(** The record of a request whose work succeeded. *)
Lemma run_first opts fp n d s t :
  keyed opts fp -> it_rows t !! store_key opts = None -> table_ok t -> stored d = Some s ->
  ∃ t1 r, run n (Ok d) (Execute opts) t = (fresh d, t1, 1%nat) /\
    it_rows t1 !! store_key opts = Some r /\ ir_RequestFingerprint r = fp /\
    ir_Status r = IdempotencyStatusSucceeded /\ ir_ResponseBody r = Some s /\ ir_ExpiresAt r = expiry_of opts n.
Proof.
  intros Hk Hnone Hok Hs. destruct (run_new opts fp n (Ok d) t Hk Hnone Hok) as (r & Hr & Hid & Hf & ->).
  rewrite (run_claimed_ok _ _ s) by (try done; pose proof (to_next _ Hok); lia).
  eexists _, _. split; [done|]. split.
  - unfold MarkSucceeded. apply update_key; [exact Hr|]. by rewrite Hid, Z.eqb_refl.
  - done.
Qed.

(** ** The stored response *)

Lemma stored_short d raw :
  json_Marshal d = Some raw ->
  MaxStoredResponseLen cfg <= 0 \/ str_len (RedactText raw) <= MaxStoredResponseLen cfg ->
  stored d = Some (RedactText raw).
Proof.
  intros Hd Hl. unfold marshalStoredResponse. rewrite Hd.
  destruct (Z.ltb_spec 0 (MaxStoredResponseLen cfg)), (Z.ltb_spec (MaxStoredResponseLen cfg) (str_len (RedactText raw)));
    cbn; try done. lia.
Qed.

Lemma stored_long d raw :
  json_Marshal d = Some raw -> 0 < MaxStoredResponseLen cfg < str_len (RedactText raw) ->
  stored d = Some (truncateUTF8 (RedactText raw) (MaxStoredResponseLen cfg) ++ "...(truncated)")%string.
Proof.
  intros Hd [Hp Hl]. unfold marshalStoredResponse. rewrite Hd.
  by rewrite (proj2 (Z.ltb_lt _ _) Hp), (proj2 (Z.ltb_lt _ _) Hl).
Qed.

Lemma decode_not_blank body :
  str_empty (TrimSpace body) = false -> decode (Some body) = json_Unmarshal body.
Proof. intros H. unfold decodeStoredResponse. by rewrite H. Qed.

Lemma truncated_not_blank body : str_empty (TrimSpace (body ++ "...(truncated)")) = false.
Proof.
  apply str_empty_false. intros E.
  assert (Ascii.ascii_of_N 41 ∈ to_bytes (TrimSpace (body ++ "...(truncated)"))) as H.
  { apply TrimSpace_keeps; [by vm_compute|]. rewrite to_bytes_app. apply elem_of_app. right.
    by apply list_elem_of_In; cbn; do 13 right; left. }
  rewrite E in H. by apply elem_of_nil in H.
Qed.

(** ** What makes two requests the same *)

(** The method whatever its case, the route, the actor and the payload's JSON;
    the first three are POST, / and anonymous when they are not given. *)
Definition or_else (d s : string) : string := if str_empty s then d else s.
Definition method_of (opts : opts_t) : string := ToUpper (or_else "POST" (io_Method opts)).
Definition route_of (opts : opts_t) : string := or_else "/" (io_Route opts).
Definition actor_of (opts : opts_t) : string := or_else "anonymous" (io_ActorScope opts).
Record same_request (opts opts' : opts_t) : Prop := {
  sr_method : method_of opts = method_of opts';
  sr_route : route_of opts = route_of opts';
  sr_actor : actor_of opts = actor_of opts';
  sr_payload : json_Marshal (io_Payload opts) = json_Marshal (io_Payload opts')
}.

(** The request has a key and a scope, a payload with a JSON form, and no line
    break in its method, route or actor. *)
Definition newline_char : Ascii.ascii := Ascii.ascii_of_N 10.
Record accepted (opts : opts_t) (raw : string) : Prop := {
  ac_key : ∃ k, NormalizeIdempotencyKey (io_IdempotencyKey opts) = Ok k /\ str_empty k = false;
  ac_scope : str_empty (io_Scope opts) = false;
  ac_payload : json_Marshal (io_Payload opts) = Some raw;
  ac_method : without newline_char (method_of opts);
  ac_route : without newline_char (route_of opts);
  ac_actor : without newline_char (actor_of opts)
}.
Definition request_text (opts : opts_t) (raw : string) : string :=
  method_of opts ++ byte_string newline_char ++ route_of opts ++ byte_string newline_char
  ++ actor_of opts ++ byte_string newline_char ++ raw.
(** Two different texts that the digest does not tell apart. *)
Definition collide (x y : string) : Prop := x ≠ y /\ sha256_hex x = sha256_hex y.

Lemma accepted_keyed opts raw : accepted opts raw -> keyed opts (sha256_hex (request_text opts raw)).
Proof.
  intros [(k & Hk & Hne) Hs Hp _ _ _]. exists k. split_and!; [done..|].
  unfold BuildIdempotencyFingerprint. by rewrite Hp.
Qed.
Lemma request_text_inj opts opts' raw raw' : accepted opts raw -> accepted opts' raw' ->
  request_text opts raw = request_text opts' raw' -> same_request opts opts'.
Proof.
  intros [_ _ Hp Hm Hr Ha] [_ _ Hp' Hm' Hr' Ha'] E. unfold request_text in E.
  apply cut_unique in E as [E1 E]; [|done..]. apply cut_unique in E as [E2 E]; [|done..].
  apply cut_unique in E as [E3 ->]; [|done..]. split; [done..|congruence].
Qed.
Lemma same_request_text opts opts' raw raw' : accepted opts raw -> accepted opts' raw' ->
  same_request opts opts' -> request_text opts raw = request_text opts' raw'.
Proof.
  intros [_ _ Hp _ _ _] [_ _ Hp' _ _ _] [E1 E2 E3 E4]. unfold request_text. rewrite E1, E2, E3.
  by assert (raw = raw') as -> by congruence.
Qed.

(** C30. One key, one execution, one answer.  When the first request of a key
    succeeds with a response that is stored whole, its work runs once and the
    request gets the fresh response.  Until the record expires, a request with
    the same key that has the same method (case apart), route, actor and payload
    gets the stored response, marked as replayed, and one that differs in any of
    them is refused with the conflict error, unless the digests of the two
    different requests coincide; neither runs any work nor changes a record.
    Method, route and actor are texts without a line break. *)
Theorem key_answers_once opts sent n d raw d' t :
  accepted opts sent -> it_rows t !! store_key opts = None -> table_ok t ->
  json_Marshal d = Some raw ->
  MaxStoredResponseLen cfg <= 0 \/ str_len (RedactText raw) <= MaxStoredResponseLen cfg ->
  str_empty (TrimSpace (RedactText raw)) = false -> json_Unmarshal (RedactText raw) = Some d' ->
  ∃ t1, run n (Ok d) (Execute opts) t = (fresh d, t1, 1%nat) /\
    ∀ n' body opts' sent', t_ns n' < t_ns (expiry_of opts n) -> accepted opts' sent' ->
      store_key opts' = store_key opts ->
      (same_request opts' opts -> run n' body (Execute opts') t1 = (replayed d', drawn t1, 0%nat)) /\
      (~ same_request opts' opts -> ~ collide (request_text opts' sent') (request_text opts sent) ->
         run n' body (Execute opts') t1 = (Err ErrIdempotencyKeyConflict, drawn t1, 0%nat)).
Proof.
  intros Hac Hnone Hok Hd Hl Hb Hu. pose proof (accepted_keyed _ _ Hac) as Hk.
  destruct (run_first opts _ n d _ t Hk Hnone Hok (stored_short _ _ Hd Hl)) as (t1 & r & Hrun & Hr & Hf & Hs & Hbody & He).
  exists t1. split; [done|]. intros n' body opts' sent' Hn Hac' Hsame. rewrite <- Hsame in Hr.
  pose proof (accepted_keyed _ _ Hac') as Hk'. split.
  - intros Hreq. rewrite (same_request_text _ _ _ _ Hac' Hac Hreq) in Hk'.
    apply (run_replay opts' _ n' body t1 r (Some d') Hk' Hr Hf).
    + by rewrite He.
    + done.
    + by rewrite Hbody, decode_not_blank.
  - intros Hdiff Hno. apply (run_conflict opts' _ n' body t1 r Hk' Hr). rewrite Hf. intros E. apply Hno.
    split; [|done]. intros Et. apply Hdiff. by eapply request_text_inj.
Qed.

(** A response longer than [MaxStoredResponseLen] is stored cut, with a
    mark appended, as the response of a success.  No JSON value ends like the
    mark, so it is never decoded: the work has run and its caller has its
    response, and every repetition until the record expires is answered that
    the store is unavailable. *)
Theorem truncated_response_never_replays opts fp n d raw t :
  (∀ s, json_Unmarshal (s ++ "...(truncated)")%string = None) ->
  keyed opts fp -> it_rows t !! store_key opts = None -> table_ok t ->
  json_Marshal d = Some raw -> 0 < MaxStoredResponseLen cfg < str_len (RedactText raw) ->
  ∃ t1, run n (Ok d) (Execute opts) t = (fresh d, t1, 1%nat) /\
    ∀ n' body, t_ns n' < t_ns (expiry_of opts n) ->
      ∃ cause, run n' body (Execute opts) t1 =
        (Err (with_cause ErrIdempotencyStoreUnavail cause), drawn t1, 0%nat).
Proof.
  intros Hj Hk Hnone Hok Hd Hl.
  destruct (run_first opts fp n d _ t Hk Hnone Hok (stored_long _ _ Hd Hl)) as (t1 & r & Hrun & Hr & Hf & Hs & Hbody & He).
  exists t1. split; [done|]. intros n' body Hn. exists (EPlain "decode stored response").
  apply (run_replay opts fp n' body t1 r None Hk Hr Hf).
  - by rewrite He.
  - done.
  - rewrite Hbody, decode_not_blank by apply truncated_not_blank. apply Hj.
Qed.

(** ** Failures *)

Lemma run_failed opts fp n e t :
  keyed opts fp -> it_rows t !! store_key opts = None -> table_ok t ->
  ∃ t1 r, run n (Err e) (Execute opts) t = (Err e, t1, 1%nat) /\
    it_rows t1 !! store_key opts = Some r /\ ir_RequestFingerprint r = fp /\
    ir_ID r ≠ 0 /\ ir_Status r = IdempotencyStatusFailedRetryable /\
    ir_LockedUntil r = Some (time_add n (FailedRetryBackoff cfg)) /\ ir_ExpiresAt r = expiry_of opts n.
Proof.
  intros Hk Hnone Hok. destruct (run_new opts fp n (Err e) t Hk Hnone Hok) as (r & Hr & Hid & Hf & ->).
  pose proof (to_next _ Hok). rewrite run_claimed_err by lia.
  eexists _, _. split; [done|]. split.
  - unfold MarkFailedRetryable. apply update_key; [exact Hr|]. by rewrite Hid, Z.eqb_refl.
  - cbn. split_and!; [done|lia|done..].
Qed.

Lemma by_status_failed n l e r backoff :
  ir_Status r = IdempotencyStatusFailedRetryable -> ir_LockedUntil r = Some backoff ->
  by_status n l e r =
    if after backoff n then Ret (Err (conflictWithRetryAfter ErrIdempotencyRetryBackoff (Some backoff) n))
    else Do (CReclaim (ir_ID r) IdempotencyStatusFailedRetryable n l e)
            (after_retry_reclaim json_Marshal RedactText cfg n e r).
Proof. intros Hs Hl. unfold Idempotency.by_status. by rewrite Hs, Hl. Qed.

(** A record that is taken over, and the work run. *)
Lemma run_taken n d s exp r from now l t key (k : result bool -> prog Data Outcome) :
  it_rows t !! key = Some r -> can_reclaim (ir_ID r) from now r = true -> ir_ID r ≠ 0 ->
  k (Ok true) = claimed exp (ir_ID r) -> stored d = Some s ->
  ∃ t1 r1, run n (Ok d) (Do (CReclaim (ir_ID r) from now l exp) k) t = (fresh d, t1, 1%nat) /\
    it_rows t1 !! key = Some r1 /\ ir_ID r1 = ir_ID r /\ ir_Status r1 = IdempotencyStatusSucceeded /\
    ir_LockedUntil r1 = None /\ ir_ExpiresAt r1 = exp.
Proof.
  intros Hr Hc Hid Hk Hs. destruct (reclaim_hits n (ir_ID r) from now l exp t key r Hr Hc) as [Ht Hr1].
  erewrite run_do by (cbn [perform]; rewrite Ht; reflexivity). rewrite Hk, (run_claimed_ok _ _ s) by done.
  eexists _, _. split; [done|]. split.
  - unfold MarkSucceeded. apply update_key; [exact Hr1|]. apply Z.eqb_refl.
  - done.
Qed.

(** A failure backs off and is then retried.  When the work of the first
    request of a key fails, the request gets the error of the work.  Until the
    backoff is over, a repetition is refused with the time left and runs no
    work; from then on, and before the record expires, a repetition takes the
    record over, runs the work and gets its response. *)
Theorem failure_backs_off opts fp n e t d s :
  keyed opts fp -> it_rows t !! store_key opts = None -> table_ok t -> stored d = Some s ->
  ∃ t1, run n (Err e) (Execute opts) t = (Err e, t1, 1%nat) /\
    ∀ n', t_ns n' < t_ns (expiry_of opts n) ->
      (t_ns n' < t_ns n + FailedRetryBackoff cfg ->
       run n' (Ok d) (Execute opts) t1 =
         (Err (conflictWithRetryAfter ErrIdempotencyRetryBackoff (Some (time_add n (FailedRetryBackoff cfg))) n'),
          drawn t1, 0%nat)) /\
      (t_ns n + FailedRetryBackoff cfg <= t_ns n' ->
       ∃ t2, run n' (Ok d) (Execute opts) t1 = (fresh d, t2, 1%nat)).
Proof.
  intros Hk Hnone Hok Hs. destruct (run_failed opts fp n e t Hk Hnone Hok) as (t1 & r & Hrun & Hr & Hf & Hid & Hst & Hl & He).
  exists t1. split; [done|]. intros n' Hn. rewrite (run_live opts fp n' (Ok d) t1 r Hk Hr Hf) by (by rewrite He).
  rewrite (by_status_failed _ _ _ _ _ Hst Hl). unfold after; cbn [t_ns time_add].
  split; intros Hb.
  - rewrite (proj2 (Z.ltb_lt _ _) Hb). done.
  - rewrite (proj2 (Z.ltb_ge _ _) Hb).
    destruct (run_taken n' d s (expiry_of opts n') r IdempotencyStatusFailedRetryable n' (lock_of n') (drawn t1)
      (store_key opts) (after_retry_reclaim json_Marshal RedactText cfg n' (expiry_of opts n') r))
      as (t2 & r2 & Ht2 & _); [done| |done|reflexivity|done|by exists t2].
    unfold can_reclaim. rewrite Z.eqb_refl, Hst, Hl. unfold unlocked_at, after; cbn [t_ns time_add].
    by rewrite (proj2 (Z.ltb_ge _ _) Hb).
Qed.

(** A record whose processing never ended blocks its key until it expires,
    although the lock on it was over: only an expired or a failed record is
    taken over. *)
Lemma processing_blocks opts fp n body t r :
  keyed opts fp -> it_rows t !! store_key opts = Some r -> ir_RequestFingerprint r = fp ->
  ir_Status r = IdempotencyStatusProcessing -> t_ns n < t_ns (ir_ExpiresAt r) ->
  run n body (Execute opts) t =
  (Err (conflictWithRetryAfter ErrIdempotencyInProgress (ir_LockedUntil r) n), drawn t, 0%nat).
Proof.
  intros Hk Hr Hf Hs He. rewrite (run_live _ _ _ _ _ _ Hk Hr Hf He). unfold Idempotency.by_status. by rewrite Hs.
Qed.

(** ** A stale reclaim *)

Fixpoint advances (k : nat) (n : time) (body : result Data) (p : prog Data Outcome) (t : IdemTable)
  : option (prog Data Outcome * IdemTable) :=
  match k with
  | O => Some (p, t)
  | S k => match advance n body p t with Some (p', t') => advances k n body p' t' | None => None end
  end.

(** A stale reclaim repeats finished work.  Take an expired record of a
    success.  Request B reads it; request A, with the same key and payload,
    takes the record over, runs the work and stores its response, in a record
    that is live again.  The reclaim B then executes compares the status it
    read and the lock, both as before, but not the expiry: it succeeds, and B
    runs the work a second time instead of replaying A's response. *)
Theorem stale_reclaim_repeats_work opts fp nB nA n' dA dB sA sB t r :
  keyed opts fp -> it_rows t !! store_key opts = Some r -> ir_RequestFingerprint r = fp -> ir_ID r ≠ 0 ->
  ir_Status r = IdempotencyStatusSucceeded -> ir_LockedUntil r = None ->
  t_ns (ir_ExpiresAt r) <= t_ns nB -> t_ns (ir_ExpiresAt r) <= t_ns nA ->
  stored dA = Some sA -> stored dB = Some sB ->
  ∃ pB tB tA rA tB', advances 3 nB (Ok dB) (Execute opts) t = Some (pB, tB) /\
    run nA (Ok dA) (Execute opts) tB = (fresh dA, tA, 1%nat) /\
    it_rows tA !! store_key opts = Some rA /\ ir_Status rA = IdempotencyStatusSucceeded /\
    ir_ExpiresAt rA = expiry_of opts nA /\
    run n' (Ok dB) pB tA = (fresh dB, tB', 1%nat).
Proof.
  intros Hk Hr Hf Hid Hs Hl HeB HeA HsA HsB.
  destruct (run_taken nA dA sA (expiry_of opts nA) r (ir_Status r) nA (lock_of nA) (drawn (drawn t)) (store_key opts)
    (after_expired_reclaim json_Marshal json_Unmarshal RedactText empty_object cfg (io_Scope opts)
       (key_hash sha256_hex opts) fp nA (lock_of nA) (expiry_of opts nA) r))
    as (tA & rA & HrunA & HrA & HidA & HstA & HlA & HeA'); [done| |done..|].
  { unfold can_reclaim. by rewrite Z.eqb_refl, String.eqb_refl, Hl. }
  destruct (run_taken n' dB sB (expiry_of opts nB) rA (ir_Status r) nB (lock_of nB) tA (store_key opts)
    (after_expired_reclaim json_Marshal json_Unmarshal RedactText empty_object cfg (io_Scope opts)
       (key_hash sha256_hex opts) fp nB (lock_of nB) (expiry_of opts nB) r))
    as (tB' & _ & HrunB & _); [done| |congruence| |done|].
  { unfold can_reclaim. by rewrite Z.eqb_refl, HstA, Hs, HlA. }
  { cbn [after_expired_reclaim]. by rewrite HidA. }
  exists (Do (CReclaim (ir_ID rA) (ir_Status r) nB (lock_of nB) (expiry_of opts nB))
            (after_expired_reclaim json_Marshal json_Unmarshal RedactText empty_object cfg (io_Scope opts)
               (key_hash sha256_hex opts) fp nB (lock_of nB) (expiry_of opts nB) r)), (drawn t), tA, rA, tB'.
  split_and!; [|..|done|done|done|done].
  - rewrite (Execute_keyed _ _ Hk). cbn [advances advance perform Idempotency.claim].
    rewrite (create_known nB _ t r) by exact Hr. cbn [after_create advance perform].
    unfold GetByScopeAndKeyHash. cbn [it_rows drawn]. unfold store_key in Hr. rewrite Hr. cbn [after_get].
    rewrite Hf, String.eqb_refl; cbn [negb]. unfold after. rewrite (proj2 (Z.ltb_ge _ _) HeB), HidA. done.
  - rewrite (run_known opts fp nA (Ok dA) (drawn t) r Hk Hr). cbn [after_get].
    rewrite Hf, String.eqb_refl; cbn [negb]. unfold after. rewrite (proj2 (Z.ltb_ge _ _) HeA). done.
Qed.
End Outcomes.

(** ** The lock of system operations *)

Section SystemLock.
Context {Data : Type} (sha256_hex : string -> string) (s : SystemOperationLockService).
#[local] Abbreviation Acquire := (Acquire (Data := Data) sha256_hex s).
#[local] Abbreviation renew := (renew (Data := Data) s).
#[local] Abbreviation Release := (Release (Data := Data) s).

Definition lock_key : string * string :=
  (systemOperationLockScope, HashIdempotencyKey sha256_hex systemOperationLockKey).

(** The row of the lock while an operation holds it, and what others are told. *)
Definition held (r : IdempotencyRecord) (n : time) : bool :=
  String.eqb (ir_Status r) IdempotencyStatusProcessing &&
  match ir_LockedUntil r with Some l => after l n | None => false end.

Lemma Acquire_held op n body t r :
  op ≠ EmptyString -> it_rows t !! lock_key = Some r -> held r n = true ->
  run n body (Acquire op) t =
  (Err (busyError (ir_RequestFingerprint r) (ir_LockedUntil r) n), drawn t, 0%nat).
Proof.
  intros Hop%str_empty_false Hr Hh. unfold Idempotency.Acquire. rewrite Hop. cbn [run perform].
  rewrite (create_known n _ t r) by exact Hr. cbn [run perform]. unfold GetByScopeAndKeyHash. cbn [it_rows drawn].
  unfold lock_key in Hr. rewrite Hr. unfold held in Hh. by rewrite Hh.
Qed.

Lemma Acquire_free op n body t r :
  op ≠ EmptyString -> it_rows t !! lock_key = Some r -> unlocked_at n (ir_LockedUntil r) = true -> ir_ID r ≠ 0 ->
  ∃ t1, run n body (Acquire op) t = (Ok {| lk_recordID := ir_ID r; lk_operationID := op |}, t1, 0%nat) /\
    t1 = (TryReclaim n (ir_ID r) (ir_Status r) n (time_add n (ls_lease s)) (time_add n (ls_ttl s)) (drawn t)).2 /\
    it_rows t1 !! lock_key = Some (reclaimed n (time_add n (ls_lease s)) (time_add n (ls_ttl s)) r).
Proof.
  intros Hop%str_empty_false Hr Hu Hid.
  destruct (reclaim_hits n (ir_ID r) (ir_Status r) n (time_add n (ls_lease s)) (time_add n (ls_ttl s)) (drawn t)
    lock_key r) as [Ht Hr1]; [done| |].
  { unfold can_reclaim. by rewrite Z.eqb_refl, String.eqb_refl, Hu. }
  eexists. split; [|split; [reflexivity|exact Hr1]].
  unfold Idempotency.Acquire. rewrite Hop. cbn [run perform].
  rewrite (create_known n _ t r) by exact Hr. cbn [run perform]. unfold GetByScopeAndKeyHash. cbn [it_rows drawn].
  unfold lock_key in Hr. rewrite Hr.
  assert (match ir_LockedUntil r with Some l => after l n | None => false end = false) as ->.
  { unfold unlocked_at in Hu. destruct (ir_LockedUntil r); [by apply negb_true_iff|done]. }
  rewrite andb_false_r. cbn [run perform]. rewrite Ht. unfold acquired.
  by rewrite (proj2 (Z.eqb_neq _ _) Hid).
Qed.

Lemma Acquire_new op n body t :
  op ≠ EmptyString -> it_rows t !! lock_key = None -> table_ok t ->
  ∃ t1 r, run n body (Acquire op) t = (Ok {| lk_recordID := it_next t; lk_operationID := op |}, t1, 0%nat) /\
    it_rows t1 !! lock_key = Some r /\ ir_ID r = it_next t /\ ir_RequestFingerprint r = op /\
    ir_Status r = IdempotencyStatusProcessing /\ ir_LockedUntil r = Some (time_add n (ls_lease s)).
Proof.
  intros Hop%str_empty_false Hnone Hok. pose proof (to_next _ Hok). unfold Idempotency.Acquire. rewrite Hop.
  cbn [run perform]. unfold CreateProcessing. cbn [ir_Scope ir_IdempotencyKeyHash new_record].
  unfold lock_key in Hnone. rewrite Hnone. unfold acquired. rewrite (proj2 (Z.eqb_neq (it_next t) 0)) by lia.
  eexists _, _. split; [done|]. split; [cbn; apply lookup_insert_eq|done].
Qed.

Lemma held_until r n l : ir_Status r = IdempotencyStatusProcessing -> ir_LockedUntil r = Some l ->
  t_ns n < t_ns l -> held r n = true.
Proof. intros Hs Hl Hn. unfold held, after. rewrite Hs, Hl. cbn. by apply Z.ltb_lt. Qed.

Lemma renew_owner r op n body t :
  it_rows t !! lock_key = Some r -> ir_Status r = IdempotencyStatusProcessing -> ir_RequestFingerprint r = op ->
  ∃ t1, run n body (renew {| lk_recordID := ir_ID r; lk_operationID := op |}) t = (true, t1, 0%nat) /\
    it_rows t1 !! lock_key = Some (extended n (time_add n (ls_lease s)) (time_add n (ls_ttl s)) r).
Proof.
  intros Hr Hs Hf. unfold Idempotency.renew. cbn [run perform lk_recordID lk_operationID]. unfold ExtendProcessingLock.
  set (p := λ x, _ && _ && _). set (f := extended _ _ _).
  assert (p r = true) as Hp by (unfold p; by rewrite Z.eqb_refl, Hs, Hf, !String.eqb_refl).
  assert ((update_rows p f t).1 = true) as Hb by (apply update_affected; eauto).
  rewrite (surjective_pairing (update_rows p f t)), Hb. eexists. split; [done|]. by apply update_key.
Qed.

(** A renewal by an operation the row does not name. *)
Lemma renew_stranger r op n body t :
  it_rows t !! lock_key = Some r -> (∀ key x, it_rows t !! key = Some x -> ir_ID x = ir_ID r -> key = lock_key) ->
  ir_RequestFingerprint r ≠ op ->
  run n body (renew {| lk_recordID := ir_ID r; lk_operationID := op |}) t = (false, t, 0%nat).
Proof.
  intros Hr Hu Hne. unfold Idempotency.renew. cbn [run perform lk_recordID lk_operationID]. unfold ExtendProcessingLock.
  rewrite update_rows_nothing; [done|]. intros key x Hx.
  destruct (Z.eqb_spec (ir_ID x) (ir_ID r)) as [E|]; [|done]. rewrite (Hu key x Hx E) in Hx.
  assert (x = r) as -> by congruence. by rewrite (proj2 (String.eqb_neq _ _) Hne), andb_false_r.
Qed.

(** The first operation to take the system lock holds it: until its lease
    is over every other operation is refused as busy, with its identifier; a
    renewal succeeds and starts a new lease; and after its release, with
    success or failure, the next operation gets the lock. *)
Theorem lock_held_until_released op n t body :
  op ≠ EmptyString -> it_rows t !! lock_key = None -> table_ok t ->
  let lock := {| lk_recordID := it_next t; lk_operationID := op |} in
  ∃ t1, run n body (Acquire op) t = (Ok lock, t1, 0%nat) /\
    ∀ n' op', op' ≠ EmptyString ->
      (t_ns n' < t_ns n + ls_lease s -> run n' body (Acquire op') t1 =
         (Err (busyError op (Some (time_add n (ls_lease s))) n'), drawn t1, 0%nat)) /\
      (∃ t2, run n' body (renew lock) t1 = (true, t2, 0%nat) /\
         ∀ n'', t_ns n'' < t_ns n' + ls_lease s -> run n'' body (Acquire op') t2 =
           (Err (busyError op (Some (time_add n' (ls_lease s))) n''), drawn t2, 0%nat)) /\
      (∀ ok reason, ∃ t2, run n' body (Release lock ok reason) t1 = (Ok tt, t2, 0%nat) /\
         ∀ n'', t_ns n' <= t_ns n'' -> ∃ t3, run n'' body (Acquire op') t2 =
           (Ok {| lk_recordID := it_next t; lk_operationID := op' |}, t3, 0%nat)).
Proof.
  intros Hop Hnone Hok lock. pose proof (to_next _ Hok) as Hnx.
  destruct (Acquire_new op n body t Hop Hnone Hok) as (t1 & r & Hrun & Hr & Hid & Hf & Hs & Hl).
  exists t1. split; [exact Hrun|]. intros n' op' Hop'. split_and!.
  - intros Hn. rewrite (Acquire_held op' n' body t1 r Hop' Hr); [by rewrite Hf, Hl|by eapply held_until].
  - destruct (renew_owner r op n' body t1 Hr Hs Hf) as (t2 & Ht2 & Hr2). exists t2. unfold lock. rewrite <- Hid.
    split; [exact Ht2|]. intros n'' Hn. rewrite (Acquire_held op' n'' body t2 _ Hop' Hr2).
    + cbn. by rewrite Hf.
    + by eapply held_until.
  - intros ok reason. assert (∃ t2 r2, run n' body (Release lock ok reason) t1 = (Ok tt, t2, 0%nat) /\
      it_rows t2 !! lock_key = Some r2 /\ ir_ID r2 = it_next t /\
      ∀ n'', t_ns n' <= t_ns n'' -> unlocked_at n'' (ir_LockedUntil r2) = true) as (t2 & r2 & Ht2 & Hr2 & Hid2 & Hu2).
    { unfold Idempotency.Release. destruct ok; cbn [run perform].
      - eexists _, _. split; [reflexivity|]. split; [apply update_key; [exact Hr|by apply Z.eqb_eq]|]. done.
      - eexists _, _. split; [reflexivity|]. split; [apply update_key; [exact Hr|by apply Z.eqb_eq]|].
        split; [exact Hid|]. intros n'' Hn. unfold unlocked_at, after; cbn. by rewrite (proj2 (Z.ltb_ge _ _) Hn). }
    exists t2. split; [exact Ht2|]. intros n'' Hn. rewrite <- Hid2.
    destruct (Acquire_free op' n'' body t2 r2 Hop' Hr2 (Hu2 n'' Hn)) as (t3 & Ht3 & _); [lia|]. by exists t3.
Qed.

(** A lock taken over is not renewed.  When the row of the lock is left
    from an earlier operation, [Acquire] takes it over but leaves that
    operation's identifier in it.  Every renewal of the new holder then finds
    no row, so the renewal loop ends at once, as if the lock were lost; and
    when the first lease is over a third operation gets the lock, whatever the
    holder still does. *)
Theorem reclaimed_lock_not_renewed op op' n n' t r body :
  op ≠ EmptyString -> op' ≠ EmptyString -> table_ok t -> it_rows t !! lock_key = Some r ->
  ir_RequestFingerprint r ≠ op -> unlocked_at n (ir_LockedUntil r) = true ->
  t_ns n + ls_lease s <= t_ns n' ->
  let lock := {| lk_recordID := ir_ID r; lk_operationID := op |} in
  ∃ t1, run n body (Acquire op) t = (Ok lock, t1, 0%nat) /\
    (∀ n1, run n1 body (renew lock) t1 = (false, t1, 0%nat)) /\
    ∃ t2, run n' body (Acquire op') t1 =
      (Ok {| lk_recordID := ir_ID r; lk_operationID := op' |}, t2, 0%nat).
Proof.
  intros Hop Hop' Hok Hr Hf Hu Hn lock.
  assert (ir_ID r ≠ 0) as Hid by (pose proof (to_ids _ Hok _ _ Hr); lia).
  destruct (Acquire_free op n body t r Hop Hr Hu Hid) as (t1 & Hrun & Ht1 & Hr1).
  assert (table_ok t1) as Hok1 by (rewrite Ht1; apply update_ok; [done|by apply drawn_ok]).
  exists t1. split; [exact Hrun|]. split.
  - intros n1. apply (renew_stranger (reclaimed n (time_add n (ls_lease s)) (time_add n (ls_ttl s)) r));
      [exact Hr1| |exact Hf]. intros key x Hx E. by eapply (to_unique _ Hok1).
  - destruct (Acquire_free op' n' body t1 _ Hop' Hr1) as (t2 & Ht2 & _).
    + unfold unlocked_at, after; cbn. by rewrite (proj2 (Z.ltb_ge _ _) Hn).
    + exact Hid.
    + by exists t2.
Qed.
End SystemLock.

(** ** Concrete requests *)

Section Samples.
#[local] Existing Instance ascii_only_case.

Definition sample_fp : string := match BuildIdempotencyFingerprint Some id "POST" "/orders" "user:1" "p" with
  | Ok f => f | Err _ => EmptyString end.
Lemma sample_keyed : keyed Some id sample_opts sample_fp.
Proof. exists "k1"%string. by vm_compute. Qed.

(** A parser that refuses what ends with the mark of a cut response. *)
Definition strict_Unmarshal (s : string) : option string :=
  if HasSuffix s "...(truncated)" then None else Some s.
Lemma strict_refuses s : strict_Unmarshal (s ++ "...(truncated)")%string = None.
Proof.
  unfold strict_Unmarshal. rewrite (proj2 (HasSuffix_spec _ _)); [done|]. exists (to_bytes s). apply to_bytes_app.
Qed.

Definition small_config : IdempotencyConfig := {|
  DefaultTTL := 24 * hour; SystemOperationTTL := hour; ProcessingTimeout := 30 * second;
  FailedRetryBackoff := 5 * second; MaxStoredResponseLen := 4; ObserveOnly := false |}.

Definition old_success : IdempotencyRecord := {|
  ir_ID := 1; ir_Scope := "orders"; ir_IdempotencyKeyHash := "k1"; ir_RequestFingerprint := sample_fp;
  ir_Status := IdempotencyStatusSucceeded; ir_ResponseStatus := Some 200; ir_ResponseBody := Some "done"%string;
  ir_ErrorReason := None; ir_LockedUntil := None; ir_ExpiresAt := sample_time 10;
  ir_CreatedAt := sample_time 0; ir_UpdatedAt := sample_time 0 |}.
Definition old_lock : IdempotencyRecord := {|
  ir_ID := 1; ir_Scope := systemOperationLockScope; ir_IdempotencyKeyHash := systemOperationLockKey;
  ir_RequestFingerprint := "first"; ir_Status := IdempotencyStatusSucceeded; ir_ResponseStatus := Some 200;
  ir_ResponseBody := None; ir_ErrorReason := None; ir_LockedUntil := None; ir_ExpiresAt := sample_time 10;
  ir_CreatedAt := sample_time 0; ir_UpdatedAt := sample_time 0 |}.
Definition one_row (r : IdempotencyRecord) : IdemTable :=
  {| it_rows := {[ row_key r := r ]}; it_next := 2 |}.

Lemma one_row_ok r : ir_ID r = 1 -> table_ok (one_row r).
Proof.
  intros Hid. split; cbn; [| |lia].
  - intros key x [_ <-]%lookup_singleton_Some. lia.
  - by intros k1 k2 r1 r2 [<- _]%lookup_singleton_Some [<- _]%lookup_singleton_Some.
Qed.

Lemma sample_accepted : accepted Some sample_opts "p".
Proof. split; [by exists "k1"%string|done|done|..]; repeat constructor; discriminate. Qed.

(** The same order again, and an order of another user under the same key. *)
Definition other_user : IdempotencyExecuteOptions string :=
  Build_IdempotencyExecuteOptions string (io_Scope sample_opts) "user:2" (io_Method sample_opts) (io_Route sample_opts)
    (io_IdempotencyKey sample_opts) (io_Payload sample_opts) (io_TTL sample_opts) (io_RequireKey sample_opts).
Lemma key_answers_once_witness :
  ∃ t1, run (sample_time 0) (Ok "done"%string)
      (Execute Some Some id id EmptyString small_config true true sample_opts) empty_table = (fresh "done"%string, t1, 1%nat) /\
    run (sample_time 1) (Ok "again"%string)
      (Execute Some Some id id EmptyString small_config true true sample_opts) t1
      = (replayed "done"%string, drawn t1, 0%nat) /\
    run (sample_time 1) (Ok "again"%string)
      (Execute Some Some id id EmptyString small_config true true other_user) t1
      = (Err ErrIdempotencyKeyConflict, drawn t1, 0%nat).
Proof.
  destruct (key_answers_once Some Some id id EmptyString small_config sample_opts "p" (sample_time 0)
    "done"%string "done"%string "done"%string empty_table) as (t1 & Hrun & Hnext).
  - apply sample_accepted.
  - done.
  - apply empty_table_ok.
  - done.
  - right. by vm_compute.
  - by vm_compute.
  - done.
  - exists t1. split_and!; [exact Hrun|..].
    + apply (Hnext (sample_time 1) (Ok "again"%string) sample_opts "p"%string);
        [by vm_compute|apply sample_accepted|done|done].
    + apply (Hnext (sample_time 1) (Ok "again"%string) other_user "p"%string); [by vm_compute| |done|..].
      * split; [by exists "k1"%string|done|done|..]; repeat constructor; discriminate.
      * by intros [_ _ ? _].
      * by intros [_ ?].
Defined.

Lemma truncated_response_never_replays_witness :
  ∃ t1, run (sample_time 0) (Ok "a long response"%string)
      (Execute Some strict_Unmarshal id id EmptyString small_config true true sample_opts) empty_table
        = (fresh "a long response"%string, t1, 1%nat) /\
    ∀ n' body, t_ns n' < t_ns (expiry_of small_config sample_opts (sample_time 0)) ->
      ∃ cause, run n' body (Execute Some strict_Unmarshal id id EmptyString small_config true true sample_opts) t1 =
        (Err (with_cause ErrIdempotencyStoreUnavail cause), drawn t1, 0%nat).
Proof.
  apply (truncated_response_never_replays Some strict_Unmarshal id id EmptyString small_config sample_opts sample_fp
    (sample_time 0) "a long response"%string "a long response"%string).
  - apply strict_refuses.
  - apply sample_keyed.
  - done.
  - apply empty_table_ok.
  - done.
  - split; by vm_compute.
Defined.

Lemma failure_backs_off_witness :
  ∃ t1, run (sample_time 0) (Err (EPlain "boom"))
      (Execute Some Some id id EmptyString small_config true true sample_opts) empty_table = (Err (EPlain "boom"), t1, 1%nat) /\
    ∀ n', t_ns n' < t_ns (expiry_of small_config sample_opts (sample_time 0)) ->
      (t_ns n' < t_ns (sample_time 0) + FailedRetryBackoff small_config ->
       run n' (Ok "done"%string) (Execute Some Some id id EmptyString small_config true true sample_opts) t1 =
         (Err (conflictWithRetryAfter ErrIdempotencyRetryBackoff
                 (Some (time_add (sample_time 0) (FailedRetryBackoff small_config))) n'), drawn t1, 0%nat)) /\
      (t_ns (sample_time 0) + FailedRetryBackoff small_config <= t_ns n' ->
       ∃ t2, run n' (Ok "done"%string) (Execute Some Some id id EmptyString small_config true true sample_opts) t1
               = (fresh "done"%string, t2, 1%nat)).
Proof.
  apply (failure_backs_off Some Some id id EmptyString small_config sample_opts sample_fp (sample_time 0)
    (EPlain "boom") empty_table "done"%string "done"%string).
  - apply sample_keyed.
  - done.
  - apply empty_table_ok.
  - by vm_compute.
Defined.

Lemma stale_reclaim_repeats_work_witness :
  ∃ pB tB tA rA tB',
    advances 3 (sample_time 11) (Ok "b"%string)
      (Execute Some Some id id EmptyString small_config true true sample_opts) (one_row old_success) = Some (pB, tB) /\
    run (sample_time 12) (Ok "a"%string)
      (Execute Some Some id id EmptyString small_config true true sample_opts) tB = (fresh "a"%string, tA, 1%nat) /\
    it_rows tA !! store_key id sample_opts = Some rA /\ ir_Status rA = IdempotencyStatusSucceeded /\
    ir_ExpiresAt rA = expiry_of small_config sample_opts (sample_time 12) /\
    run (sample_time 13) (Ok "b"%string) pB tA = (fresh "b"%string, tB', 1%nat).
Proof.
  apply (stale_reclaim_repeats_work Some Some id id EmptyString small_config sample_opts sample_fp
    (sample_time 11) (sample_time 12) (sample_time 13) "a"%string "b"%string "a"%string "b"%string
    (one_row old_success) old_success).
  - apply sample_keyed.
  - by vm_compute.
  - done.
  - done.
  - done.
  - done.
  - by vm_compute.
  - by vm_compute.
  - by vm_compute.
  - by vm_compute.
Defined.

Definition sample_service : SystemOperationLockService := NewSystemOperationLockService small_config.

Lemma lock_held_until_released_witness :
  ∃ t1, run (Data := string) (sample_time 0) (Err (EPlain "none")) (Acquire id sample_service "op1") empty_table
    = (Ok {| lk_recordID := 1; lk_operationID := "op1" |}, t1, 0%nat) /\
    run (Data := string) (sample_time 1) (Err (EPlain "none")) (Acquire id sample_service "op2") t1
    = (Err (busyError "op1" (Some (time_add (sample_time 0) (ls_lease sample_service))) (sample_time 1)), drawn t1, 0%nat).
Proof.
  destruct (lock_held_until_released (Data := string) id sample_service "op1" (sample_time 0) empty_table
    (Err (EPlain "none"))) as (t1 & H1 & H2); [done|done|apply empty_table_ok|].
  exists t1. split; [exact H1|]. apply (H2 (sample_time 1) "op2"%string); [done|by vm_compute].
Defined.

Lemma reclaimed_lock_not_renewed_witness :
  ∃ t1, run (Data := string) (sample_time 20) (Err (EPlain "none")) (Acquire id sample_service "second") (one_row old_lock)
      = (Ok {| lk_recordID := 1; lk_operationID := "second" |}, t1, 0%nat) /\
    run (Data := string) (sample_time 30) (Err (EPlain "none"))
      (renew sample_service {| lk_recordID := 1; lk_operationID := "second" |}) t1 = (false, t1, 0%nat).
Proof.
  destruct (reclaimed_lock_not_renewed (Data := string) id sample_service "second" "third" (sample_time 20)
    (sample_time (31 * second)) (one_row old_lock) old_lock (Err (EPlain "none"))) as (t1 & H1 & H2 & _);
    [done|done|by apply one_row_ok|by vm_compute|done|done|by vm_compute|].
  exists t1. split; [exact H1|apply H2].
Defined.
End Samples.
