(* ===== verification/Redis.v ===== *)
(** * Redis as the caches use it

    Sorted sets, integer counters and strings under keys that may expire, and
    the clock of the server, which [TIME] reads.  The clock is in milliseconds;
    a key whose time is over is treated as absent by every command, and an
    empty sorted set is no key.  Keys of the three kinds have different
    prefixes in the code, so each kind has its own map.  Scores are integers:
    the caches only use times and counts. *)

From S2P Require Import Prelude GoStrings.

Record entry (A : Type) := { en_val : A; en_exp : option Z }.
Arguments en_val {A}. Arguments en_exp {A}. Arguments Build_entry {A}.

Abbreviation zset_t := (gmap string Z).

Record Redis := {
  rd_now : Z;
  rd_sets : gmap string (entry zset_t);
  rd_ints : gmap string (entry Z);
  rd_strs : gmap string (entry string)
}.
Definition empty_redis (now : Z) : Redis := {| rd_now := now; rd_sets := ∅; rd_ints := ∅; rd_strs := ∅ |}.

Definition alive {A} (now : Z) (e : entry A) : bool :=
  match en_exp e with Some x => now <=? x | None => true end.
Definition live {A} (now : Z) (m : gmap string (entry A)) (k : string) : option (entry A) :=
  match m !! k with Some e => if alive now e then Some e else None | None => None end.

(** [TIME], in seconds and in milliseconds. *)
Definition TIME (r : Redis) : Z := rd_now r / 1000.
Definition TIME_ms (r : Redis) : Z := rd_now r.
Definition tick (d : Z) (r : Redis) : Redis :=
  {| rd_now := rd_now r + d; rd_sets := rd_sets r; rd_ints := rd_ints r; rd_strs := rd_strs r |}.

Definition with_sets (m : gmap string (entry zset_t)) (r : Redis) : Redis :=
  {| rd_now := rd_now r; rd_sets := m; rd_ints := rd_ints r; rd_strs := rd_strs r |}.
Definition with_ints (m : gmap string (entry Z)) (r : Redis) : Redis :=
  {| rd_now := rd_now r; rd_sets := rd_sets r; rd_ints := m; rd_strs := rd_strs r |}.
Definition with_strs (m : gmap string (entry string)) (r : Redis) : Redis :=
  {| rd_now := rd_now r; rd_sets := rd_sets r; rd_ints := rd_ints r; rd_strs := m |}.

(** The time a living key expires at. *)
Definition expiry {A} (now : Z) (m : gmap string (entry A)) (k : string) : option Z :=
  match live now m k with Some e => en_exp e | None => None end.

(** ** Sorted sets *)

Definition zset (k : string) (r : Redis) : zset_t :=
  match live (rd_now r) (rd_sets r) k with Some e => en_val e | None => ∅ end.
Definition set_zset (k : string) (s : zset_t) (r : Redis) : Redis :=
  with_sets (if decide (s = ∅) then delete k (rd_sets r)
             else <[k := {| en_val := s; en_exp := expiry (rd_now r) (rd_sets r) k |}]> (rd_sets r)) r.

Definition ZSCORE (k m : string) (r : Redis) : option Z := zset k r !! m.
Definition ZCARD (k : string) (r : Redis) : Z := Z.of_nat (size (zset k r)).
Definition ZADD (k : string) (score : Z) (m : string) (r : Redis) : Redis :=
  set_zset k (<[m := score]> (zset k r)) r.
Definition ZREM (k m : string) (r : Redis) : Redis := set_zset k (delete m (zset k r)) r.
Definition above (cutoff : Z) (s : zset_t) : zset_t := filter (λ kv, (cutoff <? kv.2) = true) s.
(** [ZREMRANGEBYSCORE key -inf cutoff] *)
Definition ZREMRANGEBYSCORE (k : string) (cutoff : Z) (r : Redis) : Redis :=
  set_zset k (above cutoff (zset k r)) r.

(** [ZRANGE key 0 -1] and [ZRANGEBYSCORE key -inf max LIMIT 0 count]: by score,
    then in the byte order of the members. *)
Definition member_less (a b : string * Z) : bool :=
  (a.2 <? b.2) || ((a.2 =? b.2) && String.ltb a.1 b.1).
Definition ZRANGE (k : string) (r : Redis) : list string :=
  map fst (stable_sort member_less (map_to_list (zset k r))).
Definition ZRANGEBYSCORE (k : string) (max : Z) (count : nat) (r : Redis) : list string :=
  map fst (take count (stable_sort member_less
    (filterb (λ kv, kv.2 <=? max) (map_to_list (zset k r))))).

(** [EXPIRE] of a sorted set; a time to live that is not positive deletes. *)
Definition expire_at {A} (now ttl_ms : Z) (m : gmap string (entry A)) (k : string) : gmap string (entry A) :=
  match live now m k with
  | None => m
  | Some e => if ttl_ms <=? 0 then delete k m
              else <[k := {| en_val := en_val e; en_exp := Some (now + ttl_ms) |}]> m
  end.
Definition EXPIRE (k : string) (ttl : Z) (r : Redis) : Redis :=
  with_sets (expire_at (rd_now r) (1000 * ttl) (rd_sets r) k) r.
Definition DEL_set (k : string) (r : Redis) : Redis := with_sets (delete k (rd_sets r)) r.

(** ** Counters *)

Definition GET (k : string) (r : Redis) : option Z :=
  match live (rd_now r) (rd_ints r) k with Some e => Some (en_val e) | None => None end.
Definition put_int (k : string) (v : Z) (r : Redis) : Redis :=
  with_ints (<[k := {| en_val := v; en_exp := expiry (rd_now r) (rd_ints r) k |}]> (rd_ints r)) r.
Definition INCR (k : string) (r : Redis) : Z * Redis :=
  let v := default 0 (GET k r) + 1 in (v, put_int k v r).
Definition DECR (k : string) (r : Redis) : Z * Redis :=
  let v := default 0 (GET k r) - 1 in (v, put_int k v r).
Definition EXPIRE_int (k : string) (ttl : Z) (r : Redis) : Redis :=
  with_ints (expire_at (rd_now r) (1000 * ttl) (rd_ints r) k) r.
Definition DEL_int (k : string) (r : Redis) : Redis := with_ints (delete k (rd_ints r)) r.
(** [SET key value EX ttl] *)
Definition SET_int (k : string) (v ttl : Z) (r : Redis) : Redis :=
  with_ints (<[k := {| en_val := v; en_exp := Some (rd_now r + 1000 * ttl) |}]> (rd_ints r)) r.

(** ** Strings *)

Definition GET_str (k : string) (r : Redis) : option string :=
  match live (rd_now r) (rd_strs r) k with Some e => Some (en_val e) | None => None end.
Definition SET_str (k v : string) (ttl_ms : option Z) (r : Redis) : Redis :=
  with_strs (<[k := {| en_val := v; en_exp := (λ t, rd_now r + t) <$> ttl_ms |}]> (rd_strs r)) r.
Definition DEL_str (k : string) (r : Redis) : Redis := with_strs (delete k (rd_strs r)) r.
Definition PEXPIRE_str (k : string) (ttl_ms : Z) (r : Redis) : Redis :=
  with_strs (expire_at (rd_now r) ttl_ms (rd_strs r) k) r.
(** [PTTL]: -2 without a key, -1 without an expiry. *)
Definition PTTL_str (k : string) (r : Redis) : Z :=
  match live (rd_now r) (rd_strs r) k with
  | None => -2
  | Some e => match en_exp e with None => -1 | Some x => x - rd_now r end
  end.

(** ** Laws *)

Lemma live_Some {A} now (m : gmap string (entry A)) k e :
  live now m k = Some e <-> m !! k = Some e /\ alive now e = true.
Proof.
  unfold live. destruct (m !! k) as [x|]; [|split; [done|by intros [? _]]].
  destruct (alive now x) eqn:E; split.
  - by intros [= ->].
  - by intros [[= ->] _].
  - done.
  - intros [[= ->] H]. congruence.
Qed.

Lemma live_insert {A} now (m : gmap string (entry A)) k e k' :
  alive now e = true -> live now (<[k := e]> m) k' = if decide (k = k') then Some e else live now m k'.
Proof.
  intros He. unfold live. destruct (decide (k = k')) as [<-|Hne].
  - by rewrite lookup_insert_eq, He.
  - by rewrite lookup_insert_ne.
Qed.
Lemma live_delete {A} now (m : gmap string (entry A)) k k' :
  live now (delete k m) k' = if decide (k = k') then None else live now m k'.
Proof.
  unfold live. destruct (decide (k = k')) as [<-|Hne]; [by rewrite lookup_delete_eq|by rewrite lookup_delete_ne].
Qed.

(** An entry that keeps the expiry of a living one lives. *)
Lemma alive_keep {A B} now (m : gmap string (entry A)) k (v : B) :
  alive now {| en_val := v; en_exp := expiry now m k |} = true.
Proof.
  unfold alive, expiry; cbn. destruct (live now m k) as [e|] eqn:E; [|done].
  apply live_Some in E as [_ E]. exact E.
Qed.
Lemma alive_from_now {A} now d (v : A) : 0 <= d -> alive now {| en_val := v; en_exp := Some (now + d) |} = true.
Proof. intros. unfold alive; cbn. apply Z.leb_le. lia. Qed.

Lemma zset_set k s r k' : zset k' (set_zset k s r) = if decide (k = k') then s else zset k' r.
Proof.
  unfold zset, set_zset, with_sets; cbn. destruct (decide (s = ∅)) as [->|Hs].
  - rewrite live_delete. by destruct (decide (k = k')).
  - rewrite live_insert by apply alive_keep. by destruct (decide (k = k')).
Qed.
Lemma zset_set_eq k s r : zset k (set_zset k s r) = s.
Proof. rewrite zset_set. by destruct (decide (k = k)). Qed.
Lemma zset_set_ne k s r k' : k ≠ k' -> zset k' (set_zset k s r) = zset k' r.
Proof. intros H. rewrite zset_set. by destruct (decide (k = k')). Qed.

(** The expiry of a sorted set. *)
Definition zexp (k : string) (r : Redis) : option Z := expiry (rd_now r) (rd_sets r) k.

Lemma zexp_set k s r k' :
  zexp k' (set_zset k s r) = if decide (k = k') then (if decide (s = ∅) then None else zexp k r) else zexp k' r.
Proof.
  unfold zexp, set_zset, with_sets, expiry at 1; cbn. destruct (decide (s = ∅)) as [->|Hs].
  - rewrite live_delete. by destruct (decide (k = k')).
  - rewrite live_insert by apply alive_keep. by destruct (decide (k = k')).
Qed.

Lemma zset_EXPIRE k ttl r k' : 0 < ttl -> zset k' (EXPIRE k ttl r) = zset k' r.
Proof.
  intros Ht. unfold zset, EXPIRE, expire_at, with_sets; cbn -[Z.mul].
  destruct (live (rd_now r) (rd_sets r) k) as [e|] eqn:E; cbn -[Z.mul]; [|done].
  destruct (Z.leb_spec (1000 * ttl) 0); cbn -[Z.mul]; [lia|].
  rewrite live_insert by (apply alive_from_now; lia). destruct (decide (k = k')) as [<-|]; [|done]. by rewrite E.
Qed.
Lemma zexp_EXPIRE k ttl r k' : 0 < ttl ->
  zexp k' (EXPIRE k ttl r) =
    if decide (k = k') then (match live (rd_now r) (rd_sets r) k with Some _ => Some (rd_now r + 1000 * ttl) | None => None end)
    else zexp k' r.
Proof.
  intros Ht. unfold zexp, EXPIRE, expire_at, with_sets; cbn -[Z.mul]. unfold expiry at 1.
  destruct (live (rd_now r) (rd_sets r) k) as [e|] eqn:E; cbn -[Z.mul].
  - destruct (Z.leb_spec (1000 * ttl) 0); cbn -[Z.mul]; [lia|].
    rewrite live_insert by (apply alive_from_now; lia). by destruct (decide (k = k')) as [<-|].
  - destruct (decide (k = k')) as [<-|]; [by rewrite E|done].
Qed.

Lemma live_None_zset k r : live (rd_now r) (rd_sets r) k = None -> zset k r = ∅.
Proof. unfold zset. by intros ->. Qed.

Lemma zset_DEL k r k' : zset k' (DEL_set k r) = if decide (k = k') then ∅ else zset k' r.
Proof. unfold zset, DEL_set, with_sets; cbn. rewrite live_delete. by destruct (decide (k = k')). Qed.
Lemma zexp_DEL k r k' : zexp k' (DEL_set k r) = if decide (k = k') then None else zexp k' r.
Proof. unfold zexp, DEL_set, with_sets, expiry; cbn. rewrite live_delete. by destruct (decide (k = k')). Qed.

(** Time passes: a set is as it was, or gone. *)
Lemma zset_tick d k r :
  0 <= d ->
  zset k (tick d r) = match zexp k r with Some x => if rd_now r + d <=? x then zset k r else ∅ | None => zset k r end.
Proof.
  intros Hd. unfold zset, zexp, expiry, live, tick; cbn. destruct (rd_sets r !! k) as [[v [x|]]|] eqn:E; cbn; [|done..].
  unfold alive; cbn. destruct (Z.leb_spec (rd_now r) x); cbn; destruct (Z.leb_spec (rd_now r + d) x); try done. lia.
Qed.
Lemma zexp_tick d k r x : 0 <= d -> zexp k (tick d r) = Some x -> zexp k r = Some x.
Proof.
  intros Hd. unfold zexp, expiry, live, tick; cbn. destruct (rd_sets r !! k) as [[v [y|]]|]; cbn; try done.
  unfold alive; cbn. destruct (Z.leb_spec (rd_now r + d) y); cbn; [|done].
  destruct (Z.leb_spec (rd_now r) y); cbn; [done|lia].
Qed.

Lemma elem_above c s m v : above c s !! m = Some v <-> s !! m = Some v /\ c < v.
Proof. unfold above. rewrite map_lookup_filter_Some. cbn. by rewrite Z.ltb_lt. Qed.
Lemma above_above c c' s : above c (above c' s) = above (Z.max c c') s.
Proof.
  apply map_eq. intros m. apply option_eq. intros v. rewrite !elem_above. intuition lia.
Qed.
Lemma above_all c s : (∀ m v, s !! m = Some v -> c < v) -> above c s = s.
Proof. intros H. apply map_eq. intros m. apply option_eq. intros v. rewrite elem_above. naive_solver. Qed.
Lemma above_size c s : (size (above c s) <= size s)%nat.
Proof. apply map_subseteq_size, map_filter_subseteq. Qed.
Lemma above_insert c s m v : c < v -> above c (<[m := v]> s) = <[m := v]> (above c s).
Proof. intros H. apply map_filter_insert_True. cbn. by apply Z.ltb_lt. Qed.
Lemma above_delete c s m : above c (delete m s) = delete m (above c s).
Proof. apply map_filter_delete. Qed.

(** Counters. *)
Lemma GET_put k v r k' : GET k' (put_int k v r) = if decide (k = k') then Some v else GET k' r.
Proof.
  unfold GET, put_int, with_ints; cbn. rewrite live_insert by apply alive_keep. by destruct (decide (k = k')).
Qed.
Lemma GET_EXPIRE k ttl r k' : 0 < ttl -> GET k' (EXPIRE_int k ttl r) = GET k' r.
Proof.
  intros Ht. unfold GET, EXPIRE_int, expire_at, with_ints; cbn -[Z.mul].
  destruct (live (rd_now r) (rd_ints r) k) as [e|] eqn:E; cbn -[Z.mul]; [|done].
  destruct (Z.leb_spec (1000 * ttl) 0); cbn -[Z.mul]; [lia|].
  rewrite live_insert by (apply alive_from_now; lia). destruct (decide (k = k')) as [<-|]; [|done]. by rewrite E.
Qed.
Lemma GET_DEL k r k' : GET k' (DEL_int k r) = if decide (k = k') then None else GET k' r.
Proof. unfold GET, DEL_int, with_ints; cbn. rewrite live_delete. by destruct (decide (k = k')). Qed.
Lemma GET_tick d k r v : 0 <= d -> GET k (tick d r) = Some v -> GET k r = Some v.
Proof.
  intros Hd. unfold GET, live, tick; cbn. destruct (rd_ints r !! k) as [[x [y|]]|]; cbn; try done.
  unfold alive; cbn. destruct (Z.leb_spec (rd_now r + d) y); cbn; [|done].
  destruct (Z.leb_spec (rd_now r) y); cbn; [done|lia].
Qed.
