(* ===== verification/Concurrency.v ===== *)
(** * Concurrency slots

    [repository/concurrency_cache.go] and [service/concurrency_service.go]:
    how many requests an account and a user may have in flight, the leases of
    live calls and of client WebSockets, the waiting counters, and the index of
    accounts and users that have any.  A slot is a member of a sorted set whose
    score is the second it was taken; it counts until it is released or its
    time to live is over.

    The Lua scripts are one step of the store each.  An operation of the cache
    runs one script and then keeps the index up to date with further commands;
    [run_cmd] is one command, so that the operations of several processes
    interleave.  Logs, contexts and failing connections are left out of the
    cache; the service sees a cache whose calls may fail. *)

From stdpp Require Import pretty.
From S2P Require Import Prelude GoErrors GoTime GoStrings GoText Redis.

(** ** Keys *)

Definition accountSlotKeyPrefix : string := "concurrency:account:".
Definition userSlotKeyPrefix : string := "concurrency:user:".
Definition apiKeySlotKeyPrefix : string := "concurrency:api_key:".
Definition liveAccountSlotKeyPrefix : string := "concurrency:live:account:".
Definition liveUserSlotKeyPrefix : string := "concurrency:live:user:".
Definition liveAPIKeySlotKeyPrefix : string := "concurrency:live:api_key:".
Definition openAIWSIngressLeaseKeyPrefix : string := "concurrency:openai_ws_ingress:api_key:".
Definition openAIWSIngressLeaseTTLSeconds : Z := 60.
Definition liveLeaseTTLSeconds : Z := 60.
Definition waitQueueKeyPrefix : string := "concurrency:wait:".
Definition accountWaitKeyPrefix : string := "wait:account:".
Definition defaultSlotTTLMinutes : Z := 15.
Definition accountActiveIndexKey : string := "concurrency:account:active_index".
Definition userActiveIndexKey : string := "concurrency:user:active_index".
Definition activeIndexCleanupBatchSize : nat := 1000.
Definition legacyWaitSweepMarkerKey : string := "concurrency:startup:legacy_wait_sweep:v1".

Definition accountSlotKey (id : Z) : string := (accountSlotKeyPrefix ++ pretty id)%string.
Definition userSlotKey (id : Z) : string := (userSlotKeyPrefix ++ pretty id)%string.
Definition apiKeySlotKey (id : Z) : string := (apiKeySlotKeyPrefix ++ pretty id)%string.
Definition liveAccountSlotKey (id : Z) : string := (liveAccountSlotKeyPrefix ++ pretty id)%string.
Definition liveUserSlotKey (id : Z) : string := (liveUserSlotKeyPrefix ++ pretty id)%string.
Definition liveAPIKeySlotKey (id : Z) : string := (liveAPIKeySlotKeyPrefix ++ pretty id)%string.
Definition openAIWSIngressLeaseKey (id : Z) : string := (openAIWSIngressLeaseKeyPrefix ++ pretty id)%string.
Definition waitQueueKey (id : Z) : string := (waitQueueKeyPrefix ++ pretty id)%string.
Definition accountWaitKey (id : Z) : string := (accountWaitKeyPrefix ++ pretty id)%string.

(** ** Scripts *)

Definition acquireScript (key liveKey : string) (maxConcurrency ttl : Z) (requestID : string) (r : Redis)
  : (Z * Z) * Redis :=
  let now := TIME r in
  let r := ZREMRANGEBYSCORE key (now - ttl) r in
  let r := ZREMRANGEBYSCORE liveKey (now - 60) r in
  match ZSCORE key requestID r with
  | Some _ => ((1, now), EXPIRE key ttl (ZADD key now requestID r))
  | None =>
    if ZCARD key r + ZCARD liveKey r <? maxConcurrency
    then ((1, now), EXPIRE key ttl (ZADD key now requestID r))
    else ((0, now), r)
  end.

Definition getCountScript (key liveKey : string) (ttl : Z) (r : Redis) : Z * Redis :=
  let now := TIME r in
  let r := ZREMRANGEBYSCORE key (now - ttl) r in
  let r := ZREMRANGEBYSCORE liveKey (now - 60) r in
  (ZCARD key r + ZCARD liveKey r, r).

Definition acquireLiveLeaseScript (accountRegular accountLive userRegular userLive apiLive : string)
  (accountMax userMax ttl : Z) (leaseID : string) (replacing : Z) (r : Redis) : Z * Redis :=
  let now := TIME r in
  let r := ZREMRANGEBYSCORE accountLive (now - ttl) r in
  let r := ZREMRANGEBYSCORE userLive (now - ttl) r in
  let r := ZREMRANGEBYSCORE apiLive (now - ttl) r in
  match ZSCORE accountLive leaseID r with
  | Some _ => (1, r)
  | None =>
    let accountCount := ZCARD accountRegular r + ZCARD accountLive r in
    let userCount := ZCARD userRegular r + ZCARD userLive r in
    let allowance := if replacing =? 1 then 1 else 0 in
    if (0 <? accountMax) && (accountMax + allowance <=? accountCount) then (0, r) else
    if (0 <? userMax) && (userMax + allowance <=? userCount) then (0, r) else
    let r := ZADD accountLive now leaseID r in
    let r := ZADD userLive now leaseID r in
    let r := ZADD apiLive now leaseID r in
    let r := EXPIRE accountLive ttl r in
    let r := EXPIRE userLive ttl r in
    let r := EXPIRE apiLive ttl r in
    (1, r)
  end.

(** The first loop of the refresh: stops at the first key without the lease. *)
Fixpoint all_hold (keys : list string) (cutoff : Z) (leaseID : string) (r : Redis) : bool * Redis :=
  match keys with
  | [] => (true, r)
  | key :: keys =>
    let r := ZREMRANGEBYSCORE key cutoff r in
    match ZSCORE key leaseID r with
    | None => (false, r)
    | Some _ => all_hold keys cutoff leaseID r
    end
  end.
Fixpoint refresh_all (keys : list string) (now ttl : Z) (leaseID : string) (r : Redis) : Redis :=
  match keys with
  | [] => r
  | key :: keys => refresh_all keys now ttl leaseID (EXPIRE key ttl (ZADD key now leaseID r))
  end.
Definition refreshLiveLeaseScript (keys : list string) (ttl : Z) (leaseID : string) (r : Redis) : Z * Redis :=
  let now := TIME r in
  let '(held, r) := all_hold keys (now - ttl) leaseID r in
  if held then (1, refresh_all keys now ttl leaseID r) else (0, r).

Definition trackSlotScript (key : string) (ttl : Z) (requestID : string) (r : Redis) : Z * Redis :=
  let now := TIME r in
  let r := ZREMRANGEBYSCORE key (now - ttl) r in
  (1, EXPIRE key ttl (ZADD key now requestID r)).

Definition acquireOpenAIWSIngressLeaseScript (key : string) (maxConnections ttl : Z) (leaseID : string)
  (r : Redis) : Z * Redis :=
  let now := TIME r in
  let r := ZREMRANGEBYSCORE key (now - ttl) r in
  match ZSCORE key leaseID r with
  | Some _ => (1, EXPIRE key ttl (ZADD key now leaseID r))
  | None =>
    if ZCARD key r <? maxConnections then (1, EXPIRE key ttl (ZADD key now leaseID r)) else (0, r)
  end.
Definition refreshOpenAIWSIngressLeaseScript (key : string) (ttl : Z) (leaseID : string) (r : Redis)
  : Z * Redis :=
  let now := TIME r in
  let r := ZREMRANGEBYSCORE key (now - ttl) r in
  match ZSCORE key leaseID r with
  | None => (0, r)
  | Some _ => (1, EXPIRE key ttl (ZADD key now leaseID r))
  end.

(** Both increment scripts, of users and of accounts, read alike. *)
Definition incrementWaitScript (key : string) (maxWait ttl : Z) (r : Redis) : (Z * Z) * Redis :=
  let current := default 0 (GET key r) in
  let now := TIME r in
  if maxWait <=? current then ((0, now), r)
  else let '(_, r) := INCR key r in ((1, now), EXPIRE_int key ttl r).
Definition incrementAccountWaitScript : string -> Z -> Z -> Redis -> (Z * Z) * Redis := incrementWaitScript.
Definition decrementWaitScript (key : string) (r : Redis) : Z * Redis :=
  match GET key r with
  | Some current => if 0 <? current then let '(_, r) := DECR key r in (1, r) else (1, r)
  | None => (1, r)
  end.

Definition cleanupExpiredSlotsScript (key : string) (ttl : Z) (r : Redis) : Z * Redis :=
  let now := TIME r in
  let r := ZREMRANGEBYSCORE key (now - ttl) r in
  (1, if ZCARD key r =? 0 then DEL_set key r else EXPIRE key ttl r).

Fixpoint remove_foreign (key activePrefix : string) (members : list string) (r : Redis) : Z * Redis :=
  match members with
  | [] => (0, r)
  | member :: members =>
    if HasPrefix member activePrefix then remove_foreign key activePrefix members r
    else
      let n := match ZSCORE key member r with Some _ => 1 | None => 0 end in
      let '(m, r) := remove_foreign key activePrefix members (ZREM key member r) in (n + m, r)
  end.
Definition startupCleanupSlotScript (key activePrefix : string) (slotTTL : Z) (r : Redis) : (Z * Z) * Redis :=
  let '(removed, r) := remove_foreign key activePrefix (ZRANGE key r) r in
  let remaining := ZCARD key r in
  ((removed, remaining), if remaining =? 0 then DEL_set key r else EXPIRE key slotTTL r).

(** ** The cache *)

Record concurrencyCache := { slotTTLSeconds : Z; waitQueueTTLSeconds : Z }.
Definition NewConcurrencyCache (slotTTLMinutes waitQueueTTL : Z) : concurrencyCache :=
  let slotTTLMinutes := if slotTTLMinutes <=? 0 then defaultSlotTTLMinutes else slotTTLMinutes in
  {| slotTTLSeconds := slotTTLMinutes * 60;
     waitQueueTTLSeconds := if waitQueueTTL <=? 0 then slotTTLMinutes * 60 else waitQueueTTL |}.

Record slotIndexSpec := { indexKey : string; slotKey : Z -> string; waitKey : Z -> string }.
Definition accountSlotIndex : slotIndexSpec :=
  {| indexKey := accountActiveIndexKey; slotKey := accountSlotKey; waitKey := accountWaitKey |}.
Definition userSlotIndex : slotIndexSpec :=
  {| indexKey := userActiveIndexKey; slotKey := userSlotKey; waitKey := waitQueueKey |}.

Record activeIndexLoad := { al_id : Z; al_member : string; al_slotCount : Z; al_waitCount : Z }.
Record AccountWithConcurrency := { awc_ID : Z; awc_MaxConcurrency : Z }.
Record AccountLoadInfo := { li_AccountID : Z; li_CurrentConcurrency : Z; li_WaitingCount : Z; li_LoadRate : Z }.

Section Cache.
Context (c : concurrencyCache).
#[local] Abbreviation slotTTL := (slotTTLSeconds c).
#[local] Abbreviation waitTTL := (waitQueueTTLSeconds c).

Definition touchActiveIndexAt (index : string) (id expireAt : Z) (r : Redis) : Redis :=
  if (id <=? 0) || (expireAt <=? 0) then r else ZADD index expireAt (pretty id) r.

Definition activeIndexTTL (slotCount waitCount : Z) : Z :=
  let ttl := if 0 <? slotCount then slotTTL else 0 in
  if (0 <? waitCount) && (ttl <? waitTTL) then waitTTL else ttl.

Definition positive_count (v : option Z) : Z :=
  match v with Some n => if 0 <? n then n else 0 | None => 0 end.
Definition readActiveLoadForKey (id : Z) (slot wait : string) (now : Z) (r : Redis) : activeIndexLoad * Redis :=
  let r := ZREMRANGEBYSCORE slot (now - slotTTL) r in
  ({| al_id := id; al_member := pretty id; al_slotCount := ZCARD slot r;
      al_waitCount := positive_count (GET wait r) |}, r).

Definition refreshActiveIndex (index : string) (id : Z) (slot wait : string) (r : Redis) : Redis :=
  if id <=? 0 then r else
  let now := TIME r in
  let '(load, r) := readActiveLoadForKey id slot wait now r in
  if (al_slotCount load =? 0) && (al_waitCount load <=? 0) then ZREM index (pretty id) r else
  let ttl := activeIndexTTL (al_slotCount load) (al_waitCount load) in
  if ttl <=? 0 then r else touchActiveIndexAt index id (now + ttl) r.
Definition refreshAccountActiveIndex (id : Z) : Redis -> Redis :=
  refreshActiveIndex accountActiveIndexKey id (accountSlotKey id) (accountWaitKey id).
Definition refreshUserActiveIndex (id : Z) : Redis -> Redis :=
  refreshActiveIndex userActiveIndexKey id (userSlotKey id) (waitQueueKey id).

Definition AcquireAccountSlot (accountID maxConcurrency : Z) (requestID : string) (r : Redis) : bool * Redis :=
  let '((result, now), r) :=
    acquireScript (accountSlotKey accountID) (liveAccountSlotKey accountID) maxConcurrency slotTTL requestID r in
  (result =? 1,
   if result =? 1 then touchActiveIndexAt accountActiveIndexKey accountID (now + slotTTL) r else r).
Definition ReleaseAccountSlot (accountID : Z) (requestID : string) (r : Redis) : Redis :=
  refreshAccountActiveIndex accountID (ZREM (accountSlotKey accountID) requestID r).
Definition GetAccountConcurrency (accountID : Z) (r : Redis) : Z * Redis :=
  getCountScript (accountSlotKey accountID) (liveAccountSlotKey accountID) slotTTL r.

(** The pipelines read a clock once and count account after account. *)
Definition count_key (slot liveSlot : string) (now : Z) (r : Redis) : Z * Redis :=
  let r := ZREMRANGEBYSCORE slot (now - slotTTL) r in
  let r := ZREMRANGEBYSCORE liveSlot (now - liveLeaseTTLSeconds) r in
  (ZCARD slot r + ZCARD liveSlot r, r).
Fixpoint count_batch (slot liveSlot : Z -> string) (now : Z) (ids : list Z) (acc : gmap Z Z) (r : Redis)
  : gmap Z Z * Redis :=
  match ids with
  | [] => (acc, r)
  | id :: ids =>
    let '(n, r) := count_key (slot id) (liveSlot id) now r in
    count_batch slot liveSlot now ids (<[id := n]> acc) r
  end.
Definition GetAccountConcurrencyBatch (ids : list Z) (r : Redis) : gmap Z Z * Redis :=
  count_batch accountSlotKey liveAccountSlotKey (TIME r) ids ∅ r.

Definition AcquireUserSlot (userID maxConcurrency : Z) (requestID : string) (r : Redis) : bool * Redis :=
  let '((result, now), r) :=
    acquireScript (userSlotKey userID) (liveUserSlotKey userID) maxConcurrency slotTTL requestID r in
  (result =? 1, if result =? 1 then touchActiveIndexAt userActiveIndexKey userID (now + slotTTL) r else r).
Definition ReleaseUserSlot (userID : Z) (requestID : string) (r : Redis) : Redis :=
  refreshUserActiveIndex userID (ZREM (userSlotKey userID) requestID r).
Definition GetUserConcurrency (userID : Z) (r : Redis) : Z * Redis :=
  getCountScript (userSlotKey userID) (liveUserSlotKey userID) slotTTL r.

Definition TrackAPIKeySlot (apiKeyID : Z) (requestID : string) (r : Redis) : Redis :=
  (trackSlotScript (apiKeySlotKey apiKeyID) slotTTL requestID r).2.
Definition ReleaseAPIKeySlot (apiKeyID : Z) (requestID : string) (r : Redis) : Redis :=
  ZREM (apiKeySlotKey apiKeyID) requestID r.
Definition GetAPIKeyConcurrencyBatch (ids : list Z) (r : Redis) : gmap Z Z * Redis :=
  count_batch apiKeySlotKey liveAPIKeySlotKey (TIME r) ids ∅ r.

Definition AcquireOpenAIWSIngressLease (apiKeyID maxConnections : Z) (leaseID : string) (r : Redis) : bool * Redis :=
  if (apiKeyID <=? 0) || (maxConnections <=? 0) || str_empty leaseID then (false, r) else
  let '(result, r) := acquireOpenAIWSIngressLeaseScript (openAIWSIngressLeaseKey apiKeyID) maxConnections
                        openAIWSIngressLeaseTTLSeconds leaseID r in
  (result =? 1, r).
Definition RefreshOpenAIWSIngressLease (apiKeyID : Z) (leaseID : string) (r : Redis) : bool * Redis :=
  if (apiKeyID <=? 0) || str_empty leaseID then (false, r) else
  let '(result, r) := refreshOpenAIWSIngressLeaseScript (openAIWSIngressLeaseKey apiKeyID)
                        openAIWSIngressLeaseTTLSeconds leaseID r in
  (result =? 1, r).
Definition ReleaseOpenAIWSIngressLease (apiKeyID : Z) (leaseID : string) (r : Redis) : Redis :=
  if (apiKeyID <=? 0) || str_empty leaseID then r else ZREM (openAIWSIngressLeaseKey apiKeyID) leaseID r.

Definition AcquireLiveLease (accountID accountMax userID userMax apiKeyID : Z) (leaseID : string)
  (replacingRegularSlots : bool) (r : Redis) : bool * Redis :=
  if (accountID <=? 0) || (userID <=? 0) || (apiKeyID <=? 0) || str_empty leaseID then (false, r) else
  let '(result, r) := acquireLiveLeaseScript (accountSlotKey accountID) (liveAccountSlotKey accountID)
    (userSlotKey userID) (liveUserSlotKey userID) (liveAPIKeySlotKey apiKeyID)
    accountMax userMax liveLeaseTTLSeconds leaseID (if replacingRegularSlots then 1 else 0) r in
  (result =? 1, r).
Definition live_keys (accountID userID apiKeyID : Z) : list string :=
  [liveAccountSlotKey accountID; liveUserSlotKey userID; liveAPIKeySlotKey apiKeyID].
Definition RefreshLiveLease (accountID userID apiKeyID : Z) (leaseID : string) (r : Redis) : bool * Redis :=
  if str_empty leaseID then (false, r) else
  let '(result, r) :=
    refreshLiveLeaseScript (live_keys accountID userID apiKeyID) liveLeaseTTLSeconds leaseID r in
  (result =? 1, r).
(** One transaction. *)
Definition ReleaseLiveLease (accountID userID apiKeyID : Z) (leaseID : string) (r : Redis) : Redis :=
  if str_empty leaseID then r else
  foldl (λ r key, ZREM key leaseID r) r (live_keys accountID userID apiKeyID).

Definition IncrementWaitCount (userID maxWait : Z) (r : Redis) : bool * Redis :=
  let '((result, now), r) := incrementWaitScript (waitQueueKey userID) maxWait waitTTL r in
  (result =? 1, if result =? 1 then touchActiveIndexAt userActiveIndexKey userID (now + waitTTL) r else r).
Definition DecrementWaitCount (userID : Z) (r : Redis) : Redis :=
  refreshUserActiveIndex userID (decrementWaitScript (waitQueueKey userID) r).2.
Definition IncrementAccountWaitCount (accountID maxWait : Z) (r : Redis) : bool * Redis :=
  let '((result, now), r) := incrementAccountWaitScript (accountWaitKey accountID) maxWait waitTTL r in
  (result =? 1, if result =? 1 then touchActiveIndexAt accountActiveIndexKey accountID (now + waitTTL) r else r).
Definition DecrementAccountWaitCount (accountID : Z) (r : Redis) : Redis :=
  refreshAccountActiveIndex accountID (decrementWaitScript (accountWaitKey accountID) r).2.
Definition GetAccountWaitingCount (accountID : Z) (r : Redis) : Z := default 0 (GET (accountWaitKey accountID) r).

(** Go's integer division truncates; a missing counter counts zero. *)
Definition load_info (slot liveSlot wait : Z -> string) (now : Z) (acc : AccountWithConcurrency) (r : Redis)
  : AccountLoadInfo * Redis :=
  let id := awc_ID acc in
  let '(current, r) := count_key (slot id) (liveSlot id) now r in
  let waiting := default 0 (GET (wait id) r) in
  ({| li_AccountID := id; li_CurrentConcurrency := current; li_WaitingCount := waiting;
      li_LoadRate := if 0 <? awc_MaxConcurrency acc
                     then Z.quot (mul64 (add64 current waiting) 100) (awc_MaxConcurrency acc) else 0 |}, r).
Fixpoint load_batch (slot liveSlot wait : Z -> string) (now : Z) (accounts : list AccountWithConcurrency)
  (m : gmap Z AccountLoadInfo) (r : Redis) : gmap Z AccountLoadInfo * Redis :=
  match accounts with
  | [] => (m, r)
  | acc :: accounts =>
    let '(info, r) := load_info slot liveSlot wait now acc r in
    load_batch slot liveSlot wait now accounts (<[awc_ID acc := info]> m) r
  end.
Definition GetAccountsLoadBatch (accounts : list AccountWithConcurrency) (r : Redis)
  : gmap Z AccountLoadInfo * Redis :=
  load_batch accountSlotKey liveAccountSlotKey accountWaitKey (TIME r) accounts ∅ r.
(** The users have records of their own, with the same fields. *)
Definition GetUsersLoadBatch (users : list AccountWithConcurrency) (r : Redis) : gmap Z AccountLoadInfo * Redis :=
  load_batch userSlotKey liveUserSlotKey waitQueueKey (TIME r) users ∅ r.

(** ** Cleaning up *)

Definition CleanupExpiredAccountSlots (accountID : Z) (r : Redis) : Redis :=
  refreshAccountActiveIndex accountID (cleanupExpiredSlotsScript (accountSlotKey accountID) slotTTL r).2.

(** The candidates that are identifiers, and those that are not. *)
Definition parse_member (member : string) : option Z :=
  match Atoi member with Some id => if id <=? 0 then None else Some id | None => None end.
Fixpoint readIndexLoads (spec : slotIndexSpec) (members : list string) (now : Z) (r : Redis)
  : list activeIndexLoad * list string * Redis :=
  match members with
  | [] => ([], [], r)
  | member :: members =>
    match parse_member member with
    | None => let '(loads, stale, r) := readIndexLoads spec members now r in (loads, member :: stale, r)
    | Some id =>
      let '(load, r) := readActiveLoadForKey id (slotKey spec id) (waitKey spec id) now r in
      let '(loads, stale, r) := readIndexLoads spec members now r in
      ({| al_id := id; al_member := member; al_slotCount := al_slotCount load;
          al_waitCount := al_waitCount load |} :: loads, stale, r)
    end
  end.
Definition removeActiveIndexMembers (index : string) (members : list string) (r : Redis) : Redis :=
  foldl (λ r m, ZREM index m r) r members.
Definition idle_load (load : activeIndexLoad) : bool := (al_slotCount load =? 0) && (al_waitCount load <=? 0).

Definition reconcileExpiredIndexCandidates (spec : slotIndexSpec) (r : Redis) : Redis :=
  let now := TIME r in
  let members := ZRANGEBYSCORE (indexKey spec) now activeIndexCleanupBatchSize r in
  let '(loads, stale, r) := readIndexLoads spec members now r in
  let refreshed := filterb (λ l, negb (idle_load l)) loads in
  let r := foldl (λ r l, ZADD (indexKey spec) (now + activeIndexTTL (al_slotCount l) (al_waitCount l))
                           (al_member l) r) r refreshed in
  removeActiveIndexMembers (indexKey spec) (stale ++ map al_member (filterb idle_load loads)) r.
Definition CleanupExpiredAccountSlotKeys (r : Redis) : Redis :=
  reconcileExpiredIndexCandidates userSlotIndex (reconcileExpiredIndexCandidates accountSlotIndex r).

(** [SCAN] with a pattern [prefix*], and [DEL] of what it finds. *)
Definition delete_ints (prefix : string) (r : Redis) : Redis :=
  with_ints (filter (λ kv, HasPrefix kv.1 prefix = false) (rd_ints r)) r.
Definition sweepLegacyWaitKeysOnce (r : Redis) : Redis :=
  match GET_str legacyWaitSweepMarkerKey r with
  | Some _ => r
  | None =>
    SET_str legacyWaitSweepMarkerKey "1" None (delete_ints waitQueueKeyPrefix (delete_ints accountWaitKeyPrefix r))
  end.

Fixpoint cleanup_members (spec : slotIndexSpec) (members : list string) (activePrefix : string) (r : Redis)
  : list string * list string * Redis :=
  match members with
  | [] => ([], [], r)
  | member :: members =>
    match parse_member member with
    | None => let '(refreshed, stale, r) := cleanup_members spec members activePrefix r in
              (refreshed, member :: stale, r)
    | Some id =>
      let '((_, remaining), r) := startupCleanupSlotScript (slotKey spec id) activePrefix slotTTL r in
      let r := DEL_int (waitKey spec id) r in
      let '(refreshed, stale, r) := cleanup_members spec members activePrefix r in
      if 0 <? remaining then (member :: refreshed, stale, r) else (refreshed, member :: stale, r)
    end
  end.
Definition cleanupStaleProcessSlotsForIndex (spec : slotIndexSpec) (members : list string)
  (activePrefix : string) (now : Z) (r : Redis) : Redis :=
  let '(refreshed, stale, r) := cleanup_members spec members activePrefix r in
  let r := foldl (λ r m, ZADD (indexKey spec) (now + slotTTL) m r) r refreshed in
  removeActiveIndexMembers (indexKey spec) stale r.
Definition CleanupStaleProcessSlots (activePrefix : string) (r : Redis) : Redis :=
  if str_empty activePrefix then r else
  let r := sweepLegacyWaitKeysOnce r in
  let now := TIME r in
  let r := cleanupStaleProcessSlotsForIndex accountSlotIndex (ZRANGE accountActiveIndexKey r) activePrefix now r in
  cleanupStaleProcessSlotsForIndex userSlotIndex (ZRANGE userActiveIndexKey r) activePrefix now r.
End Cache.
