(* ===== verification/ConcurrencyProps.v ===== *)
(** * Properties of concurrency slots

    The commands of all processes interleave; every state they reach keeps the
    limits, keeps what is held until its time to live is over, and keeps the
    three entries of a live lease together.  The times to live of the keys are
    never in the way of their members.  The index finds every account and user
    with load as long as operations do not overlap. *)

From stdpp Require Import pretty.
From S2P Require Import Prelude GoErrors GoTime GoStrings GoText Redis Concurrency.

(** ** The keys *)

Inductive skey :=
| KAccount (id : Z) | KUser (id : Z) | KAPIKey (id : Z)
| KLiveAccount (id : Z) | KLiveUser (id : Z) | KLiveAPIKey (id : Z)
| KIngress (id : Z) | KAccountIndex | KUserIndex.
#[global] Instance skey_eq_dec : EqDecision skey.
Proof. solve_decision. Defined.

Definition key_name (k : skey) : string :=
  match k with
  | KAccount id => accountSlotKey id
  | KUser id => userSlotKey id
  | KAPIKey id => apiKeySlotKey id
  | KLiveAccount id => liveAccountSlotKey id
  | KLiveUser id => liveUserSlotKey id
  | KLiveAPIKey id => liveAPIKeySlotKey id
  | KIngress id => openAIWSIngressLeaseKey id
  | KAccountIndex => accountActiveIndexKey
  | KUserIndex => userActiveIndexKey
  end.

Lemma append_inj p s t : (p ++ s)%string = (p ++ t)%string -> s = t.
Proof. induction p as [|c p IH]; [done|]. intros H. apply IH. by injection H. Qed.
Lemma numeral_not_index (z : Z) : pretty z ≠ "active_index"%string.
Proof.
  intros E. pose proof (pretty_Z_numeral z) as H. rewrite E in H. apply Forall_inv in H as [H|[v H]]; done.
Qed.

#[global] Instance key_name_inj : Inj (=) (=) key_name.
Proof.
  intros k k' E. destruct k, k'; try discriminate E;
    try (apply append_inj in E; apply (inj pretty) in E; by subst); try done.
  - by destruct (numeral_not_index id (append_inj accountSlotKeyPrefix _ _ E)).
  - by destruct (numeral_not_index id (append_inj userSlotKeyPrefix _ _ E)).
  - by destruct (numeral_not_index id (eq_sym (append_inj accountSlotKeyPrefix _ _ E))).
  - by destruct (numeral_not_index id (eq_sym (append_inj userSlotKeyPrefix _ _ E))).
Qed.

(** Whose slots: the regular ones and the live ones. *)
Inductive owner := OAccount (id : Z) | OUser (id : Z).
#[global] Instance owner_eq_dec : EqDecision owner.
Proof. solve_decision. Defined.
Definition regular (o : owner) : skey := match o with OAccount id => KAccount id | OUser id => KUser id end.
Definition livek (o : owner) : skey := match o with OAccount id => KLiveAccount id | OUser id => KLiveUser id end.

(** ** Commands *)

Section Props.
Context (c : concurrencyCache) (Hslot : 0 < slotTTLSeconds c).
#[local] Abbreviation slotTTL := (slotTTLSeconds c).

(** What a process does to the store at once. *)
Inductive cmd :=
| CAcquire (o : owner) (max : Z) (req : string)
| CCount (o : owner)
| CLive (account accountMax user userMax apiKey : Z) (lease : string) (replacing : Z)
| CRefresh (account user apiKey : Z) (lease : string)
| CReleaseLive (account user apiKey : Z) (lease : string)
| CRelease (k : skey) (m : string)
| CTrack (apiKey : Z) (req : string)
| CIngress (apiKey max : Z) (lease : string)
| CIngressRefresh (apiKey : Z) (lease : string)
| CPurge (k : skey) (cutoff : Z)
| CCleanup (o : owner)
| CStartup (o : owner) (prefix : string)
| CIndexAdd (k : skey) (score : Z) (m : string)
| CWaitIncr (wait : string) (max : Z)
| CWaitDecr (wait : string)
| CWaitDel (wait : string)
| CSweep
| CTick (d : Z).

Definition exec (r : Redis) (x : cmd) : Redis :=
  match x with
  | CAcquire o max req => (acquireScript (key_name (regular o)) (key_name (livek o)) max slotTTL req r).2
  | CCount o => (getCountScript (key_name (regular o)) (key_name (livek o)) slotTTL r).2
  | CLive a am u um k lease rep =>
    (acquireLiveLeaseScript (accountSlotKey a) (liveAccountSlotKey a) (userSlotKey u) (liveUserSlotKey u)
       (liveAPIKeySlotKey k) am um liveLeaseTTLSeconds lease rep r).2
  | CRefresh a u k lease => (refreshLiveLeaseScript (live_keys a u k) liveLeaseTTLSeconds lease r).2
  | CReleaseLive a u k lease => ReleaseLiveLease a u k lease r
  | CRelease k m => ZREM (key_name k) m r
  | CTrack k req => TrackAPIKeySlot c k req r
  | CIngress k max lease =>
    (acquireOpenAIWSIngressLeaseScript (openAIWSIngressLeaseKey k) max openAIWSIngressLeaseTTLSeconds lease r).2
  | CIngressRefresh k lease =>
    (refreshOpenAIWSIngressLeaseScript (openAIWSIngressLeaseKey k) openAIWSIngressLeaseTTLSeconds lease r).2
  | CPurge k cutoff => ZREMRANGEBYSCORE (key_name k) cutoff r
  | CCleanup o => (cleanupExpiredSlotsScript (key_name (regular o)) slotTTL r).2
  | CStartup o prefix => (startupCleanupSlotScript (key_name (regular o)) prefix slotTTL r).2
  | CIndexAdd k score m => ZADD (key_name k) score m r
  | CWaitIncr w max => (incrementWaitScript w max (waitQueueTTLSeconds c) r).2
  | CWaitDecr w => (decrementWaitScript w r).2
  | CWaitDel w => DEL_int w r
  | CSweep => sweepLegacyWaitKeysOnce r
  | CTick d => tick d r
  end.

(** How long a member of a slot key counts; the index keys are no slots. *)
Definition ttl_of (k : skey) : option Z :=
  match k with
  | KAccount _ | KUser _ | KAPIKey _ => Some slotTTL
  | KLiveAccount _ | KLiveUser _ | KLiveAPIKey _ | KIngress _ => Some 60
  | KAccountIndex | KUserIndex => None
  end.
Lemma ttl_pos k T : ttl_of k = Some T -> 0 < T.
Proof. destruct k; cbn; intros [= <-]; lia. Qed.

(** The commands the operations are made of: only what is stale is purged,
    scores are written to the index only, and the clock does not go back. *)
Definition issued (r : Redis) (x : cmd) : Prop :=
  match x with
  | CPurge k cutoff => ∃ T, ttl_of k = Some T /\ cutoff <= TIME r - T
  | CIndexAdd k _ _ => ttl_of k = None
  | CTick d => 0 <= d
  | _ => True
  end.

(** ** Times to live

    Scores are not in the future, and a key lives at least as long as its
    members count, except the keys in [D], whose expiry is about to be set. *)
Definition almost (D : skey -> Prop) (r : Redis) : Prop :=
  ∀ k T, ttl_of k = Some T ->
    (∀ m s, zset (key_name k) r !! m = Some s -> s <= TIME r) /\
    (~ D k -> ∀ m s x, zset (key_name k) r !! m = Some s -> zexp (key_name k) r = Some x -> 1000 * (s + T) <= x).
Definition store_ok : Redis -> Prop := almost (λ _, False).

Lemma almost_weaken (D D' : skey -> Prop) r : (∀ k, D k -> D' k) -> almost D r -> almost D' r.
Proof. intros H Ha k T HT. destruct (Ha k T HT) as [H1 H2]. split; [done|]. intros Hn. apply H2. naive_solver. Qed.

(** A set that shrinks. *)
Lemma almost_shrink D k s r :
  s ⊆ zset (key_name k) r -> almost D r -> almost D (set_zset (key_name k) s r).
Proof.
  intros Hs Ha k' T HT. destruct (Ha k' T HT) as [H1 H2].
  rewrite zset_set, zexp_set. destruct (decide (key_name k = key_name k')) as [E|E]; [|done].
  rewrite <- E in *. split.
  - intros m v Hv. apply (H1 m). by eapply lookup_weaken.
  - intros Hn m v x Hv Hx. apply (H2 Hn m); [by eapply lookup_weaken|]. by destruct (decide (s = ∅)).
Qed.
Lemma almost_purge D k cut r : almost D r -> almost D (ZREMRANGEBYSCORE (key_name k) cut r).
Proof. apply almost_shrink, map_filter_subseteq. Qed.
Lemma almost_ZREM D k m r : almost D r -> almost D (ZREM (key_name k) m r).
Proof. apply almost_shrink, delete_subseteq. Qed.

Lemma almost_ZADD D k m r :
  almost D r -> almost (λ k', D k' \/ k' = k) (ZADD (key_name k) (TIME r) m r).
Proof.
  intros Ha k' T HT. destruct (Ha k' T HT) as [H1 H2]. unfold ZADD. rewrite zset_set, zexp_set.
  destruct (decide (key_name k = key_name k')) as [E|E].
  - apply (inj key_name) in E as <-. split.
    + intros m' v [[_ <-]|[_ Hv]]%lookup_insert_Some; [by apply Z.le_refl|by apply (H1 m')].
    + intros Hn. destruct Hn. by right.
  - split; [done|]. intros Hn. apply H2. naive_solver.
Qed.

(** A score of the index. *)
Lemma almost_index D k score m r : ttl_of k = None -> almost D r -> almost D (ZADD (key_name k) score m r).
Proof.
  intros Hk Ha k' T HT. destruct (Ha k' T HT) as [H1 H2]. unfold ZADD. rewrite zset_set, zexp_set.
  destruct (decide (key_name k = key_name k')) as [E|E]; [|done]. apply (inj key_name) in E as <-. congruence.
Qed.

Lemma almost_EXPIRE D k T r :
  ttl_of k = Some T -> almost D r -> almost (λ k', D k' /\ k' ≠ k) (EXPIRE (key_name k) T r).
Proof.
  intros Hk Ha k' T' HT. destruct (Ha k' T' HT) as [H1 H2]. pose proof (ttl_pos k T Hk).
  rewrite zset_EXPIRE, zexp_EXPIRE by done. split; [done|].
  destruct (decide (key_name k = key_name k')) as [E|E].
  - apply (inj key_name) in E as <-. assert (T' = T) as -> by congruence. intros _ m v x Hv.
    destruct (live _ _ _); [|done]. intros [= <-]. specialize (H1 m v Hv).
    assert (1000 * TIME r <= rd_now r) by (unfold TIME; apply Z.mul_div_le; lia). lia.
  - intros Hn. apply H2. intros Hd. apply Hn. split; [done|]. intros ->. done.
Qed.

Lemma almost_DEL D k r : almost D r -> almost D (DEL_set (key_name k) r).
Proof.
  intros Ha k' T HT. destruct (Ha k' T HT) as [H1 H2]. rewrite zset_DEL, zexp_DEL.
  by destruct (decide (key_name k = key_name k')).
Qed.

Lemma almost_tick D d r : 0 <= d -> almost D r -> almost D (tick d r).
Proof.
  intros Hd Ha k T HT. destruct (Ha k T HT) as [H1 H2].
  assert (TIME r <= TIME (tick d r)) by (unfold TIME, tick; cbn; apply Z.div_le_mono; lia).
  assert (∀ m s, zset (key_name k) (tick d r) !! m = Some s -> zset (key_name k) r !! m = Some s) as Hsub.
  { intros m s. rewrite zset_tick by done. destruct (zexp _ r); [|done]. by destruct (_ <=? _). }
  split.
  - intros m s Hs. specialize (H1 m s (Hsub m s Hs)). lia.
  - intros Hn m s x Hs%Hsub Hx%zexp_tick; [|done]. by eapply H2.
Qed.

(** Commands on the other kinds of keys. *)
Lemma almost_same_sets D r r' : rd_sets r' = rd_sets r -> rd_now r' = rd_now r -> almost D r -> almost D r'.
Proof.
  intros Hs Hn Ha k T HT. destruct (Ha k T HT) as [H1 H2]. unfold zset, zexp, TIME in *. by rewrite Hs, Hn.
Qed.

(** *** Every command keeps the times to live *)

Lemma take_ok k T m r :
  ttl_of k = Some T -> store_ok r -> store_ok (EXPIRE (key_name k) T (ZADD (key_name k) (TIME r) m r)).
Proof.
  intros Hk Ha. eapply almost_weaken; [|apply almost_EXPIRE; [exact Hk|by apply almost_ZADD]].
  intros k' [[H|H] Hn]; [done|]. by destruct Hn.
Qed.

Lemma acquire_ok o max req r : store_ok r -> store_ok (exec r (CAcquire o max req)).
Proof.
  intros Ha. cbn. unfold acquireScript.
  set (r1 := ZREMRANGEBYSCORE _ _ (ZREMRANGEBYSCORE _ _ r)).
  assert (store_ok r1) as H1 by (by apply almost_purge, almost_purge). change (TIME r) with (TIME r1).
  destruct (ZSCORE _ _ _); [|destruct (_ <? _)]; cbn; [by apply take_ok; [destruct o|]..|done].
Qed.

Lemma count_ok o r : store_ok r -> store_ok (exec r (CCount o)).
Proof. intros Ha. by apply almost_purge, almost_purge. Qed.

Lemma live_ok a am u um k lease rep r : store_ok r -> store_ok (exec r (CLive a am u um k lease rep)).
Proof.
  intros Ha. cbn. unfold acquireLiveLeaseScript.
  set (r1 := ZREMRANGEBYSCORE _ _ (ZREMRANGEBYSCORE _ _ (ZREMRANGEBYSCORE _ _ r))).
  assert (store_ok r1) as H1.
  { apply (almost_purge _ (KLiveAPIKey k)), (almost_purge _ (KLiveUser u)), (almost_purge _ (KLiveAccount a)), Ha. }
  destruct (ZSCORE _ _ _); [done|]. destruct (_ && _); [done|]. destruct (_ && _); [done|]. cbn.
  pose proof (almost_ZADD _ (KLiveAccount a) lease _ H1) as H2.
  pose proof (almost_ZADD _ (KLiveUser u) lease _ H2) as H3.
  pose proof (almost_ZADD _ (KLiveAPIKey k) lease _ H3) as H4.
  pose proof (almost_EXPIRE _ (KLiveAccount a) 60 _ eq_refl H4) as H5.
  pose proof (almost_EXPIRE _ (KLiveUser u) 60 _ eq_refl H5) as H6.
  pose proof (almost_EXPIRE _ (KLiveAPIKey k) 60 _ eq_refl H6) as H7.
  eapply almost_weaken; [|exact H7]. cbn. tauto.
Qed.

Lemma all_hold_ok ks cut lease r : store_ok r -> store_ok (all_hold (map key_name ks) cut lease r).2.
Proof.
  revert r. induction ks as [|k ks IH]; cbn; intros r Ha; [done|].
  assert (store_ok (ZREMRANGEBYSCORE (key_name k) cut r)) by (by apply almost_purge).
  destruct (ZSCORE _ _ _); [by apply IH|done].
Qed.
Lemma refresh_all_ok ks T lease r :
  Forall (λ k, ttl_of k = Some T) ks -> store_ok r -> store_ok (refresh_all (map key_name ks) (TIME r) T lease r).
Proof.
  intros H. revert r. induction H as [|k ks Hk _ IH]; cbn; intros r Ha; [done|].
  exact (IH _ (take_ok k T lease r Hk Ha)).
Qed.
Definition live_skeys (a u k : Z) : list skey := [KLiveAccount a; KLiveUser u; KLiveAPIKey k].
Lemma all_hold_time keys cut lease r : TIME (all_hold keys cut lease r).2 = TIME r.
Proof.
  revert r. induction keys as [|k ks IH]; cbn; intros r; [done|].
  destruct (ZSCORE _ _ _); [|done]. by rewrite IH.
Qed.
Lemma refresh_ok a u k lease r : store_ok r -> store_ok (exec r (CRefresh a u k lease)).
Proof.
  intros Ha. cbn. unfold refreshLiveLeaseScript. change (live_keys a u k) with (map key_name (live_skeys a u k)).
  pose proof (all_hold_ok (live_skeys a u k) (TIME r - liveLeaseTTLSeconds) lease r Ha) as H.
  pose proof (all_hold_time (map key_name (live_skeys a u k)) (TIME r - liveLeaseTTLSeconds) lease r) as Ht.
  destruct (all_hold _ _ _ _) as [held r1]; cbn in H, Ht. destruct held; [|done].
  rewrite <- Ht. apply refresh_all_ok; [by repeat constructor|done].
Qed.

Lemma remove_foreign_ok k prefix ms r : store_ok r -> store_ok (remove_foreign (key_name k) prefix ms r).2.
Proof.
  revert r. induction ms as [|m ms IH]; cbn; intros r Ha; [done|]. destruct (HasPrefix m prefix); [by apply IH|].
  specialize (IH (ZREM (key_name k) m r) (almost_ZREM _ _ _ _ Ha)). by destruct (remove_foreign _ _ _ _).
Qed.

(** DEL when nothing is left, or a new time to live. *)
Lemma settle_ok o r : store_ok r ->
  store_ok (if ZCARD (key_name (regular o)) r =? 0 then DEL_set (key_name (regular o)) r
            else EXPIRE (key_name (regular o)) slotTTL r).
Proof.
  intros Ha. destruct (_ =? 0); [by apply almost_DEL|].
  eapply almost_weaken; [|apply almost_EXPIRE; [by destruct o|exact Ha]]. cbn. tauto.
Qed.

Lemma purge_take_ok k T m r (b : bool) :
  ttl_of k = Some T -> store_ok r ->
  store_ok (if b then EXPIRE (key_name k) T (ZADD (key_name k) (TIME r) m (ZREMRANGEBYSCORE (key_name k) (TIME r - T) r))
            else ZREMRANGEBYSCORE (key_name k) (TIME r - T) r).
Proof.
  intros Hk Ha. assert (store_ok (ZREMRANGEBYSCORE (key_name k) (TIME r - T) r)) as H1 by (by apply almost_purge).
  destruct b; [|done]. exact (take_ok k T m _ Hk H1).
Qed.

Theorem exec_store_ok r x : issued r x -> store_ok r -> store_ok (exec r x).
Proof.
  intros Hi Ha. destruct x as [o max req|o|a am u um k lease rep|a u k lease|a u k lease|k m|k req|k max lease|k lease
    |k cut|o|o prefix|k score m|w max|w|w| |d].
  - by apply acquire_ok.
  - by apply count_ok.
  - by apply live_ok.
  - by apply refresh_ok.
  - cbn. unfold ReleaseLiveLease. destruct (str_empty lease); [done|]. cbn.
    apply (almost_ZREM _ (KLiveAPIKey k)), (almost_ZREM _ (KLiveUser u)), (almost_ZREM _ (KLiveAccount a)), Ha.
  - by apply almost_ZREM.
  - apply (purge_take_ok (KAPIKey k) slotTTL req r true); done.
  - cbn. unfold acquireOpenAIWSIngressLeaseScript.
    destruct (ZSCORE _ _ _); [|destruct (_ <? _)]; cbn.
    + by apply (purge_take_ok (KIngress k) 60 lease r true).
    + by apply (purge_take_ok (KIngress k) 60 lease r true).
    + by apply (purge_take_ok (KIngress k) 60 lease r false).
  - cbn. unfold refreshOpenAIWSIngressLeaseScript. destruct (ZSCORE _ _ _); cbn.
    + by apply (purge_take_ok (KIngress k) 60 lease r true).
    + by apply (purge_take_ok (KIngress k) 60 lease r false).
  - by apply almost_purge.
  - by apply settle_ok, almost_purge.
  - cbn. unfold startupCleanupSlotScript.
    pose proof (remove_foreign_ok (regular o) prefix (ZRANGE (key_name (regular o)) r) r Ha) as H.
    destruct (remove_foreign _ _ _ _) as [n r1]; cbn in *. by apply settle_ok.
  - by apply almost_index.
  - cbn. unfold incrementWaitScript. destruct (_ <=? _); [done|]. by eapply almost_same_sets.
  - cbn. unfold decrementWaitScript. destruct (GET w r); [|done]. destruct (_ <? _); [|done]. by eapply almost_same_sets.
  - by eapply almost_same_sets.
  - cbn. unfold sweepLegacyWaitKeysOnce. destruct (GET_str _ _); [done|]. by eapply almost_same_sets.
  - by apply almost_tick.
Qed.

(** ** Limits *)

Definition card (k : skey) (r : Redis) : Z := ZCARD (key_name k) r.
Definition total (o : owner) (r : Redis) : Z := card (regular o) r + card (livek o) r.

(** Every member was there. *)
Definition fewer (r' r : Redis) : Prop :=
  ∀ k m, is_Some (zset (key_name k) r' !! m) -> is_Some (zset (key_name k) r !! m).
#[local] Instance fewer_preorder : PreOrder fewer.
Proof. split; [by intros r k m|]. intros r1 r2 r3 H1 H2 k m H. by apply H2, H1. Qed.

Lemma fewer_card r' r k : fewer r' r -> card k r' <= card k r.
Proof.
  intros H. unfold card, ZCARD. rewrite <- !size_dom. apply inj_le, subseteq_size.
  intros m. rewrite !elem_of_dom. apply H.
Qed.
Lemma fewer_total r' r o : fewer r' r -> total o r' <= total o r.
Proof. intros H. pose proof (fewer_card r' r (regular o) H). pose proof (fewer_card r' r (livek o) H). unfold total. lia. Qed.

Lemma fewer_shrink k s r : s ⊆ zset (key_name k) r -> fewer (set_zset (key_name k) s r) r.
Proof.
  intros Hs k' m. rewrite zset_set. destruct (decide _) as [E|]; [|done]. rewrite <- E.
  intros [v Hv]. exists v. by eapply lookup_weaken.
Qed.
Lemma fewer_purge k cut r : fewer (ZREMRANGEBYSCORE (key_name k) cut r) r.
Proof. apply fewer_shrink, map_filter_subseteq. Qed.
Lemma fewer_ZREM k m r : fewer (ZREM (key_name k) m r) r.
Proof. apply fewer_shrink, delete_subseteq. Qed.
Lemma fewer_ZADD k n m r : is_Some (zset (key_name k) r !! m) -> fewer (ZADD (key_name k) n m r) r.
Proof.
  intros Hm k' m'. unfold ZADD. rewrite zset_set. destruct (decide _) as [E|]; [|done]. rewrite <- E.
  intros [v [[<- _]|[_ Hv]]%lookup_insert_Some]; [done|by eexists].
Qed.
Lemma fewer_EXPIRE k T r : 0 < T -> fewer (EXPIRE (key_name k) T r) r.
Proof. intros HT k' m. by rewrite zset_EXPIRE. Qed.
Lemma fewer_DEL k r : fewer (DEL_set (key_name k) r) r.
Proof. intros k' m. rewrite zset_DEL. destruct (decide _); [|done]. by rewrite lookup_empty; intros []. Qed.
Lemma fewer_tick d r : 0 <= d -> fewer (tick d r) r.
Proof.
  intros Hd k m. rewrite zset_tick by done. destruct (zexp _ r); [|done]. destruct (_ <=? _); [done|].
  by rewrite lookup_empty; intros [].
Qed.
Lemma fewer_same_sets r' r : rd_sets r' = rd_sets r -> rd_now r' = rd_now r -> fewer r' r.
Proof. intros Hs Hn k m. unfold zset. by rewrite Hs, Hn. Qed.

Lemma all_hold_fewer ks cut lease r : fewer (all_hold (map key_name ks) cut lease r).2 r.
Proof.
  revert r. induction ks as [|k ks IH]; cbn; intros r; [done|].
  destruct (ZSCORE _ _ _); [|apply fewer_purge]. etrans; [apply IH|apply fewer_purge].
Qed.
Lemma remove_foreign_fewer k prefix ms r : fewer (remove_foreign (key_name k) prefix ms r).2 r.
Proof.
  revert r. induction ms as [|m ms IH]; cbn; intros r; [done|]. destruct (HasPrefix m prefix); [by apply IH|].
  specialize (IH (ZREM (key_name k) m r)). destruct (remove_foreign _ _ _ _); cbn in *.
  etrans; [exact IH|apply fewer_ZREM].
Qed.

(** A key that is not the one written. *)
Lemma card_take_ne k T n m r k' : k ≠ k' -> 0 < T -> card k' (EXPIRE (key_name k) T (ZADD (key_name k) n m r)) = card k' r.
Proof.
  intros Hk HT. unfold card, ZCARD. rewrite zset_EXPIRE by done. unfold ZADD. rewrite zset_set_ne; [done|].
  by intros E%(inj key_name).
Qed.
Lemma card_ZADD k n m r k' : card k' (ZADD (key_name k) n m r) <= card k' r + (if decide (k = k') then 1 else 0).
Proof.
  unfold card, ZCARD, ZADD. rewrite zset_set. destruct (decide (key_name k = key_name k')) as [E|E].
  - apply (inj key_name) in E as <-. rewrite decide_True by done.
    destruct (zset (key_name k) r !! m) as [v|] eqn:Em.
    + rewrite map_size_insert_Some by (by eexists). lia.
    + rewrite map_size_insert_None by done. lia.
  - rewrite decide_False by (by intros ->). lia.
Qed.
Lemma card_EXPIRE k T r k' : 0 < T -> card k' (EXPIRE (key_name k) T r) = card k' r.
Proof. intros HT. unfold card, ZCARD. by rewrite zset_EXPIRE. Qed.

Lemma acquire_bounded M o max req r o' :
  (o' = o -> max <= M) -> total o' r <= M -> total o' (exec r (CAcquire o max req)) <= M.
Proof.
  intros Hmax Hr. cbn. unfold acquireScript. set (r1 := ZREMRANGEBYSCORE _ _ (ZREMRANGEBYSCORE _ _ r)).
  assert (fewer r1 r) as Hf by (etrans; apply fewer_purge).
  pose proof (fewer_total _ _ o' Hf). destruct (ZSCORE _ _ _) as [v|] eqn:Es; cbn.
  - assert (fewer (EXPIRE (key_name (regular o)) slotTTL (ZADD (key_name (regular o)) (TIME r) req r1)) r1) as Hf2.
    { etrans; [by apply fewer_EXPIRE|]. apply fewer_ZADD. by exists v. }
    pose proof (fewer_total _ _ o' Hf2). lia.
  - destruct (Z.ltb_spec (card (regular o) r1 + card (livek o) r1) max) as [Hlt|Hge]; unfold card in *.
    + rewrite (proj2 (Z.ltb_lt _ _) Hlt). cbn. unfold total. rewrite !card_EXPIRE by done.
      pose proof (card_ZADD (regular o) (TIME r) req r1 (regular o')).
      pose proof (card_ZADD (regular o) (TIME r) req r1 (livek o')).
      rewrite (decide_False (P := regular o = livek o')) in * by (by destruct o, o').
      destruct (decide (o' = o)) as [->|Hne].
      * rewrite decide_True in * by done. unfold total, card in *. specialize (Hmax eq_refl). lia.
      * rewrite (decide_False (P := regular o = regular o')) in * by (destruct o, o'; cbn; congruence).
        unfold total in *. lia.
    + rewrite (proj2 (Z.ltb_ge _ _) Hge). cbn. lia.
Qed.

Definition allowance (replacing : Z) : Z := if replacing =? 1 then 1 else 0.

Lemma live_bounded M a am u um k lease rep r o' :
  (o' = OAccount a -> 0 < am /\ am + allowance rep <= M) ->
  (o' = OUser u -> 0 < um /\ um + allowance rep <= M) ->
  total o' r <= M -> total o' (exec r (CLive a am u um k lease rep)) <= M.
Proof.
  intros Ha Hu Hr. cbn. unfold acquireLiveLeaseScript.
  set (r1 := ZREMRANGEBYSCORE _ _ (ZREMRANGEBYSCORE _ _ (ZREMRANGEBYSCORE _ _ r))).
  assert (fewer r1 r) as Hf.
  { etrans; [apply (fewer_purge (KLiveAPIKey k))|]. etrans; [apply (fewer_purge (KLiveUser u))|].
    apply (fewer_purge (KLiveAccount a)). }
  pose proof (fewer_total _ _ o' Hf). destruct (ZSCORE _ _ _) as [v|] eqn:Es; [cbn; lia|].
  fold (allowance rep). change (ZCARD (accountSlotKey a) r1 + ZCARD (liveAccountSlotKey a) r1) with (total (OAccount a) r1).
  change (ZCARD (userSlotKey u) r1 + ZCARD (liveUserSlotKey u) r1) with (total (OUser u) r1).
  destruct ((0 <? am) && _) eqn:E1; [cbn; lia|]. destruct ((0 <? um) && _) eqn:E2; [cbn; lia|]. cbn.
  apply andb_false_iff in E1, E2. rewrite !Z.ltb_ge, !Z.leb_gt in *.
  unfold total. rewrite !(card_EXPIRE (KLiveAPIKey k)), !(card_EXPIRE (KLiveUser u)), !(card_EXPIRE (KLiveAccount a)) by done.
  assert (∀ k', card k' (ZADD (liveAPIKeySlotKey k) (TIME r) lease (ZADD (liveUserSlotKey u) (TIME r) lease
                  (ZADD (liveAccountSlotKey a) (TIME r) lease r1)))
           <= card k' r1 + (if decide (KLiveAccount a = k') then 1 else 0) + (if decide (KLiveUser u = k') then 1 else 0)
              + (if decide (KLiveAPIKey k = k') then 1 else 0)) as Hc.
  { intros k'. etrans; [apply (card_ZADD (KLiveAPIKey k))|]. apply Z.add_le_mono_r.
    etrans; [apply (card_ZADD (KLiveUser u))|]. apply Z.add_le_mono_r. apply (card_ZADD (KLiveAccount a)). }
  pose proof (Hc (regular o')) as H1. pose proof (Hc (livek o')) as H2. clear Hc.
  destruct o' as [a'|u']; cbn [regular livek] in *; repeat (case_decide; simplify_eq/=); try done; unfold total in *; cbn [regular livek] in *.
  - specialize (Ha eq_refl). lia.
  - lia.
  - specialize (Hu eq_refl). lia.
  - lia.
Qed.

(** What the requests for the owner's slots ask for. *)
Definition limited (M : Z) (o : owner) (x : cmd) : Prop :=
  match x with
  | CAcquire o' max _ => o = o' -> max <= M
  | CLive a am u um _ _ rep =>
    (o = OAccount a -> 0 < am /\ am + allowance rep <= M) /\ (o = OUser u -> 0 < um /\ um + allowance rep <= M)
  | _ => True
  end.

(** A key that holds no slots of an owner. *)
Lemma exec_total_same_key k T n m r o : 0 < T -> k ≠ regular o -> k ≠ livek o ->
  total o (EXPIRE (key_name k) T (ZADD (key_name k) n m r)) = total o r.
Proof. intros HT H1 H2. unfold total. by rewrite !card_take_ne. Qed.

Lemma refresh_all_fewer ks n T lease r :
  0 < T -> (∀ k, k ∈ ks -> is_Some (zset (key_name k) r !! lease)) ->
  fewer (refresh_all (map key_name ks) n T lease r) r.
Proof.
  intros HT. revert r. induction ks as [|k ks IH]; cbn; intros r Hin; [done|].
  assert (fewer (EXPIRE (key_name k) T (ZADD (key_name k) n lease r)) r) as Hf.
  { etrans; [by apply fewer_EXPIRE|]. apply fewer_ZADD, Hin. by left. }
  etrans; [apply IH|exact Hf]. intros k' Hk'. rewrite zset_EXPIRE by done. unfold ZADD. rewrite zset_set.
  destruct (decide _) as [E|]; [|by apply Hin; right]. rewrite lookup_insert_eq. by eexists.
Qed.

Lemma all_hold_held (ks held : list skey) cut lease r r' :
  NoDup ks -> (∀ k, k ∈ held -> (k ∉ ks) /\ is_Some (zset (key_name k) r !! lease)) ->
  all_hold (map key_name ks) cut lease r = (true, r') ->
  ∀ k, (k ∈ held) \/ (k ∈ ks) -> is_Some (zset (key_name k) r' !! lease).
Proof.
  intros Hnd. revert held r. induction Hnd as [|k ks Hk Hnd IH]; cbn; intros held r Hheld H k' Hin.
  { injection H as <-. destruct Hin as [Hin|Hin]; [by apply Hheld|by apply elem_of_nil in Hin]. }
  set (r1 := ZREMRANGEBYSCORE _ _ r) in *. destruct (ZSCORE (key_name k) lease r1) as [v|] eqn:Es; [|done].
  eapply (IH (k :: held) r1); [|exact H|set_solver].
  intros k2 [->|Hk2]%elem_of_cons; [split; [done|by exists v]|].
  destruct (Hheld k2 Hk2) as [Hn Hp]. split; [set_solver|].
  unfold r1, ZREMRANGEBYSCORE. rewrite zset_set_ne; [done|]. intros E%(inj key_name). set_solver.
Qed.

Lemma live_skeys_nodup a u k : NoDup (live_skeys a u k).
Proof. repeat constructor; set_solver. Qed.

Lemma refresh_fewer a u k lease r : fewer (exec r (CRefresh a u k lease)) r.
Proof.
  cbn. unfold refreshLiveLeaseScript. change (live_keys a u k) with (map key_name (live_skeys a u k)).
  pose proof (all_hold_fewer (live_skeys a u k) (TIME r - liveLeaseTTLSeconds) lease r) as Hf.
  pose proof (all_hold_held (live_skeys a u k) [] (TIME r - liveLeaseTTLSeconds) lease r) as Hh.
  destruct (all_hold _ _ _ _) as [held r1]; cbn in Hf. destruct held; [|exact Hf].
  etrans; [|exact Hf]. apply refresh_all_fewer; [done|]. intros k' Hk'.
  eapply Hh; [apply live_skeys_nodup| |done|by right]. intros k2 Hk2. by apply elem_of_nil in Hk2.
Qed.

Theorem exec_bounded M r x o : issued r x -> limited M o x -> total o r <= M -> total o (exec r x) <= M.
Proof.
  intros Hi Hl Hr. assert (∀ r', fewer r' r -> total o r' <= M) as Hfew.
  { intros r' H. pose proof (fewer_total r' r o H). lia. }
  assert (∀ k T m cut (b : bool), 0 < T -> k ≠ regular o -> k ≠ livek o ->
    total o (if b then EXPIRE (key_name k) T (ZADD (key_name k) (TIME r) m (ZREMRANGEBYSCORE (key_name k) cut r))
             else ZREMRANGEBYSCORE (key_name k) cut r) <= M) as Hother.
  { intros k T m cut b HT H1 H2. pose proof (Hfew _ (fewer_purge k cut r)).
    destruct b; [|done]. by rewrite exec_total_same_key. }
  destruct x as [o' max req|o'|a am u um k lease rep|a u k lease|a u k lease|k m|k req|k max lease|k lease
    |k cut|o'|o' prefix|k score m|w max|w|w| |d]; cbn [issued limited] in Hi, Hl.
  - by apply acquire_bounded.
  - apply Hfew. cbn. etrans; apply fewer_purge.
  - destruct Hl as [H1 H2]. by apply live_bounded.
  - apply Hfew, refresh_fewer.
  - apply Hfew. cbn. unfold ReleaseLiveLease. destruct (str_empty lease); [done|]. cbn.
    etrans; [apply (fewer_ZREM (KLiveAPIKey k))|]. etrans; [apply (fewer_ZREM (KLiveUser u))|].
    apply (fewer_ZREM (KLiveAccount a)).
  - apply Hfew, fewer_ZREM.
  - apply (Hother (KAPIKey k) slotTTL req _ true); [done|by destruct o..].
  - cbn. unfold acquireOpenAIWSIngressLeaseScript. destruct (ZSCORE _ _ _); [|destruct (_ <? _)]; cbn.
    + apply (Hother (KIngress k) 60 lease _ true); [done|by destruct o..].
    + apply (Hother (KIngress k) 60 lease _ true); [done|by destruct o..].
    + apply (Hother (KIngress k) 60 lease _ false); [done|by destruct o..].
  - cbn. unfold refreshOpenAIWSIngressLeaseScript. destruct (ZSCORE _ _ _); cbn.
    + apply (Hother (KIngress k) 60 lease _ true); [done|by destruct o..].
    + apply (Hother (KIngress k) 60 lease _ false); [done|by destruct o..].
  - apply Hfew, fewer_purge.
  - apply Hfew. cbn. destruct (_ =? 0); (etrans; [|apply (fewer_purge (regular o'))]);
      [apply fewer_DEL|by apply fewer_EXPIRE].
  - apply Hfew. cbn. unfold startupCleanupSlotScript.
    pose proof (remove_foreign_fewer (regular o') prefix (ZRANGE (key_name (regular o')) r) r) as H.
    destruct (remove_foreign _ _ _ _) as [n r1]; cbn in *. etrans; [|exact H].
    destruct (_ =? 0); [apply fewer_DEL|by apply fewer_EXPIRE].
  - cbn. unfold total. pose proof (card_ZADD k score m r (regular o)). pose proof (card_ZADD k score m r (livek o)).
    rewrite !decide_False in * by (intros ->; by destruct o). unfold total in *. lia.
  - apply Hfew. cbn. unfold incrementWaitScript. destruct (_ <=? _); [done|]. by apply fewer_same_sets.
  - apply Hfew. cbn. unfold decrementWaitScript. destruct (GET w r); [|done]. destruct (_ <? _); [|done].
    by apply fewer_same_sets.
  - apply Hfew. by apply fewer_same_sets.
  - apply Hfew. cbn. unfold sweepLegacyWaitKeysOnce. destruct (GET_str _ _); [done|]. by apply fewer_same_sets.
  - by apply Hfew, fewer_tick.
Qed.

(** ** Runs *)

Fixpoint run_ok (r : Redis) (l : list cmd) : Prop :=
  match l with [] => True | x :: l => issued r x /\ run_ok (exec r x) l end.
Definition run_all (r : Redis) (l : list cmd) : Redis := foldl exec r l.

Lemma empty_ok now : store_ok (empty_redis now).
Proof. intros k T _. by split. Qed.

Lemma run_store_ok r l : run_ok r l -> store_ok r -> store_ok (run_all r l).
Proof.
  revert r. induction l as [|x l IH]; cbn; intros r Hl Hr; [done|]. destruct Hl as [H1 H2].
  by apply IH, exec_store_ok.
Qed.

Lemma run_bounded M o r l : run_ok r l -> Forall (limited M o) l -> total o r <= M -> total o (run_all r l) <= M.
Proof.
  revert r. induction l as [|x l IH]; cbn; intros r Hl Hf Hr; [done|]. destruct Hl as [H1 H2].
  apply Forall_cons in Hf as [Hx Hf]. by apply IH, exec_bounded.
Qed.

(** *** A slot is kept *)

Definition holds (k : skey) (m : string) (s : Z) (r : Redis) : Prop :=
  ∃ s', zset (key_name k) r !! m = Some s' /\ s <= s'.

Lemma holds_purge k m s k' cut r : (k' = k -> cut < s) -> holds k m s r -> holds k m s (ZREMRANGEBYSCORE (key_name k') cut r).
Proof.
  intros Hc (s' & Hs & Hle). exists s'. split; [|done]. unfold ZREMRANGEBYSCORE. rewrite zset_set.
  destruct (decide _) as [E|]; [|done]. apply (inj key_name) in E as ->. apply elem_above. specialize (Hc eq_refl).
  split; [done|lia].
Qed.
Lemma holds_ZADD k m s k' n m' r : (k' = k -> m' = m -> s <= n) -> holds k m s r -> holds k m s (ZADD (key_name k') n m' r).
Proof.
  intros Hn (s' & Hs & Hle). unfold holds, ZADD. rewrite zset_set.
  destruct (decide _) as [E|]; [|by exists s']. apply (inj key_name) in E as ->.
  destruct (decide (m' = m)) as [->|Hm].
  - exists n. rewrite lookup_insert_eq. auto.
  - exists s'. by rewrite lookup_insert_ne.
Qed.
Lemma holds_EXPIRE k m s k' T r : 0 < T -> holds k m s r -> holds k m s (EXPIRE (key_name k') T r).
Proof. intros HT. unfold holds. by rewrite zset_EXPIRE. Qed.
Lemma holds_ZREM k m s k' m' r : ~ (k' = k /\ m' = m) -> holds k m s r -> holds k m s (ZREM (key_name k') m' r).
Proof.
  intros Hn (s' & Hs & Hle). exists s'. split; [|done]. unfold ZREM. rewrite zset_set.
  destruct (decide _) as [E|]; [|done]. apply (inj key_name) in E as ->. rewrite lookup_delete_ne; [done|]. naive_solver.
Qed.
Lemma holds_take k m s k' T m' r :
  store_ok r -> (∃ T', ttl_of k = Some T') -> 0 < T -> holds k m s r ->
  holds k m s (EXPIRE (key_name k') T (ZADD (key_name k') (TIME r) m' r)).
Proof.
  intros Hr [T' HT'] HT Hh. apply holds_EXPIRE; [done|]. apply holds_ZADD; [|done].
  intros _ _. destruct Hh as (s' & Hs & Hle). destruct (Hr k T' HT') as [H1 _]. specialize (H1 m s' Hs). lia.
Qed.
Lemma holds_same_sets k m s r' r : rd_sets r' = rd_sets r -> rd_now r' = rd_now r -> holds k m s r -> holds k m s r'.
Proof. intros Hs Hn. unfold holds, zset. by rewrite Hs, Hn. Qed.

(** The slot [m] of [k] is given back: by its release, or by the startup of a
    process with another prefix. *)
Definition frees (k : skey) (m : string) (x : cmd) : Prop :=
  match x with
  | CRelease k' m' => k' = k /\ m' = m
  | CReleaseLive a u ky lease => k ∈ live_skeys a u ky /\ lease = m
  | CStartup o prefix => regular o = k /\ HasPrefix m prefix = false
  | _ => False
  end.

Section Kept.
Context (k : skey) (m : string) (s T : Z) (HT : ttl_of k = Some T).

Lemma stale_before k' T' r : ttl_of k' = Some T' -> TIME r < s + T -> k' = k -> TIME r - T' < s.
Proof. intros H Ht ->. assert (T' = T) as -> by congruence. lia. Qed.

Lemma kept_purge k' T' r : ttl_of k' = Some T' -> TIME r < s + T -> holds k m s r ->
  holds k m s (ZREMRANGEBYSCORE (key_name k') (TIME r - T') r).
Proof. intros Hk Ht. apply holds_purge. by eapply stale_before. Qed.

Lemma kept_purge_take k' T' m' r (b : bool) :
  ttl_of k' = Some T' -> TIME r < s + T -> store_ok r -> holds k m s r ->
  holds k m s (if b then EXPIRE (key_name k') T' (ZADD (key_name k') (TIME r) m' (ZREMRANGEBYSCORE (key_name k') (TIME r - T') r))
               else ZREMRANGEBYSCORE (key_name k') (TIME r - T') r).
Proof.
  intros Hk Ht Hr Hh. pose proof (kept_purge k' T' r Hk Ht Hh) as H1. destruct b; [|done].
  apply (holds_take k m s k' T' m' (ZREMRANGEBYSCORE (key_name k') (TIME r - T') r)).
  - by apply almost_purge.
  - by exists T.
  - by eapply ttl_pos.
  - done.
Qed.

Lemma all_hold_kept ks lease r now :
  Forall (λ k', ttl_of k' = Some 60) ks -> TIME r = now -> now < s + T -> holds k m s r ->
  holds k m s (all_hold (map key_name ks) (now - 60) lease r).2.
Proof.
  intros Hf. revert r. induction Hf as [|k' ks Hk _ IH]; cbn; intros r Hn Ht Hh; [done|].
  assert (holds k m s (ZREMRANGEBYSCORE (key_name k') (now - 60) r)) as H1.
  { subst now. by apply kept_purge. }
  destruct (ZSCORE _ _ _); [by apply IH|done].
Qed.
Lemma refresh_all_kept ks lease r :
  Forall (λ k', ttl_of k' = Some 60) ks -> store_ok r -> holds k m s r ->
  holds k m s (refresh_all (map key_name ks) (TIME r) 60 lease r).
Proof.
  intros Hf. revert r. induction Hf as [|k' ks Hk _ IH]; cbn; intros r Hr Hh; [done|].
  assert (∃ T', ttl_of k = Some T') as He by (by exists T).
  exact (IH _ (take_ok k' 60 lease r Hk Hr) (holds_take k m s k' 60 lease r Hr He eq_refl Hh)).
Qed.

Lemma remove_foreign_kept o prefix ms r :
  ~ (regular o = k /\ HasPrefix m prefix = false) -> holds k m s r ->
  holds k m s (remove_foreign (key_name (regular o)) prefix ms r).2.
Proof.
  intros Hn. revert r. induction ms as [|m' ms IH]; cbn; intros r Hh; [done|].
  destruct (HasPrefix m' prefix) eqn:E; [by apply IH|].
  specialize (IH (ZREM (key_name (regular o)) m' r)). destruct (remove_foreign _ _ _ _); cbn in *.
  apply IH, holds_ZREM; [|done]. intros [H1 ->]. by apply Hn.
Qed.

Lemma holds_card k' r : holds k' m s r -> ZCARD (key_name k') r ≠ 0.
Proof.
  intros (s' & Hs & _). unfold ZCARD. intros E. assert (zset (key_name k') r = ∅) as E2.
  { apply map_size_empty_inv. lia. }
  by rewrite E2, lookup_empty in Hs.
Qed.
Lemma kept_settle o r : holds k m s r ->
  holds k m s (if ZCARD (key_name (regular o)) r =? 0 then DEL_set (key_name (regular o)) r
               else EXPIRE (key_name (regular o)) slotTTL r).
Proof.
  intros Hh. destruct (Z.eqb_spec (ZCARD (key_name (regular o)) r) 0) as [E|]; [|by apply holds_EXPIRE].
  destruct Hh as (s' & Hs & Hle). exists s'. split; [|done]. rewrite zset_DEL.
  destruct (decide _) as [E2|]; [|done]. apply (inj key_name) in E2 as E3.
  destruct (holds_card (regular o) r); [|done]. exists s'. by rewrite E3.
Qed.

Lemma kept_tick d r : 0 <= d -> store_ok r -> TIME (tick d r) < s + T -> holds k m s r -> holds k m s (tick d r).
Proof.
  intros Hd Hr Ht (s' & Hs & Hle). exists s'. split; [|done]. rewrite zset_tick by done.
  destruct (zexp (key_name k) r) as [x|] eqn:Ex; [|done]. destruct (Hr k T HT) as [_ H2].
  specialize (H2 (λ f, f) m s' x Hs Ex). rewrite (proj2 (Z.leb_le _ _)); [done|].
  unfold TIME, tick in Ht; cbn in Ht.
  pose proof (Z.mul_succ_div_gt (rd_now r + d) 1000 ltac:(lia)). lia.
Qed.

Lemma kept_acquire o max req r :
  store_ok r -> TIME r < s + T -> holds k m s r -> holds k m s (exec r (CAcquire o max req)).
Proof.
  intros Hr Ht Hh. cbn. unfold acquireScript. set (r0 := ZREMRANGEBYSCORE (key_name (regular o)) _ r).
  assert (holds k m s r0) as H0 by (apply kept_purge; [by destruct o|done..]).
  set (r1 := ZREMRANGEBYSCORE (key_name (livek o)) _ r0).
  assert (holds k m s r1) as H1 by (apply (kept_purge (livek o) 60 r0); [by destruct o|done..]).
  assert (store_ok r1) as Hr1 by (by apply almost_purge, almost_purge).
  assert (holds k m s (EXPIRE (key_name (regular o)) slotTTL (ZADD (key_name (regular o)) (TIME r) req r1))).
  { apply (holds_take k m s (regular o) slotTTL req r1); [done|by exists T|done|done]. }
  destruct (ZSCORE _ _ _); [done|]. by destruct (_ <? _).
Qed.

Lemma kept_live a am u um ky lease rep r :
  store_ok r -> TIME r < s + T -> holds k m s r -> holds k m s (exec r (CLive a am u um ky lease rep)).
Proof.
  intros Hr Ht Hh. cbn. unfold acquireLiveLeaseScript. set (r1 := ZREMRANGEBYSCORE (liveAccountSlotKey a) _ r).
  assert (holds k m s r1) as H1 by (by apply (kept_purge (KLiveAccount a) 60)).
  set (r2 := ZREMRANGEBYSCORE (liveUserSlotKey u) _ r1).
  assert (holds k m s r2) as H2 by (by apply (kept_purge (KLiveUser u) 60 r1)).
  set (r3 := ZREMRANGEBYSCORE (liveAPIKeySlotKey ky) _ r2).
  assert (holds k m s r3) as H3 by (by apply (kept_purge (KLiveAPIKey ky) 60 r2)).
  assert (s <= TIME r) as Hle.
  { destruct Hh as (s' & Hs & Hle). destruct (Hr k T HT) as [Hs2 _]. specialize (Hs2 m s' Hs). lia. }
  destruct (ZSCORE _ _ _); [done|]. destruct (_ && _); [done|]. destruct (_ && _); [done|]. cbn.
  apply (holds_EXPIRE _ _ _ (KLiveAPIKey ky)); [done|]. apply (holds_EXPIRE _ _ _ (KLiveUser u)); [done|].
  apply (holds_EXPIRE _ _ _ (KLiveAccount a)); [done|].
  apply (holds_ZADD _ _ _ (KLiveAPIKey ky)); [done|]. apply (holds_ZADD _ _ _ (KLiveUser u)); [done|].
  by apply (holds_ZADD _ _ _ (KLiveAccount a)).
Qed.

Lemma kept_refresh a u ky lease r :
  store_ok r -> TIME r < s + T -> holds k m s r -> holds k m s (exec r (CRefresh a u ky lease)).
Proof.
  intros Hr Ht Hh. cbn. unfold refreshLiveLeaseScript.
  change (live_keys a u ky) with (map key_name (live_skeys a u ky)).
  assert (Forall (λ k', ttl_of k' = Some 60) (live_skeys a u ky)) as Hks by (by repeat constructor).
  pose proof (all_hold_ok (live_skeys a u ky) (TIME r - liveLeaseTTLSeconds) lease r Hr) as H1.
  pose proof (all_hold_kept (live_skeys a u ky) lease r (TIME r) Hks eq_refl Ht Hh) as H2.
  pose proof (all_hold_time (map key_name (live_skeys a u ky)) (TIME r - liveLeaseTTLSeconds) lease r) as H3.
  unfold liveLeaseTTLSeconds in *. destruct (all_hold _ _ _ _) as [held r1]; cbn in H1, H2, H3. destruct held; [|done].
  rewrite <- H3. by apply refresh_all_kept.
Qed.

Lemma kept_release_live a u ky lease r :
  ~ frees k m (CReleaseLive a u ky lease) -> holds k m s r -> holds k m s (exec r (CReleaseLive a u ky lease)).
Proof.
  cbn. intros Hf Hh. unfold ReleaseLiveLease. destruct (str_empty lease); [done|]. cbn.
  apply (holds_ZREM _ _ _ (KLiveAPIKey ky)); [|apply (holds_ZREM _ _ _ (KLiveUser u));
    [|apply (holds_ZREM _ _ _ (KLiveAccount a)); [|done]]]; intros [<- ->]; apply Hf; (split; [set_solver|done]).
Qed.

Lemma kept_ingress ky lease r (b : bool) :
  TIME r < s + T -> store_ok r -> holds k m s r ->
  holds k m s (if b then EXPIRE (openAIWSIngressLeaseKey ky) 60 (ZADD (openAIWSIngressLeaseKey ky) (TIME r) lease
                           (ZREMRANGEBYSCORE (openAIWSIngressLeaseKey ky) (TIME r - 60) r))
               else ZREMRANGEBYSCORE (openAIWSIngressLeaseKey ky) (TIME r - 60) r).
Proof. by apply (kept_purge_take (KIngress ky) 60). Qed.

Lemma exec_keeps r x :
  store_ok r -> issued r x -> ~ frees k m x -> TIME (exec r x) < s + T -> TIME r < s + T ->
  holds k m s r -> holds k m s (exec r x).
Proof.
  intros Hr Hi Hf Ht' Ht Hh.
  destruct x as [o max req|o|a am u um ky lease rep|a u ky lease|a u ky lease|k' m'|ky req|ky max lease|ky lease
    |k' cut|o|o prefix|k' score m'|w max|w|w| |d]; cbn [issued frees] in Hi, Hf.
  - by apply kept_acquire.
  - cbn. apply (kept_purge (livek o) 60 (ZREMRANGEBYSCORE _ _ r)); [by destruct o|done|].
    apply kept_purge; [by destruct o|done..].
  - by apply kept_live.
  - by apply kept_refresh.
  - by apply kept_release_live.
  - by apply holds_ZREM.
  - apply (kept_purge_take (KAPIKey ky) slotTTL req r true); done.
  - cbn. unfold acquireOpenAIWSIngressLeaseScript. destruct (ZSCORE _ _ _); [|destruct (_ <? _)]; cbn.
    + by apply (kept_ingress ky lease r true).
    + by apply (kept_ingress ky lease r true).
    + by apply (kept_ingress ky lease r false).
  - cbn. unfold refreshOpenAIWSIngressLeaseScript. destruct (ZSCORE _ _ _); cbn.
    + by apply (kept_ingress ky lease r true).
    + by apply (kept_ingress ky lease r false).
  - destruct Hi as (T' & HT' & Hcut). apply holds_purge; [|done]. intros ->. assert (T' = T) as -> by congruence. lia.
  - cbn. apply kept_settle, kept_purge; [by destruct o|done..].
  - cbn. unfold startupCleanupSlotScript.
    pose proof (remove_foreign_kept o prefix (ZRANGE (key_name (regular o)) r) r Hf Hh) as H.
    destruct (remove_foreign _ _ _ _) as [n r1]; cbn in *. by apply kept_settle.
  - apply holds_ZADD; [|done]. intros -> _. congruence.
  - cbn. unfold incrementWaitScript. destruct (_ <=? _); [done|]. by eapply holds_same_sets.
  - cbn. unfold decrementWaitScript. destruct (GET w r); [|done]. destruct (_ <? _); [|done]. by eapply holds_same_sets.
  - by eapply holds_same_sets.
  - cbn. unfold sweepLegacyWaitKeysOnce. destruct (GET_str _ _); [done|]. by eapply holds_same_sets.
  - by apply kept_tick.
Qed.
End Kept.

(** The clock does not go back. *)
Lemma remove_foreign_now k' prefix ms r : rd_now (remove_foreign k' prefix ms r).2 = rd_now r.
Proof.
  revert r. induction ms as [|m ms IH]; cbn; intros r; [done|]. destruct (HasPrefix m prefix); [by apply IH|].
  specialize (IH (ZREM k' m r)). destruct (remove_foreign _ _ _ _); cbn in *. exact IH.
Qed.
Lemma all_hold_now keys cut lease r : rd_now (all_hold keys cut lease r).2 = rd_now r.
Proof. revert r. induction keys as [|k' ks IH]; cbn; intros r; [done|]. destruct (ZSCORE _ _ _); [|done]. by rewrite IH. Qed.
Lemma refresh_all_now keys n T lease r : rd_now (refresh_all keys n T lease r) = rd_now r.
Proof. revert r. induction keys as [|k' ks IH]; cbn; intros r; [done|]. by rewrite IH. Qed.

Lemma exec_now r x : rd_now (exec r x) = rd_now r + match x with CTick d => d | _ => 0 end.
Proof.
  destruct x as [| |a am u um ky lease rep|a u ky lease| | | | | | | |o pre| |w max|w| | |]; cbn; rewrite ?Z.add_0_r; try done.
  - unfold acquireScript. destruct (ZSCORE _ _ _); [done|]. by destruct (_ <? _).
  - unfold acquireLiveLeaseScript. destruct (ZSCORE _ _ _); [done|]. destruct (_ && _); [done|]. by destruct (_ && _).
  - unfold refreshLiveLeaseScript. pose proof (all_hold_now (live_keys a u ky) (TIME r - liveLeaseTTLSeconds) lease r) as H.
    destruct (all_hold _ _ _ _) as [b r1]; cbn in H. destruct b; cbn [snd]; [by rewrite refresh_all_now|done].
  - unfold ReleaseLiveLease. by destruct (str_empty lease).
  - unfold acquireOpenAIWSIngressLeaseScript. destruct (ZSCORE _ _ _); [done|]. by destruct (_ <? _).
  - unfold refreshOpenAIWSIngressLeaseScript. by destruct (ZSCORE _ _ _).
  - by destruct (_ =? 0).
  - unfold startupCleanupSlotScript. pose proof (remove_foreign_now (key_name (regular o)) pre (ZRANGE (key_name (regular o)) r) r) as H.
    destruct (remove_foreign _ _ _ _) as [n r1]; cbn in *. by destruct (_ =? 0).
  - unfold incrementWaitScript. by destruct (_ <=? _).
  - unfold decrementWaitScript. destruct (GET w r); [|done]. by destruct (_ <? _).
  - unfold sweepLegacyWaitKeysOnce. by destruct (GET_str _ _).
Qed.
Lemma exec_TIME r x : issued r x -> TIME r <= TIME (exec r x).
Proof. intros Hi. unfold TIME. rewrite exec_now. apply Z.div_le_mono; [done|]. destruct x; cbn in *; lia. Qed.
Lemma run_TIME r l : run_ok r l -> TIME r <= TIME (run_all r l).
Proof.
  unfold run_all. revert r. induction l as [|x l IH]; cbn; intros r Hl; [lia|]. destruct Hl as [H1 H2].
  pose proof (exec_TIME r x H1). specialize (IH _ H2). lia.
Qed.

(** C33. A slot is kept as long as it counts.  Whatever commands other
    requests, batches, cleanups and processes issue, in any order, and however
    the keys' own times to live run, a slot or lease that was taken or
    refreshed at the second [s] is still there, with a score of at least [s],
    at every second before [s] and its time to live, unless it is released or
    a process starts whose prefix the request does not have. *)
Theorem slot_kept k m s T r l :
  store_ok r -> run_ok r l -> ttl_of k = Some T -> zset (key_name k) r !! m = Some s ->
  Forall (λ x, ~ frees k m x) l -> TIME (run_all r l) < s + T ->
  ∃ s', zset (key_name k) (run_all r l) !! m = Some s' /\ s <= s'.
Proof.
  intros Hr Hl HT Hs Hf Ht. assert (holds k m s r) as Hh by (exists s; split; [done|lia]). clear Hs.
  revert r Hr Hl Ht Hh. induction Hf as [|x l Hx _ IH]; cbn; intros r Hr Hl Ht Hh; [done|].
  destruct Hl as [H1 H2]. pose proof (exec_TIME r x H1). pose proof (run_TIME _ _ H2). unfold run_all in *.
  apply IH; [by apply exec_store_ok|done|done|]. apply (exec_keeps k m s T); [done..|lia|lia|done].
Qed.

(** C5. The limits hold.  If every request for slots of an account or user
    asks with a limit of at most [M], and the leases of live calls do so with a
    limit that, with the one extra slot of a replacement, is at most [M], then
    in every state that any interleaving of commands reaches from an empty
    store, the regular and the live slots of that account or user together
    are at most [M]. *)
Theorem slots_bounded M o now l :
  0 <= M -> run_ok (empty_redis now) l -> Forall (limited M o) l ->
  ZCARD (key_name (regular o)) (run_all (empty_redis now) l)
  + ZCARD (key_name (livek o)) (run_all (empty_redis now) l) <= M.
Proof. intros HM Hl Hf. by apply (run_bounded M o (empty_redis now) l). Qed.

(** ** Operations are made of commands *)

Definition issues (P : cmd -> Prop) (r r' : Redis) : Prop := ∃ l, run_ok r l /\ r' = run_all r l /\ Forall P l.

Lemma run_ok_app r l l' : run_ok r (l ++ l') <-> run_ok r l /\ run_ok (run_all r l) l'.
Proof. unfold run_all. revert r. induction l as [|x l IH]; cbn; intros r; [tauto|]. rewrite IH. tauto. Qed.

Lemma issues_nil P r : issues P r r.
Proof. by exists []. Qed.
Lemma issues_one (P : cmd -> Prop) x r : issued r x -> P x -> issues P r (exec r x).
Proof. intros Hi Hx. exists [x]. split_and!; [done..|]. by constructor. Qed.
Lemma issues_then P r1 r2 r3 : issues P r1 r2 -> issues P r2 r3 -> issues P r1 r3.
Proof.
  intros (l & H1 & -> & H2) (l' & H3 & -> & H4). exists (l ++ l'). split_and!.
  - by apply run_ok_app.
  - unfold run_all. by rewrite foldl_app.
  - by apply Forall_app.
Qed.
Lemma issues_weaken (P Q : cmd -> Prop) r r' : (∀ x, P x -> Q x) -> issues P r r' -> issues Q r r'.
Proof. intros H (l & H1 & H2 & H3). exists l. split_and!; [done..|]. by eapply Forall_impl. Qed.

(** Keeping the index: commands that hold no slot, and purge what is stale. *)
Definition upkeep (x : cmd) : Prop :=
  match x with
  | CPurge _ _ | CIndexAdd _ _ _ | CWaitIncr _ _ | CWaitDecr _ | CWaitDel _ | CCount _ | CCleanup _ | CSweep => True
  | CRelease k _ => ttl_of k = None
  | _ => False
  end.
Lemma upkeep_limited x M o : upkeep x -> limited M o x.
Proof. by destruct x. Qed.
Lemma upkeep_frees x k m T : ttl_of k = Some T -> upkeep x -> ~ frees k m x.
Proof. intros HT Hx Hf. destruct x; try done. destruct Hf as [-> ->]. cbn in Hx. congruence. Qed.

Lemma touch_issues ix id e r : ttl_of ix = None -> issues upkeep r (touchActiveIndexAt (key_name ix) id e r).
Proof.
  intros Hix. unfold touchActiveIndexAt. destruct (_ || _); [apply issues_nil|].
  by apply (issues_one upkeep (CIndexAdd ix e (pretty id))).
Qed.
Lemma load_issues o id wait now r : now <= TIME r ->
  issues upkeep r (readActiveLoadForKey c id (key_name (regular o)) wait now r).2.
Proof.
  intros Hn. apply (issues_one upkeep (CPurge (regular o) (now - slotTTL))); [|done].
  exists slotTTL. split; [by destruct o|lia].
Qed.
Lemma refresh_issues ix o id wait r :
  ttl_of ix = None -> issues upkeep r (refreshActiveIndex c (key_name ix) id (key_name (regular o)) wait r).
Proof.
  intros Hix. unfold refreshActiveIndex. destruct (_ <=? _); [apply issues_nil|].
  pose proof (load_issues o id wait (TIME r) r ltac:(lia)) as H. destruct (readActiveLoadForKey _ _ _ _ _ _) as [load r1]; cbn in H.
  eapply issues_then; [exact H|]. destruct (_ && _).
  - by apply (issues_one upkeep (CRelease ix (pretty id))).
  - destruct (_ <=? _); [apply issues_nil|]. by apply touch_issues.
Qed.

Definition is_acquire (o : owner) (max : Z) (req : string) (x : cmd) : Prop := x = CAcquire o max req \/ upkeep x.
Definition is_release (k : skey) (m : string) (x : cmd) : Prop := x = CRelease k m \/ upkeep x.

Lemma AcquireAccountSlot_issues id max req r :
  issues (is_acquire (OAccount id) max req) r (AcquireAccountSlot c id max req r).2.
Proof.
  unfold AcquireAccountSlot. pose proof (issues_one (is_acquire (OAccount id) max req) (CAcquire (OAccount id) max req) r I) as H.
  cbn in H. destruct (acquireScript _ _ _ _ _ _) as [[res now] r1]; cbn in *.
  eapply issues_then; [apply H; by left|]. destruct (res =? 1); [|apply issues_nil].
  eapply issues_weaken; [|by apply (touch_issues KAccountIndex)]. by right.
Qed.
Lemma AcquireUserSlot_issues id max req r :
  issues (is_acquire (OUser id) max req) r (AcquireUserSlot c id max req r).2.
Proof.
  unfold AcquireUserSlot. pose proof (issues_one (is_acquire (OUser id) max req) (CAcquire (OUser id) max req) r I) as H.
  cbn in H. destruct (acquireScript _ _ _ _ _ _) as [[res now] r1]; cbn in *.
  eapply issues_then; [apply H; by left|]. destruct (res =? 1); [|apply issues_nil].
  eapply issues_weaken; [|by apply (touch_issues KUserIndex)]. by right.
Qed.
Lemma ReleaseAccountSlot_issues id req r :
  issues (is_release (KAccount id) req) r (ReleaseAccountSlot c id req r).
Proof.
  eapply issues_then; [apply (issues_one _ (CRelease (KAccount id) req)); [done|by left]|].
  eapply issues_weaken; [|by apply (refresh_issues KAccountIndex (OAccount id))]. by right.
Qed.
Lemma ReleaseUserSlot_issues id req r : issues (is_release (KUser id) req) r (ReleaseUserSlot c id req r).
Proof.
  eapply issues_then; [apply (issues_one _ (CRelease (KUser id) req)); [done|by left]|].
  eapply issues_weaken; [|by apply (refresh_issues KUserIndex (OUser id))]. by right.
Qed.

(** Counting, for one or many. *)
Lemma count_key_issues o r now : now <= TIME r ->
  issues upkeep r (count_key c (key_name (regular o)) (key_name (livek o)) now r).2.
Proof.
  intros Hn. eapply issues_then; [apply (issues_one upkeep (CPurge (regular o) (now - slotTTL))); [|done]|].
  { exists slotTTL. split; [by destruct o|lia]. }
  apply (issues_one upkeep (CPurge (livek o) (now - 60))); [|done].
  exists 60. split; [by destruct o|exact (proj1 (Z.sub_le_mono_r _ _ 60) Hn)].
Qed.
Lemma count_batch_issues (mk : Z -> owner) slot livekey now ids acc r :
  (∀ id, slot id = key_name (regular (mk id)) /\ livekey id = key_name (livek (mk id))) ->
  now <= TIME r -> issues upkeep r (count_batch c slot livekey now ids acc r).2.
Proof.
  intros Hk. revert acc r. induction ids as [|id ids IH]; cbn [count_batch load_batch]; intros acc r Hn; [apply issues_nil|].
  pose proof (count_key_issues (mk id) r now Hn) as H. destruct (Hk id) as [-> ->].
  destruct (count_key _ _ _ _ _) as [n r1] eqn:E; cbn in H. eapply issues_then; [exact H|]. apply IH.
  assert (r1 = (n, r1).2) as -> by done. rewrite <- E. exact Hn.
Qed.
Lemma GetAccountConcurrencyBatch_issues ids r : issues upkeep r (GetAccountConcurrencyBatch c ids r).2.
Proof. by apply (count_batch_issues OAccount); [|lia]. Qed.

Lemma load_batch_issues (mk : Z -> owner) slot livekey wait now accounts m r :
  (∀ id, slot id = key_name (regular (mk id)) /\ livekey id = key_name (livek (mk id))) ->
  now <= TIME r -> issues upkeep r (load_batch c slot livekey wait now accounts m r).2.
Proof.
  intros Hk. revert m r. induction accounts as [|a accounts IH]; cbn [count_batch load_batch]; intros m r Hn; [apply issues_nil|].
  pose proof (count_key_issues (mk (awc_ID a)) r now Hn) as H. unfold load_info. destruct (Hk (awc_ID a)) as [-> ->].
  destruct (count_key _ _ _ _ _) as [n r1] eqn:E; cbn in *. eapply issues_then; [exact H|]. apply IH.
  assert (r1 = (n, r1).2) as -> by done. rewrite <- E. exact Hn.
Qed.
Lemma GetAccountsLoadBatch_issues accounts r : issues upkeep r (GetAccountsLoadBatch c accounts r).2.
Proof. by apply (load_batch_issues OAccount); [|lia]. Qed.
Lemma GetUsersLoadBatch_issues users r : issues upkeep r (GetUsersLoadBatch c users r).2.
Proof. by apply (load_batch_issues OUser); [|lia]. Qed.

Lemma IncrementAccountWaitCount_issues id max r : issues upkeep r (IncrementAccountWaitCount c id max r).2.
Proof.
  unfold IncrementAccountWaitCount, incrementAccountWaitScript.
  pose proof (issues_one upkeep (CWaitIncr (accountWaitKey id) max) r I I) as H. cbn in H.
  destruct (incrementWaitScript _ _ _ _) as [[res now] r1]; cbn in *. eapply issues_then; [exact H|].
  destruct (res =? 1); [|apply issues_nil]. by apply (touch_issues KAccountIndex).
Qed.
Lemma DecrementAccountWaitCount_issues id r : issues upkeep r (DecrementAccountWaitCount c id r).
Proof.
  eapply issues_then; [by apply (issues_one upkeep (CWaitDecr (accountWaitKey id)))|].
  by apply (refresh_issues KAccountIndex (OAccount id)).
Qed.
Lemma CleanupExpiredAccountSlots_issues id r : issues upkeep r (CleanupExpiredAccountSlots c id r).
Proof.
  eapply issues_then; [by apply (issues_one upkeep (CCleanup (OAccount id)))|].
  by apply (refresh_issues KAccountIndex (OAccount id)).
Qed.

End Props.

(** ** At concrete inputs *)

Definition sample_cache : concurrencyCache := NewConcurrencyCache 15 300.
Definition two_requests : list cmd :=
  [CAcquire (OAccount 7) 1 "ra-1"; CTick 2000; CAcquire (OAccount 7) 1 "rb-1"; CCleanup (OAccount 7)].
Lemma two_requests_ok : run_ok sample_cache (empty_redis 5000) two_requests.
Proof. repeat split; cbn; lia. Qed.

Lemma slots_bounded_witness :
  let r := run_all sample_cache (empty_redis 5000) two_requests in
  ZCARD "concurrency:account:7" r = 1 /\ ZCARD "concurrency:account:7" r + ZCARD "concurrency:live:account:7" r <= 1.
Proof.
  split; [vm_compute; reflexivity|].
  apply (slots_bounded sample_cache eq_refl 1 (OAccount 7) 5000 two_requests); [lia|apply two_requests_ok|].
  repeat constructor; cbn; intros; lia.
Defined.

Definition first_request : Redis := exec sample_cache (empty_redis 5000) (CAcquire (OAccount 7) 1 "ra-1").
Definition later_commands : list cmd := [CTick 2000; CAcquire (OAccount 7) 1 "rb-1"; CCleanup (OAccount 7)].
Lemma slot_kept_witness :
  zset "concurrency:account:7" first_request !! "ra-1"%string = Some 5 /\
  ∃ s, zset "concurrency:account:7" (run_all sample_cache first_request later_commands) !! "ra-1"%string = Some s /\ 5 <= s.
Proof.
  split; [vm_compute; reflexivity|].
  apply (slot_kept sample_cache eq_refl (KAccount 7) "ra-1" 5 900 first_request later_commands).
  - apply exec_store_ok; [reflexivity|exact I|apply empty_ok].
  - repeat split; cbn; lia.
  - reflexivity.
  - vm_compute; reflexivity.
  - repeat constructor; cbn; tauto.
  - vm_compute; reflexivity.
Defined.
