(* ===== verification/ConcurrencyLive.v ===== *)
(** * The leases of live calls

    A live call holds a lease in three sorted sets, those of its account, its
    user and its API key.  However commands interleave, it counts in all three
    or in none. *)

From S2P Require Import Prelude GoErrors GoTime GoStrings GoText Redis Concurrency ConcurrencyProps.

(** The score of a member that still counts. *)
Definition fresh_score (k : skey) (m : string) (r : Redis) : option Z :=
  match zset (key_name k) r !! m with
  | Some s => if TIME r - 60 <? s then Some s else None
  | None => None
  end.

Lemma fresh_other k m k' s r : k' ≠ k -> fresh_score k m (set_zset (key_name k') s r) = fresh_score k m r.
Proof. intros H. unfold fresh_score. rewrite zset_set_ne; [done|]. by intros E%(inj key_name). Qed.
Lemma fresh_member k m s r :
  (s !! m = zset (key_name k) r !! m) -> fresh_score k m (set_zset (key_name k) s r) = fresh_score k m r.
Proof. intros H. unfold fresh_score. rewrite zset_set_eq, H. done. Qed.

Lemma fresh_purge k m k' cut r : (k' = k -> cut <= TIME r - 60) ->
  fresh_score k m (ZREMRANGEBYSCORE (key_name k') cut r) = fresh_score k m r.
Proof.
  intros Hc. destruct (decide (k' = k)) as [->|Hk]; [|by apply fresh_other]. specialize (Hc eq_refl).
  unfold fresh_score, ZREMRANGEBYSCORE. rewrite zset_set_eq. change (TIME (set_zset _ _ r)) with (TIME r).
  destruct (above cut (zset (key_name k) r) !! m) as [s|] eqn:E.
  - apply elem_above in E as [-> _]. done.
  - destruct (zset (key_name k) r !! m) as [s|] eqn:Es; [|done].
    destruct (Z.ltb_spec (TIME r - 60) s); [|done]. exfalso.
    assert (above cut (zset (key_name k) r) !! m = Some s) by (apply elem_above; split; [done|lia]). congruence.
Qed.
Lemma fresh_ZREM k m k' m' r : m' ≠ m -> fresh_score k m (ZREM (key_name k') m' r) = fresh_score k m r.
Proof.
  intros Hm. destruct (decide (k' = k)) as [->|Hk]; [|by apply fresh_other]. apply fresh_member.
  by rewrite lookup_delete_ne.
Qed.
Lemma fresh_ZREM_key k m k' m' r : k' ≠ k -> fresh_score k m (ZREM (key_name k') m' r) = fresh_score k m r.
Proof. apply fresh_other. Qed.
Lemma fresh_removed k m r : fresh_score k m (ZREM (key_name k) m r) = None.
Proof. unfold fresh_score, ZREM. by rewrite zset_set_eq, lookup_delete_eq. Qed.
Lemma fresh_ZADD k m k' n m' r : m' ≠ m -> fresh_score k m (ZADD (key_name k') n m' r) = fresh_score k m r.
Proof.
  intros Hm. destruct (decide (k' = k)) as [->|Hk]; [|by apply fresh_other]. apply fresh_member.
  by rewrite lookup_insert_ne.
Qed.
Lemma fresh_ZADD_key k m k' n m' r : k' ≠ k -> fresh_score k m (ZADD (key_name k') n m' r) = fresh_score k m r.
Proof. apply fresh_other. Qed.
Lemma fresh_added k m r : fresh_score k m (ZADD (key_name k) (TIME r) m r) = Some (TIME r).
Proof.
  unfold fresh_score, ZADD. rewrite zset_set_eq, lookup_insert_eq. change (TIME (set_zset _ _ r)) with (TIME r).
  by rewrite (proj2 (Z.ltb_lt (TIME r - 60) (TIME r))) by lia.
Qed.
Lemma fresh_EXPIRE k m k' T r : 0 < T -> fresh_score k m (EXPIRE (key_name k') T r) = fresh_score k m r.
Proof. intros HT. unfold fresh_score. by rewrite zset_EXPIRE. Qed.
Lemma fresh_DEL k m k' r : k' ≠ k -> fresh_score k m (DEL_set (key_name k') r) = fresh_score k m r.
Proof.
  intros Hk. unfold fresh_score. rewrite zset_DEL. rewrite decide_False; [done|]. by intros E%(inj key_name).
Qed.
Lemma fresh_same_sets k m r' r : rd_sets r' = rd_sets r -> rd_now r' = rd_now r -> fresh_score k m r' = fresh_score k m r.
Proof. intros Hs Hn. unfold fresh_score, zset, TIME. by rewrite Hs, Hn. Qed.

Section Live.
Context (c : concurrencyCache) (Hslot : 0 < slotTTLSeconds c).
#[local] Abbreviation exec := (exec c).
#[local] Abbreviation store_ok := (store_ok c).
#[local] Abbreviation issued := (issued c).

(** Time passes: a score counts, or no longer. *)
Lemma fresh_tick k m d r : ttl_of c k = Some 60 -> 0 <= d -> store_ok r ->
  fresh_score k m (tick d r) =
  match fresh_score k m r with Some s => if TIME (tick d r) - 60 <? s then Some s else None | None => None end.
Proof.
  intros Hk Hd Hr. unfold fresh_score. rewrite zset_tick by done.
  assert (TIME r <= TIME (tick d r)) as Hle by (unfold TIME, tick; cbn; apply Z.div_le_mono; lia).
  destruct (zset (key_name k) r !! m) as [s|] eqn:Es.
  2: { destruct (zexp (key_name k) r); [|by rewrite Es]. destruct (_ <=? _); [by rewrite Es|by rewrite lookup_empty]. }
  destruct (zexp (key_name k) r) as [x|] eqn:Ex.
  - destruct (Z.leb_spec (rd_now r + d) x) as [Hx|Hx].
    + rewrite Es. destruct (Z.ltb_spec (TIME r - 60) s); [done|]. rewrite (proj2 (Z.ltb_ge _ _)); [done|lia].
    + rewrite lookup_empty. destruct (Hr k 60 Hk) as [_ H2]. specialize (H2 (λ f, f) m s x Es Ex).
      assert (s + 60 <= TIME (tick d r)) by (unfold TIME, tick; cbn; apply Z.div_le_lower_bound; lia).
      destruct (_ <? s); [|done]. by rewrite (proj2 (Z.ltb_ge _ _)) by lia.
  - rewrite Es. destruct (Z.ltb_spec (TIME r - 60) s); [done|]. rewrite (proj2 (Z.ltb_ge _ _)); [done|lia].
Qed.

(** Which account, user and key a lease is for. *)
Context (parties : string -> Z * Z * Z).
Definition together (r : Redis) : Prop :=
  ∀ m a u k, parties m = (a, u, k) ->
    fresh_score (KLiveAccount a) m r = fresh_score (KLiveUser u) m r /\
    fresh_score (KLiveUser u) m r = fresh_score (KLiveAPIKey k) m r.

(** The commands about a lease name its parties; live leases are not released
    one by one. *)
Definition proper (x : cmd) : Prop :=
  match x with
  | CLive a _ u _ k m _ | CRefresh a u k m | CReleaseLive a u k m => parties m = (a, u, k)
  | CRelease (KLiveAccount _ | KLiveUser _ | KLiveAPIKey _) _ => False
  | _ => True
  end.

Definition is_live (k : skey) : Prop :=
  match k with KLiveAccount _ | KLiveUser _ | KLiveAPIKey _ => True | _ => False end.
Definition undisturbed (r' r : Redis) : Prop := ∀ k m, is_live k -> fresh_score k m r' = fresh_score k m r.
Lemma undisturbed_together r' r : undisturbed r' r -> together r -> together r'.
Proof. intros H Hr m a u k Hp. rewrite !H by done. by apply Hr. Qed.
#[local] Instance undisturbed_preorder : PreOrder undisturbed.
Proof. split; [by intros r k m|]. intros r1 r2 r3 H1 H2 k m Hk. by rewrite H1, H2. Qed.

Lemma undisturbed_purge k cut r : (is_live k -> cut <= TIME r - 60) -> undisturbed (ZREMRANGEBYSCORE (key_name k) cut r) r.
Proof. intros Hc k' m Hk. apply fresh_purge. intros ->. auto. Qed.
Lemma undisturbed_ZREM k m r : ~ is_live k -> undisturbed (ZREM (key_name k) m r) r.
Proof. intros Hn k' m' Hk. apply fresh_ZREM_key. by intros ->. Qed.
Lemma undisturbed_take k T n m r : ~ is_live k -> 0 < T -> undisturbed (EXPIRE (key_name k) T (ZADD (key_name k) n m r)) r.
Proof. intros Hn HT k' m' Hk. rewrite fresh_EXPIRE by done. apply fresh_ZADD_key. by intros ->. Qed.
Lemma undisturbed_settle o r :
  undisturbed (if ZCARD (key_name (regular o)) r =? 0 then DEL_set (key_name (regular o)) r
               else EXPIRE (key_name (regular o)) (slotTTLSeconds c) r) r.
Proof.
  intros k m Hk. destruct (_ =? 0); [|by apply fresh_EXPIRE]. apply fresh_DEL. intros <-. by destruct o.
Qed.
Lemma undisturbed_same_sets r' r : rd_sets r' = rd_sets r -> rd_now r' = rd_now r -> undisturbed r' r.
Proof. intros Hs Hn k m _. by apply fresh_same_sets. Qed.
Lemma undisturbed_foreign o pre ms r : undisturbed (remove_foreign (key_name (regular o)) pre ms r).2 r.
Proof.
  revert r. induction ms as [|m ms IH]; cbn; intros r; [done|]. destruct (HasPrefix m pre); [by apply IH|].
  specialize (IH (ZREM (key_name (regular o)) m r)). destruct (remove_foreign _ _ _ _); cbn in *.
  etrans; [exact IH|]. apply undisturbed_ZREM. destruct o; intros [].
Qed.
Lemma undisturbed_hold ks m r : undisturbed (all_hold (map key_name ks) (TIME r - 60) m r).2 r.
Proof.
  generalize (Z.le_refl (TIME r)). generalize (TIME r) at 1 3 as now.
  revert r. induction ks as [|k ks IH]; cbn; intros r now Hn; [done|].
  assert (undisturbed (ZREMRANGEBYSCORE (key_name k) (now - 60) r) r) by (apply undisturbed_purge; lia).
  destruct (ZSCORE _ _ _); [|done]. etrans; [|done]. by apply IH.
Qed.

(** The three entries of a lease are written at once. *)
Definition written (a u k : Z) (m : string) (r' r : Redis) : Prop :=
  (∀ k', k' ∈ live_skeys a u k -> fresh_score k' m r' = Some (TIME r)) /\
  (∀ k' m', m' ≠ m -> fresh_score k' m' r' = fresh_score k' m' r).

Lemma written_together a u k m r' r : parties m = (a, u, k) -> written a u k m r' r -> together r -> together r'.
Proof.
  intros Hp [Hw Ho] Hr m' a' u' k' Hp'. destruct (decide (m' = m)) as [->|Hm].
  - assert (a' = a /\ u' = u /\ k' = k) as (-> & -> & ->) by (split_and!; congruence).
    by rewrite !Hw by set_solver.
  - rewrite !Ho by done. by apply Hr.
Qed.

Lemma written_then a u k m r' r1 r : undisturbed r1 r -> TIME r1 = TIME r -> together r ->
  parties m = (a, u, k) -> written a u k m r' r1 -> together r'.
Proof. intros Hu _ Hr Hp Hw. eapply written_together; [done..|]. by eapply undisturbed_together. Qed.

Lemma acquire_writes a u k m r :
  written a u k m (ZADD (liveAPIKeySlotKey k) (TIME r) m (ZADD (liveUserSlotKey u) (TIME r) m
                     (ZADD (liveAccountSlotKey a) (TIME r) m r))) r.
Proof.
  set (r1 := ZADD (liveAccountSlotKey a) _ _ r). set (r2 := ZADD (liveUserSlotKey u) _ _ r1). split.
  - intros k' [->|[->|[->|H%elem_of_nil]%elem_of_cons]%elem_of_cons]%elem_of_cons; [..|done].
    + rewrite (fresh_ZADD_key _ _ (KLiveAPIKey k)) by done. unfold r2. rewrite (fresh_ZADD_key _ _ (KLiveUser u)) by done.
      apply (fresh_added (KLiveAccount a)).
    + rewrite (fresh_ZADD_key _ _ (KLiveAPIKey k)) by done. apply (fresh_added (KLiveUser u) m r1).
    + apply (fresh_added (KLiveAPIKey k) m r2).
  - intros k' m' Hm. unfold r2, r1.
    by rewrite (fresh_ZADD _ m' (KLiveAPIKey k)), (fresh_ZADD _ m' (KLiveUser u)), (fresh_ZADD _ m' (KLiveAccount a)).
Qed.

Lemma refresh_writes a u k m r : written a u k m (refresh_all (live_keys a u k) (TIME r) 60 m r) r.
Proof.
  cbn. set (r1 := EXPIRE (liveAccountSlotKey a) _ (ZADD (liveAccountSlotKey a) _ _ r)).
  set (r2 := EXPIRE (liveUserSlotKey u) _ (ZADD (liveUserSlotKey u) _ _ r1)). split.
  - intros k' [->|[->|[->|H%elem_of_nil]%elem_of_cons]%elem_of_cons]%elem_of_cons; [..|done].
    + rewrite (fresh_EXPIRE _ _ (KLiveAPIKey k)), (fresh_ZADD_key _ _ (KLiveAPIKey k)) by done. unfold r2.
      rewrite (fresh_EXPIRE _ _ (KLiveUser u)), (fresh_ZADD_key _ _ (KLiveUser u)) by done. unfold r1.
      rewrite (fresh_EXPIRE _ _ (KLiveAccount a)) by done. apply (fresh_added (KLiveAccount a)).
    + rewrite (fresh_EXPIRE _ _ (KLiveAPIKey k)), (fresh_ZADD_key _ _ (KLiveAPIKey k)) by done. unfold r2.
      rewrite (fresh_EXPIRE _ _ (KLiveUser u)) by done. apply (fresh_added (KLiveUser u) m r1).
    + rewrite (fresh_EXPIRE _ _ (KLiveAPIKey k)) by done. apply (fresh_added (KLiveAPIKey k) m r2).
  - intros k' m' Hm. rewrite (fresh_EXPIRE _ _ (KLiveAPIKey k)), (fresh_ZADD _ m' (KLiveAPIKey k)) by done. unfold r2.
    rewrite (fresh_EXPIRE _ _ (KLiveUser u)), (fresh_ZADD _ m' (KLiveUser u)) by done. unfold r1.
    by rewrite (fresh_EXPIRE _ _ (KLiveAccount a)), (fresh_ZADD _ m' (KLiveAccount a)) by done.
Qed.

(** *** Every command keeps leases together *)

Lemma live_together a am u um k m rep r :
  parties m = (a, u, k) -> together r -> together (exec r (CLive a am u um k m rep)).
Proof.
  intros Hp Hr. cbn. unfold acquireLiveLeaseScript.
  set (r1 := ZREMRANGEBYSCORE _ _ (ZREMRANGEBYSCORE _ _ (ZREMRANGEBYSCORE _ _ r))).
  assert (undisturbed r1 r) as Hu.
  { etrans; [apply (undisturbed_purge (KLiveAPIKey k)); intros _; apply Z.le_refl|].
    etrans; [apply (undisturbed_purge (KLiveUser u)); intros _; apply Z.le_refl|].
    apply (undisturbed_purge (KLiveAccount a)); intros _; apply Z.le_refl. }
  pose proof (undisturbed_together _ _ Hu Hr) as H1.
  destruct (ZSCORE _ _ _); [done|]. destruct (_ && _); [done|]. destruct (_ && _); [done|]. cbn.
  pose proof (written_together a u k m _ r1 Hp (acquire_writes a u k m r1) H1) as H2.
  intros m' a' u' k' Hp'. rewrite !(fresh_EXPIRE _ _ (KLiveAPIKey k)), !(fresh_EXPIRE _ _ (KLiveUser u)),
    !(fresh_EXPIRE _ _ (KLiveAccount a)) by done. by apply (H2 m').
Qed.

Lemma refresh_together a u k m r :
  parties m = (a, u, k) -> together r -> together (exec r (CRefresh a u k m)).
Proof.
  intros Hp Hr. cbn. unfold refreshLiveLeaseScript.
  pose proof (undisturbed_hold (live_skeys a u k) m r) as Hu.
  pose proof (all_hold_time (live_keys a u k) (TIME r - liveLeaseTTLSeconds) m r) as Ht.
  change (map key_name (live_skeys a u k)) with (live_keys a u k) in Hu. unfold liveLeaseTTLSeconds in *.
  destruct (all_hold _ _ _ _) as [held r1]; cbn [snd] in Hu, Ht.
  pose proof (undisturbed_together _ _ Hu Hr) as H1. destruct held; [|done]. cbn [snd]. rewrite <- Ht.
  by apply (written_together a u k m _ r1 Hp (refresh_writes a u k m r1)).
Qed.

Lemma release_together a u k m r :
  parties m = (a, u, k) -> together r -> together (exec r (CReleaseLive a u k m)).
Proof.
  intros Hp Hr. cbn. unfold ReleaseLiveLease. destruct (str_empty m); [done|]. cbn.
  intros m' a' u' k' Hp'. destruct (decide (m' = m)) as [->|Hm].
  - assert (a' = a /\ u' = u /\ k' = k) as (-> & -> & ->) by (split_and!; congruence).
    rewrite (fresh_removed (KLiveAPIKey k)). rewrite !(fresh_ZREM_key _ _ (KLiveAPIKey k)) by done.
    rewrite (fresh_removed (KLiveUser u)). rewrite (fresh_ZREM_key _ _ (KLiveUser u)) by done.
    by rewrite (fresh_removed (KLiveAccount a)).
  - rewrite !(fresh_ZREM _ m' (KLiveAPIKey k)), !(fresh_ZREM _ m' (KLiveUser u)), !(fresh_ZREM _ m' (KLiveAccount a)) by done.
    by apply Hr.
Qed.

Lemma acquire_undisturbed o max req r : undisturbed (exec r (CAcquire o max req)) r.
Proof.
  cbn. unfold acquireScript. set (r1 := ZREMRANGEBYSCORE _ _ (ZREMRANGEBYSCORE _ _ r)).
  assert (undisturbed r1 r) as H1.
  { etrans; [apply undisturbed_purge; intros _; apply Z.le_refl|]. apply undisturbed_purge. destruct o; intros []. }
  assert (undisturbed (EXPIRE (key_name (regular o)) (slotTTLSeconds c) (ZADD (key_name (regular o)) (TIME r) req r1)) r).
  { etrans; [|exact H1]. apply undisturbed_take; [destruct o; intros []|done]. }
  destruct (ZSCORE _ _ _); [done|]. by destruct (_ <? _).
Qed.
Lemma take_undisturbed k T m cut r (b : bool) : ~ is_live k -> 0 < T ->
  undisturbed (if b then EXPIRE (key_name k) T (ZADD (key_name k) (TIME r) m (ZREMRANGEBYSCORE (key_name k) cut r))
               else ZREMRANGEBYSCORE (key_name k) cut r) r.
Proof.
  intros Hk HT. assert (undisturbed (ZREMRANGEBYSCORE (key_name k) cut r) r) by (by apply undisturbed_purge).
  destruct b; [|done]. etrans; [by apply undisturbed_take|done].
Qed.

Lemma tick_together d r : 0 <= d -> store_ok r -> together r -> together (tick d r).
Proof.
  intros Hd Hs Hr m a u k Hp. rewrite !fresh_tick by done. destruct (Hr m a u k Hp) as [-> ->]. done.
Qed.

Lemma exec_together r x : store_ok r -> issued r x -> proper x -> together r -> together (exec r x).
Proof.
  intros Hs Hi Hp Hr. assert (undisturbed (exec r x) r -> together (exec r x)) as Hund.
  { intros Hu. by eapply undisturbed_together. }
  destruct x as [o max req|o|a am u um k m rep|a u k m|a u k m|k m|k req|k max m|k m
    |k cut|o|o pre|k score m|w max|w|w| |d]; cbn [proper ConcurrencyProps.issued] in Hp, Hi.
  - apply Hund. apply acquire_undisturbed.
  - apply Hund. cbn. etrans; [apply undisturbed_purge; intros _; apply Z.le_refl|]. apply undisturbed_purge. destruct o; intros [].
  - by apply live_together.
  - by apply refresh_together.
  - by apply release_together.
  - apply Hund. apply undisturbed_ZREM. by destruct k; intros [].
  - apply Hund. apply (take_undisturbed (KAPIKey k) _ req _ r true); [intros []|done].
  - apply Hund. cbn. unfold acquireOpenAIWSIngressLeaseScript. destruct (ZSCORE _ _ _); [|destruct (_ <? _)]; cbn.
    + apply (take_undisturbed (KIngress k) 60 m _ r true); [intros []|done].
    + apply (take_undisturbed (KIngress k) 60 m _ r true); [intros []|done].
    + apply (take_undisturbed (KIngress k) 60 m _ r false); [intros []|done].
  - apply Hund. cbn. unfold refreshOpenAIWSIngressLeaseScript. destruct (ZSCORE _ _ _); cbn.
    + apply (take_undisturbed (KIngress k) 60 m _ r true); [intros []|done].
    + apply (take_undisturbed (KIngress k) 60 m _ r false); [intros []|done].
  - apply Hund. apply undisturbed_purge. destruct Hi as (T & HT & Hcut). intros Hk.
    assert (T = 60) as -> by (destruct k; try done; cbn in HT; congruence). lia.
  - apply Hund. cbn. etrans; [apply undisturbed_settle|]. apply undisturbed_purge. destruct o; intros [].
  - apply Hund. cbn. unfold startupCleanupSlotScript.
    pose proof (undisturbed_foreign o pre (ZRANGE (key_name (regular o)) r) r) as H.
    destruct (remove_foreign _ _ _ _) as [n r1]; cbn in *. etrans; [apply undisturbed_settle|done].
  - apply Hund. intros k' m' Hk'. apply fresh_ZADD_key. intros ->. by destruct k'.
  - apply Hund. cbn. unfold incrementWaitScript. destruct (_ <=? _); [done|]. by apply undisturbed_same_sets.
  - apply Hund. cbn. unfold decrementWaitScript. destruct (GET w r); [|done]. destruct (_ <? _); [|done]. by apply undisturbed_same_sets.
  - apply Hund. by apply undisturbed_same_sets.
  - apply Hund. cbn. unfold sweepLegacyWaitKeysOnce. destruct (GET_str _ _); [done|]. by apply undisturbed_same_sets.
  - by apply tick_together.
Qed.

(** A live lease counts for its account, its user and its API key alike:
    in every state that an interleaving of commands reaches from an empty
    store, in which each lease has one account, user and key, the lease has
    the same unexpired score in all three sets, or none in all three. *)
Theorem live_lease_together now l m a u k :
  run_ok c (empty_redis now) l -> Forall proper l -> parties m = (a, u, k) ->
  let r := run_all c (empty_redis now) l in
  fresh_score (KLiveAccount a) m r = fresh_score (KLiveUser u) m r /\
  fresh_score (KLiveUser u) m r = fresh_score (KLiveAPIKey k) m r.
Proof.
  intros Hl Hp Hm. assert (together (empty_redis now)) as H0 by (intros ? ? ? ? ?; done).
  pose proof (empty_ok c now) as Hs. revert Hl H0 Hs. generalize (empty_redis now). unfold run_all.
  induction Hp as [|x l Hx _ IH]; cbn; intros r Hl Hr Hs; [by apply Hr|]. destruct Hl as [H1 H2].
  apply IH; [done|by apply exec_together|by apply exec_store_ok].
Qed.
End Live.

(** ** At a concrete input *)

Definition call_of (_ : string) : Z * Z * Z := (7, 8, 9).
Definition one_call : list cmd :=
  [CLive 7 2 8 2 9 "call-1" 0; CTick 30000; CRefresh 7 8 9 "call-1"; CTick 40000].
Lemma live_lease_together_witness :
  let r := run_all sample_cache (empty_redis 5000) one_call in
  fresh_score (KLiveAccount 7) "call-1" r = Some 35 /\
  fresh_score (KLiveAccount 7) "call-1" r = fresh_score (KLiveUser 8) "call-1" r /\
  fresh_score (KLiveUser 8) "call-1" r = fresh_score (KLiveAPIKey 9) "call-1" r.
Proof.
  split; [vm_compute; reflexivity|].
  apply (live_lease_together sample_cache eq_refl call_of 5000 one_call).
  - repeat split; cbn; lia.
  - repeat constructor.
  - reflexivity.
Defined.
