(* ===== verification/ConcurrencyIndex.v ===== *)
(** * The index of active accounts and users

    [accountActiveIndexKey] and [userActiveIndexKey] list who has slots or
    waiters, so that cleaning up does not scan the store.  As long as the
    operations follow each other, everyone with load is listed.  The cleanup a
    process does when it starts takes the slots of running processes too. *)

From stdpp Require Import pretty.
From S2P Require Import Prelude GoErrors GoTime GoStrings GoText Redis Concurrency ConcurrencyProps.

(** ** The two indexes *)

Inductive side := Accounts | Users.
#[global] Instance side_eq_dec : EqDecision side.
Proof. solve_decision. Defined.
Definition spec_of (s : side) : slotIndexSpec := match s with Accounts => accountSlotIndex | Users => userSlotIndex end.
Definition owner_of (s : side) (id : Z) : owner := match s with Accounts => OAccount id | Users => OUser id end.
Definition index_of (s : side) : skey := match s with Accounts => KAccountIndex | Users => KUserIndex end.
Definition wait_of (s : side) : Z -> string := waitKey (spec_of s).

Lemma spec_index s : indexKey (spec_of s) = key_name (index_of s).
Proof. by destruct s. Qed.
Lemma spec_slot s id : slotKey (spec_of s) id = key_name (regular (owner_of s id)).
Proof. by destruct s. Qed.

(** Slots or waiters. *)
Definition loaded (s : side) (id : Z) (r : Redis) : Prop :=
  zset (key_name (regular (owner_of s id))) r ≠ ∅ \/ 0 < default 0 (GET (wait_of s id) r).
Definition listed (s : side) (id : Z) (r : Redis) : Prop := is_Some (zset (key_name (index_of s)) r !! pretty id).
Definition in_range (id : Z) : Prop := 0 < id <= max_int64.

Record covered (r : Redis) : Prop := {
  cv_listed : ∀ s id, in_range id -> loaded s id r -> listed s id r;
  cv_index : ∀ s, zexp (key_name (index_of s)) r = None;
  cv_now : 0 <= rd_now r
}.

Lemma owner_inj s id s' id' : regular (owner_of s id) = regular (owner_of s' id') -> s = s' /\ id = id'.
Proof. destruct s, s'; cbn; intros [= ->]; done. Qed.
Lemma regular_not_index s id s' : regular (owner_of s id) ≠ index_of s'.
Proof. by destruct s, s'. Qed.
Lemma wait_inj s id s' id' : wait_of s id = wait_of s' id' -> s = s' /\ id = id'.
Proof.
  destruct s, s'; cbn; intros E; try discriminate E; apply append_inj, (inj pretty) in E; by subst.
Qed.

Lemma parse_pretty id : in_range id -> parse_member (pretty id) = Some id.
Proof.
  intros [H1 H2]. unfold parse_member. rewrite Atoi_pretty by (unfold min_int64, max_int64 in *; lia).
  by rewrite (proj2 (Z.leb_gt id 0)).
Qed.

(** ** What keeps everyone listed *)

(** The sets of slots and the counters shrink, the indexes stay. *)
Record lighter (r' r : Redis) : Prop := {
  lt_loaded : ∀ s id, loaded s id r' -> loaded s id r;
  lt_index : ∀ s, zset (key_name (index_of s)) r' = zset (key_name (index_of s)) r;
  lt_exp : ∀ s, zexp (key_name (index_of s)) r = None -> zexp (key_name (index_of s)) r' = None;
  lt_now : rd_now r <= rd_now r'
}.
#[local] Instance lighter_preorder : PreOrder lighter.
Proof.
  split; [by intros r; split|]. intros r1 r2 r3 [H1 H2 H3 H4] [H5 H6 H7 H8].
  split; [auto|by intros s; rewrite H2|auto|lia].
Qed.
Lemma lighter_covered r' r : lighter r' r -> covered r -> covered r'.
Proof.
  intros [H1 H2 H3 H4] [H5 H6 H7]. split; [|by auto|lia]. intros s id Hid Hl. unfold listed. rewrite H2. apply H5; auto.
Qed.

(** A sorted set that is no index shrinks, or grows where no slots are. *)
Lemma lighter_set k s r : (∀ s', k ≠ index_of s') ->
  ((∀ s' id, k ≠ regular (owner_of s' id)) \/ (s ≠ ∅ -> zset (key_name k) r ≠ ∅)) ->
  lighter (set_zset (key_name k) s r) r.
Proof.
  intros Hk Hs. split.
  - intros s' id [Hl|Hl]; [|by right]. rewrite zset_set in Hl. destruct (decide _) as [E|]; [|by left].
    apply (inj key_name) in E. destruct Hs as [Hs|Hs]; [by destruct (Hs s' id)|]. left. rewrite <- E. auto.
  - intros s'. apply zset_set_ne. by intros E%(inj key_name)%Hk.
  - intros s' Hx. rewrite zexp_set. rewrite decide_False; [done|]. by intros E%(inj key_name)%Hk.
  - done.
Qed.
Lemma not_empty_sub (s s' : zset_t) : s ⊆ s' -> s ≠ ∅ -> s' ≠ ∅.
Proof. intros Hs Hn ->. apply Hn. apply map_empty. intros i. destruct (s !! i) as [v|] eqn:E; [|done].
  by eapply lookup_weaken in E; [|exact Hs]. Qed.
Lemma lighter_purge k cut r : (∀ s', k ≠ index_of s') -> lighter (ZREMRANGEBYSCORE (key_name k) cut r) r.
Proof. intros Hk. apply lighter_set; [done|]. right. apply not_empty_sub, map_filter_subseteq. Qed.
Lemma lighter_ZREM k m r : (∀ s', k ≠ index_of s') -> lighter (ZREM (key_name k) m r) r.
Proof. intros Hk. apply lighter_set; [done|]. right. apply not_empty_sub, delete_subseteq. Qed.
Lemma lighter_elsewhere k n m r : (∀ s', k ≠ index_of s') -> (∀ s' id, k ≠ regular (owner_of s' id)) ->
  lighter (ZADD (key_name k) n m r) r.
Proof. intros Hk Hr. apply lighter_set; [done|by left]. Qed.
Lemma lighter_again k n m r : (∀ s', k ≠ index_of s') -> is_Some (zset (key_name k) r !! m) ->
  lighter (ZADD (key_name k) n m r) r.
Proof.
  intros Hk [v Hm]. apply lighter_set; [done|]. right. intros _ E. by rewrite E, lookup_empty in Hm.
Qed.
Lemma lighter_EXPIRE k T r : (∀ s', k ≠ index_of s') -> 0 < T -> lighter (EXPIRE (key_name k) T r) r.
Proof.
  intros Hk HT. split.
  - intros s id. unfold loaded. by rewrite zset_EXPIRE.
  - intros s. by rewrite zset_EXPIRE.
  - intros s Hx. rewrite zexp_EXPIRE by done. rewrite decide_False; [done|]. by intros E%(inj key_name)%Hk.
  - done.
Qed.
Lemma lighter_DEL k r : (∀ s', k ≠ index_of s') -> lighter (DEL_set (key_name k) r) r.
Proof.
  intros Hk. split.
  - intros s id [Hl|Hl]; [|by right]. rewrite zset_DEL in Hl. destruct (decide _); [done|by left].
  - intros s. rewrite zset_DEL. rewrite decide_False; [done|]. by intros E%(inj key_name)%Hk.
  - intros s Hx. rewrite zexp_DEL. by destruct (decide _).
  - done.
Qed.

(** Counters that do not grow. *)
Lemma lighter_ints r' r : rd_sets r' = rd_sets r -> rd_now r' = rd_now r ->
  (∀ k, 0 < default 0 (GET k r') -> 0 < default 0 (GET k r)) -> lighter r' r.
Proof.
  intros Hs Hn Hg. split.
  - intros s id [Hl|Hl]; [left|right; auto]. revert Hl. unfold zset. by rewrite Hs, Hn.
  - intros s. unfold zset. by rewrite Hs, Hn.
  - intros s. unfold zexp. by rewrite Hs, Hn.
  - lia.
Qed.

Lemma covered_tick d r : 0 <= d -> covered r -> covered (tick d r).
Proof.
  intros Hd [H1 H2 H3]. split.
  - intros s id Hid Hl. unfold listed. rewrite zset_tick, H2 by done. apply H1; [done|]. destruct Hl as [Hl|Hl].
    + left. intros E. apply Hl. rewrite zset_tick by done. destruct (zexp _ r); [|done]. by destruct (_ <=? _).
    + right. destruct (GET (wait_of s id) (tick d r)) as [v|] eqn:E; [|done]. cbn in Hl.
      by rewrite (GET_tick d _ r v Hd E).
  - intros s. destruct (zexp _ (tick d r)) as [x|] eqn:E; [|done]. apply zexp_tick in E; [|done]. by rewrite H2 in E.
  - cbn. lia.
Qed.

(** The index gains a member, or loses one without load. *)
Lemma covered_add s n m r : covered r -> covered (ZADD (key_name (index_of s)) n m r).
Proof.
  intros [H1 H2 H3]. assert (∀ s' k', zset (key_name (regular (owner_of s' k'))) (ZADD (key_name (index_of s)) n m r)
    = zset (key_name (regular (owner_of s' k'))) r) as Hz.
  { intros s' k'. apply zset_set_ne. intros E%(inj key_name). by eapply regular_not_index. }
  split; [| |done].
  - intros s' id Hid Hl. assert (loaded s' id r) as Hl' by (unfold loaded in *; by rewrite Hz in Hl).
    unfold listed, ZADD. rewrite zset_set. destruct (decide _) as [E|]; [|by apply H1].
    destruct (decide (m = pretty id)) as [->|Hne]; [by rewrite lookup_insert_eq|].
    rewrite lookup_insert_ne, E by done. by apply H1.
  - intros s'. unfold ZADD. rewrite zexp_set, !H2. repeat case_decide; done.
Qed.
Lemma covered_remove s m r : (∀ id, in_range id -> pretty id = m -> ~ loaded s id r) -> covered r ->
  covered (ZREM (key_name (index_of s)) m r).
Proof.
  intros Hm [H1 H2 H3]. assert (∀ s' k', zset (key_name (regular (owner_of s' k'))) (ZREM (key_name (index_of s)) m r)
    = zset (key_name (regular (owner_of s' k'))) r) as Hz.
  { intros s' k'. apply zset_set_ne. intros E%(inj key_name). by eapply regular_not_index. }
  split; [| |done].
  - intros s' id Hid Hl. assert (loaded s' id r) as Hl' by (unfold loaded in *; by rewrite Hz in Hl).
    unfold listed, ZREM. rewrite zset_set. destruct (decide _) as [E|]; [|by apply H1].
    apply (inj key_name) in E. assert (s' = s) as -> by (destruct s, s'; done).
    rewrite lookup_delete_ne; [by apply H1|]. intros ->. by destruct (Hm id).
  - intros s'. unfold ZREM. rewrite zexp_set, !H2. repeat case_decide; done.
Qed.

Section Index.
Context (c : concurrencyCache) (Hslot : 0 < slotTTLSeconds c) (Hwait : 0 < waitQueueTTLSeconds c).

(** ** Operations on one account or user *)

(** Someone may have gained load and is listed right away. *)
Lemma covered_gain s id e r r1 :
  covered r -> 0 < e ->
  (∀ s' id', loaded s' id' r1 -> loaded s' id' r \/ (s' = s /\ id' = id)) ->
  (∀ s', zset (key_name (index_of s')) r1 = zset (key_name (index_of s')) r) ->
  (∀ s', zexp (key_name (index_of s')) r1 = None) -> rd_now r1 = rd_now r ->
  covered (touchActiveIndexAt (key_name (index_of s)) id e r1).
Proof.
  intros [H1 H2 H3] He Hl Hi Hx Hn. unfold touchActiveIndexAt.
  rewrite (proj2 (Z.leb_gt e 0)), orb_false_r by done. destruct (Z.leb_spec id 0) as [Hid|Hid].
  - split; [|done|lia]. intros s' id' [Hr1 Hr2] Hl'. unfold listed. rewrite Hi.
    destruct (Hl s' id' Hl') as [Hl2|[-> ->]]; [by apply H1|lia].
  - assert (∀ s' k', zset (key_name (regular (owner_of s' k'))) (ZADD (key_name (index_of s)) e (pretty id) r1)
      = zset (key_name (regular (owner_of s' k'))) r1) as Hz.
    { intros s' k'. apply zset_set_ne. intros E%(inj key_name). by eapply regular_not_index. }
    split; [| |cbn; lia].
    + intros s' id' Hr Hl'. assert (loaded s' id' r1) as Hl2 by (unfold loaded in *; by rewrite Hz in Hl').
      unfold listed, ZADD. rewrite zset_set. destruct (Hl s' id' Hl2) as [Hl3|[-> ->]].
      * destruct (decide _) as [E|]; [|rewrite Hi; by apply H1]. apply (inj key_name) in E.
        destruct (decide (pretty id = pretty id')) as [->|Hne]; [by rewrite lookup_insert_eq|].
        rewrite lookup_insert_ne, E, Hi by done. by apply H1.
      * rewrite decide_True by done. by rewrite lookup_insert_eq.
    + intros s'. unfold ZADD. rewrite zexp_set, !Hx. repeat case_decide; done.
Qed.

Lemma now_pos r : covered r -> 0 <= TIME r.
Proof. intros [_ _ H]. unfold TIME. by apply Z.div_pos. Qed.

Lemma regular_no_index s id s' : regular (owner_of s id) ≠ index_of s'.
Proof. apply regular_not_index. Qed.
Lemma livek_no_index s id s' : livek (owner_of s id) ≠ index_of s'.
Proof. by destruct s, s'. Qed.
Lemma livek_no_regular s id s' id' : livek (owner_of s id) ≠ regular (owner_of s' id').
Proof. by destruct s, s'. Qed.

Lemma slot_gained s id req n r :
  covered r ->
  let r1 := EXPIRE (key_name (regular (owner_of s id))) (slotTTLSeconds c)
              (ZADD (key_name (regular (owner_of s id))) n req r) in
  covered (touchActiveIndexAt (key_name (index_of s)) id (TIME r + slotTTLSeconds c) r1).
Proof.
  intros Hc r1. pose proof (now_pos r Hc). apply (covered_gain s id _ r); [done|lia| | | |done].
  - intros s' id' [Hl|Hl]; [|left; by right]. unfold r1 in Hl. rewrite zset_EXPIRE in Hl by done.
    unfold ZADD in Hl. rewrite zset_set in Hl. destruct (decide _) as [E|]; [|left; by left].
    apply (inj key_name), owner_inj in E as [-> ->]. by right.
  - intros s'. unfold r1. rewrite zset_EXPIRE by done. apply zset_set_ne.
    intros E%(inj key_name). by eapply regular_no_index.
  - intros s'. unfold r1. rewrite zexp_EXPIRE by done. rewrite decide_False by (intros E%(inj key_name); by eapply regular_no_index).
    unfold ZADD. rewrite zexp_set, decide_False by (intros E%(inj key_name); by eapply regular_no_index). apply Hc.
Qed.

Lemma acquire_covered s id max req r :
  covered r ->
  covered (let '((result, now), r1) := acquireScript (key_name (regular (owner_of s id))) (key_name (livek (owner_of s id)))
                                     max (slotTTLSeconds c) req r in
           if result =? 1 then touchActiveIndexAt (key_name (index_of s)) id (now + slotTTLSeconds c) r1 else r1).
Proof.
  intros Hc. unfold acquireScript.
  set (r1 := ZREMRANGEBYSCORE (key_name (livek _)) _ (ZREMRANGEBYSCORE _ _ r)).
  assert (covered r1) as H1.
  { eapply lighter_covered; [|exact Hc]. etrans; [apply lighter_purge; intros s'; apply livek_no_index|].
    apply lighter_purge. intros s'. apply regular_no_index. }
  pose proof (slot_gained s id req (TIME r) r1 H1) as H2. change (TIME r1) with (TIME r) in H2.
  destruct (ZSCORE _ _ _); [exact H2|]. destruct (_ <? _); [exact H2|exact H1].
Qed.

Lemma incr_covered s id max r :
  covered r ->
  covered (let '((result, now), r1) := incrementWaitScript (wait_of s id) max (waitQueueTTLSeconds c) r in
           if result =? 1 then touchActiveIndexAt (key_name (index_of s)) id (now + waitQueueTTLSeconds c) r1 else r1).
Proof.
  intros Hc. pose proof (now_pos r Hc). unfold incrementWaitScript. destruct (_ <=? _); [exact Hc|].
  unfold INCR. cbn [Z.eqb Pos.eqb]. apply (covered_gain s id _ r); [done|lia| |done|apply Hc|done].
  intros s' id' [Hl|Hl]; [left; by left|]. rewrite GET_EXPIRE, GET_put in Hl by done.
  destruct (decide _) as [E|]; [|left; by right]. apply wait_inj in E as [-> ->]. by right.
Qed.

(** After a release the index is made to say what is there. *)
Lemma card_zero k r : ZCARD k r = 0 <-> zset k r = ∅.
Proof.
  unfold ZCARD. split; [|by intros ->]. intros H. apply map_size_empty_inv. lia.
Qed.
Lemma positive_count_pos v : positive_count v <= 0 -> ~ 0 < default 0 v.
Proof. destruct v as [n|]; cbn; [|lia]. destruct (Z.ltb_spec 0 n); lia. Qed.
Lemma idle_not_loaded s id r : ZCARD (key_name (regular (owner_of s id))) r = 0 ->
  positive_count (GET (wait_of s id) r) <= 0 -> ~ loaded s id r.
Proof. intros H1 H2 [Hl|Hl]; [by apply card_zero in H1|]. by apply positive_count_pos in H2. Qed.

Lemma upkeep_covered s id r :
  covered r ->
  covered (refreshActiveIndex c (key_name (index_of s)) id (key_name (regular (owner_of s id))) (wait_of s id) r).
Proof.
  intros Hc. unfold refreshActiveIndex. destruct (_ <=? _); [done|]. unfold readActiveLoadForKey.
  set (r1 := ZREMRANGEBYSCORE _ _ r).
  assert (covered r1) as H1.
  { eapply lighter_covered; [|exact Hc]. apply lighter_purge. intros s'. apply regular_no_index. }
  cbn [al_slotCount al_waitCount]. change (GET (wait_of s id) r) with (GET (wait_of s id) r1).
  destruct (Z.eqb_spec (ZCARD (key_name (regular (owner_of s id))) r1) 0) as [Ez|]; cbn [andb].
  - destruct (Z.leb_spec (positive_count (GET (wait_of s id) r1)) 0) as [Ep|].
    + apply covered_remove; [|done]. intros id' _ E%(inj pretty). subst id'. by apply idle_not_loaded.
    + destruct (_ <=? 0); [done|]. unfold touchActiveIndexAt. destruct (_ || _); [done|]. by apply covered_add.
  - destruct (_ <=? 0); [done|]. unfold touchActiveIndexAt. destruct (_ || _); [done|]. by apply covered_add.
Qed.

Lemma decr_lighter w r : lighter (decrementWaitScript w r).2 r.
Proof.
  unfold decrementWaitScript. destruct (GET w r) as [v|] eqn:E; [|done].
  destruct (Z.ltb_spec 0 v); [|done]. cbn. apply lighter_ints; [done|done|]. intros k. rewrite GET_put.
  destruct (decide _) as [<-|]; [|done]. rewrite E. cbn. lia.
Qed.
(** ** Cleaning up *)

Lemma load_lighter s id now r :
  lighter (readActiveLoadForKey c id (key_name (regular (owner_of s id))) (wait_of s id) now r).2 r.
Proof. apply lighter_purge. intros s'. apply regular_no_index. Qed.
Lemma lighter_not_loaded r' r s id : lighter r' r -> ~ loaded s id r -> ~ loaded s id r'.
Proof. intros [H _ _ _] Hn Hl. by apply Hn, H. Qed.

(** The loads that are read: a member that is not a number names nobody in
    range, and who is read as idle has no load, then and later. *)
Lemma readIndexLoads_spec s members now r loads stale r' :
  readIndexLoads c (spec_of s) members now r = (loads, stale, r') ->
  lighter r' r /\ (∀ m, m ∈ stale -> parse_member m = None) /\
  ∀ l, l ∈ loads -> parse_member (al_member l) = Some (al_id l) /\ (idle_load l = true -> ~ loaded s (al_id l) r').
Proof.
  revert r loads stale r'. induction members as [|m members IH]; cbn [readIndexLoads]; intros r loads stale r' H.
  { injection H as <- <- <-. split; [done|]. split; intros x Hx; by apply elem_of_nil in Hx. }
  destruct (parse_member m) as [id|] eqn:Em.
  - rewrite spec_slot in H. change (waitKey (spec_of s) id) with (wait_of s id) in H.
    pose proof (load_lighter s id now r) as Hlt.
    destruct (readActiveLoadForKey _ _ _ _ _ _) as [load r1] eqn:El; cbn [snd] in Hlt.
    destruct (readIndexLoads _ _ members now r1) as [[loads1 stale1] r2] eqn:Er. injection H as <- <- <-.
    destruct (IH _ _ _ _ Er) as (H1 & H2 & H3). split; [by etrans|]. split; [done|].
    intros l [->|Hl]%elem_of_cons; [|by apply H3]. cbn. split; [done|]. intros Hi.
    eapply lighter_not_loaded; [exact H1|]. apply andb_true_iff in Hi as [Hi1%Z.eqb_eq Hi2%Z.leb_le]; cbn in Hi1, Hi2.
    injection El as <- <-. cbn in Hi1, Hi2. apply idle_not_loaded; [exact Hi1|exact Hi2].
  - destruct (readIndexLoads _ _ members now r) as [[loads1 stale1] r2] eqn:Er. injection H as <- <- <-.
    destruct (IH _ _ _ _ Er) as (H1 & H2 & H3). split; [done|]. split; [|done].
    intros x [->|Hx]%elem_of_cons; [done|by apply H2].
Qed.

Lemma covered_adds s (l : list activeIndexLoad) f r : covered r ->
  covered (foldl (λ r l, ZADD (key_name (index_of s)) (f l) (al_member l) r) r l).
Proof. revert r. induction l as [|x l IH]; cbn; intros r Hc; [done|]. by apply IH, covered_add. Qed.
Lemma covered_adds_members s (l : list string) n r : covered r ->
  covered (foldl (λ r m, ZADD (key_name (index_of s)) n m r) r l).
Proof. revert r. induction l as [|x l IH]; cbn; intros r Hc; [done|]. by apply IH, covered_add. Qed.

(** Adding and removing members of an index changes no load. *)
Lemma index_loaded s n m s' id r : loaded s' id (ZADD (key_name (index_of s)) n m r) <-> loaded s' id r.
Proof.
  unfold loaded, ZADD. rewrite zset_set_ne; [done|]. intros E%(inj key_name). by eapply regular_not_index.
Qed.
Lemma index_rem_loaded s m s' id r : loaded s' id (ZREM (key_name (index_of s)) m r) <-> loaded s' id r.
Proof.
  unfold loaded, ZREM. rewrite zset_set_ne; [done|]. intros E%(inj key_name). by eapply regular_not_index.
Qed.
Lemma adds_loaded s (l : list activeIndexLoad) f s' id r :
  loaded s' id (foldl (λ r l, ZADD (key_name (index_of s)) (f l) (al_member l) r) r l) <-> loaded s' id r.
Proof. revert r. induction l as [|x l IH]; cbn; intros r; [done|]. by rewrite IH, index_loaded. Qed.
Lemma adds_members_loaded s (l : list string) n s' id r :
  loaded s' id (foldl (λ r m, ZADD (key_name (index_of s)) n m r) r l) <-> loaded s' id r.
Proof. revert r. induction l as [|x l IH]; cbn; intros r; [done|]. by rewrite IH, index_loaded. Qed.

Lemma covered_removes s ms r :
  covered r -> (∀ m, m ∈ ms -> ∀ id, parse_member m = Some id -> ~ loaded s id r) ->
  covered (removeActiveIndexMembers (key_name (index_of s)) ms r).
Proof.
  unfold removeActiveIndexMembers. revert r. induction ms as [|m ms IH]; cbn; intros r Hc Hm; [done|]. apply IH.
  - apply covered_remove; [|done]. intros id Hid <-. apply (Hm (pretty id)); [by left|by apply parse_pretty].
  - intros m' Hm' id Hid. rewrite index_rem_loaded. eapply Hm; [by right|done].
Qed.

Lemma reconcile_covered s r : covered r -> covered (reconcileExpiredIndexCandidates c (spec_of s) r).
Proof.
  intros Hc. unfold reconcileExpiredIndexCandidates. rewrite spec_index.
  destruct (readIndexLoads _ _ _ _ r) as [[loads stale] r1] eqn:E.
  destruct (readIndexLoads_spec s _ _ _ _ _ _ E) as (H1 & H2 & H3).
  apply covered_removes.
  - apply (covered_adds s _ (λ l, TIME r + activeIndexTTL c (al_slotCount l) (al_waitCount l))).
    by eapply lighter_covered.
  - intros m [Hm|Hm]%elem_of_app id Hid.
    + by rewrite (H2 m Hm) in Hid.
    + apply list_elem_of_fmap in Hm as (l & -> & Hl). apply elem_of_filterb in Hl as [Hl Hi].
      destruct (H3 l Hl) as [H4 H5]. assert (al_id l = id) as <- by congruence.
      rewrite (adds_loaded s _ (λ l, TIME r + activeIndexTTL c (al_slotCount l) (al_waitCount l))). by apply H5.
Qed.

(** The cleanup of a starting process. *)
Lemma remove_foreign_lighter k pre ms r : (∀ s', k ≠ index_of s') -> lighter (remove_foreign (key_name k) pre ms r).2 r.
Proof.
  intros Hk. revert r. induction ms as [|m ms IH]; cbn; intros r; [done|]. destruct (HasPrefix m pre); [by apply IH|].
  specialize (IH (ZREM (key_name k) m r)). destruct (remove_foreign _ _ _ _); cbn in *.
  etrans; [exact IH|by apply lighter_ZREM].
Qed.
Lemma settle_lighter k T r : (∀ s', k ≠ index_of s') -> 0 < T ->
  lighter (if ZCARD (key_name k) r =? 0 then DEL_set (key_name k) r else EXPIRE (key_name k) T r) r.
Proof. intros Hk HT. destruct (_ =? 0); [by apply lighter_DEL|by apply lighter_EXPIRE]. Qed.
Lemma del_wait_lighter w r : lighter (DEL_int w r) r.
Proof. apply lighter_ints; [done|done|]. intros k. rewrite GET_DEL. by destruct (decide _). Qed.

Lemma startup_script_spec s id pre r removed remaining r1 :
  startupCleanupSlotScript (key_name (regular (owner_of s id))) pre (slotTTLSeconds c) r = ((removed, remaining), r1) ->
  lighter r1 r /\ (remaining <= 0 -> zset (key_name (regular (owner_of s id))) r1 = ∅).
Proof.
  unfold startupCleanupSlotScript.
  pose proof (remove_foreign_lighter (regular (owner_of s id)) pre (ZRANGE (key_name (regular (owner_of s id))) r) r
    (regular_no_index s id)) as Hf.
  destruct (remove_foreign _ _ _ _) as [n r0]; cbn [snd] in Hf. intros [= <- <- <-]. split.
  - etrans; [apply settle_lighter; [apply regular_no_index|done]|exact Hf].
  - intros Hz. assert (ZCARD (key_name (regular (owner_of s id))) r0 = 0) as E by (unfold ZCARD in *; lia).
    rewrite E, Z.eqb_refl, zset_DEL. by rewrite decide_True.
Qed.

Lemma cleanup_members_spec s members pre r refreshed stale r' :
  cleanup_members c (spec_of s) members pre r = (refreshed, stale, r') ->
  lighter r' r /\ ∀ m, m ∈ stale -> ∀ id, parse_member m = Some id -> ~ loaded s id r'.
Proof.
  revert r refreshed stale r'. induction members as [|m members IH]; cbn [cleanup_members]; intros r refreshed stale r' H.
  { injection H as <- <- <-. split; [done|]. intros x Hx. by apply elem_of_nil in Hx. }
  destruct (parse_member m) as [id|] eqn:Em.
  - rewrite spec_slot in H. change (waitKey (spec_of s) id) with (wait_of s id) in H.
    destruct (startupCleanupSlotScript _ _ _ r) as [[removed remaining] r1] eqn:Es.
    destruct (startup_script_spec s id pre r removed remaining r1 Es) as [Hlt Hz].
    destruct (cleanup_members _ _ members pre (DEL_int (wait_of s id) r1)) as [[refreshed1 stale1] r2] eqn:Er.
    destruct (IH _ _ _ _ Er) as [H1 H2].
    assert (lighter r2 r) as H3 by (etrans; [exact H1|]; etrans; [apply del_wait_lighter|exact Hlt]).
    assert (remaining <= 0 -> ~ loaded s id r2) as H4.
    { intros Hr. eapply lighter_not_loaded; [exact H1|]. intros [Hl|Hl].
      - apply Hl. exact (Hz Hr).
      - rewrite GET_DEL, decide_True in Hl by done. done. }
    destruct (Z.ltb_spec 0 remaining) as [Hp|Hp]; injection H as <- <- <-; (split; [done|]).
    + exact H2.
    + intros x [->|Hx]%elem_of_cons id' Hid; [|by eapply H2]. assert (id' = id) as -> by congruence. by apply H4.
  - destruct (cleanup_members _ _ members pre r) as [[refreshed1 stale1] r2] eqn:Er. injection H as <- <- <-.
    destruct (IH _ _ _ _ Er) as [H1 H2]. split; [done|].
    intros x [->|Hx]%elem_of_cons id' Hid; [congruence|by eapply H2].
Qed.

Lemma startup_index_covered s members pre now r :
  covered r -> covered (cleanupStaleProcessSlotsForIndex c (spec_of s) members pre now r).
Proof.
  intros Hc. unfold cleanupStaleProcessSlotsForIndex. rewrite spec_index.
  destruct (cleanup_members _ _ members pre r) as [[refreshed stale] r1] eqn:E.
  destruct (cleanup_members_spec s _ _ _ _ _ _ E) as [H1 H2]. apply covered_removes.
  - apply covered_adds_members. by eapply lighter_covered.
  - intros m Hm id Hid. rewrite adds_members_loaded. by eapply H2.
Qed.

Lemma sweep_lighter r : lighter (sweepLegacyWaitKeysOnce r) r.
Proof.
  unfold sweepLegacyWaitKeysOnce. destruct (GET_str _ _); [done|]. apply lighter_ints; [done|done|].
  intros k. unfold GET, SET_str, delete_ints, with_strs, with_ints; cbn. unfold live. rewrite !map_lookup_filter.
  destruct (rd_ints r !! k) as [e|]; cbn; [|done]. repeat case_guard; cbn; done.
Qed.
Lemma startup_covered pre r : covered r -> covered (CleanupStaleProcessSlots c pre r).
Proof.
  intros Hc. unfold CleanupStaleProcessSlots. destruct (str_empty pre); [done|].
  apply (startup_index_covered Users), (startup_index_covered Accounts). eapply lighter_covered; [apply sweep_lighter|done].
Qed.

(** ** Every operation *)

Inductive op :=
| OAcquire (s : side) (id max : Z) (req : string)
| ORelease (s : side) (id : Z) (req : string)
| OCount (s : side) (id : Z)
| OIncr (s : side) (id max : Z)
| ODecr (s : side) (id : Z)
| OAccountBatch (ids : list Z)
| OLoads (s : side) (l : list AccountWithConcurrency)
| OTrack (k : Z) (req : string)
| OUntrack (k : Z) (req : string)
| OKeyBatch (ids : list Z)
| OIngress (k max : Z) (lease : string)
| OIngressRefresh (k : Z) (lease : string)
| OIngressRelease (k : Z) (lease : string)
| OLive (a am u um k : Z) (lease : string) (replacing : bool)
| OLiveRefresh (a u k : Z) (lease : string)
| OLiveRelease (a u k : Z) (lease : string)
| OCleanupSlots (id : Z)
| OCleanupKeys
| OStartup (pre : string)
| OTick (d : Z).

Definition perform (r : Redis) (o : op) : Redis :=
  match o with
  | OAcquire Accounts id max req => (AcquireAccountSlot c id max req r).2
  | OAcquire Users id max req => (AcquireUserSlot c id max req r).2
  | ORelease Accounts id req => ReleaseAccountSlot c id req r
  | ORelease Users id req => ReleaseUserSlot c id req r
  | OCount Accounts id => (GetAccountConcurrency c id r).2
  | OCount Users id => (GetUserConcurrency c id r).2
  | OIncr Accounts id max => (IncrementAccountWaitCount c id max r).2
  | OIncr Users id max => (IncrementWaitCount c id max r).2
  | ODecr Accounts id => DecrementAccountWaitCount c id r
  | ODecr Users id => DecrementWaitCount c id r
  | OAccountBatch ids => (GetAccountConcurrencyBatch c ids r).2
  | OLoads Accounts l => (GetAccountsLoadBatch c l r).2
  | OLoads Users l => (GetUsersLoadBatch c l r).2
  | OTrack k req => TrackAPIKeySlot c k req r
  | OUntrack k req => ReleaseAPIKeySlot k req r
  | OKeyBatch ids => (GetAPIKeyConcurrencyBatch c ids r).2
  | OIngress k max lease => (AcquireOpenAIWSIngressLease k max lease r).2
  | OIngressRefresh k lease => (RefreshOpenAIWSIngressLease k lease r).2
  | OIngressRelease k lease => ReleaseOpenAIWSIngressLease k lease r
  | OLive a am u um k lease rep => (AcquireLiveLease a am u um k lease rep r).2
  | OLiveRefresh a u k lease => (RefreshLiveLease a u k lease r).2
  | OLiveRelease a u k lease => ReleaseLiveLease a u k lease r
  | OCleanupSlots id => CleanupExpiredAccountSlots c id r
  | OCleanupKeys => CleanupExpiredAccountSlotKeys c r
  | OStartup pre => CleanupStaleProcessSlots c pre r
  | OTick d => tick d r
  end.
Definition forward (o : op) : Prop := match o with OTick d => 0 <= d | _ => True end.

(** A key that holds neither the slots of an owner nor an index. *)
Definition aside (k : skey) : Prop := (∀ s, k ≠ index_of s) /\ ∀ s id, k ≠ regular (owner_of s id).
Lemma aside_take k T n m r : aside k -> 0 < T -> lighter (EXPIRE (key_name k) T (ZADD (key_name k) n m r)) r.
Proof. intros [H1 H2] HT. etrans; [by apply lighter_EXPIRE|by apply lighter_elsewhere]. Qed.
Lemma aside_purge_take k T m cut r (b : bool) : aside k -> 0 < T ->
  lighter (if b then EXPIRE (key_name k) T (ZADD (key_name k) (TIME r) m (ZREMRANGEBYSCORE (key_name k) cut r))
           else ZREMRANGEBYSCORE (key_name k) cut r) r.
Proof.
  intros Hk HT. assert (lighter (ZREMRANGEBYSCORE (key_name k) cut r) r) by (apply lighter_purge, Hk).
  destruct b; [|done]. etrans; [by apply aside_take|done].
Qed.
Ltac solve_aside := split; intros []; intros; discriminate.
Lemma aside_key k : aside (KAPIKey k). Proof. solve_aside. Qed.
Lemma aside_ingress k : aside (KIngress k). Proof. solve_aside. Qed.
Lemma aside_live_account k : aside (KLiveAccount k). Proof. solve_aside. Qed.
Lemma aside_live_user k : aside (KLiveUser k). Proof. solve_aside. Qed.
Lemma aside_live_key k : aside (KLiveAPIKey k). Proof. solve_aside. Qed.

Lemma count_key_lighter slot livekey now r k1 k2 :
  slot = key_name k1 -> livekey = key_name k2 -> (∀ s, k1 ≠ index_of s) -> (∀ s, k2 ≠ index_of s) ->
  lighter (count_key c slot livekey now r).2 r.
Proof. intros -> -> H1 H2. cbn. etrans; by apply lighter_purge. Qed.
Lemma count_batch_lighter slot livekey now ids acc r (mk1 mk2 : Z -> skey) :
  (∀ id, slot id = key_name (mk1 id) /\ livekey id = key_name (mk2 id) /\
         (∀ s, mk1 id ≠ index_of s) /\ (∀ s, mk2 id ≠ index_of s)) ->
  lighter (count_batch c slot livekey now ids acc r).2 r.
Proof.
  intros Hk. revert acc r. induction ids as [|id ids IH]; cbn [count_batch]; intros acc r; [done|].
  destruct (Hk id) as (E1 & E2 & H1 & H2).
  pose proof (count_key_lighter _ _ now r _ _ E1 E2 H1 H2) as Hl.
  destruct (count_key _ _ _ _ _) as [n r1]; cbn [snd] in Hl. etrans; [apply IH|exact Hl].
Qed.
Lemma load_batch_lighter s livekey now l m r :
  (∀ id, livekey id = key_name (livek (owner_of s id))) ->
  lighter (load_batch c (λ id, key_name (regular (owner_of s id))) livekey (wait_of s) now l m r).2 r.
Proof.
  intros Hk. revert m r. induction l as [|a l IH]; cbn [load_batch]; intros m r; [done|]. unfold load_info.
  pose proof (count_key_lighter _ _ now r _ _ eq_refl (Hk (awc_ID a)) (regular_no_index s (awc_ID a)) (livek_no_index s (awc_ID a))) as Hl.
  destruct (count_key _ _ _ _ _) as [n r1]; cbn [snd] in Hl. etrans; [apply IH|exact Hl].
Qed.

Lemma ingress_lighter k max lease r : lighter (AcquireOpenAIWSIngressLease k max lease r).2 r.
Proof.
  unfold AcquireOpenAIWSIngressLease. destruct (_ || _); [done|]. unfold acquireOpenAIWSIngressLeaseScript.
  destruct (ZSCORE _ _ _); [|destruct (_ <? _)]; cbn [snd].
  - apply (aside_purge_take (KIngress k) 60 lease _ r true); [apply aside_ingress|done].
  - apply (aside_purge_take (KIngress k) 60 lease _ r true); [apply aside_ingress|done].
  - apply (aside_purge_take (KIngress k) 60 lease _ r false); [apply aside_ingress|done].
Qed.
Lemma ingress_refresh_lighter k lease r : lighter (RefreshOpenAIWSIngressLease k lease r).2 r.
Proof.
  unfold RefreshOpenAIWSIngressLease. destruct (_ || _); [done|]. unfold refreshOpenAIWSIngressLeaseScript.
  destruct (ZSCORE _ _ _); cbn [snd].
  - apply (aside_purge_take (KIngress k) 60 lease _ r true); [apply aside_ingress|done].
  - apply (aside_purge_take (KIngress k) 60 lease _ r false); [apply aside_ingress|done].
Qed.

Lemma live_lighter a am u um k lease rep r : lighter (AcquireLiveLease a am u um k lease rep r).2 r.
Proof.
  unfold AcquireLiveLease. destruct (_ || _); [done|]. unfold acquireLiveLeaseScript.
  set (r1 := ZREMRANGEBYSCORE _ _ (ZREMRANGEBYSCORE _ _ (ZREMRANGEBYSCORE _ _ r))).
  pose proof (aside_live_account a) as [A1 A2]. pose proof (aside_live_user u) as [U1 U2].
  pose proof (aside_live_key k) as [K1 K2].
  assert (lighter r1 r) as H1.
  { etrans; [by apply (lighter_purge (KLiveAPIKey k))|]. etrans; [by apply (lighter_purge (KLiveUser u))|].
    by apply (lighter_purge (KLiveAccount a)). }
  destruct (ZSCORE _ _ _); [done|]. destruct (_ && _); [done|]. destruct (_ && _); [done|]. cbn [snd].
  etrans; [|exact H1]. etrans; [by apply (lighter_EXPIRE (KLiveAPIKey k))|].
  etrans; [by apply (lighter_EXPIRE (KLiveUser u))|]. etrans; [by apply (lighter_EXPIRE (KLiveAccount a))|].
  etrans; [by apply (lighter_elsewhere (KLiveAPIKey k))|]. etrans; [by apply (lighter_elsewhere (KLiveUser u))|].
  by apply (lighter_elsewhere (KLiveAccount a)).
Qed.
Lemma hold_lighter ks cut m r : Forall aside ks -> lighter (all_hold (map key_name ks) cut m r).2 r.
Proof.
  intros Hf. revert r. induction Hf as [|k ks [H1 H2] _ IH]; cbn; intros r; [done|].
  assert (lighter (ZREMRANGEBYSCORE (key_name k) cut r) r) by (by apply lighter_purge).
  destruct (ZSCORE _ _ _); [|done]. by etrans; [apply IH|].
Qed.
Lemma refresh_all_lighter ks n T m r : 0 < T -> Forall aside ks -> lighter (refresh_all (map key_name ks) n T m r) r.
Proof.
  intros HT Hf. revert r. induction Hf as [|k ks Hk _ IH]; cbn; intros r; [done|].
  etrans; [apply IH|by apply aside_take].
Qed.
Lemma live_aside a u k : Forall aside (live_skeys a u k).
Proof. repeat constructor; try apply aside_live_account; try apply aside_live_user; apply aside_live_key. Qed.
Lemma live_refresh_lighter a u k lease r : lighter (RefreshLiveLease a u k lease r).2 r.
Proof.
  unfold RefreshLiveLease. destruct (str_empty lease); [done|]. unfold refreshLiveLeaseScript.
  change (live_keys a u k) with (map key_name (live_skeys a u k)).
  pose proof (hold_lighter (live_skeys a u k) (TIME r - liveLeaseTTLSeconds) lease r (live_aside a u k)) as H.
  destruct (all_hold _ _ _ _) as [held r1]; cbn [snd] in H. destruct held; cbn [snd]; [|done].
  etrans; [by apply refresh_all_lighter; [|apply live_aside]|exact H].
Qed.
Lemma live_release_lighter a u k lease r : lighter (ReleaseLiveLease a u k lease r) r.
Proof.
  unfold ReleaseLiveLease. destruct (str_empty lease); [done|]. cbn.
  etrans; [apply (lighter_ZREM (KLiveAPIKey k)), aside_live_key|].
  etrans; [apply (lighter_ZREM (KLiveUser u)), aside_live_user|]. apply (lighter_ZREM (KLiveAccount a)), aside_live_account.
Qed.

Lemma release_covered s id req r : covered r -> covered (perform r (ORelease s id req)).
Proof.
  intros Hc. assert (covered (ZREM (key_name (regular (owner_of s id))) req r)) as H.
  { eapply lighter_covered; [|exact Hc]. apply lighter_ZREM, regular_no_index. }
  destruct s; [exact (upkeep_covered Accounts id _ H)|exact (upkeep_covered Users id _ H)].
Qed.
Lemma decrement_covered s id r : covered r -> covered (perform r (ODecr s id)).
Proof.
  intros Hc. assert (covered (decrementWaitScript (wait_of s id) r).2) as H by (eapply lighter_covered; [apply decr_lighter|done]).
  destruct s; [exact (upkeep_covered Accounts id _ H)|exact (upkeep_covered Users id _ H)].
Qed.
Lemma acquire_op_covered s id max req r : covered r -> covered (perform r (OAcquire s id max req)).
Proof.
  intros Hc. pose proof (acquire_covered s id max req r Hc) as H. destruct s; cbn in *;
    unfold AcquireAccountSlot, AcquireUserSlot; destruct (acquireScript _ _ _ _ _ _) as [[res now] r1]; exact H.
Qed.
Lemma increment_covered s id max r : covered r -> covered (perform r (OIncr s id max)).
Proof.
  intros Hc. pose proof (incr_covered s id max r Hc) as H. destruct s; cbn [perform];
    unfold IncrementAccountWaitCount, IncrementWaitCount, incrementAccountWaitScript.
  - change (accountWaitKey id) with (wait_of Accounts id). destruct (incrementWaitScript _ _ _ _) as [[res now] r1]; exact H.
  - change (waitQueueKey id) with (wait_of Users id). destruct (incrementWaitScript _ _ _ _) as [[res now] r1]; exact H.
Qed.

Lemma count_lighter s id r : lighter (perform r (OCount s id)) r.
Proof.
  assert (lighter (getCountScript (key_name (regular (owner_of s id))) (key_name (livek (owner_of s id)))
                     (slotTTLSeconds c) r).2 r) as H.
  { cbn. etrans; [apply lighter_purge, livek_no_index|apply lighter_purge, regular_no_index]. }
  by destruct s.
Qed.

Lemma perform_covered r o : forward o -> covered r -> covered (perform r o).
Proof.
  intros Hf Hc. assert (lighter (perform r o) r -> covered (perform r o)) as Hl by (intros H; by eapply lighter_covered).
  destruct o as [s id max req|s id req|s id|s id max|s id|ids|s l|k req|k req|ids|k max lease|k lease|k lease
    |a am u um k lease rep|a u k lease|a u k lease|id| |pre|d].
  - by apply acquire_op_covered.
  - by apply release_covered.
  - by apply Hl, count_lighter.
  - by apply increment_covered.
  - by apply decrement_covered.
  - apply Hl, (count_batch_lighter _ _ _ _ _ _ KAccount KLiveAccount). intros id. split_and!; [done|done|by intros []..].
  - apply Hl. destruct s; [by apply (load_batch_lighter Accounts)|by apply (load_batch_lighter Users)].
  - apply Hl, (aside_purge_take (KAPIKey k) _ req _ r true); [apply aside_key|done].
  - apply Hl, (lighter_ZREM (KAPIKey k)), aside_key.
  - apply Hl, (count_batch_lighter _ _ _ _ _ _ KAPIKey KLiveAPIKey). intros id. split_and!; [done|done|by intros []..].
  - apply Hl, ingress_lighter.
  - apply Hl, ingress_refresh_lighter.
  - apply Hl. cbn. unfold ReleaseOpenAIWSIngressLease. destruct (_ || _); [done|].
    apply (lighter_ZREM (KIngress k)), aside_ingress.
  - apply Hl, live_lighter.
  - apply Hl, live_refresh_lighter.
  - apply Hl, live_release_lighter.
  - assert (covered (cleanupExpiredSlotsScript (accountSlotKey id) (slotTTLSeconds c) r).2) as H.
    { eapply lighter_covered; [|exact Hc]. etrans; [apply (settle_lighter (KAccount id)); [apply (regular_no_index Accounts)|done]|].
      apply (lighter_purge (KAccount id)), (regular_no_index Accounts). }
    exact (upkeep_covered Accounts id _ H).
  - by apply (reconcile_covered Users), (reconcile_covered Accounts).
  - by apply startup_covered.
  - by apply covered_tick.
Qed.

(** C34. Everyone with load is listed: after any sequence of operations on an
    empty store, an account or user (with an identifier the database can
    give) that has a slot, counted or stale, or a waiter is a member of its
    index, so the cleanups that go by the index miss nobody. *)
Theorem index_covers now l s id :
  0 <= now -> Forall forward l -> in_range id ->
  let r := foldl perform (empty_redis now) l in
  loaded s id r -> listed s id r.
Proof.
  intros Hn Hf Hid. assert (covered (empty_redis now)) as H0.
  { split; [|done|done]. intros s' id' _ [H|H]; done. }
  enough (covered (foldl perform (empty_redis now) l)) as [H _ _] by (by apply H).
  revert H0. generalize (empty_redis now). clear -Hf Hslot Hwait.
  induction Hf as [|o l Ho _ IH]; cbn; intros r Hr; [done|]. by apply IH, perform_covered.
Qed.

End Index.

(** ** At a concrete input *)

Definition morning : list op :=
  [OAcquire Accounts 7 1 "ra-1"; OIncr Accounts 7 5; OTick 2000; ORelease Accounts 7 "ra-1"; OCleanupKeys].
Lemma index_covers_witness :
  loaded Accounts 7 (foldl (perform sample_cache) (empty_redis 5000) morning) /\
  listed Accounts 7 (foldl (perform sample_cache) (empty_redis 5000) morning).
Proof.
  assert (loaded Accounts 7 (foldl (perform sample_cache) (empty_redis 5000) morning)) as Hl.
  { right. vm_compute. reflexivity. }
  split; [exact Hl|].
  apply (index_covers sample_cache eq_refl eq_refl 5000 morning); [lia|repeat constructor; cbn; lia| |exact Hl].
  split; [lia|unfold max_int64; lia].
Defined.
