(* ===== verification/ConcurrencyStartup.v ===== *)
(** * The cleanup of a starting process

    [CleanupStaleProcessSlots] runs in every process that starts.  It leaves
    the account and user slots of this process' prefix exactly as they are, and
    takes all others, those of processes that run at the same time included. *)

From stdpp Require Import pretty.
From S2P Require Import Prelude GoErrors GoTime GoStrings GoText Redis Concurrency ConcurrencyProps ConcurrencyIndex.

(** The members a process with the prefix [pre] made. *)
Definition own (pre : string) (z : zset_t) : zset_t := filter (λ kv, HasPrefix kv.1 pre = true) z.

Lemma own_own pre z : own pre (own pre z) = own pre z.
Proof. apply map_filter_id. by intros k v [_ H]%map_lookup_filter_Some. Qed.
Lemma own_delete pre z m : HasPrefix m pre = false -> own pre (delete m z) = own pre z.
Proof.
  intros Hm. unfold own. rewrite map_filter_delete. apply delete_id. apply map_lookup_filter_None. right.
  intros v _. cbn. congruence.
Qed.

Section Startup.
Context (c : concurrencyCache) (Hslot : 0 < slotTTLSeconds c) (Hwait : 0 < waitQueueTTLSeconds c).
Context (pre : string).

Definition slots (s : side) (id : Z) (r : Redis) : zset_t := zset (key_name (regular (owner_of s id))) r.
Definition waiting (s : side) (id : Z) (r : Redis) : Z := default 0 (GET (wait_of s id) r).

(** Sets of slots that stay or lose what is foreign, counters that stay or go. *)
Record trimmed (r' r : Redis) : Prop := {
  tr_slots : ∀ s id, slots s id r' = slots s id r \/ slots s id r' = own pre (slots s id r);
  tr_wait : ∀ s id, waiting s id r' = waiting s id r \/ waiting s id r' = 0
}.
#[local] Instance trimmed_preorder : PreOrder trimmed.
Proof.
  split; [by intros r; split; left|]. intros r1 r2 r3 [H1 H2] [H3 H4]. split; intros s id.
  - destruct (H1 s id) as [->| ->], (H3 s id) as [E|E]; rewrite E, ?own_own; auto.
  - destruct (H2 s id) as [->|E]; [|by right]. apply H4.
Qed.

Definition cleaned (s : side) (id : Z) (r' r : Redis) : Prop :=
  slots s id r' = own pre (slots s id r) /\ waiting s id r' = 0.
Lemma cleaned_before s id r3 r2 r1 : trimmed r3 r2 -> cleaned s id r2 r1 -> cleaned s id r3 r1.
Proof.
  intros [H1 H2] [H3 H4]. split.
  - destruct (H1 s id) as [->| ->]; rewrite H3, ?own_own; done.
  - destruct (H2 s id) as [->| ->]; done.
Qed.
Lemma cleaned_after s id r3 r2 r1 : trimmed r2 r1 -> cleaned s id r3 r2 -> cleaned s id r3 r1.
Proof. intros [H1 _] [H3 H4]. split; [|done]. rewrite H3. destruct (H1 s id) as [->| ->]; rewrite ?own_own; done. Qed.

(** Steps that touch no slots and no counters. *)
Lemma trimmed_same r' r : (∀ s id, slots s id r' = slots s id r) -> (∀ s id, waiting s id r' = waiting s id r) -> trimmed r' r.
Proof. intros H1 H2. split; auto. Qed.
Lemma index_slots s n m r : trimmed (ZADD (key_name (index_of s)) n m r) r.
Proof.
  apply trimmed_same; [|done]. intros s' id. apply zset_set_ne. intros E%(inj key_name). by eapply regular_not_index.
Qed.
Lemma index_rem_slots s m r : trimmed (ZREM (key_name (index_of s)) m r) r.
Proof.
  apply trimmed_same; [|done]. intros s' id. apply zset_set_ne. intros E%(inj key_name). by eapply regular_not_index.
Qed.
Lemma adds_trimmed s (l : list string) n r : trimmed (foldl (λ r m, ZADD (key_name (index_of s)) n m r) r l) r.
Proof. revert r. induction l as [|x l IH]; cbn; intros r; [done|]. etrans; [apply IH|apply index_slots]. Qed.
Lemma removes_trimmed s ms r : trimmed (removeActiveIndexMembers (key_name (index_of s)) ms r) r.
Proof.
  unfold removeActiveIndexMembers. revert r. induction ms as [|x l IH]; cbn; intros r; [done|].
  etrans; [apply IH|apply index_rem_slots].
Qed.

(** The script on one set. *)
Lemma member_ZRANGE k m r : is_Some (zset k r !! m) -> m ∈ ZRANGE k r.
Proof.
  intros [v Hv]. unfold ZRANGE. apply list_elem_of_fmap. exists (m, v). split; [done|].
  apply elem_of_stable_sort. by apply elem_of_map_to_list.
Qed.

Lemma foreign_removed k ms r :
  zset k (remove_foreign k pre ms r).2
  = filter (λ kv, ~ (kv.1 ∈ ms /\ HasPrefix kv.1 pre = false)) (zset k r).
Proof.
  revert r. induction ms as [|m ms IH]; cbn [remove_foreign]; intros r.
  { symmetry. apply map_filter_id. intros i v _ [H _]. by apply elem_of_nil in H. }
  destruct (HasPrefix m pre) eqn:Em.
  - rewrite IH. apply map_filter_ext. intros i v _. cbn. rewrite elem_of_cons.
    split; intros H [H1 H2]; apply H; (split; [|done]); [|by right].
    destruct H1 as [->|H1]; [congruence|done].
  - specialize (IH (ZREM k m r)). destruct (remove_foreign k pre ms (ZREM k m r)) as [n r1]; cbn [snd] in *.
    rewrite IH. unfold ZREM. rewrite zset_set_eq. apply map_eq. intros i. apply option_eq. intros v.
    rewrite !map_lookup_filter_Some, lookup_delete_Some; cbn. rewrite elem_of_cons. split.
    + intros [[Hi Hv] Hn]. split; [done|]. intros [[->|H1] H2]; [done|auto].
    + intros [Hv Hn]. split_and!; [|done|].
      * intros <-. apply Hn. auto.
      * intros [H1 H2]. apply Hn. auto.
Qed.
Lemma foreign_elsewhere k k' ms r : k ≠ k' -> zset k' (remove_foreign k pre ms r).2 = zset k' r.
Proof.
  intros Hk. revert r. induction ms as [|m ms IH]; cbn [remove_foreign]; intros r; [done|].
  destruct (HasPrefix m pre); [apply IH|]. specialize (IH (ZREM k m r)).
  destruct (remove_foreign k pre ms (ZREM k m r)); cbn [snd] in *. rewrite IH. by apply zset_set_ne.
Qed.
Lemma foreign_ints k ms r : rd_ints (remove_foreign k pre ms r).2 = rd_ints r /\ rd_now (remove_foreign k pre ms r).2 = rd_now r.
Proof.
  revert r. induction ms as [|m ms IH]; cbn [remove_foreign]; intros r; [done|].
  destruct (HasPrefix m pre); [apply IH|]. specialize (IH (ZREM k m r)).
  by destruct (remove_foreign k pre ms (ZREM k m r)).
Qed.
Lemma settled_slots k k' r : zset k' (if ZCARD k r =? 0 then DEL_set k r else EXPIRE k (slotTTLSeconds c) r) = zset k' r.
Proof.
  destruct (Z.eqb_spec (ZCARD k r) 0) as [E|]; [|by apply zset_EXPIRE]. rewrite zset_DEL.
  destruct (decide (k = k')) as [<-|]; [|done]. symmetry. by apply card_zero.
Qed.
Lemma script_slots s id s' id' r :
  slots s' id' (startupCleanupSlotScript (key_name (regular (owner_of s id))) pre (slotTTLSeconds c) r).2
  = if decide (s = s' /\ id = id') then own pre (slots s id r) else slots s' id' r.
Proof.
  unfold startupCleanupSlotScript. set (k := key_name (regular (owner_of s id))).
  pose proof (foreign_removed k (ZRANGE k r) r) as Hm.
  pose proof (λ k', foreign_elsewhere k k' (ZRANGE k r) r) as He.
  destruct (remove_foreign _ _ _ _) as [n r1]; cbn [snd] in *. unfold slots at 1. rewrite settled_slots.
  destruct (decide _) as [[<- <-]|Hn].
  - fold k. rewrite Hm. unfold own, slots. fold k. apply map_filter_ext. intros i v Hv. cbn.
    pose proof (member_ZRANGE k i r (ex_intro _ v Hv)). destruct (HasPrefix i pre); split; intros; naive_solver.
  - apply He. intros E%(inj key_name)%owner_inj. naive_solver.
Qed.
Lemma script_waiting s id s' id' r :
  waiting s' id' (startupCleanupSlotScript (key_name (regular (owner_of s id))) pre (slotTTLSeconds c) r).2 = waiting s' id' r.
Proof.
  unfold startupCleanupSlotScript. pose proof (foreign_ints (key_name (regular (owner_of s id))) (ZRANGE (key_name (regular (owner_of s id))) r) r) as [H1 H2].
  destruct (remove_foreign _ _ _ _) as [n r1]; cbn [snd] in *. unfold waiting, GET.
  destruct (_ =? 0); cbn; by rewrite H1, H2.
Qed.

Lemma one_cleaned s id r : let r' := DEL_int (wait_of s id)
    (startupCleanupSlotScript (key_name (regular (owner_of s id))) pre (slotTTLSeconds c) r).2 in
  trimmed r' r /\ cleaned s id r' r.
Proof.
  cbn zeta. set (r1 := (startupCleanupSlotScript _ _ _ r).2).
  assert (∀ s' id', slots s' id' (DEL_int (wait_of s id) r1) = if decide (s = s' /\ id = id') then own pre (slots s id r) else slots s' id' r) as Hs.
  { intros. apply script_slots. }
  assert (∀ s' id', waiting s' id' (DEL_int (wait_of s id) r1) = if decide (s = s' /\ id = id') then 0 else waiting s' id' r) as Hw.
  { intros. unfold waiting at 1. rewrite GET_DEL. destruct (decide (s = s' /\ id = id')) as [[<- <-]|Hn].
    - by rewrite decide_True.
    - rewrite decide_False; [apply script_waiting|]. intros E%wait_inj. naive_solver. }
  split; split.
  - intros s' id'. rewrite Hs. destruct (decide _) as [[<- <-]|]; auto.
  - intros s' id'. rewrite Hw. destruct (decide _); auto.
  - rewrite Hs. by rewrite decide_True.
  - rewrite Hw. by rewrite decide_True.
Qed.

Lemma members_cleaned s members r refreshed stale r' :
  cleanup_members c (spec_of s) members pre r = (refreshed, stale, r') ->
  trimmed r' r /\ ∀ m id, m ∈ members -> parse_member m = Some id -> cleaned s id r' r.
Proof.
  revert r refreshed stale r'. induction members as [|m members IH]; cbn [cleanup_members]; intros r refreshed stale r' H.
  { injection H as <- <- <-. split; [done|]. intros m id Hm. by apply elem_of_nil in Hm. }
  destruct (parse_member m) as [id|] eqn:Em.
  - rewrite spec_slot in H. change (waitKey (spec_of s) id) with (wait_of s id) in H.
    destruct (one_cleaned s id r) as [H1 H2].
    destruct (startupCleanupSlotScript _ _ _ r) as [[removed remaining] r1]; cbn [snd] in H1, H2.
    destruct (cleanup_members _ _ members pre (DEL_int (wait_of s id) r1)) as [[refreshed1 stale1] r2] eqn:Er.
    destruct (IH _ _ _ _ Er) as [H3 H4]. assert (r' = r2) as -> by (destruct (0 <? remaining); congruence).
    split; [by etrans|]. intros m' id' [->|Hm]%elem_of_cons Hp.
    + assert (id' = id) as -> by congruence. by eapply cleaned_before.
    + eapply cleaned_after; [exact H1|by eapply H4].
  - destruct (cleanup_members _ _ members pre r) as [[refreshed1 stale1] r2] eqn:Er. injection H as <- <- <-.
    destruct (IH _ _ _ _ Er) as [H3 H4]. split; [done|]. intros m' id' [->|Hm]%elem_of_cons Hp; [congruence|by eapply H4].
Qed.

Lemma index_cleaned s members now r :
  let r' := cleanupStaleProcessSlotsForIndex c (spec_of s) members pre now r in
  trimmed r' r /\ ∀ m id, m ∈ members -> parse_member m = Some id -> cleaned s id r' r.
Proof.
  cbn zeta. unfold cleanupStaleProcessSlotsForIndex. rewrite spec_index.
  destruct (cleanup_members _ _ members pre r) as [[refreshed stale] r1] eqn:E.
  destruct (members_cleaned _ _ _ _ _ _ E) as [H1 H2].
  assert (trimmed (removeActiveIndexMembers (key_name (index_of s)) stale
    (foldl (λ r m, ZADD (key_name (index_of s)) (now + slotTTLSeconds c) m r) r1 refreshed)) r1) as H3.
  { etrans; [apply removes_trimmed|apply adds_trimmed]. }
  split; [by etrans|]. intros m id Hm Hp. eapply cleaned_before; [exact H3|by eapply H2].
Qed.

Lemma sweep_trimmed r : trimmed (sweepLegacyWaitKeysOnce r) r.
Proof.
  unfold sweepLegacyWaitKeysOnce. destruct (GET_str _ _); [done|]. split; [by left|]. intros s id.
  unfold waiting, GET, SET_str, delete_ints, with_strs, with_ints; cbn. unfold live. rewrite !map_lookup_filter.
  destruct (rd_ints r !! _) as [e|]; cbn; [|auto]. repeat case_guard; cbn; auto.
Qed.

Lemma loaded_dec s id r : loaded s id r \/ ~ loaded s id r.
Proof.
  unfold loaded. destruct (decide (zset (key_name (regular (owner_of s id))) r = ∅)) as [E|]; [|by left; left].
  destruct (Z.lt_decidable 0 (default 0 (GET (wait_of s id) r))) as [|Hn]; [by left; right|].
  right. by intros [H|H].
Qed.
Lemma idle_cleaned s id r2 r1 r : trimmed r2 r1 -> trimmed r1 r -> ~ loaded s id r1 ->
  slots s id r2 = own pre (slots s id r) /\ waiting s id r2 <= 0.
Proof.
  intros [H1 H2] [H3 H4] Hn. unfold loaded in Hn. fold (slots s id r1) (waiting s id r1) in Hn.
  assert (slots s id r1 = ∅) as E by (destruct (decide (slots s id r1 = ∅)); [done|tauto]).
  assert (waiting s id r1 <= 0) by (apply Z.nlt_ge; tauto).
  assert (slots s id r2 = ∅) as E2 by (destruct (H1 s id) as [->| ->]; rewrite E; [done|apply map_filter_empty]).
  split; [|destruct (H2 s id) as [->| ->]; lia]. rewrite E2. destruct (H3 s id) as [E3|E3]; rewrite E in E3.
  - rewrite <- E3. symmetry. apply map_filter_empty.
  - done.
Qed.

(** What a starting process leaves.  When everyone with load is listed, a
    process that starts with the prefix [pre] leaves every account and user
    exactly its slots that have this prefix, with their scores, and no
    waiters: the slots and the waiters of all other processes are taken,
    those that still run included. *)
Theorem startup_keeps_only_own s id r :
  pre ≠ EmptyString -> covered r -> in_range id ->
  let r' := CleanupStaleProcessSlots c pre r in
  slots s id r' = own pre (slots s id r) /\ waiting s id r' <= 0.
Proof.
  intros Hp Hc Hid. cbn zeta. unfold CleanupStaleProcessSlots.
  assert (str_empty pre = false) as -> by by destruct pre.
  pose proof (sweep_trimmed r) as H0. pose proof (lighter_covered _ _ (sweep_lighter r) Hc) as Hc0.
  set (r0 := sweepLegacyWaitKeysOnce r) in *.
  destruct (index_cleaned Accounts (ZRANGE accountActiveIndexKey r0) (TIME r0) r0) as [H1 H2].
  pose proof (startup_index_covered c Hslot Accounts (ZRANGE accountActiveIndexKey r0) pre (TIME r0) r0 Hc0) as Hc1.
  cbn [spec_of] in H1, H2, Hc1. set (r1 := cleanupStaleProcessSlotsForIndex _ accountSlotIndex _ _ _ r0) in *.
  destruct (index_cleaned Users (ZRANGE userActiveIndexKey r1) (TIME r0) r1) as [H3 H4]. cbn [spec_of] in H3, H4.
  set (r2 := cleanupStaleProcessSlotsForIndex _ userSlotIndex _ _ _ r1) in *.
  assert (trimmed r2 r) as Ht by (etrans; [exact H3|]; etrans; [exact H1|exact H0]).
  assert (∀ s' ri, s' = s -> covered ri -> trimmed r2 ri -> trimmed ri r ->
    (pretty id ∈ ZRANGE (key_name (index_of s')) ri -> cleaned s id r2 ri) ->
    slots s id r2 = own pre (slots s id r) /\ waiting s id r2 <= 0) as Hall.
  { intros s' ri -> [Hl _ _] Ha Hb Hz. destruct (loaded_dec s id ri) as [Hlo|Hno]; [|by eapply idle_cleaned].
    destruct (cleaned_after s id r2 ri r Hb) as [-> ->]; [|done]. by apply Hz, member_ZRANGE, Hl. }
  destruct s.
  - apply (Hall Accounts r0); [done|done|by transitivity r1|done|]. intros Hm. eapply cleaned_before; [exact H3|].
    eapply H2; [exact Hm|by apply parse_pretty].
  - apply (Hall Users r1); [done|done|done|by transitivity r0|]. intros Hm. eapply H4; [exact Hm|by apply parse_pretty].
Qed.
End Startup.

(** ** At a concrete input

    The process "ra" has a request in flight on an account that allows one.
    The process "rb" gets no slot, starts again as "rc", and gets one. *)

Definition in_flight : Redis := (AcquireAccountSlot sample_cache 7 1 "ra-1" (empty_redis 5000)).2.
Lemma in_flight_covered : covered in_flight.
Proof.
  apply (acquire_op_covered sample_cache eq_refl Accounts 7 1 "ra-1"). split; [|done|done].
  intros s id _ [H|H]; done.
Qed.
Lemma startup_keeps_only_own_witness :
  let r' := CleanupStaleProcessSlots sample_cache "rc" in_flight in
  (AcquireAccountSlot sample_cache 7 1 "rb-1" in_flight).1 = false /\
  slots Accounts 7 r' = own "rc" (slots Accounts 7 in_flight) /\ waiting Accounts 7 r' <= 0 /\
  (AcquireAccountSlot sample_cache 7 1 "rc-1" r').1 = true.
Proof.
  destruct (startup_keeps_only_own sample_cache eq_refl "rc" Accounts 7 in_flight) as [H1 H2].
  - discriminate.
  - apply in_flight_covered.
  - split; [lia|unfold max_int64; lia].
  - split; [vm_compute; reflexivity|]. split; [exact H1|]. split; [exact H2|]. vm_compute; reflexivity.
Defined.
