(* ===== verification/AccountSelection.v ===== *)
(** * Selecting an account

    [service/gateway_scheduling.go]: which account of a platform's pool serves
    a request.  A session sticks to its account while that account can serve
    it; otherwise the candidates are tried by priority, load and time of last
    use, a slot is taken ([service/concurrency_service.go]) and the session is
    registered; when no slot is free, the request may wait.

    The functions are programs of calls ([svc]): the clock, random numbers,
    the repository and the caches.  A shuffle and the order of a map are
    permutations that are answered.  [log] lines and metrics are left out, and
    with them the samples that only they show.  The repository, the usage log
    and the session cache are wired in every server; the other dependencies
    may be missing ([GatewayService]). *)

From stdpp Require Import pretty fin.
From S2P Require Import Prelude GoErrors Prog Float64 GoTime GoStrings GoText PlatformModels ProductCoreAdapter Account ModelMapping Redis Concurrency.

Open Scope prog_scope.

Definition ErrNoAvailableAccounts : error := EPlain "ErrNoAvailableAccounts".
Definition stickySessionTTL : Z := 1 * hour.

Record GatewaySchedulingConfig := {
  StickySessionMaxWaiting : Z;
  StickySessionWaitTimeout : Z;
  FallbackWaitTimeout : Z;
  FallbackMaxWaiting : Z;
  FallbackSelectionMode : string;
  PreferSoonestReset : bool;
  LoadBatchEnabled : bool
}.

Record AccountWaitPlan := { wp_AccountID : Z; wp_MaxConcurrency : Z; wp_Timeout : Z; wp_MaxWaiting : Z }.

(** What a release function does. *)
Inductive release := NoRelease | ReleaseSlot (accountID : Z) (requestID : string).
Record AcquireResult := { aq_Acquired : bool; aq_ReleaseFunc : option release }.
Record AccountSelectionResult := {
  sr_Account : Account;
  sr_Acquired : bool;
  sr_ReleaseFunc : option release;
  sr_WaitPlan : option AccountWaitPlan
}.

Definition permutation (n : nat) : Type := { p : list nat | p ≡ₚ seq 0 n }.

(** ** The calls *)

Inductive svc : Type -> Type :=
| CNow : svc time
| CIntn (n : nat) : svc (fin (S n))
| COrder (n : nat) : svc (permutation n)
| CRequestID : svc string
| CSlotAcquire (accountID maxConcurrency : Z) (requestID : string) : svc (result bool)
| CSlotRelease (accountID : Z) (requestID : string) : svc unit
| CWaitingCount (accountID : Z) : svc (result Z)
| CLoadBatch (accounts : list AccountWithConcurrency) : svc (result (gmap Z AccountLoadInfo))
| CList (platformID : Z) (platform : string) : svc (result (list Account))
| CGetByID (accountID : Z) : svc (result (option Account))
| CStickyGet (ns : Z) (session : string) : svc (result Z)
| CStickySet (ns : Z) (session : string) (accountID ttl : Z) : svc unit
| CStickyRefresh (ns : Z) (session : string) (ttl : Z) : svc unit
| CStickyDelete (ns : Z) (session : string) : svc unit
| CRegister (accountID : Z) (session : string) (maxSessions idle : Z) : svc (result bool)
| CWindowCost (accountID : Z) : svc (result (option float64))
| CWindowCostBatch (accountIDs : list Z) : svc (result (gmap Z float64))
| CSetWindowCost (accountID : Z) (cost : float64) : svc unit
| CWindowStats (accountID : Z) (start : time) : svc (result float64)
| CWindowStatsBatch (accountIDs : list Z) (start : time) : svc (result (gmap Z float64))
| CRPM (accountID : Z) : svc (result Z)
| CRPMBatch (accountIDs : list Z) : svc (result (gmap Z Z)).

#[global] Abbreviation sprog := (prog svc).
#[global] Abbreviation strace := (trace svc).

Record GatewayService := {
  gs_cfg : GatewaySchedulingConfig;
  gs_concurrencyService : bool;
  gs_sessionLimitCache : bool;
  gs_rpmCache : bool;
  gs_batchStats : bool
}.

(** ** Slots *)

Definition AcquireAccountSlot (accountID maxConcurrency : Z) : sprog (result AcquireResult) :=
  if maxConcurrency <=? 0 then Ret (Ok {| aq_Acquired := true; aq_ReleaseFunc := Some NoRelease |}) else
  let* requestID := call CRequestID in
  let* acquired := call (CSlotAcquire accountID maxConcurrency requestID) in
  Ret match acquired with
      | Err e => Err e
      | Ok true => Ok {| aq_Acquired := true; aq_ReleaseFunc := Some (ReleaseSlot accountID requestID) |}
      | Ok false => Ok {| aq_Acquired := false; aq_ReleaseFunc := None |}
      end.
Definition run_release (r : option release) : sprog unit :=
  match r with Some (ReleaseSlot id req) => call (CSlotRelease id req) | _ => Ret tt end.

Definition CalculateMaxWait (userConcurrency : Z) : Z :=
  add64 (if userConcurrency <=? 0 then 1 else userConcurrency) 20.

(** ** What an account allows *)

Section Selection.
Context {Host : GoHost} {UC : UnicodeCase} (s : GatewayService).

Definition parseExtraInt (v : json) : Z :=
  match v with
  | JNumber x => f64_to_int64 x
  | JString t => default 0 (Atoi (TrimSpace t))
  | _ => 0
  end.
Definition extra_int_or (a : Account) (key : string) (d : Z) : Z :=
  match acc_Extra a !! key with
  | Some v => let val := parseExtraInt v in if 0 <? val then val else d
  | None => d
  end.

Definition IsAnthropicOAuthOrSetupToken (a : Account) : bool :=
  String.eqb (acc_Platform a) PlatformAnthropic
  && (String.eqb (acc_Type a) AccountTypeOAuth || String.eqb (acc_Type a) AccountTypeSetupToken).
Definition GetWindowCostLimit (a : Account) : float64 := getExtraFloat64 (acc_Extra a) "window_cost_limit".
Definition f10 : float64 := f64_of_Z 10.
Definition GetWindowCostStickyReserve (a : Account) : float64 :=
  match acc_Extra a !! "window_cost_sticky_reserve"%string with
  | Some v => let val := parseExtraFloat64 v in if fgtb val f0 then val else f10
  | None => f10
  end.
Definition GetMaxSessions (a : Account) : Z :=
  match acc_Extra a !! "max_sessions"%string with Some v => parseExtraInt v | None => 0 end.
Definition GetSessionIdleTimeoutMinutes (a : Account) : Z := extra_int_or a "session_idle_timeout_minutes" 5.
Definition GetBaseRPM (a : Account) : Z := extra_int_or a "base_rpm" 0.
Definition sticky_exempt (a : Account) : bool :=
  match acc_Extra a !! "rpm_strategy"%string with Some (JString t) => String.eqb t "sticky_exempt" | _ => false end.
Definition GetRPMStickyBuffer (a : Account) : Z :=
  let manual := extra_int_or a "rpm_sticky_buffer" 0 in
  if 0 <? manual then manual else
  let base := GetBaseRPM a in
  if base <=? 0 then 0 else
  let conc := if acc_Concurrency a <? 0 then 0 else acc_Concurrency a in
  let sess := if GetMaxSessions a <? 0 then 0 else GetMaxSessions a in
  let buffer := add64 conc sess in
  let floor := Z.quot base 5 in
  let floor := if floor <? 1 then 1 else floor in
  if buffer <? floor then floor else buffer.

Inductive WindowCostSchedulability := WindowCostSchedulable | WindowCostStickyOnly | WindowCostNotSchedulable.
Definition CheckRPMSchedulability (a : Account) (currentRPM : Z) : WindowCostSchedulability :=
  let baseRPM := GetBaseRPM a in
  if baseRPM <=? 0 then WindowCostSchedulable else
  if currentRPM <? baseRPM then WindowCostSchedulable else
  if sticky_exempt a then WindowCostStickyOnly else
  if currentRPM <? add64 baseRPM (GetRPMStickyBuffer a) then WindowCostStickyOnly else WindowCostNotSchedulable.
Definition CheckWindowCostSchedulability (a : Account) (currentWindowCost : float64) : WindowCostSchedulability :=
  let limit := GetWindowCostLimit a in
  if fleb limit f0 then WindowCostSchedulable else
  if fltb currentWindowCost limit then WindowCostSchedulable else
  if fltb currentWindowCost (fadd limit (GetWindowCostStickyReserve a)) then WindowCostStickyOnly
  else WindowCostNotSchedulable.
Definition open_for (w : WindowCostSchedulability) (isSticky : bool) : bool :=
  match w with WindowCostSchedulable => true | WindowCostStickyOnly => isSticky | WindowCostNotSchedulable => false end.

(** The hour that has begun, when no window is open. *)
Definition GetCurrentWindowStartTime (now : time) (a : Account) : time :=
  match acc_SessionWindowStart a, acc_SessionWindowEnd a with
  | Some start, Some end_ => if before now end_ then start else go_date (t_loc now) (local_ns now / hour * hour)
  | _, _ => go_date (t_loc now) (local_ns now / hour * hour)
  end.
Definition EffectiveLoadFactor (a : Account) : Z :=
  match acc_LoadFactor a with
  | Some f => if 0 <? f then f else if 0 <? acc_Concurrency a then acc_Concurrency a else 1
  | None => if 0 <? acc_Concurrency a then acc_Concurrency a else 1
  end.
Definition IsMixedSchedulingEnabled (a : Account) : bool :=
  String.eqb (acc_Platform a) PlatformAntigravity && default false (extra_bool a "mixed_scheduling").
(** ** Context and scope *)

Definition PlatformSchedulingScopeFromContext (ctx : ReqCtx) : option PlatformSchedulingScope :=
  match ctx_Scope ctx with
  | Some scope => let '(n, ok) := normalizePlatformSchedulingScope scope in if ok then Some n else None
  | None => None
  end.
Definition platformRouteOwnsModelPolicy (ctx : ReqCtx) : bool :=
  match PlatformSchedulingScopeFromContext ctx with Some _ => true | None => false end.
Definition accountMatchesPlatformSchedulingScope (ctx : ReqCtx) (a : Account) : bool :=
  match PlatformSchedulingScopeFromContext ctx with
  | Some scope => platformSchedulingScopeMatchesAccount scope (Some (acc_PlatformID a, acc_Platform a))
  | None => true
  end.
Definition prefetchedStickyAccountIDFromContext (ctx : ReqCtx) (ns : Z) : Z :=
  match ctx_StickyNamespace ctx with
  | Some p => if negb (p =? ns) then 0 else
              match ctx_StickyAccount ctx with Some id => if 0 <? id then id else 0 | None => 0 end
  | None => 0
  end.

Definition scope_required : error := EWrap "%w: platform scheduling scope is required" ErrPlatformInvalid.
Definition scope_invalid : error := EWrap "%w: invalid platform scheduling scope" ErrPlatformInvalid.

(** What was read ahead for the accounts of the pool. *)
Record Prefetched := { pf_costs : option (gmap Z float64); pf_rpm : option (gmap Z Z) }.
Definition nothing_read : Prefetched := {| pf_costs := None; pf_rpm := None |}.

(** ** Gates *)

Definition isAccountSchedulableForSelection (a : Account) : sprog bool :=
  let* now := call CNow in Ret (IsSchedulable now a).
Definition isAccountAllowedForPlatform (a : Account) (platform : string) (useMixed : bool) : bool :=
  if useMixed then
    String.eqb (acc_Platform a) platform || (String.eqb (acc_Platform a) PlatformAntigravity && IsMixedSchedulingEnabled a)
  else String.eqb (acc_Platform a) platform.
Definition isAccountSchedulableForModelSelection (ctx : ReqCtx) (a : Account) (requestedModel : string) : sprog bool :=
  let* now := call CNow in Ret (IsSchedulableForModelWithContext now ctx a requestedModel).
Definition isAccountSchedulableForQuota (a : Account) : sprog bool :=
  if negb (IsAPIKeyOrBedrock a) then Ret true else
  let* now := call CNow in Ret (negb (IsQuotaExceeded now a)).

Definition windowCostFromPrefetchContext (pf : Prefetched) (accountID : Z) : option float64 :=
  if accountID <=? 0 then None else pf_costs pf ≫= lookup accountID.
Definition isAccountSchedulableForWindowCost (pf : Prefetched) (a : Account) (isSticky : bool) : sprog bool :=
  if negb (IsAnthropicOAuthOrSetupToken a) then Ret true else
  if fleb (GetWindowCostLimit a) f0 then Ret true else
  let check (cost : float64) : bool := open_for (CheckWindowCostSchedulability a cost) isSticky in
  match windowCostFromPrefetchContext pf (acc_ID a) with
  | Some cost => Ret (check cost)
  | None =>
    let* cached := (if gs_sessionLimitCache s then call (CWindowCost (acc_ID a)) else Ret (Ok None)) in
    match cached with
    | Ok (Some cost) => Ret (check cost)
    | _ =>
      let* now := call CNow in
      let* stats := call (CWindowStats (acc_ID a) (GetCurrentWindowStartTime now a)) in
      match stats with
      | Err _ => Ret true
      | Ok cost =>
        let* _ := (if gs_sessionLimitCache s then call (CSetWindowCost (acc_ID a) cost) else Ret tt) in
        Ret (check cost)
      end
    end
  end.

Definition rpmFromPrefetchContext (pf : Prefetched) (accountID : Z) : option Z := pf_rpm pf ≫= lookup accountID.
Definition isAccountSchedulableForRPM (pf : Prefetched) (a : Account) (isSticky : bool) : sprog bool :=
  if negb (IsAnthropicOAuthOrSetupToken a) then Ret true else
  if GetBaseRPM a <=? 0 then Ret true else
  let check (rpm : Z) : bool := open_for (CheckRPMSchedulability a rpm) isSticky in
  match rpmFromPrefetchContext pf (acc_ID a) with
  | Some count => Ret (check count)
  | None =>
    if gs_rpmCache s then
      let* count := call (CRPM (acc_ID a)) in
      Ret (check match count with Ok n => n | Err _ => 0 end)
    else Ret (check 0)
  end.

(** [isModelSupportedByAccountWithContext]: in the scope of a platform the
    route has settled the model already.  Nothing is selected outside of one,
    so its other branches, the mappings of the account, are not needed. *)
Definition model_supported (ctx : ReqCtx) : bool := platformRouteOwnsModelPolicy ctx.

Definition checkAndRegisterSession (a : Account) (sessionID : string) : sprog bool :=
  if negb (IsAnthropicOAuthOrSetupToken a) then Ret true else
  let maxSessions := GetMaxSessions a in
  if (maxSessions <=? 0) || str_empty sessionID then Ret true else
  if negb (gs_sessionLimitCache s) then Ret true else
  let* allowed := call (CRegister (acc_ID a) sessionID maxSessions (mul64 (GetSessionIdleTimeoutMinutes a) minute)) in
  Ret match allowed with Ok b => b | Err _ => true end.

Definition tryAcquireAccountSlot (accountID maxConcurrency : Z) : sprog (result AcquireResult) :=
  if negb (gs_concurrencyService s) then Ret (Ok {| aq_Acquired := true; aq_ReleaseFunc := Some NoRelease |})
  else AcquireAccountSlot accountID maxConcurrency.

(** ** Reading ahead *)

Definition cost_account (a : Account) : bool :=
  IsAnthropicOAuthOrSetupToken a && negb (fleb (GetWindowCostLimit a) f0).
(** Accounts without a cost, grouped by the second their window starts. *)
Definition groups := list (Z * (time * list Z)).
Fixpoint add_to_group (key : Z) (start : time) (id : Z) (g : groups) : groups :=
  match g with
  | [] => [(key, (start, [id]))]
  | (k, (t, ids)) :: g => if k =? key then (k, (start, ids ++ [id])) :: g else (k, (t, ids)) :: add_to_group key start id g
  end.
Fixpoint missing_groups (accounts : list Account) (costs : gmap Z float64) (g : groups) : sprog groups :=
  match accounts with
  | [] => Ret g
  | a :: accounts =>
    match costs !! acc_ID a with
    | Some _ => missing_groups accounts costs g
    | None =>
      let* now := call CNow in
      let start := GetCurrentWindowStartTime now a in
      missing_groups accounts costs (add_to_group (t_ns start / second) start (acc_ID a) g)
    end
  end.
Fixpoint store_costs (ids : list Z) (stats : gmap Z float64) (costs : gmap Z float64) : sprog (gmap Z float64) :=
  match ids with
  | [] => Ret costs
  | id :: ids =>
    let cost := default f0 (stats !! id) in
    let* _ := call (CSetWindowCost id cost) in
    store_costs ids stats (<[id := cost]> costs)
  end.
Fixpoint single_costs (ids : list Z) (start : time) (costs : gmap Z float64) : sprog (gmap Z float64) :=
  match ids with
  | [] => Ret costs
  | id :: ids =>
    let* stats := call (CWindowStats id start) in
    match stats with
    | Err _ => single_costs ids start costs
    | Ok cost =>
      let* _ := call (CSetWindowCost id cost) in
      single_costs ids start (<[id := cost]> costs)
    end
  end.
Fixpoint group_costs (g : list (time * list Z)) (costs : gmap Z float64) : sprog (gmap Z float64) :=
  match g with
  | [] => Ret costs
  | (start, ids) :: g =>
    let* costs :=
      (if gs_batchStats s then
         let* stats := call (CWindowStatsBatch ids start) in
         match stats with Ok m => store_costs ids m costs | Err _ => single_costs ids start costs end
       else single_costs ids start costs) in
    group_costs g costs
  end.
(** The elements in the order that is answered. *)
Definition permute {A} (l : list A) : sprog (list A) :=
  let* p := call (COrder (length l)) in Ret (omap (λ i : nat, l !! i) (proj1_sig p : list nat)).

Definition withWindowCostPrefetch (accounts : list Account) (pf : Prefetched) : sprog Prefetched :=
  if is_nil accounts || negb (gs_sessionLimitCache s) then Ret pf else
  let wanted := filterb cost_account accounts in
  if is_nil wanted then Ret pf else
  let* cached := call (CWindowCostBatch (map acc_ID wanted)) in
  let costs := match cached with Ok m => m | Err _ => ∅ end in
  let* g := missing_groups wanted costs [] in
  if is_nil g then Ret {| pf_costs := Some costs; pf_rpm := pf_rpm pf |} else
  let* g := permute (map snd g) in
  let* costs := group_costs g costs in
  Ret {| pf_costs := Some costs; pf_rpm := pf_rpm pf |}.
Definition withRPMPrefetch (accounts : list Account) (pf : Prefetched) : sprog Prefetched :=
  if negb (gs_rpmCache s) then Ret pf else
  let ids := map acc_ID (filterb (λ a, IsAnthropicOAuthOrSetupToken a && (0 <? GetBaseRPM a)) accounts) in
  if is_nil ids then Ret pf else
  let* counts := call (CRPMBatch ids) in
  Ret match counts with Ok m => {| pf_costs := pf_costs pf; pf_rpm := Some m |} | Err _ => pf end.

(** ** Order *)

Record accountWithLoad := { wl_account : Account; wl_loadInfo : AccountLoadInfo }.

Definition min_of (f : accountWithLoad -> Z) (first : accountWithLoad) (rest : list accountWithLoad) : Z :=
  foldl (λ m x, if f x <? m then f x else m) (f first) rest.
Definition filter_by_min (f : accountWithLoad -> Z) (accounts : list accountWithLoad) : list accountWithLoad :=
  match accounts with
  | [] => []
  | first :: rest => filterb (λ x, f x =? min_of f first rest) accounts
  end.
Definition wl_priority (x : accountWithLoad) : Z := acc_Priority (wl_account x).
Definition wl_rate (x : accountWithLoad) : Z := li_LoadRate (wl_loadInfo x).
Definition filterByMinPriority : list accountWithLoad -> list accountWithLoad := filter_by_min wl_priority.
Definition filterByMinLoadRate : list accountWithLoad -> list accountWithLoad := filter_by_min wl_rate.

Definition window_end (now : time) (x : accountWithLoad) : option time :=
  match acc_SessionWindowEnd (wl_account x) with Some e => if before now e then Some e else None | None => None end.
Definition earliest (now : time) (accounts : list accountWithLoad) : option time :=
  foldl (λ m x, match window_end now x with
                | None => m
                | Some e => match m with
                            | None => Some e
                            | Some m' => if before e m' then Some e else m
                            end
                end) None accounts.
Definition filterBySoonestReset (accounts : list accountWithLoad) : sprog (list accountWithLoad) :=
  if Nat.leb (length accounts) 1 then Ret accounts else
  let* now := call CNow in
  Ret match earliest now accounts with
      | None => accounts
      | Some m => filterb (λ x, match window_end now x with Some e => time_equal e m | None => false end) accounts
      end.

(** Never used, or used the longest ago. *)
Definition oldest_use (accounts : list accountWithLoad) : option time :=
  foldl (λ m x, match acc_LastUsedAt (wl_account x), m with
                | Some t, Some m' => if before t m' then Some t else m
                | Some t, None => Some t
                | None, _ => m
                end) None accounts.
Definition never_used (a : Account) : bool := match acc_LastUsedAt a with None => true | Some _ => false end.
Definition is_oauth (a : Account) : bool := String.eqb (acc_Type a) AccountTypeOAuth.
Definition lru_candidates (accounts : list accountWithLoad) : list accountWithLoad :=
  if existsb (λ x, never_used (wl_account x)) accounts then filterb (λ x, never_used (wl_account x)) accounts
  else filterb (λ x, match acc_LastUsedAt (wl_account x), oldest_use accounts with
                     | Some t, Some m => time_equal t m
                     | _, _ => false
                     end) accounts.
Definition prefer_oauth (preferOAuth : bool) (l : list accountWithLoad) : list accountWithLoad :=
  if preferOAuth then let oauth := filterb (λ x, is_oauth (wl_account x)) l in if is_nil oauth then l else oauth
  else l.
Definition selectByLRU (accounts : list accountWithLoad) (preferOAuth : bool) : sprog (option accountWithLoad) :=
  match accounts with
  | [] => Ret None
  | [x] => Ret (Some x)
  | _ =>
    match lru_candidates accounts with
    | [x] => Ret (Some x)
    | candidates =>
      match prefer_oauth preferOAuth candidates with
      | [] => Ret None
      | x :: rest => let* i := call (CIntn (length rest)) in Ret ((x :: rest) !! fin_to_nat i)
      end
    end
  end.

Definition used_less (preferOAuth : bool) (a b : Account) : bool :=
  if negb (acc_Priority a =? acc_Priority b) then acc_Priority a <? acc_Priority b else
  match acc_LastUsedAt a, acc_LastUsedAt b with
  | None, Some _ => true
  | Some _, None => false
  | None, None => preferOAuth && negb (String.eqb (acc_Type a) (acc_Type b)) && is_oauth a
  | Some t, Some u => before t u
  end.
Definition sameLastUsedAt (a b : option time) : bool :=
  match a, b with
  | None, None => true
  | Some t, Some u => t_ns t / second =? t_ns u / second
  | _, _ => false
  end.
Definition sameAccountGroup (a b : Account) : bool :=
  (acc_Priority a =? acc_Priority b) && sameLastUsedAt (acc_LastUsedAt a) (acc_LastUsedAt b).

(** The longest run at the front that belongs with the first element. *)
Fixpoint take_group {A} (same : A -> bool) (l : list A) : list A * list A :=
  match l with
  | [] => ([], [])
  | x :: l' => if same x then let '(g, rest) := take_group same l' in (x :: g, rest) else ([], l)
  end.
Definition shuffle_several {A} (l : list A) : sprog (list A) := if Nat.leb (length l) 1 then Ret l else permute l.
Fixpoint shuffle_groups {A} (same : A -> A -> bool) (shuffle : list A -> sprog (list A)) (fuel : nat) (l : list A)
  : sprog (list A) :=
  match fuel, l with
  | S fuel, x :: l' =>
    let '(g, rest) := take_group (same x) l' in
    let* g := (if is_nil g then Ret [x] else shuffle (x :: g)) in
    let* rest := shuffle_groups same shuffle fuel rest in
    Ret (g ++ rest)
  | _, _ => Ret l
  end.
Definition shuffle_oauth_first (preferOAuth : bool) (g : list Account) : sprog (list Account) :=
  if preferOAuth then
    let* oauth := shuffle_several (filterb is_oauth g) in
    let* others := shuffle_several (filterb (λ a, negb (is_oauth a)) g) in
    Ret (oauth ++ others)
  else permute g.
Definition shuffleWithinPriorityAndLastUsed (accounts : list Account) (preferOAuth : bool) : sprog (list Account) :=
  shuffle_groups sameAccountGroup (shuffle_oauth_first preferOAuth) (length accounts) accounts.
Definition sortAccountsByPriorityAndLastUsed (accounts : list Account) (preferOAuth : bool) : sprog (list Account) :=
  shuffleWithinPriorityAndLastUsed (stable_sort (used_less preferOAuth) accounts) preferOAuth.

Definition priority_less (preferOAuth : bool) (a b : Account) : bool :=
  if negb (acc_Priority a =? acc_Priority b) then acc_Priority a <? acc_Priority b else
  preferOAuth && negb (String.eqb (acc_Type a) (acc_Type b)) && is_oauth a.
Definition sortAccountsByPriorityOnly (accounts : list Account) (preferOAuth : bool) : list Account :=
  stable_sort (priority_less preferOAuth) accounts.
Definition shuffleWithinPriority (accounts : list Account) : sprog (list Account) :=
  shuffle_groups (λ a b, acc_Priority a =? acc_Priority b) permute (length accounts) accounts.
Definition sortCandidatesForFallback (accounts : list Account) (preferOAuth : bool) (mode : string) : sprog (list Account) :=
  if String.eqb mode "random" then shuffleWithinPriority (sortAccountsByPriorityOnly accounts preferOAuth)
  else sortAccountsByPriorityAndLastUsed accounts preferOAuth.

(** ** Results *)

Definition hydrateSelectedAccount (ctx : ReqCtx) (a : Account) : result Account :=
  if accountMatchesPlatformSchedulingScope ctx a then Ok a
  else Err (EWrap "%w: selected account does not belong to platform pool" ErrPlatformInvalid).
Definition newSelectionResult (ctx : ReqCtx) (a : Account) (acquired : bool) (rel : option release)
  (plan : option AccountWaitPlan) : result AccountSelectionResult :=
  match hydrateSelectedAccount ctx a with
  | Err e => Err e
  | Ok a => Ok {| sr_Account := a; sr_Acquired := acquired; sr_ReleaseFunc := rel; sr_WaitPlan := plan |}
  end.
Definition sticky_plan (a : Account) : AccountWaitPlan := {|
  wp_AccountID := acc_ID a; wp_MaxConcurrency := acc_Concurrency a;
  wp_Timeout := StickySessionWaitTimeout (gs_cfg s); wp_MaxWaiting := StickySessionMaxWaiting (gs_cfg s) |}.
Definition fallback_plan (a : Account) : AccountWaitPlan := {|
  wp_AccountID := acc_ID a; wp_MaxConcurrency := acc_Concurrency a;
  wp_Timeout := FallbackWaitTimeout (gs_cfg s); wp_MaxWaiting := FallbackMaxWaiting (gs_cfg s) |}.

Definition listSchedulableAccounts (ctx : ReqCtx) (platform : string) : sprog (result (list Account)) :=
  match PlatformSchedulingScopeFromContext ctx with
  | None => Ret (Err scope_required)
  | Some scope =>
    if negb (EqualFold (TrimSpace platform) (scope_AccountPlatform scope))
    then Ret (Err (EWrap "%w: platform scope protocol does not match requested protocol" ErrPlatformInvalid)) else
    let '(n, ok) := normalizePlatformSchedulingScope scope in
    if negb ok then Ret (Err scope_invalid) else
    call (CList (scope_PlatformID n) (scope_AccountPlatform n))
  end.

(** ** One account by priority and use *)

Definition excluded (excludedIDs : gset Z) (id : Z) : bool := bool_decide (id ∈ excludedIDs).

(** The gates of a candidate, in order, until one refuses. *)
Definition and_then (m : sprog bool) (k : sprog bool) : sprog bool :=
  let* b := m in if b then k else Ret false.
Definition when (b : bool) (k : sprog bool) : sprog bool := if b then k else Ret false.
Definition gates (ctx : ReqCtx) (pf : Prefetched) (requestedModel : string) (isSticky : bool) (a : Account) : sprog bool :=
  when (str_empty requestedModel || model_supported ctx)
  (and_then (isAccountSchedulableForModelSelection ctx a requestedModel)
  (and_then (isAccountSchedulableForQuota a)
  (and_then (isAccountSchedulableForWindowCost pf a isSticky)
  (isAccountSchedulableForRPM pf a isSticky)))).
Definition legacy_candidate (ctx : ReqCtx) (pf : Prefetched) (requestedModel : string) (excludedIDs : gset Z)
  (a : Account) : sprog bool :=
  when (negb (excluded excludedIDs (acc_ID a)))
  (and_then (isAccountSchedulableForSelection a) (gates ctx pf requestedModel false a)).

Definition replaces (preferOAuth : bool) (a selected : Account) : bool :=
  if acc_Priority a <? acc_Priority selected then true else
  if acc_Priority a =? acc_Priority selected then
    match acc_LastUsedAt a, acc_LastUsedAt selected with
    | None, Some _ => true
    | Some _, None => false
    | None, None => preferOAuth && negb (String.eqb (acc_Type a) (acc_Type selected)) && is_oauth a
    | Some t, Some u => before t u
    end
  else false.
Fixpoint pick (ctx : ReqCtx) (pf : Prefetched) (requestedModel : string) (excludedIDs : gset Z) (preferOAuth : bool)
  (accounts : list Account) (selected : option Account) : sprog (option Account) :=
  match accounts with
  | [] => Ret selected
  | a :: accounts =>
    let* ok := legacy_candidate ctx pf requestedModel excludedIDs a in
    pick ctx pf requestedModel excludedIDs preferOAuth accounts
      (if negb ok then selected else
       match selected with
       | None => Some a
       | Some b => if replaces preferOAuth a b then Some a else selected
       end)
  end.

(** Why the accounts were refused, for the text of the error. *)
Record selectionFailureStats := {
  st_Total : Z; st_Eligible : Z; st_Excluded : Z; st_Unschedulable : Z; st_PlatformFiltered : Z;
  st_ModelUnsupported : Z; st_ModelRateLimited : Z
}.
Inductive failure_category := FEligible | FExcluded | FUnschedulable | FPlatformFiltered | FModelUnsupported | FModelRateLimited.
Definition isPlatformFilteredForSelection (a : Account) (platform : string) (allowMixedScheduling : bool) : bool :=
  if allowMixedScheduling then
    if String.eqb (acc_Platform a) PlatformAntigravity then negb (IsMixedSchedulingEnabled a)
    else negb (String.eqb (acc_Platform a) platform)
  else if str_empty (TrimSpace platform) then false else negb (String.eqb (acc_Platform a) platform).
Definition diagnoseSelectionFailure (ctx : ReqCtx) (a : Account) (requestedModel platform : string)
  (excludedIDs : gset Z) (allowMixedScheduling : bool) : sprog failure_category :=
  if excluded excludedIDs (acc_ID a) then Ret FExcluded else
  let* schedulable := isAccountSchedulableForSelection a in
  if negb schedulable then Ret FUnschedulable else
  if isPlatformFilteredForSelection a platform allowMixedScheduling then Ret FPlatformFiltered else
  if negb (str_empty requestedModel) && negb (model_supported ctx) then Ret FModelUnsupported else
  let* ok := isAccountSchedulableForModelSelection ctx a requestedModel in
  Ret (if ok then FEligible else FModelRateLimited).
Definition count_failure (c : failure_category) (st : selectionFailureStats) : selectionFailureStats :=
  let add (c' : failure_category) (n : Z) : Z :=
    match c, c' with
    | FEligible, FEligible | FExcluded, FExcluded | FUnschedulable, FUnschedulable | FPlatformFiltered, FPlatformFiltered
    | FModelUnsupported, FModelUnsupported | FModelRateLimited, FModelRateLimited => n + 1
    | _, _ => n
    end in
  {| st_Total := st_Total st; st_Eligible := add FEligible (st_Eligible st);
     st_Excluded := add FExcluded (st_Excluded st); st_Unschedulable := add FUnschedulable (st_Unschedulable st);
     st_PlatformFiltered := add FPlatformFiltered (st_PlatformFiltered st);
     st_ModelUnsupported := add FModelUnsupported (st_ModelUnsupported st);
     st_ModelRateLimited := add FModelRateLimited (st_ModelRateLimited st) |}.
Fixpoint collectSelectionFailureStats (ctx : ReqCtx) (accounts : list Account) (requestedModel platform : string)
  (excludedIDs : gset Z) (allowMixedScheduling : bool) (st : selectionFailureStats) : sprog selectionFailureStats :=
  match accounts with
  | [] => Ret st
  | a :: accounts =>
    let* c := diagnoseSelectionFailure ctx a requestedModel platform excludedIDs allowMixedScheduling in
    collectSelectionFailureStats ctx accounts requestedModel platform excludedIDs allowMixedScheduling (count_failure c st)
  end.
Definition summarizeSelectionFailureStats (st : selectionFailureStats) : string :=
  ("total=" ++ pretty (st_Total st) ++ " eligible=" ++ pretty (st_Eligible st) ++ " excluded=" ++ pretty (st_Excluded st)
   ++ " unschedulable=" ++ pretty (st_Unschedulable st) ++ " platform_filtered=" ++ pretty (st_PlatformFiltered st)
   ++ " model_unsupported=" ++ pretty (st_ModelUnsupported st) ++ " model_rate_limited=" ++ pretty (st_ModelRateLimited st))%string.
Definition selection_failure (ctx : ReqCtx) (accounts : list Account) (requestedModel platform : string)
  (excludedIDs : gset Z) : sprog error :=
  let* st := collectSelectionFailureStats ctx accounts requestedModel platform excludedIDs false
    {| st_Total := Z.of_nat (length accounts); st_Eligible := 0; st_Excluded := 0; st_Unschedulable := 0;
       st_PlatformFiltered := 0; st_ModelUnsupported := 0; st_ModelRateLimited := 0 |} in
  Ret (if str_empty requestedModel then ErrNoAvailableAccounts
       else EWrap ("%w supporting model: " ++ requestedModel ++ " (" ++ summarizeSelectionFailureStats st ++ ")")
              ErrNoAvailableAccounts).

(** The account the session sticks to, if it can serve the request. *)
Definition sticky_account (ctx : ReqCtx) (scope : PlatformSchedulingScope) (ns : Z) (sessionHash requestedModel : string)
  (excludedIDs : gset Z) : sprog (option Account) :=
  if str_empty sessionHash then Ret None else
  let* bound := call (CStickyGet ns sessionHash) in
  match bound with
  | Err _ => Ret None
  | Ok accountID =>
    if (accountID <=? 0) || excluded excludedIDs accountID then Ret None else
    let* found := call (CGetByID accountID) in
    match found with
    | Err _ | Ok None => Ret None
    | Ok (Some a) =>
      let* now := call CNow in
      if shouldClearStickySession now a requestedModel then
        let* _ := call (CStickyDelete ns sessionHash) in Ret None
      else
      let* ok := when (accountMatchesPlatformSchedulingScope ctx a)
                 (when (String.eqb (acc_Platform a) (scope_AccountPlatform scope))
                 (gates ctx nothing_read requestedModel true a)) in
      Ret (if ok then Some a else None)
    end
  end.

Definition selectAccountForModelWithPlatform (ctx : ReqCtx) (sessionHash requestedModel : string) (excludedIDs : gset Z)
  : sprog (result Account) :=
  match PlatformSchedulingScopeFromContext ctx with
  | None => Ret (Err scope_required)
  | Some scope =>
    match platformSchedulingCacheID scope with
    | None => Ret (Err scope_invalid)
    | Some ns =>
      let platform := scope_AccountPlatform scope in
      let preferOAuth := String.eqb platform PlatformGemini in
      let* sticky := sticky_account ctx scope ns sessionHash requestedModel excludedIDs in
      match sticky with
      | Some a => Ret (Ok a)
      | None =>
        let* listed := listSchedulableAccounts ctx platform in
        match listed with
        | Err e => Ret (Err (EWrap "query accounts failed: %w" e))
        | Ok accounts =>
          let* pf := withWindowCostPrefetch accounts nothing_read in
          let* pf := withRPMPrefetch accounts pf in
          let* selected := pick ctx pf requestedModel excludedIDs preferOAuth accounts None in
          match selected with
          | None => let* e := selection_failure ctx accounts requestedModel platform excludedIDs in Ret (Err e)
          | Some a =>
            let* _ := (if str_empty sessionHash then Ret tt else call (CStickySet ns sessionHash (acc_ID a) stickySessionTTL)) in
            Ret (Ok a)
          end
        end
      end
    end
  end.
Definition SelectAccountForModelWithExclusions (ctx : ReqCtx) (sessionHash requestedModel : string) (excludedIDs : gset Z)
  : sprog (result Account) :=
  match PlatformSchedulingScopeFromContext ctx with
  | None => Ret (Err scope_required)
  | Some scope =>
    match platformSchedulingCacheID scope with
    | None => Ret (Err scope_invalid)
    | Some _ =>
      let* r := selectAccountForModelWithPlatform ctx sessionHash requestedModel excludedIDs in
      Ret match r with Err e => Err e | Ok a => hydrateSelectedAccount ctx a end
    end
  end.
Definition SelectAccountForModel (ctx : ReqCtx) (sessionHash requestedModel : string) : sprog (result Account) :=
  SelectAccountForModelWithExclusions ctx sessionHash requestedModel ∅.
Definition SelectAccount (ctx : ReqCtx) (sessionHash : string) : sprog (result Account) :=
  SelectAccountForModel ctx sessionHash "".

(** ** With the load of the accounts *)

(** The sticky account: the binding the request carries, or the cache's. *)
Definition sticky_id (ctx : ReqCtx) (ns : Z) (sessionHash : string) : sprog Z :=
  let prefetch := prefetchedStickyAccountIDFromContext ctx ns in
  if 0 <? prefetch then Ret prefetch else
  if str_empty sessionHash then Ret 0 else
  let* bound := call (CStickyGet ns sessionHash) in Ret match bound with Ok id => id | Err _ => 0 end.

Definition waiting_count (accountID : Z) : sprog Z :=
  let* n := call (CWaitingCount accountID) in Ret match n with Ok n => n | Err _ => 0 end.

Definition out_of_fuel : error := EPlain "fuel".

(** Without the loads, one account after the other; a session that its
    account refuses excludes the account. *)
Fixpoint select_without_load (fuel : nat) (ctx : ReqCtx) (stickyAccountID : Z) (sessionHash requestedModel : string)
  (localExcluded : gset Z) : sprog (result AccountSelectionResult) :=
  match fuel with
  | O => Ret (Err out_of_fuel)
  | S fuel =>
    let* selected := SelectAccountForModelWithExclusions ctx sessionHash requestedModel localExcluded in
    match selected with
    | Err e => Ret (Err e)
    | Ok a =>
      let next := select_without_load fuel ctx stickyAccountID sessionHash requestedModel ({[acc_ID a]} ∪ localExcluded) in
      let* acquired := tryAcquireAccountSlot (acc_ID a) (acc_Concurrency a) in
      match acquired with
      | Ok {| aq_Acquired := true; aq_ReleaseFunc := rel |} =>
        let* registered := checkAndRegisterSession a sessionHash in
        if registered then Ret (newSelectionResult ctx a true rel None)
        else let* _ := run_release rel in next
      | _ =>
        let* registered := checkAndRegisterSession a sessionHash in
        if negb registered then next else
        if (0 <? stickyAccountID) && (stickyAccountID =? acc_ID a) && gs_concurrencyService s then
          let* waiting := waiting_count (acc_ID a) in
          Ret (newSelectionResult ctx a false None
                 (Some (if waiting <? StickySessionMaxWaiting (gs_cfg s) then sticky_plan a else fallback_plan a)))
        else Ret (newSelectionResult ctx a false None (Some (fallback_plan a)))
      end
    end
  end.

(** What the sticky layer decides: a result, or to go on. *)
Definition sticky_layer (ctx : ReqCtx) (pf : Prefetched) (ns : Z) (platform sessionHash requestedModel : string)
  (useMixed : bool) (a : Account) : sprog (option (result AccountSelectionResult)) :=
  let* now := call CNow in
  let clearSticky := shouldClearStickySession now a requestedModel in
  let* _ := (if clearSticky then call (CStickyDelete ns sessionHash) else Ret tt) in
  let platformOK := isAccountAllowedForPlatform a platform useMixed in
  let modelSupported := str_empty requestedModel || model_supported ctx in
  let* modelSchedulable := isAccountSchedulableForModelSelection ctx a requestedModel in
  let* quotaOK := isAccountSchedulableForQuota a in
  let* windowCostOK := isAccountSchedulableForWindowCost pf a true in
  let* rpmOK := isAccountSchedulableForRPM pf a true in
  let* schedulable := isAccountSchedulableForSelection a in
  if negb (negb clearSticky && platformOK && modelSupported && modelSchedulable && quotaOK && windowCostOK && rpmOK
           && schedulable) then Ret None else
  let wait :=
    let* waiting := waiting_count (acc_ID a) in
    if waiting <? StickySessionMaxWaiting (gs_cfg s) then
      let* registered := checkAndRegisterSession a sessionHash in
      Ret (if registered then Some (newSelectionResult ctx a false None (Some (sticky_plan a))) else None)
    else Ret None in
  let* acquired := tryAcquireAccountSlot (acc_ID a) (acc_Concurrency a) in
  match acquired with
  | Ok {| aq_Acquired := true; aq_ReleaseFunc := rel |} =>
    let* registered := checkAndRegisterSession a sessionHash in
    if registered then
      let* _ := call (CStickyRefresh ns sessionHash stickySessionTTL) in
      Ret (Some (newSelectionResult ctx a true rel None))
    else let* _ := run_release rel in wait
  | _ => wait
  end.

Definition candidate (ctx : ReqCtx) (pf : Prefetched) (platform requestedModel : string) (useMixed : bool)
  (excludedIDs : gset Z) (a : Account) : sprog bool :=
  when (negb (excluded excludedIDs (acc_ID a)))
  (and_then (isAccountSchedulableForSelection a)
  (when (isAccountAllowedForPlatform a platform useMixed)
  (gates ctx pf requestedModel false a))).
Fixpoint filter_prog {A} (p : A -> sprog bool) (l : list A) : sprog (list A) :=
  match l with
  | [] => Ret []
  | x :: l => let* b := p x in let* l := filter_prog p l in Ret (if b then x :: l else l)
  end.

Definition bind_session (ns : Z) (sessionHash : string) (a : Account) : sprog unit :=
  if str_empty sessionHash then Ret tt else call (CStickySet ns sessionHash (acc_ID a) stickySessionTTL).

(** A slot of the account, with its session registered. *)
Definition try_account (ctx : ReqCtx) (ns : Z) (sessionHash : string) (a : Account)
  : sprog (option (result AccountSelectionResult)) :=
  let* acquired := tryAcquireAccountSlot (acc_ID a) (acc_Concurrency a) in
  match acquired with
  | Ok {| aq_Acquired := true; aq_ReleaseFunc := rel |} =>
    let* registered := checkAndRegisterSession a sessionHash in
    if registered then
      let* _ := bind_session ns sessionHash a in Ret (Some (newSelectionResult ctx a true rel None))
    else let* _ := run_release rel in Ret None
  | _ => Ret None
  end.

Fixpoint try_in_order (ctx : ReqCtx) (ns : Z) (sessionHash : string) (accounts : list Account)
  : sprog (option (result AccountSelectionResult)) :=
  match accounts with
  | [] => Ret None
  | a :: accounts =>
    let* r := try_account ctx ns sessionHash a in
    match r with Some r => Ret (Some r) | None => try_in_order ctx ns sessionHash accounts end
  end.
Definition tryAcquireByFallbackOrder (ctx : ReqCtx) (candidates : list Account) (ns : Z) (sessionHash : string)
  (preferOAuth : bool) : sprog (option (result AccountSelectionResult)) :=
  let* ordered := sortAccountsByPriorityAndLastUsed candidates preferOAuth in
  try_in_order ctx ns sessionHash ordered.

(** Who is not full. *)
Definition no_load (a : Account) : AccountLoadInfo :=
  {| li_AccountID := acc_ID a; li_CurrentConcurrency := 0; li_WaitingCount := 0; li_LoadRate := 0 |}.
Definition available_of (loadMap : gmap Z AccountLoadInfo) (candidates : list Account) : list accountWithLoad :=
  filterb (λ x, wl_rate x <? 100)
    (map (λ a, {| wl_account := a; wl_loadInfo := default (no_load a) (loadMap !! acc_ID a) |}) candidates).

(** By priority, soonest reset (if asked), load and last use; who was tried is
    not tried again. *)
Definition next_choice (available : list accountWithLoad) (preferOAuth : bool) : sprog (option accountWithLoad) :=
  let candidates := filterByMinPriority available in
  let* candidates := (if PreferSoonestReset (gs_cfg s) then filterBySoonestReset candidates else Ret candidates) in
  selectByLRU (filterByMinLoadRate candidates) preferOAuth.
Fixpoint try_by_load (fuel : nat) (ctx : ReqCtx) (ns : Z) (sessionHash : string) (preferOAuth : bool)
  (available : list accountWithLoad) : sprog (option (result AccountSelectionResult)) :=
  match fuel with
  | O => Ret None
  | S fuel =>
    if is_nil available then Ret None else
    let* selected := next_choice available preferOAuth in
    match selected with
    | None => Ret None
    | Some x =>
      let* r := try_account ctx ns sessionHash (wl_account x) in
      match r with
      | Some r => Ret (Some r)
      | None =>
        try_by_load fuel ctx ns sessionHash preferOAuth
          (filterb (λ y, negb (acc_ID (wl_account y) =? acc_ID (wl_account x))) available)
      end
    end
  end.

Fixpoint queue_layer (ctx : ReqCtx) (sessionHash : string) (candidates : list Account)
  : sprog (result AccountSelectionResult) :=
  match candidates with
  | [] => Ret (Err ErrNoAvailableAccounts)
  | a :: candidates =>
    let* registered := checkAndRegisterSession a sessionHash in
    if registered then Ret (newSelectionResult ctx a false None (Some (fallback_plan a)))
    else queue_layer ctx sessionHash candidates
  end.

Definition account_by_id (accounts : list Account) (id : Z) : option Account :=
  last (filterb (λ a, acc_ID a =? id) accounts).

(** The layers over the accounts of the pool. *)
Definition selected_of_pool (ctx : ReqCtx) (scope : PlatformSchedulingScope) (ns stickyAccountID : Z)
  (sessionHash requestedModel : string) (excludedIDs : gset Z) (accounts : list Account) (pf : Prefetched)
  : sprog (result AccountSelectionResult) :=
  let platform := scope_AccountPlatform scope in
  let preferOAuth := String.eqb platform PlatformGemini in
  let useMixed := false in
  let* stuck :=
    (if negb (str_empty sessionHash) && (0 <? stickyAccountID) && negb (excluded excludedIDs stickyAccountID) then
       match account_by_id accounts stickyAccountID with
       | Some a => sticky_layer ctx pf ns platform sessionHash requestedModel useMixed a
       | None => Ret None
       end
     else Ret None) in
  match stuck with
  | Some r => Ret r
  | None =>
    let* candidates := filter_prog (candidate ctx pf platform requestedModel useMixed excludedIDs) accounts in
    if is_nil candidates then Ret (Err ErrNoAvailableAccounts) else
    let* loads := call (CLoadBatch (map (λ a, {| awc_ID := acc_ID a; awc_MaxConcurrency := EffectiveLoadFactor a |}) candidates)) in
    let* tried :=
      (match loads with
       | Err _ => tryAcquireByFallbackOrder ctx candidates ns sessionHash preferOAuth
       | Ok loadMap =>
         let available := available_of loadMap candidates in
         try_by_load (length available) ctx ns sessionHash preferOAuth available
       end) in
    match tried with
    | Some r => Ret r
    | None =>
      let* ordered := sortCandidatesForFallback candidates preferOAuth (FallbackSelectionMode (gs_cfg s)) in
      queue_layer ctx sessionHash ordered
    end
  end.

Definition select_with_load (ctx : ReqCtx) (scope : PlatformSchedulingScope) (ns stickyAccountID : Z)
  (sessionHash requestedModel : string) (excludedIDs : gset Z) : sprog (result AccountSelectionResult) :=
  let* listed := listSchedulableAccounts ctx (scope_AccountPlatform scope) in
  match listed with
  | Err e => Ret (Err e)
  | Ok [] => Ret (Err ErrNoAvailableAccounts)
  | Ok accounts =>
    let* pf := withWindowCostPrefetch accounts nothing_read in
    let* pf := withRPMPrefetch accounts pf in
    selected_of_pool ctx scope ns stickyAccountID sessionHash requestedModel excludedIDs accounts pf
  end.

Definition SelectAccountWithLoadAwareness (fuel : nat) (ctx : ReqCtx) (sessionHash requestedModel : string)
  (excludedIDs : gset Z) : sprog (result AccountSelectionResult) :=
  match PlatformSchedulingScopeFromContext ctx with
  | None => Ret (Err scope_required)
  | Some scope =>
    match platformSchedulingCacheID scope with
    | None => Ret (Err scope_invalid)
    | Some ns =>
      let* stickyAccountID := sticky_id ctx ns sessionHash in
      if negb (gs_concurrencyService s) || negb (LoadBatchEnabled (gs_cfg s))
      then select_without_load fuel ctx stickyAccountID sessionHash requestedModel excludedIDs
      else select_with_load ctx scope ns stickyAccountID sessionHash requestedModel excludedIDs
    end
  end.

End Selection.
