(* ===== verification/SelectionProps.v ===== *)
(** * Properties of the selection of an account

    Whatever the repository, the caches and the clock answer, a selected
    account passed every gate, every slot that was taken is in the result or
    has been given back, nothing waits before everything was tried, and the
    next account tried is the best of those left. *)

From stdpp Require Import pretty fin.
From S2P Require Import Prelude GoErrors Prog Float64 GoTime GoStrings GoText PlatformModels ProductCoreAdapter Account ModelMapping Redis Concurrency AccountSelection.

Open Scope prog_scope.

(** ** Slots that are held *)

Definition delta (a : Z) (q : string) (e : event svc) : Z :=
  match e with
  | Ev c b =>
    match c in svc B return B -> Z with
    | CSlotAcquire id _ r => λ b, match b with Ok true => if decide (id = a /\ r = q) then 1 else 0 | _ => 0 end
    | CSlotRelease id r => λ _, if decide (id = a /\ r = q) then -1 else 0
    | _ => λ _, 0
    end b
  end.
(** How often the slot [q] of the account [a] was taken and not given back. *)
Definition held (a : Z) (q : string) (tr : strace) : Z := foldr (λ e n, delta a q e + n) 0 tr.

Lemma held_cons a q e tr : held a q (e :: tr) = delta a q e + held a q tr.
Proof. done. Qed.
#[global] Arguments held : simpl never.

Definition no_slot : ∀ B, svc B -> Prop := λ B c,
  match c with CSlotAcquire _ _ _ | CSlotRelease _ _ => False | _ => True end.

Lemma slot_quiet a q B (c : svc B) b tr : no_slot _ c -> held a q (Ev c b :: tr) = held a q tr.
Proof. intros Hc. rewrite held_cons. by destruct c. Qed.
Lemma no_slot_held {A} (p : sprog A) tr a q : only no_slot p -> always p tr (λ tr' _, held a q tr' = held a q tr).
Proof. apply (only_same no_slot (held a q)), slot_quiet. Qed.

Create HintDb quiet.

Section Props.
Context {Host : GoHost} {UC : UnicodeCase} (s : GatewayService).

(** ** Which functions leave the slots alone *)

Ltac quiet :=
  repeat first
    [ done
    | solve [auto with quiet]
    | apply only_bind; [|intros ?]
    | apply only_call; exact I
    | match goal with |- only _ (Do _ _) => cbn [only] end
    | match goal with |- no_slot _ _ /\ _ => split; [exact I|intros ?] | |- True /\ _ => split; [exact I|intros ?] end
    | match goal with |- only _ (if ?b then _ else _) => destruct b
                    | |- only _ (match ?o with _ => _ end) => destruct o end ].

Lemma quiet_selection a : only no_slot (isAccountSchedulableForSelection a).
Proof. unfold isAccountSchedulableForSelection. quiet. Qed.
#[local] Hint Resolve quiet_selection : quiet.
Lemma quiet_model ctx a m : only no_slot (isAccountSchedulableForModelSelection ctx a m).
Proof. unfold isAccountSchedulableForModelSelection. quiet. Qed.
#[local] Hint Resolve quiet_model : quiet.
Lemma quiet_quota a : only no_slot (isAccountSchedulableForQuota a).
Proof. unfold isAccountSchedulableForQuota. quiet. Qed.
#[local] Hint Resolve quiet_quota : quiet.
Lemma quiet_cost pf a b : only no_slot (isAccountSchedulableForWindowCost s pf a b).
Proof. unfold isAccountSchedulableForWindowCost. quiet. Qed.
#[local] Hint Resolve quiet_cost : quiet.
Lemma quiet_rpm pf a b : only no_slot (isAccountSchedulableForRPM s pf a b).
Proof. unfold isAccountSchedulableForRPM. quiet. Qed.
#[local] Hint Resolve quiet_rpm : quiet.
Lemma quiet_register a h : only no_slot (checkAndRegisterSession s a h).
Proof. unfold checkAndRegisterSession. quiet. Qed.
#[local] Hint Resolve quiet_register : quiet.
Lemma quiet_waiting id : only no_slot (waiting_count id).
Proof. unfold waiting_count. quiet. Qed.
#[local] Hint Resolve quiet_waiting : quiet.
Lemma quiet_gates ctx pf m b a : only no_slot (gates s ctx pf m b a).
Proof.
  unfold gates, when, and_then. quiet.
Qed.
#[local] Hint Resolve quiet_gates : quiet.
Lemma quiet_filter {A} (p : A -> sprog bool) l : (∀ x, only no_slot (p x)) -> only no_slot (filter_prog p l).
Proof. intros Hp. induction l as [|x l IH]; cbn; quiet. Qed.
#[local] Hint Resolve quiet_filter : quiet.
Lemma quiet_permute {A} (l : list A) : only no_slot (permute l).
Proof. unfold permute. quiet. Qed.
#[local] Hint Resolve quiet_permute : quiet.
Lemma quiet_store ids m costs : only no_slot (store_costs ids m costs).
Proof. revert costs. induction ids as [|id ids IH]; cbn; intros; quiet. Qed.
#[local] Hint Resolve quiet_store : quiet.
Lemma quiet_single ids t costs : only no_slot (single_costs ids t costs).
Proof. revert costs. induction ids as [|id ids IH]; cbn; intros; quiet. Qed.
#[local] Hint Resolve quiet_single : quiet.
Lemma quiet_groups g costs : only no_slot (group_costs s g costs).
Proof.
  revert costs. induction g as [|[t ids] g IH]; cbn; intros; quiet.
Qed.
#[local] Hint Resolve quiet_groups : quiet.
Lemma quiet_missing accounts costs g : only no_slot (missing_groups accounts costs g).
Proof. revert g. induction accounts as [|a accounts IH]; cbn; intros; quiet. Qed.
#[local] Hint Resolve quiet_missing : quiet.
Lemma quiet_prefetch_cost accounts pf : only no_slot (withWindowCostPrefetch s accounts pf).
Proof.
  unfold withWindowCostPrefetch. quiet.
Qed.
#[local] Hint Resolve quiet_prefetch_cost : quiet.
Lemma quiet_prefetch_rpm accounts pf : only no_slot (withRPMPrefetch s accounts pf).
Proof. unfold withRPMPrefetch. quiet. Qed.
#[local] Hint Resolve quiet_prefetch_rpm : quiet.
Lemma quiet_shuffle {A} (same : A -> A -> bool) sh fuel l : (∀ g, only no_slot (sh g)) -> only no_slot (shuffle_groups same sh fuel l).
Proof.
  intros Hs. revert l. induction fuel as [|fuel IH]; intros [|x l]; cbn; try done. destruct (take_group _ _) as [g rest].
  quiet.
Qed.
#[local] Hint Resolve quiet_shuffle : quiet.
Lemma quiet_shuffle_several {A} (l : list A) : only no_slot (shuffle_several l).
Proof. unfold shuffle_several. quiet. Qed.
#[local] Hint Resolve quiet_shuffle_several : quiet.
Lemma quiet_oauth b g : only no_slot (shuffle_oauth_first b g).
Proof. unfold shuffle_oauth_first. quiet. Qed.
#[local] Hint Resolve quiet_oauth : quiet.
Lemma quiet_sort l b : only no_slot (sortAccountsByPriorityAndLastUsed l b).
Proof. apply quiet_shuffle, quiet_oauth. Qed.
#[local] Hint Resolve quiet_sort : quiet.
Lemma quiet_fallback_sort l b mode : only no_slot (sortCandidatesForFallback l b mode).
Proof. unfold sortCandidatesForFallback. destruct (String.eqb _ _); [|apply quiet_sort]. apply quiet_shuffle. intros. apply quiet_permute. Qed.
#[local] Hint Resolve quiet_fallback_sort : quiet.
Lemma quiet_lru l b : only no_slot (selectByLRU l b).
Proof. unfold selectByLRU. quiet. Qed.
#[local] Hint Resolve quiet_lru : quiet.
Lemma quiet_soonest l : only no_slot (filterBySoonestReset l).
Proof. unfold filterBySoonestReset. quiet. Qed.
#[local] Hint Resolve quiet_soonest : quiet.
Lemma quiet_choice l b : only no_slot (next_choice s l b).
Proof. unfold next_choice. quiet. Qed.
#[local] Hint Resolve quiet_choice : quiet.
Lemma quiet_list ctx p : only no_slot (listSchedulableAccounts ctx p).
Proof. unfold listSchedulableAccounts. quiet. Qed.
#[local] Hint Resolve quiet_list : quiet.
Lemma quiet_queue ctx h l : only no_slot (queue_layer s ctx h l).
Proof. induction l as [|a l IH]; cbn; quiet. Qed.
#[local] Hint Resolve quiet_queue : quiet.
Lemma quiet_candidate ctx pf p m u ex a : only no_slot (candidate s ctx pf p m u ex a).
Proof. unfold candidate, when, and_then. quiet. Qed.
#[local] Hint Resolve quiet_candidate : quiet.
Lemma quiet_legacy ctx pf m ex a : only no_slot (legacy_candidate s ctx pf m ex a).
Proof. unfold legacy_candidate, when, and_then. quiet. Qed.
#[local] Hint Resolve quiet_legacy : quiet.
Lemma quiet_pick ctx pf m ex b l o : only no_slot (pick s ctx pf m ex b l o).
Proof. revert o. induction l as [|a l IH]; cbn; intros; quiet. Qed.
#[local] Hint Resolve quiet_pick : quiet.
Lemma quiet_diagnose ctx a m p ex b : only no_slot (diagnoseSelectionFailure ctx a m p ex b).
Proof. unfold diagnoseSelectionFailure. quiet. Qed.
#[local] Hint Resolve quiet_diagnose : quiet.
Lemma quiet_collect ctx l m p ex b st : only no_slot (collectSelectionFailureStats ctx l m p ex b st).
Proof. revert st. induction l as [|a l IH]; cbn; intros; quiet. Qed.
#[local] Hint Resolve quiet_collect : quiet.
Lemma quiet_failure ctx l m p ex : only no_slot (selection_failure ctx l m p ex).
Proof. unfold selection_failure. quiet. Qed.
#[local] Hint Resolve quiet_failure : quiet.
Lemma quiet_sticky ctx sc ns h m ex : only no_slot (sticky_account s ctx sc ns h m ex).
Proof. unfold sticky_account, when. quiet. Qed.
#[local] Hint Resolve quiet_sticky : quiet.
Lemma quiet_select_platform ctx h m ex : only no_slot (selectAccountForModelWithPlatform s ctx h m ex).
Proof.
  unfold selectAccountForModelWithPlatform. quiet.
Qed.
#[local] Hint Resolve quiet_select_platform : quiet.
Lemma quiet_select_one ctx h m ex : only no_slot (SelectAccountForModelWithExclusions s ctx h m ex).
Proof. unfold SelectAccountForModelWithExclusions. quiet. Qed.
#[local] Hint Resolve quiet_select_one : quiet.
(** ** What is chosen is one of those given *)

Lemma min_in f l x : x ∈ filter_by_min f l -> x ∈ l.
Proof. destruct l as [|y l]; [done|]. by intros [H _]%elem_of_filterb. Qed.
Lemma soonest_in l tr : always (filterBySoonestReset l) tr (λ _ l', ∀ x, x ∈ l' -> x ∈ l).
Proof.
  unfold filterBySoonestReset. destruct (Nat.leb _ _); cbn; [done|]. intros now x. destruct (earliest now l); [|done].
  by intros [H _]%elem_of_filterb.
Qed.
Lemma lru_in l x : x ∈ lru_candidates l -> x ∈ l.
Proof. unfold lru_candidates. destruct (existsb _ _); by intros [H _]%elem_of_filterb. Qed.
Lemma oauth_in b l x : x ∈ prefer_oauth b l -> x ∈ l.
Proof.
  unfold prefer_oauth. destruct b; [|done]. destruct (is_nil _); [done|]. by intros [H _]%elem_of_filterb.
Qed.
Lemma select_in l b tr : always (selectByLRU l b) tr (λ _ o, ∀ x, o = Some x -> x ∈ l).
Proof.
  unfold selectByLRU. destruct l as [|x [|y l]]; [done|cbn; intros z [= <-]; by left|].
  destruct (lru_candidates (x :: y :: l)) as [|c [|c' cs]] eqn:E; cbn -[prefer_oauth].
  - destruct (prefer_oauth b []) as [|z zs] eqn:Ez; cbn; [done|].
    intros i w Hw%list_elem_of_lookup_2. rewrite <- Ez in Hw. apply oauth_in, elem_of_nil in Hw as [].
  - intros z [= <-]. apply lru_in. rewrite E. by left.
  - destruct (prefer_oauth b (c :: c' :: cs)) as [|z zs] eqn:Ez; cbn; [done|].
    intros i w Hw%list_elem_of_lookup_2. apply lru_in. rewrite E. apply (oauth_in b). by rewrite Ez.
Qed.
Lemma choice_in l b tr : always (next_choice s l b) tr (λ _ o, ∀ x, o = Some x -> x ∈ l).
Proof.
  unfold next_choice. apply always_bind.
  apply (always_then _ _ (λ _ l', ∀ x, x ∈ l' -> x ∈ filterByMinPriority l)).
  - destruct (PreferSoonestReset _); [apply soonest_in|by cbn; auto].
  - intros tr' l' Hl. eapply always_then; [apply select_in|]. cbn. intros _ o Ho x ->.
    eapply min_in, Hl, min_in, Ho. done.
Qed.

(** ** Orders are permutations *)

Lemma omap_lookup_seq {A} (l : list A) : omap (λ i : nat, l !! i) (seq 0 (length l)) = l.
Proof.
  induction l as [|x l IH]; [done|]. cbn. f_equal. rewrite <- seq_shift. etrans; [|exact IH].
  clear IH. induction (seq 0 (length l)) as [|i js IH]; cbn; [done|]. by rewrite IH.
Qed.
Lemma permute_perm {A} (l : list A) tr : always (permute l) tr (λ _ l', l' ≡ₚ l).
Proof. unfold permute. cbn. intros [p Hp]. cbn. etrans; [by apply (omap_Permutation _ _ _ Hp)|]. by rewrite omap_lookup_seq. Qed.
Lemma take_group_app {A} (same : A -> bool) l : (take_group same l).1 ++ (take_group same l).2 = l.
Proof. induction l as [|x l IH]; [done|]. cbn. destruct (same x); [|done]. destruct (take_group same l) as [g rest]. cbn in *. by rewrite IH. Qed.
Lemma shuffle_groups_perm {A} (same : A -> A -> bool) sh fuel l tr :
  (∀ g tr, always (sh g) tr (λ _ g', g' ≡ₚ g)) -> always (shuffle_groups same sh fuel l) tr (λ _ l', l' ≡ₚ l).
Proof.
  intros Hs. revert l tr. induction fuel as [|fuel IH]; intros [|x l] tr; cbn -[take_group]; [done..|].
  pose proof (take_group_app (same x) l) as Hl. destruct (take_group (same x) l) as [g rest]. cbn in Hl.
  apply always_bind. apply (always_then _ _ (λ _ g', g' ≡ₚ x :: g)).
  { destruct g; cbn [is_nil]; [by cbn|apply Hs]. }
  intros tr1 g1 Hg. apply always_bind. eapply always_then; [apply IH|]. cbn. intros tr2 rest' Hr. by rewrite Hg, Hr, <- Hl.
Qed.
Lemma several_perm {A} (l : list A) tr : always (shuffle_several l) tr (λ _ l', l' ≡ₚ l).
Proof. unfold shuffle_several. destruct (Nat.leb _ _); [by cbn|apply permute_perm]. Qed.
Lemma partition_perm {A} (p : A -> bool) l : filterb p l ++ filterb (λ x, negb (p x)) l ≡ₚ l.
Proof.
  induction l as [|x l IH]; [done|]. cbn. destruct (p x); cbn; [by rewrite IH|].
  by rewrite <- Permutation_middle, IH.
Qed.
Lemma oauth_first_perm b g tr : always (shuffle_oauth_first b g) tr (λ _ g', g' ≡ₚ g).
Proof.
  unfold shuffle_oauth_first. destruct b; [|apply permute_perm]. apply always_bind.
  eapply always_then; [apply several_perm|]. intros tr1 l1 H1. apply always_bind.
  eapply always_then; [apply several_perm|]. cbn. intros tr2 l2 H2. rewrite H1, H2. apply partition_perm.
Qed.
Lemma sort_perm l b tr : always (sortAccountsByPriorityAndLastUsed l b) tr (λ _ l', l' ≡ₚ l).
Proof.
  eapply always_then; [apply shuffle_groups_perm; intros; apply oauth_first_perm|]. cbn. intros tr' l' H.
  by rewrite H, stable_sort_perm.
Qed.
Lemma fallback_perm l b mode tr : always (sortCandidatesForFallback l b mode) tr (λ _ l', l' ≡ₚ l).
Proof.
  unfold sortCandidatesForFallback. destruct (String.eqb _ _); [|apply sort_perm].
  eapply always_then; [apply shuffle_groups_perm; intros; apply permute_perm|]. cbn. intros tr' l' H.
  unfold sortAccountsByPriorityOnly in H. by rewrite H, stable_sort_perm.
Qed.
Lemma filter_prog_in {A} (p : A -> sprog bool) l tr : always (filter_prog p l) tr (λ _ l', ∀ x, x ∈ l' -> x ∈ l).
Proof.
  revert tr. induction l as [|x l IH]; intros tr; cbn; [done|]. apply always_bind.
  apply (always_then _ _ (λ _ _, True)). { apply always_mono with (Q := λ tr' _, grows tr tr'); [done|apply always_grows]. }
  intros tr1 ok _. apply always_bind. eapply always_then; [apply IH|]. cbn. intros tr2 l' Hl' y Hy.
  destruct ok; [|right; by apply Hl']. apply elem_of_cons in Hy as [->|Hy]; [left|right; by apply Hl'].
Qed.
Lemma account_by_id_in l id x : account_by_id l id = Some x -> x ∈ l /\ acc_ID x = id.
Proof.
  unfold account_by_id. intros H%last_Some_elem_of. apply elem_of_filterb in H as [H Hi]. split; [done|lia].
Qed.
Lemma available_in m l x : x ∈ available_of m l -> wl_account x ∈ l /\ wl_rate x < 100.
Proof. unfold available_of. intros [H Hr]%elem_of_filterb. apply list_elem_of_fmap in H as (y & -> & Hy). split; [done|lia]. Qed.

(** ** Every slot is in the result or was given back *)

Definition carried (a : Z) (q : string) (r : option release) : Z :=
  match r with Some (ReleaseSlot id req) => if decide (id = a /\ req = q) then 1 else 0 | _ => 0 end.
Definition taken (a : Z) (q : string) (r : result AcquireResult) : Z :=
  match r with Ok {| aq_Acquired := true; aq_ReleaseFunc := rel |} => carried a q rel | _ => 0 end.
Definition in_result (a : Z) (q : string) (r : result AccountSelectionResult) : Z :=
  match r with Ok sel => carried a q (sr_ReleaseFunc sel) | Err _ => 0 end.
Definition in_option (a : Z) (q : string) (r : option (result AccountSelectionResult)) : Z :=
  match r with Some r => in_result a q r | None => 0 end.

Section Slots.
Context (a : Z) (q : string) (ctx : ReqCtx).
#[local] Abbreviation held := (held a q).
#[local] Abbreviation matching := (λ acc, accountMatchesPlatformSchedulingScope ctx acc = true).

(** [p] changes what is held by what its result carries. *)
#[local] Abbreviation settles := (settles held).
#[local] Abbreviation settles_bind := (settles_bind held).
#[local] Abbreviation settles_ret := (settles_ret held).
#[local] Abbreviation settles_after := (settles_after held no_slot (slot_quiet a q)).
#[local] Abbreviation settles_quiet := (settles_quiet held no_slot (slot_quiet a q)).
#[local] Abbreviation settles_knowing := (settles_knowing held no_slot (slot_quiet a q)).

Lemma settles_AcquireAccountSlot n id max : settles (taken a q) n (AcquireAccountSlot id max).
Proof.
  intros tr Hn. unfold AcquireAccountSlot. destruct (_ <=? _); [cbn; lia|]. cbn. intros req [[|]|e]; cbn; rewrite !held_cons; cbn; [|lia..].
  destruct (decide _); lia.
Qed.
Lemma settles_acquire n id max : settles (taken a q) n (tryAcquireAccountSlot s id max).
Proof. unfold tryAcquireAccountSlot. destruct (negb _); [by apply settles_ret|apply settles_AcquireAccountSlot]. Qed.
Lemma settles_release n rel : settles (λ _, - carried a q rel) n (run_release rel).
Proof.
  intros tr Hn. unfold run_release. destruct rel as [[|id req]|]; cbn; [lia| |lia]. intros u. rewrite held_cons; cbn.
  destruct (decide _); lia.
Qed.
Lemma result_carries acc b rel plan : matching acc -> in_result a q (newSelectionResult ctx acc b rel plan) = carried a q rel.
Proof. intros Hm. unfold newSelectionResult, hydrateSelectedAccount. by rewrite Hm. Qed.

(** Take a slot; then either its release function is handed on, or it runs. *)
Lemma settles_try {B} (g : B -> Z) n id max (good : option release -> sprog B) (busy : sprog B) :
  (∀ rel, settles (λ r, g r - carried a q rel) (n + carried a q rel) (good rel)) -> settles g n busy ->
  settles g n (let* acquired := tryAcquireAccountSlot s id max in
               match acquired with
               | Ok {| aq_Acquired := true; aq_ReleaseFunc := rel |} => good rel
               | _ => busy
               end).
Proof.
  intros Hg Hb. apply (settles_bind (taken a q)); [apply settles_acquire|]. intros [[[|] rel]|e]; cbn.
  - exists (λ r, g r - carried a q rel). split; [apply Hg|]. intros. lia.
  - exists g. split; [by rewrite Z.add_0_r|done].
  - exists g. split; [by rewrite Z.add_0_r|done].
Qed.
(** Register the session: keep the slot, or give it back and go on. *)
Lemma settles_registered {B} (g : B -> Z) n acc h rel (keep next : sprog B) :
  settles (λ r, g r - carried a q rel) (n + carried a q rel) keep -> settles g n next ->
  settles (λ r, g r - carried a q rel) (n + carried a q rel)
    (let* registered := checkAndRegisterSession s acc h in
     if registered then keep else let* _ := run_release rel in next).
Proof.
  intros Hk Hn. apply settles_after; [auto with quiet|]. intros [|]; [done|].
  apply (settles_bind (λ _, - carried a q rel)); [apply settles_release|]. intros []. exists g. split; [|intros; lia].
  replace (n + carried a q rel + - carried a q rel) with n by lia. done.
Qed.
Lemma settles_keep n acc rel : matching acc ->
  settles (λ r, in_result a q r - carried a q rel) (n + carried a q rel) (Ret (newSelectionResult ctx acc true rel None)).
Proof. intros Hm. apply settles_ret. rewrite result_carries by done. lia. Qed.
Lemma settles_keep_some n acc rel : matching acc ->
  settles (λ r, in_option a q r - carried a q rel) (n + carried a q rel) (Ret (Some (newSelectionResult ctx acc true rel None))).
Proof. intros Hm. apply settles_ret. cbn. rewrite result_carries by done. lia. Qed.

Lemma settles_try_account n ns h acc : matching acc -> settles (in_option a q) n (try_account s ctx ns h acc).
Proof.
  intros Hm. apply settles_try; [|by apply settles_ret]. intros rel. apply settles_registered; [|by apply settles_ret].
  apply settles_after; [unfold bind_session; quiet|]. intros _. by apply settles_keep_some.
Qed.
(** Going on when there is no result yet. *)
Lemma settles_or {B} (g : B -> Z) n (p : sprog (option (result AccountSelectionResult)))
  (found : result AccountSelectionResult -> B) (next : sprog B) :
  (∀ r, g (found r) = in_result a q r) -> settles (in_option a q) n p -> settles g n next ->
  settles g n (let* r := p in match r with Some r => Ret (found r) | None => next end).
Proof.
  intros Hf Hp Hn. apply (settles_bind (in_option a q)); [done|]. intros [r|]; cbn.
  - exists (λ r', g r' - in_result a q r). split; [|intros; lia]. apply settles_ret. rewrite Hf. lia.
  - exists g. split; [by rewrite Z.add_0_r|done].
Qed.

Lemma settles_in_order n ns h l : Forall matching l -> settles (in_option a q) n (try_in_order s ctx ns h l).
Proof.
  intros Hl. induction Hl as [|acc l Hm _ IH]; cbn [try_in_order]; [by apply settles_ret|].
  apply (settles_or _ n _ Some); [done|by apply settles_try_account|done].
Qed.
Lemma settles_by_load fuel n ns h b l : Forall (λ x, matching (wl_account x)) l ->
  settles (in_option a q) n (try_by_load s fuel ctx ns h b l).
Proof.
  revert l. induction fuel as [|fuel IH]; cbn [try_by_load]; intros l Hl; [by apply settles_ret|].
  destruct (is_nil l); [by apply settles_ret|].
  apply (settles_knowing (λ o, ∀ x, o = Some x -> x ∈ l)); [auto with quiet|intros tr; apply choice_in|].
  intros [x|] Hx; [|by apply settles_ret]. specialize (Hx x eq_refl).
  apply (settles_or _ n _ Some); [done| |].
  - apply settles_try_account. by apply (proj1 (Forall_forall _ _) Hl).
  - apply IH. apply Forall_forall. intros y [Hy _]%elem_of_filterb. by apply (proj1 (Forall_forall _ _) Hl).
Qed.
(** A result that waits carries nothing. *)
Lemma plan_carries acc plan : in_result a q (newSelectionResult ctx acc false None plan) = 0.
Proof. unfold newSelectionResult. by destruct (hydrateSelectedAccount ctx acc). Qed.
Lemma settles_wait n acc h :
  settles (in_option a q) n
    (let* waiting := waiting_count (acc_ID acc) in
     if waiting <? StickySessionMaxWaiting (gs_cfg s) then
       let* registered := checkAndRegisterSession s acc h in
       Ret (if registered then Some (newSelectionResult ctx acc false None (Some (sticky_plan s acc))) else None)
     else Ret None).
Proof.
  apply settles_after; [auto with quiet|]. intros waiting. destruct (_ <? _); [|by apply settles_ret].
  apply settles_after; [auto with quiet|]. intros [|]; apply settles_ret; [|done]. apply plan_carries.
Qed.
Lemma settles_sticky n pf ns platform h m mixed acc : matching acc ->
  settles (in_option a q) n (sticky_layer s ctx pf ns platform h m mixed acc).
Proof.
  intros Hm. unfold sticky_layer. apply settles_after; [quiet|]. intros now.
  apply settles_after; [quiet|]. intros _. do 5 (apply settles_after; [auto with quiet|]; intros ?).
  destruct (negb _); [by apply settles_ret|]. apply settles_try; [|apply settles_wait].
  intros rel. apply settles_registered; [|apply settles_wait].
  apply settles_after; [quiet|]. intros _. by apply settles_keep_some.
Qed.
Lemma settles_queue n h l : settles (in_result a q) n (queue_layer s ctx h l).
Proof.
  induction l as [|acc l IH]; cbn; [by apply settles_ret|]. apply settles_after; [auto with quiet|].
  intros [|]; [|done]. apply settles_ret, plan_carries.
Qed.
Lemma settles_order n l ns h b : Forall matching l -> settles (in_option a q) n (tryAcquireByFallbackOrder s ctx l ns h b).
Proof.
  intros Hl. unfold tryAcquireByFallbackOrder.
  apply (settles_knowing (λ l', l' ≡ₚ l)); [auto with quiet|intros; apply sort_perm|].
  intros l' Hl'. apply settles_in_order. by rewrite Hl'.
Qed.

(** The pool's accounts are listed: none is selected that does not match. *)
Lemma settles_with_load n accounts scope ns sticky h m ex :
  Forall matching accounts ->
  settles (in_result a q) n
    (let* pf := withWindowCostPrefetch s accounts nothing_read in
     let* pf := withRPMPrefetch s accounts pf in
     selected_of_pool s ctx scope ns sticky h m ex accounts pf).
Proof.
  intros Hl. apply settles_after; [auto with quiet|]. intros pf0. apply settles_after; [auto with quiet|]. intros pf.
  unfold selected_of_pool. apply (settles_or _ n _ id); [done| |].
  - destruct (_ && _); [|by apply settles_ret]. destruct (account_by_id _ _) as [acc|] eqn:E; [|by apply settles_ret].
    apply settles_sticky. apply account_by_id_in in E as [E _]. by apply (proj1 (Forall_forall _ _) Hl).
  - apply (settles_knowing (λ l', ∀ x, x ∈ l' -> x ∈ accounts)); [auto with quiet|intros; apply filter_prog_in|].
    intros l' Hl'. assert (Forall matching l') as Hm by (apply Forall_forall; intros x Hx; by apply (proj1 (Forall_forall _ _) Hl), Hl').
    destruct (is_nil _); [by apply settles_ret|]. apply settles_after; [quiet|]. intros loads.
    apply (settles_or _ n _ id); [done| |].
    + destruct loads as [map|e]; [|by apply settles_order]. apply settles_by_load. apply Forall_forall.
      intros x [Hx _]%available_in. by apply (proj1 (Forall_forall _ _) Hm).
    + apply settles_after; [auto with quiet|]. intros l''. apply settles_queue.
Qed.

Lemma exclusions_match h m ex tr :
  always (SelectAccountForModelWithExclusions s ctx h m ex) tr (λ _ r, ∀ acc, r = Ok acc -> matching acc).
Proof.
  unfold SelectAccountForModelWithExclusions. destruct (PlatformSchedulingScopeFromContext ctx) as [scope|]; [|done].
  destruct (platformSchedulingCacheID scope); [|done]. apply always_bind.
  eapply always_then; [apply always_grows|]. cbn. intros tr' [acc|e] _; [|done]. unfold hydrateSelectedAccount.
  destruct (accountMatchesPlatformSchedulingScope ctx acc) eqn:E; [by intros ? [= <-]|done].
Qed.
Lemma settles_without_load fuel n sticky h m ex :
  settles (in_result a q) n (select_without_load s fuel ctx sticky h m ex).
Proof.
  revert ex. induction fuel as [|fuel IH]; intros ex; cbn [select_without_load]; [by apply settles_ret|].
  apply (settles_knowing (λ r, ∀ acc, r = Ok acc -> matching acc)); [auto with quiet|intros; apply exclusions_match|].
  intros [acc|e] Hr; [|by apply settles_ret]. specialize (Hr acc eq_refl). apply settles_try.
  - intros rel. apply settles_registered; [by apply settles_keep|apply IH].
  - apply settles_after; [auto with quiet|]. intros [|]; cbn [negb]; [|apply IH].
    destruct (_ && _); [|apply settles_ret, plan_carries]. apply settles_after; [auto with quiet|]. intros waiting.
    apply settles_ret, plan_carries.
Qed.
End Slots.

(** *** The pool *)

(** Every listed pool held only accounts of the scope, as the condition of
    [ListSchedulableByPlatformPool] on platform and owner says. *)
Definition pool_answer (ctx : ReqCtx) (e : event svc) : bool :=
  match e with
  | Ev c b =>
    match c in svc B return B -> bool with
    | CList _ _ => λ b, match b with Ok l => forallb (accountMatchesPlatformSchedulingScope ctx) l | Err _ => true end
    | _ => λ _, true
    end b
  end.
Definition pool_answers (ctx : ReqCtx) (tr : strace) : Prop := Forall (λ e, pool_answer ctx e = true) tr.

Lemma pool_answers_grows ctx tr tr' : grows tr tr' -> pool_answers ctx tr' -> pool_answers ctx tr.
Proof. by intros [new ->] [_ H]%Forall_app. Qed.

Lemma list_answers ctx p tr :
  always (listSchedulableAccounts ctx p) tr (λ tr' r, ∀ l, r = Ok l -> pool_answers ctx tr' ->
    Forall (λ acc, accountMatchesPlatformSchedulingScope ctx acc = true) l).
Proof.
  unfold listSchedulableAccounts. destruct (PlatformSchedulingScopeFromContext ctx) as [scope|]; [|done].
  destruct (negb _); [done|]. destruct (normalizePlatformSchedulingScope scope) as [nn ok]. destruct (negb ok); [done|].
  cbn. intros r l -> [H _]%Forall_cons. cbn in H.
  apply Forall_forall. intros acc Hacc. apply list_elem_of_In in Hacc. revert acc Hacc. by apply forallb_forall.
Qed.

(** C6. After [SelectAccountWithLoadAwareness] a slot of an account is held
    exactly once more than before if it is the one the result releases, and as
    often as before otherwise: no path, whichever account or session refuses
    and whatever the caches and the clock answer, keeps a slot that the caller
    is not given the release function of.  The condition is that every pool
    the repository listed held only accounts of the request's scope
    ([pool_answers]), as the query of [ListSchedulableByPlatformPool] asks of
    them: [newSelectionResult] refuses any other account after its slot is
    taken and does not give it back
    ([SelectionRuns.foreign_account_keeps_slot]). *)
Theorem slots_accounted fuel ctx sessionHash requestedModel ex a q tr :
  always (SelectAccountWithLoadAwareness s fuel ctx sessionHash requestedModel ex) tr
    (λ tr' r, pool_answers ctx tr' -> held a q tr' = held a q tr + in_result a q r).
Proof.
  unfold SelectAccountWithLoadAwareness. destruct (PlatformSchedulingScopeFromContext ctx) as [scope|]; [|cbn; lia].
  destruct (platformSchedulingCacheID scope) as [ns|]; [|cbn; lia]. apply always_bind.
  eapply always_then; [apply (no_slot_held _ _ a q); unfold sticky_id; quiet|]. cbn. intros tr1 sticky H1.
  destruct (_ || _).
  { eapply always_then; [by apply (settles_without_load a q ctx)|]. cbn. by intros tr' r ->. }
  unfold select_with_load. apply always_bind.
  eapply always_then; [apply always_and; [apply (no_slot_held _ _ a q); auto with quiet|apply list_answers]|].
  cbn. intros tr2 listed [H2 Hl]. destruct listed as [[|acc accounts]|e]; cbn [always]; [intros _; cbn; lia| |intros _; cbn; lia].
  destruct (decide (pool_answers ctx tr2)) as [Hp|Hp].
  - eapply always_then; [apply (settles_with_load a q ctx (held a q tr2)); [by apply Hl|done]|].
    cbn beta. intros tr' r -> _. lia.
  - eapply always_then; [apply always_grows|]. cbn beta. intros tr' r Hg Hp'. destruct Hp. by eapply pool_answers_grows.
Qed.
End Props.
