(* ===== verification/SelectionSound.v ===== *)
(** * Who is selected

    An account that [service/gateway_scheduling.go] selects is one the
    repository answered, is not excluded, passed every gate on what was read
    in the same request, has the session registered, and comes with its slot
    or with a plan to wait for it. *)

From stdpp Require Import pretty fin.
From S2P Require Import Prelude GoErrors Prog Float64 GoTime GoStrings GoText PlatformModels ProductCoreAdapter Account ModelMapping Redis Concurrency AccountSelection SelectionProps.

Open Scope prog_scope.

Section Sound.
Context {Host : GoHost} {UC : UnicodeCase} (s : GatewayService).

(** ** What was read *)

Definition cost_seen (tr : strace) (id : Z) (c : float64) : Prop :=
  Ev (CWindowCost id) (Ok (Some c)) ∈ tr
  \/ (∃ start, Ev (CWindowStats id start) (Ok c) ∈ tr)
  \/ (∃ ids m, Ev (CWindowCostBatch ids) (Ok m) ∈ tr /\ m !! id = Some c)
  \/ (∃ ids start m, Ev (CWindowStatsBatch ids start) (Ok m) ∈ tr /\ id ∈ ids /\ c = default f0 (m !! id)).
Definition cost_unknown (tr : strace) (id : Z) : Prop := ∃ start e, Ev (CWindowStats id start) (Err e) ∈ tr.
Definition rpm_seen (tr : strace) (id n : Z) : Prop :=
  Ev (CRPM id) (Ok n) ∈ tr
  \/ (∃ ids m, Ev (CRPMBatch ids) (Ok m) ∈ tr /\ m !! id = Some n)
  \/ (n = 0 /\ (gs_rpmCache s = false \/ ∃ e, Ev (CRPM id) (Err e) ∈ tr)).

Definition cost_ok (tr : strace) (a : Account) : Prop :=
  IsAnthropicOAuthOrSetupToken a = true -> fleb (GetWindowCostLimit a) f0 = false ->
  cost_unknown tr (acc_ID a)
  \/ ∃ c, cost_seen tr (acc_ID a) c /\ CheckWindowCostSchedulability a c <> WindowCostNotSchedulable.
Definition rpm_ok (tr : strace) (a : Account) : Prop :=
  IsAnthropicOAuthOrSetupToken a = true -> 0 < GetBaseRPM a ->
  ∃ n, rpm_seen tr (acc_ID a) n /\ CheckRPMSchedulability a n <> WindowCostNotSchedulable.
Definition model_ok (ctx : ReqCtx) (m : string) (tr : strace) (a : Account) : Prop :=
  ∃ now, Ev CNow now ∈ tr /\ IsSchedulableForModelWithContext now ctx a m = true.

Record serves (ctx : ReqCtx) (m : string) (tr : strace) (a : Account) : Prop := {
  serves_model : model_ok ctx m tr a;
  serves_cost : cost_ok tr a;
  serves_rpm : rpm_ok tr a
}.

(** The account is the repository's answer for [id]. *)
Definition answered (tr : strace) (a : Account) (id : Z) : Prop :=
  (acc_ID a = id /\ ∃ pool platform l, Ev (CList pool platform) (Ok l) ∈ tr /\ a ∈ l)
  \/ Ev (CGetByID id) (Ok (Some a)) ∈ tr.
Record eligible (ctx : ReqCtx) (m : string) (ex : gset Z) (tr : strace) (a : Account) : Prop := {
  el_answered : ∃ id, answered tr a id /\ id ∉ ex;
  el_serves : serves ctx m tr a
}.

(** ** These stay *)

Lemma cost_seen_grows tr tr' id c : grows tr tr' -> cost_seen tr id c -> cost_seen tr' id c.
Proof.
  intros Hg [H|[(t & H)|[(ids & m & H & H2)|(ids & t & m & H & H2)]]]; apply (grows_elem _ _ _ Hg) in H;
    [left|right; left|right; right; left|right; right; right]; eauto 6.
Qed.
Lemma rpm_seen_grows tr tr' id n : grows tr tr' -> rpm_seen tr id n -> rpm_seen tr' id n.
Proof.
  intros Hg [H|[(ids & m & H & H2)|[H [H2|(e & H2)]]]].
  - left. by eapply grows_elem.
  - right; left. exists ids, m. split; [by eapply grows_elem|done].
  - right; right. auto.
  - right; right. split; [done|]. right. exists e. by eapply grows_elem.
Qed.
Lemma model_ok_grows ctx m tr tr' a : grows tr tr' -> model_ok ctx m tr a -> model_ok ctx m tr' a.
Proof. intros Hg [now [H1 H2]]. exists now. split; [by eapply grows_elem|done]. Qed.
Lemma cost_ok_grows tr tr' a : grows tr tr' -> cost_ok tr a -> cost_ok tr' a.
Proof.
  intros Hg Hc Ha Hl. destruct (Hc Ha Hl) as [(t & e & H)|(c & H & H')].
  - left. exists t, e. by eapply grows_elem.
  - right. exists c. split; [by eapply cost_seen_grows|done].
Qed.
Lemma rpm_ok_grows tr tr' a : grows tr tr' -> rpm_ok tr a -> rpm_ok tr' a.
Proof. intros Hg Hr Ha Hl. destruct (Hr Ha Hl) as (n & H & H'). exists n. split; [by eapply rpm_seen_grows|done]. Qed.
Lemma serves_grows ctx m tr tr' a : grows tr tr' -> serves ctx m tr a -> serves ctx m tr' a.
Proof. intros Hg [Hm Hc Hr]. split; [by eapply model_ok_grows|by eapply cost_ok_grows|by eapply rpm_ok_grows]. Qed.
Lemma answered_grows tr tr' a id : grows tr tr' -> answered tr a id -> answered tr' a id.
Proof.
  intros Hg [(Hi & pool & p & l & H & Hl)|H]; [left|right; by eapply grows_elem].
  split; [done|]. exists pool, p, l. split; [by eapply grows_elem|done].
Qed.
Lemma eligible_grows ctx m ex tr tr' a : grows tr tr' -> eligible ctx m ex tr a -> eligible ctx m ex tr' a.
Proof.
  intros Hg [(id & Ha & He) Hs]. split; [|by eapply serves_grows]. exists id. split; [by eapply answered_grows|done].
Qed.

(** ** What is read ahead was answered *)

Definition costs_seen (tr : strace) (costs : gmap Z float64) : Prop := ∀ id c, costs !! id = Some c -> cost_seen tr id c.
Definition prefetch_seen (tr : strace) (pf : Prefetched) : Prop :=
  (∀ costs, pf_costs pf = Some costs -> costs_seen tr costs)
  /\ (∀ counts id n, pf_rpm pf = Some counts -> counts !! id = Some n -> rpm_seen tr id n).
Lemma costs_seen_grows tr tr' costs : grows tr tr' -> costs_seen tr costs -> costs_seen tr' costs.
Proof. intros Hg H id c Hc. eapply cost_seen_grows; [done|by apply H]. Qed.
Lemma prefetch_seen_grows tr tr' pf : grows tr tr' -> prefetch_seen tr pf -> prefetch_seen tr' pf.
Proof.
  intros Hg [H1 H2]. split; [intros costs Hc; eapply costs_seen_grows; eauto|].
  intros counts id n Hc Hn. eapply rpm_seen_grows; eauto.
Qed.
Lemma nothing_seen tr : prefetch_seen tr nothing_read.
Proof. by split. Qed.
Lemma costs_seen_insert tr costs id c : cost_seen tr id c -> costs_seen tr costs -> costs_seen tr (<[id := c]> costs).
Proof. intros H Hc i x [[<- <-]|[_ Hx]]%lookup_insert_Some; [done|by apply Hc]. Qed.

Lemma store_seen all start stats ids costs tr :
  Ev (CWindowStatsBatch all start) (Ok stats) ∈ tr -> ids ⊆ all -> costs_seen tr costs ->
  always (store_costs ids stats costs) tr (λ tr' costs, costs_seen tr' costs).
Proof.
  revert costs tr. induction ids as [|id ids IH]; intros costs tr He Hs Hc; cbn [store_costs]; [done|].
  apply always_skip. intros tr' _ Hg. apply IH; [by eapply grows_elem|set_solver|].
  apply costs_seen_insert; [|by eapply costs_seen_grows]. right; right; right. exists all, start, stats.
  split; [by eapply grows_elem|]. split; [set_solver|done].
Qed.
Lemma single_seen ids start costs tr :
  costs_seen tr costs -> always (single_costs ids start costs) tr (λ tr' costs, costs_seen tr' costs).
Proof.
  revert costs tr. induction ids as [|id ids IH]; intros costs tr Hc; cbn [single_costs]; [done|].
  cbn [pbind call always]. intros [c|e].
  - cbn [pbind call always]. intros []. apply IH, costs_seen_insert.
    + right; left. exists start. right; left.
    + eapply costs_seen_grows; [|done]. etrans; apply grows_cons.
  - apply IH. eapply costs_seen_grows; [apply grows_cons|done].
Qed.
Lemma groups_seen g costs tr :
  costs_seen tr costs -> always (group_costs s g costs) tr (λ tr' costs, costs_seen tr' costs).
Proof.
  revert costs tr. induction g as [|[start ids] g IH]; intros costs tr Hc; cbn [group_costs]; [done|].
  apply (always_step _ _ _ costs_seen); [|intros tr' c _ Hc'; by apply IH]. destruct (gs_batchStats s); [|by apply single_seen].
  cbn [pbind call always]. intros [m|e]; [|apply single_seen; eapply costs_seen_grows; [apply grows_cons|done]].
  apply (store_seen ids start); [left|done|]. eapply costs_seen_grows; [apply grows_cons|done].
Qed.
Lemma with_costs_seen tr tr' pf costs :
  grows tr tr' -> prefetch_seen tr pf -> costs_seen tr' costs ->
  prefetch_seen tr' {| pf_costs := Some costs; pf_rpm := pf_rpm pf |}.
Proof.
  intros Hg Hp Hc. split; [by intros ? [= <-]|]. intros counts id n Hr Hn.
  eapply rpm_seen_grows; [done|]. by apply (proj2 Hp counts).
Qed.
Lemma cost_prefetch_seen accounts pf tr :
  prefetch_seen tr pf -> always (withWindowCostPrefetch s accounts pf) tr prefetch_seen.
Proof.
  intros Hp. unfold withWindowCostPrefetch. destruct (_ || _); [done|]. destruct (is_nil _); [done|].
  apply (always_step _ _ _ (λ tr' r, costs_seen tr' match r with Ok m => m | Err _ => ∅ end)).
  { intros [m|e] id c; [|by rewrite lookup_empty]. intros Hc. right; right; left. eexists _, m. split; [left|done]. }
  intros tr1 cached H1 Hc. apply always_skip. intros tr2 g H2. destruct (is_nil g).
  - apply (with_costs_seen tr); [by etrans|done|by eapply costs_seen_grows].
  - apply always_skip. intros tr3 g' H3. eapply always_step.
    { apply groups_seen. eapply costs_seen_grows; [|exact Hc]. by etrans. }
    intros tr4 costs H4 Hc'. apply (with_costs_seen tr); [by do 3 (etrans; [done|])|done..].
Qed.
Lemma rpm_prefetch_seen accounts pf tr :
  prefetch_seen tr pf -> always (withRPMPrefetch s accounts pf) tr prefetch_seen.
Proof.
  intros Hp. unfold withRPMPrefetch. destruct (negb _); [done|]. destruct (is_nil _); [done|].
  cbn [pbind call always]. intros [m|e]; cbn [always]; [|eapply prefetch_seen_grows; [apply grows_cons|done]].
  split; cbn.
  - intros costs Hc. eapply costs_seen_grows; [apply grows_cons|]. by apply (proj1 Hp).
  - intros counts id n [= <-] Hn. right; left. eexists _, m. split; [left|done].
Qed.

(** ** The gates *)

Lemma open_not_closed w b : open_for w b = true -> w <> WindowCostNotSchedulable.
Proof. by intros H ->. Qed.
Lemma gate_selection a tr :
  always (isAccountSchedulableForSelection a) tr (λ tr' b, b = true -> ∃ now, Ev CNow now ∈ tr' /\ IsSchedulable now a = true).
Proof. intros now H. exists now. split; [left|done]. Qed.
Lemma gate_model ctx a m tr :
  always (isAccountSchedulableForModelSelection ctx a m) tr (λ tr' b, b = true -> model_ok ctx m tr' a).
Proof. intros now H. exists now. split; [left|done]. Qed.
Lemma gate_cost pf a sticky tr : prefetch_seen tr pf ->
  always (isAccountSchedulableForWindowCost s pf a sticky) tr (λ tr' b, b = true -> cost_ok tr' a).
Proof.
  intros Hp. unfold isAccountSchedulableForWindowCost.
  destruct (IsAnthropicOAuthOrSetupToken a) eqn:Ea; cbn [negb]; [|intros _ ?; congruence].
  destruct (fleb _ _) eqn:El; [intros _ ? ?; congruence|].
  assert (Hcheck : ∀ tr' c, cost_seen tr' (acc_ID a) c ->
    open_for (CheckWindowCostSchedulability a c) sticky = true -> cost_ok tr' a).
  { intros tr' c Hc Ho _ _. right. exists c. split; [done|by eapply open_not_closed]. }
  destruct (windowCostFromPrefetchContext pf (acc_ID a)) as [c|] eqn:Ec.
  { refine (Hcheck _ _ _). unfold windowCostFromPrefetchContext in Ec. destruct (_ <=? _); [done|].
    destruct (pf_costs pf) as [costs|] eqn:Epf; [|done]. by apply (proj1 Hp costs Epf). }
  apply (always_step _ _ _ (λ tr' r, ∀ c, r = Ok (Some c) -> cost_seen tr' (acc_ID a) c)).
  { destruct (gs_sessionLimitCache s); [|done]. intros b c ->. left. left. }
  intros tr1 cached H1 Hc.
  assert (always (let* now := call CNow in
      let* stats := call (CWindowStats (acc_ID a) (GetCurrentWindowStartTime now a)) in
      match stats with
      | Err _ => Ret true
      | Ok cost =>
        let* _ := (if gs_sessionLimitCache s then call (CSetWindowCost (acc_ID a) cost) else Ret tt) in
        Ret (open_for (CheckWindowCostSchedulability a cost) sticky)
      end) tr1 (λ tr' b, b = true -> cost_ok tr' a)) as Hread.
  { apply always_skip. intros tr2 now _. cbn [pbind call always]. intros [c|e].
    - apply always_skip. intros tr3 _ H3. refine (Hcheck _ _ _). eapply cost_seen_grows; [done|]. right; left. eexists. left.
    - intros _ _ _. left. eexists _, e. left. }
  destruct cached as [[c|]|e]; [|exact Hread..]. cbn. by refine (Hcheck _ _ (Hc _ _)).
Qed.
Lemma gate_rpm pf a sticky tr : prefetch_seen tr pf ->
  always (isAccountSchedulableForRPM s pf a sticky) tr (λ tr' b, b = true -> rpm_ok tr' a).
Proof.
  intros Hp. unfold isAccountSchedulableForRPM.
  destruct (IsAnthropicOAuthOrSetupToken a) eqn:Ea; cbn [negb]; [|intros _ ?; congruence].
  destruct (_ <=? _) eqn:El; [intros _ _ ?; lia|].
  assert (Hcheck : ∀ tr' n, rpm_seen tr' (acc_ID a) n ->
    open_for (CheckRPMSchedulability a n) sticky = true -> rpm_ok tr' a).
  { intros tr' n Hn Ho _ _. exists n. split; [done|by eapply open_not_closed]. }
  destruct (rpmFromPrefetchContext pf (acc_ID a)) as [n|] eqn:Ec.
  { refine (Hcheck _ _ _). unfold rpmFromPrefetchContext in Ec.
    destruct (pf_rpm pf) as [counts|] eqn:Epf; [|done]. by apply (proj2 Hp counts). }
  destruct (gs_rpmCache s) eqn:Es.
  - cbn [pbind call always]. intros [n|e]; refine (Hcheck _ _ _); [left; left|]. right; right. split; [done|]. right. exists e. left.
  - refine (Hcheck _ _ _). right; right. auto.
Qed.

Lemma always_when b p tr (Q : strace -> Prop) :
  (b = true -> always p tr (λ tr' b', b' = true -> Q tr')) -> always (when b p) tr (λ tr' b', b' = true -> Q tr').
Proof. intros H. unfold when. destruct b; [by apply H|done]. Qed.
Lemma always_and_then p k tr (P Q : strace -> Prop) :
  always p tr (λ tr' b, b = true -> P tr') ->
  (∀ tr', grows tr tr' -> P tr' -> always k tr' (λ tr' b', b' = true -> Q tr')) ->
  always (and_then p k) tr (λ tr' b', b' = true -> Q tr').
Proof.
  intros H Hk. unfold and_then. apply (always_step _ _ _ _ _ H). intros tr' [|] Hg HP; [by apply Hk; auto|done].
Qed.
Lemma gates_serve ctx pf m sticky a tr : prefetch_seen tr pf ->
  always (gates s ctx pf m sticky a) tr (λ tr' b, b = true -> serves ctx m tr' a).
Proof.
  intros Hp. unfold gates. apply always_when. intros _. eapply always_and_then; [apply gate_model|].
  intros tr1 H1 Hm. apply (always_and_then _ _ _ (λ _, True)). { eapply always_then; [apply always_grows|done]. }
  intros tr2 H2 _. eapply always_and_then.
  { apply gate_cost. eapply prefetch_seen_grows; [|done]. by etrans. }
  intros tr3 H3 Hc. eapply always_then; [apply always_strengthen, gate_rpm; eapply prefetch_seen_grows; [|exact Hp]; by repeat (etrans; [done|])|].
  intros tr4 b [H4 Hr] Hb. specialize (Hr Hb). split; [|by eapply cost_ok_grows|done].
  apply (model_ok_grows _ _ tr1); [|done]. by do 2 (etrans; [done|]).
Qed.

(** ** From the gates to the accounts *)

Lemma filter_prog_holds (P : strace -> Account -> Prop) p l tr0 tr :
  (∀ tr tr' x, grows tr tr' -> P tr x -> P tr' x) ->
  (∀ x tr, x ∈ l -> grows tr0 tr -> always (p x) tr (λ tr' b, b = true -> P tr' x)) -> grows tr0 tr ->
  always (filter_prog p l) tr (λ tr' l', ∀ x, x ∈ l' -> P tr' x).
Proof.
  intros Hmono. revert tr. induction l as [|x l IH]; intros tr Hp Hg; cbn [filter_prog].
  { intros x Hx. by apply elem_of_nil in Hx. }
  eapply always_step; [apply Hp; [left|done]|]. intros tr1 b H1 Hb.
  eapply always_step; [apply IH; [intros y tr' Hy; apply Hp; by right|by etrans]|].
  intros tr2 l' H2 Hl' y. destruct b; [|apply Hl']. intros [->|Hy]%elem_of_cons; [|by apply Hl'].
  eapply Hmono; [done|by apply Hb].
Qed.
Lemma not_excluded ex id : negb (excluded ex id) = true -> id ∉ ex.
Proof. unfold excluded. intros H%negb_true_iff%bool_decide_eq_false. done. Qed.
Lemma candidate_eligible ctx pf p m u ex a tr : prefetch_seen tr pf -> answered tr a (acc_ID a) ->
  always (candidate s ctx pf p m u ex a) tr (λ tr' b, b = true -> eligible ctx m ex tr' a).
Proof.
  intros Hp Ha. unfold candidate. apply always_when. intros He%not_excluded.
  eapply always_and_then; [apply gate_selection|]. intros tr1 H1 _. apply always_when. intros _.
  eapply always_then; [apply always_strengthen, gates_serve; by eapply prefetch_seen_grows|].
  intros tr2 b [H2 Hb] Ht. split; [|by apply Hb]. exists (acc_ID a). split; [|done]. eapply answered_grows; [|done]. by etrans.
Qed.
Lemma legacy_eligible ctx pf m ex a tr : prefetch_seen tr pf -> answered tr a (acc_ID a) ->
  always (legacy_candidate s ctx pf m ex a) tr (λ tr' b, b = true -> eligible ctx m ex tr' a).
Proof.
  intros Hp Ha. unfold legacy_candidate. apply always_when. intros He%not_excluded.
  eapply always_and_then; [apply gate_selection|]. intros tr1 H1 _.
  eapply always_then; [apply always_strengthen, gates_serve; by eapply prefetch_seen_grows|].
  intros tr2 b [H2 Hb] Ht. split; [|by apply Hb]. exists (acc_ID a). split; [|done]. eapply answered_grows; [|done]. by etrans.
Qed.
Lemma pick_eligible ctx pf m ex b l o tr :
  prefetch_seen tr pf -> (∀ x, x ∈ l -> answered tr x (acc_ID x)) -> (∀ x, o = Some x -> eligible ctx m ex tr x) ->
  always (pick s ctx pf m ex b l o) tr (λ tr' r, ∀ x, r = Some x -> eligible ctx m ex tr' x).
Proof.
  revert o tr. induction l as [|a l IH]; intros o tr Hp Hl Ho; cbn [pick]; [done|].
  eapply always_step; [apply legacy_eligible; [done|apply Hl; left]|]. intros tr1 ok H1 Hok.
  assert (∀ x, o = Some x -> eligible ctx m ex tr1 x) as Ho' by (intros x Hx; by eapply eligible_grows; auto).
  apply IH.
  - by eapply prefetch_seen_grows.
  - intros x Hx. eapply answered_grows; [done|]. apply Hl. by right.
  - destruct ok; cbn [negb]; [|done]. specialize (Hok eq_refl). destruct o as [y|]; [|by intros x [= <-]].
    destruct (replaces b a y); [by intros x [= <-]|done].
Qed.
Lemma sticky_eligible ctx scope ns h m ex tr :
  always (sticky_account s ctx scope ns h m ex) tr (λ tr' r, ∀ x, r = Some x -> eligible ctx m ex tr' x).
Proof.
  unfold sticky_account. destruct (str_empty h); [done|]. apply always_skip. intros tr1 bound H1.
  destruct bound as [id|]; [|done]. destruct (_ || _) eqn:Ho; [done|]. apply orb_false_iff in Ho as [_ Hex].
  apply (always_step _ _ _ (λ tr' r, Ev (CGetByID id) r ∈ tr')); [intros r; left|]. intros tr2 found H2 Hf.
  destruct found as [[a|]|]; [|done..]. apply always_skip. intros tr3 now H3.
  destruct (shouldClearStickySession now a m); [by apply always_skip|].
  eapply always_step. { apply always_when. intros _. apply always_when. intros _. apply gates_serve, nothing_seen. }
  intros tr4 ok H4 Hok x Hx. destruct ok; [|done]. injection Hx as <-. split; [|by apply Hok]. exists id.
  split; [right; eapply grows_elem; [|done]; by etrans|]. apply not_excluded. by rewrite Hex.
Qed.
Lemma listed_answered ctx p tr :
  always (listSchedulableAccounts ctx p) tr (λ tr' r, ∀ l, r = Ok l -> ∀ x, x ∈ l -> answered tr' x (acc_ID x)).
Proof.
  unfold listSchedulableAccounts. destruct (PlatformSchedulingScopeFromContext ctx) as [scope|]; [|done].
  destruct (negb _); [done|]. destruct (normalizePlatformSchedulingScope scope) as [nn ok]. destruct (negb ok); [done|].
  intros r l -> x Hx. left. split; [done|]. eexists _, _, l. split; [left|done].
Qed.
Lemma platform_eligible ctx h m ex tr :
  always (selectAccountForModelWithPlatform s ctx h m ex) tr (λ tr' r, ∀ x, r = Ok x -> eligible ctx m ex tr' x).
Proof.
  unfold selectAccountForModelWithPlatform. destruct (PlatformSchedulingScopeFromContext ctx) as [scope|]; [|done].
  destruct (platformSchedulingCacheID scope) as [ns|]; [|done].
  eapply always_step; [apply sticky_eligible|]. intros tr1 [a|] H1 Ha; [by intros x [= <-]; apply Ha|].
  eapply always_step; [apply listed_answered|]. intros tr2 [l|e] H2 Hl; [|done].
  eapply always_step; [apply cost_prefetch_seen, nothing_seen|]. intros tr3 pf3 H3 Hp3.
  eapply always_step; [by apply rpm_prefetch_seen|]. intros tr4 pf H4 Hp.
  eapply always_step.
  { apply (pick_eligible ctx pf m ex _ l None); [done| |done]. intros x Hx. apply (answered_grows tr2); [by etrans|by apply (Hl l)]. }
  intros tr5 [a|] H5 Hs; [|by apply always_skip]. apply always_skip. intros tr6 _ H6 x [= <-].
  eapply eligible_grows; [done|by apply Hs].
Qed.
Lemma exclusions_eligible ctx h m ex tr :
  always (SelectAccountForModelWithExclusions s ctx h m ex) tr
    (λ tr' r, ∀ x, r = Ok x -> eligible ctx m ex tr' x /\ accountMatchesPlatformSchedulingScope ctx x = true).
Proof.
  unfold SelectAccountForModelWithExclusions. destruct (PlatformSchedulingScopeFromContext ctx) as [scope|]; [|done].
  destruct (platformSchedulingCacheID scope) as [ns|]; [|done].
  eapply always_step; [apply platform_eligible|]. intros tr1 [a|e] H1 Ha; [|done]. intros x Hx.
  unfold hydrateSelectedAccount in Hx. destruct (accountMatchesPlatformSchedulingScope ctx a) eqn:E; [|done].
  injection Hx as <-. split; [by apply Ha|done].
Qed.

(** ** Results *)

(** The session is the account's, or the account does not limit sessions, or
    the cache did not answer. *)
Definition registered (h : string) (tr : strace) (a : Account) : Prop :=
  IsAnthropicOAuthOrSetupToken a = true -> 0 < GetMaxSessions a -> h <> ""%string -> gs_sessionLimitCache s = true ->
  ∃ r, Ev (CRegister (acc_ID a) h (GetMaxSessions a) (mul64 (GetSessionIdleTimeoutMinutes a) minute)) r ∈ tr
       /\ r <> Ok false.
(** It holds a slot that was taken for it, or it may wait for one. *)
Definition slot_or_plan (tr : strace) (sel : AccountSelectionResult) : Prop :=
  let a := sr_Account sel in
  if sr_Acquired sel then
    sr_WaitPlan sel = None
    /\ ((sr_ReleaseFunc sel = Some NoRelease /\ (acc_Concurrency a <= 0 \/ gs_concurrencyService s = false))
        \/ ∃ req, sr_ReleaseFunc sel = Some (ReleaseSlot (acc_ID a) req)
                  /\ Ev (CSlotAcquire (acc_ID a) (acc_Concurrency a) req) (Ok true) ∈ tr)
  else
    sr_ReleaseFunc sel = None
    /\ ∃ plan, sr_WaitPlan sel = Some plan /\ wp_AccountID plan = acc_ID a /\ wp_MaxConcurrency plan = acc_Concurrency a.
Record sound (ctx : ReqCtx) (h m : string) (ex : gset Z) (tr : strace) (sel : AccountSelectionResult) : Prop := {
  so_eligible : eligible ctx m ex tr (sr_Account sel);
  so_pool : accountMatchesPlatformSchedulingScope ctx (sr_Account sel) = true;
  so_registered : registered h tr (sr_Account sel);
  so_slot : slot_or_plan tr sel
}.
Definition sound_result ctx h m ex (tr : strace) (r : result AccountSelectionResult) : Prop :=
  ∀ sel, r = Ok sel -> sound ctx h m ex tr sel.
Definition sound_option ctx h m ex (tr : strace) (r : option (result AccountSelectionResult)) : Prop :=
  ∀ r', r = Some r' -> sound_result ctx h m ex tr r'.

Lemma registered_grows h tr tr' a : grows tr tr' -> registered h tr a -> registered h tr' a.
Proof. intros Hg H H1 H2 H3 H4. destruct (H H1 H2 H3 H4) as (r & Hr & Hn). exists r. split; [by eapply grows_elem|done]. Qed.
Lemma register_ok h a tr :
  always (checkAndRegisterSession s a h) tr (λ tr' b, b = true -> registered h tr' a).
Proof.
  unfold checkAndRegisterSession. destruct (IsAnthropicOAuthOrSetupToken a) eqn:Ea; cbn [negb]; [|intros _ H; congruence].
  destruct (_ || _) eqn:Em.
  { intros _ _ Hm Hh. apply orb_true_iff in Em as [Em|Em]; [lia|]. by destruct h. }
  destruct (gs_sessionLimitCache s) eqn:Ec; cbn [negb]; [|intros _ _ _ _ ?; congruence].
  intros r Hr _ _ _ _. exists r. split; [left|]. intros ->. done.
Qed.

(** What [tryAcquireAccountSlot] answered is so. *)
Definition took (tr : strace) (a : Account) (r : result AcquireResult) : Prop :=
  match r with
  | Ok {| aq_Acquired := true; aq_ReleaseFunc := rel |} =>
    (rel = Some NoRelease /\ (acc_Concurrency a <= 0 \/ gs_concurrencyService s = false))
    \/ ∃ req, rel = Some (ReleaseSlot (acc_ID a) req) /\ Ev (CSlotAcquire (acc_ID a) (acc_Concurrency a) req) (Ok true) ∈ tr
  | _ => True
  end.
Lemma acquire_took a tr : always (tryAcquireAccountSlot s (acc_ID a) (acc_Concurrency a)) tr (λ tr' r, took tr' a r).
Proof.
  unfold tryAcquireAccountSlot. destruct (gs_concurrencyService s) eqn:E; cbn [negb]; [|left; auto].
  unfold AcquireAccountSlot. destruct (_ <=? _) eqn:Ec; [left; split; [done|left; lia]|].
  intros req [[|]|e]; cbn; [|done..]. right. exists req. split; [done|left].
Qed.
Lemma took_grows tr tr' a r : grows tr tr' -> took tr a r -> took tr' a r.
Proof.
  intros Hg. destruct r as [[[|] rel]|]; [|done..]. intros [H|(req & -> & H)]; [by left|]. right. exists req.
  split; [done|by eapply grows_elem].
Qed.

Lemma acquired_sound ctx h m ex tr a rel :
  eligible ctx m ex tr a -> registered h tr a -> took tr a (Ok {| aq_Acquired := true; aq_ReleaseFunc := rel |}) ->
  sound_result ctx h m ex tr (newSelectionResult ctx a true rel None).
Proof.
  intros He Hr Ht sel. unfold newSelectionResult, hydrateSelectedAccount.
  destruct (accountMatchesPlatformSchedulingScope ctx a) eqn:E; [|done]. intros [= <-]. by split.
Qed.
Lemma waiting_sound ctx h m ex tr a plan :
  eligible ctx m ex tr a -> registered h tr a -> wp_AccountID plan = acc_ID a -> wp_MaxConcurrency plan = acc_Concurrency a ->
  sound_result ctx h m ex tr (newSelectionResult ctx a false None (Some plan)).
Proof.
  intros He Hr H1 H2 sel. unfold newSelectionResult, hydrateSelectedAccount.
  destruct (accountMatchesPlatformSchedulingScope ctx a) eqn:E; [|done]. intros [= <-]. split; try done. by split; [|exists plan].
Qed.

(** ** The layers *)

Lemma always_try {B} (Q : strace -> B -> Prop) a tr (good : option release -> sprog B) busy :
  (∀ tr' rel, grows tr tr' -> took tr' a (Ok {| aq_Acquired := true; aq_ReleaseFunc := rel |}) -> always (good rel) tr' Q) ->
  (∀ tr', grows tr tr' -> always busy tr' Q) ->
  always (let* acquired := tryAcquireAccountSlot s (acc_ID a) (acc_Concurrency a) in
          match acquired with
          | Ok {| aq_Acquired := true; aq_ReleaseFunc := rel |} => good rel
          | _ => busy
          end) tr Q.
Proof.
  intros Hg Hb. eapply always_step; [apply acquire_took|]. intros tr' [[[|] rel]|e] H Ht; [by apply Hg|by apply Hb..].
Qed.
Lemma always_registered {B} (Q : strace -> B -> Prop) h a tr (keep next : sprog B) rel :
  (∀ tr', grows tr tr' -> registered h tr' a -> always keep tr' Q) -> (∀ tr', grows tr tr' -> always next tr' Q) ->
  always (let* registered := checkAndRegisterSession s a h in
          if registered then keep else let* _ := run_release rel in next) tr Q.
Proof.
  intros Hk Hn. eapply always_step; [apply register_ok|]. intros tr1 [|] H1 Hr; [by apply Hk; auto|].
  apply always_skip. intros tr2 _ H2. apply Hn. by etrans.
Qed.
(** Going on when there is no result yet. *)
Lemma always_or {B} (Q : strace -> B -> Prop) tr (p : sprog (option (result AccountSelectionResult))) found (next : sprog B) R :
  always p tr R -> (∀ tr' r, grows tr tr' -> R tr' (Some r) -> Q tr' (found r)) ->
  (∀ tr', grows tr tr' -> R tr' None -> always next tr' Q) ->
  always (let* r := p in match r with Some r => Ret (found r) | None => next end) tr Q.
Proof. intros Hp Hf Hn. eapply always_step; [done|]. intros tr' [r|] H HR; [by apply Hf|by apply Hn]. Qed.

Section Layers.
Context (ctx : ReqCtx) (h m : string) (ex : gset Z).
#[local] Abbreviation eligible := (eligible ctx m ex).
#[local] Abbreviation sound_option := (sound_option ctx h m ex).
#[local] Abbreviation sound_result := (sound_result ctx h m ex).

Lemma none_sound tr : sound_option tr None.
Proof. done. Qed.
Lemma error_sound tr e : sound_result tr (Err e).
Proof. done. Qed.
Lemma some_sound tr r : sound_result tr r -> sound_option tr (Some r).
Proof. by intros H r' [= <-]. Qed.
Lemma some_sound_inv tr r : sound_option tr (Some r) -> sound_result tr r.
Proof. intros H. by apply H. Qed.

Lemma try_account_sound ns a tr : eligible tr a -> always (try_account s ctx ns h a) tr sound_option.
Proof.
  intros He. apply always_try; [|intros; apply none_sound]. intros tr1 rel H1 Ht.
  apply always_registered; [|intros; apply none_sound]. intros tr2 H2 Hr. apply always_skip. intros tr3 _ H3.
  apply some_sound, acquired_sound.
  - eapply eligible_grows; [|exact He]. etrans; [done|by etrans].
  - by eapply registered_grows.
  - eapply took_grows; [|exact Ht]. by etrans.
Qed.
Lemma in_order_sound ns l tr : (∀ a, a ∈ l -> eligible tr a) -> always (try_in_order s ctx ns h l) tr sound_option.
Proof.
  revert tr. induction l as [|a l IH]; intros tr Hl; cbn [try_in_order]; [apply none_sound|].
  eapply always_or; [apply try_account_sound, Hl; left|done|]. intros tr1 H1 _. apply IH. intros x Hx.
  eapply eligible_grows; [done|]. apply Hl. by right.
Qed.
Lemma order_sound l ns b tr : (∀ a, a ∈ l -> eligible tr a) -> always (tryAcquireByFallbackOrder s ctx l ns h b) tr sound_option.
Proof.
  intros Hl. unfold tryAcquireByFallbackOrder. eapply always_step; [apply sort_perm|]. intros tr1 l' H1 Hp.
  apply in_order_sound. intros a Ha. rewrite Hp in Ha. eapply eligible_grows; [done|by apply Hl].
Qed.
Lemma by_load_sound fuel ns b l tr :
  (∀ x, x ∈ l -> eligible tr (wl_account x)) -> always (try_by_load s fuel ctx ns h b l) tr sound_option.
Proof.
  revert l tr. induction fuel as [|fuel IH]; intros l tr Hl; cbn [try_by_load]; [apply none_sound|].
  destruct (is_nil l); [apply none_sound|]. eapply always_step; [apply choice_in|].
  intros tr1 [x|] H1 Hx; [|apply none_sound]. specialize (Hx x eq_refl).
  assert (∀ y, y ∈ l -> eligible tr1 (wl_account y)) as Hl1 by (intros y Hy; eapply eligible_grows; [done|by apply Hl]).
  eapply always_or; [by apply try_account_sound, Hl1|done|]. intros tr2 H2 _. apply IH.
  intros y [Hy _]%elem_of_filterb. eapply eligible_grows; [done|by apply Hl1].
Qed.
Lemma queue_sound l tr : (∀ a, a ∈ l -> eligible tr a) -> always (queue_layer s ctx h l) tr sound_result.
Proof.
  revert tr. induction l as [|a l IH]; intros tr Hl; cbn [queue_layer]; [apply error_sound|].
  eapply always_step; [apply register_ok|]. intros tr1 [|] H1 Hr.
  - apply waiting_sound; [|by apply Hr|done..]. eapply eligible_grows; [done|]. apply Hl. left.
  - apply IH. intros x Hx. eapply eligible_grows; [done|]. apply Hl. by right.
Qed.
Lemma wait_sound a tr : eligible tr a ->
  always (let* waiting := waiting_count (acc_ID a) in
          if waiting <? StickySessionMaxWaiting (gs_cfg s) then
            let* registered := checkAndRegisterSession s a h in
            Ret (if registered then Some (newSelectionResult ctx a false None (Some (sticky_plan s a))) else None)
          else Ret None) tr sound_option.
Proof.
  intros He. apply always_skip. intros tr1 waiting H1. destruct (_ <? _); [|apply none_sound].
  eapply always_step; [apply register_ok|]. intros tr2 [|] H2 Hr; [|apply none_sound].
  apply some_sound, waiting_sound; [|by apply Hr|done..]. eapply eligible_grows; [|exact He]. by etrans.
Qed.
Lemma sticky_layer_sound pf ns platform mixed a tr :
  prefetch_seen tr pf -> answered tr a (acc_ID a) -> acc_ID a ∉ ex ->
  always (sticky_layer s ctx pf ns platform h m mixed a) tr sound_option.
Proof.
  intros Hp Ha He. unfold sticky_layer. apply always_skip. intros tr1 now H1. apply always_skip. intros tr2 _ H2.
  eapply always_step; [apply gate_model|]. intros tr3 okm H3 Hm. apply always_skip. intros tr4 okq H4.
  assert (grows tr tr4) as H04 by (do 3 (etrans; [done|]); done).
  eapply always_step; [apply gate_cost; by eapply prefetch_seen_grows|]. intros tr5 okc H5 Hc.
  eapply always_step; [apply gate_rpm; apply (prefetch_seen_grows tr); [by etrans|exact Hp]|]. intros tr6 okr H6 Hr.
  apply always_skip. intros tr7 oks H7. destruct (negb _) eqn:E; [apply none_sound|].
  apply negb_false_iff in E. rewrite !andb_true_iff in E. destruct E as [[[[[[[_ _] _] Em] _] Ec] Er] _].
  assert (grows tr4 tr7) as H47 by (do 2 (etrans; [done|]); done).
  assert (eligible tr7 a) as Hel.
  { split.
    - exists (acc_ID a). split; [|done]. eapply answered_grows; [|exact Ha]. by etrans.
    - split.
      + eapply model_ok_grows; [|by apply Hm]. by etrans.
      + eapply cost_ok_grows; [|by apply Hc]. by etrans.
      + eapply rpm_ok_grows; [|by apply Hr]; done. }
  apply always_try.
  - intros tr8 rel H8 Ht. apply always_registered.
    + intros tr9 H9 Hg. apply always_skip. intros tr10 _ H10. apply some_sound, acquired_sound.
      * eapply eligible_grows; [|exact Hel]. etrans; [done|by etrans].
      * by eapply registered_grows.
      * eapply took_grows; [|exact Ht]. by etrans.
    + intros tr9 H9. apply wait_sound. eapply eligible_grows; [|exact Hel]. by etrans.
  - intros tr8 H8. apply wait_sound. by eapply eligible_grows.
Qed.

Lemma pool_sound scope ns sticky accounts pf tr :
  prefetch_seen tr pf -> (∀ x, x ∈ accounts -> answered tr x (acc_ID x)) ->
  always (selected_of_pool s ctx scope ns sticky h m ex accounts pf) tr sound_result.
Proof.
  intros Hp Hl. unfold selected_of_pool. apply (always_or _ _ _ id _ sound_option).
  - destruct (_ && _) eqn:E; [|apply none_sound]. apply andb_true_iff in E as [_ He%not_excluded].
    destruct (account_by_id _ _) as [a|] eqn:Ea; [|apply none_sound]. apply account_by_id_in in Ea as [Ea <-].
    apply sticky_layer_sound; [done|by apply Hl|done].
  - intros tr' r _ Hr. by apply some_sound_inv.
  - intros tr1 H1 _. eapply always_step.
    { apply (filter_prog_holds eligible) with (tr0 := tr1); [intros *; apply eligible_grows| |done].
      intros a tr' Ha Hg. apply candidate_eligible; [|eapply answered_grows; [|by apply Hl]; by etrans].
      apply (prefetch_seen_grows tr); [by etrans|done]. }
    intros tr2 l H2 Hel. destruct (is_nil l); [apply error_sound|]. apply always_skip. intros tr3 loads H3.
    assert (∀ a, a ∈ l -> eligible tr3 a) as Hel3 by (intros a Ha; eapply eligible_grows; [done|by apply Hel]).
    apply (always_or _ _ _ id _ sound_option).
    + destruct loads as [map|e]; [|by apply order_sound]. apply by_load_sound. intros x [Hx _]%available_in. by apply Hel3.
    + intros tr' r _ Hr. by apply some_sound_inv.
    + intros tr4 H4 _. eapply always_step; [apply fallback_perm|]. intros tr5 l' H5 Hperm. apply queue_sound.
      intros a Ha. rewrite Hperm in Ha. eapply eligible_grows; [|by apply Hel3]. by etrans.
Qed.
Lemma with_load_sound scope ns sticky tr :
  always (select_with_load s ctx scope ns sticky h m ex) tr sound_result.
Proof.
  unfold select_with_load. eapply always_step; [apply listed_answered|].
  intros tr1 [[|a accounts]|e] H1 Hl; [apply error_sound| |apply error_sound].
  eapply always_step; [apply cost_prefetch_seen, nothing_seen|]. intros tr2 pf2 H2 Hp2.
  eapply always_step; [by apply rpm_prefetch_seen|]. intros tr3 pf H3 Hp. apply pool_sound; [done|].
  intros x Hx. apply (answered_grows tr1); [by etrans|by apply (Hl (a :: accounts))].
Qed.
End Layers.

Lemma eligible_weaken ctx m ex ex' tr a : ex ⊆ ex' -> eligible ctx m ex' tr a -> eligible ctx m ex tr a.
Proof. intros Hs [(id & Ha & He) Hv]. split; [|done]. exists id. split; [done|set_solver]. Qed.
Lemma sound_weaken ctx h m ex ex' tr r : ex ⊆ ex' -> sound_result ctx h m ex' tr r -> sound_result ctx h m ex tr r.
Proof. intros Hs H sel Hsel. destruct (H sel Hsel). split; [by eapply eligible_weaken|done..]. Qed.

Lemma without_load_sound fuel ctx sticky h m ex tr :
  always (select_without_load s fuel ctx sticky h m ex) tr (sound_result ctx h m ex).
Proof.
  revert ex tr. induction fuel as [|fuel IH]; intros ex tr; cbn [select_without_load]; [apply error_sound|].
  eapply always_step; [apply exclusions_eligible|]. intros tr1 [a|e] H1 Ha; [|apply error_sound].
  destruct (Ha a eq_refl) as [Hel Hm].
  assert (∀ tr', always (select_without_load s fuel ctx sticky h m ({[acc_ID a]} ∪ ex)) tr' (sound_result ctx h m ex)) as Hnext.
  { intros tr'. eapply always_then; [apply IH|]. intros tr'' r. apply sound_weaken. set_solver. }
  apply always_try.
  - intros tr2 rel H2 Ht. apply always_registered; [|by intros]. intros tr3 H3 Hr. apply acquired_sound; [|done|].
    + eapply eligible_grows; [|exact Hel]. by etrans.
    + by eapply took_grows.
  - intros tr2 H2. eapply always_step; [apply register_ok|]. intros tr3 [|] H3 Hr; cbn [negb]; [|done]. specialize (Hr eq_refl).
    destruct (_ && _).
    + apply always_skip. intros tr4 waiting H4. apply waiting_sound; [|by eapply registered_grows|by destruct (_ <? _)..].
      eapply eligible_grows; [|exact Hel]. etrans; [done|by etrans].
    + apply waiting_sound; [|done..]. eapply eligible_grows; [|exact Hel]. by etrans.
Qed.

(** C7. Whatever the repository, the caches and the clock answer, an account
    that [SelectAccountWithLoadAwareness] returns is one the repository
    answered for an id that is not excluded, belongs to the platform's pool,
    can be scheduled for the model at an instant the clock answered, is within
    its cost and request limits on a figure that was read for it (or could not
    be), and has the session registered; the result either holds a slot that
    was taken for this account and its concurrency, or a plan to wait for one. *)
Theorem selection_sound fuel ctx sessionHash requestedModel ex tr :
  always (SelectAccountWithLoadAwareness s fuel ctx sessionHash requestedModel ex) tr
    (λ tr' r, ∀ sel, r = Ok sel -> sound ctx sessionHash requestedModel ex tr' sel).
Proof.
  unfold SelectAccountWithLoadAwareness. destruct (PlatformSchedulingScopeFromContext ctx) as [scope|]; [|done].
  destruct (platformSchedulingCacheID scope) as [ns|]; [|done]. apply always_skip. intros tr1 sticky H1.
  destruct (_ || _); [apply without_load_sound|apply with_load_sound].
Qed.


End Sound.
