(* ===== verification/SelectionOrder.v ===== *)
(** * In which order accounts are tried

    The next account [service/gateway_scheduling.go] tries is the best of those
    left, nothing waits before every account with room has refused, and the
    loop without loads ends. *)

From stdpp Require Import pretty fin.
From S2P Require Import Prelude GoErrors Prog Float64 GoTime GoStrings GoText PlatformModels ProductCoreAdapter Account ModelMapping Redis Concurrency AccountSelection SelectionProps SelectionSound.

Open Scope prog_scope.

Section Order.
Context {Host : GoHost} {UC : UnicodeCase} (s : GatewayService).

(** ** The best of those left *)

Lemma min_of_spec f first rest :
  (∀ x, x ∈ first :: rest -> min_of f first rest <= f x) /\ ∃ x, x ∈ first :: rest /\ f x = min_of f first rest.
Proof.
  unfold min_of.
  assert (∀ m, let r := foldl (λ m x, if f x <? m then f x else m) m rest in
    r <= m /\ (∀ x, x ∈ rest -> r <= f x) /\ (r = m \/ ∃ x, x ∈ rest /\ f x = r)) as H.
  { induction rest as [|y rest IH]; intros m; cbn; [split; [lia|split; [by intros x ?%elem_of_nil|by left]]|].
    destruct (IH (if f y <? m then f y else m)) as (H1 & H2 & H3). cbn in *. split; [|split].
    - destruct (f y <? m) eqn:?; lia.
    - intros x [->|Hx]%elem_of_cons; [|by apply H2]. destruct (f y <? m) eqn:?; lia.
    - destruct H3 as [H3|(x & Hx & H3)]; [|right; exists x; split; [by right|done]]. rewrite H3.
      destruct (f y <? m); [|by left]. right. exists y. split; [left|done]. }
  destruct (H (f first)) as (H1 & H2 & H3). cbn in *. split.
  - intros x [->|Hx]%elem_of_cons; [done|by apply H2].
  - destruct H3 as [H3|(x & Hx & H3)]; [exists first; split; [left|done]|exists x; split; [by right|done]].
Qed.
Lemma filter_by_min_spec f l x : x ∈ filter_by_min f l <-> x ∈ l /\ ∀ y, y ∈ l -> f x <= f y.
Proof.
  destruct l as [|first rest]; [split; [by intros ?%elem_of_nil|by intros [?%elem_of_nil _]]|].
  unfold filter_by_min. rewrite elem_of_filterb. destruct (min_of_spec f first rest) as [H1 (z & Hz & Hf)]. split.
  - intros [Hx He]. split; [done|]. intros y Hy. specialize (H1 y Hy). lia.
  - intros [Hx Hle]. split; [done|]. specialize (H1 x Hx). specialize (Hle z Hz). lia.
Qed.
Lemma filter_by_min_nonempty f l : l <> [] -> filter_by_min f l <> [].
Proof.
  destruct l as [|first rest]; [done|]. intros _ Hn. destruct (min_of_spec f first rest) as [H1 (z & Hz & Hf)].
  assert (z ∈ filter_by_min f (first :: rest)) as Hin by (apply filter_by_min_spec; split; [done|]; intros; rewrite Hf; auto).
  rewrite Hn in Hin. by apply elem_of_nil in Hin.
Qed.

(** Never used comes first, then the longest unused. *)
Definition used_before (a b : option time) : Prop :=
  match a, b with None, _ => True | Some _, None => False | Some t, Some u => t_ns t <= t_ns u end.
Lemma oldest_use_spec l :
  match oldest_use l with
  | Some m => (∀ x t, x ∈ l -> acc_LastUsedAt (wl_account x) = Some t -> t_ns m <= t_ns t)
              /\ ∃ x, x ∈ l /\ acc_LastUsedAt (wl_account x) = Some m
  | None => ∀ x, x ∈ l -> acc_LastUsedAt (wl_account x) = None
  end.
Proof.
  unfold oldest_use.
  set (step := λ (m : option time) x, match acc_LastUsedAt (wl_account x), m with
                | Some t, Some m' => if before t m' then Some t else m
                | Some t, None => Some t
                | None, _ => m
                end).
  assert (∀ o, match foldl step o l with
    | Some m => (∀ x t, x ∈ l -> acc_LastUsedAt (wl_account x) = Some t -> t_ns m <= t_ns t)
                /\ (∀ t, o = Some t -> t_ns m <= t_ns t)
                /\ (o = Some m \/ ∃ x, x ∈ l /\ acc_LastUsedAt (wl_account x) = Some m)
    | None => o = None /\ ∀ x, x ∈ l -> acc_LastUsedAt (wl_account x) = None
    end) as H.
  { induction l as [|y l IH]; intros o; cbn [foldl].
    { destruct o as [m|]; [|split; [done|by intros x ?%elem_of_nil]].
      split; [by intros x t ?%elem_of_nil|]. split; [by intros t [= <-]|by left]. }
    specialize (IH (step o y)). destruct (foldl step (step o y) l) as [m|].
    - destruct IH as (H1 & H2 & H3). unfold step in H2, H3.
      destruct (acc_LastUsedAt (wl_account y)) as [u|] eqn:Ey.
      + assert (t_ns m <= t_ns u) as Hu.
        { destruct o as [v|]; [|by apply H2]. destruct (before u v) eqn:E; [by apply H2|].
          specialize (H2 v eq_refl). unfold before in E. lia. }
        split; [|split].
        * intros x t [->|Hx]%elem_of_cons Ht; [by rewrite Ey in Ht; injection Ht as <-|by eapply H1].
        * intros t ->. destruct (before u t) eqn:E; [|by apply H2]. unfold before in E. lia.
        * destruct H3 as [H3|(x & Hx & H3)]; [|right; exists x; split; [by right|done]].
          destruct o as [v|]; [destruct (before u v); [|by left]|]; injection H3 as <-;
            right; exists y; (split; [left|done]).
      + split; [|split; [done|]].
        * intros x t [->|Hx]%elem_of_cons Ht; [congruence|by eapply H1].
        * destruct H3 as [H3|(x & Hx & H3)]; [by left|right; exists x; split; [by right|done]].
    - destruct IH as [H1 H2]. unfold step in H1. destruct (acc_LastUsedAt (wl_account y)) as [u|] eqn:Ey.
      { destruct o as [v|]; [destruct (before u v)|]; discriminate. }
      split; [done|]. intros x [->|Hx]%elem_of_cons; [done|by apply H2]. }
  specialize (H None). destruct (foldl step None l) as [m|]; [|apply H]. destruct H as (H1 & _ & [?|H3]); [done|]. by split.
Qed.
Lemma lru_spec l x : x ∈ lru_candidates l ->
  x ∈ l /\ ∀ y, y ∈ l -> used_before (acc_LastUsedAt (wl_account x)) (acc_LastUsedAt (wl_account y)).
Proof.
  unfold lru_candidates. destruct (existsb _ l) eqn:E.
  - intros [Hx Hn]%elem_of_filterb. split; [done|]. intros y _. unfold never_used in Hn. by destruct (acc_LastUsedAt (wl_account x)).
  - intros [Hx Ht]%elem_of_filterb. split; [done|]. intros y Hy. pose proof (oldest_use_spec l) as Ho.
    destruct (acc_LastUsedAt (wl_account x)) as [t|] eqn:Ex; [|done]. destruct (oldest_use l) as [m|]; [|done].
    destruct Ho as [Ho _]. unfold time_equal in Ht. cbn.
    destruct (acc_LastUsedAt (wl_account y)) as [u|] eqn:Ey; [specialize (Ho y u Hy Ey); lia|].
    assert (existsb (λ x, never_used (wl_account x)) l = true); [|congruence].
    apply existsb_exists. exists y. split; [by apply list_elem_of_In|]. unfold never_used. by rewrite Ey.
Qed.
Lemma lru_nonempty l : l <> [] -> lru_candidates l <> [].
Proof.
  intros Hl Hn. unfold lru_candidates in Hn. destruct (existsb _ l) eqn:E.
  - apply existsb_exists in E as (x & Hx%list_elem_of_In & Hu). rewrite filterb_nil in Hn. specialize (Hn x Hx). cbn in Hn. congruence.
  - pose proof (oldest_use_spec l) as Ho. destruct (oldest_use l) as [m|].
    + destruct Ho as [_ (x & Hx & Hu)]. rewrite filterb_nil in Hn. specialize (Hn x Hx). cbn in Hn. rewrite Hu in Hn.
      unfold time_equal in Hn. lia.
    + destruct l as [|x l]; [done|]. specialize (Ho x (list_elem_of_here _ _)). cbn in E. unfold never_used in E. by rewrite Ho in E.
Qed.
(** What [selectByLRU] picks among accounts is one of them, and none is before it. *)
Lemma prefer_oauth_nonempty b l : l <> [] -> prefer_oauth b l <> [].
Proof. unfold prefer_oauth. destruct b; [|done]. cbn. by destruct (filterb _ l) eqn:E. Qed.
Lemma index_some {A} (x : A) l (i : fin (S (length l))) : ∃ y, (x :: l) !! fin_to_nat i = Some y.
Proof. apply lookup_lt_is_Some. pose proof (fin_to_nat_lt i). cbn. lia. Qed.
Lemma selectByLRU_spec l b tr : l <> [] ->
  always (selectByLRU l b) tr (λ _ o, ∃ x, o = Some x /\ x ∈ l /\
    ∀ y, y ∈ l -> used_before (acc_LastUsedAt (wl_account x)) (acc_LastUsedAt (wl_account y))).
Proof.
  intros Hl. unfold selectByLRU. destruct l as [|x [|y l]]; [done| |].
  { exists x. split; [done|]. split; [left|]. intros y ->%list_elem_of_singleton. cbn.
    destruct (acc_LastUsedAt (wl_account x)); cbn; [lia|done]. }
  pose proof (lru_nonempty _ Hl) as Hc. pose proof (lru_spec (x :: y :: l)) as Hs.
  destruct (lru_candidates (x :: y :: l)) as [|c [|c' cs]]; cbn -[prefer_oauth]; [done| |].
  { exists c. split; [done|]. apply Hs. left. }
  pose proof (prefer_oauth_nonempty b (c :: c' :: cs)) as Hp. pose proof (oauth_in b (c :: c' :: cs)) as Hi.
  destruct (prefer_oauth b (c :: c' :: cs)) as [|z zs]; [by destruct Hp|]. intros i. destruct (index_some z zs i) as [w Hw].
  exists w. split; [done|]. apply Hs, Hi. by eapply list_elem_of_lookup_2.
Qed.
Lemma soonest_nonempty l tr : l <> [] -> always (filterBySoonestReset l) tr (λ _ l', l' <> []).
Proof.
  intros Hl. unfold filterBySoonestReset. destruct (Nat.leb _ _); [by cbn|]. intros now.
  assert (∀ o, match foldl (λ m x, match window_end now x with
                | None => m
                | Some e => match m with None => Some e | Some m' => if before e m' then Some e else m end
                end) o l with
    | Some m => o = Some m \/ ∃ x, x ∈ l /\ window_end now x = Some m
    | None => True end) as H.
  { clear Hl. induction l as [|x l IH]; intros o; cbn [foldl]; [destruct o; auto|].
    match goal with |- match foldl _ ?o' l with _ => _ end => specialize (IH o'); destruct (foldl _ o' l) as [m|]; [|done] end.
    destruct IH as [IH|(y & Hy & IH)]; [|right; exists y; split; [by right|done]].
    destruct (window_end now x) as [e|] eqn:E; [|by left].
    destruct o as [m'|]; [destruct (before e m'); [|by left]|]; right; exists x; (split; [left|congruence]). }
  specialize (H None). change (foldl _ None l) with (earliest now l) in H. cbn [always pbind].
  destruct (earliest now l) as [m|]; [|by cbn]. destruct H as [?|(x & Hx & Hw)]; [done|]. intros Hn.
  rewrite filterb_nil in Hn. specialize (Hn x Hx). cbn in Hn. rewrite Hw in Hn. unfold time_equal in Hn. lia.
Qed.
Lemma next_choice_some l b tr : l <> [] -> always (next_choice s l b) tr (λ _ o, ∃ x, o = Some x /\ x ∈ l).
Proof.
  intros Hl. unfold next_choice.
  apply (always_step _ _ _ (λ _ l', l' <> [] /\ ∀ x, x ∈ l' -> x ∈ l)).
  - apply (filter_by_min_nonempty wl_priority) in Hl. destruct (PreferSoonestReset _).
    + eapply always_then; [apply always_and; [by apply soonest_nonempty|apply soonest_in]|]. cbn. intros tr' l' [H1 H2].
      split; [done|]. intros x Hx. by apply (min_in wl_priority), H2.
    + split; [done|]. intros x. apply min_in.
  - intros tr1 l' _ [Hn Hi]. eapply always_then; [apply selectByLRU_spec, filter_by_min_nonempty, Hn|].
    cbn. intros _ o (x & -> & Hx & _). exists x. split; [done|]. by apply Hi, (min_in wl_rate).
Qed.

(** Of the accounts left with their loads, the next one tried (when the
    soonest reset is not preferred) is the best one: none has a lower priority
    number; none of the same priority has a lower load rate; and of those with
    the same priority and rate none was used longer ago.  There is one whenever
    an account is left. *)
Theorem next_choice_best l b tr : l <> [] -> PreferSoonestReset (gs_cfg s) = false ->
  always (next_choice s l b) tr (λ _ o, ∃ x, o = Some x /\ x ∈ l /\ ∀ y, y ∈ l ->
    wl_priority x <= wl_priority y /\
    (wl_priority x = wl_priority y -> wl_rate x <= wl_rate y /\
     (wl_rate x = wl_rate y -> used_before (acc_LastUsedAt (wl_account x)) (acc_LastUsedAt (wl_account y))))).
Proof.
  intros Hl Hs. unfold next_choice. rewrite Hs. cbn [pbind].
  eapply always_then; [apply selectByLRU_spec; by do 2 apply filter_by_min_nonempty|]. cbn.
  intros _ o (x & -> & Hx & Hu). exists x. split; [done|]. unfold filterByMinLoadRate, filterByMinPriority in *.
  rewrite !filter_by_min_spec in Hx. destruct Hx as [[Hx Hp] Hr]. split; [done|]. intros y Hy. split; [by apply Hp|].
  intros Hpy. assert (y ∈ filter_by_min wl_priority l) as Hy1 by (apply filter_by_min_spec; split; [done|intros; rewrite <- Hpy; auto]).
  split; [by apply Hr|]. intros Hry. apply Hu. apply filter_by_min_spec. split; [done|]. intros z Hz. rewrite <- Hry. by apply Hr.
Qed.

(** ** Nothing waits before everything with room has refused *)

(** A slot of the account was refused, or its session. *)
Definition refused (tr : strace) (id : Z) : Prop :=
  (∃ max req r, Ev (CSlotAcquire id max req) r ∈ tr /\ r <> Ok true)
  \/ (∃ h max idle, Ev (CRegister id h max idle) (Ok false) ∈ tr).
Lemma refused_grows tr tr' id : grows tr tr' -> refused tr id -> refused tr' id.
Proof.
  intros Hg [(max & req & r & H & Hn)|(h & max & idle & H)]; [left; exists max, req, r|right; exists h, max, idle].
  - split; [by eapply grows_elem|done].
  - by eapply grows_elem.
Qed.
Lemma try_account_refused ctx ns h a tr :
  always (try_account s ctx ns h a) tr (λ tr' r, r = None -> refused tr' (acc_ID a)).
Proof.
  unfold try_account. apply (always_step _ _ _ (λ tr' r,
    match r with Ok {| aq_Acquired := true |} => True | _ => refused tr' (acc_ID a) end)).
  { unfold tryAcquireAccountSlot, AcquireAccountSlot. destruct (negb _); [done|]. destruct (_ <=? _); [done|].
    intros req [[|]|e]; cbn; [done|left; eexists _, _, _; (split; [left|done])..]. }
  assert (∀ tr' : strace, refused tr' (acc_ID a) ->
    always (Ret None : sprog (option (result AccountSelectionResult))) tr' (λ tr' r, r = None -> refused tr' (acc_ID a))) as Hbusy by (intros tr' Hr _; exact Hr).
  intros tr1 [[[|] rel]|e] _ H1; [|by apply Hbusy..].
  apply (always_step _ _ _ (λ tr' b, b = false -> refused tr' (acc_ID a))).
  { unfold checkAndRegisterSession. do 3 (destruct (_ : bool); [done|]). intros [[|]|e]; cbn; [done| |done].
    intros _. right. eexists _, _, _. left. }
  intros tr2 [|] _ H2; [by apply always_skip|]. apply always_skip. intros tr3 _ Hg _. eapply refused_grows; [done|by apply H2].
Qed.
Lemma in_order_refused ctx ns h l tr :
  always (try_in_order s ctx ns h l) tr (λ tr' r, r = None -> ∀ a, a ∈ l -> refused tr' (acc_ID a)).
Proof.
  revert tr. induction l as [|a l IH]; intros tr; cbn [try_in_order]; [by intros _ x ?%elem_of_nil|].
  eapply always_or; [apply try_account_refused|done|]. intros tr1 H1 Hr.
  eapply always_then; [apply always_strengthen, IH|]. cbn. intros tr2 r [H2 Hl] Hn x [->|Hx]%elem_of_cons.
  - eapply refused_grows; [done|by apply Hr].
  - by apply Hl.
Qed.
Lemma by_load_refused ctx ns h b fuel l tr : (length l <= fuel)%nat ->
  always (try_by_load s fuel ctx ns h b l) tr (λ tr' r, r = None -> ∀ x, x ∈ l -> refused tr' (acc_ID (wl_account x))).
Proof.
  revert l tr. induction fuel as [|fuel IH]; intros l tr Hf; cbn [try_by_load].
  { destruct l; [by intros _ x ?%elem_of_nil|cbn in Hf; lia]. }
  destruct (is_nil l) eqn:El; [apply is_nil_true in El as ->; by intros _ x ?%elem_of_nil|]. apply is_nil_false in El.
  eapply always_step; [by apply next_choice_some|]. intros tr1 o H1 (x & -> & Hx).
  eapply always_or; [apply try_account_refused|done|]. intros tr2 H2 Hr.
  set (rest := filterb (λ y, negb (acc_ID (wl_account y) =? acc_ID (wl_account x))) l).
  assert (length rest < length l)%nat as Hlen.
  { apply (length_filterb_lt _ _ x); [done|]. cbn. by rewrite Z.eqb_refl. }
  eapply always_then; [apply always_strengthen, (IH rest); lia|]. cbn. intros tr3 r [H3 Hl] Hn y Hy.
  destruct (acc_ID (wl_account y) =? acc_ID (wl_account x)) eqn:E.
  - apply Z.eqb_eq in E as ->. eapply refused_grows; [done|by apply Hr].
  - apply Hl; [done|]. apply elem_of_filterb. by rewrite E.
Qed.
Lemma queue_among ctx h l tr :
  always (queue_layer s ctx h l) tr (λ _ r, ∀ sel, r = Ok sel -> sr_Account sel ∈ l /\ sr_Acquired sel = false).
Proof.
  revert tr. induction l as [|a l IH]; intros tr; cbn [queue_layer]; [done|]. apply always_skip. intros tr1 [|] _.
  - cbn. intros sel. unfold newSelectionResult, hydrateSelectedAccount.
    destruct (accountMatchesPlatformSchedulingScope ctx a); [|done]. intros [= <-]. split; [left|done].
  - eapply always_then; [apply IH|]. cbn. intros _ r H sel Hs. destruct (H sel Hs). split; [by right|done].
Qed.

(** Everything in [candidates] that had room when the loads were read was
    tried: by load, or without the loads in order. *)
Definition all_tried (tr : strace) (candidates : list Account) : Prop :=
  ∃ loads, Ev (CLoadBatch (map (λ a, {| awc_ID := acc_ID a; awc_MaxConcurrency := EffectiveLoadFactor a |}) candidates)) loads ∈ tr
  /\ ∀ a, a ∈ candidates ->
     match loads with Ok m => li_LoadRate (default (no_load a) (m !! acc_ID a)) < 100 | Err _ => True end ->
     refused tr (acc_ID a).
(** Trying only ever returns a slot. *)
Lemma try_account_acquires ctx ns h a tr :
  always (try_account s ctx ns h a) tr (λ _ r, ∀ sel, r = Some (Ok sel) -> sr_Acquired sel = true).
Proof.
  apply always_try; [|done]. intros tr1 rel _ _. apply always_registered; [|done]. intros tr2 _ _. apply always_skip.
  intros tr3 _ _ sel. unfold newSelectionResult, hydrateSelectedAccount.
  destruct (accountMatchesPlatformSchedulingScope ctx a); [|done]. by intros [= <-].
Qed.
Lemma in_order_acquires ctx ns h l tr :
  always (try_in_order s ctx ns h l) tr (λ _ r, ∀ sel, r = Some (Ok sel) -> sr_Acquired sel = true).
Proof.
  revert tr. induction l as [|a l IH]; intros tr; cbn [try_in_order]; [done|].
  eapply always_or; [apply try_account_acquires|done|]. intros tr1 _ _. apply IH.
Qed.
Lemma order_acquires ctx l ns h b tr :
  always (tryAcquireByFallbackOrder s ctx l ns h b) tr (λ _ r, ∀ sel, r = Some (Ok sel) -> sr_Acquired sel = true).
Proof. apply always_skip. intros. apply in_order_acquires. Qed.
Lemma by_load_acquires ctx ns h b fuel l tr :
  always (try_by_load s fuel ctx ns h b l) tr (λ _ r, ∀ sel, r = Some (Ok sel) -> sr_Acquired sel = true).
Proof.
  revert l tr. induction fuel as [|fuel IH]; intros l tr; cbn [try_by_load]; [done|]. destruct (is_nil l); [done|].
  apply always_skip. intros tr1 [x|] _; [|done]. eapply always_or; [apply try_account_acquires|done|]. intros tr2 _ _. apply IH.
Qed.
Lemma sticky_layer_waits ctx pf ns platform h m mixed a tr :
  always (sticky_layer s ctx pf ns platform h m mixed a) tr (λ _ r, ∀ sel, r = Some (Ok sel) -> sr_Acquired sel = false ->
    sr_WaitPlan sel = Some (sticky_plan s (sr_Account sel))).
Proof.
  assert (Hwait : ∀ tr, always (let* waiting := waiting_count (acc_ID a) in
          if waiting <? StickySessionMaxWaiting (gs_cfg s) then
            let* registered := checkAndRegisterSession s a h in
            Ret (if registered then Some (newSelectionResult ctx a false None (Some (sticky_plan s a))) else None)
          else Ret None) tr (λ _ r, ∀ sel, r = Some (Ok sel) -> sr_Acquired sel = false ->
    sr_WaitPlan sel = Some (sticky_plan s (sr_Account sel)))).
  { intros tr0. apply always_skip. intros tr1 n _. destruct (_ <? _); [|done]. apply always_skip. intros tr2 [|] _; [|done].
    cbn. unfold newSelectionResult, hydrateSelectedAccount. destruct (accountMatchesPlatformSchedulingScope ctx a); [|done].
    by intros sel [= <-] _. }
  unfold sticky_layer. do 7 (apply always_skip; intros ? ? _). destruct (negb _); [done|].
  apply always_try; [|by intros]. intros tr1 rel _ _. apply always_registered; [|by intros]. intros tr2 _ _.
  apply always_skip. intros tr3 _ _ sel. unfold newSelectionResult, hydrateSelectedAccount.
  destruct (accountMatchesPlatformSchedulingScope ctx a); [|done]. by intros [= <-].
Qed.

Lemma pool_waits ctx scope ns sticky h m ex accounts pf tr :
  always (selected_of_pool s ctx scope ns sticky h m ex accounts pf) tr (λ tr' r, ∀ sel, r = Ok sel -> sr_Acquired sel = false ->
    sr_WaitPlan sel = Some (sticky_plan s (sr_Account sel))
    \/ ∃ candidates, sr_Account sel ∈ candidates /\ all_tried tr' candidates).
Proof.
  unfold selected_of_pool. apply (always_or _ _ _ id _ (λ _ r, ∀ sel, r = Some (Ok sel) -> sr_Acquired sel = false ->
    sr_WaitPlan sel = Some (sticky_plan s (sr_Account sel)))).
  - destruct (_ && _); [|done]. destruct (account_by_id _ _) as [a|]; [|done]. apply sticky_layer_waits.
  - intros tr' r _ Hr sel Hsel Ha. left. apply Hr; [by f_equal|done].
  - intros tr1 _ _. apply always_skip. intros tr2 l _. destruct (is_nil l); [done|].
    apply (always_step _ _ _ (λ tr' loads, Ev (CLoadBatch (map (λ a, {| awc_ID := acc_ID a; awc_MaxConcurrency := EffectiveLoadFactor a |}) l)) loads ∈ tr'));
      [intros loads; left|]. intros tr3 loads _ Hev.
    apply (always_or _ _ _ id _ (λ tr' r, (∀ sel, r = Some (Ok sel) -> sr_Acquired sel = true) /\ (r = None -> all_tried tr' l))).
    + eapply always_then; [apply always_strengthen, always_and|].
      * destruct loads as [map|e]; [apply by_load_acquires|apply order_acquires].
      * apply (λ H, H : always _ _ (λ tr' r, r = None -> ∀ a, a ∈ l ->
          match loads with Ok m => li_LoadRate (default (no_load a) (m !! acc_ID a)) < 100 | Err _ => True end -> refused tr' (acc_ID a))).
        destruct loads as [map|e].
        -- eapply always_then; [by apply by_load_refused|]. cbn. intros tr' r Hr Hn a Ha Hlt.
           apply (Hr Hn {| wl_account := a; wl_loadInfo := default (no_load a) (map !! acc_ID a) |}).
           unfold available_of. apply elem_of_filterb. split; [|unfold wl_rate; cbn; lia]. apply list_elem_of_fmap. by exists a.
        -- unfold tryAcquireByFallbackOrder. eapply always_step; [apply sort_perm|]. intros tr4 l' _ Hp.
           eapply always_then; [apply in_order_refused|]. cbn. intros tr' r Hr Hn a Ha _. apply Hr; [done|]. by rewrite Hp.
      * cbn beta. intros tr' r [Hg [H1 H2]]. split; [done|]. intros Hn. exists loads. split; [by eapply grows_elem|by apply H2].
    + intros tr' r _ [Hr _] sel Hsel Ha. unfold id in Hsel. rewrite Hr in Ha; [done|by f_equal].
    + intros tr4 _ [_ Ht]. specialize (Ht eq_refl). eapply always_step; [apply fallback_perm|]. intros tr5 l' H5 Hp.
      eapply always_then; [apply always_strengthen, queue_among|]. cbn beta. intros tr6 r [H6 Hq] sel Hsel _. right. exists l.
      destruct (Hq sel Hsel) as [Hin _]. rewrite Hp in Hin. split; [done|].
      destruct Ht as (loads' & He & Hall). exists loads'. split; [eapply grows_elem; [|done]; by etrans|].
      intros a Ha Hlt. eapply refused_grows; [|by apply Hall]. by etrans.
Qed.

(** C31. With the loads, an account is only waited for in the fallback after
    every candidate that had room was tried and refused: its slot was not
    granted or its session was not admitted.  Otherwise the result holds a
    slot, or is the plan for the session's own account. *)
Theorem waits_after_trying fuel ctx sessionHash requestedModel ex tr :
  gs_concurrencyService s = true -> LoadBatchEnabled (gs_cfg s) = true ->
  always (SelectAccountWithLoadAwareness s fuel ctx sessionHash requestedModel ex) tr
    (λ tr' r, ∀ sel, r = Ok sel -> sr_Acquired sel = false ->
      sr_WaitPlan sel = Some (sticky_plan s (sr_Account sel))
      \/ ∃ candidates, sr_Account sel ∈ candidates /\ all_tried tr' candidates).
Proof.
  intros Hc Hb. unfold SelectAccountWithLoadAwareness. rewrite Hc, Hb. cbn [negb orb].
  destruct (PlatformSchedulingScopeFromContext ctx) as [scope|]; [|done].
  destruct (platformSchedulingCacheID scope) as [ns|]; [|done]. apply always_skip. intros tr1 sticky _.
  unfold select_with_load. apply always_skip. intros tr2 [[|a l]|e] _; [done| |done].
  do 2 (apply always_skip; intros ? ? _). apply pool_waits.
Qed.

(** ** The loop without loads ends *)

(** The repository only answers accounts with ids in [U], under their own. *)
Definition within (U : gset Z) (e : event svc) : bool :=
  match e with
  | Ev c b =>
    match c in svc B return B -> bool with
    | CList _ _ => λ b, match b with Ok l => forallb (λ a, bool_decide (acc_ID a ∈ U)) l | Err _ => true end
    | CGetByID id => λ b, match b with Ok (Some a) => (acc_ID a =? id) && bool_decide (acc_ID a ∈ U) | _ => true end
    | _ => λ _, true
    end b
  end.
Definition all_within (U : gset Z) (tr : strace) : Prop := Forall (λ e, within U e = true) tr.
Lemma all_within_grows U tr tr' : grows tr tr' -> all_within U tr' -> all_within U tr.
Proof. by intros [new ->] [_ H]%Forall_app. Qed.
Lemma answered_within U tr a id : all_within U tr -> answered tr a id -> acc_ID a = id /\ id ∈ U.
Proof.
  unfold all_within. rewrite Forall_forall. intros Hw [(<- & pool & p & l & H & Hl)|H]; specialize (Hw _ H); cbn in Hw.
  - split; [done|]. apply list_elem_of_In in Hl. by apply (proj1 (forallb_forall _ _) Hw a), bool_decide_eq_true in Hl.
  - apply andb_true_iff in Hw as [H1 H2%bool_decide_eq_true]. apply Z.eqb_eq in H1 as <-. done.
Qed.
Lemma failure_ends ctx accounts m p ex tr :
  always (selection_failure ctx accounts m p ex) tr (λ _ e, e <> out_of_fuel).
Proof. unfold selection_failure. apply always_skip. intros tr1 st _. cbn. by destruct (str_empty m). Qed.
Lemma exclusions_end ctx h m ex tr :
  always (SelectAccountForModelWithExclusions s ctx h m ex) tr (λ _ r, r <> Err out_of_fuel).
Proof.
  unfold SelectAccountForModelWithExclusions. destruct (PlatformSchedulingScopeFromContext ctx) as [scope|] eqn:Es; [|done].
  destruct (platformSchedulingCacheID scope) as [ns|] eqn:En; [|done].
  apply (always_step _ _ _ (λ _ r, r <> Err out_of_fuel)).
  - unfold selectAccountForModelWithPlatform. rewrite Es, En. apply always_skip. intros tr1 [a|] _; [done|].
    apply always_skip. intros tr2 [l|e] _; [|done]. do 2 (apply always_skip; intros ? ? _). apply always_skip.
    intros tr3 [x|] _; [by apply always_skip|]. eapply always_step; [apply failure_ends|]. intros tr4 e _ He. cbn. congruence.
  - intros tr1 [a|e] _ He; cbn; [|done]. unfold hydrateSelectedAccount. by destruct (accountMatchesPlatformSchedulingScope ctx a).
Qed.
Lemma result_ends ctx a b rel plan : newSelectionResult ctx a b rel plan <> Err out_of_fuel.
Proof. unfold newSelectionResult, hydrateSelectedAccount. by destruct (accountMatchesPlatformSchedulingScope ctx a). Qed.

(** C32. The loop of [SelectAccountWithLoadAwareness] without loads ends: each
    round that goes on excludes one more account, so when the repository
    answers accounts of a set of [n] ids, [n + 1] rounds always suffice. *)
Theorem without_load_ends U fuel ctx sticky sessionHash requestedModel ex tr :
  (size U < fuel)%nat ->
  always (select_without_load s fuel ctx sticky sessionHash requestedModel ex) tr
    (λ tr' r, all_within U tr' -> r <> Err out_of_fuel).
Proof.
  intros Hf. assert (size (U ∖ ex) < fuel)%nat as Hn by (pose proof (subseteq_size (U ∖ ex) U ltac:(set_solver)); lia).
  clear Hf. revert ex tr Hn. induction fuel as [|fuel IH]; intros ex tr Hn; [lia|]. cbn [select_without_load].
  eapply always_step; [apply always_and; [apply exclusions_eligible|apply exclusions_end]|].
  intros tr1 [a|e] H1 [Ha He]; [|by cbn; intros _ [= ->]]. destruct (Ha a eq_refl) as [[(id & Han & Hex) _] _].
  set (next := select_without_load s fuel ctx sticky sessionHash requestedModel ({[acc_ID a]} ∪ ex)).
  assert (∀ tr', grows tr1 tr' -> always next tr' (λ tr'' r, all_within U tr'' -> r <> Err out_of_fuel)) as Hnext.
  { intros tr' Hg. destruct (decide (all_within U tr1)) as [Hw|Hw].
    - apply IH. destruct (answered_within _ _ _ _ Hw Han) as [<- Hin].
      assert (U ∖ ({[acc_ID a]} ∪ ex) ⊂ U ∖ ex) as Hsub%subset_size by set_solver. lia.
    - eapply always_then; [apply always_grows|]. cbn beta. intros tr'' r Hg' Hw'. destruct Hw.
      eapply all_within_grows; [|done]. by etrans. }
  apply always_try.
  - intros tr2 rel H2 _. apply always_registered; [intros tr3 _ _ _; apply result_ends|]. intros tr3 H3. apply Hnext. by etrans.
  - intros tr2 H2. apply always_skip. intros tr3 [|] H3; cbn [negb]; [|apply Hnext; by etrans].
    destruct (_ && _); [apply always_skip; intros tr4 n _ _; apply result_ends|intros _; apply result_ends].
Qed.

(** ** A sticky account that could serve *)

(** [shouldClearStickySession] clears a session's binding although the
    account can be scheduled for the model: an Antigravity account with
    overages allowed and credits left serves a model whose limit is reached,
    and [IsSchedulableForModelWithContext] accepts it, but the limit that
    remains removes the binding, and the request moves to another account. *)
Theorem sticky_cleared_though_schedulable now a requestedModel :
  IsSchedulable now a = true -> acc_Platform a = PlatformAntigravity -> IsOveragesEnabled a = true ->
  isCreditsExhausted now a = false -> isModelRateLimitedWithContext now Background a requestedModel = true ->
  IsSchedulableForModelWithContext now Background a requestedModel = true
  /\ shouldClearStickySession now a requestedModel = true.
Proof.
  intros Hs Hp Ho Hc Hl. unfold IsSchedulableForModelWithContext, shouldClearStickySession.
  rewrite Hs, Hl, Hp, Ho, Hc. split; [done|]. cbn [negb].
  unfold isModelRateLimitedWithContext in Hl. apply existsb_exists in Hl as (key & Hk%list_elem_of_In & Hl).
  unfold GetRateLimitRemainingTimeWithContext, GetModelRateLimitRemainingTimeWithContext.
  assert (0 < getRateLimitRemainingForKey now a key) as Hpos.
  { unfold isRateLimitActiveForKey in Hl. unfold getRateLimitRemainingForKey.
    destruct (modelRateLimitResetAt a key) as [r|]; [|done]. apply time_sub_pos in Hl. destruct (0 <? _) eqn:E; lia. }
  assert (∀ keys acc, let r := foldl (λ remaining k, let n := getRateLimitRemainingForKey now a k in if remaining <? n then n else remaining) acc keys in
    acc <= r /\ (key ∈ keys -> getRateLimitRemainingForKey now a key <= r)) as Hfold.
  { induction keys as [|k keys IH]; intros acc; cbn; [split; [lia|by intros ?%elem_of_nil]|].
    destruct (IH (if acc <? getRateLimitRemainingForKey now a k then getRateLimitRemainingForKey now a k else acc)) as [H1 H2].
    cbn in *. split; [destruct (_ <? _) eqn:?; lia|]. intros [<-|Hin]%elem_of_cons; [|by apply H2].
    destruct (_ <? _) eqn:?; lia. }
  destruct (Hfold (modelRateLimitKeysForRequest Background a requestedModel) 0) as [_ H]. cbn in H. specialize (H Hk). lia.
Qed.

End Order.
