(* ===== verification/SelectionRuns.v ===== *)
(** * Selections that run

    The programs of [AccountSelection] over small services: two accounts of a
    pool, a clock, slots by account.  They show that the hypotheses of the
    selection's theorems hold somewhere. *)

From stdpp Require Import pretty fin.
From S2P Require Import Prelude GoErrors Prog Float64 GoTime GoStrings GoText PlatformModels ProductCoreAdapter Account ModelMapping Redis Concurrency AccountSelection SelectionProps SelectionSound SelectionOrder.

Open Scope prog_scope.

#[local] Existing Instance ascii_only_case.
Definition run_now : time := mk_time (1735725600 * second) UTC.
#[local] Instance run_host : GoHost := {|
  LoadLocation := λ _, None; ParseRFC3339Nano := λ _, None;
  ParseRFC3339 := λ t, if String.eqb t "later" then Some (time_add run_now hour) else None;
  FormatRFC3339 := λ _, ""%string; ParseFloat := λ _, None |}.

Definition run_account (id : Z) (platform : string) (extra : jmap) : Account := {|
  acc_ID := id; acc_Name := "a"; acc_Notes := None; acc_Platform := platform; acc_PlatformID := Some 1;
  acc_PlatformName := "p"; acc_Type := AccountTypeOAuth; acc_Credentials := ∅; acc_Extra := extra; acc_ProxyID := None;
  acc_ProxyFallbackOriginID := None; acc_ProxyFallbackOriginName := None; acc_Concurrency := 1; acc_Priority := id;
  acc_RateMultiplier := None; acc_LoadFactor := None; acc_Status := StatusActive; acc_ErrorMessage := ""; acc_LastUsedAt := None;
  acc_ExpiresAt := None; acc_AutoPauseOnExpired := false; acc_CreatedAt := run_now; acc_UpdatedAt := run_now;
  acc_Schedulable := true; acc_RateLimitedAt := None; acc_RateLimitResetAt := None; acc_OverloadUntil := None;
  acc_TempUnschedulableUntil := None; acc_TempUnschedulableReason := ""; acc_SessionWindowStart := None;
  acc_SessionWindowEnd := None; acc_SessionWindowStatus := ""; acc_ParentAccountID := None;
  acc_QuotaDimension := QuotaDimensionGlobal |}.
Definition run_pool : list Account := [run_account 1 PlatformAnthropic ∅; run_account 2 PlatformAnthropic ∅].
Definition run_ctx : ReqCtx := {|
  ctx_Scope := Some (mk_scope 1 "claude" PlatformAnthropic); ctx_UpstreamModel := None; ctx_Thinking := None;
  ctx_ImageIntent := false; ctx_StickyNamespace := None; ctx_StickyAccount := None |}.
Definition run_service (loads : bool) : GatewayService := {|
  gs_cfg := {| StickySessionMaxWaiting := 3; StickySessionWaitTimeout := minute; FallbackWaitTimeout := minute;
               FallbackMaxWaiting := 100; FallbackSelectionMode := ""; PreferSoonestReset := false;
               LoadBatchEnabled := loads |};
  gs_concurrencyService := true; gs_sessionLimitCache := false; gs_rpmCache := false; gs_batchStats := false |}.

(** The slots that are held, by account and request. *)
Definition slots := list (Z * string).
Definition run_handler (B : Type) (c : svc B) (st : slots) : B * slots :=
  match c in svc B return B * slots with
  | CNow => (run_now, st)
  | CIntn n => (0%fin, st)
  | COrder n => (exist _ (seq 0 n) (Permutation_refl _), st)
  | CRequestID => ("r"%string, st)
  | CSlotAcquire id max req =>
    if Z.of_nat (length (filterb (λ x, x.1 =? id) st)) <? max then (Ok true, (id, req) :: st) else (Ok false, st)
  | CSlotRelease id req => (tt, filterb (λ x, negb ((x.1 =? id) && String.eqb x.2 req)) st)
  | CWaitingCount _ => (Ok 0, st)
  | CLoadBatch _ => (Ok ∅, st)
  | CList _ _ => (Ok run_pool, st)
  | CGetByID id => (Ok (List.find (λ a, acc_ID a =? id) run_pool), st)
  | CStickyGet _ _ => (Ok 0, st)
  | CStickySet _ _ _ _ => (tt, st)
  | CStickyRefresh _ _ _ => (tt, st)
  | CStickyDelete _ _ => (tt, st)
  | CRegister _ _ _ _ => (Ok true, st)
  | CWindowCost _ => (Ok None, st)
  | CWindowCostBatch _ => (Ok ∅, st)
  | CSetWindowCost _ _ => (tt, st)
  | CWindowStats _ _ => (Ok f0, st)
  | CWindowStatsBatch _ _ => (Ok ∅, st)
  | CRPM _ => (Ok 0, st)
  | CRPMBatch _ => (Ok ∅, st)
  end.
Definition run (loads : bool) (st : slots) : result AccountSelectionResult * strace * slots :=
  exec run_handler (SelectAccountWithLoadAwareness (run_service loads) 3 run_ctx "session" "claude-opus-4-6" ∅) [] st.
Definition shown (r : result AccountSelectionResult) : option (Z * option release) :=
  match r with Ok sel => Some (acc_ID (sr_Account sel), sr_ReleaseFunc sel) | Err _ => None end.

(** The first account when it is free, the second when it is not, a plan for
    the first when both are busy. *)
Example selects_first : shown (run true []).1.1 = Some (1, Some (ReleaseSlot 1 "r")).
Proof. vm_compute. reflexivity. Qed.
Example selects_second : shown (run true [(1, "q"%string)]).1.1 = Some (2, Some (ReleaseSlot 2 "r")).
Proof. vm_compute. reflexivity. Qed.
Example selects_wait : shown (run true [(1, "q"%string); (2, "q"%string)]).1.1 = Some (1, None).
Proof. vm_compute. reflexivity. Qed.
Example selects_without_loads : shown (run false [(1, "q"%string)]).1.1 = Some (1, None).
Proof. vm_compute. reflexivity. Qed.

(** ** Witnesses *)

Definition run_loads : list accountWithLoad := available_of ∅ run_pool.
Lemma next_choice_best_witness :
  always (next_choice (run_service true) run_loads false) [] (λ _ o, ∃ x, o = Some x /\ x ∈ run_loads /\ ∀ y, y ∈ run_loads ->
    wl_priority x <= wl_priority y /\
    (wl_priority x = wl_priority y -> wl_rate x <= wl_rate y /\
     (wl_rate x = wl_rate y -> used_before (acc_LastUsedAt (wl_account x)) (acc_LastUsedAt (wl_account y))))).
Proof. apply next_choice_best; [discriminate|reflexivity]. Defined.

(** Both accounts are busy: the run waits, so everything was tried. *)
Definition run_busy : slots := [(1, "q"%string); (2, "q"%string)].
Lemma waits_after_trying_witness :
  ∃ sel, (run true run_busy).1.1 = Ok sel /\ sr_Acquired sel = false /\
    (sr_WaitPlan sel = Some (sticky_plan (run_service true) (sr_Account sel))
     \/ ∃ candidates, sr_Account sel ∈ candidates /\ all_tried (run true run_busy).1.2 candidates).
Proof.
  pose proof (always_exec run_handler _ _ _ run_busy
    (waits_after_trying (run_service true) 3 run_ctx "session" "claude-opus-4-6" ∅ [] eq_refl eq_refl)) as H.
  fold (run true run_busy) in H. destruct ((run true run_busy).1.1) as [sel|e] eqn:E.
  - exists sel. split; [done|].
    assert (sr_Acquired sel = false) as Ha.
    { assert (match (run true run_busy).1.1 with Ok s => sr_Acquired s | Err _ => true end = false) as Hb by (vm_compute; reflexivity).
      by rewrite E in Hb. }
    split; [exact Ha|]. exact (H sel eq_refl Ha).
  - assert (match (run true run_busy).1.1 with Ok _ => true | Err _ => false end = true) as Hb by (vm_compute; reflexivity).
    rewrite E in Hb. discriminate.
Defined.

Lemma without_load_ends_witness :
  (run false run_busy).1.1 <> Err out_of_fuel /\
  always (select_without_load (run_service false) 3 run_ctx 0 "session" "claude-opus-4-6" ∅) []
    (λ tr' r, all_within {[1; 2]} tr' -> r <> Err out_of_fuel).
Proof.
  split.
  - intros H. assert (match (run false run_busy).1.1 with Ok _ => true | Err _ => false end = true) as Hb by (vm_compute; reflexivity).
    rewrite H in Hb. discriminate.
  - apply without_load_ends. apply Nat.ltb_lt. vm_compute. reflexivity.
Defined.

(** A pool that lists an account of another platform: its slot is taken, then
    the result is refused, and the slot stays. *)
Definition foreign_account : Account :=
  let a := run_account 1 PlatformAnthropic ∅ in {|
  acc_ID := acc_ID a; acc_Name := acc_Name a; acc_Notes := None; acc_Platform := acc_Platform a; acc_PlatformID := Some 2;
  acc_PlatformName := "q"; acc_Type := acc_Type a; acc_Credentials := ∅; acc_Extra := ∅; acc_ProxyID := None;
  acc_ProxyFallbackOriginID := None; acc_ProxyFallbackOriginName := None; acc_Concurrency := 1; acc_Priority := 1;
  acc_RateMultiplier := None; acc_LoadFactor := None; acc_Status := StatusActive; acc_ErrorMessage := ""; acc_LastUsedAt := None;
  acc_ExpiresAt := None; acc_AutoPauseOnExpired := false; acc_CreatedAt := run_now; acc_UpdatedAt := run_now;
  acc_Schedulable := true; acc_RateLimitedAt := None; acc_RateLimitResetAt := None; acc_OverloadUntil := None;
  acc_TempUnschedulableUntil := None; acc_TempUnschedulableReason := ""; acc_SessionWindowStart := None;
  acc_SessionWindowEnd := None; acc_SessionWindowStatus := ""; acc_ParentAccountID := None;
  acc_QuotaDimension := QuotaDimensionGlobal |}.
Definition foreign_handler (B : Type) (c : svc B) (st : slots) : B * slots :=
  match c in svc B return B * slots -> B * slots with
  | CList _ _ => λ _, (Ok [foreign_account], st)
  | _ => λ answer, answer
  end (run_handler B c st).
Definition run_foreign : result AccountSelectionResult * strace * slots :=
  exec foreign_handler (SelectAccountWithLoadAwareness (run_service true) 3 run_ctx "session" "claude-opus-4-6" ∅) [] [].
Lemma foreign_account_keeps_slot :
  shown run_foreign.1.1 = None /\ run_foreign.2 = [(1, "r"%string)] /\ held 1 "r" run_foreign.1.2 = 1.
Proof. vm_compute. done. Qed.

(** Overages allowed, credits left, the model's limit reached for an hour. *)
Definition run_extra : jmap :=
  {[ "allow_overages"%string := JBool true;
     modelRateLimitsKey := JObject [("claude-opus-4-6-thinking"%string, JObject [("rate_limit_reset_at"%string, JString "later")])] ]}.
Definition run_overages : Account := run_account 1 PlatformAntigravity run_extra.
Lemma sticky_cleared_witness :
  IsSchedulableForModelWithContext run_now Background run_overages "claude-opus-4-6" = true
  /\ shouldClearStickySession run_now run_overages "claude-opus-4-6" = true.
Proof.
  apply sticky_cleared_though_schedulable; [vm_compute; reflexivity|reflexivity|vm_compute; reflexivity..].
Defined.
