(* ===== verification/PricingIntervals.v ===== *)
(** * Billing modes and price intervals

    [service/model_pricing_types.go]: the intervals [(MinTokens, MaxTokens]] a
    price rule is split into, the lookup of the interval a context length
    falls in, and the validation an administrator's rule has to pass. *)

From S2P Require Import Prelude GoErrors Float64 GoTime GoStrings.

(** ** Data *)

Definition BillingMode : Type := string.
Definition BillingModeToken : BillingMode := "token".
Definition BillingModePerRequest : BillingMode := "per_request".
Definition BillingModeImage : BillingMode := "image".
Definition BillingModeVideo : BillingMode := "video".

Definition mode_IsValid (m : BillingMode) : bool :=
  existsb (String.eqb m) [BillingModeToken; BillingModePerRequest; BillingModeImage; ""%string].

Definition IsValidUsageFilter (m : BillingMode) : bool :=
  existsb (String.eqb m)
    [BillingModeToken; BillingModePerRequest; BillingModeImage; BillingModeVideo; ""%string].

Record PricingInterval := {
  iv_MinTokens : Z;
  iv_MaxTokens : option Z;
  iv_TierLabel : string;
  iv_InputPrice : option float64;
  iv_OutputPrice : option float64;
  iv_CacheWritePrice : option float64;
  iv_CacheReadPrice : option float64;
  iv_PerRequestPrice : option float64;
  iv_SortOrder : Z;
  iv_CreatedAt : time;
  iv_UpdatedAt : time
}.

Record ModelPricingOverrideInput := {
  oi_InputPrice : option float64;
  oi_OutputPrice : option float64;
  oi_CacheWritePrice : option float64;
  oi_CacheReadPrice : option float64;
  oi_ImageInputPrice : option float64;
  oi_ImageOutputPrice : option float64;
  oi_PerRequestPrice : option float64;
  oi_Intervals : list PricingInterval
}.

(** ** Lookup *)

Definition interval_matches (totalTokens : Z) (interval : PricingInterval) : bool :=
  (iv_MinTokens interval <? totalTokens)
  && match iv_MaxTokens interval with None => true | Some max => totalTokens <=? max end.

Fixpoint FindMatchingInterval (intervals : list PricingInterval) (totalTokens : Z)
  : option PricingInterval :=
  match intervals with
  | [] => None
  | interval :: rest =>
    if interval_matches totalTokens interval then Some interval
    else FindMatchingInterval rest totalTokens
  end.

(** ** Validation

    [sort.Slice] is not stable; a list with two intervals of the same
    [MinTokens] is refused whatever their order, see
    [ValidateIntervals_spec]. *)

Definition negative_price (p : option float64) : bool :=
  match p with Some v => fltb v f0 | None => false end.

Definition validateIntervalPrices (interval : PricingInterval) : result unit :=
  if negative_price (iv_InputPrice interval)
  then Err (EPlain "interval #%d: input_price must be >= 0")
  else if negative_price (iv_OutputPrice interval)
  then Err (EPlain "interval #%d: output_price must be >= 0")
  else if negative_price (iv_CacheWritePrice interval)
  then Err (EPlain "interval #%d: cache_write_price must be >= 0")
  else if negative_price (iv_CacheReadPrice interval)
  then Err (EPlain "interval #%d: cache_read_price must be >= 0")
  else if negative_price (iv_PerRequestPrice interval)
  then Err (EPlain "interval #%d: per_request_price must be >= 0")
  else Ok tt.

Definition validateSingleInterval (interval : PricingInterval) : result unit :=
  if iv_MinTokens interval <? 0
  then Err (EPlain "interval #%d: min_tokens (%d) must be >= 0") else
  match iv_MaxTokens interval with
  | Some max =>
    if max <=? 0 then Err (EPlain "interval #%d: max_tokens (%d) must be > 0")
    else if max <=? iv_MinTokens interval
    then Err (EPlain "interval #%d: max_tokens (%d) must be > min_tokens (%d)")
    else validateIntervalPrices interval
  | None => validateIntervalPrices interval
  end.

(** The loop of [validateIntervalOverlap]; [previous] is [intervals[i-1]]. *)
Fixpoint overlap_loop (previous : option PricingInterval) (intervals : list PricingInterval)
  : result unit :=
  match intervals with
  | [] => Ok tt
  | interval :: rest =>
    if match iv_MaxTokens interval with None => negb (is_nil rest) | Some _ => false end
    then Err (EPlain "interval #%d: unbounded interval (max_tokens=null) must be the last one")
    else
      if match previous with
         | None => false
         | Some p => match iv_MaxTokens p with
                     | None => true
                     | Some max => iv_MinTokens interval <? max
                     end
         end
      then Err (EPlain "interval #%d and #%d overlap: prev max=%s > cur min=%d")
      else overlap_loop (Some interval) rest
  end.

Definition validateIntervalOverlap (intervals : list PricingInterval) : result unit :=
  overlap_loop None intervals.

Fixpoint validate_each (intervals : list PricingInterval) : result unit :=
  match intervals with
  | [] => Ok tt
  | interval :: rest =>
    let? _ := validateSingleInterval interval in validate_each rest
  end.

Definition min_less (a b : PricingInterval) : bool := iv_MinTokens a <? iv_MinTokens b.

Definition ValidateIntervals (intervals : list PricingInterval) (_mode : BillingMode)
  : result unit :=
  if is_nil intervals then Ok tt else
  let sorted := stable_sort min_less intervals in
  let? _ := validate_each sorted in
  validateIntervalOverlap sorted.

(** ** Specification *)

Definition price_ok (p : option float64) : Prop :=
  match p with Some v => not_neg v | None => True end.

Definition interval_ok (i : PricingInterval) : Prop :=
  0 <= iv_MinTokens i
  /\ (∀ max, iv_MaxTokens i = Some max -> iv_MinTokens i < max)
  /\ price_ok (iv_InputPrice i) /\ price_ok (iv_OutputPrice i)
  /\ price_ok (iv_CacheWritePrice i) /\ price_ok (iv_CacheReadPrice i)
  /\ price_ok (iv_PerRequestPrice i).

(** No context length falls in both. *)
Definition disjoint_intervals (a b : PricingInterval) : Prop :=
  ∀ t, ~ (interval_matches t a = true /\ interval_matches t b = true).

(** Some interval ends before the next begins. *)
Definition ends_before (a b : PricingInterval) : Prop :=
  ∃ max, iv_MaxTokens a = Some max /\ max <= iv_MinTokens b.

(** ** Lemmas *)

Lemma price_ok_negative p : price_ok p <-> negative_price p = false.
Proof. by destruct p. Qed.

Lemma validateSingleInterval_ok i : validateSingleInterval i = Ok tt <-> interval_ok i.
Proof.
  unfold validateSingleInterval, validateIntervalPrices, interval_ok.
  rewrite !price_ok_negative.
  destruct (iv_MinTokens i <? 0) eqn:E0; [split; [done|bool_lia]|].
  destruct (iv_MaxTokens i) as [max|].
  - destruct (max <=? 0) eqn:E1; [split; [done|intros (? & H & _); specialize (H _ eq_refl); bool_lia]|].
    destruct (max <=? iv_MinTokens i) eqn:E2;
      [split; [done|intros (? & H & _); specialize (H _ eq_refl); bool_lia]|].
    repeat case_match; split; try done; try (intros; destruct_and!; congruence).
    intros _. split_and!; try done; [bool_lia|]. intros ? [= <-]. bool_lia.
  - repeat case_match; split; try done; try (intros; destruct_and!; congruence).
    intros _. split_and!; try done. bool_lia.
Qed.

Lemma validate_each_ok l : validate_each l = Ok tt <-> Forall interval_ok l.
Proof.
  induction l as [|i l IH]; simpl; [split; [constructor|done]|].
  rewrite Forall_cons, <- validateSingleInterval_ok, <- IH.
  destruct (validateSingleInterval i) as [[]|e]; simpl; naive_solver.
Qed.

Lemma min_less_asym x y : min_less x y = true -> min_less y x = false.
Proof. unfold min_less. bool_lia. Qed.
Lemma min_less_trans x y z :
  min_less y x = false -> min_less z y = false -> min_less z x = false.
Proof. unfold min_less. bool_lia. Qed.

Lemma overlap_loop_ok p l :
  overlap_loop (Some p) l = Ok tt -> Forall interval_ok l ->
  StronglySorted ends_before l /\ Forall (ends_before p) l.
Proof.
  revert p. induction l as [|i l IH]; intros p; simpl; [by repeat constructor|].
  intros H Hok. apply Forall_cons in Hok as [(Hmin & Hlt & _) Hok].
  destruct (match iv_MaxTokens i with None => negb (is_nil l) | Some _ => false end) eqn:Eu; [done|].
  destruct (iv_MaxTokens p) as [pm|] eqn:Ep; [|done].
  destruct (iv_MinTokens i <? pm) eqn:El; [done|].
  destruct (IH _ H Hok) as [Hs Hf]. split; [by constructor|].
  constructor; [exists pm; split; [done|bool_lia]|].
  eapply Forall_impl; [exact Hf|]. intros j (m & Hm & Hle).
  exists pm. split; [done|]. specialize (Hlt _ Hm). bool_lia.
Qed.

Lemma overlap_loop_complete p l :
  StronglySorted ends_before l -> Forall (ends_before p) l ->
  overlap_loop (Some p) l = Ok tt.
Proof.
  revert p. induction l as [|i l IH]; intros p Hs Hp; simpl; [done|].
  apply StronglySorted_inv in Hs as [Hs Hi].
  apply Forall_cons in Hp as [(m & Hm & Hle) Hp].
  rewrite Hm. destruct (iv_MinTokens i <? m) eqn:El; [bool_lia|].
  rewrite (IH _ Hs Hi).
  destruct l as [|j l]; [by destruct (iv_MaxTokens i)|].
  apply Forall_cons in Hi as [(mi & -> & _) _]. done.
Qed.

Lemma validateIntervalOverlap_ok l :
  Forall interval_ok l ->
  validateIntervalOverlap l = Ok tt <-> StronglySorted ends_before l.
Proof.
  unfold validateIntervalOverlap. intros Hok. destruct l as [|i l]; simpl; [split; [constructor|done]|].
  apply Forall_cons in Hok as [_ Hok]. split.
  - destruct (match iv_MaxTokens i with None => negb (is_nil l) | Some _ => false end); [done|].
    intros H. destruct (overlap_loop_ok _ _ H Hok). by constructor.
  - intros [Hs Hi]%StronglySorted_inv. rewrite (overlap_loop_complete _ _ Hs Hi).
    destruct l as [|j l]; [by destruct (iv_MaxTokens i)|].
    apply Forall_cons in Hi as [(mi & -> & _) _]. done.
Qed.

Lemma ends_before_disjoint a b : ends_before a b -> disjoint_intervals a b.
Proof.
  intros (m & Hm & Hle) t [Ha Hb]. unfold interval_matches in Ha, Hb.
  rewrite Hm in Ha. bool_lia.
Qed.

Lemma disjoint_ends_before a b :
  interval_ok b -> iv_MinTokens a <= iv_MinTokens b -> interval_ok a ->
  disjoint_intervals a b -> ends_before a b.
Proof.
  intros (_ & Hb & _) Hle (_ & Ha & _) Hdis.
  specialize (Hdis (iv_MinTokens b + 1)). unfold interval_matches in Hdis.
  destruct (iv_MaxTokens a) as [m|] eqn:Em.
  - exists m. split; [done|]. apply Z.nlt_ge. intros Hlt. apply Hdis.
    split; [bool_lia|]. destruct (iv_MaxTokens b) as [mb|]; [specialize (Hb _ eq_refl)|]; bool_lia.
  - exfalso. apply Hdis. split; [bool_lia|].
    destruct (iv_MaxTokens b) as [mb|]; [specialize (Hb _ eq_refl)|]; bool_lia.
Qed.

Lemma disjoint_sym a b : disjoint_intervals a b -> disjoint_intervals b a.
Proof. intros H t [H1 H2]. by apply (H t). Qed.

(** Any two entries of the list, at different positions, are disjoint. *)
Definition pairwise_disjoint (l : list PricingInterval) : Prop :=
  ForallOrdPairs disjoint_intervals l.

Lemma ForallOrdPairs_perm {A} (R : A -> A -> Prop) (l l' : list A) :
  (∀ x y, R x y -> R y x) -> l ≡ₚ l' -> ForallOrdPairs R l -> ForallOrdPairs R l'.
Proof.
  intros Hsym. induction 1 as [|x l l' Hp IH|x y l|l1 l2 l3 Hp1 IH1 Hp2 IH2]; intros Hf;
    [done| | |by auto].
  - inversion Hf; subst. constructor; [by rewrite <- Hp|auto].
  - inversion Hf as [|? ? Hx Hl]; subst. inversion Hl as [|? ? Hy Hl']; subst.
    apply Forall_cons in Hx as [Hxy Hx]. repeat constructor; auto.
Qed.

Lemma pairwise_disjoint_perm l l' :
  l ≡ₚ l' -> pairwise_disjoint l -> pairwise_disjoint l'.
Proof. apply ForallOrdPairs_perm, disjoint_sym. Qed.

Lemma sorted_disjoint_iff l :
  Forall interval_ok l -> StronglySorted (not_after min_less) l ->
  StronglySorted ends_before l <-> pairwise_disjoint l.
Proof.
  intros Hok Hs. split.
  - intros He. induction He as [|i l He IH Hi]; [constructor|].
    apply Forall_cons in Hok as [_ Hok]. apply StronglySorted_inv in Hs as [Hs _].
    constructor; [|by apply IH].
    eapply Forall_impl; [exact Hi|]. apply ends_before_disjoint.
  - intros Hd. induction Hd as [|i l Hi Hd IH]; [constructor|].
    apply Forall_cons in Hok as [Hoki Hok]. apply StronglySorted_inv in Hs as [Hs Hle].
    constructor; [by apply IH|].
    rewrite Forall_forall. intros b Hb.
    apply disjoint_ends_before; [by apply (proj1 (Forall_forall _ _) Hok)| |done|
      by apply (proj1 (Forall_forall _ _) Hi)].
    pose proof (proj1 (Forall_forall _ _) Hle _ Hb) as H. unfold not_after, min_less in H. bool_lia.
Qed.

Lemma FindMatchingInterval_Some l t i :
  FindMatchingInterval l t = Some i -> i ∈ l /\ interval_matches t i = true.
Proof.
  induction l as [|x l IH]; simpl; [done|].
  destruct (interval_matches t x) eqn:E; [intros [= <-]; split; [left|done]|].
  intros H. destruct (IH H). split; [by right|done].
Qed.

Lemma FindMatchingInterval_None l t :
  FindMatchingInterval l t = None <-> Forall (λ i, interval_matches t i = false) l.
Proof.
  induction l as [|x l IH]; simpl; [split; [constructor|done]|].
  rewrite Forall_cons. destruct (interval_matches t x); naive_solver.
Qed.

Lemma FindMatchingInterval_unique l t i :
  pairwise_disjoint l -> i ∈ l -> interval_matches t i = true ->
  FindMatchingInterval l t = Some i.
Proof.
  intros Hd. induction Hd as [|x l Hx Hd IH]; simpl; [by intros ?%elem_of_nil|].
  intros [->|Hin]%elem_of_cons Hm; [by rewrite Hm|].
  destruct (interval_matches t x) eqn:E; [|by apply IH].
  exfalso. apply (proj1 (Forall_forall _ _) Hx _ Hin t). done.
Qed.

Lemma ValidateIntervals_ok l mode :
  ValidateIntervals l mode = Ok tt <-> Forall interval_ok l /\ pairwise_disjoint l.
Proof.
  unfold ValidateIntervals. destruct (is_nil l) eqn:En.
  { apply is_nil_true in En as ->. split; [by repeat constructor|done]. }
  pose proof (stable_sort_perm min_less l) as Hp.
  pose proof (stable_sort_sorted min_less min_less_asym min_less_trans l) as Hs.
  assert (Forall interval_ok (stable_sort min_less l) <-> Forall interval_ok l) as Hok.
  { by rewrite Hp. }
  split.
  - intros H. apply rbind_Ok in H as ([] & H1 & H2).
    apply validate_each_ok in H1. split; [by apply Hok|].
    rewrite validateIntervalOverlap_ok in H2 by done.
    apply (pairwise_disjoint_perm _ _ Hp). by apply sorted_disjoint_iff.
  - intros [H1 H2]. apply Hok in H1.
    rewrite (proj2 (validate_each_ok _) H1). simpl. apply validateIntervalOverlap_ok; [done|].
    apply sorted_disjoint_iff; [done..|]. symmetry in Hp. by apply (pairwise_disjoint_perm _ _ Hp).
Qed.

(** ** Properties *)

(** Validation is exact: a set of intervals is accepted, whatever order it
    is given in, exactly when each interval is well formed (its bounds, its
    prices) and no context length falls in two of them. *)
Theorem ValidateIntervals_spec l mode :
  ValidateIntervals l mode = Ok tt <->
  Forall interval_ok l /\ pairwise_disjoint l.
Proof. apply ValidateIntervals_ok. Qed.

(** In an accepted set the interval of a context length does not depend on
    the order of the intervals: any reordering finds the same one. *)
Theorem FindMatchingInterval_order l l' mode t :
  ValidateIntervals l mode = Ok tt -> l ≡ₚ l' ->
  FindMatchingInterval l' t = FindMatchingInterval l t.
Proof.
  intros [_ Hd]%ValidateIntervals_ok Hp.
  destruct (FindMatchingInterval l t) as [i|] eqn:E.
  - apply FindMatchingInterval_Some in E as [Hin Hm].
    apply FindMatchingInterval_unique; [by apply (pairwise_disjoint_perm _ _ Hp)| |done].
    by rewrite <- Hp.
  - rewrite FindMatchingInterval_None in E |- *. by rewrite <- Hp.
Qed.

Definition ex_interval (min : Z) (max : option Z) (price : Z) : PricingInterval := {|
  iv_MinTokens := min; iv_MaxTokens := max; iv_TierLabel := "";
  iv_InputPrice := Some (f64_lit price (-6)); iv_OutputPrice := Some (f64_lit (2 * price) (-6));
  iv_CacheWritePrice := None; iv_CacheReadPrice := None; iv_PerRequestPrice := None;
  iv_SortOrder := 0; iv_CreatedAt := time_zero; iv_UpdatedAt := time_zero |}.

Lemma FindMatchingInterval_order_witness :
  let a := ex_interval 0 (Some 200000) 3 in let b := ex_interval 200000 None 6 in
  FindMatchingInterval [b; a] 200000 = FindMatchingInterval [a; b] 200000.
Proof.
  cbv zeta. apply (FindMatchingInterval_order _ _ BillingModeToken).
  - vm_compute. reflexivity.
  - apply Permutation_swap.
Defined.
