(* ===== verification/ModelPricing.v ===== *)
(** * Model prices

    The price of a model ([ModelPricing] of [service/billing_service.go]), an
    administrator's override of it ([service/model_pricing_catalog.go]), the
    result of resolving both ([ResolvedPricing] of
    [service/model_pricing_resolver.go]), and the checks that decide whether a
    resolved price may be charged. *)

From S2P Require Import Prelude GoErrors Float64 GoTime GoStrings PricingIntervals.

(** ** Data *)

Record ModelPricing := {
  InputPricePerToken : float64;
  InputPriceExplicit : bool;
  InputPricePerTokenPriority : float64;
  ImageInputPricePerToken : float64;
  ImageInputPriceExplicit : bool;
  OutputPricePerToken : float64;
  OutputPriceExplicit : bool;
  OutputPricePerTokenPriority : float64;
  CacheCreationPricePerToken : float64;
  CacheCreationPricePerTokenPriority : float64;
  CacheCreationPriceExplicit : bool;
  CacheReadPricePerToken : float64;
  CacheReadPriceExplicit : bool;
  CacheReadPricePerTokenPriority : float64;
  CacheCreation5mPrice : float64;
  CacheCreation1hPrice : float64;
  SupportsCacheBreakdown : bool;
  LongContextInputThreshold : Z;
  LongContextInputMultiplier : float64;
  LongContextOutputMultiplier : float64;
  ImageOutputPricePerToken : float64;
  ImageOutputPriceExplicit : bool
}.

(** Assignments to the fields of one price, written as record updates. *)

Definition set_input (v pr : float64) (e : bool) (p : ModelPricing) : ModelPricing := {|
  InputPricePerToken := v; InputPriceExplicit := e; InputPricePerTokenPriority := pr;
  ImageInputPricePerToken := ImageInputPricePerToken p;
  ImageInputPriceExplicit := ImageInputPriceExplicit p;
  OutputPricePerToken := OutputPricePerToken p;
  OutputPriceExplicit := OutputPriceExplicit p;
  OutputPricePerTokenPriority := OutputPricePerTokenPriority p;
  CacheCreationPricePerToken := CacheCreationPricePerToken p;
  CacheCreationPricePerTokenPriority := CacheCreationPricePerTokenPriority p;
  CacheCreationPriceExplicit := CacheCreationPriceExplicit p;
  CacheReadPricePerToken := CacheReadPricePerToken p;
  CacheReadPriceExplicit := CacheReadPriceExplicit p;
  CacheReadPricePerTokenPriority := CacheReadPricePerTokenPriority p;
  CacheCreation5mPrice := CacheCreation5mPrice p;
  CacheCreation1hPrice := CacheCreation1hPrice p;
  SupportsCacheBreakdown := SupportsCacheBreakdown p;
  LongContextInputThreshold := LongContextInputThreshold p;
  LongContextInputMultiplier := LongContextInputMultiplier p;
  LongContextOutputMultiplier := LongContextOutputMultiplier p;
  ImageOutputPricePerToken := ImageOutputPricePerToken p;
  ImageOutputPriceExplicit := ImageOutputPriceExplicit p |}.
Definition set_output (v pr : float64) (e : bool) (p : ModelPricing) : ModelPricing := {|
  InputPricePerToken := InputPricePerToken p; InputPriceExplicit := InputPriceExplicit p;
  InputPricePerTokenPriority := InputPricePerTokenPriority p;
  ImageInputPricePerToken := ImageInputPricePerToken p;
  ImageInputPriceExplicit := ImageInputPriceExplicit p; OutputPricePerToken := v;
  OutputPriceExplicit := e; OutputPricePerTokenPriority := pr;
  CacheCreationPricePerToken := CacheCreationPricePerToken p;
  CacheCreationPricePerTokenPriority := CacheCreationPricePerTokenPriority p;
  CacheCreationPriceExplicit := CacheCreationPriceExplicit p;
  CacheReadPricePerToken := CacheReadPricePerToken p;
  CacheReadPriceExplicit := CacheReadPriceExplicit p;
  CacheReadPricePerTokenPriority := CacheReadPricePerTokenPriority p;
  CacheCreation5mPrice := CacheCreation5mPrice p;
  CacheCreation1hPrice := CacheCreation1hPrice p;
  SupportsCacheBreakdown := SupportsCacheBreakdown p;
  LongContextInputThreshold := LongContextInputThreshold p;
  LongContextInputMultiplier := LongContextInputMultiplier p;
  LongContextOutputMultiplier := LongContextOutputMultiplier p;
  ImageOutputPricePerToken := ImageOutputPricePerToken p;
  ImageOutputPriceExplicit := ImageOutputPriceExplicit p |}.
Definition set_cache_creation (v pr p5m p1h : float64) (e : bool) (p : ModelPricing) : ModelPricing := {|
  InputPricePerToken := InputPricePerToken p; InputPriceExplicit := InputPriceExplicit p;
  InputPricePerTokenPriority := InputPricePerTokenPriority p;
  ImageInputPricePerToken := ImageInputPricePerToken p;
  ImageInputPriceExplicit := ImageInputPriceExplicit p;
  OutputPricePerToken := OutputPricePerToken p;
  OutputPriceExplicit := OutputPriceExplicit p;
  OutputPricePerTokenPriority := OutputPricePerTokenPriority p;
  CacheCreationPricePerToken := v; CacheCreationPricePerTokenPriority := pr;
  CacheCreationPriceExplicit := e; CacheReadPricePerToken := CacheReadPricePerToken p;
  CacheReadPriceExplicit := CacheReadPriceExplicit p;
  CacheReadPricePerTokenPriority := CacheReadPricePerTokenPriority p;
  CacheCreation5mPrice := p5m; CacheCreation1hPrice := p1h;
  SupportsCacheBreakdown := SupportsCacheBreakdown p;
  LongContextInputThreshold := LongContextInputThreshold p;
  LongContextInputMultiplier := LongContextInputMultiplier p;
  LongContextOutputMultiplier := LongContextOutputMultiplier p;
  ImageOutputPricePerToken := ImageOutputPricePerToken p;
  ImageOutputPriceExplicit := ImageOutputPriceExplicit p |}.
Definition set_cache_read (v pr : float64) (e : bool) (p : ModelPricing) : ModelPricing := {|
  InputPricePerToken := InputPricePerToken p; InputPriceExplicit := InputPriceExplicit p;
  InputPricePerTokenPriority := InputPricePerTokenPriority p;
  ImageInputPricePerToken := ImageInputPricePerToken p;
  ImageInputPriceExplicit := ImageInputPriceExplicit p;
  OutputPricePerToken := OutputPricePerToken p;
  OutputPriceExplicit := OutputPriceExplicit p;
  OutputPricePerTokenPriority := OutputPricePerTokenPriority p;
  CacheCreationPricePerToken := CacheCreationPricePerToken p;
  CacheCreationPricePerTokenPriority := CacheCreationPricePerTokenPriority p;
  CacheCreationPriceExplicit := CacheCreationPriceExplicit p; CacheReadPricePerToken := v;
  CacheReadPriceExplicit := e; CacheReadPricePerTokenPriority := pr;
  CacheCreation5mPrice := CacheCreation5mPrice p;
  CacheCreation1hPrice := CacheCreation1hPrice p;
  SupportsCacheBreakdown := SupportsCacheBreakdown p;
  LongContextInputThreshold := LongContextInputThreshold p;
  LongContextInputMultiplier := LongContextInputMultiplier p;
  LongContextOutputMultiplier := LongContextOutputMultiplier p;
  ImageOutputPricePerToken := ImageOutputPricePerToken p;
  ImageOutputPriceExplicit := ImageOutputPriceExplicit p |}.
Definition set_image_input (v : float64) (e : bool) (p : ModelPricing) : ModelPricing := {|
  InputPricePerToken := InputPricePerToken p; InputPriceExplicit := InputPriceExplicit p;
  InputPricePerTokenPriority := InputPricePerTokenPriority p; ImageInputPricePerToken := v;
  ImageInputPriceExplicit := e; OutputPricePerToken := OutputPricePerToken p;
  OutputPriceExplicit := OutputPriceExplicit p;
  OutputPricePerTokenPriority := OutputPricePerTokenPriority p;
  CacheCreationPricePerToken := CacheCreationPricePerToken p;
  CacheCreationPricePerTokenPriority := CacheCreationPricePerTokenPriority p;
  CacheCreationPriceExplicit := CacheCreationPriceExplicit p;
  CacheReadPricePerToken := CacheReadPricePerToken p;
  CacheReadPriceExplicit := CacheReadPriceExplicit p;
  CacheReadPricePerTokenPriority := CacheReadPricePerTokenPriority p;
  CacheCreation5mPrice := CacheCreation5mPrice p;
  CacheCreation1hPrice := CacheCreation1hPrice p;
  SupportsCacheBreakdown := SupportsCacheBreakdown p;
  LongContextInputThreshold := LongContextInputThreshold p;
  LongContextInputMultiplier := LongContextInputMultiplier p;
  LongContextOutputMultiplier := LongContextOutputMultiplier p;
  ImageOutputPricePerToken := ImageOutputPricePerToken p;
  ImageOutputPriceExplicit := ImageOutputPriceExplicit p |}.
Definition set_image_output (v : float64) (e : bool) (p : ModelPricing) : ModelPricing := {|
  InputPricePerToken := InputPricePerToken p; InputPriceExplicit := InputPriceExplicit p;
  InputPricePerTokenPriority := InputPricePerTokenPriority p;
  ImageInputPricePerToken := ImageInputPricePerToken p;
  ImageInputPriceExplicit := ImageInputPriceExplicit p;
  OutputPricePerToken := OutputPricePerToken p;
  OutputPriceExplicit := OutputPriceExplicit p;
  OutputPricePerTokenPriority := OutputPricePerTokenPriority p;
  CacheCreationPricePerToken := CacheCreationPricePerToken p;
  CacheCreationPricePerTokenPriority := CacheCreationPricePerTokenPriority p;
  CacheCreationPriceExplicit := CacheCreationPriceExplicit p;
  CacheReadPricePerToken := CacheReadPricePerToken p;
  CacheReadPriceExplicit := CacheReadPriceExplicit p;
  CacheReadPricePerTokenPriority := CacheReadPricePerTokenPriority p;
  CacheCreation5mPrice := CacheCreation5mPrice p;
  CacheCreation1hPrice := CacheCreation1hPrice p;
  SupportsCacheBreakdown := SupportsCacheBreakdown p;
  LongContextInputThreshold := LongContextInputThreshold p;
  LongContextInputMultiplier := LongContextInputMultiplier p;
  LongContextOutputMultiplier := LongContextOutputMultiplier p;
  ImageOutputPricePerToken := v; ImageOutputPriceExplicit := e |}.
Definition set_long_context (th : Z) (inm outm : float64) (p : ModelPricing) : ModelPricing := {|
  InputPricePerToken := InputPricePerToken p; InputPriceExplicit := InputPriceExplicit p;
  InputPricePerTokenPriority := InputPricePerTokenPriority p;
  ImageInputPricePerToken := ImageInputPricePerToken p;
  ImageInputPriceExplicit := ImageInputPriceExplicit p;
  OutputPricePerToken := OutputPricePerToken p;
  OutputPriceExplicit := OutputPriceExplicit p;
  OutputPricePerTokenPriority := OutputPricePerTokenPriority p;
  CacheCreationPricePerToken := CacheCreationPricePerToken p;
  CacheCreationPricePerTokenPriority := CacheCreationPricePerTokenPriority p;
  CacheCreationPriceExplicit := CacheCreationPriceExplicit p;
  CacheReadPricePerToken := CacheReadPricePerToken p;
  CacheReadPriceExplicit := CacheReadPriceExplicit p;
  CacheReadPricePerTokenPriority := CacheReadPricePerTokenPriority p;
  CacheCreation5mPrice := CacheCreation5mPrice p;
  CacheCreation1hPrice := CacheCreation1hPrice p;
  SupportsCacheBreakdown := SupportsCacheBreakdown p; LongContextInputThreshold := th;
  LongContextInputMultiplier := inm; LongContextOutputMultiplier := outm;
  ImageOutputPricePerToken := ImageOutputPricePerToken p;
  ImageOutputPriceExplicit := ImageOutputPriceExplicit p |}.
Definition set_cache_breakdown (b : bool) (p : ModelPricing) : ModelPricing := {|
  InputPricePerToken := InputPricePerToken p; InputPriceExplicit := InputPriceExplicit p;
  InputPricePerTokenPriority := InputPricePerTokenPriority p;
  ImageInputPricePerToken := ImageInputPricePerToken p;
  ImageInputPriceExplicit := ImageInputPriceExplicit p;
  OutputPricePerToken := OutputPricePerToken p;
  OutputPriceExplicit := OutputPriceExplicit p;
  OutputPricePerTokenPriority := OutputPricePerTokenPriority p;
  CacheCreationPricePerToken := CacheCreationPricePerToken p;
  CacheCreationPricePerTokenPriority := CacheCreationPricePerTokenPriority p;
  CacheCreationPriceExplicit := CacheCreationPriceExplicit p;
  CacheReadPricePerToken := CacheReadPricePerToken p;
  CacheReadPriceExplicit := CacheReadPriceExplicit p;
  CacheReadPricePerTokenPriority := CacheReadPricePerTokenPriority p;
  CacheCreation5mPrice := CacheCreation5mPrice p;
  CacheCreation1hPrice := CacheCreation1hPrice p; SupportsCacheBreakdown := b;
  LongContextInputThreshold := LongContextInputThreshold p;
  LongContextInputMultiplier := LongContextInputMultiplier p;
  LongContextOutputMultiplier := LongContextOutputMultiplier p;
  ImageOutputPricePerToken := ImageOutputPricePerToken p;
  ImageOutputPriceExplicit := ImageOutputPriceExplicit p |}.

(** [&ModelPricing{}]: the zero value. *)
Definition zero_pricing : ModelPricing := {|
  InputPricePerToken := f0; InputPriceExplicit := false; InputPricePerTokenPriority := f0;
  ImageInputPricePerToken := f0; ImageInputPriceExplicit := false;
  OutputPricePerToken := f0; OutputPriceExplicit := false;
  OutputPricePerTokenPriority := f0; CacheCreationPricePerToken := f0;
  CacheCreationPricePerTokenPriority := f0; CacheCreationPriceExplicit := false;
  CacheReadPricePerToken := f0; CacheReadPriceExplicit := false;
  CacheReadPricePerTokenPriority := f0; CacheCreation5mPrice := f0;
  CacheCreation1hPrice := f0; SupportsCacheBreakdown := false;
  LongContextInputThreshold := 0; LongContextInputMultiplier := f0;
  LongContextOutputMultiplier := f0; ImageOutputPricePerToken := f0;
  ImageOutputPriceExplicit := false |}.

Record PricingSourceInfo := {
  src_Type : string;
  src_Name : string;
  src_URL : string;
  src_MatchedModel : string;
  src_UpdatedAt : option time
}.
Definition zero_source : PricingSourceInfo := Build_PricingSourceInfo "" "" "" "" None.
Definition PricingSourceCodeFallback : string := "code_fallback".
Definition PricingSourceUnavailable : string := "unavailable".
Definition PricingSourceLiteLLM : string := "litellm".
Definition PricingSourceFallback : string := "fallback".
Definition PricingSourceOverride : string := "override".

(** [domain.ModelPricingInterval] *)
Record ModelPricingInterval := {
  di_MinTokens : Z;
  di_MaxTokens : option Z;
  di_TierLabel : string;
  di_InputPrice : option float64;
  di_OutputPrice : option float64;
  di_CacheWritePrice : option float64;
  di_CacheReadPrice : option float64;
  di_PerRequestPrice : option float64;
  di_SortOrder : Z
}.

Record ModelPricingOverride := {
  ov_ID : Z;
  ov_Adapter : string;
  ov_ModelPattern : string;
  ov_BillingMode : BillingMode;
  ov_InputPrice : option float64;
  ov_OutputPrice : option float64;
  ov_CacheWritePrice : option float64;
  ov_CacheReadPrice : option float64;
  ov_ImageInputPrice : option float64;
  ov_ImageOutputPrice : option float64;
  ov_PerRequestPrice : option float64;
  ov_Intervals : list ModelPricingInterval;
  ov_Status : string
}.

(** [ov] with its identity columns replaced. *)
Definition with_identity (ov : ModelPricingOverride) (id : Z) (adapter pattern : string)
  (mode : BillingMode) (status : string) : ModelPricingOverride := {|
  ov_ID := id; ov_Adapter := adapter; ov_ModelPattern := pattern; ov_BillingMode := mode;
  ov_InputPrice := ov_InputPrice ov; ov_OutputPrice := ov_OutputPrice ov;
  ov_CacheWritePrice := ov_CacheWritePrice ov; ov_CacheReadPrice := ov_CacheReadPrice ov;
  ov_ImageInputPrice := ov_ImageInputPrice ov; ov_ImageOutputPrice := ov_ImageOutputPrice ov;
  ov_PerRequestPrice := ov_PerRequestPrice ov; ov_Intervals := ov_Intervals ov;
  ov_Status := status |}.

Record ResolvedPricing := {
  Mode : BillingMode;
  BasePricing : option ModelPricing;
  OfficialPricing : option ModelPricing;
  OfficialMode : BillingMode;
  OfficialSource : PricingSourceInfo;
  MatchedOverride : option ModelPricingOverride;
  Intervals : list PricingInterval;
  RequestTiers : list PricingInterval;
  OfficialIntervals : list PricingInterval;
  OfficialRequestTiers : list PricingInterval;
  DefaultPerRequestPrice : float64;
  DefaultPerRequestPriceExplicit : bool;
  OfficialDefaultPerRequestPrice : float64;
  OfficialDefaultPerRequestPriceExplicit : bool;
  Source : string;
  rp_SupportsCacheBreakdown : bool
}.

Definition ErrModelPricingUnavailable : error := EPlain "pricing not found".
Definition ErrModelPricingIncompleteSale : error :=
  BadRequest "MODEL_PRICING_INCOMPLETE_SALE"
    "platform sale pricing must cover every request scenario when it cannot inherit official pricing".

(** ** Building prices *)

(** [if p != nil { ... *p ... }] *)
Definition on_price (o : option float64) (f : float64 -> ModelPricing -> ModelPricing)
  (p : ModelPricing) : ModelPricing :=
  match o with Some v => f v p | None => p end.

Definition domainIntervalToPricingInterval (interval : ModelPricingInterval)
  : PricingInterval := {|
  iv_MinTokens := di_MinTokens interval; iv_MaxTokens := di_MaxTokens interval;
  iv_TierLabel := di_TierLabel interval; iv_InputPrice := di_InputPrice interval;
  iv_OutputPrice := di_OutputPrice interval; iv_CacheWritePrice := di_CacheWritePrice interval;
  iv_CacheReadPrice := di_CacheReadPrice interval;
  iv_PerRequestPrice := di_PerRequestPrice interval; iv_SortOrder := di_SortOrder interval;
  iv_CreatedAt := time_zero; iv_UpdatedAt := time_zero |}.

Definition applyOverridePrices (override : ModelPricingOverride) (pricing : ModelPricing)
  : ModelPricing :=
  let p := on_price (ov_InputPrice override) (λ v, set_input v v true) pricing in
  let p := on_price (ov_OutputPrice override) (λ v, set_output v v true) p in
  let p := on_price (ov_CacheWritePrice override) (λ v, set_cache_creation v v v v true) p in
  let p := on_price (ov_CacheReadPrice override) (λ v, set_cache_read v v true) p in
  let p := on_price (ov_ImageInputPrice override) (λ v, set_image_input v true) p in
  on_price (ov_ImageOutputPrice override) (λ v, set_image_output v true) p.

(** [applyOverrideImageInputPrice]: the explicit flag is left as it is. *)
Definition applyOverrideImageInputPrice (pricingOverride : option ModelPricingOverrideInput)
  (pricing : ModelPricing) : ModelPricing :=
  let v := match pricingOverride with
           | Some o => default f0 (oi_ImageInputPrice o)
           | None => f0 end in
  set_image_input v (ImageInputPriceExplicit pricing) pricing.

Definition interval_has_price (iv : PricingInterval) : bool :=
  bool_decide (is_Some (iv_InputPrice iv)) || bool_decide (is_Some (iv_OutputPrice iv))
  || bool_decide (is_Some (iv_CacheWritePrice iv)) || bool_decide (is_Some (iv_CacheReadPrice iv))
  || bool_decide (is_Some (iv_PerRequestPrice iv)).

Definition filterValidIntervals (intervals : list PricingInterval) : list PricingInterval :=
  filterb interval_has_price intervals.

Definition intervalToModelPricing (iv : PricingInterval) (basePricing : option ModelPricing)
  (supportsCacheBreakdown : bool) (pricingOverride : option ModelPricingOverrideInput)
  : ModelPricing :=
  let p := match basePricing with
           | Some b => b
           | None => set_cache_breakdown supportsCacheBreakdown zero_pricing end in
  let p := on_price (iv_InputPrice iv) (λ v, set_input v v true) p in
  let p := on_price (iv_OutputPrice iv) (λ v, set_output v v true) p in
  let p := on_price (iv_CacheWritePrice iv) (λ v, set_cache_creation v v v v true) p in
  let p := on_price (iv_CacheReadPrice iv) (λ v, set_cache_read v v true) p in
  match pricingOverride with
  | None => p
  | Some o =>
    let p := set_image_output (default (ImageOutputPricePerToken p) (oi_ImageOutputPrice o)) true p in
    applyOverrideImageInputPrice pricingOverride p
  end.

(** The flat prices of [GetModelPricingWithOverride] and of
    [applyTokenOverrides]: input, output and cache-read keep their flags. *)
Definition apply_flat_override (o : ModelPricingOverrideInput) (pricing : ModelPricing)
  : ModelPricing :=
  let p := on_price (oi_InputPrice o) (λ v p, set_input v v (InputPriceExplicit p) p) pricing in
  let p := on_price (oi_OutputPrice o) (λ v p, set_output v v (OutputPriceExplicit p) p) p in
  let p := on_price (oi_CacheWritePrice o) (λ v, set_cache_creation v v v v true) p in
  let p := on_price (oi_CacheReadPrice o) (λ v p, set_cache_read v v (CacheReadPriceExplicit p) p) p in
  let p := set_image_output (default f0 (oi_ImageOutputPrice o)) true p in
  applyOverrideImageInputPrice (Some o) p.

Definition applyTokenOverrides (pricingOverride : ModelPricingOverrideInput)
  (resolved : ResolvedPricing) : ResolvedPricing :=
  let validIntervals := filterValidIntervals (oi_Intervals pricingOverride) in
  let base := default zero_pricing (BasePricing resolved) in
  let '(intervals, base) :=
    if negb (is_nil validIntervals) then
      (validIntervals,
       applyOverrideImageInputPrice (Some pricingOverride)
         (set_image_output (default f0 (oi_ImageOutputPrice pricingOverride)) true base))
    else (Intervals resolved, apply_flat_override pricingOverride base) in
  {| Mode := Mode resolved; BasePricing := Some base;
     OfficialPricing := OfficialPricing resolved; OfficialMode := OfficialMode resolved;
     OfficialSource := OfficialSource resolved; MatchedOverride := MatchedOverride resolved;
     Intervals := intervals; RequestTiers := RequestTiers resolved;
     OfficialIntervals := OfficialIntervals resolved;
     OfficialRequestTiers := OfficialRequestTiers resolved;
     DefaultPerRequestPrice := DefaultPerRequestPrice resolved;
     DefaultPerRequestPriceExplicit := DefaultPerRequestPriceExplicit resolved;
     OfficialDefaultPerRequestPrice := OfficialDefaultPerRequestPrice resolved;
     OfficialDefaultPerRequestPriceExplicit := OfficialDefaultPerRequestPriceExplicit resolved;
     Source := Source resolved; rp_SupportsCacheBreakdown := rp_SupportsCacheBreakdown resolved |}.

Definition is_request_mode (m : BillingMode) : bool :=
  String.eqb m BillingModePerRequest || String.eqb m BillingModeImage.

Definition pricingOverrideToResolved (override : ModelPricingOverride)
  (base : option ModelPricing) (officialSource : PricingSourceInfo) : ResolvedPricing :=
  let mode := if str_empty (ov_BillingMode override) then BillingModeToken
              else ov_BillingMode override in
  let intervals :=
    filterValidIntervals (map domainIntervalToPricingInterval (ov_Intervals override)) in
  {| Mode := mode;
     BasePricing := Some (applyOverridePrices override (default zero_pricing base));
     OfficialPricing := base;
     OfficialMode := "";
     OfficialSource := officialSource;
     MatchedOverride := Some override;
     Intervals := intervals;
     RequestTiers := if is_request_mode mode then intervals else [];
     OfficialIntervals := []; OfficialRequestTiers := [];
     DefaultPerRequestPrice := default f0 (ov_PerRequestPrice override);
     DefaultPerRequestPriceExplicit := bool_decide (is_Some (ov_PerRequestPrice override));
     OfficialDefaultPerRequestPrice := f0;
     OfficialDefaultPerRequestPriceExplicit := false;
     Source := PricingSourceOverride;
     rp_SupportsCacheBreakdown :=
       match base with Some b => SupportsCacheBreakdown b | None => false end |}.

(** ** Choosing the price of a request *)

Definition GetIntervalPricing (resolved : ResolvedPricing) (totalContextTokens : Z)
  : option ModelPricing :=
  if is_nil (Intervals resolved) then BasePricing resolved else
  match FindMatchingInterval (Intervals resolved) totalContextTokens with
  | None => BasePricing resolved
  | Some iv => Some (intervalToModelPricing iv (BasePricing resolved)
                       (rp_SupportsCacheBreakdown resolved) None)
  end.

Fixpoint tier_price (tiers : list PricingInterval) (tierLabel : string) : option float64 :=
  match tiers with
  | [] => None
  | tier :: rest =>
    match (if String.eqb (iv_TierLabel tier) tierLabel then iv_PerRequestPrice tier else None) with
    | Some p => Some p
    | None => tier_price rest tierLabel
    end
  end.
Definition GetRequestTierPrice (resolved : ResolvedPricing) (tierLabel : string)
  : option float64 := tier_price (RequestTiers resolved) tierLabel.

Definition GetRequestTierPriceByContext (resolved : ResolvedPricing) (totalContextTokens : Z)
  : option float64 :=
  match FindMatchingInterval (RequestTiers resolved) totalContextTokens with
  | Some iv => iv_PerRequestPrice iv
  | None => None
  end.

(** ** Which prices may be charged *)

Definition tokenPriceValueAvailable (value : float64) (explicit : bool) : bool :=
  if is_nan value || is_inf value then false
  else fgtb value f0 || (feqb value f0 && explicit).

Definition isCoreTokenPricingAvailable (pricing : option ModelPricing) : bool :=
  match pricing with
  | None => false
  | Some p => tokenPriceValueAvailable (InputPricePerToken p) (InputPriceExplicit p)
              && tokenPriceValueAvailable (OutputPricePerToken p) (OutputPriceExplicit p)
  end.

Definition isCompleteTokenPricing (pricing : option ModelPricing) : bool :=
  isCoreTokenPricingAvailable pricing &&
  match pricing with
  | None => false
  | Some p =>
    tokenPriceValueAvailable (CacheCreationPricePerToken p) (CacheCreationPriceExplicit p)
    && tokenPriceValueAvailable (CacheReadPricePerToken p) (CacheReadPriceExplicit p)
  end.

(** The prices [tokenPricingValuesValid] ranges over. *)
Definition price_values (p : ModelPricing) : list float64 :=
  [InputPricePerToken p; InputPricePerTokenPriority p; ImageInputPricePerToken p;
   OutputPricePerToken p; OutputPricePerTokenPriority p; ImageOutputPricePerToken p;
   CacheCreationPricePerToken p; CacheCreationPricePerTokenPriority p;
   CacheReadPricePerToken p; CacheReadPricePerTokenPriority p;
   CacheCreation5mPrice p; CacheCreation1hPrice p].

Definition tokenPricingValuesValid (pricing : option ModelPricing) : bool :=
  match pricing with
  | None => false
  | Some p => forallb (λ v, negb (is_nan v || is_inf v || fltb v f0)) (price_values p)
  end.

Definition requiresIndependentSalePricing (resolved : ResolvedPricing) : bool :=
  match MatchedOverride resolved with
  | None => false
  | Some _ => match OfficialPricing resolved with None => true | Some _ => false end
              || negb (String.eqb (OfficialMode resolved) (Mode resolved))
  end.

Definition coverage_less (a b : PricingInterval) : bool :=
  if negb (iv_MinTokens a =? iv_MinTokens b) then iv_MinTokens a <? iv_MinTokens b
  else iv_SortOrder a <? iv_SortOrder b.

(** The loop over the sorted intervals; [next] is [nextToken], [inf]
    [coveredToInfinity]; the result is the final [coveredToInfinity]. *)
Fixpoint coverage_loop (resolved : ResolvedPricing) (baseComplete : bool) (next : Z)
  (inf : bool) (intervals : list PricingInterval) : result bool :=
  match intervals with
  | [] => Ok inf
  | interval :: rest =>
    if inf || (iv_MinTokens interval <? next)
       || ((next <? iv_MinTokens interval) && negb baseComplete)
    then Err ErrModelPricingUnavailable else
    let pricing := intervalToModelPricing interval (BasePricing resolved)
                     (rp_SupportsCacheBreakdown resolved) None in
    if negb (isCompleteTokenPricing (Some pricing)) then Err ErrModelPricingUnavailable else
    match iv_MaxTokens interval with
    | None => coverage_loop resolved baseComplete next true rest
    | Some max =>
      if max <=? iv_MinTokens interval then Err ErrModelPricingUnavailable
      else coverage_loop resolved baseComplete max inf rest
    end
  end.

Definition validateIndependentTokenIntervalCoverage (resolved : ResolvedPricing) : result unit :=
  if is_nil (Intervals resolved) then Err ErrModelPricingUnavailable else
  let intervals := stable_sort coverage_less (Intervals resolved) in
  let baseComplete := isCompleteTokenPricing (BasePricing resolved) in
  let? inf := coverage_loop resolved baseComplete 0 false intervals in
  if negb inf && negb baseComplete then Err ErrModelPricingUnavailable else Ok tt.

Definition tokenPriceAvailable (overridePrice : option float64) (official : option ModelPricing)
  (price : ModelPricing -> float64 * bool) : bool :=
  match overridePrice with
  | Some v => tokenPriceValueAvailable v true
  | None =>
    match official with
    | None => false
    | Some o => let '(value, explicit) := price o in tokenPriceValueAvailable value explicit
    end
  end.

Definition available_when (b : bool) : result unit :=
  if b then Ok tt else Err ErrModelPricingUnavailable.

Definition validateResolvedPricingAvailable (resolved : option ResolvedPricing) : result unit :=
  match resolved with
  | None => Err ErrModelPricingUnavailable
  | Some resolved =>
    if is_request_mode (Mode resolved) then
      if requiresIndependentSalePricing resolved && negb (DefaultPerRequestPriceExplicit resolved)
      then Err ErrModelPricingUnavailable
      else available_when (DefaultPerRequestPriceExplicit resolved
             || existsb (λ t, bool_decide (is_Some (iv_PerRequestPrice t))) (RequestTiers resolved))
    else
    if match BasePricing resolved with
       | Some b => negb (tokenPricingValuesValid (Some b)) | None => false end
    then Err ErrModelPricingUnavailable else
    if negb (forallb (λ iv, tokenPricingValuesValid (Some
              (intervalToModelPricing iv (BasePricing resolved) (rp_SupportsCacheBreakdown resolved) None)))
              (Intervals resolved))
    then Err ErrModelPricingUnavailable else
    match MatchedOverride resolved with
    | None => available_when (negb (is_nil (Intervals resolved))
                              || isCoreTokenPricingAvailable (BasePricing resolved))
    | Some override =>
      if negb (requiresIndependentSalePricing resolved)
      then available_when (negb (is_nil (Intervals resolved))
                           || isCoreTokenPricingAvailable (BasePricing resolved))
      else if negb (is_nil (Intervals resolved))
      then validateIndependentTokenIntervalCoverage resolved
      else
        let official := if String.eqb (OfficialMode resolved) (Mode resolved)
                        then OfficialPricing resolved else None in
        available_when
          (tokenPriceAvailable (ov_InputPrice override) official
             (λ p, (InputPricePerToken p, InputPriceExplicit p))
           && tokenPriceAvailable (ov_OutputPrice override) official
             (λ p, (OutputPricePerToken p, OutputPriceExplicit p))
           && tokenPriceAvailable (ov_CacheWritePrice override) official
             (λ p, (CacheCreationPricePerToken p, CacheCreationPriceExplicit p))
           && tokenPriceAvailable (ov_CacheReadPrice override) official
             (λ p, (CacheReadPricePerToken p, CacheReadPriceExplicit p)))
    end
  end.

Definition IsResolvedPricingAvailable (resolved : option ResolvedPricing) : bool :=
  is_ok (validateResolvedPricingAvailable resolved).

(** ** Validation of an override *)

Section Validation.
Context {UC : UnicodeCase}.

Definition ModelPricingStatusActive : string := "active".

Definition override_price_fields (item : ModelPricingOverride) : list (option float64) :=
  [ov_InputPrice item; ov_OutputPrice item; ov_CacheWritePrice item; ov_CacheReadPrice item;
   ov_ImageInputPrice item; ov_ImageOutputPrice item; ov_PerRequestPrice item].

(** [validateModelPricingOverride] normalises the item in place: the result is
    the item afterwards. *)
Definition validateModelPricingOverride (item : ModelPricingOverride)
  : result ModelPricingOverride :=
  let adapter := ToLower (TrimSpace (ov_Adapter item)) in
  let pattern := TrimSpace (ov_ModelPattern item) in
  if str_empty adapter || str_empty pattern
  then Err (EPlain "adapter and model_pattern are required") else
  let mode := if str_empty (ov_BillingMode item) then BillingModeToken else ov_BillingMode item in
  if negb (mode_IsValid mode) || String.eqb mode BillingModeVideo
  then Err (EPlain "unsupported billing_mode: %s") else
  let status := if str_empty (ov_Status item) then ModelPricingStatusActive else ov_Status item in
  let status := ToLower (TrimSpace status) in
  if negb (String.eqb status ModelPricingStatusActive) && negb (String.eqb status "disabled")
  then Err (EPlain "unsupported status: %s") else
  if existsb negative_price (override_price_fields item)
  then Err (EPlain "pricing values must be non-negative") else
  let? _ := ValidateIntervals (map domainIntervalToPricingInterval (ov_Intervals item)) mode in
  Ok (with_identity item (ov_ID item) adapter pattern mode status).

Definition set_official_mode (mode : BillingMode) (r : ResolvedPricing) : ResolvedPricing := {|
  Mode := Mode r; BasePricing := BasePricing r; OfficialPricing := OfficialPricing r;
  OfficialMode := mode; OfficialSource := OfficialSource r; MatchedOverride := MatchedOverride r;
  Intervals := Intervals r; RequestTiers := RequestTiers r;
  OfficialIntervals := OfficialIntervals r; OfficialRequestTiers := OfficialRequestTiers r;
  DefaultPerRequestPrice := DefaultPerRequestPrice r;
  DefaultPerRequestPriceExplicit := DefaultPerRequestPriceExplicit r;
  OfficialDefaultPerRequestPrice := OfficialDefaultPerRequestPrice r;
  OfficialDefaultPerRequestPriceExplicit := OfficialDefaultPerRequestPriceExplicit r;
  Source := Source r; rp_SupportsCacheBreakdown := rp_SupportsCacheBreakdown r |}.

Definition ValidatePlatformSaleOverride (officialMode : BillingMode)
  (input : ModelPricingOverride) : result unit :=
  let? candidate := validateModelPricingOverride input in
  if negb (String.eqb (ov_Status candidate) ModelPricingStatusActive) then Ok tt else
  if negb (str_empty officialMode) && String.eqb officialMode (ov_BillingMode candidate)
  then Ok tt else
  let resolved := pricingOverrideToResolved candidate None
                    (Build_PricingSourceInfo PricingSourceUnavailable "" "" "" None) in
  match validateResolvedPricingAvailable (Some (set_official_mode officialMode resolved)) with
  | Ok _ => Ok tt
  | Err _ => Err ErrModelPricingIncompleteSale
  end.

End Validation.

(** ** Lemmas *)

Lemma coverage_less_asym x y : coverage_less x y = true -> coverage_less y x = false.
Proof.
  unfold coverage_less. rewrite (Z.eqb_sym (iv_MinTokens y)).
  destruct (_ =? _); simpl; intros; bool_lia.
Qed.

Lemma coverage_complete r bc next inf l inf' :
  coverage_loop r bc next inf l = Ok inf' ->
  Forall (λ i, isCompleteTokenPricing (Some (intervalToModelPricing i (BasePricing r)
                 (rp_SupportsCacheBreakdown r) None)) = true) l.
Proof.
  revert next inf. induction l as [|i l IH]; intros next inf; cbn [coverage_loop]; [constructor|].
  destruct (inf || _ || _); [done|].
  destruct (isCompleteTokenPricing _) eqn:Ec; [|done]. cbn [negb]. intros H.
  constructor; [done|].
  destruct (iv_MaxTokens i) as [m|]; [destruct (m <=? iv_MinTokens i); [done|]|]; by eapply IH.
Qed.

(** Without a complete base price the intervals leave no gap after [next]. *)
Lemma coverage_no_gap r next l t :
  coverage_loop r false next false l = Ok true -> next < t ->
  Exists (λ i, interval_matches t i = true) l.
Proof.
  revert next. induction l as [|i l IH]; intros next; cbn [coverage_loop]; [done|].
  cbn [orb]. rewrite andb_true_r.
  destruct ((iv_MinTokens i <? next) || (next <? iv_MinTokens i)) eqn:Eg; [done|].
  apply orb_false_iff in Eg as [E1 E2]. assert (iv_MinTokens i = next) as Hm by bool_lia.
  destruct (isCompleteTokenPricing _); [|done]. cbn [negb]. intros H Ht.
  destruct (iv_MaxTokens i) as [m|] eqn:Em.
  - destruct (m <=? iv_MinTokens i) eqn:El; [done|].
    destruct (decide (t <= m)) as [Hle|Hgt].
    + apply Exists_cons_hd. unfold interval_matches. rewrite Em. bool_lia.
    + apply Exists_cons_tl, (IH m); [done|lia].
  - apply Exists_cons_hd. unfold interval_matches. rewrite Em. bool_lia.
Qed.

Lemma FindMatchingInterval_exists l t :
  Exists (λ i, interval_matches t i = true) l ->
  ∃ i, FindMatchingInterval l t = Some i /\ i ∈ l.
Proof.
  intros He. destruct (FindMatchingInterval l t) as [i|] eqn:E.
  - exists i. split; [done|]. by apply FindMatchingInterval_Some in E as [? _].
  - exfalso. apply FindMatchingInterval_None in E.
    apply Exists_exists in He as (i & Hi & Hm).
    pose proof (proj1 (Forall_forall _ _) E _ Hi). simpl in *. congruence.
Qed.

Lemma coverage_sound r t :
  validateIndependentTokenIntervalCoverage r = Ok tt -> 0 < t ->
  ∃ p, GetIntervalPricing r t = Some p /\ isCompleteTokenPricing (Some p) = true.
Proof.
  unfold validateIndependentTokenIntervalCoverage, GetIntervalPricing.
  destruct (is_nil (Intervals r)) eqn:En; [done|]. intros H Ht.
  apply rbind_Ok in H as (inf & Hl & H).
  pose proof (coverage_complete _ _ _ _ _ _ Hl) as Hc. rewrite stable_sort_perm in Hc.
  destruct (FindMatchingInterval (Intervals r) t) as [i|] eqn:Ef.
  - eexists. split; [done|]. apply FindMatchingInterval_Some in Ef as [Hi _].
    by apply (proj1 (Forall_forall _ _) Hc).
  - destruct (isCompleteTokenPricing (BasePricing r)) eqn:Eb.
    + destruct (BasePricing r) as [b|]; [by exists b|done].
    + destruct inf; [|done]. exfalso.
      pose proof (coverage_no_gap _ _ _ _ Hl Ht) as He. rewrite stable_sort_perm in He.
      apply FindMatchingInterval_exists in He as (i & Hi & _). congruence.
Qed.

Lemma tokenPricingValuesValid_iff p :
  tokenPricingValuesValid (Some p) = true <->
  Forall (λ v, is_finite v = true /\ not_neg v) (price_values p).
Proof.
  unfold tokenPricingValuesValid. rewrite forallb_forall, Forall_forall.
  setoid_rewrite list_elem_of_In. apply forall_proper. intros v.
  unfold is_finite, not_neg.
  destruct (is_nan v), (is_inf v), (fltb v f0); simpl; naive_solver.
Qed.
