(* ===== verification/PricingCatalog.v ===== *)
(** * The catalogue of administrator prices, and its table

    [service/model_pricing_catalog.go] over the table of
    [repository/model_pricing_override_repo.go]: which rule prices a model on
    a platform, the administrator's edits, and the snapshot a batch is priced
    against.  The code's tests for an absent catalogue ([c == nil],
    [c.repo == nil]) are left out: the repository is a parameter here.

    A rule may name its models by a shell pattern of the standard library's
    [path] package: [*] stands for any bytes but [/], [?] for one rune but
    [/], [[...]] for one rune of a class, [\] quotes.  As [Match] decides
    them, a pattern is first cut at its stars into chunks; a malformed pattern
    matches nothing, the callers treating its error as no match.

    The table is that of migration 196: its rows, the unique index on
    [(LOWER(adapter), model_pattern)] and the six statements.  A failing
    connection is not modelled.  [sql_lower] is the database's LOWER and
    [row_less] its ORDER BY on [adapter, model_pattern, id]. *)

From Stdlib Require Import Ascii.
From S2P Require Import Prelude GoErrors Float64 GoTime GoStrings PlatformModels PricingIntervals ModelPricing.

(** ** Runes *)

Definition in_byte_range (lo hi : Z) (c : ascii) : bool :=
  (lo <=? byte_val c) && (byte_val c <=? hi).
Definition is_cont : ascii -> bool := in_byte_range 128 191.
Definition rune_error : Z := 65533.

(** [utf8.DecodeRune]: the first rune and the bytes after it; an invalid byte
    decodes to [rune_error] of width 1, told apart by the flag. *)
Definition decode_rune (l : bytes) : option (Z * bool * bytes) :=
  match l with
  | [] => None
  | b0 :: l0 =>
    let bad := Some (rune_error, false, l0) in
    let v0 := byte_val b0 in
    if v0 <? 128 then Some (v0, true, l0)
    else if (194 <=? v0) && (v0 <=? 223) then
      match l0 with
      | b1 :: l1 =>
        if is_cont b1 then Some (Z.land v0 31 * 64 + Z.land (byte_val b1) 63, true, l1) else bad
      | _ => bad
      end
    else if (224 <=? v0) && (v0 <=? 239) then
      match l0 with
      | b1 :: b2 :: l2 =>
        let ok1 := if v0 =? 224 then in_byte_range 160 191 b1
                   else if v0 =? 237 then in_byte_range 128 159 b1 else is_cont b1 in
        if ok1 && is_cont b2
        then Some (Z.land v0 15 * 4096 + Z.land (byte_val b1) 63 * 64 + Z.land (byte_val b2) 63, true, l2)
        else bad
      | _ => bad
      end
    else if (240 <=? v0) && (v0 <=? 244) then
      match l0 with
      | b1 :: b2 :: b3 :: l3 =>
        let ok1 := if v0 =? 240 then in_byte_range 144 191 b1
                   else if v0 =? 244 then in_byte_range 128 143 b1 else is_cont b1 in
        if ok1 && is_cont b2 && is_cont b3
        then Some (Z.land v0 7 * 262144 + Z.land (byte_val b1) 63 * 4096
                   + Z.land (byte_val b2) 63 * 64 + Z.land (byte_val b3) 63, true, l3)
        else bad
      | _ => bad
      end
    else bad
  end.

(** ** Patterns *)

Inductive glob_token :=
  | GLit (c : ascii)
  | GAny
  | GClass (negated : bool) (ranges : list (Z * Z)).

(** [getEsc]: one rune of a class, which something has to follow. *)
Definition get_esc (l : bytes) : option (Z * bytes) :=
  let body := match l with
              | [] => None
              | c :: l' =>
                if Ascii.eqb c "-" || Ascii.eqb c "]" then None
                else if Ascii.eqb c "\" then Some l' else Some l
              end in
  match body with
  | None => None
  | Some l' =>
    match decode_rune l' with
    | Some (r, true, (_ :: _) as rest) => Some (r, rest)
    | _ => None
    end
  end.

(** The ranges of a class up to its closing bracket. *)
Fixpoint get_ranges (fuel : nat) (acc : list (Z * Z)) (l : bytes)
  : option (list (Z * Z) * bytes) :=
  match fuel with
  | O => None
  | S fuel' =>
    match l with
    | c :: l' =>
      if Ascii.eqb c "]" && negb (is_nil acc) then Some (rev acc, l') else
      match get_esc l with
      | None => None
      | Some (lo, rest) =>
        match rest with
        | d :: rest' =>
          if Ascii.eqb d "-" then
            match get_esc rest' with
            | None => None
            | Some (hi, rest'') => get_ranges fuel' ((lo, hi) :: acc) rest''
            end
          else get_ranges fuel' ((lo, lo) :: acc) rest
        | [] => None
        end
      end
    | [] => None
    end
  end.

(** The chunks of a pattern: whether a star stands in front, and the tokens up
    to the next star.  [star] and [cur] are the chunk being read. *)
Fixpoint parse_glob (fuel : nat) (star : bool) (cur : list glob_token) (l : bytes)
  : option (list (bool * list glob_token)) :=
  match fuel with
  | O => None
  | S fuel' =>
    match l with
    | [] => Some (if star || negb (is_nil cur) then [(star, rev cur)] else [])
    | c :: l' =>
      if Ascii.eqb c "*" then
        if is_nil cur then parse_glob fuel' true [] l'
        else option_map (cons (star, rev cur)) (parse_glob fuel' true [] l')
      else if Ascii.eqb c "?" then parse_glob fuel' star (GAny :: cur) l'
      else if Ascii.eqb c "\" then
        match l' with
        | [] => None
        | d :: l'' => parse_glob fuel' star (GLit d :: cur) l''
        end
      else if Ascii.eqb c "[" then
        let '(negated, body) := match l' with
                                | d :: l'' => if Ascii.eqb d "^" then (true, l'') else (false, l')
                                | [] => (false, l') end in
        match get_ranges (List.length body) [] body with
        | None => None
        | Some (ranges, rest) => parse_glob fuel' star (GClass negated ranges :: cur) rest
        end
      else parse_glob fuel' star (GLit c :: cur) l'
    end
  end.

(** ** Matching *)

(** [matchChunk]: the chunk against a prefix of the name; what is left. *)
Fixpoint match_chunk (chunk : list glob_token) (s : bytes) : option bytes :=
  match chunk with
  | [] => Some s
  | tok :: chunk' =>
    match s with
    | [] => None
    | c :: s' =>
      match tok with
      | GLit d => if Ascii.eqb c d then match_chunk chunk' s' else None
      | GAny =>
        if Ascii.eqb c "/" then None else
        match decode_rune s with Some (_, _, rest) => match_chunk chunk' rest | None => None end
      | GClass negated ranges =>
        match decode_rune s with
        | Some (r, _, rest) =>
          if Bool.eqb (existsb (λ lh, (lh.1 <=? r) && (r <=? lh.2)) ranges) negated then None
          else match_chunk chunk' rest
        | None => None
        end
      end
    end
  end.

(** The loop behind a star: the first place, without passing a [/], where the
    chunk matches (and ends the name, if it is the last one). *)
Fixpoint star_search (chunk : list glob_token) (is_last : bool) (s : bytes) : option bytes :=
  match s with
  | [] => None
  | c :: s' =>
    if Ascii.eqb c "/" then None else
    match match_chunk chunk s' with
    | Some t => if is_last && negb (is_nil t) then star_search chunk is_last s' else Some t
    | None => star_search chunk is_last s'
    end
  end.

Fixpoint match_chunks (chunks : list (bool * list glob_token)) (s : bytes) : bool :=
  match chunks with
  | [] => is_nil s
  | (star, chunk) :: rest =>
    if star && is_nil chunk then negb (existsb (Ascii.eqb "/") s) else
    let here := match match_chunk chunk s with
                | Some t => if is_nil t || negb (is_nil rest) then Some t else None
                | None => None end in
    match here with
    | Some t => match_chunks rest t
    | None =>
      if star then
        match star_search chunk (is_nil rest) s with
        | Some t => match_chunks rest t
        | None => false
        end
      else false
    end
  end.

(** [matched, err := path.Match(pattern, name); err == nil && matched]. *)
Definition path_Match (pattern name : string) : bool :=
  match parse_glob (S (String.length pattern)) false [] (to_bytes pattern) with
  | None => false
  | Some chunks => match_chunks chunks (to_bytes name)
  end.

Example glob_ex1 : path_Match "claude-*" "claude-opus-4-5" = true.
Proof. vm_compute. reflexivity. Qed.
Example glob_ex2 : path_Match "claude-*" "anthropic/claude" = false.
Proof. vm_compute. reflexivity. Qed.
Example glob_ex3 : path_Match "g*-[4-5].?*o" "gpt-5.4-pro" = true.
Proof. vm_compute. reflexivity. Qed.
Example glob_ex4 : path_Match "gpt-[" "gpt-[" = false.
Proof. vm_compute. reflexivity. Qed.

(** A pattern without special bytes matches its own text only. *)
Definition plain_byte (c : ascii) : bool :=
  negb (Ascii.eqb c "*" || Ascii.eqb c "?" || Ascii.eqb c "\" || Ascii.eqb c "[").

Lemma parse_glob_plain l fuel cur :
  forallb plain_byte l = true -> (List.length l < fuel)%nat ->
  parse_glob fuel false cur l =
    Some (if is_nil (rev cur ++ map GLit l) then [] else [(false, rev cur ++ map GLit l)]).
Proof.
  revert fuel cur. induction l as [|c l IH]; intros [|fuel] cur Hp Hlt; simpl in Hlt; try lia.
  - simpl. rewrite app_nil_r. destruct cur as [|x cur]; [done|].
    simpl. by destruct (rev cur).
  - simpl in Hp. apply andb_true_iff in Hp as [Hc Hp]. unfold plain_byte in Hc.
    cbn [parse_glob].
    destruct (Ascii.eqb c "*"), (Ascii.eqb c "?"), (Ascii.eqb c "\"), (Ascii.eqb c "["); try done.
    rewrite IH by (done || lia). simpl. by rewrite <- app_assoc.
Qed.

Lemma match_chunk_lits l s t :
  match_chunk (map GLit l) s = Some t <-> s = l ++ t.
Proof.
  revert s. induction l as [|c l IH]; intros s; simpl; [naive_solver|].
  destruct s as [|d s]; [naive_solver|].
  destruct (Ascii.eqb_spec d c) as [->|Hne]; [rewrite IH; naive_solver|naive_solver].
Qed.

Lemma length_to_bytes s : List.length (to_bytes s) = String.length s.
Proof. unfold to_bytes. induction s; simpl; congruence. Qed.

Lemma path_Match_plain p s :
  forallb plain_byte (to_bytes p) = true -> path_Match p s = true <-> s = p.
Proof.
  intros Hp. unfold path_Match.
  rewrite parse_glob_plain; [|done|].
  2: { rewrite length_to_bytes. lia. }
  simpl. destruct (to_bytes p) as [|c l] eqn:E.
  - simpl. rewrite is_nil_true. split; [intros H; apply to_bytes_inj; congruence|].
    intros ->. done.
  - cbn [map is_nil match_chunks andb]. change (GLit c :: map GLit l) with (map GLit (c :: l)).
    destruct (match_chunk (map GLit (c :: l)) (to_bytes s)) as [t|] eqn:Em.
    + apply match_chunk_lits in Em. destruct t as [|x t]; simpl.
      * split; [|done]. intros _. apply to_bytes_inj. rewrite app_nil_r in Em. congruence.
      * split; [done|]. intros ->. rewrite E in Em. apply (f_equal List.length) in Em.
        rewrite length_app in Em. simpl in Em. lia.
    + split; [done|]. intros ->. exfalso.
      enough (match_chunk (map GLit (c :: l)) (to_bytes p) = Some []) by congruence.
      apply match_chunk_lits. by rewrite app_nil_r.
Qed.

(** ** The repository interface and errors *)

Class ModelPricingOverrideRepository (S : Type) := {
  mpo_List : string -> M S (list ModelPricingOverride);
  mpo_Get : Z -> M S ModelPricingOverride;
  mpo_Create : ModelPricingOverride -> M S Z;
  mpo_Update : ModelPricingOverride -> M S unit;
  mpo_Upsert : ModelPricingOverride -> M S Z;
  mpo_Delete : Z -> M S unit
}.

Definition ErrModelPricingOverrideNotFound : error := EPlain "model pricing override not found".
Definition ErrModelPricingOverrideConflict : error := EPlain "model pricing override already exists".
Definition ErrModelPricingPlatformModelNotEnabled : error :=
  BadRequest "MODEL_PRICING_PLATFORM_MODEL_NOT_ENABLED"
    "model is not enabled on the selected platform".

Record PricingInput := {
  pin_Model : string;
  pin_Adapter : string;
  pin_PlatformCode : string;
  pin_PublicModel : string
}.

Record pricingIdentity := { pid_adapter : string; pid_model : string }.

(** The fields of [Platform] an edit of its sale prices reads. *)
Record SalePlatform := {
  sp_ID : Z;
  sp_Code : string;
  sp_Status : string;
  sp_ModelRules : list PlatformModelRule
}.

Section Catalog.
Context {UC : UnicodeCase}.

(** ** Rule selection *)

Definition modelPatternMatches (pattern model : string) : bool :=
  let pattern := ToLower (TrimSpace pattern) in
  let model := ToLower (TrimSpace model) in
  if str_empty pattern || str_empty model then false
  else if String.eqb pattern model then true
  else path_Match pattern model.

Definition patternSpecificity (pattern : string) : Z :=
  Z.of_nat (List.length
    (filterb (λ c, negb (Ascii.eqb c "*"%char || Ascii.eqb c "?"%char)) (to_bytes (TrimSpace pattern)))).

Definition rule_exact (model : string) (r : ModelPricingOverride) : bool :=
  EqualFold (TrimSpace (ov_ModelPattern r)) model.

Definition rule_less (model : string) (a b : ModelPricingOverride) : bool :=
  if negb (Bool.eqb (rule_exact model a) (rule_exact model b)) then rule_exact model a else
  let sa := patternSpecificity (ov_ModelPattern a) in
  let sb := patternSpecificity (ov_ModelPattern b) in
  if negb (sa =? sb) then sb <? sa
  else String.ltb (ToLower (ov_ModelPattern a)) (ToLower (ov_ModelPattern b)).

Definition rule_applies (model : string) (r : ModelPricingOverride) : bool :=
  String.eqb (ToLower (TrimSpace (ov_Status r))) ModelPricingStatusActive
  && modelPatternMatches (ov_ModelPattern r) (ToLower model).

Definition resolveModelPricingRules (rules : list ModelPricingOverride) (model : string)
  : option ModelPricingOverride :=
  head (stable_sort (rule_less model) (filterb (rule_applies model) rules)).

Definition pricingModelForInput (input : PricingInput) : string :=
  let model := TrimSpace (pin_Model input) in
  if negb (str_empty model) then model else TrimSpace (pin_PublicModel input).

(** The closure [add]: the key [adapter + "\x00" + strings.ToLower(model)] is
    the pair, taking neither part to hold a NUL byte. *)
Definition add_identity (acc : gset (string * string) * list pricingIdentity)
  (adapter model : string) : gset (string * string) * list pricingIdentity :=
  let adapter := ToLower (TrimSpace adapter) in
  let model := TrimSpace model in
  if str_empty adapter || str_empty model then acc else
  let key := (adapter, ToLower model) in
  if decide (key ∈ acc.1) then acc
  else ({[key]} ∪ acc.1, acc.2 ++ [Build_pricingIdentity adapter model]).

Definition pricingIdentitiesForInput (input : PricingInput) : list pricingIdentity :=
  let acc := add_identity (∅, []) (pin_PlatformCode input) (pin_PublicModel input) in
  let acc := add_identity acc (pin_PlatformCode input) (pin_Model input) in
  let acc := add_identity acc (pin_Adapter input) (pin_PublicModel input) in
  let acc := add_identity acc (pin_Adapter input) (pin_Model input) in
  acc.2.

(** ** Snapshots *)

Definition ModelPricingRuleSnapshot : Type := gmap string (list ModelPricingOverride).

Definition snapshot_add (snapshot : gmap string (list ModelPricingOverride))
  (rule : ModelPricingOverride) : gmap string (list ModelPricingOverride) :=
  let adapter := ToLower (TrimSpace (ov_Adapter rule)) in
  if str_empty adapter then snapshot
  else <[adapter := default [] (snapshot !! adapter) ++ [rule]]> snapshot.

Definition snapshot_of (rules : list ModelPricingOverride) : ModelPricingRuleSnapshot :=
  foldl snapshot_add ∅ rules.

Fixpoint first_identity (rules : string -> list ModelPricingOverride) (ids : list pricingIdentity)
  : option ModelPricingOverride :=
  match ids with
  | [] => None
  | id :: rest =>
    match resolveModelPricingRules (rules (pid_adapter id)) (pid_model id) with
    | Some override => Some override
    | None => first_identity rules rest
    end
  end.

Definition snapshot_ResolveForPricingInput (snapshot : ModelPricingRuleSnapshot)
  (input : PricingInput) : option ModelPricingOverride :=
  first_identity (λ a, default [] (snapshot !! a)) (pricingIdentitiesForInput input).

(** ** The catalogue over a repository *)

Section Operations.
Context {S : Type} {Repo : ModelPricingOverrideRepository S}.

(** The error every failed [List] is wrapped in. *)
Definition list_rules (adapter : string) : M S (list ModelPricingOverride) := λ st,
  match mpo_List adapter st with
  | (Ok rules, st') => (Ok rules, st')
  | (Err e, st') => (Err (EWrap "list model pricing overrides: %w" e), st')
  end.

Definition catalog_Create (input : ModelPricingOverride) : M S ModelPricingOverride :=
  let! input := mlift (validateModelPricingOverride input) in
  let! id := mpo_Create input in
  mret (with_identity input id (ov_Adapter input) (ov_ModelPattern input)
          (ov_BillingMode input) (ov_Status input)).

Definition catalog_Update (id : Z) (input : ModelPricingOverride) : M S ModelPricingOverride :=
  let input := with_identity input id (ov_Adapter input) (ov_ModelPattern input)
                 (ov_BillingMode input) (ov_Status input) in
  let! input := mlift (validateModelPricingOverride input) in
  let! _ := mpo_Update input in
  mret input.

Definition GetExact (adapter modelPattern : string) : M S (option ModelPricingOverride) :=
  let adapter := ToLower (TrimSpace adapter) in
  let modelPattern := TrimSpace modelPattern in
  if str_empty adapter || str_empty modelPattern then mret None else
  let! rules := list_rules adapter in
  mret (List.find (λ r, EqualFold (TrimSpace (ov_Status r)) ModelPricingStatusActive
                        && EqualFold (TrimSpace (ov_Adapter r)) adapter
                        && EqualFold (TrimSpace (ov_ModelPattern r)) modelPattern) rules).

Definition catalog_Resolve (adapter model : string) : M S (option ModelPricingOverride) :=
  let adapter := ToLower (TrimSpace adapter) in
  let model := TrimSpace model in
  if str_empty adapter || str_empty model then mret None else
  let! rules := list_rules adapter in
  mret (resolveModelPricingRules rules model).

Definition LoadSnapshot : M S ModelPricingRuleSnapshot :=
  let! rules := list_rules "" in mret (snapshot_of rules).

(** The loop of [ResolveForPricingInput] with its cache [rulesByAdapter]. *)
Fixpoint resolve_identities (cache : gmap string (list ModelPricingOverride))
  (ids : list pricingIdentity) : M S (option ModelPricingOverride) :=
  match ids with
  | [] => mret None
  | id :: rest =>
    let! rules := match cache !! pid_adapter id with
                  | Some rules => mret rules
                  | None => list_rules (pid_adapter id) end in
    match resolveModelPricingRules rules (pid_model id) with
    | Some override => mret (Some override)
    | None => resolve_identities (<[pid_adapter id := rules]> cache) rest
    end
  end.

Definition ResolveForPricingInput (input : PricingInput) : M S (option ModelPricingOverride) :=
  resolve_identities ∅ (pricingIdentitiesForInput input).

Definition UpsertPlatformSale (platform : option SalePlatform) (modelPattern : string)
  (input : ModelPricingOverride) : M S ModelPricingOverride :=
  let modelPattern := TrimSpace modelPattern in
  match platform with
  | None => mfail ErrModelPricingPlatformModelNotEnabled
  | Some platform =>
    if (sp_ID platform <=? 0) || str_empty (TrimSpace (sp_Code platform))
       || negb (platform_IsActive (sp_Status platform))
    then mfail ErrModelPricingPlatformModelNotEnabled else
    match List.find (λ r, rule_Enabled r && EqualFold (TrimSpace (rule_ModelPattern r)) modelPattern)
            (sp_ModelRules platform) with
    | None => mfail ErrModelPricingPlatformModelNotEnabled
    | Some rule =>
      let canonical := TrimSpace (rule_ModelPattern rule) in
      if str_empty canonical then mfail ErrModelPricingPlatformModelNotEnabled else
      let! existing := GetExact (sp_Code platform) canonical in
      let canonical := match existing with
                       | Some e => TrimSpace (ov_ModelPattern e)
                       | None => canonical end in
      let input := with_identity input 0 (sp_Code platform) canonical
                     (ov_BillingMode input) (ov_Status input) in
      let! input := mlift (validateModelPricingOverride input) in
      let! id := mpo_Upsert input in
      mret (with_identity input id (ov_Adapter input) (ov_ModelPattern input)
              (ov_BillingMode input) (ov_Status input))
    end
  end.

End Operations.
End Catalog.

(** ** Lemmas *)

Section Lemmas.
Context {UC : UnicodeCase}.

Lemma rule_less_asym model a b : rule_less model a b = true -> rule_less model b a = false.
Proof.
  unfold rule_less. destruct (rule_exact model a), (rule_exact model b); simpl; try done.
  all: rewrite (Z.eqb_sym (patternSpecificity (ov_ModelPattern b))).
  all: destruct (_ =? _); simpl; [apply string_ltb_asym|bool_lia].
Qed.

Lemma rule_less_trans model a b c :
  rule_less model b a = false -> rule_less model c b = false -> rule_less model c a = false.
Proof.
  unfold rule_less.
  destruct (rule_exact model a), (rule_exact model b), (rule_exact model c); simpl; try done.
  all: destruct (Z.eqb_spec (patternSpecificity (ov_ModelPattern b)) (patternSpecificity (ov_ModelPattern a))),
    (Z.eqb_spec (patternSpecificity (ov_ModelPattern c)) (patternSpecificity (ov_ModelPattern b))),
    (Z.eqb_spec (patternSpecificity (ov_ModelPattern c)) (patternSpecificity (ov_ModelPattern a)));
    simpl; try (intros; bool_lia); try (apply string_ltb_false_trans); try lia.
Qed.

Lemma resolve_rules_Some rules model r :
  resolveModelPricingRules rules model = Some r ->
  r ∈ rules /\ rule_applies model r = true /\
  ∀ r', r' ∈ rules -> rule_applies model r' = true -> r' = r \/ rule_less model r' r = false.
Proof.
  intros [Hin Hmin]%stable_sort_head;
    [|apply rule_less_asym|apply rule_less_trans].
  apply elem_of_filterb in Hin as [Hin Hap]. split_and!; [done..|].
  intros r' Hr' Ha'. apply Hmin, elem_of_filterb. done.
Qed.

Lemma resolve_rules_None rules model :
  resolveModelPricingRules rules model = None <->
  ∀ r, r ∈ rules -> rule_applies model r = false.
Proof.
  unfold resolveModelPricingRules. rewrite stable_sort_head_None.
  rewrite filterb_nil. apply forall_proper. intros r. done.
Qed.

(** The rules a snapshot keeps for one adapter. *)
Definition adapter_is (a : string) (r : ModelPricingOverride) : bool :=
  String.eqb (ToLower (TrimSpace (ov_Adapter r))) a.

Lemma snapshot_fold_lookup rules (m : gmap string (list ModelPricingOverride)) a :
  a ≠ EmptyString ->
  default [] (foldl snapshot_add m rules !! a) = default [] (m !! a) ++ filterb (adapter_is a) rules.
Proof.
  intros Ha. revert m. induction rules as [|r rules IH]; intros m; cbn [foldl].
  { by rewrite app_nil_r. }
  rewrite IH. unfold snapshot_add, filterb. cbv zeta. cbn [List.filter]. unfold adapter_is at 2.
  destruct (str_empty (ToLower (TrimSpace (ov_Adapter r)))) eqn:Ee.
  - apply str_empty_true in Ee. rewrite Ee.
    destruct (String.eqb_spec EmptyString a); [congruence|done].
  - destruct (String.eqb_spec (ToLower (TrimSpace (ov_Adapter r))) a) as [->|Hne].
    + rewrite lookup_insert_eq. simpl. by rewrite <- app_assoc.
    + by rewrite lookup_insert_ne.
Qed.

Lemma snapshot_of_lookup rules a :
  a ≠ EmptyString -> default [] (snapshot_of rules !! a) = filterb (adapter_is a) rules.
Proof. intros Ha. unfold snapshot_of. rewrite snapshot_fold_lookup by done. by rewrite lookup_empty. Qed.

Lemma add_identity_nonempty acc a m :
  Forall (λ id, pid_adapter id ≠ EmptyString) acc.2 ->
  Forall (λ id, pid_adapter id ≠ EmptyString) (add_identity acc a m).2.
Proof.
  intros H. unfold add_identity.
  destruct (str_empty (ToLower (TrimSpace a))) eqn:E; [done|]. cbn [orb].
  destruct (str_empty (TrimSpace m)); [done|]. cbn [orb].
  case_decide; [done|]. simpl. apply Forall_app. split; [done|].
  repeat constructor. simpl. by apply str_empty_false.
Qed.

Lemma identities_nonempty input :
  Forall (λ id, pid_adapter id ≠ EmptyString) (pricingIdentitiesForInput input).
Proof. unfold pricingIdentitiesForInput. do 4 apply add_identity_nonempty. constructor. Qed.

Lemma resolve_identities_list {S} {Repo : ModelPricingOverrideRepository S}
  (view : string -> list ModelPricingOverride) ids cache st :
  (∀ id, id ∈ ids -> mpo_List (pid_adapter id) st = (Ok (view (pid_adapter id)), st)) ->
  (∀ a rules, cache !! a = Some rules -> rules = view a) ->
  resolve_identities cache ids st = (Ok (first_identity view ids), st).
Proof.
  revert cache. induction ids as [|id ids IH]; intros cache Hl Hc; [done|].
  cbn [resolve_identities first_identity]. unfold mbind_ at 1.
  assert ((match cache !! pid_adapter id with
           | Some rules => mret rules | None => list_rules (pid_adapter id) end) st
          = (Ok (view (pid_adapter id)), st)) as ->.
  { destruct (cache !! pid_adapter id) as [rules|] eqn:E; [by rewrite (Hc _ _ E)|].
    unfold list_rules. rewrite Hl; [done|by left]. }
  destruct (resolveModelPricingRules _ _); [done|].
  apply IH; [intros id' Hin; apply Hl; by right|].
  intros a rules. rewrite lookup_insert_Some. naive_solver.
Qed.

Section Consistent.
Context {S : Type} {Repo : ModelPricingOverrideRepository S} (rows : list ModelPricingOverride) (st : S).
Context (Hall : mpo_List EmptyString st = (Ok rows, st)).

Lemma load_snapshot_rows : LoadSnapshot st = (Ok (snapshot_of rows), st).
Proof. unfold LoadSnapshot, list_rules, mbind_. by rewrite Hall. Qed.

(** The repository lists for an adapter the rules of the full list that name
    it. *)
Definition lists_by_adapter (input : PricingInput) : Prop :=
  ∀ id, id ∈ pricingIdentitiesForInput input ->
    mpo_List (pid_adapter id) st = (Ok (filterb (adapter_is (pid_adapter id)) rows), st).

Lemma snapshot_resolution input :
  lists_by_adapter input ->
  ResolveForPricingInput input st =
    (Ok (snapshot_ResolveForPricingInput (snapshot_of rows) input), st).
Proof.
  intros Hid. unfold ResolveForPricingInput.
  rewrite (resolve_identities_list (λ a, filterb (adapter_is a) rows)) by done.
  f_equal. f_equal. unfold snapshot_ResolveForPricingInput.
  pose proof (identities_nonempty input) as Hne. clear Hid.
  induction Hne as [|id ids Hid _ IH]; simpl; [done|].
  rewrite snapshot_of_lookup by done. by rewrite IH.
Qed.

End Consistent.

(** ** Properties *)

(** The rule that prices a model is an active rule whose pattern matches
    it, and none is preferred to it: when some applicable rule names the model
    exactly, so does the chosen one, and otherwise no applicable rule has more
    literal characters. *)
Theorem resolveModelPricingRules_best rules model r :
  resolveModelPricingRules rules model = Some r ->
  r ∈ rules /\ rule_applies model r = true /\
  ∀ r', r' ∈ rules -> rule_applies model r' = true ->
    (rule_exact model r' = true -> rule_exact model r = true) /\
    (rule_exact model r' = rule_exact model r ->
       patternSpecificity (ov_ModelPattern r') <= patternSpecificity (ov_ModelPattern r)).
Proof.
  intros H. apply resolve_rules_Some in H as (Hin & Ha & Hmin). split_and!; [done..|].
  intros r' Hr' Ha'. destruct (Hmin r' Hr' Ha') as [->|Hless]; [done|].
  unfold rule_less in Hless.
  destruct (rule_exact model r'), (rule_exact model r); simpl in Hless; try done.
  all: split; [done|]; intros _.
  all: destruct (Z.eqb_spec (patternSpecificity (ov_ModelPattern r'))
                            (patternSpecificity (ov_ModelPattern r))); simpl in Hless; bool_lia.
Qed.

End Lemmas.

Record OverrideTable := {
  ot_rows : list ModelPricingOverride;
  ot_next_id : Z
}.

Definition normalizeBillingMode (mode : BillingMode) : BillingMode :=
  if str_empty mode then BillingModeToken else mode.

Section Table.
Context {UC : UnicodeCase}.
Context (sql_lower : string -> string)
        (row_less : ModelPricingOverride -> ModelPricingOverride -> bool).

Definition normalizeStatus (status : string) : string :=
  if str_empty (TrimSpace status) then ModelPricingStatusActive else ToLower (TrimSpace status).

(** The columns a statement writes for [override]. *)
Definition stored_row (id : Z) (override : ModelPricingOverride) : ModelPricingOverride :=
  with_identity override id (ToLower (TrimSpace (ov_Adapter override)))
    (TrimSpace (ov_ModelPattern override)) (normalizeBillingMode (ov_BillingMode override))
    (normalizeStatus (ov_Status override)).

(** The key of the unique index. *)
Definition row_key (r : ModelPricingOverride) : string * string :=
  (sql_lower (ov_Adapter r), ov_ModelPattern r).
Definition same_key (a b : ModelPricingOverride) : bool :=
  String.eqb (sql_lower (ov_Adapter a)) (sql_lower (ov_Adapter b))
  && String.eqb (ov_ModelPattern a) (ov_ModelPattern b).

Definition ot_List (adapter : string) : M OverrideTable (list ModelPricingOverride) := λ st,
  let sorted := stable_sort row_less (ot_rows st) in
  let selected := if str_empty (TrimSpace adapter) then sorted
                  else filterb (λ r, String.eqb (sql_lower (ov_Adapter r))
                                       (sql_lower (TrimSpace adapter))) sorted in
  (Ok selected, st).

Definition ot_Get (id : Z) : M OverrideTable ModelPricingOverride := λ st,
  match List.find (λ r, ov_ID r =? id) (ot_rows st) with
  | Some r => (Ok r, st)
  | None => (Err ErrModelPricingOverrideNotFound, st)
  end.

Definition ot_Create (override : ModelPricingOverride) : M OverrideTable Z := λ st,
  let row := stored_row (ot_next_id st) override in
  if existsb (same_key row) (ot_rows st)
  then (Err ErrModelPricingOverrideConflict, Build_OverrideTable (ot_rows st) (ot_next_id st + 1))
  else (Ok (ot_next_id st), Build_OverrideTable (ot_rows st ++ [row]) (ot_next_id st + 1)).

Definition ot_Update (override : ModelPricingOverride) : M OverrideTable unit := λ st,
  if ov_ID override <=? 0 then (Err ErrModelPricingOverrideNotFound, st) else
  let row := stored_row (ov_ID override) override in
  if negb (existsb (λ r, ov_ID r =? ov_ID override) (ot_rows st))
  then (Err ErrModelPricingOverrideNotFound, st) else
  if existsb (λ r, negb (ov_ID r =? ov_ID override) && same_key row r) (ot_rows st)
  then (Err ErrModelPricingOverrideConflict, st) else
  (Ok tt, Build_OverrideTable
            (map (λ r, if ov_ID r =? ov_ID override then row else r) (ot_rows st))
            (ot_next_id st)).

(** [ON CONFLICT ... DO UPDATE]: the conflicting row keeps id, adapter and
    pattern. *)
Definition upsert_row (row r : ModelPricingOverride) : ModelPricingOverride :=
  if same_key row r
  then with_identity row (ov_ID r) (ov_Adapter r) (ov_ModelPattern r) (ov_BillingMode row) (ov_Status row)
  else r.
Definition ot_Upsert (override : ModelPricingOverride) : M OverrideTable Z := λ st,
  let row := stored_row (ot_next_id st) override in
  match List.find (same_key row) (ot_rows st) with
  | Some r => (Ok (ov_ID r), Build_OverrideTable (map (upsert_row row) (ot_rows st)) (ot_next_id st + 1))
  | None => (Ok (ot_next_id st), Build_OverrideTable (ot_rows st ++ [row]) (ot_next_id st + 1))
  end.

Definition ot_Delete (id : Z) : M OverrideTable unit := λ st,
  if existsb (λ r, ov_ID r =? id) (ot_rows st)
  then (Ok tt, Build_OverrideTable (filterb (λ r, negb (ov_ID r =? id)) (ot_rows st)) (ot_next_id st))
  else (Err ErrModelPricingOverrideNotFound, st).

#[export] Instance override_table_repository : ModelPricingOverrideRepository OverrideTable := {|
  mpo_List := ot_List; mpo_Get := ot_Get; mpo_Create := ot_Create; mpo_Update := ot_Update;
  mpo_Upsert := ot_Upsert; mpo_Delete := ot_Delete |}.

(** ** The invariant of the table *)

Definition table_wf (st : OverrideTable) : Prop :=
  NoDup (map ov_ID (ot_rows st)) /\ NoDup (map row_key (ot_rows st)) /\
  Forall (λ r, 0 < ov_ID r < ot_next_id st) (ot_rows st) /\ 0 < ot_next_id st.

(** Any statement, whatever it returns. *)
Inductive table_step : OverrideTable -> OverrideTable -> Prop :=
  | step_create o st : table_step st (ot_Create o st).2
  | step_update o st : table_step st (ot_Update o st).2
  | step_upsert o st : table_step st (ot_Upsert o st).2
  | step_delete id st : table_step st (ot_Delete id st).2.

Definition empty_table : OverrideTable := {| ot_rows := []; ot_next_id := 1 |}.

(** ** Lemmas *)

Lemma same_key_iff a b : same_key a b = true <-> row_key a = row_key b.
Proof.
  unfold same_key, row_key. rewrite andb_true_iff, !String.eqb_eq.
  split; [intros [H1 H2]; congruence|intros H; by injection H].
Qed.

Lemma wf_append st row :
  table_wf st -> ov_ID row = ot_next_id st ->
  existsb (same_key row) (ot_rows st) = false ->
  table_wf (Build_OverrideTable (ot_rows st ++ [row]) (ot_next_id st + 1)).
Proof.
  intros (Hid & Hk & Hr & Hn) Hrow Hex. unfold table_wf. simpl.
  rewrite !map_app. simpl. split_and!; [| | |lia].
  - apply NoDup_app. split_and!; [done| |apply NoDup_singleton].
    intros i Hi ->%list_elem_of_singleton. apply list_elem_of_fmap in Hi as (r & Heq & Hin).
    pose proof (proj1 (Forall_forall _ _) Hr _ Hin). simpl in *. lia.
  - apply NoDup_app. split_and!; [done| |apply NoDup_singleton].
    intros k Hi ->%list_elem_of_singleton. apply list_elem_of_fmap in Hi as (r & Heq & Hin).
    enough (existsb (same_key row) (ot_rows st) = true) by congruence.
    apply existsb_exists. exists r. split; [by apply list_elem_of_In|]. by apply same_key_iff.
  - apply Forall_app. split; [|repeat constructor; simpl; lia].
    eapply Forall_impl; [exact Hr|]. simpl. lia.
Qed.

Lemma wf_next st n :
  table_wf st -> ot_next_id st <= n -> table_wf (Build_OverrideTable (ot_rows st) n).
Proof.
  intros (Hid & Hk & Hr & Hn) Hle. unfold table_wf. simpl. split_and!; [done..| |lia].
  eapply Forall_impl; [exact Hr|]. simpl. lia.
Qed.

Lemma wf_Delete id st : table_wf st -> table_wf (ot_Delete id st).2.
Proof.
  intros (Hid & Hk & Hr & Hn). unfold ot_Delete. destruct (existsb _ _); [|done].
  unfold table_wf. simpl. split_and!; [by apply NoDup_map_filterb..| |done].
  rewrite Forall_forall. intros r [Hin _]%elem_of_filterb. by apply (proj1 (Forall_forall _ _) Hr).
Qed.

Lemma update_row_keys id row l :
  NoDup (map ov_ID l) -> NoDup (map row_key l) ->
  (∀ r, r ∈ l -> ov_ID r ≠ id -> row_key r ≠ row_key row) ->
  NoDup (map row_key (map (λ r, if ov_ID r =? id then row else r) l)).
Proof.
  induction l as [|r l IH]; simpl; [constructor|].
  intros [Hi Hid]%NoDup_cons [Hk Hkd]%NoDup_cons Hne.
  apply NoDup_cons. split; [|apply IH; [done..|]; intros; apply Hne; [by right|done]].
  rewrite map_map. intros (r' & Heq & Hin)%list_elem_of_fmap.
  assert (ov_ID r' ≠ ov_ID r) as Hneq.
  { intros E. apply Hi. rewrite <- E. by apply list_elem_of_fmap_2. }
  destruct (Z.eqb_spec (ov_ID r) id), (Z.eqb_spec (ov_ID r') id); try lia.
  - apply (Hne r'); [by right|done|done].
  - apply (Hne r); [by left|done|done].
  - apply Hk. rewrite Heq. by apply list_elem_of_fmap_2.
Qed.

Lemma map_same_field {B} (f : ModelPricingOverride -> B) g l :
  (∀ r, r ∈ l -> f (g r) = f r) -> map f (map g l) = map f l.
Proof.
  induction l as [|r l IH]; intros H; simpl; [done|].
  rewrite H by left. rewrite IH; [done|]. intros; apply H; by right.
Qed.

Lemma wf_Update o st : table_wf st -> table_wf (ot_Update o st).2.
Proof.
  intros Hwf. pose proof Hwf as (Hid & Hk & Hr & Hn). unfold ot_Update.
  destruct (ov_ID o <=? 0); [exact Hwf|].
  destruct (negb (existsb _ _)); [exact Hwf|].
  destruct (existsb _ _) eqn:Ec; [exact Hwf|]. unfold table_wf. simpl.
  assert (map ov_ID (map (λ r, if ov_ID r =? ov_ID o then stored_row (ov_ID o) o else r) (ot_rows st))
          = map ov_ID (ot_rows st)) as Hids.
  { apply map_same_field. intros r _. destruct (Z.eqb_spec (ov_ID r) (ov_ID o)); [done|done]. }
  split_and!; [by rewrite Hids| | |done].
  - apply update_row_keys; [done..|]. intros r Hin Hne Heq.
    enough (existsb (λ r0, negb (ov_ID r0 =? ov_ID o) && same_key (stored_row (ov_ID o) o) r0)
              (ot_rows st) = true) by congruence.
    apply existsb_exists. exists r. split; [by apply list_elem_of_In|].
    apply andb_true_iff. split; [bool_lia|]. by apply same_key_iff.
  - rewrite Forall_forall. intros r (r0 & -> & Hin)%list_elem_of_fmap.
    pose proof (proj1 (Forall_forall _ _) Hr _ Hin) as Hb. simpl in Hb.
    destruct (Z.eqb_spec (ov_ID r0) (ov_ID o)); simpl; lia.
Qed.

Lemma upsert_row_id row r : ov_ID (upsert_row row r) = ov_ID r.
Proof. unfold upsert_row. by destruct (same_key row r). Qed.
Lemma upsert_row_key row r : row_key (upsert_row row r) = row_key r.
Proof. unfold upsert_row. by destruct (same_key row r). Qed.

Lemma find_none_existsb {A} (p : A -> bool) l : List.find p l = None -> existsb p l = false.
Proof. induction l as [|x l IH]; simpl; [done|]. by destruct (p x). Qed.

Lemma wf_Upsert o st : table_wf st -> table_wf (ot_Upsert o st).2.
Proof.
  intros Hwf. unfold ot_Upsert.
  destruct (List.find _ _) eqn:E; simpl.
  - destruct Hwf as (Hid & Hk & Hr & Hn). unfold table_wf. simpl.
    rewrite !map_same_field by (intros; (apply upsert_row_id || apply upsert_row_key)).
    split_and!; [done..| |lia].
    rewrite Forall_forall. intros r (r0 & -> & Hin)%list_elem_of_fmap.
    rewrite upsert_row_id. pose proof (proj1 (Forall_forall _ _) Hr _ Hin). simpl in *. lia.
  - apply wf_append; [done..|]. by apply find_none_existsb.
Qed.

Lemma wf_Create o st : table_wf st -> table_wf (ot_Create o st).2.
Proof.
  intros Hwf. unfold ot_Create. destruct (existsb _ _) eqn:E; simpl.
  - apply wf_next; [done|lia].
  - by apply wf_append.
Qed.

Lemma table_wf_empty : table_wf empty_table.
Proof. unfold table_wf, empty_table; simpl. repeat split; try constructor; lia. Qed.

(** ** Properties *)

(** In every table the statements can reach from the empty one, ids and
    the index keys [(LOWER(adapter), model_pattern)] are unique, so at most one
    row prices an adapter's pattern. *)
Theorem override_keys_unique st :
  rtc table_step empty_table st ->
  NoDup (map ov_ID (ot_rows st)) /\ NoDup (map row_key (ot_rows st)).
Proof.
  intros Hr. enough (table_wf st) as (?&?&?); [done|].
  pose proof table_wf_empty as Hwf. induction Hr as [|st1 st2 st3 Hs _ IH]; [done|].
  apply IH. destruct Hs; auto using wf_Create, wf_Update, wf_Upsert, wf_Delete.
Qed.

(** An upsert never fails on a key that exists: afterwards one row has the
    key, its prices are the ones given, and the rows of other keys are the
    ones that were there. *)
Theorem Upsert_sets_price o st :
  ∃ id r, (ot_Upsert o st).1 = Ok id /\ r ∈ ot_rows (ot_Upsert o st).2 /\ ov_ID r = id /\
    row_key r = row_key (stored_row 0 o) /\
    override_price_fields r = override_price_fields o /\ ov_Intervals r = ov_Intervals o /\
    ∀ r', row_key r' ≠ row_key (stored_row 0 o) ->
      r' ∈ ot_rows (ot_Upsert o st).2 <-> r' ∈ ot_rows st.
Proof.
  unfold ot_Upsert. set (row := stored_row (ot_next_id st) o).
  change (row_key (stored_row 0 o)) with (row_key row).
  destruct (List.find (same_key row) (ot_rows st)) as [r|] eqn:E.
  - apply List.find_some in E as [Hin%list_elem_of_In Hk].
    exists (ov_ID r), (upsert_row row r). simpl.
    assert (row_key row = row_key r) as Hkey by (by apply same_key_iff).
    split_and!; [done|by apply list_elem_of_fmap_2|apply upsert_row_id|by rewrite upsert_row_key
      |unfold upsert_row; by rewrite Hk..|].
    intros r' Hne.
    assert (∀ r0, row_key r0 ≠ row_key row -> upsert_row row r0 = r0) as Hsame.
    { intros r0 H0. unfold upsert_row. destruct (same_key row r0) eqn:E0; [|done].
      apply same_key_iff in E0. congruence. }
    split.
    + intros (r0 & Heq & Hin0)%list_elem_of_fmap.
      rewrite Heq, upsert_row_key in Hne. rewrite Hsame in Heq by done. congruence.
    + intros Hin'. rewrite <- (Hsame r' Hne). by apply list_elem_of_fmap_2.
  - exists (ot_next_id st), row. simpl. split_and!; try done.
    + apply elem_of_app. right. by apply list_elem_of_singleton.
    + intros r' Hne. rewrite elem_of_app, list_elem_of_singleton. naive_solver.
Qed.

(** What the table lists for an adapter code in normal form are the rows of
    the full list that name it, when the rows hold normal codes too. *)
Lemma table_lists_adapter st a :
  str_empty (TrimSpace a) = false -> sql_lower (TrimSpace a) = a ->
  Forall (λ r, sql_lower (ov_Adapter r) = ToLower (TrimSpace (ov_Adapter r))) (ot_rows st) ->
  ot_List a st = (Ok (filterb (adapter_is a) (stable_sort row_less (ot_rows st))), st).
Proof.
  intros Ha Hl Hr. unfold ot_List. rewrite Ha, Hl. do 2 f_equal.
  rewrite <- (stable_sort_perm row_less (ot_rows st)) in Hr.
  unfold filterb, adapter_is. induction Hr as [|r l Hx _ IH]; simpl; [done|].
  rewrite Hx, IH. done.
Qed.

End Table.

(** ** An example table *)

#[local] Existing Instance ascii_only_case.
Definition ex_override (adapter pattern : string) (price : Z) : ModelPricingOverride := {|
  ov_ID := 0; ov_Adapter := adapter; ov_ModelPattern := pattern; ov_BillingMode := BillingModeToken;
  ov_InputPrice := Some (f64_lit price (-6)); ov_OutputPrice := Some (f64_lit (4 * price) (-6));
  ov_CacheWritePrice := None; ov_CacheReadPrice := None; ov_ImageInputPrice := None;
  ov_ImageOutputPrice := None; ov_PerRequestPrice := None; ov_Intervals := []; ov_Status := "active" |}.
Definition id_less (a b : ModelPricingOverride) : bool := ov_ID a <? ov_ID b.
Definition ex_overrides : OverrideTable :=
  (ot_Create ascii_lower (ex_override "anthropic" "claude-opus-4-5" 5)
    (ot_Create ascii_lower (ex_override "Codex" "gpt-5*" 2)
      (ot_Create ascii_lower (ex_override "anthropic" "claude-*" 3) empty_table).2).2).2.
Definition ex_pricing_input : PricingInput := {|
  pin_Model := "claude-opus-4-5"; pin_Adapter := " Anthropic"; pin_PlatformCode := "codex";
  pin_PublicModel := "opus" |}.

Lemma resolveModelPricingRules_best_witness :
  ∃ r, r ∈ ot_rows ex_overrides /\ patternSpecificity (ov_ModelPattern r) = 15.
Proof.
  destruct (resolveModelPricingRules (ot_rows ex_overrides) "Claude-Opus-4-5") as [r|] eqn:E;
    [|vm_compute in E; discriminate].
  exists r. split.
  - exact (proj1 (resolveModelPricingRules_best _ _ _ E)).
  - vm_compute in E. injection E as <-. vm_compute. reflexivity.
Defined.

Lemma override_keys_unique_witness :
  NoDup (map ov_ID (ot_rows ex_overrides)) /\ NoDup (map (row_key ascii_lower) (ot_rows ex_overrides)).
Proof.
  apply (override_keys_unique ascii_lower).
  unfold ex_overrides. repeat (eapply rtc_r; [|apply step_create]). apply rtc_refl.
Defined.
