(* ===== verification/FallbackPrices.v ===== *)
(** * The built-in price table

    [initFallbackPricing], [getFallbackPricing] and [fallbackMatchedModel] of
    [service/billing_service.go]: the prices used when no catalogue knows a
    model.  The Go map holds pointers, several keys sharing one; an entry of
    the map is modelled as the price with its identity, the key whose literal
    allocated it. *)

From S2P Require Import Prelude Float64 GoStrings GoText PricingIntervals ModelPricing OpenAIModels.

Definition openAIGPT54LongContextInputThreshold : Z := 272000.
Definition openAIGPT54LongContextInputMultiplier : float64 := f64_lit 2 0.
Definition openAIGPT54LongContextOutputMultiplier : float64 := f64_lit 15 (-1).

(** A composite literal with the four standard prices, and one with the
    priority prices next to them; the other fields are zero. *)
Definition priority_card (i ip o op cw cwp cr crp : float64) : ModelPricing :=
  set_cache_read cr crp false
    (set_cache_creation cw cwp f0 f0 false (set_output o op false (set_input i ip false zero_pricing))).
Definition card (i o cw cr : float64) : ModelPricing := priority_card i f0 o f0 cw f0 cr f0.
Definition gpt54_long_context : ModelPricing -> ModelPricing :=
  set_long_context openAIGPT54LongContextInputThreshold openAIGPT54LongContextInputMultiplier
    openAIGPT54LongContextOutputMultiplier.

(** An assignment of [initFallbackPricing]: a new literal, or the pointer of an
    earlier key. *)
Inductive fallback_entry :=
  | Literal (p : ModelPricing)
  | SameAs (key : string).

Definition claude_gemini_prices : list (string * fallback_entry) := [
  ("claude-opus-4.5",
    Literal (card (f64_lit 5 (-6)) (f64_lit 25 (-6)) (f64_lit 625 (-8)) (f64_lit 5 (-7))));
  ("claude-sonnet-4",
    Literal (card (f64_lit 3 (-6)) (f64_lit 15 (-6)) (f64_lit 375 (-8)) (f64_lit 3 (-7))));
  ("claude-3-5-sonnet",
    Literal (card (f64_lit 3 (-6)) (f64_lit 15 (-6)) (f64_lit 375 (-8)) (f64_lit 3 (-7))));
  ("claude-3-5-haiku",
    Literal (card (f64_lit 1 (-6)) (f64_lit 5 (-6)) (f64_lit 125 (-8)) (f64_lit 1 (-7))));
  ("claude-3-opus",
    Literal (card (f64_lit 15 (-6)) (f64_lit 75 (-6)) (f64_lit 1875 (-8)) (f64_lit 15 (-7))));
  ("claude-3-haiku",
    Literal (card (f64_lit 25 (-8)) (f64_lit 125 (-8)) (f64_lit 3 (-7)) (f64_lit 3 (-8))));
  ("claude-opus-4.6", SameAs "claude-opus-4.5");
  ("claude-opus-4.7", SameAs "claude-opus-4.6");
  ("claude-opus-4.8", SameAs "claude-opus-4.7");
  ("claude-opus-5", SameAs "claude-opus-4.8");
  ("gemini-3.1-pro",
    Literal (card (f64_lit 2 (-6)) (f64_lit 12 (-6)) (f64_lit 2 (-6)) (f64_lit 2 (-7))));
  ("gemini-3.6-flash", Literal (card (f64_lit 15 (-7)) (f64_lit 75 (-7)) f0 (f64_lit 15 (-8))))
]%string.
Definition openai_prices : list (string * fallback_entry) := [
  ("gpt-5.4",
    Literal (gpt54_long_context (priority_card (f64_lit 25 (-7)) (f64_lit 5 (-6))
        (f64_lit 15 (-6)) (f64_lit 3 (-5))
      (f64_lit 25 (-7)) f0 (f64_lit 25 (-8)) (f64_lit 5 (-7)))));
  ("gpt-5.5", SameAs "gpt-5.4");
  ("gpt-5.5-pro", SameAs "gpt-5.4");
  ("gpt-5.6-sol",
    Literal (gpt54_long_context (priority_card (f64_lit 5 (-6)) (f64_lit 1 (-5))
        (f64_lit 3 (-5)) (f64_lit 6 (-5))
      (f64_lit 625 (-8)) (f64_lit 125 (-7)) (f64_lit 5 (-7)) (f64_lit 1 (-6)))));
  ("gpt-5.6-terra",
    Literal (gpt54_long_context (priority_card (f64_lit 2 (-6)) (f64_lit 4 (-6))
        (f64_lit 12 (-6)) (f64_lit 24 (-6))
      (f64_lit 25 (-7)) (f64_lit 5 (-6)) (f64_lit 2 (-7)) (f64_lit 4 (-7)))));
  ("gpt-5.6-luna",
    Literal (gpt54_long_context (priority_card (f64_lit 2 (-7)) (f64_lit 4 (-7))
        (f64_lit 12 (-7)) (f64_lit 24 (-7))
      (f64_lit 25 (-8)) (f64_lit 5 (-7)) (f64_lit 2 (-8)) (f64_lit 4 (-8)))));
  ("gpt-5.4-mini", Literal (card (f64_lit 75 (-8)) (f64_lit 45 (-7)) f0 (f64_lit 75 (-9))));
  ("gpt-5.4-nano", Literal (card (f64_lit 2 (-7)) (f64_lit 125 (-8)) f0 (f64_lit 2 (-8))));
  ("gpt-5.2",
    Literal (priority_card (f64_lit 175 (-8)) (f64_lit 35 (-7)) (f64_lit 14 (-6))
        (f64_lit 28 (-6))
      (f64_lit 175 (-8)) f0 (f64_lit 175 (-9)) (f64_lit 35 (-8))));
  ("gpt-5.3-codex",
    Literal (priority_card (f64_lit 15 (-7)) (f64_lit 3 (-6)) (f64_lit 12 (-6))
        (f64_lit 24 (-6))
      (f64_lit 15 (-7)) f0 (f64_lit 15 (-8)) (f64_lit 3 (-7))))
]%string.
Definition deepseek_glm_prices : list (string * fallback_entry) := [
  ("deepseek-v4-pro",
    Literal (card (f64_lit 435 (-9)) (f64_lit 87 (-8)) f0 (f64_lit 3625 (-12))));
  ("deepseek-v4-flash",
    Literal (card (f64_lit 14 (-8)) (f64_lit 28 (-8)) f0 (f64_lit 28 (-10))));
  ("glm-5.2", Literal (card (f64_lit 14 (-7)) (f64_lit 44 (-7)) f0 (f64_lit 26 (-8))));
  ("glm-5.1", Literal (card (f64_lit 14 (-7)) (f64_lit 44 (-7)) f0 (f64_lit 26 (-8))));
  ("glm-5", Literal (card (f64_lit 1 (-6)) (f64_lit 32 (-7)) f0 (f64_lit 2 (-7))));
  ("glm-5-turbo", Literal (card (f64_lit 12 (-7)) (f64_lit 4 (-6)) f0 (f64_lit 24 (-8))));
  ("glm-4.7", Literal (card (f64_lit 6 (-7)) (f64_lit 22 (-7)) f0 (f64_lit 11 (-8))));
  ("glm-4.7-flashx", Literal (card (f64_lit 7 (-8)) (f64_lit 4 (-7)) f0 (f64_lit 1 (-8))));
  ("glm-4.6", Literal (card (f64_lit 6 (-7)) (f64_lit 22 (-7)) f0 (f64_lit 11 (-8))));
  ("glm-4.5", Literal (card (f64_lit 6 (-7)) (f64_lit 22 (-7)) f0 (f64_lit 11 (-8))));
  ("glm-4.5-x", Literal (card (f64_lit 22 (-7)) (f64_lit 89 (-7)) f0 (f64_lit 45 (-8))));
  ("glm-4.5-air", Literal (card (f64_lit 2 (-7)) (f64_lit 11 (-7)) f0 (f64_lit 3 (-8))));
  ("glm-4.5-airx", Literal (card (f64_lit 11 (-7)) (f64_lit 45 (-7)) f0 (f64_lit 22 (-8))));
  ("glm-4-32b-0414-128k", Literal (card (f64_lit 1 (-7)) (f64_lit 1 (-7)) f0 f0));
  ("glm-4.5-flash", Literal (card f0 f0 f0 f0));
  ("glm-4.7-flash", Literal (card f0 f0 f0 f0))
]%string.
Definition kimi_minimax_grok_prices : list (string * fallback_entry) := [
  ("kimi-k3", Literal (card (f64_lit 3 (-6)) (f64_lit 15 (-6)) f0 (f64_lit 3 (-7))));
  ("kimi-k2.6", Literal (card (f64_lit 95 (-8)) (f64_lit 4 (-6)) f0 (f64_lit 15 (-8))));
  ("kimi-for-coding", Literal (card (f64_lit 95 (-8)) (f64_lit 4 (-6)) f0 (f64_lit 15 (-8))));
  ("kimi-k2.5", Literal (card (f64_lit 6 (-7)) (f64_lit 3 (-6)) f0 (f64_lit 98 (-9))));
  ("kimi-k2-thinking",
    Literal (card (f64_lit 56 (-8)) (f64_lit 224 (-8)) f0 (f64_lit 14 (-8))));
  ("kimi-k2", Literal (card (f64_lit 56 (-8)) (f64_lit 224 (-8)) f0 (f64_lit 14 (-8))));
  ("minimax-m3", Literal (card (f64_lit 6 (-7)) (f64_lit 24 (-7)) f0 (f64_lit 12 (-8))));
  ("minimax-m2.7", Literal (card (f64_lit 3 (-7)) (f64_lit 12 (-7)) f0 (f64_lit 6 (-8))));
  ("minimax-m2.7-highspeed",
    Literal (card (f64_lit 6 (-7)) (f64_lit 24 (-7)) f0 (f64_lit 6 (-8))));
  ("minimax-m2.5", Literal (card (f64_lit 3 (-7)) (f64_lit 12 (-7)) f0 (f64_lit 3 (-8))));
  ("minimax-m2.1", Literal (card (f64_lit 3 (-7)) (f64_lit 12 (-7)) f0 (f64_lit 3 (-8))));
  ("minimax-m2", Literal (card (f64_lit 3 (-7)) (f64_lit 12 (-7)) f0 (f64_lit 3 (-8))));
  ("doubao-embedding-vision",
    Literal (set_image_input (f64_lit 252 (-9)) false (card (f64_lit 98 (-9)) f0 f0 f0)));
  ("grok-4.5", Literal (card (f64_lit 2 (-6)) (f64_lit 6 (-6)) f0 (f64_lit 5 (-7))));
  ("grok-4.3",
    Literal (set_long_context 1000000 (f64_lit 1 0) f0 (card (f64_lit 125 (-8))
        (f64_lit 25 (-7)) f0 (f64_lit 2 (-7)))));
  ("grok-build-0.1", Literal (card (f64_lit 1 (-6)) (f64_lit 2 (-6)) f0 (f64_lit 2 (-7))))
]%string.


Definition init_step (m : gmap string (string * ModelPricing)) (e : string * fallback_entry)
  : gmap string (string * ModelPricing) :=
  match e.2 with
  | Literal p => <[e.1 := (e.1, p)]> m
  | SameAs key => match m !! key with Some v => <[e.1 := v]> m | None => m end
  end.

Definition initFallbackPricing : gmap string (string * ModelPricing) :=
  foldl init_step ∅
    (claude_gemini_prices ++ openai_prices ++ deepseek_glm_prices ++ kimi_minimax_grok_prices).

(** ** The price of a model name *)

Definition contains_any (l : list string) (model : string) : bool := existsb (Contains model) l.
Definition is_any (l : list string) (model : string) : bool := existsb (String.eqb model) l.
Definition all_of (a b : string -> bool) (model : string) : bool := a model && b model.

(** The [if] statements of [getFallbackPricing] in order, each a test on the
    lower-cased name and the key its body returns; the statements nested under
    a model family test the family too. *)
Definition claude_rules : list ((string -> bool) * string) :=
  let opus := contains_any ["opus"] in
  let sonnet := contains_any ["sonnet"] in
  let haiku := contains_any ["haiku"] in
  [(all_of opus (contains_any ["opus-5"; "opus5"]), "claude-opus-5");
   (all_of opus (contains_any ["4.8"; "4-8"]), "claude-opus-4.8");
   (all_of opus (contains_any ["4.7"; "4-7"]), "claude-opus-4.7");
   (all_of opus (contains_any ["4.6"; "4-6"]), "claude-opus-4.6");
   (all_of opus (contains_any ["4.5"; "4-5"]), "claude-opus-4.5");
   (opus, "claude-3-opus");
   (all_of sonnet (λ m, Contains m "4" && negb (Contains m "3")), "claude-sonnet-4");
   (sonnet, "claude-3-5-sonnet");
   (all_of haiku (contains_any ["3-5"; "3.5"]), "claude-3-5-haiku");
   (haiku, "claude-3-haiku");
   (contains_any ["claude"], "claude-sonnet-4")]%string.

Definition gemini_deepseek_rules : list ((string -> bool) * string) :=
  [(contains_any ["gemini-3.1-pro"; "gemini-3-1-pro"], "gemini-3.1-pro");
   (contains_any ["gemini-3.6-flash"; "gemini-3-6-flash"], "gemini-3.6-flash");
   (contains_any ["deepseek-v4-flash"], "deepseek-v4-flash");
   (contains_any ["deepseek-v4-pro"], "deepseek-v4-pro");
   (contains_any ["deepseek-chat"; "deepseek-reasoner"], "deepseek-v4-flash")]%string.

Definition glm_rules : list ((string -> bool) * string) :=
  [(contains_any ["glm-5.2"], "glm-5.2");
   (contains_any ["glm-5.1"], "glm-5.1");
   (contains_any ["glm-5-turbo"; "glm-5turbo"], "glm-5-turbo");
   (contains_any ["glm-5"], "glm-5");
   (contains_any ["glm-4.7-flashx"], "glm-4.7-flashx");
   (contains_any ["glm-4.7-flash"], "glm-4.7-flash");
   (contains_any ["glm-4.7"], "glm-4.7");
   (contains_any ["glm-4.6"], "glm-4.6");
   (contains_any ["glm-4.5-flash"], "glm-4.5-flash");
   (contains_any ["glm-4.5-x"; "glm-4.5x"], "glm-4.5-x");
   (contains_any ["glm-4.5-airx"; "glm-4.5airx"], "glm-4.5-airx");
   (contains_any ["glm-4.5-air"; "glm-4.5air"], "glm-4.5-air");
   (contains_any ["glm-4.5"], "glm-4.5");
   (contains_any ["glm-4-32b"], "glm-4-32b-0414-128k")]%string.

Definition kimi_minimax_rules : list ((string -> bool) * string) :=
  [(contains_any ["kimi-for-coding"], "kimi-for-coding");
   (λ m, String.eqb m "kimi-k3" || HasSuffix m "/kimi-k3" || String.eqb m "k3"
         || String.eqb m "k3-256k" || HasSuffix m "/k3" || HasSuffix m "/k3-256k", "kimi-k3");
   (contains_any ["kimi-k2.6"; "kimi-k2-6"], "kimi-k2.6");
   (contains_any ["kimi-k2.5"; "kimi-k2-5"], "kimi-k2.5");
   (contains_any ["kimi-k2-thinking"; "kimi-k2-thinking-"], "kimi-k2-thinking");
   (contains_any ["kimi-k2"; "kimi/k2"], "kimi-k2");
   (contains_any ["minimax-m3"], "minimax-m3");
   (contains_any ["minimax-m2.7-highspeed"; "minimax-m2-7-highspeed"], "minimax-m2.7-highspeed");
   (contains_any ["minimax-m2.7"; "minimax-m2-7"], "minimax-m2.7");
   (contains_any ["minimax-m2.5"; "minimax-m2-5"], "minimax-m2.5");
   (contains_any ["minimax-m2.1"; "minimax-m2-1"], "minimax-m2.1");
   (contains_any ["minimax-m2"; "minimax-m-2"], "minimax-m2");
   (contains_any ["doubao-embedding-vision"], "doubao-embedding-vision")]%string.

(** The switch on the normalised OpenAI name: every case returns the entry of
    its own name, [gpt-5.3-codex-spark] excepted. *)
Definition openai_rules : list ((string -> bool) * string) :=
  [(is_any ["gpt-5.6-sol"], "gpt-5.6-sol"); (is_any ["gpt-5.6-terra"], "gpt-5.6-terra");
   (is_any ["gpt-5.6-luna"], "gpt-5.6-luna"); (is_any ["gpt-5.5-pro"], "gpt-5.5-pro");
   (is_any ["gpt-5.5"], "gpt-5.5"); (is_any ["gpt-5.4-mini"], "gpt-5.4-mini");
   (is_any ["gpt-5.4-nano"], "gpt-5.4-nano"); (is_any ["gpt-5.4"], "gpt-5.4");
   (is_any ["gpt-5.2"], "gpt-5.2");
   (is_any ["gpt-5.3-codex"; "gpt-5.3-codex-spark"], "gpt-5.3-codex")]%string.

Definition grok_rules : list ((string -> bool) * string) :=
  [(is_any ["grok"; "grok-latest"; "grok-4.5"; "grok-4.5-latest"; "grok-build-latest"], "grok-4.5");
   (is_any ["grok-4.3"; "grok-4.20-0309-reasoning"; "grok-4.20-0309-non-reasoning";
            "grok-4.20-multi-agent-0309"; "grok-4.20-reasoning"; "grok-4.20-non-reasoning"],
    "grok-4.3");
   (is_any ["grok-build"; "grok-build-0.1"; "grok-composer"; "grok-composer-2.5-fast";
            "composer-2.5"], "grok-build-0.1")]%string.

Fixpoint first_rule (rules : list ((string -> bool) * string)) (model : string) : option string :=
  match rules with
  | [] => None
  | (test, key) :: rest => if test model then Some key else first_rule rest model
  end.

Section Fallback.
Context {UC : UnicodeCase}.

Definition fallback_key (model : string) : option string :=
  let modelLower := ToLower model in
  match first_rule (claude_rules ++ gemini_deepseek_rules ++ glm_rules ++ kimi_minimax_rules)
          modelLower with
  | Some key => Some key
  | None =>
    let normalized := normalizeKnownOpenAICodexModel modelLower in
    match (if str_empty normalized then None else first_rule openai_rules normalized) with
    | Some key => Some key
    | None => first_rule grok_rules modelLower
    end
  end.

(** The pointer [getFallbackPricing] returns, with its identity. *)
Definition getFallbackPricing (model : string) : option (string * ModelPricing) :=
  match fallback_key model with
  | Some key => initFallbackPricing !! key
  | None => None
  end.

(** [s.fallbackPrices[candidate] == pricing]: pointer equality. *)
Definition points_to (pricing : string * ModelPricing) (candidate : string) : bool :=
  match initFallbackPricing !! candidate with
  | Some (id, _) => String.eqb id pricing.1
  | None => false
  end.

Definition longer_match (model : string) (pricing : string * ModelPricing) (matched candidate : string)
  : string :=
  if points_to pricing candidate && Contains model candidate && (str_len matched <? str_len candidate)
  then candidate else matched.
Definition least_match (pricing : string * ModelPricing) (matched candidate : string) : string :=
  if points_to pricing candidate && (str_empty matched || String.ltb candidate matched)
  then candidate else matched.

(** [order] is the order the two [range] loops meet the keys in. *)
Definition fallbackMatchedModel (order : list string) (model : string)
  (pricing : string * ModelPricing) : string :=
  match List.find (λ c, negb (str_empty c) && points_to pricing c)
          [model; normalizeKnownOpenAICodexModel model] with
  | Some candidate => candidate
  | None =>
    let matched := foldl (longer_match model pricing) ""%string order in
    if negb (str_empty matched) then matched
    else foldl (least_match pricing) ""%string order
  end.

End Fallback.
