(* ===== verification/Billing.v ===== *)
(** * Token and request costs

    [service/billing_service.go] and [service/model_pricing_resolver.go]: the
    official price of a model (catalogue, then the built-in table), its
    resolution with an administrator's override, and the cost of a request in
    the token, per-request and image modes.

    The price catalogue of [service/pricing_service.go] enters as the function
    [catalog]: absent, or the lookup it answers.  [map_order] is the order Go
    ranges over the built-in table in.  Go's [*CostBreakdown] results are
    values here; [usePriorityServiceTierPricing] and the rest never store the
    pointers they are given. *)

From S2P Require Import Prelude GoErrors Float64 GoTime GoStrings GoText PricingIntervals ModelPricing PricingCatalog OpenAIModels FallbackPrices.

(** ** Data *)

Record LiteLLMModelPricing := {
  InputCostPerToken : float64;
  InputCostPerTokenPriority : float64;
  OutputCostPerToken : float64;
  OutputCostPerTokenPriority : float64;
  CacheCreationInputTokenCost : float64;
  CacheCreationInputTokenCostPriority : float64;
  CacheCreationInputTokenCostAbove1hr : float64;
  CacheReadInputTokenCost : float64;
  CacheReadInputTokenCostPriority : float64;
  LongContextInputTokenThreshold : Z;
  LongContextInputCostMultiplier : float64;
  LongContextOutputCostMultiplier : float64;
  SupportsServiceTier : bool;
  LiteLLMProvider : string;
  LiteLLMMode : string;
  SupportsPromptCaching : bool;
  OutputCostPerImage : float64;
  OutputCostPerImageToken : float64;
  InputCostPerImageToken : float64;
  InputCostPerTokenExplicit : bool;
  OutputCostPerTokenExplicit : bool;
  CacheCreationInputTokenCostExplicit : bool;
  CacheReadInputTokenCostExplicit : bool;
  OutputCostPerImageExplicit : bool;
  OutputCostPerImageTokenExplicit : bool;
  InputCostPerImageTokenExplicit : bool;
  TokenPricingAbsent : bool
}.

Record LiteLLMPricingLookup := {
  lll_Pricing : option LiteLLMModelPricing;
  lll_MatchedModel : string;
  lll_Source : PricingSourceInfo
}.

Record ModelPricingLookup := {
  mpl_Pricing : ModelPricing;
  mpl_Mode : BillingMode;
  mpl_DefaultPerRequestPrice : float64;
  mpl_DefaultPerRequestPriceExplicit : bool;
  mpl_Source : PricingSourceInfo
}.

Record UsageTokens := {
  InputTokens : Z;
  ImageInputTokens : Z;
  OutputTokens : Z;
  CacheCreationTokens : Z;
  CacheReadTokens : Z;
  CacheCreation5mTokens : Z;
  CacheCreation1hTokens : Z;
  ImageOutputTokens : Z
}.

Record CostBreakdown := {
  InputCost : float64;
  ImageInputCost : float64;
  OutputCost : float64;
  ImageOutputCost : float64;
  CacheCreationCost : float64;
  CacheReadCost : float64;
  TotalCost : float64;
  ActualCost : float64;
  cb_BillingMode : string;
  LongContextBillingApplied : bool
}.

Definition set_billing_mode (mode : string) (bd : CostBreakdown) : CostBreakdown := {|
  InputCost := InputCost bd; ImageInputCost := ImageInputCost bd; OutputCost := OutputCost bd;
  ImageOutputCost := ImageOutputCost bd; CacheCreationCost := CacheCreationCost bd;
  CacheReadCost := CacheReadCost bd; TotalCost := TotalCost bd; ActualCost := ActualCost bd;
  cb_BillingMode := mode; LongContextBillingApplied := LongContextBillingApplied bd |}.

(** The breakdown of a cost that is not itemised. *)
Definition flat_cost (total actual : float64) (mode : string) : CostBreakdown := {|
  InputCost := f0; ImageInputCost := f0; OutputCost := f0; ImageOutputCost := f0;
  CacheCreationCost := f0; CacheReadCost := f0; TotalCost := total; ActualCost := actual;
  cb_BillingMode := mode; LongContextBillingApplied := false |}.
Definition zero_breakdown : CostBreakdown := flat_cost f0 f0 "".

Definition f64_multiplier (rateMultiplier : float64) : float64 :=
  if fltb rateMultiplier f0 then f0 else rateMultiplier.

(** [int] sums of token counts, and the context length they make. *)
Definition contextTokens (tokens : UsageTokens) : Z :=
  add64 (add64 (InputTokens tokens) (CacheCreationTokens tokens)) (CacheReadTokens tokens).

Section Billing.
Context {UC : UnicodeCase}.

(** ** Service tiers *)

Definition normalizeBillingServiceTier (serviceTier : string) : string :=
  ToLower (TrimSpace serviceTier).

Definition usePriorityServiceTierPricing (serviceTier : string) (pricing : ModelPricing) : bool :=
  if negb (String.eqb (normalizeBillingServiceTier serviceTier) "priority") then false else
  fgtb (InputPricePerTokenPriority pricing) f0 || fgtb (OutputPricePerTokenPriority pricing) f0
  || fgtb (CacheCreationPricePerTokenPriority pricing) f0
  || fgtb (CacheReadPricePerTokenPriority pricing) f0.

Definition serviceTierCostMultiplier (serviceTier : string) : float64 :=
  let tier := normalizeBillingServiceTier serviceTier in
  if String.eqb tier "priority" then f64_lit 2 0
  else if String.eqb tier "flex" then f64_lit 5 (-1) else f1.

(** ** The cost of tokens *)

Definition computeCacheCreationCost (pricing : ModelPricing) (tokens : UsageTokens)
  (price multiplier : float64) : float64 :=
  if SupportsCacheBreakdown pricing
     && (fgtb (CacheCreation5mPrice pricing) f0 || fgtb (CacheCreation1hPrice pricing) f0) then
    if (CacheCreation5mTokens tokens =? 0) && (CacheCreation1hTokens tokens =? 0)
       && (0 <? CacheCreationTokens tokens)
    then (f64_of_Z (CacheCreationTokens tokens) * CacheCreation5mPrice pricing * multiplier)%f64
    else (f64_of_Z (CacheCreation5mTokens tokens) * CacheCreation5mPrice pricing * multiplier
          + f64_of_Z (CacheCreation1hTokens tokens) * CacheCreation1hPrice pricing * multiplier)%f64
  else (f64_of_Z (CacheCreationTokens tokens) * price * multiplier)%f64.

Definition shouldApplySessionLongContextPricing (tokens : UsageTokens) (pricing : ModelPricing)
  : bool :=
  if LongContextInputThreshold pricing <=? 0 then false
  else if fleb (LongContextInputMultiplier pricing) f1
          && fleb (LongContextOutputMultiplier pricing) f1 then false
  else LongContextInputThreshold pricing <? contextTokens tokens.

(** The unit prices in force, with their multipliers. *)
Record unit_prices := {
  u_input : float64; u_output : float64; u_cache_read : float64; u_cache_creation : float64;
  u_cache_multiplier : float64; u_tier : float64
}.

Definition prefer_positive (priority standard : float64) : float64 :=
  if fgtb priority f0 then priority else standard.

Definition tier_prices (pricing : ModelPricing) (serviceTier : string) : unit_prices :=
  if usePriorityServiceTierPricing serviceTier pricing then {|
    u_input := prefer_positive (InputPricePerTokenPriority pricing) (InputPricePerToken pricing);
    u_output := prefer_positive (OutputPricePerTokenPriority pricing) (OutputPricePerToken pricing);
    u_cache_read :=
      prefer_positive (CacheReadPricePerTokenPriority pricing) (CacheReadPricePerToken pricing);
    u_cache_creation :=
      prefer_positive (CacheCreationPricePerTokenPriority pricing) (CacheCreationPricePerToken pricing);
    u_cache_multiplier := f1; u_tier := f1 |}
  else {|
    u_input := InputPricePerToken pricing; u_output := OutputPricePerToken pricing;
    u_cache_read := CacheReadPricePerToken pricing;
    u_cache_creation := CacheCreationPricePerToken pricing;
    u_cache_multiplier := f1; u_tier := serviceTierCostMultiplier serviceTier |}.

Definition long_context_prices (pricing : ModelPricing) (u : unit_prices) : unit_prices := {|
  u_input := (u_input u * LongContextInputMultiplier pricing)%f64;
  u_output := (u_output u * LongContextOutputMultiplier pricing)%f64;
  u_cache_read := (u_cache_read u * LongContextInputMultiplier pricing)%f64;
  u_cache_creation := u_cache_creation u;
  u_cache_multiplier := LongContextInputMultiplier pricing; u_tier := u_tier u |}.

(** The part of [computeTokenBreakdown] after the prices are chosen. *)
Definition charge_tokens (pricing : ModelPricing) (tokens : UsageTokens) (rateMultiplier : float64)
  (u : unit_prices) (baselineActual : option float64) : CostBreakdown :=
  let '(inputCost, imageInputCost) :=
    if 0 <? ImageInputTokens tokens then
      let text := sub64 (InputTokens tokens) (ImageInputTokens tokens) in
      let '(text, image) := if text <? 0 then (0, InputTokens tokens)
                            else (text, ImageInputTokens tokens) in
      let imagePrice := ImageInputPricePerToken pricing in
      let imagePrice := if feqb imagePrice f0 && negb (ImageInputPriceExplicit pricing)
                        then u_input u else imagePrice in
      ((f64_of_Z text * u_input u)%f64, (f64_of_Z image * imagePrice)%f64)
    else ((f64_of_Z (InputTokens tokens) * u_input u)%f64, f0) in
  let textOutput := sub64 (OutputTokens tokens) (ImageOutputTokens tokens) in
  let textOutput := if textOutput <? 0 then 0 else textOutput in
  let outputCost := (f64_of_Z textOutput * u_output u)%f64 in
  let imageOutputCost :=
    if 0 <? ImageOutputTokens tokens then
      let imgPrice := ImageOutputPricePerToken pricing in
      let imgPrice := if feqb imgPrice f0 && negb (ImageOutputPriceExplicit pricing)
                      then u_output u else imgPrice in
      (f64_of_Z (ImageOutputTokens tokens) * imgPrice)%f64
    else f0 in
  let cacheCreationCost :=
    computeCacheCreationCost pricing tokens (u_cache_creation u) (u_cache_multiplier u) in
  let cacheReadCost := (f64_of_Z (CacheReadTokens tokens) * u_cache_read u)%f64 in
  let scale c := if negb (feqb (u_tier u) f1) then (c * u_tier u)%f64 else c in
  let total := (scale inputCost + scale imageInputCost + scale outputCost + scale imageOutputCost
                + scale cacheCreationCost + scale cacheReadCost)%f64 in
  let actual := (total * rateMultiplier)%f64 in
  {| InputCost := scale inputCost; ImageInputCost := scale imageInputCost;
     OutputCost := scale outputCost; ImageOutputCost := scale imageOutputCost;
     CacheCreationCost := scale cacheCreationCost; CacheReadCost := scale cacheReadCost;
     TotalCost := total; ActualCost := actual; cb_BillingMode := "";
     LongContextBillingApplied :=
       match baselineActual with Some b => fgtb actual b | None => false end |}.

Definition computeTokenBreakdown (pricing : ModelPricing) (tokens : UsageTokens)
  (rateMultiplier : float64) (serviceTier : string) (applyLongCtx : bool) : CostBreakdown :=
  let rate := f64_multiplier rateMultiplier in
  let u := tier_prices pricing serviceTier in
  if applyLongCtx && shouldApplySessionLongContextPricing tokens pricing then
    (* the recursive call with applyLongCtx = false *)
    let baseline := charge_tokens pricing tokens (f64_multiplier rate) u None in
    charge_tokens pricing tokens rate (long_context_prices pricing u) (Some (ActualCost baseline))
  else charge_tokens pricing tokens rate u None.

(** ** Policy of the GPT-5 models *)

Definition applyModelSpecificPricingPolicy (model : string) (pricing : ModelPricing)
  : ModelPricing :=
  let normalized := normalizeKnownOpenAICodexModel model in
  let isGPT56 := isOpenAIGPT56Model normalized in
  let legacy := usesOpenAILegacyLongContextPricing normalized in
  if negb isGPT56 && negb legacy then pricing else
  let needsLongContext :=
    (isGPT56 || legacy)
    && ((LongContextInputThreshold pricing <=? 0) || fleb (LongContextInputMultiplier pricing) f0
        || fleb (LongContextOutputMultiplier pricing) f0) in
  let needsCacheCreation :=
    isGPT56 && negb (CacheCreationPriceExplicit pricing)
    && (fleb (CacheCreationPricePerToken pricing) f0
        || (fgtb (InputPricePerTokenPriority pricing) f0
            && fleb (CacheCreationPricePerTokenPriority pricing) f0)) in
  if negb needsLongContext && negb needsCacheCreation then pricing else
  let p :=
    if isGPT56 && negb (CacheCreationPriceExplicit pricing) then
      set_cache_creation
        (if fleb (CacheCreationPricePerToken pricing) f0
         then (InputPricePerToken pricing * f64_lit 125 (-2))%f64
         else CacheCreationPricePerToken pricing)
        (if fleb (CacheCreationPricePerTokenPriority pricing) f0
         then (InputPricePerTokenPriority pricing * f64_lit 125 (-2))%f64
         else CacheCreationPricePerTokenPriority pricing)
        (CacheCreation5mPrice pricing) (CacheCreation1hPrice pricing)
        (CacheCreationPriceExplicit pricing) pricing
    else pricing in
  set_long_context
    (if LongContextInputThreshold p <=? 0 then openAIGPT54LongContextInputThreshold
     else LongContextInputThreshold p)
    (if fleb (LongContextInputMultiplier p) f0 then openAIGPT54LongContextInputMultiplier
     else LongContextInputMultiplier p)
    (if fleb (LongContextOutputMultiplier p) f0 then openAIGPT54LongContextOutputMultiplier
     else LongContextOutputMultiplier p) p.

Definition liteLLMToModelPricing (pricing : LiteLLMModelPricing) : ModelPricing :=
  let price5m := CacheCreationInputTokenCost pricing in
  let price1h := CacheCreationInputTokenCostAbove1hr pricing in
  {| InputPricePerToken := InputCostPerToken pricing;
     InputPriceExplicit := InputCostPerTokenExplicit pricing;
     InputPricePerTokenPriority := InputCostPerTokenPriority pricing;
     ImageInputPricePerToken := InputCostPerImageToken pricing;
     ImageInputPriceExplicit := InputCostPerImageTokenExplicit pricing;
     OutputPricePerToken := OutputCostPerToken pricing;
     OutputPriceExplicit := OutputCostPerTokenExplicit pricing;
     OutputPricePerTokenPriority := OutputCostPerTokenPriority pricing;
     CacheCreationPricePerToken := CacheCreationInputTokenCost pricing;
     CacheCreationPricePerTokenPriority := CacheCreationInputTokenCostPriority pricing;
     CacheCreationPriceExplicit := CacheCreationInputTokenCostExplicit pricing;
     CacheReadPricePerToken := CacheReadInputTokenCost pricing;
     CacheReadPriceExplicit := CacheReadInputTokenCostExplicit pricing;
     CacheReadPricePerTokenPriority := CacheReadInputTokenCostPriority pricing;
     CacheCreation5mPrice := price5m; CacheCreation1hPrice := price1h;
     SupportsCacheBreakdown := fgtb price1h f0 && fgtb price1h price5m;
     LongContextInputThreshold := LongContextInputTokenThreshold pricing;
     LongContextInputMultiplier := LongContextInputCostMultiplier pricing;
     LongContextOutputMultiplier := LongContextOutputCostMultiplier pricing;
     ImageOutputPricePerToken := OutputCostPerImageToken pricing;
     ImageOutputPriceExplicit := OutputCostPerImageTokenExplicit pricing |}.

(** ** The official price of a model *)

Context (catalog : option (string -> option LiteLLMPricingLookup)) (map_order : list string).

Definition unavailable_for_model : error :=
  EWrap "%w for model: %s" ErrModelPricingUnavailable.

Definition catalog_lookup (model : string) : option (LiteLLMModelPricing * PricingSourceInfo) :=
  match catalog with
  | None => None
  | Some lookup =>
    match lookup model with
    | Some l => match lll_Pricing l with Some p => Some (p, lll_Source l) | None => None end
    | None => None
    end
  end.

Definition fallback_lookup (model : string) : result ModelPricingLookup :=
  match getFallbackPricing model with
  | Some fallback => Ok {|
      mpl_Pricing := applyModelSpecificPricingPolicy model fallback.2;
      mpl_Mode := BillingModeToken;
      mpl_DefaultPerRequestPrice := f0; mpl_DefaultPerRequestPriceExplicit := false;
      mpl_Source := {| src_Type := PricingSourceCodeFallback; src_Name := "XCode built-in pricing";
        src_URL := ""; src_MatchedModel := fallbackMatchedModel map_order model fallback;
        src_UpdatedAt := None |} |}
  | None => Err unavailable_for_model
  end.

Definition LookupModelPricing (model : string) : result ModelPricingLookup :=
  let model := ToLower (TrimSpace model) in
  match catalog_lookup model with
  | Some (p, source) =>
    if TokenPricingAbsent p && (fgtb (OutputCostPerImage p) f0 || OutputCostPerImageExplicit p)
    then Ok {|
      mpl_Pricing := liteLLMToModelPricing p; mpl_Mode := BillingModeImage;
      mpl_DefaultPerRequestPrice := OutputCostPerImage p;
      mpl_DefaultPerRequestPriceExplicit := OutputCostPerImageExplicit p;
      mpl_Source := source |}
    else if negb (TokenPricingAbsent p) then Ok {|
      mpl_Pricing := applyModelSpecificPricingPolicy model (liteLLMToModelPricing p);
      mpl_Mode := BillingModeToken;
      mpl_DefaultPerRequestPrice := f0; mpl_DefaultPerRequestPriceExplicit := false;
      mpl_Source := source |}
    else fallback_lookup model
  | None => fallback_lookup model
  end.

Definition GetModelPricing (model : string) : result ModelPricing :=
  let model := ToLower model in
  match catalog_lookup model with
  | Some (p, _) =>
    if negb (TokenPricingAbsent p)
    then Ok (applyModelSpecificPricingPolicy model (liteLLMToModelPricing p))
    else match getFallbackPricing model with
         | Some fallback => Ok (applyModelSpecificPricingPolicy model fallback.2)
         | None => Err unavailable_for_model end
  | None =>
    match getFallbackPricing model with
    | Some fallback => Ok (applyModelSpecificPricingPolicy model fallback.2)
    | None => Err unavailable_for_model end
  end.

Definition GetModelPricingWithOverride (model : string)
  (pricingOverride : option ModelPricingOverrideInput) : result ModelPricing :=
  let? pricing := GetModelPricing model in
  match pricingOverride with
  | None => Ok pricing
  | Some o => Ok (apply_flat_override o pricing)
  end.

(** ** Resolving a price *)

(** [resolveBasePricing]: the lookup with the name of its source. *)
Definition resolveBasePricing (model : string) : result (ModelPricingLookup * string) :=
  let? lookup := LookupModelPricing model in
  Ok (lookup, if String.eqb (src_Type (mpl_Source lookup)) PricingSourceCodeFallback
              then PricingSourceFallback else PricingSourceLiteLLM).

Definition unavailable_source (model : string) : PricingSourceInfo :=
  Build_PricingSourceInfo PricingSourceUnavailable "Unavailable" "" model None.

(** The assignments of [resolveWithOverride] to a resolved override when the
    model has an official price. *)
Definition with_official (override : ModelPricingOverride) (lookup : ModelPricingLookup)
  (r : ResolvedPricing) : ResolvedPricing :=
  let other_mode := negb (String.eqb (mpl_Mode lookup) (Mode r)) in
  let inherit := negb other_mode && negb (bool_decide (is_Some (ov_PerRequestPrice override))) in
  {| Mode := Mode r;
     BasePricing := if other_mode then Some (applyOverridePrices override zero_pricing)
                    else BasePricing r;
     OfficialPricing := OfficialPricing r; OfficialMode := mpl_Mode lookup;
     OfficialSource := OfficialSource r; MatchedOverride := MatchedOverride r;
     Intervals := Intervals r; RequestTiers := RequestTiers r;
     OfficialIntervals := OfficialIntervals r; OfficialRequestTiers := OfficialRequestTiers r;
     DefaultPerRequestPrice :=
       if inherit then mpl_DefaultPerRequestPrice lookup else DefaultPerRequestPrice r;
     DefaultPerRequestPriceExplicit :=
       if inherit then mpl_DefaultPerRequestPriceExplicit lookup else DefaultPerRequestPriceExplicit r;
     OfficialDefaultPerRequestPrice := mpl_DefaultPerRequestPrice lookup;
     OfficialDefaultPerRequestPriceExplicit := mpl_DefaultPerRequestPriceExplicit lookup;
     Source := Source r;
     rp_SupportsCacheBreakdown := if other_mode then false else rp_SupportsCacheBreakdown r |}.

Definition resolveWithOverride (input : PricingInput) (override : option ModelPricingOverride)
  : result ResolvedPricing :=
  let pricingModel := pricingModelForInput input in
  match resolveBasePricing pricingModel, override with
  | Ok (lookup, _), Some override =>
    Ok (with_official override lookup
          (pricingOverrideToResolved override (Some (mpl_Pricing lookup)) (mpl_Source lookup)))
  | Err e, Some override =>
    if negb (error_is e ErrModelPricingUnavailable) then Err e else
    Ok (pricingOverrideToResolved override None (unavailable_source pricingModel))
  | Err e, None => Err e
  | Ok (lookup, source), None => Ok {|
      Mode := mpl_Mode lookup;
      BasePricing := Some (mpl_Pricing lookup);
      OfficialPricing := Some (mpl_Pricing lookup);
      OfficialMode := mpl_Mode lookup; OfficialSource := mpl_Source lookup;
      MatchedOverride := None; Intervals := []; RequestTiers := [];
      OfficialIntervals := []; OfficialRequestTiers := [];
      DefaultPerRequestPrice := mpl_DefaultPerRequestPrice lookup;
      DefaultPerRequestPriceExplicit := mpl_DefaultPerRequestPriceExplicit lookup;
      OfficialDefaultPerRequestPrice := mpl_DefaultPerRequestPrice lookup;
      OfficialDefaultPerRequestPriceExplicit := mpl_DefaultPerRequestPriceExplicit lookup;
      Source := source;
      rp_SupportsCacheBreakdown := SupportsCacheBreakdown (mpl_Pricing lookup) |}
  end.

(** [ModelPricingResolver.Resolve] and [ResolveBatch] over a repository. *)
Definition Resolve {S} {Repo : ModelPricingOverrideRepository S} (input : PricingInput)
  : M S ResolvedPricing :=
  let! override := ResolveForPricingInput input in
  mlift (resolveWithOverride input override).

Definition unavailable_resolved (input : PricingInput) : ResolvedPricing := {|
  Mode := ""; BasePricing := None; OfficialPricing := None; OfficialMode := "";
  OfficialSource := unavailable_source (pricingModelForInput input);
  MatchedOverride := None; Intervals := []; RequestTiers := []; OfficialIntervals := [];
  OfficialRequestTiers := []; DefaultPerRequestPrice := f0;
  DefaultPerRequestPriceExplicit := false; OfficialDefaultPerRequestPrice := f0;
  OfficialDefaultPerRequestPriceExplicit := false; Source := PricingSourceUnavailable;
  rp_SupportsCacheBreakdown := false |}.

(** One entry of a batch: an unavailable price is reported in place. *)
Definition batch_entry (input : PricingInput) (r : result ResolvedPricing)
  : result ResolvedPricing :=
  match r with
  | Err e => if error_is e ErrModelPricingUnavailable then Ok (unavailable_resolved input) else Err e
  | Ok item => Ok item
  end.

Fixpoint resolve_batch_loop (snapshot : gmap string (list ModelPricingOverride))
  (inputs : list PricingInput) : result (list ResolvedPricing) :=
  match inputs with
  | [] => Ok []
  | input :: rest =>
    let override := snapshot_ResolveForPricingInput snapshot input in
    let? item := batch_entry input (resolveWithOverride input override) in
    let? items := resolve_batch_loop snapshot rest in
    Ok (item :: items)
  end.

Definition ResolveBatch {S} {Repo : ModelPricingOverrideRepository S} (inputs : list PricingInput)
  : M S (list ResolvedPricing) :=
  let! snapshot := LoadSnapshot in
  mlift (resolve_batch_loop snapshot inputs).

(** ** Costs *)

Record CostInput := {
  ci_Model : string;
  ci_Adapter : string;
  ci_PlatformCode : string;
  ci_PublicModel : string;
  ci_Tokens : UsageTokens;
  ci_RequestCount : Z;
  ci_SizeTier : string;
  ci_RateMultiplier : float64;
  ci_ServiceTier : string;
  ci_Resolved : option ResolvedPricing;
  ci_LongContextBillingEnabled : option bool
}.

Definition calculateCostInternalWithPolicy (model : string) (tokens : UsageTokens)
  (rateMultiplier : float64) (serviceTier : string)
  (pricingOverride : option ModelPricingOverrideInput) (longContextBillingEnabled : bool)
  : result CostBreakdown :=
  let? pricing := match pricingOverride with
                  | Some _ => GetModelPricingWithOverride model pricingOverride
                  | None => GetModelPricing model end in
  Ok (computeTokenBreakdown pricing tokens rateMultiplier serviceTier longContextBillingEnabled).

Definition CalculateCost (model : string) (tokens : UsageTokens) (rateMultiplier : float64)
  : result CostBreakdown :=
  calculateCostInternalWithPolicy model tokens rateMultiplier "" None true.

Definition CalculateCostWithServiceTier (model : string) (tokens : UsageTokens)
  (rateMultiplier : float64) (serviceTier : string) : result CostBreakdown :=
  calculateCostInternalWithPolicy model tokens rateMultiplier serviceTier None true.

(** [CalculateCostWithConfig]; [configured] is [cfg.Default.RateMultiplier]. *)
Definition CalculateCostWithConfig (configured : float64) (model : string) (tokens : UsageTokens)
  : result CostBreakdown :=
  CalculateCost model tokens (if fleb configured f0 then f1 else configured).

Definition only_text (input output : Z) : UsageTokens := {|
  InputTokens := input; ImageInputTokens := 0; OutputTokens := output; CacheCreationTokens := 0;
  CacheReadTokens := 0; CacheCreation5mTokens := 0; CacheCreation1hTokens := 0;
  ImageOutputTokens := 0 |}.

Definition GetEstimatedCost (configured : float64) (model : string) (input output : Z)
  : result float64 :=
  let? breakdown := CalculateCostWithConfig configured model (only_text input output) in
  Ok (ActualCost breakdown).

Definition calculatePerRequestCost (resolved : ResolvedPricing) (input : CostInput)
  : result CostBreakdown :=
  let count := if ci_RequestCount input <=? 0 then 1 else ci_RequestCount input in
  let matched := if negb (str_empty (ci_SizeTier input))
                 then GetRequestTierPrice resolved (ci_SizeTier input) else None in
  let matched := match matched with
                 | Some p => Some p
                 | None => GetRequestTierPriceByContext resolved (contextTokens (ci_Tokens input))
                 end in
  let? unitPrice :=
    match matched with
    | Some p => Ok p
    | None =>
      if negb (DefaultPerRequestPriceExplicit resolved)
      then Err (EWrap "no per-request pricing available for model: %s: %w" ErrModelPricingUnavailable)
      else Ok (DefaultPerRequestPrice resolved)
    end in
  let totalCost := (unitPrice * f64_of_Z count)%f64 in
  Ok (flat_cost totalCost (totalCost * ci_RateMultiplier input)%f64 "").

Definition calculateTokenCost (resolved : ResolvedPricing) (input : CostInput)
  : result CostBreakdown :=
  match GetIntervalPricing resolved (contextTokens (ci_Tokens input)) with
  | None => Err (EWrap "no pricing available for model: %s: %w" ErrModelPricingUnavailable)
  | Some pricing =>
    if negb (tokenPricingValuesValid (Some pricing))
    then Err (EWrap "invalid token pricing for model: %s: %w" ErrModelPricingUnavailable) else
    if (if requiresIndependentSalePricing resolved
        then negb (isCompleteTokenPricing (Some pricing))
        else negb (isCoreTokenPricingAvailable (Some pricing)))
    then Err (EWrap "incomplete token pricing for model: %s: %w" ErrModelPricingUnavailable) else
    let pricing := applyModelSpecificPricingPolicy (ci_Model input) pricing in
    let applyLongCtx := is_nil (Intervals resolved)
                        && default true (ci_LongContextBillingEnabled input) in
    Ok (computeTokenBreakdown pricing (ci_Tokens input) (ci_RateMultiplier input)
          (ci_ServiceTier input) applyLongCtx)
  end.

Definition set_rate (rate : float64) (input : CostInput) : CostInput := {|
  ci_Model := ci_Model input; ci_Adapter := ci_Adapter input;
  ci_PlatformCode := ci_PlatformCode input; ci_PublicModel := ci_PublicModel input;
  ci_Tokens := ci_Tokens input; ci_RequestCount := ci_RequestCount input;
  ci_SizeTier := ci_SizeTier input; ci_RateMultiplier := rate;
  ci_ServiceTier := ci_ServiceTier input; ci_Resolved := ci_Resolved input;
  ci_LongContextBillingEnabled := ci_LongContextBillingEnabled input |}.

(** What [CalculateCostUnified] does once the price is resolved. *)
Definition charge_resolved (resolved : ResolvedPricing) (input : CostInput)
  : result CostBreakdown :=
  let? _ := validateResolvedPricingAvailable (Some resolved) in
  let input := set_rate (f64_multiplier (ci_RateMultiplier input)) input in
  let? breakdown := if is_request_mode (Mode resolved)
                    then calculatePerRequestCost resolved input
                    else calculateTokenCost resolved input in
  Ok (set_billing_mode
        (if str_empty (Mode resolved) then BillingModeToken else Mode resolved) breakdown).

(** [has_resolver] is whether [input.Resolver] is set. *)
Definition CalculateCostUnified {S} {Repo : ModelPricingOverrideRepository S}
  (has_resolver : bool) (input : CostInput) : M S CostBreakdown :=
  if negb has_resolver then
    mlift (calculateCostInternalWithPolicy (ci_Model input) (ci_Tokens input)
             (ci_RateMultiplier input) (ci_ServiceTier input) None
             (default true (ci_LongContextBillingEnabled input)))
  else
    let! resolved := match ci_Resolved input with
                     | Some r => mret r
                     | None => Resolve {| pin_Model := ci_Model input;
                         pin_Adapter := ci_Adapter input;
                         pin_PlatformCode := ci_PlatformCode input;
                         pin_PublicModel := ci_PublicModel input |} end in
    mlift (charge_resolved resolved input).

(** ** The two-rate long context *)

Definition long_context_split (tokens : UsageTokens) (threshold : Z) : UsageTokens * UsageTokens :=
  let '(inCache, inInput, outCache, outInput) :=
    if threshold <=? CacheReadTokens tokens
    then (threshold, 0, sub64 (CacheReadTokens tokens) threshold, InputTokens tokens)
    else let inInput := sub64 threshold (CacheReadTokens tokens) in
         (CacheReadTokens tokens, inInput, 0, sub64 (InputTokens tokens) inInput) in
  ({| InputTokens := inInput; ImageInputTokens := 0; OutputTokens := OutputTokens tokens;
      CacheCreationTokens := CacheCreationTokens tokens; CacheReadTokens := inCache;
      CacheCreation5mTokens := CacheCreation5mTokens tokens;
      CacheCreation1hTokens := CacheCreation1hTokens tokens;
      ImageOutputTokens := ImageOutputTokens tokens |},
   {| InputTokens := outInput; ImageInputTokens := 0; OutputTokens := 0; CacheCreationTokens := 0;
      CacheReadTokens := outCache; CacheCreation5mTokens := 0; CacheCreation1hTokens := 0;
      ImageOutputTokens := 0 |}).

Definition merge_costs (a b : CostBreakdown) : CostBreakdown := {|
  InputCost := (InputCost a + InputCost b)%f64;
  ImageInputCost := (ImageInputCost a + ImageInputCost b)%f64;
  OutputCost := OutputCost a; ImageOutputCost := ImageOutputCost a;
  CacheCreationCost := CacheCreationCost a;
  CacheReadCost := (CacheReadCost a + CacheReadCost b)%f64;
  TotalCost := (TotalCost a + TotalCost b)%f64;
  ActualCost := (ActualCost a + ActualCost b)%f64;
  cb_BillingMode := ""; LongContextBillingApplied := fgtb (ActualCost b) f0 |}.

Definition CalculateCostWithLongContext (model : string) (tokens : UsageTokens)
  (rateMultiplier : float64) (threshold : Z) (extraMultiplier : float64)
  : result CostBreakdown :=
  if (threshold <=? 0) || fleb extraMultiplier f1 then CalculateCost model tokens rateMultiplier else
  let total := add64 (CacheReadTokens tokens) (InputTokens tokens) in
  if total <=? threshold then CalculateCost model tokens rateMultiplier else
  let '(inRange, outRange) := long_context_split tokens threshold in
  let? inRangeCost := CalculateCost model inRange rateMultiplier in
  match CalculateCost model outRange (rateMultiplier * extraMultiplier)%f64 with
  | Ok outRangeCost => Ok (merge_costs inRangeCost outRangeCost)
  | Err e => Err (EWrap "out-range cost: %w" e)
  end.

Definition IsModelSupported (model : string) : bool :=
  contains_any ["claude"; "opus"; "sonnet"; "haiku"]%string (ToLower model).

End Billing.
