(* ===== verification/BillingProps.v ===== *)
(** * Properties of the costs

    What [Billing] promises: costs that are never below zero, as long as the
    long-context multipliers are not, a price for
    every request of a validated rule, a rate multiplier that scales the
    charged amount only, and the agreement of the code's parallel paths. *)

From S2P Require Import Prelude GoErrors Float64 GoTime GoStrings GoText PricingIntervals ModelPricing PricingCatalog OpenAIModels FallbackPrices Billing.

Lemma Forall2_impl_in {A B} (P Q : A -> B -> Prop) l k :
  Forall2 P l k -> (∀ x y, x ∈ l -> y ∈ k -> P x y -> Q x y) -> Forall2 Q l k.
Proof.
  induction 1 as [|x y l k Hxy _ IH]; intros H; constructor.
  - apply H; [by left..|done].
  - apply IH. intros; apply H; [by right..|done].
Qed.

Section Costs.
Context {UC : UnicodeCase}.

(** Token counts as a usage record holds them. *)
Definition tokens_ok (t : UsageTokens) : Prop :=
  Forall (λ n, 0 <= n < 2 ^ 60)
    [InputTokens t; ImageInputTokens t; OutputTokens t; CacheCreationTokens t; CacheReadTokens t;
     CacheCreation5mTokens t; CacheCreation1hTokens t; ImageOutputTokens t].

Definition multipliers_ok (p : ModelPricing) : Prop :=
  not_neg (LongContextInputMultiplier p) /\ not_neg (LongContextOutputMultiplier p).

Definition unit_prices_ok (u : unit_prices) : Prop :=
  not_neg (u_input u) /\ not_neg (u_output u) /\ not_neg (u_cache_read u) /\
  not_neg (u_cache_creation u) /\ not_neg (u_cache_multiplier u) /\ not_neg (u_tier u).

Definition cost_items (bd : CostBreakdown) : list float64 :=
  [InputCost bd; ImageInputCost bd; OutputCost bd; ImageOutputCost bd; CacheCreationCost bd;
   CacheReadCost bd; TotalCost bd; ActualCost bd].

Lemma f64_multiplier_not_neg r : not_neg (f64_multiplier r).
Proof. unfold f64_multiplier. destruct (fltb r f0) eqn:E; [done|exact E]. Qed.

Lemma valid_prices p :
  tokenPricingValuesValid (Some p) = true -> Forall not_neg (price_values p).
Proof.
  rewrite tokenPricingValuesValid_iff. intros H. eapply Forall_impl; [exact H|]. by intros ? [_ ?].
Qed.

Ltac not_neg_tac := repeat first
  [ assumption | apply fadd_not_neg | apply fmul_not_neg | apply f64_of_Z_not_neg
  | apply not_neg_f0 | apply not_neg_f1 | apply f64_multiplier_not_neg ].

Lemma prefer_positive_not_neg a b : not_neg a -> not_neg b -> not_neg (prefer_positive a b).
Proof. unfold prefer_positive. by destruct (fgtb a f0). Qed.

Lemma serviceTierCostMultiplier_not_neg tier : not_neg (serviceTierCostMultiplier tier).
Proof. unfold serviceTierCostMultiplier. repeat case_match; vm_compute; done. Qed.

Lemma tier_prices_ok p tier :
  Forall not_neg (price_values p) -> unit_prices_ok (tier_prices p tier).
Proof.
  intros H. unfold price_values in H. rewrite !Forall_cons in H. destruct_and!.
  unfold tier_prices, unit_prices_ok.
  destruct (usePriorityServiceTierPricing tier p); cbn [u_input u_output u_cache_read
    u_cache_creation u_cache_multiplier u_tier].
  - split_and!; try (by apply prefer_positive_not_neg); done.
  - split_and!; try done. apply serviceTierCostMultiplier_not_neg.
Qed.

Lemma long_context_prices_ok p u :
  multipliers_ok p -> unit_prices_ok u -> unit_prices_ok (long_context_prices p u).
Proof.
  intros [??] (?&?&?&?&?&?). unfold unit_prices_ok, long_context_prices; simpl.
  split_and!; not_neg_tac.
Qed.

Lemma sub64_nonneg a b : 0 <= a < 2 ^ 60 -> 0 <= b < 2 ^ 60 -> sub64 a b = a - b.
Proof. intros. unfold sub64. apply wrap64_id. unfold in_int64, min_int64, max_int64. lia. Qed.

Lemma cache_creation_not_neg p t price mult :
  Forall not_neg (price_values p) -> tokens_ok t -> not_neg price -> not_neg mult ->
  not_neg (computeCacheCreationCost p t price mult).
Proof.
  intros H Ht Hp Hm. unfold price_values in H. rewrite !Forall_cons in H.
  unfold tokens_ok in Ht. rewrite !Forall_cons in Ht. destruct_and!.
  unfold computeCacheCreationCost. repeat case_match; not_neg_tac; lia.
Qed.

(** The two parts an input or output count is cut into are counts. *)
Lemma charge_tokens_not_neg p t rate u b :
  Forall not_neg (price_values p) -> tokens_ok t -> unit_prices_ok u -> not_neg rate ->
  Forall not_neg (cost_items (charge_tokens p t rate u b)).
Proof.
  intros Hp Ht (?&?&?&?&?&?) Hr.
  pose proof (cache_creation_not_neg p t (u_cache_creation u) (u_cache_multiplier u) Hp Ht) as Hc.
  pose proof Ht as Ht'. unfold tokens_ok in Ht'. rewrite !Forall_cons in Ht'.
  pose proof Hp as Hp'. unfold price_values in Hp'. rewrite !Forall_cons in Hp'. destruct_and!.
  specialize (Hc ltac:(done) ltac:(done)).
  unfold charge_tokens. rewrite !sub64_nonneg by done.
  set (pin := if 0 <? ImageInputTokens t then _ else _).
  assert (not_neg pin.1 /\ not_neg pin.2) as [Hi1 Hi2].
  { subst pin. destruct (0 <? ImageInputTokens t); [|split; not_neg_tac; lia].
    cbv zeta. destruct (InputTokens t - ImageInputTokens t <? 0) eqn:E; cbn [fst snd];
      destruct (_ && _); split; not_neg_tac; bool_lia. }
  destruct pin as [inc imc]. cbn [fst snd] in Hi1, Hi2.
  set (oc := (f64_of_Z _ * u_output u)%f64).
  assert (not_neg oc) as Ho.
  { subst oc. destruct (OutputTokens t - ImageOutputTokens t <? 0) eqn:E; not_neg_tac; bool_lia. }
  set (ic := if 0 <? ImageOutputTokens t then _ else _).
  assert (not_neg ic) as Hio.
  { subst ic. destruct (0 <? ImageOutputTokens t); [|done].
    cbv zeta. destruct (_ && _); not_neg_tac; lia. }
  clearbody oc ic. unfold cost_items.
  cbn [InputCost ImageInputCost OutputCost ImageOutputCost CacheCreationCost CacheReadCost
       TotalCost ActualCost].
  destruct (negb (feqb (u_tier u) f1)).
  all: assert (not_neg (f64_of_Z (CacheReadTokens t) * u_cache_read u)%f64) by (not_neg_tac; lia).
  all: repeat (apply Forall_cons; split); try apply Forall_nil_2; not_neg_tac.
Qed.

Lemma breakdown_not_neg p t rate tier l :
  Forall not_neg (price_values p) -> tokens_ok t ->
  (l = true -> multipliers_ok p) ->
  Forall not_neg (cost_items (computeTokenBreakdown p t rate tier l)).
Proof.
  intros Hp Ht Hm. unfold computeTokenBreakdown.
  pose proof (tier_prices_ok p tier Hp) as Hu.
  destruct (l && shouldApplySessionLongContextPricing t p) eqn:E.
  - apply andb_true_iff in E as [-> _].
    apply charge_tokens_not_neg; try done; [apply long_context_prices_ok; auto|].
    apply f64_multiplier_not_neg.
  - apply charge_tokens_not_neg; try done. apply f64_multiplier_not_neg.
Qed.

Lemma policy_not_neg m p :
  Forall not_neg (price_values p) ->
  Forall not_neg (price_values (applyModelSpecificPricingPolicy m p)).
Proof.
  intros H. unfold applyModelSpecificPricingPolicy.
  destruct (_ && _); [done|]. destruct (_ && _); [done|].
  pose proof H as H'. unfold price_values in H'. rewrite !Forall_cons in H'. destruct_and!.
  assert (not_neg (f64_lit 125 (-2))) by (vm_compute; done).
  assert (∀ a b c : float64, not_neg a -> not_neg b -> not_neg (if fleb c f0 then a else b)) as Hif
    by (intros a b c; by destruct (fleb c f0)).
  cbv zeta. destruct (_ && _); [|exact H].
  unfold price_values, set_long_context, set_cache_creation.
  cbn [InputPricePerToken InputPricePerTokenPriority ImageInputPricePerToken OutputPricePerToken
       OutputPricePerTokenPriority ImageOutputPricePerToken CacheCreationPricePerToken
       CacheCreationPricePerTokenPriority CacheReadPricePerToken CacheReadPricePerTokenPriority
       CacheCreation5mPrice CacheCreation1hPrice].
  repeat (apply Forall_cons; split); try apply Forall_nil_2; try assumption.
  all: apply Hif; not_neg_tac.
Qed.

Lemma policy_multipliers m p :
  multipliers_ok p -> multipliers_ok (applyModelSpecificPricingPolicy m p).
Proof.
  intros [Hi Ho]. unfold applyModelSpecificPricingPolicy.
  destruct (_ && _); [done|]. destruct (_ && _); [done|]. cbv zeta.
  set (q := if _ && _ then _ else p).
  assert (LongContextInputMultiplier q = LongContextInputMultiplier p) as E1
    by (subst q; by destruct (_ && _)).
  assert (LongContextOutputMultiplier q = LongContextOutputMultiplier p) as E2
    by (subst q; by destruct (_ && _)).
  clearbody q. unfold multipliers_ok, set_long_context.
  cbn [LongContextInputMultiplier LongContextOutputMultiplier]. rewrite E1, E2.
  split; destruct (fleb _ f0); try assumption; vm_compute; reflexivity.
Qed.

Lemma charge_tokens_items p t rate rate' u b b' :
  let bd := charge_tokens p t rate u b in
  let bd' := charge_tokens p t rate' u b' in
  [InputCost bd; ImageInputCost bd; OutputCost bd; ImageOutputCost bd; CacheCreationCost bd;
   CacheReadCost bd; TotalCost bd] =
  [InputCost bd'; ImageInputCost bd'; OutputCost bd'; ImageOutputCost bd'; CacheCreationCost bd';
   CacheReadCost bd'; TotalCost bd'].
Proof.
  cbv zeta. unfold charge_tokens. destruct (if 0 <? ImageInputTokens t then _ else _) as [i m].
  cbv zeta. cbn [InputCost ImageInputCost OutputCost ImageOutputCost CacheCreationCost CacheReadCost
    TotalCost]. reflexivity.
Qed.

Lemma charge_tokens_actual p t rate u b :
  ActualCost (charge_tokens p t rate u b) = (TotalCost (charge_tokens p t rate u b) * rate)%f64.
Proof.
  unfold charge_tokens. destruct (if 0 <? ImageInputTokens t then _ else _) as [i m].
  cbv zeta. cbn [ActualCost TotalCost]. reflexivity.
Qed.

Lemma calculateTokenCost_inv r input bd :
  calculateTokenCost r input = Ok bd ->
  ∃ p, GetIntervalPricing r (contextTokens (ci_Tokens input)) = Some p /\
    tokenPricingValuesValid (Some p) = true /\
    bd = computeTokenBreakdown (applyModelSpecificPricingPolicy (ci_Model input) p)
           (ci_Tokens input) (ci_RateMultiplier input) (ci_ServiceTier input)
           (is_nil (Intervals r) && default true (ci_LongContextBillingEnabled input)).
Proof.
  unfold calculateTokenCost. destruct (GetIntervalPricing _ _) as [p|]; [|done].
  destruct (tokenPricingValuesValid _) eqn:Ev; [|discriminate]. cbn [negb].
  destruct (if requiresIndependentSalePricing r then _ else _); [discriminate|].
  intros H. injection H as <-. exists p. split_and!; [reflexivity|exact Ev|reflexivity].
Qed.

(** C38. A token-mode charge is never below zero in any of its items, whatever
    rate multiplier, service tier or image share the request has, when its token
    counts are not negative (and below 2^60) and the long-context multipliers of
    its base price are not: the checks before the charge leave no negative
    price, but the multipliers are not among what they check, and
    [negative_multiplier_pays_the_user] shows what one below zero does. *)
Theorem token_charge_not_negative r input bd :
  charge_resolved r input = Ok bd -> is_request_mode (Mode r) = false ->
  tokens_ok (ci_Tokens input) ->
  (∀ b, BasePricing r = Some b -> multipliers_ok b) ->
  Forall not_neg (cost_items bd).
Proof.
  unfold charge_resolved. intros H Hmode Ht Hm.
  apply rbind_Ok in H as (_ & _ & H). rewrite Hmode in H. apply rbind_Ok in H as (bd' & Hc & [= <-]).
  change (Forall not_neg (cost_items bd')).
  apply calculateTokenCost_inv in Hc as (p & Hp & Hv & ->).
  apply breakdown_not_neg; [by apply policy_not_neg, valid_prices|done|].
  intros Hl. apply andb_true_iff in Hl as [Hn _]. cbn [set_rate ci_Tokens] in Hp.
  unfold GetIntervalPricing in Hp. rewrite Hn in Hp. by apply policy_multipliers, Hm.
Qed.

(** The rate multiplier scales the charged amount and nothing else: every
    itemised cost and the total are those of any other multiplier, and the
    charge is the total times the multiplier, a negative one counting as zero. *)
Theorem rate_scales_charge_only p t rate rate' tier l :
  let bd := computeTokenBreakdown p t rate tier l in
  let bd' := computeTokenBreakdown p t rate' tier l in
  [InputCost bd; ImageInputCost bd; OutputCost bd; ImageOutputCost bd; CacheCreationCost bd;
   CacheReadCost bd; TotalCost bd] =
  [InputCost bd'; ImageInputCost bd'; OutputCost bd'; ImageOutputCost bd'; CacheCreationCost bd';
   CacheReadCost bd'; TotalCost bd'] /\
  ActualCost bd = (TotalCost bd * f64_multiplier rate)%f64.
Proof.
  cbv zeta. unfold computeTokenBreakdown.
  destruct (l && _); split; (apply charge_tokens_items || apply charge_tokens_actual).
Qed.

(** ** Every validated rule prices its requests *)

Lemma apply_override_complete ov p :
  tokenPriceAvailable (ov_InputPrice ov) None (λ p, (InputPricePerToken p, InputPriceExplicit p)) = true ->
  tokenPriceAvailable (ov_OutputPrice ov) None (λ p, (OutputPricePerToken p, OutputPriceExplicit p)) = true ->
  tokenPriceAvailable (ov_CacheWritePrice ov) None
    (λ p, (CacheCreationPricePerToken p, CacheCreationPriceExplicit p)) = true ->
  tokenPriceAvailable (ov_CacheReadPrice ov) None
    (λ p, (CacheReadPricePerToken p, CacheReadPriceExplicit p)) = true ->
  isCompleteTokenPricing (Some (applyOverridePrices ov p)) = true.
Proof.
  destruct (ov_InputPrice ov) as [a|] eqn:Ea; [|done].
  destruct (ov_OutputPrice ov) as [b|] eqn:Eb; [|done].
  destruct (ov_CacheWritePrice ov) as [c|] eqn:Ec; [|done].
  destruct (ov_CacheReadPrice ov) as [d|] eqn:Ed; [|done].
  cbn [tokenPriceAvailable]. intros H1 H2 H3 H4.
  unfold isCompleteTokenPricing, isCoreTokenPricingAvailable, applyOverridePrices.
  rewrite Ea, Eb, Ec, Ed. cbn [on_price].
  destruct (ov_ImageInputPrice ov), (ov_ImageOutputPrice ov); cbn; by rewrite H1, H2, H3, H4.
Qed.

Section Resolved.
Context (catalog : option (string -> option LiteLLMPricingLookup)) (map_order : list string).

Lemma resolved_base input ov r :
  resolveWithOverride catalog map_order input ov = Ok r ->
  MatchedOverride r = ov /\
  ∃ x, BasePricing r = Some match ov with Some o => applyOverridePrices o x | None => x end.
Proof.
  unfold resolveWithOverride.
  destruct (resolveBasePricing _ _ _) as [[lookup src]|e], ov as [o|].
  - intros [= <-]. split; [done|]. unfold with_official. simpl.
    destruct (negb _); eexists; reflexivity.
  - intros [= <-]. split; [done|]. by eexists.
  - destruct (negb _); [done|]. intros [= <-]. split; [done|]. by eexists.
  - done.
Qed.

Lemma validated_values r t p :
  validateResolvedPricingAvailable (Some r) = Ok tt -> is_request_mode (Mode r) = false ->
  GetIntervalPricing r t = Some p -> tokenPricingValuesValid (Some p) = true.
Proof.
  unfold validateResolvedPricingAvailable. intros H Hm Hp. rewrite Hm in H.
  destruct (match BasePricing r with Some b => negb (tokenPricingValuesValid (Some b))
            | None => false end) eqn:Eb; [done|].
  destruct (negb (forallb _ (Intervals r))) eqn:Ei; [done|]. clear H.
  assert (BasePricing r = Some p -> tokenPricingValuesValid (Some p) = true) as Hbase.
  { intros E. rewrite E in Eb. by apply negb_false_iff in Eb. }
  unfold GetIntervalPricing in Hp. destruct (is_nil (Intervals r)); [by apply Hbase|].
  destruct (FindMatchingInterval (Intervals r) t) as [iv|] eqn:Ef; [|by apply Hbase].
  injection Hp as <-. apply FindMatchingInterval_Some in Ef as [Hin _].
  apply negb_false_iff in Ei. rewrite forallb_forall in Ei. apply Ei. by apply list_elem_of_In.
Qed.

Lemma available_when_true b : available_when b = Ok tt -> b = true.
Proof. by destruct b. Qed.

Lemma validated_completeness input ov r t :
  resolveWithOverride catalog map_order input ov = Ok r ->
  validateResolvedPricingAvailable (Some r) = Ok tt -> is_request_mode (Mode r) = false ->
  0 < t -> requiresIndependentSalePricing r = true \/ Intervals r = [] ->
  ∃ p, GetIntervalPricing r t = Some p /\
    (if requiresIndependentSalePricing r then isCompleteTokenPricing (Some p)
     else isCoreTokenPricingAvailable (Some p)) = true.
Proof.
  intros Hr Hv Hm Ht Hor. destruct (resolved_base _ _ _ Hr) as (Hov & x & Hx).
  unfold validateResolvedPricingAvailable in Hv. rewrite Hm in Hv.
  destruct (match BasePricing r with Some b => negb _ | None => false end); [done|].
  destruct (negb (forallb _ (Intervals r))); [done|].
  assert (Intervals r = [] -> GetIntervalPricing r t = BasePricing r) as Hg
    by (intros E; unfold GetIntervalPricing; by rewrite E).
  rewrite Hov in Hv. destruct ov as [o|].
  2: { assert (requiresIndependentSalePricing r = false) as Hreq
         by (unfold requiresIndependentSalePricing; by rewrite Hov).
       rewrite Hreq in *. destruct Hor as [?|En]; [done|]. rewrite (Hg En), Hx.
       apply available_when_true in Hv. rewrite En, Hx in Hv. eauto. }
  destruct (requiresIndependentSalePricing r) eqn:Hreq; cbn [negb] in Hv.
  - destruct (is_nil (Intervals r)) eqn:En; cbn [negb] in Hv.
    + apply is_nil_true in En. rewrite (Hg En), Hx. eexists. split; [done|].
      apply available_when_true in Hv.
      assert ((if String.eqb (OfficialMode r) (Mode r) then OfficialPricing r else None) = None) as Hof.
      { unfold requiresIndependentSalePricing in Hreq. rewrite Hov in Hreq.
        destruct (OfficialPricing r), (String.eqb (OfficialMode r) (Mode r)); done. }
      rewrite Hof, !andb_true_iff in Hv. destruct_and!. by apply apply_override_complete.
    + by apply coverage_sound.
  - destruct Hor as [?|En]; [done|]. rewrite (Hg En), Hx.
    apply available_when_true in Hv. rewrite En, Hx in Hv. eauto.
Qed.

(** A price rule that passes validation prices every request: whatever
    tokens, tier and multiplier a request with a non-empty context has, the
    charge against the resolved price succeeds (when the rule stands on its
    own, or has no intervals). *)
Theorem validated_price_charges_every_request input ov r cost_input :
  resolveWithOverride catalog map_order input ov = Ok r ->
  IsResolvedPricingAvailable (Some r) = true -> is_request_mode (Mode r) = false ->
  requiresIndependentSalePricing r = true \/ Intervals r = [] ->
  0 < contextTokens (ci_Tokens cost_input) ->
  ∃ bd, charge_resolved r cost_input = Ok bd.
Proof.
  intros Hr Hv Hm Hor Ht. unfold IsResolvedPricingAvailable in Hv.
  destruct (validateResolvedPricingAvailable (Some r)) as [[]|] eqn:Ev; [|done].
  destruct (validated_completeness _ _ _ _ Hr Ev Hm Ht Hor) as (p & Hp & Hc).
  pose proof (validated_values _ _ _ Ev Hm Hp) as Hvalid.
  unfold charge_resolved. rewrite Ev, Hm. cbn [rbind]. unfold calculateTokenCost.
  cbn [set_rate ci_Tokens]. rewrite Hp, Hvalid. cbn [negb].
  destruct (requiresIndependentSalePricing r); rewrite Hc; cbn [negb rbind]; by eexists.
Qed.

End Resolved.
End Costs.

(** ** The built-in table *)

(** Entries the table keeps for models that are free, or whose output is. *)
Definition zero_priced_keys : list string :=
  ["glm-4.5-flash"; "glm-4.7-flash"; "doubao-embedding-vision"]%string.

Lemma first_rule_key rules m k : first_rule rules m = Some k -> k ∈ map snd rules.
Proof.
  induction rules as [|[test key] rules IH]; simpl; [done|].
  destruct (test m); [intros [= ->]; left|intros H; right; by apply IH].
Qed.

Lemma rule_keys_in_table :
  forallb (λ k, bool_decide (is_Some (initFallbackPricing !! k)))
    (map snd ((claude_rules ++ gemini_deepseek_rules ++ glm_rules ++ kimi_minimax_rules)
              ++ openai_rules ++ grok_rules)) = true.
Proof. vm_compute. reflexivity. Qed.

Lemma table_prices_checked :
  forallb (λ kv, tokenPricingValuesValid (Some kv.2.2)
                 && Bool.eqb (isCoreTokenPricingAvailable (Some kv.2.2))
                      (negb (existsb (String.eqb kv.2.1) zero_priced_keys)))
    (map_to_list initFallbackPricing) = true.
Proof. vm_compute. reflexivity. Qed.

Lemma map_checked {A} (f : string * A -> bool) (m : gmap string A) k v :
  forallb f (map_to_list m) = true -> m !! k = Some v -> f (k, v) = true.
Proof.
  intros H Hk. rewrite forallb_forall in H. apply H, list_elem_of_In.
  by apply elem_of_map_to_list.
Qed.

Section Fallback.
Context {UC : UnicodeCase}.

Lemma fallback_key_in_table m k : fallback_key m = Some k -> is_Some (initFallbackPricing !! k).
Proof.
  intros H. pose proof rule_keys_in_table as Hall. rewrite forallb_forall in Hall.
  specialize (Hall k). rewrite bool_decide_eq_true in Hall. apply Hall, list_elem_of_In.
  rewrite !map_app. unfold fallback_key in H.
  destruct (first_rule (claude_rules ++ _) _) as [k1|] eqn:E1.
  - injection H as <-. apply first_rule_key in E1. rewrite !map_app in E1.
    apply elem_of_app. by left.
  - apply elem_of_app. right. apply elem_of_app.
    destruct (if str_empty _ then None else _) as [k2|] eqn:E2.
    + injection H as <-. destruct (str_empty _); [done|]. left. by apply first_rule_key in E2.
    + right. by apply first_rule_key in H.
Qed.

(** The built-in table answers for every name a rule recognises, with a
    price whose values are finite and not negative; all its prices but those
    of three zero-priced entries have a usable input and output price. *)
Theorem fallback_price_usable m key :
  fallback_key m = Some key ->
  ∃ id p, getFallbackPricing m = Some (id, p) /\ tokenPricingValuesValid (Some p) = true /\
    isCoreTokenPricingAvailable (Some p) = negb (existsb (String.eqb id) zero_priced_keys).
Proof.
  intros Hk. destruct (fallback_key_in_table _ _ Hk) as [[id p] Hp].
  exists id, p. unfold getFallbackPricing. rewrite Hk. split; [done|].
  pose proof (map_checked _ _ _ _ table_prices_checked Hp) as H.
  apply andb_true_iff in H as [H1 H2]. apply Bool.eqb_prop in H2. split; [exact H1|exact H2].
Qed.

(** The models the table lists as free are refused by the resolved path:
    the direct cost of a request is computed (and is zero for the two GLM
    models), while the same request through the resolver is answered "pricing
    not found", an unset zero price counting as no price. *)
Theorem zero_priced_models_refused order model :
  In model zero_priced_keys ->
  (∃ p, GetModelPricing None model = Ok p) /\
  (∀ r, resolveWithOverride None order
          (Build_PricingInput model "" "" "") None = Ok r ->
     ∀ input, charge_resolved r input = Err ErrModelPricingUnavailable).
Proof.
  intros Hm. split.
  - destruct Hm as [<-|[<-|[<-|[]]]]; vm_compute; eexists; reflexivity.
  - intros r Hr input.
    assert (validateResolvedPricingAvailable (Some r) = Err ErrModelPricingUnavailable) as Hv.
    { destruct Hm as [<-|[<-|[<-|[]]]]; vm_compute in Hr; injection Hr as <-; vm_compute; reflexivity. }
    unfold charge_resolved. by rewrite Hv.
Qed.

End Fallback.

(** ** The two-rate long context *)

Section Paths.
Context {UC : UnicodeCase}.

(** Cutting a request at the long-context threshold loses no text: the two
    parts are counts, their inputs and cache reads add up to the request's,
    the first part holds exactly [threshold] of them, and output and cache
    writes are charged once, in the first part. *)
Theorem long_context_split_conserves t threshold :
  tokens_ok t -> 0 < threshold < 2 ^ 60 -> threshold < CacheReadTokens t + InputTokens t ->
  let '(a, b) := long_context_split t threshold in
  InputTokens a + InputTokens b = InputTokens t /\
  CacheReadTokens a + CacheReadTokens b = CacheReadTokens t /\
  InputTokens a + CacheReadTokens a = threshold /\
  0 <= InputTokens a /\ 0 <= InputTokens b /\ 0 <= CacheReadTokens a /\ 0 <= CacheReadTokens b /\
  (OutputTokens a, CacheCreationTokens a, ImageOutputTokens a) =
    (OutputTokens t, CacheCreationTokens t, ImageOutputTokens t) /\
  (OutputTokens b, CacheCreationTokens b, ImageOutputTokens b) = (0, 0, 0).
Proof.
  intros Ht Hth Hsum. unfold tokens_ok in Ht. rewrite !Forall_cons in Ht. destruct_and!.
  unfold long_context_split. rewrite (sub64_nonneg (CacheReadTokens t)) by lia.
  rewrite (sub64_nonneg threshold) by lia.
  destruct (Z.leb_spec threshold (CacheReadTokens t)); simpl; [|rewrite sub64_nonneg by lia];
    split_and!; try reflexivity; lia.
Qed.

Definition image_request : UsageTokens := {|
  InputTokens := 1000; ImageInputTokens := 1000; OutputTokens := 0; CacheCreationTokens := 0;
  CacheReadTokens := 0; CacheCreation5mTokens := 0; CacheCreation1hTokens := 0;
  ImageOutputTokens := 0 |}.

(** Cutting a request does lose its image share: a request of image tokens
    that passes the threshold is charged at the text price, and costs less
    with the long-context surcharge than without it. *)
Theorem long_context_drops_image_price order :
  ∃ plain long,
    CalculateCost None "doubao-embedding-vision" image_request f1 = Ok plain /\
    CalculateCostWithLongContext None "doubao-embedding-vision" image_request f1 900 (f64_lit 2 0)
      = Ok long /\
    ImageInputCost long = f0 /\ fltb (ActualCost long) (ActualCost plain) = true /\
    is_ok (LookupModelPricing None order "doubao-embedding-vision") = true.
Proof. do 2 eexists. split_and!; vm_compute; reflexivity. Qed.

(** ** Parallel paths *)

(** The two lookups of an official price agree: for a trimmed name, what
    [LookupModelPricing] finds in token mode is what [GetModelPricing]
    computes in its own copy of the code. *)
Theorem lookups_agree catalog order m l :
  LookupModelPricing catalog order m = Ok l -> mpl_Mode l = BillingModeToken -> TrimSpace m = m ->
  GetModelPricing catalog m = Ok (mpl_Pricing l).
Proof.
  unfold LookupModelPricing, GetModelPricing. intros H Hm Ht. rewrite Ht in H.
  unfold fallback_lookup in H.
  destruct (catalog_lookup catalog (ToLower m)) as [[p src]|].
  - destruct (TokenPricingAbsent p); cbn [andb negb] in *.
    + destruct (fgtb _ f0 || _).
      * injection H as <-. discriminate Hm.
      * destruct (getFallbackPricing _) as [fb|]; [|discriminate H]. injection H as <-; cbn [mpl_Pricing]; reflexivity.
    + injection H as <-; cbn [mpl_Pricing]; reflexivity.
  - destruct (getFallbackPricing _) as [fb|]; [|discriminate H]. injection H as <-; cbn [mpl_Pricing]; reflexivity.
Qed.

Lemma batch_loop_spec catalog order snapshot inputs items :
  resolve_batch_loop catalog order snapshot inputs = Ok items <->
  Forall2 (λ input item,
    batch_entry input (resolveWithOverride catalog order input
      (snapshot_ResolveForPricingInput snapshot input)) = Ok item) inputs items.
Proof.
  revert items. induction inputs as [|input inputs IH]; intros items; cbn [resolve_batch_loop].
  - split; [intros H; injection H as <-; constructor|]. intros H. by inversion H.
  - destruct (batch_entry input _) as [item|e] eqn:E; cbn [rbind].
    + destruct (resolve_batch_loop _ _ _ inputs) as [rest|e] eqn:Er; cbn [rbind].
      * split.
        -- intros H. injection H as <-. constructor; [done|]. by apply IH.
        -- intros (y & k & Hy & Hk & ->)%Forall2_cons_inv_l. apply IH in Hk. congruence.
      * split; [done|]. intros (y & k & Hy & Hk & ->)%Forall2_cons_inv_l. apply IH in Hk. congruence.
    + split; [done|]. intros (y & k & Hy & Hk & ->)%Forall2_cons_inv_l. congruence.
Qed.

(** Resolving a batch is resolving each of its inputs: when the repository
    lists for an adapter the rules of the full list that name it, the batch
    returns, in order, what the single resolution returns for every input, a
    missing price being reported as an entry without one. *)
Theorem ResolveBatch_pointwise catalog order {S} {Repo : ModelPricingOverrideRepository S}
  (rows : list ModelPricingOverride) (st : S) inputs items :
  mpo_List EmptyString st = (Ok rows, st) ->
  (∀ input, input ∈ inputs -> lists_by_adapter rows st input) ->
  ResolveBatch catalog order inputs st = (Ok items, st) <->
  Forall2 (λ input item, batch_entry input (Resolve catalog order input st).1 = Ok item) inputs items.
Proof.
  intros Hall Hid. unfold ResolveBatch, mbind_. rewrite (load_snapshot_rows rows st Hall).
  unfold mlift. split.
  - intros H. injection H as H. apply batch_loop_spec in H.
    eapply Forall2_impl_in; [exact H|]. intros input item Hin _ Hi. cbv beta in Hi.
    unfold Resolve, mbind_. by rewrite (snapshot_resolution rows st) by auto.
  - intros H. f_equal. apply batch_loop_spec.
    eapply Forall2_impl_in; [exact H|]. intros input item Hin _ Hi. cbv beta in Hi.
    unfold Resolve, mbind_ in Hi. by rewrite (snapshot_resolution rows st) in Hi by auto.
Qed.

End Paths.

(** ** Examples *)

#[local] Existing Instance ascii_only_case.

Definition ex_tier (min : Z) (max : option Z) (price : Z) : ModelPricingInterval := {|
  di_MinTokens := min; di_MaxTokens := max; di_TierLabel := "";
  di_InputPrice := Some (f64_lit price (-6)); di_OutputPrice := Some (f64_lit (4 * price) (-6));
  di_CacheWritePrice := Some (f64_lit price (-6)); di_CacheReadPrice := Some (f64_lit 0 0);
  di_PerRequestPrice := None; di_SortOrder := 0 |}.

(** A sale price in two context tiers for a model without official price. *)
Definition ex_sale : ModelPricingOverride := {|
  ov_ID := 1; ov_Adapter := "pool"; ov_ModelPattern := "house-model";
  ov_BillingMode := BillingModeToken; ov_InputPrice := None; ov_OutputPrice := None;
  ov_CacheWritePrice := None; ov_CacheReadPrice := None; ov_ImageInputPrice := None;
  ov_ImageOutputPrice := None; ov_PerRequestPrice := None;
  ov_Intervals := [ex_tier 0 (Some 200000) 3; ex_tier 200000 None 6]; ov_Status := "active" |}.

Definition ex_house_input : PricingInput := Build_PricingInput "house-model" "pool" "pool" "house-model".

Definition ex_cost_input (tokens : UsageTokens) : CostInput := {|
  ci_Model := "house-model"; ci_Adapter := "pool"; ci_PlatformCode := "pool";
  ci_PublicModel := "house-model"; ci_Tokens := tokens; ci_RequestCount := 0; ci_SizeTier := "";
  ci_RateMultiplier := f64_lit 15 (-1); ci_ServiceTier := "priority"; ci_Resolved := None;
  ci_LongContextBillingEnabled := None |}.

Definition ex_resolved : ResolvedPricing :=
  match resolveWithOverride None [] ex_house_input (Some ex_sale) with
  | Ok r => r
  | Err _ => pricingOverrideToResolved ex_sale None zero_source
  end.

(** The validation of a sale price reads its intervals as covering every
    context from zero on, but an interval [(0, max]] leaves out an empty
    context: an accepted two-tier price refuses a request that has output
    tokens only. *)
Theorem empty_context_not_priced :
  ValidatePlatformSaleOverride "" ex_sale = Ok tt /\
  resolveWithOverride None [] ex_house_input (Some ex_sale) = Ok ex_resolved /\
  IsResolvedPricingAvailable (Some ex_resolved) = true /\
  charge_resolved ex_resolved (ex_cost_input (only_text 0 100)) =
    Err (EWrap "incomplete token pricing for model: %s: %w" ErrModelPricingUnavailable).
Proof. vm_compute. repeat split. Qed.

Lemma validated_price_charges_every_request_witness :
  ∃ bd, charge_resolved ex_resolved (ex_cost_input (only_text 250000 100)) = Ok bd.
Proof.
  apply (validated_price_charges_every_request None [] ex_house_input (Some ex_sale)).
  - vm_compute. reflexivity.
  - vm_compute. reflexivity.
  - vm_compute. reflexivity.
  - left. vm_compute. reflexivity.
  - vm_compute. reflexivity.
Defined.

Definition ex_charge : CostBreakdown :=
  match charge_resolved ex_resolved (ex_cost_input (only_text 250000 100)) with
  | Ok bd => bd | Err _ => zero_breakdown end.

(** A catalogue whose entry doubles the output price and has an input
    multiplier of -1 over 200000 tokens of context.  Every check before the
    charge passes, and a longer request is charged less than nothing. *)
Definition ex_negative_entry : LiteLLMModelPricing := {|
  InputCostPerToken := f64_lit 1 (-6); InputCostPerTokenPriority := f0;
  OutputCostPerToken := f64_lit 1 (-6); OutputCostPerTokenPriority := f0;
  CacheCreationInputTokenCost := f64_lit 1 (-6); CacheCreationInputTokenCostPriority := f0;
  CacheCreationInputTokenCostAbove1hr := f0; CacheReadInputTokenCost := f64_lit 1 (-6);
  CacheReadInputTokenCostPriority := f0;
  LongContextInputTokenThreshold := 200000; LongContextInputCostMultiplier := f64_of_Z (-1);
  LongContextOutputCostMultiplier := f64_of_Z 2; SupportsServiceTier := false;
  LiteLLMProvider := "house"; LiteLLMMode := "chat"; SupportsPromptCaching := false;
  OutputCostPerImage := f0; OutputCostPerImageToken := f0; InputCostPerImageToken := f0;
  InputCostPerTokenExplicit := true; OutputCostPerTokenExplicit := true;
  CacheCreationInputTokenCostExplicit := true; CacheReadInputTokenCostExplicit := true;
  OutputCostPerImageExplicit := false; OutputCostPerImageTokenExplicit := false;
  InputCostPerImageTokenExplicit := false; TokenPricingAbsent := false |}.
Definition ex_negative_catalog : string -> option LiteLLMPricingLookup := λ model,
  Some {| lll_Pricing := Some ex_negative_entry; lll_MatchedModel := model; lll_Source := zero_source |}.
Definition ex_negative_charge : result CostBreakdown :=
  rbind (resolveWithOverride (Some ex_negative_catalog) [] ex_house_input None)
    (λ r, charge_resolved r (ex_cost_input (only_text 250000 0))).
Theorem negative_multiplier_pays_the_user :
  ∃ bd, ex_negative_charge = Ok bd /\ fltb (ActualCost bd) f0 = true.
Proof.
  destruct ex_negative_charge as [bd|e] eqn:E.
  - exists bd. split; [done|].
    assert (match ex_negative_charge with Ok bd => fltb (ActualCost bd) f0 | Err _ => false end = true) as H
      by (vm_compute; reflexivity).
    by rewrite E in H.
  - exfalso. assert (match ex_negative_charge with Ok _ => true | Err _ => false end = true) as H
      by (vm_compute; reflexivity). by rewrite E in H.
Qed.

Lemma tokens_ok_dec t : forallb (λ n, (0 <=? n) && (n <? 2 ^ 60))
    [InputTokens t; ImageInputTokens t; OutputTokens t; CacheCreationTokens t; CacheReadTokens t;
     CacheCreation5mTokens t; CacheCreation1hTokens t; ImageOutputTokens t] = true -> tokens_ok t.
Proof.
  intros H. unfold tokens_ok. rewrite forallb_forall in H. rewrite Forall_forall.
  intros n Hn. apply list_elem_of_In, H in Hn. bool_lia.
Qed.

Lemma token_charge_not_negative_witness : Forall not_neg (cost_items ex_charge).
Proof.
  apply (token_charge_not_negative ex_resolved (ex_cost_input (only_text 250000 100))).
  - vm_compute. reflexivity.
  - vm_compute. reflexivity.
  - apply tokens_ok_dec. vm_compute. reflexivity.
  - intros b Hb. vm_compute in Hb. injection Hb as <-. split; vm_compute; reflexivity.
Defined.

Lemma fallback_price_usable_witness :
  ∃ id p, getFallbackPricing "claude-opus-5-20260101" = Some (id, p) /\
    tokenPricingValuesValid (Some p) = true /\
    isCoreTokenPricingAvailable (Some p) = negb (existsb (String.eqb id) zero_priced_keys).
Proof. apply (fallback_price_usable _ "claude-opus-5"). vm_compute. reflexivity. Defined.

Lemma zero_priced_models_refused_witness :
  ∃ p, GetModelPricing None "glm-4.7-flash" = Ok p.
Proof. apply (zero_priced_models_refused []). right. left. reflexivity. Defined.

Definition ex_long_tokens : UsageTokens := {|
  InputTokens := 10000; ImageInputTokens := 0; OutputTokens := 500; CacheCreationTokens := 0;
  CacheReadTokens := 210000; CacheCreation5mTokens := 0; CacheCreation1hTokens := 0;
  ImageOutputTokens := 0 |}.

Lemma long_context_split_conserves_witness :
  InputTokens (long_context_split ex_long_tokens 200000).2 = 10000.
Proof.
  pose proof (long_context_split_conserves ex_long_tokens 200000) as H.
  destruct (long_context_split ex_long_tokens 200000) as [a b] eqn:E.
  destruct H as (H & _); [apply tokens_ok_dec; vm_compute; reflexivity|lia|simpl; lia|].
  vm_compute in E. injection E as <- <-. reflexivity.
Defined.

Lemma lookups_agree_witness :
  ∃ l, LookupModelPricing None [] "claude-sonnet-4-5" = Ok l /\
       GetModelPricing None "claude-sonnet-4-5" = Ok (mpl_Pricing l).
Proof.
  destruct (LookupModelPricing None [] "claude-sonnet-4-5") as [l|e] eqn:E;
    [|vm_compute in E; discriminate].
  exists l. split; [reflexivity|].
  apply (lookups_agree None [] _ _ E); [|vm_compute; reflexivity].
  vm_compute in E. injection E as <-. vm_compute. reflexivity.
Defined.

Definition ex_repo : ModelPricingOverrideRepository OverrideTable :=
  override_table_repository ascii_lower id_less.

Lemma ResolveBatch_pointwise_witness :
  ∃ items, ResolveBatch (Repo := ex_repo) None [] [ex_pricing_input; ex_house_input] ex_overrides
           = (Ok items, ex_overrides) /\
    Forall2 (λ input item,
      batch_entry input (Resolve (Repo := ex_repo) None [] input ex_overrides).1 = Ok item)
      [ex_pricing_input; ex_house_input] items.
Proof.
  destruct (ResolveBatch (Repo := ex_repo) None [] [ex_pricing_input; ex_house_input] ex_overrides)
    as [[items|e] st] eqn:E; [|vm_compute in E; discriminate].
  assert (st = ex_overrides) as -> by (vm_compute in E; injection E; intros; subst; reflexivity).
  exists items. split; [reflexivity|].
  apply (ResolveBatch_pointwise (Repo := ex_repo) None [] (stable_sort id_less (ot_rows ex_overrides))
           ex_overrides _ items); [vm_compute; reflexivity| |exact E].
  intros input Hin id Hid. rewrite !list_elem_of_In in *.
  destruct Hin as [<-|[<-|[]]]; vm_compute in Hid;
    repeat (destruct Hid as [<-|Hid]; [vm_compute; reflexivity|]); destruct Hid.
Defined.
