(* ===== verification/UsageBilling.v ===== *)
(** * Applying a charge exactly once

    [service/usage_billing.go], [service/batch_image_billing_hold.go] and the
    transactions of [repository/usage_billing_repo.go]: a billable request
    claims its idempotency key and applies its effects in one database
    transaction; a batch of images holds, captures or releases a part of a
    balance the same way; old keys move to an archive
    ([CleanupUsageBillingDedup] of [repository/dashboard_aggregation_repo.go]).

    Balances are DECIMAL(20,8) columns, integers counting 10^-8 USD here.  A
    [float64] parameter reaches the server as a decimal, [sent], which may have
    any number of places: a charge is rounded to eight of them before, the
    amounts of a hold are not ([estimated_cost] and [hold_amount] have ten).  A
    statement computes and compares with the decimal as it came, and each
    column it assigns is rounded by itself ([numeric_20_8]).  The amounts of
    commands are finite; NaN and the infinities are sent as such and are not
    modelled.  A transaction that fails leaves the database as it was; a failing
    connection or commit is not modelled.  The statement that counts an
    upstream account's quota is [AccountQuota.incrementUsageBillingAccountQuota]. *)

From Stdlib Require Import QArith Qround.
From S2P Require Import Prelude GoErrors Float64 GoTime GoStrings Subscription SubscriptionRepo APIKeys SchedulerOutbox Account AccountQuota.

(** ** Commands *)

Record UsageBillingCommand := {
  RequestID : string;
  cmd_APIKeyID : Z;
  RequestFingerprint : string;
  RequestPayloadHash : string;
  cmd_UserID : Z;
  cmd_AccountID : Z;
  cmd_SubscriptionID : option Z;
  cmd_AccountType : string;
  cmd_Model : string;
  cmd_ServiceTier : string;
  cmd_ReasoningEffort : string;
  cmd_BillingType : Z;
  cmd_InputTokens : Z;
  cmd_OutputTokens : Z;
  cmd_CacheCreationTokens : Z;
  cmd_CacheReadTokens : Z;
  cmd_ImageCount : Z;
  cmd_MediaType : string;
  BalanceCost : float64;
  SubscriptionCost : float64;
  APIKeyQuotaCost : float64;
  APIKeyRateLimitCost : float64;
  AccountQuotaCost : float64
}.

Record UsageBillingApplyResult := {
  Applied : bool;
  APIKeyQuotaExhausted : bool;
  NewBalance : option Z;
  BalanceOverdrafted : bool;
  QuotaState : option AccountQuotaState
}.

Record BatchImageBalanceHoldCommand := {
  hold_RequestID : string;
  hold_APIKeyID : Z;
  hold_RequestFingerprint : string;
  hold_RequestPayloadHash : string;
  hold_UserID : Z;
  hold_BatchID : string;
  HoldAmount : float64;
  ActualAmount : float64
}.

Record BatchImageBalanceHoldResult := {
  hold_Applied : bool;
  hold_NewBalance : option Z;
  hold_FrozenBalance : option Z
}.

Definition no_result : UsageBillingApplyResult := Build_UsageBillingApplyResult false false None false None.
Definition no_hold_result : BatchImageBalanceHoldResult := Build_BatchImageBalanceHoldResult false None None.

Definition ErrUsageBillingRequestIDRequired : error := EPlain "usage billing request_id is required".
Definition ErrUsageBillingRequestConflict : error :=
  EPlain "usage billing request fingerprint conflict".
Definition ErrUserNotFound : error := NotFound "USER_NOT_FOUND" "user not found".
Definition ErrBatchImageInsufficientBalance : error :=
  new_app 402 "BATCH_IMAGE_INSUFFICIENT_BALANCE" "insufficient balance for batch image hold".
Definition ErrBatchImageSettlementCostExceedsHold : error :=
  Conflict "BATCH_IMAGE_SETTLEMENT_COST_EXCEEDS_HOLD" "batch image settlement cost exceeds held balance".

(** ** The database *)

Record UserFunds := { fund_Balance : Z; fund_Frozen : Z; fund_deleted : bool }.

(** The value a DECIMAL(20,8) column takes when a number, counted in its unit,
    is assigned to it: rounded to whole units, halves away from zero, and
    refused when it does not fit into twenty digits. *)
Definition round_half_away (q : Q) : Z :=
  if Qle_bool 0 q then Qfloor (q + (1 # 2)) else - Qfloor (- q + (1 # 2)).
Definition numeric_20_8 (q : Q) : option Z :=
  let z := round_half_away q in if Z.abs z <? 10 ^ 20 then Some z else None.
Definition numeric_overflow : error := EPlain "pq: numeric field overflow".

Section UsageBilling.
Context {UC : UnicodeCase}.
(** Third-party and library functions: the rounding of [shopspring/decimal],
    SHA-256 in hexadecimal, the verbs [%d] and [%0.10f], and the decimal
    in USD that the driver writes for a finite parameter. *)
Context (decimal_round8 : float64 -> float64) (sha256_hex : string -> string)
        (format_d : Z -> string) (format_f10 : float64 -> string) (sent : float64 -> Q).
Context (db_add db_sub : float64 -> float64 -> float64) (db_zone : Location).
Context {PG : Postgres}.

Record BillingDB := {
  bd_dedup : gmap (string * Z) string;
  bd_archive : gmap (string * Z) string;
  bd_users : gmap Z UserFunds;
  bd_subs : Table;
  bd_keys : KeyTable;
  bd_accounts : AccountDB
}.

Definition set_dedup (d : gmap (string * Z) string) (db : BillingDB) : BillingDB :=
  Build_BillingDB d (bd_archive db) (bd_users db) (bd_subs db) (bd_keys db) (bd_accounts db).
Definition set_users (u : gmap Z UserFunds) (db : BillingDB) : BillingDB :=
  Build_BillingDB (bd_dedup db) (bd_archive db) u (bd_subs db) (bd_keys db) (bd_accounts db).
Definition set_subs (s : Table) (db : BillingDB) : BillingDB :=
  Build_BillingDB (bd_dedup db) (bd_archive db) (bd_users db) s (bd_keys db) (bd_accounts db).
Definition set_keys (k : KeyTable) (db : BillingDB) : BillingDB :=
  Build_BillingDB (bd_dedup db) (bd_archive db) (bd_users db) (bd_subs db) k (bd_accounts db).
Definition set_accounts (a : AccountDB) (db : BillingDB) : BillingDB :=
  Build_BillingDB (bd_dedup db) (bd_archive db) (bd_users db) (bd_subs db) (bd_keys db) a.

(** ** Normalisation *)

Definition QuantizeUsageBillingAmount (value : float64) : float64 :=
  if feqb value f0 || is_nan value || is_inf value then value else decimal_round8 value.

Definition join_pipe (l : list string) : string := String.concat "|" l.

Definition buildUsageBillingFingerprint (c : UsageBillingCommand) : string :=
  let raw := join_pipe
    [format_d (cmd_UserID c); format_d (cmd_AccountID c); format_d (cmd_APIKeyID c);
     TrimSpace (cmd_AccountType c); TrimSpace (cmd_Model c); TrimSpace (cmd_ServiceTier c);
     TrimSpace (cmd_ReasoningEffort c); format_d (cmd_BillingType c); format_d (cmd_InputTokens c);
     format_d (cmd_OutputTokens c); format_d (cmd_CacheCreationTokens c);
     format_d (cmd_CacheReadTokens c); format_d (cmd_ImageCount c); TrimSpace (cmd_MediaType c);
     format_d (default 0 (cmd_SubscriptionID c)); format_f10 (BalanceCost c);
     format_f10 (SubscriptionCost c); format_f10 (APIKeyQuotaCost c);
     format_f10 (APIKeyRateLimitCost c); format_f10 (AccountQuotaCost c)] in
  let payloadHash := TrimSpace (RequestPayloadHash c) in
  sha256_hex (if str_empty payloadHash then raw else join_pipe [raw; payloadHash]).

Definition Normalize (c : UsageBillingCommand) : UsageBillingCommand :=
  let id := TrimSpace (RequestID c) in
  let fingerprint := if str_empty (TrimSpace (RequestFingerprint c))
                     then buildUsageBillingFingerprint c else RequestFingerprint c in
  {| RequestID := id; cmd_APIKeyID := cmd_APIKeyID c; RequestFingerprint := fingerprint;
     RequestPayloadHash := RequestPayloadHash c; cmd_UserID := cmd_UserID c;
     cmd_AccountID := cmd_AccountID c; cmd_SubscriptionID := cmd_SubscriptionID c;
     cmd_AccountType := cmd_AccountType c; cmd_Model := cmd_Model c;
     cmd_ServiceTier := cmd_ServiceTier c; cmd_ReasoningEffort := cmd_ReasoningEffort c;
     cmd_BillingType := cmd_BillingType c; cmd_InputTokens := cmd_InputTokens c;
     cmd_OutputTokens := cmd_OutputTokens c; cmd_CacheCreationTokens := cmd_CacheCreationTokens c;
     cmd_CacheReadTokens := cmd_CacheReadTokens c; cmd_ImageCount := cmd_ImageCount c;
     cmd_MediaType := cmd_MediaType c;
     BalanceCost := QuantizeUsageBillingAmount (BalanceCost c);
     SubscriptionCost := QuantizeUsageBillingAmount (SubscriptionCost c);
     APIKeyQuotaCost := QuantizeUsageBillingAmount (APIKeyQuotaCost c);
     APIKeyRateLimitCost := QuantizeUsageBillingAmount (APIKeyRateLimitCost c);
     AccountQuotaCost := QuantizeUsageBillingAmount (AccountQuotaCost c) |}.

Definition buildBatchImageBalanceHoldFingerprint (c : BatchImageBalanceHoldCommand) : string :=
  let raw := join_pipe
    [format_d (hold_UserID c); format_d (hold_APIKeyID c); TrimSpace (hold_BatchID c);
     format_f10 (HoldAmount c); format_f10 (ActualAmount c)] in
  let payloadHash := TrimSpace (hold_RequestPayloadHash c) in
  sha256_hex (if str_empty payloadHash then raw else join_pipe [raw; payloadHash]).

(** The batch id is trimmed before the fingerprint is built. *)
Definition hold_Normalize (c : BatchImageBalanceHoldCommand) : BatchImageBalanceHoldCommand :=
  let with_fp fp := {|
    hold_RequestID := TrimSpace (hold_RequestID c); hold_APIKeyID := hold_APIKeyID c;
    hold_RequestFingerprint := fp; hold_RequestPayloadHash := hold_RequestPayloadHash c;
    hold_UserID := hold_UserID c; hold_BatchID := TrimSpace (hold_BatchID c);
    HoldAmount := HoldAmount c; ActualAmount := ActualAmount c |} in
  if str_empty (TrimSpace (hold_RequestFingerprint c))
  then with_fp (buildBatchImageBalanceHoldFingerprint (with_fp (hold_RequestFingerprint c)))
  else with_fp (hold_RequestFingerprint c).

(** ** Claiming a request *)

Definition same_fingerprint (a b : string) : bool := String.eqb (TrimSpace a) (TrimSpace b).

(** The claim inserts its key before it looks into the archive; when the
    archive has the key the transaction is rolled back by the caller. *)
Definition claimUsageBillingRequest (requestID : string) (apiKeyID : Z) (fingerprint : string)
  : M BillingDB bool := λ db,
  let key := (requestID, apiKeyID) in
  match bd_dedup db !! key with
  | Some existing =>
    if negb (same_fingerprint existing fingerprint) then (Err ErrUsageBillingRequestConflict, db)
    else (Ok false, db)
  | None =>
    let db := set_dedup (<[key := fingerprint]> (bd_dedup db)) db in
    match bd_archive db !! key with
    | Some archived =>
      if negb (same_fingerprint archived fingerprint) then (Err ErrUsageBillingRequestConflict, db)
      else (Ok false, db)
    | None => (Ok true, db)
    end
  end.

(** ** Effects *)

(** A parameter in the unit of the columns, 10^-8 USD. *)
Definition amount (x : float64) : Q := (sent x * inject_Z (10 ^ 8))%Q.

Definition live_funds (userID : Z) (db : BillingDB) : option UserFunds :=
  match bd_users db !! userID with
  | Some f => if fund_deleted f then None else Some f
  | None => None
  end.
Definition put_funds (userID : Z) (balance frozen : Z) (db : BillingDB) : BillingDB :=
  set_users (<[userID := Build_UserFunds balance frozen false]> (bd_users db)) db.

(** Both updates subtract; the first only when the balance suffices. *)
Definition deductUsageBillingBalance (userID : Z) (cost : float64) : M BillingDB (Z * bool) := λ db,
  match live_funds userID db with
  | Some f =>
    match numeric_20_8 (inject_Z (fund_Balance f) - amount cost) with
    | Some balance =>
      (Ok (balance, Qle_bool (amount cost) (inject_Z (fund_Balance f))),
       put_funds userID balance (fund_Frozen f) db)
    | None => (Err numeric_overflow, db)
    end
  | None => (Err ErrUserNotFound, db)
  end.

Definition on_subs {B} (m : M Table B) : M BillingDB B := λ db,
  let '(r, s) := m (bd_subs db) in (r, set_subs s db).
Definition on_keys {B} (m : M KeyTable B) : M BillingDB B := λ db,
  let '(r, k) := m (bd_keys db) in (r, set_keys k db).

Definition incrementUsageBillingSubscription (subscriptionID : Z) (costUSD : float64)
  : M BillingDB unit := on_subs (table_IncrementUsage db_add subscriptionID costUSD).

(** The row after the statement, and the flag it returns from it. *)
Definition count_key_quota (amount : float64) (k : APIKey) : APIKey :=
  let used := db_add (key_QuotaUsed k) amount in
  set_quota_used k used
    (if fgtb (key_Quota k) f0 && String.eqb (key_Status k) StatusActive
        && fltb (key_QuotaUsed k) (key_Quota k) && fgeb used (key_Quota k)
     then StatusAPIKeyQuotaExhausted else key_Status k).
Definition incrementUsageBillingAPIKeyQuota (apiKeyID : Z) (amount : float64)
  : M BillingDB bool := λ db,
  match kt_live apiKeyID (bd_keys db) with
  | Some k =>
    let k' := count_key_quota amount k in
    (Ok (fgtb (key_Quota k') f0 && fgeb (key_QuotaUsed k') (key_Quota k')
         && fltb (db_sub (key_QuotaUsed k') amount) (key_Quota k')),
     set_keys (kt_update apiKeyID (count_key_quota amount) (bd_keys db)).2 db)
  | None => (Err ErrAPIKeyNotFound, db)
  end.

Definition incrementUsageBillingAPIKeyRateLimit (apiKeyID : Z) (cost : float64)
  : M BillingDB unit := λ db,
  let '(found, keys) :=
    kt_update apiKeyID (increment_rate db_add db_zone (kt_now (bd_keys db)) cost) (bd_keys db) in
  if found then (Ok tt, set_keys keys db) else (Err ErrAPIKeyNotFound, set_keys keys db).

Definition on_accounts {B} (m : M AccountDB B) : M BillingDB B := λ db,
  let '(r, a) := m (bd_accounts db) in (r, set_accounts a db).

(** [if cond { if err := m; err != nil { return err } ... }] *)
Definition when_ {B} (cond : bool) (d : B) (m : M BillingDB B) : M BillingDB B :=
  if cond then m else mret d.

Definition applyUsageBillingEffects (cmd : UsageBillingCommand) : M BillingDB UsageBillingApplyResult :=
  let! _ := match cmd_SubscriptionID cmd with
            | Some id => when_ (fgtb (SubscriptionCost cmd) f0) tt
                           (incrementUsageBillingSubscription id (SubscriptionCost cmd))
            | None => mret tt end in
  let! deduction := when_ (fgtb (BalanceCost cmd) f0) None
    (let! r := deductUsageBillingBalance (cmd_UserID cmd) (BalanceCost cmd) in mret (Some r)) in
  let! exhausted := when_ (fgtb (APIKeyQuotaCost cmd) f0) false
    (incrementUsageBillingAPIKeyQuota (cmd_APIKeyID cmd) (APIKeyQuotaCost cmd)) in
  let! _ := when_ (fgtb (APIKeyRateLimitCost cmd) f0) tt
    (incrementUsageBillingAPIKeyRateLimit (cmd_APIKeyID cmd) (APIKeyRateLimitCost cmd)) in
  let! quotaState := when_
    (fgtb (AccountQuotaCost cmd) f0
     && (EqualFold (cmd_AccountType cmd) AccountTypeAPIKey
         || EqualFold (cmd_AccountType cmd) AccountTypeBedrock)) None
    (let! s := on_accounts (incrementUsageBillingAccountQuota sha256_hex (cmd_AccountID cmd)
                 (AccountQuotaCost cmd)) in
     mret (Some s)) in
  mret {| Applied := true; APIKeyQuotaExhausted := exhausted;
          NewBalance := option_map fst deduction;
          BalanceOverdrafted := match deduction with Some (_, sufficient) => negb sufficient
                                | None => false end;
          QuotaState := quotaState |}.

(** A transaction: the body's state is kept when it asks to commit, dropped
    when it fails or ends without committing ([None]). *)
Definition transaction {B} (not_committed : B) (body : M BillingDB (option B)) : M BillingDB B := λ db,
  match body db with
  | (Ok (Some b), db') => (Ok b, db')
  | (Ok None, _) => (Ok not_committed, db)
  | (Err e, _) => (Err e, db)
  end.

Definition Apply (cmd : UsageBillingCommand) : M BillingDB UsageBillingApplyResult :=
  let cmd := Normalize cmd in
  if str_empty (RequestID cmd) then mfail ErrUsageBillingRequestIDRequired else
  transaction no_result
    (let! applied := claimUsageBillingRequest (RequestID cmd) (cmd_APIKeyID cmd) (RequestFingerprint cmd) in
     if negb applied then mret None else
     let! result := applyUsageBillingEffects cmd in
     mret (Some result)).

(** ** Holds for a batch of images *)

Definition batchImageHoldRequestPrefix : string := "batch_image_hold:".
Definition BatchImageHoldRequestID (batchID : string) : string :=
  (batchImageHoldRequestPrefix ++ TrimSpace batchID)%string.
Definition BatchImageCaptureRequestID (batchID : string) : string :=
  ("batch_image_capture:" ++ TrimSpace batchID)%string.
Definition BatchImageReleaseRequestID (batchID : string) : string :=
  ("batch_image_release:" ++ TrimSpace batchID)%string.

Definition hold_result (balance frozen : Z) : BatchImageBalanceHoldResult :=
  Build_BatchImageBalanceHoldResult false (Some balance) (Some frozen).

(** An update of a user's funds under a guard, with the error when the guard
    fails on a user that exists.  [new] computes the two values assigned, from
    the old ones; each column rounds its own. *)
Definition guarded_funds (userID : Z) (guard : UserFunds -> bool) (new : UserFunds -> Q * Q)
  (otherwise : error) : M BillingDB BatchImageBalanceHoldResult := λ db,
  match live_funds userID db with
  | Some f =>
    if guard f then
      match numeric_20_8 (new f).1, numeric_20_8 (new f).2 with
      | Some balance, Some frozen =>
        (Ok (hold_result balance frozen), put_funds userID balance frozen db)
      | _, _ => (Err numeric_overflow, db)
      end
    else (Err otherwise, db)
  | None => (Err ErrUserNotFound, db)
  end.

Definition reserveUsageBillingBatchImageBalance (cmd : BatchImageBalanceHoldCommand)
  : M BillingDB BatchImageBalanceHoldResult :=
  if fleb (HoldAmount cmd) f0 then mret no_hold_result else
  let hold := amount (HoldAmount cmd) in
  guarded_funds (hold_UserID cmd) (λ f, Qle_bool hold (inject_Z (fund_Balance f)))
    (λ f, (inject_Z (fund_Balance f) - hold, inject_Z (fund_Frozen f) + hold)%Q)
    ErrBatchImageInsufficientBalance.

Definition frozen_insufficient : error := EPlain "batch image frozen balance is insufficient".

(** [CASE WHEN a > b THEN a - b ELSE 0 END] *)
Definition excess (a b : Q) : Q := if Qle_bool a b then 0%Q else (a - b)%Q.

Definition captureUsageBillingBatchImageBalance (cmd : BatchImageBalanceHoldCommand)
  : M BillingDB BatchImageBalanceHoldResult :=
  if fleb (HoldAmount cmd) f0 && fleb (ActualAmount cmd) f0 then mret no_hold_result else
  if fgtb (ActualAmount cmd - HoldAmount cmd)%f64 (f64_lit 1 (-8))
  then mfail ErrBatchImageSettlementCostExceedsHold else
  let hold := amount (HoldAmount cmd) in
  let actual := amount (ActualAmount cmd) in
  guarded_funds (hold_UserID cmd) (λ f, Qle_bool hold (inject_Z (fund_Frozen f)))
    (λ f, (inject_Z (fund_Balance f) + excess hold actual - excess actual hold,
           inject_Z (fund_Frozen f) - hold)%Q) frozen_insufficient.

Definition batchImageHoldClaimExists (holdRequestID : string) (apiKeyID : Z) (db : BillingDB) : bool :=
  bool_decide (is_Some (bd_dedup db !! (holdRequestID, apiKeyID)))
  || bool_decide (is_Some (bd_archive db !! (holdRequestID, apiKeyID))).

Definition releaseUsageBillingBatchImageBalance (cmd : BatchImageBalanceHoldCommand)
  : M BillingDB BatchImageBalanceHoldResult := λ db,
  if fleb (HoldAmount cmd) f0 then (Ok no_hold_result, db) else
  if negb (batchImageHoldClaimExists (BatchImageHoldRequestID (hold_BatchID cmd)) (hold_APIKeyID cmd) db)
  then (Ok no_hold_result, db) else
  let hold := amount (HoldAmount cmd) in
  guarded_funds (hold_UserID cmd) (λ f, Qle_bool hold (inject_Z (fund_Frozen f)))
    (λ f, (inject_Z (fund_Balance f) + hold, inject_Z (fund_Frozen f) - hold)%Q) frozen_insufficient db.

Definition applied_hold (r : BatchImageBalanceHoldResult) : BatchImageBalanceHoldResult :=
  Build_BatchImageBalanceHoldResult true (hold_NewBalance r) (hold_FrozenBalance r).

Definition applyBatchImageBalanceHold (cmd : BatchImageBalanceHoldCommand)
  (apply : BatchImageBalanceHoldCommand -> M BillingDB BatchImageBalanceHoldResult)
  : M BillingDB BatchImageBalanceHoldResult :=
  let cmd := hold_Normalize cmd in
  if str_empty (hold_RequestID cmd) then mfail ErrUsageBillingRequestIDRequired else
  transaction no_hold_result
    (let! applied := claimUsageBillingRequest (hold_RequestID cmd) (hold_APIKeyID cmd)
                       (hold_RequestFingerprint cmd) in
     if negb applied then mret None else
     let! result := apply cmd in
     mret (Some (applied_hold result))).

Definition ReserveBatchImageBalance (cmd : BatchImageBalanceHoldCommand) :=
  applyBatchImageBalanceHold cmd reserveUsageBillingBatchImageBalance.
Definition CaptureBatchImageBalance (cmd : BatchImageBalanceHoldCommand) :=
  applyBatchImageBalanceHold cmd captureUsageBillingBatchImageBalance.
Definition ReleaseBatchImageBalance (cmd : BatchImageBalanceHoldCommand) :=
  applyBatchImageBalanceHold cmd releaseUsageBillingBatchImageBalance.

(** ** Retention

    One round of [CleanupUsageBillingDedup] moves some keys, chosen by age, to
    the archive, which keeps the entry it has. *)
Definition archive_keys (old : string * Z -> bool) (db : BillingDB) : BillingDB :=
  let victims := filter (λ kv, old kv.1 = true) (bd_dedup db) in
  Build_BillingDB (filter (λ kv, old kv.1 = false) (bd_dedup db))
    (bd_archive db ∪ victims) (bd_users db) (bd_subs db) (bd_keys db) (bd_accounts db).

End UsageBilling.
