(* ===== verification/UsageBillingProps.v ===== *)
(** * Properties of applied charges

    Over any sequence of charges, holds, captures, releases and archive rounds
    a request is applied at most once; what an applied charge and an applied
    hold do to the balances, and how far the rounding of the columns lets the
    ledger drift. *)

From Stdlib Require Import QArith Qround Qabs Lqa.
From S2P Require Import Prelude GoErrors Float64 GoTime GoStrings Subscription SubscriptionRepo APIKeys SchedulerOutbox Account AccountQuota AccountQuotaProps UsageBilling.

(** ** Rounding *)

#[local] Instance round_half_away_proper : Proper (Qeq ==> eq) round_half_away.
Proof.
  intros x y Hxy. unfold round_half_away.
  assert (Qle_bool 0 x = Qle_bool 0 y) as -> by (apply eq_true_iff_eq; rewrite !Qle_bool_iff; by rewrite Hxy).
  destruct (Qle_bool 0 y); [by rewrite Hxy|]. by rewrite Hxy.
Qed.

Lemma Qfloor_unique q z : (inject_Z z <= q)%Q -> (q < inject_Z (z + 1))%Q -> Qfloor q = z.
Proof.
  intros H1 H2. pose proof (Qfloor_le q) as H3. pose proof (Qlt_floor q) as H4.
  assert (inject_Z z < inject_Z (Qfloor q + 1))%Q as H5 by lra.
  assert (inject_Z (Qfloor q) < inject_Z (z + 1))%Q as H6 by lra.
  rewrite <- Zlt_Qlt in H5, H6. lia.
Qed.

(** Half a unit at most is lost or gained. *)
Lemma round_error q : (Qabs (inject_Z (round_half_away q) - q) <= 1 # 2)%Q.
Proof.
  apply Qabs_Qle_condition. unfold round_half_away. destruct (Qle_bool 0 q).
  - pose proof (Qfloor_le (q + (1 # 2))). pose proof (Qlt_floor (q + (1 # 2))) as H1.
    rewrite inject_Z_plus in H1. change (inject_Z 1) with 1%Q in H1. split; lra.
  - pose proof (Qfloor_le (- q + (1 # 2))). pose proof (Qlt_floor (- q + (1 # 2))) as H1.
    rewrite inject_Z_plus in H1. change (inject_Z 1) with 1%Q in H1. rewrite inject_Z_opp. split; lra.
Qed.

Lemma round_nonneg q : (0 <= q)%Q -> 0 <= round_half_away q.
Proof.
  intros H. unfold round_half_away. rewrite (proj2 (Qle_bool_iff _ _) H).
  change 0 with (Qfloor 0). apply Qfloor_resp_le. lra.
Qed.

(** Whole units, and whole units and a half. *)
Definition whole (q : Q) : bool := Qeq_bool (inject_Z (Qfloor q)) q.
Definition half (q : Q) : bool := Qeq_bool (inject_Z (Qfloor q) + (1 # 2)) q.

Lemma half_false q z : half q = false -> ~ (q == inject_Z z + (1 # 2))%Q.
Proof.
  intros Hh Hq. assert (Qfloor q = z) as Hf.
  { apply Qfloor_unique; rewrite Hq, ?inject_Z_plus; change (inject_Z 1) with 1%Q; lra. }
  unfold half in Hh. rewrite Hf in Hh. apply not_true_iff_false in Hh. apply Hh.
  apply Qeq_bool_iff. by rewrite Hq.
Qed.

Lemma round_not_half q : half q = false -> round_half_away q = Qfloor (q + (1 # 2)).
Proof.
  intros Hh. unfold round_half_away. destruct (Qle_bool 0 q); [done|].
  symmetry. pose proof (Qfloor_le (- q + (1 # 2))) as H1. pose proof (Qlt_floor (- q + (1 # 2))) as H2.
  set (n := Qfloor (- q + (1 # 2))) in *. rewrite inject_Z_plus in H2. change (inject_Z 1) with 1%Q in H2.
  assert (~ (q == inject_Z (- n) + (1 # 2)))%Q as Hn by by apply half_false.
  rewrite inject_Z_opp in Hn.
  apply Qfloor_unique; rewrite ?inject_Z_plus, ?inject_Z_opp; change (inject_Z 1) with 1%Q; [lra|].
  destruct (Qle_lt_or_eq _ _ H1) as [?|E]; [lra|]. exfalso. apply Hn. rewrite E. ring.
Qed.

Lemma half_shift z q : half q = false -> half (inject_Z z + q) = false.
Proof.
  intros Hh. apply not_true_iff_false. intros H%Qeq_bool_iff.
  set (n := Qfloor (inject_Z z + q)) in *. apply (half_false q (n - z) Hh).
  unfold Z.sub. rewrite inject_Z_plus, inject_Z_opp. lra.
Qed.
Lemma half_opp q : half q = false -> half (- q) = false.
Proof.
  intros Hh. apply not_true_iff_false. intros H%Qeq_bool_iff.
  set (n := Qfloor (- q)) in *. apply (half_false q (- n - 1) Hh).
  unfold Z.sub. rewrite inject_Z_plus, inject_Z_opp. change (inject_Z (- (1))) with (- 1)%Q. lra.
Qed.

#[local] Instance half_proper : Proper (Qeq ==> eq) half.
Proof.
  intros x y Hxy. unfold half. assert (Qfloor x = Qfloor y) as -> by (by rewrite Hxy).
  apply eq_true_iff_eq. rewrite !Qeq_bool_iff. by rewrite Hxy.
Qed.
Lemma half_opp_eq q : half (- q) = half q.
Proof.
  destruct (half q) eqn:Hh; [|by apply half_opp].
  destruct (half (- q)) eqn:Hn; [done|]. apply half_opp in Hn. by rewrite Qopp_involutive, Hh in Hn.
Qed.

(** Away from the halves, rounding commutes with adding whole units and with
    the sign. *)
Lemma round_shift z q : half q = false -> round_half_away (inject_Z z + q) = z + round_half_away q.
Proof.
  intros Hh. rewrite !round_not_half by eauto using half_shift.
  pose proof (Qfloor_le (q + (1 # 2))). pose proof (Qlt_floor (q + (1 # 2))) as H1.
  apply Qfloor_unique; rewrite !inject_Z_plus in *; change (inject_Z 1) with 1%Q in *; lra.
Qed.
Lemma round_opp q : half q = false -> round_half_away (- q) = - round_half_away q.
Proof.
  intros Hh. rewrite (round_not_half q), (round_not_half (- q)) by eauto using half_opp.
  pose proof (Qfloor_le (q + (1 # 2))) as H1. pose proof (Qlt_floor (q + (1 # 2))) as H2.
  set (n := Qfloor (q + (1 # 2))) in *. rewrite inject_Z_plus in H2. change (inject_Z 1) with 1%Q in H2.
  assert (~ (q == inject_Z (n - 1) + (1 # 2)))%Q as Hn by by apply half_false.
  unfold Z.sub in Hn. rewrite inject_Z_plus in Hn. change (inject_Z (- (1))) with (- 1)%Q in Hn.
  apply Qfloor_unique; rewrite ?inject_Z_plus, ?inject_Z_opp; change (inject_Z 1) with 1%Q; [|lra].
  destruct (Qle_lt_or_eq _ _ H1) as [?|E]; [lra|]. exfalso. apply Hn. rewrite E. ring.
Qed.
Lemma round_whole z : round_half_away (inject_Z z) = z.
Proof.
  rewrite <- (Qplus_0_r (inject_Z z)), round_shift by reflexivity.
  change (round_half_away 0) with 0. lia.
Qed.

Lemma numeric_Some q z : numeric_20_8 q = Some z -> z = round_half_away q.
Proof. unfold numeric_20_8. destruct (_ <? _); naive_solver. Qed.

(** What moving [q] between two columns does to their sum: nothing, but at an
    exact half both may be rounded up. *)
Lemma moved_total a b q :
  (Qabs (inject_Z (round_half_away (inject_Z a + q) + round_half_away (inject_Z b - q))
         - inject_Z (a + b)) <= if half q then 1 else 0)%Q.
Proof.
  destruct (half q) eqn:Hh.
  - pose proof (round_error (inject_Z a + q)) as H1. pose proof (round_error (inject_Z b - q)) as H2.
    apply Qabs_Qle_condition in H1 as [H1 H1'], H2 as [H2 H2']. apply Qabs_Qle_condition.
    rewrite !inject_Z_plus. split; lra.
  - unfold Qminus at 2. rewrite !round_shift, round_opp by eauto using half_opp.
    replace (_ + _) with (a + b) by lia. apply Qabs_Qle_condition. split; lra.
Qed.

Section Props.
Context {UC : UnicodeCase}.
Context (decimal_round8 : float64 -> float64) (sha256_hex : string -> string)
        (format_d : Z -> string) (format_f10 : float64 -> string) (sent : float64 -> Q).
Context (db_add db_sub : float64 -> float64 -> float64) (db_zone : Location).
Context {PG : Postgres}.

#[local] Abbreviation DB := BillingDB.
#[local] Abbreviation apply_ :=
  (Apply decimal_round8 sha256_hex format_d format_f10 sent db_add db_sub db_zone).
#[local] Abbreviation hold_ :=
  (applyBatchImageBalanceHold sha256_hex format_d format_f10).
#[local] Abbreviation normal :=
  (Normalize decimal_round8 sha256_hex format_d format_f10).
#[local] Abbreviation hold_normal := (hold_Normalize sha256_hex format_d format_f10).
#[local] Abbreviation amount_ := (amount sent).
#[local] Abbreviation effects :=
  (applyUsageBillingEffects sha256_hex sent db_add db_sub db_zone).

(** ** Sequences of operations *)

Inductive billing_op :=
  | BApply (cmd : UsageBillingCommand)
  | BReserve (cmd : BatchImageBalanceHoldCommand)
  | BCapture (cmd : BatchImageBalanceHoldCommand)
  | BRelease (cmd : BatchImageBalanceHoldCommand)
  | BArchive (old : string * Z -> bool).

Definition op_hold (op : billing_op)
  : option (BatchImageBalanceHoldCommand *
            (BatchImageBalanceHoldCommand -> M DB BatchImageBalanceHoldResult)) :=
  match op with
  | BReserve cmd => Some (cmd, reserveUsageBillingBatchImageBalance sent)
  | BCapture cmd => Some (cmd, captureUsageBillingBatchImageBalance sent)
  | BRelease cmd => Some (cmd, releaseUsageBillingBatchImageBalance sent)
  | _ => None
  end.

(** The key an operation reports as applied, and the database after it. *)
Definition run_op (op : billing_op) (db : DB) : option (string * Z) * DB :=
  match op with
  | BApply cmd =>
    let '(r, db') := apply_ cmd db in
    (match r with
     | Ok res => if Applied res then Some (RequestID (normal cmd), cmd_APIKeyID cmd) else None
     | Err _ => None end, db')
  | BReserve cmd | BCapture cmd | BRelease cmd =>
    match op_hold op with
    | Some (cmd, f) =>
      let '(r, db') := hold_ cmd f db in
      (match r with
       | Ok res => if hold_Applied res
                   then Some (hold_RequestID (hold_normal cmd), hold_APIKeyID cmd) else None
       | Err _ => None end, db')
    | None => (None, db)
    end
  | BArchive old => (None, archive_keys old db)
  end.

Fixpoint run_ops (ops : list billing_op) (db : DB) : list (string * Z) * DB :=
  match ops with
  | [] => ([], db)
  | op :: rest =>
    let '(k, db1) := run_op op db in
    let '(ks, db2) := run_ops rest db1 in
    (match k with Some key => key :: ks | None => ks end, db2)
  end.

(** ** Effects leave the keys alone *)

Definition keeps_keys {B} (m : M DB B) : Prop :=
  ∀ db, bd_dedup (m db).2 = bd_dedup db /\ bd_archive (m db).2 = bd_archive db.

Lemma keeps_mret {B} (b : B) : keeps_keys (mret b).
Proof. by intros db. Qed.
Lemma keeps_mfail {B} e : keeps_keys (mfail (A := B) e).
Proof. by intros db. Qed.
Lemma keeps_bind {B C} (m : M DB B) (k : B -> M DB C) :
  keeps_keys m -> (∀ b, keeps_keys (k b)) -> keeps_keys (mbind_ m k).
Proof.
  intros Hm Hk db. unfold mbind_. specialize (Hm db).
  destruct (m db) as [[b|e] db1]; [|done]. destruct (Hk b db1) as [-> ->]. exact Hm.
Qed.
Lemma keeps_when {B} cond (d : B) m : keeps_keys m -> keeps_keys (when_ cond d m).
Proof. intros Hm. destruct cond; [exact Hm|apply keeps_mret]. Qed.
Lemma keeps_guarded user g new e : keeps_keys (guarded_funds user g new e).
Proof.
  intros db. unfold guarded_funds. destruct (live_funds user db) as [f|]; [|done].
  destruct (g f); [|done]. by destruct (numeric_20_8 (new f).1), (numeric_20_8 (new f).2).
Qed.

Lemma keeps_effects cmd : keeps_keys (effects cmd).
Proof.
  unfold applyUsageBillingEffects.
  repeat first [apply keeps_bind; [|intros ?] | apply keeps_when | apply keeps_mret].
  - destruct (cmd_SubscriptionID cmd); [apply keeps_when|apply keeps_mret].
    intros db. unfold incrementUsageBillingSubscription, on_subs.
    by destruct (table_IncrementUsage _ _ _ _).
  - intros db. unfold deductUsageBillingBalance. destruct (live_funds _ db); [|done].
    by destruct (numeric_20_8 _).
  - intros db. unfold incrementUsageBillingAPIKeyQuota. by destruct (kt_live _ _).
  - intros db. unfold incrementUsageBillingAPIKeyRateLimit. by destruct (kt_update _ _ _) as [[] ?].
  - intros db. unfold on_accounts. by destruct (incrementUsageBillingAccountQuota _ _ _ _).
Qed.

Lemma keeps_op_hold op cmd f : op_hold op = Some (cmd, f) -> ∀ c, keeps_keys (f c).
Proof.
  intros H c. destruct op; simplify_eq/=.
  - unfold reserveUsageBillingBatchImageBalance.
    destruct (fleb _ f0); [apply keeps_mret|apply keeps_guarded].
  - unfold captureUsageBillingBatchImageBalance.
    destruct (_ && _); [apply keeps_mret|]. destruct (fgtb _ _); [apply keeps_mfail|apply keeps_guarded].
  - intros db. unfold releaseUsageBillingBatchImageBalance.
    destruct (fleb _ f0); [done|]. destruct (negb _); [done|]. apply keeps_guarded.
Qed.

(** ** The claim *)

Definition claimed (key : string * Z) (db : DB) : Prop :=
  is_Some (bd_dedup db !! key) \/ is_Some (bd_archive db !! key).

Lemma claim_true id key_id fp (db db1 : DB) :
  claimUsageBillingRequest id key_id fp db = (Ok true, db1) ->
  bd_dedup db !! (id, key_id) = None /\ bd_archive db !! (id, key_id) = None /\
  db1 = set_dedup (<[(id, key_id) := fp]> (bd_dedup db)) db.
Proof.
  unfold claimUsageBillingRequest.
  destruct (bd_dedup db !! (id, key_id)) as [fp'|] eqn:E1; [by destruct (negb _)|].
  cbn [set_dedup bd_archive].
  destruct (bd_archive db !! (id, key_id)) as [fp'|] eqn:E2; [by destruct (negb _)|].
  intros [= <-]. done.
Qed.

(** What a transaction that claims a key leaves behind: the old state, or the
    effects on the state with the key claimed. *)
Lemma claim_transaction {B C} id key_id fp (d : C) (m : M DB B) (g : B -> C)
  (db : DB) r db' :
  transaction d
    (let! applied := claimUsageBillingRequest id key_id fp in
     if negb applied then mret None else let! result := m in mret (Some (g result))) db = (r, db') ->
  (db' = db /\ (∀ b, r = Ok b -> b = d)) \/
  (∃ b, r = Ok (g b) /\ bd_dedup db !! (id, key_id) = None /\ bd_archive db !! (id, key_id) = None /\
     m (set_dedup (<[(id, key_id) := fp]> (bd_dedup db)) db) = (Ok b, db')).
Proof.
  unfold transaction, mbind_.
  destruct (claimUsageBillingRequest id key_id fp db) as [[[]|e] db1] eqn:Ec; cbn [negb].
  - apply claim_true in Ec as (H1 & H2 & ->).
    destruct (m _) as [[b|e] db2] eqn:Em; cbn; intros [= <- <-]; [|by left].
    right. by exists b.
  - intros [= <- <-]. left. split; [done|]. by intros b [= ->].
  - intros [= <- <-]. by left.
Qed.

(** The two shapes of a committed operation. *)
Lemma apply_inv cmd (db : DB) r db' :
  apply_ cmd db = (r, db') ->
  (db' = db /\ (∀ b, r = Ok b -> Applied b = false)) \/
  (let c := normal cmd in let key := (RequestID c, cmd_APIKeyID c) in
   ∃ b, r = Ok b /\ Applied b = true /\ bd_dedup db !! key = None /\ bd_archive db !! key = None /\
     effects c (set_dedup (<[key := RequestFingerprint c]> (bd_dedup db)) db) = (Ok b, db')).
Proof.
  unfold Apply. destruct (str_empty _); [intros [= <- <-]; by left|].
  intros [[-> Hr]|(b & -> & H1 & H2 & Hb)]%(claim_transaction _ _ _ _ _ (λ x, x)).
  - left. split; [done|]. by intros b ->%Hr.
  - right. exists b. split_and!; try done.
    unfold applyUsageBillingEffects in Hb.
    repeat (apply mbind_Ok in Hb as (? & ? & _ & Hb)). by injection Hb as <- _.
Qed.

Lemma hold_inv cmd (f : BatchImageBalanceHoldCommand -> M DB BatchImageBalanceHoldResult)
  (db : DB) r db' :
  hold_ cmd f db = (r, db') ->
  (db' = db /\ (∀ b, r = Ok b -> hold_Applied b = false)) \/
  (let c := hold_normal cmd in let key := (hold_RequestID c, hold_APIKeyID c) in
   ∃ b, r = Ok (applied_hold b) /\ bd_dedup db !! key = None /\ bd_archive db !! key = None /\
     f c (set_dedup (<[key := hold_RequestFingerprint c]> (bd_dedup db)) db) = (Ok b, db')).
Proof.
  unfold applyBatchImageBalanceHold. destruct (str_empty _); [intros [= <- <-]; by left|].
  intros [[-> Hr]|(b & -> & H1 & H2 & Hb)]%claim_transaction.
  - left. split; [done|]. by intros b ->%Hr.
  - right. by exists b.
Qed.

(** One step, seen from the keys: nothing changes, or one new key is claimed
    with its fingerprint, or some keys are archived. *)
Inductive key_step (db db' : DB) : option (string * Z) -> Prop :=
  | step_same : bd_dedup db' = bd_dedup db -> bd_archive db' = bd_archive db -> key_step db db' None
  | step_claim key fp :
      bd_dedup db !! key = None -> bd_archive db !! key = None ->
      bd_dedup db' = <[key := fp]> (bd_dedup db) -> bd_archive db' = bd_archive db ->
      key_step db db' (Some key)
  | step_archive old : db' = archive_keys old db -> key_step db db' None.

Lemma run_op_step op db k db' : run_op op db = (k, db') -> key_step db db' k.
Proof.
  assert (∀ cmd (f : BatchImageBalanceHoldCommand -> M DB BatchImageBalanceHoldResult),
    (∀ c, keeps_keys (f c)) ->
    (let '(r, db'') := hold_ cmd f db in
     (match r with
      | Ok res => if hold_Applied res then Some (hold_RequestID (hold_normal cmd), hold_APIKeyID cmd)
                  else None
      | Err _ => None end, db'')) = (k, db') -> key_step db db' k) as Hhold.
  { intros cmd f Hf. destruct (hold_ cmd f db) as [r db1] eqn:E.
    apply hold_inv in E as [[-> Hr]|(b & -> & H1 & H2 & Hb)]; intros [= <- <-].
    - destruct r as [res|e]; [rewrite (Hr _ eq_refl)|]; by constructor.
    - cbn [applied_hold hold_Applied].
      destruct (Hf (hold_normal cmd) (set_dedup (<[(hold_RequestID (hold_normal cmd),
        hold_APIKeyID (hold_normal cmd)) := hold_RequestFingerprint (hold_normal cmd)]>
        (bd_dedup db)) db)) as [E1 E2].
      rewrite Hb in E1, E2. cbn in E1, E2.
      replace (hold_APIKeyID cmd) with (hold_APIKeyID (hold_normal cmd)).
      + by eapply step_claim.
      + unfold hold_Normalize. by destruct (str_empty _). }
  destruct op as [cmd|cmd|cmd|cmd|old]; cbn [run_op op_hold].
  - destruct (apply_ cmd db) as [r db1] eqn:E.
    apply apply_inv in E as [[-> Hr]|(b & -> & Ha & H1 & H2 & Hb)]; intros [= <- <-].
    + destruct r as [res|e]; [rewrite (Hr _ eq_refl)|]; by constructor.
    + rewrite Ha. destruct (keeps_effects (normal cmd) (set_dedup (<[(RequestID (normal cmd),
        cmd_APIKeyID (normal cmd)) := RequestFingerprint (normal cmd)]> (bd_dedup db)) db)) as [E1 E2].
      rewrite Hb in E1, E2. cbn in E1, E2. by eapply step_claim.
  - apply Hhold. by apply (keeps_op_hold (BReserve cmd) cmd).
  - apply Hhold. by apply (keeps_op_hold (BCapture cmd) cmd).
  - apply Hhold. by apply (keeps_op_hold (BRelease cmd) cmd).
  - intros [= <- <-]. by eapply step_archive.
Qed.

(** The fingerprint a key was claimed with, wherever it is kept now. *)
Definition claimed_with (key : string * Z) (fp : string) (db : DB) : Prop :=
  (bd_dedup db !! key = Some fp /\ bd_archive db !! key = None) \/
  (bd_dedup db !! key = None /\ bd_archive db !! key = Some fp).

Lemma archive_lookup old (db : DB) key :
  bd_dedup (archive_keys old db) !! key = (if old key then None else bd_dedup db !! key) /\
  bd_archive (archive_keys old db) !! key =
    match bd_archive db !! key with
    | Some fp => Some fp
    | None => if old key then bd_dedup db !! key else None
    end.
Proof.
  unfold archive_keys. cbn [bd_dedup bd_archive].
  rewrite lookup_union, !map_lookup_filter.
  destruct (bd_dedup db !! key) as [fp|]; cbn;
    destruct (bd_archive db !! key) as [fp'|], (old key); cbn; try done.
Qed.

Lemma step_claimed db db' k key : key_step db db' k -> claimed key db -> claimed key db'.
Proof.
  unfold claimed. intros Hs Hc. destruct Hs as [-> ->|key' fp H1 H2 -> ->|old ->]; [done| |].
  - destruct Hc as [[x Hx]|Hc]; [|by right]. left.
    destruct (decide (key = key')) as [->|]; [rewrite lookup_insert_eq|rewrite lookup_insert_ne by done];
      eauto.
  - destruct (archive_lookup old db key) as [-> ->].
    destruct (bd_archive db !! key) as [fp|], (old key); cbn; eauto.
    destruct Hc as [?|[x [=]]]; auto.
Qed.

Lemma step_claimed_with db db' k key fp :
  key_step db db' k -> claimed_with key fp db -> claimed_with key fp db'.
Proof.
  unfold claimed_with. intros Hs Hc. destruct Hs as [-> ->|key' fp' H1 H2 -> ->|old ->]; [done| |].
  - rewrite lookup_insert_ne by (intros ->; destruct Hc as [[??]|[??]]; congruence). done.
  - destruct (archive_lookup old db key) as [-> ->].
    destruct Hc as [[-> ->]|[-> ->]]; destruct (old key); auto.
Qed.

Lemma run_ops_claimed ops db key : claimed key db -> claimed key (run_ops ops db).2.
Proof.
  revert db. induction ops as [|op ops IH]; intros db H; cbn [run_ops]; [done|].
  destruct (run_op op db) as [k db1] eqn:E. specialize (IH db1).
  destruct (run_ops ops db1) as [ks db2]. cbn in *. apply IH.
  eapply step_claimed; [by apply run_op_step in E|done].
Qed.

Lemma run_ops_claimed_with ops db key fp :
  claimed_with key fp db -> claimed_with key fp (run_ops ops db).2.
Proof.
  revert db. induction ops as [|op ops IH]; intros db H; cbn [run_ops]; [done|].
  destruct (run_op op db) as [k db1] eqn:E. specialize (IH db1).
  destruct (run_ops ops db1) as [ks db2]. cbn in *. apply IH.
  eapply step_claimed_with; [by apply run_op_step in E|done].
Qed.

Lemma run_ops_fresh ops db key :
  key ∈ (run_ops ops db).1 -> ~ claimed key db.
Proof.
  revert db. induction ops as [|op ops IH]; intros db; cbn [run_ops].
  { by intros ?%elem_of_nil. }
  destruct (run_op op db) as [k db1] eqn:E. specialize (IH db1).
  destruct (run_ops ops db1) as [ks db2]. cbn in *. apply run_op_step in E.
  assert (key ∈ ks -> ~ claimed key db) as Hks.
  { intros Hin Hc. apply (IH Hin). by eapply step_claimed. }
  destruct k as [key'|]; [|exact Hks]. intros [->|Hin]%elem_of_cons; [|by apply Hks].
  inversion E; subst. intros [[x Hx]|[x Hx]]; congruence.
Qed.

(** ** Money *)

Definition keeps_users {B} (m : M DB B) : Prop := ∀ db, bd_users (m db).2 = bd_users db.

Lemma keeps_users_mret {B} (b : B) : keeps_users (mret b).
Proof. by intros db. Qed.
Lemma keeps_users_bind {B C} (m : M DB B) (k : B -> M DB C) :
  keeps_users m -> (∀ b, keeps_users (k b)) -> keeps_users (mbind_ m k).
Proof.
  intros Hm Hk db. unfold mbind_. specialize (Hm db).
  destruct (m db) as [[b|e] db1]; [|done]. rewrite (Hk b db1). exact Hm.
Qed.
Lemma keeps_users_when {B} cond (d : B) m : keeps_users m -> keeps_users (when_ cond d m).
Proof. intros Hm. destruct cond; [exact Hm|apply keeps_users_mret]. Qed.

Lemma keeps_users_subscription id cost :
  keeps_users (incrementUsageBillingSubscription db_add id cost).
Proof.
  intros db. unfold incrementUsageBillingSubscription, on_subs. by destruct (table_IncrementUsage _ _ _ _).
Qed.
Lemma keeps_users_quota id cost :
  keeps_users (incrementUsageBillingAPIKeyQuota db_add db_sub id cost).
Proof. intros db. unfold incrementUsageBillingAPIKeyQuota. by destruct (kt_live _ _). Qed.
Lemma keeps_users_rate id cost :
  keeps_users (incrementUsageBillingAPIKeyRateLimit db_add db_zone id cost).
Proof.
  intros db. unfold incrementUsageBillingAPIKeyRateLimit. by destruct (kt_update _ _ _) as [[] ?].
Qed.
Lemma keeps_users_account id cost :
  keeps_users (on_accounts (incrementUsageBillingAccountQuota sha256_hex id cost)).
Proof.
  intros db. unfold on_accounts. by destruct (incrementUsageBillingAccountQuota _ _ _ _).
Qed.

(** The balance part of a charge. *)
Definition balance_charge (c : UsageBillingCommand) : Q :=
  if fgtb (BalanceCost c) f0 then amount_ (BalanceCost c) else 0%Q.

(** The balance a charge leaves. *)
Definition charged (balance : Z) (charge : Q) : Z := round_half_away (inject_Z balance - charge).

Lemma charged_nothing z : charged z 0 = z.
Proof.
  unfold charged. rewrite <- (round_whole z) at 2. apply round_half_away_proper. ring.
Qed.

(** The two CASEs of a capture come to a difference. *)
Lemma capture_balance z h a : (inject_Z z + excess h a - excess a h == inject_Z z + h - a)%Q.
Proof.
  unfold excess. destruct (Qle_bool h a) eqn:E1, (Qle_bool a h) eqn:E2;
    rewrite ?Qle_bool_iff in *; try lra.
  apply not_true_iff_false in E1, E2. rewrite Qle_bool_iff in *. lra.
Qed.

Lemma live_funds_users u (db db' : DB) : bd_users db' = bd_users db -> live_funds u db' = live_funds u db.
Proof. intros H. unfold live_funds. by rewrite H. Qed.

Lemma live_put_funds u v b fr (db : DB) :
  live_funds u (put_funds v b fr db) =
    if decide (u = v) then Some (Build_UserFunds b fr false) else live_funds u db.
Proof.
  unfold live_funds, put_funds. cbn [set_users bd_users].
  destruct (decide (u = v)) as [->|Hne]; [by rewrite lookup_insert_eq|by rewrite lookup_insert_ne].
Qed.

(** The steps of the effects that touch the users: the deduction alone. *)
Lemma effects_users c db b db' :
  effects c db = (Ok b, db') ->
  if fgtb (BalanceCost c) f0 then
    ∃ f, live_funds (cmd_UserID c) db = Some f /\
      bd_users db' = bd_users (put_funds (cmd_UserID c)
        (charged (fund_Balance f) (amount_ (BalanceCost c))) (fund_Frozen f) db) /\
      NewBalance b = Some (charged (fund_Balance f) (amount_ (BalanceCost c))) /\
      BalanceOverdrafted b = negb (Qle_bool (amount_ (BalanceCost c)) (inject_Z (fund_Balance f)))
  else bd_users db' = bd_users db /\ NewBalance b = None /\ BalanceOverdrafted b = false.
Proof.
  unfold applyUsageBillingEffects. intros H.
  apply mbind_Ok in H as (u1 & db1 & H1 & H).
  assert (bd_users db1 = bd_users db) as E1.
  { assert (keeps_users (match cmd_SubscriptionID c with
      | Some id => when_ (fgtb (SubscriptionCost c) f0) tt
                     (incrementUsageBillingSubscription db_add id (SubscriptionCost c))
      | None => mret tt end)) as Hk
      by (destruct (cmd_SubscriptionID c); [apply keeps_users_when, keeps_users_subscription
                                           |apply keeps_users_mret]).
    specialize (Hk db). by rewrite H1 in Hk. }
  apply mbind_Ok in H as (deduction & db2 & H2 & H).
  assert (bd_users db' = bd_users db2 /\ NewBalance b = option_map fst deduction /\
          BalanceOverdrafted b = match deduction with Some (_, s) => negb s | None => false end)
    as (E2 & Hn & Ho).
  { match type of H with ?m db2 = _ => assert (keeps_users m) as Hk end.
    { repeat first [ apply keeps_users_bind; [|intros ?] | apply keeps_users_when
                   | apply keeps_users_mret | apply keeps_users_quota | apply keeps_users_rate
                   | apply keeps_users_account ]. }
    specialize (Hk db2). rewrite H in Hk. cbn in Hk. split; [done|].
    repeat (apply mbind_Ok in H as (? & ? & _ & H)). by injection H as <- _. }
  rewrite Hn, Ho, E2. unfold when_ in H2. destruct (fgtb (BalanceCost c) f0).
  - apply mbind_Ok in H2 as ([nb ok] & db3 & H2 & H3). injection H3 as <- <-.
    unfold deductUsageBillingBalance in H2. rewrite (live_funds_users _ _ _ E1) in H2.
    destruct (live_funds (cmd_UserID c) db) as [f|]; [|done].
    destruct (numeric_20_8 _) as [z|] eqn:En; [|done]. injection H2 as <- <- <-.
    apply numeric_Some in En as ->. exists f. split_and!; [done| |done|done].
    unfold put_funds. cbn [set_users bd_users]. by rewrite E1.
  - injection H2 as <- <-. by rewrite E1.
Qed.

(** ** Properties *)

(** C1. A request is applied at most once: in any sequence of charges, holds,
    captures, releases and archive rounds, from any database, no idempotency
    key is reported applied twice, and none that the live table or the archive
    already had. *)
Theorem applied_at_most_once ops db :
  NoDup (run_ops ops db).1 /\ ∀ key, key ∈ (run_ops ops db).1 -> ~ claimed key db.
Proof.
  split; [|apply run_ops_fresh].
  revert db. induction ops as [|op ops IH]; intros db; cbn [run_ops]; [constructor|].
  destruct (run_op op db) as [k db1] eqn:E. pose proof (run_ops_fresh ops db1) as Hf.
  specialize (IH db1). destruct (run_ops ops db1) as [ks db2]. cbn in *.
  destruct k as [key|]; [|done]. constructor; [|done]. intros Hin. apply (Hf key Hin).
  apply run_op_step in E. inversion E; subst. left.
  match goal with H : bd_dedup db1 = _ |- _ => rewrite H end. rewrite lookup_insert_eq. eauto.
Qed.

(** C35. Repeating a charge that was applied answers "not applied" and changes
    nothing, whatever ran in between, archive rounds included; the same request
    id with another fingerprint is refused. *)
Theorem Apply_replay cmd cmd' db b db1 ops :
  apply_ cmd db = (Ok b, db1) -> Applied b = true ->
  RequestID (normal cmd') = RequestID (normal cmd) -> cmd_APIKeyID cmd' = cmd_APIKeyID cmd ->
  let db2 := (run_ops ops db1).2 in
  apply_ cmd' db2 =
    (if same_fingerprint (RequestFingerprint (normal cmd)) (RequestFingerprint (normal cmd'))
     then Ok no_result else Err ErrUsageBillingRequestConflict, db2).
Proof.
  intros Ha Hb Hid Hkey db2.
  assert (claimed_with (RequestID (normal cmd), cmd_APIKeyID cmd) (RequestFingerprint (normal cmd)) db2)
    as Hc.
  { apply run_ops_claimed_with. pose proof Ha as Hi.
    apply apply_inv in Hi as [[-> Hr]|(b' & _ & _ & H1 & H2 & He)]; [by rewrite (Hr _ eq_refl) in Hb|].
    destruct (keeps_effects (normal cmd) (set_dedup (<[(RequestID (normal cmd),
        cmd_APIKeyID (normal cmd)) := RequestFingerprint (normal cmd)]> (bd_dedup db)) db)) as [E1 E2].
    rewrite He in E1, E2. cbn in E1, E2. left. rewrite E1, E2. split; [|done].
    apply lookup_insert_eq. }
  unfold Apply in Ha |- *. rewrite Hid.
  destruct (str_empty (RequestID (normal cmd))); [done|]. clear Ha.
  unfold transaction, mbind_, claimUsageBillingRequest.
  change (cmd_APIKeyID (normal cmd')) with (cmd_APIKeyID cmd'). rewrite Hkey.
  destruct Hc as [[-> H2]|[-> H2]].
  - by destruct (same_fingerprint _ _).
  - cbn [set_dedup bd_archive]. rewrite H2. by destruct (same_fingerprint _ _).
Qed.

(** An applied charge takes the rounded balance cost from its user and
    from nobody else, leaves the frozen part alone, and reports the balance it
    left and whether the balance did not cover the cost. *)
Theorem Apply_charges_balance cmd db b db' f :
  apply_ cmd db = (Ok b, db') -> Applied b = true ->
  live_funds (cmd_UserID cmd) db = Some f ->
  let charge := balance_charge (normal cmd) in
  live_funds (cmd_UserID cmd) db' =
    Some (Build_UserFunds (charged (fund_Balance f) charge) (fund_Frozen f) false) /\
  (∀ u, u ≠ cmd_UserID cmd -> live_funds u db' = live_funds u db) /\
  (fgtb (BalanceCost (normal cmd)) f0 = true ->
     NewBalance b = Some (charged (fund_Balance f) charge) /\
     BalanceOverdrafted b = negb (Qle_bool charge (inject_Z (fund_Balance f)))).
Proof.
  intros Ha Hb Hf. apply apply_inv in Ha as [[-> Hr]|(b' & [= <-] & _ & _ & _ & He)];
    [by rewrite (Hr _ eq_refl) in Hb|].
  apply effects_users in He. unfold balance_charge.
  set (db0 := set_dedup _ db) in He. change (cmd_UserID (normal cmd)) with (cmd_UserID cmd) in He.
  assert (live_funds (cmd_UserID cmd) db0 = Some f) as Hf0 by exact Hf.
  destruct (fgtb (BalanceCost (normal cmd)) f0).
  - destruct He as (f' & Hl & Hu & Hn & Ho). rewrite Hf0 in Hl. injection Hl as <-.
    split_and!; [| |done].
    + rewrite (live_funds_users _ _ _ Hu), live_put_funds. by rewrite decide_True.
    + intros u Hne. rewrite (live_funds_users _ _ _ Hu), live_put_funds. by rewrite decide_False.
  - destruct He as (Hu & Hn & Ho). split_and!; [| |done].
    + rewrite (live_funds_users _ _ _ Hu), Hf0, charged_nothing.
      unfold live_funds in Hf. destruct (bd_users db !! cmd_UserID cmd) as [[bal fr []]|]; [done| |done].
      by injection Hf as <-.
    + intros u _. by apply live_funds_users.
Qed.

(** What an applied operation takes from the funds of user [u]. *)
Definition op_spent (op : billing_op) (u : Z) : Q :=
  match op with
  | BApply cmd => if cmd_UserID cmd =? u then balance_charge (normal cmd) else 0%Q
  | BCapture cmd =>
    if (hold_UserID cmd =? u) && negb (fleb (HoldAmount cmd) f0 && fleb (ActualAmount cmd) f0)
    then amount_ (ActualAmount cmd) else 0%Q
  | _ => 0%Q
  end.

(** The drift an operation may cause by rounding: none when the columns can
    hold its amounts; a half for a charge, whose one column is rounded; a unit
    for a hold or a release of an exact half, and for a capture, which round
    two columns. *)
Definition op_drift (op : billing_op) (u : Z) : Q :=
  match op with
  | BApply cmd =>
    if (cmd_UserID cmd =? u) && negb (whole (balance_charge (normal cmd))) then 1 # 2 else 0%Q
  | BReserve cmd | BRelease cmd =>
    if (hold_UserID cmd =? u) && half (amount_ (HoldAmount cmd)) then 1%Q else 0%Q
  | BCapture cmd =>
    if (hold_UserID cmd =? u)
       && negb (whole (amount_ (HoldAmount cmd)) && whole (amount_ (ActualAmount cmd))) then 1%Q else 0%Q
  | BArchive _ => 0%Q
  end.
Definition funds_total (f : UserFunds) : Z := fund_Balance f + fund_Frozen f.

Lemma op_drift_nonneg op u : (0 <= op_drift op u)%Q.
Proof. destruct op; cbn [op_drift]; try destruct (_ && _); done. Qed.

(** The driver writes a positive number for a positive parameter. *)
Definition sent_positive : Prop :=
  ∀ x, is_finite x = true -> fleb x f0 = false -> (0 < sent x)%Q.
Definition finite_op (op : billing_op) : Prop :=
  match op with
  | BApply cmd => is_finite (BalanceCost (normal cmd)) = true
  | BReserve cmd | BCapture cmd | BRelease cmd =>
    is_finite (HoldAmount cmd) = true /\ is_finite (ActualAmount cmd) = true
  | BArchive _ => True
  end.

Lemma amount_positive x :
  sent_positive -> is_finite x = true -> fleb x f0 = false -> (0 <= amount_ x)%Q.
Proof.
  intros Hs Hf Hx. unfold amount. apply Qmult_le_0_compat; [|done]. apply Qlt_le_weak. by apply Hs.
Qed.

Lemma guarded_total user g new e u f (db db' : DB) b :
  guarded_funds user g new e db = (Ok b, db') -> live_funds u db = Some f ->
  ∃ f', live_funds u db' = Some f' /\
    (if user =? u then g f = true /\ fund_Balance f' = round_half_away (new f).1 /\
                       fund_Frozen f' = round_half_away (new f).2 else f' = f).
Proof.
  unfold guarded_funds. intros H Hu. destruct (live_funds user db) as [f0'|] eqn:E; [|done].
  destruct (g f0') eqn:Eg; [|done].
  destruct (numeric_20_8 (new f0').1) as [bal|] eqn:E1; [|done].
  destruct (numeric_20_8 (new f0').2) as [fr|] eqn:E2; [|done]. injection H as <- <-.
  apply numeric_Some in E1 as ->, E2 as ->.
  rewrite live_put_funds. destruct (Z.eqb_spec user u) as [->|Hne].
  - rewrite decide_True by done. eexists. split; [done|]. rewrite E in Hu. by injection Hu as ->.
  - rewrite decide_False by done. by exists f.
Qed.

Lemma hold_normal_fields c :
  HoldAmount (hold_normal c) = HoldAmount c /\ ActualAmount (hold_normal c) = ActualAmount c /\
  hold_UserID (hold_normal c) = hold_UserID c.
Proof. unfold hold_Normalize. by destruct (str_empty _). Qed.

(** The effect of an operation on the user [u]: what is taken in all, within
    the drift, and that the frozen part stays covered. *)
Definition funds_change (u : Z) (spent drift : Q) (f : UserFunds) (db' : DB) : Prop :=
  ∃ f', live_funds u db' = Some f' /\
    (Qabs (inject_Z (funds_total f') - (inject_Z (funds_total f) - spent)) <= drift)%Q /\
    (0 <= fund_Frozen f -> 0 <= fund_Frozen f').

Lemma total_unchanged z drift : (0 <= drift)%Q -> (Qabs (inject_Z z - (inject_Z z - 0)) <= drift)%Q.
Proof. intros H. apply Qabs_Qle_condition. split; lra. Qed.

Lemma funds_change_none u drift f db : (0 <= drift)%Q -> live_funds u db = Some f -> funds_change u 0 drift f db.
Proof. intros Hd Hu. exists f. split_and!; [done|by apply total_unchanged|done]. Qed.

Lemma guarded_change user (g : UserFunds -> bool) (new : UserFunds -> Q * Q) e u f (db db' : DB) b spent drift :
  guarded_funds user g new e db = (Ok b, db') -> live_funds u db = Some f -> (0 <= drift)%Q ->
  (g f = true -> user = u ->
     (Qabs (inject_Z (round_half_away (new f).1 + round_half_away (new f).2)
            - (inject_Z (funds_total f) - spent)) <= drift)%Q /\
     (0 <= fund_Frozen f -> (0 <= (new f).2)%Q)) ->
  funds_change u (if user =? u then spent else 0) drift f db'.
Proof.
  intros Hg Hu Hd Hnew. destruct (guarded_total _ _ _ _ _ _ _ _ _ Hg Hu) as (f' & Hf' & Hc).
  exists f'. destruct (Z.eqb_spec user u) as [He|_].
  - destruct Hc as (Hgf & E1 & E2). destruct (Hnew Hgf He) as [H1 H2].
    unfold funds_total at 1. rewrite E1, E2. split_and!; [done|done|auto using round_nonneg].
  - subst. split_and!; [done|by apply total_unchanged|done].
Qed.

(** A move between the two columns, under a guard that covers it. *)
Lemma guarded_move user g new e u f (db db' : DB) b q :
  guarded_funds user g new e db = (Ok b, db') -> live_funds u db = Some f ->
  ((new f).1 == inject_Z (fund_Balance f) + q)%Q -> ((new f).2 == inject_Z (fund_Frozen f) - q)%Q ->
  (g f = true -> 0 <= fund_Frozen f -> (q <= inject_Z (fund_Frozen f))%Q) ->
  funds_change u 0 (if (user =? u) && half q then 1 else 0) f db'.
Proof.
  intros Hb Hu E1 E2 Hq. set (drift := (if _ && _ then _ else _)%Q).
  assert (0 <= drift)%Q by (unfold drift; destruct (_ && _); done).
  apply (guarded_change _ _ _ _ u f _ _ _ 0 drift) in Hb; [by destruct (_ =? u)|done|done|].
  intros Hg He. unfold drift. apply Z.eqb_eq in He. rewrite He. cbn [andb].
  rewrite E1, E2. split.
  - pose proof (moved_total (fund_Balance f) (fund_Frozen f) q) as Hm. unfold funds_total.
    apply Qabs_Qle_condition in Hm as [??]. apply Qabs_Qle_condition. split; lra.
  - intros Hfr. specialize (Hq Hg Hfr). lra.
Qed.

(** The exact sum of a capture, with whole amounts. *)
Lemma capture_whole f h a :
  whole h = true -> whole a = true ->
  (inject_Z (round_half_away (inject_Z (fund_Balance f) + excess h a - excess a h)
             + round_half_away (inject_Z (fund_Frozen f) - h)) == inject_Z (funds_total f) - a)%Q.
Proof.
  intros Hh%Qeq_bool_iff Ha%Qeq_bool_iff. set (h' := Qfloor h) in *. set (a' := Qfloor a) in *.
  assert (inject_Z (fund_Balance f) + excess h a - excess a h == inject_Z (fund_Balance f + h' - a'))%Q as ->.
  { rewrite capture_balance, <- Hh, <- Ha. unfold Z.sub. rewrite !inject_Z_plus, inject_Z_opp. ring. }
  assert (inject_Z (fund_Frozen f) - h == inject_Z (fund_Frozen f - h'))%Q as ->.
  { rewrite <- Hh. unfold Z.sub. rewrite inject_Z_plus, inject_Z_opp. ring. }
  rewrite !round_whole, <- Ha. unfold funds_total, Z.sub. rewrite !inject_Z_plus, !inject_Z_opp. ring.
Qed.

Lemma hold_effect_change op cmd g b (db db' : DB) u f :
  sent_positive -> finite_op op ->
  op_hold op = Some (cmd, g) -> g (hold_normal cmd) db = (Ok b, db') -> live_funds u db = Some f ->
  funds_change u (op_spent op u) (op_drift op u) f db'.
Proof.
  destruct (hold_normal_fields cmd) as (Hh & Ha & Hid). intros Hs Hfin Hop Hb Hu.
  pose proof (op_drift_nonneg op u) as Hd.
  destruct op as [|cmd'|cmd'|cmd'|]; simplify_eq/=.
  - unfold reserveUsageBillingBatchImageBalance in Hb. rewrite Hh, Hid in Hb.
    destruct (fleb (HoldAmount cmd) f0) eqn:Epos; [injection Hb as _ <-; by apply funds_change_none|].
    rewrite <- half_opp_eq. eapply (guarded_move _ _ _ _ u f _ _ _ (- amount_ (HoldAmount cmd))) in Hb;
      [done|done|cbn; ring..|].
    intros _ Hfr. rewrite Zle_Qle in Hfr.
    pose proof (amount_positive _ Hs (proj1 Hfin) Epos). change (inject_Z 0) with 0%Q in Hfr. lra.
  - unfold captureUsageBillingBatchImageBalance in Hb. rewrite Hh, Ha, Hid in Hb.
    destruct (fleb (HoldAmount cmd) f0 && fleb (ActualAmount cmd) f0).
    { injection Hb as _ <-. rewrite andb_false_r. by apply funds_change_none. }
    rewrite andb_true_r. destruct (fgtb _ _); [done|].
    apply (guarded_change _ _ _ _ u f _ _ _ (amount_ (ActualAmount cmd)) _) with (3 := Hd) in Hb; [done..|].
    intros Hg%Qle_bool_iff He%Z.eqb_eq. rewrite He. cbn [andb fst snd]. split; [|intros _; lra].
    destruct (whole (amount_ (HoldAmount cmd)) && whole (amount_ (ActualAmount cmd))) eqn:Hw; cbn [negb].
    + apply andb_true_iff in Hw as [Hw1 Hw2]. rewrite capture_whole by done.
      apply Qabs_Qle_condition. split; lra.
    + set (h := amount_ (HoldAmount cmd)) in *. set (a := amount_ (ActualAmount cmd)) in *.
      pose proof (round_error (inject_Z (fund_Balance f) + excess h a - excess a h)) as H1.
      pose proof (round_error (inject_Z (fund_Frozen f) - h)) as H2.
      pose proof (capture_balance (fund_Balance f) h a) as H3.
      apply Qabs_Qle_condition in H1 as [??], H2 as [??]. apply Qabs_Qle_condition.
      unfold funds_total. rewrite !inject_Z_plus. split; lra.
  - unfold releaseUsageBillingBatchImageBalance in Hb. rewrite Hh, Hid in Hb.
    destruct (fleb (HoldAmount cmd) f0); [injection Hb as _ <-; by apply funds_change_none|].
    destruct (negb _); [injection Hb as _ <-; by apply funds_change_none|].
    eapply (guarded_move _ _ _ _ u f _ _ _ (amount_ (HoldAmount cmd))) in Hb; [done|done|cbn; ring..|].
    by intros Hg%Qle_bool_iff _.
Qed.

Lemma hold_op_change op cmd g db k db' u f :
  sent_positive -> finite_op op ->
  op_hold op = Some (cmd, g) -> run_op op db = (k, db') -> live_funds u db = Some f ->
  match k with Some _ => funds_change u (op_spent op u) (op_drift op u) f db' | None => db' = db end.
Proof.
  intros Hs Hfin Hop Hrun Hu.
  assert (∃ r, hold_ cmd g db = (r, db') /\ (k = None -> (∀ b, r = Ok b -> hold_Applied b = false))
            /\ (∀ key, k = Some key -> ∃ b, r = Ok b /\ hold_Applied b = true)) as (r & E & Hn & Hk).
  { destruct op as [|cmd'|cmd'|cmd'|]; try done; cbn [run_op op_hold] in Hrun, Hop;
      injection Hop as <- <-; destruct (hold_ cmd' _ db) as [r db1] eqn:E;
      injection Hrun as <- <-; exists r; (split; [done|]);
      destruct r as [res|e]; try (split; [by intros ? ?|done]);
      destruct (hold_Applied res) eqn:Ea; split; naive_solver. }
  apply hold_inv in E as [[-> Hr]|(b & -> & _ & _ & Hb)].
  - destruct k as [key|]; [|done].
    destruct (Hk key eq_refl) as (b & -> & Hb). by rewrite (Hr _ eq_refl) in Hb.
  - destruct k as [key|]; [|by specialize (Hn eq_refl _ eq_refl)].
    by eapply hold_effect_change.
Qed.

Lemma charged_error z q : (Qabs (inject_Z (charged z q) - (inject_Z z - q)) <= if whole q then 0 else 1 # 2)%Q.
Proof.
  unfold charged. destruct (whole q) eqn:Hw; [|apply round_error].
  apply Qeq_bool_iff in Hw. set (n := Qfloor q) in *.
  assert (inject_Z z - q == inject_Z (z - n))%Q as E.
  { rewrite <- Hw. unfold Z.sub. rewrite inject_Z_plus, inject_Z_opp. ring. }
  assert (round_half_away (inject_Z z - q) = z - n) as -> by (by rewrite E, round_whole).
  unfold Z.sub. rewrite inject_Z_plus, inject_Z_opp. apply Qabs_Qle_condition. split; lra.
Qed.

Lemma apply_op_change cmd db k db' u f :
  run_op (BApply cmd) db = (k, db') -> live_funds u db = Some f ->
  match k with
  | Some _ => funds_change u (op_spent (BApply cmd) u) (op_drift (BApply cmd) u) f db'
  | None => db' = db
  end.
Proof.
  cbn [run_op]. destruct (apply_ cmd db) as [r db1] eqn:E.
  apply apply_inv in E as [[-> Hr]|(b & -> & Hb & _ & _ & He)]; intros [= <- <-] Hu.
  { destruct r as [res|e]; [by rewrite (Hr _ eq_refl)|done]. }
  rewrite Hb. apply effects_users in He. set (db0 := set_dedup _ db) in He.
  assert (live_funds u db0 = Some f) as Hu0 by exact Hu. clearbody db0.
  pose proof (op_drift_nonneg (BApply cmd) u) as Hd. cbn [op_spent op_drift] in *. unfold balance_charge in *.
  change (cmd_UserID (normal cmd)) with (cmd_UserID cmd) in He.
  destruct (fgtb (BalanceCost (normal cmd)) f0).
  - destruct He as (f1 & Hl & Hus & _). set (charge := amount_ (BalanceCost (normal cmd))) in *.
    assert (live_funds u db1 = if decide (u = cmd_UserID cmd) then
      Some (Build_UserFunds (charged (fund_Balance f1) charge) (fund_Frozen f1) false)
      else live_funds u db0) as Hl1 by (rewrite (live_funds_users u _ _ Hus); apply live_put_funds).
    destruct (Z.eqb_spec (cmd_UserID cmd) u) as [<-|Hne]; cbn [andb] in *.
    + rewrite decide_True in Hl1 by done. rewrite Hl in Hu0. injection Hu0 as ->.
      eexists. split; [exact Hl1|]. unfold funds_total; cbn [fund_Balance fund_Frozen]. split; [|done].
      pose proof (charged_error (fund_Balance f) charge) as Hc.
      destruct (whole charge); cbn [negb]; rewrite !inject_Z_plus;
        apply Qabs_Qle_condition in Hc as [??]; apply Qabs_Qle_condition; split; lra.
    + rewrite decide_False in Hl1 by done. exists f. rewrite Hl1. split_and!; [done|by apply total_unchanged|done].
  - destruct He as (Hus & _). exists f. rewrite (live_funds_users u _ _ Hus).
    split_and!; [done| |done]. destruct (_ =? u); by apply total_unchanged.
Qed.

Lemma run_op_change op db k db' u f :
  sent_positive -> finite_op op -> run_op op db = (k, db') -> live_funds u db = Some f ->
  match k with
  | Some _ => funds_change u (op_spent op u) (op_drift op u) f db'
  | None => live_funds u db' = Some f
  end.
Proof.
  intros Hs Hfin Hrun Hu. destruct op as [cmd|cmd|cmd|cmd|old].
  - apply (apply_op_change _ _ _ _ u f) in Hrun; [|done]. destruct k; [done|by subst].
  - apply (hold_op_change (BReserve cmd) cmd _ _ _ _ u f Hs Hfin eq_refl) in Hrun; [|done]. destruct k; [done|by subst].
  - apply (hold_op_change (BCapture cmd) cmd _ _ _ _ u f Hs Hfin eq_refl) in Hrun; [|done]. destruct k; [done|by subst].
  - apply (hold_op_change (BRelease cmd) cmd _ _ _ _ u f Hs Hfin eq_refl) in Hrun; [|done]. destruct k; [done|by subst].
  - cbn [run_op] in Hrun. injection Hrun as <- <-. exact Hu.
Qed.

(** A sum over the applied operations of a sequence. *)
Fixpoint sum_applied (part : billing_op -> Q) (ops : list billing_op) (db : DB) : Q :=
  match ops with
  | [] => 0%Q
  | op :: rest =>
    let '(k, db1) := run_op op db in
    ((match k with Some _ => part op | None => 0 end) + sum_applied part rest db1)%Q
  end.
Definition total_spent (ops : list billing_op) (db : DB) (u : Z) : Q := sum_applied (λ op, op_spent op u) ops db.
Definition total_drift (ops : list billing_op) (db : DB) (u : Z) : Q := sum_applied (λ op, op_drift op u) ops db.

Lemma run_ops_change ops db u f :
  sent_positive -> Forall finite_op ops -> live_funds u db = Some f ->
  funds_change u (total_spent ops db u) (total_drift ops db u) f (run_ops ops db).2.
Proof.
  intros Hs Hfin. revert db f. unfold total_spent, total_drift.
  induction Hfin as [|op ops Hop Hops IH]; intros db f Hu; cbn [run_ops sum_applied].
  { by apply funds_change_none. }
  destruct (run_op op db) as [k db1] eqn:E. apply (run_op_change _ _ _ _ u f Hs Hop) in E; [|done].
  assert (funds_change u (match k with Some _ => op_spent op u | None => 0 end)
    (match k with Some _ => op_drift op u | None => 0 end) f db1) as (f1 & Hf1 & Ht & Hn).
  { destruct k; [exact E|]. by apply funds_change_none. }
  destruct (IH db1 f1 Hf1) as (f' & Hf' & Ht' & Hn'). exists f'.
  destruct (run_ops ops db1) as [ks db2]. cbn [snd] in *. split_and!; [done| |auto].
  apply Qabs_Qle_condition in Ht as [??], Ht' as [??]. apply Qabs_Qle_condition. split; lra.
Qed.

(** C2. The ledger balances up to rounding: over any sequence of operations
    with finite amounts, what a user has, free and frozen together, falls by
    the charges and the captured amounts of the operations that were applied,
    and by nothing else, within the drift of rounding each column by itself:
    none when the amounts are whole multiples of 10^-8 USD (the columns'
    unit), at most half a unit for a charge, one unit for a capture, and one
    for a hold or a release of an exact half, the only ones that do not move
    their amount between the two columns unchanged.  The frozen part never
    goes below zero. *)
Theorem funds_ledger ops db u f :
  sent_positive -> Forall finite_op ops -> live_funds u db = Some f -> 0 <= fund_Frozen f ->
  ∃ f', live_funds u (run_ops ops db).2 = Some f' /\ 0 <= fund_Frozen f' /\
    (Qabs (inject_Z (funds_total f') - (inject_Z (funds_total f) - total_spent ops db u))
     <= total_drift ops db u)%Q.
Proof.
  intros Hs Hfin Hu Hfr. destruct (run_ops_change ops db u f Hs Hfin Hu) as (f' & H1 & H2 & H3).
  exists f'. split_and!; auto.
Qed.
(** A release pays nothing back for a batch that never reserved: without
    the claim of the batch's hold, in the live table or the archive, it leaves
    every user's funds as they are. *)
Theorem release_needs_reservation cmd db :
  let c := hold_normal cmd in
  let hold_key := (BatchImageHoldRequestID (hold_BatchID c), hold_APIKeyID c) in
  ~ claimed hold_key db -> hold_RequestID c ≠ BatchImageHoldRequestID (hold_BatchID c) ->
  bd_users (run_op (BRelease cmd) db).2 = bd_users db.
Proof.
  intros c hold_key Hc Hne. cbn [run_op op_hold].
  destruct (hold_ cmd (releaseUsageBillingBatchImageBalance sent) db) as [r db1] eqn:E. cbn [snd].
  apply hold_inv in E as [[-> _]|(b & -> & _ & _ & Hb)]; [done|].
  fold c in Hb. unfold releaseUsageBillingBatchImageBalance in Hb.
  destruct (fleb (HoldAmount c) f0); [by injection Hb as _ <-|].
  assert (batchImageHoldClaimExists (BatchImageHoldRequestID (hold_BatchID c)) (hold_APIKeyID c)
    (set_dedup (<[(hold_RequestID c, hold_APIKeyID c) := hold_RequestFingerprint c]> (bd_dedup db)) db)
    = false) as Hf.
  { unfold batchImageHoldClaimExists. cbn [set_dedup bd_dedup bd_archive].
    rewrite lookup_insert_ne by congruence. unfold claimed in Hc. fold hold_key.
    rewrite !bool_decide_eq_false_2; naive_solver. }
  rewrite Hf in Hb. cbn [negb] in Hb. by injection Hb as _ <-.
Qed.

End Props.

(** ** Instances

    A user with 10 USD; amounts sent with ten places, trivial formats and
    hash, no upstream accounts. *)

#[local] Existing Instance ascii_only_case.
#[local] Existing Instance ex_postgres.

Definition ex_sent (x : float64) : Q := Z.max 1 (f64_to_int64 (x * f64_lit 1 10)%f64) # 10 ^ 10.
Definition ex_db : BillingDB := {|
  bd_dedup := ∅; bd_archive := ∅;
  bd_users := {[ 3 := Build_UserFunds 1000000000 0 false ]};
  bd_subs := mk_Table ∅ ex_clock 1; bd_keys := ex_key_table; bd_accounts := Build_AccountDB ∅ ex_outbox |}.
Definition ex_charge_cmd : UsageBillingCommand := {|
  RequestID := " req-1 "; cmd_APIKeyID := 1; RequestFingerprint := ""; RequestPayloadHash := "";
  cmd_UserID := 3; cmd_AccountID := 9; cmd_SubscriptionID := None; cmd_AccountType := "oauth";
  cmd_Model := "m"; cmd_ServiceTier := ""; cmd_ReasoningEffort := ""; cmd_BillingType := 0;
  cmd_InputTokens := 10; cmd_OutputTokens := 10; cmd_CacheCreationTokens := 0;
  cmd_CacheReadTokens := 0; cmd_ImageCount := 0; cmd_MediaType := "";
  BalanceCost := f64_lit 25 (-1); SubscriptionCost := f0; APIKeyQuotaCost := f64_lit 25 (-1);
  APIKeyRateLimitCost := f64_lit 25 (-1); AccountQuotaCost := f0 |}.
Definition ex_hold (id : string) (actual : float64) : BatchImageBalanceHoldCommand := {|
  hold_RequestID := id; hold_APIKeyID := 1; hold_RequestFingerprint := "";
  hold_RequestPayloadHash := ""; hold_UserID := 3; hold_BatchID := "b1";
  HoldAmount := f64_of_Z 4; ActualAmount := actual |}.

Abbreviation ex_id := (λ x : float64, x).
Abbreviation ex_hash := (λ s : string, s).
Abbreviation ex_d := (λ _ : Z, "n"%string).
Abbreviation ex_f := (λ _ : float64, "f"%string).
Abbreviation ex_apply := (Apply ex_id ex_hash ex_d ex_f ex_sent fadd fsub UTC).
Abbreviation ex_run := (run_ops ex_id ex_hash ex_d ex_f ex_sent fadd fsub UTC).

(** Reserve 4 USD, capture 3 of them, then archive the keys. *)
Definition ex_batch : list billing_op :=
  [BReserve (ex_hold (BatchImageHoldRequestID "b1") f0);
   BCapture (ex_hold (BatchImageCaptureRequestID "b1") (f64_of_Z 3)); BArchive (λ _, true)].

Definition ex_applied : UsageBillingApplyResult :=
  match (ex_apply ex_charge_cmd ex_db).1 with Ok b => b | Err _ => no_result end.
Definition ex_db1 : BillingDB := (ex_apply ex_charge_cmd ex_db).2.

Lemma Apply_replay_witness :
  ex_apply ex_charge_cmd (ex_run ex_batch ex_db1).2 = (Ok no_result, (ex_run ex_batch ex_db1).2).
Proof.
  apply (Apply_replay ex_id ex_hash ex_d ex_f ex_sent fadd fsub UTC
           ex_charge_cmd ex_charge_cmd ex_db ex_applied ex_db1 ex_batch);
    vm_compute; reflexivity.
Defined.

Lemma Apply_charges_balance_witness :
  live_funds 3 ex_db1 = Some (Build_UserFunds 750000000 0 false).
Proof.
  destruct (Apply_charges_balance ex_id ex_hash ex_d ex_f ex_sent fadd fsub UTC
    ex_charge_cmd ex_db ex_applied ex_db1 (Build_UserFunds 1000000000 0 false)) as [H _];
    [vm_compute; reflexivity..|].
  change (cmd_UserID ex_charge_cmd) with 3 in H. rewrite H. vm_compute. reflexivity.
Defined.

Lemma applied_at_most_once_witness : NoDup (ex_run ex_batch ex_db1).1.
Proof.
  apply (applied_at_most_once ex_id ex_hash ex_d ex_f ex_sent fadd fsub UTC ex_batch ex_db1).
Defined.

Lemma ex_sent_positive : sent_positive ex_sent.
Proof. intros x _ _. unfold ex_sent, Qlt. cbn [Qnum Qden]. lia. Qed.

Lemma funds_ledger_witness :
  ∃ f', live_funds 3 (ex_run ex_batch ex_db1).2 = Some f' /\ funds_total f' = 450000000.
Proof.
  destruct (funds_ledger ex_id ex_hash ex_d ex_f ex_sent fadd fsub UTC ex_batch ex_db1 3
    (Build_UserFunds 750000000 0 false)) as (f' & H1 & _ & H2).
  - exact ex_sent_positive.
  - repeat constructor; vm_compute; reflexivity.
  - vm_compute. reflexivity.
  - vm_compute. congruence.
  - exists f'. split; [exact H1|]. vm_compute in H1. injection H1 as <-. reflexivity.
Defined.

(** A hold of 1.000000005 USD takes 1 USD from the balance and adds
    1.00000001 USD to the frozen part. *)
Definition ex_half_hold : BatchImageBalanceHoldCommand := {|
  hold_RequestID := BatchImageHoldRequestID "b1"; hold_APIKeyID := 1; hold_RequestFingerprint := "";
  hold_RequestPayloadHash := ""; hold_UserID := 3; hold_BatchID := "b1";
  HoldAmount := f64_lit 1000000005 (-9); ActualAmount := f0 |}.
Lemma a_half_is_created :
  live_funds 3 ex_db = Some (Build_UserFunds 1000000000 0 false) /\
  live_funds 3 (ex_run [BReserve ex_half_hold] ex_db).2 = Some (Build_UserFunds 900000000 100000001 false).
Proof. split; vm_compute; reflexivity. Qed.

Lemma release_needs_reservation_witness :
  bd_users (run_op ex_id ex_hash ex_d ex_f ex_sent fadd fsub UTC
    (BRelease (ex_hold (BatchImageReleaseRequestID "b1") f0)) ex_db).2 = bd_users ex_db.
Proof.
  apply release_needs_reservation.
  - intros [[x H]|[x H]]; vm_compute in H; discriminate.
  - vm_compute. congruence.
Defined.
