(* ===== verification/PaymentAmounts.v ===== *)
(** * Amounts of payments

    Currencies and the number of decimals a provider takes
    ([payment/currency.go], [payment/amount.go], [payment/fee.go],
    [service/payment_amounts.go]), and when the amount a provider reports is
    the amount of the order ([service/payment_fulfillment.go]).  The decimals
    of [shopspring/decimal] are a parameter. *)

From Stdlib Require Import Ascii.
From S2P Require Import Prelude GoErrors Float64 GoStrings.

Class ShopspringDecimal := {
  decimal : Type;
  NewFromFloat : float64 -> decimal;
  NewFromString : string -> option decimal;
  NewFromInt : Z -> decimal;
  dec_add : decimal -> decimal -> decimal;
  dec_mul : decimal -> decimal -> decimal;
  dec_div : decimal -> decimal -> decimal;
  dec_pow10 : Z -> decimal;  (* [decimal.New(1, n)] *)
  Round : decimal -> Z -> decimal;
  RoundUp : decimal -> Z -> decimal;
  Truncate : decimal -> Z -> decimal;
  dec_Equal : decimal -> decimal -> bool;
  IntPart : decimal -> Z;
  InexactFloat64 : decimal -> float64;
  StringFixed : decimal -> Z -> string
}.

Definition DefaultPaymentCurrency : string := "CNY".
Definition TypeAlipay : string := "alipay".
Definition TypeWxpay : string := "wxpay".
Definition TypeAlipayDirect : string := "alipay_direct".
Definition TypeWxpayDirect : string := "wxpay_direct".
Definition TypeStripe : string := "stripe".
Definition TypeCard : string := "card".
Definition TypeLink : string := "link".
Definition TypeEasyPay : string := "easypay".
Definition TypeAirwallex : string := "airwallex".
Definition OrderTypeBalance : string := "balance".
Definition OrderTypeSubscription : string := "subscription".

Record paymentCurrencyAmountUnit := mk_unit { apiMinorUnit : Z; maxFractionDigits : Z }.
Definition zeroDecimalAmountUnit := mk_unit 0 0.
Definition twoDecimalAmountUnit := mk_unit 2 2.
Definition threeDecimalAmountUnit := mk_unit 3 3.
Definition stripeLegacyZeroAmount := mk_unit 2 0.

Definition paymentCurrencyAmountUnits : gmap string paymentCurrencyAmountUnit := list_to_map [
  ("BIF", zeroDecimalAmountUnit); ("CLP", zeroDecimalAmountUnit); ("DJF", zeroDecimalAmountUnit);
  ("GNF", zeroDecimalAmountUnit); ("JPY", zeroDecimalAmountUnit); ("KMF", zeroDecimalAmountUnit);
  ("KRW", zeroDecimalAmountUnit); ("MGA", zeroDecimalAmountUnit); ("PYG", zeroDecimalAmountUnit);
  ("RWF", zeroDecimalAmountUnit); ("VND", zeroDecimalAmountUnit); ("VUV", zeroDecimalAmountUnit);
  ("XAF", zeroDecimalAmountUnit); ("XOF", zeroDecimalAmountUnit); ("XPF", zeroDecimalAmountUnit);
  ("ISK", stripeLegacyZeroAmount); ("UGX", stripeLegacyZeroAmount);
  ("BHD", threeDecimalAmountUnit); ("IQD", threeDecimalAmountUnit); ("JOD", threeDecimalAmountUnit);
  ("KWD", threeDecimalAmountUnit); ("LYD", threeDecimalAmountUnit); ("OMR", threeDecimalAmountUnit);
  ("TND", threeDecimalAmountUnit)]%string.

Section Amounts.
Context {UC : UnicodeCase} {D : ShopspringDecimal}.

Definition invalid_currency : error := EPlain "payment currency must be a 3-letter ISO currency code".
Definition upper_letter (c : ascii) : bool := (65 <=? byte_val c) && (byte_val c <=? 90).
Definition NormalizePaymentCurrency (raw : string) : result string :=
  let currency := ToUpper (TrimSpace raw) in
  if str_empty currency then Ok DefaultPaymentCurrency else
  if negb (str_len currency =? 3) then Err invalid_currency else
  if negb (forallb upper_letter (to_bytes currency)) then Err invalid_currency else Ok currency.

Definition paymentCurrencyAmountUnitFor (currency : string) : paymentCurrencyAmountUnit :=
  match NormalizePaymentCurrency currency with
  | Err _ => twoDecimalAmountUnit
  | Ok normalized => default twoDecimalAmountUnit (paymentCurrencyAmountUnits !! normalized)
  end.
Definition CurrencyMinorUnit (currency : string) : Z := apiMinorUnit (paymentCurrencyAmountUnitFor currency).
Definition CurrencyMaxFractionDigits (currency : string) : Z := maxFractionDigits (paymentCurrencyAmountUnitFor currency).
Definition FormatAmountForCurrency (amount : float64) (currency : string) : string :=
  StringFixed (NewFromFloat amount) (CurrencyMaxFractionDigits currency).

Definition invalid_amount : error := EPlain "invalid amount".
Definition not_whole : error := EPlain "payment amount must be a whole number".
Definition too_many_decimals : error := EPlain "payment amount has too many decimal places".
Definition AmountToMinorUnit (amountStr currency : string) : result Z :=
  match NewFromString (TrimSpace amountStr) with
  | None => Err invalid_amount
  | Some d =>
    let? normalizedCurrency := NormalizePaymentCurrency currency in
    let amountUnit := paymentCurrencyAmountUnitFor normalizedCurrency in
    let scaledForPrecision := dec_mul d (dec_pow10 (maxFractionDigits amountUnit)) in
    if negb (dec_Equal scaledForPrecision (Truncate scaledForPrecision 0))
    then Err (if maxFractionDigits amountUnit =? 0 then not_whole else too_many_decimals)
    else Ok (IntPart (dec_mul d (dec_pow10 (apiMinorUnit amountUnit))))
  end.
Definition MinorUnitToAmount (value : Z) (currency : string) : float64 :=
  InexactFloat64 (dec_div (NewFromInt value) (dec_pow10 (CurrencyMinorUnit currency))).
Definition YuanToFen (yuanStr : string) : result Z := AmountToMinorUnit yuanStr DefaultPaymentCurrency.
Definition FenToYuan (fen : Z) : float64 := MinorUnitToAmount fen DefaultPaymentCurrency.

(** The fee is rounded up to the decimals of the currency. *)
Definition CalculatePayAmountForCurrency (rechargeAmount feeRate : float64) (currency : string) : string :=
  let fractionDigits := CurrencyMaxFractionDigits currency in
  let amount := NewFromFloat rechargeAmount in
  if fleb feeRate f0 then StringFixed amount fractionDigits else
  let fee := RoundUp (dec_div (dec_mul amount (NewFromFloat feeRate)) (NewFromInt 100)) fractionDigits in
  StringFixed (dec_add amount fee) fractionDigits.
Definition CalculatePayAmount (rechargeAmount feeRate : float64) : string :=
  CalculatePayAmountForCurrency rechargeAmount feeRate DefaultPaymentCurrency.

Definition defaultBalanceRechargeMultiplier : float64 := f1.
Definition normalizeBalanceRechargeMultiplier (multiplier : float64) : float64 :=
  if is_nan multiplier || is_inf multiplier || fleb multiplier f0 then defaultBalanceRechargeMultiplier else multiplier.
Definition normalizeSubscriptionUSDToCNYRate (rate : float64) : float64 :=
  if is_nan rate || is_inf rate || fltb rate f0 then f0 else rate.
Definition calculateCreditedBalance (paymentAmount multiplier : float64) : float64 :=
  InexactFloat64 (Round (dec_mul (NewFromFloat paymentAmount)
    (NewFromFloat (normalizeBalanceRechargeMultiplier multiplier))) 2).
Definition calculateSubscriptionGatewayBaseAmount (amount usdToCnyRate : float64) (currency : string) : float64 :=
  let rate := normalizeSubscriptionUSDToCNYRate usdToCnyRate in
  if fleb rate f0 || negb (String.eqb currency DefaultPaymentCurrency) then amount else
  InexactFloat64 (Round (dec_mul (NewFromFloat amount) (NewFromFloat rate)) (CurrencyMaxFractionDigits currency)).

(** ** What a provider reports *)

Definition amountToleranceCNY : float64 := f64_lit 1 (-2).
Definition paymentAmountToleranceForCurrency (currency : string) : float64 :=
  let minorUnit := CurrencyMinorUnit currency in
  if minorUnit <=? 2 then amountToleranceCNY else fdiv (f64_lit 1 (- minorUnit)) (f64_of_Z 2).
Definition isValidProviderAmount (amount : float64) : bool :=
  fgtb amount f0 && negb (is_nan amount) && negb (is_inf amount).

Definition calculateGatewayRefundAmount (orderAmount payAmount refundAmount : float64) (currency : string) : float64 :=
  if fleb orderAmount f0 || fleb payAmount f0 || fleb refundAmount f0 then f0 else
  let fractionDigits := CurrencyMaxFractionDigits currency in
  if fleb (fabs (fsub refundAmount orderAmount)) (paymentAmountToleranceForCurrency currency)
  then InexactFloat64 (Round (NewFromFloat payAmount) fractionDigits)
  else InexactFloat64 (Round (dec_div (dec_mul (NewFromFloat payAmount) (NewFromFloat refundAmount))
                                      (NewFromFloat orderAmount)) fractionDigits).

(** The base of a payment type: [alipay_direct] is [alipay]. *)
Definition GetBasePaymentType (t : string) : string :=
  if String.eqb t TypeEasyPay then TypeEasyPay else
  if String.eqb t TypeAirwallex then TypeAirwallex else
  if String.eqb t TypeStripe || String.eqb t TypeCard || String.eqb t TypeLink then TypeStripe else
  if HasPrefix t TypeAlipay then TypeAlipay else
  if HasPrefix t TypeWxpay then TypeWxpay else t.

(** ** Properties *)

Lemma upper_letter_kept c : upper_letter c = true -> upper_byte c = c /\ is_ascii_byte c = true.
Proof.
  intros H. assert (implb (upper_letter c) (Ascii.eqb (upper_byte c) c && is_ascii_byte c) = true) as Hc.
  { revert c H. intros c _. apply (all_bytes (λ c, implb (upper_letter c) (Ascii.eqb (upper_byte c) c && is_ascii_byte c))).
    vm_compute. reflexivity. }
  rewrite H in Hc. cbn in Hc. apply andb_true_iff in Hc as [Hc Ha]. by apply Ascii.eqb_eq in Hc.
Qed.

(** A code of upper case letters is its own upper case. *)
Lemma upper_letters_ToUpper s : forallb upper_letter (to_bytes s) = true -> ToUpper s = s.
Proof.
  intros H. rewrite forallb_forall in H. unfold ToUpper, is_ascii.
  assert (forallb is_ascii_byte (to_bytes s) = true) as ->.
  { apply forallb_forall. intros c Hc. by apply upper_letter_kept, H. }
  unfold ascii_upper. rewrite <- (of_to_bytes s) at 2. f_equal. rewrite <- (map_id (to_bytes s)) at 2.
  apply map_ext_in. intros c Hc. by apply upper_letter_kept, H.
Qed.
Lemma tolerance_positive currency : fgtb (paymentAmountToleranceForCurrency currency) f0 = true.
Proof.
  unfold paymentAmountToleranceForCurrency, CurrencyMinorUnit.
  assert (∀ u, map_to_list paymentCurrencyAmountUnits <> [] -> u ∈ (twoDecimalAmountUnit :: (map_to_list paymentCurrencyAmountUnits).*2) ->
    fgtb (if apiMinorUnit u <=? 2 then amountToleranceCNY else fdiv (f64_lit 1 (- apiMinorUnit u)) (f64_of_Z 2)) f0 = true) as H.
  { intros u _ Hu. assert (forallb (λ u, fgtb (if apiMinorUnit u <=? 2 then amountToleranceCNY
      else fdiv (f64_lit 1 (- apiMinorUnit u)) (f64_of_Z 2)) f0)
      (twoDecimalAmountUnit :: (map_to_list paymentCurrencyAmountUnits).*2) = true) as Hall by (vm_compute; reflexivity).
    rewrite forallb_forall in Hall. apply Hall. by apply list_elem_of_In. }
  apply H; [by vm_compute|]. unfold paymentCurrencyAmountUnitFor.
  destruct (NormalizePaymentCurrency currency) as [c|e]; [|left].
  destruct (paymentCurrencyAmountUnits !! c) as [u|] eqn:E; cbn; [right|left].
  apply list_elem_of_fmap. exists (c, u). split; [done|]. by apply elem_of_map_to_list.
Qed.
End Amounts.
