(* ===== verification/Affiliate.v ===== *)
(** * Affiliate rebates

    A user who was invited earns the inviter a share of what they pay
    ([service/affiliate_service.go]): the share is accrued to the inviter's
    quota, frozen for some hours if so configured, thawed, and moved to the
    balance on request, with a row of the ledger for each accrual and each
    transfer ([repository/affiliate_repo.go]).  The users' balances are here
    too, with the statements of [repository/user_repo.go] that move them.

    Money columns are DECIMAL(20,8): integers counting 10^-8 here.  [units] is
    the decimal a [float64] parameter stands for, [to_float] the cast to double
    precision; random codes are an argument.  A transaction is one step. *)

From Stdlib Require Import Ascii Floats.SpecFloat.
From S2P Require Import Prelude GoErrors Float64 GoTime GoStrings GoText.

Definition ErrUserNotFound : error := NotFound "USER_NOT_FOUND" "user not found".
Definition ErrAffiliateProfileNotFound : error := NotFound "AFFILIATE_PROFILE_NOT_FOUND" "affiliate profile not found".
Definition ErrAffiliateCodeInvalid : error := BadRequest "AFFILIATE_CODE_INVALID" "invalid affiliate code".
Definition ErrAffiliateCodeTaken : error := Conflict "AFFILIATE_CODE_TAKEN" "affiliate code already in use".
Definition ErrAffiliateAlreadyBound : error := Conflict "AFFILIATE_ALREADY_BOUND" "affiliate inviter already bound".
Definition ErrAffiliateQuotaEmpty : error := BadRequest "AFFILIATE_QUOTA_EMPTY" "no affiliate quota available to transfer".
Definition invalid_user : error := BadRequest "INVALID_USER" "invalid user".

Definition AffiliateCodeMinLength : Z := 4.
Definition AffiliateCodeMaxLength : Z := 32.
Definition affiliateCodeMaxAttempts : nat := 12.
Definition AffiliateRebateRateDefault : float64 := f64_of_Z 20.
Definition AffiliateRebateRateMin : float64 := f0.
Definition AffiliateRebateRateMax : float64 := f64_of_Z 100.
Definition AffiliateEnabledDefault : bool := false.
Definition AffiliateRebateFreezeHoursDefault : Z := 0.
Definition AffiliateRebateFreezeHoursMax : Z := 720.
Definition AffiliateRebateDurationDaysDefault : Z := 0.
Definition AffiliateRebateDurationDaysMax : Z := 3650.
Definition AffiliateRebatePerInviteeCapDefault : float64 := f0.

(** ** Tables *)

Record UserRow := mk_user {
  usr_Balance : Z; usr_TotalRecharged : Z; usr_Concurrency : Z; usr_deleted : bool
}.

Record AffiliateSummary := mk_affiliate {
  aff_UserID : Z;
  aff_AffCode : string;
  aff_AffCodeCustom : bool;
  aff_RebateRatePercent : option float64;
  aff_InviterID : option Z;
  aff_AffCount : Z;
  aff_AffQuota : Z;
  aff_AffFrozenQuota : Z;
  aff_AffHistoryQuota : Z;
  aff_CreatedAt : time;
  aff_UpdatedAt : time
}.

Inductive ledger_action := LAccrue | LTransfer.
Record LedgerRow := mk_ledger {
  lg_UserID : Z;
  lg_Action : ledger_action;
  lg_Amount : Z;
  lg_SourceUserID : option Z;
  lg_SourceOrderID : option Z;
  lg_FrozenUntil : option time;
  lg_BalanceAfter : option Z;
  lg_QuotaAfter : option (Z * Z * Z)
}.

(** [fd_now] is the database's clock. *)
Record FundsDB := mk_funds {
  fd_users : gmap Z UserRow;
  fd_affiliates : gmap Z AffiliateSummary;
  fd_ledger : list LedgerRow;
  fd_now : time
}.
Definition with_users (u : gmap Z UserRow) (db : FundsDB) : FundsDB := mk_funds u (fd_affiliates db) (fd_ledger db) (fd_now db).
Definition with_affiliates (a : gmap Z AffiliateSummary) (db : FundsDB) : FundsDB := mk_funds (fd_users db) a (fd_ledger db) (fd_now db).
Definition with_ledger (l : list LedgerRow) (db : FundsDB) : FundsDB := mk_funds (fd_users db) (fd_affiliates db) l (fd_now db).

(** A transaction that fails leaves nothing. *)
Definition transact {S A} (m : M S A) : M S A := λ st,
  match m st with (Ok a, st') => (Ok a, st') | (Err e, _) => (Err e, st) end.

(** [rate_column] is what a DECIMAL(5,2) column keeps of a rate. *)
Class NumericColumn := { units : float64 -> Z; to_float : Z -> float64; rate_column : float64 -> float64 }.

Section Affiliate.
Context {UC : UnicodeCase} {NC : NumericColumn}.

(** ** The balance of a user *)

(** [Update().Where(IDEQ(id))]: soft-deleted users are reached too. *)
Definition update_user (id : Z) (f : UserRow -> UserRow) : M FundsDB unit := λ db,
  match fd_users db !! id with
  | Some u => (Ok tt, with_users (<[id := f u]> (fd_users db)) db)
  | None => (Err ErrUserNotFound, db)
  end.
Definition add_balance (d : Z) (u : UserRow) : UserRow :=
  mk_user (usr_Balance u + d) (usr_TotalRecharged u) (usr_Concurrency u) (usr_deleted u).
Definition add_recharged (d : Z) (u : UserRow) : UserRow :=
  mk_user (usr_Balance u) (usr_TotalRecharged u + d) (usr_Concurrency u) (usr_deleted u).
Definition add_concurrency (d : Z) (u : UserRow) : UserRow :=
  mk_user (usr_Balance u) (usr_TotalRecharged u) (usr_Concurrency u + d) (usr_deleted u).

Definition UpdateBalance (id : Z) (amount : float64) : M FundsDB unit :=
  update_user id (λ u, let u := add_balance (units amount) u in
                       if fgtb amount f0 then add_recharged (units amount) u else u).
Definition UpdateConcurrency (id amount : Z) : M FundsDB unit := update_user id (add_concurrency amount).
(** The raw statements ask for a user that is not deleted. *)
Definition update_live_user (id : Z) (f : UserRow -> UserRow) : M FundsDB unit := λ db,
  match fd_users db !! id with
  | Some u => if usr_deleted u then (Err ErrUserNotFound, db)
              else (Ok tt, with_users (<[id := f u]> (fd_users db)) db)
  | None => (Err ErrUserNotFound, db)
  end.
Definition ApplyRedeemBalanceAdjustment (id : Z) (delta : float64) : M FundsDB unit :=
  update_live_user id (λ u, mk_user (Z.max (usr_Balance u + units delta) 0) (usr_TotalRecharged u) (usr_Concurrency u) false).
Definition ApplyRedeemConcurrencyAdjustment (id delta : Z) : M FundsDB unit :=
  update_live_user id (λ u, mk_user (usr_Balance u) (usr_TotalRecharged u) (Z.max (usr_Concurrency u + delta) 0) false).
(** The two statements of [DeductBalance]: the rows each changes. *)
Definition deduct_if_enough (id : Z) (amount : float64) : M FundsDB Z := λ db,
  match fd_users db !! id with
  | Some u => if units amount <=? usr_Balance u
              then (Ok 1, with_users (<[id := add_balance (- units amount) u]> (fd_users db)) db) else (Ok 0, db)
  | None => (Ok 0, db)
  end.
Definition deduct_anyway (id : Z) (amount : float64) : M FundsDB Z := λ db,
  match fd_users db !! id with
  | Some u => (Ok 1, with_users (<[id := add_balance (- units amount) u]> (fd_users db)) db)
  | None => (Ok 0, db)
  end.
Definition user_by_id (id : Z) : M FundsDB UserRow := λ db,
  match fd_users db !! id with
  | Some u => if usr_deleted u then (Err ErrUserNotFound, db) else (Ok u, db)
  | None => (Err ErrUserNotFound, db)
  end.

(** ** The repository *)

Definition queryAffiliateByUserID (userID : Z) : M FundsDB AffiliateSummary := λ db,
  match fd_affiliates db !! userID with
  | Some a => (Ok a, db)
  | None => (Err ErrAffiliateProfileNotFound, db)
  end.
Definition has_code (code : string) (a : AffiliateSummary) : bool := String.eqb (aff_AffCode a) code.
Definition queryAffiliateByCode (code : string) : M FundsDB AffiliateSummary := λ db,
  match List.find (has_code (ToUpper (TrimSpace code))) (map_to_list (fd_affiliates db)).*2 with
  | Some a => (Ok a, db)
  | None => (Err ErrAffiliateProfileNotFound, db)
  end.

Definition unique_violation : error := EPlain "pq: duplicate key value violates unique constraint".
Definition foreign_key_violation : error := EPlain "pq: insert violates foreign key constraint".
Definition aborted_transaction : error := EPlain "pq: current transaction is aborted".
Definition code_taken (code : string) (db : FundsDB) : bool :=
  existsb (has_code code) (map_to_list (fd_affiliates db)).*2.
Definition insert_affiliate (userID : Z) (code : string) : M FundsDB unit := λ db,
  match fd_affiliates db !! userID with
  | Some _ => (Ok tt, db)
  | None =>
    match fd_users db !! userID with
    | None => (Err foreign_key_violation, db)
    | Some _ =>
      if code_taken code db then (Err unique_violation, db) else
      (Ok tt, with_affiliates (<[userID := mk_affiliate userID code false None None 0 0 0 0 (fd_now db) (fd_now db)]>
                                 (fd_affiliates db)) db)
    end
  end.

(** The codes are those [generateAffiliateCode] draws, one per attempt.  A
    statement that fails inside a transaction aborts it, so there the next
    attempt, or the query after the last one, fails too. *)
Fixpoint insert_attempts (in_tx : bool) (userID : Z) (codes : list string) : M FundsDB unit := λ db,
  match codes with
  | [] => (Ok tt, db)
  | code :: rest =>
    match insert_affiliate userID code db with
    | (Ok _, db') => (Ok tt, db')
    | (Err e, db') =>
      if error_is e unique_violation then
        if in_tx then (Err aborted_transaction, db') else insert_attempts in_tx userID rest db'
      else (Err e, db')
    end
  end.
Definition ensureUserAffiliateWithClient (in_tx : bool) (codes : list string) (userID : Z) : M FundsDB AffiliateSummary := λ db,
  match queryAffiliateByUserID userID db with
  | (Ok a, db) => (Ok a, db)
  | (Err e, db) =>
    if negb (error_is e ErrAffiliateProfileNotFound) then (Err e, db) else
    match insert_attempts in_tx userID codes db with
    | (Err e, db) => (Err e, db)
    | (Ok _, db) => queryAffiliateByUserID userID db
    end
  end.
Definition repo_EnsureUserAffiliate (in_tx : bool) (codes : list string) (userID : Z) : M FundsDB AffiliateSummary :=
  if userID <=? 0 then mfail ErrUserNotFound else ensureUserAffiliateWithClient in_tx codes userID.

(** The rows of [user_affiliates] a statement changes. *)
Definition update_affiliate (userID : Z) (p : AffiliateSummary -> bool) (f : AffiliateSummary -> AffiliateSummary)
  : M FundsDB Z := λ db,
  match fd_affiliates db !! userID with
  | Some a =>
    if p a then (Ok 1, with_affiliates (<[userID := f a]> (fd_affiliates db)) db) else (Ok 0, db)
  | None => (Ok 0, db)
  end.
Definition every (_ : AffiliateSummary) : bool := true.
Definition set_inviter (now : time) (inviterID : Z) (a : AffiliateSummary) : AffiliateSummary :=
  mk_affiliate (aff_UserID a) (aff_AffCode a) (aff_AffCodeCustom a) (aff_RebateRatePercent a) (Some inviterID)
    (aff_AffCount a) (aff_AffQuota a) (aff_AffFrozenQuota a) (aff_AffHistoryQuota a) (aff_CreatedAt a) now.
Definition add_invitee (now : time) (a : AffiliateSummary) : AffiliateSummary :=
  mk_affiliate (aff_UserID a) (aff_AffCode a) (aff_AffCodeCustom a) (aff_RebateRatePercent a) (aff_InviterID a)
    (aff_AffCount a + 1) (aff_AffQuota a) (aff_AffFrozenQuota a) (aff_AffHistoryQuota a) (aff_CreatedAt a) now.
Definition set_quotas (now : time) (f : Z -> Z -> Z -> Z * Z * Z) (a : AffiliateSummary) : AffiliateSummary :=
  let '(q, z, h) := f (aff_AffQuota a) (aff_AffFrozenQuota a) (aff_AffHistoryQuota a) in
  mk_affiliate (aff_UserID a) (aff_AffCode a) (aff_AffCodeCustom a) (aff_RebateRatePercent a) (aff_InviterID a)
    (aff_AffCount a) q z h (aff_CreatedAt a) now.
Definition set_code (now : time) (code : string) (custom : bool) (a : AffiliateSummary) : AffiliateSummary :=
  mk_affiliate (aff_UserID a) code custom (aff_RebateRatePercent a) (aff_InviterID a)
    (aff_AffCount a) (aff_AffQuota a) (aff_AffFrozenQuota a) (aff_AffHistoryQuota a) (aff_CreatedAt a) now.
Definition set_rate (now : time) (rate : option float64) (a : AffiliateSummary) : AffiliateSummary :=
  mk_affiliate (aff_UserID a) (aff_AffCode a) (aff_AffCodeCustom a) (rate_column <$> rate) (aff_InviterID a)
    (aff_AffCount a) (aff_AffQuota a) (aff_AffFrozenQuota a) (aff_AffHistoryQuota a) (aff_CreatedAt a) now.

(** [BindInviter]: the inviter is set once. *)
Definition has_no_inviter (a : AffiliateSummary) : bool := match aff_InviterID a with Some _ => false | None => true end.
Definition BindInviter (codes : Z -> list string) (userID inviterID : Z) : M FundsDB bool := transact (λ db,
  let now := fd_now db in
  (let! _ := ensureUserAffiliateWithClient true (codes userID) userID in
   let! _ := ensureUserAffiliateWithClient true (codes inviterID) inviterID in
   let! affected := update_affiliate userID has_no_inviter (set_inviter now inviterID) in
   if affected =? 0 then mret false else
   let! _ := update_affiliate inviterID every (add_invitee now) in
   mret true) db).

Definition hours (n : Z) : Z := n * hour.
Definition add_ledger (row : LedgerRow) : M FundsDB unit := λ db, (Ok tt, with_ledger (fd_ledger db ++ [row]) db).
Definition AccrueQuota (inviterID inviteeUserID : Z) (amount : float64) (freezeHours : Z) (sourceOrderID : option Z)
  : M FundsDB bool :=
  if fleb amount f0 then mret false else transact (λ db,
  let now := fd_now db in let a := units amount in
  (let! affected := update_affiliate inviterID every
     (set_quotas now (λ q z h, if 0 <? freezeHours then (q, z + a, h + a) else (q + a, z, h + a))) in
   if affected =? 0 then mret false else
   let! _ := add_ledger (mk_ledger inviterID LAccrue a (Some inviteeUserID) sourceOrderID
     (if 0 <? freezeHours then Some (time_add now (hours freezeHours)) else None) None None) in
   mret true) db).

Definition accrued_from (inviterID inviteeUserID : Z) (r : LedgerRow) : bool :=
  (lg_UserID r =? inviterID) && match lg_SourceUserID r with Some u => u =? inviteeUserID | None => false end
  && match lg_Action r with LAccrue => true | LTransfer => false end.
Definition sum_amounts (l : list LedgerRow) : Z := foldr (λ r s, lg_Amount r + s) 0 l.
Definition GetAccruedRebateFromInvitee (inviterID inviteeUserID : Z) : M FundsDB float64 := λ db,
  (Ok (to_float (sum_amounts (filterb (accrued_from inviterID inviteeUserID) (fd_ledger db)))), db).

Definition matured (now : time) (userID : Z) (r : LedgerRow) : bool :=
  (lg_UserID r =? userID) && match lg_FrozenUntil r with Some t => negb (after t now) | None => false end.
Definition thawed_row (r : LedgerRow) : LedgerRow :=
  mk_ledger (lg_UserID r) (lg_Action r) (lg_Amount r) (lg_SourceUserID r) (lg_SourceOrderID r) None
    (lg_BalanceAfter r) (lg_QuotaAfter r).
(** The sum comes back as a [float64] and is sent as one. *)
Definition thawFrozenQuotaTx (userID : Z) : M FundsDB float64 := λ db,
  let now := fd_now db in
  let thawed := to_float (sum_amounts (filterb (matured now userID) (fd_ledger db))) in
  let db := with_ledger (map (λ r, if matured now userID r then thawed_row r else r) (fd_ledger db)) db in
  if fleb thawed f0 then (Ok f0, db) else
  (let! _ := update_affiliate userID every
     (set_quotas now (λ q z h, (q + units thawed, Z.max (z - units thawed) 0, h))) in
   mret thawed) db.
Definition ThawFrozenQuota (userID : Z) : M FundsDB float64 := transact (thawFrozenQuotaTx userID).

Definition has_quota (a : AffiliateSummary) : bool := 0 <? aff_AffQuota a.
(** [claimed] and [cleared]: the quota that is taken. *)
Definition claim_quota (userID : Z) : M FundsDB float64 := λ db,
  match fd_affiliates db !! userID with
  | Some a =>
    if has_quota a
    then (Ok (to_float (aff_AffQuota a)),
          with_affiliates (<[userID := set_quotas (fd_now db) (λ _ z h, (0, z, h)) a]> (fd_affiliates db)) db)
    else (Err ErrAffiliateQuotaEmpty, db)
  | None => (Err ErrAffiliateQuotaEmpty, db)
  end.
Definition queryAffiliateTransferSnapshot (userID : Z) : M FundsDB (Z * (Z * Z * Z)) := λ db,
  match fd_users db !! userID, fd_affiliates db !! userID with
  | Some u, Some a => (Ok (usr_Balance u, (aff_AffQuota a, aff_AffFrozenQuota a, aff_AffHistoryQuota a)), db)
  | _, _ => (Err ErrUserNotFound, db)
  end.
Definition TransferQuotaToBalance (codes : list string) (userID : Z) : M FundsDB (float64 * float64) := transact (
  let! _ := ensureUserAffiliateWithClient true codes userID in
  let! _ := thawFrozenQuotaTx userID in
  let! transferred := claim_quota userID in
  if fleb transferred f0 then mfail ErrAffiliateQuotaEmpty else
  let! _ := update_user userID (λ u, add_recharged (units transferred) (add_balance (units transferred) u)) in
  let! snapshot := queryAffiliateTransferSnapshot userID in
  let! _ := add_ledger (mk_ledger userID LTransfer (units transferred) None None None (Some snapshot.1) (Some snapshot.2)) in
  mret (transferred, to_float snapshot.1)).

(** An update of the code that another row has fails. *)
Definition update_code (userID : Z) (code : string) (custom : bool) : M FundsDB Z := λ db,
  if existsb (λ a, has_code code a && negb (aff_UserID a =? userID)) (map_to_list (fd_affiliates db)).*2
  then (Err unique_violation, db) else update_affiliate userID every (set_code (fd_now db) code custom) db.
Definition repo_UpdateUserAffCode (codes : list string) (userID : Z) (newCode : string) : M FundsDB unit :=
  if userID <=? 0 then mfail ErrUserNotFound else
  let code := ToUpper (TrimSpace newCode) in
  if str_empty code then mfail ErrAffiliateCodeInvalid else transact (
  let! _ := ensureUserAffiliateWithClient true codes userID in
  mtry (update_code userID code true) (λ r,
  match r with
  | Err e => if error_is e unique_violation then mfail ErrAffiliateCodeTaken else mfail (EWrap "update aff_code: %w" e)
  | Ok affected => if affected =? 0 then mfail ErrUserNotFound else mret tt
  end)).
(** A drawn code that is taken aborts the transaction, so the attempt after it fails. *)
Definition repo_ResetUserAffCode (codes : list string) (userID : Z) (candidates : list string) : M FundsDB string :=
  if userID <=? 0 then mfail ErrUserNotFound else transact (
  let! _ := ensureUserAffiliateWithClient true codes userID in
  match candidates with
  | [] => mfail (EPlain "reset aff_code: exhausted attempts")
  | candidate :: _ =>
    mtry (update_code userID candidate false) (λ r,
    match r with
    | Err e => mfail (EWrap "reset aff_code: %w" (if error_is e unique_violation then aborted_transaction else e))
    | Ok affected => if affected =? 0 then mfail ErrUserNotFound else mret candidate
    end)
  end).
Definition repo_SetUserRebateRate (codes : list string) (userID : Z) (rate : option float64) : M FundsDB unit :=
  if userID <=? 0 then mfail ErrUserNotFound else transact (λ db,
  let now := fd_now db in
  (let! _ := ensureUserAffiliateWithClient true codes userID in
   let! affected := update_affiliate userID every (set_rate now rate) in
   if affected =? 0 then mfail ErrUserNotFound else mret tt) db).
Fixpoint set_rates (now : time) (rate : option float64) (userIDs : list Z) : M FundsDB unit :=
  match userIDs with
  | [] => mret tt
  | uid :: rest => let! _ := update_affiliate uid every (set_rate now rate) in set_rates now rate rest
  end.
Fixpoint ensure_all (codes : Z -> list string) (userIDs : list Z) : M FundsDB unit :=
  match userIDs with
  | [] => mret tt
  | uid :: rest =>
    if uid <=? 0 then ensure_all codes rest else
    let! _ := ensureUserAffiliateWithClient true (codes uid) uid in ensure_all codes rest
  end.
Definition repo_BatchSetUserRebateRate (codes : Z -> list string) (userIDs : list Z) (rate : option float64) : M FundsDB unit :=
  match userIDs with
  | [] => mret tt
  | _ => transact (λ db, (let! _ := ensure_all codes userIDs in set_rates (fd_now db) rate userIDs) db)
  end.
(** ** The service *)

(** The stored settings, absent or unreadable as [None], and
    [strconv.ParseFloat]. *)
Record AffiliateSettings := {
  st_AffiliateEnabled : option string;
  st_RebateRate : option string;
  st_FreezeHours : option string;
  st_DurationDays : option string;
  st_PerInviteeCap : option string
}.
Context (ParseFloat : string -> option float64) (settingService : option AffiliateSettings).

Definition clampAffiliateRebateRate (value : float64) : float64 :=
  if is_nan value || is_inf value then AffiliateRebateRateDefault else
  if fltb value AffiliateRebateRateMin then AffiliateRebateRateMin else
  if fgtb value AffiliateRebateRateMax then AffiliateRebateRateMax else value.
Definition IsAffiliateEnabled (st : AffiliateSettings) : bool :=
  match st_AffiliateEnabled st with None => false | Some value => String.eqb value "true" end.
Definition GetAffiliateRebateRatePercent (st : AffiliateSettings) : float64 :=
  match st_RebateRate st with
  | None => AffiliateRebateRateDefault
  | Some raw =>
    match ParseFloat (TrimSpace raw) with
    | None => AffiliateRebateRateDefault
    | Some rate => if is_nan rate || is_inf rate then AffiliateRebateRateDefault else clampAffiliateRebateRate rate
    end
  end.
(** A stored number of hours or days: negative or unreadable is the default,
    and there is a largest one. *)
Definition bounded_setting (raw : option string) (dflt max : Z) : Z :=
  match raw with
  | None => dflt
  | Some raw =>
    match Atoi (TrimSpace raw) with
    | None => dflt
    | Some n => if n <? 0 then dflt else if max <? n then max else n
    end
  end.
Definition GetAffiliateRebateFreezeHours (st : AffiliateSettings) : Z :=
  bounded_setting (st_FreezeHours st) AffiliateRebateFreezeHoursDefault AffiliateRebateFreezeHoursMax.
Definition GetAffiliateRebateDurationDays (st : AffiliateSettings) : Z :=
  bounded_setting (st_DurationDays st) AffiliateRebateDurationDaysDefault AffiliateRebateDurationDaysMax.
Definition GetAffiliateRebatePerInviteeCap (st : AffiliateSettings) : float64 :=
  match st_PerInviteeCap st with
  | None => AffiliateRebatePerInviteeCapDefault
  | Some raw =>
    match ParseFloat (TrimSpace raw) with
    | None => AffiliateRebatePerInviteeCapDefault
    | Some cap => if fltb cap f0 || is_nan cap || is_inf cap then AffiliateRebatePerInviteeCapDefault else cap
    end
  end.

Definition IsEnabled : bool :=
  match settingService with None => AffiliateEnabledDefault | Some st => IsAffiliateEnabled st end.
Definition globalRebateRatePercent : float64 :=
  match settingService with None => AffiliateRebateRateDefault | Some st => GetAffiliateRebateRatePercent st end.
Definition resolveRebateRatePercent (inviter : AffiliateSummary) : float64 :=
  match aff_RebateRatePercent inviter with
  | Some v => if is_nan v || is_inf v then globalRebateRatePercent else clampAffiliateRebateRate v
  | None => globalRebateRatePercent
  end.

(** [math.Round]: to the nearest integer, halves away from zero. *)
Definition math_Round (x : float64) : float64 :=
  match x with
  | S754_finite s m e =>
    if 0 <=? e then x else
    let n := (Zpos m + 2 ^ (- e - 1)) / 2 ^ (- e) in
    if n =? 0 then S754_zero s else if s then fneg (f64_of_Z n) else f64_of_Z n
  | _ => x
  end.
Definition roundTo (v : float64) (scale : Z) : float64 :=
  let factor := f64_of_Z (10 ^ scale) in fdiv (math_Round (fmul v factor)) factor.

(** What is left of the cap of one invitee, when there is a cap. *)
Definition capped_rebate (cap rebate existing : float64) : float64 :=
  let remaining := fsub cap existing in if fgtb rebate remaining then roundTo remaining 8 else rebate.
Definition per_invitee_cap : float64 :=
  match settingService with Some st => GetAffiliateRebatePerInviteeCap st | None => f0 end.
Definition rebate_expired (now : time) (invitee : AffiliateSummary) : bool :=
  match settingService with
  | None => false
  | Some st =>
    let durationDays := GetAffiliateRebateDurationDays st in
    (0 <? durationDays) && after now (add_days (aff_CreatedAt invitee) durationDays)
  end.
Definition freeze_hours : Z := match settingService with Some st => GetAffiliateRebateFreezeHours st | None => 0 end.

Definition AccrueInviteRebateForOrder (in_tx : bool) (codes : Z -> list string) (now : time)
  (inviteeUserID : Z) (baseRechargeAmount : float64) (sourceOrderID : option Z) : M FundsDB float64 :=
  if (inviteeUserID <=? 0) || fleb baseRechargeAmount f0 || is_nan baseRechargeAmount || is_inf baseRechargeAmount
  then mret f0 else
  if negb IsEnabled then mret f0 else
  let! inviteeSummary := repo_EnsureUserAffiliate in_tx (codes inviteeUserID) inviteeUserID in
  match aff_InviterID inviteeSummary with
  | None => mret f0
  | Some inviterID =>
    if inviterID <=? 0 then mret f0 else
    let! inviterSummary := repo_EnsureUserAffiliate in_tx (codes inviterID) inviterID in
    if rebate_expired now inviteeSummary then mret f0 else
    let rebate := roundTo (fmul baseRechargeAmount (fdiv (resolveRebateRatePercent inviterSummary) (f64_of_Z 100))) 8 in
    if fleb rebate f0 then mret f0 else
    let accrue rebate :=
      let! applied := AccrueQuota inviterID inviteeUserID rebate freeze_hours sourceOrderID in
      mret (if applied : bool then rebate else f0) in
    if fgtb per_invitee_cap f0 then
      let! existing := GetAccruedRebateFromInvitee inviterID inviteeUserID in
      if fgeb existing per_invitee_cap then mret f0 else accrue (capped_rebate per_invitee_cap rebate existing)
    else accrue rebate
  end.
Definition AccrueInviteRebate (codes : Z -> list string) (now : time) (inviteeUserID : Z) (baseRechargeAmount : float64) : M FundsDB float64 :=
  AccrueInviteRebateForOrder false codes now inviteeUserID baseRechargeAmount None.

Definition affiliateCodeValidChar (c : ascii) : bool :=
  ((65 <=? byte_val c) && (byte_val c <=? 90)) || ((48 <=? byte_val c) && (byte_val c <=? 57))
  || (byte_val c =? 95) || (byte_val c =? 45).
Definition isValidAffiliateCodeFormat (code : string) : bool :=
  (AffiliateCodeMinLength <=? str_len code) && (str_len code <=? AffiliateCodeMaxLength)
  && forallb affiliateCodeValidChar (to_bytes code).
Definition validateExclusiveRate (ratePercent : option float64) : result unit :=
  match ratePercent with
  | None => Ok tt
  | Some v =>
    if is_nan v || is_inf v then Err (BadRequest "INVALID_RATE" "invalid rebate rate") else
    if fltb v AffiliateRebateRateMin || fgtb v AffiliateRebateRateMax
    then Err (BadRequest "INVALID_RATE" "rebate rate out of range") else Ok tt
  end.

Definition BindInviterByCode (codes : Z -> list string) (userID : Z) (rawCode : string) : M FundsDB unit :=
  let code := ToUpper (TrimSpace rawCode) in
  if str_empty code then mret tt else
  if negb IsEnabled then mret tt else
  if negb (isValidAffiliateCodeFormat code) then mfail ErrAffiliateCodeInvalid else
  let! selfSummary := repo_EnsureUserAffiliate false (codes userID) userID in
  match aff_InviterID selfSummary with
  | Some _ => mret tt
  | None =>
    mtry (queryAffiliateByCode code) (λ r,
    match r with
    | Err e => mfail (if error_is e ErrAffiliateProfileNotFound then ErrAffiliateCodeInvalid else e)
    | Ok inviterSummary =>
      if (aff_UserID inviterSummary <=? 0) || (aff_UserID inviterSummary =? userID) then mfail ErrAffiliateCodeInvalid else
      let! bound := BindInviter codes userID (aff_UserID inviterSummary) in
      if (bound : bool) then mret tt else mfail ErrAffiliateAlreadyBound
    end)
  end.

Definition AdminUpdateUserAffCode (codes : list string) (userID : Z) (rawCode : string) : M FundsDB unit :=
  let code := ToUpper (TrimSpace rawCode) in
  if negb (isValidAffiliateCodeFormat code) then mfail ErrAffiliateCodeInvalid else repo_UpdateUserAffCode codes userID code.
Definition AdminSetUserRebateRate (codes : list string) (userID : Z) (ratePercent : option float64) : M FundsDB unit :=
  let! _ := mlift (validateExclusiveRate ratePercent) in repo_SetUserRebateRate codes userID ratePercent.
Definition AdminBatchSetUserRebateRate (codes : Z -> list string) (userIDs : list Z) (ratePercent : option float64) : M FundsDB unit :=
  let! _ := mlift (validateExclusiveRate ratePercent) in
  match filterb (λ uid, 0 <? uid) userIDs with
  | [] => mret tt
  | cleaned => repo_BatchSetUserRebateRate codes cleaned ratePercent
  end.

End Affiliate.
