(* ===== verification/AffiliateProps.v ===== *)
(** * The books of affiliate rebates

    [books]: the quotas of an inviter are what the ledger says, whatever
    sequence of accruals, thaws, transfers and profile changes is run: what was
    accrued is available, frozen or transferred, and what is frozen is the sum
    of the rows that still have a date.  A transfer moves exactly the quota to
    the balance, and an inviter, once bound, stays. *)

From Stdlib Require Import Floats.SpecFloat.
From S2P Require Import Prelude GoErrors Float64 GoTime GoStrings GoText Affiliate.

(** ** Sums over the ledger *)

Definition tally (p : LedgerRow -> bool) (l : list LedgerRow) : Z := sum_amounts (filterb p l).
Lemma tally_nil p : tally p [] = 0.
Proof. done. Qed.
Lemma tally_cons p r l : tally p (r :: l) = (if p r then lg_Amount r else 0) + tally p l.
Proof. unfold tally. cbn. by destruct (p r). Qed.
Lemma tally_app p l1 l2 : tally p (l1 ++ l2) = tally p l1 + tally p l2.
Proof. induction l1 as [|r l IH]; [done|]. rewrite <- app_comm_cons, !tally_cons. lia. Qed.
Lemma tally_nonneg p l : Forall (λ r, 0 <= lg_Amount r) l -> 0 <= tally p l.
Proof. induction 1 as [|r l Hr _ IH]; [done|]. rewrite tally_cons. destruct (p r); lia. Qed.
Lemma tally_le p q l : Forall (λ r, 0 <= lg_Amount r) l -> (∀ r, p r = true -> q r = true) -> tally p l <= tally q l.
Proof.
  intros H Hpq. induction H as [|r l Hr _ IH]; [done|]. rewrite !tally_cons. specialize (Hpq r).
  destruct (p r); [rewrite Hpq by done|destruct (q r)]; lia.
Qed.
Lemma tally_none p l : (∀ r, r ∈ l -> p r = false) -> tally p l = 0.
Proof.
  induction l as [|r l IH]; intros H; [done|]. rewrite tally_cons, (H r) by left. apply IH. intros x Hx. apply H. by right.
Qed.

Definition of_user (u : Z) (r : LedgerRow) : bool := lg_UserID r =? u.
Definition is_accrual (r : LedgerRow) : bool := match lg_Action r with LAccrue => true | LTransfer => false end.
Definition is_frozen (r : LedgerRow) : bool := match lg_FrozenUntil r with Some _ => true | None => false end.
Definition accrued (u : Z) : list LedgerRow -> Z := tally (λ r, of_user u r && is_accrual r).
Definition transferred (u : Z) : list LedgerRow -> Z := tally (λ r, of_user u r && negb (is_accrual r)).
Definition frozen (u : Z) : list LedgerRow -> Z := tally (λ r, of_user u r && is_frozen r).

(** Thawing takes the amounts that are mature out of what is frozen. *)
Definition thaw (now : time) (u : Z) (r : LedgerRow) : LedgerRow := if matured now u r then thawed_row r else r.
Lemma matured_frozen now u r : matured now u r = true -> of_user u r && is_frozen r = true.
Proof. unfold matured, of_user, is_frozen. destruct (lg_UserID r =? u), (lg_FrozenUntil r); done. Qed.
Lemma thaw_kept now u p l :
  (∀ r, p (thawed_row r) = p r) -> tally p (map (thaw now u) l) = tally p l.
Proof.
  intros Hp. induction l as [|r l IH]; [done|]. cbn [map]. rewrite !tally_cons, IH. unfold thaw.
  destruct (matured now u r); [rewrite Hp|]; done.
Qed.
Lemma thaw_frozen now u l : frozen u (map (thaw now u) l) = frozen u l - tally (matured now u) l.
Proof.
  unfold frozen. induction l as [|r l IH]; [done|]. cbn [map]. rewrite !tally_cons, IH. unfold thaw.
  destruct (matured now u r) eqn:Hm; [|lia]. rewrite (matured_frozen now u r Hm).
  unfold is_frozen at 1, of_user at 1. cbn. rewrite andb_false_r. lia.
Qed.
Lemma thaw_frozen_other now u v l : v <> u -> frozen v (map (thaw now u) l) = frozen v l.
Proof.
  intros Hne. unfold frozen. induction l as [|r l IH]; [done|]. cbn [map]. rewrite !tally_cons, IH. unfold thaw.
  destruct (matured now u r) eqn:Hm; [|done]. apply matured_frozen, andb_prop in Hm as [Hu _].
  unfold of_user in *. cbn. apply Z.eqb_eq in Hu. assert ((lg_UserID r =? v) = false) as -> by (apply Z.eqb_neq; congruence). done.
Qed.
Lemma thaw_amounts now u l : Forall (λ r, 0 <= lg_Amount r) l -> Forall (λ r, 0 <= lg_Amount r) (map (thaw now u) l).
Proof. induction 1; constructor; [|done]. unfold thaw. by destruct (matured now u x). Qed.

(** ** The books *)

Definition account_ok (l : list LedgerRow) (u : Z) (a : AffiliateSummary) : Prop :=
  aff_UserID a = u /\ 0 <= aff_AffQuota a /\ aff_AffFrozenQuota a = frozen u l /\ aff_AffHistoryQuota a = accrued u l /\
  aff_AffQuota a + aff_AffFrozenQuota a + transferred u l = aff_AffHistoryQuota a.
Record books (db : FundsDB) : Prop := {
  bk_accounts : ∀ u a, fd_affiliates db !! u = Some a -> account_ok (fd_ledger db) u a;
  bk_none : ∀ u, fd_affiliates db !! u = None -> ∀ r, r ∈ fd_ledger db -> lg_UserID r <> u;
  bk_amounts : Forall (λ r, 0 <= lg_Amount r) (fd_ledger db)
}.

Lemma no_rows p u l : (∀ r, r ∈ l -> lg_UserID r <> u) -> (∀ r, p r = true -> of_user u r = true) -> tally p l = 0.
Proof.
  intros H Hp. apply tally_none. intros r Hr. destruct (p r) eqn:E; [|done]. apply Hp, Z.eqb_eq in E. by destruct (H r Hr).
Qed.

(** A profile that is new, or changed where the quotas are not. *)
Lemma books_insert db u a :
  books db -> (match fd_affiliates db !! u with
               | Some b => aff_UserID a = aff_UserID b /\ aff_AffQuota a = aff_AffQuota b /\
                           aff_AffFrozenQuota a = aff_AffFrozenQuota b /\ aff_AffHistoryQuota a = aff_AffHistoryQuota b
               | None => aff_UserID a = u /\ aff_AffQuota a = 0 /\ aff_AffFrozenQuota a = 0 /\ aff_AffHistoryQuota a = 0
               end) ->
  books (with_affiliates (<[u := a]> (fd_affiliates db)) db).
Proof.
  intros [Ha Hn Hp] H. split; cbn; [|intros v [Hv _]%lookup_insert_None; by apply Hn|done].
  intros v b [[<- <-]|[Hne Hb]]%lookup_insert_Some; [|by apply Ha].
  destruct (fd_affiliates db !! u) as [b|] eqn:E.
  - destruct H as (E1 & E2 & E3 & E4). specialize (Ha u b E). unfold account_ok in *. rewrite E1, E2, E3, E4. exact Ha.
  - destruct H as (E1 & E2 & E3 & E4). specialize (Hn u E). unfold account_ok, frozen, accrued, transferred.
    rewrite E1, E2, E3, E4, !(no_rows _ u) by (try done; intros r [Hr _]%andb_prop; done). done.
Qed.
(** A new row of the ledger, and the account it changes. *)
Lemma books_row db row a a' :
  books db -> fd_affiliates db !! lg_UserID row = Some a -> 0 <= lg_Amount row ->
  aff_UserID a' = aff_UserID a -> 0 <= aff_AffQuota a' ->
  aff_AffFrozenQuota a' = aff_AffFrozenQuota a + (if is_frozen row then lg_Amount row else 0) ->
  aff_AffHistoryQuota a' = aff_AffHistoryQuota a + (if is_accrual row then lg_Amount row else 0) ->
  aff_AffQuota a' + aff_AffFrozenQuota a' + (if is_accrual row then 0 else lg_Amount row)
    = aff_AffQuota a + aff_AffFrozenQuota a + (if is_accrual row then lg_Amount row else 0) ->
  books (with_ledger (fd_ledger db ++ [row]) (with_affiliates (<[lg_UserID row := a']> (fd_affiliates db)) db)).
Proof.
  intros [Ha Hn Hp] E Hr E1 E2 E3 E4 E5. split; cbn.
  - intros v b [[<- <-]|[Hne Hb]]%lookup_insert_Some.
    + destruct (Ha _ _ E) as (A1 & A2 & A3 & A4 & A5).
      unfold account_ok, frozen, accrued, transferred in *. rewrite !tally_app, !tally_cons, !tally_nil.
      unfold of_user in *. rewrite Z.eqb_refl. cbn. destruct (is_accrual row), (is_frozen row); cbn; lia.
    + destruct (Ha _ _ Hb) as (A1 & A2 & A3 & A4 & A5).
      unfold account_ok, frozen, accrued, transferred in *. rewrite !tally_app, !tally_cons, !tally_nil.
      unfold of_user in *. assert ((lg_UserID row =? v) = false) as -> by lia. cbn. lia.
  - intros v [Hv Hne]%lookup_insert_None r [Hx|Hx%list_elem_of_singleton]%elem_of_app; [by apply (Hn v)|]. by subst.
  - apply Forall_app. split; [done|]. by constructor.
Qed.
(** The users' rows and the clock are not in the books. *)
Lemma books_ignore db db' :
  fd_affiliates db' = fd_affiliates db -> fd_ledger db' = fd_ledger db -> books db -> books db'.
Proof. intros E1 E2 [Ha Hn Hp]. split; rewrite ?E1, ?E2; done. Qed.

(** ** Rebates are numbers *)

Lemma has_sign_not_nan s x : has_sign s x -> is_nan x = false.
Proof. by destruct x. Qed.
Lemma fmul_finite_not_nan s m e x : is_nan x = false -> is_nan (fmul x (S754_finite s m e)) = false.
Proof.
  intros Hx. destruct x as [s'|s'| |s' m' e']; try done. unfold fmul. simpl. eapply has_sign_not_nan, binary_round_aux_sign. lia.
Qed.
Lemma finite_fmul_not_nan s m e x : is_nan x = false -> is_nan (fmul (S754_finite s m e) x) = false.
Proof.
  intros Hx. destruct x as [s'|s'| |s' m' e']; try done. unfold fmul. simpl. eapply has_sign_not_nan, binary_round_aux_sign. lia.
Qed.
Lemma fdiv_finite_not_nan s m e x : is_nan x = false -> is_nan (fdiv x (S754_finite s m e)) = false.
Proof.
  intros Hx. destruct x as [s'|s'| |s' m' e']; try done. unfold fdiv. simpl.
  destruct (SFdiv_core_binary _ _ _ _ _ _) as [[q ex] l] eqn:E. eapply has_sign_not_nan, binary_round_aux_sign.
  by apply (SFdiv_core_nonneg (Zpos m') e' (Zpos m) e q ex l).
Qed.
Lemma f64_of_Z_not_nan n : 0 <= n -> is_nan (f64_of_Z n) = false.
Proof.
  intros Hn. unfold f64_of_Z. destruct n as [|p|p]; simpl; [done| |lia].
  unfold binary_round. destruct (shl_align _ _ _) as [mz ez]. eapply has_sign_not_nan, binary_round_aux_sign. lia.
Qed.
Lemma math_Round_not_nan x : is_nan x = false -> is_nan (math_Round x) = false.
Proof.
  destruct x as [s|s| |s m e]; try done. intros _. unfold math_Round. destruct (0 <=? e) eqn:He; [done|]. cbv zeta.
  destruct (_ =? 0) eqn:E0; [done|]. apply Z.leb_gt in He.
  assert (0 <= (Z.pos m + 2 ^ (- e - 1)) / 2 ^ (- e)) as Hn by (apply Z.div_pos; [assert (0 <= 2 ^ (- e - 1)) by lia; lia|apply Z.pow_pos_nonneg; lia]).
  apply f64_of_Z_not_nan in Hn. destruct s; [|done]. unfold fneg. by destruct (f64_of_Z _).
Qed.
Lemma roundTo_not_nan x : is_nan x = false -> is_nan (roundTo x 8) = false.
Proof.
  intros Hx. unfold roundTo. cbv zeta.
  assert (∃ m e, f64_of_Z (10 ^ 8) = S754_finite false m e) as (m & e & ->) by (vm_compute; eauto).
  apply fdiv_finite_not_nan, math_Round_not_nan, fmul_finite_not_nan, Hx.
Qed.

(** ** The operations *)

Section Books.
Context {UC : UnicodeCase} {NC : NumericColumn}.

(** A sum of money below 10^15 units survives the cast to double precision and
    back, and the cast keeps its sign. *)
Record money_laws : Prop := {
  ml_positive : ∀ x, fgtb x f0 = true -> 0 <= units x;
  ml_exact : ∀ z, 0 <= z < 10 ^ 15 -> units (to_float z) = z;
  ml_sign : ∀ z, 0 < z < 10 ^ 15 -> fleb (to_float z) f0 = false
}.
Context (Hlaws : money_laws).
Definition small (db : FundsDB) : Prop := ∀ u a, fd_affiliates db !! u = Some a -> aff_AffHistoryQuota a < 10 ^ 15.

Lemma insert_keeps u code db r db' : insert_affiliate u code db = (r, db') -> books db -> books db'.
Proof.
  unfold insert_affiliate. destruct (fd_affiliates db !! u) eqn:E; [intros [= <- <-]; done|].
  destruct (fd_users db !! u); [|intros [= <- <-]; done]. destruct (code_taken code db); intros [= <- <-] H; [done|].
  apply books_insert; [done|]. by rewrite E.
Qed.
Lemma attempts_keep in_tx u codes : ∀ db r db', insert_attempts in_tx u codes db = (r, db') -> books db -> books db'.
Proof.
  induction codes as [|c l IH]; cbn; intros db r db'; [intros [= <- <-]; done|].
  destruct (insert_affiliate u c db) as [[[]|e] db1] eqn:E.
  - intros [= <- <-]. by apply (insert_keeps _ _ _ _ _ E).
  - destruct (error_is e unique_violation); [destruct in_tx|].
    + intros [= <- <-]. by apply (insert_keeps _ _ _ _ _ E).
    + intros H Hb. apply (IH _ _ _ H). by apply (insert_keeps _ _ _ _ _ E).
    + intros [= <- <-]. by apply (insert_keeps _ _ _ _ _ E).
Qed.
Lemma ensure_keeps in_tx codes u db r db' : ensureUserAffiliateWithClient in_tx codes u db = (r, db') -> books db -> books db'.
Proof.
  unfold ensureUserAffiliateWithClient, queryAffiliateByUserID. destruct (fd_affiliates db !! u); [intros [= <- <-]; done|].
  cbn. destruct (insert_attempts in_tx u codes db) as [[[]|e] db1] eqn:E; intros H Hb; apply (attempts_keep _ _ _ _ _ _ E) in Hb.
  - destruct (fd_affiliates db1 !! u); injection H as <- <-; done.
  - by injection H as <- <-.
Qed.
(** Statements on columns the books do not have. *)
Lemma update_keeps u p f db r db' :
  (∀ a, aff_UserID (f a) = aff_UserID a /\ aff_AffQuota (f a) = aff_AffQuota a /\
        aff_AffFrozenQuota (f a) = aff_AffFrozenQuota a /\ aff_AffHistoryQuota (f a) = aff_AffHistoryQuota a) ->
  update_affiliate u p f db = (r, db') -> books db -> books db'.
Proof.
  intros Hf. unfold update_affiliate. destruct (fd_affiliates db !! u) as [a|] eqn:E; [|intros [= <- <-]; done].
  destruct (p a); intros [= <- <-] H; [|done]. apply books_insert; [done|]. rewrite E. apply Hf.
Qed.

Lemma transact_cases {S A} (m : M S A) st r st' :
  transact m st = (r, st') -> (∃ a, r = Ok a /\ m st = (Ok a, st')) \/ (∃ e, r = Err e /\ st' = st).
Proof. unfold transact. destruct (m st) as [[a|e] s1] eqn:E; intros [= <- <-]; eauto. Qed.
(** A transaction keeps what its success keeps. *)
Lemma transact_keeps {A} (m : M FundsDB A) db r db' :
  transact m db = (r, db') -> books db -> (∀ a, m db = (Ok a, db') -> books db') -> books db'.
Proof. intros [(a & -> & H)|(e & -> & ->)]%transact_cases Hb Hk; [by apply (Hk a)|done]. Qed.

Lemma AccrueQuota_keeps i u amount hrs order db r db' :
  is_nan amount = false -> AccrueQuota i u amount hrs order db = (r, db') -> books db -> books db'.
Proof.
  intros Hnan. unfold AccrueQuota. destruct (fleb amount f0) eqn:Hpos; [intros [= <- <-]; done|].
  assert (0 <= units amount) as Hu.
  { apply (ml_positive Hlaws). change (fltb f0 amount = true). rewrite (fltb_fleb_total f0 amount eq_refl Hnan).
    destruct (fleb amount f0); done. }
  intros H Hb. apply (transact_keeps _ _ _ _ H Hb). intros b. unfold mbind_, update_affiliate.
  destruct (fd_affiliates db !! i) as [a|] eqn:E; cbn; [|intros [= _ <-]; done].
  intros [= _ <-]. set (row := mk_ledger i LAccrue (units amount) (Some u) order _ None None).
  destruct (bk_accounts _ Hb _ _ E) as (A1 & A2 & _).
  apply (books_row db row a); [done|exact E|done|..]; unfold set_quotas, is_frozen, is_accrual; cbn;
    destruct (0 <? hrs); cbn; lia.
Qed.

(** The rows that are mature, and what they are worth. *)
Lemma matured_bounds now u db a :
  books db -> small db -> fd_affiliates db !! u = Some a ->
  0 <= tally (matured now u) (fd_ledger db) <= aff_AffFrozenQuota a /\ 0 <= aff_AffQuota a /\
  aff_AffFrozenQuota a + aff_AffQuota a <= aff_AffHistoryQuota a < 10 ^ 15.
Proof.
  intros [Ha Hn Hp] Hs E. destruct (Ha _ _ E) as (A1 & A2 & A3 & A4 & A5). specialize (Hs _ _ E).
  pose proof (tally_nonneg (λ r, of_user u r && negb (is_accrual r)) _ Hp) as Ht. change (0 <= transferred u (fd_ledger db)) in Ht.
  pose proof (tally_nonneg (matured now u) _ Hp).
  pose proof (tally_le (matured now u) (λ r, of_user u r && is_frozen r) _ Hp (matured_frozen now u)) as Hm.
  change (tally (λ r, of_user u r && is_frozen r) (fd_ledger db)) with (frozen u (fd_ledger db)) in Hm. lia.
Qed.
Lemma to_float_zero_or z : 0 <= z < 10 ^ 15 -> fleb (to_float z) f0 = true -> z = 0.
Proof. intros Hz H. destruct (decide (z = 0)) as [|Hne]; [done|]. rewrite (ml_sign Hlaws) in H by lia. done. Qed.

Definition thawed_by (t : Z) (a b : AffiliateSummary) : Prop :=
  aff_UserID b = aff_UserID a /\ aff_AffQuota b = aff_AffQuota a + t /\ aff_AffFrozenQuota b = aff_AffFrozenQuota a - t /\
  aff_AffHistoryQuota b = aff_AffHistoryQuota a.
Lemma books_thaw now u db a b :
  books db -> fd_affiliates db !! u = Some a -> 0 <= tally (matured now u) (fd_ledger db) ->
  thawed_by (tally (matured now u) (fd_ledger db)) a b ->
  books (with_affiliates (<[u := b]> (fd_affiliates db)) (with_ledger (map (thaw now u) (fd_ledger db)) db)).
Proof.
  intros [Ha Hn Hp] E Ht (E1 & E2 & E3 & E4). split; cbn.
  - intros v c Hc. apply lookup_insert_Some in Hc as [[<- <-]|[Hne Hc]].
    + destruct (Ha _ _ E) as (A1 & A2 & A3 & A4 & A5). unfold account_ok, accrued, transferred in *.
      rewrite thaw_frozen, !thaw_kept by done. lia.
    + destruct (Ha _ _ Hc) as (A1 & A2 & A3 & A4 & A5). unfold account_ok, accrued, transferred in *.
      rewrite thaw_frozen_other, !thaw_kept by done. lia.
  - intros v [Hv Hne]%lookup_insert_None r (x & -> & Hx)%list_elem_of_fmap. specialize (Hn v Hv x Hx).
    unfold thaw. by destruct (matured now u x).
  - by apply thaw_amounts.
Qed.
Lemma thaw_spec u db r db' :
  thawFrozenQuotaTx u db = (r, db') -> books db -> small db ->
  let t := tally (matured (fd_now db) u) (fd_ledger db) in
  books db' /\ is_ok r = true /\ fd_users db' = fd_users db /\ fd_now db' = fd_now db /\
  (∀ v, v <> u -> fd_affiliates db' !! v = fd_affiliates db !! v) /\
  match fd_affiliates db !! u with
  | None => fd_affiliates db' !! u = None
  | Some a => ∃ b, fd_affiliates db' !! u = Some b /\ thawed_by t a b /\ aff_InviterID b = aff_InviterID a
  end.
Proof.
  intros H Hb Hs t. unfold thawFrozenQuotaTx in H. change (sum_amounts (filterb (matured (fd_now db) u) (fd_ledger db))) with t in H.
  change (map _ (fd_ledger db)) with (map (thaw (fd_now db) u) (fd_ledger db)) in H.
  destruct (fd_affiliates db !! u) as [a|] eqn:E.
  - destruct (matured_bounds (fd_now db) u db a Hb Hs E) as [Ht Hh]. fold t in Ht.
    destruct (fleb (to_float t) f0) eqn:E0.
    + apply to_float_zero_or in E0; [|lia]. injection H as <- <-. split_and!; try done.
      * apply (books_ignore (with_affiliates (<[u := a]> (fd_affiliates db)) (with_ledger (map (thaw (fd_now db) u) (fd_ledger db)) db)));
          [by cbn; rewrite insert_id|done|]. apply (books_thaw _ _ _ a); [done..|fold t; lia|]. fold t. unfold thawed_by. lia.
      * exists a. split; [done|]. unfold thawed_by. rewrite E0. split; [lia|done].
    + unfold mbind_, update_affiliate, mret in H. change (fd_affiliates (with_ledger _ db)) with (fd_affiliates db) in H.
      rewrite E in H. cbv beta iota zeta delta [every] in H. rewrite (ml_exact Hlaws) in H by lia. injection H as <- <-. assert (∀ b, thawed_by t a b -> books (with_affiliates (<[u := b]> (fd_affiliates db))
        (with_ledger (map (thaw (fd_now db) u) (fd_ledger db)) db))) as Hk.
      { intros b. apply books_thaw; [done|done|fold t; lia]. }
      set (b := set_quotas (fd_now db) (λ q z h, (q + t, Z.max (z - t) 0, h)) a). assert (thawed_by t a b) as Hab. { unfold thawed_by, b, set_quotas; cbn. lia. }
      split_and!; try done; cbn; [by apply Hk|by intros v Hv; rewrite lookup_insert_ne by congruence|].
      exists b. rewrite lookup_insert_eq. done.
  - assert (t = 0) as Ht. { apply (no_rows _ u); [by apply (bk_none _ Hb)|]. intros x Hx. by apply matured_frozen, andb_prop in Hx as [Hx _]. }
    assert (map (thaw (fd_now db) u) (fd_ledger db) = fd_ledger db) as Hid.
    { rewrite <- (map_id (fd_ledger db)) at 2; apply map_ext_in; intros x Hx; unfold thaw;
      destruct (matured (fd_now db) u x) eqn:Em; [|done]; apply matured_frozen, andb_prop in Em as [Em _];
      apply Z.eqb_eq in Em; by destruct (bk_none _ Hb u E x ltac:(by apply list_elem_of_In)). }
    rewrite Hid in H. assert (with_ledger (fd_ledger db) db = db) as Hw by by destruct db. rewrite Hw in H.
    destruct (fleb (to_float t) f0); [injection H as <- <-; done|].
    unfold mbind_, update_affiliate in H. rewrite E in H. injection H as <- <-. done.
Qed.

(** What ensuring a profile leaves alone. *)
Lemma attempts_frame in_tx u codes : ∀ db r db', insert_attempts in_tx u codes db = (r, db') ->
  fd_users db' = fd_users db /\ fd_ledger db' = fd_ledger db /\ fd_now db' = fd_now db /\
  (∀ v a, fd_affiliates db !! v = Some a -> fd_affiliates db' !! v = Some a) /\
  (∀ v a, fd_affiliates db' !! v = Some a -> fd_affiliates db !! v = Some a \/ (aff_AffQuota a = 0 /\ aff_AffFrozenQuota a = 0 /\ aff_AffHistoryQuota a = 0)).
Proof.
  assert (∀ c db r db', insert_affiliate u c db = (r, db') ->
    fd_users db' = fd_users db /\ fd_ledger db' = fd_ledger db /\ fd_now db' = fd_now db /\
    (∀ v a, fd_affiliates db !! v = Some a -> fd_affiliates db' !! v = Some a) /\
    (∀ v a, fd_affiliates db' !! v = Some a -> fd_affiliates db !! v = Some a \/ (aff_AffQuota a = 0 /\ aff_AffFrozenQuota a = 0 /\ aff_AffHistoryQuota a = 0))) as Hi.
  { intros c db r db'. unfold insert_affiliate. destruct (fd_affiliates db !! u) eqn:E; [intros [= <- <-]; eauto 10|].
    destruct (fd_users db !! u); [|intros [= <- <-]; eauto 10]. destruct (code_taken c db); intros [= <- <-]; [eauto 10|].
    cbn. split_and!; try done; intros v a Hv.
    - rewrite lookup_insert_ne; [done|]. intros <-. congruence.
    - apply lookup_insert_Some in Hv as [[<- <-]|[_ Hv]]; [right; done|by left]. }
  induction codes as [|c l IH]; cbn; intros db r db'; [intros [= <- <-]; eauto 10|].
  destruct (insert_affiliate u c db) as [[[]|e] db1] eqn:E; apply Hi in E; [intros [= <- <-]; done|].
  destruct (error_is e unique_violation); [destruct in_tx|]; try (intros [= <- <-]; done).
  intros H. apply IH in H as (F1 & F2 & F3 & F4 & F5). destruct E as (E1 & E2 & E3 & E4 & E5).
  split_and!; [congruence..|by intros v a Hv; apply F4, E4|]. intros v a Hv. destruct (F5 v a Hv) as [H|H]; [by apply E5|by right].
Qed.
Lemma ensure_frame in_tx codes u db r db' : ensureUserAffiliateWithClient in_tx codes u db = (r, db') ->
  fd_users db' = fd_users db /\ fd_ledger db' = fd_ledger db /\ fd_now db' = fd_now db /\
  (∀ v a, fd_affiliates db !! v = Some a -> fd_affiliates db' !! v = Some a) /\
  (∀ v a, fd_affiliates db' !! v = Some a -> fd_affiliates db !! v = Some a \/ (aff_AffQuota a = 0 /\ aff_AffFrozenQuota a = 0 /\ aff_AffHistoryQuota a = 0)).
Proof.
  unfold ensureUserAffiliateWithClient, queryAffiliateByUserID. destruct (fd_affiliates db !! u); [intros [= <- <-]; eauto 10|].
  cbn. destruct (insert_attempts in_tx u codes db) as [[[]|e] db1] eqn:E; apply attempts_frame in E.
  - destruct (fd_affiliates db1 !! u); intros [= <- <-]; done.
  - by intros [= <- <-].
Qed.
Lemma ensure_small in_tx codes u db r db' : ensureUserAffiliateWithClient in_tx codes u db = (r, db') -> small db -> small db'.
Proof.
  intros H Hs v a Hv. destruct (ensure_frame _ _ _ _ _ _ H) as (_ & _ & _ & _ & F). destruct (F v a Hv) as [Ha|(_ & _ & ->)]; [by apply (Hs v)|lia].
Qed.

(** ** A transfer *)

(** The quota, with what has thawed, goes to the balance, and nothing else moves. *)
Lemma transfer_spec codes u db x bal db' :
  TransferQuotaToBalance codes u db = (Ok (x, bal), db') -> books db -> small db ->
  books db' /\
  ∃ a usr b, fd_affiliates db !! u = Some a /\ fd_users db !! u = Some usr /\ fd_affiliates db' !! u = Some b /\
    let q := aff_AffQuota a + tally (matured (fd_now db) u) (fd_ledger db) in
    0 < q /\ aff_AffQuota b = 0 /\ aff_AffFrozenQuota a = aff_AffFrozenQuota b + tally (matured (fd_now db) u) (fd_ledger db) /\
    aff_AffHistoryQuota b = aff_AffHistoryQuota a /\
    fd_users db' = <[u := mk_user (usr_Balance usr + q) (usr_TotalRecharged usr + q) (usr_Concurrency usr) (usr_deleted usr)]> (fd_users db) /\
    x = to_float q /\ bal = to_float (usr_Balance usr + q).
Proof.
  intros [([x' bal'] & [= <- <-] & H)|(e & ? & _)]%transact_cases Hb Hs; [|done].
  apply mbind_Ok in H as (a0 & db0 & He & H). pose proof (ensure_small _ _ _ _ _ _ He Hs) as Hs0.
  pose proof (ensure_keeps _ _ _ _ _ _ He Hb) as Hb0. apply ensure_frame in He as (U0 & L0 & N0 & A0 & A0').
  apply mbind_Ok in H as (th & db1 & Ht & H). destruct (thaw_spec _ _ _ _ Ht Hb0 Hs0) as (Hb1 & _ & U1 & N1 & _ & HA).
  apply mbind_Ok in H as (tr & db2 & Hc & H). unfold claim_quota in Hc.
  destruct (fd_affiliates db0 !! u) as [a|] eqn:E0; [|by rewrite HA in Hc].
  destruct HA as (b & E1 & (B1 & B2 & B3 & B4) & B5). rewrite E1 in Hc. destruct (has_quota b) eqn:Hq; [|done].
  unfold has_quota in Hq. apply Z.ltb_lt in Hq. injection Hc as <- <-.
  destruct (matured_bounds (fd_now db0) u db0 a Hb0 Hs0 E0) as (Hm & Hqa & Hh). rewrite L0, N0 in *.
  set (q := aff_AffQuota b) in *. assert (units (to_float q) = q) as Hx by (apply (ml_exact Hlaws); lia).
  destruct (fleb (to_float q) f0) eqn:Hle; [by apply to_float_zero_or in Hle; lia|].
  apply mbind_Ok in H as ([] & db3 & Hu & H). unfold update_user in Hu. cbn [with_affiliates fd_users] in Hu. rewrite U1, U0 in Hu.
  destruct (fd_users db !! u) as [usr|] eqn:Eu; [|done]. injection Hu as <-. rewrite Hx in H.
  apply mbind_Ok in H as (snap & db4 & Hsn & H). unfold queryAffiliateTransferSnapshot in Hsn. cbn in Hsn.
  rewrite !lookup_insert_eq in Hsn. injection Hsn as <- <-. cbn in H. injection H as <- <- <-.
  set (row := mk_ledger u LTransfer q None None None _ _).
  set (c := set_quotas (fd_now db1) (λ _ z h, (0, z, h)) b).
  split.
  - apply (books_ignore (with_ledger (fd_ledger db1 ++ [row]) (with_affiliates (<[u := c]> (fd_affiliates db1)) db1))); [done..|].
    apply (books_row db1 row b); [done|done|cbn; lia|..]; unfold c, row, set_quotas, is_frozen, is_accrual; cbn; fold q; lia.
  - destruct (A0' u a E0) as [Ha|(Z1 & Z2 & Z3)]; [|exfalso; lia]. exists a, usr, c. cbn. rewrite lookup_insert_eq.
    rewrite <- B2. split_and!; try done; lia.
Qed.

Lemma clamped_not_nan v : is_nan (clampAffiliateRebateRate v) = false.
Proof.
  unfold clampAffiliateRebateRate. destruct (is_nan v) eqn:Hn; [done|]. cbn. by repeat case_match.
Qed.
Lemma rate_not_nan parse st inviter : is_nan (resolveRebateRatePercent parse st inviter) = false.
Proof.
  unfold resolveRebateRatePercent, globalRebateRatePercent, GetAffiliateRebateRatePercent.
  repeat case_match; try done; apply clamped_not_nan.
Qed.
Lemma capped_not_nan cap rebate existing : is_nan rebate = false -> is_nan (capped_rebate cap rebate existing) = false.
Proof.
  intros H. unfold capped_rebate. destruct (fgtb rebate (fsub cap existing)) eqn:E; [|done]. apply roundTo_not_nan.
  revert E. unfold fgtb, SFltb. by destruct (fsub cap existing), rebate.
Qed.
Lemma rebate_not_nan base rate : fleb base f0 = false -> is_nan base = false -> is_inf base = false -> is_nan rate = false ->
  is_nan (roundTo (fmul base (fdiv rate (f64_of_Z 100))) 8) = false.
Proof.
  intros H0 H1 H2 Hr. apply roundTo_not_nan.
  assert (∃ m e, f64_of_Z 100 = S754_finite false m e) as (m & e & ->) by (vm_compute; eauto).
  destruct base as [s|s| |s mb eb]; try done. apply finite_fmul_not_nan, fdiv_finite_not_nan, Hr.
Qed.

(** What an accrual for an order does: nothing, or one row with the order and a
    positive amount, which is the rebate that is reported. *)
Definition order_row (order : option Z) (invitee : Z) (r : float64) (row : LedgerRow) : Prop :=
  lg_SourceOrderID row = order /\ lg_SourceUserID row = Some invitee /\ lg_Action row = LAccrue /\ lg_Amount row = units r.
Definition accrual_effect (order : option Z) (invitee : Z) (l l' : list LedgerRow) (r : float64) : Prop :=
  (fleb r f0 = true /\ l' = l) \/ (fleb r f0 = false /\ ∃ row, l' = l ++ [row] /\ order_row order invitee r row).

Lemma AccrueQuota_effect i u amount hrs order db b db' :
  AccrueQuota i u amount hrs order db = (Ok b, db') ->
  fd_users db' = fd_users db /\ fd_now db' = fd_now db /\
  accrual_effect order u (fd_ledger db) (fd_ledger db') (if b then amount else f0).
Proof.
  unfold AccrueQuota. destruct (fleb amount f0) eqn:Hpos; [intros [= <- <-]; split_and!; [done..|by left]|].
  intros [(x & [= <-] & H)|(e & ? & _)]%transact_cases; [|done]. unfold mbind_, update_affiliate in H.
  destruct (fd_affiliates db !! i) as [a|] eqn:E; cbn in H; injection H as <- <-; cbn; split_and!; try done; [|by left].
  right. split; [done|]. by eexists.
Qed.
Lemma repo_ensure_frame in_tx codes u db r db' : repo_EnsureUserAffiliate in_tx codes u db = (r, db') ->
  fd_users db' = fd_users db /\ fd_ledger db' = fd_ledger db /\ fd_now db' = fd_now db.
Proof.
  unfold repo_EnsureUserAffiliate. destruct (u <=? 0); [by intros [= <- <-]|]. intros H.
  by apply ensure_frame in H as (? & ? & ? & _).
Qed.
Lemma repo_ensure_keeps in_tx codes u db r db' : repo_EnsureUserAffiliate in_tx codes u db = (r, db') -> books db -> books db'.
Proof. unfold repo_EnsureUserAffiliate. destruct (u <=? 0); [by intros [= <- <-]|]. apply ensure_keeps. Qed.

Context (parse : string -> option float64) (st : option AffiliateSettings).
Local Abbreviation accrue_for_order := (AccrueInviteRebateForOrder parse st).

(** A part that leaves the ledger alone, then another. *)
Definition quiet {A} (m : M FundsDB A) : Prop := ∀ db r db', m db = (r, db') ->
  fd_users db' = fd_users db /\ fd_ledger db' = fd_ledger db /\ fd_now db' = fd_now db /\ (books db -> books db').
Definition accrues (order : option Z) (u : Z) (m : M FundsDB float64) : Prop := ∀ db r db', m db = (r, db') ->
  fd_users db' = fd_users db /\ fd_now db' = fd_now db /\ (books db -> books db') /\
  match r with Ok x => accrual_effect order u (fd_ledger db) (fd_ledger db') x | Err _ => fd_ledger db' = fd_ledger db end.
Lemma accrues_after {A} order u (m : M FundsDB A) k : quiet m -> (∀ a, accrues order u (k a)) -> accrues order u (mbind_ m k).
Proof.
  intros Hm Hk db r db' H. unfold mbind_ in H. destruct (m db) as [[a|e] db1] eqn:E; apply Hm in E as (E1 & E2 & E3 & E4).
  - apply Hk in H as (K1 & K2 & K3 & K4). rewrite E1, E2, E3 in *. eauto 10.
  - injection H as <- <-. done.
Qed.
Lemma accrues_none order u : accrues order u (mret f0).
Proof. intros db r db' [= <- <-]. split_and!; [done..|by left]. Qed.
Lemma accrues_quota order u i amount hrs : is_nan amount = false ->
  accrues order u (let! applied := AccrueQuota i u amount hrs order in mret (if applied : bool then amount else f0)).
Proof.
  intros Hn db r db' H. unfold mbind_ in H. destruct (AccrueQuota i u amount hrs order db) as [[b|e] db1] eqn:E; injection H as <- <-.
  - pose proof (AccrueQuota_keeps _ _ _ _ _ _ _ _ Hn E). by apply AccrueQuota_effect in E as (? & ? & ?).
  - unfold AccrueQuota in E. destruct (fleb amount f0); [done|]. by apply transact_cases in E as [(a & ? & _)|(e' & _ & ->)].
Qed.
Lemma quiet_ensure in_tx codes u : quiet (repo_EnsureUserAffiliate in_tx codes u).
Proof. intros db r db' H. pose proof (repo_ensure_keeps _ _ _ _ _ _ H). by apply repo_ensure_frame in H as (? & ? & ?). Qed.

Lemma accrue_spec in_tx codes now u base order : accrues order u (accrue_for_order in_tx codes now u base order).
Proof.
  unfold AccrueInviteRebateForOrder. destruct (_ || _) eqn:Hg; [apply accrues_none|].
  apply orb_false_iff in Hg as [[[_ H0]%orb_false_iff H1]%orb_false_iff H2].
  destruct (negb _); [apply accrues_none|]. apply accrues_after; [apply quiet_ensure|]. intros invitee.
  destruct (aff_InviterID invitee) as [i|]; [|apply accrues_none]. destruct (i <=? 0); [apply accrues_none|].
  apply accrues_after; [apply quiet_ensure|]. intros inviter. destruct (rebate_expired _ _ _); [apply accrues_none|].
  cbv zeta. assert (Hr := rebate_not_nan base _ H0 H1 H2 (rate_not_nan parse st inviter)). set (rebate := roundTo _ 8) in *.
  destruct (fleb rebate f0); [apply accrues_none|]. destruct (fgtb _ f0); [|by apply accrues_quota].
  apply accrues_after; [by intros db r db' [= <- <-]|]. intros existing. destruct (fgeb _ _); [apply accrues_none|].
  by apply accrues_quota, capped_not_nan.
Qed.

(** ** Every sequence of operations *)

Inductive rebate_step (db : FundsDB) : FundsDB -> Prop :=
| rs_accrue in_tx codes now u base order r db' :
    accrue_for_order in_tx codes now u base order db = (r, db') -> rebate_step db db'
| rs_thaw u r db' : ThawFrozenQuota u db = (r, db') -> rebate_step db db'
| rs_transfer codes u r db' : TransferQuotaToBalance codes u db = (r, db') -> rebate_step db db'
| rs_bind codes u code r db' : BindInviterByCode st codes u code db = (r, db') -> rebate_step db db'
| rs_code codes u code r db' : AdminUpdateUserAffCode codes u code db = (r, db') -> rebate_step db db'
| rs_reset codes u cands r db' : repo_ResetUserAffCode codes u cands db = (r, db') -> rebate_step db db'
| rs_rate codes u rate r db' : AdminSetUserRebateRate codes u rate db = (r, db') -> rebate_step db db'
| rs_rates codes us rate r db' : AdminBatchSetUserRebateRate codes us rate db = (r, db') -> rebate_step db db'
| rs_rest users now : rebate_step db (mk_funds users (fd_affiliates db) (fd_ledger db) now).

Definition keeps {A} (m : M FundsDB A) : Prop := ∀ db r db', m db = (r, db') -> books db -> books db'.
Lemma books_bind {A B} (m : M FundsDB A) (k : A -> M FundsDB B) : keeps m -> (∀ a, keeps (k a)) -> keeps (mbind_ m k).
Proof.
  intros Hm Hk db r db' H Hb. unfold mbind_ in H. destruct (m db) as [[a|e] db1] eqn:E; apply Hm in E; auto.
  - apply Hk in H. auto.
  - injection H as <- <-. auto.
Qed.
Lemma keeps_try {A B} (m : M FundsDB A) (k : result A -> M FundsDB B) : keeps m -> (∀ a, keeps (k a)) -> keeps (mtry m k).
Proof.
  intros Hm Hk db r db' H Hb. unfold mtry in H. destruct (m db) as [a db1] eqn:E. apply Hm in E; auto. apply Hk in H. auto.
Qed.
Lemma keeps_transact {A} (m : M FundsDB A) : keeps m -> keeps (transact m).
Proof. intros Hm db r db' H Hb. apply (transact_keeps _ _ _ _ H Hb). intros a Ha. by apply (Hm _ _ _ Ha). Qed.
Lemma keeps_ret {A} (a : A) : keeps (mret a).
Proof. by intros db r db' [= <- <-]. Qed.
Lemma keeps_fail {A} e : keeps (mfail (A := A) e).
Proof. by intros db r db' [= <- <-]. Qed.
Lemma keeps_ensure in_tx codes u : keeps (ensureUserAffiliateWithClient in_tx codes u).
Proof. intros db r db'. apply ensure_keeps. Qed.
Lemma keeps_update u p f :
  (∀ a, aff_UserID (f a) = aff_UserID a /\ aff_AffQuota (f a) = aff_AffQuota a /\
        aff_AffFrozenQuota (f a) = aff_AffFrozenQuota a /\ aff_AffHistoryQuota (f a) = aff_AffHistoryQuota a) ->
  keeps (update_affiliate u p f).
Proof. intros Hf db r db'. by apply update_keeps. Qed.
(** The database's clock, read at the start of a transaction. *)
Ltac keeps_clock :=
  let db := fresh "db" in let r := fresh "r" in let db' := fresh "db'" in let H := fresh "H" in
  intros db r db' H; cbv zeta in H; let now := fresh "now" in set (now := fd_now db) in H; clearbody now;
  revert db r db' H; match goal with |- ∀ db r db', mbind_ ?m ?k db = (r, db') -> _ => change (keeps (mbind_ m k)) end.

Create HintDb books.
#[local] Hint Resolve keeps_ret keeps_fail keeps_ensure : books.
Ltac keeps := repeat first
  [ solve [auto with books] | solve [apply keeps_update; done]
  | match goal with
    | |- keeps (mbind_ _ _) => apply books_bind; [|intros ?]
    | |- keeps (mtry _ _) => apply keeps_try; [|intros ?]
    | |- keeps (transact _) => apply keeps_transact
    end ].

Lemma keeps_BindInviter codes u i : keeps (BindInviter codes u i).
Proof.
  unfold BindInviter. apply keeps_transact. keeps_clock. keeps. destruct (_ =? 0); keeps.
Qed.
Lemma keeps_bind_by_code codes u code : keeps (BindInviterByCode st codes u code).
Proof.
  unfold BindInviterByCode. destruct (str_empty _); [keeps|]. destruct (negb _); [keeps|]. destruct (negb _); [keeps|]. keeps.
  - intros db r db'. apply repo_ensure_keeps.
  - destruct (aff_InviterID _); keeps; [by intros db r db'; unfold queryAffiliateByCode; destruct (List.find _ _); intros [= <- <-]|].
    destruct a0 as [inviter|e]; [|destruct (error_is _ _); keeps]. destruct (_ || _); keeps; [apply keeps_BindInviter|]. destruct a0; keeps.
Qed.
Lemma keeps_update_code u code custom : keeps (update_code u code custom).
Proof.
  intros db r db'. unfold update_code. destruct (existsb _ _); [by intros [= <- <-]|].
  by apply keeps_update.
Qed.
Lemma keeps_set_code codes u code : keeps (AdminUpdateUserAffCode codes u code).
Proof.
  unfold AdminUpdateUserAffCode, repo_UpdateUserAffCode. cbv zeta. destruct (negb _); [keeps|]. destruct (_ <=? 0); [keeps|].
  destruct (str_empty _); [keeps|]. keeps; [apply keeps_update_code|]. destruct a0 as [n|e]; [destruct (n =? 0)|destruct (error_is _ _)]; keeps.
Qed.
Lemma keeps_reset codes u cands : keeps (repo_ResetUserAffCode codes u cands).
Proof.
  unfold repo_ResetUserAffCode. destruct (_ <=? 0); [keeps|]. keeps. destruct cands; keeps; [apply keeps_update_code|].
  destruct a0 as [n|e]; [destruct (n =? 0)|]; keeps.
Qed.
Lemma keeps_rate codes u rate : keeps (AdminSetUserRebateRate codes u rate).
Proof.
  unfold AdminSetUserRebateRate, repo_SetUserRebateRate. keeps; [by intros db r db' [= <- <-]|]. destruct (_ <=? 0); [keeps|].
  apply keeps_transact. keeps_clock. keeps. destruct (_ =? 0); keeps.
Qed.
Lemma keeps_rates codes us rate : keeps (AdminBatchSetUserRebateRate codes us rate).
Proof.
  unfold AdminBatchSetUserRebateRate, repo_BatchSetUserRebateRate. keeps; [by intros db r db' [= <- <-]|].
  destruct (filterb _ us) as [|x l]; [keeps|]. apply keeps_transact. keeps_clock. keeps.
  - generalize (x :: l) as ids. induction ids as [|y ids IH]; cbn; [keeps|]. destruct (y <=? 0); [done|]. by keeps.
  - generalize (x :: l) as ids. by induction ids as [|y ids IH]; cbn; keeps.
Qed.

Lemma rebate_step_books db db' : rebate_step db db' -> small db -> books db -> books db'.
Proof.
  intros H Hs Hb. destruct H as [in_tx codes now u base order r db' H|u r db' H|codes u r db' H|codes u code r db' H
    |codes u code r db' H|codes u cands r db' H|codes u rate r db' H|codes us rate r db' H|users now].
  - by apply accrue_spec in H as (_ & _ & Hk & _); apply Hk.
  - apply (transact_keeps _ _ _ _ H Hb). intros a Ha. by apply (thaw_spec _ _ _ _ Ha Hb Hs).
  - destruct r as [[x bal]|e]; [by apply (transfer_spec _ _ _ _ _ _ H Hb Hs)|]. by apply transact_cases in H as [(a & ? & _)|(e' & _ & ->)].
  - by apply (keeps_bind_by_code _ _ _ _ _ _ H).
  - by apply (keeps_set_code _ _ _ _ _ _ H).
  - by apply (keeps_reset _ _ _ _ _ _ H).
  - by apply (keeps_rate _ _ _ _ _ _ H).
  - by apply (keeps_rates _ _ _ _ _ _ H).
  - by apply (books_ignore db).
Qed.

(** Sums stay below the bound before each operation. *)
Inductive rebate_run (db : FundsDB) : FundsDB -> Prop :=
| run_none : rebate_run db db
| run_more db1 db2 : rebate_run db db1 -> small db1 -> rebate_step db1 db2 -> rebate_run db db2.

(** C14. The books of affiliate rebates balance after every sequence of
    accruals, thaws, transfers, bindings and profile changes, at any time and
    whatever happens to the users' rows in between: what an inviter was accrued
    is what is available, frozen or transferred, what is frozen is the sum of
    the rows of the ledger that are not thawed, and no quota is negative; while
    what an inviter was accrued stays below 10^15 units, ten million USD, which
    double precision holds exactly. *)
Theorem rebates_balance db db' : books db -> rebate_run db db' -> books db'.
Proof. intros Hb H. induction H as [|db1 db2 _ IH Hs H]; [done|]. by apply (rebate_step_books db1). Qed.

(** A transfer of an inviter's quota moves the available quota, together
    with the frozen rows whose time has come, to the balance: the balance and
    the recharged total grow by exactly that sum, the quota is empty after it,
    the history does not change, and the sum and the new balance are returned. *)
Theorem transfer_moves_quota codes u db x bal db' :
  TransferQuotaToBalance codes u db = (Ok (x, bal), db') -> books db -> small db ->
  ∃ a usr b, fd_affiliates db !! u = Some a /\ fd_users db !! u = Some usr /\ fd_affiliates db' !! u = Some b /\
    let q := aff_AffQuota a + tally (matured (fd_now db) u) (fd_ledger db) in
    0 < q /\ aff_AffQuota b = 0 /\ aff_AffFrozenQuota a = aff_AffFrozenQuota b + tally (matured (fd_now db) u) (fd_ledger db) /\
    aff_AffHistoryQuota b = aff_AffHistoryQuota a /\
    fd_users db' = <[u := mk_user (usr_Balance usr + q) (usr_TotalRecharged usr + q) (usr_Concurrency usr) (usr_deleted usr)]> (fd_users db) /\
    x = to_float q /\ bal = to_float (usr_Balance usr + q).
Proof. intros H Hb Hs. by apply (transfer_spec _ _ _ _ _ _ H Hb Hs). Qed.
End Books.

(** ** A concrete run *)

Module AffiliateRun.
(** Money in whole units, written as floats without a fraction. *)
Definition whole : NumericColumn := {|
  units := f64_trunc;
  to_float z := match z with Z0 => f0 | Zpos p => S754_finite false p 0 | Zneg p => S754_finite true p 0 end;
  rate_column r := r
|}.
Lemma whole_laws : @money_laws whole.
Proof.
  split; cbn [units to_float whole].
  - intros [[]|[]| |[] m e] H; try done. cbn. destruct (0 <=? e) eqn:He; [apply Z.leb_le in He|apply Z.leb_gt in He].
    + apply Z.mul_nonneg_nonneg; [lia|]. apply Z.pow_nonneg. lia.
    + apply Z.div_pos; [lia|]. apply Z.pow_pos_nonneg; lia.
  - intros [|p|p] H; [done| |lia]. cbn. lia.
  - by intros [|p|p] H; [lia| |lia].
Qed.
Definition t0 : time := mk_time 0 UTC.
Definition day1 : time := mk_time day_ns UTC.
Definition profile (u : Z) (code : string) (inviter : option Z) : AffiliateSummary :=
  mk_affiliate u code false None inviter 0 0 0 0 t0 t0.
Definition start : FundsDB := mk_funds
  (list_to_map [(1, mk_user 0 0 5 false); (2, mk_user 0 0 5 false)])
  (list_to_map [(1, profile 1 "INVITER1" None); (2, profile 2 "INVITED2" (Some 1))]) [] t0.
Definition no_codes (_ : Z) : list string := [].
Definition parse_none (_ : string) : option float64 := None.
Definition settings : option AffiliateSettings :=
  Some {| st_AffiliateEnabled := Some "true"; st_RebateRate := None; st_FreezeHours := Some "24";
          st_DurationDays := None; st_PerInviteeCap := None |}%string.
Definition paid : FundsDB :=
  (@AccrueInviteRebateForOrder whole parse_none settings true no_codes t0 2 (f64_of_Z 100) (Some 7) start).2.
Definition next_day : FundsDB := mk_funds (fd_users paid) (fd_affiliates paid) (fd_ledger paid) day1.
Definition moved : FundsDB := (@TransferQuotaToBalance whole [] 1 next_day).2.

Example paid_frozen : aff_AffFrozenQuota <$> fd_affiliates paid !! 1 = Some 20.
Proof. vm_compute. reflexivity. Qed.
Example moved_balance : usr_Balance <$> fd_users moved !! 1 = Some 20 /\ aff_AffQuota <$> fd_affiliates moved !! 1 = Some 0.
Proof. vm_compute. done. Qed.

Lemma books_start : books start.
Proof.
  split; [|intros u _ r Hr; by apply not_elem_of_nil in Hr|done]. intros u a H. unfold start in H. cbn [fd_affiliates] in H.
  apply (elem_of_list_to_map_2 (M := gmap Z)) in H. cbn in H.
  repeat (apply elem_of_cons in H as [[= -> ->]|H]; [done|]). by apply not_elem_of_nil in H.
Qed.
(** A table whose histories a computation finds below the bound. *)
Lemma small_by_computation db :
  forallb (λ a, aff_AffHistoryQuota a <? 10 ^ 15) (map_to_list (fd_affiliates db)).*2 = true -> small db.
Proof.
  rewrite forallb_forall. intros H u a Ha. apply Z.ltb_lt, H, list_elem_of_In, list_elem_of_fmap. exists (u, a).
  split; [done|]. by apply elem_of_map_to_list.
Qed.

Lemma rebates_balance_witness :
  books start /\ books moved.
Proof.
  split; [exact books_start|].
  apply (@rebates_balance ascii_only_case whole whole_laws parse_none settings start moved books_start).
  apply (run_more _ _ _ next_day); [apply (run_more _ _ _ paid); [apply (run_more _ _ _ start); [constructor|..]|..]|..].
  - apply small_by_computation. vm_compute. reflexivity.
  - eapply (rs_accrue _ _ _ true no_codes t0 2 (f64_of_Z 100) (Some 7)). apply surjective_pairing.
  - apply small_by_computation. vm_compute. reflexivity.
  - apply (rs_rest _ _ paid (fd_users paid) day1).
  - apply small_by_computation. vm_compute. reflexivity.
  - eapply (rs_transfer _ _ _ [] 1). apply surjective_pairing.
Defined.
Lemma transfer_moves_quota_witness :
  ∃ a usr b, fd_affiliates next_day !! 1 = Some a /\ fd_users next_day !! 1 = Some usr /\ fd_affiliates moved !! 1 = Some b /\
    let q := aff_AffQuota a + tally (matured (fd_now next_day) 1) (fd_ledger next_day) in
    0 < q /\ aff_AffQuota b = 0 /\ aff_AffFrozenQuota a = aff_AffFrozenQuota b + tally (matured (fd_now next_day) 1) (fd_ledger next_day) /\
    aff_AffHistoryQuota b = aff_AffHistoryQuota a /\
    fd_users moved = <[1 := mk_user (usr_Balance usr + q) (usr_TotalRecharged usr + q) (usr_Concurrency usr) (usr_deleted usr)]> (fd_users next_day) /\
    @to_float whole 20 = @to_float whole q /\ @to_float whole 20 = @to_float whole (usr_Balance usr + q).
Proof.
  apply (@transfer_moves_quota whole whole_laws [] 1 next_day).
  - vm_compute. reflexivity.
  - apply (books_ignore paid); [done|done|]. eapply (@accrue_spec whole whole_laws); [apply surjective_pairing|exact books_start].
  - apply small_by_computation. vm_compute. reflexivity.
Defined.
End AffiliateRun.
