(* ===== verification/RedeemCodes.v ===== *)
(** * Redeem codes

    The record of a code and its table: [service/redeem_code.go],
    [service/redeem_subscription_plan.go], [repository/redeem_code_repo.go].
    The service that redeems them is in [RedeemService]; here are the
    decisions it takes on a code and the statements of the table. *)

From Stdlib Require Import Ascii.
From S2P Require Import Prelude GoErrors Float64 GoTime GoStrings GoText Subscription SubscriptionRepo SubscriptionService Affiliate.

Definition StatusUnused : string := "unused".
Definition StatusUsed : string := "used".
Definition StatusExpired : string := "expired".
Definition StatusDisabled : string := "disabled".
Definition RedeemTypeBalance : string := "balance".
Definition RedeemTypeConcurrency : string := "concurrency".
Definition RedeemTypeSubscription : string := "subscription".
Definition RedeemTypeInvitation : string := "invitation".

Definition ErrRedeemCodeNotFound : error := NotFound "REDEEM_CODE_NOT_FOUND" "redeem code not found".
Definition ErrRedeemCodeUsed : error := Conflict "REDEEM_CODE_USED" "redeem code already used".
Definition ErrRedeemCodeExpired : error := Conflict "REDEEM_CODE_EXPIRED" "redeem code expired".
Definition ErrRedeemRateLimited : error :=
  TooManyRequests "REDEEM_RATE_LIMITED" "too many failed attempts, please try again later".
Definition ErrRedeemCodeLocked : error :=
  Conflict "REDEEM_CODE_LOCKED" "redeem code is being processed, please try again".

Record RedeemCode := mk_code {
  rc_ID : Z;
  rc_Code : string;
  rc_Type : string;
  rc_Value : float64;
  rc_Status : string;
  rc_UsedBy : option Z;
  rc_UsedAt : option time;
  rc_Notes : string;
  rc_CreatedAt : time;
  rc_ExpiresAt : option time;
  rc_SubscriptionPlanID : option Z;
  rc_PlanNameSnapshot : string;
  rc_DailyLimit : option float64;
  rc_WeeklyLimit : option float64;
  rc_MonthlyLimit : option float64;
  rc_RateMultiplier : float64;
  rc_ValidityDays : Z
}.

Definition IsUsed (c : RedeemCode) : bool := String.eqb (rc_Status c) StatusUsed.
Definition IsExpiredAt (c : RedeemCode) (now : time) : bool :=
  String.eqb (rc_Status c) StatusExpired
  || String.eqb (rc_Status c) StatusUnused && match rc_ExpiresAt c with Some t => negb (after t now) | None => false end.
Definition CanUse (c : RedeemCode) (now : time) : bool := String.eqb (rc_Status c) StatusUnused && negb (IsExpiredAt c now).

(** ** Codes of subscription plans *)

Definition applySubscriptionPlanToRedeemCode (code : RedeemCode) (plan : option SubscriptionPlan) : result RedeemCode :=
  match plan with
  | None => Err ErrSubscriptionPlanInvalid
  | Some plan =>
    if (plan_ID plan <=? 0) || (plan_ValidityDays plan <=? 0) then Err ErrSubscriptionPlanInvalid else
    Ok {| rc_ID := rc_ID code; rc_Code := rc_Code code; rc_Type := RedeemTypeSubscription; rc_Value := rc_Value code;
          rc_Status := rc_Status code; rc_UsedBy := rc_UsedBy code; rc_UsedAt := rc_UsedAt code; rc_Notes := rc_Notes code;
          rc_CreatedAt := rc_CreatedAt code; rc_ExpiresAt := rc_ExpiresAt code; rc_SubscriptionPlanID := Some (plan_ID plan);
          rc_PlanNameSnapshot := plan_Name plan; rc_DailyLimit := plan_DailyLimitUsd plan;
          rc_WeeklyLimit := plan_WeeklyLimitUsd plan; rc_MonthlyLimit := plan_MonthlyLimitUsd plan;
          rc_RateMultiplier := plan_RateMultiplier plan;
          rc_ValidityDays := normalizeAssignValidityDays (psComputeValidityDays (plan_ValidityDays plan) (plan_ValidityUnit plan)) |}
  end.
Definition hasSubscriptionPlanSnapshot (c : RedeemCode) : bool :=
  match rc_SubscriptionPlanID c with Some id => 0 <? id | None => false end
  && negb (str_empty (rc_PlanNameSnapshot c)) && (0 <? rc_ValidityDays c).
Definition subscriptionFromRedeemCode (code : RedeemCode) (userID : Z) (notes : string) (now : time) : result UserSubscription :=
  if (userID <=? 0) || negb (hasSubscriptionPlanSnapshot code)
  then Err (EWrap "%w: subscription redeem code snapshot is invalid" ErrSubscriptionPlanInvalid) else
  let expiresAt := add_days now (normalizeAssignValidityDays (rc_ValidityDays code)) in
  let expiresAt := if after expiresAt MaxExpiresAt then MaxExpiresAt else expiresAt in
  Ok {| us_ID := 0; us_UserID := userID; us_SubscriptionPlanID := rc_SubscriptionPlanID code;
        us_PlanNameSnapshot := rc_PlanNameSnapshot code;
        us_DailyLimitUSDSnapshot := rc_DailyLimit code; us_WeeklyLimitUSDSnapshot := rc_WeeklyLimit code;
        us_MonthlyLimitUSDSnapshot := rc_MonthlyLimit code; us_RateMultiplierSnapshot := rc_RateMultiplier code;
        us_StartsAt := now; us_ExpiresAt := expiresAt; us_Status := SubscriptionStatusActive;
        us_DailyWindowStart := None; us_WeeklyWindowStart := None; us_MonthlyWindowStart := None;
        us_DailyUsageUSD := f0; us_WeeklyUsageUSD := f0; us_MonthlyUsageUSD := f0;
        us_AssignedBy := None; us_AssignedAt := now; us_Notes := notes;
        us_CreatedAt := now; us_UpdatedAt := now; us_DeletedAt := None |}.

(** ** The table: codes are unique *)

Record CodeTable := mk_codes { ct_rows : gmap Z RedeemCode; ct_next : Z }.
Definition code_not_found (e : error) : bool := error_is e ErrRedeemCodeNotFound.
Definition duplicate_code : error := EPlain "ent: constraint failed: redeem_codes.code".
Definition named (code : string) (c : RedeemCode) : bool := String.eqb (rc_Code c) code.
Definition code_named (code : string) (t : CodeTable) : option RedeemCode :=
  List.find (named code) (map_to_list (ct_rows t)).*2.

Section CodeTable.
Context {NC : NumericColumn}.
Definition numeric (x : float64) : float64 := to_float (units x).

(** Money columns keep eight decimals of what they are given. *)
Definition stored_code (id : Z) (now : time) (c : RedeemCode) : RedeemCode := {|
  rc_ID := id; rc_Code := rc_Code c; rc_Type := rc_Type c; rc_Value := numeric (rc_Value c); rc_Status := rc_Status c;
  rc_UsedBy := rc_UsedBy c; rc_UsedAt := rc_UsedAt c; rc_Notes := rc_Notes c; rc_CreatedAt := now;
  rc_ExpiresAt := rc_ExpiresAt c; rc_SubscriptionPlanID := rc_SubscriptionPlanID c;
  rc_PlanNameSnapshot := rc_PlanNameSnapshot c; rc_DailyLimit := numeric <$> rc_DailyLimit c;
  rc_WeeklyLimit := numeric <$> rc_WeeklyLimit c; rc_MonthlyLimit := numeric <$> rc_MonthlyLimit c;
  rc_RateMultiplier := rc_RateMultiplier c; rc_ValidityDays := rc_ValidityDays c |}.
Definition code_Create (now : time) (c : RedeemCode) : M CodeTable RedeemCode := λ t,
  match code_named (rc_Code c) t with
  | Some _ => (Err duplicate_code, mk_codes (ct_rows t) (ct_next t + 1))
  | None =>
    let row := stored_code (ct_next t) now c in (Ok row, mk_codes (<[ct_next t := row]> (ct_rows t)) (ct_next t + 1))
  end.
Fixpoint code_CreateBatch (now : time) (codes : list RedeemCode) : M CodeTable unit :=
  match codes with
  | [] => mret tt
  | c :: rest => let! _ := code_Create now c in code_CreateBatch now rest
  end.
End CodeTable.

Definition code_GetByID (id : Z) : M CodeTable RedeemCode := λ t,
  match ct_rows t !! id with Some c => (Ok c, t) | None => (Err ErrRedeemCodeNotFound, t) end.
Definition code_GetByCode (code : string) : M CodeTable RedeemCode := λ t,
  match code_named code t with Some c => (Ok c, t) | None => (Err ErrRedeemCodeNotFound, t) end.
Definition code_Delete (id : Z) : M CodeTable unit := λ t, (Ok tt, mk_codes (delete id (ct_rows t)) (ct_next t)).

Definition set_code_used (now : time) (userID : Z) (c : RedeemCode) : RedeemCode :=
  mk_code (rc_ID c) (rc_Code c) (rc_Type c) (rc_Value c) StatusUsed (Some userID) (Some now) (rc_Notes c) (rc_CreatedAt c)
    (rc_ExpiresAt c) (rc_SubscriptionPlanID c) (rc_PlanNameSnapshot c) (rc_DailyLimit c) (rc_WeeklyLimit c) (rc_MonthlyLimit c)
    (rc_RateMultiplier c) (rc_ValidityDays c).
(** [WHERE id = ... AND status = 'unused']. *)
Definition code_Use (now : time) (id userID : Z) : M CodeTable unit := λ t,
  match ct_rows t !! id with
  | Some c =>
    if String.eqb (rc_Status c) StatusUnused
    then (Ok tt, mk_codes (<[id := set_code_used now userID c]> (ct_rows t)) (ct_next t)) else (Err ErrRedeemCodeUsed, t)
  | None => (Err ErrRedeemCodeUsed, t)
  end.

(** A change of many codes. *)
Record RedeemCodeBatchUpdateFields := {
  bu_Status : option string;
  bu_ExpiresAt : option (option time);  (* [Set], and the value *)
  bu_Notes : option string;
  bu_Type : option string;
  bu_Value : option float64
}.
Definition HasChanges (f : RedeemCodeBatchUpdateFields) : bool :=
  is_Some_b (bu_Status f) || is_Some_b (bu_ExpiresAt f) || is_Some_b (bu_Notes f) || is_Some_b (bu_Type f) || is_Some_b (bu_Value f).
Definition HasCoreFieldChanges (f : RedeemCodeBatchUpdateFields) : bool := is_Some_b (bu_Type f) || is_Some_b (bu_Value f).
Definition TouchesUsedSensitiveFields (f : RedeemCodeBatchUpdateFields) : bool := is_Some_b (bu_Status f) || is_Some_b (bu_ExpiresAt f).
Definition set_fields (f : RedeemCodeBatchUpdateFields) (c : RedeemCode) : RedeemCode :=
  mk_code (rc_ID c) (rc_Code c) (rc_Type c) (rc_Value c) (default (rc_Status c) (bu_Status f)) (rc_UsedBy c) (rc_UsedAt c)
    (default (rc_Notes c) (bu_Notes f)) (rc_CreatedAt c) (default (rc_ExpiresAt c) (bu_ExpiresAt f))
    (rc_SubscriptionPlanID c) (rc_PlanNameSnapshot c) (rc_DailyLimit c) (rc_WeeklyLimit c) (rc_MonthlyLimit c)
    (rc_RateMultiplier c) (rc_ValidityDays c).
Definition codes_in (ids : list Z) : M CodeTable (list RedeemCode) := λ t, (Ok (omap (λ id, ct_rows t !! id) ids), t).
Definition update_codes (ids : list Z) (f : RedeemCodeBatchUpdateFields) : M CodeTable Z := λ t,
  (Ok (Z.of_nat (length (omap (λ id, ct_rows t !! id) ids))),
   mk_codes (foldr (λ id rows, alter (set_fields f) id rows) (ct_rows t) ids) (ct_next t)).
Fixpoint unique_ids (seen ids : list Z) : list Z :=
  match ids with
  | [] => []
  | id :: rest => if existsb (Z.eqb id) seen then unique_ids seen rest else id :: unique_ids (id :: seen) rest
  end.
