(* ===== verification/PaymentStore.v ===== *)
(** * Payment orders and what payments are stored in

    The row of an order ([ent/schema/payment_order.go]), its statuses, and the
    decisions that need nothing else: which provider may report it paid, what
    the provider's report must match ([service/payment_order_provider_snapshot.go]),
    which of the provider's identifiers names it
    ([service/payment_order_lifecycle.go]).

    The tables a payment touches and the statements on them: orders, the audit
    log of an order, redeem codes, balances and rebates, subscriptions.  A
    statement, or a transaction, is one call; the other calls are the clock,
    the cache of the redeem service, random codes and the payment providers.

    [performs] says what a call may answer: a statement may fail before it had
    an effect, or have its effect and fail to say so; whatever is outside may
    answer anything.  The history of what was granted is kept next to the
    tables for the theorems; the code does not have it. *)

From Stdlib Require Import Ascii.
From stdpp Require Import pretty.
From S2P Require Import Prelude GoErrors Prog Float64 GoTime GoStrings GoText Subscription SubscriptionRepo SubscriptionService Account PaymentAmounts Affiliate RedeemCodes.

Definition OrderStatusPending : string := "PENDING".
Definition OrderStatusPaid : string := "PAID".
Definition OrderStatusRecharging : string := "RECHARGING".
Definition OrderStatusCompleted : string := "COMPLETED".
Definition OrderStatusExpired : string := "EXPIRED".
Definition OrderStatusCancelled : string := "CANCELLED".
Definition OrderStatusFailed : string := "FAILED".
Definition OrderStatusRefundRequested : string := "REFUND_REQUESTED".
Definition OrderStatusRefunding : string := "REFUNDING".
Definition OrderStatusRefundPending : string := "REFUND_PENDING".
Definition OrderStatusPartiallyRefunded : string := "PARTIALLY_REFUNDED".
Definition OrderStatusRefunded : string := "REFUNDED".
Definition OrderStatusRefundFailed : string := "REFUND_FAILED".

(** The columns that are set when the order is created, and those that change
    later. *)
Record OrderTerms := mk_terms {
  ot_ID : Z;
  ot_UserID : Z;
  ot_Amount : float64;
  ot_RechargeCode : string;
  ot_OutTradeNo : string;
  ot_PaymentType : string;
  ot_OrderType : string;
  ot_PlanID : option Z;
  ot_SubscriptionDays : option Z;
  ot_CreatedAt : time;
  ot_ExpiresAt : time;
  ot_ProviderSnapshot : jmap
}.
Record OrderRefund := mk_refund {
  rf_Amount : float64;
  rf_Reason : option string;
  rf_At : option time;
  rf_Force : bool;
  rf_RequestedAt : option time;
  rf_RequestReason : option string;
  rf_RequestedBy : option string
}.
Record PaymentOrder := mk_order {
  po_terms : OrderTerms;
  po_Status : string;
  po_PayAmount : float64;
  po_PaymentTradeNo : string;
  po_ProviderInstanceID : option string;
  po_ProviderKey : option string;
  po_PaidAt : option time;
  po_CompletedAt : option time;
  po_FailedAt : option time;
  po_FailedReason : option string;
  po_refund : OrderRefund;
  po_UpdatedAt : time
}.
Definition po_ID (o : PaymentOrder) : Z := ot_ID (po_terms o).
Definition po_UserID (o : PaymentOrder) : Z := ot_UserID (po_terms o).
Definition po_Amount (o : PaymentOrder) : float64 := ot_Amount (po_terms o).
Definition po_RechargeCode (o : PaymentOrder) : string := ot_RechargeCode (po_terms o).
Definition po_OutTradeNo (o : PaymentOrder) : string := ot_OutTradeNo (po_terms o).
Definition po_PaymentType (o : PaymentOrder) : string := ot_PaymentType (po_terms o).
Definition po_OrderType (o : PaymentOrder) : string := ot_OrderType (po_terms o).
Definition po_PlanID (o : PaymentOrder) : option Z := ot_PlanID (po_terms o).

(** Changes of a row, one per setter of the update builder. *)
Definition set_order_Status (v : string) (o : PaymentOrder) : PaymentOrder :=
  mk_order (po_terms o) v (po_PayAmount o) (po_PaymentTradeNo o) (po_ProviderInstanceID o) (po_ProviderKey o)
    (po_PaidAt o) (po_CompletedAt o) (po_FailedAt o) (po_FailedReason o) (po_refund o) (po_UpdatedAt o).
Definition set_PayAmount (v : float64) (o : PaymentOrder) : PaymentOrder :=
  mk_order (po_terms o) (po_Status o) v (po_PaymentTradeNo o) (po_ProviderInstanceID o) (po_ProviderKey o)
    (po_PaidAt o) (po_CompletedAt o) (po_FailedAt o) (po_FailedReason o) (po_refund o) (po_UpdatedAt o).
Definition set_PaymentTradeNo (v : string) (o : PaymentOrder) : PaymentOrder :=
  mk_order (po_terms o) (po_Status o) (po_PayAmount o) v (po_ProviderInstanceID o) (po_ProviderKey o)
    (po_PaidAt o) (po_CompletedAt o) (po_FailedAt o) (po_FailedReason o) (po_refund o) (po_UpdatedAt o).
Definition set_PaidAt (v : option time) (o : PaymentOrder) : PaymentOrder :=
  mk_order (po_terms o) (po_Status o) (po_PayAmount o) (po_PaymentTradeNo o) (po_ProviderInstanceID o) (po_ProviderKey o)
    v (po_CompletedAt o) (po_FailedAt o) (po_FailedReason o) (po_refund o) (po_UpdatedAt o).
Definition set_CompletedAt (v : option time) (o : PaymentOrder) : PaymentOrder :=
  mk_order (po_terms o) (po_Status o) (po_PayAmount o) (po_PaymentTradeNo o) (po_ProviderInstanceID o) (po_ProviderKey o)
    (po_PaidAt o) v (po_FailedAt o) (po_FailedReason o) (po_refund o) (po_UpdatedAt o).
Definition set_Failed (at_ : option time) (reason : option string) (o : PaymentOrder) : PaymentOrder :=
  mk_order (po_terms o) (po_Status o) (po_PayAmount o) (po_PaymentTradeNo o) (po_ProviderInstanceID o) (po_ProviderKey o)
    (po_PaidAt o) (po_CompletedAt o) at_ reason (po_refund o) (po_UpdatedAt o).
Definition set_Refund (f : OrderRefund -> OrderRefund) (o : PaymentOrder) : PaymentOrder :=
  mk_order (po_terms o) (po_Status o) (po_PayAmount o) (po_PaymentTradeNo o) (po_ProviderInstanceID o) (po_ProviderKey o)
    (po_PaidAt o) (po_CompletedAt o) (po_FailedAt o) (po_FailedReason o) (f (po_refund o)) (po_UpdatedAt o).
Definition set_order_UpdatedAt (v : time) (o : PaymentOrder) : PaymentOrder :=
  mk_order (po_terms o) (po_Status o) (po_PayAmount o) (po_PaymentTradeNo o) (po_ProviderInstanceID o) (po_ProviderKey o)
    (po_PaidAt o) (po_CompletedAt o) (po_FailedAt o) (po_FailedReason o) (po_refund o) v.
Definition refund_terms (amount : float64) (reason : string) (at_ : option time) (force : bool) (r : OrderRefund) : OrderRefund :=
  mk_refund amount (Some reason) at_ force (rf_RequestedAt r) (rf_RequestReason r) (rf_RequestedBy r).
Definition refund_request (amount : float64) (now : time) (reason by_ : string) (r : OrderRefund) : OrderRefund :=
  mk_refund amount (rf_Reason r) (rf_At r) (rf_Force r) (Some now) (Some reason) (Some by_).

Definition status_is (s : string) (o : PaymentOrder) : bool := String.eqb (po_Status o) s.
Definition status_in (l : list string) (o : PaymentOrder) : bool := existsb (String.eqb (po_Status o)) l.
Definition refund_statuses : list string :=
  [OrderStatusRefundRequested; OrderStatusRefunding; OrderStatusRefundPending; OrderStatusPartiallyRefunded;
   OrderStatusRefunded; OrderStatusRefundFailed].
Definition psIsRefundStatus (s : string) : bool := existsb (String.eqb s) refund_statuses.
Definition psStringValue (v : option string) : string := default ""%string v.

(** ** The provider an order is bound to *)

Section Orders.
Context {UC : UnicodeCase}.

Record paymentOrderProviderSnapshot := mk_snapshot {
  SchemaVersion : Z;
  ProviderInstanceID : string;
  ProviderKey : string;
  PaymentMode : string;
  MerchantAppID : string;
  MerchantID : string;
  SnapshotCurrency : string
}.
Definition psSnapshotStringValue (v : option json) : string :=
  match v with Some (JString s) => TrimSpace s | _ => ""%string end.
(** A decoded number is a [float64]; a string is parsed. *)
Definition psSnapshotIntValue (v : option json) : Z :=
  match v with
  | Some (JNumber x) => f64_to_int64 x
  | Some (JString s) => default 0 (Atoi (TrimSpace s))
  | _ => 0
  end.
Definition psOrderProviderSnapshot (o : PaymentOrder) : option paymentOrderProviderSnapshot :=
  let m := ot_ProviderSnapshot (po_terms o) in
  let str key := psSnapshotStringValue (m !! key) in
  let s := mk_snapshot (psSnapshotIntValue (m !! "schema_version"%string)) (str "provider_instance_id"%string)
             (str "provider_key"%string) (str "payment_mode"%string) (str "merchant_app_id"%string)
             (str "merchant_id"%string) (str "currency"%string) in
  if bool_decide (m = ∅) then None else
  if (SchemaVersion s =? 0) && str_empty (ProviderInstanceID s) && str_empty (ProviderKey s) && str_empty (PaymentMode s)
     && str_empty (MerchantAppID s) && str_empty (MerchantID s) && str_empty (SnapshotCurrency s)
  then None else Some s.

Definition PaymentOrderCurrency (o : PaymentOrder) : string :=
  match psOrderProviderSnapshot o with
  | Some s => match NormalizePaymentCurrency (SnapshotCurrency s) with Ok c => c | Err _ => DefaultPaymentCurrency end
  | None => DefaultPaymentCurrency
  end.
Definition paymentProviderConfigCurrency (providerKey : string) (cfg : gmap string string) : string :=
  let key := TrimSpace providerKey in
  if String.eqb key TypeStripe || String.eqb key TypeAirwallex then
    match NormalizePaymentCurrency (default ""%string (cfg !! "currency"%string)) with
    | Ok c => c | Err _ => DefaultPaymentCurrency end
  else DefaultPaymentCurrency.

(** The registry: the key of the provider of a payment type. *)
Definition Registry := gmap string string.
Definition GetProviderKey (r : Registry) (t : string) : string := default ""%string (r !! t).

Definition expectedNotificationProviderKey (registry : Registry)
  (orderPaymentType orderProviderKey instanceProviderKey : string) : string :=
  if negb (str_empty (TrimSpace instanceProviderKey)) then TrimSpace instanceProviderKey else
  if negb (str_empty (TrimSpace orderProviderKey)) then TrimSpace orderProviderKey else
  if negb (str_empty (TrimSpace (GetProviderKey registry orderPaymentType)))
  then TrimSpace (GetProviderKey registry orderPaymentType) else TrimSpace orderPaymentType.
Definition expectedNotificationProviderKeyForOrder (registry : Registry) (o : PaymentOrder) (instanceProviderKey : string) : string :=
  let orderProviderKey :=
    match psOrderProviderSnapshot o with
    | Some s => if str_empty (ProviderKey s) then psStringValue (po_ProviderKey o) else ProviderKey s
    | None => psStringValue (po_ProviderKey o)
    end in
  expectedNotificationProviderKey registry (po_PaymentType o) orderProviderKey instanceProviderKey.
Definition provider_matches (expected pk : string) : bool :=
  str_empty expected || str_empty (TrimSpace pk) || EqualFold expected (TrimSpace pk).

(** A field the snapshot has must be in the report and be the same. *)
Definition field_matches (who field expected actual : string) : result unit :=
  if str_empty (TrimSpace expected) then Ok tt else
  if str_empty actual then Err (EPlain (who ++ " " ++ field ++ " missing")%string) else
  if EqualFold (TrimSpace expected) actual then Ok tt else Err (EPlain (who ++ " " ++ field ++ " mismatch")%string).
(** A state that is reported must be the one that says paid. *)
Definition state_matches (who field actual wanted : string) : result unit :=
  if str_empty actual || EqualFold actual wanted then Ok tt else Err (EPlain (who ++ " " ++ field ++ " mismatch")%string).
Definition validateProviderSnapshotMetadata (o : PaymentOrder) (providerKey : string) (metadata : gmap string string) : result unit :=
  let got key := TrimSpace (default ""%string (metadata !! key)) in
  let currency := ToUpper (got "currency"%string) in
  if bool_decide (metadata = ∅) then Ok tt else
  match psOrderProviderSnapshot o with
  | None => Ok tt
  | Some s =>
    let key := TrimSpace providerKey in
    if String.eqb key TypeWxpay then
      let? _ := field_matches "wxpay" "appid" (MerchantAppID s) (got "appid"%string) in
      let? _ := field_matches "wxpay" "mchid" (MerchantID s) (got "mchid"%string) in
      let? _ := field_matches "wxpay" "currency" (SnapshotCurrency s) currency in
      state_matches "wxpay" "trade_state" (got "trade_state"%string) "SUCCESS"
    else if String.eqb key TypeAlipay then field_matches "alipay" "app_id" (MerchantAppID s) (got "app_id"%string)
    else if String.eqb key TypeEasyPay then field_matches "easypay" "pid" (MerchantID s) (got "pid"%string)
    else if String.eqb key TypeStripe then field_matches "stripe" "currency" (SnapshotCurrency s) currency
    else if String.eqb key TypeAirwallex then
      let? _ := field_matches "airwallex" "account_id" (MerchantID s) (got "account_id"%string) in
      let? _ := field_matches "airwallex" "currency" (SnapshotCurrency s) currency in
      state_matches "airwallex" "status" (got "status"%string) "SUCCEEDED"
    else Ok tt
  end.

Definition psHasPinnedProviderInstance (o : PaymentOrder) : bool :=
  match psOrderProviderSnapshot o with
  | Some _ => true
  | None => negb (str_empty (TrimSpace (psStringValue (po_ProviderInstanceID o))))
  end.
Definition paymentOrderAllowsRegistryFallback (o : PaymentOrder) : bool :=
  match psOrderProviderSnapshot o with
  | Some _ => false
  | None => str_empty (TrimSpace (psStringValue (po_ProviderInstanceID o))) && str_empty (TrimSpace (psStringValue (po_ProviderKey o)))
  end.
Definition paymentOrderFallbackProviderKey (registry : Registry) (o : PaymentOrder) : string :=
  let key := TrimSpace (GetProviderKey registry (po_PaymentType o)) in
  if str_empty key then TrimSpace (GetBasePaymentType (TrimSpace (po_PaymentType o))) else key.

(** ** Names of an order *)

Definition orderIDPrefix : string := "sub2_".
(** [strconv.ParseInt(s, 10, 64)], as [Atoi] on 64 bits. *)
Definition parseLegacyPaymentOrderID (orderID : string) (not_found : bool) : option Z :=
  if negb not_found then None else
  let orderID := TrimSpace orderID in
  if negb (HasPrefix orderID orderIDPrefix) then None else
  let trimmed := TrimPrefix orderID orderIDPrefix in
  if str_empty trimmed || String.eqb trimmed orderID then None else
  match Atoi trimmed with
  | Some oid => if oid <=? 0 then None else Some oid
  | None => None
  end.
Definition recharge_code (id nanos : Z) : string :=
  ("PAY-" ++ pretty id ++ "-" ++ pretty (Z.modulo nanos 100000))%string.

(** Alipay, EasyPay and WeChat are asked by the order's own number. *)
Definition paymentOrderQueryReference (o : PaymentOrder) (providerKey : string) : string :=
  let key := TrimSpace providerKey in
  let key := if str_empty key then match psOrderProviderSnapshot o with Some s => TrimSpace (ProviderKey s) | None => key end else key in
  let key := if str_empty key then TrimSpace (psStringValue (po_ProviderKey o)) else key in
  let key := if str_empty key then TrimSpace (po_PaymentType o) else key in
  let base := GetBasePaymentType key in
  if String.eqb base TypeAlipay || String.eqb base TypeEasyPay || String.eqb base TypeWxpay then TrimSpace (po_OutTradeNo o) else
  if str_empty (TrimSpace (po_PaymentTradeNo o)) then TrimSpace (po_OutTradeNo o) else TrimSpace (po_PaymentTradeNo o).
Definition paymentOrderShouldPersistUpstreamTradeNo (queryRef upstreamTradeNo currentTradeNo : string) : bool :=
  let upstreamTradeNo := TrimSpace upstreamTradeNo in
  negb (str_empty upstreamTradeNo) && negb (EqualFold upstreamTradeNo (TrimSpace currentTradeNo))
  && negb (EqualFold upstreamTradeNo (TrimSpace queryRef)).

Definition invalid_out_trade_no : error := BadRequest "INVALID_OUT_TRADE_NO" "out_trade_no is invalid".
Definition trade_no_char (c : ascii) : bool :=
  let v := byte_val c in
  ((97 <=? v) && (v <=? 122)) || ((65 <=? v) && (v <=? 90)) || ((48 <=? v) && (v <=? 57)) || (v =? 95) || (v =? 45).
Definition normalizeOrderLookupOutTradeNo (raw : string) : result string :=
  let outTradeNo := TrimSpace raw in
  if str_empty outTradeNo then Err (BadRequest "INVALID_OUT_TRADE_NO" "out_trade_no is required") else
  if 64 <? str_len outTradeNo then Err invalid_out_trade_no else
  if forallb trade_no_char (to_bytes outTradeNo) then Ok outTradeNo else Err invalid_out_trade_no.
End Orders.

(** ** Tables *)

(** The values of a logged detail, a JSON object. *)
Inductive detail_value := DString (s : string) | DInt (n : Z) | DFloat (x : float64) | DBool (b : bool) | DTime (t : time).
Abbreviation detail := (gmap string detail_value).
Record AuditLog := mk_audit { au_Operator : string; au_Detail : detail; au_CreatedAt : time }.

Record ProviderInstance := mk_instance {
  pi_ID : Z;
  pi_ProviderKey : string;
  pi_SupportedTypes : string;
  pi_PaymentMode : string;
  pi_Enabled : bool;
  pi_RefundEnabled : bool;
  pi_AllowUserRefund : bool
}.

(** A balance credited by a code, and a subscription assigned for an order. *)
Inductive grant :=
| Credited (codeID userID amount : Z)
| Assigned (orderID subscriptionID : Z).

(** The audit log has one row per order and action. *)
Record PaymentDB := mk_db {
  pd_orders : gmap Z PaymentOrder;
  pd_next_order : Z;
  pd_audit : gmap (Z * string) AuditLog;
  pd_codes : CodeTable;
  pd_funds : FundsDB;
  pd_subs : Table;
  pd_plans : gmap Z SubscriptionPlan;
  pd_instances : gmap Z ProviderInstance;
  pd_history : list grant
}.
Definition set_orders (v : gmap Z PaymentOrder) (db : PaymentDB) : PaymentDB :=
  mk_db v (pd_next_order db) (pd_audit db) (pd_codes db) (pd_funds db) (pd_subs db) (pd_plans db) (pd_instances db) (pd_history db).
Definition set_audit (v : gmap (Z * string) AuditLog) (db : PaymentDB) : PaymentDB :=
  mk_db (pd_orders db) (pd_next_order db) v (pd_codes db) (pd_funds db) (pd_subs db) (pd_plans db) (pd_instances db) (pd_history db).
Definition set_codes (v : CodeTable) (db : PaymentDB) : PaymentDB :=
  mk_db (pd_orders db) (pd_next_order db) (pd_audit db) v (pd_funds db) (pd_subs db) (pd_plans db) (pd_instances db) (pd_history db).
Definition set_funds (v : FundsDB) (db : PaymentDB) : PaymentDB :=
  mk_db (pd_orders db) (pd_next_order db) (pd_audit db) (pd_codes db) v (pd_subs db) (pd_plans db) (pd_instances db) (pd_history db).
Definition set_subs_table (v : Table) (db : PaymentDB) : PaymentDB :=
  mk_db (pd_orders db) (pd_next_order db) (pd_audit db) (pd_codes db) (pd_funds db) v (pd_plans db) (pd_instances db) (pd_history db).
Definition record (g : grant) : M PaymentDB unit := λ db,
  (Ok tt, mk_db (pd_orders db) (pd_next_order db) (pd_audit db) (pd_codes db) (pd_funds db) (pd_subs db) (pd_plans db)
            (pd_instances db) (pd_history db ++ [g])).

(** Statements on one table. *)
Definition on_codes {A} (m : M CodeTable A) : M PaymentDB A := λ db, let '(r, t) := m (pd_codes db) in (r, set_codes t db).
Definition on_funds {A} (m : M FundsDB A) : M PaymentDB A := λ db, let '(r, t) := m (pd_funds db) in (r, set_funds t db).
Definition on_subs {A} (m : M Table A) : M PaymentDB A := λ db, let '(r, t) := m (pd_subs db) in (r, set_subs_table t db).

Definition ent_not_found : error := EPlain "ent: not found".
Definition not_singular : error := EPlain "ent: not singular".
Definition constraint_failed : error := EPlain "ent: constraint failed".
Definition IsNotFound (e : error) : bool := error_is e ent_not_found.
Definition IsConstraintError (e : error) : bool := error_is e constraint_failed.

(** *** Orders *)

Definition order_Get (id : Z) : M PaymentDB PaymentOrder := λ db,
  match pd_orders db !! id with Some o => (Ok o, db) | None => (Err ent_not_found, db) end.
Definition order_only (p : PaymentOrder -> bool) : M PaymentDB PaymentOrder := λ db,
  match filterb p (map_to_list (pd_orders db)).*2 with
  | [o] => (Ok o, db)
  | [] => (Err ent_not_found, db)
  | _ => (Err not_singular, db)
  end.
Definition has_trade_no (outTradeNo : string) (o : PaymentOrder) : bool := String.eqb (po_OutTradeNo o) outTradeNo.
Definition orders_where (p : PaymentOrder -> bool) : M PaymentDB (list PaymentOrder) := λ db,
  (Ok (filterb p (map_to_list (pd_orders db)).*2), db).
(** [Update().Where(IDEQ(id), p)...Save]: the rows it changed, which get [now]
    as their time of update. *)
Definition order_update (now : time) (id : Z) (p : PaymentOrder -> bool) (f : PaymentOrder -> PaymentOrder) : M PaymentDB Z := λ db,
  match pd_orders db !! id with
  | Some o => if p o then (Ok 1, set_orders (<[id := set_order_UpdatedAt now (f o)]> (pd_orders db)) db) else (Ok 0, db)
  | None => (Ok 0, db)
  end.
Definition any_order (_ : PaymentOrder) : bool := true.
(** [UpdateOneID(id)...Save]. *)
Definition order_update_one (now : time) (id : Z) (f : PaymentOrder -> PaymentOrder) : M PaymentDB unit :=
  let! n := order_update now id any_order f in if n =? 0 then mfail ent_not_found else mret tt.

(** *** The audit log *)

Definition audit_Create (now : time) (oid : Z) (action operator : string) (d : detail) : M PaymentDB unit := λ db,
  match pd_audit db !! (oid, action) with
  | Some _ => (Err constraint_failed, db)
  | None => (Ok tt, set_audit (<[(oid, action) := mk_audit operator d now]> (pd_audit db)) db)
  end.
Definition audit_exists (oid : Z) (actions : list string) (db : PaymentDB) : bool :=
  existsb (λ a, is_Some_b (pd_audit db !! (oid, a))) actions.
Definition audit_count (oid : Z) (actions : list string) : M PaymentDB bool := λ db, (Ok (audit_exists oid actions db), db).
Definition audit_First (oid : Z) (action : string) : M PaymentDB AuditLog := λ db,
  match pd_audit db !! (oid, action) with Some a => (Ok a, db) | None => (Err ent_not_found, db) end.

Definition plan_Get (id : Z) : M PaymentDB SubscriptionPlan := λ db,
  match pd_plans db !! id with Some p => (Ok p, db) | None => (Err ent_not_found, db) end.
Definition instance_Get (id : Z) : M PaymentDB ProviderInstance := λ db,
  match pd_instances db !! id with Some i => (Ok i, db) | None => (Err ent_not_found, db) end.
Definition instances_where (p : ProviderInstance -> bool) : M PaymentDB (list ProviderInstance) := λ db,
  (Ok (filterb p (map_to_list (pd_instances db)).*2), db).

Definition wrapped {A} (msg : string) (m : M PaymentDB A) : M PaymentDB A :=
  mtry m (λ r, match r with Err e => mfail (EWrap msg e) | Ok a => mret a end).

(** ** Calls *)

(** A provider, built from the configuration of an instance: its key, the
    optional interfaces it has, and the identity it reports. *)
Record Provider := mk_provider {
  pv_ProviderKey : string;
  pv_Cancelable : bool;
  pv_QueriesRefunds : bool;
  pv_Identity : gmap string string
}.
Record QueryOrderResponse := mk_query {
  qr_TradeNo : string; qr_Status : string; qr_Amount : float64; qr_Metadata : gmap string string
}.
Record RefundRequest := mk_refund_request { rq_TradeNo : string; rq_OrderID : string; rq_Amount : string; rq_Reason : string }.
Record RefundQueryRequest := mk_refund_query { fq_TradeNo : string; fq_OrderID : string; fq_RefundID : string; fq_Amount : string }.
Record RefundResponse := mk_refund_response { rr_RefundID : string; rr_Status : string }.

(** The instance the load balancer selected for a new order. *)
Record InstanceSelection := mk_selection {
  sel_InstanceID : string; sel_ProviderKey : string; sel_Config : gmap string string; sel_PaymentMode : string
}.

Inductive stmt : Type -> Type :=
| Now : stmt time
| Exec {A : Type} (m : M PaymentDB A) : stmt (result A)
| AttemptCount (userID : Z) : stmt (result Z)
| IncrementAttempts (userID : Z) : stmt unit
| AcquireLock (code : string) : stmt (result bool)
| ReleaseLock (code : string) : stmt unit
| RandomCode : stmt (result string)
| AffiliateCodes : stmt (Z -> list string)
| InvalidateSubscription (userID subscriptionID : Z) : stmt (result unit)
| Providers : stmt Registry
| GenerateOutTradeNo : stmt string
| CreatePayment (sel : InstanceSelection) (o : PaymentOrder) : stmt (result string)
| CreateProvider (inst : ProviderInstance) : stmt (result Provider)
| RegisteredProvider (paymentType : string) : stmt (result Provider)
| QueryOrder (p : Provider) (ref : string) : stmt (result QueryOrderResponse)
| CancelPayment (p : Provider) (ref : string) : stmt unit
| Refund (p : Provider) (req : RefundRequest) : stmt (option error * option RefundResponse)
| QueryRefund (p : Provider) (req : RefundQueryRequest) : stmt (result (option RefundResponse)).

#[global] Abbreviation pay := (prog stmt).
Definition now_ : pay time := call Now.
Definition exec_ {A} (m : M PaymentDB A) : pay (result A) := call (Exec m).

(** [if err != nil] returns, with what wraps the error. *)
Definition attempt {A B} (m : pay (result A)) (f : error -> error) (k : A -> pay (result B)) : pay (result B) :=
  pbind m (λ r, match r with Err e => Ret (Err (f e)) | Ok a => k a end).
Notation "'let&' x ':=' m 'else' f 'in' k" := (attempt m f (fun x => k))
  (at level 10, x name, m at level 200, f at level 200, k at level 200) : prog_scope.

(** What is not a statement leaves the tables alone. *)
Definition outside {B} (c : stmt B) : bool := match c with Exec _ => false | _ => true end.

Inductive performs : ∀ B, stmt B -> PaymentDB -> B -> PaymentDB -> Prop :=
| perform_ok A (m : M PaymentDB A) db a db' : m db = (Ok a, db') -> performs _ (Exec m) db (Ok a) db'
| perform_error A (m : M PaymentDB A) db e db' : m db = (Err e, db') -> performs _ (Exec m) db (Err e) db
| perform_fault A (m : M PaymentDB A) db e : performs _ (Exec m) db (Err e) db
| perform_lost A (m : M PaymentDB A) db a db' e : m db = (Ok a, db') -> performs _ (Exec m) db (Err e) db'
| perform_outside B (c : stmt B) db b : outside c = true -> performs _ c db b db.
