(* ===== verification/RedeemService.v ===== *)
(** * Redeeming codes

    [service/redeem_service.go] over the statements of [PaymentStore]: codes
    are generated, created, changed in bulk, deleted and redeemed.  A
    redemption marks the code used and grants what it stands for in one
    transaction, behind a limit of failed attempts and a lock that are both
    best effort. *)

From stdpp Require Import pretty.
From S2P Require Import Prelude GoErrors Prog Float64 GoTime GoStrings GoText Subscription SubscriptionRepo SubscriptionService Affiliate RedeemCodes PaymentStore.

Open Scope prog_scope.

Definition redeemMaxErrorsPerHour : Z := 20.
Definition redeemLockDuration : Z := 10 * second.

(** The optional parts of the service: its cache, the repository of atomic
    adjustments, the subscription service, and the affiliate service with its
    settings. *)
Record RedeemDeps := {
  rd_cache : bool;
  rd_redeemUserRepo : bool;
  rd_subscriptions : bool;
  rd_affiliate : option (option AffiliateSettings);
  rd_ParseFloat : string -> option float64
}.

Section RedeemService.
Context {UC : UnicodeCase} {NC : NumericColumn} (db_add : float64 -> float64 -> float64) (s : RedeemDeps).

(** ** Generating codes *)

(** [hex.EncodeToString] of the random bytes comes back from [RandomCode]. *)
Definition format_code (hex : string) : string :=
  let part i := ToUpper (String.substring (8 * i) 8 hex) in
  (part 0%nat ++ "-" ++ part 1%nat ++ "-" ++ part 2%nat ++ "-" ++ part 3%nat)%string.
Definition GenerateRandomCode : pay (result string) :=
  let* r := call RandomCode in
  Ret (match r with Err e => Err (EWrap "generate random bytes: %w" e) | Ok hex => Ok (format_code hex) end).

Record GenerateCodesRequest := { gr_Count : Z; gr_Value : float64; gr_Type : string }.
Definition new_code (code type_ : string) (value : float64) : RedeemCode :=
  mk_code 0 code type_ value StatusUnused None None "" time_zero None None "" None None None f0 0.
Fixpoint generate (n : nat) (type_ : string) (value : float64) : pay (result (list RedeemCode)) :=
  match n with
  | O => Ret (Ok [])
  | S n =>
    let* r := GenerateRandomCode in
    match r with
    | Err e => Ret (Err (EWrap "generate code: %w" e))
    | Ok code =>
      let* rest := generate n type_ value in
      Ret (let? rest := rest in Ok (new_code code type_ value :: rest))
    end
  end.
Definition GenerateCodes (req : GenerateCodesRequest) : pay (result (list RedeemCode)) :=
  if gr_Count req <=? 0 then Ret (Err (EPlain "count must be greater than 0")) else
  if negb (String.eqb (gr_Type req) RedeemTypeInvitation) && feqb (gr_Value req) f0
  then Ret (Err (EPlain "value must not be zero")) else
  if 1000 <? gr_Count req then Ret (Err (EPlain "cannot generate more than 1000 codes at once")) else
  let codeType := if str_empty (gr_Type req) then RedeemTypeBalance else gr_Type req in
  let value := if String.eqb codeType RedeemTypeInvitation then f0 else gr_Value req in
  let* codes := generate (Z.to_nat (gr_Count req)) codeType value in
  match codes with
  | Err e => Ret (Err e)
  | Ok codes =>
    let* now := now_ in
    let* r := exec_ (on_codes (code_CreateBatch now codes)) in
    Ret (match r with Err e => Err (EWrap "create batch codes: %w" e) | Ok _ => Ok codes end)
  end.

Definition hydrateSubscriptionRedeemCode (code : RedeemCode) : pay (result RedeemCode) :=
  match rc_SubscriptionPlanID code with
  | Some planID =>
    if negb (String.eqb (rc_Type code) RedeemTypeSubscription) then Ret (Ok code) else
    if planID <=? 0 then Ret (Err ErrSubscriptionPlanInvalid) else
    let* plan := exec_ (plan_Get planID) in
    Ret (match plan with
         | Err e => if IsNotFound e then Err ErrSubscriptionPlanNotFound else Err (EWrap "get subscription plan: %w" e)
         | Ok plan => applySubscriptionPlanToRedeemCode code (Some plan)
         end)
  | None => Ret (Ok code)
  end.

Definition with_code_type (code type_ status : string) (c : RedeemCode) : RedeemCode :=
  mk_code (rc_ID c) code type_ (rc_Value c) status (rc_UsedBy c) (rc_UsedAt c) (rc_Notes c) (rc_CreatedAt c)
    (rc_ExpiresAt c) (rc_SubscriptionPlanID c) (rc_PlanNameSnapshot c) (rc_DailyLimit c) (rc_WeeklyLimit c) (rc_MonthlyLimit c)
    (rc_RateMultiplier c) (rc_ValidityDays c).
Definition CreateCode (code : RedeemCode) : pay (result RedeemCode) :=
  let name := TrimSpace (rc_Code code) in
  if str_empty name then Ret (Err (EPlain "code is required")) else
  let type_ := if str_empty (rc_Type code) then RedeemTypeBalance else rc_Type code in
  if String.eqb type_ RedeemTypeSubscription && match rc_SubscriptionPlanID code with Some id => id <=? 0 | None => true end
  then Ret (Err (BadRequest "REDEEM_CODE_PLAN_REQUIRED" "subscription redeem code requires a subscription plan")) else
  if negb (String.eqb type_ RedeemTypeInvitation) && feqb (rc_Value code) f0
  then Ret (Err (EPlain "value must not be zero")) else
  let code := with_code_type name type_ (if str_empty (rc_Status code) then StatusUnused else rc_Status code) code in
  let* now := now_ in
  if IsExpiredAt code now then Ret (Err ErrRedeemCodeExpired) else
  let* code := hydrateSubscriptionRedeemCode code in
  match code with
  | Err e => Ret (Err e)
  | Ok code =>
    let* now := now_ in
    let* r := exec_ (on_codes (code_Create now code)) in
    Ret (match r with Err e => Err (EWrap "create redeem code: %w" e) | Ok c => Ok c end)
  end.

(** ** Changing many *)

(** The service keeps the first of equal ids and refuses one that is not positive. *)
Fixpoint batch_ids (seen ids : list Z) : result (list Z) :=
  match ids with
  | [] => Ok []
  | id :: rest =>
    if id <=? 0 then Err (BadRequest "REDEEM_CODE_BATCH_UPDATE_INVALID_ID" "ids must be positive") else
    if existsb (Z.eqb id) seen then batch_ids seen rest else
    let? more := batch_ids (id :: seen) rest in Ok (id :: more)
  end.
(** [repository.BatchUpdate]: the rows are read first, and updated by another
    statement of the transaction. *)
Definition batchUpdate (ids : list Z) (fields : RedeemCodeBatchUpdateFields) : pay (result Z) :=
  let* existing := exec_ (on_codes (codes_in ids)) in
  match existing with
  | Err e => Ret (Err e)
  | Ok existing =>
    if negb (Nat.eqb (length existing) (length ids)) then Ret (Err ErrRedeemCodeNotFound) else
    if TouchesUsedSensitiveFields fields && existsb IsUsed existing then Ret (Err ErrRedeemCodeUsed) else
    exec_ (on_codes (let! affected := update_codes ids fields in
                     if affected =? Z.of_nat (length ids) then mret affected else mfail ErrRedeemCodeNotFound))
  end.
Definition repo_BatchUpdate (ids : list Z) (fields : RedeemCodeBatchUpdateFields) : pay (result Z) :=
  match unique_ids [] ids with [] => Ret (Ok 0) | uniqueIDs => batchUpdate uniqueIDs fields end.
Definition status_allowed (st : option string) : bool :=
  match st with Some v => String.eqb v StatusUnused || String.eqb v StatusDisabled | None => true end.
Definition BatchUpdate (IDs : list Z) (fields : RedeemCodeBatchUpdateFields) : pay (result Z) :=
  match IDs with
  | [] => Ret (Err (BadRequest "REDEEM_CODE_BATCH_UPDATE_IDS_REQUIRED" "ids are required"))
  | _ =>
    if negb (HasChanges fields) then Ret (Err (BadRequest "REDEEM_CODE_BATCH_UPDATE_EMPTY" "at least one field must be selected")) else
    if HasCoreFieldChanges fields then Ret (Err (BadRequest "REDEEM_CODE_CORE_FIELDS_IMMUTABLE" "type and value cannot be batch updated")) else
    match batch_ids [] IDs with
    | Err e => Ret (Err e)
    | Ok ids =>
      if negb (status_allowed (bu_Status fields)) then Ret (Err (BadRequest "REDEEM_CODE_STATUS_INVALID" "status must be unused or disabled")) else
      match bu_ExpiresAt fields with
      | Some (Some t) =>
        let* now := now_ in
        if after t now then repo_BatchUpdate ids fields
        else Ret (Err (BadRequest "REDEEM_CODE_EXPIRES_AT_INVALID" "expires_at must be in the future"))
      | _ => repo_BatchUpdate ids fields
      end
    end
  end.

Definition Delete (id : Z) : pay (result unit) :=
  let* code := exec_ (on_codes (code_GetByID id)) in
  match code with
  | Err e => Ret (Err (EWrap "get redeem code: %w" e))
  | Ok code =>
    if IsUsed code then Ret (Err (Conflict "REDEEM_CODE_DELETE_USED" "cannot delete used redeem code")) else
    let* r := exec_ (on_codes (code_Delete id)) in
    Ret (match r with Err e => Err (EWrap "delete redeem code: %w" e) | Ok _ => Ok tt end)
  end.

(** ** Redeeming *)

Definition checkRedeemRateLimit (userID : Z) : pay (result unit) :=
  if negb (rd_cache s) then Ret (Ok tt) else
  let* count := call (AttemptCount userID) in
  Ret (match count with
       | Err _ => Ok tt
       | Ok n => if redeemMaxErrorsPerHour <=? n then Err ErrRedeemRateLimited else Ok tt
       end).
Definition incrementRedeemErrorCount (userID : Z) : pay unit :=
  if rd_cache s then call (IncrementAttempts userID) else Ret tt.
Definition acquireRedeemLock (code : string) : pay bool :=
  if negb (rd_cache s) then Ret true else
  let* r := call (AcquireLock code) in Ret (match r with Err _ => true | Ok ok => ok end).
Definition releaseRedeemLock (code : string) : pay unit := if rd_cache s then call (ReleaseLock code) else Ret tt.

Definition unsupportedRedeemTypeError (codeType : string) : error :=
  BadRequest "REDEEM_CODE_UNSUPPORTED_TYPE"
    (if String.eqb codeType RedeemTypeInvitation then "invitation codes can only be used during registration"
     else "unsupported redeem type: " ++ codeType)%string.
Definition check_type (c : RedeemCode) : result unit :=
  if String.eqb (rc_Type c) RedeemTypeBalance || String.eqb (rc_Type c) RedeemTypeConcurrency then Ok tt else
  if String.eqb (rc_Type c) RedeemTypeSubscription then
    match rc_SubscriptionPlanID c with
    | Some id => if id <=? 0 then Err (BadRequest "REDEEM_CODE_INVALID" "subscription redeem code requires a subscription plan") else Ok tt
    | None => Err (BadRequest "REDEEM_CODE_INVALID" "subscription redeem code requires a subscription plan")
    end
  else Err (unsupportedRedeemTypeError (rc_Type c)).

Definition no_adjustments (what : string) : error :=
  EPlain ("user repository does not support atomic redeem " ++ what ++ " adjustments").
(** What a code of a balance grants, with the record of it. *)
Definition grant_balance (userID : Z) (c : RedeemCode) : M PaymentDB unit :=
  let amount := rc_Value c in
  let! _ := (if fltb amount f0 then
               if rd_redeemUserRepo s then wrapped "update user balance: %w" (on_funds (ApplyRedeemBalanceAdjustment userID amount))
               else mfail (no_adjustments "balance")
             else wrapped "update user balance: %w" (on_funds (UpdateBalance userID amount))) in
  record (Credited (rc_ID c) userID (units amount)).
Definition grant_concurrency (userID : Z) (c : RedeemCode) : M PaymentDB unit :=
  let delta := f64_to_int64 (rc_Value c) in
  if delta <? 0 then
    if rd_redeemUserRepo s then wrapped "update user concurrency: %w" (on_funds (ApplyRedeemConcurrencyAdjustment userID delta))
    else mfail (no_adjustments "concurrency")
  else wrapped "update user concurrency: %w" (on_funds (UpdateConcurrency userID delta)).
Definition assignSubscriptionFromRedeemCode (now : time) (userID : Z) (c : RedeemCode) : M PaymentDB unit :=
  if negb (rd_subscriptions s) then mfail (EPlain "subscription service is unavailable") else
  let! sub := mlift (subscriptionFromRedeemCode c userID ("redeemed code " ++ rc_Code c) now) in
  mtry (on_subs (repo_Create (table_repo db_add) sub)) (λ r,
    match r with Err e => mfail (EWrap "create subscription from redeem code: %w" e) | Ok _ => mret tt end).
(** The transaction: the code is marked first, if it is still unused. *)
Definition redeem_tx (now : time) (userID : Z) (c : RedeemCode) : M PaymentDB unit :=
  let! _ := mtry (on_codes (code_Use now (rc_ID c) userID)) (λ r,
    match r with
    | Ok _ => mret tt
    | Err e => mfail (if error_is e ErrRedeemCodeUsed || code_not_found e then ErrRedeemCodeUsed else EWrap "mark code as used: %w" e)
    end) in
  if String.eqb (rc_Type c) RedeemTypeBalance then grant_balance userID c else
  if String.eqb (rc_Type c) RedeemTypeConcurrency then grant_concurrency userID c else
  if String.eqb (rc_Type c) RedeemTypeSubscription then assignSubscriptionFromRedeemCode now userID c else
  mfail (unsupportedRedeemTypeError (rc_Type c)).

Definition tryAccrueAffiliateRebateForRedeem (skip : bool) (userID : Z) (amount : float64) : pay unit :=
  if skip then Ret tt else
  match rd_affiliate s with
  | None => Ret tt
  | Some st =>
    if negb (IsEnabled st) then Ret tt else
    let* codes := call AffiliateCodes in
    let* now := now_ in
    let* _ := exec_ (on_funds (AccrueInviteRebate (rd_ParseFloat s) st codes now userID amount)) in Ret tt
  end.

(** After the lock is taken; the lock is released whatever comes out. *)
Definition redeem_locked (skip : bool) (userID : Z) (code : string) : pay (result RedeemCode) :=
  let failed e := let* _ := incrementRedeemErrorCount userID in Ret (Err e) in
  let* r := exec_ (on_codes (code_GetByCode code)) in
  match r with
  | Err e => if code_not_found e then failed ErrRedeemCodeNotFound else Ret (Err (EWrap "get redeem code: %w" e))
  | Ok c =>
    let* now := now_ in
    if IsExpiredAt c now then failed ErrRedeemCodeExpired else
    let* now := now_ in
    if negb (CanUse c now) then failed ErrRedeemCodeUsed else
    match check_type c with
    | Err e => Ret (Err e)
    | Ok _ =>
      let* u := exec_ (on_funds (user_by_id userID)) in
      match u with
      | Err e => Ret (Err (EWrap "get user: %w" e))
      | Ok _ =>
        let* now := now_ in
        let* r := exec_ (redeem_tx now userID c) in
        match r with
        | Err e => Ret (Err e)
        | Ok _ =>
          let* _ := (if String.eqb (rc_Type c) RedeemTypeBalance && fgtb (rc_Value c) f0
                     then tryAccrueAffiliateRebateForRedeem skip userID (rc_Value c) else Ret tt) in
          let* r := exec_ (on_codes (code_GetByID (rc_ID c))) in
          Ret (match r with Err e => Err (EWrap "get updated redeem code: %w" e) | Ok c => Ok c end)
        end
      end
    end
  end.
Definition Redeem (skip : bool) (userID : Z) (code : string) : pay (result RedeemCode) :=
  let* limited := checkRedeemRateLimit userID in
  match limited with
  | Err e => Ret (Err e)
  | Ok _ =>
    let* locked := acquireRedeemLock code in
    if negb locked then Ret (Err ErrRedeemCodeLocked) else
    let* r := redeem_locked skip userID code in
    let* _ := releaseRedeemLock code in
    Ret r
  end.
Definition GetByCode (code : string) : pay (result RedeemCode) :=
  let* r := exec_ (on_codes (code_GetByCode code)) in
  Ret (match r with Err e => Err (EWrap "get redeem code: %w" e) | Ok c => Ok c end).
End RedeemService.
