(* ===== verification/Payments.v ===== *)
(** * Payments: from the notification to the fulfilled order

    [service/payment_fulfillment.go], the lookups of
    [service/payment_refund.go], [service/payment_webhook_provider.go] and
    [service/payment_order_provider_snapshot.go], and the cancelling, expiring
    and reconciling of [service/payment_order_lifecycle.go], as programs of
    the calls of [PaymentStore]: between two of them anything else may run.
    Refunds are in [PaymentRefunds]. *)

From stdpp Require Import pretty.
From S2P Require Import Prelude GoErrors Prog Float64 GoTime GoStrings GoText Subscription SubscriptionRepo SubscriptionService Account PaymentAmounts Affiliate RedeemCodes PaymentStore RedeemService.

Open Scope prog_scope.

Definition paymentFulfillmentLeaseDuration : Z := 5 * minute.
Definition paymentGrace : Z := 5 * minute.
Definition NotificationStatusSuccess : string := "success".
Definition ProviderStatusPending : string := "pending".
Definition ProviderStatusPaid : string := "paid".
Definition ProviderStatusSuccess : string := "success".
Definition ProviderStatusFailed : string := "failed".
Definition ProviderStatusRefunded : string := "refunded".

(** The services payments use: the redeem service, the subscription service
    when there is one, and the affiliate service with its settings.
    [pm_column] is what a DECIMAL(20,2) column keeps of an amount, and
    [pm_error_text] what an error prints. *)
Record PaymentDeps := {
  pm_redeem : RedeemDeps;
  pm_subscriptions : bool;
  pm_affiliate : option (option AffiliateSettings);
  pm_column : float64 -> float64;
  pm_error_text : error -> string
}.

Definition order_not_found : error := NotFound "NOT_FOUND" "order not found".
Definition ErrOrderNotFound : error := EPlain "payment order not found".
Definition invalid_status (msg : string) : error := BadRequest "INVALID_STATUS" msg.

(** A named query of a list: exactly one row. *)
Definition sole {A} (l : list A) : option A := match l with [a] => Some a | _ => None end.

Section Payments.
Context {UC : UnicodeCase} {NC : NumericColumn} (db_add : float64 -> float64 -> float64) (s : PaymentDeps).

(** ** Statements *)

(** [encoding/json] has no text for a number that is not finite. *)
Definition encodable (v : detail_value) : bool :=
  match v with DFloat x => negb (is_nan x) && negb (is_inf x) | _ => true end.
Definition encoded (d : detail) : detail :=
  if forallb encodable (map_to_list d).*2 then d else ∅.
Definition writeAuditLog (oid : Z) (action op : string) (d : list (string * detail_value)) : pay unit :=
  let* now := now_ in
  let* _ := exec_ (audit_Create now oid action op (encoded (list_to_map d))) in Ret tt.
Definition hasAuditLog (oid : Z) (action : string) : pay bool :=
  let* r := exec_ (audit_count oid [action]) in Ret (match r with Ok b => b | Err _ => false end).
(** The builder sets [updated_at] to the clock. *)
Definition update_order (oid : Z) (p : PaymentOrder -> bool) (f : PaymentOrder -> PaymentOrder) : pay (result Z) :=
  let* now := now_ in exec_ (order_update now oid p f).
Definition update_order_one (oid : Z) (f : PaymentOrder -> PaymentOrder) : pay (result unit) :=
  let* now := now_ in exec_ (order_update_one now oid f).
Definition get_order (oid : Z) : pay (result PaymentOrder) := exec_ (order_Get oid).

(** ** The provider instance of an order *)

Definition normalizeVisibleMethodSupportType (paymentType : string) : string :=
  let t := TrimSpace paymentType in
  if String.eqb t TypeAlipay || String.eqb t TypeAlipayDirect then TypeAlipay else
  if String.eqb t TypeWxpay || String.eqb t TypeWxpayDirect then TypeWxpay else t.
Definition InstanceSupportsType (supportedTypes target : string) : bool :=
  if str_empty supportedTypes then true else
  existsb (λ t, let supported := TrimSpace t in
    String.eqb supported target || String.eqb (normalizeVisibleMethodSupportType supported) (normalizeVisibleMethodSupportType target))
    (Split supportedTypes ",").
Definition psLegacyOrderMatchesInstance (orderPaymentType : string) (inst : ProviderInstance) : bool :=
  let baseType := GetBasePaymentType (TrimSpace orderPaymentType) in
  let instanceProviderKey := TrimSpace (pi_ProviderKey inst) in
  if str_empty baseType then false else
  if String.eqb baseType TypeStripe then String.eqb instanceProviderKey TypeStripe else
  if String.eqb instanceProviderKey TypeStripe then false else
  if String.eqb instanceProviderKey baseType then true else InstanceSupportsType (pi_SupportedTypes inst) baseType.
Definition psFilterLegacyOrderProviderInstances (orderPaymentType : string) (instances : list ProviderInstance) : list ProviderInstance :=
  if str_empty (TrimSpace orderPaymentType) then instances else filterb (psLegacyOrderMatchesInstance orderPaymentType) instances.

Definition resolveSnapshotOrderProviderInstance (o : PaymentOrder) (snap : paymentOrderProviderSnapshot)
  : pay (result (option ProviderInstance)) :=
  let columnInstanceID := TrimSpace (psStringValue (po_ProviderInstanceID o)) in
  let snapshotInstanceID :=
    if str_empty (TrimSpace (ProviderInstanceID snap)) then columnInstanceID else TrimSpace (ProviderInstanceID snap) in
  if str_empty snapshotInstanceID then Ret (Err (EPlain "provider snapshot is missing provider_instance_id")) else
  if negb (str_empty columnInstanceID) && negb (str_empty (ProviderInstanceID snap))
     && negb (EqualFold columnInstanceID (ProviderInstanceID snap))
  then Ret (Err (EPlain "provider snapshot instance mismatch")) else
  match Atoi snapshotInstanceID with
  | None => Ret (Err (EPlain "provider snapshot instance id is invalid"))
  | Some instID =>
    let& inst := exec_ (instance_Get instID)
      else (λ e, if IsNotFound e then EPlain "provider snapshot instance is missing" else e) in
    if negb (str_empty (ProviderKey snap)) && negb (EqualFold (TrimSpace (pi_ProviderKey inst)) (ProviderKey snap))
    then Ret (Err (EPlain "provider snapshot key mismatch")) else Ret (Ok (Some inst))
  end.
Definition resolveUniqueLegacyOrderProviderInstance (o : PaymentOrder) : pay (result (option ProviderInstance)) :=
  let paymentType := GetBasePaymentType (TrimSpace (po_PaymentType o)) in
  let providerKey := TrimSpace (psStringValue (po_ProviderKey o)) in
  let unique p :=
    let& instances := exec_ (instances_where p) else id in
    Ret (Ok (sole (psFilterLegacyOrderProviderInstances paymentType instances))) in
  if negb (str_empty providerKey) then unique (λ i, String.eqb (pi_ProviderKey i) providerKey) else
  if str_empty paymentType then Ret (Ok None) else unique (λ _, true).
Definition getOrderProviderInstance (o : PaymentOrder) : pay (result (option ProviderInstance)) :=
  match psOrderProviderSnapshot o with
  | Some snap => resolveSnapshotOrderProviderInstance o snap
  | None =>
    let instIDStr := TrimSpace (psStringValue (po_ProviderInstanceID o)) in
    if str_empty instIDStr then resolveUniqueLegacyOrderProviderInstance o else
    match Atoi instIDStr with
    | None => Ret (Ok None)
    | Some instID => let& inst := exec_ (instance_Get instID) else id in Ret (Ok (Some inst))
    end
  end.
(** A refund does not guess. *)
Definition getRefundOrderProviderInstance (o : PaymentOrder) : pay (result (option ProviderInstance)) :=
  match psOrderProviderSnapshot o with
  | Some snap => resolveSnapshotOrderProviderInstance o snap
  | None =>
    let instIDStr := TrimSpace (psStringValue (po_ProviderInstanceID o)) in
    if str_empty instIDStr then Ret (Ok None) else
    match Atoi instIDStr with
    | None => Ret (Err (EPlain "refund provider instance id is invalid"))
    | Some instID =>
      let& inst := exec_ (instance_Get instID)
        else (λ e, if IsNotFound e then EPlain "refund provider instance is missing" else e) in
      Ret (Ok (Some inst))
    end
  end.

Definition createProviderFromInstance (inst : ProviderInstance) : pay (result Provider) := call (CreateProvider inst).
Definition webhookRegistryFallbackAllowed (providerKey : string) : pay bool :=
  let key := TrimSpace providerKey in
  if str_empty key then Ret false else
  let* r := exec_ (instances_where (λ i, String.eqb (pi_ProviderKey i) key && pi_Enabled i)) in
  Ret (match r with Err _ => false | Ok l => Nat.leb (length l) 1 end).
Definition getOrderProvider (o : PaymentOrder) : pay (result Provider) :=
  let& inst := getOrderProviderInstance o else EWrap "load order provider instance: %w" in
  match inst with
  | Some inst => createProviderFromInstance inst
  | None =>
    if negb (paymentOrderAllowsRegistryFallback o) then Ret (Err (EPlain "provider instance is unresolved")) else
    let* registry := call Providers in
    let providerKey := paymentOrderFallbackProviderKey registry o in
    if str_empty providerKey then Ret (Err (EPlain "provider fallback key is missing")) else
    let* allowed := webhookRegistryFallbackAllowed providerKey in
    if negb allowed then Ret (Err (EPlain "provider fallback is ambiguous")) else call (RegisteredProvider (po_PaymentType o))
  end.
Definition getRefundProvider (o : PaymentOrder) : pay (result Provider) :=
  let& inst := getRefundOrderProviderInstance o else id in
  match inst with
  | None => Ret (Err (EPlain "refund provider instance is unavailable"))
  | Some inst => createProviderFromInstance inst
  end.

(** ** Fulfilment *)

(** The lease of the worker that fulfils an order is the order's time of
    update: who took it later has another. *)
Definition trunc_us (t : time) : time := mk_time (t_ns t - t_ns t mod 1000) UTC.
Definition lease_free (staleBefore : time) (o : PaymentOrder) : bool :=
  status_in [OrderStatusPaid; OrderStatusFailed] o
  || status_is OrderStatusRecharging o && negb (after (po_UpdatedAt o) staleBefore).
Definition conflict (msg : string) : error := Conflict "CONFLICT" msg.
Definition acquirePaymentFulfillmentLease (oid : Z) : pay (result (option time)) :=
  let* clock := now_ in
  let now := trunc_us clock in
  let staleBefore := time_add now (- paymentFulfillmentLeaseDuration) in
  let& updated := exec_ (order_update now oid (lease_free staleBefore)
                           (λ o, set_Failed None None (set_order_Status OrderStatusRecharging o)))
    else EWrap "acquire fulfillment lease: %w" in
  if updated =? 0 then
    let& current := get_order oid else EWrap "reload fulfillment lease: %w" in
    if status_is OrderStatusCompleted current then Ret (Ok None) else
    if status_is OrderStatusRecharging current then Ret (Err (conflict "order is being processed"))
    else Ret (Err (conflict "order status changed while acquiring fulfillment lease"))
  else
    let& claimed := get_order oid else EWrap "reload acquired fulfillment lease: %w" in
    if negb (status_is OrderStatusRecharging claimed) then Ret (Err (conflict "fulfillment lease was lost"))
    else Ret (Ok (Some (po_UpdatedAt claimed))).
Definition leased (version : time) (o : PaymentOrder) : bool :=
  status_is OrderStatusRecharging o && time_equal (po_UpdatedAt o) version.

Inductive redeemAction := redeemActionCreate | redeemActionRedeem | redeemActionSkipCompleted.
Definition resolveRedeemAction (existing : result RedeemCode) : redeemAction :=
  match existing with
  | Err _ => redeemActionCreate
  | Ok c => if IsUsed c then redeemActionSkipCompleted else redeemActionRedeem
  end.

Definition markCompleted (o : PaymentOrder) (lease : time) (auditAction : string) : pay (result unit) :=
  let* now := now_ in
  let& updated := update_order (po_ID o) (leased lease) (λ o, set_CompletedAt (Some now) (set_order_Status OrderStatusCompleted o))
    else EWrap "mark completed: %w" in
  if updated =? 0 then
    let* current := get_order (po_ID o) in
    match current with
    | Ok current =>
      if status_is OrderStatusCompleted current then Ret (Ok tt)
      else Ret (Err (conflict "fulfillment lease was lost before completion"))
    | Err _ => Ret (Err (conflict "fulfillment lease was lost before completion"))
    end
  else
    let* logged := hasAuditLog (po_ID o) auditAction in
    let* _ := (if logged then Ret tt else
               writeAuditLog (po_ID o) auditAction "system"
                 [("rechargeCode", DString (po_RechargeCode o)); ("creditedAmount", DFloat (po_Amount o));
                  ("payAmount", DFloat (po_PayAmount o))]%string) in
    Ret (Ok tt).
Definition markFailed (oid : Z) (lease : time) (cause : error) : pay unit :=
  let* now := now_ in
  let r := pm_error_text s cause in
  let* c := update_order oid (leased lease) (λ o, set_Failed (Some now) (Some r) (set_order_Status OrderStatusFailed o)) in
  match c with
  | Ok n => if 0 <? n then writeAuditLog oid "FULFILLMENT_FAILED" "system" [("reason"%string, DString r)] else Ret tt
  | Err _ => Ret tt
  end.

(** *** The rebate of the inviter *)

Definition affiliateRebateBaseAmount (o : PaymentOrder) : float64 :=
  if String.eqb (po_OrderType o) OrderTypeBalance || String.eqb (po_OrderType o) OrderTypeSubscription then po_Amount o else f0.
(** [INSERT ... WHERE NOT EXISTS ... ON CONFLICT DO NOTHING]: whether it was
    this transaction that took the claim. *)
Definition tryClaimAffiliateRebateAudit (now : time) (oid : Z) (baseAmount : float64) : M PaymentDB bool := λ db,
  if audit_exists oid ["AFFILIATE_REBATE_APPLIED"; "AFFILIATE_REBATE_SKIPPED"]%string db then (Ok false, db) else
  (mtry (audit_Create now oid "AFFILIATE_REBATE_APPLIED" "system"
           (encoded (list_to_map [("baseAmount", DFloat baseAmount); ("status", DString "reserved")]%string)))
     (λ r, mret (is_ok r))) db.
Definition updateClaimedAffiliateRebateAudit (oid : Z) (action : string) (d : list (string * detail_value)) : M PaymentDB unit := λ db,
  match pd_audit db !! (oid, "AFFILIATE_REBATE_APPLIED"%string) with
  | None => (Err (EPlain "affiliate rebate claim log not found"), db)
  | Some a =>
    let row := mk_audit "system" (encoded (list_to_map d)) (au_CreatedAt a) in
    let rest := delete (oid, "AFFILIATE_REBATE_APPLIED"%string) (pd_audit db) in
    match rest !! (oid, action) with
    | Some _ => (Err constraint_failed, db)
    | None => (Ok tt, set_audit (<[(oid, action) := row]> rest) db)
    end
  end.
Definition rebate_tx (st : option AffiliateSettings) (codes : Z -> list string) (now : time) (o : PaymentOrder) (baseAmount : float64)
  : M PaymentDB unit :=
  let! claimed := wrapped "claim affiliate rebate audit: %w" (tryClaimAffiliateRebateAudit now (po_ID o) baseAmount) in
  if negb claimed then mret tt else
  let! rebateAmount := wrapped "accrue affiliate rebate: %w"
    (on_funds (AccrueInviteRebateForOrder (rd_ParseFloat (pm_redeem s)) st true codes now (po_UserID o) baseAmount (Some (po_ID o)))) in
  if fleb rebateAmount f0 then
    wrapped "update affiliate rebate skipped audit: %w"
      (updateClaimedAffiliateRebateAudit (po_ID o) "AFFILIATE_REBATE_SKIPPED"
         [("baseAmount", DFloat baseAmount); ("reason", DString "no inviter bound or rebate amount <= 0")]%string)
  else
    wrapped "update affiliate rebate applied audit: %w"
      (updateClaimedAffiliateRebateAudit (po_ID o) "AFFILIATE_REBATE_APPLIED"
         [("baseAmount", DFloat baseAmount); ("rebateAmount", DFloat rebateAmount)]%string).
(** The log has the error itself, the caller the wrapped one. *)
Definition wrapped_error (e : error) : error := match e with EWrap _ e => e | e => e end.
Definition applyAffiliateRebateForOrder (o : PaymentOrder) : pay (result unit) :=
  let baseAmount := affiliateRebateBaseAmount o in
  if fleb baseAmount f0 then Ret (Ok tt) else
  match pm_affiliate s with
  | None => Ret (Ok tt)
  | Some st =>
    let* codes := call AffiliateCodes in
    let* now := now_ in
    let* r := exec_ (rebate_tx st codes now o baseAmount) in
    match r with
    | Ok _ => Ret (Ok tt)
    | Err e =>
      let* _ := writeAuditLog (po_ID o) "AFFILIATE_REBATE_FAILED" "system"
                  [("error"%string, DString (pm_error_text s (wrapped_error e)))] in
      Ret (Err e)
    end
  end.
(** *** A balance order *)

Definition doBalance (o : PaymentOrder) (lease : time) : pay (result unit) :=
  let finish :=
    let& _ := applyAffiliateRebateForOrder o else id in markCompleted o lease "RECHARGE_SUCCESS" in
  let redeem :=
    let& _ := Redeem db_add (pm_redeem s) true (po_UserID o) (po_RechargeCode o) else EWrap "redeem balance: %w" in finish in
  let* existing := GetByCode (po_RechargeCode o) in
  match resolveRedeemAction existing with
  | redeemActionSkipCompleted => finish
  | redeemActionCreate =>
    let& _ := CreateCode (new_code (po_RechargeCode o) RedeemTypeBalance (po_Amount o)) else EWrap "create redeem code: %w" in redeem
  | redeemActionRedeem => redeem
  end.

(** A worker that has the lease fulfils, and marks the order FAILED when it could not. *)
Definition fulfil (o : PaymentOrder) (work : time -> pay (result unit)) : pay (result unit) :=
  let& lease := acquirePaymentFulfillmentLease (po_ID o) else id in
  match lease with
  | None => Ret (Ok tt)
  | Some lease =>
    let* r := work lease in
    match r with
    | Ok _ => Ret (Ok tt)
    | Err e => let* _ := markFailed (po_ID o) lease e in Ret (Err e)
    end
  end.
Definition fulfillable (o : PaymentOrder) : result bool :=
  if status_is OrderStatusCompleted o then Ok false else
  if psIsRefundStatus (po_Status o) then Err (invalid_status "refund-related order cannot fulfill") else
  if negb (status_in [OrderStatusPaid; OrderStatusFailed; OrderStatusRecharging] o)
  then Err (invalid_status ("order cannot fulfill in status " ++ po_Status o)) else Ok true.
Definition ExecuteBalanceFulfillment (oid : Z) : pay (result unit) :=
  let& o := get_order oid else (λ _, order_not_found) in
  match fulfillable o with
  | Err e => Ret (Err e)
  | Ok false => Ret (Ok tt)
  | Ok true => fulfil o (doBalance o)
  end.

(** *** A subscription order *)

Definition plan_of (o : PaymentOrder) : option Z :=
  match po_PlanID o with Some id => if id <=? 0 then None else Some id | None => None end.
Definition subscriptionPlanFulfillmentDays (planID : Z) : pay (result Z) :=
  let& plan := exec_ (plan_Get planID)
    else (λ e, if IsNotFound e then ErrSubscriptionPlanNotFound else EWrap "get subscription plan: %w" e) in
  if plan_ValidityDays plan <=? 0 then Ret (Err ErrSubscriptionPlanInvalid) else
  Ret (Ok (normalizeAssignValidityDays (psComputeValidityDays (plan_ValidityDays plan) (plan_ValidityUnit plan)))).
Definition assignment_actions : list string := ["SUBSCRIPTION_ASSIGNED"; "SUBSCRIPTION_SUCCESS"]%string.
Definition hasPaymentSubscriptionAssignmentAudit (oid : Z) : pay (result bool) := exec_ (audit_count oid assignment_actions).
Definition paymentSubscriptionOrderNote (oid : Z) : string := ("payment order " ++ pretty oid)%string.
(** The subscription and its row in the audit log, in one transaction; the
    history gets the assignment. *)
Definition assign_sub (now : time) (input : AssignSubscriptionFromPlanInput) : M PaymentDB UserSubscription := λ db,
  on_subs (assignSubscriptionFromPlan (table_repo db_add) None true None
             (Some (λ id t, (fst (plan_Get id db), t))) IsNotFound now (Some input) true) db.
Definition assign_tx (now logged : time) (o : PaymentOrder) (planID days : Z) : M PaymentDB Z :=
  let! sub := wrapped "assign subscription from plan: %w"
    (assign_sub now {| asg_UserID := po_UserID o; asg_PlanID := planID; asg_AssignedBy := 0;
                       asg_Notes := paymentSubscriptionOrderNote (po_ID o) |}) in
  let! _ := audit_Create logged (po_ID o) "SUBSCRIPTION_ASSIGNED" "system"
              (list_to_map [("validityDays", DInt days); ("planID", DInt planID); ("subscriptionID", DInt (us_ID sub))]%string) in
  let! _ := record (Assigned (po_ID o) (us_ID sub)) in mret (us_ID sub).
Definition ensurePaymentSubscriptionAssigned (o : PaymentOrder) (days : Z) : pay (result unit) :=
  if negb (pm_subscriptions s) then Ret (Err (EPlain "subscription service is unavailable")) else
  let invalidate subscriptionID :=
    let& _ := call (InvalidateSubscription (po_UserID o) subscriptionID)
      else EWrap "invalidate subscription cache after fulfillment: %w" in Ret (Ok tt) in
  let& alreadyAssigned := hasPaymentSubscriptionAssignmentAudit (po_ID o) else EWrap "check subscription assignment audit: %w" in
  if alreadyAssigned then invalidate 0 else
  match plan_of o with
  | None => Ret (Err (invalid_status "missing subscription plan"))
  | Some planID =>
    let* now := now_ in
    let* logged := now_ in
    let* r := exec_ (assign_tx now logged o planID days) in
    match r with
    | Ok subscriptionID => invalidate subscriptionID
    | Err e =>
      let failed := Ret (Err (match e with EWrap _ _ => e | _ => EWrap "record subscription assignment audit: %w" e end)) in
      if IsConstraintError e && negb (match e with EWrap _ _ => true | _ => false end) then
        let* claimed := hasPaymentSubscriptionAssignmentAudit (po_ID o) in
        match claimed with Ok true => Ret (Ok tt) | _ => failed end
      else failed
    end
  end.
Definition doSub (o : PaymentOrder) (lease : time) : pay (result unit) :=
  match plan_of o with
  | None => Ret (Err (invalid_status "subscription fulfillment requires a subscription plan"))
  | Some planID =>
    let& days := subscriptionPlanFulfillmentDays planID else id in
    let& _ := ensurePaymentSubscriptionAssigned o days else id in
    let& _ := applyAffiliateRebateForOrder o else id in
    markCompleted o lease "SUBSCRIPTION_SUCCESS"
  end.
Definition ExecuteSubscriptionFulfillment (oid : Z) : pay (result unit) :=
  let& o := get_order oid else (λ _, order_not_found) in
  match fulfillable o with
  | Err e => Ret (Err e)
  | Ok false => Ret (Ok tt)
  | Ok true =>
    match plan_of o with
    | None => Ret (Err (invalid_status "subscription fulfillment requires a subscription plan"))
    | Some _ => fulfil o (doSub o)
    end
  end.
Definition executeFulfillment (oid : Z) : pay (result unit) :=
  let& o := get_order oid else EWrap "get order: %w" in
  if String.eqb (po_OrderType o) OrderTypeSubscription then ExecuteSubscriptionFulfillment oid else ExecuteBalanceFulfillment oid.
Definition RetryFulfillment (oid : Z) : pay (result unit) :=
  let& o := get_order oid else (λ _, order_not_found) in
  match po_PaidAt o with
  | None => Ret (Err (invalid_status "order is not paid"))
  | Some _ =>
    if psIsRefundStatus (po_Status o) then Ret (Err (invalid_status "refund-related order cannot retry")) else
    if status_is OrderStatusCompleted o then Ret (Err (invalid_status "order already completed")) else
    if negb (status_in [OrderStatusFailed; OrderStatusPaid; OrderStatusRecharging] o)
    then Ret (Err (invalid_status "only paid, failed, and recoverable recharging orders can retry")) else
    let* _ := writeAuditLog oid "RECHARGE_RETRY" "admin" [("detail"%string, DString "admin manual retry")] in
    executeFulfillment oid
  end.

(** ** Notifications *)

Definition alreadyProcessed (oid : Z) : pay (result unit) :=
  let* cur := get_order oid in
  match cur with
  | Err _ => Ret (Ok tt)
  | Ok cur =>
    if status_in [OrderStatusCompleted; OrderStatusRefunded] cur then Ret (Ok tt) else
    if status_in [OrderStatusFailed; OrderStatusPaid; OrderStatusRecharging] cur then executeFulfillment oid else
    if status_is OrderStatusExpired cur then
      let* _ := writeAuditLog oid "PAYMENT_AFTER_EXPIRY" "system"
        [("status", DString (po_Status cur)); ("updatedAt", DTime (po_UpdatedAt cur));
         ("reason", DString "payment arrived after expiry grace period")]%string in
      Ret (Ok tt)
    else Ret (Ok tt)
  end.
(** An order that is pending or cancelled, or that expired not long ago. *)
Definition payable (grace : time) (o : PaymentOrder) : bool :=
  status_is OrderStatusPending o || status_is OrderStatusCancelled o
  || status_is OrderStatusExpired o && negb (before (po_UpdatedAt o) grace).
Definition paid_order (paid : float64) (tradeNo : string) (now : time) (o : PaymentOrder) : PaymentOrder :=
  set_Failed None None (set_PaidAt (Some now) (set_PaymentTradeNo tradeNo (set_PayAmount (pm_column s paid) (set_order_Status OrderStatusPaid o)))).
Definition toPaid (o : PaymentOrder) (tradeNo : string) (paid : float64) (pk : string) : pay (result unit) :=
  let* now := now_ in
  let& c := update_order (po_ID o) (payable (time_add now (- paymentGrace))) (paid_order paid tradeNo now)
    else EWrap "update to PAID: %w" in
  if c =? 0 then alreadyProcessed (po_ID o) else
  let* _ := (if status_in [OrderStatusCancelled; OrderStatusExpired] o then
               writeAuditLog (po_ID o) "ORDER_RECOVERED" pk
                 [("previous_status", DString (po_Status o)); ("tradeNo", DString tradeNo); ("paidAmount", DFloat paid);
                  ("reason", DString ("webhook payment success received after order " ++ po_Status o))]%string
             else Ret tt) in
  let* _ := writeAuditLog (po_ID o) "ORDER_PAID" pk [("tradeNo", DString tradeNo); ("paidAmount", DFloat paid)]%string in
  executeFulfillment (po_ID o).

Definition provider_mismatch : error := EPlain "provider mismatch".
Definition invalid_paid_amount : error := EPlain "invalid paid amount from provider".
Definition amount_mismatch : error := EPlain "amount mismatch".
Definition amount_matches (o : PaymentOrder) (paid : float64) : bool :=
  negb (fgtb (fabs (fsub paid (po_PayAmount o))) (paymentAmountToleranceForCurrency (PaymentOrderCurrency o))).
Definition confirmPayment (oid : Z) (tradeNo : string) (paid : float64) (pk : string) (metadata : gmap string string) : pay (result unit) :=
  let* r := get_order oid in
  match r with
  | Err _ => Ret (Ok tt)
  | Ok o =>
    let* inst := getOrderProviderInstance o in
    let instanceProviderKey := match inst with Ok (Some inst) => pi_ProviderKey inst | _ => ""%string end in
    let* registry := call Providers in
    let expectedProviderKey := expectedNotificationProviderKeyForOrder registry o instanceProviderKey in
    let refuse action d e := let* _ := writeAuditLog (po_ID o) action pk d in Ret (Err e) in
    if negb (provider_matches expectedProviderKey pk) then
      refuse "PAYMENT_PROVIDER_MISMATCH"%string
        [("expectedProvider", DString expectedProviderKey); ("actualProvider", DString pk); ("tradeNo", DString tradeNo)]%string provider_mismatch
    else
    match validateProviderSnapshotMetadata o pk metadata with
    | Err e =>
      refuse "PAYMENT_PROVIDER_METADATA_MISMATCH"%string [("detail", DString (pm_error_text s e)); ("tradeNo", DString tradeNo)]%string e
    | Ok _ =>
      let amounts := [("expected", DFloat (po_PayAmount o)); ("paid", DFloat paid); ("tradeNo", DString tradeNo)]%string in
      if negb (isValidProviderAmount paid) then refuse "PAYMENT_INVALID_AMOUNT"%string amounts invalid_paid_amount else
      if negb (amount_matches o paid) then refuse "PAYMENT_AMOUNT_MISMATCH"%string amounts amount_mismatch
      else toPaid o tradeNo paid pk
    end
  end.

Record PaymentNotification := mk_notification {
  pn_TradeNo : string; pn_OrderID : string; pn_Amount : float64; pn_Status : string; pn_Metadata : gmap string string
}.
Definition HandlePaymentNotification (n : PaymentNotification) (pk : string) : pay (result unit) :=
  let confirm oid := confirmPayment oid (pn_TradeNo n) (pn_Amount n) pk (pn_Metadata n) in
  if negb (String.eqb (pn_Status n) NotificationStatusSuccess) then Ret (Ok tt) else
  let* r := exec_ (order_only (has_trade_no (pn_OrderID n))) in
  match r with
  | Ok o => confirm (po_ID o)
  | Err e =>
    match parseLegacyPaymentOrderID (pn_OrderID n) (IsNotFound e) with
    | Some oid => confirm oid
    | None => Ret (Err (if IsNotFound e then EWrap "%w: out_trade_no" ErrOrderNotFound else EWrap "lookup order failed: %w" e))
    end
  end.

(** ** Cancelling and expiring *)

Definition rateLimitUnitDay : string := "day".
Definition rateLimitUnitMinute : string := "minute".
Definition rateLimitModeFixed : string := "fixed".
Definition checkPaidResultAlreadyPaid : string := "already_paid".
Definition checkPaidResultCancelled : string := "cancelled".
Definition pendingWxpayReconcileLimit : nat := 20.

Record PaymentConfig := {
  CancelRateLimitEnabled : bool;
  CancelRateLimitMax : Z;
  CancelRateLimitWindow : Z;
  CancelRateLimitUnit : string;
  CancelRateLimitMode : string
}.
(** [Truncate] to a divisor of the day. *)
Definition truncate_to (d : Z) (t : time) : time := mk_time (t_ns t - t_ns t mod d) (t_loc t).
Definition cancelRateLimitWindowStart (cfg : PaymentConfig) (now : time) : time :=
  let w := if CancelRateLimitWindow cfg <=? 0 then 1 else CancelRateLimitWindow cfg in
  let unit := if str_empty (CancelRateLimitUnit cfg) then rateLimitUnitDay else CancelRateLimitUnit cfg in
  if String.eqb (CancelRateLimitMode cfg) rateLimitModeFixed then
    if String.eqb unit rateLimitUnitMinute then time_add (truncate_to minute now) (mul64 (- (w - 1)) minute) else
    if String.eqb unit rateLimitUnitDay then add_days (start_of_local_day now) (- (w - 1)) else
    time_add (truncate_to hour now) (mul64 (- (w - 1)) hour)
  else
    if String.eqb unit rateLimitUnitMinute then time_add now (mul64 (- w) minute) else
    if String.eqb unit rateLimitUnitDay then add_days now (- w) else time_add now (mul64 (- w) hour).
Definition user_operator (userID : Z) : string := ("user:" ++ pretty userID)%string.
Definition cancellations_since (start : time) (operator : string) : M PaymentDB Z := λ db,
  (Ok (Z.of_nat (length (filterb
     (λ r : Z * string * AuditLog, String.eqb r.1.2 "ORDER_CANCELLED" && String.eqb (au_Operator r.2) operator
                                   && negb (before (au_CreatedAt r.2) start))
     (map_to_list (pd_audit db))))), db).
Definition checkCancelRateLimit (userID : Z) (cfg : PaymentConfig) : pay (result unit) :=
  if negb (CancelRateLimitEnabled cfg) || (CancelRateLimitMax cfg <=? 0) then Ret (Ok tt) else
  let* now := now_ in
  let* count := exec_ (cancellations_since (cancelRateLimitWindowStart cfg now) (user_operator userID)) in
  Ret (match count with
       | Err _ => Ok tt
       | Ok n => if CancelRateLimitMax cfg <=? n then
                   Err (with_metadata (TooManyRequests "CANCEL_RATE_LIMITED" "cancel rate limited")
                          [("max", pretty (CancelRateLimitMax cfg)); ("window", pretty (CancelRateLimitWindow cfg));
                           ("unit", CancelRateLimitUnit cfg)]%string)
                 else Ok tt
       end).

Definition paid_response (r : QueryOrderResponse) : bool := String.eqb (qr_Status r) ProviderStatusPaid.
Definition requeryPaidOrderOnce (prov : Provider) (queryRef : string) : pay (option QueryOrderResponse) :=
  if str_empty (TrimSpace queryRef) then Ret None else
  let* r := call (QueryOrder prov queryRef) in
  Ret (match r with
       | Err _ => None
       | Ok r => if paid_response r && isValidProviderAmount (qr_Amount r) then Some r else None
       end).
(** The order has been paid: what the provider calls the trade is kept, and
    the report handled like a notification. *)
Definition settle_paid (o : PaymentOrder) (prov : Provider) (queryRef : string) (resp : QueryOrderResponse) : pay string :=
  let upstreamTradeNo := TrimSpace (qr_TradeNo resp) in
  let persist := paymentOrderShouldPersistUpstreamTradeNo queryRef upstreamTradeNo (po_PaymentTradeNo o) in
  let notificationTradeNo := if persist then upstreamTradeNo else po_PaymentTradeNo o in
  let* _ := (if persist then
               let* _ := update_order (po_ID o) any_order (set_PaymentTradeNo upstreamTradeNo) in Ret tt
             else Ret tt) in
  let* _ := HandlePaymentNotification
              (mk_notification notificationTradeNo (po_OutTradeNo o) (qr_Amount resp) ProviderStatusSuccess (qr_Metadata resp))
              (pv_ProviderKey prov) in
  Ret checkPaidResultAlreadyPaid.
Definition checkPaidWithOptions (cancelIfUnpaid : bool) (o : PaymentOrder) : pay string :=
  let* prov := getOrderProvider o in
  match prov with
  | Err _ => Ret ""%string
  | Ok prov =>
    let queryRef := paymentOrderQueryReference o (pv_ProviderKey prov) in
    if str_empty queryRef then Ret ""%string else
    let* resp := call (QueryOrder prov queryRef) in
    match resp with
    | Err _ => Ret ""%string
    | Ok resp =>
      if paid_response resp then
        if isValidProviderAmount (qr_Amount resp) then settle_paid o prov queryRef resp else
        let* _ := writeAuditLog (po_ID o) "PAYMENT_INVALID_AMOUNT" (pv_ProviderKey prov)
                    [("expected", DFloat (po_PayAmount o)); ("paid", DFloat (qr_Amount resp)); ("tradeNo", DString (qr_TradeNo resp));
                     ("queryRef", DString queryRef)]%string in
        let* retried := requeryPaidOrderOnce prov queryRef in
        match retried with None => Ret ""%string | Some resp => settle_paid o prov queryRef resp end
      else
        let* _ := (if cancelIfUnpaid && pv_Cancelable prov then call (CancelPayment prov queryRef) else Ret tt) in
        Ret ""%string
    end
  end.
Definition checkPaid : PaymentOrder -> pay string := checkPaidWithOptions true.
Definition reconcilePaid : PaymentOrder -> pay string := checkPaidWithOptions false.

Definition cancelCore (o : PaymentOrder) (fs op ad : string) : pay (result string) :=
  let* checked := (if negb (str_empty (po_PaymentTradeNo o)) || negb (str_empty (po_PaymentType o))
                   then checkPaid o else Ret ""%string) in
  if String.eqb checked checkPaidResultAlreadyPaid then Ret (Ok checkPaidResultAlreadyPaid) else
  let& c := update_order (po_ID o) (status_is OrderStatusPending) (set_order_Status fs) else EWrap "update order status: %w" in
  let* _ := (if 0 <? c then
               writeAuditLog (po_ID o) (if String.eqb fs OrderStatusExpired then "ORDER_EXPIRED" else "ORDER_CANCELLED") op
                 [("detail"%string, DString ad)]
             else Ret tt) in
  Ret (Ok checkPaidResultCancelled).
Definition cannot_cancel : error := invalid_status "order cannot be cancelled in current status".
Definition no_permission_order : error := Forbidden "FORBIDDEN" "no permission for this order".
Definition CancelOrder (orderID userID : Z) : pay (result string) :=
  let& o := get_order orderID else (λ _, order_not_found) in
  if negb (po_UserID o =? userID) then Ret (Err no_permission_order) else
  if negb (status_is OrderStatusPending o) then Ret (Err cannot_cancel) else
  cancelCore o OrderStatusCancelled (user_operator userID) "user cancelled order".
Definition AdminCancelOrder (orderID : Z) : pay (result string) :=
  let& o := get_order orderID else (λ _, order_not_found) in
  if negb (status_is OrderStatusPending o) then Ret (Err cannot_cancel) else
  cancelCore o OrderStatusCancelled "admin" "admin cancelled order".

(** What a sweep over many orders counts. *)
Fixpoint sweep {A} (work : A -> pay bool) (l : list A) : pay Z :=
  match l with
  | [] => Ret 0
  | a :: rest =>
    let* counted := work a in
    let* n := sweep work rest in
    Ret (if (counted : bool) then 1 + n else n)
  end.
Definition ExpireTimedOutOrders : pay (result Z) :=
  let* now := now_ in
  let& orders := exec_ (orders_where (λ o, status_is OrderStatusPending o && negb (after (ot_ExpiresAt (po_terms o)) now)))
    else EWrap "query expired: %w" in
  let* n := sweep (λ o,
    let* outcome := cancelCore o OrderStatusExpired "system" "order expired" in
    Ret (match outcome with
         | Ok outcome => negb (String.eqb outcome checkPaidResultAlreadyPaid) && negb (str_empty outcome)
         | Err _ => false
         end)) orders in
  Ret (Ok n).

(** ** Reconciling *)

Definition wxpay_order (o : PaymentOrder) : bool :=
  let prefix := (TypeWxpay ++ "_")%string in
  String.eqb (po_PaymentType o) TypeWxpay || HasPrefix (po_PaymentType o) prefix
  || match po_ProviderKey o with Some k => String.eqb k TypeWxpay || HasPrefix k prefix | None => false end.
Definition created_before (o o' : PaymentOrder) : Prop := t_ns (ot_CreatedAt (po_terms o)) <= t_ns (ot_CreatedAt (po_terms o')).
#[global] Instance created_before_dec : RelDecision created_before.
Proof. intros o o'. unfold created_before. apply _. Defined.
Definition ReconcilePendingWxpayOrders : pay (result Z) :=
  let* now := now_ in
  let& orders := exec_ (orders_where (λ o, status_is OrderStatusPending o && after (ot_ExpiresAt (po_terms o)) now && wxpay_order o))
    else EWrap "query pending wxpay orders: %w" in
  let* recovered := sweep (λ o, let* r := reconcilePaid o in Ret (String.eqb r checkPaidResultAlreadyPaid))
                      (take pendingWxpayReconcileLimit (merge_sort created_before orders)) in
  Ret (Ok recovered).
Definition lookup_order (outTradeNo : string) (k : PaymentOrder -> pay (result PaymentOrder)) : pay (result PaymentOrder) :=
  match normalizeOrderLookupOutTradeNo outTradeNo with
  | Err e => Ret (Err e)
  | Ok no => let& o := exec_ (order_only (has_trade_no no)) else (λ _, order_not_found) in k o
  end.
Definition VerifyOrderByOutTradeNo (outTradeNo : string) (userID : Z) : pay (result PaymentOrder) :=
  lookup_order outTradeNo (λ o,
    if negb (po_UserID o =? userID) then Ret (Err no_permission_order) else
    if negb (status_in [OrderStatusPending; OrderStatusExpired] o) then Ret (Ok o) else
    let* r := reconcilePaid o in
    if String.eqb r checkPaidResultAlreadyPaid then
      let& o := get_order (po_ID o) else EWrap "reload order: %w" in Ret (Ok o)
    else Ret (Ok o)).
Definition VerifyOrderPublic (outTradeNo : string) : pay (result PaymentOrder) := lookup_order outTradeNo (λ o, Ret (Ok o)).

End Payments.
