(* ===== verification/PaymentRefunds.v ===== *)
(** * Refunds of payment orders

    [service/payment_refund.go]: a user requests a refund, an admin prepares
    and executes one, a pending one is asked for and settled.  What was
    credited is taken back before the provider is asked, and given back when
    the provider did not refund; the taking and the giving back are statements
    of their own. *)

From Stdlib Require Import Floats.SpecFloat.
From stdpp Require Import pretty.
From S2P Require Import Prelude GoErrors Prog Float64 GoTime GoStrings GoText Subscription SubscriptionRepo SubscriptionService Account PaymentAmounts Affiliate RedeemCodes PaymentStore RedeemService Payments.

Open Scope prog_scope.

Definition DeductionTypeBalance : string := "balance".
Definition DeductionTypeSubscription : string := "subscription".
Definition DeductionTypeNone : string := "none".

(** What the refund will do; the deductions are changed on the way. *)
Record RefundPlan := mk_plan {
  rp_OrderID : Z;
  rp_Order : PaymentOrder;
  rp_RefundAmount : float64;
  rp_GatewayAmount : float64;
  rp_Reason : string;
  rp_Force : bool;
  rp_DeductionType : string;
  rp_BalanceToDeduct : float64;
  rp_SubDaysToDeduct : Z;
  rp_SubscriptionID : Z
}.
Definition with_deduction (type_ : string) (balance : float64) (days subscriptionID : Z) (p : RefundPlan) : RefundPlan :=
  mk_plan (rp_OrderID p) (rp_Order p) (rp_RefundAmount p) (rp_GatewayAmount p) (rp_Reason p) (rp_Force p)
    type_ balance days subscriptionID.
Definition deduct_no_balance (p : RefundPlan) : RefundPlan :=
  with_deduction (rp_DeductionType p) f0 (rp_SubDaysToDeduct p) (rp_SubscriptionID p) p.
Definition deduct_no_days (p : RefundPlan) : RefundPlan :=
  with_deduction (rp_DeductionType p) (rp_BalanceToDeduct p) 0 (rp_SubscriptionID p) p.
Record RefundResult := mk_refund_result {
  rs_Success : bool; rs_Warning : string; rs_RequireForce : bool; rs_BalanceDeducted : float64; rs_SubDaysDeducted : Z
}.
Definition unsuccessful (warning : string) : RefundResult := mk_refund_result false warning false f0 0.
Definition require_force (warning : string) : RefundResult := mk_refund_result false warning true f0 0.

Section Refunds.
Context {UC : UnicodeCase} {NC : NumericColumn} {D : ShopspringDecimal} (db_add : float64 -> float64 -> float64) (s : PaymentDeps).

(** ** A user asks for a refund *)

Definition validateRefundRequest (oid uid : Z) : pay (result PaymentOrder) :=
  let& o := get_order oid else (λ _, order_not_found) in
  if negb (po_UserID o =? uid) then Ret (Err (Forbidden "FORBIDDEN" "no permission")) else
  if negb (String.eqb (po_OrderType o) OrderTypeBalance)
  then Ret (Err (BadRequest "INVALID_ORDER_TYPE" "only balance orders can request refund")) else
  if negb (status_is OrderStatusCompleted o) then Ret (Err (invalid_status "only completed orders can request refund")) else
  let unavailable := Forbidden "USER_REFUND_DISABLED" "refund is not available for this order" in
  let& inst := getRefundOrderProviderInstance o else (λ _, unavailable) in
  match inst with
  | None => Ret (Err unavailable)
  | Some inst =>
    if negb (pi_AllowUserRefund inst)
    then Ret (Err (Forbidden "USER_REFUND_DISABLED" "user refund is not enabled for this provider")) else Ret (Ok o)
  end.
Definition balance_of (u : UserRow) : float64 := to_float (usr_Balance u).
Definition RequestRefund (oid uid : Z) (reason : string) : pay (result unit) :=
  let& o := validateRefundRequest oid uid else id in
  let& u := exec_ (on_funds (user_by_id (po_UserID o))) else EWrap "get user: %w" in
  if fltb (balance_of u) (po_Amount o) then Ret (Err (BadRequest "BALANCE_NOT_ENOUGH" "refund amount exceeds balance")) else
  let nr := TrimSpace reason in
  let* now := now_ in
  let& c := update_order oid (λ o, (po_UserID o =? uid) && status_is OrderStatusCompleted o && String.eqb (po_OrderType o) OrderTypeBalance)
              (λ row, set_Refund (refund_request (pm_column s (po_Amount o)) now nr (pretty uid)) (set_order_Status OrderStatusRefundRequested row))
    else EWrap "update: %w" in
  if c =? 0 then Ret (Err (conflict "order status changed")) else
  let* _ := writeAuditLog oid "REFUND_REQUESTED" (user_operator uid) [("amount", DFloat (po_Amount o)); ("reason", DString nr)]%string in
  Ret (Ok tt).

(** ** The plan of a refund *)

(** The subscription the audit log says was assigned for the order. *)
Definition assigned_subscription (d : detail) : option (Z * Z) :=
  match d !! "subscriptionID"%string, d !! "planID"%string with
  | Some (DInt sub), Some (DInt plan) => Some (sub, plan)
  | Some (DInt sub), None => Some (sub, 0)
  | _, _ => None
  end.
Definition findPlanSubscriptionForOrder (o : PaymentOrder) : pay (option UserSubscription) :=
  match po_PlanID o with
  | None => Ret None
  | Some planID =>
    if negb (pm_subscriptions s) then Ret None else
    let* log := exec_ (audit_First (po_ID o) "SUBSCRIPTION_ASSIGNED") in
    match log with
    | Err _ => Ret None
    | Ok log =>
      match assigned_subscription (au_Detail log) with
      | None => Ret None
      | Some (subscriptionID, loggedPlanID) =>
        if (subscriptionID <=? 0) || negb (loggedPlanID =? planID) then Ret None else
        let* sub := exec_ (on_subs (repo_GetByID (table_repo db_add) subscriptionID)) in
        Ret (match sub with
             | Err _ => None
             | Ok sub => if (us_UserID sub =? po_UserID o) && bool_decide (us_SubscriptionPlanID sub = Some planID)
                         then Some sub else None
             end)
      end
    end
  end.
Definition no_subscription : RefundResult := require_force "cannot find plan subscription for deduction, use force".
Definition no_duration : RefundResult := require_force "cannot resolve plan duration for deduction, use force".
(** What to deduct, or why not without force. *)
Definition prep_subscription (o : PaymentOrder) (p : RefundPlan) (force : bool) : pay (RefundPlan + RefundResult) :=
  let p := with_deduction DeductionTypeSubscription (rp_BalanceToDeduct p) (rp_SubDaysToDeduct p) (rp_SubscriptionID p) p in
  let unless_forced r p := Ret (if force : bool then inl p else inr r) in
  let last p := if negb force && (rp_SubscriptionID p =? 0) then Ret (inr no_subscription) else Ret (inl p) in
  match plan_of o with
  | None => last p
  | Some planID =>
    let with_days days p := with_deduction (rp_DeductionType p) (rp_BalanceToDeduct p) days (rp_SubscriptionID p) p in
    let* days := (match ot_SubscriptionDays (po_terms o) with
                  | Some days => if 0 <? days then Ret (Ok (Some days)) else
                                 let& days := subscriptionPlanFulfillmentDays planID else id in Ret (Ok (Some days))
                  | None => let& days := subscriptionPlanFulfillmentDays planID else id in Ret (Ok (Some days))
                  end) in
    let p := match days with Ok (Some days) => with_days days p | _ => p end in
    if negb (is_ok days) && negb force then Ret (inr no_duration) else
    let* sub := findPlanSubscriptionForOrder o in
    match sub with
    | Some sub => Ret (inl (with_deduction (rp_DeductionType p) (rp_BalanceToDeduct p) (rp_SubDaysToDeduct p) (us_ID sub) p))
    | None =>
      let* planErr := subscriptionPlanFulfillmentDays planID in
      match planErr with
      | Ok _ => unless_forced no_subscription p
      | Err e => if error_is e ErrSubscriptionPlanNotFound then last p else unless_forced no_duration p
      end
    end
  end.
(** [math.Min]. *)
Definition math_Min (x y : float64) : float64 :=
  match x, y with
  | S754_infinity true, _ | _, S754_infinity true => S754_infinity true
  | S754_nan, _ | _, S754_nan => S754_nan
  | S754_zero true, S754_zero _ => x
  | _, _ => if fltb x y then x else y
  end.
Definition prepDeduct (o : PaymentOrder) (p : RefundPlan) (force : bool) : pay (RefundPlan + RefundResult) :=
  if String.eqb (po_OrderType o) OrderTypeSubscription then prep_subscription o p force else
  let* u := exec_ (on_funds (user_by_id (po_UserID o))) in
  Ret (match u with
       | Err _ => if force then inl p else inr (require_force "cannot fetch user balance, use force")
       | Ok u => inl (with_deduction DeductionTypeBalance (math_Min (rp_RefundAmount p) (balance_of u))
                        (rp_SubDaysToDeduct p) (rp_SubscriptionID p) p)
       end).

Definition refundable : list string :=
  [OrderStatusCompleted; OrderStatusRefundRequested; OrderStatusRefundPending; OrderStatusRefundFailed].
Definition PrepareRefund (oid : Z) (amt : float64) (reason : string) (force deduct : bool) : pay (result (RefundPlan + RefundResult)) :=
  let& o := get_order oid else (λ _, order_not_found) in
  if negb (status_in refundable o) then Ret (Err (invalid_status "order status does not allow refund")) else
  let& inst := getRefundOrderProviderInstance o
    else (λ _, InternalServer "PROVIDER_LOOKUP_FAILED" "failed to look up payment provider for this order") in
  match inst with
  | None => Ret (Err (Forbidden "REFUND_DISABLED" "refund is not available for this order"))
  | Some inst =>
    if negb (pi_RefundEnabled inst) then Ret (Err (Forbidden "REFUND_DISABLED" "refund is not enabled for this provider")) else
    if is_nan amt || is_inf amt then Ret (Err (BadRequest "INVALID_AMOUNT" "invalid refund amount")) else
    let amt := if fleb amt f0 then po_Amount o else amt in
    let orderCurrency := PaymentOrderCurrency o in
    if fgtb (fsub amt (po_Amount o)) (paymentAmountToleranceForCurrency orderCurrency)
    then Ret (Err (BadRequest "REFUND_AMOUNT_EXCEEDED" "refund amount exceeds recharge")) else
    let ga := calculateGatewayRefundAmount (po_Amount o) (po_PayAmount o) amt orderCurrency in
    let rr := TrimSpace reason in
    let rr := if str_empty rr then psStringValue (rf_RequestReason (po_refund o)) else rr in
    let rr := if str_empty rr then ("refund order:" ++ pretty (po_ID o))%string else rr in
    let p := mk_plan oid o amt ga rr force DeductionTypeNone f0 0 0 in
    if deduct then let* r := prepDeduct o p force in Ret (Ok r) else Ret (Ok (inl p))
  end.

(** ** Taking back and giving back *)

(** [userRepo.DeductBalance]: the balance may go below zero. *)
Definition DeductBalance (userID : Z) (amount : float64) : pay (result unit) :=
  let& n := exec_ (on_funds (deduct_if_enough userID amount)) else id in
  if 0 <? n then Ret (Ok tt) else
  let& n := exec_ (on_funds (deduct_anyway userID amount)) else id in
  Ret (if n =? 0 then Err ErrUserNotFound else Ok tt).
Definition extend_subscription (subscriptionID days : Z) : pay (result UserSubscription) :=
  let* now := now_ in exec_ (on_subs (ExtendSubscription (table_repo db_add) None now subscriptionID days)).
(** Days are taken away; a subscription that would expire is revoked. *)
Definition deduct_days (subscriptionID days : Z) : pay (result unit) :=
  let* r := extend_subscription subscriptionID (- days) in
  match r with
  | Ok _ => Ret (Ok tt)
  | Err e =>
    if error_is e ErrAdjustWouldExpire then
      let& _ := exec_ (on_subs (RevokeSubscription (table_repo db_add) None subscriptionID)) else EWrap "revoke subscription: %w" in
      Ret (Ok tt)
    else Ret (Err (EWrap "deduct subscription days: %w" e))
  end.
Definition takes_balance (p : RefundPlan) : bool :=
  String.eqb (rp_DeductionType p) DeductionTypeBalance && fgtb (rp_BalanceToDeduct p) f0.
Definition takes_days (p : RefundPlan) : bool :=
  String.eqb (rp_DeductionType p) DeductionTypeSubscription && (0 <? rp_SubDaysToDeduct p) && (0 <? rp_SubscriptionID p).

Definition RollbackRefund (p : RefundPlan) (gErr : option error) : pay bool :=
  let gatewayError := DString (match gErr with Some e => pm_error_text s e | None => "" end) in
  let rollback_failed e what :=
    let* _ := writeAuditLog (rp_OrderID p) "REFUND_ROLLBACK_FAILED" "admin"
                [("gatewayError"%string, gatewayError); ("rollbackError"%string, DString (pm_error_text s e)); what] in
    Ret false in
  let* given := (if takes_balance p then
                   let* r := exec_ (on_funds (UpdateBalance (po_UserID (rp_Order p)) (rp_BalanceToDeduct p))) in
                   match r with
                   | Err e => rollback_failed e ("balanceDeducted"%string, DFloat (rp_BalanceToDeduct p))
                   | Ok _ => Ret true
                   end
                 else Ret true) in
  if negb given then Ret false else
  if takes_days p then
    let* r := extend_subscription (rp_SubscriptionID p) (rp_SubDaysToDeduct p) in
    match r with
    | Err e => rollback_failed e ("subDaysDeducted"%string, DInt (rp_SubDaysToDeduct p))
    | Ok _ => Ret true
    end
  else Ret true.
Definition restoreStatus (p : RefundPlan) : pay unit :=
  let rs := if status_is OrderStatusRefundRequested (rp_Order p) then OrderStatusRefundRequested else OrderStatusCompleted in
  let* _ := update_order_one (rp_OrderID p) (set_order_Status rs) in Ret tt.
(** ** The provider *)

Definition validateRefundProviderResponse (resp : option RefundResponse) : result unit :=
  match resp with
  | None => Err (EPlain "payment refund response missing")
  | Some resp =>
    let status := TrimSpace (rr_Status resp) in
    if String.eqb status ProviderStatusSuccess || String.eqb status ProviderStatusRefunded || String.eqb status ProviderStatusPending then Ok tt else
    if String.eqb status ProviderStatusFailed then Err (EPlain ("payment refund failed: status " ++ status))
    else Err (EPlain ("payment refund returned unknown status: " ++ status))
  end.
Definition response_status (resp : option RefundResponse) : string :=
  match resp with Some r => TrimSpace (rr_Status r) | None => ""%string end.
Definition formatGatewayRefundAmount (amount : float64) (o : PaymentOrder) : string := FormatAmountForCurrency amount (PaymentOrderCurrency o).
(** An error with a response that says pending is pending. *)
Definition gwRefund (p : RefundPlan) : pay (result (option RefundResponse)) :=
  let o := rp_Order p in
  if str_empty (po_PaymentTradeNo o) then
    let* _ := writeAuditLog (po_ID o) "REFUND_NO_TRADE_NO" "admin" [("detail"%string, DString "skipped")] in
    Ret (Ok (Some (mk_refund_response "" ProviderStatusSuccess)))
  else
    let& prov := getRefundProvider o else EWrap "get refund provider: %w" in
    match validateProviderSnapshotMetadata o (pv_ProviderKey prov) (pv_Identity prov) with
    | Err e =>
      let* _ := writeAuditLog (po_ID o) "REFUND_PROVIDER_METADATA_MISMATCH" "admin" [("detail"%string, DString (pm_error_text s e))] in
      Ret (Err e)
    | Ok _ =>
      let* r := call (Refund prov (mk_refund_request (po_PaymentTradeNo o) (po_OutTradeNo o)
                                     (formatGatewayRefundAmount (rp_GatewayAmount p) o) (rp_Reason p))) in
      match r with
      | (Some e, resp) => Ret (if String.eqb (response_status resp) ProviderStatusPending then Ok resp else Err e)
      | (None, resp) => Ret (match validateRefundProviderResponse resp with Err e => Err e | Ok _ => Ok resp end)
      end
    end.

(** ** How a refund ends *)

Definition failed_refund (oid : Z) (e : error) : pay unit :=
  let text := pm_error_text s e in
  let* now := now_ in
  let* _ := update_order_one oid (λ o, set_Failed (Some now) (Some text) (set_order_Status OrderStatusRefundFailed o)) in
  writeAuditLog oid "REFUND_FAILED" "admin" [("detail"%string, DString text)].
Definition handleGwFail (p : RefundPlan) (gErr : error) : pay (result RefundResult) :=
  let* back := RollbackRefund p (Some gErr) in
  if back then
    let* _ := restoreStatus p in
    let* _ := writeAuditLog (rp_OrderID p) "REFUND_GATEWAY_FAILED" "admin" [("detail"%string, DString (pm_error_text s gErr))] in
    Ret (Ok (unsuccessful ("gateway failed: " ++ pm_error_text s gErr ++ ", rolled back")))
  else
    let* _ := failed_refund (rp_OrderID p) gErr in
    Ret (Err (InternalServer "REFUND_FAILED" (pm_error_text s gErr))).
Definition finalizeRefundFailed (o : PaymentOrder) (gErr : error) : pay (result RefundResult) :=
  let* _ := failed_refund (po_ID o) gErr in
  Ret (Ok (unsuccessful ("gateway refund failed: " ++ pm_error_text s gErr))).
Definition refunded_status (p : RefundPlan) : string :=
  if fltb (rp_RefundAmount p) (po_Amount (rp_Order p)) then OrderStatusPartiallyRefunded else OrderStatusRefunded.
Definition markRefundOk (p : RefundPlan) : pay (result RefundResult) :=
  let* now := now_ in
  let& _ := update_order_one (rp_OrderID p)
              (λ o, set_Refund (refund_terms (pm_column s (rp_RefundAmount p)) (rp_Reason p) (Some now) (rp_Force p))
                      (set_order_Status (refunded_status p) o))
    else EWrap "mark refund: %w" in
  let* _ := writeAuditLog (rp_OrderID p) "REFUND_SUCCESS" "admin"
              [("refundAmount", DFloat (rp_RefundAmount p)); ("reason", DString (rp_Reason p));
               ("balanceDeducted", DFloat (rp_BalanceToDeduct p)); ("force", DBool (rp_Force p))]%string in
  Ret (Ok (mk_refund_result true "" false (rp_BalanceToDeduct p) (rp_SubDaysToDeduct p))).
Definition refundResponseID (resp : option RefundResponse) : string :=
  match resp with Some r => TrimSpace (rr_RefundID r) | None => ""%string end.
Definition markRefundPending (p : RefundPlan) (resp : option RefundResponse) : pay (result RefundResult) :=
  let* rollbackOK := RollbackRefund p None in
  let kept := if (rollbackOK : bool) then deduct_no_days (deduct_no_balance p) else p in
  let& _ := update_order_one (rp_OrderID p)
              (λ o, set_Failed None None
                      (set_Refund (refund_terms (pm_column s (rp_RefundAmount p)) (rp_Reason p) None (rp_Force p))
                        (set_order_Status OrderStatusRefundPending o)))
    else EWrap "mark refund pending: %w" in
  let* _ := writeAuditLog (rp_OrderID p) "REFUND_PENDING" "admin"
              [("refundID", DString (refundResponseID resp)); ("refundAmount", DFloat (rp_RefundAmount p));
               ("reason", DString (rp_Reason p)); ("force", DBool (rp_Force p));
               ("balanceDeducted", DFloat (rp_BalanceToDeduct kept)); ("subDaysDeducted", DInt (rp_SubDaysToDeduct kept));
               ("balanceRolledBack", DFloat (rp_BalanceToDeduct p)); ("subDaysRolledBack", DInt (rp_SubDaysToDeduct p));
               ("deductionRollbackOK", DBool rollbackOK)]%string in
  Ret (Ok (unsuccessful (if rollbackOK then "gateway refund is pending confirmation"
                         else "gateway refund is pending confirmation; refund deduction rollback failed"))).
Definition finishRefund (p : RefundPlan) (resp : option RefundResponse) : pay (result RefundResult) :=
  match validateRefundProviderResponse resp with
  | Err e => handleGwFail p e
  | Ok _ =>
    let status := response_status resp in
    if String.eqb status ProviderStatusSuccess || String.eqb status ProviderStatusRefunded then markRefundOk p else
    if String.eqb status ProviderStatusPending then markRefundPending p resp
    else handleGwFail p (EPlain ("payment refund returned unknown status: " ++ status))
  end.

(** ** Executing *)

(** A deduction that was not given back before is not taken again. *)
Definition ExecuteRefund (p : RefundPlan) : pay (result RefundResult) :=
  let& c := update_order (rp_OrderID p) (status_in refundable) (set_order_Status OrderStatusRefunding) else EWrap "lock: %w" in
  if c =? 0 then Ret (Err (conflict "order status changed")) else
  let aborted e := let* _ := restoreStatus p in Ret (Err e) in
  let after_deductions p :=
    let* resp := gwRefund p in
    match resp with Err e => handleGwFail p e | Ok resp => finishRefund p resp end in
  let days p :=
    if takes_days p then
      let* kept := hasAuditLog (rp_OrderID p) "REFUND_ROLLBACK_FAILED" in
      if kept then after_deductions (deduct_no_days p) else
      let* r := deduct_days (rp_SubscriptionID p) (rp_SubDaysToDeduct p) in
      match r with Err e => aborted e | Ok _ => after_deductions p end
    else after_deductions p in
  if takes_balance p then
    let* kept := hasAuditLog (rp_OrderID p) "REFUND_ROLLBACK_FAILED" in
    if kept then days (deduct_no_balance p) else
    let* r := DeductBalance (po_UserID (rp_Order p)) (rp_BalanceToDeduct p) in
    match r with Err e => aborted (EWrap "deduction: %w" e) | Ok _ => days p end
  else days p.

(** ** Settling a pending refund *)

Definition refundFinalizePlan (o : PaymentOrder) : RefundPlan :=
  let refundAmount := rf_Amount (po_refund o) in
  let reason := TrimSpace (psStringValue (rf_Reason (po_refund o))) in
  mk_plan (po_ID o) o refundAmount
    (calculateGatewayRefundAmount (po_Amount o) (po_PayAmount o) refundAmount (PaymentOrderCurrency o))
    (if str_empty reason then "refund order:" ++ pretty (po_ID o) else reason)%string
    (rf_Force (po_refund o)) DeductionTypeBalance
    (if String.eqb (po_OrderType o) OrderTypeBalance then refundAmount else f0) 0 0.
Definition applyRefundFinalDeduction (p : RefundPlan) : pay (result RefundPlan) :=
  let* done := hasAuditLog (rp_OrderID p) "REFUND_SUCCESS" in
  if done then Ret (Ok (deduct_no_days (deduct_no_balance p))) else
  let days :=
    if takes_days p then
      let& _ := deduct_days (rp_SubscriptionID p) (rp_SubDaysToDeduct p) else id in Ret (Ok p)
    else Ret (Ok p) in
  if takes_balance p then
    let& _ := DeductBalance (po_UserID (rp_Order p)) (rp_BalanceToDeduct p) else EWrap "deduction: %w" in days
  else days.
(** The detail of the log: the refund's id, and whether the deduction was given back. *)
Definition latestRefundPendingDetail (oid : Z) : pay (string * bool) :=
  let* log := exec_ (audit_First oid "REFUND_PENDING") in
  Ret (match log with
       | Err _ => (""%string, true)
       | Ok log =>
         (match au_Detail log !! "refundID"%string with Some (DString id) => TrimSpace id | _ => ""%string end,
          match au_Detail log !! "deductionRollbackOK"%string with Some (DBool b) => b | _ => true end)
       end).
Definition QueryAndFinalizeRefund (oid : Z) : pay (result RefundResult) :=
  let& o := get_order oid else (λ _, order_not_found) in
  if negb (status_is OrderStatusRefundPending o) then Ret (Err (invalid_status "only refund pending orders can be finalized")) else
  let& prov := getRefundProvider o else EWrap "get refund provider: %w" in
  if negb (pv_QueriesRefunds prov)
  then Ret (Err (BadRequest "REFUND_QUERY_UNSUPPORTED" "this payment provider does not support refund status query; please verify manually")) else
  let* pendingDetail := latestRefundPendingDetail oid in
  let& resp := call (QueryRefund prov (mk_refund_query (po_PaymentTradeNo o) (po_OutTradeNo o) pendingDetail.1
                                         (formatGatewayRefundAmount (rf_Amount (po_refund o)) o)))
    else EWrap "query refund: %w" in
  match validateRefundProviderResponse resp with
  | Err e => finalizeRefundFailed o e
  | Ok _ =>
    let plan := refundFinalizePlan o in
    let* prepared := (if negb pendingDetail.2 then Ret (inl (deduct_no_days (deduct_no_balance plan))) else
                      if String.eqb (po_OrderType o) OrderTypeSubscription then prepDeduct o plan true else Ret (inl plan)) in
    match prepared with
    | inr early => Ret (Ok early)
    | inl plan =>
      let status := response_status resp in
      if String.eqb status ProviderStatusSuccess || String.eqb status ProviderStatusRefunded then
        let& plan := applyRefundFinalDeduction plan else id in markRefundOk plan
      else if String.eqb status ProviderStatusPending then
        let* _ := writeAuditLog oid "REFUND_QUERY_PENDING" "admin" [("refundID"%string, DString (match resp with Some r => rr_RefundID r | None => "" end))] in
        Ret (Ok (unsuccessful "gateway refund is still pending confirmation"))
      else finalizeRefundFailed o (EPlain ("payment refund returned unknown status: " ++ status))
    end
  end.

End Refunds.
