(* ===== verification/PaymentCreate.v ===== *)
(** * New payment orders

    The amounts, the limits, the snapshot of the provider and the transaction
    of [service/payment_order.go] that creates an order; the request of the
    payment at the provider is one call.  Which instance the load balancer
    selects and what its configuration says are arguments.  [FormatFloat],
    [ParseFloat] and [fixed2] are the texts of numbers of [strconv] and [fmt]. *)

From stdpp Require Import pretty.
From S2P Require Import Prelude GoErrors Prog Float64 GoTime GoStrings GoText Subscription SubscriptionRepo SubscriptionService Account PaymentAmounts Affiliate RedeemCodes PaymentStore RedeemService Payments.

Open Scope prog_scope.

Definition defaultOrderTimeoutMin : Z := 30.
Definition defaultMaxPendingOrders : Z := 3.

Record CreateOrderRequest := {
  cr_UserID : Z; cr_Amount : float64; cr_PaymentType : string; cr_OpenID : string; cr_OrderType : string; cr_PlanID : Z;
  cr_PaymentSource : string
}.
Record CreateConfig := {
  cc_MinAmount : float64; cc_MaxAmount : float64; cc_DailyLimit : float64; cc_OrderTimeoutMin : Z; cc_MaxPendingOrders : Z;
  cc_BalanceDisabled : bool; cc_BalanceRechargeMultiplier : float64; cc_RechargeFeeRate : float64; cc_SubscriptionUSDToCNYRate : float64
}.
(** A plan and how it is sold. *)
Record PlanOffer := { of_plan : SubscriptionPlan; of_Price : float64; of_ForSale : bool }.

Section Create.
Context {UC : UnicodeCase} {NC : NumericColumn} {D : ShopspringDecimal} (s : PaymentDeps)
  (FormatFloat : float64 -> string) (ParseFloat : string -> option float64) (fixed2 : float64 -> string).

(** ** What may be ordered *)

Definition validateSubOrder (planID : Z) (plan : result PlanOffer) : result PlanOffer :=
  if planID =? 0 then Err (BadRequest "INVALID_INPUT" "subscription order requires a plan") else
  match plan with
  | Err _ => Err (NotFound "PLAN_NOT_AVAILABLE" "plan not found or not for sale")
  | Ok p =>
    if negb (of_ForSale p) then Err (NotFound "PLAN_NOT_AVAILABLE" "plan not found or not for sale") else
    if plan_ValidityDays (of_plan p) <=? 0
    then Err (BadRequest "PLAN_NOT_AVAILABLE" "subscription plan terms are invalid") else Ok p
  end.
Definition validateOrderInput (req : CreateOrderRequest) (cfg : CreateConfig) (plan : result PlanOffer) : result (option PlanOffer) :=
  if String.eqb (cr_OrderType req) OrderTypeBalance && cc_BalanceDisabled cfg
  then Err (Forbidden "BALANCE_PAYMENT_DISABLED" "balance recharge has been disabled") else
  if String.eqb (cr_OrderType req) OrderTypeSubscription then let? p := validateSubOrder (cr_PlanID req) plan in Ok (Some p) else
  let amount := cr_Amount req in
  if is_nan amount || is_inf amount || fleb amount f0
  then Err (BadRequest "INVALID_AMOUNT" "amount must be a positive number") else
  if (fgtb (cc_MinAmount cfg) f0 && fltb amount (cc_MinAmount cfg)) || (fgtb (cc_MaxAmount cfg) f0 && fgtb amount (cc_MaxAmount cfg))
  then Err (with_metadata (BadRequest "INVALID_AMOUNT" "amount out of range")
              [("min", fixed2 (cc_MinAmount cfg)); ("max", fixed2 (cc_MaxAmount cfg))]%string)
  else Ok None.

(** What the order credits, and what the limits and the fee count. *)
Definition order_amounts (req : CreateOrderRequest) (cfg : CreateConfig) (plan : option PlanOffer) : float64 * float64 :=
  match plan with
  | Some p => (of_Price p, of_Price p)
  | None =>
    (if String.eqb (cr_OrderType req) OrderTypeBalance
     then calculateCreditedBalance (cr_Amount req) (cc_BalanceRechargeMultiplier cfg) else cr_Amount req, cr_Amount req)
  end.
Definition in_currency (currency : string) (r : result Z) : result Z :=
  match r with
  | Err e => Err (with_metadata (BadRequest "INVALID_AMOUNT" (pm_error_text s e)) [("currency"%string, currency)])
  | Ok n => Ok n
  end.
Definition validateCreateOrderAmountCurrency (amount : float64) (currency : string) : result Z :=
  in_currency currency (AmountToMinorUnit (FormatFloat amount) currency).
Definition validateSelectedCreateOrderAmountCurrency (payAmount : string) (sel : option InstanceSelection) : result Z :=
  match sel with
  | None => Ok 0
  | Some sel =>
    let currency := paymentProviderConfigCurrency (sel_ProviderKey sel) (sel_Config sel) in
    in_currency currency (AmountToMinorUnit payAmount currency)
  end.
Definition calculateCreateOrderPayAmount (limitAmount feeRate : float64) (currency : string) : result (string * float64) :=
  let? _ := validateCreateOrderAmountCurrency limitAmount currency in
  let payAmountStr := CalculatePayAmountForCurrency limitAmount feeRate currency in
  let? _ := in_currency currency (AmountToMinorUnit payAmountStr currency) in
  match ParseFloat payAmountStr with
  | None => Err (with_metadata (BadRequest "INVALID_AMOUNT" "invalid payment amount") [("currency"%string, currency)])
  | Some payAmount => Ok (payAmountStr, payAmount)
  end.
Definition calculateCreateOrderPayAmountForOrderType (limitAmount feeRate : float64) (currency orderType : string) (usdToCnyRate : float64)
  : result (string * float64) :=
  calculateCreateOrderPayAmount
    (if String.eqb orderType OrderTypeSubscription then calculateSubscriptionGatewayBaseAmount limitAmount usdToCnyRate currency
     else limitAmount) feeRate currency.

(** ** The snapshot of the provider *)

Definition ResolveWxpayJSAPIAppID (config : gmap string string) : string :=
  let appID := TrimSpace (default ""%string (config !! "mpAppId"%string)) in
  if str_empty appID then TrimSpace (default ""%string (config !! "appId"%string)) else appID.
Definition paymentOrderSnapshotWxpayAppID (sel : InstanceSelection) (openID : string) : string :=
  if negb (String.eqb (TrimSpace (sel_ProviderKey sel)) TypeWxpay) then ""%string else
  if negb (str_empty (TrimSpace openID)) then TrimSpace (ResolveWxpayJSAPIAppID (sel_Config sel))
  else TrimSpace (default ""%string (sel_Config sel !! "appId"%string)).
Definition set_text (key value : string) (m : jmap) : jmap := if str_empty value then m else <[key := JString value]> m.
Definition buildPaymentOrderProviderSnapshot (sel : option InstanceSelection) (openID : string) : jmap :=
  match sel with
  | None => ∅
  | Some sel =>
    let cfg key := TrimSpace (default ""%string (sel_Config sel !! key)) in
    let providerKey := TrimSpace (sel_ProviderKey sel) in
    let keyed t := String.eqb providerKey t in
    let currency := <["currency"%string := JString (paymentProviderConfigCurrency providerKey (sel_Config sel))]> in
    let m : jmap := {["schema_version"%string := JNumber (f64_of_Z 2)]} in
    let m := set_text "provider_instance_id" (TrimSpace (sel_InstanceID sel)) m in
    let m := set_text "provider_key" providerKey m in
    let m := set_text "payment_mode" (TrimSpace (sel_PaymentMode sel)) m in
    let m := if keyed TypeWxpay then
               <["currency"%string := JString DefaultPaymentCurrency]>
                 (set_text "merchant_id" (cfg "mchId"%string) (set_text "merchant_app_id" (paymentOrderSnapshotWxpayAppID sel openID) m))
             else m in
    let m := if keyed TypeAlipay then set_text "merchant_app_id" (cfg "appId"%string) m else m in
    let m := if keyed TypeEasyPay then set_text "merchant_id" (cfg "pid"%string) m else m in
    let m := if keyed TypeStripe then currency m else m in
    let m := if keyed TypeAirwallex then currency (set_text "merchant_id" (cfg "accountId"%string) m) else m in
    if Nat.eqb (size m) 1 then ∅ else m
  end.

(** ** The transaction *)

Definition checkPendingLimit (userID max : Z) : pay (result unit) :=
  let max := if max <=? 0 then defaultMaxPendingOrders else max in
  let& orders := exec_ (orders_where (λ o, (po_UserID o =? userID) && status_is OrderStatusPending o))
    else EWrap "count pending orders: %w" in
  Ret (if max <=? Z.of_nat (length orders)
       then Err (with_metadata (TooManyRequests "TOO_MANY_PENDING" "too_many_pending") [("max"%string, pretty max)]) else Ok tt).
(** What an order counts against the limit of the day: a recharge what was
    paid, a plan its price. *)
Definition counted_amount (o : PaymentOrder) : float64 :=
  if String.eqb (po_OrderType o) OrderTypeBalance then po_PayAmount o else po_Amount o.
Definition psStartOfDayUTC (t : time) : time := start_of_local_day (time_in t UTC).
Definition checkDailyLimit (userID : Z) (amount limit : float64) : pay (result unit) :=
  if fleb limit f0 then Ret (Ok tt) else
  let* now := now_ in
  let ts := psStartOfDayUTC now in
  let& orders := exec_ (orders_where (λ o,
      (po_UserID o =? userID) && status_in [OrderStatusPaid; OrderStatusRecharging; OrderStatusCompleted] o
      && match po_PaidAt o with Some t => negb (before t ts) | None => false end))
    else EWrap "query daily usage: %w" in
  let used := fold_left (λ used o, fadd used (counted_amount o)) orders f0 in
  let remaining := fsub limit used in
  Ret (if fgtb (fadd used amount) limit
       then Err (with_metadata (TooManyRequests "DAILY_LIMIT_EXCEEDED" "daily_limit_exceeded")
                   [("remaining"%string, fixed2 (if fgtb remaining f0 then remaining else if is_nan remaining then remaining else f0))])
       else Ok tt).
Fixpoint allocate (attempts : nat) : pay (result string) :=
  match attempts with
  | O => Ret (Err (EPlain "generate unique out_trade_no: exhausted attempts"))
  | S attempts =>
    let* candidate := call GenerateOutTradeNo in
    let& found := exec_ (orders_where (has_trade_no candidate)) else EWrap "check out_trade_no uniqueness: %w" in
    match found with [] => Ret (Ok candidate) | _ => allocate attempts end
  end.
Definition allocateOutTradeNo : pay (result string) := allocate 5.

(** The insert, and the recharge code made of the new id; numbers of trades
    are unique. *)
Definition order_Create (nanos : Z) (row : Z -> string -> PaymentOrder) : M PaymentDB PaymentOrder := λ db,
  let id := pd_next_order db in
  let o := row id (recharge_code id nanos) in
  let db1 := mk_db (pd_orders db) (id + 1) (pd_audit db) (pd_codes db) (pd_funds db) (pd_subs db) (pd_plans db) (pd_instances db) (pd_history db) in
  if negb (str_empty (po_OutTradeNo o)) && existsb (has_trade_no (po_OutTradeNo o)) (map_to_list (pd_orders db)).*2
  then (Err constraint_failed, db1) else (Ok o, set_orders (<[id := o]> (pd_orders db)) db1).
Definition psNilIfEmpty (v : string) : option string := if str_empty v then None else Some v.
Definition createOrderInTx (req : CreateOrderRequest) (plan : option PlanOffer) (cfg : CreateConfig)
  (orderAmount limitAmount payAmount : float64) (sel : option InstanceSelection) : pay (result PaymentOrder) :=
  let& _ := checkPendingLimit (cr_UserID req) (cc_MaxPendingOrders cfg) else id in
  let& _ := checkDailyLimit (cr_UserID req) limitAmount (cc_DailyLimit cfg) else id in
  let tm := if cc_OrderTimeoutMin cfg <=? 0 then defaultOrderTimeoutMin else cc_OrderTimeoutMin cfg in
  let* now := now_ in
  let exp := time_add now (mul64 tm minute) in
  let& outTradeNo := allocateOutTradeNo else id in
  let* created := now_ in
  let* clock := now_ in
  let row id code :=
    mk_order
      (mk_terms id (cr_UserID req) (pm_column s orderAmount) code outTradeNo (cr_PaymentType req) (cr_OrderType req)
         ((λ p, plan_ID (of_plan p)) <$> plan)
         ((λ p, psComputeValidityDays (plan_ValidityDays (of_plan p)) (plan_ValidityUnit (of_plan p))) <$> plan)
         created exp (buildPaymentOrderProviderSnapshot sel (cr_OpenID req)))
      OrderStatusPending (pm_column s payAmount) ""
      (match sel with Some sel => psNilIfEmpty (TrimSpace (sel_InstanceID sel)) | None => None end)
      (match sel with Some sel => psNilIfEmpty (TrimSpace (sel_ProviderKey sel)) | None => None end)
      None None None None (mk_refund f0 None None false None None None) clock in
  let& o := exec_ (order_Create (t_ns clock) row) else EWrap "create order: %w" in Ret (Ok o).

(** ** After the transaction *)

Definition PaymentSourceHostedRedirect : string := "hosted_redirect".
Definition PaymentSourceWechatInAppResume : string := "wechat_in_app_resume".
Definition NormalizePaymentSource (source : string) : string :=
  let v := TrimSpace (ToLower source) in
  if str_empty v || String.eqb v PaymentSourceHostedRedirect then PaymentSourceHostedRedirect else
  if String.eqb v "wechat_in_app" || String.eqb v "wxpay_resume" || String.eqb v PaymentSourceWechatInAppResume
  then PaymentSourceWechatInAppResume else v.
Definition set_provider (tradeNo instanceID providerKey : option string) (o : PaymentOrder) : PaymentOrder :=
  mk_order (po_terms o) (po_Status o) (po_PayAmount o) (default (po_PaymentTradeNo o) tradeNo)
    (match instanceID with Some _ => instanceID | None => po_ProviderInstanceID o end)
    (match providerKey with Some _ => providerKey | None => po_ProviderKey o end)
    (po_PaidAt o) (po_CompletedAt o) (po_FailedAt o) (po_FailedReason o) (po_refund o) (po_UpdatedAt o).
Definition invokeProvider (o : PaymentOrder) (req : CreateOrderRequest) (sel : InstanceSelection) : pay (result PaymentOrder) :=
  let& tradeNo := call (CreatePayment sel o) else id in
  let& _ := update_order_one (po_ID o) (set_provider (psNilIfEmpty tradeNo) (psNilIfEmpty (sel_InstanceID sel)) (psNilIfEmpty (sel_ProviderKey sel)))
    else EWrap "update order with payment details: %w" in
  let* _ := writeAuditLog (po_ID o) "ORDER_CREATED" (user_operator (cr_UserID req))
              [("paymentAmount", DFloat (cr_Amount req)); ("creditedAmount", DFloat (po_Amount o)); ("payAmount", DFloat (po_PayAmount o));
               ("paymentType", DString (cr_PaymentType req)); ("orderType", DString (cr_OrderType req));
               ("paymentSource", DString (NormalizePaymentSource (cr_PaymentSource req)))]%string in
  Ret (Ok o).
(** The end of [CreateOrder]: an order the provider did not take is FAILED. *)
Definition place_order (req : CreateOrderRequest) (plan : option PlanOffer) (cfg : CreateConfig)
  (payAmount : float64) (sel : InstanceSelection) : pay (result PaymentOrder) :=
  let amounts := order_amounts req cfg plan in
  let& o := createOrderInTx req plan cfg amounts.1 amounts.2 payAmount (Some sel) else id in
  let* r := invokeProvider o req sel in
  match r with
  | Ok o => Ret (Ok o)
  | Err e => let* _ := update_order_one (po_ID o) (set_order_Status OrderStatusFailed) in Ret (Err e)
  end.
End Create.
