(* ===== verification/PaymentInvariant.v ===== *)
(** * What payments keep

    [inv]: the tables agree with the history of grants: a code of a balance is
    used exactly when it has been credited, once; a code named like the
    recharge code of an order is of the amount of the order; an order that is
    completed, or was and is being refunded, has been fulfilled; a
    subscription assigned for an order, and a rebate accrued for it, is in the
    audit log, which has room for one.  [ext] is what nothing here takes back:
    orders and their terms, codes, used codes, grants.  [keeps] says a
    statement has both. *)

From Stdlib Require Import Ascii.
From stdpp Require Import pretty.
From S2P Require Import Prelude GoErrors Prog Float64 GoTime GoStrings GoText Subscription SubscriptionRepo SubscriptionService Account PaymentAmounts Affiliate AffiliateProps RedeemCodes PaymentStore RedeemService Payments PaymentRefunds PaymentCreate.

(** ** Recharge codes *)

Definition dash : ascii := "-"%char.
Lemma digits_without_dash (z : Z) : 0 <= z -> without dash (pretty z).
Proof.
  intros Hz. unfold without. destruct z as [|p|p]; [|..|lia].
  - constructor; [done|constructor].
  - change (pretty (Zpos p)) with (pretty (Npos p)). eapply Forall_impl; [apply pretty_N_digits|].
    intros c Hc ->. destruct Hc as [x Hx]. by vm_compute in Hx.
Qed.
Lemma recharge_code_id id n id' n' : 0 <= id -> 0 <= id' -> recharge_code id n = recharge_code id' n' -> id = id'.
Proof.
  intros Hid Hid' H. unfold recharge_code in H. cbn in H. injection H as H.
  apply (cut_unique dash) in H as [H _]; [|by apply digits_without_dash..]. by apply (inj pretty) in H.
Qed.

Definition solid (b : ascii) : bool := forallb (λ e, forallb (λ c, negb (Ascii.eqb b c)) e) space_encodings.
Lemma solid_not_stripped (es : list bytes) l :
  (∀ e, e ∈ es -> e <> [] /\ ∀ b c, b ∈ l -> c ∈ e -> b <> c) -> strip_any es l = None.
Proof.
  intros H. apply strip_any_None. intros e He. destruct (strip_prefix e l) as [r|] eqn:E; [|done].
  apply strip_prefix_Some in E. destruct (H e He) as [Hne Hb]. destruct e as [|c e]; [done|].
  exfalso. apply (Hb c c); [rewrite E; by left|by left|done].
Qed.
Lemma TrimSpace_solid s : forallb solid (to_bytes s) = true -> TrimSpace s = s.
Proof.
  intros H. assert (∀ e, e ∈ space_encodings -> e <> [] /\ ∀ b c, b ∈ to_bytes s -> c ∈ e -> b <> c) as He.
  { intros e He. split; [by apply (proj1 (Forall_forall _ _) space_encodings_nonempty)|]. intros b c Hb Hc ->.
    rewrite forallb_forall in H. specialize (H c (proj1 (list_elem_of_In _ _) Hb)). unfold solid in H.
    rewrite forallb_forall in H. specialize (H e (proj1 (list_elem_of_In _ _) He)). rewrite forallb_forall in H.
    specialize (H c (proj1 (list_elem_of_In _ _) Hc)). by rewrite Ascii.eqb_refl in H. }
  unfold TrimSpace, trim_space_left. rewrite trim_left_fixed by (by apply solid_not_stripped).
  unfold trim_space_right. rewrite trim_left_fixed; [by rewrite rev_involutive, of_to_bytes|].
  apply solid_not_stripped. intros e' [e [-> Hin]]%list_elem_of_fmap. destruct (He e Hin) as [Hne Hb]. split.
  - intros Hr. apply Hne. by rewrite <- (rev_involutive e), Hr.
  - intros b c Hb' Hc'. apply Hb; apply list_elem_of_In, in_rev, list_elem_of_In; [done|]. by rewrite ?rev_involutive.
Qed.
Lemma numerals_solid z : forallb solid (to_bytes (pretty (z : Z))) = true.
Proof.
  apply forallb_forall. intros c Hc. apply list_elem_of_In in Hc.
  pose proof (proj1 (Forall_forall _ _) (pretty_Z_numeral z) c Hc) as [->|Hd]; [by vm_compute|].
  revert Hd. unfold is_digit. intros Hd.
  assert (implb (is_Some_b (digit_val c)) (solid c) = true) as Hs.
  { apply (all_bytes (λ c, implb (is_Some_b (digit_val c)) (solid c))). vm_compute. reflexivity. }
  unfold is_Some_b in Hs. destruct (digit_val c); [done|]. by destruct Hd.
Qed.
Lemma recharge_code_trimmed id n : TrimSpace (recharge_code id n) = recharge_code id n.
Proof.
  apply TrimSpace_solid. unfold recharge_code. rewrite !to_bytes_app, !forallb_app, !numerals_solid. by vm_compute.
Qed.
Lemma recharge_code_not_empty id n : str_empty (recharge_code id n) = false.
Proof. done. Qed.

(** ** The history *)

Definition credits (id : Z) (l : list grant) : list (Z * Z) :=
  omap (λ g, match g with Credited c u n => if c =? id then Some (u, n) else None | _ => None end) l.
Definition assignments (oid : Z) (l : list grant) : list Z :=
  omap (λ g, match g with Assigned o sub => if o =? oid then Some sub else None | _ => None end) l.
Definition rebate_rows (oid : Z) (l : list LedgerRow) : list LedgerRow :=
  filterb (λ r, match lg_SourceOrderID r with Some o => o =? oid | None => false end) l.
Lemma credits_app id l l' : credits id (l ++ l') = credits id l ++ credits id l'.
Proof. apply omap_app. Qed.
Lemma assignments_app oid l l' : assignments oid (l ++ l') = assignments oid l ++ assignments oid l'.
Proof. apply omap_app. Qed.
Lemma filterb_app {A} (p : A -> bool) l l' : filterb p (l ++ l') = filterb p l ++ filterb p l'.
Proof. unfold filterb. apply List.filter_app. Qed.

Section Invariant.
Context {UC : UnicodeCase} {NC : NumericColumn} {D : ShopspringDecimal}.

Definition code_at (id : Z) (c : RedeemCode) (db : PaymentDB) : Prop := ct_rows (pd_codes db) !! id = Some c.
Definition is_balance (c : RedeemCode) : bool := String.eqb (rc_Type c) RedeemTypeBalance.
Definition code_state (id : Z) (db : PaymentDB) : Prop :=
  match ct_rows (pd_codes db) !! id with
  | Some c =>
    if IsUsed c && is_balance c then ∃ u, credits id (pd_history db) = [(u, units (rc_Value c))]
    else credits id (pd_history db) = []
  | None => credits id (pd_history db) = []
  end.
Definition settled (o : PaymentOrder) : bool := status_is OrderStatusCompleted o || psIsRefundStatus (po_Status o).
Definition is_subscription (t : OrderTerms) : bool := String.eqb (ot_OrderType t) OrderTypeSubscription.
Definition code_used (code : string) (db : PaymentDB) : Prop := ∃ id c, code_at id c db /\ rc_Code c = code /\ IsUsed c = true.
Definition assigned (oid : Z) (db : PaymentDB) : Prop := assignments oid (pd_history db) <> [].
Definition fulfilled (t : OrderTerms) (db : PaymentDB) : Prop :=
  if is_subscription t then assigned (ot_ID t) db else code_used (ot_RechargeCode t) db.
Definition logged (oid : Z) (action : string) (db : PaymentDB) : Prop := is_Some (pd_audit db !! (oid, action)).
Definition at_most_one {A} (l : list A) : Prop := (length l <= 1)%nat.

Record inv (db : PaymentDB) : Prop := {
  inv_ids : ∀ id c, code_at id c db -> rc_ID c = id /\ id < ct_next (pd_codes db);
  inv_names : ∀ id id' c c', code_at id c db -> code_at id' c' db -> rc_Code c = rc_Code c' -> id = id';
  inv_credits : ∀ id, code_state id db;
  inv_orders : ∀ id o, pd_orders db !! id = Some o ->
    po_ID o = id /\ 0 <= id < pd_next_order db /\ ∃ n, po_RechargeCode o = recharge_code id n;
  inv_next : 0 <= pd_next_order db;
  inv_owned : ∀ id c oid n, code_at id c db -> 0 <= oid -> rc_Code c = recharge_code oid n ->
    ∃ o, pd_orders db !! oid = Some o /\ po_RechargeCode o = rc_Code c /\ is_balance c = true /\ rc_Value c = numeric (po_Amount o);
  inv_settled : ∀ id o, pd_orders db !! id = Some o -> settled o = true -> fulfilled (po_terms o) db;
  inv_assigned : ∀ oid, at_most_one (assignments oid (pd_history db));
  inv_assigned_logged : ∀ oid, assigned oid db -> logged oid "SUBSCRIPTION_ASSIGNED" db;
  inv_logged : ∀ oid action, action ∈ assignment_actions -> logged oid action db -> assigned oid db;
  inv_rebates : ∀ oid, at_most_one (rebate_rows oid (fd_ledger (pd_funds db)));
  inv_rebates_logged : ∀ oid, rebate_rows oid (fd_ledger (pd_funds db)) <> [] -> logged oid "AFFILIATE_REBATE_APPLIED" db
}.

Definition same_code (c c' : RedeemCode) : Prop :=
  rc_Code c' = rc_Code c /\ rc_Type c' = rc_Type c /\ rc_Value c' = rc_Value c /\ (IsUsed c = true -> IsUsed c' = true).
Record ext (db db' : PaymentDB) : Prop := {
  ext_next : pd_next_order db <= pd_next_order db';
  ext_orders : ∀ id o, pd_orders db !! id = Some o -> ∃ o', pd_orders db' !! id = Some o' /\ po_terms o' = po_terms o;
  ext_codes : ∀ id c, code_at id c db -> ∃ c', code_at id c' db' /\ same_code c c';
  ext_history : ∃ l, pd_history db' = pd_history db ++ l
}.
#[global] Instance same_code_preorder : PreOrder same_code.
Proof.
  split; [intros c; unfold same_code; by auto|]. intros c1 c2 c3 (H1 & H2 & H3 & H4) (K1 & K2 & K3 & K4).
  split_and!; [congruence..|by auto].
Qed.
#[global] Instance ext_preorder : PreOrder ext.
Proof.
  split.
  - intros db. split; [done|by eauto| |by exists []; rewrite app_nil_r].
    intros id c Hc. exists c. by split.
  - intros db1 db2 db3 [N1 O1 C1 [l1 H1]] [N2 O2 C2 [l2 H2]]. split; [lia|..|exists (l1 ++ l2); by rewrite H2, H1, app_assoc].
    + intros id o Ho. destruct (O1 id o Ho) as (o' & Ho' & E1). destruct (O2 id o' Ho') as (o'' & Ho'' & E2).
      exists o''. split; [done|congruence].
    + intros id c Hc. destruct (C1 id c Hc) as (c' & Hc' & E1). destruct (C2 id c' Hc') as (c'' & Hc'' & E2).
      exists c''. split; [done|by etrans].
Qed.

(** ** What lasts *)

Definition known (o : PaymentOrder) (db : PaymentDB) : Prop := ∃ row, pd_orders db !! po_ID o = Some row /\ po_terms row = po_terms o.
Definition order_fulfilled (oid : Z) (db : PaymentDB) : Prop := ∃ o, pd_orders db !! oid = Some o /\ fulfilled (po_terms o) db.
Definition known_code (c : RedeemCode) (db : PaymentDB) : Prop := ∃ row, code_at (rc_ID c) row db /\ same_code c row.

#[global] Instance code_used_stable code : Stable ext (code_used code).
Proof.
  intros db db' [_ _ Hc _] (id & c & Hid & Hn & Hu). destruct (Hc id c Hid) as (c' & Hc' & Hs).
  exists id, c'. destruct Hs as (E & _ & _ & H). split_and!; [done|congruence|auto].
Qed.
#[global] Instance assigned_stable oid : Stable ext (assigned oid).
Proof.
  intros db db' [_ _ _ [l Hl]] H. unfold assigned in *. rewrite Hl, assignments_app. by destruct (assignments oid (pd_history db)).
Qed.
#[global] Instance fulfilled_stable t : Stable ext (fulfilled t).
Proof. intros db db' He. unfold fulfilled. destruct (is_subscription t); [by apply assigned_stable|by apply code_used_stable]. Qed.
#[global] Instance known_stable o : Stable ext (known o).
Proof.
  intros db db' He (row & Hr & E). destruct (ext_orders _ _ He _ _ Hr) as (row' & Hr' & E'). exists row'. split; [done|congruence].
Qed.
#[global] Instance order_fulfilled_stable oid : Stable ext (order_fulfilled oid).
Proof.
  intros db db' He (o & Ho & Hf). destruct (ext_orders _ _ He _ _ Ho) as (o' & Ho' & E). exists o'. split; [done|].
  rewrite E. by eapply fulfilled_stable.
Qed.
#[global] Instance known_code_stable c : Stable ext (known_code c).
Proof.
  intros db db' He (row & Hr & E). destruct (ext_codes _ _ He _ _ Hr) as (row' & Hr' & E'). exists row'. split; [done|by etrans].
Qed.
Lemma known_fulfilled o db : inv db -> known o db -> fulfilled (po_terms o) db <-> order_fulfilled (po_ID o) db.
Proof.
  intros Hi (row & Hr & E). split.
  - intros H. exists row. by rewrite E.
  - intros (o' & Ho' & Hf). rewrite Hr in Ho'. injection Ho' as <-. by rewrite <- E.
Qed.

(** ** Statements *)

(** The statement keeps the invariant, takes nothing back, and has [R]. *)
Definition keeps {A} (K : PaymentDB -> Prop) (m : M PaymentDB A) (R : PaymentDB -> A -> Prop) : Prop :=
  ∀ db a db', inv db -> K db -> m db = (Ok a, db') -> inv db' /\ ext db db' /\ R db' a.

Definition answers {B} (c : stmt B) (db : PaymentDB) (b : B) (db' : PaymentDB) : Prop :=
  match c in stmt B return B -> Prop with
  | Exec m => λ r, ((∃ e, r = Err e) /\ db' = db) \/ ∃ a, m db = (Ok a, db') /\ (r = Ok a \/ ∃ e, r = Err e)
  | _ => λ _, db' = db
  end b.
Lemma performs_answers {B} (c : stmt B) db b db' : performs _ c db b db' -> answers c db b db'.
Proof.
  intros H. destruct H as [A m db a db' Hm|A m db e db' Hm|A m db e|A m db a db' e Hm|B c db b Hc]; cbn; [eauto 8..|].
  by destruct c.
Qed.
Lemma performs_exec {A} (m : M PaymentDB A) db r db' : performs _ (Exec m) db r db' ->
  ((∃ e, r = Err e) /\ db' = db) \/ ∃ a, m db = (Ok a, db') /\ (r = Ok a \/ ∃ e, r = Err e).
Proof. apply (performs_answers (Exec m)). Qed.
Lemma performs_outside {B} (c : stmt B) db b db' : outside c = true -> performs _ c db b db' -> db' = db.
Proof. intros Hc H%performs_answers. by destruct c. Qed.

Definition done_with {A} (R : PaymentDB -> A -> Prop) (db : PaymentDB) (r : result A) : Prop :=
  match r with Ok a => R db a | Err _ => True end.
#[global] Instance done_with_stable {A} (R : PaymentDB -> A -> Prop) r : (∀ a, Stable ext (λ db, R db a)) -> Stable ext (λ db, done_with R db r).
Proof. intros H db db' He. destruct r as [a|]; [|done]. by apply (H a). Qed.

Abbreviation triple := (triple performs inv ext).
Lemma triple_exec {A} K (m : M PaymentDB A) R :
  Stable ext K -> (∀ a, Stable ext (λ db, R db a)) -> keeps K m R -> triple K (exec_ m) (done_with R).
Proof.
  intros HK HR Hm db Hi Hk. cbn. intros db1 r db2 Hi1 He1 Hp.
  destruct (performs_exec _ _ _ _ Hp) as [[[e ->] ->]|(a & Ha & Hr)].
  - split_and!; [done|reflexivity|]. by intros db3 _ _.
  - destruct (Hm _ _ _ Hi1 ltac:(by eapply HK) Ha) as (Hi2 & He2 & HRa). split_and!; [done..|].
    intros db3 _ He3. destruct Hr as [->|[e ->]]; [|done]. cbn. by apply (HR a db2).
Qed.
Lemma triple_outside {B} K (c : stmt B) : outside c = true -> Stable ext K -> triple K (call c) (λ _ _, True).
Proof.
  intros Hc HK db Hi Hk. cbn. intros db1 b db2 Hi1 He1 Hp. apply performs_outside in Hp as ->; [|done].
  split_and!; [done|reflexivity|]. done.
Qed.

(** Orders, codes, the audit log, grants and the rebates of orders are as they were. *)
Record same_tables (db db' : PaymentDB) : Prop := {
  st_orders : pd_orders db' = pd_orders db;
  st_next : pd_next_order db' = pd_next_order db;
  st_audit : pd_audit db' = pd_audit db;
  st_codes : pd_codes db' = pd_codes db;
  st_history : pd_history db' = pd_history db;
  st_rebates : ∀ oid, rebate_rows oid (fd_ledger (pd_funds db')) = rebate_rows oid (fd_ledger (pd_funds db))
}.
Lemma same_tables_keep db db' : same_tables db db' -> inv db -> inv db' /\ ext db db'.
Proof.
  intros [Ho Hn Ha Hc Hh Hr] Hi. split.
  - destruct db as [], db' as []. cbn in *. subst. destruct Hi. split; try assumption; intros oid; cbn in *; rewrite Hr;
      [by apply inv_rebates0|by apply inv_rebates_logged0].
  - split; [by rewrite Hn|intros id o H; exists o; by rewrite Ho| |exists []; by rewrite Hh, app_nil_r].
    intros id c H. exists c. unfold code_at in *. by rewrite Hc.
Qed.
Lemma keeps_same {A} K (m : M PaymentDB A) (R : PaymentDB -> A -> Prop) :
  (∀ db a db', inv db -> K db -> m db = (Ok a, db') -> same_tables db db' /\ R db' a) -> keeps K m R.
Proof. intros H db a db' Hi Hk Hm. destruct (H _ _ _ Hi Hk Hm) as [Hs HR]. split_and!; [by eapply same_tables_keep..|done]. Qed.
Lemma same_tables_refl db : same_tables db db.
Proof. by split. Qed.

(** Reads. *)
Lemma keeps_read {A} K (m : M PaymentDB A) : (∀ db, (m db).2 = db) -> keeps K m (λ _ _, True).
Proof. intros H. apply keeps_same. intros db a db' _ _ Hm. specialize (H db). rewrite Hm in H. cbn in H. subst. by split. Qed.
Definition found (db : PaymentDB) (o : PaymentOrder) : Prop := known o db /\ (settled o = true -> fulfilled (po_terms o) db).
Lemma row_found db id o : inv db -> pd_orders db !! id = Some o -> po_ID o = id /\ found db o.
Proof.
  intros Hi Ho. destruct (inv_orders _ Hi _ _ Ho) as (Hid & _). split; [done|]. split; [|by apply (inv_settled _ Hi id)].
  exists o. by rewrite Hid.
Qed.
Lemma keeps_order_Get K oid : keeps K (order_Get oid) (λ db o, po_ID o = oid /\ found db o).
Proof.
  apply keeps_same. intros db o db' Hi _ H. unfold order_Get in H. destruct (pd_orders db !! oid) as [o'|] eqn:E; [|done].
  injection H as <- <-. split; [apply same_tables_refl|by apply row_found].
Qed.
Lemma in_orders db o : o ∈ (map_to_list (pd_orders db)).*2 -> ∃ id, pd_orders db !! id = Some o.
Proof. intros ([id o'] & -> & H)%list_elem_of_fmap. exists id. by apply elem_of_map_to_list. Qed.
Lemma filterb_in {A} (p : A -> bool) l a : a ∈ filterb p l -> a ∈ l /\ p a = true.
Proof. unfold filterb. intros H%list_elem_of_In. apply filter_In in H as [H ?]. split; [by apply list_elem_of_In|done]. Qed.
Lemma keeps_order_only K p : keeps K (order_only p) found.
Proof.
  apply keeps_same. intros db o db' Hi _ H. unfold order_only in H.
  destruct (filterb p (map_to_list (pd_orders db)).*2) as [|o' [|]] eqn:E; try done. injection H as <- <-.
  split; [apply same_tables_refl|]. assert (o' ∈ [o']) as Hin by left. rewrite <- E in Hin.
  apply filterb_in in Hin as [Hin _]. apply in_orders in Hin as [id Hid]. by eapply row_found.
Qed.
Lemma keeps_orders_where K p : keeps K (orders_where p) (λ db l, Forall (λ o, p o = true /\ found db o) l).
Proof.
  apply keeps_same. intros db l db' Hi _ H. injection H as <- <-. split; [apply same_tables_refl|].
  apply Forall_forall. intros o Ho. apply filterb_in in Ho as [Ho Hp]. apply in_orders in Ho as [id Hid].
  split; [done|]. by eapply row_found.
Qed.
Lemma keeps_code_GetByCode K code : keeps K (on_codes (code_GetByCode code)) (λ db c, rc_Code c = code /\ known_code c db /\ (IsUsed c = true -> code_used code db)).
Proof.
  apply keeps_same. intros db c db' Hi _ H. unfold on_codes, code_GetByCode in H.
  destruct (code_named code (pd_codes db)) as [c'|] eqn:E; [|done]. injection H as -> <-.
  split; [by split|]. unfold code_named in E. apply List.find_some in E as [Hin Hn]. apply String.eqb_eq in Hn.
  apply list_elem_of_In, list_elem_of_fmap in Hin as ([id c'] & -> & Hc%elem_of_map_to_list). cbn in *.
  split_and!; [done| |].
  - exists c'. destruct (inv_ids _ Hi _ _ Hc) as [-> _]. split; [done|]. reflexivity.
  - intros Hu. by exists id, c'.
Qed.

(** Statements on the other tables. *)
Lemma keeps_on_subs {A} K (m : M Table A) : keeps K (on_subs m) (λ _ _, True).
Proof.
  apply keeps_same. intros db a db' _ _ H. unfold on_subs in H. destruct (m (pd_subs db)) as [r t]. injection H as _ <-. by repeat split.
Qed.
Lemma keeps_on_funds {A} K (m : M FundsDB A) :
  (∀ f a f', m f = (Ok a, f') -> ∀ oid, rebate_rows oid (fd_ledger f') = rebate_rows oid (fd_ledger f)) -> keeps K (on_funds m) (λ _ _, True).
Proof.
  intros Hm. apply keeps_same. intros db a db' _ _ H. unfold on_funds in H. destruct (m (pd_funds db)) as [r t] eqn:E. injection H as -> <-.
  split; [|done]. split; try done. cbn. by eapply Hm.
Qed.

(** *** The audit log *)

Lemma logged_insert oid action oid' action' a db :
  logged oid' action' (set_audit (<[(oid, action) := a]> (pd_audit db)) db) <-> (oid, action) = (oid', action') \/ logged oid' action' db.
Proof. unfold logged. cbn. by rewrite lookup_insert_is_Some'. Qed.
Lemma audit_keep db a : inv db ->
  (∀ oid action, action = "SUBSCRIPTION_ASSIGNED"%string \/ action = "AFFILIATE_REBATE_APPLIED"%string -> logged oid action db -> logged oid action (set_audit a db)) ->
  (∀ oid action, action ∈ assignment_actions -> logged oid action (set_audit a db) -> assigned oid db) ->
  inv (set_audit a db) /\ ext db (set_audit a db).
Proof.
  intros Hi Hk Hl. split.
  - destruct Hi. split; try done.
    + intros oid Ho. apply Hk; [by left|]. by apply inv_assigned_logged0.
    + intros oid Ho. apply Hk; [by right|]. by apply inv_rebates_logged0.
  - split; [done|by eauto| |by exists []; rewrite app_nil_r]. intros id c Hc. exists c. by split.
Qed.
Lemma keeps_audit_Create K now oid action op d :
  (∀ db, inv db -> K db -> action ∈ assignment_actions -> assigned oid db) -> keeps K (audit_Create now oid action op d) (λ _ _, True).
Proof.
  intros Ha db u db' Hi Hk H. unfold audit_Create in H. destruct (pd_audit db !! (oid, action)) eqn:E; [done|]. injection H as _ <-.
  assert (inv (set_audit (<[(oid, action) := mk_audit op d now]> (pd_audit db)) db) /\
          ext db (set_audit (<[(oid, action) := mk_audit op d now]> (pd_audit db)) db)) as [? ?]; [|done].
  apply audit_keep; [done|..].
  - intros oid' action' _ Hl. apply logged_insert. by right.
  - intros oid' action' Hin [[= <- <-]|Hl]%logged_insert; [by apply Ha|]. by eapply inv_logged.
Qed.

(** *** Orders *)

Lemma order_keep db id o o' : inv db -> pd_orders db !! id = Some o -> po_terms o' = po_terms o ->
  (settled o' = true -> fulfilled (po_terms o) db) ->
  inv (set_orders (<[id := o']> (pd_orders db)) db) /\ ext db (set_orders (<[id := o']> (pd_orders db)) db).
Proof.
  intros Hi Ho Ht Hs. assert (∀ id', pd_orders (set_orders (<[id := o']> (pd_orders db)) db) !! id' =
    if decide (id = id') then Some o' else pd_orders db !! id') as Hl.
  { intros id'. cbn. case_decide as E; [subst; by rewrite lookup_insert_eq|by rewrite lookup_insert_ne]. }
  split.
  - destruct Hi. split; try done.
    + intros id' r. rewrite Hl. case_decide as E; [|by apply inv_orders0]. intros [= <-]. subst.
      destruct (inv_orders0 _ _ Ho) as (H1 & H2 & H3). unfold po_ID, po_RechargeCode in *. by rewrite Ht.
    + intros id' c oid n Hc Hoid Hn. destruct (inv_owned0 id' c oid n Hc Hoid Hn) as (r & Hr & Hrest). rewrite Hl.
      case_decide as E; [|by exists r]. subst. rewrite Ho in Hr. injection Hr as <-. exists o'. split; [done|].
      unfold po_RechargeCode, po_Amount in *. by rewrite Ht.
    + intros id' r. rewrite Hl. case_decide as E; [|by apply inv_settled0]. intros [= <-]. rewrite Ht. exact Hs.
  - split; [done| |intros id' c Hc; by exists c|by exists []; rewrite app_nil_r].
    intros id' r Hr. rewrite Hl. case_decide as E; [|by exists r]. subst. rewrite Ho in Hr. injection Hr as <-. by exists o'.
Qed.
Lemma keeps_order_update_knows K J now id p f : Stable ext J ->
  (∀ db o, inv db -> K db -> pd_orders db !! id = Some o -> p o = true ->
     po_terms (f o) = po_terms o /\ (settled (f o) = true -> fulfilled (po_terms o) db) /\ J db) ->
  keeps K (order_update now id p f) (λ db n, n <> 0 -> J db).
Proof.
  intros HJ Hf db n db' Hi Hk H. unfold order_update in H. destruct (pd_orders db !! id) as [o|] eqn:Ho.
  - destruct (p o) eqn:Hp; injection H as <- <-; [|by split_and!].
    destruct (Hf db o Hi Hk Ho Hp) as (Ht & Hs & Hj).
    destruct (order_keep db id o (set_order_UpdatedAt now (f o)) Hi Ho Ht Hs) as [? He]. split_and!; [done..|].
    intros _. by apply (HJ _ _ He).
  - injection H as <- <-. by split_and!.
Qed.
Lemma keeps_order_update K now id p f :
  (∀ db o, inv db -> K db -> pd_orders db !! id = Some o -> p o = true ->
     po_terms (f o) = po_terms o /\ (settled (f o) = true -> fulfilled (po_terms o) db)) ->
  keeps K (order_update now id p f) (λ _ _, True).
Proof.
  intros H db n db' Hi Hk Hm. destruct (keeps_order_update_knows K (λ _, True) now id p f) with (5 := Hm) as (? & ? & _); [apply _| |done..].
  intros db0 o Hi0 Hk0 Ho Hp. by destruct (H db0 o Hi0 Hk0 Ho Hp).
Qed.
Lemma keeps_order_update_one K now id f :
  (∀ db o, inv db -> K db -> pd_orders db !! id = Some o ->
     po_terms (f o) = po_terms o /\ (settled (f o) = true -> fulfilled (po_terms o) db)) ->
  keeps K (order_update_one now id f) (λ _ _, True).
Proof.
  intros H db u db' Hi Hk Hm. unfold order_update_one, mbind_ in Hm.
  destruct (order_update now id any_order f db) as [[n|e] db1] eqn:E; [|done].
  assert (db1 = db') as -> by (destruct (n =? 0); [done|by injection Hm]).
  by apply (keeps_order_update K now id any_order f) in E; [|intros; by apply H|..].
Qed.

Lemma keeps_order_Create K nanos row :
  (∀ id code, po_ID (row id code) = id /\ po_RechargeCode (row id code) = code /\ settled (row id code) = false) ->
  keeps K (order_Create nanos row) found.
Proof.
  intros Hrow db o db' Hi _ H. unfold order_Create in H. destruct (_ && _); [done|]. injection H as <- <-.
  set (id := pd_next_order db) in *. set (o := row id _). destruct (Hrow id (recharge_code id nanos)) as (Hid & Hc & Hs). fold o in Hid, Hc, Hs.
  assert (pd_orders db !! id = None) as Hnone.
  { destruct (pd_orders db !! id) eqn:E; [|done]. destruct (inv_orders _ Hi _ _ E) as (_ & ? & _). lia. }
  pose proof (inv_next _ Hi). split_and!.
  - destruct Hi. split; try done; cbn -[o].
    + intros id' r. destruct (decide (id' = id)) as [->|Hne].
      * rewrite lookup_insert_eq. intros [= <-]. split_and!; [done|lia..|by exists nanos].
      * rewrite lookup_insert_ne by done. intros Hr. destruct (inv_orders0 _ _ Hr) as (? & ? & ?). split_and!; [done|lia..|done].
    + lia.
    + intros id' c oid n Hc' Hoid Hn. destruct (inv_owned0 id' c oid n Hc' Hoid Hn) as (r & Hr & Hrest).
      exists r. split; [|done]. rewrite lookup_insert_ne; [done|congruence].
    + intros id' r. destruct (decide (id' = id)) as [->|Hne].
      * rewrite lookup_insert_eq. intros [= <-]. congruence.
      * rewrite lookup_insert_ne by done. apply inv_settled0.
  - split; [cbn; lia| |intros id' c Hc'; by exists c|by exists []; rewrite app_nil_r].
    intros id' r Hr. exists r. split; [|done]. cbn -[o]. rewrite lookup_insert_ne; [done|congruence].
  - split; [|congruence]. exists o. split; [|done]. cbn -[o]. by rewrite Hid, lookup_insert_eq.
Qed.

(** *** Codes *)

Lemma code_named_None code t id c : code_named code t = None -> ct_rows t !! id = Some c -> rc_Code c <> code.
Proof.
  intros H Hc E. unfold code_named in H. apply (List.find_none _ _) with (x := c) in H.
  - unfold named in H. by rewrite E, String.eqb_refl in H.
  - apply list_elem_of_In, list_elem_of_fmap. exists (id, c). split; [done|]. by apply elem_of_map_to_list.
Qed.
(** A code that may be created: it is not used, and named like a recharge code
    only for the order and its amount. *)
Definition proper_code (c : RedeemCode) (db : PaymentDB) : Prop :=
  ∀ oid n, 0 <= oid -> rc_Code c = recharge_code oid n ->
    ∃ o, pd_orders db !! oid = Some o /\ po_RechargeCode o = rc_Code c /\ is_balance c = true /\ rc_Value c = po_Amount o.
Lemma keeps_code_Create K now c :
  IsUsed c = false -> (∀ db, inv db -> K db -> proper_code c db) -> keeps K (on_codes (code_Create now c)) (λ _ _, True).
Proof.
  intros Hu Hp db r db' Hi Hk H. unfold on_codes, code_Create in H. destruct (code_named (rc_Code c) (pd_codes db)) eqn:Hn; [done|].
  injection H as _ <-. specialize (Hp db Hi Hk). set (id := ct_next (pd_codes db)). set (row := stored_code id now c).
  assert (ct_rows (pd_codes db) !! id = None) as Hnone.
  { destruct (ct_rows (pd_codes db) !! id) eqn:E; [|done]. destruct (inv_ids _ Hi _ _ E). lia. }
  set (db' := set_codes _ _). assert (∀ id' c', code_at id' c' db' -> id' = id /\ c' = row \/ id' <> id /\ code_at id' c' db) as Hat.
  { intros id' c'. unfold code_at. cbn. destruct (decide (id' = id)) as [->|Hne]; [rewrite lookup_insert_eq; intros [= <-]; by left|].
    rewrite lookup_insert_ne by done. by right. }
  assert (ext db db') as He.
  { split; [done|by eauto| |by exists []; rewrite app_nil_r]. intros id' c' Hc'. exists c'. split; [|done].
    unfold code_at. cbn. rewrite lookup_insert_ne; [done|]. unfold code_at in Hc'. congruence. }
  split_and!; [|done..]. destruct Hi as [I1 I2 I3 I4 I5 I6 I7 I8 I9 I10 I11 I12]. split; try done.
  - intros id' c' [[-> ->]|[_ Hc']]%Hat; [split; [done|cbn; lia]|]. destruct (I1 _ _ Hc'). split; [done|cbn; lia].
  - intros id1 id2 c1 c2 [[-> ->]|[_ H1]]%Hat [[-> ->]|[_ H2]]%Hat E; [done|..|by eapply I2].
    + by destruct (code_named_None _ _ _ _ Hn H2).
    + by destruct (code_named_None _ _ _ _ Hn H1).
  - intros id'. specialize (I3 id'). unfold code_state in *. cbn. destruct (decide (id' = id)) as [->|Hne].
    + rewrite lookup_insert_eq. rewrite Hnone in I3. unfold IsUsed in *. cbn. by rewrite Hu.
    + by rewrite lookup_insert_ne.
  - intros id' c' oid n [[-> ->]|[_ Hc']]%Hat Ho Hr; [|by eapply I6]. destruct (Hp oid n Ho Hr) as (o & H1 & H2 & H3 & H4).
    exists o. split_and!; [done..|]. cbn. by rewrite H4.
  - intros id' o Ho Hs. eapply (fulfilled_stable _ _ _ He). by eapply I7.
Qed.

(** *** A redemption *)

Lemma wrapped_Ok {A} msg (m : M PaymentDB A) db a db' : wrapped msg m db = (Ok a, db') -> m db = (Ok a, db').
Proof. unfold wrapped, mtry. by destruct (m db) as [[x|e] d]. Qed.
(** What it does to the tables the invariant looks at. *)
Lemma grant_frame s db_add now u c db db' :
  (if is_balance c then grant_balance s u c else
   if String.eqb (rc_Type c) RedeemTypeConcurrency then grant_concurrency s u c else
   if String.eqb (rc_Type c) RedeemTypeSubscription then assignSubscriptionFromRedeemCode db_add s now u c else
   mfail (unsupportedRedeemTypeError (rc_Type c))) db = (Ok tt, db') ->
  pd_orders db' = pd_orders db /\ pd_next_order db' = pd_next_order db /\ pd_audit db' = pd_audit db /\ pd_codes db' = pd_codes db /\
  fd_ledger (pd_funds db') = fd_ledger (pd_funds db) /\
  pd_history db' = pd_history db ++ (if is_balance c then [Credited (rc_ID c) u (units (rc_Value c))] else []).
Proof.
  assert (∀ (m : M FundsDB unit), (∀ f r f', m f = (r, f') -> fd_ledger f' = fd_ledger f) -> ∀ db r db', on_funds m db = (r, db') ->
    pd_orders db' = pd_orders db /\ pd_next_order db' = pd_next_order db /\ pd_audit db' = pd_audit db /\ pd_codes db' = pd_codes db /\
    fd_ledger (pd_funds db') = fd_ledger (pd_funds db) /\ pd_history db' = pd_history db) as Hf.
  { intros m Hm d r d' H. unfold on_funds in H. destruct (m (pd_funds d)) as [r' f'] eqn:E. injection H as <- <-. cbn.
    by rewrite (Hm _ _ _ E). }
  assert (∀ (id : Z) (g : UserRow -> UserRow) f (r : result unit) f', update_user id g f = (r, f') -> fd_ledger f' = fd_ledger f) as Hup.
  { intros id g f r f'. unfold update_user. by destruct (fd_users f !! id); intros [= _ <-]. }
  assert (∀ (id : Z) (g : UserRow -> UserRow) f (r : result unit) f', update_live_user id g f = (r, f') -> fd_ledger f' = fd_ledger f) as Hlive.
  { intros id g f r f'. unfold update_live_user. destruct (fd_users f !! id) as [x|]; [destruct (usr_deleted x)|]; by intros [= _ <-]. }
  destruct (is_balance c); [|destruct (String.eqb _ _); [|destruct (String.eqb _ _)]]; intros H.
  - unfold grant_balance, mbind_ in H.
    match type of H with (let (_, _) := ?m in _) = _ => destruct m as [[x|e] db1] eqn:E end; [|done]. injection H as <-. cbn.
    assert (pd_orders db1 = pd_orders db /\ pd_next_order db1 = pd_next_order db /\ pd_audit db1 = pd_audit db /\
            pd_codes db1 = pd_codes db /\ fd_ledger (pd_funds db1) = fd_ledger (pd_funds db) /\ pd_history db1 = pd_history db) as Hd.
    { destruct (fltb _ _); [destruct (rd_redeemUserRepo s); [|done]|]; apply wrapped_Ok in E; (eapply Hf; [|exact E]); intros f r f'; [apply Hlive|apply Hup]. }
    destruct Hd as (? & ? & ? & ? & ? & ->). by split_and!.
  - rewrite app_nil_r. unfold grant_concurrency in H. destruct (_ <? 0); [destruct (rd_redeemUserRepo s); [|done]|];
      apply wrapped_Ok in H; (eapply Hf; [|exact H]); intros f r f'; [apply Hlive|apply Hup].
  - rewrite app_nil_r. unfold assignSubscriptionFromRedeemCode in H. destruct (negb _); [done|].
    unfold mbind_, mlift in H. destruct (subscriptionFromRedeemCode _ _ _ _) as [sub|]; [|done].
    unfold mtry, on_subs in H. destruct (repo_Create _ _ _) as [[x|e] t]; [|done]. by injection H as <-.
  - done.
Qed.
Lemma set_code_used_IsUsed now u c : IsUsed (set_code_used now u c) = true.
Proof. done. Qed.
Lemma keeps_redeem_tx K s db_add now u c : (∀ db, inv db -> K db -> known_code c db) ->
  keeps K (redeem_tx db_add s now u c) (λ db _, code_used (rc_Code c) db).
Proof.
  intros Hkn db [] db' Hi Hk H. destruct (Hkn db Hi Hk) as (row & Hrow & Hcode & Htype & Hval & _).
  unfold redeem_tx, mbind_, mtry in H. unfold on_codes, code_Use in H. unfold code_at in Hrow. rewrite Hrow in H.
  destruct (String.eqb (rc_Status row) StatusUnused) eqn:Hun; [|done].
  apply grant_frame in H as (Ho & Hn & Ha & Hc & Hl & Hh). cbn in Ho, Hn, Ha, Hc, Hl, Hh. set (used := set_code_used now u row) in *.
  assert (is_balance c = is_balance row) as Hb by (unfold is_balance; congruence). rewrite Hb in Hh.
  assert (IsUsed row = false) as Hnot. { unfold IsUsed. apply String.eqb_eq in Hun. by rewrite Hun. }
  set (id := rc_ID c) in *.
  assert (∀ id' c', code_at id' c' db' <-> (id' = id /\ c' = used) \/ (id' <> id /\ code_at id' c' db)) as Hat.
  { intros id' c'. unfold code_at. rewrite Hc. cbn. destruct (decide (id' = id)) as [->|Hne].
    - rewrite lookup_insert_eq. split; [intros [= <-]; by left|]. by intros [[_ ->]|[? _]].
    - rewrite lookup_insert_ne by done. split; [by right|]. by intros [[? _]|[_ ?]]. }
  assert (ext db db') as He.
  { split; [by rewrite Hn|rewrite Ho; eauto| |by eexists].
    intros id' c' Hc'. destruct (decide (id' = id)) as [->|Hne].
    - exists used. split; [apply Hat; by left|]. unfold code_at in Hc'. rewrite Hrow in Hc'. injection Hc' as <-. by repeat split.
    - exists c'. split; [apply Hat; by right|done]. }
  assert (∀ oid, assignments oid (pd_history db') = assignments oid (pd_history db)) as Has.
  { intros oid. rewrite Hh, assignments_app. destruct (is_balance row); by rewrite app_nil_r. }
  split_and!; [|done|].
  - destruct Hi as [I1 I2 I3 I4 I5 I6 I7 I8 I9 I10 I11 I12].
    split; unfold assigned, logged in *; (try setoid_rewrite Has); rewrite ?Ho, ?Hn, ?Ha, ?Hl; try done.
    + intros id' c' [[-> ->]|[_ Hc']]%Hat; rewrite Hc; cbn; [by apply I1|]. by apply (I1 _ c').
    + intros id1 id2 c1 c2 [[-> ->]|[N1 H1]]%Hat [[-> ->]|[N2 H2]]%Hat E; [done|..|by eapply I2].
      * by destruct N2; apply (I2 _ _ _ _ H2 Hrow).
      * by destruct N1; apply (I2 _ _ _ _ H1 Hrow).
    + intros id'. specialize (I3 id'). unfold code_state in *. rewrite Hc, Hh, credits_app. cbn -[used].
      destruct (decide (id' = id)) as [->|Hne].
      * rewrite lookup_insert_eq. rewrite Hrow, Hnot in I3. cbn in I3. rewrite I3.
        unfold used. rewrite set_code_used_IsUsed. change (is_balance (set_code_used now u row)) with (is_balance row).
        destruct (is_balance row); [|done]. exists u. cbn. rewrite Z.eqb_refl. by rewrite Hval.
      * rewrite lookup_insert_ne by done. assert (credits id' (if is_balance row then [Credited id u (units (rc_Value c))] else []) = []) as ->.
        { destruct (is_balance row); [|done]. cbn. assert ((id =? id') = false) as -> by (apply Z.eqb_neq; congruence). done. }
        by rewrite app_nil_r.
    + intros id' c' oid n [[-> ->]|[_ Hc']]%Hat; [by apply (I6 id row)|by apply (I6 id' c')].
    + intros id' o Hid Hs. eapply (fulfilled_stable _ _ _ He). by eapply I7.
  - exists id, used. split_and!; [apply Hat; by left|by rewrite <- Hcode|done].
Qed.

(** *** The assignment of a subscription *)

Lemma assign_sub_frame db_add now input db r db' : assign_sub db_add now input db = (r, db') -> ∃ t, db' = set_subs_table t db.
Proof. unfold assign_sub, on_subs. destruct (assignSubscriptionFromPlan _ _ _ _ _ _ _ _ _ _) as [r' t]. intros [= _ <-]. by exists t. Qed.
Lemma keeps_assign_tx K db_add now log o planID days :
  keeps K (assign_tx db_add now log o planID days) (λ db _, assigned (po_ID o) db).
Proof.
  intros db sub db' Hi _ H. unfold assign_tx, wrapped, mbind_, mtry in H.
  destruct (assign_sub db_add now _ db) as [[row|e] db1] eqn:E; [|done]. apply assign_sub_frame in E as [t ->].
  unfold mret, audit_Create in H. cbn [pd_audit set_subs_table] in H.
  destruct (pd_audit db !! (po_ID o, "SUBSCRIPTION_ASSIGNED"%string)) eqn:Ha; [done|]. injection H as <- <-.
  set (oid := po_ID o) in *. set (sub := us_ID row).
  assert (assignments oid (pd_history db) = []) as Hnone.
  { destruct (assignments oid (pd_history db)) eqn:E; [done|]. exfalso.
    assert (assigned oid db) as Hl%(inv_assigned_logged _ Hi) by (unfold assigned; by rewrite E). destruct Hl as [x Hx]. congruence. }
  assert (∀ oid', assignments oid' (pd_history db ++ [Assigned oid sub]) = if decide (oid' = oid) then [sub] else assignments oid' (pd_history db)) as Has.
  { intros oid'. rewrite assignments_app. cbn. case_decide as E; [subst; rewrite Hnone, Z.eqb_refl; done|].
    assert ((oid =? oid') = false) as -> by (apply Z.eqb_neq; congruence). by rewrite app_nil_r. }
  set (db' := mk_db _ _ _ _ _ _ _ _ _). assert (pd_history db' = pd_history db ++ [Assigned oid sub]) as Hh by done.
  assert (ext db db') as He.
  { split; [done|by eauto|intros id c Hc; by exists c|by exists [Assigned oid sub]]. }
  assert (∀ oid' action, logged oid' action db' <-> (oid, "SUBSCRIPTION_ASSIGNED"%string) = (oid', action) \/ logged oid' action db) as Hlog.
  { intros. unfold logged. cbn. by rewrite lookup_insert_is_Some'. }
  split_and!; [|done|].
  - destruct Hi as [I1 I2 I3 I4 I5 I6 I7 I8 I9 I10 I11 I12]. split; try done.
    + intros id. specialize (I3 id). unfold code_state in *. rewrite Hh, credits_app, app_nil_r. exact I3.
    + intros id r Hr Hs. eapply (fulfilled_stable _ _ _ He). by eapply I7.
    + intros oid'. rewrite Hh, Has. case_decide; [unfold at_most_one; cbn; lia|apply I8].
    + intros oid'. unfold assigned. rewrite Hh, Has. intros Hne. apply Hlog. case_decide; [subst; by left|right; by apply I9].
    + intros oid' action Hin [[= <- <-]|Hl]%Hlog; unfold assigned; rewrite Hh, Has; case_decide; try done. by eapply I10.
    + intros oid' Hr. apply Hlog. right. by apply I12.
  - unfold assigned. rewrite Hh, Has. by case_decide.
Qed.

(** *** Rebates *)

Lemma rebate_rows_app oid l l' : rebate_rows oid (l ++ l') = rebate_rows oid l ++ rebate_rows oid l'.
Proof. apply filterb_app. Qed.
Lemma accrual_rows order u l l' r oid : accrual_effect order u l l' r ->
  rebate_rows oid l' = rebate_rows oid l \/ order = Some oid /\ fleb r f0 = false /\ ∃ row, rebate_rows oid l' = rebate_rows oid l ++ [row].
Proof.
  intros [[_ ->]|(Hr & row & -> & Hs & _)]; [by left|]. rewrite rebate_rows_app. unfold rebate_rows at 2 4. cbn. rewrite Hs.
  destruct order as [o|]; [|left; by rewrite app_nil_r]. destruct (o =? oid) eqn:E; [|left; by rewrite app_nil_r].
  apply Z.eqb_eq in E as ->. right. split_and!; [done..|by exists row].
Qed.
Context (Hlaws : money_laws).
Lemma keeps_accrue_no_order K parse st codes now u amount : keeps K (on_funds (AccrueInviteRebate parse st codes now u amount)) (λ _ _, True).
Proof.
  apply keeps_on_funds. intros f a f' H oid. unfold AccrueInviteRebate in H. apply (accrue_spec Hlaws) in H as (_ & _ & _ & H).
  by destruct (accrual_rows _ _ _ _ _ oid H) as [Hr|(Hr & _)].
Qed.
Lemma audit_exists_false oid actions db a : audit_exists oid actions db = false -> a ∈ actions -> pd_audit db !! (oid, a) = None.
Proof.
  unfold audit_exists. intros H Hin%list_elem_of_In. destruct (pd_audit db !! (oid, a)) eqn:E; [|done].
  assert (existsb (λ a, is_Some_b (pd_audit db !! (oid, a))) actions = true) by (apply existsb_exists; exists a; by rewrite E). congruence.
Qed.
Abbreviation applied := "AFFILIATE_REBATE_APPLIED"%string.
Abbreviation skipped := "AFFILIATE_REBATE_SKIPPED"%string.
Lemma claim_spec now oid base db b db' : tryClaimAffiliateRebateAudit now oid base db = (Ok b, db') ->
  b = false /\ db' = db \/
  b = true /\ pd_audit db !! (oid, applied) = None /\ pd_audit db !! (oid, skipped) = None /\
  ∃ a, db' = set_audit (<[(oid, applied) := a]> (pd_audit db)) db.
Proof.
  unfold tryClaimAffiliateRebateAudit, mtry, audit_Create. destruct (audit_exists oid _ db) eqn:Hex.
  { intros [= <- <-]. by left. }
  assert (pd_audit db !! (oid, applied) = None) as Happ by (eapply audit_exists_false; [done|by left]).
  assert (pd_audit db !! (oid, skipped) = None) as Hskip by (eapply audit_exists_false; [done|by right; left]).
  rewrite Happ. cbn. intros [= <- <-]. right. by eauto 8.
Qed.
Lemma update_claim_spec oid action d db u db' : updateClaimedAffiliateRebateAudit oid action d db = (Ok u, db') ->
  ∃ a, db' = set_audit (<[(oid, action) := a]> (delete (oid, applied) (pd_audit db))) db.
Proof.
  unfold updateClaimedAffiliateRebateAudit. destruct (pd_audit db !! _); [|done].
  destruct (delete _ _ !! _); [done|]. intros [= _ <-]. by eexists.
Qed.
(** What it leaves: the accrual, and the claim under its name. *)
Lemma rebate_tx_spec s st codes now o base db u db' : rebate_tx s st codes now o base db = (Ok u, db') ->
  db' = db \/
  pd_audit db !! (po_ID o, applied) = None /\
  ∃ amount f audit,
    accrual_effect (Some (po_ID o)) (po_UserID o) (fd_ledger (pd_funds db)) (fd_ledger f) amount /\ db' = set_funds f (set_audit audit db) /\
    (∀ oid' a, a ∉ [applied; skipped] \/ oid' <> po_ID o -> audit !! (oid', a) = pd_audit db !! (oid', a)) /\
    (fleb amount f0 = false -> is_Some (audit !! (po_ID o, applied))).
Proof.
  unfold rebate_tx. intros (claimed & db1 & E%wrapped_Ok%claim_spec & H)%mbind_Ok.
  destruct E as [[-> ->]|(-> & Happ & Hskip & a0 & ->)]; [injection H as _ <-; by left|]. right. split; [done|].
  cbn [negb] in H. apply mbind_Ok in H as (amount & db2 & Hacc%wrapped_Ok & H). unfold on_funds in Hacc. cbn [pd_funds set_audit] in Hacc.
  destruct (AccrueInviteRebateForOrder _ _ _ _ _ _ _ _ (pd_funds db)) as [r f] eqn:E. injection Hacc as -> <-.
  apply (accrue_spec Hlaws) in E as (_ & _ & _ & Hacc). exists amount, f.
  assert (∃ action a, action ∈ [applied; skipped] /\ (fleb amount f0 = false -> action = applied) /\
            db' = set_funds f (set_audit (<[(po_ID o, action) := a]> (pd_audit db)) db)) as (action & a & Hin & Hz & ->).
  { destruct (fleb amount f0); apply wrapped_Ok, update_claim_spec in H as [a ->]; cbn [pd_audit set_funds set_audit];
      rewrite delete_insert_eq, (delete_id _ _ Happ); (eexists _, a; split; [|split; [|reflexivity]]); [by right; left|done|by left|done]. }
  eexists. split; [exact Hacc|]. split; [reflexivity|]. split.
  - intros oid' b Hb. apply lookup_insert_ne. intros [= <- <-]. by destruct Hb.
  - intros Hf. rewrite (Hz Hf), lookup_insert_eq. by eexists.
Qed.
Lemma keeps_rebate_tx K s st codes now o base : keeps K (rebate_tx s st codes now o base) (λ _ _, True).
Proof.
  intros db [] db' Hi _ [->|(Happ & amount & f & audit & Hacc & -> & Hother & Happlied)]%rebate_tx_spec.
  { split_and!; [done|reflexivity|done]. }
  set (oid := po_ID o) in *.
  assert (rebate_rows oid (fd_ledger (pd_funds db)) = []) as Hnone.
  { destruct (rebate_rows oid _) eqn:E; [done|]. exfalso.
    assert (rebate_rows oid (fd_ledger (pd_funds db)) <> []) as [x Hx]%(inv_rebates_logged _ Hi) by (by rewrite E). congruence. }
  assert (∀ oid' a, a ∉ [applied; skipped] ->
            logged oid' a (set_funds f (set_audit audit db)) <-> logged oid' a db) as Hlog.
  { intros oid' a Ha. unfold logged. cbn. rewrite Hother; [done|by left]. }
  split_and!; [|split; [done|by eauto|intros id c Hc; by exists c|by exists []; rewrite app_nil_r]|done].
  destruct Hi as [I1 I2 I3 I4 I5 I6 I7 I8 I9 I10 I11 I12]. split; try done.
  - intros oid' Ha. apply Hlog; [set_solver|]. by apply I9.
  - intros oid' a Hin Hl. apply (I10 oid' a Hin). apply Hlog; [|done]. unfold assignment_actions in Hin. set_solver.
  - intros oid'. cbn. destruct (accrual_rows _ _ _ _ _ oid' Hacc) as [->|([= <-] & _ & row & ->)]; [apply I11|].
    fold oid. rewrite Hnone. unfold at_most_one. cbn. lia.
  - intros oid'. cbn. unfold logged. cbn. destruct (decide (oid' = oid)) as [->|Hne].
    + destruct (accrual_rows _ _ _ _ _ oid Hacc) as [->|(_ & Hz & _)]; [by rewrite Hnone|]. intros _. by apply Happlied.
    + rewrite Hother by (by right). destruct (accrual_rows _ _ _ _ _ oid' Hacc) as [->|([= <-] & _)]; [|by destruct Hne]. apply I12.
Qed.

End Invariant.
