(* ===== verification/PaymentProps.v ===== *)
(** * Every interleaving of payments

    Each entry point of the payment service, run against every interleaving
    with the others and every answer of what it calls, keeps the invariant of
    [PaymentInvariant]: an order is credited once, a subscription assigned
    once, a rebate accrued once, and an order is not completed or refunded
    before it has been fulfilled. *)

From Stdlib Require Import Floats.SpecFloat.
From stdpp Require Import pretty.
From S2P Require Import Prelude GoErrors Prog Float64 GoTime GoStrings GoText Subscription SubscriptionRepo SubscriptionService Account PaymentAmounts Affiliate AffiliateProps RedeemCodes PaymentStore RedeemService Payments PaymentRefunds PaymentCreate PaymentInvariant.

Section Programs.
Context {UC : UnicodeCase} {NC : NumericColumn} {D : ShopspringDecimal} (db_add : float64 -> float64 -> float64) (s : PaymentDeps)
  (Hlaws : money_laws).
Local Abbreviation triple := (Prog.triple performs inv ext).
Local Abbreviation quiet p := (∀ K, Stable ext K -> triple K p (λ _ _, True)).

Lemma triple_known {A} K (m : M PaymentDB A) R :
  Stable ext K -> keeps K m R -> (∀ a, Stable ext (λ db, R db a)) -> triple K (exec_ m) (done_with R).
Proof. intros. by apply triple_exec. Qed.
Lemma triple_now K : Stable ext K -> triple K now_ (λ _ _, True).
Proof. intros. by apply triple_outside. Qed.
Lemma triple_any {A} K (p : pay A) R : triple K p R -> triple K p (λ _ _, True).
Proof. intros H w Hi Hk. eapply safe_mono; [apply _|by apply H|done]. Qed.

Lemma bind_quietly {A B} K (p : pay A) (f : A -> pay B) R Q :
  Stable ext K -> triple K p R -> (∀ a, triple (λ w, K w /\ R w a) (f a) Q) -> triple K (pbind p f) Q.
Proof. apply triple_bind, _. Qed.

Lemma on_funds_read {A} (m : M FundsDB A) : (∀ f, (m f).2 = f) -> ∀ db, (on_funds m db).2 = db.
Proof. intros H []. unfold on_funds. cbn. specialize (H pd_funds). destruct (m pd_funds). cbn in *. by subst. Qed.
Lemma on_codes_read {A} (m : M CodeTable A) : (∀ f, (m f).2 = f) -> ∀ db, (on_codes m db).2 = db.
Proof. intros H []. unfold on_codes. cbn. specialize (H pd_codes). destruct (m pd_codes). cbn in *. by subst. Qed.
Lemma on_subs_read {A} (m : M Table A) : (∀ f, (m f).2 = f) -> ∀ db, (on_subs m db).2 = db.
Proof. intros H []. unfold on_subs. cbn. specialize (H pd_subs). destruct (m pd_subs). cbn in *. by subst. Qed.

(** One step of a program. *)
Tactic Notation "knows" tactic3(t) :=
  try lazymatch goal with |- Prog.triple _ _ _ _ _ (λ _ _, True) => eapply triple_any end;
  eapply triple_known; [apply _|t|intros ?; unfold found; apply _].
Ltac reads := knows (apply keeps_read); first [apply on_funds_read | apply on_codes_read | apply on_subs_read | idtac];
  intros []; repeat first [progress unfold audit_count, audit_First, plan_Get, instance_Get, instances_where, cancellations_since,
    orders_where, code_GetByID, user_by_id, mret, mfail | case_match]; try done.
Ltac step :=
  lazymatch goal with
  | |- Prog.triple _ _ _ _ (Ret _) _ => apply triple_ret; [apply _|by auto]
  | |- Prog.triple _ _ _ _ (pbind (if _ then _ else _) _) _ => eapply (bind_quietly _ _ _ (λ _ _, True)); [apply _| |intros ?; cbv beta]
  | |- Prog.triple _ _ _ _ (pbind (match _ with _ => _ end) _) _ => eapply (bind_quietly _ _ _ (λ _ _, True)); [apply _| |intros ?; cbv beta]
  | |- Prog.triple _ _ _ _ (pbind _ _) _ => eapply bind_quietly; [apply _| |intros ?; cbv beta]
  | |- Prog.triple _ _ _ _ (attempt _ _ _) _ => unfold attempt
  | |- Prog.triple _ _ _ _ now_ _ => apply triple_now; apply _
  | |- Prog.triple _ _ _ _ (call _) _ => apply triple_outside; [done|apply _]
  | |- Prog.triple _ _ _ _ (if ?b then _ else _) _ => destruct b eqn:?
  | |- Prog.triple _ _ _ _ (match ?x with _ => _ end) _ => destruct x eqn:?
  | |- Prog.triple _ _ _ _ (let _ := _ in _) _ => cbv zeta
  | |- Prog.triple _ _ _ _ (exec_ _) _ => solve [reads | eauto with pay]
  | |- Prog.triple _ _ _ _ _ _ => first [solve [eauto with pay] | eapply triple_any; solve [eauto with pay]]
  end.
Ltac walk := repeat step.

Create HintDb pay.
#[local] Hint Extern 1 (Stable _ _) => apply _ : pay.
#[local] Hint Extern 1 (bool_decide _ = false) => reflexivity : pay.

(** ** Statements *)

Lemma audit_written K oid action op d : Stable ext K ->
  (∀ db, inv db -> K db -> action ∈ assignment_actions -> assigned oid db) -> triple K (writeAuditLog oid action op d) (λ _ _, True).
Proof.
  intros HK Ha. unfold writeAuditLog. step; [step|]. step; [knows (apply keeps_audit_Create)|step].
  intros db Hi [Hk _]. by apply Ha.
Qed.
Lemma audit_quiet oid action op d : bool_decide (action ∈ assignment_actions) = false -> quiet (writeAuditLog oid action op d).
Proof. intros Hb K HK. apply audit_written; [done|]. intros db _ _ Hin. by apply bool_decide_eq_false in Hb. Qed.
Lemma hasAuditLog_quiet oid action : quiet (hasAuditLog oid action).
Proof. intros K HK. unfold hasAuditLog. step; [reads|walk]. Qed.
Lemma get_order_knows K oid : Stable ext K -> triple K (get_order oid) (done_with (λ db o, po_ID o = oid /\ found db o)).
Proof. intros HK. apply triple_known; [done|apply keeps_order_Get|unfold found; apply _]. Qed.
#[local] Hint Resolve audit_quiet hasAuditLog_quiet get_order_knows : pay.

(** An update that settles no order. *)
Lemma update_order_plain oid p f :
  (∀ o, po_terms (f o) = po_terms o /\ (settled (f o) = true -> settled o = true)) -> quiet (update_order oid p f).
Proof.
  intros Hf K HK. unfold update_order. step; [step|]. knows (apply keeps_order_update).
  intros db o Hi _ Ho _. destruct (Hf o) as [Ht Hs]. split; [done|]. intros H. by apply (inv_settled _ Hi oid); auto.
Qed.
Lemma update_order_one_plain oid f :
  (∀ o, po_terms (f o) = po_terms o /\ (settled (f o) = true -> settled o = true)) -> quiet (update_order_one oid f).
Proof.
  intros Hf K HK. unfold update_order_one. step; [step|]. knows (apply keeps_order_update_one).
  intros db o Hi _ Ho. destruct (Hf o) as [Ht Hs]. split; [done|]. intros H. by apply (inv_settled _ Hi oid); auto.
Qed.
(** An update of an order that has been fulfilled. *)
Lemma row_fulfilled db oid o : order_fulfilled oid db -> pd_orders db !! oid = Some o -> fulfilled (po_terms o) db.
Proof. intros (o' & Ho' & Hf) Ho. rewrite Ho in Ho'. by injection Ho' as <-. Qed.
Lemma update_order_one_settles K oid f :
  Stable ext K -> (∀ db, inv db -> K db -> order_fulfilled oid db) -> (∀ o, po_terms (f o) = po_terms o) ->
  triple K (update_order_one oid f) (λ _ _, True).
Proof.
  intros HK Hk Hf. unfold update_order_one. step; [step|]. knows (apply keeps_order_update_one).
  intros db o Hi [Hd _] Ho. split; [done|]. intros _. eapply row_fulfilled; eauto.
Qed.
Ltac settles_none := let row := fresh in intros row; split; [reflexivity|first [done|by destruct row]].
#[local] Hint Extern 2 (Prog.triple _ _ _ _ (update_order _ _ _) _) => apply update_order_plain; [settles_none|apply _] : pay.
#[local] Hint Extern 2 (Prog.triple _ _ _ _ (update_order_one _ _) _) => apply update_order_one_plain; [settles_none|apply _] : pay.

(** ** Providers *)

Lemma snapshot_instance_quiet o snap : quiet (resolveSnapshotOrderProviderInstance o snap).
Proof. intros K HK. unfold resolveSnapshotOrderProviderInstance. walk. Qed.
Lemma legacy_instance_quiet o : quiet (resolveUniqueLegacyOrderProviderInstance o).
Proof. intros K HK. unfold resolveUniqueLegacyOrderProviderInstance. cbv zeta. walk. Qed.
#[local] Hint Resolve snapshot_instance_quiet legacy_instance_quiet : pay.
Lemma order_instance_quiet o : quiet (getOrderProviderInstance o).
Proof. intros K HK. unfold getOrderProviderInstance. walk. Qed.
Lemma refund_instance_quiet o : quiet (getRefundOrderProviderInstance o).
Proof. intros K HK. unfold getRefundOrderProviderInstance. walk. Qed.
#[local] Hint Resolve order_instance_quiet refund_instance_quiet : pay.
Lemma fallback_quiet key : quiet (webhookRegistryFallbackAllowed key).
Proof. intros K HK. unfold webhookRegistryFallbackAllowed. walk. Qed.
#[local] Hint Resolve fallback_quiet : pay.
Lemma order_provider_quiet o : quiet (getOrderProvider o).
Proof. intros K HK. unfold getOrderProvider, createProviderFromInstance. walk. Qed.
Lemma refund_provider_quiet o : quiet (getRefundProvider o).
Proof. intros K HK. unfold getRefundProvider, createProviderFromInstance. walk. Qed.
#[local] Hint Resolve order_provider_quiet refund_provider_quiet : pay.

(** ** Redeeming *)

Lemma hydrate_quiet code K : Stable ext K ->
  triple K (hydrateSubscriptionRedeemCode code)
    (λ _ r, match r with
            | Ok c => rc_Code c = rc_Code code /\ rc_Status c = rc_Status code /\ (rc_SubscriptionPlanID code = None -> c = code)
            | Err _ => True end).
Proof.
  intros HK. unfold hydrateSubscriptionRedeemCode. destruct (rc_SubscriptionPlanID code) as [planID|] eqn:Hp; [|step].
  step; [step|]. step; [step|]. step; [step|]. apply triple_ret; [apply _|]. intros _ _ _.
  destruct a as [plan|e]; [|by destruct (IsNotFound e)]. unfold applySubscriptionPlanToRedeemCode.
  by destruct (_ || _).
Qed.
(** A code whose name is no recharge code, or that is the code of its order. *)
Lemma CreateCode_quiet K code : Stable ext K ->
  rc_Status code = ""%string \/ rc_Status code = StatusUnused ->
  (∀ oid n, 0 <= oid -> TrimSpace (rc_Code code) <> recharge_code oid n) \/
  (rc_SubscriptionPlanID code = None /\ rc_Type code <> ""%string /\
   ∀ db, inv db -> K db -> ∀ c, rc_Code c = TrimSpace (rc_Code code) -> rc_Type c = rc_Type code -> rc_Value c = rc_Value code -> proper_code c db) ->
  triple K (CreateCode code) (λ _ _, True).
Proof.
  intros HK Hst Hnm. unfold CreateCode. cbv zeta. destruct (str_empty (TrimSpace _)); [step|]. destruct (_ && _); [step|]. destruct (_ && _); [step|].
  set (c := with_code_type _ _ _ _). assert (rc_Status c = StatusUnused) as Hc.
  { unfold c. cbn. destruct Hst as [->| ->]; done. }
  step; [step|]. step; [step|]. step; [apply hydrate_quiet; apply _|]. destruct a0 as [c'|e]; [|step].
  apply (triple_pure _ _ _ (rc_Code c' = rc_Code c /\ rc_Status c' = rc_Status c /\ (rc_SubscriptionPlanID c = None -> c' = c))).
  { by intros w _ [_ H]. }
  intros (Hn & Hs & Hsame). step; [step|]. step; [knows (apply keeps_code_Create)|step].
  - unfold IsUsed. by rewrite Hs, Hc.
  - intros db Hi [[[Hk _] _] _]. destruct Hnm as [Hno|(Hp & Ht & Hown)].
    + intros oid n Ho E. destruct (Hno oid n Ho). by rewrite <- E, Hn.
    + rewrite (Hsame Hp). apply (Hown db Hi Hk); [done| |done]. cbn. by rewrite (proj2 (str_empty_false _) Ht).
Qed.

Lemma accrue_quiet skip u amount : quiet (tryAccrueAffiliateRebateForRedeem (pm_redeem s) skip u amount).
Proof.
  intros K HK. unfold tryAccrueAffiliateRebateForRedeem. step; [step|]. step; [|step]. step; [step|]. step; [step|]. step; [step|]. step.
  - knows (by apply keeps_accrue_no_order).
  - step.
Qed.
#[local] Hint Resolve accrue_quiet : pay.
Lemma redeem_locked_knows K skip u code : Stable ext K ->
  triple K (redeem_locked db_add (pm_redeem s) skip u code) (done_with (λ db _, code_used code db)).
Proof.
  intros HK. unfold redeem_locked, incrementRedeemErrorCount. cbv zeta. step; [knows (apply keeps_code_GetByCode)|].
  destruct a as [c|e]; [|by walk]. apply (triple_pure _ _ _ (rc_Code c = code)); [by intros w _ [_ (? & _)]|]. intros Hn.
  step; [step|]. step; [by walk|]. step; [step|]. step; [by walk|]. step; [|step]. step; [step|]. step; [|step]. step; [step|].
  step; [knows (apply keeps_redeem_tx); intros db _ H; apply H|]. step; [|step].
  step; [by walk|]. step; [step|]. apply triple_ret; [apply _|].
  intros w _ [[[_ H] _] _]. rewrite <- Hn. by case_match.
Qed.
Lemma Redeem_knows K skip u code : Stable ext K ->
  triple K (Redeem db_add (pm_redeem s) skip u code) (done_with (λ db _, code_used code db)).
Proof.
  intros HK. unfold Redeem, checkRedeemRateLimit, acquireRedeemLock, releaseRedeemLock.
  step; [by walk|]. step; [|step]. step; [by walk|]. step; [step|]. step; [apply redeem_locked_knows; apply _|]. step; [by walk|].
  apply triple_ret; [apply _|]. by intros w _ [[_ H] _].
Qed.
(** ** Fulfilment *)

Lemma triple_from {A} (K K' : PaymentDB -> Prop) (p : pay A) R : triple K p R -> (∀ w, K' w -> K w) -> triple K' p R.
Proof. intros H HK w Hi Hk. apply H; auto. Qed.

Lemma lease_quiet oid : quiet (acquirePaymentFulfillmentLease oid).
Proof.
  intros K HK. unfold acquirePaymentFulfillmentLease. step; [step|]. cbv zeta. step. step.
  - knows (apply keeps_order_update). intros db o _ _ _ _. by split.
  - walk.
Qed.
Lemma markCompleted_quiet K o lease action : Stable ext K ->
  (∀ db, inv db -> K db -> order_fulfilled (po_ID o) db) ->
  (∀ db, inv db -> K db -> action ∈ assignment_actions -> assigned (po_ID o) db) ->
  triple K (markCompleted o lease action) (λ _ _, True).
Proof.
  intros HK Hk Ha. unfold markCompleted, update_order. step; [step|]. step. step.
  - eapply (bind_quietly _ _ _ (λ _ _, True)); [apply _|step|intros ?; cbv beta]. knows (apply keeps_order_update).
    intros db r Hi [[Hd _] _] Hr _. split; [done|]. intros _. eapply row_fulfilled; eauto.
  - step; [|by walk]. step; [by walk|]. step; [eauto with pay|]. step; [|step]. step; [step|].
    apply audit_written; [apply _|]. intros db Hi [[[Hd _] _] _]. by apply Ha.
Qed.
Lemma markFailed_quiet oid lease cause : quiet (markFailed s oid lease cause).
Proof. intros K HK. unfold markFailed. walk. Qed.
#[local] Hint Resolve lease_quiet markFailed_quiet : pay.
Lemma rebate_quiet o : quiet (applyAffiliateRebateForOrder s o).
Proof.
  intros K HK. unfold applyAffiliateRebateForOrder. cbv zeta. step; [step|]. step; [|step]. step; [step|]. step; [step|]. step.
  - knows (by apply keeps_rebate_tx).
  - walk.
Qed.
#[local] Hint Resolve rebate_quiet : pay.
Lemma fulfil_quiet K o work : Stable ext K -> (∀ lease, triple K (work lease) (λ _ _, True)) -> triple K (fulfil s o work) (λ _ _, True).
Proof.
  intros HK Hw. unfold fulfil. step. step; [eauto with pay|]. step; [|step]. step; [|step].
  step; [eapply triple_from; [apply Hw|]; by intros w [? _]|]. by walk.
Qed.

Lemma balance_finish K o lease : Stable ext K ->
  (∀ db, inv db -> K db -> known o db /\ code_used (po_RechargeCode o) db) -> is_subscription (po_terms o) = false ->
  triple K (let& _ := applyAffiliateRebateForOrder s o else id in markCompleted o lease "RECHARGE_SUCCESS") (λ _ _, True).
Proof.
  intros HK Hk Ht. step. step; [eauto with pay|]. step; [|step]. apply markCompleted_quiet; [apply _|..].
  - intros db Hi [Hd _]. destruct (Hk db Hi Hd) as [Hkn Hu]. apply known_fulfilled; [done..|]. unfold fulfilled. by rewrite Ht.
  - intros db _ _ Hin. assert (bool_decide ("RECHARGE_SUCCESS"%string ∈ assignment_actions) = false) as Hb by reflexivity.
    by apply bool_decide_eq_false in Hb.
Qed.
Lemma GetByCode_knows K code : Stable ext K -> triple K (GetByCode code) (done_with (λ db c, IsUsed c = true -> code_used code db)).
Proof.
  intros HK. unfold GetByCode. step; [knows (apply keeps_code_GetByCode)|]. apply triple_ret; [apply _|].
  intros w _ [_ H]. destruct a as [c|e]; [|done]. by destruct H as (_ & _ & H).
Qed.
Lemma doBalance_quiet K o lease : Stable ext K ->
  (∀ db, inv db -> K db -> known o db) -> is_subscription (po_terms o) = false -> triple K (doBalance db_add s o lease) (λ _ _, True).
Proof.
  intros HK Hk Ht. unfold doBalance. cbv zeta.
  assert (∀ K', Stable ext K' -> (∀ w, K' w -> K w) ->
    triple K' (let& _ := Redeem db_add (pm_redeem s) true (po_UserID o) (po_RechargeCode o) else EWrap "redeem balance: %w" in
               let& _ := applyAffiliateRebateForOrder s o else id in markCompleted o lease "RECHARGE_SUCCESS") (λ _ _, True)) as Hredeem.
  { intros K' HK' Hw. unfold attempt at 1. step; [apply Redeem_knows; apply _|]. step; [|step]. apply balance_finish; [apply _| |done].
    intros db Hi [Hd Hu]. split; [by apply Hk, Hw|done]. }
  step; [apply GetByCode_knows; apply _|]. destruct a as [c|e]; cbn [resolveRedeemAction].
  - destruct (IsUsed c) eqn:Hu.
    + apply balance_finish; [apply _| |done]. intros db Hi [Hd Hc]. split; [by apply Hk|by apply Hc].
    + apply Hredeem; [apply _|]. by intros w [? _].
  - unfold attempt at 1. step; [apply CreateCode_quiet; [apply _|by right|]|step; [|step]; apply Hredeem; [apply _|]; by intros w [[? _] _]].
    right. split_and!; [done..|]. intros db Hi [Hd _] c Hn Hty Hv oid n Ho E. destruct (Hk db Hi Hd) as (row & Hrow & Hterms).
    destruct (inv_orders _ Hi _ _ Hrow) as (_ & Hid & m & Hm).
    assert (po_RechargeCode row = po_RechargeCode o) as Hsame by (unfold po_RechargeCode; by rewrite Hterms).
    assert (rc_Code c = po_RechargeCode row) as Hc by (rewrite Hn, Hsame; cbn; rewrite <- Hsame, Hm; apply recharge_code_trimmed).
    assert (oid = po_ID o) as -> by (eapply recharge_code_id; [done|lia|]; by rewrite <- Hm, <- Hc, <- E).
    exists row. split_and!; [done|done| |].
    + unfold is_balance. by rewrite Hty.
    + rewrite Hv. unfold po_Amount. by rewrite Hterms.
Qed.
Definition order_type_is (sub : bool) (oid : Z) (db : PaymentDB) : Prop :=
  ∃ o, pd_orders db !! oid = Some o /\ is_subscription (po_terms o) = sub.
#[global] Instance order_type_stable sub oid : Stable ext (order_type_is sub oid).
Proof. intros w w' He (o & Ho & Ht). destruct (ext_orders _ _ He _ _ Ho) as (o' & Ho' & E). exists o'. by rewrite E. Qed.
Lemma known_type o oid sub db : known o db -> po_ID o = oid -> order_type_is sub oid db -> is_subscription (po_terms o) = sub.
Proof. intros (row & Hr & E) <- (o' & Ho' & Ht). rewrite Hr in Ho'. injection Ho' as <-. by rewrite <- E. Qed.
(** The row that was read, of the type it is known to have. *)
Lemma read_typed {A} K oid sub (k : PaymentOrder -> pay (result A)) f : Stable ext K ->
  (∀ db, inv db -> K db -> order_type_is sub oid db) ->
  (∀ o K', Stable ext K' -> (∀ w, K' w -> K w) -> (∀ db, inv db -> K' db -> known o db) -> po_ID o = oid ->
     is_subscription (po_terms o) = sub -> triple K' (k o) (λ _ _, True)) ->
  triple K (let& o := get_order oid else f in k o) (λ _ _, True).
Proof.
  intros HK Ht Hk. step. step; [eauto with pay|]. step; [|step]. rename a0 into o. cbn [done_with].
  apply (triple_pure _ _ _ (po_ID o = oid /\ is_subscription (po_terms o) = sub)).
  { intros w Hi [Hd [Hid [Hkn _]]]. split; [done|]. eapply known_type; [done..|by apply Ht]. }
  intros [Hid Hs]. apply Hk; [unfold found; apply _|by intros w [? _]|by intros db Hi (_ & _ & ? & _)|done..].
Qed.
Lemma ExecuteBalance_quiet K oid : Stable ext K -> (∀ db, inv db -> K db -> order_type_is false oid db) ->
  triple K (ExecuteBalanceFulfillment db_add s oid) (λ _ _, True).
Proof.
  intros HK Ht. unfold ExecuteBalanceFulfillment. apply (read_typed K oid false); [done..|]. intros o K' HK' _ Hkn _ Hs.
  destruct (fulfillable o) as [[]|]; [|step..]. apply fulfil_quiet; [done|]. intros lease. by apply doBalance_quiet.
Qed.
Lemma plan_days_quiet planID : quiet (subscriptionPlanFulfillmentDays planID).
Proof. intros K HK. unfold subscriptionPlanFulfillmentDays. walk. Qed.
#[local] Hint Resolve plan_days_quiet : pay.
Lemma assignment_audit_knows K oid : Stable ext K ->
  triple K (hasPaymentSubscriptionAssignmentAudit oid) (done_with (λ db (b : bool), b = true -> assigned oid db)).
Proof.
  intros HK. unfold hasPaymentSubscriptionAssignmentAudit. knows (apply keeps_same). intros db b db' Hi _ H. injection H as <- <-.
  split; [apply same_tables_refl|]. intros (a & Hin & Ha)%(existsb_exists (λ a, is_Some_b (pd_audit db !! (oid, a))) assignment_actions).
  apply (inv_logged _ Hi oid a); [by apply list_elem_of_In|]. unfold logged. destruct (pd_audit db !! (oid, a)); [by eexists|done].
Qed.
Lemma ensure_assigned_knows K o days : Stable ext K ->
  triple K (ensurePaymentSubscriptionAssigned db_add s o days) (done_with (λ db _, assigned (po_ID o) db)).
Proof.
  intros HK. unfold ensurePaymentSubscriptionAssigned. cbv zeta. step; [step|].
  assert (∀ K' sub, Stable ext K' -> (∀ db, inv db -> K' db -> assigned (po_ID o) db) ->
    triple K' (let& _ := call (InvalidateSubscription (po_UserID o) sub) else EWrap "invalidate subscription cache after fulfillment: %w" in Ret (Ok tt))
      (done_with (λ db _, assigned (po_ID o) db))) as Hinv.
  { intros K' sub HK' Hk. step. step; [step|]. step; [|step]. apply triple_ret; [apply _|]. intros w Hi [Hd _]. by apply Hk. }
  step. step; [apply assignment_audit_knows; apply _|]. step; [|step]. step.
  { apply Hinv; [apply _|]. intros db Hi [_ Hd]. by apply Hd. }
  step; [|step]. step; [step|]. step; [step|]. step; [knows (apply keeps_assign_tx)|]. step.
  - apply Hinv; [apply _|]. by intros db Hi [_ Hd].
  - destruct (_ && _); [|step]. step; [apply assignment_audit_knows; apply _|]. destruct a4 as [[]|e']; [|step..].
    apply triple_ret; [apply _|]. intros w Hi [_ Hd]. by apply Hd.
Qed.
Lemma doSub_quiet K o lease : Stable ext K ->
  (∀ db, inv db -> K db -> known o db) -> is_subscription (po_terms o) = true -> triple K (doSub db_add s o lease) (λ _ _, True).
Proof.
  intros HK Hk Ht. unfold doSub. step; [|step]. step. step; [eauto with pay|]. step; [|step].
  step; [apply ensure_assigned_knows; apply _|]. step; [|step]. step; [eauto with pay|]. step; [|step].
  apply markCompleted_quiet; [apply _|..].
  - intros db Hi [[[Hd _] Ha] _]. apply known_fulfilled; [done|by apply Hk|]. unfold fulfilled. rewrite Ht. exact Ha.
  - by intros db Hi [[_ Ha] _] _.
Qed.
Lemma ExecuteSubscription_quiet K oid : Stable ext K -> (∀ db, inv db -> K db -> order_type_is true oid db) ->
  triple K (ExecuteSubscriptionFulfillment db_add s oid) (λ _ _, True).
Proof.
  intros HK Ht. unfold ExecuteSubscriptionFulfillment. apply (read_typed K oid true); [done..|]. intros o K' HK' _ Hkn _ Hs.
  destruct (fulfillable o) as [[]|]; [|step..]. step; [|step]. apply fulfil_quiet; [done|]. intros lease. by apply doSub_quiet.
Qed.
Lemma executeFulfillment_quiet oid : quiet (executeFulfillment db_add s oid).
Proof.
  intros K HK. unfold executeFulfillment. step. step; [eauto with pay|]. step; [|step].
  assert (∀ w, inv w -> K w /\ done_with (λ db o, po_ID o = oid /\ found db o) w (Ok a0) -> order_type_is (is_subscription (po_terms a0)) oid w) as Ht.
  { intros w _ [_ [Hid [(row & Hr & E) _]]]. exists row. by rewrite <- Hid, E. }
  destruct (String.eqb (po_OrderType a0) OrderTypeSubscription) eqn:E.
  - apply ExecuteSubscription_quiet; [unfold found; apply _|]. intros w Hi Hk. specialize (Ht w Hi Hk).
    unfold is_subscription, po_OrderType in *. by rewrite E in Ht.
  - apply ExecuteBalance_quiet; [unfold found; apply _|]. intros w Hi Hk. specialize (Ht w Hi Hk).
    unfold is_subscription, po_OrderType in *. by rewrite E in Ht.
Qed.
#[local] Hint Resolve executeFulfillment_quiet : pay.
Lemma RetryFulfillment_quiet oid : quiet (RetryFulfillment db_add s oid).
Proof. intros K HK. unfold RetryFulfillment. walk. Qed.

(** ** Notifications *)

Lemma alreadyProcessed_quiet oid : quiet (alreadyProcessed db_add s oid).
Proof. intros K HK. unfold alreadyProcessed. walk. Qed.
#[local] Hint Resolve alreadyProcessed_quiet : pay.
Lemma toPaid_quiet o tradeNo paid pk : quiet (toPaid db_add s o tradeNo paid pk).
Proof. intros K HK. unfold toPaid. walk. Qed.
#[local] Hint Resolve toPaid_quiet : pay.
Lemma confirmPayment_quiet oid tradeNo paid pk md : quiet (confirmPayment db_add s oid tradeNo paid pk md).
Proof. intros K HK. unfold confirmPayment. cbv zeta. walk. Qed.
#[local] Hint Resolve confirmPayment_quiet : pay.
Lemma order_only_quiet p K : Stable ext K -> triple K (exec_ (order_only p)) (done_with found).
Proof. intros HK. knows (apply keeps_order_only). Qed.
Lemma orders_where_quiet p K : Stable ext K -> triple K (exec_ (orders_where p)) (λ _ _, True).
Proof. intros HK. eapply triple_any. reads. Qed.
#[local] Hint Resolve order_only_quiet orders_where_quiet : pay.
Lemma HandlePaymentNotification_quiet n pk : quiet (HandlePaymentNotification db_add s n pk).
Proof. intros K HK. unfold HandlePaymentNotification. cbv zeta. walk. Qed.
#[local] Hint Resolve HandlePaymentNotification_quiet : pay.

(** ** Cancelling, expiring, reconciling *)

Lemma requery_quiet prov ref : quiet (requeryPaidOrderOnce prov ref).
Proof. intros K HK. unfold requeryPaidOrderOnce. walk. Qed.
#[local] Hint Resolve requery_quiet : pay.
Lemma settle_paid_quiet o prov ref resp : quiet (settle_paid db_add s o prov ref resp).
Proof. intros K HK. unfold settle_paid. cbv zeta. walk. Qed.
#[local] Hint Resolve settle_paid_quiet : pay.
Lemma checkPaid_quiet cancel o : quiet (checkPaidWithOptions db_add s cancel o).
Proof. intros K HK. unfold checkPaidWithOptions. walk. Qed.
#[local] Hint Resolve checkPaid_quiet : pay.
Lemma cancelCore_quiet o fs op ad : bool_decide (fs ∈ [OrderStatusCancelled; OrderStatusExpired]) = true -> quiet (cancelCore db_add s o fs op ad).
Proof.
  intros Hfs K HK. apply bool_decide_eq_true in Hfs. unfold cancelCore, checkPaid. step; [by walk|]. step; [step|]. step. step.
  - apply update_order_plain; [|apply _]. intros r. split; [done|]. intros H. exfalso. revert H.
    apply elem_of_cons in Hfs as [->|Hfs%list_elem_of_singleton]; [done|by subst].
  - step; [|step]. step; [|by walk]. step; [|step]. destruct (String.eqb fs OrderStatusExpired); eauto with pay.
Qed.
#[local] Hint Extern 2 (Prog.triple _ _ _ _ (cancelCore _ _ _ _ _ _) _) => apply cancelCore_quiet; [reflexivity|apply _] : pay.
Lemma CancelOrder_quiet oid uid : quiet (CancelOrder db_add s oid uid).
Proof. intros K HK. unfold CancelOrder. walk. Qed.
Lemma AdminCancelOrder_quiet oid : quiet (AdminCancelOrder db_add s oid).
Proof. intros K HK. unfold AdminCancelOrder. walk. Qed.
Lemma sweep_quiet {A} (work : A -> pay bool) l : (∀ a, quiet (work a)) -> quiet (sweep work l).
Proof.
  intros Hw. induction l as [|a l IH]; intros K HK; cbn [sweep]; [step|].
  step; [apply Hw; apply _|]. step; [apply IH; apply _|]. step.
Qed.
Lemma ExpireTimedOutOrders_quiet : quiet (ExpireTimedOutOrders db_add s).
Proof.
  intros K HK. unfold ExpireTimedOutOrders. step; [step|]. step. step; [eauto with pay|]. step; [|step].
  step; [apply sweep_quiet; [intros o K' HK'; by walk|apply _]|step].
Qed.
Lemma ReconcilePendingWxpayOrders_quiet : quiet (ReconcilePendingWxpayOrders db_add s).
Proof.
  intros K HK. unfold ReconcilePendingWxpayOrders. step; [step|]. step. step; [eauto with pay|]. step; [|step].
  step; [apply sweep_quiet; [intros o K' HK'; unfold reconcilePaid; by walk|apply _]|step].
Qed.
Lemma VerifyOrder_quiet no uid : quiet (VerifyOrderByOutTradeNo db_add s no uid).
Proof. intros K HK. unfold VerifyOrderByOutTradeNo, lookup_order, reconcilePaid. walk. Qed.

(** ** Refunds *)

Lemma refund_request_quiet oid uid : quiet (validateRefundRequest oid uid).
Proof. intros K HK. unfold validateRefundRequest. cbv zeta. walk. Qed.
#[local] Hint Resolve refund_request_quiet : pay.
Lemma settled_statuses o l : status_in l o = true -> forallb (λ st, String.eqb st OrderStatusCompleted || psIsRefundStatus st) l = true -> settled o = true.
Proof.
  unfold status_in, settled, status_is. intros (st & Hin & E%String.eqb_eq)%existsb_exists Hall. rewrite forallb_forall in Hall.
  rewrite E. by apply Hall.
Qed.
Lemma update_order_settled K oid p f : Stable ext K -> (∀ o, p o = true -> settled o = true) -> (∀ o, po_terms (f o) = po_terms o) ->
  triple K (update_order oid p f) (done_with (λ db n, n <> 0 -> order_fulfilled oid db)).
Proof.
  intros HK Hp Hf. unfold update_order. step; [step|]. knows (apply (keeps_order_update_knows _ (order_fulfilled oid)); [apply _|]).
  intros db o Hi _ Ho Hpo. assert (Hd := inv_settled _ Hi _ _ Ho (Hp o Hpo)). split_and!; [done..|by exists o].
Qed.
Lemma RequestRefund_quiet oid uid reason : quiet (RequestRefund s oid uid reason).
Proof.
  intros K HK. unfold RequestRefund. cbv zeta. step. step; [eauto with pay|]. step; [|step]. step; [step|]. step; [|step]. step; [step|].
  step; [step|]. step; [apply update_order_settled; [apply _| |done]|].
  - intros o H. apply andb_true_iff in H as [[_ H]%andb_true_iff _]. unfold settled. by rewrite H.
  - walk.
Qed.
Lemma on_subs_quiet {A} (m : M Table A) : quiet (exec_ (on_subs m)).
Proof. intros K HK. knows (apply keeps_on_subs). Qed.
#[local] Hint Resolve on_subs_quiet : pay.
Lemma find_subscription_quiet o : quiet (findPlanSubscriptionForOrder db_add s o).
Proof. intros K HK. unfold findPlanSubscriptionForOrder. walk. Qed.
#[local] Hint Resolve find_subscription_quiet : pay.
Lemma prepDeduct_quiet o p force : quiet (prepDeduct db_add s o p force).
Proof. intros K HK. unfold prepDeduct, prep_subscription. cbv zeta. walk. Qed.
#[local] Hint Resolve prepDeduct_quiet : pay.
Lemma PrepareRefund_quiet oid amt reason force deduct : quiet (PrepareRefund db_add s oid amt reason force deduct).
Proof. intros K HK. unfold PrepareRefund. cbv zeta. walk. Qed.

Lemma rebates_of_users f users : ∀ oid, rebate_rows oid (fd_ledger (with_users users f)) = rebate_rows oid (fd_ledger f).
Proof. done. Qed.
Lemma deduct_enough_quiet u x : quiet (exec_ (on_funds (deduct_if_enough u x))).
Proof.
  intros K HK. knows (apply keeps_on_funds). unfold deduct_if_enough. intros f a f' H oid. by repeat case_match; injection H as _ <-.
Qed.
Lemma deduct_anyway_quiet u x : quiet (exec_ (on_funds (deduct_anyway u x))).
Proof. intros K HK. knows (apply keeps_on_funds). unfold deduct_anyway. intros f a f' H oid. by case_match; injection H as _ <-. Qed.
Lemma UpdateBalance_quiet u x : quiet (exec_ (on_funds (UpdateBalance u x))).
Proof.
  intros K HK. knows (apply keeps_on_funds). unfold UpdateBalance, update_user. intros f a f' H oid. by case_match; [injection H as _ <-|].
Qed.
#[local] Hint Resolve deduct_enough_quiet deduct_anyway_quiet UpdateBalance_quiet : pay.
Lemma DeductBalance_quiet u x : quiet (DeductBalance u x).
Proof. intros K HK. unfold DeductBalance. walk. Qed.
Lemma extend_quiet sub days : quiet (extend_subscription db_add sub days).
Proof. intros K HK. unfold extend_subscription. walk. Qed.
#[local] Hint Resolve DeductBalance_quiet extend_quiet : pay.
Lemma deduct_days_quiet sub days : quiet (deduct_days db_add sub days).
Proof. intros K HK. unfold deduct_days. walk. Qed.
#[local] Hint Resolve deduct_days_quiet : pay.
Lemma RollbackRefund_quiet p e : quiet (RollbackRefund db_add s p e).
Proof. intros K HK. unfold RollbackRefund. cbv zeta. walk. Qed.
Lemma gwRefund_quiet p : quiet (gwRefund s p).
Proof. intros K HK. unfold gwRefund. cbv zeta. walk. Qed.
#[local] Hint Resolve RollbackRefund_quiet gwRefund_quiet : pay.

(** What only runs for an order that has been fulfilled. *)
Local Abbreviation refunds oid p := (∀ K, Stable ext K -> (∀ db, inv db -> K db -> order_fulfilled oid db) -> triple K p (λ _ _, True)).
Ltac refunding := intros db Hi; naive_solver.
#[local] Hint Extern 2 (Prog.triple _ _ _ _ (update_order_one _ _) _) =>
  apply update_order_one_settles; [apply _|refunding|done] : pay.
Lemma restoreStatus_refunds p : refunds (rp_OrderID p) (restoreStatus p).
Proof. intros K HK Hk. unfold restoreStatus. cbv zeta. walk. Qed.
Lemma failed_refund_refunds oid e : refunds oid (failed_refund s oid e).
Proof. intros K HK Hk. unfold failed_refund. cbv zeta. walk. Qed.
#[local] Hint Extern 2 (Prog.triple _ _ _ _ (restoreStatus _) _) => apply restoreStatus_refunds; [apply _|refunding] : pay.
#[local] Hint Extern 2 (Prog.triple _ _ _ _ (failed_refund _ _ _) _) => apply failed_refund_refunds; [apply _|refunding] : pay.
Lemma handleGwFail_refunds p e : refunds (rp_OrderID p) (handleGwFail db_add s p e).
Proof. intros K HK Hk. unfold handleGwFail. walk. Qed.
Lemma finalizeRefundFailed_refunds o e : refunds (po_ID o) (finalizeRefundFailed s o e).
Proof. intros K HK Hk. unfold finalizeRefundFailed. walk. Qed.
Lemma markRefundOk_refunds p : refunds (rp_OrderID p) (markRefundOk s p).
Proof. intros K HK Hk. unfold markRefundOk. walk. Qed.
Lemma markRefundPending_refunds p resp : refunds (rp_OrderID p) (markRefundPending db_add s p resp).
Proof. intros K HK Hk. unfold markRefundPending. cbv zeta. walk. Qed.
#[local] Hint Extern 2 (Prog.triple _ _ _ _ (handleGwFail _ _ _ _) _) => apply handleGwFail_refunds; [apply _|refunding] : pay.
#[local] Hint Extern 2 (Prog.triple _ _ _ _ (finalizeRefundFailed _ _ _) _) => apply finalizeRefundFailed_refunds; [apply _|refunding] : pay.
#[local] Hint Extern 2 (Prog.triple _ _ _ _ (markRefundOk _ _) _) => apply markRefundOk_refunds; [apply _|refunding] : pay.
#[local] Hint Extern 2 (Prog.triple _ _ _ _ (markRefundPending _ _ _ _) _) => apply markRefundPending_refunds; [apply _|refunding] : pay.
Lemma finishRefund_refunds p resp : refunds (rp_OrderID p) (finishRefund db_add s p resp).
Proof. intros K HK Hk. unfold finishRefund. cbv zeta. walk. Qed.
#[local] Hint Extern 2 (Prog.triple _ _ _ _ (finishRefund _ _ _ _) _) => apply finishRefund_refunds; [apply _|refunding] : pay.
Lemma ExecuteRefund_quiet p : quiet (ExecuteRefund db_add s p).
Proof.
  intros K HK. unfold ExecuteRefund. step.
  assert (∀ p', rp_OrderID p' = rp_OrderID p -> refunds (rp_OrderID p)
    (let* resp := gwRefund s p' in match resp with Err e => handleGwFail db_add s p' e | Ok resp => finishRefund db_add s p' resp end)) as Hgw.
  { intros p' Hp K' HK' Hk. rewrite <- Hp in Hk. walk. }
  step; [apply update_order_settled; [apply _| |done]|].
  { intros o H. apply (settled_statuses o refundable); [exact H|reflexivity]. }
  step; [|step]. step; [step|]. cbv zeta.
  apply (triple_from (λ w, K w /\ order_fulfilled (rp_OrderID p) w)).
  2: { intros w [Hd H]. split; [done|]. apply H. by apply Z.eqb_neq. }
  assert (∀ e K', Stable ext K' -> (∀ db, inv db -> K' db -> order_fulfilled (rp_OrderID p) db) ->
            triple K' (let* _ := restoreStatus p in Ret (Err (e : error))) (λ _ (_ : result RefundResult), True)) as Habort.
  { intros e K' HK' Hk. walk. }
  assert (∀ p', rp_OrderID p' = rp_OrderID p -> ∀ K', Stable ext K' -> (∀ db, inv db -> K' db -> order_fulfilled (rp_OrderID p) db) ->
    triple K' (if takes_days p' then
       let* kept := hasAuditLog (rp_OrderID p') "REFUND_ROLLBACK_FAILED" in
       if kept : bool then
         let* resp := gwRefund s (deduct_no_days p') in
         match resp with Err e => handleGwFail db_add s (deduct_no_days p') e | Ok resp => finishRefund db_add s (deduct_no_days p') resp end
       else
         let* r := deduct_days db_add (rp_SubscriptionID p') (rp_SubDaysToDeduct p') in
         match r with
         | Err e => let* _ := restoreStatus p in Ret (Err e)
         | Ok _ => let* resp := gwRefund s p' in match resp with Err e => handleGwFail db_add s p' e | Ok resp => finishRefund db_add s p' resp end
         end
     else let* resp := gwRefund s p' in match resp with Err e => handleGwFail db_add s p' e | Ok resp => finishRefund db_add s p' resp end)
     (λ _ _, True)) as Hdays.
  { intros p' Hp K' HK' Hk. destruct (takes_days p'); [|by apply Hgw]. step; [eauto with pay|]. step; [by apply Hgw; [|apply _|refunding]|].
    step; [eauto with pay|]. step; [apply Hgw; [done|apply _|refunding]|apply Habort; [apply _|refunding]]. }
  destruct (takes_balance p); [|by apply Hdays; [|apply _|refunding]]. step; [eauto with pay|]. step; [by apply Hdays; [|apply _|refunding]|].
  step; [eauto with pay|]. step; [apply Hdays; [done|apply _|refunding]|apply Habort; [apply _|refunding]].
Qed.
Lemma final_deduction_knows K p : Stable ext K ->
  triple K (applyRefundFinalDeduction db_add p) (λ _ r, match r with Ok p' => rp_OrderID p' = rp_OrderID p | Err _ => True end).
Proof.
  intros HK. unfold applyRefundFinalDeduction. cbv zeta. step; [eauto with pay|]. step; [by step|].
  assert (∀ K', Stable ext K' -> triple K' (if takes_days p then let& _ := deduct_days db_add (rp_SubscriptionID p) (rp_SubDaysToDeduct p) else id in Ret (Ok p) else Ret (Ok p))
    (λ _ r, match r with Ok p' => rp_OrderID p' = rp_OrderID p | Err _ => True end)) as Hdays.
  { intros K' HK'. step; [|by step]. step. step; [eauto with pay|]. by step; step. }
  step; [|apply Hdays; apply _]. unfold attempt at 1. step; [eauto with pay|]. step; [apply Hdays; apply _|by step].
Qed.
Definition for_order (oid : Z) (r : RefundPlan + RefundResult) : Prop := match r with inl p => rp_OrderID p = oid | inr _ => True end.
Lemma prepDeduct_knows K o p force : Stable ext K -> triple K (prepDeduct db_add s o p force) (λ _, for_order (rp_OrderID p)).
Proof.
  intros HK. unfold prepDeduct, prep_subscription. cbv zeta. walk; apply triple_ret; try apply _; intros _ _ _; by repeat case_match.
Qed.
Lemma pending_detail_quiet oid : quiet (latestRefundPendingDetail oid).
Proof. intros K HK. unfold latestRefundPendingDetail. walk. Qed.
#[local] Hint Resolve pending_detail_quiet : pay.
Lemma QueryAndFinalizeRefund_quiet oid : quiet (QueryAndFinalizeRefund db_add s oid).
Proof.
  intros K HK. unfold QueryAndFinalizeRefund. step. step; [eauto with pay|]. step; [|step]. step; [step|]. rename a0 into o.
  apply (triple_from (λ w, K w /\ order_fulfilled (po_ID o) w)).
  2: { intros w [Hd [_ [(row & Hr & E) Hf]]]. split; [done|]. exists row. split; [done|]. rewrite E. apply Hf.
       unfold settled, status_is in *. apply negb_false_iff, String.eqb_eq in Heqb. by rewrite Heqb. }
  step; [eauto with pay|]. step; [|step]. step; [step|]. step; [eauto with pay|]. step; [step|]. step; [|step].
  step; [|by walk]. eapply (bind_quietly _ _ _ (λ _, for_order (po_ID o))); [apply _| |intros prepared; cbv beta].
  - step; [by step|]. step; [|by step]. apply (prepDeduct_knows _ o (refundFinalizePlan o)); apply _.
  - destruct prepared as [plan|]; [|step]. apply (triple_pure _ _ _ (rp_OrderID plan = po_ID o)); [by intros w _ [_ H]|]. intros Hp.
    step; [|by walk]. step; [apply final_deduction_knows; apply _|]. destruct a6 as [plan'|]; [|step].
    apply (triple_pure _ _ _ (rp_OrderID plan' = rp_OrderID plan)); [by intros w _ [_ H]|]. intros Hp'.
    apply markRefundOk_refunds; [apply _|]. rewrite Hp', Hp. refunding.
Qed.
(** ** New orders *)

Lemma pending_limit_quiet uid max : quiet (checkPendingLimit uid max).
Proof. intros K HK. unfold checkPendingLimit. cbv zeta. walk. Qed.
Lemma daily_limit_quiet fixed2 uid amount limit : quiet (checkDailyLimit fixed2 uid amount limit).
Proof. intros K HK. unfold checkDailyLimit. cbv zeta. walk. Qed.
Lemma allocate_quiet n : quiet (allocate n).
Proof.
  induction n as [|n IH]; intros K HK; cbn [allocate]; [step|]. step; [step|]. step. step; [eauto with pay|]. step; [|step].
  step; [step|]. apply IH, _.
Qed.
#[local] Hint Resolve pending_limit_quiet daily_limit_quiet : pay.
Lemma createOrderInTx_quiet fixed2 req plan cfg a1 a2 a3 sel : quiet (createOrderInTx s fixed2 req plan cfg a1 a2 a3 sel).
Proof.
  intros K HK. unfold createOrderInTx, allocateOutTradeNo. cbv zeta. step. step; [eauto with pay|]. step; [|step]. step; [eauto with pay|]. step; [|step].
  step; [step|]. step; [apply allocate_quiet; apply _|]. step; [|step]. step; [step|]. step; [step|].
  step; [knows (by apply keeps_order_Create)|]. step; step.
Qed.
Lemma invokeProvider_quiet o req sel : quiet (invokeProvider o req sel).
Proof. intros K HK. unfold invokeProvider. walk. Qed.
#[local] Hint Resolve invokeProvider_quiet : pay.
Lemma place_order_quiet fixed2 req plan cfg a sel : quiet (place_order s fixed2 req plan cfg a sel).
Proof.
  intros K HK. unfold place_order. cbv zeta. step. step; [apply createOrderInTx_quiet; apply _|]. step; [|step].
  walk.
Qed.
(** ** Every interleaving

    What may be started at any time: the entry points of the service, a user
    who redeems a code, an admin who creates one that is not named like the
    recharge code of an order.  The rest of the system may change balances,
    subscriptions, plans and instances, and accrue rebates that are not of an
    order. *)

Local Abbreviation run p := (Thread _ p (λ _ _, True)).
Inductive payment_thread : @thread stmt PaymentDB -> Prop :=
| pt_place fixed2 req plan cfg payAmount sel : payment_thread (run (place_order s fixed2 req plan cfg payAmount sel))
| pt_notification n pk : payment_thread (run (HandlePaymentNotification db_add s n pk))
| pt_retry oid : payment_thread (run (RetryFulfillment db_add s oid))
| pt_cancel oid uid : payment_thread (run (CancelOrder db_add s oid uid))
| pt_admin_cancel oid : payment_thread (run (AdminCancelOrder db_add s oid))
| pt_expire : payment_thread (run (ExpireTimedOutOrders db_add s))
| pt_reconcile : payment_thread (run (ReconcilePendingWxpayOrders db_add s))
| pt_verify no uid : payment_thread (run (VerifyOrderByOutTradeNo db_add s no uid))
| pt_request_refund oid uid reason : payment_thread (run (RequestRefund s oid uid reason))
| pt_prepare oid amt reason force deduct : payment_thread (run (PrepareRefund db_add s oid amt reason force deduct))
| pt_refund p : payment_thread (run (ExecuteRefund db_add s p))
| pt_finalize oid : payment_thread (run (QueryAndFinalizeRefund db_add s oid))
| pt_redeem uid code : payment_thread (run (Redeem db_add (pm_redeem s) false uid code))
| pt_create_code code : rc_Status code = StatusUnused -> (∀ oid n, TrimSpace (rc_Code code) <> recharge_code oid n) ->
    payment_thread (run (CreateCode code)).

Definition fresh (db : PaymentDB) : Prop :=
  pd_orders db = ∅ /\ 0 <= pd_next_order db /\ ct_rows (pd_codes db) = ∅ /\ pd_audit db = ∅ /\ pd_history db = [] /\
  ∀ oid, rebate_rows oid (fd_ledger (pd_funds db)) = [].
Local Abbreviation payments := (pool_step performs payment_thread same_tables).

Lemma fresh_inv db : fresh db -> inv db.
Proof.
  destruct db as [orders next audit [rows cnext] funds subs plans insts history]. intros (Ho & Hn & Hc & Ha & Hh & Hr). cbn in *. subst.
  split; unfold code_at, code_state, assigned, logged, at_most_one; cbn -[rebate_rows]; try done.
  - intros _. lia.
  - intros oid action _ [x Hx]. by rewrite lookup_empty in Hx.
  - intros oid. rewrite Hr. cbn. lia.
  - intros oid Hne. by rewrite Hr in Hne.
Qed.
Lemma payment_thread_safe t db : payment_thread t -> inv db -> th_safe performs inv ext db t.
Proof.
  assert (∀ A (p : pay A), quiet p -> inv db -> th_safe performs inv ext db (run p)) as Hq.
  { intros A p Hp Hi. exact (Hp (λ _, True) _ db Hi I). }
  intros Ht Hi. destruct Ht; (apply Hq; [|done]).
  - by apply place_order_quiet.
  - by apply HandlePaymentNotification_quiet.
  - by apply RetryFulfillment_quiet.
  - by apply CancelOrder_quiet.
  - by apply AdminCancelOrder_quiet.
  - by apply ExpireTimedOutOrders_quiet.
  - by apply ReconcilePendingWxpayOrders_quiet.
  - by apply VerifyOrder_quiet.
  - by apply RequestRefund_quiet.
  - by apply PrepareRefund_quiet.
  - by apply ExecuteRefund_quiet.
  - by apply QueryAndFinalizeRefund_quiet.
  - intros K HK. eapply triple_any. by apply Redeem_knows.
  - intros K HK. apply CreateCode_quiet; [done|by right|left]. intros oid n _. done.
Qed.
Lemma payments_inv db db' ts : rtc payments (db, []) (db', ts) -> fresh db -> inv db'.
Proof.
  intros H Hf. assert (∀ t w, payment_thread t -> inv w -> th_safe performs inv ext w t) as Hst by (intros; by apply payment_thread_safe).
  assert (∀ w w', inv w -> same_tables w w' -> inv w' /\ ext w w') as Hrest by (intros; by apply same_tables_keep).
  by destruct (pool_safe performs inv ext payment_thread same_tables Hst Hrest _ _ _ _ H (fresh_inv _ Hf) ltac:(constructor)).
Qed.

(** ** Properties *)

Context (start now : PaymentDB) (ts : list (@thread stmt PaymentDB)).
Context (Hfresh : fresh start) (Hrun : rtc payments (start, []) (now, ts)).

(** C10. Whatever notifications, retries, cancellations, reconciliations,
    refunds and redemptions run side by side, and wherever a call fails or its
    answer is lost: no code is credited twice, and an order of a balance that
    is completed or was refunded has been credited exactly once, with the
    amount of the order.  Credits are counted in the history of what
    was committed, where a redemption notes the amount beside its update of the
    balance. *)
Theorem orders_credited_once :
  (∀ id, at_most_one (credits id (pd_history now))) /\
  ∀ oid o, pd_orders now !! oid = Some o -> settled o = true -> is_subscription (po_terms o) = false ->
    ∃ id c u, code_at id c now /\ rc_Code c = po_RechargeCode o /\
      credits id (pd_history now) = [(u, units (numeric (po_Amount o)))].
Proof.
  assert (Hi := payments_inv _ _ _ Hrun Hfresh). split.
  - intros id. pose proof (inv_credits _ Hi id) as H. unfold code_state, at_most_one in *.
    destruct (ct_rows _ !! id) as [c|]; [destruct (_ && _); [destruct H as [u ->]; done|]|]; rewrite H; cbn; lia.
  - intros oid o Ho Hs Ht. pose proof (inv_settled _ Hi _ _ Ho Hs) as Hf. unfold fulfilled in Hf. rewrite Ht in Hf.
    destruct Hf as (id & c & Hc & Hn & Hu). destruct (inv_orders _ Hi _ _ Ho) as (Hid & Hrange & n & Hm).
    destruct (inv_owned _ Hi id c oid n Hc ltac:(lia) ltac:(by rewrite Hn)) as (o' & Ho' & _ & Hb & Hv).
    rewrite Ho in Ho'. injection Ho' as <-. pose proof (inv_credits _ Hi id) as Hcr. unfold code_state, code_at in *.
    rewrite Hc, Hu, Hb in Hcr. destruct Hcr as [u Hcr]. exists id, c, u. split_and!; [done|done|]. by rewrite Hcr, Hv.
Qed.

(** C11. In every such run a subscription is assigned for an order at most
    once, and an order of a subscription that is completed or was refunded has
    been assigned one. *)
Theorem subscriptions_assigned_once :
  (∀ oid, at_most_one (assignments oid (pd_history now))) /\
  ∀ oid o, pd_orders now !! oid = Some o -> settled o = true -> is_subscription (po_terms o) = true ->
    ∃ sub, assignments oid (pd_history now) = [sub].
Proof.
  assert (Hi := payments_inv _ _ _ Hrun Hfresh). split; [apply (inv_assigned _ Hi)|].
  intros oid o Ho Hs Ht. pose proof (inv_settled _ Hi _ _ Ho Hs) as Hf. unfold fulfilled in Hf. rewrite Ht in Hf.
  assert (ot_ID (po_terms o) = oid) as Hid by apply (inv_orders _ Hi _ _ Ho). rewrite Hid in Hf.
  pose proof (inv_assigned _ Hi oid) as Hone. unfold assigned, at_most_one in *.
  destruct (assignments oid (pd_history now)) as [|sub [|]]; [done|by exists sub|cbn in Hone; lia].
Qed.

(** C12. In every such run the rebate of an order is accrued at most once,
    and then the audit log says so. *)
Theorem rebates_accrued_once oid :
  at_most_one (rebate_rows oid (fd_ledger (pd_funds now))) /\
  (rebate_rows oid (fd_ledger (pd_funds now)) <> [] -> logged oid "AFFILIATE_REBATE_APPLIED" now).
Proof. assert (Hi := payments_inv _ _ _ Hrun Hfresh). split; [apply (inv_rebates _ Hi)|apply (inv_rebates_logged _ Hi)]. Qed.
End Programs.

(** ** A report that does not match *)

Section Mismatch.
Context {UC : UnicodeCase} {NC : NumericColumn} (db_add : float64 -> float64 -> float64) (s : PaymentDeps).

Definition same_orders (db db' : PaymentDB) : Prop := pd_orders db' = pd_orders db.
#[global] Instance same_orders_preorder : PreOrder same_orders.
Proof. split; [by intros db|]. intros a b c H1 H2. unfold same_orders in *. congruence. Qed.

(** Programs whose statements leave the orders alone. *)
Definition no_order_write (B : Type) (c : stmt B) : Prop :=
  match c with Exec m => ∀ db r db', m db = (r, db') -> same_orders db db' | _ => True end.
Local Abbreviation writes_no_order := (only no_order_write).
Lemma only_safe {A} (p : pay A) db : writes_no_order p -> safe performs (λ _, True) same_orders p db (λ _ _, True).
Proof.
  revert db. induction p as [a|B c k IH]; cbn; intros db Hp; [done|]. destruct Hp as [Hc Hk]. intros db1 b db2 _ _ Hp%performs_answers.
  assert (same_orders db1 db2); [|split_and!; [done..|by apply IH]].
  destruct c; cbn in *; try by subst. destruct Hp as [[_ ->]|(a & Ha & _)]; [done|by eapply Hc].
Qed.
Lemma read_writes_none {A} (m : M PaymentDB A) : (∀ db, (m db).2 = db) -> writes_no_order (exec_ m).
Proof. intros H. cbn. split; [|done]. intros db r db' Hm. specialize (H db). rewrite Hm in H. cbn in H. by subst. Qed.
Lemma audit_writes_none oid action op d : writes_no_order (writeAuditLog oid action op d).
Proof.
  cbn. split; [done|]. intros now. split; [|done]. intros db r db'. unfold audit_Create. destruct (pd_audit db !! _); by intros [= _ <-].
Qed.
Lemma attempt_writes_none {A B} (m : pay (result A)) f (k : A -> pay (result B)) :
  writes_no_order m -> (∀ a, writes_no_order (k a)) -> writes_no_order (attempt m f k).
Proof. intros Hm Hk. apply only_bind; [done|]. intros [a|e]; [apply Hk|done]. Qed.
Lemma instance_read id : writes_no_order (exec_ (instance_Get id)).
Proof. apply read_writes_none. intros db. unfold instance_Get. by destruct (pd_instances db !! id). Qed.
Lemma instances_read p : writes_no_order (exec_ (instances_where p)).
Proof. by apply read_writes_none. Qed.
Lemma order_instance_reads o : writes_no_order (getOrderProviderInstance o).
Proof.
  unfold getOrderProviderInstance, resolveSnapshotOrderProviderInstance, resolveUniqueLegacyOrderProviderInstance.
  destruct (psOrderProviderSnapshot o) as [snap|]; cbv zeta.
  - repeat case_match; try done; (apply attempt_writes_none; [apply instance_read|]; intros i; by case_match).
  - repeat case_match; try done; (apply attempt_writes_none; [first [apply instances_read|apply instance_read]|done]).
Qed.

(** What refuses a report, for the order it is about. *)
Definition refused (o : PaymentOrder) (paid : float64) (pk : string) (metadata : gmap string string) : Prop :=
  isValidProviderAmount paid = false \/ amount_matches o paid = false \/ ∃ e, validateProviderSnapshotMetadata o pk metadata = Err e.
Lemma refused_safe oid tradeNo paid pk md db o : pd_orders db !! oid = Some o -> refused o paid pk md ->
  safe performs (λ _, True) same_orders (confirmPayment db_add s oid tradeNo paid pk md) db (λ _ _, True).
Proof.
  intros Ho Href. unfold confirmPayment.
  apply (safe_step performs (λ _, True) same_orders _ _ _ (λ _ r, match r with Ok o1 => o1 = o | Err _ => True end)).
  { intros db1 r db2 _ Hs1 Hp. destruct (performs_exec _ _ _ _ Hp) as [[[e ->] ->]|(o1 & Hr & Hor)]; [done|].
    unfold order_Get in Hr. rewrite Hs1, Ho in Hr. injection Hr as <- <-. split_and!; [done..|].
    destruct Hor as [->|[e ->]]; cbn; done. }
  intros db1 [o1|e] _ _; [|done]. intros ->. apply only_safe. apply only_bind; [apply order_instance_reads|]. intros inst. apply only_bind; [done|].
  intros registry. cbv zeta. assert (∀ action d e, writes_no_order (let* _ := writeAuditLog (po_ID o) action pk d in Ret (Err (e : error) : result unit))) as Ha.
  { intros. apply only_bind; [apply audit_writes_none|done]. }
  lazymatch goal with |- only _ (if negb ?b then _ else _) => destruct b end; cbn [negb]; [|apply Ha].
  destruct (validateProviderSnapshotMetadata o pk md) eqn:Hv; [|apply Ha].
  destruct (isValidProviderAmount paid) eqn:Hva; cbn [negb]; [|apply Ha]. destruct (amount_matches o paid) eqn:Hm; cbn [negb]; [|apply Ha].
  exfalso. destruct Href as [H|[H|[e H]]]; congruence.
Qed.

(** *** What a report must agree with

    Written down apart from the code: how far a report may be from the amount
    to pay, by the currency of the order; and which fields of the order's
    snapshot a provider's report has to repeat, under which key. *)
Definition three_decimals : list string := ["BHD"; "IQD"; "JOD"; "KWD"; "LYD"; "OMR"; "TND"]%string.
Definition allowed_difference (o : PaymentOrder) : float64 :=
  if bool_decide (PaymentOrderCurrency o ∈ three_decimals) then f64_lit 5 (-4) else f64_lit 1 (-2).
Definition pinned_fields : list (string * (paymentOrderProviderSnapshot -> string) * string) :=
  [("wxpay", MerchantAppID, "appid"); ("wxpay", MerchantID, "mchid"); ("wxpay", SnapshotCurrency, "currency");
   ("alipay", MerchantAppID, "app_id"); ("easypay", MerchantID, "pid"); ("stripe", SnapshotCurrency, "currency");
   ("airwallex", MerchantID, "account_id"); ("airwallex", SnapshotCurrency, "currency")]%string.
Definition paid_states : list (string * string * string) :=
  [("wxpay", "trade_state", "SUCCESS"); ("airwallex", "status", "SUCCEEDED")]%string.
Definition reported (metadata : gmap string string) (key : string) : string :=
  let v := TrimSpace (default ""%string (metadata !! key)) in
  if String.eqb key "currency" then ToUpper v else v.

(** The report names another merchant, application or currency than the
    snapshot of the order, or leaves it out, or names a state that is not the
    one of a payment. *)
Inductive another_payment (snap : paymentOrderProviderSnapshot) (pk : string) (metadata : gmap string string) : Prop :=
  | another_field field key :
      (TrimSpace pk, field, key) ∈ pinned_fields -> TrimSpace (field snap) <> ""%string ->
      reported metadata key = ""%string \/ EqualFold (TrimSpace (field snap)) (reported metadata key) = false ->
      another_payment snap pk metadata
  | another_state key wanted :
      (TrimSpace pk, key, wanted) ∈ paid_states -> reported metadata key <> ""%string ->
      EqualFold (reported metadata key) wanted = false -> another_payment snap pk metadata.
Inductive disagrees (o : PaymentOrder) (paid : float64) (pk : string) (metadata : gmap string string) : Prop :=
  | no_amount : is_nan paid = true \/ is_inf paid = true \/ fleb paid f0 = true -> disagrees o paid pk metadata
  | another_amount : fgtb (fabs (fsub paid (po_PayAmount o))) (allowed_difference o) = true -> disagrees o paid pk metadata
  | another_payment_ snap :
      psOrderProviderSnapshot o = Some snap -> metadata <> ∅ -> another_payment snap pk metadata -> disagrees o paid pk metadata.

Lemma field_differs who field expected actual :
  TrimSpace expected <> ""%string -> actual = ""%string \/ EqualFold (TrimSpace expected) actual = false ->
  ∃ e, field_matches who field expected actual = Err e.
Proof.
  intros He Ha. unfold field_matches. rewrite (proj2 (str_empty_false _)) by done.
  destruct (str_empty actual) eqn:Eempty; [by eexists|]. destruct Ha as [->| ->]; [done|by eexists].
Qed.
Lemma state_differs who field actual wanted :
  actual <> ""%string -> EqualFold actual wanted = false -> ∃ e, state_matches who field actual wanted = Err e.
Proof. intros Ha Hw. unfold state_matches. rewrite (proj2 (str_empty_false _)), Hw by done. by eexists. Qed.

(** One refusal among the comparisons of a provider. *)
Lemma refused_first {B} (m : result unit) (k : unit -> result B) : (∃ e, m = Err e) -> ∃ e, (let? x := m in k x) = Err e.
Proof. intros [e ->]. by eexists. Qed.
Lemma refused_later {B} (m : result unit) (k : unit -> result B) : (∃ e, k tt = Err e) -> ∃ e, (let? x := m in k x) = Err e.
Proof. intros [e He]. destruct m as [[]|e']; cbn; eauto. Qed.
Ltac one_differs := apply field_differs; assumption.
Ltac some_differs := first [one_differs | apply refused_first; one_differs | apply refused_later; some_differs].

Lemma another_payment_refused o snap pk md :
  psOrderProviderSnapshot o = Some snap -> md <> ∅ -> another_payment snap pk md ->
  ∃ e, validateProviderSnapshotMetadata o pk md = Err e.
Proof.
  intros Hs Hmd Hd. unfold validateProviderSnapshotMetadata. rewrite bool_decide_eq_false_2, Hs by done. cbv zeta.
  destruct Hd as [field key Hin Hne Hdiff|key wanted Hin Hne Hdiff]; unfold reported in *.
  - unfold pinned_fields in Hin.
    repeat (apply elem_of_cons in Hin as [[= -> -> ->]|Hin]; [some_differs|]). by apply elem_of_nil in Hin.
  - unfold paid_states in Hin.
    repeat (apply elem_of_cons in Hin as [[= -> -> ->]|Hin]; [repeat apply refused_later; by apply state_differs|]).
    by apply elem_of_nil in Hin.
Qed.

(** The currency of an order is written the way currencies are normalised. *)
Lemma order_currency_normal o : NormalizePaymentCurrency (PaymentOrderCurrency o) = Ok (PaymentOrderCurrency o).
Proof.
  assert (∀ raw c, NormalizePaymentCurrency raw = Ok c -> NormalizePaymentCurrency c = Ok c) as Hn.
  { intros raw c. unfold NormalizePaymentCurrency at 1. cbv zeta.
    destruct (str_empty _); [by intros [= <-]|]. destruct (str_len _ =? 3) eqn:Hl; cbn [negb]; [|done].
    destruct (forallb upper_letter _) eqn:Hu; cbn [negb]; [|done]. intros [= <-].
    set (c := ToUpper (TrimSpace raw)) in *. unfold NormalizePaymentCurrency. cbv zeta.
    assert (TrimSpace c = c) as ->.
    { apply TrimSpace_solid. rewrite forallb_forall in Hu |- *. intros b Hb. specialize (Hu b Hb).
      assert (implb (upper_letter b) (solid b) = true) as Hs.
      { apply (all_bytes (λ b, implb (upper_letter b) (solid b))). vm_compute. reflexivity. }
      by rewrite Hu in Hs. }
    rewrite upper_letters_ToUpper, Hl, Hu by done. cbn [negb].
    destruct (str_empty c) eqn:He; [|done]. by destruct c. }
  unfold PaymentOrderCurrency. destruct (psOrderProviderSnapshot o) as [s'|]; [|by vm_compute].
  destruct (NormalizePaymentCurrency (SnapshotCurrency s')) as [c|e] eqn:E; [by eapply Hn|by vm_compute].
Qed.

(** Every three-decimal currency of the code is in the table, and its
    tolerance is the allowed difference. *)
Lemma tolerance_allowed o : paymentAmountToleranceForCurrency (PaymentOrderCurrency o) = allowed_difference o.
Proof.
  unfold paymentAmountToleranceForCurrency, CurrencyMinorUnit, paymentCurrencyAmountUnitFor, allowed_difference.
  rewrite order_currency_normal. set (c := PaymentOrderCurrency o).
  destruct (bool_decide (c ∈ three_decimals)) eqn:Hc.
  - apply bool_decide_eq_true in Hc. unfold three_decimals in Hc.
    repeat (apply elem_of_cons in Hc as [->|Hc]; [vm_compute; reflexivity|]). by apply elem_of_nil in Hc.
  - destruct (paymentCurrencyAmountUnits !! c) as [u|] eqn:E; cbn [default]; [|by vm_compute].
    assert (forallb (λ cu, bool_decide (cu.1 ∈ three_decimals) || (apiMinorUnit cu.2 <=? 2))
              (map_to_list paymentCurrencyAmountUnits) = true) as Hall by (vm_compute; reflexivity).
    apply elem_of_map_to_list, list_elem_of_In in E. rewrite forallb_forall in Hall. specialize (Hall _ E).
    cbn [fst snd] in Hall. rewrite Hc in Hall. cbn [orb] in Hall. cbn. by rewrite Hall.
Qed.

Lemma disagrees_refused o paid pk md : disagrees o paid pk md -> refused o paid pk md.
Proof.
  intros [H|H|snap Hs Hmd Hd].
  - left. unfold isValidProviderAmount. destruct H as [-> |[-> |H]]; [by rewrite andb_false_r|by rewrite andb_false_r|].
    change (fgtb paid f0) with (fltb f0 paid). destruct (fltb f0 paid) eqn:E; [|done]. apply fltb_not_fleb in E. congruence.
  - right; left. unfold amount_matches. by rewrite tolerance_allowed, H.
  - right; right. by eapply another_payment_refused.
Qed.

(** C13. A report that disagrees with its order changes no order, whatever the
    database answers: one whose amount is no positive number, or is more than
    a hundredth (for a currency of three decimals, half a thousandth) away
    from the amount to pay; or, when it has metadata and the order a snapshot
    of its provider, one that leaves out or contradicts the merchant,
    application or currency pinned there, by the table [pinned_fields], or
    reports a state that is not the paid one.  Letters are compared without
    case.  Reports without metadata and orders without a snapshot are compared
    by the amount only, and a difference within the limit passes. *)
Theorem mismatching_report_changes_no_order oid tradeNo paid pk md db o db' ts :
  pd_orders db !! oid = Some o -> disagrees o paid pk md ->
  rtc (pool_step performs (λ _, False) same_orders)
      (db, [Thread _ (confirmPayment db_add s oid tradeNo paid pk md) (λ _ _, True)]) (db', ts) ->
  pd_orders db' = pd_orders db.
Proof.
  intros Ho Href%disagrees_refused H.
  assert (∀ t w, False -> True -> th_safe performs (λ _, True) same_orders w t) as Hst by done.
  assert (∀ w w', True -> same_orders w w' -> True /\ same_orders w w') as Hrest by done.
  destruct (pool_safe performs (λ _, True) same_orders (λ _, False) same_orders Hst Hrest _ _ _ _ H I) as (_ & Hs & _); [|exact Hs].
  constructor; [|constructor]. by eapply refused_safe.
Qed.
End Mismatch.
