(* ===== verification/PaymentRuns.v ===== *)
(** * A concrete run of payments

    Two orders, one of a balance and one of a subscription, are placed and
    paid by a user with an inviter; the first is notified twice, and then
    refunded by a provider that refuses. *)

From Stdlib Require Import Floats.SpecFloat.
From S2P Require Import Prelude GoErrors Prog Float64 GoTime GoStrings GoText Subscription SubscriptionRepo SubscriptionService Account PaymentAmounts Affiliate AffiliateProps RedeemCodes PaymentStore RedeemService Payments PaymentRefunds PaymentCreate PaymentInvariant PaymentProps.

(** ** Services that answer *)

Section Serve.
Context (tradeNo : Z -> string) (refund : option error * option RefundResponse).
Record World := mk_world { w_db : PaymentDB; w_clock : Z; w_trades : Z }.
Definition with_db (db : PaymentDB) (w : World) : World := mk_world db (w_clock w) (w_trades w).
Definition serve (B : Type) (c : stmt B) (w : World) : B * World :=
  match c in stmt B return B * World with
  | Now => (mk_time (w_clock w) UTC, mk_world (w_db w) (w_clock w + second) (w_trades w))
  | Exec m => match m (w_db w) with (Ok a, db) => (Ok a, with_db db w) | (Err e, _) => (Err e, w) end
  | AttemptCount _ => (Ok 0, w)
  | IncrementAttempts _ => (tt, w)
  | AcquireLock _ => (Ok true, w)
  | ReleaseLock _ => (tt, w)
  | RandomCode => (Ok "00112233445566778899AABBCCDDEEFF"%string, w)
  | AffiliateCodes => (λ _, [], w)
  | InvalidateSubscription _ _ => (Ok tt, w)
  | Providers => (∅, w)
  | GenerateOutTradeNo => (tradeNo (w_trades w), mk_world (w_db w) (w_clock w) (w_trades w + 1))
  | CreatePayment _ o => (Ok ("upstream-" ++ po_OutTradeNo o)%string, w)
  | CreateProvider i => (Ok (mk_provider (pi_ProviderKey i) false true ∅), w)
  | RegisteredProvider _ => (Err (EPlain "provider not found"), w)
  | QueryOrder _ _ => (Err (EPlain "not found"), w)
  | CancelPayment _ _ => (tt, w)
  | Refund _ _ => (refund, w)
  | QueryRefund _ _ => (Err (EPlain "not found"), w)
  end.
Lemma serve_performs B (c : stmt B) w : performs B c (w_db w) (serve B c w).1 (w_db (serve B c w).2).
Proof.
  destruct c; try (by apply perform_outside). cbn. destruct (m (w_db w)) as [[a|e] db] eqn:E; cbn.
  - by apply perform_ok.
  - by eapply perform_error.
Qed.
End Serve.

(** ** A deduction that is given back *)

Section GivenBack.
Context {UC : UnicodeCase} {NC : NumericColumn} {D : ShopspringDecimal} (db_add : float64 -> float64 -> float64) (s : PaymentDeps).
Context (tradeNo : Z -> string) (answer : option error * option RefundResponse).
Local Abbreviation serving := (serve tradeNo answer).
Definition users_of (w : World) : gmap Z UserRow := fd_users (pd_funds (w_db w)).
Definition alone {A} (p : pay A) (w : World) : A * World := let r := exec serving p [] w in (r.1.1, r.2).
Lemma exec_bind {A B} (p : pay A) (f : A -> pay B) tr w :
  exec serving (pbind p f) tr w = exec serving (f (exec serving p tr w).1.1) (exec serving p tr w).1.2 (exec serving p tr w).2.
Proof. revert tr w. induction p as [a|C c k IH]; intros tr w; [done|]. cbn. destruct (serving C c w). apply IH. Qed.
Lemma exec_statement {A} (m : M PaymentDB A) a db tr w :
  m (w_db w) = (Ok a, db) -> exec serving (exec_ m) tr w = (Ok a, Ev (Exec m) (Ok a) :: tr, with_db db w).
Proof. intros H. cbn. by rewrite H. Qed.
Lemma on_funds_Ok {A} (m : M FundsDB A) a f db : m (pd_funds db) = (Ok a, f) -> on_funds m db = (Ok a, set_funds f db).
Proof. intros H. unfold on_funds. by rewrite H. Qed.

Lemma deducted u amount usr tr w : users_of w !! u = Some usr ->
  ∃ tr' w', exec serving (DeductBalance u amount) tr w = (Ok tt, tr', w') /\
    users_of w' = <[u := add_balance (- units amount) usr]> (users_of w).
Proof.
  intros Hu. unfold users_of in *. unfold DeductBalance, attempt. rewrite exec_bind.
  destruct (units amount <=? usr_Balance usr) eqn:Henough.
  - rewrite (exec_statement _ 1 (set_funds (with_users (<[u := add_balance (- units amount) usr]> (users_of w)) (pd_funds (w_db w))) (w_db w))).
    2: { apply on_funds_Ok. unfold deduct_if_enough. by rewrite Hu, Henough. }
    cbn. eauto.
  - rewrite (exec_statement _ 0 (w_db w)).
    2: { unfold on_funds, deduct_if_enough. rewrite Hu, Henough. by destruct (w_db w). }
    cbn [fst snd]. change (0 <? 0) with false. cbn iota. rewrite exec_bind.
    rewrite (exec_statement _ 1 (set_funds (with_users (<[u := add_balance (- units amount) usr]> (users_of w)) (pd_funds (w_db w))) (w_db w))).
    2: { apply on_funds_Ok. unfold deduct_anyway. cbn. by rewrite Hu. }
    cbn. eauto.
Qed.

(** What a refund took from the balance and gives back because the
    provider refused leaves the balance as it was, whether or not it was
    enough; but the amount is counted as recharged once more. *)
Theorem refused_refund_gives_back p gErr usr w :
  takes_balance p = true -> users_of w !! po_UserID (rp_Order p) = Some usr ->
  let r := alone (let* _ := DeductBalance (po_UserID (rp_Order p)) (rp_BalanceToDeduct p) in RollbackRefund db_add s p gErr) w in
  r.1 = true /\
  users_of r.2 !! po_UserID (rp_Order p) =
    Some (mk_user (usr_Balance usr) (usr_TotalRecharged usr + units (rp_BalanceToDeduct p)) (usr_Concurrency usr) (usr_deleted usr)).
Proof.
  intros Ht Hu. cbv zeta. unfold alone. rewrite exec_bind. destruct (deducted _ (rp_BalanceToDeduct p) usr [] w Hu) as (tr & w1 & -> & Hw).
  cbn [fst snd]. assert (takes_days p = false) as Hd.
  { unfold takes_balance, takes_days in *. apply andb_true_iff in Ht as [Ht%String.eqb_eq _]. by rewrite Ht. }
  unfold RollbackRefund. cbv zeta. rewrite Ht, Hd, exec_bind, exec_bind.
  assert (fgtb (rp_BalanceToDeduct p) f0 = true) as Hp by (by apply andb_true_iff in Ht as [_ ?]).
  set (u := po_UserID (rp_Order p)) in *. set (x := rp_BalanceToDeduct p) in *.
  set (f1 := with_users (<[u := add_recharged (units x) (add_balance (units x) (add_balance (- units x) usr))]> (users_of w1)) (pd_funds (w_db w1))).
  rewrite (exec_statement _ tt (set_funds f1 (w_db w1))).
  2: { apply on_funds_Ok. unfold UpdateBalance, update_user. unfold users_of in Hw. rewrite Hw, lookup_insert_eq, Hp. unfold f1, users_of. by rewrite Hw. }
  cbn. unfold users_of. cbn. split; [done|]. rewrite lookup_insert_eq. unfold add_recharged, add_balance. cbn. do 2 f_equal. lia.
Qed.
End GivenBack.

(** ** The run *)

Module PaymentRun.
#[local] Existing Instance ascii_only_case.
#[local] Existing Instance AffiliateRun.whole.
(** Amounts without fractions, as floats. *)
#[local] Instance float_decimal : ShopspringDecimal := {|
  decimal := float64; NewFromFloat x := x; NewFromString _ := None; NewFromInt := f64_of_Z; dec_add := fadd; dec_mul := fmul; dec_div := fdiv;
  dec_pow10 n := f64_lit 1 n; Round x _ := x; RoundUp x _ := x; Truncate x _ := x; dec_Equal := feqb; IntPart := f64_to_int64;
  InexactFloat64 x := x; StringFixed _ _ := "100.00"%string |}.

Definition deps : PaymentDeps := {|
  pm_redeem := {| rd_cache := true; rd_redeemUserRepo := true; rd_subscriptions := true; rd_affiliate := None;
                  rd_ParseFloat := AffiliateRun.parse_none |};
  pm_subscriptions := true; pm_affiliate := Some AffiliateRun.settings; pm_column x := x; pm_error_text _ := "error"%string |}.
Definition cfg : CreateConfig := {|
  cc_MinAmount := f0; cc_MaxAmount := f0; cc_DailyLimit := f0; cc_OrderTimeoutMin := 30; cc_MaxPendingOrders := 3;
  cc_BalanceDisabled := false; cc_BalanceRechargeMultiplier := f1; cc_RechargeFeeRate := f0; cc_SubscriptionUSDToCNYRate := f0 |}.
Definition sel : InstanceSelection := mk_selection "1" TypeStripe ∅ "".
Definition monthly : SubscriptionPlan := {|
  plan_ID := 5; plan_Name := "monthly"; plan_ValidityDays := 30; plan_ValidityUnit := "day"; plan_DailyLimitUsd := None;
  plan_WeeklyLimitUsd := None; plan_MonthlyLimitUsd := None; plan_RateMultiplier := f1 |}.
Definition offer : PlanOffer := {| of_plan := monthly; of_Price := f64_of_Z 30; of_ForSale := true |}.
Definition recharge : CreateOrderRequest := {|
  cr_UserID := 2; cr_Amount := f64_of_Z 100; cr_PaymentType := TypeStripe; cr_OpenID := ""; cr_OrderType := OrderTypeBalance;
  cr_PlanID := 0; cr_PaymentSource := "" |}.
Definition subscribe : CreateOrderRequest := {|
  cr_UserID := 2; cr_Amount := f0; cr_PaymentType := TypeStripe; cr_OpenID := ""; cr_OrderType := OrderTypeSubscription;
  cr_PlanID := 5; cr_PaymentSource := "" |}.
Definition trade_no (n : Z) : string := if n =? 1 then "sub2_20250101aaaaaaaa"%string else "sub2_20250101bbbbbbbb"%string.
Definition report (n : Z) (amount : float64) : PaymentNotification := mk_notification "pi_1" (trade_no n) amount NotificationStatusSuccess ∅.

Definition start : PaymentDB :=
  mk_db ∅ 1 ∅ (mk_codes ∅ 1) AffiliateRun.start (mk_Table ∅ (mk_time 0 UTC) 1) {[5 := monthly]}
    {[1 := mk_instance 1 TypeStripe "" "" true true true]} [].
Definition db_plus := fadd.
Definition no_text (_ : float64) : string := ""%string.
Definition refused_by_gateway : option error * option RefundResponse := (Some (EPlain "gateway refused"), None).
Local Abbreviation serving := (serve trade_no refused_by_gateway).
Definition w0 : World := mk_world start (1700000000 * second) 1.
Definition after {A} (p : pay A) (w : World) : A * World := let r := exec serving p [] w in (r.1.1, r.2).
Definition w1 := (after (place_order deps no_text recharge None cfg (f64_of_Z 100) sel) w0).2.
Definition w2 := (after (HandlePaymentNotification db_plus deps (report 1 (f64_of_Z 100)) TypeStripe) w1).2.
Definition w3 := (after (HandlePaymentNotification db_plus deps (report 1 (f64_of_Z 100)) TypeStripe) w2).2.
Definition w4 := (after (place_order deps no_text subscribe (Some offer) cfg (f64_of_Z 30) sel) w3).2.
Definition w5 := (after (HandlePaymentNotification db_plus deps (report 2 (f64_of_Z 30)) TypeStripe) w4).2.
Definition prepared := after (PrepareRefund db_plus deps 1 f0 "" false true) w5.
Definition refund := match prepared.1 with
  | Ok (inl p) => after (ExecuteRefund db_plus deps p) prepared.2 | _ => (Err (EPlain "no plan"), prepared.2) end.
Definition status (w : World) (oid : Z) : option string := po_Status <$> pd_orders (w_db w) !! oid.
Definition balance (w : World) : option (Z * Z) := (λ u, (usr_Balance u, usr_TotalRecharged u)) <$> fd_users (pd_funds (w_db w)) !! 2.
Local Abbreviation run p := (Thread _ p (λ _ _, True)).
Local Abbreviation payments := (pool_step performs (payment_thread db_plus deps) same_tables).

Example first_order_completed : status w2 1 = Some OrderStatusCompleted /\ balance w2 = Some (100, 100).
Proof. vm_compute. done. Qed.
Example second_notification_changes_nothing : status w3 1 = Some OrderStatusCompleted /\ balance w3 = Some (100, 100).
Proof. vm_compute. done. Qed.
Example both_fulfilled : pd_history (w_db w5) = [Credited 1 2 100; Assigned 2 1].
Proof. vm_compute. done. Qed.
Example rebates_of_both : lg_SourceOrderID <$> fd_ledger (pd_funds (w_db w5)) = [Some 1; Some 2].
Proof. vm_compute. done. Qed.
Example refused_refund_counts_twice : status refund.2 1 = Some OrderStatusCompleted /\ balance refund.2 = Some (100, 200).
Proof. vm_compute. done. Qed.

Lemma start_fresh : fresh start.
Proof. by split_and!. Qed.
Lemma run_one {A} (p : pay A) ts w w' : payment_thread db_plus deps (run p) -> w' = (after p w).2 ->
  ∃ ts', rtc payments (w_db w, ts) (w_db w', ts').
Proof. intros Hs ->. eexists. exact (run_pool performs _ _ serving w_db (serve_performs trade_no refused_by_gateway) p _ ts [] w Hs). Qed.
Lemma run_w1 ts : ∃ ts', rtc payments (w_db w0, ts) (w_db w1, ts').
Proof. eapply run_one; [|unfold w1; reflexivity]. constructor. Qed.
Lemma run_w2 ts : ∃ ts', rtc payments (w_db w1, ts) (w_db w2, ts').
Proof. eapply run_one; [|unfold w2; reflexivity]. constructor. Qed.
Lemma run_w3 ts : ∃ ts', rtc payments (w_db w2, ts) (w_db w3, ts').
Proof. eapply run_one; [|unfold w3; reflexivity]. constructor. Qed.
Lemma run_w4 ts : ∃ ts', rtc payments (w_db w3, ts) (w_db w4, ts').
Proof. eapply run_one; [|unfold w4; reflexivity]. constructor. Qed.
Lemma run_w5 ts : ∃ ts', rtc payments (w_db w4, ts) (w_db w5, ts').
Proof. eapply run_one; [|unfold w5; reflexivity]. constructor. Qed.
Lemma paid_run : ∃ ts, rtc payments (start, []) (w_db w5, ts).
Proof.
  destruct (run_w1 []) as [ts1 H1]. destruct (run_w2 ts1) as [ts2 H2]. destruct (run_w3 ts2) as [ts3 H3].
  destruct (run_w4 ts3) as [ts4 H4]. destruct (run_w5 ts4) as [ts5 H5]. exists ts5. change start with (w_db w0).
  by rewrite H1, H2, H3, H4.
Qed.

Lemma orders_credited_once_witness :
  fresh start /\ status w5 1 = Some OrderStatusCompleted /\
  (∀ id, at_most_one (credits id (pd_history (w_db w5)))) /\
  ∀ oid o, pd_orders (w_db w5) !! oid = Some o -> settled o = true -> is_subscription (po_terms o) = false ->
    ∃ id c u, code_at id c (w_db w5) /\ rc_Code c = po_RechargeCode o /\
      credits id (pd_history (w_db w5)) = [(u, units (numeric (po_Amount o)))].
Proof.
  split; [exact start_fresh|]. split; [vm_compute; reflexivity|]. destruct paid_run as [ts H].
  apply (orders_credited_once db_plus deps AffiliateRun.whole_laws start (w_db w5) ts start_fresh H).
Defined.
Lemma subscriptions_assigned_once_witness :
  status w5 2 = Some OrderStatusCompleted /\
  (∀ oid, at_most_one (assignments oid (pd_history (w_db w5)))) /\
  ∀ oid o, pd_orders (w_db w5) !! oid = Some o -> settled o = true -> is_subscription (po_terms o) = true ->
    ∃ sub, assignments oid (pd_history (w_db w5)) = [sub].
Proof.
  split; [vm_compute; reflexivity|]. destruct paid_run as [ts H].
  apply (subscriptions_assigned_once db_plus deps AffiliateRun.whole_laws start (w_db w5) ts start_fresh H).
Defined.
Lemma rebates_accrued_once_witness :
  rebate_rows 1 (fd_ledger (pd_funds (w_db w5))) <> [] /\
  at_most_one (rebate_rows 1 (fd_ledger (pd_funds (w_db w5)))) /\
  (rebate_rows 1 (fd_ledger (pd_funds (w_db w5))) <> [] -> logged 1 "AFFILIATE_REBATE_APPLIED" (w_db w5)).
Proof.
  split; [by vm_compute|]. destruct paid_run as [ts H].
  apply (rebates_accrued_once db_plus deps AffiliateRun.whole_laws start (w_db w5) ts start_fresh H).
Defined.
(** A report of 99 for an order of 100. *)
Local Abbreviation short := (confirmPayment db_plus deps 1 "pi_1" (f64_of_Z 99) TypeStripe ∅).
Definition short_end : World := (after short w1).2.
Lemma run_alone {A} (p : pay A) w w' : w' = (after p w).2 ->
  ∃ ts, rtc (pool_step performs (λ _, False) same_orders) (w_db w, [Thread _ p (λ _ _, True)]) (w_db w', ts).
Proof.
  intros ->. eexists.
  exact (exec_pool performs (λ _, False) same_orders serving w_db (serve_performs trade_no refused_by_gateway) p (λ _ _, True) [] [] w).
Qed.
Lemma short_run : ∃ ts, rtc (pool_step performs (λ _, False) same_orders) (w_db w1, [Thread _ short (λ _ _, True)]) (w_db short_end, ts).
Proof. apply run_alone. unfold short_end. reflexivity. Qed.
Lemma mismatching_report_changes_no_order_witness :
  disagrees (default (mk_order (mk_terms 0 0 f0 "" "" "" "" None None GoTime.time_zero GoTime.time_zero ∅) "" f0 "" None None None None None None
                     (mk_refund f0 None None false None None None) GoTime.time_zero) (pd_orders (w_db w1) !! 1)) (f64_of_Z 99) TypeStripe ∅ /\
  pd_orders (w_db short_end) = pd_orders (w_db w1).
Proof.
  match goal with |- ?d /\ _ => assert d as Hm end.
  { apply another_amount. vm_compute. reflexivity. }
  split; [exact Hm|]. destruct (pd_orders (w_db w1) !! 1) as [o|] eqn:E; [|exfalso; vm_compute in E; discriminate E].
  destruct short_run as [ts H].
  apply (mismatching_report_changes_no_order db_plus deps 1 "pi_1" (f64_of_Z 99) TypeStripe ∅ (w_db w1) o (w_db short_end) ts);
    [exact E|exact Hm|exact H].
Defined.
(** What the first order gave is taken, and given back. *)
Definition taken : RefundPlan := match prepared.1 with
  | Ok (inl p) => p
  | _ => mk_plan 0 (mk_order (mk_terms 0 0 f0 "" "" "" "" None None GoTime.time_zero GoTime.time_zero ∅) "" f0 "" None None None None None None
           (mk_refund f0 None None false None None None) GoTime.time_zero) f0 f0 "" false "" f0 0 0
  end.
Lemma refused_refund_gives_back_witness :
  (rp_BalanceToDeduct taken = f64_of_Z 100 /\ users_of w5 !! 2 = Some (mk_user 100 100 5 false)) /\
  let r := alone trade_no refused_by_gateway (let* _ := DeductBalance (po_UserID (rp_Order taken)) (rp_BalanceToDeduct taken) in
             RollbackRefund db_plus deps taken None) w5 in
  r.1 = true /\
  users_of r.2 !! po_UserID (rp_Order taken) = Some (mk_user 100 (100 + units (rp_BalanceToDeduct taken)) 5 false).
Proof.
  split; [vm_compute; done|].
  apply (refused_refund_gives_back db_plus deps trade_no refused_by_gateway taken None (mk_user 100 100 5 false) w5);
    vm_compute; reflexivity.
Defined.
End PaymentRun.
