(* ===== verification/KeywordMatcher.v ===== *)
(** * Blocked keywords: the automaton

    [service/content_moderation_keyword_matcher.go]: an Aho-Corasick automaton
    over the lower-cased bytes of the blocked keywords, built in three phases
    (the trie, breadth-first failure links, flattening the outgoing edges of
    every node into a sorted segment of one array), and the scan of a text.
    [matchBlockedKeyword] ([service/content_moderation.go]) is the direct
    search that the automaton replaces.

    A computation that would index a slice out of range (a panic in Go) or use
    up its fuel is [None].  Slices of structs are lists, and an update of a
    field is an update of the list.  [KeywordMatcherProps] shows that neither
    happens and that the automaton finds what the direct search finds. *)

From S2P Require Import Prelude GoStrings.
From Stdlib Require Import Ascii String.

(** ** Machine integers and indexing *)

Definition wrap32 (z : Z) : Z := (z + 2 ^ 31) mod 2 ^ 32 - 2 ^ 31.
Definition wrapu16 (z : Z) : Z := z mod 2 ^ 16.

(** [l[i]], and [l[i] = x]. *)
Definition at_ {A} (l : list A) (i : Z) : option A :=
  if i <? 0 then None else l !! Z.to_nat i.
Definition set_at {A} (l : list A) (i : Z) (x : A) : option (list A) :=
  if i <? 0 then None
  else if decide (Z.to_nat i < List.length l)%nat then Some (<[Z.to_nat i := x]> l) else None.

Definition len_ {A} (l : list A) : Z := Z.of_nat (List.length l).

(** ** Data *)

Record contentModerationKeywordNode := Node {
  failure : Z;
  bestKeyword : Z;
  edgeStart : Z;
  edgeCount : Z }.

Record contentModerationKeywordEdge := Edge {
  target : Z;
  label : ascii }.

Record contentModerationKeywordBuildEdge := BuildEdge {
  b_target : Z;
  nextSibling : Z;
  b_label : ascii }.

Record contentModerationKeywordMatcher := Matcher {
  m_nodes : list contentModerationKeywordNode;
  m_edges : list contentModerationKeywordEdge;
  m_rootTransitions : list Z;
  m_keywords : list string }.

Abbreviation nodes_t := (list contentModerationKeywordNode).
Abbreviation bedges_t := (list contentModerationKeywordBuildEdge).

Definition set_failure (n : contentModerationKeywordNode) (v : Z) :=
  Node v (bestKeyword n) (edgeStart n) (edgeCount n).
Definition set_best (n : contentModerationKeywordNode) (v : Z) :=
  Node (failure n) v (edgeStart n) (edgeCount n).
Definition set_edgeStart (n : contentModerationKeywordNode) (v : Z) :=
  Node (failure n) (bestKeyword n) v (edgeCount n).
Definition set_edgeCount (n : contentModerationKeywordNode) (v : Z) :=
  Node (failure n) (bestKeyword n) (edgeStart n) v.

(** [nodes[i].field = v] for a setter of the field. *)
Definition update_node (nodes : nodes_t) (i : Z)
    (set : contentModerationKeywordNode -> Z -> contentModerationKeywordNode) (v : Z) :
    option nodes_t :=
  n ← at_ nodes i; set_at nodes i (set n v).

Definition newContentModerationKeywordNode : contentModerationKeywordNode := Node 0 (-1) 0 0.

Definition contentModerationKeywordBuildFirstEdge (n : contentModerationKeywordNode) : Z :=
  if edgeStart n =? 0 then -1 else wrap32 (edgeStart n - 1).

(** [for i := first; i >= 0; i = edges[i].nextSibling { if edges[i].label ==
    label { return edges[i].target } }; return -1]; no list of siblings is
    longer than the array. *)
Fixpoint find_sibling (fuel : nat) (edges : bedges_t) (i : Z) (c : ascii) : option Z :=
  if i <? 0 then Some (-1)
  else match fuel with
       | O => None
       | S fuel =>
           e ← at_ edges i;
           if Ascii.eqb (b_label e) c then Some (b_target e)
           else find_sibling fuel edges (nextSibling e) c
       end.

Definition contentModerationKeywordBuildTransition (nodes : nodes_t) (edges : bedges_t)
    (state : Z) (c : ascii) : option Z :=
  if (state <? 0) || (len_ nodes <=? state) then Some (-1)
  else n ← at_ nodes state;
       find_sibling (List.length edges) edges (contentModerationKeywordBuildFirstEdge n) c.

(** The loops over the edges of a node that run a body. *)
Fixpoint for_siblings {St} (fuel : nat) (edges : bedges_t) (i : Z)
    (body : contentModerationKeywordBuildEdge -> St -> option St) (s : St) : option St :=
  if i <? 0 then Some s
  else match fuel with
       | O => None
       | S fuel =>
           e ← at_ edges i;
           s' ← body e s;
           for_siblings fuel edges (nextSibling e) body s'
       end.

Definition for_edges_of {St} (nodes : nodes_t) (edges : bedges_t) (state : Z)
    (body : contentModerationKeywordBuildEdge -> St -> option St) (s : St) : option St :=
  n ← at_ nodes state;
  for_siblings (List.length edges) edges (contentModerationKeywordBuildFirstEdge n) body s.

Definition minKeywordIndex (left right : Z) : Z :=
  if left <? 0 then right
  else if (right <? 0) || (left <? right) then left else right.

Section Build.
Context {UC : UnicodeCase}.

(** ** The trie *)

(** One byte of a keyword. *)
Definition build_step (nodes : nodes_t) (edges : bedges_t) (state : Z) (c : ascii) :
    option (nodes_t * bedges_t * Z) :=
  next ← contentModerationKeywordBuildTransition nodes edges state c;
  if next <? 0 then
    let next := wrap32 (len_ nodes) in
    let nodes := nodes ++ [newContentModerationKeywordNode] in
    n ← at_ nodes state;
    let edges := edges ++ [BuildEdge next (contentModerationKeywordBuildFirstEdge n) c] in
    nodes ← update_node nodes state set_edgeStart (wrapu32 (len_ edges));
    Some (nodes, edges, next)
  else Some (nodes, edges, next).

Fixpoint build_word (nodes : nodes_t) (edges : bedges_t) (state : Z) (w : bytes) :
    option (nodes_t * bedges_t * Z) :=
  match w with
  | [] => Some (nodes, edges, state)
  | c :: w =>
      '(nodes, edges, state) ← build_step nodes edges state c;
      build_word nodes edges state w
  end.

Fixpoint build_trie (nodes : nodes_t) (edges : bedges_t) (keywordIndex : Z)
    (keywords : list string) : option (nodes_t * bedges_t) :=
  match keywords with
  | [] => Some (nodes, edges)
  | keyword :: rest =>
      if str_empty keyword then build_trie nodes edges (keywordIndex + 1) rest
      else
        '(nodes, edges, state) ← build_word nodes edges 0 (to_bytes (ToLower keyword));
        n ← at_ nodes state;
        nodes ← (if (bestKeyword n <? 0) || (wrap32 keywordIndex <? bestKeyword n)
                 then update_node nodes state set_best (wrap32 keywordIndex)
                 else Some nodes);
        build_trie nodes edges (keywordIndex + 1) rest
  end.

(** ** Failure links, breadth first *)

Definition seed_root (nodes : nodes_t) (edges : bedges_t) : option (list Z * list Z) :=
  for_edges_of nodes edges 0
    (λ edge '(rootTransitions, queue),
       rootTransitions ← set_at rootTransitions (byte_val (b_label edge)) (b_target edge);
       Some (rootTransitions, queue ++ [b_target edge]))
    (repeat 0 256, []).

(** [for fallback < 0 && failure != 0 { ... }]: every failure link leads to a
    shorter word, so the walk is shorter than the array of nodes. *)
Fixpoint fallback_walk (fuel : nat) (nodes : nodes_t) (edges : bedges_t)
    (fail fallback : Z) (c : ascii) : option Z :=
  if (fallback <? 0) && negb (fail =? 0) then
    match fuel with
    | O => None
    | S fuel =>
        n ← at_ nodes fail;
        fallback ← contentModerationKeywordBuildTransition nodes edges (failure n) c;
        fallback_walk fuel nodes edges (failure n) fallback c
    end
  else Some fallback.

(** One edge of the node [state] that is taken from the queue. *)
Definition link_edge (edges : bedges_t) (state : Z) (edge : contentModerationKeywordBuildEdge)
    (st : nodes_t * list Z) : option (nodes_t * list Z) :=
  let '(nodes, queue) := st in
  n ← at_ nodes state;
  fallback ← contentModerationKeywordBuildTransition nodes edges (failure n) (b_label edge);
  fallback ← fallback_walk (List.length nodes) nodes edges (failure n) fallback (b_label edge);
  nodes ← (if 0 <=? fallback then update_node nodes (b_target edge) set_failure fallback
           else Some nodes);
  t ← at_ nodes (b_target edge);
  f ← at_ nodes (failure t);
  nodes ← update_node nodes (b_target edge) set_best
            (minKeywordIndex (bestKeyword t) (bestKeyword f));
  Some (nodes, queue ++ [b_target edge]).

(** [for queueIndex := 0; queueIndex < len(queue); queueIndex++]; every node
    is queued once. *)
Fixpoint link_queue (fuel : nat) (edges : bedges_t) (queueIndex : Z) (st : nodes_t * list Z) :
    option (nodes_t * list Z) :=
  if queueIndex <? len_ st.2 then
    match fuel with
    | O => None
    | S fuel =>
        state ← at_ st.2 queueIndex;
        st ← for_edges_of st.1 edges state (link_edge edges state) st;
        link_queue fuel edges (queueIndex + 1) st
    end
  else Some st.

(** ** Flattening the edges *)

Abbreviation outgoing_t := (list contentModerationKeywordEdge).

Definition collect_edges (nodes : nodes_t) (edges : bedges_t) (nodeIndex : Z)
    (outgoing : outgoing_t) : option (outgoing_t * Z) :=
  for_edges_of nodes edges nodeIndex
    (λ edge '(outgoing, count),
       outgoing ← set_at outgoing count (Edge (b_target edge) (b_label edge));
       Some (outgoing, count + 1))
    (outgoing, 0).

(** The inner loop of the insertion sort, and the assignment after it. *)
Fixpoint insert_down (insertAt : nat) (current : contentModerationKeywordEdge)
    (outgoing : outgoing_t) : option outgoing_t :=
  match insertAt with
  | O => set_at outgoing 0 current
  | S i =>
      e ← at_ outgoing (Z.of_nat i);
      if byte_val (label current) <? byte_val (label e) then
        outgoing ← set_at outgoing (Z.of_nat (S i)) e;
        insert_down i current outgoing
      else set_at outgoing (Z.of_nat (S i)) current
  end.

(** [for index := 1; index < count; index++], [todo] iterations from [index]. *)
Fixpoint insertion_sort (todo index : nat) (outgoing : outgoing_t) : option outgoing_t :=
  match todo with
  | O => Some outgoing
  | S todo =>
      current ← at_ outgoing (Z.of_nat index);
      outgoing ← insert_down index current outgoing;
      insertion_sort todo (S index) outgoing
  end.

(** [for nodeIndex := range buildNodes], [todo] nodes from [nodeIndex]. *)
Fixpoint flatten (todo : nat) (nodeIndex : Z) (bedges : bedges_t) (nodes : nodes_t)
    (edges outgoing : outgoing_t) : option (nodes_t * outgoing_t) :=
  match todo with
  | O => Some (nodes, edges)
  | S todo =>
      '(outgoing, count) ← collect_edges nodes bedges nodeIndex outgoing;
      outgoing ← insertion_sort (Z.to_nat count - 1) 1 outgoing;
      nodes ← update_node nodes nodeIndex set_edgeStart (wrapu32 (len_ edges));
      nodes ← update_node nodes nodeIndex set_edgeCount (wrapu16 count);
      flatten todo (nodeIndex + 1) bedges nodes
        (edges ++ firstn (Z.to_nat count) outgoing) outgoing
  end.

(** ** The constructor *)

(** [Some None] is the [nil] the code returns without keywords. *)
Definition newContentModerationKeywordMatcher (keywords : list string) :
    option (option contentModerationKeywordMatcher) :=
  match keywords with
  | [] => Some None
  | _ =>
      '(nodes, bedges) ← build_trie [newContentModerationKeywordNode] [] 0 keywords;
      if (List.length nodes =? 1)%nat then Some None
      else
        '(rootTransitions, queue) ← seed_root nodes bedges;
        '(nodes, _) ← link_queue (List.length nodes) bedges 0 (nodes, queue);
        '(nodes, edges) ← flatten (List.length nodes) 0 bedges nodes []
                            (repeat (Edge 0 (byte_of 0)) 256);
        Some (Some (Matcher nodes edges rootTransitions keywords))
  end.

(** ** Scanning a text *)

(** [for left < right]: the distance at least halves. *)
Fixpoint lower_bound (fuel : nat) (edges : outgoing_t) (left right : Z) (c : ascii) : option Z :=
  if left <? right then
    match fuel with
    | O => None
    | S fuel =>
        let middle := left + Z.quot (right - left) 2 in
        edge ← at_ edges middle;
        if byte_val (label edge) <? byte_val c then lower_bound fuel edges (middle + 1) right c
        else lower_bound fuel edges left middle c
    end
  else Some left.

Definition next (m : contentModerationKeywordMatcher) (state : Z) (c : ascii) : option Z :=
  if state =? 0 then at_ (m_rootTransitions m) (byte_val c)
  else if (state <? 0) || (len_ (m_nodes m) <=? state) then Some 0
  else
    node ← at_ (m_nodes m) state;
    let right := edgeStart node + edgeCount node in
    left ← lower_bound (Z.to_nat (edgeCount node)) (m_edges m) (edgeStart node) right c;
    if left <? right then
      e ← at_ (m_edges m) left;
      if Ascii.eqb (label e) c then Some (target e) else Some 0
    else Some 0.

(** The inner [for] of [Match]. *)
Fixpoint advance (fuel : nat) (m : contentModerationKeywordMatcher) (state : Z) (c : ascii) :
    option Z :=
  match fuel with
  | O => None
  | S fuel =>
      nx ← next m state c;
      if negb (nx =? 0) then Some nx
      else if state =? 0 then Some state
      else n ← at_ (m_nodes m) state; advance fuel m (failure n) c
  end.

(** [inl] is the early return of the first keyword. *)
Fixpoint scan (m : contentModerationKeywordMatcher) (state best : Z) (lower : bytes) :
    option (string + Z) :=
  match lower with
  | [] => Some (inr best)
  | c :: lower =>
      state ← advance (List.length (m_nodes m)) m state c;
      n ← at_ (m_nodes m) state;
      let best := minKeywordIndex best (bestKeyword n) in
      if best =? 0 then k ← at_ (m_keywords m) 0; Some (inl k)
      else scan m state best lower
  end.

(** [Match]; a hit is [Some keyword]. *)
Definition Match (m : option contentModerationKeywordMatcher) (text : string) :
    option (option string) :=
  match m with
  | None => Some None
  | Some m =>
      if str_empty text || (len_ (m_nodes m) =? 0) || (len_ (m_keywords m) =? 0) then Some None
      else
        r ← scan m 0 (-1) (to_bytes (ToLower text));
        match r with
        | inl k => Some (Some k)
        | inr best =>
            if (best <? 0) || (len_ (m_keywords m) <=? best) then Some None
            else k ← at_ (m_keywords m) best; Some (Some k)
        end
  end.

(** ** The direct search *)

Fixpoint first_contained (lower : string) (keywords : list string) : option string :=
  match keywords with
  | [] => None
  | kw :: rest =>
      if str_empty kw then first_contained lower rest
      else if Contains lower (ToLower kw) then Some kw
      else first_contained lower rest
  end.

Definition matchBlockedKeyword (text : string) (keywords : list string) : option string :=
  if str_empty text || (len_ keywords =? 0) then None
  else first_contained (ToLower text) keywords.

End Build.

Definition run_match (text : string) (keywords : list string) : option (option string) :=
  m ← newContentModerationKeywordMatcher (UC := ascii_only_case) keywords;
  Match (UC := ascii_only_case) m text.

Example match_overlapping :
  map (λ t, run_match t ["she"; "He"; ""; "hers"; "his"]%string)
    ["ushers"; "a HEN"; "this"; "xyz"; ""; "hhis"]%string
  = [Some (Some "she"); Some (Some "He"); Some (Some "his"); Some None; Some None;
     Some (Some "his")]%string.
Proof. vm_compute. reflexivity. Qed.
