(* ===== verification/KeywordTrie.v ===== *)
(** * Blocked keywords: the trie and its failure links

    First phase of the automaton of [KeywordMatcher]: the trie.  [words] gives
    every node the bytes on the path from the root to it; the theorems about
    the arrays are stated over it.  Also here: the least index of a keyword
    with a property, and the loops over linked edges as folds over a list.

    Second phase: the failure link of a node is the longest proper suffix of
    its word that is a node, and its keyword becomes the first one whose
    lower-cased bytes end the word.  The walk along failure links computes
    longest suffixes ([lsuf]); the queue handles the nodes by the length of
    their words. *)

From S2P Require Import Prelude GoStrings KeywordMatcher.
From Stdlib Require Import Ascii String.

Abbreviation word := (list ascii).

(** ** Integers and indexing *)

Lemma wrap32_id z : - 2 ^ 31 <= z < 2 ^ 31 -> wrap32 z = z.
Proof. unfold wrap32. intros H. rewrite Z.mod_small; lia. Qed.
Lemma wrapu32_id z : 0 <= z < 2 ^ 32 -> wrapu32 z = z.
Proof. intros H. unfold wrapu32. rewrite Z.mod_small; lia. Qed.
Lemma wrapu16_id z : 0 <= z < 2 ^ 16 -> wrapu16 z = z.
Proof. intros H. unfold wrapu16. rewrite Z.mod_small; lia. Qed.

Lemma at_nat {A} (l : list A) (i : nat) : at_ l (Z.of_nat i) = l !! i.
Proof. unfold at_. destruct (Z.ltb_spec (Z.of_nat i) 0); [lia|]. by rewrite Nat2Z.id. Qed.

Lemma at_Some {A} (l : list A) (i : nat) x : l !! i = Some x -> at_ l (Z.of_nat i) = Some x.
Proof. by rewrite at_nat. Qed.

Lemma set_at_nat {A} (l : list A) (i : nat) x :
  (i < List.length l)%nat -> set_at l (Z.of_nat i) x = Some (<[i := x]> l).
Proof.
  intros H. unfold set_at. destruct (Z.ltb_spec (Z.of_nat i) 0); [lia|].
  rewrite Nat2Z.id. by rewrite decide_True.
Qed.

Lemma update_node_nat nodes (i : nat) n set v :
  nodes !! i = Some n -> update_node nodes (Z.of_nat i) set v = Some (<[i := set n v]> nodes).
Proof.
  intros H. unfold update_node. rewrite (at_Some _ _ _ H). simpl.
  apply set_at_nat, lookup_lt_is_Some. eauto.
Qed.

Lemma len_nat {A} (l : list A) : len_ l = Z.of_nat (List.length l).
Proof. done. Qed.

Lemma len_nonneg {A} (l : list A) : 0 <= len_ l.
Proof. unfold len_. lia. Qed.

(** ** The least index with a property *)

Fixpoint first_index {A} (p : A -> bool) (l : list A) : Z :=
  match l with
  | [] => -1
  | x :: l => if p x then 0
              else if first_index p l <? 0 then -1 else first_index p l + 1
  end.

Section FirstIndex.
Context {A : Type}.
Implicit Types (p q : A -> bool) (l : list A).

Lemma first_index_range p l : -1 <= first_index p l < len_ l \/ (l = [] /\ first_index p l = -1).
Proof.
  unfold len_. induction l as [|x l IH]; simpl; [by right|left].
  destruct (p x); [lia|]. destruct (Z.ltb_spec (first_index p l) 0); [lia|].
  destruct IH as [?|[-> ?]]; simpl in *; lia.
Qed.

Lemma first_index_ge p l : -1 <= first_index p l.
Proof. destruct (first_index_range p l) as [?|[_ ->]]; lia. Qed.

Lemma first_index_lt p l : first_index p l < len_ l.
Proof. destruct (first_index_range p l) as [?|[-> ->]]; unfold len_ in *; simpl; lia. Qed.

Lemma first_index_ext p q l : (∀ x, x ∈ l -> p x = q x) -> first_index p l = first_index q l.
Proof.
  induction l as [|x l IH]; intros H; simpl; [done|].
  rewrite (H x) by set_solver. rewrite IH; [done|]. intros y Hy. apply H. set_solver.
Qed.

Lemma first_index_min p q l :
  minKeywordIndex (first_index p l) (first_index q l) = first_index (λ x, p x || q x) l.
Proof.
  unfold minKeywordIndex. induction l as [|x l IH]; simpl; [done|].
  pose proof (first_index_ge p l). pose proof (first_index_ge q l).
  pose proof (first_index_ge (λ x, p x || q x) l). revert IH.
  destruct (p x), (q x); simpl; repeat case_match; lia.
Qed.

Lemma first_index_none p l : (∀ x, x ∈ l -> p x = false) -> first_index p l = -1.
Proof.
  induction l as [|x l IH]; intros H; simpl; [done|].
  rewrite (H x) by set_solver. rewrite IH; [done|]. intros y Hy. apply H. set_solver.
Qed.

Lemma first_index_neg p l x : first_index p l < 0 -> x ∈ l -> p x = false.
Proof.
  induction l as [|y l IH]; simpl; intros H Hx; [set_solver|].
  destruct (p y) eqn:Hy; [lia|].
  destruct (Z.ltb_spec (first_index p l) 0); [|lia].
  apply elem_of_cons in Hx as [->|Hx]; [done|]. by apply IH.
Qed.

Lemma first_index_snoc p l x :
  first_index p (l ++ [x])
  = if first_index p l <? 0 then (if p x then len_ l else -1) else first_index p l.
Proof.
  unfold len_. induction l as [|y l IH]; simpl.
  { destruct (p x); reflexivity. }
  destruct (p y); simpl; [done|]. rewrite IH.
  destruct (Z.ltb_spec (first_index p l) 0); simpl.
  - destruct (p x); [|done]. destruct (Z.ltb_spec (Z.of_nat (List.length l)) 0); lia.
  - repeat case_match; lia.
Qed.

Lemma first_index_mono p q l :
  (∀ x, p x = true -> q x = true) -> first_index p l = 0 -> first_index q l = 0.
Proof.
  destruct l as [|x l]; simpl; intros H; [lia|].
  pose proof (first_index_ge p l).
  destruct (p x) eqn:E; [by rewrite (H _ E)|]. case_match; lia.
Qed.

End FirstIndex.

(** ** Linked edges *)

Abbreviation bedge := contentModerationKeywordBuildEdge.

Fixpoint chain (edges : bedges_t) (i : Z) (es : list bedge) : Prop :=
  match es with
  | [] => i < 0
  | e :: es => ∃ k : nat, i = Z.of_nat k /\ edges !! k = Some e /\ chain edges (nextSibling e) es
  end.

Lemma chain_app edges extra i es : chain edges i es -> chain (edges ++ extra) i es.
Proof.
  revert i. induction es as [|e es IH]; intros i; simpl; [done|].
  intros (k & -> & Hk & H). exists k. split_and!; auto. by apply lookup_app_l_Some.
Qed.

Lemma find_sibling_chain edges c fuel i es :
  chain edges i es -> (List.length es <= fuel)%nat ->
  find_sibling fuel edges i c
  = Some (match list_find (λ e, b_label e = c) es with
          | Some (_, e) => b_target e | None => -1 end).
Proof.
  revert fuel i. induction es as [|e es IH]; intros fuel i Hc Hl; simpl in Hc.
  - destruct fuel; simpl; destruct (Z.ltb_spec i 0); done || lia.
  - destruct Hc as (k & -> & Hk & Hc). destruct fuel as [|fuel]; [simpl in Hl; lia|]. simpl.
    destruct (Z.ltb_spec (Z.of_nat k) 0); [lia|]. rewrite (at_Some _ _ _ Hk). simpl.
    destruct (Ascii.eqb_spec (b_label e) c) as [E|E].
    + by rewrite decide_True.
    + rewrite (decide_False (P := b_label e = c)) by done. rewrite IH by (auto; simpl in Hl; lia).
      by destruct (list_find _ es) as [[? ?]|].
Qed.

Fixpoint fold_opt {E St} (body : E -> St -> option St) (es : list E) (s : St) : option St :=
  match es with [] => Some s | e :: es => s' ← body e s; fold_opt body es s' end.

Lemma for_siblings_chain {St} edges (body : bedge -> St -> option St) fuel i es s :
  chain edges i es -> (List.length es <= fuel)%nat ->
  for_siblings fuel edges i body s = fold_opt body es s.
Proof.
  revert fuel i s. induction es as [|e es IH]; intros fuel i s Hc Hl; simpl in Hc.
  - destruct fuel; simpl; destruct (Z.ltb_spec i 0); done || lia.
  - destruct Hc as (k & -> & Hk & Hc). destruct fuel as [|fuel]; [simpl in Hl; lia|]. simpl.
    destruct (Z.ltb_spec (Z.of_nat k) 0); [lia|]. rewrite (at_Some _ _ _ Hk). simpl.
    destruct (body e s); simpl; [|done]. apply IH; simpl in Hl; auto; lia.
Qed.

(** ** The words of the nodes *)

Definition first_edge (start : Z) : Z := if start =? 0 then -1 else wrap32 (start - 1).

(** The node of a word, or -1. *)
Definition zidx (words : list word) (w : word) : Z :=
  match list_find (λ v, v = w) words with Some (i, _) => Z.of_nat i | None => -1 end.

Lemma zidx_lookup words i w : NoDup words -> words !! i = Some w -> zidx words w = Z.of_nat i.
Proof.
  intros Hnd Hi. unfold zidx. destruct (list_find _ words) as [[j v]|] eqn:E.
  - apply list_find_Some in E as (Hj & -> & _). f_equal. by eapply NoDup_lookup.
  - exfalso. eapply list_find_None, Forall_forall in E; [|eapply list_elem_of_lookup_2, Hi].
    by apply E.
Qed.

Lemma zidx_none words w : w ∉ words -> zidx words w = -1.
Proof.
  intros H. unfold zidx. destruct (list_find _ words) as [[j v]|] eqn:E; [|done].
  apply list_find_Some in E as (Hj & -> & _). destruct H. by eapply list_elem_of_lookup_2.
Qed.

(** The edges that leave the node of [w]. *)
Definition children (edges : bedges_t) (words : list word) (w : word) (es : list bedge) : Prop :=
  NoDup es /\
  ∀ e, e ∈ es <-> ∃ k, edges !! k = Some e /\ words !! S k = Some (w ++ [b_label e]).

Record trie (starts : list Z) (edges : bedges_t) (words : list word) : Prop := {
  t_root : words !! 0%nat = Some [];
  t_nodup : NoDup words;
  t_nodes : List.length starts = List.length words;
  t_edges : List.length words = S (List.length edges);
  t_small : len_ words < 2 ^ 31;
  t_target : ∀ k e, edges !! k = Some e -> b_target e = Z.of_nat (S k);
  t_parent : ∀ k e, edges !! k = Some e ->
    ∃ i w, (i <= k)%nat /\ words !! i = Some w /\ words !! S k = Some (w ++ [b_label e]);
  t_chain : ∀ i s w, starts !! i = Some s -> words !! i = Some w ->
    ∃ es, chain edges (first_edge s) es /\ children edges words w es }.

Lemma children_length edges words w es :
  children edges words w es -> (List.length es <= List.length edges)%nat.
Proof.
  intros [Hnd H]. apply NoDup_ListNoDup in Hnd. apply NoDup_incl_length; [done|].
  intros e He%list_elem_of_In%H. destruct He as (k & Hk & _).
  apply list_elem_of_In. by eapply list_elem_of_lookup_2.
Qed.

Section Trie.
Context {starts : list Z} {edges : bedges_t} {words : list word}.
Hypothesis T : trie starts edges words.

Lemma trie_node i w : words !! i = Some w -> ∃ s, starts !! i = Some s.
Proof.
  intros H. apply lookup_lt_is_Some. rewrite (t_nodes _ _ _ T).
  apply lookup_lt_is_Some. eauto.
Qed.

Lemma trie_edge j w c : words !! j = Some (w ++ [c]) ->
  ∃ k e, j = S k /\ edges !! k = Some e /\ b_label e = c /\ b_target e = Z.of_nat j /\
         ∃ i, (i < j)%nat /\ words !! i = Some w.
Proof.
  intros Hj. destruct j as [|k].
  { rewrite (t_root _ _ _ T) in Hj. injection Hj as Hj. by destruct w. }
  assert (k < List.length edges)%nat as Hk.
  { pose proof (t_edges _ _ _ T). apply lookup_lt_Some in Hj. lia. }
  apply lookup_lt_is_Some in Hk as [e He].
  destruct (t_parent _ _ _ T _ _ He) as (i & v & Hi & Hv & Hw).
  rewrite Hj in Hw. injection Hw as Hw. apply app_inj_tail in Hw as [-> ->].
  exists k, e. split_and!; [done..|by apply (t_target _ _ _ T)|].
  exists i. split; [lia|done].
Qed.

(** The words are closed under prefixes. *)
Lemma trie_prefix w c : w ++ [c] ∈ words -> w ∈ words.
Proof.
  intros [j Hj]%list_elem_of_lookup.
  destruct (trie_edge _ _ _ Hj) as (_ & _ & _ & _ & _ & _ & i & _ & Hi).
  by eapply list_elem_of_lookup_2.
Qed.

(** A node is deeper than its word is long. *)
Lemma trie_depth i w : words !! i = Some w -> (List.length w <= i)%nat.
Proof.
  revert w. induction (lt_wf i) as [i _ IH]. intros w Hw.
  destruct w as [|c w] using rev_ind; [simpl; lia|].
  destruct (trie_edge _ _ _ Hw) as (_ & _ & _ & _ & _ & _ & p & Hp & Hv).
  specialize (IH p Hp _ Hv). rewrite length_app. simpl. lia.
Qed.

Lemma children_label w es e : children edges words w es -> e ∈ es ->
  ∃ j, b_target e = Z.of_nat j /\ words !! j = Some (w ++ [b_label e]).
Proof.
  intros [_ H] (k & Hk & Hw)%H. exists (S k). split; [|done]. by apply (t_target _ _ _ T).
Qed.

Lemma children_find w es c : children edges words w es ->
  match list_find (λ e, b_label e = c) es with Some (_, e) => b_target e | None => -1 end
  = zidx words (w ++ [c]).
Proof.
  intros Hes. destruct (list_find _ es) as [[n e]|] eqn:E.
  - apply list_find_Some in E as (Hn & Hc & _). apply list_elem_of_lookup_2 in Hn.
    destruct (children_label _ _ _ Hes Hn) as (j & -> & Hj). rewrite Hc in Hj.
    symmetry. apply zidx_lookup; [apply (t_nodup _ _ _ T)|done].
  - symmetry. apply zidx_none. intros [j Hj]%list_elem_of_lookup.
    destruct (trie_edge _ _ _ Hj) as (k & e & -> & He & Hc & _).
    eapply list_find_None, Forall_forall in E; [by apply E|].
    apply Hes. exists k. by rewrite Hc.
Qed.

End Trie.

Lemma trie_of_node nodes edges words i w : trie (edgeStart <$> nodes) edges words ->
  words !! i = Some w ->
  ∃ n es, nodes !! i = Some n /\ (i < List.length nodes)%nat /\
          chain edges (contentModerationKeywordBuildFirstEdge n) es /\
          children edges words w es.
Proof.
  intros T Hi. destruct (trie_node T _ _ Hi) as [s Hs].
  destruct (t_chain _ _ _ T _ _ _ Hs Hi) as (es & Hc & Hes).
  rewrite list_lookup_fmap in Hs. destruct (nodes !! i) as [n|] eqn:Hn; [|done].
  injection Hs as <-. exists n, es. split_and!; auto. by eapply lookup_lt_Some.
Qed.

Lemma transition_ok nodes edges words i w c : trie (edgeStart <$> nodes) edges words ->
  words !! i = Some w ->
  contentModerationKeywordBuildTransition nodes edges (Z.of_nat i) c
  = Some (zidx words (w ++ [c])).
Proof.
  intros T Hi. destruct (trie_of_node _ _ _ _ _ T Hi) as (n & es & Hn & Hlt & Hc & Hes).
  unfold contentModerationKeywordBuildTransition. rewrite len_nat.
  destruct (Z.ltb_spec (Z.of_nat i) 0); [lia|].
  destruct (Z.leb_spec (Z.of_nat (List.length nodes)) (Z.of_nat i)); [lia|]. simpl.
  rewrite (at_Some _ _ _ Hn). simpl. rewrite (find_sibling_chain _ _ _ _ _ Hc).
  - f_equal. by apply (children_find T).
  - by eapply children_length.
Qed.

Lemma for_edges_ok nodes edges words i w :
  trie (edgeStart <$> nodes) edges words -> words !! i = Some w ->
  ∃ es, children edges words w es /\
        ∀ St (body : bedge -> St -> option St) s,
          for_edges_of nodes edges (Z.of_nat i) body s = fold_opt body es s.
Proof.
  intros T Hi. destruct (trie_of_node _ _ _ _ _ T Hi) as (n & es & Hn & Hlt & Hc & Hes).
  exists es. split; [done|]. intros St body s. unfold for_edges_of.
  rewrite (at_Some _ _ _ Hn). simpl.
  apply for_siblings_chain; [done|]. by eapply children_length.
Qed.

(** ** Growing the trie *)

Lemma trie_start : trie [0] [] [[]].
Proof.
  split.
  - done.
  - apply NoDup_singleton.
  - done.
  - done.
  - vm_compute. done.
  - intros k e H. by rewrite lookup_nil in H.
  - intros k e H. by rewrite lookup_nil in H.
  - intros [|i] s w Hs Hw; simpl in *; [|by rewrite lookup_nil in Hs].
    injection Hs as <-. exists []. split; [vm_compute; done|].
    split; [apply NoDup_nil_2|]. intros e. split; [set_solver|].
    intros (k & Hk & _). by rewrite lookup_nil in Hk.
Qed.

Lemma first_edge_nat k : Z.of_nat k < 2 ^ 31 -> first_edge (Z.of_nat (S k)) = Z.of_nat k.
Proof.
  intros H. unfold first_edge. destruct (Z.eqb_spec (Z.of_nat (S k)) 0); [lia|].
  rewrite wrap32_id; lia.
Qed.

Section Extend.
Context {starts : list Z} {edges : bedges_t} {words : list word}.
Hypothesis T : trie starts edges words.
Context {i : nat} {w : word} {s : Z} {c : ascii}.
Hypothesis Hi : words !! i = Some w.
Hypothesis Hs : starts !! i = Some s.
Hypothesis Hc : w ++ [c] ∉ words.
Hypothesis Hsmall : len_ words + 1 < 2 ^ 31.

Local Definition ext_edge : bedge :=
  BuildEdge (Z.of_nat (List.length words)) (first_edge s) c.
Local Definition ext_words := words ++ [w ++ [c]].
Local Definition ext_edges := edges ++ [ext_edge].

Lemma ext_edge_lookup k e : ext_edges !! k = Some e ->
  (edges !! k = Some e /\ (S k < List.length words)%nat) \/ (k = List.length edges /\ e = ext_edge).
Proof.
  pose proof (t_edges _ _ _ T) as HL. unfold ext_edges.
  intros [H|[H1 H2]]%lookup_app_Some.
  - left. split; [done|]. apply lookup_lt_Some in H. lia.
  - right. apply list_lookup_singleton_Some in H2 as [H2 <-]. split; [lia|done].
Qed.

Lemma ext_new_word : ext_words !! S (List.length edges) = Some (w ++ [c]).
Proof.
  unfold ext_words. rewrite <- (t_edges _ _ _ T).
  rewrite lookup_app_r by done. by rewrite Nat.sub_diag.
Qed.

(** The edges of an old node, apart from the node that is extended. *)
Lemma ext_children v es e : children edges words v es ->
  (∃ k, ext_edges !! k = Some e /\ ext_words !! S k = Some (v ++ [b_label e]))
  <-> e ∈ es \/ (e = ext_edge /\ v = w).
Proof.
  intros [_ H]. split.
  - intros (k & Hk & Hw). apply ext_edge_lookup in Hk as [[Hk Hlt]|[-> ->]].
    + left. apply H. exists k. split; [done|]. unfold ext_words in Hw.
      rewrite lookup_app_l in Hw by exact Hlt. done.
    + right. split; [done|]. rewrite ext_new_word in Hw. injection Hw as Hw.
      by apply app_inj_tail in Hw as [-> _].
  - intros [(k & Hk & Hw)%H|[-> ->]].
    + exists k. split; [by apply lookup_app_l_Some|by apply lookup_app_l_Some].
    + exists (List.length edges). split; [|apply ext_new_word].
      unfold ext_edges. rewrite lookup_app_r by done. by rewrite Nat.sub_diag.
Qed.

Lemma trie_extend :
  trie (<[i := Z.of_nat (S (List.length edges))]> (starts ++ [0])) ext_edges ext_words.
Proof.
  pose proof (t_edges _ _ _ T) as HL. pose proof (t_nodes _ _ _ T) as HN.
  assert (i < List.length words)%nat as Hlt by (by eapply lookup_lt_Some).
  split.
  - unfold ext_words. apply lookup_app_l_Some, (t_root _ _ _ T).
  - unfold ext_words. apply NoDup_app. split; [apply (t_nodup _ _ _ T)|].
    split; [set_solver|apply NoDup_singleton].
  - unfold ext_words. rewrite length_insert, !length_app. simpl. lia.
  - unfold ext_words, ext_edges. rewrite !length_app. simpl. lia.
  - unfold ext_words. rewrite len_nat in *. rewrite length_app. simpl. lia.
  - intros k e [[H _]|[-> ->]]%ext_edge_lookup; [by apply (t_target _ _ _ T)|].
    simpl. by rewrite <- HL.
  - intros k e [[H _]|[-> ->]]%ext_edge_lookup.
    + destruct (t_parent _ _ _ T _ _ H) as (p & v & Hp & Hv & Hw).
      exists p, v. split_and!; [done|by apply lookup_app_l_Some..].
    + exists i, w. split_and!; [lia|by apply lookup_app_l_Some|apply ext_new_word].
  - intros j z v Hz Hv. destruct (decide (j = i)) as [->|Hne].
    + rewrite list_lookup_insert_eq in Hz by (rewrite length_app; simpl; lia).
      injection Hz as <-.
      assert (v = w) as ->.
      { unfold ext_words in Hv. rewrite lookup_app_l in Hv by exact Hlt. congruence. }
      destruct (t_chain _ _ _ T _ _ _ Hs Hi) as (es & Hch & Hes). exists (ext_edge :: es). split.
      * simpl. exists (List.length edges). split_and!.
        -- apply first_edge_nat. unfold len_ in Hsmall. lia.
        -- unfold ext_edges. rewrite lookup_app_r by done. by rewrite Nat.sub_diag.
        -- by apply chain_app.
      * split; [|intros e; rewrite (ext_children w es e Hes); set_solver].
        apply NoDup_cons. split; [|apply Hes]. intros (k & Hk & Hw)%Hes.
        apply Hc. by eapply list_elem_of_lookup_2.
    + rewrite list_lookup_insert_ne in Hz by done.
      destruct (decide (j < List.length words)%nat) as [Hj|Hj].
      * rewrite lookup_app_l in Hz by lia. unfold ext_words in Hv.
        rewrite lookup_app_l in Hv by exact Hj.
        destruct (t_chain _ _ _ T _ _ _ Hz Hv) as (es & Hch & Hes). exists es.
        split; [by apply chain_app|]. split; [apply Hes|]. intros e.
        rewrite (ext_children v es e Hes). split; [auto|].
        intros [H|[-> ->]]; [done|]. destruct Hne.
        by eapply NoDup_lookup; [apply (t_nodup _ _ _ T)|..].
      * unfold ext_words in Hv. apply lookup_app_Some in Hv as [Hv|[_ Hv]];
          [by apply lookup_lt_Some in Hv|].
        apply list_lookup_singleton_Some in Hv as [Hj' <-].
        rewrite lookup_app_r in Hz by lia. replace (j - List.length starts)%nat with 0%nat in Hz by lia.
        injection Hz as <-. exists []. split; [vm_compute; done|]. split; [apply NoDup_nil_2|].
        intros e. split; [set_solver|]. intros (k & Hk & Hw).
        apply ext_edge_lookup in Hk as [[Hk Hkl]|[-> ->]].
        -- unfold ext_words in Hw. rewrite lookup_app_l in Hw by exact Hkl.
           destruct Hc. apply (trie_prefix T _ (b_label e)). by eapply list_elem_of_lookup_2.
        -- rewrite ext_new_word in Hw. injection Hw as Hw.
           apply (f_equal (@List.length ascii)) in Hw. rewrite !length_app in Hw. simpl in Hw. lia.
Qed.

End Extend.

(** Nothing is linked yet, and [B] gives the keyword of every word. *)
Record unlinked (B : word -> Z) (nodes : nodes_t) (words : list word) : Prop := {
  u_node : ∀ i n v, nodes !! i = Some n -> words !! i = Some v ->
    failure n = 0 /\ bestKeyword n = B v;
  u_none : ∀ v, v ∉ words -> B v = -1 }.

Record built (B : word -> Z) (nodes : nodes_t) (edges : bedges_t) (words : list word) : Prop := {
  b_trie : trie (edgeStart <$> nodes) edges words;
  b_unlinked : unlinked B nodes words }.

Lemma trie_words nodes edges words i w : trie (edgeStart <$> nodes) edges words ->
  words !! i = Some w -> (i < List.length words)%nat /\ (List.length nodes = List.length words).
Proof.
  intros T Hi. pose proof (t_nodes _ _ _ T) as HN. rewrite length_fmap in HN.
  split; [by eapply lookup_lt_Some|done].
Qed.

Lemma build_step_ok B nodes edges words i w c : built B nodes edges words ->
  words !! i = Some w -> len_ words + 1 < 2 ^ 31 ->
  ∃ nodes' edges' words' j,
    build_step nodes edges (Z.of_nat i) c = Some (nodes', edges', Z.of_nat j) /\
    built B nodes' edges' words' /\ words `prefix_of` words' /\
    words' !! j = Some (w ++ [c]) /\ len_ words' <= len_ words + 1.
Proof.
  intros [T U] Hi Hsmall. unfold build_step. rewrite (transition_ok _ _ _ _ _ c T Hi). simpl.
  destruct (decide (w ++ [c] ∈ words)) as [[j Hj]%list_elem_of_lookup|Hc].
  - rewrite (zidx_lookup _ _ _ (t_nodup _ _ _ T) Hj).
    destruct (Z.ltb_spec (Z.of_nat j) 0); [lia|].
    exists nodes, edges, words, j. split_and!; [done|by split|done|done|lia].
  - rewrite (zidx_none _ _ Hc). simpl.
    destruct (trie_words _ _ _ _ _ T Hi) as [Hlt HN].
    destruct (trie_of_node _ _ _ _ _ T Hi) as (n & _ & Hn & _ & _ & _).
    assert ((nodes ++ [newContentModerationKeywordNode]) !! i = Some n) as Hn'
      by (by apply lookup_app_l_Some).
    rewrite (at_Some _ _ _ Hn'). simpl. rewrite (update_node_nat _ _ _ _ _ Hn'). simpl.
    assert ((edgeStart <$> nodes) !! i = Some (edgeStart n)) as Hs
      by (by rewrite list_lookup_fmap, Hn).
    pose proof (trie_extend T Hi Hs Hc Hsmall) as T'. pose proof (t_edges _ _ _ T) as HL.
    unfold len_ in *. rewrite wrap32_id by lia. rewrite wrapu32_id by (rewrite length_app; simpl; lia).
    rewrite HN. do 2 eexists. exists (ext_words (words := words) (w := w) (c := c)), (List.length words).
    split_and!; [reflexivity| | | |].
    + split.
      * rewrite list_fmap_insert, fmap_app. simpl.
        rewrite length_app, Nat.add_1_r. exact T'.
      * split.
        -- intros k m v Hm Hv. unfold ext_words in Hv.
           apply lookup_app_Some in Hv as [Hv|[Hk Hv]].
           ++ assert (k < List.length nodes)%nat by (rewrite HN; by eapply lookup_lt_Some).
              destruct (decide (k = i)) as [->|Hne].
              ** rewrite list_lookup_insert_eq in Hm by (rewrite length_app; lia).
                 injection Hm as <-. simpl. by eapply U.
              ** rewrite list_lookup_insert_ne, lookup_app_l in Hm by done. by eapply U.
           ++ apply list_lookup_singleton_Some in Hv as [Hk' <-].
              rewrite list_lookup_insert_ne, lookup_app_r in Hm by lia.
              replace (k - List.length nodes)%nat with 0%nat in Hm by (rewrite HN; exact (eq_sym Hk')).
              injection Hm as <-. split; [done|]. symmetry. by apply U.
        -- intros v Hv. apply U. unfold ext_words in Hv. set_solver.
    + by exists [w ++ [c]].
    + unfold ext_words. rewrite lookup_app_r by done. by rewrite Nat.sub_diag.
    + unfold ext_words. rewrite length_app. simpl. lia.
Qed.

Lemma build_word_ok B ws : ∀ nodes edges words i w, built B nodes edges words ->
  words !! i = Some w -> len_ words + len_ ws < 2 ^ 31 ->
  ∃ nodes' edges' words' j,
    build_word nodes edges (Z.of_nat i) ws = Some (nodes', edges', Z.of_nat j) /\
    built B nodes' edges' words' /\ words `prefix_of` words' /\
    words' !! j = Some (w ++ ws) /\ len_ words' <= len_ words + len_ ws.
Proof.
  unfold len_. induction ws as [|c ws IH]; intros nodes edges words i w HB Hi Hsmall; simpl.
  - exists nodes, edges, words, i. rewrite app_nil_r. split_and!; [done..|lia].
  - destruct (build_step_ok B nodes edges words i w c HB Hi) as
      (nodes1 & edges1 & words1 & j1 & -> & HB1 & Hp1 & Hj1 & Hl1).
    { unfold len_. simpl in Hsmall. lia. }
    unfold len_ in Hl1. simpl. destruct (IH nodes1 edges1 words1 j1 _ HB1 Hj1) as
      (nodes2 & edges2 & words2 & j2 & -> & HB2 & Hp2 & Hj2 & Hl2).
    { simpl in Hsmall. lia. }
    exists nodes2, edges2, words2, j2. rewrite <- app_assoc in Hj2.
    split_and!; [done|done|by etrans|done|lia].
Qed.

Lemma built_ext B B' nodes edges words :
  built B nodes edges words -> (∀ v, B' v = B v) -> built B' nodes edges words.
Proof.
  intros [T [U1 U2]] H. split; [done|]. split.
  - intros i n v Hn Hv. rewrite H. eauto.
  - intros v Hv. rewrite H. eauto.
Qed.

(** Setting a field that is no link leaves the trie as it is. *)
Lemma trie_set nodes edges words j n n' : trie (edgeStart <$> nodes) edges words ->
  nodes !! j = Some n -> edgeStart n' = edgeStart n ->
  trie (edgeStart <$> <[j := n']> nodes) edges words.
Proof.
  intros T Hn He. rewrite list_fmap_insert, list_insert_id; [done|].
  by rewrite list_lookup_fmap, Hn, He.
Qed.

Lemma built_best B B' nodes edges words j w n : built B nodes edges words ->
  words !! j = Some w -> nodes !! j = Some n -> (∀ v, v ≠ w -> B' v = B v) ->
  built B' (<[j := set_best n (B' w)]> nodes) edges words.
Proof.
  intros [T [U1 U2]] Hj Hn H. split; [by eapply trie_set|]. split.
  - intros k m v Hm Hv. destruct (decide (k = j)) as [->|Hne].
    + rewrite list_lookup_insert_eq in Hm by (by eapply lookup_lt_Some).
      injection Hm as <-. replace v with w by congruence. split; [|done]. simpl.
      by destruct (U1 _ _ _ Hn Hj).
    + rewrite list_lookup_insert_ne in Hm by done.
      rewrite H; [by eapply U1|]. intros ->. apply Hne.
      by eapply NoDup_lookup; [apply (t_nodup _ _ _ T)|..].
  - intros v Hv. rewrite H; [by apply U2|]. intros ->. apply Hv. by eapply list_elem_of_lookup_2.
Qed.

Section Keywords.
Context {UC : UnicodeCase}.

Definition lower_of (keyword : string) : word := to_bytes (ToLower keyword).
Definition hits (f : word -> bool) (keyword : string) : bool :=
  negb (str_empty keyword) && f (lower_of keyword).
Definition total_bytes (keywords : list string) : Z :=
  foldr (λ kw acc, len_ (lower_of kw) + acc) 0 keywords.

(** The keyword whose lower-cased bytes are [v]. *)
Definition exact (keywords : list string) (v : word) : Z :=
  first_index (hits (λ l, bool_decide (l = v))) keywords.

Definition keyword_words (keywords : list string) (words : list word) : Prop :=
  ∀ kw, kw ∈ keywords -> kw ≠ EmptyString -> lower_of kw ∈ words.

Lemma total_bytes_nonneg keywords : 0 <= total_bytes keywords.
Proof. induction keywords as [|kw rest IH]; simpl; unfold len_ in *; lia. Qed.

Lemma exact_snoc_empty keywords v : exact (keywords ++ [EmptyString]) v = exact keywords v.
Proof.
  unfold exact. rewrite first_index_snoc. simpl.
  pose proof (first_index_ge (hits (λ l, bool_decide (l = v))) keywords).
  destruct (Z.ltb_spec (first_index (hits (λ l, bool_decide (l = v))) keywords) 0); lia.
Qed.

Lemma exact_snoc_other keywords kw v : lower_of kw ≠ v ->
  exact (keywords ++ [kw]) v = exact keywords v.
Proof.
  intros H. unfold exact. rewrite first_index_snoc. unfold hits at 2.
  rewrite bool_decide_eq_false_2 by done. rewrite andb_false_r.
  pose proof (first_index_ge (hits (λ l, bool_decide (l = v))) keywords).
  destruct (Z.ltb_spec (first_index (hits (λ l, bool_decide (l = v))) keywords) 0); lia.
Qed.

Lemma exact_snoc_same keywords kw : kw ≠ EmptyString ->
  exact (keywords ++ [kw]) (lower_of kw)
  = if exact keywords (lower_of kw) <? 0 then len_ keywords else exact keywords (lower_of kw).
Proof.
  intros H. unfold exact. rewrite first_index_snoc. unfold hits at 2.
  rewrite bool_decide_eq_true_2 by done. by rewrite (proj2 (str_empty_false kw) H).
Qed.

(** The keyword of the node that ends it. *)
Lemma build_mark done kw nodes edges words j n :
  built (exact done) nodes edges words -> words !! j = Some (lower_of kw) ->
  nodes !! j = Some n -> kw ≠ EmptyString -> len_ done < 2 ^ 31 ->
  ∃ nodes',
    (if (bestKeyword n <? 0) || (wrap32 (len_ done) <? bestKeyword n)
     then update_node nodes (Z.of_nat j) set_best (wrap32 (len_ done)) else Some nodes)
    = Some nodes' /\
    built (exact (done ++ [kw])) nodes' edges words.
Proof.
  intros HB Hj Hn Hkw Hlen. destruct (u_node _ _ _ (b_unlinked _ _ _ _ HB) _ _ _ Hn Hj) as [_ ->].
  unfold len_ in *. rewrite wrap32_id by lia. pose proof (exact_snoc_same done kw Hkw) as HS.
  pose proof (first_index_lt (hits (λ l, bool_decide (l = lower_of kw))) done) as Hlt.
  fold (exact done (lower_of kw)) in Hlt. unfold len_ in *.
  destruct (Z.ltb_spec (exact done (lower_of kw)) 0) as [Hneg|Hneg]; simpl.
  - rewrite (update_node_nat _ _ _ _ _ Hn). eexists. split; [done|]. rewrite <- HS.
    apply (built_best (exact done) (exact (done ++ [kw])) _ _ _ _ _ _ HB Hj Hn).
    intros v Hv. by apply exact_snoc_other.
  - destruct (Z.ltb_spec (Z.of_nat (List.length done)) (exact done (lower_of kw))); [lia|].
    exists nodes. split; [done|]. apply (built_ext _ _ _ _ _ HB). intros v.
    destruct (decide (lower_of kw = v)) as [<-|Hne]; [exact HS|by apply exact_snoc_other].
Qed.

Lemma build_trie_ok rest : ∀ done nodes edges words,
  built (exact done) nodes edges words -> keyword_words done words ->
  len_ words + total_bytes rest < 2 ^ 31 -> len_ done + len_ rest < 2 ^ 31 ->
  ∃ nodes' edges' words',
    build_trie nodes edges (len_ done) rest = Some (nodes', edges') /\
    built (exact (done ++ rest)) nodes' edges' words' /\ keyword_words (done ++ rest) words'.
Proof.
  induction rest as [|kw rest IH]; intros done nodes edges words HB HK Hsmall Hlen.
  { exists nodes, edges, words. rewrite app_nil_r. simpl. by split_and!. }
  assert (len_ done + 1 = len_ (done ++ [kw])) as Hidx
    by (unfold len_; rewrite length_app; simpl; lia).
  assert (len_ (done ++ [kw]) + len_ rest < 2 ^ 31) as Hlen'
    by (unfold len_ in *; rewrite length_app; simpl in *; lia).
  pose proof (total_bytes_nonneg rest). cbn [build_trie]. cbn [total_bytes foldr] in Hsmall.
  fold (total_bytes rest) in Hsmall. pose proof (len_nonneg (lower_of kw)).
  replace (done ++ kw :: rest) with ((done ++ [kw]) ++ rest) by (by rewrite <- app_assoc).
  destruct (str_empty kw) eqn:Hkw.
  - apply str_empty_true in Hkw as ->. rewrite Hidx. apply (IH _ _ _ words); [| |lia|done].
    + apply (built_ext _ _ _ _ _ HB). apply exact_snoc_empty.
    + intros k [Hk|Hk%list_elem_of_singleton]%elem_of_app Hne; [by apply HK|done].
  - apply str_empty_false in Hkw.
    pose proof (t_root _ _ _ (b_trie _ _ _ _ HB)) as Hroot.
    destruct (build_word_ok _ (lower_of kw) _ _ _ 0%nat [] HB Hroot) as
      (nodes1 & edges1 & words1 & j & Heq & HB1 & [ext Hp] & Hj & Hl1); [lia|].
    change (Z.of_nat 0) with 0 in Heq. unfold lower_of in Heq. rewrite Heq. simpl in Hj |- *.
    destruct (trie_of_node _ _ _ _ _ (b_trie _ _ _ _ HB1) Hj) as (n & _ & Hn & _).
    rewrite (at_Some _ _ _ Hn). simpl.
    destruct (build_mark done kw nodes1 edges1 words1 j n HB1 Hj Hn Hkw) as (nodes2 & -> & HB2).
    { unfold len_ in *. simpl in Hlen. lia. }
    simpl. rewrite Hidx. apply (IH _ _ _ words1); [done| |lia|done].
    intros k [Hk|Hk%list_elem_of_singleton]%elem_of_app Hne.
    + rewrite Hp. apply elem_of_app. left. by apply HK.
    + rewrite Hk. by eapply list_elem_of_lookup_2.
Qed.

(** The first phase, of the constructor. *)
Lemma build_trie_all keywords :
  total_bytes keywords + 1 < 2 ^ 31 -> len_ keywords < 2 ^ 31 ->
  ∃ nodes edges words,
    build_trie [newContentModerationKeywordNode] [] 0 keywords = Some (nodes, edges) /\
    built (exact keywords) nodes edges words /\ keyword_words keywords words.
Proof.
  intros Hsmall Hlen. apply (build_trie_ok keywords [] _ [] [[]]).
  - split; [apply trie_start|]. split.
    + intros [|i] n v Hn Hv; [by injection Hn as <-|done].
    + done.
  - intros kw Hkw. set_solver.
  - unfold len_. simpl. lia.
  - unfold len_ in *. simpl. lia.
Qed.

End Keywords.

(** ** Longest suffixes *)

(** Node [i] is the longest word that ends [u]. *)
Definition lsuf (words : list word) (u : word) (i : nat) : Prop :=
  ∃ v, words !! i = Some v /\ v `suffix_of` u /\
       ∀ v', v' ∈ words -> v' `suffix_of` u -> (List.length v' <= List.length v)%nat.

(** No suffix of [u] longer than [v] goes on with [c]. *)
Definition maximal (words : list word) (u : word) (c : ascii) (v : word) : Prop :=
  ∀ v', v' `suffix_of` u -> v' ++ [c] ∈ words -> (List.length v' <= List.length v)%nat.

Lemma suffix_snoc_cases (v u : word) c : v `suffix_of` u ++ [c] ->
  v = [] \/ ∃ v', v = v' ++ [c] /\ v' `suffix_of` u.
Proof.
  intros H. destruct v as [|d v] using rev_ind; [by left|right]. clear IHv.
  pose proof (suffix_snoc_inv_1 _ _ _ _ H) as ->.
  exists v. split; [done|]. by apply suffix_snoc_inv_2 in H.
Qed.

Lemma suffix_shorter (v w u : word) : v `suffix_of` u -> w `suffix_of` u ->
  (List.length v <= List.length w)%nat -> v `suffix_of` w.
Proof.
  intros Hv Hw Hl. destruct (suffix_weak_total v w u Hv Hw) as [H|H]; [done|].
  by rewrite (suffix_length_eq _ _ H Hl).
Qed.

Lemma suffix_tail (v w : word) : v `suffix_of` w -> v ≠ w -> v `suffix_of` tail w.
Proof.
  intros [k ->] H. destruct k as [|x k]; [done|]. simpl. by exists k.
Qed.

Lemma tail_suffix (w : word) : tail w `suffix_of` w.
Proof. destruct w as [|c w]; [done|]. by apply suffix_cons_r. Qed.

Lemma tail_snoc (w : word) c : w ≠ [] -> tail (w ++ [c]) = tail w ++ [c].
Proof. by destruct w. Qed.

Section Suffixes.
Context {starts : list Z} {edges : bedges_t} {words : list word}.
Hypothesis T : trie starts edges words.

Lemma lsuf_maximal u i v c : lsuf words u i -> words !! i = Some v ->
  v `suffix_of` u /\ maximal words u c v.
Proof.
  intros (v0 & Hv0 & Hs & Hm) Hv. rewrite Hv in Hv0. injection Hv0 as <-.
  split; [done|]. intros v' Hs' Hin. apply Hm; [|done]. by eapply (trie_prefix T).
Qed.

Lemma lsuf_hit u c v j : words !! j = Some (v ++ [c]) -> v `suffix_of` u ->
  maximal words u c v -> lsuf words (u ++ [c]) j.
Proof.
  intros Hj Hs Hm. exists (v ++ [c]). split_and!; [done|by apply suffix_app|].
  intros v' Hin [->|(v0 & -> & H0)]%suffix_snoc_cases; [simpl; lia|].
  rewrite !length_app. simpl. specialize (Hm _ H0 Hin). lia.
Qed.

Lemma lsuf_miss u c : [c] ∉ words -> maximal words u c [] -> lsuf words (u ++ [c]) 0.
Proof.
  intros Hc Hm. exists []. split_and!; [apply (t_root _ _ _ T)|apply suffix_nil|].
  intros v' Hin [->|(v0 & -> & H0)]%suffix_snoc_cases; [done|].
  specialize (Hm _ H0 Hin). destruct v0; [done|simpl in Hm; lia].
Qed.

Lemma lsuf_shrink u c v f : v `suffix_of` u -> maximal words u c v -> v ++ [c] ∉ words ->
  v ≠ [] -> lsuf words (tail v) f ->
  ∃ v', words !! f = Some v' /\ v' `suffix_of` u /\ maximal words u c v' /\
        (List.length v' < List.length v)%nat.
Proof.
  intros Hs Hm Hc Hne (v' & Hf & Hs' & Hm'). exists v'. split_and!; [done| | |].
  - etrans; [exact Hs'|]. etrans; [apply tail_suffix|done].
  - intros x Hx Hin. apply Hm'; [by eapply (trie_prefix T)|].
    apply suffix_tail; [|intros ->; done]. apply (suffix_shorter _ _ u Hx Hs). by apply Hm.
  - apply suffix_length in Hs'. destruct v; [done|]. simpl in *. lia.
Qed.

Lemma lsuf_unique u i j : lsuf words u i -> lsuf words u j -> i = j.
Proof.
  intros (v & Hi & Hs & Hm) (w & Hj & Hs' & Hm').
  assert (v = w) as ->.
  { apply (suffix_length_eq v w); [apply (suffix_shorter _ _ u)|]; auto;
      [apply Hm'|apply Hm]; auto; by eapply list_elem_of_lookup_2. }
  by eapply NoDup_lookup; [apply (t_nodup _ _ _ T)|..].
Qed.

End Suffixes.

Section Links.
Context {UC : UnicodeCase}.
Variable keywords : list string.
Variable words : list word.
Variable edges : bedges_t.

Definition lower_nonempty : Prop := ∀ kw, kw ∈ keywords -> kw ≠ EmptyString -> lower_of kw ≠ [].

Hypothesis Hwords : keyword_words keywords words.
Hypothesis Hlower : lower_nonempty.

(** The first keyword whose lower-cased bytes end [v]. *)
Definition ends (v : word) : Z :=
  first_index (hits (λ l, bool_decide (l `suffix_of` v))) keywords.

(** [node.bestKeyword = minKeywordIndex(node.bestKeyword, failure.bestKeyword)]. *)
Lemma ends_split w f v : lsuf words (tail w) f -> words !! f = Some v ->
  minKeywordIndex (exact keywords w) (ends v) = ends w.
Proof.
  intros (v0 & Hf & Hs & Hm) Hv. rewrite Hv in Hf. injection Hf as <-.
  unfold exact, ends. rewrite first_index_min. apply first_index_ext.
  intros kw Hkw. unfold hits. destruct (str_empty kw) eqn:He; [done|]. simpl.
  apply str_empty_false in He. apply eq_bool_prop_intro. rewrite !orb_True, !bool_decide_spec.
  split.
  - intros [->|H]; [done|]. etrans; [exact H|]. etrans; [exact Hs|apply tail_suffix].
  - intros H. destruct (decide (lower_of kw = w)) as [|Hne]; [by left|right].
    pose proof (suffix_tail _ _ H Hne) as Ht. apply (suffix_shorter _ _ (tail w) Ht Hs).
    apply Hm; [|done]. by apply Hwords.
Qed.

Lemma ends_nil : ends [] = -1.
Proof.
  apply first_index_none. intros kw Hkw. unfold hits. destruct (str_empty kw) eqn:He; [done|]. simpl.
  apply bool_decide_eq_false_2. intros H%suffix_nil_inv.
  by apply (Hlower kw Hkw); [apply str_empty_false|].
Qed.

Lemma exact_nil : exact keywords [] = -1.
Proof.
  apply first_index_none. intros kw Hkw. unfold hits. destruct (str_empty kw) eqn:He; [done|]. simpl.
  apply bool_decide_eq_false_2. intros H.
  by apply (Hlower kw Hkw); [apply str_empty_false|].
Qed.

(** The node has its failure link and its keyword. *)
Definition final (nodes : nodes_t) (i : nat) : Prop :=
  ∀ n w, nodes !! i = Some n -> words !! i = Some w ->
  ∃ f, failure n = Z.of_nat f /\ lsuf words (tail w) f /\ bestKeyword n = ends w.

Definition untouched (nodes : nodes_t) (i : nat) : Prop :=
  ∀ n w, nodes !! i = Some n -> words !! i = Some w ->
  failure n = 0 /\ bestKeyword n = exact keywords w.

Lemma final_other nodes i j n : i ≠ j -> final (<[j := n]> nodes) i <-> final nodes i.
Proof.
  intros H. unfold final. split; intros HF m w Hm Hw; apply HF; auto.
  - by rewrite list_lookup_insert_ne.
  - by rewrite list_lookup_insert_ne in Hm.
Qed.

Lemma untouched_other nodes i j n :
  i ≠ j -> untouched nodes i -> untouched (<[j := n]> nodes) i.
Proof. intros H HF m w Hm Hw. rewrite list_lookup_insert_ne in Hm by done. eauto. Qed.

(** ** One edge *)

Lemma fallback_walk_ok nodes u c N :
  trie (edgeStart <$> nodes) edges words ->
  (∀ i v, words !! i = Some v -> (List.length v <= N)%nat -> final nodes i) ->
  ∀ fuel f v, words !! f = Some v -> v `suffix_of` u -> maximal words u c v ->
    (List.length v <= N)%nat -> (List.length v <= fuel)%nat ->
  ∃ r, fallback_walk fuel nodes edges (Z.of_nat f) (zidx words (v ++ [c])) c = Some r /\
       ((r = -1 /\ lsuf words (u ++ [c]) 0) \/
        ∃ j, r = Z.of_nat j /\ lsuf words (u ++ [c]) j).
Proof.
  intros T Hfin fuel. induction fuel as [|fuel IH]; intros f v Hf Hs Hm HN Hfuel;
    (destruct (decide (v ++ [c] ∈ words)) as [[j Hj]%list_elem_of_lookup|Hc];
      [rewrite (zidx_lookup _ _ _ (t_nodup _ _ _ T) Hj)|rewrite (zidx_none _ _ Hc)]).
  1,3: exists (Z.of_nat j); split; [|right; exists j; split; [done|by eapply lsuf_hit]];
    cbn [fallback_walk]; by rewrite (proj2 (Z.ltb_ge (Z.of_nat j) 0)) by lia.
  all: cbn [fallback_walk]; simpl (-1 <? 0); cbn [andb].
  all: destruct (Z.eqb_spec (Z.of_nat f) 0) as [H0|H0]; cbn [negb];
    [exists (-1); split; [done|left; split; [done|]];
     assert (v = []) as -> by (pose proof (t_root _ _ _ T); replace f with 0%nat in * by lia; congruence);
     by apply (lsuf_miss T)|].
  all: assert (v ≠ []) as Hne
    by (intros ->; apply H0; replace f with 0%nat; [done|];
        eapply NoDup_lookup; [apply (t_nodup _ _ _ T)|apply (t_root _ _ _ T)|done]).
  { destruct v; simpl in Hfuel; [done|lia]. }
  destruct (trie_of_node _ _ _ _ _ T Hf) as (n & _ & Hn & _). rewrite (at_Some _ _ _ Hn). simpl.
  destruct (Hfin _ _ Hf HN n v Hn Hf) as (g & -> & Hg & _).
  destruct (lsuf_shrink T u c v g Hs Hm Hc Hne Hg) as (v' & Hgv & Hs' & Hm' & Hlt).
  rewrite (transition_ok _ _ _ _ _ c T Hgv). simpl. apply IH; auto; lia.
Qed.

Lemma link_edge_ok nodes queue s w edge t : trie (edgeStart <$> nodes) edges words ->
  words !! s = Some w -> w ≠ [] ->
  b_target edge = Z.of_nat t -> words !! t = Some (w ++ [b_label edge]) ->
  (∀ i v, words !! i = Some v -> (List.length v <= List.length w)%nat -> final nodes i) ->
  untouched nodes t ->
  ∃ n n', nodes !! t = Some n /\ edgeStart n' = edgeStart n /\
    link_edge edges (Z.of_nat s) edge (nodes, queue)
    = Some (<[t := n']> nodes, queue ++ [Z.of_nat t]) /\
    final (<[t := n']> nodes) t.
Proof.
  intros T Hs Hne Htgt Ht Hfin Hunt. unfold link_edge. rewrite Htgt.
  set (c := b_label edge) in *.
  destruct (trie_of_node _ _ _ _ _ T Hs) as (ns & _ & Hns & _). rewrite (at_Some _ _ _ Hns). simpl.
  destruct (Hfin _ _ Hs ltac:(lia) ns w Hns Hs) as (f & -> & Hf & _).
  destruct Hf as (v & Hfv & Hv1 & Hv2). assert (lsuf words (tail w) f) as Hf by (by exists v).
  destruct (lsuf_maximal T _ _ _ c Hf Hfv) as [_ Hmax].
  rewrite (transition_ok _ _ _ _ _ c T Hfv). simpl.
  assert (List.length v <= List.length w)%nat as Hvw.
  { apply suffix_length in Hv1. destruct w; [done|]. simpl in *. lia. }
  destruct (trie_words _ _ _ _ _ T Hs) as [_ HNN].
  destruct (fallback_walk_ok nodes (tail w) c (List.length w) T Hfin (List.length nodes) f v)
    as (r & -> & Hr); auto.
  { pose proof (trie_depth T _ _ Hfv). destruct (trie_words _ _ _ _ _ T Hfv). lia. }
  simpl. destruct (trie_of_node _ _ _ _ _ T Ht) as (n & _ & Hn & _).
  destruct (Hunt n _ Hn Ht) as [Hn0 Hnb].
  assert (∃ j, lsuf words (tail w ++ [c]) j /\
    (if 0 <=? r then update_node nodes (Z.of_nat t) set_failure r else Some nodes)
    = Some (<[t := set_failure n (Z.of_nat j)]> nodes)) as (j & Hj & ->).
  { destruct Hr as [[-> Hr]|(j & -> & Hr)].
    - exists 0%nat. split; [done|]. simpl. f_equal. symmetry. apply list_insert_id.
      rewrite Hn. f_equal. destruct n. simpl in *. by subst.
    - exists j. split; [done|]. destruct (Z.leb_spec 0 (Z.of_nat j)); [|lia].
      by rewrite (update_node_nat _ _ _ _ _ Hn). }
  simpl. destruct Hj as (x & Hjx & Hx1 & Hx2).
  assert (lsuf words (tail (w ++ [c])) j) as Hj by (rewrite tail_snoc by done; by exists x).
  assert (j ≠ t) as Hjt.
  { intros ->. rewrite Ht in Hjx. injection Hjx as <-. apply suffix_length in Hx1.
    rewrite !length_app in Hx1. destruct w; [done|]. simpl in Hx1. lia. }
  assert (t < List.length nodes)%nat as Htl by (by eapply lookup_lt_Some).
  rewrite at_nat, list_lookup_insert_eq by done. simpl.
  destruct (trie_of_node _ _ _ _ _ T Hjx) as (nj & _ & Hnj & _).
  rewrite at_nat, list_lookup_insert_ne, Hnj by done. simpl.
  erewrite update_node_nat by (by apply list_lookup_insert_eq). simpl.
  rewrite list_insert_insert_eq.
  assert (List.length x <= List.length w)%nat as Hxw.
  { apply suffix_length in Hx1. rewrite length_app in Hx1. destruct w; [done|]. simpl in *. lia. }
  destruct (Hfin _ _ Hjx Hxw nj x Hnj Hjx) as (_ & _ & _ & ->). rewrite Hnb.
  rewrite (ends_split _ _ _ Hj Hjx).
  eexists n, _. split_and!; [done| |reflexivity|]; [done|].
  intros m y Hm Hy. rewrite list_lookup_insert_eq in Hm by done. injection Hm as <-.
  rewrite Ht in Hy. injection Hy as <-. exists j. by split_and!.
Qed.

(** ** The edges of one node *)

Definition targets (es : list bedge) : list nat := map (λ e, Z.to_nat (b_target e)) es.

Record links (nodes : nodes_t) (q : list nat) : Prop := {
  l_trie : trie (edgeStart <$> nodes) edges words;
  l_final : ∀ i, i ∈ 0%nat :: q -> final nodes i;
  l_other : ∀ i, i ∉ 0%nat :: q -> untouched nodes i }.

Definition child_edge (w : word) (e : bedge) : Prop :=
  ∃ t, b_target e = Z.of_nat t /\ words !! t = Some (w ++ [b_label e]).

Lemma children_targets starts w es : trie starts edges words -> children edges words w es ->
  NoDup (targets es) /\ Forall (child_edge w) es /\
  ∀ i, i ∈ targets es <-> ∃ c, words !! i = Some (w ++ [c]).
Proof.
  intros T Hes. split_and!.
  - apply NoDup_fmap_2_strong; [|apply Hes]. intros e e' He He' Heq.
    destruct Hes as [_ H]. apply H in He as (k & Hk & _), He' as (k' & Hk' & _).
    rewrite (t_target _ _ _ T _ _ Hk), (t_target _ _ _ T _ _ Hk') in Heq.
    replace k' with k in * by lia. congruence.
  - apply Forall_forall. intros e He. apply (children_label T _ _ _ Hes He).
  - intros i. split.
    + intros (e & -> & He)%list_elem_of_fmap.
      destruct (children_label T _ _ _ Hes He) as (j & -> & Hj). rewrite Nat2Z.id. eauto.
    + intros [c Hc]. destruct (trie_edge T _ _ _ Hc) as (k & e & -> & Hk & <- & Ht & _).
      apply list_elem_of_fmap. exists e. split; [by rewrite Ht, Nat2Z.id|].
      apply Hes. eauto.
Qed.

Lemma link_fold s w es : words !! s = Some w -> w ≠ [] ->
  ∀ nodes q, links nodes q -> Forall (child_edge w) es ->
  NoDup (targets es) -> (∀ t, t ∈ targets es -> t ∉ 0%nat :: q) ->
  (∀ i v, words !! i = Some v -> (List.length v <= List.length w)%nat -> i ∈ 0%nat :: q) ->
  ∃ nodes', fold_opt (link_edge edges (Z.of_nat s)) es (nodes, Z.of_nat <$> q)
            = Some (nodes', Z.of_nat <$> (q ++ targets es)) /\
            links nodes' (q ++ targets es).
Proof.
  intros Hs Hne. induction es as [|e es IH]; intros nodes q L Hch Hnd Hnew Hcov;
    cbn [fold_opt targets map].
  { exists nodes. rewrite app_nil_r. done. }
  fold (targets es).
  apply Forall_cons in Hch as [(t & Ht & Hw) Hch]. simpl in Hnd.
  rewrite Ht, Nat2Z.id in Hnd. apply NoDup_cons in Hnd as [Ht' Hnd].
  assert (t ∉ 0%nat :: q) as Htq by (apply Hnew; simpl; rewrite Ht, Nat2Z.id; set_solver).
  destruct (link_edge_ok nodes (Z.of_nat <$> q) s w e t (l_trie _ _ L) Hs Hne Ht Hw) as
    (n & n' & Hn & Hn' & -> & Hfin).
  { intros i v Hi Hv. apply (l_final _ _ L). by eapply Hcov. }
  { by apply (l_other _ _ L). }
  simpl. rewrite Ht, Nat2Z.id.
  replace (q ++ t :: targets es) with ((q ++ [t]) ++ targets es) by (by rewrite <- app_assoc).
  replace ((Z.of_nat <$> q) ++ [Z.of_nat t]) with (Z.of_nat <$> (q ++ [t])) by (by rewrite fmap_app).
  apply IH; [|done..| |].
  - split.
    + by eapply trie_set; [apply (l_trie _ _ L)|..].
    + intros i Hi. destruct (decide (i = t)) as [->|Hit]; [done|].
      apply final_other; [done|]. apply (l_final _ _ L). set_solver.
    + intros i Hi. apply untouched_other; [set_solver|]. apply (l_other _ _ L). set_solver.
  - intros x Hx. assert (x ∉ 0%nat :: q) by (apply Hnew; simpl; set_solver). set_solver.
  - intros i v Hi Hv. specialize (Hcov _ _ Hi Hv). set_solver.
Qed.

(** ** The queue *)

Definition wd (i : nat) : word := default [] (words !! i).
Definition parent (p i : nat) : Prop :=
  ∃ w c, words !! p = Some w /\ words !! i = Some (w ++ [c]).

(** The nodes before position [h] have been handled. *)
Record bfs (q : list nat) (h : nat) : Prop := {
  q_nodup : NoDup q;
  q_sorted : ∀ a b x y, (a <= b)%nat -> q !! a = Some x -> q !! b = Some y ->
    (List.length (wd x) <= List.length (wd y))%nat;
  q_ahead : ∀ x y, q !! h = Some x -> y ∈ q ->
    (List.length (wd y) <= S (List.length (wd x)))%nat;
  q_origin : ∀ i, i ∈ q -> ∃ p, p ∈ 0%nat :: take h q /\ parent p i;
  q_closed : ∀ p i, p ∈ 0%nat :: take h q -> parent p i -> i ∈ q }.

Section Queue.
Context {starts : list Z}.
Hypothesis T : trie starts edges words.

Lemma wd_lookup i w : words !! i = Some w -> wd i = w.
Proof. unfold wd. by intros ->. Qed.

Lemma words_inj i j w : words !! i = Some w -> words !! j = Some w -> i = j.
Proof. intros Hi Hj. by eapply NoDup_lookup; [apply (t_nodup _ _ _ T)|..]. Qed.

Lemma parent_unique p p' i : parent p i -> parent p' i -> p = p'.
Proof.
  intros (w & c & Hp & Hi) (w' & c' & Hp' & Hi'). rewrite Hi in Hi'. injection Hi' as Hw.
  apply app_inj_tail in Hw as [<- _]. by eapply words_inj.
Qed.

Lemma parent_length p i : parent p i -> List.length (wd i) = S (List.length (wd p)).
Proof.
  intros (w & c & Hp & Hi). rewrite (wd_lookup _ _ Hp), (wd_lookup _ _ Hi), length_app.
  simpl. lia.
Qed.

Lemma parent_root p : ¬ parent p 0.
Proof.
  intros (w & c & _ & Hi). rewrite (t_root _ _ _ T) in Hi. injection Hi as Hi. by destruct w.
Qed.

Lemma queue_word q h i : bfs q h -> i ∈ q -> ∃ w, words !! i = Some w /\ w ≠ [] /\ i ≠ 0%nat.
Proof.
  intros Q Hi. destruct (q_origin _ _ Q _ Hi) as (p & _ & (w & c & Hp & Hw)).
  exists (w ++ [c]). split_and!; [done|by destruct w|].
  intros ->. apply (parent_root p). by exists w, c.
Qed.

(** Every node whose word is no longer than that of the head is queued. *)
Lemma queue_covers q h d : bfs q h ->
  (∀ b y, (h <= b)%nat -> q !! b = Some y -> (d <= List.length (wd y))%nat) ->
  ∀ v i, words !! i = Some v -> (List.length v <= d)%nat -> i ∈ 0%nat :: q.
Proof.
  intros Q Hd v. induction v as [|c v IH] using rev_ind; intros i Hi Hl.
  { rewrite (words_inj _ _ _ Hi (t_root _ _ _ T)). set_solver. }
  rewrite length_app in Hl. simpl in Hl.
  destruct (trie_edge T _ _ _ Hi) as (_ & _ & _ & _ & _ & _ & p & _ & Hp).
  assert (parent p i) as Hpi by (by exists v, c).
  apply elem_of_cons. right. apply (q_closed _ _ Q p); [|done].
  specialize (IH p Hp ltac:(lia)). apply elem_of_cons in IH as [->|Hq]; [set_solver|].
  apply elem_of_cons. right. apply list_elem_of_lookup in Hq as [a Ha].
  destruct (decide (a < h)%nat) as [Hah|Hah].
  - apply list_elem_of_lookup. exists a. by rewrite lookup_take_lt.
  - exfalso. pose proof (Hd a p ltac:(lia) Ha) as H. rewrite (wd_lookup _ _ Hp) in H. lia.
Qed.

Lemma bfs_step q h s ts : bfs q h -> q !! h = Some s -> NoDup ts ->
  (∀ i, i ∈ ts <-> parent s i) -> bfs (q ++ ts) (S h).
Proof.
  intros Q Hh Hnd Hts. pose proof (lookup_lt_Some _ _ _ Hh) as Hlt.
  assert (take (S h) (q ++ ts) = take h q ++ [s]) as Htake.
  { rewrite take_app_le by lia. by apply take_S_r. }
  assert (∀ y, y ∈ ts -> List.length (wd y) = S (List.length (wd s))) as Hlen.
  { intros y Hy%Hts. by apply parent_length. }
  assert (∀ a b x y, (a <= b)%nat -> (q ++ ts) !! a = Some x -> (q ++ ts) !! b = Some y ->
    (List.length (wd x) <= List.length (wd y))%nat) as Hsorted.
  { intros a b x y Hab Hx Hy.
    apply lookup_app_Some in Hx as [Hx|[Hl Hx]], Hy as [Hy|[Hl' Hy]].
    - by eapply (q_sorted _ _ Q).
    - rewrite (Hlen y) by (by eapply list_elem_of_lookup_2).
      eapply (q_ahead _ _ Q); [done|by eapply list_elem_of_lookup_2].
    - apply lookup_lt_Some in Hy. lia.
    - rewrite (Hlen x), (Hlen y) by (by eapply list_elem_of_lookup_2). done. }
  split; [|exact Hsorted| | |].
  - apply NoDup_app. split_and!; [apply (q_nodup _ _ Q)| |done].
    intros i Hi Hi'%Hts. destruct (q_origin _ _ Q _ Hi) as (p & Hp & Hpi).
    pose proof (parent_unique _ _ _ Hpi Hi') as ->.
    apply elem_of_cons in Hp as [->|Hp].
    + destruct (queue_word q h 0 Q) as (_ & _ & _ & ?); [by eapply list_elem_of_lookup_2|done].
    + apply list_elem_of_lookup in Hp as [a Ha]. apply lookup_take_Some in Ha as [Ha Hah].
      pose proof (NoDup_lookup _ _ _ _ (q_nodup _ _ Q) Ha Hh). lia.
  - intros x y Hx Hy.
    assert ((q ++ ts) !! h = Some s) as Hs by (by apply lookup_app_l_Some).
    pose proof (Hsorted h (S h) s x ltac:(lia) Hs Hx) as Hsx.
    apply elem_of_app in Hy as [Hy|Hy]; [pose proof (q_ahead _ _ Q _ _ Hh Hy)|rewrite (Hlen y Hy)]; lia.
  - intros i [Hi|Hi]%elem_of_app; rewrite Htake.
    + destruct (q_origin _ _ Q _ Hi) as (p & Hp & Hpi). exists p. set_solver.
    + exists s. split; [set_solver|by apply Hts].
  - intros p i Hp Hpi. rewrite Htake in Hp.
    assert (p ∈ 0%nat :: take h q \/ p = s) as [Hp'| ->] by set_solver.
    + apply elem_of_app. left. by eapply (q_closed _ _ Q).
    + apply elem_of_app. right. by apply Hts.
Qed.

Lemma queue_length q h : bfs q h -> (List.length q < List.length words)%nat.
Proof.
  intros Q. assert (List.length (0%nat :: q) <= List.length (seq 0 (List.length words)))%nat as H.
  { apply NoDup_incl_length.
    - apply NoDup_ListNoDup, NoDup_cons. split; [|apply (q_nodup _ _ Q)].
      intros H0. destruct (queue_word _ _ _ Q H0) as (_ & _ & _ & ?). done.
    - intros i Hi%list_elem_of_In. apply in_seq. split; [lia|]. simpl.
      apply elem_of_cons in Hi as [->|Hi].
      + eapply lookup_lt_Some, (t_root _ _ _ T).
      + destruct (queue_word _ _ _ Q Hi) as (w & Hw & _). by eapply lookup_lt_Some. }
  rewrite length_seq in H. simpl in H. lia.
Qed.

End Queue.

Lemma link_queue_ok fuel : ∀ h nodes q, links nodes q -> bfs q h ->
  (List.length words <= fuel + h)%nat ->
  ∃ nodes' q', link_queue fuel edges (Z.of_nat h) (nodes, Z.of_nat <$> q)
               = Some (nodes', Z.of_nat <$> q') /\
    links nodes' q' /\ ∀ i w, words !! i = Some w -> i ∈ 0%nat :: q'.
Proof.
  induction fuel as [|fuel IH]; intros h nodes q L Q Hfuel;
    pose proof (queue_length (l_trie _ _ L) _ _ Q) as Hlen; cbn [link_queue snd fst];
    unfold len_; rewrite length_fmap;
    destruct (Z.ltb_spec (Z.of_nat h) (Z.of_nat (List.length q))) as [Hh|Hh]; [lia| | |].
  1,3: exists nodes, q; split_and!; [done..|]; intros i w Hi;
    apply (queue_covers (l_trie _ _ L) q h (List.length w)) with (v := w); auto;
    intros b y Hb Hy%lookup_lt_Some; lia.
  assert (h < List.length q)%nat as Hlt by lia. apply lookup_lt_is_Some in Hlt as [s Hs].
  rewrite at_nat, list_lookup_fmap, Hs. simpl.
  destruct (queue_word (l_trie _ _ L) _ _ s Q) as (w & Hw & Hne & _);
    [by eapply list_elem_of_lookup_2|].
  destruct (for_edges_ok _ _ _ _ _ (l_trie _ _ L) Hw) as (es & Hes & Hloop). rewrite Hloop.
  destruct (children_targets _ _ _ (l_trie _ _ L) Hes) as (Hnd & Hch & Hts).
  assert (∀ i, i ∈ targets es <-> parent s i) as Hpar.
  { intros i. rewrite Hts. split; [intros [c Hc]; by exists w, c|].
    intros (w' & c & Hw' & Hc). replace w with w' by congruence. eauto. }
  pose proof (bfs_step (l_trie _ _ L) _ _ _ _ Q Hs Hnd Hpar) as Q'.
  destruct (link_fold s w es Hw Hne nodes q L Hch Hnd) as (nodes' & -> & L').
  - intros t Ht Hq. apply elem_of_cons in Hq as [->|Hq].
    + by apply (parent_root (l_trie _ _ L) s), Hpar.
    + apply (q_nodup _ _) in Q'. apply NoDup_app in Q' as (_ & HD & _). by eapply HD.
  - intros i v Hi Hv. apply (queue_covers (l_trie _ _ L) q h (List.length w)) with (v := v); auto.
    intros b y Hb Hy. rewrite <- (wd_lookup _ _ Hw). by eapply (q_sorted _ _ Q).
  - simpl. replace (Z.of_nat h + 1) with (Z.of_nat (S h)) by lia. apply IH; auto. lia.
Qed.

End Links.
