(* ===== verification/KeywordMatcherProps.v ===== *)
(** * Blocked keywords: the automaton finds what the direct search finds

    Third phase of the automaton of [KeywordMatcher] (every node gets a sorted
    segment of the array of edges, searched by bisection), the scan of a text,
    and the equivalence of [Match] with [matchBlockedKeyword]. *)

From S2P Require Import Prelude GoStrings KeywordMatcher KeywordTrie.
From Stdlib Require Import Ascii String.

Abbreviation edge := contentModerationKeywordEdge.

(** ** Bytes as indices *)

Lemma byte_val_nat c : byte_val c = Z.of_nat (nat_of_ascii c).
Proof. unfold byte_val, nat_of_ascii. by rewrite N_nat_Z. Qed.

Lemma byte_val_inj c d : byte_val c = byte_val d -> c = d.
Proof.
  intros H. unfold byte_val in H. apply N2Z.inj in H.
  rewrite <- (ascii_N_embedding c), <- (ascii_N_embedding d). by rewrite H.
Qed.

Lemma ascii_count (cs : list ascii) : NoDup cs -> (List.length cs <= 256)%nat.
Proof.
  intros Hnd. assert (List.length (map nat_of_ascii cs) <= List.length (seq 0 256))%nat as H.
  { apply NoDup_incl_length.
    - apply NoDup_ListNoDup, NoDup_fmap_2_strong; [|done]. intros c d _ _ Hcd.
      rewrite <- (ascii_nat_embedding c), <- (ascii_nat_embedding d). by rewrite Hcd.
    - intros n Hn%list_elem_of_In. apply list_elem_of_fmap in Hn as (c & -> & _).
      apply in_seq. pose proof (nat_ascii_bounded c). lia. }
  by rewrite length_map, length_seq in H.
Qed.

Lemma children_labels starts edges words w es :
  trie starts edges words -> children edges words w es -> NoDup (map b_label es).
Proof.
  intros T [Hnd H]. apply NoDup_fmap_2_strong; [|done]. intros e e' He He' Heq.
  apply H in He as (k & Hk & Hw), He' as (k' & Hk' & Hw'). rewrite Heq in Hw.
  pose proof (NoDup_lookup _ _ _ _ (t_nodup _ _ _ T) Hw Hw') as [= ->]. congruence.
Qed.

Lemma repeat_lookup {A} (x : A) n i : (i < n)%nat -> repeat x n !! i = Some x.
Proof. revert i. induction n; intros [|i] H; simpl; [lia..|done|]. apply IHn. lia. Qed.

(** ** The transitions of the root *)

Definition root_table (rt : list Z) (es : list bedge) : list Z :=
  foldl (λ rt e, <[nat_of_ascii (b_label e) := b_target e]> rt) rt es.

Lemma root_table_length rt es : List.length (root_table rt es) = List.length rt.
Proof.
  revert rt. induction es as [|e es IH]; intros rt; simpl; [done|].
  unfold root_table in *. by rewrite IH, length_insert.
Qed.

Lemma root_table_lookup rt es c : List.length rt = 256%nat -> NoDup (map b_label es) ->
  root_table rt es !! nat_of_ascii c
  = match list_find (λ e, b_label e = c) es with
    | Some (_, e) => Some (b_target e) | None => rt !! nat_of_ascii c end.
Proof.
  unfold root_table. revert rt. induction es as [|e es IH]; intros rt Hl Hnd; simpl; [done|].
  simpl in Hnd. apply NoDup_cons in Hnd as [He Hnd].
  rewrite IH by (rewrite ?length_insert; done). destruct (decide (b_label e = c)) as [<-|Hc].
  - destruct (list_find _ es) as [[n e']|] eqn:E.
    + apply list_find_Some in E as (Hn & Hl' & _). destruct He. rewrite <- Hl'.
      apply list_elem_of_fmap. exists e'. split; [done|]. by eapply list_elem_of_lookup_2.
    + apply list_lookup_insert_eq. rewrite Hl. apply nat_ascii_bounded.
  - rewrite list_lookup_insert_ne.
    + by destruct (list_find _ es) as [[? ?]|].
    + intros H. apply Hc. rewrite <- (ascii_nat_embedding (b_label e)), H. apply ascii_nat_embedding.
Qed.

Lemma seed_fold (words : list word) es : Forall (child_edge words []) es ->
  ∀ rt q, List.length rt = 256%nat ->
  fold_opt (λ edge '(rootTransitions, queue),
       rootTransitions ← set_at rootTransitions (byte_val (b_label edge)) (b_target edge);
       Some (rootTransitions, queue ++ [b_target edge])) es (rt, Z.of_nat <$> q)
  = Some (root_table rt es, Z.of_nat <$> (q ++ targets es)).
Proof.
  induction es as [|e es IH]; intros Hch rt q Hl; simpl; [by rewrite app_nil_r|].
  apply Forall_cons in Hch as [(t & Ht & _) Hch].
  rewrite byte_val_nat, set_at_nat by (rewrite Hl; apply nat_ascii_bounded). simpl.
  replace ((Z.of_nat <$> q) ++ [b_target e]) with (Z.of_nat <$> (q ++ [t]))
    by (by rewrite fmap_app, Ht).
  rewrite IH; [|done|by rewrite length_insert].
  rewrite Ht, Nat2Z.id. unfold root_table. simpl. by rewrite <- app_assoc.
Qed.

(** The target of [c] from the node of [w]; 0 when there is none. *)
Definition child_or_root (words : list word) (w : word) (c : ascii) : Z :=
  Z.max 0 (zidx words (w ++ [c])).

Section Seed.
Context {UC : UnicodeCase}.
Variable keywords : list string.
Variable words : list word.
Variable edges : bedges_t.
Hypothesis Hwords : keyword_words keywords words.
Hypothesis Hlower : lower_nonempty keywords.

Lemma seed_root_ok nodes : built (exact keywords) nodes edges words ->
  ∃ rt q, seed_root nodes edges = Some (rt, Z.of_nat <$> q) /\
    (∀ c, rt !! nat_of_ascii c = Some (child_or_root words [] c)) /\
    links keywords words edges nodes q /\ bfs words q 0.
Proof.
  intros [T U]. pose proof (t_root _ _ _ T) as Hroot. unfold seed_root.
  destruct (for_edges_ok _ _ _ _ _ T Hroot) as (es & Hes & Hloop).
  change 0 with (Z.of_nat 0) at 1. rewrite Hloop.
  destruct (children_targets _ _ _ _ _ T Hes) as (Hnd & Hch & Hts).
  change (repeat 0 256, []) with (repeat 0 256, Z.of_nat <$> []).
  rewrite (seed_fold words es Hch _ _ (repeat_length _ _)).
  exists (root_table (repeat 0 256) es), (targets es). split_and!; [done| | |].
  - intros c. rewrite root_table_lookup; [|apply repeat_length|by eapply children_labels].
    pose proof (children_find T _ _ c Hes) as Hz. unfold child_or_root.
    rewrite <- Hz. destruct (list_find _ es) as [[n e]|] eqn:E.
    + apply list_find_Some in E as (Hn & _ & _). apply list_elem_of_lookup_2 in Hn.
      destruct (children_label T _ _ _ Hes Hn) as (t & -> & _). f_equal. lia.
    + pose proof (nat_ascii_bounded c). by rewrite repeat_lookup.
  - assert (∀ i w, words !! i = Some w -> tail w = [] -> final keywords words nodes i) as Hfin.
    { intros i w Hi Ht n w' Hn Hi'. rewrite Hi in Hi'. injection Hi' as <-.
      destruct (u_node _ _ _ U _ _ _ Hn Hi) as [-> ->]. exists 0%nat. rewrite Ht.
      assert (lsuf words [] 0) as Hl.
      { exists []. split_and!; [done|apply suffix_nil|]. by intros v _ ->%suffix_nil_inv. }
      split_and!; [done|done|]. rewrite <- (ends_split keywords words Hwords w 0 []);
        [|by rewrite Ht|done].
      rewrite (ends_nil keywords Hlower). unfold minKeywordIndex.
      pose proof (first_index_ge (hits (λ l, bool_decide (l = w))) keywords) as H.
      fold (exact keywords w) in H. repeat case_match; lia. }
    split; [done| |].
    + intros i Hi. apply elem_of_cons in Hi as [->|Hi]; [by apply (Hfin _ [])|].
      apply Hts in Hi as [c Hc]. by apply (Hfin _ _ Hc).
    + intros i _ n w Hn Hw. by apply (u_node _ _ _ U i).
  - split; [done| | | |].
    + intros a b x y _ Hx%list_elem_of_lookup_2%Hts Hy%list_elem_of_lookup_2%Hts.
      destruct Hx as [c Hc], Hy as [d Hd]. by rewrite (wd_lookup _ _ _ Hc), (wd_lookup _ _ _ Hd).
    + intros x y Hx%list_elem_of_lookup_2%Hts Hy%Hts. destruct Hy as [d Hd].
      rewrite (wd_lookup _ _ _ Hd). simpl. lia.
    + intros i [c Hc]%Hts. exists 0%nat. split; [set_solver|]. by exists [], c.
    + intros p i Hp (w & c & Hw & Hi). apply Hts. exists c. rewrite take_0 in Hp.
      apply list_elem_of_singleton in Hp as ->. rewrite Hroot in Hw. by injection Hw as <-.
Qed.

End Seed.

(** ** Sorting the edges of a node *)

Definition le_label (e e' : edge) : Prop := byte_val (label e) <= byte_val (label e').

Lemma insert_down_ok current (a : list edge) : ∀ y b, StronglySorted le_label a ->
  ∃ a', insert_down (List.length a) current (a ++ y :: b) = Some (a' ++ b) /\
        StronglySorted le_label a' /\ a' ≡ₚ current :: a.
Proof.
  induction a as [|x a IH] using rev_ind; intros y b Hs.
  { exists [current]. simpl. split_and!; [done| |done].
    apply StronglySorted_cons. split; [done|constructor]. }
  apply StronglySorted_app in Hs as (Hx & Ha & _).
  assert (∀ z, z ∈ a -> le_label z x) as Hle by (intros z Hz; apply Hx; set_solver).
  rewrite length_app, Nat.add_1_r. cbn [insert_down].
  assert ((a ++ [x]) ++ y :: b = a ++ x :: y :: b) as -> by (by rewrite <- app_assoc).
  rewrite at_nat, list_lookup_middle by done. simpl.
  rewrite !set_at_nat by (rewrite length_app; simpl; lia).
  assert (∀ z, <[S (List.length a) := z]> (a ++ x :: y :: b) = a ++ x :: z :: b) as Hins.
  { intros z. rewrite insert_app_r_alt by lia.
    by replace (S (List.length a) - List.length a)%nat with 1%nat by lia. }
  rewrite !Hins. destruct (Z.ltb_spec (byte_val (label current)) (byte_val (label x))) as [Hlt|Hge].
  - simpl. destruct (IH x (x :: b) Ha) as (a' & -> & Ha' & Hp).
    exists (a' ++ [x]). split_and!.
    + by rewrite <- app_assoc.
    + apply StronglySorted_app. split_and!; [|done|apply StronglySorted_cons; split; [done|constructor]].
      intros z x' Hz ->%list_elem_of_singleton. rewrite Hp in Hz.
      apply elem_of_cons in Hz as [->|Hz]; [unfold le_label; lia|by apply Hle].
    + rewrite Hp. by rewrite app_comm_cons.
  - exists ((a ++ [x]) ++ [current]). split_and!.
    + by rewrite <- !app_assoc.
    + apply StronglySorted_app. split_and!; [| |apply StronglySorted_cons; split; [done|constructor]].
      * intros z x' Hz ->%list_elem_of_singleton.
        apply elem_of_app in Hz as [Hz| ->%list_elem_of_singleton]; [|done].
        specialize (Hle _ Hz). unfold le_label in *. lia.
      * apply StronglySorted_app. split_and!; [done..|].
        apply StronglySorted_cons; split; [done|constructor].
    + by rewrite (Permutation_app_comm _ [current]).
Qed.

Lemma insertion_sort_ok b1 : ∀ (a b2 : list edge), StronglySorted le_label a ->
  ∃ a', insertion_sort (List.length b1) (List.length a) (a ++ b1 ++ b2) = Some (a' ++ b2) /\
        StronglySorted le_label a' /\ a' ≡ₚ a ++ b1.
Proof.
  induction b1 as [|x b1 IH]; intros a b2 Hs; cbn [insertion_sort List.length].
  { exists a. simpl. by rewrite app_nil_r. }
  rewrite <- app_comm_cons, at_nat, list_lookup_middle by done. simpl.
  destruct (insert_down_ok x a x (b1 ++ b2) Hs) as (a1 & -> & Hs1 & Hp1). simpl.
  assert (List.length a1 = S (List.length a)) as <- by (by rewrite Hp1).
  destruct (IH a1 b2 Hs1) as (a2 & -> & Hs2 & Hp2). exists a2. split_and!; [done..|].
  rewrite Hp2, Hp1. simpl. by rewrite <- Permutation_middle.
Qed.

Definition flat_edge (e : bedge) : edge := Edge (b_target e) (b_label e).

Lemma collect_fold es : ∀ (a rest : list edge), (List.length es <= List.length rest)%nat ->
  fold_opt (λ edge '(outgoing, count),
       outgoing ← set_at outgoing count (Edge (b_target edge) (b_label edge));
       Some (outgoing, count + 1)) es (a ++ rest, Z.of_nat (List.length a))
  = Some (a ++ map flat_edge es ++ drop (List.length es) rest,
          Z.of_nat (List.length a + List.length es)).
Proof.
  induction es as [|e es IH]; intros a rest Hl; cbn [fold_opt].
  { simpl. by rewrite drop_0, Nat.add_0_r. }
  destruct rest as [|y rest]; [simpl in Hl; lia|]. simpl in Hl.
  rewrite set_at_nat by (rewrite length_app; simpl; lia). simpl.
  rewrite insert_app_r_alt, Nat.sub_diag by done. simpl.
  replace (a ++ Edge (b_target e) (b_label e) :: rest) with ((a ++ [flat_edge e]) ++ rest)
    by (by rewrite <- app_assoc).
  replace (Z.of_nat (List.length a) + 1) with (Z.of_nat (List.length (a ++ [flat_edge e])))
    by (rewrite length_app; simpl; lia).
  rewrite IH by lia. rewrite <- app_assoc, length_app. simpl. do 3 f_equal. lia.
Qed.

(** What one turn of the loop appends. *)
Lemma sort_node es (rest : list edge) : List.length rest = 256%nat -> (List.length es <= 256)%nat ->
  ∃ seg rest', 
    insertion_sort (Z.to_nat (Z.of_nat (List.length es)) - 1) 1
      (map flat_edge es ++ drop (List.length es) rest) = Some (seg ++ rest') /\
    List.length (seg ++ rest') = 256%nat /\ List.length seg = List.length es /\
    StronglySorted le_label seg /\ seg ≡ₚ map flat_edge es.
Proof.
  intros Hr Hl. rewrite Nat2Z.id. destruct es as [|e es].
  - exists [], rest. simpl. rewrite drop_0. split_and!; auto. constructor.
  - destruct (insertion_sort_ok (map flat_edge es) [flat_edge e] (drop (S (List.length es)) rest))
      as (a' & Heq & Hs & Hp); [apply StronglySorted_cons; split; [done|constructor]|].
    rewrite length_map in Heq. simpl in Hl |- *. rewrite Nat.sub_0_r.
    assert (List.length a' = S (List.length es)) as Hla by (rewrite Hp; simpl; by rewrite length_map).
    exists a', (drop (S (List.length es)) rest). split_and!; [exact Heq| |done|done|exact Hp].
    rewrite length_app, length_drop, Hr, Hla. lia.
Qed.

(** ** The segments *)

Section Flatten.
Context {UC : UnicodeCase}.
Variable words : list word.
Variable bedges : bedges_t.

(** The node of [w] owns a sorted segment with its edges. *)
Definition segment (edges : list edge) (n : contentModerationKeywordNode) (w : word) : Prop :=
  ∃ pre seg post, edges = pre ++ seg ++ post /\
    edgeStart n = len_ pre /\ edgeCount n = len_ seg /\ StronglySorted le_label seg /\
    ∀ e, e ∈ seg <-> ∃ t, target e = Z.of_nat t /\ words !! t = Some (w ++ [label e]).

Record flattened (nodes0 nodes : nodes_t) (edges : list edge) (idx : nat) : Prop := {
  f_length : List.length nodes = List.length nodes0;
  f_done : ∀ i n0 w, (i < idx)%nat -> nodes0 !! i = Some n0 -> words !! i = Some w ->
    ∃ n, nodes !! i = Some n /\ failure n = failure n0 /\ bestKeyword n = bestKeyword n0 /\
         segment edges n w;
  f_todo : ∀ i, (idx <= i)%nat -> nodes !! i = nodes0 !! i;
  f_targets : NoDup (map target edges);
  f_edges : ∀ e, e ∈ edges -> ∃ t p, target e = Z.of_nat t /\ parent words p t /\ (p < idx)%nat }.

Lemma segment_app edges more n w : segment edges n w -> segment (edges ++ more) n w.
Proof.
  intros (pre & seg & post & -> & H). exists pre, seg, (post ++ more).
  split; [by rewrite <- !app_assoc|done].
Qed.

Lemma flattened_count starts nodes0 nodes edges idx : trie starts bedges words ->
  flattened nodes0 nodes edges idx -> (List.length edges <= List.length words)%nat.
Proof.
  intros T F. rewrite <- (length_map target edges).
  transitivity (List.length (map Z.of_nat (seq 0 (List.length words))));
    [|by rewrite length_map, length_seq].
  apply NoDup_incl_length; [apply NoDup_ListNoDup, (f_targets _ _ _ _ F)|].
  intros z Hz%list_elem_of_In. apply list_elem_of_fmap in Hz as (e & -> & He).
  destruct (f_edges _ _ _ _ F e He) as (t & p & -> & (w & c & _ & Ht) & _).
  apply in_map, in_seq. apply lookup_lt_Some in Ht. lia.
Qed.

Lemma flatten_step nodes0 nodes edges idx n w es seg :
  trie (edgeStart <$> nodes0) bedges words ->
  flattened nodes0 nodes edges idx -> nodes !! idx = Some n -> words !! idx = Some w ->
  children bedges words w es -> seg ≡ₚ map flat_edge es -> StronglySorted le_label seg ->
  flattened nodes0 (<[idx := set_edgeCount (set_edgeStart n (len_ edges)) (len_ seg)]> nodes)
    (edges ++ seg) (S idx).
Proof.
  intros T F Hn Hw Hes Hp Hs.
  assert (∀ e, e ∈ seg <-> ∃ t, target e = Z.of_nat t /\ words !! t = Some (w ++ [label e])) as Hseg.
  { intros e. rewrite Hp. split.
    - intros (e' & -> & He')%list_elem_of_fmap.
      destruct (children_label T _ _ _ Hes He') as (t & Ht & Hwt). by exists t.
    - intros (t & Ht & Hwt). destruct (trie_edge T _ _ _ Hwt) as (k & e' & -> & Hk & Hl & Ht' & _).
      apply list_elem_of_fmap. exists e'. split.
      + destruct e. unfold flat_edge. simpl in *. congruence.
      + apply Hes. exists k. by rewrite Hl. }
  split.
  - by rewrite length_insert, (f_length _ _ _ _ F).
  - intros i n0 v Hi Hn0 Hv. destruct (decide (i = idx)) as [->|Hne].
    + rewrite list_lookup_insert_eq by (by eapply lookup_lt_Some). eexists. split; [done|].
      rewrite <- (f_todo _ _ _ _ F) in Hn0 by done. rewrite Hn in Hn0. injection Hn0 as <-.
      split_and!; [done..|]. exists edges, seg, []. rewrite app_nil_r.
      replace v with w by congruence. by split_and!.
    + rewrite list_lookup_insert_ne by done.
      destruct (f_done _ _ _ _ F i n0 v) as (m & Hm & Hf & Hb & Hsg); [lia|done..|].
      exists m. split_and!; [done..|by apply segment_app].
  - intros i Hi. rewrite list_lookup_insert_ne by lia. apply (f_todo _ _ _ _ F). lia.
  - rewrite map_app. apply NoDup_app. split_and!; [apply (f_targets _ _ _ _ F)| |].
    + intros z (e & -> & He)%list_elem_of_fmap (e' & Heq & (t & Ht & Hwt)%Hseg)%list_elem_of_fmap.
      destruct (f_edges _ _ _ _ F e He) as (t' & p & Ht' & Hpar & Hlt).
      assert (t' = t) as -> by lia. assert (p = idx); [|lia].
      apply (parent_unique _ _ T _ _ _ Hpar). by exists w, (label e').
    + rewrite Hp, map_map. apply NoDup_fmap_2_strong; [|apply Hes].
      intros e e' He He' Heq. simpl in Heq. apply Hes in He as (k & Hk & _), He' as (k' & Hk' & _).
      rewrite (t_target _ _ _ T _ _ Hk), (t_target _ _ _ T _ _ Hk') in Heq.
      replace k' with k in * by lia. congruence.
  - intros e [He|(t & Ht & Hwt)%Hseg]%elem_of_app.
    + destruct (f_edges _ _ _ _ F e He) as (t & p & ? & ? & ?). exists t, p. split_and!; auto.
    + exists t, idx. split_and!; [done| |lia]. by exists w, (label e).
Qed.
Lemma flatten_ok nodes0 : trie (edgeStart <$> nodes0) bedges words ->
  ∀ todo idx nodes edges outgoing,
  flattened nodes0 nodes edges idx -> (todo + idx = List.length nodes0)%nat ->
  List.length outgoing = 256%nat ->
  ∃ nodes' edges', flatten todo (Z.of_nat idx) bedges nodes edges outgoing = Some (nodes', edges') /\
    flattened nodes0 nodes' edges' (List.length nodes0).
Proof.
  intros T todo. induction todo as [|todo IH]; intros idx nodes edges outgoing F Hidx Hout;
    cbn [flatten].
  { exists nodes, edges. split; [done|]. by replace (List.length nodes0) with idx by lia. }
  pose proof (t_nodes _ _ _ T) as HN. rewrite length_fmap in HN.
  assert (idx < List.length nodes0)%nat as [n Hn0]%lookup_lt_is_Some by lia.
  assert (idx < List.length words)%nat as [w Hw]%lookup_lt_is_Some by lia.
  pose proof (f_todo _ _ _ _ F idx ltac:(lia)) as Hn. rewrite Hn0 in Hn.
  destruct (for_edges_ok _ _ _ _ _ T Hw) as (es & Hes & Hloop).
  unfold collect_edges. unfold for_edges_of in *. rewrite at_nat, Hn.
  rewrite at_nat, Hn0 in Hloop. cbn [mbind option_bind] in *. rewrite Hloop.
  pose proof (ascii_count _ (children_labels _ _ _ _ _ T Hes)) as Hcount. rewrite length_map in Hcount.
  pose proof (collect_fold es [] outgoing ltac:(lia)) as Hcol.
  cbn [app List.length Nat.add] in Hcol. change (Z.of_nat 0) with 0 in Hcol. rewrite Hcol.
  cbn [mbind option_bind].
  destruct (sort_node es outgoing Hout Hcount) as (seg & rest & -> & Hl & Hls & Hs & Hp).
  cbn [mbind option_bind]. rewrite (update_node_nat _ _ _ _ _ Hn). cbn [mbind option_bind].
  erewrite update_node_nat by (apply list_lookup_insert_eq; by eapply lookup_lt_Some).
  cbn [mbind option_bind]. rewrite list_insert_insert_eq.
  pose proof (flattened_count _ _ _ _ _ T F) as Hfc. pose proof (t_small _ _ _ T) as Hsm.
  rewrite wrapu32_id by (unfold len_ in *; lia). rewrite wrapu16_id by lia.
  rewrite Nat2Z.id, <- Hls, take_app_length.
  replace (Z.of_nat idx + 1) with (Z.of_nat (S idx)) by lia.
  apply IH; [|lia|done]. by eapply flatten_step.
Qed.

End Flatten.

(** ** Bisection *)

Lemma lower_bound_ok (pre seg post : list edge) c : StronglySorted le_label seg ->
  ∀ fuel l r, (l <= r)%nat -> (r <= List.length seg)%nat -> (r - l <= fuel)%nat ->
  (∀ j e, (j < l)%nat -> seg !! j = Some e -> byte_val (label e) < byte_val c) ->
  (∀ j e, (r <= j)%nat -> seg !! j = Some e -> byte_val c <= byte_val (label e)) ->
  ∃ x, lower_bound fuel (pre ++ seg ++ post) (len_ pre + Z.of_nat l) (len_ pre + Z.of_nat r) c
       = Some (len_ pre + Z.of_nat x) /\ (x <= List.length seg)%nat /\
    (∀ j e, (j < x)%nat -> seg !! j = Some e -> byte_val (label e) < byte_val c) /\
    (∀ j e, (x <= j)%nat -> seg !! j = Some e -> byte_val c <= byte_val (label e)).
Proof.
  intros Hs fuel. induction fuel as [|fuel IH]; intros l r Hlr Hr Hf Hlow Hhigh; cbn [lower_bound];
    destruct (Z.ltb_spec (len_ pre + Z.of_nat l) (len_ pre + Z.of_nat r)) as [Hlt|Hge]; [lia| | |].
  1,3: exists l; split_and!; [done|lia|done|]; intros j e Hj; apply Hhigh; lia.
  set (m := (l + (r - l) / 2)%nat).
  assert (l <= m < r)%nat as Hm.
  { unfold m. pose proof (Nat.div_lt (r - l) 2 ltac:(lia) ltac:(lia)). lia. }
  assert (len_ pre + Z.of_nat l + Z.quot (len_ pre + Z.of_nat r - (len_ pre + Z.of_nat l)) 2
          = Z.of_nat (List.length pre + m)) as ->.
  { rewrite Z.quot_div_nonneg by lia. unfold m, len_.
    rewrite !Nat2Z.inj_add, Nat2Z.inj_div, Nat2Z.inj_sub by lia.
    replace (_ + Z.of_nat r - _) with (Z.of_nat r - Z.of_nat l) by lia. lia. }
  assert (m < List.length seg)%nat as [e He]%lookup_lt_is_Some by lia.
  rewrite at_nat, lookup_app_r by lia.
  replace (List.length pre + m - List.length pre)%nat with m by lia.
  rewrite (lookup_app_l_Some _ _ _ _ He). cbn [mbind option_bind].
  assert (∀ i j a b, (i < j)%nat -> seg !! i = Some a -> seg !! j = Some b -> le_label a b) as Hord.
  { intros i j a b Hij Ha Hb. rewrite <- (take_drop_middle _ _ _ Ha) in Hs.
    apply StronglySorted_app in Hs as (_ & _ & [Hs _]%StronglySorted_cons).
    rewrite Forall_forall in Hs. apply Hs, list_elem_of_lookup.
    exists (j - S i)%nat. rewrite lookup_drop. by replace (S i + (j - S i))%nat with j by lia. }
  destruct (Z.ltb_spec (byte_val (label e)) (byte_val c)) as [Hc|Hc].
  - replace (Z.of_nat (List.length pre + m) + 1) with (len_ pre + Z.of_nat (S m)) by (unfold len_; lia).
    apply IH; [lia..| |done]. intros j e' Hj He'. destruct (decide (j = m)) as [->|Hne]; [congruence|].
    pose proof (Hord j m e' e ltac:(lia) He' He) as H. unfold le_label in H. lia.
  - replace (Z.of_nat (List.length pre + m)) with (len_ pre + Z.of_nat m) by (unfold len_; lia).
    apply IH; [lia..|done|]. intros j e' Hj He'. destruct (decide (j = m)) as [->|Hne]; [congruence|].
    pose proof (Hord m j e e' ltac:(lia) He He') as H. unfold le_label in H. lia.
Qed.

(** ** The automaton *)

Section Automaton.
Context {UC : UnicodeCase}.
Variable keywords : list string.
Hypothesis Hlower : lower_nonempty keywords.

Record automaton (m : contentModerationKeywordMatcher) (words : list word) : Prop := {
  a_trie : ∃ starts edges, trie starts edges words;
  a_nodes : List.length (m_nodes m) = List.length words;
  a_final : ∀ i, final keywords words (m_nodes m) i;
  a_root : ∀ c, m_rootTransitions m !! nat_of_ascii c = Some (child_or_root words [] c);
  a_segment : ∀ i n w, m_nodes m !! i = Some n -> words !! i = Some w ->
    segment words (m_edges m) n w;
  a_keywords : m_keywords m = keywords;
  a_words : keyword_words keywords words }.

Section Scan.
Context {m : contentModerationKeywordMatcher} {words : list word}.
Hypothesis M : automaton m words.

Lemma automaton_node i w : words !! i = Some w -> ∃ n, m_nodes m !! i = Some n.
Proof.
  intros H. apply lookup_lt_is_Some. rewrite (a_nodes _ _ M). by eapply lookup_lt_Some.
Qed.

Lemma automaton_nodup : NoDup words.
Proof. destruct (a_trie _ _ M) as (s & e & T). apply (t_nodup _ _ _ T). Qed.

Lemma automaton_root i : words !! i = Some [] -> i = 0%nat.
Proof.
  intros H. destruct (a_trie _ _ M) as (s & e & T).
  by eapply NoDup_lookup; [apply automaton_nodup|..|apply (t_root _ _ _ T)].
Qed.

Lemma next_ok i w c : words !! i = Some w ->
  next m (Z.of_nat i) c = Some (child_or_root words w c).
Proof.
  intros Hi. unfold next. destruct (Z.eqb_spec (Z.of_nat i) 0) as [H0|H0].
  { destruct (a_trie _ _ M) as (s & e & T). pose proof (t_root _ _ _ T) as Hr.
    replace i with 0%nat in * by lia. rewrite Hi in Hr. injection Hr as ->.
    by rewrite byte_val_nat, at_nat, (a_root _ _ M). }
  destruct (automaton_node _ _ Hi) as [n Hn]. pose proof (lookup_lt_Some _ _ _ Hn) as Hlt.
  unfold len_ at 1. destruct (Z.ltb_spec (Z.of_nat i) 0); [lia|].
  destruct (Z.leb_spec (Z.of_nat (List.length (m_nodes m))) (Z.of_nat i)); [lia|].
  cbn [orb]. rewrite (at_Some _ _ _ Hn). cbn [mbind option_bind].
  destruct (a_segment _ _ M _ _ _ Hn Hi) as (pre & seg & post & HE & -> & -> & Hs & Hseg). rewrite HE.
  destruct (lower_bound_ok pre seg post c Hs (List.length seg) 0 (List.length seg))
    as (x & Hx & Hxl & Hlow & Hhigh); [lia..|intros; lia| |].
  { intros j e Hj He%lookup_lt_Some. lia. }
  rewrite Z.add_0_r in Hx. change (Z.of_nat (List.length seg)) with (len_ seg) in Hx.
  replace (Z.to_nat (len_ seg)) with (List.length seg) by (unfold len_; lia). rewrite Hx.
  cbn [mbind option_bind]. unfold child_or_root.
  assert (∀ e, e ∈ seg -> label e = c -> zidx words (w ++ [c]) = target e) as Hfound.
  { intros e He <-. apply Hseg in He as (t & -> & Ht). apply zidx_lookup; [apply automaton_nodup|done]. }
  assert (∀ e, e ∈ seg -> 0 <= target e) as Hpos.
  { intros e (t & -> & _)%Hseg. lia. }
  assert ((∀ e, e ∈ seg -> label e ≠ c) -> zidx words (w ++ [c]) = -1) as Hmiss.
  { intros Hno. apply zidx_none. intros [t Ht]%list_elem_of_lookup.
    apply (Hno (Edge (Z.of_nat t) c)); [|done]. apply Hseg. by exists t. }
  assert (∀ j e, seg !! j = Some e -> label e = c -> (x <= j)%nat) as Hge.
  { intros j e He Hl. destruct (decide (x <= j)%nat); [done|].
    specialize (Hlow j e ltac:(lia) He). rewrite Hl in Hlow. lia. }
  destruct (Z.ltb_spec (len_ pre + Z.of_nat x) (len_ pre + len_ seg)) as [Hlt'|Hge'].
  - assert (x < List.length seg)%nat as [e He]%lookup_lt_is_Some by (unfold len_ in *; lia).
    replace (len_ pre + Z.of_nat x) with (Z.of_nat (List.length pre + x)) by (unfold len_; lia).
    rewrite at_nat, lookup_app_r by lia.
    replace (List.length pre + x - List.length pre)%nat with x by lia.
    rewrite (lookup_app_l_Some _ _ _ _ He). cbn [mbind option_bind].
    destruct (Ascii.eqb_spec (label e) c) as [Hl|Hl].
    + pose proof (list_elem_of_lookup_2 _ _ _ He) as Hin.
      rewrite (Hfound _ Hin Hl). specialize (Hpos _ Hin). f_equal. lia.
    + rewrite Hmiss; [done|]. intros e' [j He']%list_elem_of_lookup Hl'. apply Hl.
      pose proof (Hge _ _ He' Hl'). destruct (decide (j = x)) as [->|Hne]; [congruence|].
      apply byte_val_inj. apply Z.le_antisymm; [|by apply (Hhigh x e)].
      rewrite <- Hl'. rewrite <- (take_drop_middle _ _ _ He) in Hs.
      apply StronglySorted_app in Hs as (_ & _ & [Hs _]%StronglySorted_cons).
      rewrite Forall_forall in Hs. apply Hs, list_elem_of_lookup.
      exists (j - S x)%nat. rewrite lookup_drop. by replace (S x + (j - S x))%nat with j by lia.
  - rewrite Hmiss; [done|]. intros e [j He]%list_elem_of_lookup Hl.
    pose proof (Hge _ _ He Hl). apply lookup_lt_Some in He. unfold len_ in *. lia.
Qed.

Lemma child_or_root_cases w c : 
  (∃ j, words !! j = Some (w ++ [c]) /\ child_or_root words w c = Z.of_nat j /\ j ≠ 0%nat) \/
  ((w ++ [c] ∉ words) /\ child_or_root words w c = 0).
Proof.
  unfold child_or_root. destruct (decide (w ++ [c] ∈ words)) as [[j Hj]%list_elem_of_lookup|H].
  - left. exists j. rewrite (zidx_lookup _ _ _ automaton_nodup Hj). split_and!; [done|lia|].
    intros ->. destruct (a_trie _ _ M) as (s & e & T). rewrite (t_root _ _ _ T) in Hj.
    injection Hj as Hj. by destruct w.
  - right. by rewrite (zidx_none _ _ H).
Qed.

(** The state is the longest suffix of what has been read that is a node. *)
Lemma advance_ok u c fuel : ∀ i v, words !! i = Some v -> v `suffix_of` u ->
  maximal words u c v -> (List.length v < fuel)%nat ->
  ∃ j, advance fuel m (Z.of_nat i) c = Some (Z.of_nat j) /\ lsuf words (u ++ [c]) j.
Proof.
  destruct (a_trie _ _ M) as (starts & edges & T).
  induction fuel as [|fuel IH]; intros i v Hi Hs Hm Hf; [lia|]. cbn [advance].
  rewrite (next_ok _ _ _ Hi). cbn [mbind option_bind].
  destruct (child_or_root_cases v c) as [(j & Hj & -> & H0)|[Hc ->]].
  - exists j. destruct (Z.eqb_spec (Z.of_nat j) 0); [lia|]. split; [done|by eapply lsuf_hit].
  - cbn [Z.eqb negb]. destruct (Z.eqb_spec (Z.of_nat i) 0) as [H0|H0].
    + exists 0%nat. split; [f_equal; lia|]. replace i with 0%nat in * by lia.
      assert (v = []) as -> by (pose proof (t_root _ _ _ T); congruence). by apply (lsuf_miss T).
    + assert (v ≠ []) as Hne by (intros ->; apply automaton_root in Hi; lia).
      destruct (automaton_node _ _ Hi) as [n Hn]. rewrite (at_Some _ _ _ Hn). cbn [mbind option_bind].
      destruct (a_final _ _ M i n v Hn Hi) as (g & -> & Hg & _).
      destruct (lsuf_shrink T u c v g Hs Hm Hc Hne Hg) as (v' & Hgv & Hs' & Hm' & Hlt).
      apply (IH g v'); auto. lia.
Qed.

Definition contained (u : word) : Z := first_index (hits (contains_bytes u)) keywords.

Lemma contains_snoc u c l : l ≠ [] -> 
  contains_bytes (u ++ [c]) l = contains_bytes u l || bool_decide (l `suffix_of` u ++ [c]).
Proof.
  intros Hl. apply eq_bool_prop_intro. rewrite orb_True, bool_decide_spec, !Is_true_true.
  rewrite !contains_bytes_spec. split.
  - intros (a & b & H). destruct b as [|d b] using rev_ind.
    + right. exists a. by rewrite app_nil_r in H.
    + left. exists a, b. rewrite !app_assoc in H. apply app_inj_tail in H as [H _].
      by rewrite <- !app_assoc in H.
  - intros [(a & b & ->)|[a H]].
    + exists a, (b ++ [c]). by rewrite <- !app_assoc.
    + exists a, []. by rewrite app_nil_r.
Qed.

Lemma contained_snoc u c j v : lsuf words (u ++ [c]) j -> words !! j = Some v ->
  minKeywordIndex (contained u) (ends keywords v) = contained (u ++ [c]).
Proof.
  intros (v0 & Hj & Hs & Hm) Hv. rewrite Hv in Hj. injection Hj as <-.
  unfold contained, ends. rewrite first_index_min. apply first_index_ext. intros kw Hkw.
  unfold hits. destruct (str_empty kw) eqn:He; [done|]. apply str_empty_false in He. simpl.
  rewrite (contains_snoc u c) by (by apply Hlower). f_equal.
  apply bool_decide_ext. split; [intros H; by etrans|]. intros H.
  apply (suffix_shorter _ _ _ H Hs). apply Hm; [by apply (a_words _ _ M)|done].
Qed.

Lemma contained_grows u v : contained u = 0 -> contained (u ++ v) = 0.
Proof.
  apply first_index_mono. intros kw. unfold hits. rewrite !andb_true_iff.
  intros [H1 (a & b & ->)%contains_bytes_spec]. split; [done|].
  apply contains_bytes_spec. exists a, (b ++ v). by rewrite <- !app_assoc.
Qed.

Lemma scan_ok rest : ∀ i u, lsuf words u i -> contained u ≠ 0 ->
  (contained (u ++ rest) ≠ 0 /\
   scan m (Z.of_nat i) (contained u) rest = Some (inr (contained (u ++ rest)))) \/
  (contained (u ++ rest) = 0 /\
   ∃ k, keywords !! 0%nat = Some k /\
        scan m (Z.of_nat i) (contained u) rest = Some (inl k)).
Proof.
  destruct (a_trie _ _ M) as (starts & edges & T).
  induction rest as [|c rest IH]; intros i u Hl Hc; cbn [scan].
  { left. by rewrite app_nil_r. }
  pose proof Hl as (v & Hi & _). destruct (lsuf_maximal T _ _ _ c Hl Hi) as [Hs Hm].
  assert (List.length v < List.length (m_nodes m))%nat as Hf.
  { rewrite (a_nodes _ _ M). pose proof (trie_depth T _ _ Hi). apply lookup_lt_Some in Hi. lia. }
  destruct (advance_ok u c _ i v Hi Hs Hm Hf) as (j & -> & Hj). cbn [mbind option_bind].
  pose proof Hj as (w & Hw & _). destruct (automaton_node _ _ Hw) as [n Hn].
  rewrite (at_Some _ _ _ Hn). cbn [mbind option_bind].
  destruct (a_final _ _ M j n w Hn Hw) as (_ & _ & _ & ->). rewrite (contained_snoc u c j w Hj Hw).
  replace (u ++ c :: rest) with ((u ++ [c]) ++ rest) by (by rewrite <- app_assoc).
  destruct (Z.eqb_spec (contained (u ++ [c])) 0) as [H0|H0]; [|by apply IH].
  right. split; [by apply contained_grows|]. rewrite (a_keywords _ _ M).
  unfold contained in H0. destruct keywords as [|k ks]; [done|]. by exists k.
Qed.

End Scan.

(** ** The constructor *)

Lemma automaton_built : total_bytes keywords + 1 < 2 ^ 31 -> len_ keywords < 2 ^ 31 ->
  (newContentModerationKeywordMatcher keywords = Some None /\ Forall (λ kw, kw = EmptyString) keywords)
  \/ ∃ m words, newContentModerationKeywordMatcher keywords = Some (Some m) /\ automaton m words.
Proof.
  intros Hsmall Hlen. unfold newContentModerationKeywordMatcher.
  destruct (build_trie_all keywords Hsmall Hlen) as (nodes & bedges & words & Hb & HB & HK).
  destruct (decide (keywords = [])) as [->|Hne]; [left; by split|].
  assert (∀ {A} (x y : A), match keywords with [] => x | _ => y end = y) as Hcase
    by (intros; by destruct keywords).
  rewrite Hcase, Hb. cbn [mbind option_bind]. pose proof HB as [T U].
  pose proof (t_nodes _ _ _ T) as HN. rewrite length_fmap in HN.
  destruct (Nat.eqb_spec (List.length nodes) 1) as [H1|H1].
  { left. split; [done|]. apply Forall_forall. intros kw Hkw.
    destruct (decide (kw = EmptyString)) as [|Hkne]; [done|exfalso].
    apply (Hlower kw Hkw Hkne). pose proof (HK kw Hkw Hkne) as [j Hj]%list_elem_of_lookup.
    pose proof (lookup_lt_Some _ _ _ Hj) as Hlt. replace j with 0%nat in Hj by lia.
    rewrite (t_root _ _ _ T) in Hj. congruence. }
  right. destruct (seed_root_ok keywords words bedges HK Hlower nodes HB) as (rt & q & -> & Hrt & L & Q).
  cbn [mbind option_bind].
  destruct (link_queue_ok keywords words bedges HK Hlower (List.length nodes) 0 nodes q L Q)
    as (nodes1 & q1 & Hq & L1 & Hall); [lia|].
  change (Z.of_nat 0) with 0 in Hq. rewrite Hq. cbn [mbind option_bind].
  pose proof (t_nodes _ _ _ (l_trie _ _ _ _ _ L1)) as HN1. rewrite length_fmap in HN1.
  assert (flattened words nodes1 nodes1 [] 0) as F0.
  { split; [done|intros; lia|done|constructor|intros e He; set_solver]. }
  destruct (flatten_ok words bedges nodes1 (l_trie _ _ _ _ _ L1) (List.length nodes1) 0 nodes1 []
              (repeat (Edge 0 (byte_of 0)) 256) F0) as (nodes2 & edges2 & Hfl & F); [lia|done|].
  change (Z.of_nat 0) with 0 in Hfl. rewrite Hfl. cbn [mbind option_bind].
  exists (Matcher nodes2 edges2 rt keywords), words. split; [done|].
  assert (∀ i n w, nodes2 !! i = Some n -> words !! i = Some w ->
    ∃ n1, nodes1 !! i = Some n1 /\ failure n = failure n1 /\ bestKeyword n = bestKeyword n1 /\
          segment words edges2 n w) as Hnode.
  { intros i n w Hn Hw. pose proof (lookup_lt_Some _ _ _ Hw) as Hlt. rewrite <- HN1 in Hlt.
    destruct (proj2 (lookup_lt_is_Some nodes1 i) Hlt) as [n1 Hn1].
    destruct (f_done _ _ _ _ _ F i n1 w Hlt Hn1 Hw) as (n2 & Hn2 & ? & ? & ?).
    rewrite Hn in Hn2. injection Hn2 as <-. by exists n1. }
  split; cbn [m_nodes m_edges m_rootTransitions m_keywords].
  - eauto.
  - by rewrite (f_length _ _ _ _ _ F).
  - intros i n w Hn Hw. destruct (Hnode _ _ _ Hn Hw) as (n1 & Hn1 & -> & -> & _).
    by eapply (l_final _ _ _ _ _ L1); [eapply Hall|..].
  - done.
  - intros i n w Hn Hw. by destruct (Hnode _ _ _ Hn Hw) as (n1 & _ & _ & _ & Hs).
  - done.
  - done.
Qed.

End Automaton.

(** ** The direct search *)

Section Equivalence.
Context {UC : UnicodeCase}.

(** Lower-casing maps every rune to a rune, so it empties no string. *)
Definition lower_law : Prop := ∀ s, u_to_lower s = EmptyString -> s = EmptyString.

Lemma ToLower_nonempty s : lower_law -> s ≠ EmptyString -> to_bytes (ToLower s) ≠ [].
Proof.
  intros Hlaw Hs Hl. unfold ToLower in Hl. destruct (is_ascii s).
  - unfold ascii_lower in Hl. rewrite to_of_bytes in Hl. destruct s; [done|]. by apply map_eq_nil in Hl.
  - apply Hs, Hlaw. by destruct (u_to_lower s).
Qed.

Lemma first_contained_index lower keywords : first_contained lower keywords
  = if contained keywords (to_bytes lower) <? 0 then None
    else keywords !! Z.to_nat (contained keywords (to_bytes lower)).
Proof.
  unfold contained. set (p := hits (contains_bytes (to_bytes lower))).
  induction keywords as [|kw rest IH]; [done|]. cbn [first_contained first_index].
  pose proof (first_index_ge p rest) as Hge.
  assert (p kw = negb (str_empty kw) && Contains lower (ToLower kw)) as -> by done.
  assert (∀ b, b = false ->
    first_contained lower rest
    = if (if b then 0 else if first_index p rest <? 0 then -1 else first_index p rest + 1) <? 0
      then None
      else (kw :: rest) !! Z.to_nat
             (if b then 0 else if first_index p rest <? 0 then -1 else first_index p rest + 1))
    as Hrest.
  { intros b ->. rewrite IH. destruct (Z.ltb_spec (first_index p rest) 0); [done|].
    destruct (Z.ltb_spec (first_index p rest + 1) 0); [lia|].
    by rewrite Z2Nat.inj_add, Nat.add_1_r by lia. }
  destruct (str_empty kw); [by apply Hrest|].
  destruct (Contains lower (ToLower kw)); [done|by apply Hrest].
Qed.

Lemma contained_start keywords : lower_nonempty keywords -> contained keywords [] = -1.
Proof.
  intros H. apply first_index_none. intros kw Hkw. unfold hits.
  destruct (str_empty kw) eqn:He; [done|]. apply str_empty_false in He. simpl.
  specialize (H kw Hkw He). by destruct (lower_of kw).
Qed.

Lemma match_ok keywords m words text : lower_nonempty keywords -> automaton keywords m words ->
  keywords ≠ [] -> Match (Some m) text = Some (matchBlockedKeyword text keywords).
Proof.
  intros Hlower M Hne. unfold Match, matchBlockedKeyword. rewrite (a_keywords _ _ _ M).
  assert ((len_ keywords =? 0) = false) as -> by (destruct keywords; done).
  assert ((len_ (m_nodes m) =? 0) = false) as ->.
  { apply Z.eqb_neq. unfold len_. rewrite (a_nodes _ _ _ M).
    destruct (a_trie _ _ _ M) as (s & e & T). rewrite (t_edges _ _ _ T). lia. }
  rewrite !orb_false_r. destruct (str_empty text); [done|]. rewrite first_contained_index.
  set (lower := to_bytes (ToLower text)).
  assert (lsuf words [] 0) as Hl.
  { destruct (a_trie _ _ _ M) as (s & e & T). exists [].
    split_and!; [apply (t_root _ _ _ T)|done|]. by intros v _ ->%suffix_nil_inv. }
  pose proof (contained_start keywords Hlower) as H0.
  destruct (scan_ok keywords Hlower M lower 0 [] Hl) as [[Hc Hs]|[Hc (k & Hk & Hs)]];
    [lia|..]; rewrite H0 in Hs; cbn [app] in Hs, Hc; change (Z.of_nat 0) with 0 in Hs; rewrite Hs; cbn [mbind option_bind].
  - pose proof (first_index_ge (hits (contains_bytes lower)) keywords) as Hge.
    pose proof (first_index_lt (hits (contains_bytes lower)) keywords) as Hlt.
    fold (contained keywords lower) in Hge, Hlt.
    destruct (Z.ltb_spec (contained keywords lower) 0); [done|]. cbn [orb].
    destruct (Z.leb_spec (len_ keywords) (contained keywords lower)); [lia|].
    unfold at_. destruct (Z.ltb_spec (contained keywords lower) 0); [lia|].
    destruct (keywords !! Z.to_nat (contained keywords lower)) eqn:E; [done|].
    apply lookup_ge_None in E. unfold len_ in Hlt. lia.
  - rewrite Hc. exact (f_equal Some (eq_sym Hk)).
Qed.

(** Building never panics and every scan ends; the answer is that of the
    direct search. *)
Lemma automaton_agrees (keywords : list string) :
  lower_law -> total_bytes keywords + 1 < 2 ^ 31 -> len_ keywords < 2 ^ 31 ->
  ∃ m, newContentModerationKeywordMatcher keywords = Some m /\
       ∀ text, Match m text = Some (matchBlockedKeyword text keywords).
Proof.
  intros Hlaw Hsmall Hlen.
  assert (lower_nonempty keywords) as Hlower by (intros kw _ Hkw; by apply ToLower_nonempty).
  destruct (automaton_built keywords Hlower Hsmall Hlen) as [[Heq Hall]|(m & words & Heq & M)].
  - exists None. split; [done|]. intros text. simpl. f_equal.
    unfold matchBlockedKeyword. destruct (_ || _); [done|].
    clear -Hall. induction Hall as [|kw rest -> _ IH]; simpl; done.
  - exists (Some m). split; [done|]. intros text.
    apply (match_ok keywords m words text Hlower M). intros ->. by injection Heq.
Qed.

(** C25. The automaton is built without a panic, every scan of a text ends
    without one, and its answer is that of the direct search: the first
    keyword of the list whose lower-cased bytes occur in the lower-cased
    text; for keywords of fewer than 2^31 bytes in all, which normalised
    settings never exceed. *)
Theorem matcher_finds_first (keywords : list string) :
  lower_law -> total_bytes keywords + 1 < 2 ^ 31 -> len_ keywords < 2 ^ 31 ->
  ∃ m, newContentModerationKeywordMatcher keywords = Some m /\
       ∀ text, Match m text = Some (matchBlockedKeyword text keywords).
Proof. apply automaton_agrees. Qed.

End Equivalence.
