(* ===== verification/ModerationInput.v ===== *)
(** * Content moderation: what is reviewed of a request

    [service/content_moderation_input.go] and the methods of
    [ContentModerationInput] ([service/content_moderation.go]): the text and
    the images of the last user message of a request body, for each protocol.

    A body is what [gjson] parses it to ([gval]): [Get] of a key finds the
    first field of that name, of a path its parts one after the other, and on
    anything but an object nothing; [String] of an array or an object is its
    source text, of [null] the empty string.  The collectors append to slices
    they are handed; here they are functions of the slices. *)

From S2P Require Import Prelude GoStrings GoText.
From Stdlib Require Import Ascii String.

Inductive gval :=
| GNone
| GString (s : string)
| GArray (raw : string) (items : list gval)
| GObject (raw : string) (fields : list (string * gval))
| GOther (text : string).

Definition gexists (v : gval) : bool := match v with GNone => false | _ => true end.
Definition gstring (v : gval) : string :=
  match v with
  | GNone => "" | GString s => s | GArray raw _ => raw | GObject raw _ => raw | GOther text => text
  end.
Fixpoint first_field (key : string) (fields : list (string * gval)) : gval :=
  match fields with
  | [] => GNone
  | (k, v) :: rest => if String.eqb k key then v else first_field key rest
  end.
Definition gget (v : gval) (key : string) : gval :=
  match v with GObject _ fields => first_field key fields | _ => GNone end.
(** [Get] of a path with a dot. *)
Definition gget2 (v : gval) (key sub : string) : gval := gget (gget v key) sub.
Definition is_array (v : gval) : option (list gval) :=
  match v with GArray _ items => Some items | _ => None end.

Fixpoint gdepth (v : gval) : nat :=
  match v with
  | GArray _ items => S (list_max (map gdepth items))
  | GObject _ fields => S (list_max (map (λ '(_, x), gdepth x) fields))
  | _ => 0
  end.

Definition ContentModerationProtocolAnthropicMessages : string := "anthropic_messages".
Definition ContentModerationProtocolOpenAIResponses : string := "openai_responses".
Definition ContentModerationProtocolOpenAIChat : string := "openai_chat_completions".
Definition ContentModerationProtocolGemini : string := "gemini".
Definition ContentModerationProtocolOpenAIImages : string := "openai_images".

Definition maxModerationInputRunes : Z := 12000.
Definition maxContentModerationInputImages : Z := 1.

Record ContentModerationInput := mk_input { in_Text : string; in_Images : list string }.

(** The two slices. *)
Abbreviation slices := (list string * list string)%type.

(** ** Normalising *)

Definition normalizeContentModerationText (text : string) : string :=
  Join (Fields (TrimSpace text)) " ".

Fixpoint unique_images (seen : gset string) (images : list string) : list string :=
  match images with
  | [] => []
  | image :: rest =>
      let image := TrimSpace image in
      if str_empty image then unique_images seen rest
      else if decide (image ∈ seen) then unique_images seen rest
      else image :: unique_images ({[image]} ∪ seen) rest
  end.
Definition normalizeModerationImages (images : list string) : list string := unique_images ∅ images.

Definition Normalize (inp : ContentModerationInput) : ContentModerationInput :=
  {| in_Text := trimRunes (normalizeContentModerationText (in_Text inp)) maxModerationInputRunes;
     in_Images := normalizeModerationImages (in_Images inp) |}.

Definition IsEmpty (inp : ContentModerationInput) : bool :=
  str_empty (TrimSpace (in_Text inp)) && is_nil (in_Images inp).

(** ** Collecting *)

Definition reminder : string := "<system-reminder>".

Definition addModerationText (text : string) (st : slices) : slices :=
  let text := TrimSpace text in
  if str_empty text then st
  else if Contains text reminder then st
  else (st.1 ++ [text], st.2).

Definition addModerationImage (image : string) (st : slices) : slices :=
  let image := TrimSpace image in
  if str_empty image then st
  else if HasPrefix image "data:" || HasPrefix image "http://" || HasPrefix image "https://"
       then (st.1, st.2 ++ [image]) else st.

Definition data_url (mimeType data : string) : string :=
  ("data:" ++ mimeType ++ ";base64," ++ data)%string.

Definition addModerationImageData (mimeType data : string) (st : slices) : slices :=
  let mimeType := TrimSpace mimeType in
  let data := TrimSpace data in
  if str_empty mimeType || str_empty data then st
  else addModerationImage (data_url mimeType data) st.

Definition inline_image (v : gval) (mimeKey : string) (st : slices) : slices :=
  match v with
  | GObject _ _ =>
      let mimeType := TrimSpace (gstring (gget v mimeKey)) in
      let data := TrimSpace (gstring (gget v "data")) in
      if negb (str_empty mimeType) && negb (str_empty data)
      then addModerationImage (data_url mimeType data) st else st
  | _ => st
  end.

Definition addGeminiModerationImage (part : gval) (st : slices) : slices :=
  let st := inline_image (gget part "inline_data") "mime_type" st in
  let st := inline_image (gget part "inlineData") "mimeType" st in
  let st := addModerationImage (gstring (gget2 part "file_data" "file_uri")) st in
  addModerationImage (gstring (gget2 part "fileData" "fileUri")) st.

Definition limit_images (images : list string) (pick : option nat) : list string :=
  if Z.of_nat (List.length images) <=? maxContentModerationInputImages then images
  else match pick with
       | None => take (Z.to_nat maxContentModerationInputImages) images
       | Some i => match images !! i with Some image => [image] | None => [] end
       end.

Section Collect.
Context {UC : UnicodeCase}.

Definition isAnthropicSystemReminderText (text : string) : bool :=
  HasPrefix (TrimSpace text) reminder.

Definition text_type (typ : string) : bool :=
  existsb (String.eqb typ) [""; "text"; "input_text"; "message"]%string.
Definition image_type (typ : string) : bool :=
  existsb (String.eqb typ) ["image_url"; "input_image"; "image"]%string.
Definition type_of (v : gval) : string := ToLower (TrimSpace (gstring (gget v "type"))).

(** The images of an object. *)
Definition object_images (v : gval) (st : slices) : slices :=
  let s k := gstring (gget v k) in
  let s2 k k2 := gstring (gget2 v k k2) in
  let st := addModerationImage (s2 "image_url" "url") st in
  let st := addModerationImage (s "image_url") st in
  let st := addModerationImage (s "url") st in
  let st := addModerationImageData (s2 "source" "media_type") (s2 "source" "data") st in
  let st := addModerationImageData (s2 "source" "mediaType") (s2 "source" "data") st in
  let st := addModerationImageData (s "media_type") (s "data") st in
  let st := addModerationImageData (s "mime_type") (s "data") st in
  let st := addModerationImageData (s "mimeType") (s "data") st in
  let st := addModerationImage (s2 "source" "data") st in
  let st := addModerationImage (s "data") st in
  addModerationImage (s "base64") st.

(** [fuel] above the depth of the value is enough. *)
Fixpoint collectContentValue (fuel : nat) (value : gval) (st : slices) : slices :=
  match fuel with
  | O => st
  | S fuel =>
      match value with
      | GNone => st
      | GString s => addModerationText s st
      | GArray _ items => fold_left (λ st item, collectContentValue fuel item st) items st
      | GObject _ _ =>
          let st := object_images value st in
          if text_type (type_of value) then
            let text := gget value "text" in
            let st := if gexists text then addModerationText (gstring text) st else st in
            let content := gget value "content" in
            if gexists content then collectContentValue fuel content st else st
          else st
      | GOther _ => st
      end
  end.
Definition collect (value : gval) (st : slices) : slices :=
  collectContentValue (S (gdepth value)) value st.

Fixpoint collectAnthropicUserContentValue (fuel : nat) (value : gval) (st : slices) : slices :=
  match fuel with
  | O => st
  | S fuel =>
      match value with
      | GNone => st
      | GString s => if negb (isAnthropicSystemReminderText s) then addModerationText s st else st
      | GArray _ items =>
          fold_left (λ st item, collectAnthropicUserContentValue fuel item st) items st
      | GObject _ _ =>
          let typ := type_of value in
          if text_type typ then
            let text := gget value "text" in
            let st := if gexists text && negb (isAnthropicSystemReminderText (gstring text))
                      then addModerationText (gstring text) st else st in
            let content := gget value "content" in
            if gexists content then collectAnthropicUserContentValue fuel content st else st
          else if image_type typ then collect value st
          else st
      | GOther _ => st
      end
  end.
Definition collect_anthropic (value : gval) (st : slices) : slices :=
  collectAnthropicUserContentValue (S (gdepth value)) value st.

(** What is collected counts when it has a text or an image. *)
Definition add_candidate (c : slices) (st : slices) : slices :=
  if str_empty (normalizeContentModerationText (Join c.1 "
")) && is_nil c.2 then st else (st.1 ++ c.1, st.2 ++ c.2).

Definition role_of (v : gval) : string := ToLower (TrimSpace (gstring (gget v "role"))).

Definition collectLastRoleMessage (messages : gval) (role : string) (st : slices) : slices :=
  match is_array messages ≫= last with
  | None => st
  | Some l => if negb (String.eqb (role_of l) role) then st
              else add_candidate (collect (gget l "content") ([], [])) st
  end.

Definition collectLastAnthropicUserMessage (messages : gval) (st : slices) : slices :=
  match is_array messages ≫= last with
  | None => st
  | Some l => if negb (String.eqb (role_of l) "user") then st
              else add_candidate (collect_anthropic (gget l "content") ([], [])) st
  end.

(** [content], and the item itself when it is a text. *)
Definition collect_item (item : gval) (st : slices) : slices :=
  let st := collect (gget item "content") st in
  if String.eqb (gstring (gget item "type")) "input_text" || gexists (gget item "text")
  then collect item st else st.

Definition responseItemHasModerationText (item : gval) : bool :=
  let '(parts, images) := collect_item item ([], []) in
  negb (str_empty (normalizeContentModerationText (Join parts "
"))) || negb (is_nil images).

Definition isResponsesUserTextItem (item : gval) : bool :=
  let role := role_of item in
  if String.eqb role "user" then responseItemHasModerationText item
  else if negb (str_empty role) then false
  else responseItemHasModerationText item.

Definition collectLastResponsesInput (input : gval) (st : slices) : slices :=
  match input with
  | GNone | GOther _ => st
  | GString s => addModerationText s st
  | GArray _ items =>
      match last items with
      | None => st
      | Some l => if negb (isResponsesUserTextItem l) then st else collect_item l st
      end
  | GObject _ _ => if isResponsesUserTextItem input then collect_item input st else st
  end.

Definition collectLastGeminiContent (contents : gval) (st : slices) : slices :=
  match is_array contents ≫= last with
  | None => st
  | Some l =>
      let role := role_of l in
      if negb (str_empty role) && negb (String.eqb role "user") then st
      else
        let c := match is_array (gget l "parts") with
                 | Some parts =>
                     fold_left (λ c part, addGeminiModerationImage part
                                            (addModerationText (gstring (gget part "text")) c))
                       parts ([], [])
                 | None => ([], [])
                 end in
        add_candidate c st
  end.

(** [body] is [None] when it is empty or not valid JSON. *)
Definition ExtractContentModerationInput (protocol : string) (body : option gval) :
    ContentModerationInput :=
  match body with
  | None => {| in_Text := ""; in_Images := [] |}
  | Some body =>
      let st0 := ([], []) in
      let '(parts, images) :=
        if String.eqb protocol ContentModerationProtocolAnthropicMessages then
          collectLastAnthropicUserMessage (gget body "messages") st0
        else if String.eqb protocol ContentModerationProtocolOpenAIChat then
          collectLastRoleMessage (gget body "messages") "user" st0
        else if String.eqb protocol ContentModerationProtocolOpenAIResponses then
          collectLastResponsesInput (gget body "input") st0
        else if String.eqb protocol ContentModerationProtocolGemini then
          collectLastGeminiContent (gget body "contents") st0
        else if String.eqb protocol ContentModerationProtocolOpenAIImages then
          collect (gget body "images") (addModerationText (gstring (gget body "prompt")) st0)
        else
          let st := collectLastResponsesInput (gget body "input") st0 in
          let st := collectLastRoleMessage (gget body "messages") "user" st in
          collectLastGeminiContent (gget body "contents") st in
      Normalize {| in_Text := normalizeContentModerationText (Join parts "
"); in_Images := normalizeModerationImages images |}
  end.

End Collect.

(** ** Runs *)

Definition text_message (role : string) (texts : list string) : gval :=
  GObject "" [("role"%string, GString role);
              ("content"%string, GArray "" (map (λ t,
                 GObject "" [("type"%string, GString "text"); ("text"%string, GString t)]) texts))].
Definition messages_body (ms : list gval) : gval := GObject "" [("messages"%string, GArray "" ms)].

Definition extracted (protocol : string) (ms : list gval) : string :=
  in_Text (ExtractContentModerationInput (UC := ascii_only_case) protocol (Some (messages_body ms))).

Example extract_user_texts :
  extracted "anthropic_messages"
    [text_message "user" ["earlier"]; text_message "User " ["<system-reminder>x"; "  a   b "; "c"]]
  = "a b c"%string.
Proof. vm_compute. reflexivity. Qed.

Example extract_tool_loop :
  extracted "openai_chat_completions" [text_message "user" ["q"]; text_message "tool" ["r"]] = ""%string.
Proof. vm_compute. reflexivity. Qed.
