(* ===== verification/ModerationConfig.v ===== *)
(** * Content moderation: configuration

    The settings of content moderation and the functions of them
    ([service/content_moderation.go]): defaults, normalising, which platforms
    and models are reviewed, which requests are sampled, the keys of the
    moderation service, the thresholds and what scores are over them.

    Integers are [Z]; a nil slice and an empty one are the same list.  SHA-256
    in hexadecimal, the JSON encoding of the settings, [url.ParseRequestURI],
    [Error] and the redaction of secrets are parameters ([ModerationHost]). *)

From S2P Require Import Prelude GoErrors Float64 GoTime GoStrings GoText ModerationInput KeywordMatcher.
From Stdlib Require Import Ascii String.

(** ** Constants *)

Definition ContentModerationModeOff : string := "off".
Definition ContentModerationModeObserve : string := "observe".
Definition ContentModerationModePreBlock : string := "pre_block".
Definition contentModerationAPIKeysModeAppend : string := "append".
Definition contentModerationAPIKeysModeReplace : string := "replace".
Definition ContentModerationKeywordModeKeywordOnly : string := "keyword_only".
Definition ContentModerationKeywordModeKeywordAndAPI : string := "keyword_and_api".
Definition ContentModerationKeywordModeAPIOnly : string := "api_only".
Definition ContentModerationModelFilterAll : string := "all".
Definition ContentModerationModelFilterInclude : string := "include".
Definition ContentModerationModelFilterExclude : string := "exclude".

Definition defaultContentModerationBaseURL : string := "https://api.openai.com".
Definition defaultContentModerationModel : string := "omni-moderation-latest".
Definition defaultContentModerationTimeoutMS : Z := 3000.
Definition maxContentModerationTimeoutMS : Z := 30000.
Definition maxModerationExcerptRunes : Z := 240.
Definition defaultContentModerationWorkerCount : Z := 4.
Definition maxContentModerationWorkerCount : Z := 32.
Definition defaultContentModerationQueueSize : Z := 32768.
Definition maxContentModerationQueueSize : Z := 100000.
Definition defaultContentModerationBanThreshold : Z := 10.
Definition defaultContentModerationViolationWindowHours : Z := 720.
Definition defaultContentModerationBlockHTTPStatus : Z := 403.
Definition defaultContentModerationBlockMessage : string := "内容审计命中风险规则，请调整输入后重试".
Definition defaultContentModerationRetryCount : Z := 2.
Definition maxContentModerationRetryCount : Z := 5.
Definition defaultContentModerationHitRetentionDays : Z := 180.
Definition defaultContentModerationNonHitRetentionDays : Z := 3.
Definition maxContentModerationRetentionDays : Z := 3650.
Definition maxContentModerationNonHitRetentionDays : Z := 3.
Definition contentModerationKeyRateLimitFreezeDuration : Z := minute.
Definition contentModerationKeyAuthFreezeDuration : Z := 10 * minute.
Definition contentModerationKeyHTTPErrorFreezeDuration : Z := 10 * second.
Definition maxContentModerationBlockedKeywords : Z := 10000.
Definition maxContentModerationBlockedKeywordRunes : Z := 200.
Definition maxContentModerationModelFilterModels : Z := 1000.
Definition maxContentModerationModelFilterRunes : Z := 200.

Definition contentModerationCategoryOrder : list string :=
  ["harassment"; "harassment/threatening"; "hate"; "hate/threatening"; "illicit";
   "illicit/violent"; "self-harm"; "self-harm/intent"; "self-harm/instructions"; "sexual";
   "sexual/minors"; "violence"; "violence/graphic"]%string.

Definition ContentModerationDefaultThresholds : gmap string float64 :=
  list_to_map (zip contentModerationCategoryOrder
    (map (λ m, f64_lit m (-2)) [98; 90; 65; 65; 95; 95; 65; 85; 65; 65; 65; 95; 95])).

(** ** Data *)

Record ContentModerationModelFilter := mk_filter { mf_Type : string; mf_Models : list string }.

Record ContentModerationConfig := mk_config {
  cm_Enabled : bool;
  cm_Mode : string;
  cm_BaseURL : string;
  cm_Model : string;
  cm_ProxyID : option Z;
  cm_APIKey : string;
  cm_APIKeys : list string;
  cm_TimeoutMS : Z;
  cm_SampleRate : Z;
  cm_AllPlatforms : bool;
  cm_PlatformIDs : list Z;
  cm_RecordNonHits : bool;
  cm_Thresholds : gmap string float64;
  cm_WorkerCount : Z;
  cm_QueueSize : Z;
  cm_BlockStatus : Z;
  cm_BlockMessage : string;
  cm_EmailOnHit : bool;
  cm_AutoBanEnabled : bool;
  cm_BanThreshold : Z;
  cm_ViolationWindowHours : Z;
  cm_RetryCount : Z;
  cm_HitRetentionDays : Z;
  cm_NonHitRetentionDays : Z;
  cm_PreHashCheckEnabled : bool;
  cm_BlockedKeywords : list string;
  cm_KeywordBlockingMode : string;
  cm_ModelFilter : ContentModerationModelFilter;
  cm_CyberPolicyExcludeFromBanCount : bool
}.

Definition defaultContentModerationConfig : ContentModerationConfig := {|
  cm_Enabled := false;
  cm_Mode := ContentModerationModePreBlock;
  cm_BaseURL := defaultContentModerationBaseURL;
  cm_Model := defaultContentModerationModel;
  cm_ProxyID := None;
  cm_APIKey := "";
  cm_APIKeys := [];
  cm_TimeoutMS := defaultContentModerationTimeoutMS;
  cm_SampleRate := 100;
  cm_AllPlatforms := true;
  cm_PlatformIDs := [];
  cm_RecordNonHits := false;
  cm_Thresholds := ContentModerationDefaultThresholds;
  cm_WorkerCount := defaultContentModerationWorkerCount;
  cm_QueueSize := defaultContentModerationQueueSize;
  cm_BlockStatus := defaultContentModerationBlockHTTPStatus;
  cm_BlockMessage := defaultContentModerationBlockMessage;
  cm_EmailOnHit := true;
  cm_AutoBanEnabled := true;
  cm_BanThreshold := defaultContentModerationBanThreshold;
  cm_ViolationWindowHours := defaultContentModerationViolationWindowHours;
  cm_RetryCount := defaultContentModerationRetryCount;
  cm_HitRetentionDays := defaultContentModerationHitRetentionDays;
  cm_NonHitRetentionDays := defaultContentModerationNonHitRetentionDays;
  cm_PreHashCheckEnabled := false;
  cm_BlockedKeywords := [];
  cm_KeywordBlockingMode := ContentModerationKeywordModeKeywordAndAPI;
  cm_ModelFilter := {| mf_Type := ContentModerationModelFilterAll; mf_Models := [] |};
  cm_CyberPolicyExcludeFromBanCount := false |}.

Class ModerationHost := {
  sha256_hex : string -> string;
  decode_config : ContentModerationConfig -> string -> option ContentModerationConfig;
  encode_config : ContentModerationConfig -> result string;
  valid_request_uri : string -> bool;
  redactContentModerationSecrets : string -> string;
  error_text : error -> string
}.

(** ** Scores and thresholds *)

Definition score_of (scores : gmap string float64) (category : string) : float64 :=
  default f0 (scores !! category).

(** One category: the highest score so far, and whether one is over its
    threshold. *)
Definition raise_highest (category : string) (score : float64) (h : string * float64) :
    string * float64 :=
  if fgtb score h.2 || str_empty h.1 then (category, score) else h.

(** [entries] are the scores in the order the map is iterated in. *)
Definition evaluateModerationScores (scores : gmap string float64)
    (entries : list (string * float64)) (thresholds : gmap string float64) :
    bool * string * float64 :=
  let flagged := existsb (λ category, fgeb (score_of scores category) (score_of thresholds category))
                   contentModerationCategoryOrder in
  let h := fold_left (λ h category, raise_highest category (score_of scores category) h)
             contentModerationCategoryOrder (""%string, f0) in
  let h := fold_left (λ h e, raise_highest e.1 e.2 h) entries h in
  (flagged, h.1, h.2).

Definition clamp_threshold (v : float64) : float64 :=
  let v := if fltb v f0 then f0 else v in
  if fgtb v f1 then f1 else v.
Definition mergeContentModerationThresholds (base override : gmap string float64) :
    gmap string float64 :=
  fold_left (λ out category, match override !! category with
                             | Some v => <[category := clamp_threshold v]> out
                             | None => out end)
    contentModerationCategoryOrder base.

(** ** Normalising *)

Definition normalizeInt64IDs (ids : list Z) : list Z := positive_ids ids.

Fixpoint unique_keys (seen : gset string) (keys : list string) : list string :=
  match keys with
  | [] => []
  | key :: rest =>
      let key := TrimSpace key in
      if str_empty key then unique_keys seen rest
      else if decide (key ∈ seen) then unique_keys seen rest
      else key :: unique_keys ({[key]} ∪ seen) rest
  end.
Definition normalizeModerationAPIKeys (keys : list string) : list string := unique_keys ∅ keys.

(** [strings.TrimRight(s, "/")] *)
Fixpoint drop_slashes (l : bytes) : bytes :=
  match l with c :: rest => if Ascii.eqb c "/" then drop_slashes rest else l | [] => [] end.
Definition trim_slashes (s : string) : string := of_bytes (rev (drop_slashes (rev (to_bytes s)))).

Definition at_most (limit v : Z) : Z := if limit <? v then limit else v.
Definition positive_or (d v : Z) : Z := if v <=? 0 then d else v.

Definition normalizeKeywordBlockingMode (mode : string) : string :=
  let mode := TrimSpace mode in
  if existsb (String.eqb mode)
       [ContentModerationKeywordModeKeywordOnly; ContentModerationKeywordModeAPIOnly;
        ContentModerationKeywordModeKeywordAndAPI]
  then mode else ContentModerationKeywordModeKeywordAndAPI.

(** [strings.Repeat("*", 8)] before the last four bytes. *)
Definition maskSecretTail (secret : string) : string :=
  let secret := TrimSpace secret in
  if str_empty secret then ""
  else if str_len secret <=? 4 then "****"
  else ("********" ++ of_bytes (drop (Z.to_nat (str_len secret - 4)) (to_bytes secret)))%string.

Section Config.
Context {UC : UnicodeCase} {MH : ModerationHost}.

Fixpoint blocked_keywords_loop (seen : gset string) (count : Z) (keywords : list string) :
    list string :=
  match keywords with
  | [] => []
  | raw :: rest =>
      let kw := TrimSpace raw in
      if str_empty kw then blocked_keywords_loop seen count rest
      else
        let kw := trimRunes kw maxContentModerationBlockedKeywordRunes in
        let key := ToLower kw in
        if decide (key ∈ seen) then blocked_keywords_loop seen count rest
        else kw :: (if maxContentModerationBlockedKeywords <=? count + 1 then []
                    else blocked_keywords_loop ({[key]} ∪ seen) (count + 1) rest)
  end.
Definition normalizeBlockedKeywords (keywords : list string) : list string :=
  blocked_keywords_loop ∅ 0 keywords.

Fixpoint model_names_loop (seen : gset string) (count : Z) (models : list string) : list string :=
  match models with
  | [] => []
  | raw :: rest =>
      let model := trimRunes (TrimSpace raw) maxContentModerationModelFilterRunes in
      if str_empty model then model_names_loop seen count rest
      else
        let key := ToLower model in
        if decide (key ∈ seen) then model_names_loop seen count rest
        else model :: (if maxContentModerationModelFilterModels <=? count + 1 then []
                       else model_names_loop ({[key]} ∪ seen) (count + 1) rest)
  end.
Definition normalizeContentModerationModelNames (models : list string) : list string :=
  model_names_loop ∅ 0 models.

Definition normalizeContentModerationModelFilterType (filterType : string) : string :=
  let t := ToLower (TrimSpace filterType) in
  if existsb (String.eqb t) [ContentModerationModelFilterInclude; ContentModerationModelFilterExclude]
  then t else ContentModerationModelFilterAll.
Definition normalizeContentModerationModelFilter (filter : ContentModerationModelFilter) :
    ContentModerationModelFilter :=
  let typ := normalizeContentModerationModelFilterType (mf_Type filter) in
  {| mf_Type := typ;
     mf_Models := if String.eqb typ ContentModerationModelFilterAll then []
                  else normalizeContentModerationModelNames (mf_Models filter) |}.

Definition normalize (cfg : ContentModerationConfig) : ContentModerationConfig :=
  let block := if str_empty (TrimSpace (cm_BlockMessage cfg))
               then defaultContentModerationBlockMessage else cm_BlockMessage cfg in
  {| cm_Enabled := cm_Enabled cfg;
     cm_Mode := if str_empty (cm_Mode cfg) then ContentModerationModePreBlock else cm_Mode cfg;
     cm_BaseURL := trim_slashes (TrimSpace
       (if str_empty (cm_BaseURL cfg) then defaultContentModerationBaseURL else cm_BaseURL cfg));
     cm_Model := TrimSpace
       (if str_empty (cm_Model cfg) then defaultContentModerationModel else cm_Model cfg);
     cm_ProxyID := match cm_ProxyID cfg with
                   | Some id => if id <=? 0 then None else Some id | None => None end;
     cm_APIKey := "";
     cm_APIKeys := if str_empty (cm_APIKey cfg) then normalizeModerationAPIKeys (cm_APIKeys cfg)
                   else normalizeModerationAPIKeys (cm_APIKeys cfg ++ [cm_APIKey cfg]);
     cm_TimeoutMS := at_most maxContentModerationTimeoutMS
                       (positive_or defaultContentModerationTimeoutMS (cm_TimeoutMS cfg));
     cm_SampleRate := at_most 100 (if cm_SampleRate cfg <? 0 then 0 else cm_SampleRate cfg);
     cm_AllPlatforms := cm_AllPlatforms cfg;
     cm_PlatformIDs := normalizeInt64IDs (cm_PlatformIDs cfg);
     cm_RecordNonHits := cm_RecordNonHits cfg;
     cm_Thresholds := mergeContentModerationThresholds ContentModerationDefaultThresholds (cm_Thresholds cfg);
     cm_WorkerCount := at_most maxContentModerationWorkerCount
                         (positive_or defaultContentModerationWorkerCount (cm_WorkerCount cfg));
     cm_QueueSize := at_most maxContentModerationQueueSize
                       (positive_or defaultContentModerationQueueSize (cm_QueueSize cfg));
     cm_BlockStatus := positive_or defaultContentModerationBlockHTTPStatus (cm_BlockStatus cfg);
     cm_BlockMessage := TrimSpace block;
     cm_EmailOnHit := cm_EmailOnHit cfg;
     cm_AutoBanEnabled := cm_AutoBanEnabled cfg;
     cm_BanThreshold := positive_or defaultContentModerationBanThreshold (cm_BanThreshold cfg);
     cm_ViolationWindowHours :=
       positive_or defaultContentModerationViolationWindowHours (cm_ViolationWindowHours cfg);
     cm_RetryCount := at_most maxContentModerationRetryCount
                        (if cm_RetryCount cfg <? 0 then 0 else cm_RetryCount cfg);
     cm_HitRetentionDays := at_most maxContentModerationRetentionDays
       (positive_or defaultContentModerationHitRetentionDays (cm_HitRetentionDays cfg));
     cm_NonHitRetentionDays := at_most maxContentModerationNonHitRetentionDays
       (positive_or defaultContentModerationNonHitRetentionDays (cm_NonHitRetentionDays cfg));
     cm_PreHashCheckEnabled := cm_PreHashCheckEnabled cfg;
     cm_BlockedKeywords := normalizeBlockedKeywords (cm_BlockedKeywords cfg);
     cm_KeywordBlockingMode := normalizeKeywordBlockingMode (cm_KeywordBlockingMode cfg);
     cm_ModelFilter := normalizeContentModerationModelFilter (cm_ModelFilter cfg);
     cm_CyberPolicyExcludeFromBanCount := cm_CyberPolicyExcludeFromBanCount cfg |}.

Definition parseContentModerationConfig (raw : string) : result ContentModerationConfig :=
  if str_empty (TrimSpace raw) then Ok (normalize defaultContentModerationConfig)
  else match decode_config defaultContentModerationConfig raw with
       | None => Err (BadRequest "INVALID_CONTENT_MODERATION_CONFIG" "内容审计配置不是有效 JSON")
       | Some cfg => Ok (normalize cfg)
       end.

(** ** Scope *)

Definition includesPlatform (cfg : ContentModerationConfig) (platformID : option Z) : bool :=
  if cm_AllPlatforms cfg then true
  else match platformID with
       | None => false
       | Some id => existsb (Z.eqb id) (cm_PlatformIDs cfg)
       end.

Definition contentModerationModelListContains (models : list string) (model : string) : bool :=
  let model := ToLower (TrimSpace model) in
  if str_empty model then false
  else existsb (λ c, String.eqb (ToLower (TrimSpace c)) model) models.

Definition includesModel (cfg : ContentModerationConfig) (model : string) : bool :=
  let filter := normalizeContentModerationModelFilter (cm_ModelFilter cfg) in
  if String.eqb (mf_Type filter) ContentModerationModelFilterInclude then
    contentModerationModelListContains (mf_Models filter) model
  else if String.eqb (mf_Type filter) ContentModerationModelFilterExclude then
    negb (contentModerationModelListContains (mf_Models filter) model)
  else true.

Definition shouldSample (cfg : ContentModerationConfig) (hashText : string) : bool :=
  if 100 <=? cm_SampleRate cfg then true
  else if cm_SampleRate cfg <=? 0 then false
  else match hex_decode (to_bytes hashText) with
       | Some (a :: b :: _) => (256 * a + b) mod 100 <? cm_SampleRate cfg
       | _ => true
       end.

(** ** Keys *)

Definition apiKeys (cfg : ContentModerationConfig) : list string :=
  normalizeModerationAPIKeys (cm_APIKeys cfg).

Definition moderationAPIKeyHash (key : string) : string :=
  let key := TrimSpace key in
  if str_empty key then "" else sha256_hex key.

Definition contentModerationFreezeDurationForHTTPStatus (httpStatus : Z) : Z :=
  if (httpStatus =? 0) || (httpStatus =? 400) then 0
  else if (httpStatus =? 401) || (httpStatus =? 403) then contentModerationKeyAuthFreezeDuration
  else if (httpStatus =? 429) || (httpStatus =? 529) then contentModerationKeyRateLimitFreezeDuration
  else contentModerationKeyHTTPErrorFreezeDuration.

Definition normalizeContentModerationHash (inputHash : string) : string :=
  let h := ToLower (TrimSpace inputHash) in
  if negb (str_len h =? 64) then ""
  else match hex_decode (to_bytes h) with Some _ => h | None => "" end.

Definition normalizeContentModerationAPIKeysMode (mode : string) : string :=
  if String.eqb (ToLower (TrimSpace mode)) contentModerationAPIKeysModeReplace
  then contentModerationAPIKeysModeReplace else contentModerationAPIKeysModeAppend.

Definition deleteModerationAPIKeysByHash (keys hashes : list string) : list string :=
  let keys := normalizeModerationAPIKeys keys in
  let delete := filterb (λ h, negb (str_empty h)) (map normalizeContentModerationHash hashes) in
  if is_nil delete then keys
  else filterb (λ k, negb (existsb (String.eqb (moderationAPIKeyHash k)) delete)) keys.

(** ** Input *)

Definition Hash (inp : ContentModerationInput) : string :=
  sha256_hex (fold_left (λ acc image, acc ++ "
image:" ++ sha256_hex image)%string (in_Images inp) ("text:" ++ in_Text inp)%string).

End Config.
