(* ===== verification/Moderation.v ===== *)
(** * Content moderation

    [service/content_moderation.go]: the check of a request before it is
    forwarded, the queue and the workers behind it, the calls to the moderation
    service over several keys, what a violation does to the account, and the
    snapshot of the settings all of them read.

    The functions are programs of calls ([msvc]): the clock, the settings, the
    process's own shared state (the snapshot, the counters, the cursor over the
    keys and their health, the queue), the hashes of known violations, the log
    and the users.  A function under [keyHealthMu] is one call, since it holds
    the mutex throughout.  A panic is a call without an answer.  Lines written
    to [slog] are left out. *)

From stdpp Require Import pretty.
From S2P Require Import Prelude GoErrors Prog Float64 GoTime GoStrings GoText KeywordMatcher ModerationInput ModerationConfig.
From Stdlib Require Import Ascii String.

Open Scope prog_scope.

(** ** Data *)

Definition ContentModerationActionAllow : string := "allow".
Definition ContentModerationActionBlock : string := "block".
Definition ContentModerationActionHashBlock : string := "hash_block".
Definition ContentModerationActionKeywordBlock : string := "keyword_block".
Definition ContentModerationActionError : string := "error".
Definition ContentModerationActionCyberPolicy : string := "cyber_policy".
Definition contentModerationKeywordCategory : string := "keyword".

Record ContentModerationCheckInput := {
  ci_RequestID : string;
  ci_UserID : Z;
  ci_UserEmail : string;
  ci_APIKeyID : Z;
  ci_APIKeyName : string;
  ci_PlatformID : option Z;
  ci_PlatformName : string;
  ci_Endpoint : string;
  ci_Provider : string;
  ci_Model : string;
  ci_Protocol : string;
  ci_Body : option gval
}.

Record ContentModerationDecision := mk_decision {
  dc_Allowed : bool;
  dc_Blocked : bool;
  dc_Flagged : bool;
  dc_Message : string;
  dc_StatusCode : Z;
  dc_InputHash : string;
  dc_HighestCategory : string;
  dc_HighestScore : float64;
  dc_CategoryScores : gmap string float64;
  dc_Action : string
}.

Record ContentModerationLog := mk_log {
  cl_RequestID : string;
  cl_UserID : option Z;
  cl_UserEmail : string;
  cl_APIKeyID : option Z;
  cl_APIKeyName : string;
  cl_PlatformID : option Z;
  cl_PlatformName : string;
  cl_Endpoint : string;
  cl_Provider : string;
  cl_Model : string;
  cl_Mode : string;
  cl_Action : string;
  cl_Flagged : bool;
  cl_HighestCategory : string;
  cl_HighestScore : float64;
  cl_MatchedKeyword : string;
  cl_CategoryScores : gmap string float64;
  cl_ThresholdSnapshot : gmap string float64;
  cl_InputExcerpt : string;
  cl_UpstreamLatencyMS : option Z;
  cl_Error : string;
  cl_ViolationCount : Z;
  cl_AutoBanned : bool;
  cl_EmailSent : bool;
  cl_QueueDelayMS : option Z
}.

Definition set_keyword (keyword : string) (l : ContentModerationLog) : ContentModerationLog :=
  mk_log (cl_RequestID l) (cl_UserID l) (cl_UserEmail l) (cl_APIKeyID l) (cl_APIKeyName l)
    (cl_PlatformID l) (cl_PlatformName l) (cl_Endpoint l) (cl_Provider l) (cl_Model l) (cl_Mode l)
    (cl_Action l) (cl_Flagged l) (cl_HighestCategory l) (cl_HighestScore l) keyword
    (cl_CategoryScores l) (cl_ThresholdSnapshot l) (cl_InputExcerpt l) (cl_UpstreamLatencyMS l)
    (cl_Error l) (cl_ViolationCount l) (cl_AutoBanned l) (cl_EmailSent l) (cl_QueueDelayMS l).
Definition set_outcome (count : Z) (banned sent : bool) (delay : option Z) (l : ContentModerationLog) :
    ContentModerationLog :=
  mk_log (cl_RequestID l) (cl_UserID l) (cl_UserEmail l) (cl_APIKeyID l) (cl_APIKeyName l)
    (cl_PlatformID l) (cl_PlatformName l) (cl_Endpoint l) (cl_Provider l) (cl_Model l) (cl_Mode l)
    (cl_Action l) (cl_Flagged l) (cl_HighestCategory l) (cl_HighestScore l) (cl_MatchedKeyword l)
    (cl_CategoryScores l) (cl_ThresholdSnapshot l) (cl_InputExcerpt l) (cl_UpstreamLatencyMS l)
    (cl_Error l) count banned sent delay.
Definition set_count (n : Z) (l : ContentModerationLog) :=
  set_outcome n (cl_AutoBanned l) (cl_EmailSent l) (cl_QueueDelayMS l) l.
Definition set_banned (l : ContentModerationLog) :=
  set_outcome (cl_ViolationCount l) true (cl_EmailSent l) (cl_QueueDelayMS l) l.
Definition set_sent (b : bool) (l : ContentModerationLog) :=
  set_outcome (cl_ViolationCount l) (cl_AutoBanned l) b (cl_QueueDelayMS l) l.
Definition set_delay (d : Z) (l : ContentModerationLog) :=
  set_outcome (cl_ViolationCount l) (cl_AutoBanned l) (cl_EmailSent l) (Some d) l.

Record contentModerationRuntimeSnapshot := {
  rs_riskControlEnabled : bool;
  rs_config : ContentModerationConfig;
  rs_keywordMatcher : option contentModerationKeywordMatcher;
  rs_configDigest : string;
  rs_loadedAt : time
}.

Record contentModerationTask := {
  tk_input : ContentModerationCheckInput;
  tk_content : ContentModerationInput;
  tk_inputHash : string;
  tk_log : option ContentModerationLog;
  tk_config : option ContentModerationConfig;
  tk_recordHash : bool;
  tk_applySideEffects : bool;
  tk_enqueuedAt : time
}.

(** What [ModerationInput] makes of the content. *)
Inductive moderation_payload :=
| PText (text : string)
| PParts (text : option string) (images : list string).

Inductive counter :=
| NPreBlockActive | NPreBlockChecked | NPreBlockAllowed | NPreBlockBlocked | NPreBlockErrors
| NPreBlockLatencyTotalMS | NAsyncActive | NAsyncEnqueued | NAsyncDropped | NAsyncProcessed
| NAsyncErrors.
#[global] Instance counter_eq_dec : EqDecision counter.
Proof. solve_decision. Defined.

Record ModUser := { mu_Role : string; mu_Status : string }.

(** ** The health of the keys *)

Record contentModerationKeyHealth := mk_health {
  kh_Masked : string;
  kh_FailureCount : Z;
  kh_SuccessCount : Z;
  kh_LastError : string;
  kh_LastCheckedAt : time;
  kh_FrozenUntil : time;
  kh_LastLatencyMS : Z;
  kh_LastHTTPStatus : Z;
  kh_LastTested : bool;
  kh_SyncActive : Z;
  kh_SyncTotal : Z;
  kh_SyncSuccess : Z;
  kh_SyncErrors : Z;
  kh_SyncLatencyMS : Z
}.
Abbreviation key_health := (gmap string contentModerationKeyHealth).

Definition new_health : contentModerationKeyHealth :=
  mk_health "" 0 0 "" time_zero time_zero 0 0 false 0 0 0 0 0.
Definition set_masked (masked : string) (k : contentModerationKeyHealth) : contentModerationKeyHealth :=
  mk_health masked (kh_FailureCount k) (kh_SuccessCount k) (kh_LastError k) (kh_LastCheckedAt k)
    (kh_FrozenUntil k) (kh_LastLatencyMS k) (kh_LastHTTPStatus k) (kh_LastTested k)
    (kh_SyncActive k) (kh_SyncTotal k) (kh_SyncSuccess k) (kh_SyncErrors k) (kh_SyncLatencyMS k).
Definition set_result (failures successes : Z) (err : string) (now frozen : time)
    (latency status : Z) (k : contentModerationKeyHealth) : contentModerationKeyHealth :=
  mk_health (kh_Masked k) failures successes err now frozen latency status true
    (kh_SyncActive k) (kh_SyncTotal k) (kh_SyncSuccess k) (kh_SyncErrors k) (kh_SyncLatencyMS k).
Definition set_sync (active total success errors latency : Z) (k : contentModerationKeyHealth) :
    contentModerationKeyHealth :=
  mk_health (kh_Masked k) (kh_FailureCount k) (kh_SuccessCount k) (kh_LastError k)
    (kh_LastCheckedAt k) (kh_FrozenUntil k) (kh_LastLatencyMS k) (kh_LastHTTPStatus k)
    (kh_LastTested k) active total success errors latency.

Definition ensureAPIKeyHealthLocked (h : key_health) (hash masked : string) : contentModerationKeyHealth :=
  let state := default new_health (h !! hash) in
  if str_empty (TrimSpace masked) then state else set_masked masked state.

Section Health.
Context {MH : ModerationHost}.

(** The function on the entry of a key, created when missing. *)
Definition on_key (key : string) (f : contentModerationKeyHealth -> contentModerationKeyHealth)
    (h : key_health) : key_health :=
  let hash := moderationAPIKeyHash key in
  if str_empty hash then h
  else <[hash := f (ensureAPIKeyHealthLocked h hash (maskSecretTail key))]> h.

Definition isAPIKeyFrozen (key : string) (now : time) (h : key_health) : bool :=
  let hash := moderationAPIKeyHash key in
  if str_empty hash then false
  else match h !! hash with Some state => after (kh_FrozenUntil state) now | None => false end.

Definition beginModerationAPIKeyCall (key : string) : key_health -> key_health :=
  on_key key (λ k, set_sync (kh_SyncActive k + 1) (kh_SyncTotal k) (kh_SyncSuccess k)
                     (kh_SyncErrors k) (kh_SyncLatencyMS k) k).
Definition finishModerationAPIKeyCall (key : string) (latencyMS : Z) (success : bool) :
    key_health -> key_health :=
  let latencyMS := if latencyMS <? 0 then 0 else latencyMS in
  on_key key (λ k, set_sync (if 0 <? kh_SyncActive k then kh_SyncActive k - 1 else kh_SyncActive k)
                     (kh_SyncTotal k + 1)
                     (if success then kh_SyncSuccess k + 1 else kh_SyncSuccess k)
                     (if success then kh_SyncErrors k else kh_SyncErrors k + 1)
                     (kh_SyncLatencyMS k + latencyMS) k).
Definition markAPIKeySuccess (key : string) (latencyMS httpStatus : Z) (now : time) :
    key_health -> key_health :=
  on_key key (λ k, set_result 0 (kh_SuccessCount k + 1) "" now time_zero latencyMS httpStatus k).
Definition markAPIKeyError (key errText : string) (latencyMS httpStatus : Z) (now : time) :
    key_health -> key_health :=
  let freezeDuration := contentModerationFreezeDurationForHTTPStatus httpStatus in
  on_key key (λ k, set_result
    (if 0 <? freezeDuration then kh_FailureCount k + 1 else kh_FailureCount k)
    (kh_SuccessCount k) (trimRunes errText 180) now
    (if 0 <? freezeDuration then time_add now freezeDuration else kh_FrozenUntil k)
    latencyMS httpStatus k).

End Health.

(** ** The calls *)

Inductive msvc : Type -> Type :=
| MPanic : msvc Empty_set
| MNow : msvc time
| MGetMultiple : msvc (result (string * string))
| MGetRiskControl : msvc (result string)
| MGetConfigValue : msvc (result (option string))
| MSetConfig (raw : string) : msvc (result unit)
| MSnapshotLoad : msvc (option contentModerationRuntimeSnapshot)
| MSnapshotStore (snapshot : contentModerationRuntimeSnapshot) : msvc unit
| MRefreshLock : msvc unit
| MRefreshTryLock : msvc bool
| MRefreshUnlock : msvc unit
| MRetryAt : msvc Z
| MSetRetryAt (v : Z) : msvc unit
| MSpawnRefresh : msvc unit
| MCount (c : counter) (delta : Z) : msvc unit
| MCursor : msvc Z
| MFrozen (key : string) (now : time) : msvc bool
| MBegin (key : string) : msvc unit
| MFinish (key : string) (latencyMS : Z) (success : bool) : msvc unit
| MMarkSuccess (key : string) (latencyMS httpStatus : Z) : msvc unit
| MMarkError (key errText : string) (latencyMS httpStatus : Z) : msvc unit
| MPickImage (n : Z) : msvc (option nat)
| MModerate (cfg : ContentModerationConfig) (key : string) (payload : moderation_payload) :
    msvc (result (gmap string float64) * Z)
| MSleep (d : Z) : msvc (option error)
| MScoreOrder (scores : gmap string float64) : msvc { l : list (string * float64) | l ≡ₚ map_to_list scores }
| MQueueLen : msvc Z
| MQueueSend (task : contentModerationTask) : msvc bool
| MQueueReceive : msvc (option contentModerationTask)
| MHasHash (hash : string) : msvc (result bool)
| MRecordHash (hash : string) : msvc (result unit)
| MDeleteHash (hash : string) : msvc (result bool)
| MClearHashes : msvc (result Z)
| MCreateLog (log : ContentModerationLog) : msvc (result Z)
| MUpdateLogEmailSent (id : Z) (sent : bool) : msvc (result unit)
| MCountFlagged (userID : Z) (since : time) (excludeCyberPolicy : bool) : msvc (result Z)
| MGetUser (userID : Z) : msvc (result ModUser)
| MUpdateUserStatus (userID : Z) (status : string) : msvc (result unit)
| MInvalidateAuth (userID : Z) : msvc unit
| MViolationEmail (log : ContentModerationLog) : msvc (result unit)
| MDisabledEmail (log : ContentModerationLog) : msvc (result unit)
| MCyberEmail (log : ContentModerationLog) : msvc (result unit)
| MProxyExists (id : Z) : msvc (result unit)
| MListPlatforms : msvc (result (list Z))
| MDropProxyCache : msvc unit.

#[global] Abbreviation mprog := (prog msvc).
#[global] Abbreviation mtrace := (trace msvc).

Definition panic {A} : mprog A := Do MPanic (λ e : Empty_set, match e with end).

(** The dependencies that may be missing. *)
Record ContentModerationService := {
  ms_settingRepo : bool;
  ms_repo : bool;
  ms_hashCache : bool;
  ms_userRepo : bool;
  ms_proxyRepo : bool;
  ms_platformRepo : bool;
  ms_authCacheInvalidator : bool;
  ms_emailService : bool;
  ms_runtimeCacheTTL : Z
}.

Definition contentModerationRuntimeCacheTTL : Z := second.
Definition StatusActive : string := "active".
Definition StatusDisabled : string := "disabled".
Definition IsAdmin (u : ModUser) : bool := String.eqb (mu_Role u) "admin".

Definition runtimeSnapshotTTL (s : ContentModerationService) : Z :=
  if 0 <? ms_runtimeCacheTTL s then ms_runtimeCacheTTL s else contentModerationRuntimeCacheTTL.

(** [int(d.Milliseconds())] *)
Definition milliseconds (d : Z) : Z := Z.quot d 1000000.

Definition count (c : counter) : mprog unit := call (MCount c 1).

Section Service.
Context {UC : UnicodeCase} {MH : ModerationHost} (s : ContentModerationService).

(** ** The snapshot of the settings *)

Definition runtimeRefreshDeferred : mprog bool :=
  let* now := call MNow in
  let* retryAt := call MRetryAt in
  Ret (t_ns now <? retryAt).

Definition refreshRuntimeSnapshot : mprog (result contentModerationRuntimeSnapshot) :=
  let* values := call MGetMultiple in
  match values with
  | Err e => Ret (Err (EWrap "get content moderation runtime settings" e))
  | Ok (riskControl, rawConfig) =>
      let digest := sha256_hex rawConfig in
      let* current := call MSnapshotLoad in
      let store snapshot :=
        let* _ := call (MSnapshotStore snapshot) in
        let* _ := call (MSetRetryAt 0) in
        Ret (Ok snapshot) in
      let parse :=
        match parseContentModerationConfig rawConfig with
        | Err e => Ret (Err e)
        | Ok cfg =>
            match newContentModerationKeywordMatcher (cm_BlockedKeywords cfg) with
            | None => panic
            | Some matcher =>
                let* now := call MNow in
                store {| rs_riskControlEnabled := String.eqb riskControl "true";
                         rs_config := cfg; rs_keywordMatcher := matcher;
                         rs_configDigest := digest; rs_loadedAt := now |}
            end
        end in
      match current with
      | Some c =>
          if String.eqb (rs_configDigest c) digest then
            let* now := call MNow in
            store {| rs_riskControlEnabled := String.eqb riskControl "true";
                     rs_config := rs_config c; rs_keywordMatcher := rs_keywordMatcher c;
                     rs_configDigest := digest; rs_loadedAt := now |}
          else parse
      | None => parse
      end
  end.

(** The goroutine, which holds the lock. *)
Definition background_refresh : mprog unit :=
  let* r := refreshRuntimeSnapshot in
  let* _ := match r with
            | Ok _ => Ret tt
            | Err _ => let* now := call MNow in
                       call (MSetRetryAt (t_ns (time_add now (runtimeSnapshotTTL s))))
            end in
  call MRefreshUnlock.

Definition triggerRuntimeSnapshotRefresh : mprog unit :=
  let* deferred := runtimeRefreshDeferred in
  if deferred then Ret tt else
  let* locked := call MRefreshTryLock in
  if negb locked then Ret tt else
  let* deferred := runtimeRefreshDeferred in
  if deferred then call MRefreshUnlock else call MSpawnRefresh.

Definition loadRuntimeSnapshot : mprog (result contentModerationRuntimeSnapshot) :=
  if negb (ms_settingRepo s)
  then Ret (Err (EPlain "content moderation setting repository unavailable")) else
  let* now := call MNow in
  let* snapshot := call MSnapshotLoad in
  match snapshot with
  | Some snapshot =>
      if time_sub now (rs_loadedAt snapshot) <? runtimeSnapshotTTL s then Ret (Ok snapshot)
      else let* _ := triggerRuntimeSnapshotRefresh in Ret (Ok snapshot)
  | None =>
      let* _ := call MRefreshLock in
      let* snapshot := call MSnapshotLoad in
      match snapshot with
      | Some snapshot => let* _ := call MRefreshUnlock in Ret (Ok snapshot)
      | None => let* r := refreshRuntimeSnapshot in
                let* _ := call MRefreshUnlock in Ret r
      end
  end.

Definition replaceRuntimeConfig (cfg : ContentModerationConfig) (raw : string) : mprog unit :=
  let* _ := call MRefreshLock in
  let* snapshot := call MSnapshotLoad in
  let* _ := call MRefreshUnlock in
  match snapshot with
  | None => Ret tt
  | Some _ =>
      match newContentModerationKeywordMatcher (cm_BlockedKeywords cfg) with
      | None => panic
      | Some matcher =>
          let* _ := call MRefreshLock in
          let* current := call MSnapshotLoad in
          let* _ := match current with
                    | None => Ret tt
                    | Some current =>
                        let* now := call MNow in
                        call (MSnapshotStore
                          {| rs_riskControlEnabled := rs_riskControlEnabled current;
                             rs_config := cfg; rs_keywordMatcher := matcher;
                             rs_configDigest := sha256_hex raw; rs_loadedAt := now |})
                    end in
          call MRefreshUnlock
      end
  end.

(** [Some None] is a miss; [None] a panic of the automaton. *)
Definition snapshot_matchBlockedKeyword (snapshot : contentModerationRuntimeSnapshot) (text : string) :
    option (option string) :=
  match rs_keywordMatcher snapshot with
  | Some m => Match (Some m) text
  | None => Some (matchBlockedKeyword text (cm_BlockedKeywords (rs_config snapshot)))
  end.

Definition loadConfig : mprog (result ContentModerationConfig) :=
  let* raw := call MGetConfigValue in
  Ret match raw with
      | Err e => Err (EWrap "get content moderation config" e)
      | Ok None => parseContentModerationConfig ""
      | Ok (Some raw) => parseContentModerationConfig raw
      end.

Definition isRiskControlEnabled : mprog bool :=
  let* raw := call MGetRiskControl in
  Ret match raw with Err _ => false | Ok raw => String.eqb raw "true" end.

(** ** Calls to the moderation service *)

Fixpoint usable_key_loop (todo : nat) (keys : list string) (now : time) : mprog (option string) :=
  match todo with
  | O => Ret None
  | S todo =>
      let* cursor := call MCursor in
      match at_ keys (Z.rem cursor (Z.of_nat (List.length keys))) with
      | None => panic
      | Some key =>
          let* frozen := call (MFrozen key now) in
          if (frozen : bool) then usable_key_loop todo keys now else Ret (Some key)
      end
  end.
Definition nextUsableAPIKey (cfg : ContentModerationConfig) : mprog (option string) :=
  let keys := apiKeys cfg in
  if is_nil keys then Ret None else
  let* now := call MNow in
  usable_key_loop (List.length keys) keys now.

Definition attempts_of (cfg : ContentModerationConfig) : Z :=
  let attempts := cm_RetryCount cfg + 1 in
  let attempts := if attempts <=? 0 then 1 else attempts in
  if maxContentModerationRetryCount + 1 <? attempts then maxContentModerationRetryCount + 1 else attempts.

Definition no_key_available : error := EPlain "no moderation api key available".

Fixpoint attempt_loop (todo : nat) (attempt attempts : Z) (cfg : ContentModerationConfig)
    (payload : moderation_payload) (trackLoad : bool) (lastErr : error) :
    mprog (result (gmap string float64)) :=
  match todo with
  | O => Ret (Err lastErr)
  | S todo =>
      let* key := nextUsableAPIKey cfg in
      match key with
      | None => Ret (Err no_key_available)
      | Some key =>
          let* _ := if trackLoad then call (MBegin key) else Ret tt in
          let* start := call MNow in
          let* answer := call (MModerate cfg key payload) in
          let* finish := call MNow in
          let latency := milliseconds (time_sub finish start) in
          let httpStatus := answer.2 in
          match answer.1 with
          | Ok scores =>
              let* _ := if trackLoad then call (MFinish key latency true) else Ret tt in
              let* _ := call (MMarkSuccess key latency httpStatus) in
              Ret (Ok scores)
          | Err e =>
              let* _ := if trackLoad then call (MFinish key latency false) else Ret tt in
              let* _ := call (MMarkError key (error_text e) latency httpStatus) in
              if httpStatus =? 400 then Ret (Err e)
              else if attempt =? attempts - 1 then Ret (Err e)
              else
                let* done := call (MSleep (100 * (attempt + 1) * 1000000)) in
                match done with
                | Some ctxErr => Ret (Err ctxErr)
                | None => attempt_loop todo (attempt + 1) attempts cfg payload trackLoad e
                end
          end
      end
  end.
(** [attempts] is positive, so the initial error is never returned. *)
Definition callModeration (cfg : ContentModerationConfig) (payload : moderation_payload)
    (trackLoad : bool) : mprog (result (gmap string float64)) :=
  attempt_loop (Z.to_nat (attempts_of cfg)) 0 (attempts_of cfg) cfg payload trackLoad no_key_available.

Definition ModerationInput (inp : ContentModerationInput) : mprog moderation_payload :=
  let* pick := if Z.of_nat (List.length (in_Images inp)) <=? maxContentModerationInputImages
               then Ret None else call (MPickImage (Z.of_nat (List.length (in_Images inp)))) in
  let images := limit_images (in_Images inp) pick in
  Ret (if is_nil images then PText (in_Text inp)
       else PParts (if str_empty (TrimSpace (in_Text inp)) then None else Some (in_Text inp)) images).

(** ** Metrics, log and queue *)

Definition recordPreBlockSyncMetric (latencyMS : Z) (action : string) : mprog unit :=
  let* _ := count NPreBlockChecked in
  let* _ := call (MCount NPreBlockLatencyTotalMS (if latencyMS <? 0 then 0 else latencyMS)) in
  if existsb (String.eqb action) [ContentModerationActionBlock; ContentModerationActionHashBlock;
                                  ContentModerationActionKeywordBlock]
  then count NPreBlockBlocked
  else if String.eqb action ContentModerationActionError then count NPreBlockErrors
  else count NPreBlockAllowed.

Definition positive_id (id : Z) : option Z := if 0 <? id then Some id else None.

Definition buildLog (input : ContentModerationCheckInput) (cfg : ContentModerationConfig)
    (action : string) (flagged : bool) (highestCategory : string) (highestScore : float64)
    (scores : gmap string float64) (text : string) (latency queueDelay : option Z)
    (errText : string) : ContentModerationLog := {|
  cl_RequestID := ci_RequestID input;
  cl_UserID := positive_id (ci_UserID input);
  cl_UserEmail := ci_UserEmail input;
  cl_APIKeyID := positive_id (ci_APIKeyID input);
  cl_APIKeyName := ci_APIKeyName input;
  cl_PlatformID := ci_PlatformID input;
  cl_PlatformName := ci_PlatformName input;
  cl_Endpoint := ci_Endpoint input;
  cl_Provider := ci_Provider input;
  cl_Model := ci_Model input;
  cl_Mode := cm_Mode cfg;
  cl_Action := action;
  cl_Flagged := flagged;
  cl_HighestCategory := highestCategory;
  cl_HighestScore := highestScore;
  cl_MatchedKeyword := "";
  cl_CategoryScores := scores;
  cl_ThresholdSnapshot := cm_Thresholds cfg;
  cl_InputExcerpt := trimRunes (redactContentModerationSecrets text) maxModerationExcerptRunes;
  cl_UpstreamLatencyMS := latency;
  cl_Error := errText;
  cl_ViolationCount := 0;
  cl_AutoBanned := false;
  cl_EmailSent := false;
  cl_QueueDelayMS := queueDelay |}.

Definition queue_size (cfg : ContentModerationConfig) : Z :=
  if 0 <? cm_QueueSize cfg then cm_QueueSize cfg else defaultContentModerationQueueSize.

Definition send_task (task : contentModerationTask) : mprog unit :=
  let* sent := call (MQueueSend task) in
  count (if (sent : bool) then NAsyncEnqueued else NAsyncDropped).

Definition enqueueAsync (input : ContentModerationCheckInput) (cfg : ContentModerationConfig)
    (content : ContentModerationInput) (hashText : string) : mprog unit :=
  let* n := call MQueueLen in
  if queue_size cfg <=? n then count NAsyncDropped else
  let* now := call MNow in
  send_task {| tk_input := input; tk_content := content; tk_inputHash := hashText; tk_log := None;
               tk_config := None; tk_recordHash := false; tk_applySideEffects := false;
               tk_enqueuedAt := now |}.

Definition enqueueRecord (input : ContentModerationCheckInput) (cfg : ContentModerationConfig)
    (log : ContentModerationLog) (inputHash : string) (recordHash applySideEffects : bool) : mprog unit :=
  let* n := call MQueueLen in
  if queue_size cfg <=? n then count NAsyncDropped else
  let* now := call MNow in
  send_task {| tk_input := input; tk_content := {| in_Text := ""; in_Images := [] |};
               tk_inputHash := inputHash; tk_log := Some log; tk_config := Some cfg;
               tk_recordHash := recordHash; tk_applySideEffects := applySideEffects;
               tk_enqueuedAt := now |}.

(** ** What a violation does *)

(** The log with its count and ban, and whether the user was disabled just now. *)
Definition applyFlaggedAccountSideEffects (cfg : ContentModerationConfig) (log : ContentModerationLog) :
    mprog (bool * ContentModerationLog) :=
  match cl_UserID log with
  | None => Ret (false, log)
  | Some userID =>
      if negb (cl_Flagged log) || (userID <=? 0) then Ret (false, log) else
      let* counted :=
        if ms_repo s && (0 <? cm_ViolationWindowHours cfg) then
          let* now := call MNow in
          let since := time_add now (mul64 (- cm_ViolationWindowHours cfg) hour) in
          let* r := call (MCountFlagged userID since (cm_CyberPolicyExcludeFromBanCount cfg)) in
          Ret match r with Ok n => n + 1 | Err _ => 1 end
        else Ret 1 in
      let log := set_count counted log in
      if cm_AutoBanEnabled cfg && (0 <? cm_BanThreshold cfg) && (cm_BanThreshold cfg <=? counted)
         && ms_userRepo s then
        let* user := call (MGetUser userID) in
        match user with
        | Err _ => Ret (false, log)
        | Ok user =>
            if IsAdmin user then Ret (false, log)
            else if negb (String.eqb (mu_Status user) StatusDisabled) then
              let* updated := call (MUpdateUserStatus userID StatusDisabled) in
              match updated with
              | Err _ => Ret (false, log)
              | Ok _ =>
                  let* _ := if ms_authCacheInvalidator s then call (MInvalidateAuth userID) else Ret tt in
                  Ret (true, set_banned log)
              end
            else Ret (false, set_banned log)
        end
      else Ret (false, log)
  end.

(** A mail that fails is reported with the id of the user, which a log without
    user does not have. *)
Definition mail (send : ContentModerationLog -> msvc (result unit)) (log : ContentModerationLog) : mprog bool :=
  let* r := call (send log) in
  match r with
  | Ok _ => Ret true
  | Err _ => match cl_UserID log with Some _ => Ret false | None => panic end
  end.

Definition sendFlaggedNotificationSideEffects (cfg : ContentModerationConfig)
    (log : ContentModerationLog) (autoBanJustApplied : bool) : mprog ContentModerationLog :=
  if negb (cl_Flagged log) then Ret log
  else if negb (ms_emailService s) || str_empty (TrimSpace (cl_UserEmail log)) then Ret log
  else
    let* hit := if cm_EmailOnHit cfg then mail MViolationEmail log else Ret false in
    let* banned := if autoBanJustApplied then mail MDisabledEmail log else Ret false in
    Ret (set_sent (hit || banned) log).

Definition persistContentModerationLog (cfg : ContentModerationConfig) (log : ContentModerationLog)
    (hashText : string) (recordHash applySideEffects : bool) : mprog unit :=
  let* _ := if recordHash && ms_hashCache s then let* _ := call (MRecordHash hashText) in Ret tt
            else Ret tt in
  let* log :=
    if applySideEffects then
      let* r := applyFlaggedAccountSideEffects cfg log in
      sendFlaggedNotificationSideEffects cfg r.2 r.1
    else Ret log in
  if ms_repo s then let* _ := call (MCreateLog log) in Ret tt else Ret tt.

(** ** The check *)

Definition allow : ContentModerationDecision :=
  mk_decision true false false "" 0 "" "" f0 ∅ ContentModerationActionAllow.

(** A tracked check is counted as active while it calls the service. *)
Definition when_tracked (track : bool) (p : mprog unit) : mprog unit := if track then p else Ret tt.

Definition checkSync (input : ContentModerationCheckInput) (cfg : ContentModerationConfig)
    (content : ContentModerationInput) (hashText : string) (queueDelay : option Z)
    (allowBlock : bool) : mprog ContentModerationDecision :=
  let preBlock := String.eqb (cm_Mode cfg) ContentModerationModePreBlock in
  let sync := match queueDelay with None => true | Some _ => false end in
  let trackPreBlock := sync && allowBlock && preBlock in
  let* _ := when_tracked trackPreBlock (call (MCount NPreBlockActive 1)) in
  let* start := call MNow in
  let* payload := ModerationInput content in
  let* result := callModeration cfg payload trackPreBlock in
  let* finish := call MNow in
  let latency := milliseconds (time_sub finish start) in
  let* decision :=
    match result with
    | Err e =>
        let* _ := when_tracked trackPreBlock (recordPreBlockSyncMetric latency ContentModerationActionError) in
        let* _ := if sync then Ret tt else count NAsyncErrors in
        let* _ := if cm_RecordNonHits cfg then
                    let* _ := call (MCreateLog (buildLog input cfg ContentModerationActionError false "" f0 ∅
                                                 (in_Text content) (Some latency) queueDelay
                                                 (error_text e))) in Ret tt
                  else Ret tt in
        Ret allow
    | Ok scores =>
        let* entries := call (MScoreOrder scores) in
        let '(flagged, highestCategory, highestScore) :=
          evaluateModerationScores scores (`entries) (cm_Thresholds cfg) in
        let blocked := allowBlock && flagged && preBlock in
        let action := if blocked then ContentModerationActionBlock else ContentModerationActionAllow in
        let* _ := when_tracked trackPreBlock (recordPreBlockSyncMetric latency action) in
        let* _ :=
          if flagged || cm_RecordNonHits cfg then
            let log := buildLog input cfg action flagged highestCategory highestScore scores
                         (in_Text content) (Some latency) queueDelay "" in
            if sync && preBlock then enqueueRecord input cfg log hashText flagged flagged
            else persistContentModerationLog cfg log hashText flagged flagged
          else Ret tt in
        Ret (if blocked
             then mk_decision false true true (cm_BlockMessage cfg) (cm_BlockStatus cfg) ""
                    highestCategory highestScore scores action
             else mk_decision true false flagged "" 0 "" highestCategory highestScore scores action)
    end in
  let* _ := when_tracked trackPreBlock (call (MCount NPreBlockActive (-1))) in
  Ret decision.

Definition unavailable_decision : ContentModerationDecision :=
  mk_decision false true false "风控系统暂时不可用，请稍后重试" 500 "" "" f0 ∅ ContentModerationActionError.

(** After the local rules: sampling, keys, and the service itself. *)
Definition check_remotely (input : ContentModerationCheckInput) (cfg : ContentModerationConfig)
    (content : ContentModerationInput) (hashText : string) : mprog ContentModerationDecision :=
  let preBlock := String.eqb (cm_Mode cfg) ContentModerationModePreBlock in
  if negb (shouldSample cfg hashText) then
    let* _ := when_tracked preBlock (recordPreBlockSyncMetric 0 ContentModerationActionAllow) in Ret allow
  else if is_nil (apiKeys cfg) then
    let* _ := when_tracked preBlock (recordPreBlockSyncMetric 0 ContentModerationActionError) in Ret allow
  else if String.eqb (cm_Mode cfg) ContentModerationModeObserve then
    let* _ := enqueueAsync input cfg content hashText in Ret allow
  else checkSync input cfg content hashText None true.

(** The hashes of inputs that were flagged before. *)
Definition check_hash (input : ContentModerationCheckInput) (cfg : ContentModerationConfig)
    (content : ContentModerationInput) (hashText : string) : mprog ContentModerationDecision :=
  let preBlock := String.eqb (cm_Mode cfg) ContentModerationModePreBlock in
  let* matched := if cm_PreHashCheckEnabled cfg && ms_hashCache s then
                    let* r := call (MHasHash hashText) in
                    Ret match r with Ok b => b | Err _ => false end
                  else Ret false in
  if matched then
    let* _ := when_tracked preBlock (recordPreBlockSyncMetric 0 ContentModerationActionHashBlock) in
    let message := if str_empty (cm_BlockMessage cfg) then ""%string
                   else (cm_BlockMessage cfg ++ "（hash: " ++ hashText ++ "）")%string in
    let log := buildLog input cfg ContentModerationActionHashBlock true "hash" f1
                 {["hash"%string := f1]} (in_Text content) None None "" in
    let* _ := enqueueRecord input cfg log hashText false false in
    Ret (mk_decision false true true message (cm_BlockStatus cfg) hashText "" f0 ∅
           ContentModerationActionHashBlock)
  else check_remotely input cfg content hashText.

Definition check_content (input : ContentModerationCheckInput)
    (snapshot : contentModerationRuntimeSnapshot) (content : ContentModerationInput) :
    mprog ContentModerationDecision :=
  let cfg := rs_config snapshot in
  let hashText := Hash content in
  if String.eqb (cm_Mode cfg) ContentModerationModePreBlock then
    let hit :=
      if negb (String.eqb (cm_KeywordBlockingMode cfg) ContentModerationKeywordModeAPIOnly)
         && negb (is_nil (cm_BlockedKeywords cfg))
      then snapshot_matchBlockedKeyword snapshot (in_Text content) else Some None in
    match hit with
    | None => panic
    | Some (Some keyword) =>
        let* _ := recordPreBlockSyncMetric 0 ContentModerationActionKeywordBlock in
        let scores := {[contentModerationKeywordCategory := f1]} in
        let log := set_keyword keyword
          (buildLog input cfg ContentModerationActionKeywordBlock true contentModerationKeywordCategory
             f1 scores (in_Text content) None None "") in
        let* _ := enqueueRecord input cfg log hashText false true in
        Ret (mk_decision false true true (cm_BlockMessage cfg) (cm_BlockStatus cfg) ""
               contentModerationKeywordCategory f1 scores ContentModerationActionKeywordBlock)
    | Some None =>
        if String.eqb (cm_KeywordBlockingMode cfg) ContentModerationKeywordModeKeywordOnly then
          let* _ := recordPreBlockSyncMetric 0 ContentModerationActionAllow in Ret allow
        else check_hash input cfg content hashText
    end
  else check_hash input cfg content hashText.

Definition Check (input : ContentModerationCheckInput) : mprog ContentModerationDecision :=
  if negb (ms_settingRepo s) || negb (ms_repo s) then Ret allow else
  let* loaded := loadRuntimeSnapshot in
  match loaded with
  | Err _ => Ret unavailable_decision
  | Ok snapshot =>
      let cfg := rs_config snapshot in
      if negb (rs_riskControlEnabled snapshot) then Ret allow
      else if negb (cm_Enabled cfg) then Ret allow
      else if String.eqb (cm_Mode cfg) ContentModerationModeOff then Ret allow
      else if negb (includesPlatform cfg (ci_PlatformID input)) then Ret allow
      else if negb (includesModel cfg (ci_Model input)) then Ret allow
      else
        let content := ExtractContentModerationInput (ci_Protocol input) (ci_Body input) in
        if IsEmpty content then Ret allow
        else check_content input snapshot (Normalize content)
  end.

(** ** The workers *)

Definition worker_task (cfg : ContentModerationConfig) (task : contentModerationTask) : mprog unit :=
  match tk_log task with
  | Some log =>
      let* _ := count NAsyncActive in
      let* now := call MNow in
      let log := set_delay (milliseconds (time_sub now (tk_enqueuedAt task))) log in
      let taskCfg := default cfg (tk_config task) in
      let* _ := persistContentModerationLog taskCfg log (tk_inputHash task) (tk_recordHash task)
                  (tk_applySideEffects task) in
      let* _ := count NAsyncProcessed in
      call (MCount NAsyncActive (-1))
  | None =>
      if negb (cm_Enabled cfg) || String.eqb (cm_Mode cfg) ContentModerationModeOff || is_nil (apiKeys cfg)
      then Ret tt
      else if negb (includesPlatform cfg (ci_PlatformID (tk_input task))) then Ret tt
      else if negb (includesModel cfg (ci_Model (tk_input task))) then Ret tt
      else
        let* _ := count NAsyncActive in
        let* now := call MNow in
        let delay := milliseconds (time_sub now (tk_enqueuedAt task)) in
        let* _ := checkSync (tk_input task) cfg (tk_content task) (tk_inputHash task) (Some delay) false in
        let* _ := count NAsyncProcessed in
        call (MCount NAsyncActive (-1))
  end.

(** One turn of the loop of worker [id]. *)
Definition worker_turn (id : Z) : mprog unit :=
  let* loaded := loadRuntimeSnapshot in
  match loaded with
  | Err _ => Ret tt
  | Ok snapshot =>
      if cm_WorkerCount (rs_config snapshot) <=? id then Ret tt else
      let* task := call MQueueReceive in
      match task with
      | None => Ret tt
      | Some task => worker_task (rs_config snapshot) task
      end
  end.
End Service.
