(* ===== verification/ModerationAdmin.v ===== *)
(** * Content moderation: administration

    [service/content_moderation.go]: changing the settings, lifting a ban,
    forgetting flagged inputs, and recording a request that the upstream
    refused for its own policy. *)

From stdpp Require Import pretty.
From S2P Require Import Prelude GoErrors Prog Float64 GoTime GoStrings GoText KeywordMatcher ModerationInput ModerationConfig Moderation.
From Stdlib Require Import Ascii String.

Open Scope prog_scope.

(** [None] is a nil pointer: the setting is left alone. *)
Record UpdateContentModerationConfigInput := {
  up_Enabled : option bool;
  up_Mode : option string;
  up_BaseURL : option string;
  up_Model : option string;
  up_ProxyID : option Z;
  up_APIKey : option string;
  up_APIKeys : option (list string);
  up_APIKeysMode : string;
  up_DeleteAPIKeyHashes : option (list string);
  up_ClearAPIKey : bool;
  up_TimeoutMS : option Z;
  up_SampleRate : option Z;
  up_AllPlatforms : option bool;
  up_PlatformIDs : option (list Z);
  up_RecordNonHits : option bool;
  up_Thresholds : option (gmap string float64);
  up_WorkerCount : option Z;
  up_QueueSize : option Z;
  up_BlockStatus : option Z;
  up_BlockMessage : option string;
  up_EmailOnHit : option bool;
  up_AutoBanEnabled : option bool;
  up_BanThreshold : option Z;
  up_ViolationWindowHours : option Z;
  up_RetryCount : option Z;
  up_HitRetentionDays : option Z;
  up_NonHitRetentionDays : option Z;
  up_PreHashCheckEnabled : option bool;
  up_BlockedKeywords : option (list string);
  up_KeywordBlockingMode : option string;
  up_ModelFilter : option ContentModerationModelFilter;
  up_CyberPolicyExcludeFromBanCount : option bool
}.

Definition ErrUserNotFound : error := NotFound "USER_NOT_FOUND" "user not found".

Section Admin.
Context {UC : UnicodeCase} {MH : ModerationHost} (s : ContentModerationService).

(** The keys of the settings after an update: [APIKey] and [APIKeys]. *)
Definition updated_keys (cfg : ContentModerationConfig) (inp : UpdateContentModerationConfigInput) :
    string * list string :=
  if up_ClearAPIKey inp then (""%string, []) else
  let replace := String.eqb (normalizeContentModerationAPIKeysMode (up_APIKeysMode inp))
                   contentModerationAPIKeysModeReplace in
  let st := (cm_APIKey cfg, cm_APIKeys cfg) in
  let st := match up_DeleteAPIKeyHashes inp with
            | Some hashes =>
                if replace then st
                else (""%string, deleteModerationAPIKeysByHash (normalizeModerationAPIKeys st.2) hashes)
            | None => st
            end in
  let st := match up_APIKeys inp with
            | Some keys =>
                (""%string, normalizeModerationAPIKeys
                              (if replace then keys else normalizeModerationAPIKeys st.2 ++ keys))
            | None => st
            end in
  match up_APIKey inp with
  | Some key => if str_empty (TrimSpace key) then st
                else (""%string, normalizeModerationAPIKeys (st.2 ++ [key]))
  | None => st
  end.

Definition merged (cfg : ContentModerationConfig) (inp : UpdateContentModerationConfigInput) :
    ContentModerationConfig :=
  let keys := updated_keys cfg inp in
  {| cm_Enabled := default (cm_Enabled cfg) (up_Enabled inp);
     cm_Mode := default (cm_Mode cfg) (TrimSpace <$> up_Mode inp);
     cm_BaseURL := default (cm_BaseURL cfg) (TrimSpace <$> up_BaseURL inp);
     cm_Model := default (cm_Model cfg) (TrimSpace <$> up_Model inp);
     cm_ProxyID := match up_ProxyID inp with
                   | Some id => if 0 <? id then Some id else None
                   | None => cm_ProxyID cfg end;
     cm_APIKey := keys.1;
     cm_APIKeys := keys.2;
     cm_TimeoutMS := default (cm_TimeoutMS cfg) (up_TimeoutMS inp);
     cm_SampleRate := default (cm_SampleRate cfg) (up_SampleRate inp);
     cm_AllPlatforms := default (cm_AllPlatforms cfg) (up_AllPlatforms inp);
     cm_PlatformIDs := default (cm_PlatformIDs cfg) (normalizeInt64IDs <$> up_PlatformIDs inp);
     cm_RecordNonHits := default (cm_RecordNonHits cfg) (up_RecordNonHits inp);
     cm_Thresholds := default (cm_Thresholds cfg)
       (mergeContentModerationThresholds ContentModerationDefaultThresholds <$> up_Thresholds inp);
     cm_WorkerCount := default (cm_WorkerCount cfg) (up_WorkerCount inp);
     cm_QueueSize := default (cm_QueueSize cfg) (up_QueueSize inp);
     cm_BlockStatus := default (cm_BlockStatus cfg) (up_BlockStatus inp);
     cm_BlockMessage := default (cm_BlockMessage cfg) (TrimSpace <$> up_BlockMessage inp);
     cm_EmailOnHit := default (cm_EmailOnHit cfg) (up_EmailOnHit inp);
     cm_AutoBanEnabled := default (cm_AutoBanEnabled cfg) (up_AutoBanEnabled inp);
     cm_BanThreshold := default (cm_BanThreshold cfg) (up_BanThreshold inp);
     cm_ViolationWindowHours := default (cm_ViolationWindowHours cfg) (up_ViolationWindowHours inp);
     cm_RetryCount := default (cm_RetryCount cfg) (up_RetryCount inp);
     cm_HitRetentionDays := default (cm_HitRetentionDays cfg) (up_HitRetentionDays inp);
     cm_NonHitRetentionDays := default (cm_NonHitRetentionDays cfg) (up_NonHitRetentionDays inp);
     cm_PreHashCheckEnabled := default (cm_PreHashCheckEnabled cfg) (up_PreHashCheckEnabled inp);
     cm_BlockedKeywords := default (cm_BlockedKeywords cfg) (normalizeBlockedKeywords <$> up_BlockedKeywords inp);
     cm_KeywordBlockingMode := default (cm_KeywordBlockingMode cfg) (TrimSpace <$> up_KeywordBlockingMode inp);
     cm_ModelFilter := default (cm_ModelFilter cfg) (up_ModelFilter inp);
     cm_CyberPolicyExcludeFromBanCount :=
       default (cm_CyberPolicyExcludeFromBanCount cfg) (up_CyberPolicyExcludeFromBanCount inp) |}.

(** ** Changing the settings *)

Definition check_platforms (cfg : ContentModerationConfig) : mprog (result unit) :=
  if negb (cm_AllPlatforms cfg) && negb (is_nil (cm_PlatformIDs cfg)) && ms_platformRepo s then
    let* platforms := call MListPlatforms in
    Ret match platforms with
        | Err _ => Err (BadRequest "INVALID_CONTENT_MODERATION_PLATFORM" "无法加载审计平台")
        | Ok known =>
            match List.find (λ id, negb (existsb (Z.eqb id) known)) (cm_PlatformIDs cfg) with
            | Some id => Err (BadRequest "INVALID_CONTENT_MODERATION_PLATFORM" ("审计平台不存在: " ++ pretty id))
            | None => Ok tt
            end
        end
  else Ret (Ok tt).

(** It normalises the settings it is handed. *)
Definition validateConfig (cfg : ContentModerationConfig) : mprog (result ContentModerationConfig) :=
  let cfg := normalize cfg in
  if negb (existsb (String.eqb (cm_Mode cfg))
             [ContentModerationModeOff; ContentModerationModeObserve; ContentModerationModePreBlock])
  then Ret (Err (BadRequest "INVALID_CONTENT_MODERATION_MODE" "内容审计模式无效"))
  else if negb (valid_request_uri (cm_BaseURL cfg))
  then Ret (Err (BadRequest "INVALID_CONTENT_MODERATION_BASE_URL" "OpenAI Base URL 无效"))
  else
    let* proxy := match cm_ProxyID cfg with
                  | Some id =>
                      if ms_proxyRepo s then
                        let* found := call (MProxyExists id) in
                        Ret match found with
                            | Ok _ => Ok tt
                            | Err _ => Err (BadRequest "INVALID_CONTENT_MODERATION_PROXY" ("代理服务器不存在: " ++ pretty id))
                            end
                      else Ret (Ok tt)
                  | None => Ret (Ok tt)
                  end in
    match proxy with
    | Err e => Ret (Err e)
    | Ok _ =>
        if (cm_BlockStatus cfg <? 400) || (599 <? cm_BlockStatus cfg)
        then Ret (Err (BadRequest "INVALID_CONTENT_MODERATION_BLOCK_STATUS" "拦截 HTTP 状态码必须在 400-599 之间"))
        else if negb (String.eqb (mf_Type (cm_ModelFilter cfg)) ContentModerationModelFilterAll)
                && is_nil (mf_Models (cm_ModelFilter cfg))
        then Ret (Err (BadRequest "INVALID_CONTENT_MODERATION_MODEL_FILTER" "指定或排除模型时至少需要配置 1 个模型"))
        else
          let* platforms := check_platforms cfg in
          Ret match platforms with Err e => Err e | Ok _ => Ok cfg end
    end.

(** The view of the settings that is returned is left out. *)
Definition UpdateConfig (inp : UpdateContentModerationConfigInput) : mprog (result ContentModerationConfig) :=
  let* loaded := loadConfig in
  match loaded with
  | Err e => Ret (Err e)
  | Ok cfg =>
      let* valid := validateConfig (merged cfg inp) in
      match valid with
      | Err e => Ret (Err e)
      | Ok cfg =>
          let cfg := normalize cfg in
          match encode_config cfg with
          | Err e => Ret (Err (EWrap "marshal content moderation config" e))
          | Ok raw =>
              let* saved := call (MSetConfig raw) in
              match saved with
              | Err e => Ret (Err (EWrap "save content moderation config" e))
              | Ok _ =>
                  let* _ := replaceRuntimeConfig cfg raw in
                  let* _ := call MDropProxyCache in
                  Ret (Ok cfg)
              end
          end
      end
  end.

(** ** Users and hashes *)

(** The id and the status of the user. *)
Definition UnbanUser (userID : Z) : mprog (result (Z * string)) :=
  if negb (ms_userRepo s)
  then Ret (Err (InternalServer "CONTENT_MODERATION_USER_REPOSITORY_UNAVAILABLE" "用户仓储不可用"))
  else if userID <=? 0 then Ret (Err (BadRequest "INVALID_USER_ID" "用户 ID 无效"))
  else
    let* user := call (MGetUser userID) in
    match user with
    | Err e => Ret (Err (if error_is e ErrUserNotFound then NotFound "USER_NOT_FOUND" "用户不存在"
                         else EWrap "get content moderation unban user" e))
    | Ok user =>
        let* updated := if String.eqb (mu_Status user) StatusActive then Ret (Ok tt)
                        else call (MUpdateUserStatus userID StatusActive) in
        match updated with
        | Err e => Ret (Err (EWrap "update content moderation unban user" e))
        | Ok _ =>
            let* _ := if ms_authCacheInvalidator s then call (MInvalidateAuth userID) else Ret tt in
            Ret (Ok (userID, StatusActive))
        end
    end.

Definition cache_unavailable : error :=
  InternalServer "CONTENT_MODERATION_HASH_CACHE_UNAVAILABLE" "内容审计哈希缓存不可用".

Definition DeleteFlaggedInputHash (inputHash : string) : mprog (result (string * bool)) :=
  let inputHash := normalizeContentModerationHash inputHash in
  if str_empty inputHash
  then Ret (Err (BadRequest "INVALID_CONTENT_MODERATION_HASH" "风险输入哈希无效"))
  else if negb (ms_hashCache s) then Ret (Err cache_unavailable)
  else
    let* deleted := call (MDeleteHash inputHash) in
    Ret match deleted with
        | Err e => Err (EWrap "delete content moderation flagged hash" e)
        | Ok deleted => Ok (inputHash, deleted)
        end.

Definition ClearFlaggedInputHashes : mprog (result Z) :=
  if negb (ms_hashCache s) then Ret (Err cache_unavailable)
  else
    let* deleted := call MClearHashes in
    Ret match deleted with
        | Err e => Err (EWrap "clear content moderation flagged hashes" e)
        | Ok n => Ok n
        end.

(** ** Refusals of the upstream *)

Record CyberPolicyRecordInput := {
  cy_RequestID : string;
  cy_UserID : Z;
  cy_UserEmail : string;
  cy_APIKeyID : Z;
  cy_APIKeyName : string;
  cy_PlatformID : option Z;
  cy_PlatformName : string;
  cy_Endpoint : string;
  cy_Model : string;
  cy_UpstreamMessage : string;
  cy_UpstreamBody : string;
  cy_UpstreamInTok : Z;
  cy_UpstreamOutTok : Z
}.

Definition cyber_error (inp : CyberPolicyRecordInput) : string :=
  let body := TrimSpace (cy_UpstreamBody inp) in
  let err := TrimSpace (cy_UpstreamMessage inp) in
  let err := if str_empty body then err else TrimSpace (err ++ "
" ++ body)%string in
  if (0 <? cy_UpstreamInTok inp) || (0 <? cy_UpstreamOutTok inp)
  then (err ++ "
upstream_usage=in:" ++ pretty (cy_UpstreamInTok inp) ++ ",out:" ++ pretty (cy_UpstreamOutTok inp))%string
  else err.

Definition cyber_log (inp : CyberPolicyRecordInput) : ContentModerationLog := {|
  cl_RequestID := cy_RequestID inp;
  cl_UserID := positive_id (cy_UserID inp);
  cl_UserEmail := cy_UserEmail inp;
  cl_APIKeyID := positive_id (cy_APIKeyID inp);
  cl_APIKeyName := cy_APIKeyName inp;
  cl_PlatformID := cy_PlatformID inp;
  cl_PlatformName := cy_PlatformName inp;
  cl_Endpoint := cy_Endpoint inp;
  cl_Provider := "openai";
  cl_Model := cy_Model inp;
  cl_Mode := "post_upstream";
  cl_Action := ContentModerationActionCyberPolicy;
  cl_Flagged := true;
  cl_HighestCategory := "cyber_policy";
  cl_HighestScore := f1;
  cl_MatchedKeyword := "";
  cl_CategoryScores := ∅;
  cl_ThresholdSnapshot := ∅;
  cl_InputExcerpt := "";
  cl_UpstreamLatencyMS := None;
  cl_Error := trimRunes (redactContentModerationSecrets (cyber_error inp)) (maxModerationExcerptRunes * 4);
  cl_ViolationCount := 0;
  cl_AutoBanned := false;
  cl_EmailSent := false;
  cl_QueueDelayMS := None |}.

(** Settings that cannot be loaded are all zero. *)
Definition zero_config : ContentModerationConfig :=
  mk_config false "" "" "" None "" [] 0 0 false [] false ∅ 0 0 0 "" false false 0 0 0 0 0 false []
    "" {| mf_Type := ""; mf_Models := [] |} false.

Definition RecordCyberPolicyEvent (inp : CyberPolicyRecordInput) : mprog unit :=
  if negb (ms_repo s) then Ret tt else
  let* enabled := isRiskControlEnabled in
  if negb enabled then Ret tt else
  let* loaded := loadConfig in
  let cfg := match loaded with Ok cfg => cfg | Err _ => zero_config end in
  let* r := if cm_CyberPolicyExcludeFromBanCount cfg then Ret (false, cyber_log inp)
            else applyFlaggedAccountSideEffects s cfg (cyber_log inp) in
  let '(autoBanned, log) := r in
  let log := set_sent false log in
  let* created := call (MCreateLog log) in
  let* sent :=
    if ms_emailService s && negb (str_empty (TrimSpace (cl_UserEmail log))) then
      let* cyber := call (MCyberEmail log) in
      let* disabled := if autoBanned then call (MDisabledEmail log)
                       else Ret (Err (EPlain "not sent")) in
      Ret (match cyber with Ok _ => true | Err _ => false end
           || match disabled with Ok _ => true | Err _ => false end)
    else Ret false in
  match created with
  | Ok id => if sent then let* _ := call (MUpdateLogEmailSent id true) in Ret tt else Ret tt
  | Err _ => Ret tt
  end.

End Admin.
