(* ===== verification/ModerationProps.v ===== *)
(** * Content moderation: the shared state and its properties

    The state of the process that the programs of [Moderation] share, and what
    a call answers and does to it ([performs]).  A call to a service outside
    the process may answer anything.  [stored_ok] is what every snapshot has:
    settings that were normalised, and the automaton of their keywords.  Every
    interleaving of checks, workers, refreshes and updates keeps it. *)

From Stdlib Require Import Ascii String.
From S2P Require Import Prelude GoErrors Prog Float64 GoTime GoStrings GoText KeywordMatcher KeywordTrie KeywordMatcherProps ModerationInput ModerationConfig Moderation ModerationAdmin.

Open Scope prog_scope.

Record MWorld := mk_mworld {
  mw_snapshot : option contentModerationRuntimeSnapshot;
  mw_locked : bool;
  mw_retryAt : Z;
  mw_counts : counter -> Z;
  mw_cursor : Z;
  mw_health : key_health;
  mw_queue : list contentModerationTask;
  mw_now : time
}.

Definition with_snapshot sn (w : MWorld) : MWorld :=
  mk_mworld sn (mw_locked w) (mw_retryAt w) (mw_counts w) (mw_cursor w) (mw_health w) (mw_queue w) (mw_now w).
Definition with_locked b (w : MWorld) : MWorld :=
  mk_mworld (mw_snapshot w) b (mw_retryAt w) (mw_counts w) (mw_cursor w) (mw_health w) (mw_queue w) (mw_now w).
Definition with_retryAt v (w : MWorld) : MWorld :=
  mk_mworld (mw_snapshot w) (mw_locked w) v (mw_counts w) (mw_cursor w) (mw_health w) (mw_queue w) (mw_now w).
Definition with_counts f (w : MWorld) : MWorld :=
  mk_mworld (mw_snapshot w) (mw_locked w) (mw_retryAt w) f (mw_cursor w) (mw_health w) (mw_queue w) (mw_now w).
Definition with_cursor v (w : MWorld) : MWorld :=
  mk_mworld (mw_snapshot w) (mw_locked w) (mw_retryAt w) (mw_counts w) v (mw_health w) (mw_queue w) (mw_now w).
Definition with_health h (w : MWorld) : MWorld :=
  mk_mworld (mw_snapshot w) (mw_locked w) (mw_retryAt w) (mw_counts w) (mw_cursor w) h (mw_queue w) (mw_now w).
Definition with_queue q (w : MWorld) : MWorld :=
  mk_mworld (mw_snapshot w) (mw_locked w) (mw_retryAt w) (mw_counts w) (mw_cursor w) (mw_health w) q (mw_now w).
Definition with_now t (w : MWorld) : MWorld :=
  mk_mworld (mw_snapshot w) (mw_locked w) (mw_retryAt w) (mw_counts w) (mw_cursor w) (mw_health w) (mw_queue w) t.

Definition add_count (c : counter) (delta : Z) (f : counter -> Z) : counter -> Z :=
  λ c', if decide (c' = c) then wrap64 (f c' + delta) else f c'.

Section State.
Context {UC : UnicodeCase} {MH : ModerationHost}.

(** [MCursor] answers [int(apiKeyCursor.Add(1)-1)] of a 64-bit counter. *)
Definition performs (B : Type) (c : msvc B) (w : MWorld) : B -> MWorld -> Prop :=
  match c in msvc B return B -> MWorld -> Prop with
  | MPanic => λ _ _, False
  | MNow => λ t w', t = mw_now w /\ w' = w
  | MSnapshotLoad => λ b w', b = mw_snapshot w /\ w' = w
  | MSnapshotStore sn => λ _ w', w' = with_snapshot (Some sn) w
  | MRefreshLock => λ _ w', mw_locked w = false /\ w' = with_locked true w
  | MRefreshTryLock => λ b w', b = negb (mw_locked w) /\ w' = with_locked true w
  | MRefreshUnlock => λ _ w', w' = with_locked false w
  | MRetryAt => λ v w', v = mw_retryAt w /\ w' = w
  | MSetRetryAt v => λ _ w', w' = with_retryAt v w
  | MCount n delta => λ _ w', w' = with_counts (add_count n delta (mw_counts w)) w
  | MCursor => λ v w', v = wrap64 (mw_cursor w) /\ w' = with_cursor (wrapu64 (mw_cursor w + 1)) w
  | MFrozen key now => λ b w', b = isAPIKeyFrozen key now (mw_health w) /\ w' = w
  | MBegin key => λ _ w', w' = with_health (beginModerationAPIKeyCall key (mw_health w)) w
  | MFinish key latency ok => λ _ w', w' = with_health (finishModerationAPIKeyCall key latency ok (mw_health w)) w
  | MMarkSuccess key latency status =>
      λ _ w', w' = with_health (markAPIKeySuccess key latency status (mw_now w) (mw_health w)) w
  | MMarkError key err latency status =>
      λ _ w', w' = with_health (markAPIKeyError key err latency status (mw_now w) (mw_health w)) w
  | MQueueLen => λ n w', n = Z.of_nat (List.length (mw_queue w)) /\ w' = w
  | MQueueSend task => λ sent w',
      if Z.of_nat (List.length (mw_queue w)) <? maxContentModerationQueueSize
      then sent = true /\ w' = with_queue (mw_queue w ++ [task]) w
      else sent = false /\ w' = w
  | MQueueReceive => λ t w',
      (t = None /\ w' = w) \/ ∃ task q, mw_queue w = task :: q /\ t = Some task /\ w' = with_queue q w
  | _ => λ _ w', w' = w
  end.

(** What is left to the rest of the system: time passes. *)
Definition time_passes (w w' : MWorld) : Prop := ∃ t, w' = with_now t w.

(** ** Snapshots *)

Definition stored_ok (sn : contentModerationRuntimeSnapshot) : Prop :=
  newContentModerationKeywordMatcher (cm_BlockedKeywords (rs_config sn)) = Some (rs_keywordMatcher sn) /\
  ∃ cfg, rs_config sn = normalize cfg.
Definition world_ok (w : MWorld) : Prop := ∀ sn, mw_snapshot w = Some sn -> stored_ok sn.

(** Programs that keep it, whatever runs between their calls. *)
Definition any_later (w w' : MWorld) : Prop := True.
#[export] Instance any_later_preorder : PreOrder any_later.
Proof. by split. Qed.

Definition keeps_ok {A} (p : mprog A) (Q : A -> Prop) : Prop :=
  ∀ w, world_ok w -> safe performs world_ok any_later p w (λ _, Q).

Lemma ok_ret {A} (a : A) (Q : A -> Prop) : Q a -> keeps_ok (Ret a) Q.
Proof. intros H w _. by apply safe_ret. Qed.
Lemma ok_bind {A B} (p : mprog A) (f : A -> mprog B) (R : A -> Prop) Q :
  keeps_ok p R -> (∀ a, R a -> keeps_ok (f a) Q) -> keeps_ok (pbind p f) Q.
Proof.
  intros Hp Hf w Hw. eapply safe_step; [apply _|by apply Hp|]. intros w' a Hi _ HR. by apply Hf.
Qed.
Lemma ok_any {A B} (p : mprog A) (f : A -> mprog B) Q :
  keeps_ok p (λ _, True) -> (∀ a, keeps_ok (f a) Q) -> keeps_ok (pbind p f) Q.
Proof. intros Hp Hf. eapply ok_bind; [exact Hp|]. intros a _. apply Hf. Qed.
Lemma ok_mono {A} (p : mprog A) (Q Q' : A -> Prop) : keeps_ok p Q -> (∀ a, Q a -> Q' a) -> keeps_ok p Q'.
Proof. intros H HQ w Hw. eapply safe_mono; [apply _|by apply H|]. auto. Qed.

Lemma ok_panic {A} (Q : A -> Prop) : keeps_ok panic Q.
Proof. intros w Hw w1 b. destruct b. Qed.

(** Every call keeps it when what is stored has it. *)
Lemma ok_call {B} (c : msvc B) (Q : B -> Prop) :
  match c with MSnapshotStore sn => stored_ok sn | _ => True end ->
  (∀ w b w', world_ok w -> performs B c w b w' -> Q b) -> keeps_ok (call c) Q.
Proof.
  intros Hc HQ w Hw w1 b w2 Hi _ Hp. split_and!; [|done|].
  - revert Hi Hp. clear -Hc. unfold world_ok. destruct c; cbn; intros Hi Hp sn; try done;
      try (destruct_and? Hp); subst; cbn; try (by apply Hi).
    + intros [= <-]. done.
    + destruct (_ <? _); destruct_and? Hp; subst; by apply Hi.
    + destruct Hp as [[-> ->]|(? & ? & ? & ? & ->)]; by apply Hi.
  - apply safe_ret. intros w3 _ _. by apply (HQ w1 b w2).
Qed.
Lemma ok_quiet {B} (c : msvc B) :
  match c with MSnapshotStore sn => False | _ => True end -> keeps_ok (call c) (λ _, True).
Proof. intros H. apply ok_call; [by destruct c|done]. Qed.
Lemma ok_load : keeps_ok (call MSnapshotLoad) (λ o, ∀ sn, o = Some sn -> stored_ok sn).
Proof. apply ok_call; [done|]. intros w b w' Hw [-> ->] sn. by apply Hw. Qed.

End State.

Create HintDb moderation.
#[export] Hint Resolve ok_panic ok_load : moderation.

(** ** The size of normalised keywords *)

Lemma rune_len_four l k : rune_len l = Some k -> (k <= 4)%nat.
Proof.
  destruct l as [|c rest]; simpl; [done|].
  destruct (rune_class c) as [[[size lo] hi]|] eqn:E; [|done]. destruct (_ && _); [|done].
  intros [= <-]. unfold rune_class in E. repeat case_match; simplify_eq; lia.
Qed.

Lemma runes_loop_size fuel l : (List.length l <= fuel)%nat ->
  (List.length l <= 4 * List.length (runes_loop fuel l))%nat.
Proof.
  revert l. induction fuel as [|fuel IH]; intros l Hl; [destruct l; simpl in *; lia|].
  destruct l as [|c rest]; [simpl; lia|]. cbn [runes_loop].
  destruct (rune_len (c :: rest)) as [k|] eqn:E.
  - pose proof (rune_len_four _ _ E). pose proof (rune_len_bounds _ _ E).
    specialize (IH (drop k (c :: rest))). rewrite length_drop in IH.
    cbn [List.length] in *. lia.
  - specialize (IH rest). cbn [List.length] in *. lia.
Qed.

Lemma concat_size rs n : Forall (λ r : bytes, (List.length r <= n)%nat) rs ->
  (List.length (List.concat rs) <= n * List.length rs)%nat.
Proof. induction 1; simpl; [lia|]. rewrite length_app. lia. Qed.

Lemma str_len_bytes s : str_len s = len_ (to_bytes s).
Proof. unfold str_len, len_, to_bytes. f_equal. induction s; simpl; congruence. Qed.

Lemma trimRunes_size text max : 0 < max -> str_len (trimRunes text max) <= 4 * max.
Proof.
  intros Hm. unfold trimRunes. destruct (Z.leb_spec max 0); [lia|].
  assert (String.length text = List.length (to_bytes text)) as Hlen
    by (pose proof (str_len_bytes text); unfold str_len, len_ in *; lia).
  destruct (Z.leb_spec (Z.of_nat (List.length (runes text))) max) as [Hle|Hgt].
  - rewrite str_len_bytes. unfold len_. pose proof (runes_loop_size (String.length text) (to_bytes text)).
    unfold runes in Hle. lia.
  - rewrite str_len_bytes. unfold of_runes. rewrite to_of_bytes. unfold len_.
    assert (Forall (λ r, (List.length r <= 4)%nat) (take (Z.to_nat max) (runes text))) as Hf.
    { apply Forall_take. eapply Forall_impl; [apply (runes_loop_valid (String.length text) (to_bytes text))|].
      intros r Hr. by eapply rune_len_four. }
    pose proof (concat_size _ _ Hf) as H1. rewrite length_take in H1. lia.
Qed.

(** Lower-casing maps a rune, of one byte at least, to a rune, of four at most. *)
Definition lower_size {UC : UnicodeCase} : Prop := ∀ s, str_len (u_to_lower s) <= 4 * str_len s.

Section Sizes.
Context {UC : UnicodeCase}.
Hypothesis Hlower : lower_size.

Lemma ToLower_size s : str_len (ToLower s) <= 4 * str_len s.
Proof.
  unfold ToLower. destruct (is_ascii s); [|apply Hlower].
  rewrite !str_len_bytes. unfold ascii_lower. rewrite to_of_bytes. unfold len_.
  rewrite length_map. lia.
Qed.

Lemma keywords_loop_bounds ins : ∀ seen count, 0 <= count < maxContentModerationBlockedKeywords ->
  count + len_ (blocked_keywords_loop seen count ins) <= maxContentModerationBlockedKeywords /\
  Forall (λ kw, str_len kw <= 4 * maxContentModerationBlockedKeywordRunes)
    (blocked_keywords_loop seen count ins).
Proof.
  induction ins as [|raw rest IH]; intros seen count Hc; cbn [blocked_keywords_loop].
  { split; [unfold len_; simpl; lia|constructor]. }
  destruct (str_empty (TrimSpace raw)); [by apply IH|].
  destruct (decide _); [by apply IH|].
  set (kw := trimRunes (TrimSpace raw) maxContentModerationBlockedKeywordRunes).
  assert (str_len kw <= 4 * maxContentModerationBlockedKeywordRunes) as Hkw
    by (apply trimRunes_size; reflexivity).
  destruct (Z.leb_spec maxContentModerationBlockedKeywords (count + 1)) as [Hl|Hl].
  - split; [unfold len_; simpl; lia|by repeat constructor].
  - destruct (IH ({[ToLower kw]} ∪ seen) (count + 1)) as [H1 H2]; [lia|].
    split; [unfold len_ in *; cbn [List.length]; lia|by constructor].
Qed.

Lemma total_bytes_bound keywords b : Forall (λ kw, str_len kw <= b) keywords ->
  total_bytes keywords <= 4 * b * len_ keywords.
Proof.
  unfold len_. induction 1 as [|kw rest Hkw _ IH]; [simpl; lia|].
  cbn [total_bytes foldr List.length]. fold (total_bytes rest).
  assert (len_ (lower_of kw) <= 4 * b); [|lia].
  unfold lower_of. rewrite <- str_len_bytes. pose proof (ToLower_size kw). lia.
Qed.

Lemma normalised_keywords_small cfg : 
  total_bytes (cm_BlockedKeywords (normalize cfg)) + 1 < 2 ^ 31 /\
  len_ (cm_BlockedKeywords (normalize cfg)) < 2 ^ 31.
Proof.
  cbn [normalize cm_BlockedKeywords]. unfold normalizeBlockedKeywords.
  destruct (keywords_loop_bounds (cm_BlockedKeywords cfg) ∅ 0) as [H1 H2].
  { unfold maxContentModerationBlockedKeywords. lia. }
  apply total_bytes_bound in H2.
  unfold maxContentModerationBlockedKeywords, maxContentModerationBlockedKeywordRunes in *. lia.
Qed.

End Sizes.

(** ** The snapshot, whatever runs *)

Section Snapshots.
Context {UC : UnicodeCase} {MH : ModerationHost} (s : ContentModerationService).

(** One step through a program that makes no difference to the snapshot. *)
Local Ltac quiet :=
  repeat first
    [ apply ok_ret; done
    | apply ok_panic
    | apply ok_quiet; exact I
    | eassumption
    | apply ok_any; [|intros ?]
    | progress (cbv zeta)
    | match goal with |- keeps_ok (match ?x with _ => _ end) _ => destruct x end
    | progress (unfold count, when_tracked) ].

Lemma quiet_refresh : keeps_ok refreshRuntimeSnapshot (λ r, ∀ sn, r = Ok sn -> stored_ok sn).
Proof.
  unfold refreshRuntimeSnapshot. apply ok_any; [quiet|]. intros [[rc raw]|e]; [|apply ok_ret; done].
  cbv zeta. eapply ok_bind; [apply ok_load|]. intros current Hcur.
  assert (∀ sn, stored_ok sn -> keeps_ok
    (let* _ := call (MSnapshotStore sn) in let* _ := call (MSetRetryAt 0) in Ret (Ok sn))
    (λ r : result contentModerationRuntimeSnapshot, ∀ sn', r = Ok sn' -> stored_ok sn')) as Hstore.
  { intros sn Hsn. apply ok_any; [by apply ok_call|]. intros _. apply ok_any; [quiet|]. intros _.
    apply ok_ret. by intros sn' [= <-]. }
  assert (keeps_ok
    match parseContentModerationConfig raw with
    | Err e => Ret (Err e)
    | Ok cfg =>
        match newContentModerationKeywordMatcher (cm_BlockedKeywords cfg) with
        | None => panic
        | Some matcher =>
            let* now := call MNow in
            let* _ := call (MSnapshotStore
              {| rs_riskControlEnabled := String.eqb rc "true"; rs_config := cfg;
                 rs_keywordMatcher := matcher; rs_configDigest := sha256_hex raw; rs_loadedAt := now |}) in
            let* _ := call (MSetRetryAt 0) in
            Ret (Ok {| rs_riskControlEnabled := String.eqb rc "true"; rs_config := cfg;
                 rs_keywordMatcher := matcher; rs_configDigest := sha256_hex raw; rs_loadedAt := now |})
        end
    end (λ r : result contentModerationRuntimeSnapshot, ∀ sn', r = Ok sn' -> stored_ok sn')) as Hparse.
  { destruct (parseContentModerationConfig raw) as [cfg|e] eqn:E; [|apply ok_ret; done].
    destruct (newContentModerationKeywordMatcher (cm_BlockedKeywords cfg)) as [m|] eqn:Em; [|apply ok_panic].
    apply ok_any; [quiet|]. intros now. apply Hstore. split; [exact Em|]. cbn.
    unfold parseContentModerationConfig in E. repeat case_match; simplify_eq; eauto. }
  destruct current as [c|]; [|exact Hparse].
  destruct (String.eqb (rs_configDigest c) _); [|exact Hparse].
  apply ok_any; [quiet|]. intros now. apply Hstore. exact (Hcur c eq_refl).
Qed.
#[local] Hint Resolve quiet_refresh : moderation.

Lemma quiet_background : keeps_ok (background_refresh s) (λ _, True).
Proof. unfold background_refresh. apply ok_any; [eapply ok_mono; [apply quiet_refresh|done]|]. intros r. quiet. Qed.

Lemma quiet_trigger : keeps_ok triggerRuntimeSnapshotRefresh (λ _, True).
Proof. unfold triggerRuntimeSnapshotRefresh, runtimeRefreshDeferred. quiet. Qed.

Lemma quiet_load : keeps_ok (loadRuntimeSnapshot s) (λ r, ∀ sn, r = Ok sn -> stored_ok sn).
Proof.
  unfold loadRuntimeSnapshot. destruct (negb _); [by apply ok_ret|]. apply ok_any; [quiet|]. intros now.
  eapply ok_bind; [apply ok_load|]. intros [sn|] Hsn.
  - assert (keeps_ok (Ret (Ok sn) : mprog _) (λ r, ∀ sn', r = Ok sn' -> stored_ok sn')) as Hret.
    { apply ok_ret. intros sn' [= <-]. by apply Hsn. }
    destruct (_ <? _); [done|]. apply ok_any; [apply quiet_trigger|]. by intros _.
  - apply ok_any; [quiet|]. intros _. eapply ok_bind; [apply ok_load|]. intros [sn|] Hsn'.
    + apply ok_any; [quiet|]. intros _. apply ok_ret. intros sn' [= <-]. by apply Hsn'.
    + eapply ok_bind; [apply quiet_refresh|]. intros r Hr. apply ok_any; [quiet|]. intros _. by apply ok_ret.
Qed.

Lemma quiet_replace cfg raw : keeps_ok (replaceRuntimeConfig (normalize cfg) raw) (λ _, True).
Proof.
  unfold replaceRuntimeConfig. apply ok_any; [quiet|]. intros _. apply ok_any; [quiet|]. intros [sn|].
  2: { apply ok_any; [quiet|]. intros _. by apply ok_ret. }
  apply ok_any; [quiet|]. intros _.
  destruct (newContentModerationKeywordMatcher _) as [m|] eqn:Em; [|apply ok_panic].
  apply ok_any; [quiet|]. intros _. apply ok_any; [quiet|]. intros [current|].
  - apply ok_any; [|intros _; quiet]. apply ok_any; [quiet|]. intros now.
    apply ok_call; [|done]. split; [exact Em|]. by exists cfg.
  - apply ok_any; [quiet|]. intros _. quiet.
Qed.

Lemma quiet_usable keys now todo : keeps_ok (usable_key_loop todo keys now) (λ _, True).
Proof. induction todo as [|todo IH]; cbn [usable_key_loop]; quiet. Qed.
Lemma quiet_next cfg : keeps_ok (nextUsableAPIKey cfg) (λ _, True).
Proof. unfold nextUsableAPIKey. quiet. apply quiet_usable. Qed.
Lemma quiet_attempts todo : ∀ attempt attempts cfg payload track e,
  keeps_ok (attempt_loop todo attempt attempts cfg payload track e) (λ _, True).
Proof.
  induction todo as [|todo IH]; intros attempt attempts cfg payload track e; cbn [attempt_loop]; [quiet|].
  apply ok_any; [apply quiet_next|]. intros [key|]; [|quiet]. quiet. apply IH.
Qed.
Lemma quiet_metric latency action : keeps_ok (recordPreBlockSyncMetric latency action) (λ _, True).
Proof. unfold recordPreBlockSyncMetric. quiet. Qed.
Lemma quiet_enqueue input cfg log h a b : keeps_ok (enqueueRecord input cfg log h a b) (λ _, True).
Proof. unfold enqueueRecord, send_task. quiet. Qed.
Lemma quiet_async input cfg content h : keeps_ok (enqueueAsync input cfg content h) (λ _, True).
Proof. unfold enqueueAsync, send_task. quiet. Qed.
Lemma quiet_side_effects cfg log : keeps_ok (applyFlaggedAccountSideEffects s cfg log) (λ _, True).
Proof. unfold applyFlaggedAccountSideEffects. quiet. Qed.
Lemma quiet_notify cfg log b : keeps_ok (sendFlaggedNotificationSideEffects s cfg log b) (λ _, True).
Proof. unfold sendFlaggedNotificationSideEffects, mail. quiet. Qed.
Lemma quiet_persist cfg log h a b : keeps_ok (persistContentModerationLog s cfg log h a b) (λ _, True).
Proof.
  unfold persistContentModerationLog. apply ok_any; [quiet|]. intros _. apply ok_any.
  - destruct b; [|quiet]. apply ok_any; [apply quiet_side_effects|]. intros r. apply quiet_notify.
  - intros l. quiet.
Qed.
Lemma quiet_payload content : keeps_ok (ModerationInput content) (λ _, True).
Proof. unfold ModerationInput. quiet. Qed.
Lemma quiet_sync input cfg content h delay b :
  keeps_ok (checkSync s input cfg content h delay b) (λ _, True).
Proof.
  unfold checkSync. cbv zeta. apply ok_any; [quiet|]. intros _. apply ok_any; [quiet|]. intros start.
  apply ok_any; [apply quiet_payload|]. intros payload.
  apply ok_any; [apply quiet_attempts|]. intros result.
  apply ok_any; [quiet|]. intros finish. apply ok_any; [|intros d; quiet]. destruct result as [scores|e].
  - apply ok_any; [quiet|]. intros entries.
    destruct (evaluateModerationScores _ _ _) as [[flagged hc] hs].
    apply ok_any; [unfold when_tracked; destruct (_ && _); [apply quiet_metric|quiet]|]. intros _.
    apply ok_any; [|intros _; quiet]. destruct (_ || _); [|quiet].
    destruct (_ && _); [apply quiet_enqueue|apply quiet_persist].
  - apply ok_any; [unfold when_tracked; destruct (_ && _); [apply quiet_metric|quiet]|]. intros _. quiet.
Qed.
Lemma quiet_remotely input cfg content h : keeps_ok (check_remotely s input cfg content h) (λ _, True).
Proof.
  unfold check_remotely. cbv zeta. destruct (negb _).
  { apply ok_any; [unfold when_tracked; destruct (String.eqb _ _); [apply quiet_metric|quiet]|]. intros _. quiet. }
  destruct (is_nil _).
  { apply ok_any; [unfold when_tracked; destruct (String.eqb _ _); [apply quiet_metric|quiet]|]. intros _. quiet. }
  destruct (String.eqb _ _); [apply ok_any; [apply quiet_async|]; intros _; quiet|apply quiet_sync].
Qed.
Lemma quiet_hash input cfg content h : keeps_ok (check_hash s input cfg content h) (λ _, True).
Proof.
  unfold check_hash. cbv zeta. apply ok_any; [quiet|]. intros [|]; [|apply quiet_remotely].
  apply ok_any; [unfold when_tracked; destruct (String.eqb _ _); [apply quiet_metric|quiet]|]. intros _.
  apply ok_any; [apply quiet_enqueue|]. intros _. quiet.
Qed.
Lemma quiet_content input sn content : keeps_ok (check_content s input sn content) (λ _, True).
Proof.
  unfold check_content. cbv zeta. destruct (String.eqb _ _); [|apply quiet_hash].
  set (hit := if _ && _ then _ else _). destruct hit as [[kw|]|]; [| |apply ok_panic].
  - apply ok_any; [apply quiet_metric|]. intros _. apply ok_any; [apply quiet_enqueue|]. intros _. quiet.
  - destruct (String.eqb _ _); [apply ok_any; [apply quiet_metric|]; intros _; quiet|apply quiet_hash].
Qed.
Lemma quiet_Check input : keeps_ok (Check s input) (λ _, True).
Proof.
  unfold Check. destruct (_ || _); [quiet|]. eapply ok_bind; [apply quiet_load|].
  intros [sn|e] _; [|quiet]. cbv zeta. repeat (case_match; [quiet|]). apply quiet_content.
Qed.
Lemma quiet_worker id : keeps_ok (worker_turn s id) (λ _, True).
Proof.
  unfold worker_turn. eapply ok_bind; [apply quiet_load|]. intros [sn|e] _; [|quiet].
  destruct (_ <=? _); [quiet|]. apply ok_any; [quiet|]. intros [task|]; [|quiet].
  unfold worker_task. destruct (tk_log task) as [log|].
  - apply ok_any; [quiet|]. intros _. apply ok_any; [quiet|]. intros now. cbv zeta.
    apply ok_any; [apply quiet_persist|]. intros _. quiet.
  - repeat (case_match; [quiet|]). apply ok_any; [quiet|]. intros _. apply ok_any; [quiet|]. intros now.
    cbv zeta. apply ok_any; [apply quiet_sync|]. intros _. quiet.
Qed.
Lemma quiet_load_config : keeps_ok loadConfig (λ _, True).
Proof. unfold loadConfig. quiet. Qed.
Lemma quiet_validate cfg : keeps_ok (validateConfig s cfg) (λ _, True).
Proof. unfold validateConfig, check_platforms. quiet. Qed.
Lemma quiet_Update inp : keeps_ok (UpdateConfig s inp) (λ _, True).
Proof.
  unfold UpdateConfig. apply ok_any; [apply quiet_load_config|]. intros [cfg|e]; [|quiet].
  apply ok_any; [apply quiet_validate|]. intros [cfg'|e]; [|quiet]. cbv zeta.
  destruct (encode_config _); [|quiet]. apply ok_any; [quiet|]. intros [|]; [|quiet].
  apply ok_any; [apply quiet_replace|]. intros _. quiet.
Qed.
Lemma quiet_cyber inp : keeps_ok (RecordCyberPolicyEvent s inp) (λ _, True).
Proof.
  unfold RecordCyberPolicyEvent, isRiskControlEnabled. destruct (negb _); [quiet|].
  apply ok_any; [quiet|]. intros enabled. destruct (negb enabled); [quiet|].
  apply ok_any; [apply quiet_load_config|]. intros loaded. cbv zeta.
  apply ok_any; [destruct (cm_CyberPolicyExcludeFromBanCount _); [quiet|apply quiet_side_effects]|].
  intros [autoBanned log]. quiet.
Qed.

End Snapshots.

(** The automaton of a stored snapshot finds what the direct search finds. *)
Lemma stored_match {UC : UnicodeCase} {MH : ModerationHost} sn text :
  lower_law -> lower_size -> stored_ok sn ->
  snapshot_matchBlockedKeyword sn text
  = Some (matchBlockedKeyword text (cm_BlockedKeywords (rs_config sn))).
Proof.
  intros Hlaw Hsize [Hm [cfg Hcfg]]. destruct (normalised_keywords_small Hsize cfg) as [H1 H2].
  rewrite <- Hcfg in H1, H2.
  destruct (automaton_agrees _ Hlaw H1 H2) as (m & Hm' & Hall). rewrite Hm in Hm'. injection Hm' as <-.
  unfold snapshot_matchBlockedKeyword. destruct (rs_keywordMatcher sn) as [m|] eqn:E; [apply Hall|done].
Qed.

(** What may be started at any time. *)
Section Everything.
Context {UC : UnicodeCase} {MH : ModerationHost} (s : ContentModerationService).

Local Abbreviation run p := (Thread _ p (λ _ _, True)).
Inductive moderation_thread : @thread msvc MWorld -> Prop :=
| mt_check input : moderation_thread (run (Check s input))
| mt_worker id : moderation_thread (run (worker_turn s id))
| mt_refresh : moderation_thread (run (background_refresh s))
| mt_update inp : moderation_thread (run (UpdateConfig s inp))
| mt_cyber inp : moderation_thread (run (RecordCyberPolicyEvent s inp)).

Definition moderation_step := pool_step performs moderation_thread time_passes.

Lemma moderation_world w w' ts :
  rtc moderation_step (w, []) (w', ts) -> mw_snapshot w = None -> world_ok w'.
Proof.
  intros H Hw.
  assert (∀ A (p : mprog A) v, keeps_ok p (λ _, True) -> world_ok v ->
            th_safe performs world_ok any_later v (run p)) as Hrun by (intros A p v Hp Hv; by apply Hp).
  assert (world_ok w) as Hok by (intros sn Hsn; congruence).
  refine (proj1 (pool_safe performs world_ok any_later moderation_thread time_passes _ _ w [] w' ts H Hok _)).
  - intros t v Ht Hv. destruct Ht; (apply Hrun; [|done]).
    + apply quiet_Check.
    + apply quiet_worker.
    + apply quiet_background.
    + apply quiet_Update.
    + apply quiet_cyber.
  - intros v v' Hv [t ->]. split; [exact Hv|done].
  - constructor.
Qed.

(** C27. However checks, workers, refreshes and updates of the settings
    interleave, the snapshot that is stored holds normalised settings and the
    automaton of exactly their keywords: matching a text with it never panics
    and finds the first keyword of the settings that the text contains. *)
Theorem stored_keywords_match w w' ts sn text :
  lower_law -> lower_size ->
  rtc moderation_step (w, []) (w', ts) -> mw_snapshot w = None -> mw_snapshot w' = Some sn ->
  (∃ cfg, rs_config sn = normalize cfg) /\
  snapshot_matchBlockedKeyword sn text
  = Some (matchBlockedKeyword text (cm_BlockedKeywords (rs_config sn))).
Proof.
  intros Hlaw Hsize H Hw Hsn. pose proof (moderation_world _ _ _ H Hw sn Hsn) as Hok.
  split; [apply Hok|by apply stored_match].
Qed.

End Everything.
