(* ===== verification/ModerationBlocks.v ===== *)
(** * Content moderation: what a check decides

    Which keys a review calls, and how often; and why a request is blocked, in
    terms of the keywords of the settings and the direct search for them.
    [adds] states what holds of the calls that a program adds to a trace,
    whatever they answer. *)

From S2P Require Import Prelude GoErrors Prog Float64 GoTime GoStrings GoText KeywordMatcher KeywordMatcherProps ModerationInput ModerationConfig Moderation ModerationProps.
From Stdlib Require Import Ascii String.

Open Scope prog_scope.

(** ** What the calls of a program were *)

Definition moderation_call : Type :=
  ContentModerationConfig * string * moderation_payload * (result (gmap string float64) * Z).

Definition ev_moderation (e : event msvc) : option moderation_call :=
  match e with
  | Ev c b => match c in msvc B return B -> option moderation_call with
              | MModerate cfg key payload => λ b, Some (cfg, key, payload, b)
              | _ => λ _, None end b
  end.
Definition ev_unfrozen (e : event msvc) : option string :=
  match e with
  | Ev c b => match c in msvc B return B -> option string with
              | MFrozen key _ => λ frozen : bool, if frozen then None else Some key
              | _ => λ _, None end b
  end.
(** The calls to the moderation service, and the keys that were found usable. *)
Definition moderations (tr : mtrace) : list moderation_call := omap ev_moderation tr.
Definition unfrozen (tr : mtrace) : list string := omap ev_unfrozen tr.

(** What holds of the calls that a program adds. *)
Definition adds {A} (p : mprog A) (Q : mtrace -> A -> Prop) : Prop :=
  ∀ tr, always p tr (λ tr' a, ∃ new, tr' = new ++ tr /\ Q new a).

Lemma adds_ret {A} (a : A) (Q : mtrace -> A -> Prop) : Q [] a -> adds (Ret a) Q.
Proof. intros H tr. cbn. by exists []. Qed.
Lemma adds_bind {A B} (p : mprog A) (f : A -> mprog B) (R : mtrace -> A -> Prop) Q :
  adds p R -> (∀ old a, R old a -> adds (f a) (λ new b, Q (new ++ old) b)) -> adds (pbind p f) Q.
Proof.
  intros Hp Hf tr. apply always_bind. eapply always_then; [apply Hp|].
  intros tr1 a (old & -> & HR). eapply always_then; [apply (Hf old a HR)|].
  intros tr2 b (new & -> & HQ). exists (new ++ old). by rewrite app_assoc.
Qed.
Lemma adds_call {B} (c : msvc B) (Q : mtrace -> B -> Prop) : (∀ b, Q [Ev c b] b) -> adds (call c) Q.
Proof. intros H tr b. by exists [Ev c b]. Qed.
Lemma adds_mono {A} (p : mprog A) (Q Q' : mtrace -> A -> Prop) :
  adds p Q -> (∀ new a, Q new a -> Q' new a) -> adds p Q'.
Proof.
  intros H HQ tr. eapply always_then; [apply H|]. intros tr' a (new & -> & HR). exists new. auto.
Qed.
Lemma adds_and {A} (p : mprog A) (Q Q' : mtrace -> A -> Prop) :
  adds p Q -> adds p Q' -> adds p (λ new a, Q new a /\ Q' new a).
Proof.
  intros H H' tr. eapply always_then; [apply (always_and _ _ _ _ (H tr) (H' tr))|].
  intros tr' a [(new & -> & HQ) (new' & Heq & HQ')]. apply app_inv_tail in Heq as <-. by exists new.
Qed.
(** What is returned, whatever is called. *)
Definition returns {A} (p : mprog A) (Q : A -> Prop) : Prop := adds p (λ _ a, Q a).
Lemma returns_ret {A} (a : A) (Q : A -> Prop) : Q a -> returns (Ret a) Q.
Proof. intros H. by apply adds_ret. Qed.
Lemma returns_after {A B} (p : mprog A) (f : A -> mprog B) (Q : B -> Prop) :
  (∀ a, returns (f a) Q) -> returns (pbind p f) Q.
Proof.
  intros H. eapply (adds_bind _ _ (λ _ _, True)).
  - intros tr. eapply always_then; [apply always_grows|]. intros tr' a [new ->]. by exists new.
  - intros old a _. apply H.
Qed.
Lemma adds_panic {A} (Q : mtrace -> A -> Prop) : adds panic Q.
Proof. intros tr b. destruct b. Qed.

(** Programs that do not call the moderation service. *)
Definition local {A} (p : mprog A) : Prop := adds p (λ new _, moderations new = []).

Lemma local_ret {A} (a : A) : local (Ret a).
Proof. by apply adds_ret. Qed.
Lemma local_bind {A B} (p : mprog A) (f : A -> mprog B) : local p -> (∀ a, local (f a)) -> local (pbind p f).
Proof.
  intros Hp Hf. eapply adds_bind; [exact Hp|]. intros old a Ho. eapply adds_mono; [apply Hf|].
  intros new b Hn. unfold moderations in *. by rewrite omap_app, Hn, Ho.
Qed.
Lemma local_call {B} (c : msvc B) :
  match c with MModerate _ _ _ => False | _ => True end -> local (call c).
Proof. intros H. apply adds_call. intros b. by destruct c. Qed.
Lemma local_panic {A} : local (panic : mprog A).
Proof. apply adds_panic. Qed.

#[export] Hint Resolve local_ret local_panic : moderation.

(** A walk through a program that makes no call to the service. *)
Ltac locally :=
  repeat first
    [ apply local_ret
    | apply local_panic
    | apply local_call; exact I
    | apply local_bind; [|intros ?]
    | progress cbv zeta
    | match goal with |- local (match ?x with _ => _ end) => destruct x end
    | progress unfold count, when_tracked ].

(** A call of another kind leaves the list alone. *)
Lemma adds_other {A B} (c : msvc B) (f : B -> mprog A) (Q : mtrace -> A -> Prop) :
  (∀ b, adds (f b) (λ new a, Q (new ++ [Ev c b]) a)) -> adds (pbind (call c) f) Q.
Proof.
  intros H. eapply adds_bind; [apply (adds_call c (λ new b, new = [Ev c b])); done|].
  intros old b ->. apply H.
Qed.

Lemma adds_local {A B} (p : mprog A) (f : A -> mprog B) (Q : mtrace -> B -> Prop) :
  local p -> (∀ old a, moderations old = [] -> adds (f a) (λ new b, Q (new ++ old) b)) -> adds (pbind p f) Q.
Proof. intros Hp Hf. by eapply adds_bind. Qed.

Lemma moderations_app a b : moderations (a ++ b) = moderations a ++ moderations b.
Proof. apply omap_app. Qed.
Lemma unfrozen_app a b : unfrozen (a ++ b) = unfrozen a ++ unfrozen b.
Proof. apply omap_app. Qed.

(** ** The keys that are called *)

Section Calls.
Context {UC : UnicodeCase} {MH : ModerationHost} (s : ContentModerationService).
Variable cfg : ContentModerationConfig.
Variable payload : moderation_payload.

(** A key of the settings that was just found usable. *)
Definition proper_call (new : mtrace) (c : moderation_call) : Prop :=
  ∃ key answer, c = (cfg, key, payload, answer) /\ key ∈ apiKeys cfg /\ key ∈ unfrozen new.

Definition answered (new : mtrace) (r : result (gmap string float64)) : Prop :=
  ∀ scores, r = Ok scores <-> ∃ key status, (cfg, key, payload, (Ok scores, status)) ∈ moderations new.

Lemma proper_later old new c : proper_call old c -> proper_call (new ++ old) c.
Proof.
  intros (key & answer & -> & Hk & Hu). exists key, answer. split_and!; [done..|].
  rewrite unfrozen_app. set_solver.
Qed.

Lemma usable_key_calls keys now todo : adds (usable_key_loop todo keys now)
  (λ new r, moderations new = [] /\ ∀ key, r = Some key -> key ∈ keys /\ key ∈ unfrozen new).
Proof.
  induction todo as [|todo IH]; cbn [usable_key_loop]; [by apply adds_ret|].
  apply adds_other. intros cursor. destruct (at_ keys _) as [key|] eqn:E; [|apply adds_panic].
  apply adds_other. intros [|].
  - eapply adds_mono; [apply IH|]. intros new r [Hm Hk]. rewrite !moderations_app, Hm. split; [done|].
    intros k Hr. rewrite !unfrozen_app. specialize (Hk k Hr). set_solver.
  - apply adds_ret. split; [done|]. intros k [= <-]. split; [|set_solver].
    unfold at_ in E. destruct (_ <? _); [done|]. by eapply list_elem_of_lookup_2.
Qed.

Lemma next_key_calls : adds (nextUsableAPIKey cfg)
  (λ new r, moderations new = [] /\ ∀ key, r = Some key -> key ∈ apiKeys cfg /\ key ∈ unfrozen new).
Proof.
  unfold nextUsableAPIKey. destruct (is_nil _); [by apply adds_ret|]. apply adds_other. intros now.
  eapply adds_mono; [apply usable_key_calls|]. intros new r [Hm Hk].
  rewrite moderations_app, Hm. split; [done|]. intros key Hr. rewrite unfrozen_app.
  specialize (Hk key Hr). set_solver.
Qed.

Definition attempt_spec (todo : nat) (new : mtrace) (r : result (gmap string float64)) : Prop :=
  (List.length (moderations new) <= todo)%nat /\ Forall (proper_call new) (moderations new) /\ answered new r.

(** What is called after one call that failed. *)
Lemma attempt_after todo old new r c :
  attempt_spec todo new r -> moderations old = [c] -> proper_call old c ->
  (∀ scores status, c.2 ≠ (Ok scores, status)) -> attempt_spec (S todo) (new ++ old) r.
Proof.
  intros (Hl & Hp & Ha) Ho Hc Herr. unfold attempt_spec. rewrite moderations_app, Ho, length_app. split_and!.
  - simpl. lia.
  - apply Forall_app. split; [|by repeat constructor; apply proper_later].
    eapply Forall_impl; [exact Hp|]. intros d (key & answer & -> & Hk & Hu).
    exists key, answer. split_and!; [done..|]. rewrite unfrozen_app. set_solver.
  - intros scores. rewrite (Ha scores), moderations_app, Ho. split.
    + intros (key & status & Hin). exists key, status. set_solver.
    + intros (key & status & Hin). exists key, status. apply elem_of_app in Hin as [Hin|Hin]; [done|].
      apply list_elem_of_singleton in Hin. specialize (Herr scores status). by rewrite <- Hin in Herr.
Qed.

Lemma answered_ok new key scores status : moderations new = [(cfg, key, payload, (Ok scores, status))] ->
  answered new (Ok scores).
Proof.
  intros Hm sc. rewrite Hm. split.
  - intros [= <-]. exists key, status. set_solver.
  - intros (k & st & Hin%list_elem_of_singleton). by simplify_eq.
Qed.
Lemma answered_err new key e status e' : moderations new = [(cfg, key, payload, (Err e, status))] ->
  answered new (Err e').
Proof. intros Hm sc. rewrite Hm. split; [done|]. intros (k & st & Hin%list_elem_of_singleton). by simplify_eq. Qed.
Lemma answered_none new e : moderations new = [] -> answered new (Err e).
Proof. intros Hm sc. rewrite Hm. split; [done|]. intros (k & st & Hin). set_solver. Qed.

(** A last call, and its result. *)
Lemma attempt_last todo new r c : moderations new = [c] -> proper_call new c -> answered new r ->
  attempt_spec (S todo) new r.
Proof. intros Hm Hp Ha. unfold attempt_spec. rewrite Hm. split_and!; [simpl; lia|by repeat constructor|done]. Qed.

Lemma adds_after {A} (p : mprog A) old (Q : mtrace -> A -> Prop) :
  local p -> (∀ new a, moderations new = [] -> Q (new ++ old) a) -> adds p (λ new a, Q (new ++ old) a).
Proof. intros Hp HQ. eapply adds_mono; [exact Hp|]. intros new a Hn. by apply HQ. Qed.

Lemma attempts_calls todo : ∀ attempt attempts track e,
  adds (attempt_loop todo attempt attempts cfg payload track e) (attempt_spec todo).
Proof.
  induction todo as [|todo IH]; intros attempt attempts track e; cbn [attempt_loop].
  { apply adds_ret. unfold attempt_spec. simpl. split_and!; [lia|constructor|by apply answered_none]. }
  eapply adds_bind; [apply next_key_calls|]. intros old [key|] [Ho Hk]; cbv beta.
  2: { apply adds_ret. unfold attempt_spec. simpl. rewrite Ho. split_and!; [simpl; lia|constructor|by apply answered_none]. }
  destruct (Hk key eq_refl) as [Hin Hu].
  apply adds_local; [locally|]. intros old1 _ Ho1.
  apply adds_other. intros start. apply adds_other. intros answer. apply adds_other. intros finish. cbv zeta.
  set (new0 := [Ev MNow finish] ++ [Ev (MModerate cfg key payload) answer] ++ [Ev MNow start] ++ old1 ++ old).
  assert (moderations new0 = [(cfg, key, payload, answer)]) as Hm0.
  { unfold new0. rewrite !moderations_app, Ho, Ho1. reflexivity. }
  assert (proper_call new0 (cfg, key, payload, answer)) as Hp0.
  { exists key, answer. split_and!; [done..|]. unfold new0. rewrite !unfrozen_app. set_solver. }
  assert (∀ A (p : mprog A) (Q : mtrace -> A -> Prop), adds p (λ new r, Q (new ++ new0) r) ->
    adds p (λ new r, Q ((((new ++ [Ev MNow finish]) ++ [Ev (MModerate cfg key payload) answer]) ++
                          [Ev MNow start]) ++ old1 ++ old) r)) as Hre.
  { intros A p Q H. eapply adds_mono; [exact H|]. intros new r. unfold new0. by rewrite <- !app_assoc. }
  assert (∀ new, moderations new = [] -> moderations (new ++ new0) = [(cfg, key, payload, answer)]) as Hone
    by (intros new Hn; by rewrite moderations_app, Hn, Hm0).
  eapply adds_mono; [|intros new r H; rewrite <- !app_assoc in *; exact H].
  eapply (adds_mono _ (λ new r, attempt_spec (S todo) (new ++ new0) r));
    [|intros new r H; unfold new0 in H; rewrite <- ?app_assoc in *; exact H].
  destruct answer as [[scores|err] status]; cbn [fst snd].
  - apply (adds_local _ _ (λ new r, attempt_spec (S todo) (new ++ new0) r)); [locally|]. intros o1 _ Ho'.
    apply (adds_other _ _ (λ new r, attempt_spec (S todo) ((new ++ o1) ++ new0) r)). intros u.
    apply adds_ret. cbn [app]. rewrite app_comm_cons.
    eapply attempt_last; [apply Hone; exact Ho'|by apply proper_later|].
    eapply answered_ok, Hone, Ho'.
  - apply (adds_local _ _ (λ new r, attempt_spec (S todo) (new ++ new0) r)); [locally|]. intros o1 _ Ho'.
    apply (adds_other _ _ (λ new r, attempt_spec (S todo) ((new ++ o1) ++ new0) r)). intros u.
    set (new1 := [Ev (MMarkError key (error_text err) (milliseconds (time_sub finish start)) status) u] ++ o1).
    assert (moderations new1 = []) as Hn1 by exact Ho'.
    assert (∀ e', attempt_spec (S todo) (new1 ++ new0) (Err e')) as Hstop.
    { intros e'. eapply attempt_last; [by apply Hone|by apply proper_later|by eapply answered_err, Hone]. }
    destruct (status =? 400); [apply adds_ret, Hstop|]. destruct (attempt =? attempts - 1); [apply adds_ret, Hstop|].
    apply (adds_other _ _ (λ new r, attempt_spec (S todo) (((new ++ [_]) ++ o1) ++ new0) r)). intros [ctxErr|].
    + apply adds_ret. cbn [app]. rewrite !app_comm_cons.
      eapply attempt_last; [by apply Hone|by apply proper_later|by eapply answered_err, Hone].
    + eapply adds_mono; [apply IH|]. intros new r H.
      replace ((((new ++ [Ev (MSleep (100 * (attempt + 1) * 1000000)) None]) ++
                 [Ev (MMarkError key (error_text err) (milliseconds (time_sub finish start)) status) u]) ++ o1) ++ new0)
        with (new ++ ([Ev (MSleep (100 * (attempt + 1) * 1000000)) None] ++ new1) ++ new0)
        by (unfold new1; by rewrite <- !app_assoc).
      eapply attempt_after; [exact H|by apply Hone|by apply proper_later|done].
Qed.

Definition review_spec (new : mtrace) (r : result (gmap string float64)) : Prop :=
  len_ (moderations new) <= Z.min 6 (Z.max 1 (cm_RetryCount cfg + 1)) /\
  Forall (proper_call new) (moderations new) /\ answered new r.

Lemma review_calls track : adds (callModeration cfg payload track) review_spec.
Proof.
  eapply adds_mono; [apply attempts_calls|]. intros new r (Hl & Hp & Ha). split_and!; [|done..].
  unfold len_, attempts_of, maxContentModerationRetryCount in *.
  destruct (Z.leb_spec (cm_RetryCount cfg + 1) 0); cbn in Hl |- *; repeat case_match; lia.
Qed.

(** One review calls the service at most [RetryCount + 1] times and never
    more than six times; every call uses a key of the settings that was found
    unfrozen during this review; and it returns scores exactly when one of the
    calls answered them. *)
Theorem review_calls_bounded track : adds (callModeration cfg payload track)
  (λ new r, len_ (moderations new) <= Z.min 6 (Z.max 1 (cm_RetryCount cfg + 1)) /\
            Forall (proper_call new) (moderations new) /\ answered new r).
Proof. apply review_calls. Qed.

End Calls.

(** ** Why a request is blocked *)

Definition ev_hash (e : event msvc) : option (string * result bool) :=
  match e with
  | Ev c b => match c in msvc B return B -> option (string * result bool) with
              | MHasHash h => λ b, Some (h, b)
              | _ => λ _, None end b
  end.
(** The hashes that were looked up, and the answers. *)
Definition hashes (tr : mtrace) : list (string * result bool) := omap ev_hash tr.
Lemma hashes_app a b : hashes (a ++ b) = hashes a ++ hashes b.
Proof. apply omap_app. Qed.

Definition other_call (B : Type) (c : msvc B) : Prop :=
  match c with MHasHash _ => False | _ => True end.
Lemma only_panic (P : ∀ B, msvc B -> Prop) {A} : P _ MPanic -> only P (panic : mprog A).
Proof. intros H. split; [done|]. intros b. destruct b. Qed.
Ltac unhashed :=
  repeat first
    [ exact I
    | apply only_panic; exact I
    | apply only_call; exact I
    | apply only_bind; [|intros ?]
    | progress cbv zeta
    | match goal with |- only _ (match ?x with _ => _ end) => destruct x end
    | progress unfold count, when_tracked ].

Lemma adds_unhashed {A} (p : mprog A) (Q : mtrace -> A -> Prop) :
  only other_call p -> adds p Q -> adds p (λ new a, hashes new = [] /\ Q new a).
Proof.
  intros Ho Hp tr. eapply always_then; [apply always_and; [apply Hp|apply (only_same other_call hashes _ _)]|].
  - intros B c b t Hc. by destruct c.
  - exact Ho.
  - intros tr' a [(new & -> & HQ) Hh]. exists new. split_and!; [done| |done].
    rewrite hashes_app in Hh. destruct (hashes new) as [|x l]; [done|].
    apply (f_equal (@List.length _)) in Hh. simpl in Hh. rewrite length_app in Hh. lia.
Qed.

Section Blocked.
Context {UC : UnicodeCase} {MH : ModerationHost} (s : ContentModerationService).

Lemma unhashed_usable keys now todo : only other_call (usable_key_loop todo keys now).
Proof. induction todo as [|todo IH]; cbn [usable_key_loop]; unhashed. exact IH. Qed.
Lemma unhashed_attempts todo : ∀ attempt attempts cfg payload track e,
  only other_call (attempt_loop todo attempt attempts cfg payload track e).
Proof.
  induction todo as [|todo IH]; intros attempt attempts cfg payload track e; cbn [attempt_loop]; [exact I|].
  apply only_bind; [unfold nextUsableAPIKey; unhashed; apply unhashed_usable|].
  intros [key|]; [|exact I]. unhashed. apply IH.
Qed.

Definition preBlock (cfg : ContentModerationConfig) : Prop := cm_Mode cfg = ContentModerationModePreBlock.

(** A keyword of the settings occurs in the text, cases apart. *)
Definition contains_keyword (sn : contentModerationRuntimeSnapshot) (text : string) : Prop :=
  ∃ kw, kw ∈ cm_BlockedKeywords (rs_config sn) /\ kw ≠ EmptyString /\
    Contains (ToLower text) (ToLower kw) = true.
Definition keyword_hit (sn : contentModerationRuntimeSnapshot) (content : ContentModerationInput) : Prop :=
  preBlock (rs_config sn) /\
  cm_KeywordBlockingMode (rs_config sn) ≠ ContentModerationKeywordModeAPIOnly /\
  contains_keyword sn (in_Text content).
Definition keyword_only (sn : contentModerationRuntimeSnapshot) : Prop :=
  preBlock (rs_config sn) /\ cm_KeywordBlockingMode (rs_config sn) = ContentModerationKeywordModeKeywordOnly.
Definition hash_known (content : ContentModerationInput) (new : mtrace) : Prop :=
  (Hash content, Ok true) ∈ hashes new.
Definition flagged_by (cfg : ContentModerationConfig) (scores : gmap string float64) : Prop :=
  ∃ category, category ∈ contentModerationCategoryOrder /\
    fgeb (score_of scores category) (score_of (cm_Thresholds cfg) category) = true.
Definition scores_over (cfg : ContentModerationConfig) (new : mtrace) : Prop :=
  preBlock cfg /\ ∃ key payload scores status,
    (cfg, key, payload, (Ok scores, status)) ∈ moderations new /\ flagged_by cfg scores.

Definition decided (d : ContentModerationDecision) (P : Prop) : Prop :=
  (dc_Blocked d = true <-> P) /\ dc_Allowed d = negb (dc_Blocked d).

Lemma decided_iff d (P P' : Prop) : decided d P -> (P <-> P') -> decided d P'.
Proof. intros [H1 H2] HP. split; [by rewrite H1|done]. Qed.
Lemma decided_allow (P : Prop) : ¬ P -> decided allow P.
Proof. intros H. by repeat split. Qed.

Lemma evaluate_flagged scores entries cfg :
  (evaluateModerationScores scores entries (cm_Thresholds cfg)).1.1 = true <-> flagged_by cfg scores.
Proof.
  unfold evaluateModerationScores, flagged_by. cbv zeta. cbn [fst]. rewrite existsb_exists.
  split; intros (c & Hc & H); exists c; (split; [by apply list_elem_of_In|done]).
Qed.

Lemma local_payload content : local (ModerationInput content).
Proof. unfold ModerationInput. locally. Qed.

Lemma unhashed_sync input cfg content h delay b : only other_call (checkSync s input cfg content h delay b).
Proof.
  unfold checkSync. cbv zeta. apply only_bind; [unhashed|]. intros _. apply only_bind; [unhashed|]. intros start.
  apply only_bind; [unfold ModerationInput; unhashed|]. intros payload.
  apply only_bind; [apply unhashed_attempts|]. intros r.
  unfold recordPreBlockSyncMetric, enqueueRecord, send_task, persistContentModerationLog,
    applyFlaggedAccountSideEffects, sendFlaggedNotificationSideEffects, mail. unhashed.
Qed.

Ltac quiet_events :=
  repeat match goal with |- context [moderations [Ev ?c ?b]] =>
    change (moderations [Ev c b]) with (@nil moderation_call) end.

(** The review of a request that waits for it. *)
Lemma sync_decides input cfg content h :
  adds (checkSync s input cfg content h None true) (λ new d, decided d (scores_over cfg new)).
Proof.
  unfold checkSync. cbv zeta. cbn [andb]. apply adds_local; [locally|]. intros o0 _ Ho0.
  apply adds_other. intros start. apply adds_local; [apply local_payload|]. intros o1 payload Ho1.
  eapply adds_bind; [apply review_calls|]. intros old result (_ & Hcalls & Hans). cbv beta.
  eapply adds_mono; [apply adds_and with (Q := λ new _, moderations new = [])
    (Q' := λ _ d, decided d (preBlock cfg /\ ∃ scores, result = Ok scores /\ flagged_by cfg scores))|].
  - unfold recordPreBlockSyncMetric, enqueueRecord, send_task, persistContentModerationLog,
      applyFlaggedAccountSideEffects, sendFlaggedNotificationSideEffects, mail. locally.
  - apply returns_after. intros finish.
    eapply adds_bind; [|intros o d Hd; apply returns_after; intros _; apply adds_ret; exact Hd].
    destruct result as [scores|e].
    + apply returns_after. intros entries.
      pose proof (evaluate_flagged scores (`entries) cfg) as Hf.
      destruct (evaluateModerationScores _ _ _) as [[flagged hc] hs]. cbn [fst snd] in Hf.
      do 2 (apply returns_after; intros _). apply adds_ret. unfold decided, preBlock.
      destruct (String.eqb_spec (cm_Mode cfg) ContentModerationModePreBlock) as [Hm|Hm], flagged;
        cbn [andb]; (split; [|done]); (split; [intros Hb|intros (Hb & sc & Hsc & Hfl)]); simplify_eq/=; try done.
      * split; [done|]. exists scores. split; [done|]. by apply Hf.
      * by apply Hf in Hfl.
    + do 3 (apply returns_after; intros _). apply adds_ret. apply decided_allow. by intros (_ & sc & ? & _).
  - intros new d [Hn Hd]. eapply decided_iff; [exact Hd|]. unfold scores_over.
    match goal with |- _ <-> _ /\ ∃ _ _ _ _, _ ∈ moderations ?t /\ _ =>
      assert (moderations t = moderations old) as -> by
        (rewrite !moderations_app, Hn, Ho1, Ho0; quiet_events; by rewrite !app_nil_r) end.
    apply and_iff_compat_l. split.
    + intros (scores & Hr & Hf). apply Hans in Hr as (key & status & Hin). by exists key, payload, scores, status.
    + intros (key & p & scores & status & Hin & Hf). exists scores. split; [|done]. apply Hans.
      rewrite Forall_forall in Hcalls. destruct (Hcalls _ Hin) as (k & a & Heq & _). simplify_eq. eauto.
Qed.

Lemma scores_over_app cfg a b : moderations b = [] -> scores_over cfg (a ++ b) <-> scores_over cfg a.
Proof. intros Hb. unfold scores_over. by rewrite moderations_app, Hb, app_nil_r. Qed.
Lemma scores_over_none cfg tr : moderations tr = [] -> ¬ scores_over cfg tr.
Proof. intros H (_ & key & p & sc & st & Hin & _). rewrite H in Hin. by apply not_elem_of_nil in Hin. Qed.

(** A program that only counts and enqueues, and its decision. *)
Lemma adds_quiet {A} (p : mprog A) (Q : A -> Prop) :
  only other_call p -> local p -> returns p Q ->
  adds p (λ new a, hashes new = [] /\ moderations new = [] /\ Q a).
Proof.
  intros H1 H2 H3. apply adds_unhashed; [done|]. by apply adds_and.
Qed.

Lemma remotely_decides input cfg content h :
  adds (check_remotely s input cfg content h) (λ new d, hashes new = [] /\ decided d (scores_over cfg new)).
Proof.
  apply adds_unhashed.
  { unfold check_remotely, recordPreBlockSyncMetric, enqueueAsync, send_task.
    repeat case_match; first [apply unhashed_sync|unhashed]. }
  assert (∀ p, local p -> returns p (eq allow) -> adds p (λ new d, decided d (scores_over cfg new))) as Hallow.
  { intros p H1 H2. eapply adds_mono; [apply (adds_and _ _ _ H1 H2)|]. intros new d [Hn <-].
    by apply decided_allow, scores_over_none. }
  unfold check_remotely. cbv zeta.
  repeat match goal with |- adds (if ?b then _ else _) _ => destruct b end;
    try (apply Hallow; [unfold recordPreBlockSyncMetric, enqueueAsync, send_task; locally|
                        apply returns_after; intros _; by apply returns_ret]).
  apply sync_decides.
Qed.

Lemma hash_decides input cfg content h :
  adds (check_hash s input cfg content h)
    (λ new d, decided d ((h, Ok true) ∈ hashes new \/ scores_over cfg new)).
Proof.
  unfold check_hash. cbv zeta. eapply (adds_bind _ _ (λ new matched, moderations new = [] /\
    (matched = true <-> (h, Ok true) ∈ hashes new))).
  { destruct (_ && _).
    - apply adds_other. intros r. apply adds_ret. split; [done|].
      destruct r as [[|]|]; cbn; set_solver.
    - apply adds_ret. cbn. set_solver. }
  intros old [|] [Ho Hm].
  - eapply adds_mono; [apply (adds_quiet _ (λ d, dc_Blocked d = true /\ dc_Allowed d = false))|].
    + unfold recordPreBlockSyncMetric, enqueueRecord, send_task. unhashed.
    + unfold recordPreBlockSyncMetric, enqueueRecord, send_task. locally.
    + do 2 (apply returns_after; intros _). by apply returns_ret.
    + intros new d (Hh & Hn & Hb & Ha). unfold decided. rewrite Hb, Ha. split; [|done].
      split; [intros _|done]. left. rewrite hashes_app, Hh. by apply Hm.
  - eapply adds_mono; [apply remotely_decides|]. intros new d [Hh Hd].
    eapply decided_iff; [exact Hd|]. rewrite hashes_app, Hh, scores_over_app by done.
    split; [by right|]. intros [Hk|?]; [|done]. by apply Hm in Hk.
Qed.

(** What a request in scope is blocked for. *)
Definition block_reason (sn : contentModerationRuntimeSnapshot) (content : ContentModerationInput)
    (new : mtrace) : Prop :=
  keyword_hit sn content \/
  ¬ keyword_only sn /\ (hash_known content new \/ scores_over (rs_config sn) new).

Lemma direct_search text keywords : lower_law ->
  is_Some (matchBlockedKeyword text keywords) <->
  ∃ kw, kw ∈ keywords /\ kw ≠ EmptyString /\ Contains (ToLower text) (ToLower kw) = true.
Proof.
  intros Hlaw. unfold matchBlockedKeyword. destruct (str_empty text) eqn:Et.
  { cbn. apply str_empty_true in Et as ->. split; [by intros [? ?]|]. intros (kw & _ & Hne & Hc). exfalso.
    apply (ToLower_nonempty kw Hlaw Hne). unfold Contains in Hc. change (to_bytes (ToLower "")) with (@nil ascii) in Hc.
    by destruct (to_bytes (ToLower kw)). }
  assert ((if false || (len_ keywords =? 0) then None else first_contained (ToLower text) keywords)
    = first_contained (ToLower text) keywords) as -> by (by destruct keywords).
  induction keywords as [|kw rest IH]; cbn [first_contained].
  { split; [by intros [? ?]|]. intros (kw & Hin & _). by apply elem_of_nil in Hin. }
  assert (∀ P : string -> Prop, (∃ k, k ∈ kw :: rest /\ P k) <-> P kw \/ ∃ k, k ∈ rest /\ P k) as Hc.
  { intros P. split; [intros (k & [->|Hk]%elem_of_cons & HP); eauto|].
    intros [HP|(k & Hk & HP)]; [exists kw|exists k]; (split; [set_solver|done]). }
  rewrite Hc, <- IH. destruct (str_empty kw) eqn:Ek.
  - apply str_empty_true in Ek as ->. tauto.
  - apply str_empty_false in Ek. destruct (Contains (ToLower text) (ToLower kw)); [|intuition congruence].
    split; [tauto|by eexists].
Qed.

Lemma content_decides input sn content : lower_law -> lower_size ->
  adds (check_content s input sn content) (λ new d, stored_ok sn -> decided d (block_reason sn content new)).
Proof.
  intros Hlaw Hsize. unfold check_content, block_reason, keyword_hit, keyword_only. cbv zeta.
  unfold preBlock. destruct (String.eqb_spec (cm_Mode (rs_config sn)) ContentModerationModePreBlock) as [Hm|Hm].
  2: { eapply adds_mono; [apply hash_decides|]. intros new d Hd _. eapply decided_iff; [exact Hd|]. tauto. }
  set (hit := if negb _ && _ then snapshot_matchBlockedKeyword sn (in_Text content) else Some None).
  assert (stored_ok sn -> (∃ kw : string, hit = Some (Some kw)) <->
    cm_KeywordBlockingMode (rs_config sn) ≠ ContentModerationKeywordModeAPIOnly /\
    contains_keyword sn (in_Text content)) as Hhit.
  { intros Hok. unfold hit. rewrite (stored_match sn _ Hlaw Hsize Hok).
    unfold contains_keyword. rewrite <- (direct_search _ _ Hlaw).
    destruct (String.eqb_spec (cm_KeywordBlockingMode (rs_config sn)) ContentModerationKeywordModeAPIOnly);
      [|destruct (cm_BlockedKeywords (rs_config sn)) eqn:El]; cbn [negb andb is_nil].
    - split; [by intros [kw ?]|tauto].
    - split; [by intros [kw ?]|]. intros [_ [kw H]]. unfold matchBlockedKeyword in H. cbn in H.
      by rewrite orb_true_r in H.
    - split; [intros [kw [= H]]; split; [done|by exists kw]|intros [_ [kw H]]; exists kw; by rewrite H]. }
  destruct hit as [[kw|]|]; [| |apply adds_panic].
  - eapply adds_mono; [apply (returns_after _ _ (λ d, dc_Blocked d = true /\ dc_Allowed d = false))|].
    + intros _. apply returns_after. intros _. by apply returns_ret.
    + intros new d [Hb Ha] Hok. unfold decided. rewrite Hb, Ha. split; [|done]. split; [intros _|done].
      left. split; [done|]. apply Hhit; eauto.
  - destruct (String.eqb_spec (cm_KeywordBlockingMode (rs_config sn)) ContentModerationKeywordModeKeywordOnly) as [Hk|Hk].
    + eapply adds_mono; [apply (returns_after _ _ (eq allow))|].
      * intros _. by apply returns_ret.
      * intros new d <- Hok. apply decided_allow. intros [[_ H]|[H _]]; [|by apply H].
        apply (Hhit Hok) in H as [? ?]. done.
    + eapply adds_mono; [apply hash_decides|]. intros new d Hd Hok. eapply decided_iff; [exact Hd|].
      split; [right; split; [|done]; by intros [_ ?]|]. intros [[_ H]|[_ H]]; [|done].
      apply (Hhit Hok) in H as [? ?]. done.
Qed.

(** ** The whole check *)

(** The snapshots that were loaded or stored. *)
Definition seen (sn : contentModerationRuntimeSnapshot) (new : mtrace) : Prop :=
  Ev MSnapshotLoad (Some sn) ∈ new \/ Ev (MSnapshotStore sn) tt ∈ new.
(** The settings could not be read, or not parsed. *)
Definition load_failed (new : mtrace) : Prop :=
  ∃ r, Ev MGetMultiple r ∈ new /\
    match r with Err _ => True | Ok values => ∃ e, parseContentModerationConfig values.2 = Err e end.
(** The snapshots that were found stored are what C27 says of a stored one. *)
Definition loads_ok (new : mtrace) : Prop := ∀ sn, Ev MSnapshotLoad (Some sn) ∈ new -> stored_ok sn.
Definition load_spec (new : mtrace) (r : result contentModerationRuntimeSnapshot) : Prop :=
  match r with Ok sn => seen sn new /\ (loads_ok new -> stored_ok sn) | Err _ => load_failed new end.

Lemma load_spec_app a b r : load_spec a r \/ load_spec b r -> load_spec (a ++ b) r.
Proof.
  destruct r as [sn|e]; cbn; unfold seen, load_failed, loads_ok.
  - rewrite !elem_of_app. intros [[Hs Hok]|[Hs Hok]]; (split; [tauto|]); intros H; apply Hok;
      intros sn' Hin; apply H, elem_of_app; tauto.
  - intros [(r & H & Hr)|(r & H & Hr)]; exists r; (split; [|done]); set_solver.
Qed.
Lemma adds_frame {A B} (c : msvc B) (f : B -> mprog A) (Q : mtrace -> A -> Prop) :
  (∀ new old a, Q new a -> Q (new ++ old) a) -> (∀ b, adds (f b) Q) -> adds (pbind (call c) f) Q.
Proof. intros HQ H. apply adds_other. intros b. eapply adds_mono; [apply H|]. auto. Qed.
Ltac framed := apply adds_frame; [intros ? ? ? ?; apply load_spec_app; by left|].

Lemma refresh_spec : adds refreshRuntimeSnapshot load_spec.
Proof.
  unfold refreshRuntimeSnapshot. apply adds_other. intros [[riskControl raw]|e].
  2: { apply adds_ret. exists (Err e). split; [set_solver|done]. }
  cbv zeta. set (values := Ev MGetMultiple (Ok (riskControl, raw))).
  assert (∀ e, parseContentModerationConfig raw = Err e -> ∀ new, load_spec (new ++ [values]) (Err e)) as Herr.
  { intros e He new. exists (Ok (riskControl, raw)). split; [set_solver|]. by exists e. }
  apply adds_other. intros current.
  set (Q := λ new r, load_spec ((new ++ [Ev MSnapshotLoad current]) ++ [values]) r).
  assert (∀ sn : time -> contentModerationRuntimeSnapshot,
    (∀ now, (∀ c, current = Some c -> stored_ok c) -> stored_ok (sn now)) -> adds (let* now := call MNow in
      let* _ := call (MSnapshotStore (sn now)) in let* _ := call (MSetRetryAt 0) in Ret (Ok (sn now))) Q) as Hnow.
  { intros sn Hsn. apply adds_other. intros now. apply adds_other. intros []. apply adds_other. intros [].
    apply adds_ret. split; [right; set_solver|]. intros H. apply Hsn. intros c ->. apply H. set_solver. }
  assert (adds match parseContentModerationConfig raw with
    | Err e => Ret (Err e)
    | Ok cfg => match newContentModerationKeywordMatcher (cm_BlockedKeywords cfg) with
      | None => panic
      | Some matcher => let* now := call MNow in
          let* _ := call (MSnapshotStore {| rs_riskControlEnabled := String.eqb riskControl "true"; rs_config := cfg;
            rs_keywordMatcher := matcher; rs_configDigest := sha256_hex raw; rs_loadedAt := now |}) in
          let* _ := call (MSetRetryAt 0) in
          Ret (Ok {| rs_riskControlEnabled := String.eqb riskControl "true"; rs_config := cfg;
            rs_keywordMatcher := matcher; rs_configDigest := sha256_hex raw; rs_loadedAt := now |})
      end
    end Q) as Hparse.
  { destruct (parseContentModerationConfig raw) as [cfg|e] eqn:E; [|apply adds_ret; by apply Herr].
    destruct (newContentModerationKeywordMatcher _) as [m|] eqn:Em; [|apply adds_panic].
    apply (Hnow (λ now, Build_contentModerationRuntimeSnapshot (String.eqb riskControl "true") cfg m (sha256_hex raw) now)).
    intros now _. split; [exact Em|]. cbn. unfold parseContentModerationConfig in E. repeat case_match; simplify_eq; eauto. }
  destruct current as [c|]; [|exact Hparse]. destruct (String.eqb (rs_configDigest c) _); [|exact Hparse].
  apply (Hnow (λ now, Build_contentModerationRuntimeSnapshot (String.eqb riskControl "true") (rs_config c)
    (rs_keywordMatcher c) (sha256_hex raw) now)). intros now H. exact (H c eq_refl).
Qed.

Lemma local_load : local (loadRuntimeSnapshot s).
Proof.
  unfold loadRuntimeSnapshot, triggerRuntimeSnapshotRefresh, runtimeRefreshDeferred, refreshRuntimeSnapshot.
  locally.
Qed.
Lemma unhashed_load : only other_call (loadRuntimeSnapshot s).
Proof.
  unfold loadRuntimeSnapshot, triggerRuntimeSnapshotRefresh, runtimeRefreshDeferred, refreshRuntimeSnapshot.
  unhashed.
Qed.

Lemma loaded_spec : ms_settingRepo s = true -> adds (loadRuntimeSnapshot s) load_spec.
Proof.
  intros Hs. unfold loadRuntimeSnapshot. rewrite Hs. cbn [negb]. framed. intros now.
  apply adds_other. intros [sn|].
  - assert (∀ new, load_spec (new ++ [Ev MSnapshotLoad (Some sn)]) (Ok sn)) as Hseen.
    { intros new. split; [left; set_solver|]. intros H. apply H. set_solver. }
    destruct (_ <? _); [by apply adds_ret|]. unfold triggerRuntimeSnapshotRefresh.
    eapply adds_mono; [apply (returns_after _ _ (eq (Ok sn))); intros _; by apply returns_ret|].
    by intros new r <-.
  - eapply adds_mono; [|intros new r H; apply load_spec_app; left; exact H].
    framed. intros _. apply adds_other. intros [sn|].
    + apply adds_other. intros []. apply adds_ret.
      split; [left; set_solver|]. intros H. apply H. set_solver.
    + eapply adds_mono; [|intros new r H; apply load_spec_app; left; exact H].
      eapply adds_bind; [apply refresh_spec|]. intros old r Hr. apply adds_other. intros [].
      apply adds_ret. apply load_spec_app. by right.
Qed.

(** What a snapshot says about a request: its content is to be checked. *)
Definition in_scope (sn : contentModerationRuntimeSnapshot) (input : ContentModerationCheckInput) : Prop :=
  rs_riskControlEnabled sn = true /\ cm_Enabled (rs_config sn) = true /\
  cm_Mode (rs_config sn) ≠ ContentModerationModeOff /\
  includesPlatform (rs_config sn) (ci_PlatformID input) = true /\
  includesModel (rs_config sn) (ci_Model input) = true /\
  IsEmpty (ExtractContentModerationInput (ci_Protocol input) (ci_Body input)) = false.

(** What is checked of a request. *)
Definition content_of (input : ContentModerationCheckInput) : ContentModerationInput :=
  Normalize (ExtractContentModerationInput (ci_Protocol input) (ci_Body input)).

(** C24. A request is blocked exactly when there is a reason to.  Without the
    settings or the log it is let through; when the settings cannot be read or
    parsed it is refused as unavailable.  Otherwise one snapshot decides alone:
    one that was stored, by C27 with the automaton of its own normalised
    keywords, or that this check built and stored; and the request is blocked,
    and is not allowed, if and only if it is in the scope of the settings and
    the text extracted from its body contains a keyword of the settings, cases
    apart, while the mode is pre-block and the keyword mode is not API-only; or
    (unless the mode is pre-block and only keywords count) its hash was
    answered to be that of a flagged input, or, in pre-block mode, a call to
    the service in this check answered a score at or over its threshold.  The
    content is what the extraction takes from the body, whose omissions
    [marked_text_escapes] shows. *)
Theorem Check_blocks_for_a_reason input : lower_law -> lower_size -> adds (Check s input) (λ new d,
  if negb (ms_settingRepo s) || negb (ms_repo s) then d = allow else
  loads_ok new ->
  (load_failed new /\ d = unavailable_decision) \/
  ∃ sn, seen sn new /\ stored_ok sn /\
    decided d (in_scope sn input /\ block_reason sn (content_of input) new)).
Proof.
  intros Hlaw Hsize. unfold Check.
  destruct (negb (ms_settingRepo s) || negb (ms_repo s)) eqn:Hrepo; [by apply adds_ret|].
  apply orb_false_iff in Hrepo as [Hset _]. apply negb_false_iff in Hset.
  eapply adds_bind; [apply adds_unhashed; [apply unhashed_load|apply adds_and; [apply local_load|by apply loaded_spec]]|].
  intros old [sn|e] (Hh & Hm & Hl).
  2: { apply adds_ret. intros _. left. split; [exact Hl|done]. }
  assert (∀ p, adds p (λ new d, stored_ok sn -> decided d (in_scope sn input /\ block_reason sn (content_of input) new)) ->
    adds p (λ new d, loads_ok (new ++ old) -> (load_failed (new ++ old) /\ d = unavailable_decision) \/
      ∃ sn', seen sn' (new ++ old) /\ stored_ok sn' /\ decided d (in_scope sn' input /\
        block_reason sn' (content_of input) (new ++ old)))) as Hsn.
  { intros p Hp. eapply adds_mono; [exact Hp|]. intros new d Hd Hok. right.
    destruct (load_spec_app new old (Ok sn) (or_intror Hl)) as [Hs Hst].
    exists sn. split_and!; [exact Hs|by apply Hst|]. eapply decided_iff; [exact (Hd (Hst Hok))|].
    unfold block_reason, hash_known. rewrite hashes_app, Hh, app_nil_r, scores_over_app by done. done. }
  cbv zeta. apply Hsn. clear Hsn. unfold in_scope.
  assert (∀ P : Prop, ¬ P -> adds (Ret allow : mprog _) (λ new d, stored_ok sn -> decided d (P /\
      block_reason sn (content_of input) new))) as Hout.
  { intros P HP. apply adds_ret. intros _. apply decided_allow. tauto. }
  destruct (rs_riskControlEnabled sn); [|apply Hout; intuition congruence].
  destruct (cm_Enabled (rs_config sn)); [|apply Hout; intuition congruence].
  destruct (String.eqb_spec (cm_Mode (rs_config sn)) ContentModerationModeOff); [apply Hout; tauto|].
  destruct (includesPlatform _ _); [|apply Hout; intuition congruence].
  destruct (includesModel _ _); [|apply Hout; intuition congruence].
  destruct (IsEmpty _); [apply Hout; intuition congruence|].
  eapply adds_mono; [by apply content_decides|]. intros new d Hd Hok. eapply decided_iff; [by apply Hd|]. tauto.
Qed.

End Blocked.

(** ** What is never reviewed *)

Section Unreviewed.
Context {UC : UnicodeCase} {MH : ModerationHost}.

Definition user_message (text : string) : gval :=
  GObject "" [("role"%string, GString "user"); ("content"%string, GString text)].

Lemma marked_text text st : Contains (TrimSpace text) reminder = true -> addModerationText text st = st.
Proof. intros H. unfold addModerationText. rewrite H. by destruct (str_empty _). Qed.

Lemma last_user earlier text :
  is_array (gget (messages_body (earlier ++ [user_message text])) "messages") ≫= last = Some (user_message text).
Proof. cbn. by rewrite last_snoc. Qed.

(** The text of the last user message of a chat, trimmed, is what is checked. *)
Theorem last_user_text_checked earlier text :
  TrimSpace text ≠ EmptyString -> Contains (TrimSpace text) reminder = false ->
  ExtractContentModerationInput ContentModerationProtocolOpenAIChat
    (Some (messages_body (earlier ++ [user_message text])))
  = Normalize {| in_Text := normalizeContentModerationText (TrimSpace text); in_Images := [] |}.
Proof.
  intros Hne Hm. unfold ExtractContentModerationInput.
  change (String.eqb ContentModerationProtocolOpenAIChat ContentModerationProtocolAnthropicMessages) with false.
  change (String.eqb ContentModerationProtocolOpenAIChat ContentModerationProtocolOpenAIChat) with true.
  unfold collectLastRoleMessage. rewrite last_user. cbv iota.
  change (String.eqb (role_of (user_message text)) "user") with true. cbn [negb].
  unfold collect. change (gget (user_message text) "content") with (GString text).
  cbn [collectContentValue]. unfold addModerationText. rewrite (proj2 (str_empty_false _) Hne), Hm.
  unfold add_candidate. cbn [fst snd app is_nil].
  change (Join [TrimSpace text] _) with (of_bytes (to_bytes (TrimSpace text))). rewrite of_to_bytes.
  destruct (str_empty (normalizeContentModerationText (TrimSpace text))) eqn:E; cbn [andb].
  - apply str_empty_true in E. by rewrite E.
  - change (Join [TrimSpace text] _) with (of_bytes (to_bytes (TrimSpace text))). by rewrite of_to_bytes.
Qed.

(** A text with the mark of a system reminder anywhere inside is left out,
    so a request whose last message is such a text is out of the scope of every
    snapshot, whatever keywords it contains: it is let through unreviewed. *)
Theorem marked_text_escapes sn input earlier text :
  ci_Protocol input ∈ [ContentModerationProtocolAnthropicMessages; ContentModerationProtocolOpenAIChat] ->
  ci_Body input = Some (messages_body (earlier ++ [user_message text])) ->
  Contains (TrimSpace text) reminder = true ->
  ¬ in_scope sn input.
Proof.
  intros Hp Hb Hm (_ & _ & _ & _ & _ & Hscope).
  assert (ExtractContentModerationInput (ci_Protocol input) (ci_Body input)
          = {| in_Text := ""; in_Images := [] |}) as He; [|by rewrite He in Hscope].
  rewrite Hb. unfold ExtractContentModerationInput.
  apply elem_of_cons in Hp as [->|Hp]; [|apply list_elem_of_singleton in Hp as ->]; cbn [String.eqb].
  - change (String.eqb ContentModerationProtocolAnthropicMessages ContentModerationProtocolAnthropicMessages) with true.
    unfold collectLastAnthropicUserMessage. rewrite last_user. cbv iota.
    change (String.eqb (role_of (user_message text)) "user") with true. cbn [negb].
    unfold collect_anthropic. change (gget (user_message text) "content") with (GString text).
    cbn [collectAnthropicUserContentValue]. rewrite marked_text by done. by destruct (negb _).
  - change (String.eqb ContentModerationProtocolOpenAIChat ContentModerationProtocolAnthropicMessages) with false.
    change (String.eqb ContentModerationProtocolOpenAIChat ContentModerationProtocolOpenAIChat) with true.
    unfold collectLastRoleMessage. rewrite last_user. cbv iota.
    change (String.eqb (role_of (user_message text)) "user") with true. cbn [negb].
    unfold collect. change (gget (user_message text) "content") with (GString text).
    cbn [collectContentValue]. by rewrite marked_text.
Qed.

End Unreviewed.
