(* ===== verification/ModerationBans.v ===== *)
(** * Content moderation: who is disabled

    What the record of a violation does to the account of its user
    ([applyFlaggedAccountSideEffects], [persistContentModerationLog]), and the
    keys that are found usable when checks run at the same time. *)

From S2P Require Import Prelude GoErrors Prog Float64 GoTime GoStrings GoText KeywordMatcher ModerationInput ModerationConfig Moderation ModerationAdmin ModerationProps ModerationBlocks.
From Stdlib Require Import Ascii String.

Open Scope prog_scope.

(** ** Bans *)

Inductive ban_event :=
| BNow (now : time)
| BCount (user : Z) (since : time) (excludeCyberPolicy : bool) (answer : result Z)
| BUser (id : Z) (answer : result ModUser)
| BUpdate (id : Z) (status : string) (answer : result unit)
| BInvalidate (id : Z)
| BLog (log : ContentModerationLog).

Definition ev_ban (e : event msvc) : option ban_event :=
  match e with
  | Ev c b => match c in msvc B return B -> option ban_event with
              | MNow => λ t, Some (BNow t)
              | MCountFlagged id since excludes => λ b, Some (BCount id since excludes b)
              | MGetUser id => λ b, Some (BUser id b)
              | MUpdateUserStatus id status => λ b, Some (BUpdate id status b)
              | MInvalidateAuth id => λ _, Some (BInvalidate id)
              | MCreateLog log => λ _, Some (BLog log)
              | _ => λ _, None end b
  end.
(** What was asked about the user, when, and done to the account, in order. *)
Definition bans (tr : mtrace) : list ban_event := rev (omap ev_ban tr).
Lemma bans_app a b : bans (a ++ b) = bans b ++ bans a.
Proof. unfold bans. by rewrite omap_app, rev_app_distr. Qed.

Definition no_ban_call (B : Type) (c : msvc B) : Prop :=
  match c with
  | MNow | MCountFlagged _ _ _ | MGetUser _ | MUpdateUserStatus _ _ | MInvalidateAuth _ | MCreateLog _ => False
  | _ => True end.

Lemma adds_no_ban {A} (p : mprog A) (Q : A -> Prop) :
  only no_ban_call p -> returns p Q -> adds p (λ new a, bans new = [] /\ Q a).
Proof.
  intros Ho Hp tr.
  eapply always_then; [apply always_and; [apply Hp|apply (only_same no_ban_call (omap ev_ban) _ _)]|].
  - intros B c b t Hc. by destruct c.
  - exact Ho.
  - intros tr' a [(new & -> & HQ) Hh]. exists new. split_and!; [done| |done].
    rewrite omap_app in Hh. unfold bans. destruct (omap ev_ban new) as [|x l]; [done|].
    apply (f_equal (@List.length _)) in Hh. simpl in Hh. rewrite length_app in Hh. lia.
Qed.

Section Bans.
Context {UC : UnicodeCase} {MH : ModerationHost} (s : ContentModerationService).

(** The count that the threshold is compared with: that of the user's
    violations since the start of the window, which the log answered, and this
    one; or this one alone, when violations are not counted or the log did not
    answer. *)
Definition counts_windows (cfg : ContentModerationConfig) : bool :=
  ms_repo s && (0 <? cm_ViolationWindowHours cfg).
Definition violations (cfg : ContentModerationConfig) (answer : result Z) : Z :=
  if counts_windows cfg then match answer with Ok n => n + 1 | Err _ => 1 end else 1.
Definition banned_at (cfg : ContentModerationConfig) (n : Z) : bool :=
  cm_AutoBanEnabled cfg && (0 <? cm_BanThreshold cfg) && (cm_BanThreshold cfg <=? n) && ms_userRepo s.
(** The start of the window at [now]: so many hours before, while these are
    within 292 years, what a duration can hold. *)
Definition window_start (cfg : ContentModerationConfig) (now since : time) : Prop :=
  cm_ViolationWindowHours cfg * hour <= max_int64 ->
  t_ns since = t_ns now - cm_ViolationWindowHours cfg * hour.
Definition counting (cfg : ContentModerationConfig) (id : Z) (now since : time) (answer : result Z)
  : list ban_event :=
  if counts_windows cfg
  then [BNow now; BCount id since (cm_CyberPolicyExcludeFromBanCount cfg) answer] else [].
Definition counted (cfg : ContentModerationConfig) (id n : Z) (evs : list ban_event) : Prop :=
  if counts_windows cfg
  then ∃ now since answer, window_start cfg now since /\ BNow now ∈ evs /\
    BCount id since (cm_CyberPolicyExcludeFromBanCount cfg) answer ∈ evs /\
    n = match answer with Ok before => before + 1 | Err _ => 1 end
  else n = 1.

(** A user whose violation is recorded. *)
Definition offender (log : ContentModerationLog) : option Z :=
  match cl_UserID log with
  | Some id => if cl_Flagged log && (0 <? id) then Some id else None
  | None => None
  end.

(** All that can happen, with the log that results and whether the user was
    disabled just now. *)
Inductive ban_course (cfg : ContentModerationConfig) (log : ContentModerationLog) :
    list ban_event -> bool * ContentModerationLog -> Prop :=
| no_offender : offender log = None -> ban_course cfg log [] (false, log)
| below_threshold id now since answer :
    offender log = Some id -> window_start cfg now since ->
    banned_at cfg (violations cfg answer) = false ->
    ban_course cfg log (counting cfg id now since answer) (false, set_count (violations cfg answer) log)
| user_unknown id now since answer e :
    offender log = Some id -> window_start cfg now since ->
    banned_at cfg (violations cfg answer) = true ->
    ban_course cfg log (counting cfg id now since answer ++ [BUser id (Err e)])
      (false, set_count (violations cfg answer) log)
| admin_spared id now since answer user :
    offender log = Some id -> window_start cfg now since ->
    banned_at cfg (violations cfg answer) = true -> IsAdmin user = true ->
    ban_course cfg log (counting cfg id now since answer ++ [BUser id (Ok user)])
      (false, set_count (violations cfg answer) log)
| already_disabled id now since answer user :
    offender log = Some id -> window_start cfg now since ->
    banned_at cfg (violations cfg answer) = true -> IsAdmin user = false ->
    mu_Status user = StatusDisabled ->
    ban_course cfg log (counting cfg id now since answer ++ [BUser id (Ok user)])
      (false, set_banned (set_count (violations cfg answer) log))
| update_failed id now since answer user e :
    offender log = Some id -> window_start cfg now since ->
    banned_at cfg (violations cfg answer) = true -> IsAdmin user = false ->
    mu_Status user ≠ StatusDisabled ->
    ban_course cfg log (counting cfg id now since answer ++ [BUser id (Ok user); BUpdate id StatusDisabled (Err e)])
      (false, set_count (violations cfg answer) log)
| user_disabled id now since answer user u :
    offender log = Some id -> window_start cfg now since ->
    banned_at cfg (violations cfg answer) = true -> IsAdmin user = false ->
    mu_Status user ≠ StatusDisabled ->
    ban_course cfg log
      (counting cfg id now since answer ++ [BUser id (Ok user); BUpdate id StatusDisabled (Ok u)] ++
       (if ms_authCacheInvalidator s then [BInvalidate id] else []))
      (true, set_banned (set_count (violations cfg answer) log)).

Lemma started_window cfg now : 0 < cm_ViolationWindowHours cfg ->
  window_start cfg now (time_add now (mul64 (- cm_ViolationWindowHours cfg) hour)).
Proof.
  intros Hpos Hmax. cbn. unfold mul64. rewrite wrap64_id; [lia|]. unfold in_int64, min_int64, max_int64, hour, minute, second in *. lia.
Qed.
Lemma side_effects_course cfg log :
  adds (applyFlaggedAccountSideEffects s cfg log) (λ new r, ban_course cfg log (bans new) r).
Proof.
  unfold applyFlaggedAccountSideEffects.
  destruct (cl_UserID log) as [id|] eqn:Eid.
  2: { apply adds_ret. apply no_offender. unfold offender. by rewrite Eid. }
  destruct (negb (cl_Flagged log) || (id <=? 0)) eqn:Eoff.
  { apply adds_ret. apply no_offender. unfold offender. rewrite Eid.
    apply orb_true_iff in Eoff as [Hf%negb_true_iff|Hi%Z.leb_le]; [by rewrite Hf|].
    destruct (Z.ltb_spec 0 id); [lia|]. by rewrite andb_false_r. }
  assert (offender log = Some id) as Hoff.
  { unfold offender. rewrite Eid. apply orb_false_iff in Eoff as [Hf%negb_false_iff Hi%Z.leb_gt].
    rewrite Hf. by destruct (Z.ltb_spec 0 id); [|lia]. }
  eapply (adds_bind _ _ (λ new n, ∃ now since answer, window_start cfg now since /\ n = violations cfg answer /\
    bans new = counting cfg id now since answer)).
  { unfold violations, counting, counts_windows. destruct (ms_repo s && (0 <? cm_ViolationWindowHours cfg)) eqn:Ew.
    - apply adds_other. intros now. cbv zeta. apply adds_other. intros answer. apply adds_ret.
      exists now, (time_add now (mul64 (- cm_ViolationWindowHours cfg) hour)), answer.
      split_and!; [by apply andb_true_iff in Ew as [_ Ew%Z.ltb_lt]; apply started_window|done..].
    - apply adds_ret. set (now := mk_time 0 UTC).
      by exists now, (time_add now (- (cm_ViolationWindowHours cfg * hour))), (Ok 0). }
  intros old n (now & since & answer & Hstart & -> & Hold). cbv zeta.
  destruct (_ && _) eqn:Eb; fold (banned_at cfg (violations cfg answer)) in Eb.
  2: { apply adds_ret. cbn [app]. rewrite Hold. by eapply below_threshold. }
  apply adds_other. intros [user|e].
  2: { apply adds_ret. cbn [app]. change (?x :: old) with ([x] ++ old). rewrite bans_app, Hold.
       by eapply user_unknown. }
  destruct (IsAdmin user) eqn:Ea.
  { apply adds_ret. cbn [app]. change (?x :: old) with ([x] ++ old). rewrite bans_app, Hold.
    by eapply admin_spared. }
  destruct (String.eqb_spec (mu_Status user) StatusDisabled) as [Es|Es]; cbn [negb].
  { apply adds_ret. cbn [app]. change (?x :: old) with ([x] ++ old). rewrite bans_app, Hold.
    by eapply already_disabled. }
  apply adds_other. intros [u|e].
  2: { apply adds_ret. rewrite !bans_app, Hold. by eapply update_failed. }
  pose proof (user_disabled cfg log id now since answer user u Hoff Hstart Eb Ea Es) as H.
  destruct (ms_authCacheInvalidator s).
  - apply adds_other. intros []. apply adds_ret. rewrite !bans_app, Hold. exact H.
  - apply adds_ret. rewrite !bans_app, Hold. exact H.
Qed.

Lemma notify_course cfg log b : adds (sendFlaggedNotificationSideEffects s cfg log b)
  (λ new l, bans new = [] /\ (l = log \/ ∃ sent, l = set_sent sent log)).
Proof.
  apply adds_no_ban.
  { unfold sendFlaggedNotificationSideEffects, mail. repeat case_match; unhashed. }
  unfold sendFlaggedNotificationSideEffects. repeat (case_match; [by apply returns_ret; left|]).
  apply returns_after. intros hit. apply returns_after. intros sent. apply returns_ret. right. eauto.
Qed.

(** Membership in a list of events that is written out. *)
Local Ltac listed := repeat rewrite ?elem_of_app, ?elem_of_cons; auto 12.
Local Ltac unlist H := repeat first [rewrite elem_of_app in H | rewrite elem_of_cons in H | rewrite elem_of_nil in H];
  repeat lazymatch type of H with _ \/ _ => destruct H as [H|H] end; simplify_eq; try done.

(** The updates of a course, and the count they rest on. *)
Lemma course_update cfg log course r id status a :
  ban_course cfg log course r -> BUpdate id status a ∈ course ->
  status = StatusDisabled /\ offender log = Some id /\ cm_AutoBanEnabled cfg = true /\
  (∃ n, 0 < cm_BanThreshold cfg <= n /\ counted cfg id n course) /\
  (∃ user, BUser id (Ok user) ∈ course /\ IsAdmin user = false /\ mu_Status user ≠ StatusDisabled) /\
  (a = Ok tt -> cl_AutoBanned r.2 = true /\ (ms_authCacheInvalidator s = true -> BInvalidate id ∈ course)).
Proof.
  assert (∀ id' now since answer, BUpdate id status a ∉ counting cfg id' now since answer) as Hno.
  { intros id' now since answer Hin. unfold counting in Hin. destruct (counts_windows cfg); unlist Hin. }
  assert (∀ id' now since answer user b tail, offender log = Some id' -> window_start cfg now since -> banned_at cfg (violations cfg answer) = true ->
    IsAdmin user = false -> mu_Status user ≠ StatusDisabled -> BUpdate id status a ∉ tail ->
    BUpdate id status a ∈ counting cfg id' now since answer ++ [BUser id' (Ok user); BUpdate id' StatusDisabled b] ++ tail ->
    (a = Ok tt -> b = a -> cl_AutoBanned r.2 = true /\ (ms_authCacheInvalidator s = true -> BInvalidate id' ∈ tail)) ->
    let evs := counting cfg id' now since answer ++ [BUser id' (Ok user); BUpdate id' StatusDisabled b] ++ tail in
    status = StatusDisabled /\ offender log = Some id /\ cm_AutoBanEnabled cfg = true /\
    (∃ n, 0 < cm_BanThreshold cfg <= n /\ counted cfg id n evs) /\
    (∃ user, BUser id (Ok user) ∈ evs /\ IsAdmin user = false /\ mu_Status user ≠ StatusDisabled) /\
    (a = Ok tt -> cl_AutoBanned r.2 = true /\ (ms_authCacheInvalidator s = true -> BInvalidate id ∈ evs))) as Hcase.
  { intros id' now since answer user b tail Ho Hw Hb Ha Hs Ht Hin Hok evs.
    assert (id = id' /\ status = StatusDisabled /\ b = a) as (-> & -> & ->).
    { unlist Hin; first [by apply Hno in Hin|by apply Ht in Hin|by split_and!]. }
    unfold banned_at in Hb. rewrite !andb_true_iff in Hb. destruct Hb as [[[Hauto Hpos] Hle] _].
    split_and!; [done..| | |].
    - exists (violations cfg answer). split; [lia|]. subst evs. unfold counted, violations, counting.
      destruct (counts_windows cfg); [|done]. exists now, since, answer. split_and!; [done|listed|listed|done].
    - exists user. split; [subst evs; listed|done].
    - intros Hok'. destruct (Hok Hok' eq_refl) as [H1 H2]. split; [done|]. intros Hc. subst evs.
      apply elem_of_app. right. apply elem_of_app. right. auto. }
  intros Hcourse Hin. destruct Hcourse as [| | | | |id' now since answer user e Ho Hw Hb Ha Hs|id' now since answer user u Ho Hw Hb Ha Hs];
    try (exfalso; unlist Hin; by apply Hno in Hin).
  - rewrite <- (app_nil_r (counting cfg id' now since answer ++ _)), <- app_assoc in Hin |- *.
    apply Hcase; [done..|by intros ?%elem_of_nil|done|]. intros -> [=].
  - apply Hcase; [done..| |done|].
    + intros Ht. destruct (ms_authCacheInvalidator s); unlist Ht.
    + intros _ _. split; [done|]. intros ->. listed.
Qed.

(** C28. Recording a violation disables a user only when the settings ban, the
    count of violations reaches the threshold, and the user was read as neither
    an administrator nor disabled.  The count is the one the log was asked for:
    that of the user of this violation, from the settings' hours before the
    time that was read just before, with cyber-policy events left out when the
    settings exclude them; and this violation on top.  It is this one alone
    when there is no log or no window, or when the log does not answer.
    Nobody else is asked about or disabled, and the user only once.  When the
    update succeeds the user's cached authentication is dropped and the log that
    is written says so; the log is written last, whatever happened to the
    account. *)
Theorem bans_are_earned cfg log h rh : adds (persistContentModerationLog s cfg log h rh true) (λ new _,
  ∃ course r log', ban_course cfg log course r /\ (log' = r.2 \/ ∃ sent, log' = set_sent sent r.2) /\
    bans new = course ++ (if ms_repo s then [BLog log'] else []) /\
    ∀ id status a, BUpdate id status a ∈ bans new ->
      status = StatusDisabled /\ offender log = Some id /\ cm_AutoBanEnabled cfg = true /\
      (∃ n, 0 < cm_BanThreshold cfg <= n /\ counted cfg id n (bans new)) /\
      (∃ user, BUser id (Ok user) ∈ bans new /\ IsAdmin user = false /\ mu_Status user ≠ StatusDisabled) /\
      (a = Ok tt -> cl_AutoBanned log' = true /\ (ms_authCacheInvalidator s = true -> BInvalidate id ∈ bans new))).
Proof.
  unfold persistContentModerationLog. eapply (adds_bind _ _ (λ new _, bans new = [])).
  { destruct (rh && ms_hashCache s); [|by apply adds_ret]. apply adds_other. intros b. by apply adds_ret. }
  intros o1 _ H1. eapply (adds_bind _ _ (λ new l, ∃ course r, ban_course cfg log course r /\
    (l = r.2 \/ ∃ sent, l = set_sent sent r.2) /\ bans new = course)).
  { eapply adds_bind; [apply side_effects_course|]. intros old r Hr. eapply adds_mono; [apply notify_course|].
    intros new l [Hn Hl]. exists (bans old), r. by rewrite bans_app, Hn, app_nil_r. }
  intros o2 l (course & r & Hr & Hl & H2).
  assert (∀ new, bans new = (if ms_repo s then [BLog l] else []) ->
    bans ((new ++ o2) ++ o1) = course ++ (if ms_repo s then [BLog l] else [])) as Htrace.
  { intros new Hn. by rewrite !bans_app, H1, H2, Hn. }
  eapply (adds_mono _ (λ new _, bans new = (if ms_repo s then [BLog l] else []))).
  { destruct (ms_repo s); [|by apply adds_ret]. apply adds_other. intros b. by apply adds_ret. }
  intros new _ Hn. exists course, r, l. split_and!; [done..|by apply Htrace|]. rewrite (Htrace new Hn).
  intros id status a Hin. assert (BUpdate id status a ∈ course) as Hc.
  { apply elem_of_app in Hin as [Hin|Hin]; [done|]. destruct (ms_repo s); unlist Hin. }
  destruct (course_update _ _ _ _ _ _ _ Hr Hc) as (? & ? & ? & (n & Hle & Hn') & (user & Hu & Hu') & Hok).
  split_and!; [done..| | |].
  - exists n. split; [done|]. revert Hn'. unfold counted. destruct (counts_windows cfg); [|done].
    intros (now & since & answer & Hw & Hin1 & Hin2 & Hn''). exists now, since, answer. split_and!; [done|listed|listed|done].
  - exists user. split; [listed|done].
  - intros Ha. destruct (Hok Ha) as [Hb Hi]. split; [|intros Hm; specialize (Hi Hm); listed].
    destruct Hl as [->|[sent ->]]; exact Hb.
Qed.


End Bans.

(** ** Keys in use *)

Definition ev_cursor (e : event msvc) : option Z :=
  match e with
  | Ev c b => match c in msvc B return B -> option Z with
              | MCursor => Some | _ => λ _, None end b
  end.
Definition ev_frozen (e : event msvc) : option (string * bool) :=
  match e with
  | Ev c b => match c in msvc B return B -> option (string * bool) with
              | MFrozen key _ => λ b, Some (key, b) | _ => λ _, None end b
  end.
(** The positions of the cursor that were drawn, in order, and the keys that
    were looked at. *)
Definition cursors (tr : mtrace) : list Z := rev (omap ev_cursor tr).
Definition looked_at (tr : mtrace) : list (string * bool) := omap ev_frozen tr.
Lemma cursors_app a b : cursors (a ++ b) = cursors b ++ cursors a.
Proof. unfold cursors. by rewrite omap_app, rev_app_distr. Qed.
Lemma looked_at_app a b : looked_at (a ++ b) = looked_at a ++ looked_at b.
Proof. apply omap_app. Qed.

Section Keys.
Context {UC : UnicodeCase} {MH : ModerationHost}.

Lemma usable_loop_looks keys now todo : adds (usable_key_loop todo keys now) (λ new r,
  match r with
  | Some key => key ∈ keys /\ (key, false) ∈ looked_at new
  | None => List.length (cursors new) = todo /\
      ∀ c, c ∈ cursors new -> ∃ key, at_ keys (Z.rem c (len_ keys)) = Some key /\ (key, true) ∈ looked_at new
  end).
Proof.
  induction todo as [|todo IH]; cbn [usable_key_loop].
  { apply adds_ret. split; [done|]. by intros c ?%elem_of_nil. }
  apply adds_other. intros cursor. fold (len_ keys). destruct (at_ keys _) as [key|] eqn:E; [|apply adds_panic].
  apply adds_other. intros [|].
  - eapply adds_mono; [apply IH|]. intros new [k|].
    + intros [Hk Hl]. split; [done|]. rewrite !looked_at_app. apply elem_of_app. left.
      apply elem_of_app. by left.
    + intros [Hl Hall]. rewrite !cursors_app. cbn [cursors rev omap list_omap ev_cursor app]. split; [simpl; congruence|].
      intros c [->|Hc]%elem_of_cons.
      * exists key. split; [done|]. rewrite !looked_at_app. rewrite !elem_of_app. left. right. by left.
      * destruct (Hall c Hc) as (k & Hk & Hin). exists k. split; [done|].
        rewrite !looked_at_app, !elem_of_app. by do 2 left.
  - apply adds_ret. split.
    + unfold at_ in E. destruct (_ <? _); [done|]. by eapply list_elem_of_lookup_2.
    + rewrite !looked_at_app, !elem_of_app. left. right. by left.
Qed.

(** The rests of [n] consecutive numbers. *)
Lemma consecutive_rest (start j n : Z) : 0 <= start -> 0 <= j < n -> ∃ i, 0 <= i < n /\ Z.rem (start + i) n = j.
Proof.
  intros Hs Hj. exists ((j - start) mod n). pose proof (Z.mod_pos_bound (j - start) n). split; [lia|].
  rewrite Z.rem_mod_nonneg by lia. rewrite Zplus_mod_idemp_r. replace (start + (j - start)) with j by lia.
  by apply Z.mod_small.
Qed.

(** A search for a key that draws consecutive positions of the cursor, as
    it does when nothing else searches, misses no key: it fails exactly when
    every key of the settings is frozen, and the key it finds is one of them
    and not frozen. *)
Theorem undisturbed_search_finds_a_key cfg : adds (nextUsableAPIKey cfg) (λ new r,
  ∀ start frozen, 0 <= start ->
    cursors new = map (λ i, start + Z.of_nat i) (seq 0 (List.length (cursors new))) ->
    (∀ key b, (key, b) ∈ looked_at new -> b = frozen key) ->
    match r with
    | Some key => key ∈ apiKeys cfg /\ frozen key = false
    | None => ∀ key, key ∈ apiKeys cfg -> frozen key = true
    end).
Proof.
  unfold nextUsableAPIKey. destruct (apiKeys cfg) as [|k0 ks] eqn:Ek; cbn [is_nil].
  { apply adds_ret. by intros start frozen _ _ _ key ?%elem_of_nil. }
  rewrite <- Ek. set (keys := apiKeys cfg) in *. apply adds_other. intros now.
  eapply adds_mono; [apply usable_loop_looks|]. intros new r Hr start frozen Hstart Hcur Hfr.
  rewrite cursors_app in Hcur. rewrite looked_at_app in Hfr.
  change (cursors [Ev MNow now]) with (@nil Z) in Hcur. cbn [app] in Hcur.
  assert (∀ key b, (key, b) ∈ looked_at new -> b = frozen key) as Hfr'
    by (intros key b Hin; apply Hfr, elem_of_app; by left).
  destruct r as [key|].
  - destruct Hr as [Hk Hin]. split; [done|]. symmetry. by apply Hfr'.
  - destruct Hr as [Hl Hall]. intros key (j & Hj)%list_elem_of_lookup_1.
    pose proof (lookup_lt_Some _ _ _ Hj) as Hlt.
    destruct (consecutive_rest start (Z.of_nat j) (len_ keys)) as (i & Hi & Hrem); [done|unfold len_; lia|].
    destruct (Hall (start + i)) as (k & Hk & Hin).
    { rewrite Hcur, Hl. apply list_elem_of_fmap. exists (Z.to_nat i). split; [lia|].
      apply elem_of_seq. unfold len_ in *. lia. }
    rewrite Hrem in Hk. unfold at_ in Hk. destruct (Z.ltb_spec (Z.of_nat j) 0); [lia|].
    rewrite Nat2Z.id, Hj in Hk. injection Hk as <-. symmetry. by apply Hfr'.
Qed.

(** A call of one of two programs. *)
Lemma first_calls {A B} starts rest (c : msvc B) (k : B -> mprog A) Q t b (w w' : MWorld)
    (y : MWorld * list (@thread msvc MWorld)) :
  performs B c w b w' -> rtc (pool_step performs starts rest) (w', [Thread A (k b) Q; t]) y ->
  rtc (pool_step performs starts rest) (w, [Thread A (Do c k) Q; t]) y.
Proof.
  intros Hp H. eapply rtc_l; [|exact H]. by apply (pool_call _ _ _ w [Thread A (Do c k) Q; t] 0 A B c k Q b w').
Qed.
Lemma second_calls {A B} starts rest (c : msvc B) (k : B -> mprog A) Q t b (w w' : MWorld)
    (y : MWorld * list (@thread msvc MWorld)) :
  performs B c w b w' -> rtc (pool_step performs starts rest) (w', [t; Thread A (k b) Q]) y ->
  rtc (pool_step performs starts rest) (w, [t; Thread A (Do c k) Q]) y.
Proof.
  intros Hp H. eapply rtc_l; [|exact H]. by apply (pool_call _ _ _ w [t; Thread A (Do c k) Q] 1 A B c k Q b w').
Qed.

(** Two reviews that search at the same time share the cursor, so that one
    of them can draw the position of the same frozen key every time: with two
    keys, of which the second is never frozen, a review ends with "no
    moderation api key available", which lets its request through. *)
Theorem concurrent_searches_miss_a_key starts rest cfg a b p1 p2 track Q1 Q2 w :
  apiKeys cfg = [a; b] -> mw_cursor w = 0 ->
  isAPIKeyFrozen a (mw_now w) (mw_health w) = true -> isAPIKeyFrozen b (mw_now w) (mw_health w) = false ->
  ∃ w' rest2, mw_health w' = mw_health w /\ mw_now w' = mw_now w /\
    rtc (pool_step performs starts rest)
      (w, [Thread _ (callModeration cfg p1 track) Q1; Thread _ (callModeration cfg p2 track) Q2])
      (w', [Thread _ (Ret (Err no_key_available)) Q1; Thread _ rest2 Q2]).
Proof.
  intros Hk Hc Ha Hb. unfold callModeration.
  assert (∃ n, Z.to_nat (attempts_of cfg) = S n) as [n ->].
  { unfold attempts_of, maxContentModerationRetryCount.
    exists (Z.to_nat (attempts_of cfg) - 1)%nat. unfold attempts_of, maxContentModerationRetryCount.
    repeat case_match; lia. }
  cbn [attempt_loop]. unfold nextUsableAPIKey. rewrite Hk. cbn [is_nil List.length usable_key_loop pbind call].
  exists (with_cursor 3 w). eexists. split; [done|]. split; [done|].
  assert (∀ c, performs Z MCursor (with_cursor c w) (wrap64 c) (with_cursor (wrapu64 (c + 1)) w)) as Hcur by done.
  assert (∀ c, performs bool (MFrozen a (mw_now w)) (with_cursor c w) true (with_cursor c w)) as Hfa by (by split).
  assert (∀ c, performs bool (MFrozen b (mw_now w)) (with_cursor c w) false (with_cursor c w)) as Hfb by (by split).
  assert (w = with_cursor 0 w) as Hw by (destruct w; cbn in Hc; by subst).
  eapply (first_calls _ _ MNow _ _ _ (mw_now w) w w); [by split|]. cbn [pbind].
  eapply first_calls; [rewrite Hw at 1; apply Hcur|]. cbn.
  eapply first_calls; [apply Hfa|]. cbn.
  eapply (second_calls _ _ MNow _ _ _ (mw_now w)); [by split|]. cbn.
  eapply second_calls; [apply Hcur|]. cbn. eapply second_calls; [apply Hfb|]. cbn.
  eapply first_calls; [apply Hcur|]. cbn. eapply first_calls; [apply Hfa|]. cbn. reflexivity.
Qed.


End Keys.

(** ** Mails for requests without a user *)

Definition ev_mail (e : event msvc) : option (result unit) :=
  match e with
  | Ev c b => match c in msvc B return B -> option (result unit) with
              | MViolationEmail _ => Some | MDisabledEmail _ => Some | _ => λ _, None end b
  end.
Definition mails (tr : mtrace) : list (result unit) := omap ev_mail tr.

(** A mail that fails for a log without user ends in a panic: a run that is
    recorded has had no such failure. *)
Lemma failed_mail_loses_the_log {UC : UnicodeCase} {MH : ModerationHost} s cfg log h rh :
  cl_UserID log = None ->
  adds (persistContentModerationLog s cfg log h rh true) (λ new _, ∀ e, Err e ∉ mails new).
Proof.
  intros Hu. unfold persistContentModerationLog, applyFlaggedAccountSideEffects. rewrite Hu.
  eapply (adds_bind _ _ (λ new _, mails new = [])).
  { destruct (rh && ms_hashCache s); [|by apply adds_ret]. apply adds_other. intros b. by apply adds_ret. }
  intros o1 _ H1. cbn [pbind fst snd]. eapply (adds_bind _ _ (λ new _, ∀ e, Err e ∉ mails new)).
  - assert (∀ e : error, (Err e : result unit) ∉ []) as Hnil by (intros e ?%elem_of_nil; done).
    unfold sendFlaggedNotificationSideEffects. repeat (case_match; [by apply adds_ret|]).
    eapply (adds_bind _ _ (λ new _, ∀ e, Err e ∉ mails new)).
    + destruct (cm_EmailOnHit cfg); [|by apply adds_ret]. unfold mail. apply adds_other.
      intros [u|e]; [|rewrite Hu; apply adds_panic]. apply adds_ret.
      intros e [=]%list_elem_of_singleton.
    + intros o2 hit H2. apply adds_ret. exact H2.
  - intros o2 l H2. eapply (adds_mono _ (λ new _, mails new = [])).
    { destruct (ms_repo s); [|by apply adds_ret]. apply adds_other. intros b. by apply adds_ret. }
    intros new _ Hn e. unfold mails in *. rewrite !omap_app, Hn, H1, app_nil_r. apply H2.
Qed.
