(* ===== verification/ModerationRuns.v ===== *)
(** * Content moderation: runs

    The theorems of the moderation files at concrete inputs: a small host,
    settings with keywords and keys, and a world with a frozen key. *)

From S2P Require Import Prelude GoErrors Prog Float64 GoTime GoStrings GoText KeywordMatcher KeywordMatcherProps ModerationInput ModerationConfig Moderation ModerationAdmin ModerationProps ModerationBlocks ModerationBans.
From Stdlib Require Import Ascii String.

Open Scope prog_scope.

#[local] Existing Instance ascii_only_case.

(** ** A small host *)

Definition demo_config : ContentModerationConfig :=
  mk_config true ContentModerationModePreBlock "" "" None "" ["a"; "b"]%string 0 100 true [] false ∅
    1 10 403 "" false true 3 24 2 1 1 false [" Forbidden "; "she"; "forbidden"]%string
    ContentModerationKeywordModeKeywordAndAPI
    {| mf_Type := ContentModerationModelFilterAll; mf_Models := [] |} false.

#[local] Instance demo_host : ModerationHost := {|
  sha256_hex := λ s, s;
  decode_config := λ _ _, Some demo_config;
  encode_config := λ _, Ok "{}"%string;
  valid_request_uri := λ _, true;
  redactContentModerationSecrets := λ s, s;
  error_text := λ _, "error"%string
|}.
Definition demo_service : ContentModerationService := {|
  ms_settingRepo := true; ms_repo := true; ms_hashCache := false; ms_userRepo := true;
  ms_proxyRepo := true; ms_platformRepo := true; ms_authCacheInvalidator := true;
  ms_emailService := false; ms_runtimeCacheTTL := 0 |}.

Definition demo_world : MWorld :=
  mk_mworld None false 0 (λ _, 0) 0
    {["a"%string := set_result 1 0 "error" time_zero (time_add time_zero second) 0 429 new_health]} [] time_zero.

Lemma demo_lower : lower_law.
Proof. intros t Ht. exact Ht. Qed.
Lemma demo_lower_size : lower_size.
Proof. intros t. cbn. unfold str_len. lia. Qed.

(** ** The theorems at these inputs *)

Example demo_keywords : cm_BlockedKeywords (normalize demo_config) = ["Forbidden"; "she"]%string.
Proof. vm_compute. reflexivity. Qed.

Lemma matcher_finds_first_witness :
  ∃ m, newContentModerationKeywordMatcher ["she"; "He"; "hers"]%string = Some m /\
       Match m "USHERS" = Some (Some "she"%string).
Proof.
  destruct (matcher_finds_first ["she"; "He"; "hers"]%string demo_lower) as (m & Hm & Hall);
    [by vm_compute|by vm_compute|].
  exists m. split; [exact Hm|]. rewrite Hall. vm_compute. reflexivity.
Defined.

Lemma solo_calls {A B} (starts : @thread msvc MWorld -> Prop) rest (c : msvc B) (k : B -> mprog A) Q b
    (w w' : MWorld) (y : MWorld * list (@thread msvc MWorld)) :
  performs B c w b w' -> rtc (pool_step performs starts rest) (w', [Thread A (k b) Q]) y ->
  rtc (pool_step performs starts rest) (w, [Thread A (Do c k) Q]) y.
Proof.
  intros Hp H. eapply rtc_l; [|exact H]. by apply (pool_call _ _ _ w [Thread A (Do c k) Q] 0 A B c k Q b w').
Qed.

(** The first refresh of the settings, from its start to its store. *)
Lemma demo_refresh : ∃ sn ts, rs_config sn = normalize demo_config /\
  rtc (moderation_step demo_service) (demo_world, []) (with_snapshot (Some sn) demo_world, ts).
Proof.
  destruct (automaton_agrees (cm_BlockedKeywords (normalize demo_config)) demo_lower) as (m & Hm & _);
    [rewrite demo_keywords; by vm_compute..|].
  do 2 eexists. split; [|eapply rtc_l; [apply pool_start, (mt_refresh demo_service)|]].
  2: { unfold background_refresh, refreshRuntimeSnapshot.
       eapply (solo_calls _ _ MGetMultiple _ _ (Ok ("true", "{}")%string)); [done|]. cbn [pbind call].
       eapply solo_calls; [by split|]. cbn [pbind call demo_world mw_snapshot].
       change (parseContentModerationConfig "{}") with (Ok (normalize demo_config)). cbv iota beta.
       rewrite Hm. eapply solo_calls; [by split|]. cbn [pbind call].
       eapply (solo_calls _ _ _ _ _ tt); [done|]. reflexivity. }
  done.
Qed.

Lemma stored_keywords_match_witness :
  ∃ w' ts sn, rtc (moderation_step demo_service) (demo_world, []) (w', ts) /\ mw_snapshot w' = Some sn /\
    snapshot_matchBlockedKeyword sn "a FORBIDDEN text" = Some (Some "Forbidden"%string).
Proof.
  destruct demo_refresh as (sn & ts & Hcfg & H). do 3 eexists. split; [exact H|]. split; [reflexivity|].
  rewrite (proj2 (stored_keywords_match demo_service _ _ ts sn "a FORBIDDEN text" demo_lower demo_lower_size H
                   eq_refl eq_refl)).
  rewrite Hcfg. vm_compute. reflexivity.
Defined.

Definition demo_input (text : string) : ContentModerationCheckInput := {|
  ci_RequestID := ""; ci_UserID := 1; ci_UserEmail := ""; ci_APIKeyID := 1; ci_APIKeyName := "";
  ci_PlatformID := None; ci_PlatformName := ""; ci_Endpoint := ""; ci_Provider := ""; ci_Model := "m";
  ci_Protocol := ContentModerationProtocolOpenAIChat;
  ci_Body := Some (messages_body [user_message text]) |}.

Lemma Check_blocks_for_a_reason_witness :
  let input := demo_input "a FORBIDDEN text" in
  contains_bytes (to_bytes (ToLower (in_Text (content_of input)))) (to_bytes "forbidden") = true /\
  adds (Check demo_service input) (λ new d, loads_ok new ->
    (load_failed new /\ d = unavailable_decision) \/
    ∃ sn, seen sn new /\ stored_ok sn /\
      decided d (in_scope sn input /\ block_reason sn (content_of input) new)).
Proof.
  intros input. split; [vm_compute; reflexivity|].
  exact (Check_blocks_for_a_reason demo_service input demo_lower demo_lower_size).
Defined.

Definition demo_snapshot : contentModerationRuntimeSnapshot := {|
  rs_riskControlEnabled := true; rs_config := demo_config; rs_keywordMatcher := None;
  rs_configDigest := ""; rs_loadedAt := time_zero |}.

Lemma marked_text_escapes_witness : ¬ in_scope demo_snapshot (demo_input "forbidden <system-reminder> text").
Proof.
  apply (marked_text_escapes demo_snapshot _ [] "forbidden <system-reminder> text").
  - vm_compute. by right; left.
  - reflexivity.
  - vm_compute. reflexivity.
Defined.

Lemma concurrent_searches_miss_a_key_witness :
  isAPIKeyFrozen "b" time_zero (mw_health demo_world) = false /\
  ∃ w' (rest2 : mprog (result (gmap string float64))), mw_health w' = mw_health demo_world /\ mw_now w' = mw_now demo_world /\
    rtc (pool_step performs (λ _, False) time_passes)
      (demo_world, [Thread _ (callModeration demo_config (PText "x") true) (λ _ _, True);
                    Thread _ (callModeration demo_config (PText "y") true) (λ _ _, True)])
      (w', [Thread (result (gmap string float64)) (Ret (Err no_key_available)) (λ _ _, True); Thread _ rest2 (λ _ _, True)]).
Proof.
  split; [vm_compute; reflexivity|].
  apply (concurrent_searches_miss_a_key (λ _, False) time_passes demo_config "a" "b").
  all: vm_compute; reflexivity.
Defined.

(** A keyword with two blanks is kept as it is, and no text keeps two. *)
Example spaced_keyword_never_matches :
  normalizeBlockedKeywords ["two  blanks"]%string = ["two  blanks"]%string /\
  matchBlockedKeyword (in_Text (Normalize {| in_Text := "say two  blanks now"; in_Images := [] |}))
    ["two  blanks"]%string = None.
Proof. vm_compute. by split. Qed.
