(* ===== verification/UsageMedia.v ===== *)
(** * Image, video and search charges

    [service/image_billing_size.go], [service/video_billing_resolution.go] and the
    charges of [service/billing_service.go] that are not by token (images by
    size, videos by second, web searches by call).

    Counts of list elements stay far below the width of [int] and are plain
    integers. *)

From S2P Require Import Prelude GoErrors Float64 GoTime GoStrings GoText PricingIntervals ModelPricing PricingCatalog OpenAIModels FallbackPrices Billing BillingProps.
From Stdlib Require Import Ascii String.

Definition ImageBillingSize1K : string := "1K".
Definition ImageBillingSize2K : string := "2K".
Definition ImageBillingSize4K : string := "4K".
Definition ImageSizeSourceOutput : string := "output".
Definition ImageSizeSourceInput : string := "input".
Definition ImageSizeSourceDefault : string := "default".

Record ImageBillingSizeResolution := mk_resolution {
  ir_BillingSize : string;
  ir_InputSize : string;
  ir_OutputSize : string;
  ir_Source : string;
  ir_Breakdown : option (gmap string Z)
}.

Section Media.
Context {UC : UnicodeCase}.

(** ** The size tier of an image *)

Definition parseImageBillingDimensions (size : string) : option (Z * Z) :=
  match Split (ToLower (TrimSpace size)) "x" with
  | [w; h] =>
    match Atoi (TrimSpace w), Atoi (TrimSpace h) with
    | Some width, Some height => if (width <=? 0) || (height <=? 0) then None else Some (width, height)
    | _, _ => None
    end
  | _ => None
  end.

Definition ClassifyImageBillingTier (size : string) : option string :=
  let trimmed := TrimSpace size in
  let normalized := ToLower trimmed in
  let is_ s := String.eqb normalized s in
  if str_empty normalized || is_ "auto"%string then None
  else if is_ "1k"%string then Some ImageBillingSize1K
  else if is_ "2k"%string then Some ImageBillingSize2K
  else if is_ "4k"%string then Some ImageBillingSize4K
  else if is_ "2048x2048"%string || is_ "2048x1152"%string then Some ImageBillingSize2K
  else if is_ "3840x2160"%string || is_ "2160x3840"%string then Some ImageBillingSize4K
  else match parseImageBillingDimensions trimmed with
       | None => None
       | Some (width, height) =>
         let maxEdge := if width <? height then height else width in
         Some (if maxEdge <=? 1024 then ImageBillingSize1K
               else if maxEdge <=? 2048 then ImageBillingSize2K else ImageBillingSize4K)
       end.

Definition NormalizeImageBillingTierOrDefault (size : string) : string :=
  default ImageBillingSize2K (ClassifyImageBillingTier size).

Definition imageTierRank (tier : string) : Z :=
  let t := ToUpper (TrimSpace tier) in
  if String.eqb t ImageBillingSize1K then 1
  else if String.eqb t ImageBillingSize2K then 2
  else if String.eqb t ImageBillingSize4K then 3 else 0.

Definition compactTrimmedStrings (values : list string) : list string :=
  filterb (λ v, negb (str_empty v)) (map TrimSpace values).

Fixpoint firstDisplayImageOutputSize (outputSizes : list string) : string :=
  match outputSizes with
  | [] => ""
  | output :: rest =>
    let trimmed := TrimSpace output in
    if str_empty trimmed then firstDisplayImageOutputSize rest else trimmed
  end.

Definition tier_count (breakdown : gmap string Z) (tier : string) : Z := default 0 (breakdown !! tier).

(** One output in the loop of [ResolveImageBillingSize]: the breakdown and the
    largest tier so far. *)
Definition count_output (acc : gmap string Z * string) (output : string) : gmap string Z * string :=
  match ClassifyImageBillingTier output with
  | None => acc
  | Some tier =>
    (<[tier := tier_count acc.1 tier + 1]> acc.1,
     if imageTierRank acc.2 <? imageTierRank tier then tier else acc.2)
  end.

Definition normalizeImageSizeBreakdown (counts : gmap string Z) : option (gmap string Z) :=
  let out := foldl (λ out tier, if 0 <? tier_count counts tier then <[tier := tier_count counts tier]> out else out)
               ∅ [ImageBillingSize1K; ImageBillingSize2K; ImageBillingSize4K] in
  if bool_decide (out = ∅) then None else Some out.

Definition ResolveImageBillingSize (inputSize : string) (outputSizes : list string) : ImageBillingSizeResolution :=
  let inputSize := TrimSpace inputSize in
  let outputSizes := compactTrimmedStrings outputSizes in
  let outputSize := firstDisplayImageOutputSize outputSizes in
  let '(breakdown, outputTier) := foldl count_output (∅, ""%string) outputSizes in
  if negb (str_empty outputTier) then
    mk_resolution outputTier inputSize outputSize ImageSizeSourceOutput (normalizeImageSizeBreakdown breakdown)
  else match ClassifyImageBillingTier inputSize with
  | Some tier => mk_resolution tier inputSize outputSize ImageSizeSourceInput None
  | None => mk_resolution ImageBillingSize2K inputSize outputSize ImageSizeSourceDefault None
  end.

(** What [ApplyForwardImageBillingResolution] and [ApplyOpenAIImageBillingResolution]
    make of the size fields of a result: the size asked for, unless it is only
    known as a billing size other than the default, and the sizes produced. *)
Definition result_image_resolution (imageSize imageInputSize imageOutputSize : string)
    (imageOutputSizes : list string) : ImageBillingSizeResolution :=
  let inputSize := TrimSpace imageInputSize in
  let inputSize := if str_empty inputSize && negb (String.eqb (TrimSpace imageSize) ImageBillingSize2K)
                   then TrimSpace imageSize else inputSize in
  let outputSizes := if is_nil imageOutputSizes && negb (str_empty (TrimSpace imageOutputSize))
                     then [imageOutputSize] else imageOutputSizes in
  ResolveImageBillingSize inputSize outputSizes.

Definition breakdown_less (a b : string) : bool :=
  if imageTierRank a =? imageTierRank b then String.ltb a b else imageTierRank a <? imageTierRank b.
Definition SortedImageBillingBreakdownKeys (breakdown : gmap string Z) : list string :=
  stable_sort breakdown_less (elements (dom breakdown)).

(** ** Videos *)

Definition VideoBillingResolution480P : string := "480p".
Definition VideoBillingResolution720P : string := "720p".
Definition VideoBillingResolution1080P : string := "1080p".
Definition VideoBillingMinDurationSeconds : Z := 1.
Definition VideoBillingMaxDurationSeconds : Z := 15.
Definition VideoBillingDefaultDurationSeconds : Z := 8.

Definition NormalizeVideoBillingDurationSecondsOrDefault (durationSeconds : Z) : Z :=
  if durationSeconds <=? 0 then VideoBillingDefaultDurationSeconds
  else if durationSeconds <? VideoBillingMinDurationSeconds then VideoBillingMinDurationSeconds
  else if VideoBillingMaxDurationSeconds <? durationSeconds then VideoBillingMaxDurationSeconds
  else durationSeconds.

Definition one_of (names : list string) (s : string) : bool := existsb (String.eqb s) names.
Definition NormalizeVideoBillingResolutionOrDefault (resolution : string) : string :=
  let r := ToLower (TrimSpace resolution) in
  if one_of ["480"; "480p"; "sd"]%string r then VideoBillingResolution480P
  else if one_of ["720"; "720p"; "hd"]%string r then VideoBillingResolution720P
  else if one_of ["1080"; "1080p"; "full_hd"; "full-hd"; "fhd"]%string r then VideoBillingResolution1080P
  else VideoBillingResolution480P.

(** ** Prices *)

Record ImagePriceConfig := { Price1K : option float64; Price2K : option float64; Price4K : option float64 }.
Record VideoPriceConfig := { Price480P : option float64; Price720P : option float64; Price1080P : option float64 }.

Definition defaultImageGenerationPrice : float64 := f64_lit 134 (-3).
Definition defaultGrokImagineImagePrice1K : float64 := f64_lit 2 (-2).
Definition defaultGrokImagineImagePrice2K : float64 := f64_lit 2 (-2).
Definition defaultGrokImagineImageQualityPrice1K : float64 := f64_lit 5 (-2).
Definition defaultGrokImagineImageQualityPrice2K : float64 := f64_lit 7 (-2).
Definition defaultGrokImagineVideoPrice480P : float64 := f64_lit 5 (-2).
Definition defaultGrokImagineVideoPrice720P : float64 := f64_lit 7 (-2).
Definition defaultGrokImagineVideo15Price480P : float64 := f64_lit 8 (-2).
Definition defaultGrokImagineVideo15Price720P : float64 := f64_lit 14 (-2).
Definition defaultGrokImagineVideo15Price1080P : float64 := f64_lit 25 (-2).
Definition defaultWebSearchPricePerCall : float64 := f64_lit 1 (-2).

Definition getGrokImagineImageTierPrice (imageSize : string) (price1K price2K : float64) : float64 :=
  if String.eqb (NormalizeImageBillingTierOrDefault imageSize) ImageBillingSize1K then price1K else price2K.

Definition getDefaultGrokImagineImagePrice (model imageSize : string) : option float64 :=
  let model := ToLower (TrimSpace model) in
  if String.eqb model "grok-imagine-image-quality" then
    Some (getGrokImagineImageTierPrice imageSize defaultGrokImagineImageQualityPrice1K defaultGrokImagineImageQualityPrice2K)
  else if one_of ["grok-imagine"; "grok-imagine-image"; "grok-imagine-edit"]%string model then
    Some (getGrokImagineImageTierPrice imageSize defaultGrokImagineImagePrice1K defaultGrokImagineImagePrice2K)
  else None.

Definition getDefaultGrokImagineVideoPrice (model resolution : string) : option float64 :=
  let model := ToLower (TrimSpace model) in
  let r := NormalizeVideoBillingResolutionOrDefault resolution in
  if HasPrefix model "grok-imagine-video-1.5" then
    Some (if String.eqb r VideoBillingResolution480P then defaultGrokImagineVideo15Price480P
          else if String.eqb r VideoBillingResolution720P then defaultGrokImagineVideo15Price720P
          else if String.eqb r VideoBillingResolution1080P then defaultGrokImagineVideo15Price1080P
          else defaultGrokImagineVideo15Price480P)
  else if HasPrefix model "grok-imagine-video" then
    Some (if String.eqb r VideoBillingResolution480P then defaultGrokImagineVideoPrice480P
          else if String.eqb r VideoBillingResolution720P || String.eqb r VideoBillingResolution1080P
          then defaultGrokImagineVideoPrice720P
          else defaultGrokImagineVideoPrice480P)
  else None.

Section Prices.
Context (catalog : option (string -> option LiteLLMPricingLookup)).

Definition getDefaultImagePrice (model imageSize : string) : float64 :=
  match getDefaultGrokImagineImagePrice model imageSize with
  | Some price => price
  | None =>
    let basePrice := match catalog_lookup catalog model with
                     | Some (p, _) => if fgtb (OutputCostPerImage p) f0 then OutputCostPerImage p else f0
                     | None => f0 end in
    let basePrice := if fleb basePrice f0 then defaultImageGenerationPrice else basePrice in
    if String.eqb imageSize "2K" then (basePrice * f64_lit 15 (-1))%f64
    else if String.eqb imageSize "4K" then (basePrice * f64_lit 2 0)%f64
    else basePrice
  end.

Definition configured_image_price (priceConfig : option ImagePriceConfig) (imageSize : string) : option float64 :=
  c ← priceConfig;
  if String.eqb imageSize "1K" then Price1K c
  else if String.eqb imageSize "2K" then Price2K c
  else if String.eqb imageSize "4K" then Price4K c else None.
Definition getImageUnitPrice (model imageSize : string) (priceConfig : option ImagePriceConfig) : float64 :=
  default (getDefaultImagePrice model imageSize) (configured_image_price priceConfig imageSize).

Definition getDefaultVideoPrice (model resolution : string) : float64 :=
  default (getDefaultImagePrice model ImageBillingSize2K) (getDefaultGrokImagineVideoPrice model resolution).
Definition configured_video_price (priceConfig : option VideoPriceConfig) (resolution : string) : option float64 :=
  c ← priceConfig;
  if String.eqb resolution VideoBillingResolution480P then Price480P c
  else if String.eqb resolution VideoBillingResolution720P then Price720P c
  else if String.eqb resolution VideoBillingResolution1080P then Price1080P c else None.
Definition getVideoUnitPrice (model resolution : string) (priceConfig : option VideoPriceConfig) : float64 :=
  default (getDefaultVideoPrice model resolution) (configured_video_price priceConfig resolution).

(** ** Charges *)

Definition CalculateWebSearchCost (callCount : Z) (overridePrice : option float64) (rateMultiplier : float64) : CostBreakdown :=
  if callCount <=? 0 then zero_breakdown else
  let unitPrice := match overridePrice with
                   | Some p => if fgeb p f0 then p else defaultWebSearchPricePerCall
                   | None => defaultWebSearchPricePerCall end in
  let totalCost := (unitPrice * f64_of_Z callCount)%f64 in
  flat_cost totalCost (totalCost * f64_multiplier rateMultiplier)%f64 BillingModePerRequest.

Definition CalculateImageCost (model imageSize : string) (imageCount : Z) (priceConfig : option ImagePriceConfig)
    (rateMultiplier : float64) : CostBreakdown :=
  if imageCount <=? 0 then zero_breakdown else
  let imageSize := NormalizeImageBillingTierOrDefault imageSize in
  let totalCost := (getImageUnitPrice model imageSize priceConfig * f64_of_Z imageCount)%f64 in
  flat_cost totalCost (totalCost * f64_multiplier rateMultiplier)%f64 BillingModeImage.

Definition CalculateVideoCost (model resolution : string) (videoCount durationSeconds : Z)
    (priceConfig : option VideoPriceConfig) (rateMultiplier : float64) : CostBreakdown :=
  if videoCount <=? 0 then zero_breakdown else
  let resolution := NormalizeVideoBillingResolutionOrDefault resolution in
  let durationSeconds := NormalizeVideoBillingDurationSecondsOrDefault durationSeconds in
  let perSecondPrice := getVideoUnitPrice model resolution priceConfig in
  let totalCost := (perSecondPrice * f64_of_Z durationSeconds * f64_of_Z videoCount)%f64 in
  flat_cost totalCost (totalCost * f64_multiplier rateMultiplier)%f64 BillingModeVideo.

End Prices.
End Media.

(** * Properties *)

Definition billing_tiers : list string := [ImageBillingSize1K; ImageBillingSize2K; ImageBillingSize4K].

Section Props.
Context {UC : UnicodeCase}.

Lemma classified_tier size tier : ClassifyImageBillingTier size = Some tier -> tier ∈ billing_tiers.
Proof.
  unfold ClassifyImageBillingTier, billing_tiers. cbv zeta. rewrite !elem_of_cons.
  intros H. repeat case_match; simplify_eq; auto.
Qed.
Lemma tier_rank tier : tier ∈ billing_tiers -> 1 <= imageTierRank tier <= 3.
Proof.
  unfold billing_tiers. rewrite !elem_of_cons, elem_of_nil. intros [->|[->|[->|[]]]]; vm_compute; split; congruence.
Qed.
Lemma tier_rank_inj t t' : t ∈ billing_tiers -> t' ∈ billing_tiers -> imageTierRank t = imageTierRank t' -> t = t'.
Proof.
  unfold billing_tiers. rewrite !elem_of_cons, !elem_of_nil.
  intros [->|[->|[->|[]]]] [->|[->|[->|[]]]]; vm_compute; congruence.
Qed.
Lemma classify_trim size : ClassifyImageBillingTier (TrimSpace size) = ClassifyImageBillingTier size.
Proof. unfold ClassifyImageBillingTier. by rewrite TrimSpace_idem. Qed.
Lemma classify_blank size : str_empty (TrimSpace size) = true -> ClassifyImageBillingTier size = None.
Proof.
  intros H. unfold ClassifyImageBillingTier. cbv zeta.
  replace (str_empty (ToLower (TrimSpace size))) with true; [done|].
  revert H. by destruct (TrimSpace size).
Qed.
Lemma classify_compact outputs :
  omap ClassifyImageBillingTier (compactTrimmedStrings outputs) = omap ClassifyImageBillingTier outputs.
Proof.
  unfold compactTrimmedStrings, filterb. induction outputs as [|o rest IH]; [done|]. cbn.
  destruct (str_empty (TrimSpace o)) eqn:E; cbn.
  - by rewrite IH, (classify_blank _ E).
  - by rewrite IH, classify_trim.
Qed.

Definition occurrences (t : string) (tiers : list string) : Z := Z.of_nat (List.length (filter (t =.) tiers)).

(** The loop over the outputs, as a loop over their tiers. *)
Definition count_tier (acc : gmap string Z * string) (tier : string) : gmap string Z * string :=
  (<[tier := tier_count acc.1 tier + 1]> acc.1,
   if imageTierRank acc.2 <? imageTierRank tier then tier else acc.2).
Lemma count_outputs outputs acc :
  foldl count_output acc outputs = foldl count_tier acc (omap ClassifyImageBillingTier outputs).
Proof.
  revert acc. induction outputs as [|o rest IH]; intros acc; [done|]. cbn. rewrite IH. unfold count_output at 1.
  by destruct (ClassifyImageBillingTier o).
Qed.

Lemma occurrences_cons t t' tiers : occurrences t (t' :: tiers) = (if decide (t = t') then 1 else 0) + occurrences t tiers.
Proof. unfold occurrences. rewrite filter_cons. destruct (decide (t = t')); cbn [List.length]; lia. Qed.

Lemma occurrences_none t tiers : t ∉ tiers -> occurrences t tiers = 0.
Proof.
  induction tiers as [|t' rest IH]; intros H; [done|]. rewrite occurrences_cons. apply not_elem_of_cons in H as [Hne H].
  by rewrite decide_False, IH.
Qed.
Lemma occurrences_some t tiers : t ∈ tiers -> 0 < occurrences t tiers.
Proof.
  intros H. unfold occurrences. assert (t ∈ filter (t =.) tiers) as Hin by (by apply list_elem_of_filter).
  destruct (filter (t =.) tiers); [by apply elem_of_nil in Hin|cbn; lia].
Qed.

Lemma counted_breakdown tiers acc t :
  tier_count (foldl count_tier acc tiers).1 t = tier_count acc.1 t + occurrences t tiers.
Proof.
  revert acc. induction tiers as [|t' rest IH]; intros acc; [unfold occurrences; cbn; lia|].
  cbn [foldl]. rewrite IH, occurrences_cons. unfold count_tier at 1, tier_count. cbn.
  destruct (decide (t = t')) as [->|Hne].
  - rewrite lookup_insert_eq. cbn. lia.
  - rewrite lookup_insert_ne by congruence. lia.
Qed.

Lemma counted_tier tiers acc :
  Forall (.∈ billing_tiers) tiers ->
  let best := (foldl count_tier acc tiers).2 in
  (best = acc.2 \/ best ∈ tiers) /\ imageTierRank acc.2 <= imageTierRank best /\
  ∀ t, t ∈ tiers -> imageTierRank t <= imageTierRank best.
Proof.
  cbv zeta. revert acc. induction tiers as [|t rest IH]; intros acc H.
  { cbn. split_and!; [by left|lia|]. intros t Ht. by apply elem_of_nil in Ht. }
  apply Forall_cons in H as [_ Hrest]. specialize (IH (count_tier acc t) Hrest) as (H1 & H2 & H3).
  cbn [foldl]. assert (imageTierRank acc.2 <= imageTierRank (count_tier acc t).2
                       /\ imageTierRank t <= imageTierRank (count_tier acc t).2) as [Ha Hb].
  { unfold count_tier. cbn. destruct (_ <? _) eqn:E; bool_lia. }
  split_and!; [|lia|].
  - rewrite elem_of_cons. destruct H1 as [H1|H1]; [|tauto].
    rewrite H1. unfold count_tier. cbn. destruct (_ <? _); auto.
  - intros t' Ht'. apply elem_of_cons in Ht' as [->|Ht']; [lia|auto].
Qed.

Lemma normalized_breakdown counts :
  (∀ t, t ∉ billing_tiers -> tier_count counts t = 0) -> (∀ t, 0 <= tier_count counts t) ->
  (∃ t, 0 < tier_count counts t) ->
  ∃ out, normalizeImageSizeBreakdown counts = Some out /\ ∀ t, tier_count out t = tier_count counts t.
Proof.
  intros Hout Hpos [t0 Ht0]. unfold normalizeImageSizeBreakdown. cbv zeta.
  set (step := λ (out : gmap string Z) tier, if 0 <? tier_count counts tier then <[tier := tier_count counts tier]> out else out).
  assert (∀ tiers acc t, tier_count (foldl step acc tiers) t
            = if decide (t ∈ tiers /\ 0 < tier_count counts t) then tier_count counts t else tier_count acc t) as Hfold.
  { intros tiers. induction tiers as [|t1 rest IH]; intros acc t'; cbn [foldl].
    - rewrite decide_False; [done|]. intros [H _]. by apply elem_of_nil in H.
    - rewrite IH. destruct (decide (t' ∈ rest /\ 0 < tier_count counts t')) as [[H1 H2]|H].
      + rewrite decide_True; [done|]. split; [by right|done].
      + unfold step. destruct (decide (t' = t1)) as [->|Hne].
        * destruct (0 <? tier_count counts t1) eqn:E.
          -- rewrite decide_True by (split; [by left|lia]). unfold tier_count at 1. by rewrite lookup_insert_eq.
          -- rewrite decide_False; [done|]. intros [_ ?]. bool_lia.
        * rewrite (decide_False (P := t' ∈ t1 :: rest /\ _)).
          { destruct (0 <? tier_count counts t1); [|done]. unfold tier_count at 1. by rewrite lookup_insert_ne. }
          intros [Hin ?]. apply elem_of_cons in Hin as [?|Hin]; [done|]. by apply H. }
  set (out := foldl step ∅ billing_tiers). change (foldl step ∅ _) with out.
  assert (∀ t, tier_count out t = tier_count counts t) as Heq.
  { intros t'. unfold out. rewrite Hfold. destruct (decide _) as [_|H]; [done|].
    change (tier_count ∅ t') with 0. specialize (Hpos t').
    destruct (decide (t' ∈ billing_tiers)) as [Hin|Hin]; [|by rewrite Hout].
    destruct (decide (0 < tier_count counts t')); [|lia]. naive_solver. }
  assert (out ≠ ∅) as Hne.
  { intros H. specialize (Heq t0). rewrite H in Heq. change (tier_count ∅ t0) with 0 in Heq. lia. }
  rewrite bool_decide_eq_false_2 by done. by exists out.
Qed.
(** C37. The size an image is billed at.  When a size of the outputs can be
    read, it is the largest tier among them, the source says so and the
    breakdown counts the outputs of each tier; otherwise it is the tier of the
    size asked for, or 2K when that cannot be read either, and there is no
    breakdown. *)
Theorem largest_output_decides_size inputSize outputSizes :
  let r := ResolveImageBillingSize inputSize outputSizes in
  let tiers := omap ClassifyImageBillingTier outputSizes in
  if is_nil tiers
  then ir_BillingSize r = NormalizeImageBillingTierOrDefault inputSize /\ ir_Breakdown r = None
       /\ ir_Source r ≠ ImageSizeSourceOutput
  else ir_BillingSize r ∈ tiers /\ Forall (λ t, imageTierRank t <= imageTierRank (ir_BillingSize r)) tiers
       /\ ir_Source r = ImageSizeSourceOutput
       /\ ∃ b, ir_Breakdown r = Some b /\ ∀ t, tier_count b t = occurrences t tiers.
Proof.
  cbv zeta. unfold ResolveImageBillingSize. cbv zeta. rewrite count_outputs, classify_compact.
  set (tiers := omap ClassifyImageBillingTier outputSizes).
  assert (Forall (.∈ billing_tiers) tiers) as Htiers.
  { apply Forall_forall. intros t (o & _ & Ho)%list_elem_of_omap. by eapply classified_tier. }
  destruct (counted_tier tiers (∅, ""%string) Htiers) as (H1 & _ & H3).
  pose proof (λ t, counted_breakdown tiers (∅, ""%string) t) as Hc.
  destruct (foldl count_tier (∅, ""%string) tiers) as [counts best]. cbn in H1, H3, Hc.
  destruct tiers as [|t0 rest] eqn:Et; cbn [is_nil].
  - destruct H1 as [->|H1]; [|by apply elem_of_nil in H1]. cbn. rewrite classify_trim.
    unfold NormalizeImageBillingTierOrDefault. by destruct (ClassifyImageBillingTier inputSize).
  - rewrite <- Et in *. assert (best ∈ tiers) as Hbest.
    { destruct H1 as [->|H1]; [|done]. specialize (H3 t0). rewrite Et in H3.
      specialize (H3 ltac:(by left)). rewrite Forall_forall in Htiers.
      pose proof (tier_rank t0 (Htiers t0 ltac:(rewrite Et; by left))) as Hr.
      change (imageTierRank "") with 0 in H3. lia. }
    rewrite Forall_forall in Htiers.
    assert (str_empty best = false) as ->.
    { specialize (Htiers best Hbest). revert Htiers. unfold billing_tiers.
      rewrite !elem_of_cons, elem_of_nil. by intros [->|[->|[->|[]]]]. }
    cbn. split_and!; [done|by apply Forall_forall|done|].
    assert (∀ t, tier_count counts t = occurrences t tiers) as Hc' by (intros t; rewrite Hc; done).
    destruct (normalized_breakdown counts) as (out & -> & Hn).
    + intros t Ht. rewrite Hc'. apply occurrences_none. intros Hin. by apply Ht, Htiers.
    + intros t. rewrite Hc'. unfold occurrences. lia.
    + exists best. rewrite Hc'. by apply occurrences_some.
    + exists out. split; [done|]. intros t. by rewrite Hn.
Qed.

(** ** Prices and charges *)

Lemma video_duration_bounds d : 1 <= NormalizeVideoBillingDurationSecondsOrDefault d <= 15.
Proof.
  unfold NormalizeVideoBillingDurationSecondsOrDefault, VideoBillingDefaultDurationSeconds,
    VideoBillingMinDurationSeconds, VideoBillingMaxDurationSeconds.
  repeat case_match; bool_lia.
Qed.
Lemma f64_lit_not_neg_b m e : not_negb (f64_lit m e) = true -> not_neg (f64_lit m e).
Proof. apply not_neg_iff. Qed.

Section Charges.
Context (catalog : option (string -> option LiteLLMPricingLookup)).

Lemma default_image_price_not_neg model size : not_neg (getDefaultImagePrice catalog model size).
Proof.
  unfold getDefaultImagePrice. destruct (getDefaultGrokImagineImagePrice model size) as [p|] eqn:Eg.
  { revert Eg. unfold getDefaultGrokImagineImagePrice, getGrokImagineImageTierPrice.
    repeat case_match; intros [= <-]; by apply f64_lit_not_neg_b. }
  cbv zeta. set (b := match catalog_lookup catalog model with Some (p, _) => _ | None => f0 end).
  assert (not_neg b) as Hb.
  { subst b. destruct (catalog_lookup catalog model) as [[p src]|]; [|apply not_neg_f0].
    destruct (fgtb (OutputCostPerImage p) f0) eqn:Ep; [by apply fgtb_not_neg|apply not_neg_f0]. }
  assert (not_neg (if fleb b f0 then defaultImageGenerationPrice else b)) as Hp
    by (case_match; [by apply f64_lit_not_neg_b|done]).
  repeat case_match; try done; apply fmul_not_neg; (done || by apply f64_lit_not_neg_b).
Qed.
Lemma default_video_price_not_neg model resolution : not_neg (getDefaultVideoPrice catalog model resolution).
Proof.
  unfold getDefaultVideoPrice. destruct (getDefaultGrokImagineVideoPrice model resolution) as [p|] eqn:Eg;
    [|apply default_image_price_not_neg].
  cbn. revert Eg. unfold getDefaultGrokImagineVideoPrice. repeat case_match; intros [= <-]; by apply f64_lit_not_neg_b.
Qed.

(** The charges that are not by token are never negative, whatever the
    multiplier, the counts, the duration asked for and the catalogue say. *)
Theorem media_charges_not_negative model size resolution n duration rate :
  Forall (λ c, not_neg (TotalCost c) /\ not_neg (ActualCost c))
    [CalculateImageCost catalog model size n None rate;
     CalculateVideoCost catalog model resolution n duration None rate;
     CalculateWebSearchCost n None rate].
Proof.
  assert (∀ total mode, not_neg total ->
    not_neg (TotalCost (flat_cost total (total * f64_multiplier rate)%f64 mode))
    /\ not_neg (ActualCost (flat_cost total (total * f64_multiplier rate)%f64 mode))) as Hflat.
  { intros total mode H. split; [done|]. apply fmul_not_neg; [done|apply f64_multiplier_not_neg]. }
  unfold CalculateImageCost, CalculateVideoCost, CalculateWebSearchCost. destruct (n <=? 0) eqn:En.
  { repeat constructor; apply not_neg_f0. }
  assert (not_neg (f64_of_Z n)) by (apply f64_of_Z_not_neg; lia).
  repeat (apply Forall_cons; split; [apply Hflat|]); [..|constructor].
  - apply fmul_not_neg; [apply default_image_price_not_neg|done].
  - repeat apply fmul_not_neg; [apply default_video_price_not_neg| |done].
    apply f64_of_Z_not_neg. pose proof (video_duration_bounds duration). lia.
  - apply fmul_not_neg; [by apply f64_lit_not_neg_b|done].
Qed.
End Charges.

End Props.
