(* ===== verification/UsageRecord.v ===== *)
(** * Recording the usage of a request: data and charges

    [service/gateway_usage_billing.go] with its helpers of
    [service/usage_log_helpers.go], [service/platform_asset_request.go] and
    [service/gateway_upstream_response.go]: what a forwarded request has used,
    the price of it, the billing command, the charge and the usage log.

    The functions are programs of calls ([ucall]): the price overrides, the
    settings, the clock, the billing transaction, the caches, the
    notifications and the log.  A goroutine that makes one call is that call,
    placed where it is started; its answer is not waited for.  Values that are
    dereferenced before they are checked (key, user, account, cost, result)
    are not pointers here, and neither is the cache service.  Lines written to
    the process's own log are left out. *)

From S2P Require Import Prelude GoErrors Prog Float64 GoTime GoStrings GoText Subscription APIKeys Account AccountQuota AccountSelection ModelMapping AssetResolver ProductCoreAdapter PlatformModels ModelPricing PricingIntervals PricingCatalog Billing UsageBilling UsageMedia.
From Stdlib Require Import Ascii String.

Open Scope prog_scope.

(** ** What was used *)

Record ClaudeUsage := mk_usage {
  cu_InputTokens : Z;
  cu_OutputTokens : Z;
  cu_CacheCreationInputTokens : Z;
  cu_CacheReadInputTokens : Z;
  cu_CacheCreation5mTokens : Z;
  cu_CacheCreation1hTokens : Z;
  cu_ImageOutputTokens : Z
}.

(** The image fields of [ForwardResult] and [OpenAIForwardResult]. *)
Record ImageFields := mk_images {
  im_ImageCount : Z;
  im_ImageSize : string;
  im_ImageInputSize : string;
  im_ImageOutputSize : string;
  im_ImageOutputSizes : list string;
  im_ImageSizeSource : string;
  im_ImageSizeBreakdown : option (gmap string Z)
}.
Definition no_images (count : Z) : ImageFields := mk_images count "" "" "" [] "" None.

Record ForwardResult := mk_forward {
  fr_RequestID : string;
  fr_Usage : ClaudeUsage;
  fr_Model : string;
  fr_UpstreamModel : string;
  fr_Stream : bool;
  fr_Duration : Z;
  fr_FirstTokenMs : option Z;
  fr_ReasoningEffort : option string;
  fr_Images : ImageFields
}.

Record ModelRoutingUsageFields := {
  mr_OriginalModel : string;
  mr_MappedModel : string;
  mr_BillingModelSource : string;
  mr_ModelMappingChain : string
}.
Definition BillingModelSourceRequested : string := "requested".
Definition BillingModelSourceMapped : string := "mapped".

(** [recordUsageCoreInput] and [OpenAIRecordUsageInput]: only the first has
    [ForceCacheBilling], only the second [CyberBlocked].  The platforms a key
    is allowed are given by their adapters. *)
Record UsageInput (R : Type) := {
  ui_Result : R;
  ui_APIKey : APIKey;
  ui_AllowedPlatforms : list string;
  ui_User : User;
  ui_Account : Account;
  ui_Subscription : option UserSubscription;
  ui_InboundEndpoint : string;
  ui_UpstreamEndpoint : string;
  ui_UserAgent : string;
  ui_IPAddress : string;
  ui_SessionID : string;
  ui_RequestPayloadHash : string;
  ui_ForceCacheBilling : bool;
  ui_HasAPIKeyService : bool;
  ui_HasInvalidator : bool;
  ui_QuotaPlatform : string;
  ui_CyberBlocked : bool;
  ui_Routing : ModelRoutingUsageFields
}.
Arguments ui_Result {R} _. Arguments ui_APIKey {R} _. Arguments ui_AllowedPlatforms {R} _.
Arguments ui_User {R} _. Arguments ui_Account {R} _. Arguments ui_Subscription {R} _.
Arguments ui_InboundEndpoint {R} _. Arguments ui_UpstreamEndpoint {R} _. Arguments ui_UserAgent {R} _.
Arguments ui_IPAddress {R} _. Arguments ui_SessionID {R} _. Arguments ui_RequestPayloadHash {R} _.
Arguments ui_ForceCacheBilling {R} _. Arguments ui_HasAPIKeyService {R} _. Arguments ui_HasInvalidator {R} _.
Arguments ui_QuotaPlatform {R} _. Arguments ui_CyberBlocked {R} _. Arguments ui_Routing {R} _.

(** The values a context carries; empty when it has none. *)
Record UsageContext := {
  ux_ClientRequestID : string;
  ux_RequestID : string;
  ux_Route : option GatewayPlatformAssetContext;
  ux_ResolvedTargetPlatform : string;
  ux_ForcePlatform : string
}.

(** ** The usage log *)

(** The fields the recording sets; the others keep their zero value. *)
Record UsageLog := mk_usage_log {
  ul_UserID : Z;
  ul_APIKeyID : Z;
  ul_AccountID : Z;
  ul_RequestID : string;
  ul_Model : string;
  ul_RequestedModel : string;
  ul_UpstreamModel : option string;
  ul_ModelMappingChain : option string;
  ul_BillingMode : option string;
  ul_ServiceTier : option string;
  ul_ReasoningEffort : option string;
  ul_InboundEndpoint : option string;
  ul_UpstreamEndpoint : option string;
  ul_SubscriptionID : option Z;
  ul_PlatformID : option Z;
  ul_BillingSourceType : option string;
  ul_InputTokens : Z;
  ul_OutputTokens : Z;
  ul_CacheCreationTokens : Z;
  ul_CacheReadTokens : Z;
  ul_CacheCreation5mTokens : Z;
  ul_CacheCreation1hTokens : Z;
  ul_ImageInputTokens : Z;
  ul_ImageOutputTokens : Z;
  ul_Cost : CostBreakdown;
  ul_RateMultiplier : float64;
  ul_AccountRateMultiplier : option float64;
  ul_BillingType : Z;
  ul_RequestType : Z;
  ul_Stream : bool;
  ul_OpenAIWSMode : bool;
  ul_DurationMs : option Z;
  ul_FirstTokenMs : option Z;
  ul_UserAgent : option string;
  ul_IPAddress : option string;
  ul_SessionID : option string;
  ul_CacheTTLOverridden : bool;
  ul_ImageCount : Z;
  ul_ImageSize : option string;
  ul_ImageInputSize : option string;
  ul_ImageOutputSize : option string;
  ul_ImageSizeSource : option string;
  ul_ImageSizeBreakdown : option (gmap string Z);
  ul_VideoCount : Z;
  ul_VideoResolution : option string;
  ul_VideoDurationSeconds : option Z;
  ul_CreatedAt : time
}.

Definition BillingTypeBalance : Z := 0.
Definition BillingTypeSubscription : Z := 1.
Definition RequestTypeUnknown : Z := 0.
Definition RequestTypeCyberBlocked : Z := 4.

(** [Duration.Milliseconds] *)
Definition Milliseconds (d : Z) : Z := Z.quot d 1000000.

Definition optionalTrimmedStringPtr (raw : string) : option string :=
  let trimmed := TrimSpace raw in if str_empty trimmed then None else Some trimmed.
Definition optionalSubscriptionID (subscription : option UserSubscription) : option Z := us_ID <$> subscription.
Definition forwardResultBillingModel (requestedModel upstreamModel : string) : string :=
  let trimmed := TrimSpace requestedModel in if str_empty trimmed then TrimSpace upstreamModel else trimmed.

(** ** The services *)

Inductive log_repository := NoLogRepo | PlainLogRepo | BestEffortLogRepo.
(** The settings of [config.Config] a recording reads. *)
Record UsageConfig := { cf_RateMultiplier : float64; cf_RunMode : string; cf_FlusherEnabled : bool }.
Definition RunModeSimple : string := "simple".

(** Which services are set. *)
Record Recorder := {
  sv_cfg : option UsageConfig;
  sv_resolver : bool;
  sv_settingService : bool;
  sv_usageBillingRepo : bool;
  sv_usageLogRepo : log_repository;
  sv_userPlatformQuotaRepo : bool;
  sv_balanceNotifyService : bool;
  sv_rateLimitService : bool
}.
Definition simple_mode (s : Recorder) : bool :=
  match sv_cfg s with Some c => String.eqb (cf_RunMode c) RunModeSimple | None => false end.
Definition flusher_enabled (s : Recorder) : bool :=
  match sv_cfg s with Some c => cf_FlusherEnabled c | None => false end.
Definition fallback_multiplier (s : Recorder) : float64 :=
  match sv_cfg s with Some c => cf_RateMultiplier c | None => f1 end.

Inductive ucall : Type -> Type :=
| LookupOverride (input : PricingInput) : ucall (result (option ModelPricingOverride))
| CacheTTL1hInjectionEnabled : ucall bool
| GenerateRequestID : ucall string
| UsageNow : ucall time
| LoadAPIKey (id : Z) : ucall (result (option (APIKey * list string)))
| LoadUser (id : Z) : ucall (result (option User))
| GetAccount (id : Z) : ucall (result (option Account))
| LoadSubscription (id : Z) : ucall (result (option UserSubscription))
| ResetOpenAI403Counter (id : Z) : ucall unit
| ApplyCharge (cmd : UsageBillingCommand) : ucall (result (option UsageBillingApplyResult))
| IncrementSubscriptionUsage (id : Z) (cost : float64) : ucall (option error)
| DeductUserBalance (id : Z) (cost : float64) : ucall (option error)
| UpdateQuotaUsed (id : Z) (cost : float64) : ucall (option error)
| UpdateRateLimitUsage (id : Z) (cost : float64) : ucall (option error)
| IncrementAccountQuota (id : Z) (cost : float64) : ucall (option error)
| IncrementPlatformUsage (user : Z) (platform : string) (cost : float64) (now : time) : ucall (option error)
| QueueUpdateSubscriptionUsage (user id : Z) (cost : float64) : ucall unit
| InvalidateUserBalance (user : Z) : ucall (option error)
| QueueDeductBalance (user : Z) (cost : float64) : ucall unit
| QueueUpdateAPIKeyRateLimitUsage (id : Z) (cost : float64) : ucall unit
| BalanceBelowEligibilityThreshold (balance : Z) : ucall bool
| HasUserPlatformQuotaLimit (user : Z) (platform : string) : ucall bool
| IncrementUserPlatformQuotaUsage (user : Z) (platform : string) (cost : float64) : ucall unit
| InvalidateAuthCache (key : string) : ucall unit
| ScheduleLastUsedUpdate (account : Z) : ucall unit
| CheckBalanceAfterDeduction (user : User) (old cost : float64) : ucall unit
| CheckAccountQuotaAfterIncrement (account : Account) (cost : float64) (state : option AccountQuotaState) : ucall unit
| CreateBestEffort (log : UsageLog) : ucall (option error)
| CreateLog (log : UsageLog) : ucall (option error)
| WriteContextExpired : ucall bool.
Abbreviation uprog := (prog ucall).

(** [if cond { call }] *)
Definition pwhen (cond : bool) (p : uprog unit) : uprog unit := if cond then p else Ret tt.
(** A call whose error is only logged. *)
Definition logged (p : uprog (option error)) : uprog unit := let* _ := p in Ret tt.
(** [x, err := p; if err != nil { return err }; ...] *)
Definition attempt {A B} (p : uprog (result A)) (k : A -> uprog (result B)) : uprog (result B) :=
  let* r := p in match r with Ok a => k a | Err e => Ret (Err e) end.
Notation "'let?*' x ':=' m 'in' k" := (attempt m (fun x => k))
  (at level 10, x name, m at level 200, k at level 200) : prog_scope.

(** ** Parameters of a charge *)

Record postUsageBillingParams := {
  pb_Cost : CostBreakdown;
  pb_User : User;
  pb_APIKey : APIKey;
  pb_Account : Account;
  pb_Subscription : option UserSubscription;
  pb_RequestPayloadHash : string;
  pb_IsSubscriptionBill : bool;
  pb_AccountRateMultiplier : float64;
  pb_HasAPIKeyService : bool;
  pb_HasInvalidator : bool;
  pb_Platform : string
}.

Definition shouldDeductAPIKeyQuota (p : postUsageBillingParams) : bool :=
  fgtb (ActualCost (pb_Cost p)) f0 && fgtb (key_Quota (pb_APIKey p)) f0 && pb_HasAPIKeyService p.
Definition shouldUpdateRateLimits (p : postUsageBillingParams) : bool :=
  fgtb (ActualCost (pb_Cost p)) f0 && HasRateLimits (pb_APIKey p) && pb_HasAPIKeyService p.

Definition BillingRateMultiplier (a : Account) : float64 :=
  match acc_RateMultiplier a with
  | None => f1
  | Some r => if fltb r f0 then f1 else r
  end.

Definition PlatformComposite : string := "composite".
Definition PlatformFromAPIKey (allowed : list string) : string :=
  match allowed with [adapter] => adapter | _ => "" end.

Section Recording.
Context {UC : UnicodeCase} {Host : GoHost}.
(** The price catalogue and the order of the built-in table; the rounding,
    hashing and formatting of [UsageBilling]; what a balance of the database
    is as a [float64]. *)
Context (catalog : option (string -> option LiteLLMPricingLookup)) (map_order : list string)
        (decimal_round8 : float64 -> float64) (sha256_hex : string -> string)
        (format_d : Z -> string) (format_f10 : float64 -> string) (scan_decimal : Z -> float64).

Definition shouldUpdateAccountQuota (p : postUsageBillingParams) : bool :=
  fgtb (TotalCost (pb_Cost p)) f0 && IsAPIKeyOrBedrock (pb_Account p) && HasAnyQuotaLimit (pb_Account p).
Definition account_cost (p : postUsageBillingParams) : float64 :=
  (TotalCost (pb_Cost p) * pb_AccountRateMultiplier p)%f64.

(** ** Request identifiers *)

Definition resolveUsageBillingRequestID (ctx : UsageContext) (upstreamRequestID : string) : uprog string :=
  if negb (str_empty (TrimSpace (ux_ClientRequestID ctx)))
  then Ret ("client:" ++ TrimSpace (ux_ClientRequestID ctx))%string
  else if negb (str_empty (TrimSpace (ux_RequestID ctx))) then Ret ("local:" ++ TrimSpace (ux_RequestID ctx))%string
  else if negb (str_empty (TrimSpace upstreamRequestID)) then Ret (TrimSpace upstreamRequestID)
  else let* id := call GenerateRequestID in Ret ("generated:" ++ id)%string.

Definition resolveUsageBillingPayloadFingerprint (ctx : UsageContext) (requestPayloadHash : string) : string :=
  let payloadHash := TrimSpace requestPayloadHash in
  if negb (str_empty payloadHash) then payloadHash
  else if negb (str_empty (TrimSpace (ux_ClientRequestID ctx)))
  then ("client:" ++ TrimSpace (ux_ClientRequestID ctx))%string
  else if negb (str_empty (TrimSpace (ux_RequestID ctx))) then ("local:" ++ TrimSpace (ux_RequestID ctx))%string
  else "".

Definition ResolvedTargetPlatformFromContext (ctx : UsageContext) : option string :=
  let platform := TrimSpace (ux_ResolvedTargetPlatform ctx) in if str_empty platform then None else Some platform.
(** The adapter whose quota a request counts against. *)
Definition QuotaPlatform (ctx : UsageContext) (allowed : list string) : string :=
  if negb (str_empty (ux_ForcePlatform ctx)) then ux_ForcePlatform ctx
  else match ResolvedTargetPlatformFromContext ctx with
  | Some platform => platform
  | None => let platform := PlatformFromAPIKey allowed in
            if String.eqb platform PlatformComposite then "" else platform
  end.

(** ** The price of a model on the route of the request *)

Definition effectivePricingAdapter (ctx : UsageContext) : string :=
  let adapter := match ux_Route ctx with
                 | Some route => TrimSpace (rp_AccountPlatform (gctx_Platform route)) | None => "" end in
  if negb (str_empty adapter) then adapter else default "" (ResolvedTargetPlatformFromContext ctx).
Definition pricingInputForRequest (ctx : UsageContext) (model : string) : PricingInput := {|
  pin_Model := model;
  pin_Adapter := effectivePricingAdapter ctx;
  pin_PlatformCode := match ux_Route ctx with
                      | Some route => TrimSpace (rp_PlatformCode (gctx_Platform route)) | None => "" end;
  pin_PublicModel := match ux_Route ctx with
                     | Some route => TrimSpace (rp_RequestedModel (gctx_Platform route)) | None => "" end |}.

(** [ModelPricingResolver.Resolve] *)
Definition resolve_price (input : PricingInput) : uprog (result ResolvedPricing) :=
  let?* override := call (LookupOverride input) in
  Ret (resolveWithOverride catalog map_order input override).

Definition resolveModelPricingOverride (s : Recorder) (ctx : UsageContext) (billingModel : string)
    : uprog (result (option ResolvedPricing)) :=
  if negb (sv_resolver s) then Ret (Ok None) else
  let?* resolved := resolve_price (pricingInputForRequest ctx billingModel) in
  Ret (Ok (if String.eqb (Source resolved) PricingSourceOverride then Some resolved else None)).

Definition hasResolvableTokenPricing (s : Recorder) (ctx : UsageContext) (model : string) : uprog bool :=
  if str_empty (TrimSpace model) then Ret false else
  let* r := resolveModelPricingOverride s ctx model in
  match r with
  | Ok (Some _) => Ret true
  | _ => Ret (is_ok (GetModelPricing catalog model))
  end.

Fixpoint fallback_model (s : Recorder) (ctx : UsageContext) (billingModel : string) (fallbacks : list string)
    : uprog string :=
  match fallbacks with
  | [] => Ret billingModel
  | fallback :: rest =>
    let fallback := TrimSpace fallback in
    if str_empty fallback || String.eqb fallback billingModel then fallback_model s ctx billingModel rest else
    let* ok := hasResolvableTokenPricing s ctx fallback in
    if (ok : bool) then Ret fallback else fallback_model s ctx billingModel rest
  end.
Definition billableModelWithFallback (s : Recorder) (ctx : UsageContext) (billingModel : string)
    (fallbacks : list string) : uprog string :=
  let* ok := hasResolvableTokenPricing s ctx billingModel in
  if (ok : bool) then Ret billingModel else fallback_model s ctx billingModel fallbacks.

Definition request_cost_input (ctx : UsageContext) (model : string) (tokens : UsageTokens) (requestCount : Z)
    (sizeTier : string) (multiplier : float64) (serviceTier : string) (resolved : option ResolvedPricing)
    (longContext : option bool) : CostInput :=
  let p := pricingInputForRequest ctx model in {|
  ci_Model := model; ci_Adapter := pin_Adapter p; ci_PlatformCode := pin_PlatformCode p;
  ci_PublicModel := pin_PublicModel p; ci_Tokens := tokens; ci_RequestCount := requestCount;
  ci_SizeTier := sizeTier; ci_RateMultiplier := multiplier; ci_ServiceTier := serviceTier;
  ci_Resolved := resolved; ci_LongContextBillingEnabled := longContext |}.

(** ** The billing command *)

Definition buildUsageBillingCommand (requestID : string) (usageLog : option UsageLog) (p : postUsageBillingParams)
    : UsageBillingCommand :=
  let of_log {A} (d : A) (f : UsageLog -> A) : A := match usageLog with Some l => f l | None => d end in
  let to_subscription := pb_IsSubscriptionBill p && bool_decide (is_Some (pb_Subscription p))
                         && fgtb (TotalCost (pb_Cost p)) f0 in
  let cost := ActualCost (pb_Cost p) in
  Normalize decimal_round8 sha256_hex format_d format_f10 {|
    RequestID := requestID; cmd_APIKeyID := key_ID (pb_APIKey p); RequestFingerprint := "";
    RequestPayloadHash := TrimSpace (pb_RequestPayloadHash p); cmd_UserID := user_ID (pb_User p);
    cmd_AccountID := acc_ID (pb_Account p);
    cmd_SubscriptionID := if to_subscription then us_ID <$> pb_Subscription p else of_log None ul_SubscriptionID;
    cmd_AccountType := acc_Type (pb_Account p); cmd_Model := of_log ""%string ul_Model;
    cmd_ServiceTier := of_log ""%string (λ l, default ""%string (ul_ServiceTier l));
    cmd_ReasoningEffort := of_log ""%string (λ l, default ""%string (ul_ReasoningEffort l));
    cmd_BillingType := of_log 0 ul_BillingType; cmd_InputTokens := of_log 0 ul_InputTokens;
    cmd_OutputTokens := of_log 0 ul_OutputTokens; cmd_CacheCreationTokens := of_log 0 ul_CacheCreationTokens;
    cmd_CacheReadTokens := of_log 0 ul_CacheReadTokens; cmd_ImageCount := of_log 0 ul_ImageCount;
    cmd_MediaType := "";
    BalanceCost := if negb to_subscription && fgtb cost f0 then cost else f0;
    SubscriptionCost := if to_subscription then cost else f0;
    APIKeyQuotaCost := if shouldDeductAPIKeyQuota p then cost else f0;
    APIKeyRateLimitCost := if shouldUpdateRateLimits p then cost else f0;
    AccountQuotaCost := if shouldUpdateAccountQuota p then account_cost p else f0 |}.

(** ** After the charge *)

Definition syncBalanceCacheAfterDeduction (p : postUsageBillingParams) (result : option UsageBillingApplyResult)
    : uprog unit :=
  let user := user_ID (pb_User p) in
  let queue := call (QueueDeductBalance user (ActualCost (pb_Cost p))) in
  match result ≫= NewBalance with
  | None => queue
  | Some balance =>
    let* below := call (BalanceBelowEligibilityThreshold balance) in
    if (below : bool) then logged (call (InvalidateUserBalance user)) else queue
  end.

Definition resolveOldBalance (p : postUsageBillingParams) (result : option UsageBillingApplyResult) : float64 :=
  match result ≫= NewBalance with
  | Some balance => (scan_decimal balance + ActualCost (pb_Cost p))%f64
  | None => user_Balance (pb_User p)
  end.
Definition notifyBalanceLow (s : Recorder) (p : postUsageBillingParams) (result : option UsageBillingApplyResult)
    : uprog unit :=
  pwhen (negb (pb_IsSubscriptionBill p || fleb (ActualCost (pb_Cost p)) f0 || negb (sv_balanceNotifyService s)))
    (call (CheckBalanceAfterDeduction (pb_User p) (resolveOldBalance p result) (ActualCost (pb_Cost p)))).
Definition notifyAccountQuota (s : Recorder) (p : postUsageBillingParams) (result : option UsageBillingApplyResult)
    : uprog unit :=
  pwhen (negb (fleb (TotalCost (pb_Cost p)) f0 || negb (IsAPIKeyOrBedrock (pb_Account p))
               || negb (sv_balanceNotifyService s)))
    (call (CheckAccountQuotaAfterIncrement (pb_Account p) (account_cost p) (result ≫= QuotaState))).

(** The platform quota of a user with a limit, in the cache and, unless the
    flusher does it, in the database. *)
Definition count_platform_quota (s : Recorder) (p : postUsageBillingParams) : uprog unit :=
  let user := user_ID (pb_User p) in
  let cost := ActualCost (pb_Cost p) in
  pwhen (negb (pb_IsSubscriptionBill p) && negb (str_empty (pb_Platform p)) && fgtb cost f0
         && sv_userPlatformQuotaRepo s)
    (let* limited := call (HasUserPlatformQuotaLimit user (pb_Platform p)) in
     pwhen limited
       (let* _ := call (IncrementUserPlatformQuotaUsage user (pb_Platform p) cost) in
        pwhen (negb (flusher_enabled s))
          (let* now := call UsageNow in
           logged (call (IncrementPlatformUsage user (pb_Platform p) cost now))))).

Definition finalizePostUsageBilling (s : Recorder) (p : postUsageBillingParams)
    (result : option UsageBillingApplyResult) : uprog unit :=
  let cost := ActualCost (pb_Cost p) in
  let* _ := if pb_IsSubscriptionBill p then
              match pb_Subscription p with
              | Some sub => pwhen (fgtb cost f0) (call (QueueUpdateSubscriptionUsage (user_ID (pb_User p)) (us_ID sub) cost))
              | None => Ret tt
              end
            else pwhen (fgtb cost f0) (syncBalanceCacheAfterDeduction p result) in
  let* _ := pwhen (fgtb cost f0 && HasRateLimits (pb_APIKey p))
              (call (QueueUpdateAPIKeyRateLimitUsage (key_ID (pb_APIKey p)) cost)) in
  let* _ := call (ScheduleLastUsedUpdate (acc_ID (pb_Account p))) in
  let* _ := count_platform_quota s p in
  let* _ := notifyBalanceLow s p result in
  notifyAccountQuota s p result.

(** The path without a billing repository; a subscription bill has its
    subscription there. *)
Definition postUsageBilling (s : Recorder) (p : postUsageBillingParams) : uprog unit :=
  let cost := ActualCost (pb_Cost p) in
  let user := user_ID (pb_User p) in
  let* _ := if pb_IsSubscriptionBill p then
              match pb_Subscription p with
              | Some sub =>
                pwhen (fgtb cost f0)
                  (let* err := call (IncrementSubscriptionUsage (us_ID sub) cost) in
                   match err with
                   | Some _ => Ret tt
                   | None => call (QueueUpdateSubscriptionUsage user (us_ID sub) cost)
                   end)
              | None => Ret tt
              end
            else
              pwhen (fgtb cost f0)
                (let* err := call (DeductUserBalance user cost) in
                 match err with
                 | Some _ => Ret tt
                 | None => logged (call (InvalidateUserBalance user))
                 end) in
  let* _ := pwhen (shouldDeductAPIKeyQuota p) (logged (call (UpdateQuotaUsed (key_ID (pb_APIKey p)) cost))) in
  let* _ := pwhen (shouldUpdateRateLimits p) (logged (call (UpdateRateLimitUsage (key_ID (pb_APIKey p)) cost))) in
  let* _ := pwhen (shouldUpdateAccountQuota p)
              (logged (call (IncrementAccountQuota (acc_ID (pb_Account p)) (account_cost p)))) in
  count_platform_quota s p.

(** Whether the charge was applied now. *)
Definition applyUsageBilling (s : Recorder) (requestID : string) (usageLog : UsageLog)
    (p : postUsageBillingParams) : uprog (result bool) :=
  let cmd := buildUsageBillingCommand requestID (Some usageLog) p in
  if str_empty (RequestID cmd) || negb (sv_usageBillingRepo s) then
    let* _ := postUsageBilling s p in Ret (Ok true)
  else
    let?* result := call (ApplyCharge cmd) in
    match result with
    | Some r =>
      if Applied r then
        let* _ := pwhen (APIKeyQuotaExhausted r && pb_HasInvalidator p && negb (str_empty (key_Key (pb_APIKey p))))
                    (call (InvalidateAuthCache (key_Key (pb_APIKey p)))) in
        let* _ := finalizePostUsageBilling s p (Some r) in
        Ret (Ok true)
      else
        let* _ := call (ScheduleLastUsedUpdate (acc_ID (pb_Account p))) in Ret (Ok false)
    | None => let* _ := call (ScheduleLastUsedUpdate (acc_ID (pb_Account p))) in Ret (Ok false)
    end.

(** ** The log *)

Definition writeUsageLogBestEffort (s : Recorder) (usageLog : UsageLog) : uprog unit :=
  match sv_usageLogRepo s with
  | NoLogRepo => Ret tt
  | PlainLogRepo => logged (call (CreateLog usageLog))
  | BestEffortLogRepo =>
    let* err := call (CreateBestEffort usageLog) in
    match err with
    | None => Ret tt
    | Some _ =>
      (* the fallback has a window of its own when the first is used up *)
      let* _ := call WriteContextExpired in
      logged (call (CreateLog usageLog))
    end
  end.

Definition applyPlatformAssetUsageAttribution (ctx : UsageContext) (l : UsageLog) : UsageLog :=
  match ux_Route ctx with
  | None => l
  | Some route =>
    mk_usage_log (ul_UserID l) (ul_APIKeyID l) (ul_AccountID l) (ul_RequestID l) (ul_Model l) (ul_RequestedModel l)
      (ul_UpstreamModel l) (ul_ModelMappingChain l) (ul_BillingMode l) (ul_ServiceTier l) (ul_ReasoningEffort l)
      (ul_InboundEndpoint l) (ul_UpstreamEndpoint l) (ul_SubscriptionID l)
      (Some (rp_PlatformID (gctx_Platform route)))
      (match gctx_BillingAsset route with
       | Some asset => if str_empty (asset_Source asset) then ul_BillingSourceType l else Some (asset_Source asset)
       | None => ul_BillingSourceType l
       end)
      (ul_InputTokens l) (ul_OutputTokens l) (ul_CacheCreationTokens l) (ul_CacheReadTokens l)
      (ul_CacheCreation5mTokens l) (ul_CacheCreation1hTokens l) (ul_ImageInputTokens l) (ul_ImageOutputTokens l)
      (ul_Cost l) (ul_RateMultiplier l) (ul_AccountRateMultiplier l) (ul_BillingType l) (ul_RequestType l)
      (ul_Stream l) (ul_OpenAIWSMode l) (ul_DurationMs l) (ul_FirstTokenMs l) (ul_UserAgent l) (ul_IPAddress l)
      (ul_SessionID l) (ul_CacheTTLOverridden l) (ul_ImageCount l) (ul_ImageSize l) (ul_ImageInputSize l)
      (ul_ImageOutputSize l) (ul_ImageSizeSource l) (ul_ImageSizeBreakdown l) (ul_VideoCount l)
      (ul_VideoResolution l) (ul_VideoDurationSeconds l) (ul_CreatedAt l)
  end.

(** [ApplyForwardImageBillingResolution] and [ApplyOpenAIImageBillingResolution] *)
Definition apply_image_resolution (i : ImageFields) : ImageFields :=
  if im_ImageCount i <=? 0 then i else
  let r := result_image_resolution (im_ImageSize i) (im_ImageInputSize i) (im_ImageOutputSize i) (im_ImageOutputSizes i) in
  mk_images (im_ImageCount i) (ir_BillingSize r) (ir_InputSize r) (ir_OutputSize r) (im_ImageOutputSizes i)
    (ir_Source r) (ir_Breakdown r).

Definition resolveBillingMode (imageCount : Z) (costMode : string) : string :=
  if negb (str_empty costMode) then costMode
  else if 0 <? imageCount then BillingModeImage else BillingModeToken.
End Recording.
