(* ===== verification/UsageGateways.v ===== *)
(** * Recording the usage of a request: the two gateways

    [recordUsageCore] of [service/gateway_usage_billing.go] (requests to
    Anthropic, Gemini and the like) and [RecordUsage] of
    [service/openai_gateway_usage.go] (requests to OpenAI and Grok): the cost,
    the log, and the charge before the log is written. *)

From S2P Require Import Prelude GoErrors Prog Float64 GoTime GoStrings GoText Subscription APIKeys Account AccountQuota AccountSelection ModelMapping OpenAIModels AssetResolver ProductCoreAdapter PlatformModels ModelPricing PricingIntervals PricingCatalog Billing UsageBilling UsageMedia UsageRecord.
From Stdlib Require Import Ascii String.

Open Scope prog_scope.

(** ** OpenAI results *)

Record OpenAIUsage := mk_openai_usage {
  ou_InputTokens : Z;
  ou_ImageInputTokens : Z;
  ou_OutputTokens : Z;
  ou_CacheCreationInputTokens : Z;
  ou_CacheReadInputTokens : Z;
  ou_ImageOutputTokens : Z
}.
Record OpenAIForwardResult := mk_openai_forward {
  or_RequestID : string;
  or_Usage : OpenAIUsage;
  or_Model : string;
  or_BillingModel : string;
  or_UpstreamModel : string;
  or_UpstreamEndpoint : string;
  or_ServiceTier : option string;
  or_ReasoningEffort : option string;
  or_Stream : bool;
  or_OpenAIWSMode : bool;
  or_Duration : Z;
  or_FirstTokenMs : option Z;
  or_Images : ImageFields;
  or_VideoCount : Z;
  or_VideoResolution : string;
  or_VideoDurationSeconds : Z;
  or_WebSearchCalls : Z
}.
Definition or_with_images (r : OpenAIForwardResult) (i : ImageFields) : OpenAIForwardResult :=
  mk_openai_forward (or_RequestID r) (or_Usage r) (or_Model r) (or_BillingModel r) (or_UpstreamModel r)
    (or_UpstreamEndpoint r) (or_ServiceTier r) (or_ReasoningEffort r) (or_Stream r) (or_OpenAIWSMode r)
    (or_Duration r) (or_FirstTokenMs r) i (or_VideoCount r) (or_VideoResolution r) (or_VideoDurationSeconds r)
    (or_WebSearchCalls r).
Definition fr_with (r : ForwardResult) (u : ClaudeUsage) (i : ImageFields) : ForwardResult :=
  mk_forward (fr_RequestID r) u (fr_Model r) (fr_UpstreamModel r) (fr_Stream r) (fr_Duration r)
    (fr_FirstTokenMs r) (fr_ReasoningEffort r) i.

(** ** Cache tokens *)

Definition cacheTTLTarget5m : string := "5m".
Definition cacheTTLTarget1h : string := "1h".

Definition IsCacheTTLOverrideEnabled (a : Account) : bool :=
  IsAnthropicOAuthOrSetupToken a && default false (extra_bool a "cache_ttl_override_enabled").
Definition GetCacheTTLOverrideTarget (a : Account) : string :=
  match acc_Extra a !! "cache_ttl_override_target"%string ≫= json_string with
  | Some target => if String.eqb target cacheTTLTarget5m || String.eqb target cacheTTLTarget1h
                   then target else cacheTTLTarget5m
  | None => cacheTTLTarget5m
  end.

Definition resolveCacheTTLUsageOverrideTarget (s : Recorder) (a : Account) : uprog (option string) :=
  if IsCacheTTLOverrideEnabled a then Ret (Some (GetCacheTTLOverrideTarget a))
  else if IsAnthropicOAuthOrSetupToken a && sv_settingService s then
    let* enabled := call CacheTTL1hInjectionEnabled in
    Ret (if (enabled : bool) then Some cacheTTLTarget5m else None)
  else Ret None.

Definition with_cache_split (u : ClaudeUsage) (m5 h1 : Z) : ClaudeUsage :=
  mk_usage (cu_InputTokens u) (cu_OutputTokens u) (cu_CacheCreationInputTokens u) (cu_CacheReadInputTokens u)
    m5 h1 (cu_ImageOutputTokens u).
(** The usage after, and whether it has changed. *)
Definition applyCacheTTLOverride (u : ClaudeUsage) (target : string) : ClaudeUsage * bool :=
  let u := if (cu_CacheCreation5mTokens u =? 0) && (cu_CacheCreation1hTokens u =? 0)
              && (0 <? cu_CacheCreationInputTokens u)
           then with_cache_split u (cu_CacheCreationInputTokens u) (cu_CacheCreation1hTokens u) else u in
  let total := add64 (cu_CacheCreation5mTokens u) (cu_CacheCreation1hTokens u) in
  if total =? 0 then (u, false)
  else if String.eqb target cacheTTLTarget1h then
    if cu_CacheCreation1hTokens u =? total then (u, false) else (with_cache_split u 0 total, true)
  else if cu_CacheCreation5mTokens u =? total then (u, false) else (with_cache_split u total 0, true).

Definition force_cache_billing (u : ClaudeUsage) : ClaudeUsage :=
  mk_usage 0 (cu_OutputTokens u) (cu_CacheCreationInputTokens u)
    (add64 (cu_CacheReadInputTokens u) (cu_InputTokens u)) (cu_CacheCreation5mTokens u)
    (cu_CacheCreation1hTokens u) (cu_ImageOutputTokens u).

Section Gateways.
Context {UC : UnicodeCase} {Host : GoHost}.
Context (catalog : option (string -> option LiteLLMPricingLookup)) (map_order : list string)
        (decimal_round8 : float64 -> float64) (sha256_hex : string -> string)
        (format_d : Z -> string) (format_f10 : float64 -> string) (scan_decimal : Z -> float64)
        (error_text : error -> string).

Abbreviation override_of := (resolveModelPricingOverride catalog map_order).
Abbreviation charge := (applyUsageBilling decimal_round8 sha256_hex format_d format_f10 scan_decimal).

(** ** The cost of a forwarded request *)

Definition usage_tokens (u : ClaudeUsage) : UsageTokens := {|
  InputTokens := cu_InputTokens u; ImageInputTokens := 0; OutputTokens := cu_OutputTokens u;
  CacheCreationTokens := cu_CacheCreationInputTokens u; CacheReadTokens := cu_CacheReadInputTokens u;
  CacheCreation5mTokens := cu_CacheCreation5mTokens u; CacheCreation1hTokens := cu_CacheCreation1hTokens u;
  ImageOutputTokens := cu_ImageOutputTokens u |}.
Definition image_tokens (u : ClaudeUsage) : UsageTokens := {|
  InputTokens := cu_InputTokens u; ImageInputTokens := 0; OutputTokens := cu_OutputTokens u;
  CacheCreationTokens := 0; CacheReadTokens := 0; CacheCreation5mTokens := 0; CacheCreation1hTokens := 0;
  ImageOutputTokens := cu_ImageOutputTokens u |}.
Definition no_tokens : UsageTokens := Build_UsageTokens 0 0 0 0 0 0 0 0.

Record recordUsageOpts := { LongContextThreshold : Z; LongContextMultiplier : float64 }.

(** [calculateTokenCost] and [calculateImageCost] of [GatewayService]. *)
Definition gateway_TokenCost (s : Recorder) (ctx : UsageContext) (r : ForwardResult) (billingModel : string)
    (multiplier : float64) (opts : recordUsageOpts) : uprog (result CostBreakdown) :=
  let tokens := usage_tokens (fr_Usage r) in
  let?* resolved := override_of s ctx billingModel in
  Ret (match resolved with
       | Some price =>
         charge_resolved price (request_cost_input ctx billingModel tokens 1 "" multiplier "" (Some price) None)
       | None =>
         if 0 <? LongContextThreshold opts
         then CalculateCostWithLongContext catalog billingModel tokens multiplier (LongContextThreshold opts)
                (LongContextMultiplier opts)
         else CalculateCost catalog billingModel tokens multiplier
       end).
Definition gateway_ImageCost (s : Recorder) (ctx : UsageContext) (r : ForwardResult) (billingModel : string)
    (multiplier : float64) : uprog (result CostBreakdown) :=
  let sizeTier := NormalizeImageBillingTierOrDefault (im_ImageSize (fr_Images r)) in
  let count := im_ImageCount (fr_Images r) in
  let?* resolved := override_of s ctx billingModel in
  Ret (match resolved with
       | Some price =>
         charge_resolved price (request_cost_input ctx billingModel (image_tokens (fr_Usage r)) count sizeTier
                                  multiplier "" (Some price) None)
       | None => Ok (CalculateImageCost catalog billingModel sizeTier count None multiplier)
       end).

Definition calculateRecordUsageCost (s : Recorder) (ctx : UsageContext) (r : ForwardResult) (billingModel : string)
    (multiplier imageMultiplier : float64) (opts : recordUsageOpts) : uprog (result CostBreakdown) :=
  if 0 <? im_ImageCount (fr_Images r) then
    let?* resolved := override_of s ctx billingModel in
    match resolved with
    | Some price => if String.eqb (Mode price) BillingModeToken
                    then gateway_TokenCost s ctx r billingModel multiplier opts
                    else gateway_ImageCost s ctx r billingModel imageMultiplier
    | None => gateway_ImageCost s ctx r billingModel imageMultiplier
    end
  else gateway_TokenCost s ctx r billingModel multiplier opts.

(** ** The log of a forwarded request *)

(** The cost columns of a log; the gateway leaves the image input cost out. *)
Definition log_cost (imageInputCost : float64) (c : CostBreakdown) : CostBreakdown := {|
  InputCost := InputCost c; ImageInputCost := imageInputCost; OutputCost := OutputCost c;
  ImageOutputCost := ImageOutputCost c; CacheCreationCost := CacheCreationCost c;
  CacheReadCost := CacheReadCost c; TotalCost := TotalCost c; ActualCost := ActualCost c;
  cb_BillingMode := ""; LongContextBillingApplied := LongContextBillingApplied c |}.

Definition buildRecordUsageLog (ctx : UsageContext) (input : UsageInput ForwardResult) (r : ForwardResult)
    (requestedModel : string) (multiplier imageMultiplier accountRateMultiplier : float64) (billingType : Z)
    (cacheTTLOverridden : bool) (cost : CostBreakdown) : uprog UsageLog :=
  let u := fr_Usage r in
  let i := fr_Images r in
  let* requestID := resolveUsageBillingRequestID ctx (fr_RequestID r) in
  let* now := call UsageNow in
  Ret {|
    ul_UserID := user_ID (ui_User input); ul_APIKeyID := key_ID (ui_APIKey input);
    ul_AccountID := acc_ID (ui_Account input); ul_RequestID := requestID; ul_Model := fr_Model r;
    ul_RequestedModel := requestedModel; ul_UpstreamModel := optionalTrimmedStringPtr (fr_UpstreamModel r);
    ul_ModelMappingChain := optionalTrimmedStringPtr (mr_ModelMappingChain (ui_Routing input));
    ul_BillingMode := Some (resolveBillingMode (im_ImageCount i) (cb_BillingMode cost));
    ul_ServiceTier := None; ul_ReasoningEffort := fr_ReasoningEffort r;
    ul_InboundEndpoint := optionalTrimmedStringPtr (ui_InboundEndpoint input);
    ul_UpstreamEndpoint := optionalTrimmedStringPtr (ui_UpstreamEndpoint input);
    ul_SubscriptionID := optionalSubscriptionID (ui_Subscription input); ul_PlatformID := None;
    ul_BillingSourceType := None; ul_InputTokens := cu_InputTokens u; ul_OutputTokens := cu_OutputTokens u;
    ul_CacheCreationTokens := cu_CacheCreationInputTokens u; ul_CacheReadTokens := cu_CacheReadInputTokens u;
    ul_CacheCreation5mTokens := cu_CacheCreation5mTokens u; ul_CacheCreation1hTokens := cu_CacheCreation1hTokens u;
    ul_ImageInputTokens := 0; ul_ImageOutputTokens := cu_ImageOutputTokens u; ul_Cost := log_cost f0 cost;
    ul_RateMultiplier := if (0 <? im_ImageCount i) && negb (String.eqb (cb_BillingMode cost) BillingModeToken)
                         then imageMultiplier else multiplier;
    ul_AccountRateMultiplier := Some accountRateMultiplier; ul_BillingType := billingType;
    ul_RequestType := RequestTypeUnknown; ul_Stream := fr_Stream r; ul_OpenAIWSMode := false;
    ul_DurationMs := Some (Milliseconds (fr_Duration r)); ul_FirstTokenMs := fr_FirstTokenMs r;
    ul_UserAgent := optionalTrimmedStringPtr (ui_UserAgent input);
    ul_IPAddress := optionalTrimmedStringPtr (ui_IPAddress input);
    ul_SessionID := optionalTrimmedStringPtr (ui_SessionID input); ul_CacheTTLOverridden := cacheTTLOverridden;
    ul_ImageCount := im_ImageCount i; ul_ImageSize := optionalTrimmedStringPtr (im_ImageSize i);
    ul_ImageInputSize := optionalTrimmedStringPtr (im_ImageInputSize i);
    ul_ImageOutputSize := optionalTrimmedStringPtr (im_ImageOutputSize i);
    ul_ImageSizeSource := optionalTrimmedStringPtr (im_ImageSizeSource i);
    ul_ImageSizeBreakdown := im_ImageSizeBreakdown i; ul_VideoCount := 0; ul_VideoResolution := None;
    ul_VideoDurationSeconds := None; ul_CreatedAt := now |}.

(** ** Charge, then log *)

Definition billing_params {R} (ctx : UsageContext) (input : UsageInput R) (cost : CostBreakdown)
    (platform : string) : postUsageBillingParams := {|
  pb_Cost := cost; pb_User := ui_User input; pb_APIKey := ui_APIKey input; pb_Account := ui_Account input;
  pb_Subscription := ui_Subscription input;
  pb_RequestPayloadHash := resolveUsageBillingPayloadFingerprint ctx (ui_RequestPayloadHash input);
  pb_IsSubscriptionBill := bool_decide (is_Some (ui_Subscription input));
  pb_AccountRateMultiplier := BillingRateMultiplier (ui_Account input);
  pb_HasAPIKeyService := ui_HasAPIKeyService input; pb_HasInvalidator := ui_HasInvalidator input;
  pb_Platform := platform |}.
Definition billing_type (subscription : option UserSubscription) : Z :=
  match subscription with Some _ => BillingTypeSubscription | None => BillingTypeBalance end.

(** The end of both functions. *)
Definition charge_and_log (s : Recorder) (usageLog : UsageLog) (p : postUsageBillingParams) : uprog (result unit) :=
  if simple_mode s then
    let* _ := writeUsageLogBestEffort s usageLog in
    let* _ := call (ScheduleLastUsedUpdate (acc_ID (pb_Account p))) in
    Ret (Ok tt)
  else
    let?* _ := charge s (ul_RequestID usageLog) usageLog p in
    let* _ := writeUsageLogBestEffort s usageLog in
    Ret (Ok tt).

(** The usage a forwarded request is billed for. *)
Definition billed_usage (s : Recorder) (input : UsageInput ForwardResult) : uprog (ClaudeUsage * bool) :=
  let u := fr_Usage (ui_Result input) in
  let u := if ui_ForceCacheBilling input && (0 <? cu_InputTokens u) then force_cache_billing u else u in
  let* target := resolveCacheTTLUsageOverrideTarget s (ui_Account input) in
  Ret (match target with
       | None => (u, false)
       | Some target =>
         let u := (applyCacheTTLOverride u target).1 in
         (u, 0 <? add64 (cu_CacheCreation5mTokens u) (cu_CacheCreation1hTokens u))
       end).

Definition gateway_billing_model (r : ForwardResult) (routing : ModelRoutingUsageFields) : string :=
  let m := forwardResultBillingModel (fr_Model r) (fr_UpstreamModel r) in
  let m := if String.eqb (mr_BillingModelSource routing) BillingModelSourceMapped
              && negb (str_empty (mr_MappedModel routing)) then mr_MappedModel routing else m in
  if String.eqb (mr_BillingModelSource routing) BillingModelSourceRequested
     && negb (str_empty (mr_OriginalModel routing)) then mr_OriginalModel routing else m.

Definition recordUsageCore (s : Recorder) (ctx : UsageContext) (input : UsageInput ForwardResult)
    (opts : recordUsageOpts) : uprog (result unit) :=
  let account := ui_Account input in
  let images := apply_image_resolution (fr_Images (ui_Result input)) in
  let* billed := billed_usage s input in
  let r := fr_with (ui_Result input) billed.1 images in
  let '(m, im, _) := resolveBillingMultipliers (ui_Subscription input) (fallback_multiplier s) in
  let '(multiplier, imageMultiplier, _) := overridePlatformAssetBillingMultipliers (ux_Route ctx) m im im in
  let* billingModel := billableModelWithFallback catalog map_order s ctx
                         (gateway_billing_model r (ui_Routing input)) [fr_UpstreamModel r; fr_Model r] in
  let requestedModel := if str_empty (mr_OriginalModel (ui_Routing input)) then fr_Model r
                        else mr_OriginalModel (ui_Routing input) in
  let?* cost := calculateRecordUsageCost s ctx r billingModel multiplier imageMultiplier opts in
  let* usageLog := buildRecordUsageLog ctx input r requestedModel multiplier imageMultiplier
                     (BillingRateMultiplier account) (billing_type (ui_Subscription input)) billed.2 cost in
  let usageLog := applyPlatformAssetUsageAttribution ctx usageLog in
  let platform := if negb (str_empty (ui_QuotaPlatform input)) then ui_QuotaPlatform input
                  else let p := PlatformFromAPIKey (ui_AllowedPlatforms input) in
                       if String.eqb p PlatformComposite then acc_Platform account else p in
  charge_and_log s usageLog (billing_params ctx input cost platform).

Definition RecordUsage (s : Recorder) (ctx : UsageContext) (input : UsageInput ForwardResult) : uprog (result unit) :=
  recordUsageCore s ctx input (Build_recordUsageOpts 0 f0).
Definition RecordUsageWithLongContext (s : Recorder) (ctx : UsageContext) (input : UsageInput ForwardResult)
    (threshold : Z) (multiplier : float64) : uprog (result unit) :=
  recordUsageCore s ctx input (Build_recordUsageOpts threshold multiplier).
(** ** The cost of an OpenAI request *)

Definition isGrokVideoBillingModel (model : string) : bool :=
  HasPrefix (ToLower (TrimSpace model)) "grok-imagine-video".
Definition isGrokVideoUsageResult (r : OpenAIForwardResult) (billingModels : list string) : bool :=
  if or_VideoCount r <=? 0 then false else
  existsb isGrokVideoBillingModel (billingModels ++ [or_BillingModel r; or_Model r; or_UpstreamModel r]).

Definition isUsagePricingUnavailableError (err : error) : bool :=
  error_is err ErrModelPricingUnavailable
  || Contains (ToLower (error_text err)) "no pricing available"
  || Contains (ToLower (error_text err)) "pricing not found".

Definition calculateOpenAIRecordUsageTokenCost (s : Recorder) (ctx : UsageContext) (billingModel : string)
    (multiplier : float64) (tokens : UsageTokens) (serviceTier : string) (longContext : bool)
    : uprog (result CostBreakdown) :=
  let input := pricingInputForRequest ctx billingModel in
  if sv_resolver s && negb (str_empty (pin_Adapter input)) then
    let?* price := resolve_price catalog map_order input in
    Ret (charge_resolved price (request_cost_input ctx billingModel tokens 1 "" multiplier serviceTier None
                                  (Some longContext)))
  else Ret (calculateCostInternalWithPolicy catalog billingModel tokens multiplier serviceTier None longContext).

(** An override by request or by image, charged at its tier. *)
Definition by_request (price : option ResolvedPricing) : option ResolvedPricing :=
  p ← price; if String.eqb (Mode p) BillingModePerRequest || String.eqb (Mode p) BillingModeImage then Some p else None.

Definition calculateOpenAIImageCost (s : Recorder) (ctx : UsageContext) (billingModel : string)
    (r : OpenAIForwardResult) (multiplier : float64) : uprog (result CostBreakdown) :=
  let sizeTier := NormalizeImageBillingTierOrDefault (im_ImageSize (or_Images r)) in
  let count := im_ImageCount (or_Images r) in
  let?* resolved := override_of s ctx billingModel in
  Ret (match by_request resolved with
       | Some price => charge_resolved price (request_cost_input ctx billingModel no_tokens count sizeTier multiplier
                                                "" (Some price) None)
       | None => Ok (CalculateImageCost catalog billingModel sizeTier count None multiplier)
       end).

Definition calculateOpenAIVideoCost (s : Recorder) (ctx : UsageContext) (billingModel : string)
    (r : OpenAIForwardResult) (multiplier : float64) : uprog (result CostBreakdown) :=
  let videoCount := if or_VideoCount r <=? 0 then 1 else or_VideoCount r in
  let resolution := NormalizeVideoBillingResolutionOrDefault (or_VideoResolution r) in
  let durationSeconds := NormalizeVideoBillingDurationSecondsOrDefault (or_VideoDurationSeconds r) in
  let?* resolved := override_of s ctx billingModel in
  Ret (match by_request resolved with
       | Some price =>
         let? cost := charge_resolved price (request_cost_input ctx billingModel no_tokens videoCount resolution
                                               multiplier "" (Some price) None) in
         Ok (set_billing_mode BillingModeVideo cost)
       | None => Ok (CalculateVideoCost catalog billingModel resolution videoCount durationSeconds None multiplier)
       end).

(** The candidates in turn, until one has a price. *)
Fixpoint token_cost_loop (s : Recorder) (ctx : UsageContext) (candidates : list string) (multiplier : float64)
    (tokens : UsageTokens) (serviceTier : string) (longContext : bool) (lastErr : option error)
    : uprog (result CostBreakdown) :=
  match candidates with
  | [] => Ret (Err (EWrap "calculate OpenAI usage cost failed for billing models %s: %w"
                      (default (EPlain "no non-empty billing model candidates") lastErr)))
  | c :: rest =>
    let candidate := TrimSpace c in
    if str_empty candidate then token_cost_loop s ctx rest multiplier tokens serviceTier longContext lastErr else
    let* cost := calculateOpenAIRecordUsageTokenCost s ctx candidate multiplier tokens serviceTier longContext in
    match cost with
    | Ok c => Ret (Ok c)
    | Err e => token_cost_loop s ctx rest multiplier tokens serviceTier longContext (Some e)
    end
  end.

(** Whether an override has the model billed by token. *)
Definition billed_by_token (price : option ResolvedPricing) : bool :=
  match price with Some p => String.eqb (Mode p) BillingModeToken | None => false end.

Definition calculateOpenAIRecordUsageCost (s : Recorder) (ctx : UsageContext) (r : OpenAIForwardResult)
    (billingModels : list string) (multiplier imageMultiplier videoMultiplier webSearchMultiplier : float64)
    (tokens : UsageTokens) (serviceTier : string) (longContext : bool) : uprog (result CostBreakdown) :=
  let billingModel := firstUsageBillingModel billingModels in
  let by_token : uprog (result CostBreakdown) :=
    if is_nil billingModels || str_empty billingModel then Ret (Err (EPlain "openai usage billing model is empty"))
    else token_cost_loop s ctx billingModels multiplier tokens serviceTier longContext None in
  let by_image : uprog (result CostBreakdown) :=
    if 0 <? im_ImageCount (or_Images r) then
      let?* resolved := override_of s ctx billingModel in
      if billed_by_token resolved then by_token
      else calculateOpenAIImageCost s ctx billingModel r imageMultiplier
    else by_token in
  if 0 <? or_WebSearchCalls r then Ret (Ok (CalculateWebSearchCost (or_WebSearchCalls r) None webSearchMultiplier))
  else if isGrokVideoUsageResult r billingModels then
    let?* resolved := override_of s ctx billingModel in
    if billed_by_token resolved then by_image
    else calculateOpenAIVideoCost s ctx billingModel r videoMultiplier
  else by_image.

(** ** Recording an OpenAI request *)

(** [resolveCredentialAccount]: a shadow stands for its parent. *)
Definition resolveCredentialAccount (account : Account) : uprog (result Account) :=
  match acc_ParentAccountID account with
  | None => Ret (Ok account)
  | Some id =>
    let* r := call (GetAccount id) in
    Ret (match r with
         | Err e => Err (EWrap "resolve spark shadow parent %d: %w" e)
         | Ok None => Err (EPlain "spark shadow parent %d not found")
         | Ok (Some parent) =>
           if IsShadow parent then Err (EPlain "spark shadow parent %d is itself a shadow")
           else if negb (IsOpenAIOAuth parent) then Err (EPlain "spark shadow parent %d is not OpenAI OAuth")
           else Ok parent
         end)
  end.
Definition IsOpenAILongContextBillingEnabled (a : Account) : bool :=
  IsOpenAI a && default false (extra_bool a "openai_long_context_billing_enabled").

(** The input tokens a cache has neither read nor written. *)
Definition actual_input_tokens (u : OpenAIUsage) : Z :=
  let n := sub64 (sub64 (ou_InputTokens u) (ou_CacheReadInputTokens u)) (ou_CacheCreationInputTokens u) in
  if n <? 0 then 0 else n.
Definition openai_tokens (u : OpenAIUsage) : UsageTokens := {|
  InputTokens := actual_input_tokens u; ImageInputTokens := ou_ImageInputTokens u;
  OutputTokens := ou_OutputTokens u; CacheCreationTokens := ou_CacheCreationInputTokens u;
  CacheReadTokens := ou_CacheReadInputTokens u; CacheCreation5mTokens := 0; CacheCreation1hTokens := 0;
  ImageOutputTokens := ou_ImageOutputTokens u |}.

Definition openai_billing_model (r : OpenAIForwardResult) (routing : ModelRoutingUsageFields) : string :=
  let m := forwardResultBillingModel (or_Model r) (or_UpstreamModel r) in
  let m := if negb (str_empty (or_BillingModel r)) then TrimSpace (or_BillingModel r) else m in
  let m := if String.eqb (mr_BillingModelSource routing) BillingModelSourceMapped
              && negb (str_empty (mr_MappedModel routing))
              && negb (String.eqb (mr_MappedModel routing) (mr_OriginalModel routing))
           then mr_MappedModel routing else m in
  if String.eqb (mr_BillingModelSource routing) BillingModelSourceRequested
     && negb (str_empty (mr_OriginalModel routing)) then mr_OriginalModel routing else m.

(** A price that is missing is recorded at no cost. *)
Definition zero_cost_if_unpriced (cost : result CostBreakdown) : result CostBreakdown :=
  match cost with
  | Ok c => Ok c
  | Err e => if isUsagePricingUnavailableError e then Ok (set_billing_mode BillingModeToken zero_breakdown) else Err e
  end.

Definition openai_usage_log (input : UsageInput (option OpenAIForwardResult)) (r : OpenAIForwardResult)
    (isVideoUsage : bool) (requestID : string) (cost : CostBreakdown)
    (multiplier imageMultiplier videoMultiplier : float64) (now : time) : UsageLog :=
  let u := or_Usage r in
  let i := or_Images r in
  let by_item := negb (String.eqb (cb_BillingMode cost) BillingModeToken) in
  let some_text t := if str_empty t then None else Some t in {|
    ul_UserID := user_ID (ui_User input); ul_APIKeyID := key_ID (ui_APIKey input);
    ul_AccountID := acc_ID (ui_Account input); ul_RequestID := requestID; ul_Model := or_Model r;
    ul_RequestedModel := if str_empty (mr_OriginalModel (ui_Routing input)) then or_Model r
                         else mr_OriginalModel (ui_Routing input);
    ul_UpstreamModel := optionalTrimmedStringPtr (or_UpstreamModel r);
    ul_ModelMappingChain := optionalTrimmedStringPtr (mr_ModelMappingChain (ui_Routing input));
    ul_BillingMode := Some (if negb (str_empty (cb_BillingMode cost)) then cb_BillingMode cost
                            else if isVideoUsage then BillingModeVideo
                            else if 0 <? im_ImageCount i then BillingModeImage else BillingModeToken);
    ul_ServiceTier := or_ServiceTier r; ul_ReasoningEffort := or_ReasoningEffort r;
    ul_InboundEndpoint := optionalTrimmedStringPtr (ui_InboundEndpoint input);
    ul_UpstreamEndpoint := optionalTrimmedStringPtr (ui_UpstreamEndpoint input);
    ul_SubscriptionID := optionalSubscriptionID (ui_Subscription input); ul_PlatformID := None;
    ul_BillingSourceType := None; ul_InputTokens := actual_input_tokens u; ul_OutputTokens := ou_OutputTokens u;
    ul_CacheCreationTokens := ou_CacheCreationInputTokens u; ul_CacheReadTokens := ou_CacheReadInputTokens u;
    ul_CacheCreation5mTokens := 0; ul_CacheCreation1hTokens := 0; ul_ImageInputTokens := ou_ImageInputTokens u;
    ul_ImageOutputTokens := ou_ImageOutputTokens u; ul_Cost := log_cost (ImageInputCost cost) cost;
    ul_RateMultiplier := if isVideoUsage && by_item then videoMultiplier
                         else if (0 <? im_ImageCount i) && by_item then imageMultiplier else multiplier;
    ul_AccountRateMultiplier := Some (BillingRateMultiplier (ui_Account input));
    ul_BillingType := billing_type (ui_Subscription input);
    ul_RequestType := if ui_CyberBlocked input then RequestTypeCyberBlocked else RequestTypeUnknown;
    ul_Stream := or_Stream r; ul_OpenAIWSMode := or_OpenAIWSMode r;
    ul_DurationMs := Some (Milliseconds (or_Duration r)); ul_FirstTokenMs := or_FirstTokenMs r;
    ul_UserAgent := some_text (ui_UserAgent input); ul_IPAddress := some_text (ui_IPAddress input);
    ul_SessionID := optionalTrimmedStringPtr (ui_SessionID input); ul_CacheTTLOverridden := false;
    ul_ImageCount := im_ImageCount i; ul_ImageSize := optionalTrimmedStringPtr (im_ImageSize i);
    ul_ImageInputSize := optionalTrimmedStringPtr (im_ImageInputSize i);
    ul_ImageOutputSize := optionalTrimmedStringPtr (im_ImageOutputSize i);
    ul_ImageSizeSource := optionalTrimmedStringPtr (im_ImageSizeSource i);
    ul_ImageSizeBreakdown := im_ImageSizeBreakdown i;
    ul_VideoCount := if isVideoUsage then or_VideoCount r else 0;
    ul_VideoResolution := if isVideoUsage
      then optionalTrimmedStringPtr (NormalizeVideoBillingResolutionOrDefault (or_VideoResolution r)) else None;
    ul_VideoDurationSeconds := if isVideoUsage
      then Some (NormalizeVideoBillingDurationSecondsOrDefault (or_VideoDurationSeconds r)) else None;
    ul_CreatedAt := now |}.

Definition openai_RecordUsage (s : Recorder) (ctx : UsageContext)
    (input : option (UsageInput (option OpenAIForwardResult))) : uprog (result unit) :=
  match input with
  | None => Ret (Err (EPlain "openai usage input is nil"))
  | Some input =>
  match ui_Result input with
  | None => Ret (Err (EPlain "openai usage result is nil"))
  | Some r =>
    let account := ui_Account input in
    let* _ := pwhen (sv_rateLimitService s && String.eqb (acc_Platform account) PlatformOpenAI)
                (call (ResetOpenAI403Counter (acc_ID account))) in
    let r := if isGrokVideoUsageResult r [] then r
             else or_with_images r (apply_image_resolution (or_Images r)) in
    let base := resolveBillingRateMultiplier (ui_Subscription input) (fallback_multiplier s) in
    let '(m, im, vm) := resolveBillingMultipliers (ui_Subscription input) (fallback_multiplier s) in
    let '(baseMultiplier, multiplier, imageMultiplier) :=
      overridePlatformAssetBillingMultipliers (ux_Route ctx) base m im in
    let '(_, _, videoMultiplier) :=
      overridePlatformAssetBillingMultipliers (ux_Route ctx) multiplier imageMultiplier vm in
    let routing := ui_Routing input in
    let billingModels := usageBillingModelCandidates (openai_billing_model r routing)
      [or_BillingModel r; mr_MappedModel routing; mr_OriginalModel routing; or_UpstreamModel r; or_Model r] in
    let serviceTier := TrimSpace (default ""%string (or_ServiceTier r)) in
    let?* billingAccount := resolveCredentialAccount account in
    let* priced := calculateOpenAIRecordUsageCost s ctx r billingModels multiplier imageMultiplier videoMultiplier
                     baseMultiplier (openai_tokens (or_Usage r)) serviceTier
                     (IsOpenAILongContextBillingEnabled billingAccount) in
    let?* cost := Ret (zero_cost_if_unpriced priced) in
    let* resolvedID := resolveUsageBillingRequestID ctx (or_RequestID r) in
    let requestID := if or_OpenAIWSMode r && negb (str_empty (TrimSpace (or_RequestID r)))
                     then TrimSpace (or_RequestID r) else resolvedID in
    let* now := call UsageNow in
    let usageLog := openai_usage_log input r (isGrokVideoUsageResult r billingModels) requestID cost
                      multiplier imageMultiplier videoMultiplier now in
    let usageLog := applyPlatformAssetUsageAttribution ctx usageLog in
    let platform := if negb (str_empty (ui_QuotaPlatform input)) then ui_QuotaPlatform input
                    else PlatformFromAPIKey (ui_AllowedPlatforms input) in
    charge_and_log s usageLog (billing_params ctx input cost platform)
  end end.

(** ** A request the upstream refused by policy

    Recorded with the tokens the upstream reported; the user is the key's. *)
Record CyberUsage := {
  cy_RequestID : string; cy_Model : string; cy_Stream : bool; cy_InputTokens : Z; cy_OutputTokens : Z
}.
Definition cyber_result (c : CyberUsage) : OpenAIForwardResult :=
  mk_openai_forward (cy_RequestID c) (mk_openai_usage (cy_InputTokens c) 0 (cy_OutputTokens c) 0 0 0) (cy_Model c)
    "" "" "" None None (cy_Stream c) false 0 None (no_images 0) 0 "" 0 0.
Definition RecordCyberPolicyUsageLog (s : Recorder) (ctx : UsageContext) (input : UsageInput CyberUsage) : uprog unit :=
  match key_User (ui_APIKey input) with
  | None => Ret tt
  | Some user =>
    if str_empty (TrimSpace (cy_Model (ui_Result input))) then Ret tt else
    let* _ := openai_RecordUsage s ctx (Some {|
      ui_Result := Some (cyber_result (ui_Result input)); ui_APIKey := ui_APIKey input;
      ui_AllowedPlatforms := ui_AllowedPlatforms input; ui_User := user; ui_Account := ui_Account input;
      ui_Subscription := ui_Subscription input; ui_InboundEndpoint := ui_InboundEndpoint input;
      ui_UpstreamEndpoint := ui_UpstreamEndpoint input; ui_UserAgent := ui_UserAgent input;
      ui_IPAddress := ui_IPAddress input; ui_SessionID := ui_SessionID input;
      ui_RequestPayloadHash := ui_RequestPayloadHash input; ui_ForceCacheBilling := false;
      ui_HasAPIKeyService := ui_HasAPIKeyService input; ui_HasInvalidator := ui_HasInvalidator input;
      ui_QuotaPlatform := ""; ui_CyberBlocked := true; ui_Routing := ui_Routing input |}) in
    Ret tt
  end.

End Gateways.
