(* ===== verification/UsageEvents.v ===== *)
(** * From a forwarded request to its recording

    A dispatched request ends in one usage event: [gatewayruntime/types.go] and
    [gatewayruntime/terminal.go] (the facts, and the recorder that accepts one
    event), the facts made of the results of the services
    ([handler/runtime_usage_bridge.go], [handler/sub2api_sync_executor.go],
    [handler/sub2api_gemini_media_executor.go]), the sink that turns an event
    back into a recording ([service/product_usage_sink.go],
    [service/sub2api_product_usage_finalizer.go]) and the dispatch around them
    ([applicationgateway/gateway.go]).

    The versioned contract some executors pass the facts through copies them
    field by field and is left out. *)

From S2P Require Import Prelude GoErrors Prog Float64 GoTime GoStrings GoText Subscription APIKeys Account AccountQuota AccountSelection ModelMapping OpenAIModels ProductCore AssetResolver ProductCoreAdapter PlatformModels ModelPricing PricingIntervals PricingCatalog Billing UsageBilling UsageMedia UsageRecord UsageGateways.
From Stdlib Require Import Ascii String.

Open Scope prog_scope.

(** ** Facts and events *)

Record UsageFacts := mk_facts {
  uf_Adapter : string;
  uf_Model : string;
  uf_RequestedModel : string;
  uf_InputTokens : Z;
  uf_OutputTokens : Z;
  uf_CacheCreationTokens : Z;
  uf_CacheReadTokens : Z;
  uf_ImageInputTokens : Z;
  uf_ImageOutputTokens : Z;
  uf_ImageCount : Z;
  uf_VideoCount : Z;
  uf_FirstTokenMilliseconds : Z;
  uf_DurationMilliseconds : Z;
  uf_AccountID : Z;
  uf_UpstreamEndpoint : string;
  uf_UpstreamModel : string;
  uf_ServiceTier : string;
  uf_ReasoningEffort : string;
  uf_BillingModel : string;
  uf_OriginalModel : string;
  uf_MappedModel : string;
  uf_BillingModelSource : string;
  uf_ModelMappingChain : string;
  uf_ForceCacheBilling : bool;
  uf_CyberBlocked : bool;
  uf_LongContextThreshold : Z;
  uf_LongContextMultiplier : float64;
  uf_InboundEndpoint : string;
  uf_UserAgent : string;
  uf_ClientIP : string;
  uf_SessionID : string;
  uf_RequestPayloadHash : string;
  uf_RequestWasClientStream : bool
}.
Definition no_facts : UsageFacts :=
  mk_facts "" "" "" 0 0 0 0 0 0 0 0 0 0 0 "" "" "" "" "" "" "" "" "" false false 0 f0 "" "" "" "" "" false.
Definition with_long_context (threshold : Z) (multiplier : float64) (f : UsageFacts) : UsageFacts :=
  mk_facts (uf_Adapter f) (uf_Model f) (uf_RequestedModel f) (uf_InputTokens f) (uf_OutputTokens f)
    (uf_CacheCreationTokens f) (uf_CacheReadTokens f) (uf_ImageInputTokens f) (uf_ImageOutputTokens f)
    (uf_ImageCount f) (uf_VideoCount f) (uf_FirstTokenMilliseconds f) (uf_DurationMilliseconds f) (uf_AccountID f)
    (uf_UpstreamEndpoint f) (uf_UpstreamModel f) (uf_ServiceTier f) (uf_ReasoningEffort f) (uf_BillingModel f)
    (uf_OriginalModel f) (uf_MappedModel f) (uf_BillingModelSource f) (uf_ModelMappingChain f)
    (uf_ForceCacheBilling f) (uf_CyberBlocked f) threshold multiplier (uf_InboundEndpoint f) (uf_UserAgent f)
    (uf_ClientIP f) (uf_SessionID f) (uf_RequestPayloadHash f) (uf_RequestWasClientStream f).
Definition with_media (endpoint : string) (images videos : Z) (f : UsageFacts) : UsageFacts :=
  mk_facts (uf_Adapter f) (uf_Model f) (uf_RequestedModel f) (uf_InputTokens f) (uf_OutputTokens f)
    (uf_CacheCreationTokens f) (uf_CacheReadTokens f) (uf_ImageInputTokens f) (uf_ImageOutputTokens f)
    images videos (uf_FirstTokenMilliseconds f) (uf_DurationMilliseconds f) (uf_AccountID f)
    endpoint (uf_UpstreamModel f) (uf_ServiceTier f) (uf_ReasoningEffort f) (uf_BillingModel f)
    (uf_OriginalModel f) (uf_MappedModel f) (uf_BillingModelSource f) (uf_ModelMappingChain f)
    (uf_ForceCacheBilling f) (uf_CyberBlocked f) (uf_LongContextThreshold f) (uf_LongContextMultiplier f)
    (uf_InboundEndpoint f) (uf_UserAgent f) (uf_ClientIP f) (uf_SessionID f) (uf_RequestPayloadHash f)
    (uf_RequestWasClientStream f).

Record UsageEvent := mk_event { ev_RequestID : string; ev_Success : bool; ev_Facts : UsageFacts }.

(** [gatewayruntime.Request]; the path is that of the exchange's request. *)
Record RuntimeRequest := {
  rq_RequestID : string;
  rq_Adapter : string;
  rq_Endpoint : string;
  rq_InboundEndpoint : string;
  rq_RequestedModel : string;
  rq_UpstreamModel : string;
  rq_Stream : bool;
  rq_UserAgent : string;
  rq_ClientIP : string;
  rq_SessionID : string;
  rq_Path : option string
}.
Definition EndpointEmbeddings : string := "embeddings".
Definition EndpointAlphaSearch : string := "alpha_search".
Definition EndpointCountTokens : string := "count_tokens".
Definition EndpointResponsesInputTokens : string := "responses_input_tokens".
Definition EndpointLive : string := "live".
Definition EndpointWebSocket : string := "websocket".

(** ** The facts of a result *)

(** [firstTokenMilliseconds], [int64Value] *)
Definition firstTokenMilliseconds (value : option Z) : Z :=
  match value with Some v => if v <? 0 then 0 else v | None => 0 end.
Definition trimmed_pointer (value : option string) : string := TrimSpace (default ""%string value).

Definition gatewayFacts (input : UsageInput ForwardResult) : UsageFacts :=
  let r := ui_Result input in
  let u := fr_Usage r in
  let routing := ui_Routing input in {|
  uf_Adapter := ""; uf_Model := fr_Model r; uf_RequestedModel := mr_OriginalModel routing;
  uf_InputTokens := cu_InputTokens u; uf_OutputTokens := cu_OutputTokens u;
  uf_CacheCreationTokens := cu_CacheCreationInputTokens u; uf_CacheReadTokens := cu_CacheReadInputTokens u;
  uf_ImageInputTokens := 0; uf_ImageOutputTokens := cu_ImageOutputTokens u;
  uf_ImageCount := im_ImageCount (fr_Images r); uf_VideoCount := 0;
  uf_FirstTokenMilliseconds := firstTokenMilliseconds (fr_FirstTokenMs r);
  uf_DurationMilliseconds := Milliseconds (fr_Duration r); uf_AccountID := acc_ID (ui_Account input);
  uf_UpstreamEndpoint := TrimSpace (ui_UpstreamEndpoint input); uf_UpstreamModel := fr_UpstreamModel r;
  uf_ServiceTier := ""; uf_ReasoningEffort := trimmed_pointer (fr_ReasoningEffort r); uf_BillingModel := "";
  uf_OriginalModel := mr_OriginalModel routing; uf_MappedModel := mr_MappedModel routing;
  uf_BillingModelSource := mr_BillingModelSource routing; uf_ModelMappingChain := mr_ModelMappingChain routing;
  uf_ForceCacheBilling := ui_ForceCacheBilling input; uf_CyberBlocked := false;
  uf_LongContextThreshold := 0; uf_LongContextMultiplier := f0;
  uf_InboundEndpoint := ui_InboundEndpoint input; uf_UserAgent := ui_UserAgent input;
  uf_ClientIP := ui_IPAddress input; uf_SessionID := ui_SessionID input;
  uf_RequestPayloadHash := ui_RequestPayloadHash input; uf_RequestWasClientStream := false |}.

Definition openAIFacts (input : UsageInput OpenAIForwardResult) : UsageFacts :=
  let r := ui_Result input in
  let u := or_Usage r in
  let routing := ui_Routing input in {|
  uf_Adapter := ""; uf_Model := or_Model r; uf_RequestedModel := mr_OriginalModel routing;
  uf_InputTokens := ou_InputTokens u; uf_OutputTokens := ou_OutputTokens u;
  uf_CacheCreationTokens := ou_CacheCreationInputTokens u; uf_CacheReadTokens := ou_CacheReadInputTokens u;
  uf_ImageInputTokens := ou_ImageInputTokens u; uf_ImageOutputTokens := ou_ImageOutputTokens u;
  uf_ImageCount := im_ImageCount (or_Images r); uf_VideoCount := or_VideoCount r;
  uf_FirstTokenMilliseconds := firstTokenMilliseconds (or_FirstTokenMs r);
  uf_DurationMilliseconds := Milliseconds (or_Duration r); uf_AccountID := acc_ID (ui_Account input);
  uf_UpstreamEndpoint := TrimSpace (ui_UpstreamEndpoint input); uf_UpstreamModel := or_UpstreamModel r;
  uf_ServiceTier := trimmed_pointer (or_ServiceTier r); uf_ReasoningEffort := trimmed_pointer (or_ReasoningEffort r);
  uf_BillingModel := or_BillingModel r; uf_OriginalModel := mr_OriginalModel routing;
  uf_MappedModel := mr_MappedModel routing; uf_BillingModelSource := mr_BillingModelSource routing;
  uf_ModelMappingChain := mr_ModelMappingChain routing; uf_ForceCacheBilling := false;
  uf_CyberBlocked := ui_CyberBlocked input; uf_LongContextThreshold := 0; uf_LongContextMultiplier := f0;
  uf_InboundEndpoint := ui_InboundEndpoint input; uf_UserAgent := ui_UserAgent input;
  uf_ClientIP := ui_IPAddress input; uf_SessionID := ui_SessionID input;
  uf_RequestPayloadHash := ui_RequestPayloadHash input; uf_RequestWasClientStream := false |}.

Definition gatewayUsageEvent (input : UsageInput ForwardResult) : UsageEvent :=
  mk_event (fr_RequestID (ui_Result input)) true (gatewayFacts input).
Definition openAIUsageEvent (input : UsageInput OpenAIForwardResult) : UsageEvent :=
  mk_event (or_RequestID (ui_Result input)) true (openAIFacts input).
(** The event of [recordGatewayLongContextUsage]; the account is not among the
    fields it copies. *)
Definition longContextUsageEvent (input : UsageInput ForwardResult) (threshold : Z) (multiplier : float64) : UsageEvent :=
  let f := gatewayFacts input in
  mk_event (fr_RequestID (ui_Result input)) true
    (with_long_context threshold multiplier
      (mk_facts (uf_Adapter f) (uf_Model f) (uf_RequestedModel f) (uf_InputTokens f) (uf_OutputTokens f)
        (uf_CacheCreationTokens f) (uf_CacheReadTokens f) (uf_ImageInputTokens f) (uf_ImageOutputTokens f)
        (uf_ImageCount f) (uf_VideoCount f) (uf_FirstTokenMilliseconds f) (uf_DurationMilliseconds f) 0
        (uf_UpstreamEndpoint f) (uf_UpstreamModel f) (uf_ServiceTier f) (uf_ReasoningEffort f) (uf_BillingModel f)
        (uf_OriginalModel f) (uf_MappedModel f) (uf_BillingModelSource f) (uf_ModelMappingChain f)
        (uf_ForceCacheBilling f) (uf_CyberBlocked f) 0 f0 (uf_InboundEndpoint f) (uf_UserAgent f)
        (uf_ClientIP f) (uf_SessionID f) (uf_RequestPayloadHash f) (uf_RequestWasClientStream f))).

Definition defaultSyncUpstreamEndpoint (endpoint : string) : string :=
  if String.eqb endpoint EndpointEmbeddings then "/v1/embeddings"
  else if String.eqb endpoint EndpointAlphaSearch then "/v1/alpha/search" else "".
Definition or_else (value d : string) : string := if str_empty (TrimSpace value) then d else value.

Definition openAIForwardUsageFacts (q : RuntimeRequest) (account : Account) (r : OpenAIForwardResult) : UsageFacts :=
  let u := or_Usage r in
  let endpoint := TrimSpace (or_UpstreamEndpoint r) in {|
  uf_Adapter := rq_Adapter q; uf_Model := or_else (or_Model r) (rq_RequestedModel q);
  uf_RequestedModel := rq_RequestedModel q; uf_InputTokens := ou_InputTokens u; uf_OutputTokens := ou_OutputTokens u;
  uf_CacheCreationTokens := ou_CacheCreationInputTokens u; uf_CacheReadTokens := ou_CacheReadInputTokens u;
  uf_ImageInputTokens := ou_ImageInputTokens u; uf_ImageOutputTokens := ou_ImageOutputTokens u;
  uf_ImageCount := 0; uf_VideoCount := 0; uf_FirstTokenMilliseconds := firstTokenMilliseconds (or_FirstTokenMs r);
  uf_DurationMilliseconds := Milliseconds (or_Duration r); uf_AccountID := acc_ID account;
  uf_UpstreamEndpoint := if str_empty endpoint then defaultSyncUpstreamEndpoint (rq_Endpoint q) else endpoint;
  uf_UpstreamModel := or_else (or_UpstreamModel r) (rq_UpstreamModel q);
  uf_ServiceTier := trimmed_pointer (or_ServiceTier r); uf_ReasoningEffort := trimmed_pointer (or_ReasoningEffort r);
  uf_BillingModel := TrimSpace (or_BillingModel r); uf_OriginalModel := TrimSpace (or_Model r);
  uf_MappedModel := TrimSpace (or_UpstreamModel r); uf_BillingModelSource := ""; uf_ModelMappingChain := "";
  uf_ForceCacheBilling := false; uf_CyberBlocked := false; uf_LongContextThreshold := 0;
  uf_LongContextMultiplier := f0; uf_InboundEndpoint := rq_InboundEndpoint q; uf_UserAgent := rq_UserAgent q;
  uf_ClientIP := rq_ClientIP q; uf_SessionID := rq_SessionID q; uf_RequestPayloadHash := "";
  uf_RequestWasClientStream := rq_Stream q |}.

Section Media.
Context {UC : UnicodeCase}.

Definition runtimeMediaUpstreamEndpoint (q : RuntimeRequest) : string :=
  let path := ToLower (TrimSpace (default (rq_InboundEndpoint q) (rq_Path q))) in
  if Contains path "/images/edits" then "/v1/images/edits"
  else if Contains path "/images/" then "/v1/images/generations"
  else if Contains path "/videos/" then TrimSpace (rq_InboundEndpoint q) else "".
Definition openAIMediaUsageFacts (q : RuntimeRequest) (account : Account) (r : OpenAIForwardResult) : UsageFacts :=
  let f := openAIForwardUsageFacts q account r in
  with_media (if str_empty (TrimSpace (uf_UpstreamEndpoint f)) then runtimeMediaUpstreamEndpoint q
              else uf_UpstreamEndpoint f)
    (im_ImageCount (or_Images r)) (or_VideoCount r) f.
End Media.

Fixpoint firstNonEmptyProduct (values : list string) : string :=
  match values with
  | [] => ""
  | v :: rest => let v := TrimSpace v in if str_empty v then firstNonEmptyProduct rest else v
  end.

Definition geminiForwardUsageFacts (q : RuntimeRequest) (account : Account) (r : ForwardResult) : UsageFacts :=
  let u := fr_Usage r in {|
  uf_Adapter := rq_Adapter q; uf_Model := firstNonEmptyProduct [fr_Model r; rq_RequestedModel q];
  uf_RequestedModel := rq_RequestedModel q; uf_InputTokens := cu_InputTokens u; uf_OutputTokens := cu_OutputTokens u;
  uf_CacheCreationTokens := cu_CacheCreationInputTokens u; uf_CacheReadTokens := cu_CacheReadInputTokens u;
  uf_ImageInputTokens := 0; uf_ImageOutputTokens := 0; uf_ImageCount := 0; uf_VideoCount := 0;
  uf_FirstTokenMilliseconds := 0; uf_DurationMilliseconds := Milliseconds (fr_Duration r);
  uf_AccountID := acc_ID account; uf_UpstreamEndpoint := "";
  uf_UpstreamModel := firstNonEmptyProduct [fr_UpstreamModel r; rq_UpstreamModel q]; uf_ServiceTier := "";
  uf_ReasoningEffort := ""; uf_BillingModel := ""; uf_OriginalModel := ""; uf_MappedModel := "";
  uf_BillingModelSource := ""; uf_ModelMappingChain := ""; uf_ForceCacheBilling := false; uf_CyberBlocked := false;
  uf_LongContextThreshold := 0; uf_LongContextMultiplier := f0; uf_InboundEndpoint := rq_InboundEndpoint q;
  uf_UserAgent := rq_UserAgent q; uf_ClientIP := rq_ClientIP q; uf_SessionID := rq_SessionID q;
  uf_RequestPayloadHash := ""; uf_RequestWasClientStream := rq_Stream q |}.

(** ** The result of an event *)

Definition productUsageDuration (milliseconds : Z) : Z :=
  if milliseconds <=? 0 then 0 else wrap64 (milliseconds * 1000000).
Definition productUsageFirstToken (milliseconds : Z) : option Z :=
  if milliseconds <=? 0 then None else Some milliseconds.
Definition isOpenAIUsageAdapter (adapter fallback : string) : bool :=
  let adapter := if str_empty (TrimSpace adapter) then TrimSpace fallback else TrimSpace adapter in
  String.eqb adapter PlatformOpenAI || String.eqb adapter PlatformGrok.

Definition openAIForwardResultFromProductUsage (e : UsageEvent) : OpenAIForwardResult :=
  let f := ev_Facts e in {|
  or_RequestID := ev_RequestID e;
  or_Usage := mk_openai_usage (uf_InputTokens f) (uf_ImageInputTokens f) (uf_OutputTokens f)
                (uf_CacheCreationTokens f) (uf_CacheReadTokens f) (uf_ImageOutputTokens f);
  or_Model := firstNonEmptyProduct [uf_Model f; uf_RequestedModel f]; or_BillingModel := uf_BillingModel f;
  or_UpstreamModel := uf_UpstreamModel f; or_UpstreamEndpoint := uf_UpstreamEndpoint f;
  or_ServiceTier := optionalTrimmedStringPtr (uf_ServiceTier f);
  or_ReasoningEffort := optionalTrimmedStringPtr (uf_ReasoningEffort f);
  or_Stream := uf_RequestWasClientStream f; or_OpenAIWSMode := false;
  or_Duration := productUsageDuration (uf_DurationMilliseconds f);
  or_FirstTokenMs := productUsageFirstToken (uf_FirstTokenMilliseconds f);
  or_Images := no_images (uf_ImageCount f); or_VideoCount := uf_VideoCount f; or_VideoResolution := "";
  or_VideoDurationSeconds := 0; or_WebSearchCalls := 0 |}.

Definition gatewayForwardResultFromProductUsage (e : UsageEvent) : ForwardResult :=
  let f := ev_Facts e in {|
  fr_RequestID := ev_RequestID e;
  fr_Usage := mk_usage (uf_InputTokens f) (uf_OutputTokens f) (uf_CacheCreationTokens f) (uf_CacheReadTokens f) 0 0
                (uf_ImageOutputTokens f);
  fr_Model := firstNonEmptyProduct [uf_Model f; uf_RequestedModel f]; fr_UpstreamModel := uf_UpstreamModel f;
  fr_Stream := uf_RequestWasClientStream f; fr_Duration := productUsageDuration (uf_DurationMilliseconds f);
  fr_FirstTokenMs := productUsageFirstToken (uf_FirstTokenMilliseconds f); fr_ReasoningEffort := None;
  fr_Images := no_images 0 |}.

(** ** The finalizer *)

Definition ErrProductUsageFinalizerUnavailable : error := EPlain "product usage finalizer is unavailable".
Definition ErrTerminalAlreadyRecorded : error := EPlain "runtime terminal event already recorded".
Definition ErrGatewayTerminalMissing : error := EPlain "application gateway terminal usage is missing".
Definition ErrDecisionUnavailable : error := EPlain "application gateway decision is unavailable".

Record DecisionSnapshot := { sn_Decision : Decision; sn_Grant : AccessGrant }.
(** Both gateways, and whether the key service drops cached keys; the stores
    are set when a gateway is. *)
Record Finalizer := { fz_gateway : option Recorder; fz_openai : option Recorder; fz_HasInvalidator : bool }.

Section Finalizing.
Context {UC : UnicodeCase} {Host : GoHost}.
Context (catalog : option (string -> option LiteLLMPricingLookup)) (map_order : list string)
        (decimal_round8 : float64 -> float64) (sha256_hex : string -> string)
        (format_d : Z -> string) (format_f10 : float64 -> string) (scan_decimal : Z -> float64)
        (error_text : error -> string).

(** [attachProductDecision]: the route of the decision in the context. *)
Definition attachProductDecision (ctx : UsageContext) (d : Decision) (subscription : option UserSubscription) : UsageContext :=
  let route := gatewayPlatformAssetContextFromDecision d subscription in
  let '(_, ok) := normalizePlatformSchedulingScope (gctx_SchedulingScope route) in
  if negb ok then ctx else {|
    ux_ClientRequestID := ux_ClientRequestID ctx; ux_RequestID := ux_RequestID ctx; ux_Route := Some route;
    ux_ResolvedTargetPlatform := let '(scope, _) := normalizePlatformSchedulingScope (gctx_SchedulingScope route) in
                                 scope_AccountPlatform scope;
    ux_ForcePlatform := ux_ForcePlatform ctx |}.

Definition usage_input {R} (f : UsageFacts) (invalidator : bool) (key : APIKey * list string) (user : User)
    (account : Account) (subscription : option UserSubscription) (r : R) (force cyber : bool) : UsageInput R := {|
  ui_Result := r; ui_APIKey := key.1; ui_AllowedPlatforms := key.2; ui_User := user; ui_Account := account;
  ui_Subscription := subscription; ui_InboundEndpoint := uf_InboundEndpoint f;
  ui_UpstreamEndpoint := uf_UpstreamEndpoint f; ui_UserAgent := uf_UserAgent f; ui_IPAddress := uf_ClientIP f;
  ui_SessionID := uf_SessionID f; ui_RequestPayloadHash := uf_RequestPayloadHash f; ui_ForceCacheBilling := force;
  ui_HasAPIKeyService := true; ui_HasInvalidator := invalidator; ui_QuotaPlatform := acc_Platform account;
  ui_CyberBlocked := cyber;
  ui_Routing := {| mr_OriginalModel := uf_OriginalModel f; mr_MappedModel := uf_MappedModel f;
                   mr_BillingModelSource := uf_BillingModelSource f; mr_ModelMappingChain := uf_ModelMappingChain f |} |}.

(** The recording a successful event leads to once its parties are loaded. *)
Definition record_event (fz : Finalizer) (ctx : UsageContext) (d : Decision) (e : UsageEvent)
    (key : APIKey * list string) (user : User) (account : Account) (subscription : option UserSubscription)
    : uprog (result unit) :=
  let f := ev_Facts e in
  if isOpenAIUsageAdapter (uf_Adapter f) (pl_AccountPlatform (dec_Platform d)) then
    match fz_openai fz with
    | None => Ret (Err ErrProductUsageFinalizerUnavailable)
    | Some s =>
      openai_RecordUsage catalog map_order decimal_round8 sha256_hex format_d format_f10 scan_decimal error_text s ctx
        (Some (usage_input f (fz_HasInvalidator fz) key user account subscription
                 (Some (openAIForwardResultFromProductUsage e)) false (uf_CyberBlocked f)))
    end
  else match fz_gateway fz with
    | None => Ret (Err ErrProductUsageFinalizerUnavailable)
    | Some s =>
      RecordUsage catalog map_order decimal_round8 sha256_hex format_d format_f10 scan_decimal s ctx
        (usage_input f (fz_HasInvalidator fz) key user account subscription
           (gatewayForwardResultFromProductUsage e) (uf_ForceCacheBilling f) false)
    end.

Definition Finalize (fz : Finalizer) (ctx : UsageContext) (snapshot : DecisionSnapshot) (e : UsageEvent)
    : uprog (result unit) :=
  if negb (ev_Success e) then Ret (Ok tt) else
  if negb (bool_decide (is_Some (fz_gateway fz)) || bool_decide (is_Some (fz_openai fz)))
  then Ret (Err ErrProductUsageFinalizerUnavailable) else
  let grant := sn_Grant snapshot in
  let f := ev_Facts e in
  if (grant_KeyID grant <=? 0) || (grant_UserID grant <=? 0) || (uf_AccountID f <=? 0)
  then Ret (Err (EPlain "product usage record identifiers are incomplete")) else
  let?* key := call (LoadAPIKey (grant_KeyID grant)) in
  match key with
  | None => Ret (Err (EPlain "api key not found for product usage"))
  | Some key =>
    let?* user := call (LoadUser (grant_UserID grant)) in
    let?* account := call (GetAccount (uf_AccountID f)) in
    match user, account with
    | Some user, Some account =>
      let?* subscription := match dec_BillingAsset (sn_Decision snapshot) ≫= ba_SubscriptionID with
                            | Some id => call (LoadSubscription id)
                            | None => Ret (Ok None)
                            end in
      record_event fz (attachProductDecision ctx (sn_Decision snapshot) subscription) (sn_Decision snapshot) e
        key user account subscription
    | _, _ => Ret (Err (EPlain "product usage owner or account not found"))
    end
  end.

(** ** The sink of a dispatch *)

Inductive usage_sink := ProductUsageSink (fz : Finalizer) (snapshot : DecisionSnapshot) | NoBillingUsageSink.
Definition sink_RecordFinal (sink : usage_sink) (ctx : UsageContext) (e : UsageEvent) : uprog (result unit) :=
  match sink with
  | ProductUsageSink fz snapshot => Finalize fz ctx snapshot e
  | NoBillingUsageSink => Ret (Ok tt)
  end.

(** [TerminalRecorder.RecordFinal]: the flag is read and set under a mutex. *)
Definition RecordFinal (sink : usage_sink) (recorded : bool) (ctx : UsageContext) (e : UsageEvent)
    : uprog (result unit * bool) :=
  if recorded then Ret (Err ErrTerminalAlreadyRecorded, true) else
  let* r := sink_RecordFinal sink ctx e in Ret (r, true).

Definition isNonBillingEndpoint (endpoint : string) : bool :=
  one_of [EndpointCountTokens; EndpointResponsesInputTokens; EndpointLive; EndpointWebSocket] endpoint.

(** The events a runtime records, in the order the mutex lets them through. *)
Fixpoint record_all (sink : usage_sink) (recorded : bool) (events : list (UsageContext * UsageEvent)) : uprog bool :=
  match events with
  | [] => Ret recorded
  | (ctx, e) :: rest =>
    let* r := RecordFinal sink recorded ctx e in record_all sink r.2 rest
  end.

(** [Gateway.Dispatch], whose runtime records the events and ends with [err]:
    a runtime that records none has failed. *)
Definition Dispatch (fz : Finalizer) (decision : result (option Decision)) (grant : AccessGrant) (endpoint : string)
    (events : list (UsageContext * UsageEvent)) (err : option error) : uprog (option error) :=
  match decision with
  | Err e => Ret (Some e)
  | Ok None => Ret (Some ErrDecisionUnavailable)
  | Ok (Some d) =>
    let sink := if isNonBillingEndpoint endpoint then NoBillingUsageSink
                else ProductUsageSink fz {| sn_Decision := d; sn_Grant := grant |} in
    let* recorded := record_all sink false events in
    Ret (if (recorded : bool) then err
         else Some (match err with Some e => EJoin e ErrGatewayTerminalMissing | None => ErrGatewayTerminalMissing end))
  end.
End Finalizing.
