(* ===== verification/UsageRecordProps.v ===== *)
(** * Properties of usage recording

    Whatever the services answer, a recording charges at most once and logs
    nothing it has not charged; the command takes the cost the log shows.  A
    dispatch charges and logs at most once, whatever events its runtime
    records; what an event leaves out of a result, and what the log of every
    dispatched request therefore says of its videos and images. *)

From S2P Require Import Prelude GoErrors Prog Float64 GoTime GoStrings GoText Subscription SubscriptionRepo APIKeys SchedulerOutbox Account AccountQuota AccountSelection ModelMapping OpenAIModels AssetResolver ProductCoreAdapter PlatformModels ModelPricing PricingIntervals PricingCatalog Billing UsageBilling UsageBillingProps UsageMedia UsageRecord UsageGateways ProductCore UsageEvents.
From Stdlib Require Import Ascii String.

Open Scope prog_scope.

(** ** What a trace has charged and logged *)

Definition charge_of (e : event ucall) : list (UsageBillingCommand * result (option UsageBillingApplyResult)) :=
  match e with
  | Ev c b =>
    match c in ucall T return T -> _ with
    | ApplyCharge cmd => λ b, [(cmd, b)]
    | _ => λ _, []
    end b
  end.
Definition charges (tr : trace ucall) := flat_map charge_of tr.
Definition log_of (e : event ucall) : list UsageLog :=
  match e with
  | Ev c _ => match c with CreateBestEffort l | CreateLog l => [l] | _ => [] end
  end.
Definition logs (tr : trace ucall) : list UsageLog := flat_map log_of tr.

Inductive call_kind := KRead | KCharge | KDirect | KLog | KAfter.
#[global] Instance call_kind_eq_dec : EqDecision call_kind.
Proof. solve_decision. Defined.
Definition kind {B} (c : ucall B) : call_kind :=
  match c with
  | LookupOverride _ | CacheTTL1hInjectionEnabled | GenerateRequestID | UsageNow | LoadAPIKey _ | LoadUser _
  | GetAccount _ | LoadSubscription _ | ResetOpenAI403Counter _ => KRead
  | ApplyCharge _ => KCharge
  | IncrementSubscriptionUsage _ _ | DeductUserBalance _ _ | UpdateQuotaUsed _ _ | UpdateRateLimitUsage _ _
  | IncrementAccountQuota _ _ => KDirect
  | CreateBestEffort _ | CreateLog _ => KLog
  | _ => KAfter
  end.

(** Amounts moved without the billing transaction. *)
Definition direct_of (e : event ucall) : list call_kind :=
  match e with Ev c _ => if decide (kind c = KDirect) then [KDirect] else [] end.
Definition directs (tr : trace ucall) : list call_kind := flat_map direct_of tr.

(** Nothing charged and nothing logged. *)
Definition clean (tr : trace ucall) : Prop := charges tr = [] /\ logs tr = [] /\ directs tr = [].

(** Calls that neither charge nor log, and calls that at most charge directly. *)
Definition harmless B (c : ucall B) : Prop :=
  match kind c with KRead | KAfter => True | _ => False end.
Definition uncounted B (c : ucall B) : Prop :=
  match kind c with KRead | KAfter | KDirect => True | _ => False end.

Lemma uncounted_charges B (c : ucall B) b tr : uncounted B c -> charges (Ev c b :: tr) = charges tr.
Proof. by destruct c. Qed.
Lemma uncounted_logs B (c : ucall B) b tr : uncounted B c -> logs (Ev c b :: tr) = logs tr.
Proof. by destruct c. Qed.
Lemma harmless_uncounted B (c : ucall B) : harmless B c -> uncounted B c.
Proof. by destruct c. Qed.
Lemma harmless_directs B (c : ucall B) b tr : harmless B c -> directs (Ev c b :: tr) = directs tr.
Proof. by destruct c. Qed.

(** A program of calls that are not counted. *)
Lemma uncounted_always {A} (p : uprog A) tr :
  only uncounted p -> always p tr (λ tr' _, charges tr' = charges tr /\ logs tr' = logs tr).
Proof.
  intros H. apply always_and.
  - apply (only_same uncounted charges); [|done]. intros. by apply uncounted_charges.
  - apply (only_same uncounted logs); [|done]. intros. by apply uncounted_logs.
Qed.

(** [only harmless] by the shape of the program. *)
Lemma only_attempt (P : ∀ B, ucall B -> Prop) {A B} (p : uprog (result A)) (k : A -> uprog (result B)) :
  only P p -> (∀ a, only P (k a)) -> only P (attempt p k).
Proof. intros Hp Hk. apply only_bind; [done|]. intros [a|e]; [apply Hk|done]. Qed.
Lemma only_pwhen (P : ∀ B, ucall B -> Prop) b (p : uprog unit) : (b = true -> only P p) -> only P (pwhen b p).
Proof. destruct b; [auto|done]. Qed.

Ltac only_step :=
  match goal with
  | |- only _ (attempt _ _) => apply only_attempt; [|intros ?]
  | |- only _ (pbind _ _) => apply only_bind; [|intros ?]
  | |- only _ (call _) => apply only_call
  | |- only _ (pwhen _ _) => apply only_pwhen; intros ?
  | |- only _ (logged _) => unfold logged
  | |- only _ (Ret _) => exact I
  | |- only _ (match ?x with _ => _ end) => destruct x
  | |- only _ (if ?x then _ else _) => destruct x
  | |- harmless _ _ => exact I
  | |- uncounted _ _ => exact I
  end.
Ltac only_tac := repeat (cbv zeta; only_step).

Section Props.
Context {UC : UnicodeCase} {Host : GoHost}.
Context (catalog : option (string -> option LiteLLMPricingLookup)) (map_order : list string)
        (decimal_round8 : float64 -> float64) (sha256_hex : string -> string)
        (format_d : Z -> string) (format_f10 : float64 -> string) (scan_decimal : Z -> float64)
        (error_text : error -> string).

Abbreviation core := (recordUsageCore catalog map_order decimal_round8 sha256_hex format_d format_f10 scan_decimal).
Abbreviation openai :=
  (openai_RecordUsage catalog map_order decimal_round8 sha256_hex format_d format_f10 scan_decimal error_text).
Abbreviation finish := (charge_and_log decimal_round8 sha256_hex format_d format_f10 scan_decimal).
Abbreviation command := (buildUsageBillingCommand decimal_round8 sha256_hex format_d format_f10).
Abbreviation quantize := (QuantizeUsageBillingAmount decimal_round8).

(** ** Reading programs *)

Lemma override_harmless s ctx m : only harmless (resolveModelPricingOverride catalog map_order s ctx m).
Proof. unfold resolveModelPricingOverride, resolve_price. only_tac. Qed.
Lemma resolvable_harmless s ctx m : only harmless (hasResolvableTokenPricing catalog map_order s ctx m).
Proof. unfold hasResolvableTokenPricing. only_tac. apply override_harmless. Qed.
Lemma fallback_harmless s ctx m ms : only harmless (billableModelWithFallback catalog map_order s ctx m ms).
Proof.
  unfold billableModelWithFallback. only_tac; [apply resolvable_harmless|].
  induction ms as [|m' rest IH]; cbn; only_tac; auto using resolvable_harmless.
Qed.
Lemma gateway_token_harmless s ctx r m x opts : only harmless (gateway_TokenCost catalog map_order s ctx r m x opts).
Proof. unfold gateway_TokenCost. only_tac. apply override_harmless. Qed.
Lemma gateway_image_harmless s ctx r m x : only harmless (gateway_ImageCost catalog map_order s ctx r m x).
Proof. unfold gateway_ImageCost. only_tac. apply override_harmless. Qed.
Lemma gateway_cost_harmless s ctx r m x y opts :
  only harmless (calculateRecordUsageCost catalog map_order s ctx r m x y opts).
Proof.
  unfold calculateRecordUsageCost. only_tac;
    auto using override_harmless, gateway_token_harmless, gateway_image_harmless.
Qed.
Lemma billed_usage_harmless s input : only harmless (billed_usage s input).
Proof. unfold billed_usage, resolveCacheTTLUsageOverrideTarget. only_tac. Qed.
Lemma request_id_harmless ctx up : only harmless (resolveUsageBillingRequestID ctx up).
Proof. unfold resolveUsageBillingRequestID. only_tac. Qed.

Lemma token_cost_harmless s ctx m x t tier lc :
  only harmless (calculateOpenAIRecordUsageTokenCost catalog map_order s ctx m x t tier lc).
Proof. unfold calculateOpenAIRecordUsageTokenCost, resolve_price. only_tac. Qed.
Lemma token_loop_harmless s ctx ms x t tier lc e :
  only harmless (token_cost_loop catalog map_order s ctx ms x t tier lc e).
Proof.
  revert e. induction ms as [|m rest IH]; intros e; cbn; only_tac; auto using token_cost_harmless.
Qed.
Lemma openai_cost_harmless s ctx r ms x xi xv xw t tier lc :
  only harmless (calculateOpenAIRecordUsageCost catalog map_order s ctx r ms x xi xv xw t tier lc).
Proof.
  unfold calculateOpenAIRecordUsageCost, calculateOpenAIImageCost, calculateOpenAIVideoCost. only_tac;
    auto using override_harmless, token_loop_harmless.
Qed.
Lemma credential_harmless a : only harmless (resolveCredentialAccount a).
Proof. unfold resolveCredentialAccount. only_tac. Qed.

Lemma platform_quota_harmless s p : only harmless (count_platform_quota s p).
Proof. unfold count_platform_quota. only_tac. Qed.
Lemma finalize_harmless s p r : only harmless (finalizePostUsageBilling scan_decimal s p r).
Proof.
  unfold finalizePostUsageBilling, syncBalanceCacheAfterDeduction, notifyBalanceLow, notifyAccountQuota.
  only_tac; apply platform_quota_harmless.
Qed.
Lemma platform_quota_uncounted s p : only uncounted (count_platform_quota s p).
Proof. unfold count_platform_quota. only_tac. Qed.
Lemma legacy_uncounted s p : only uncounted (postUsageBilling s p).
Proof. unfold postUsageBilling. only_tac; apply platform_quota_uncounted. Qed.

(** Calls that warn nobody of a low balance or an exhausted account. *)
Definition silent B (c : ucall B) : Prop :=
  match c with CheckBalanceAfterDeduction _ _ _ | CheckAccountQuotaAfterIncrement _ _ _ => False | _ => True end.
(** Without the billing repository, or for a request without identifier,
    nobody is warned of what is charged; nor is anyone by what follows. *)
Theorem legacy_path_silent s id l p :
  str_empty (RequestID (command id (Some l) p)) || negb (sv_usageBillingRepo s) = true ->
  only silent (applyUsageBilling decimal_round8 sha256_hex format_d format_f10 scan_decimal s id l p) /\
  only silent (writeUsageLogBestEffort s l).
Proof.
  intros Hlegacy. unfold applyUsageBilling. cbv zeta. rewrite Hlegacy.
  split; [unfold postUsageBilling, count_platform_quota|unfold writeUsageLogBestEffort]; repeat (only_tac || exact I).
Qed.
(** ** The charge and the log of one recording *)

(** The parameters of a charge and the log it goes with agree. *)
Record agree (l : UsageLog) (p : postUsageBillingParams) : Prop := {
  ag_user : ul_UserID l = user_ID (pb_User p);
  ag_key : ul_APIKeyID l = key_ID (pb_APIKey p);
  ag_account : ul_AccountID l = acc_ID (pb_Account p);
  ag_subscription : ul_SubscriptionID l = us_ID <$> pb_Subscription p;
  ag_mode : pb_IsSubscriptionBill p = bool_decide (is_Some (pb_Subscription p));
  ag_total : TotalCost (ul_Cost l) = TotalCost (pb_Cost p);
  ag_actual : ActualCost (ul_Cost l) = ActualCost (pb_Cost p);
  ag_id : str_empty (TrimSpace (ul_RequestID l)) = false
}.

(** The command takes the cost of the log, from its subscription or else from
    the balance of its user, under its request identifier and key. *)
Definition pays_for (cmd : UsageBillingCommand) (l : UsageLog) : Prop :=
  let cost := ActualCost (ul_Cost l) in
  let by_subscription := bool_decide (is_Some (ul_SubscriptionID l)) && fgtb (TotalCost (ul_Cost l)) f0 in
  RequestID cmd = TrimSpace (ul_RequestID l) /\ cmd_APIKeyID cmd = ul_APIKeyID l /\
  cmd_UserID cmd = ul_UserID l /\ cmd_AccountID cmd = ul_AccountID l /\
  cmd_SubscriptionID cmd = ul_SubscriptionID l /\
  SubscriptionCost cmd = quantize (if by_subscription then cost else f0) /\
  BalanceCost cmd = quantize (if negb by_subscription && fgtb cost f0 then cost else f0).

Lemma command_pays l p : agree l p -> pays_for (command (ul_RequestID l) (Some l) p) l.
Proof.
  intros [H1 H2 H3 H4 H5 H6 H7 H8]. unfold pays_for, buildUsageBillingCommand. cbv zeta. rewrite H5.
  assert (bool_decide (is_Some (ul_SubscriptionID l)) = bool_decide (is_Some (pb_Subscription p))) as Hsub
    by (apply bool_decide_ext; rewrite H4; apply fmap_is_Some).
  unfold Normalize. cbn. rewrite Hsub, H6, H7. split_and!; auto.
  - destruct (bool_decide _) eqn:E; cbn; [destruct (fgtb _ _)|]; auto.
  - by destruct (bool_decide _); cbn; [destruct (fgtb _ _)|].
  - by destruct (bool_decide _); cbn; [destruct (fgtb _ _)|].
Qed.

(** How a recording over the billing repository ends: refused, with nothing
    charged and nothing logged; or charged once for the log that is then
    written. *)
Definition settled (s : Recorder) (key : Z) (id_ok : string -> Prop) (tr : trace ucall) (r : result unit) : Prop :=
  (∀ c, c ∈ charges tr -> id_ok (RequestID c.1) /\ cmd_APIKeyID c.1 = key) /\
  (List.length (charges tr) <= 1)%nat /\ (sv_usageBillingRepo s = true -> directs tr = []) /\
  match r with
  | Err _ => logs tr = [] /\ Forall (λ c, is_ok c.2 = false) (charges tr)
  | Ok _ =>
    ∃ l, Forall (eq l) (logs tr) /\ ul_APIKeyID l = key /\ id_ok (TrimSpace (ul_RequestID l)) /\
      (simple_mode s = false -> sv_usageBillingRepo s = true ->
       ∃ after before cmd a, tr = after ++ Ev (ApplyCharge cmd) (Ok a) :: before /\ clean before /\
         charges after = [] /\ pays_for cmd l)
  end.

(** The writes of a log. *)
Definition logs_only (l : UsageLog) B (c : ucall B) : Prop :=
  match c with CreateBestEffort l' | CreateLog l' => l' = l | WriteContextExpired => True | _ => False end.
Lemma write_logs_only s l : only (logs_only l) (writeUsageLogBestEffort s l).
Proof. unfold writeUsageLogBestEffort. repeat (cbv zeta; only_step || done). Qed.
Lemma logs_only_always l {A} (p : uprog A) tr :
  only (logs_only l) p ->
  always p tr (λ tr' _, ∃ new, tr' = new ++ tr /\ charges new = [] /\ directs new = [] /\ Forall (eq l) (logs new)).
Proof.
  revert tr. induction p as [a|B c k IH]; cbn; intros tr H; [by exists []|]. destruct H as [H1 H2]. intros b.
  eapply always_then; [by apply IH|]. intros tr' a (new & -> & Hc & Hd & Hl).
  exists (new ++ [Ev c b]). unfold charges, logs, directs in *. rewrite !flat_map_app, Hc, Hd, <- app_assoc. split; [done|].
  destruct c; cbn in H1 |- *; try done; split_and!; try done; apply Forall_app; split; try done;
    repeat constructor; done.
Qed.

(** What a program without charges and logs adds. *)
Definition inert (new : trace ucall) : Prop := charges new = [] /\ logs new = [] /\ directs new = [].
Lemma inert_app n1 n2 : inert n1 -> clean n2 -> clean (n1 ++ n2).
Proof.
  unfold inert, clean, charges, logs, directs. rewrite !flat_map_app. by intros (-> & -> & ->) (-> & -> & ->).
Qed.
Lemma harmless_inert {A} (p : uprog A) tr :
  only harmless p -> always p tr (λ tr' _, ∃ new, tr' = new ++ tr /\ inert new).
Proof.
  revert tr. induction p as [a|B c k IH]; cbn; intros tr H; [by exists []|]. destruct H as [H1 H2]. intros b.
  eapply always_then; [by apply IH|]. intros tr' a (new & -> & Hn).
  exists (new ++ [Ev c b]). rewrite <- app_assoc. split; [done|]. apply inert_app; [done|].
  split_and!; [apply uncounted_charges|apply uncounted_logs|by apply harmless_directs]; by apply harmless_uncounted.
Qed.
Lemma clean_harmless {A} (p : uprog A) tr : only harmless p -> clean tr -> always p tr (λ tr' _, clean tr').
Proof.
  intros Hp Hc. eapply always_then; [by apply harmless_inert|]. intros tr' a (new & -> & Hn). by apply inert_app.
Qed.
Lemma inert_logs new cmd b before : inert new -> clean before -> logs (new ++ Ev (ApplyCharge cmd) b :: before) = [].
Proof. intros (_ & H1 & _) (_ & H2 & _). unfold logs in *. rewrite flat_map_app, H1. exact H2. Qed.

(** What is known once a charge has been asked for. *)
Definition charged (s : Recorder) (l : UsageLog) (tr : trace ucall) (r : result bool) : Prop :=
  ∃ cmd, pays_for cmd l /\ logs tr = [] /\
  match r with
  | Err e => ∃ before, tr = Ev (ApplyCharge cmd) (Err e) :: before /\ clean before
  | Ok _ => if sv_usageBillingRepo s
            then ∃ after before a, tr = after ++ Ev (ApplyCharge cmd) (Ok a) :: before /\ clean before /\ inert after
            else charges tr = []
  end.

Lemma apply_charges s l p tr :
  agree l p -> clean tr ->
  always (applyUsageBilling decimal_round8 sha256_hex format_d format_f10 scan_decimal s (ul_RequestID l) l p) tr
    (charged s l).
Proof.
  intros Hag Hclean. unfold applyUsageBilling. cbv zeta.
  pose proof (command_pays l p Hag) as Hpay. set (cmd := command (ul_RequestID l) (Some l) p) in *.
  assert (str_empty (RequestID cmd) = false) as -> by (destruct Hpay as (-> & _); apply Hag).
  destruct (sv_usageBillingRepo s) eqn:Er; cbn [negb orb].
  - unfold attempt. intros [a|e]; cbn.
    + assert (∀ (q : uprog unit) b, only harmless q ->
        always (pbind q (λ _, Ret (Ok b))) (Ev (ApplyCharge cmd) (Ok a) :: tr) (charged s l)) as Hrest.
      { intros q b Hq. apply always_bind. eapply always_then; [by apply harmless_inert|].
        intros tr' [] (new & -> & Hn). exists cmd. rewrite Er. split; [done|]. split; [by apply inert_logs|by eauto 10]. }
      destruct a as [res|]; [|apply (Hrest (call _) false); only_tac].
      destruct (Applied res); [|apply (Hrest (call _) false); only_tac].
      apply always_bind. eapply always_then; [apply (harmless_inert (pwhen _ _)); only_tac|].
      intros tr1 [] (n1 & -> & Hn1). apply always_bind.
      eapply always_then; [apply (harmless_inert (finalizePostUsageBilling _ _ _ _)), finalize_harmless|].
      intros tr2 [] (n2 & -> & Hn2). exists cmd. rewrite Er, app_assoc. split; [done|].
      pose proof (inert_app _ _ Hn2 Hn1) as Hn. split; [by apply inert_logs|by eauto 10].
    + exists cmd. split_and!; [done|apply Hclean|by exists tr].
  - apply always_bind. eapply always_then; [apply uncounted_always, legacy_uncounted|].
    intros tr' [] [H1 H2]. exists cmd. rewrite Er, H1, H2. split_and!; [done|apply Hclean..].
Qed.

Definition same_key (cmd : UsageBillingCommand) (l : UsageLog) : Prop :=
  RequestID cmd = TrimSpace (ul_RequestID l) /\ cmd_APIKeyID cmd = ul_APIKeyID l.
Lemma pays_same_key cmd l : pays_for cmd l -> same_key cmd l.
Proof. by intros (H1 & H2 & _). Qed.

Lemma charges_around after cmd b before :
  charges after = [] -> charges before = [] -> charges (after ++ Ev (ApplyCharge cmd) b :: before) = [(cmd, b)].
Proof. intros H1 H2. unfold charges in *. rewrite flat_map_app, H1. cbn. by rewrite H2. Qed.

(** The write that ends a recording. *)
Lemma finish_write s l key id_ok tr (k : uprog (result unit)) :
  ul_APIKeyID l = key -> id_ok (TrimSpace (ul_RequestID l)) -> logs tr = [] ->
  (∀ c, c ∈ charges tr -> same_key c.1 l) -> (List.length (charges tr) <= 1)%nat ->
  (sv_usageBillingRepo s = true -> directs tr = []) ->
  (simple_mode s = false -> sv_usageBillingRepo s = true ->
   ∃ after before cmd a, tr = after ++ Ev (ApplyCharge cmd) (Ok a) :: before /\ clean before /\
     charges after = [] /\ pays_for cmd l) ->
  (k = Ret (Ok tt) \/ ∃ id, k = Do (ScheduleLastUsedUpdate id) (λ _, Ret (Ok tt))) ->
  always (pbind (writeUsageLogBestEffort s l) (λ _, k)) tr (settled s key id_ok).
Proof.
  intros Hkey Hid Hlogs Hcs Hlen Hdir Hrepo Hk. apply always_bind.
  eapply always_then; [apply logs_only_always, write_logs_only|]. intros tr' [] (new & -> & Hc & Hd & Hl).
  assert (∀ extra, inert extra -> settled s key id_ok (extra ++ new ++ tr) (Ok tt)) as Hend.
  { intros extra (He1 & He2 & He3).
    assert (charges (extra ++ new ++ tr) = charges tr) as Hch
      by (unfold charges in *; by rewrite !flat_map_app, He1, Hc).
    assert (logs (extra ++ new ++ tr) = logs new) as Hlg
      by (unfold logs in *; rewrite !flat_map_app, He2, Hlogs; apply app_nil_r).
    unfold settled. rewrite Hch, Hlg. split_and!; [|done| |].
    { intros c Hin. destruct (Hcs c Hin) as [-> ->]. done. }
    { intros Hr. unfold directs in *. by rewrite !flat_map_app, He3, Hd, (Hdir Hr). }
    exists l. split_and!; try done. intros H1 H2. destruct (Hrepo H1 H2) as (after & before & cmd & a & -> & ? & Ha & ?).
    exists (extra ++ new ++ after), before, cmd, a. rewrite <- !app_assoc. split_and!; try done.
    unfold charges in *. by rewrite !flat_map_app, He1, Hc, Ha. }
  destruct Hk as [->|[id ->]]; [by apply (Hend [])|]. intros []. by apply (Hend [Ev (ScheduleLastUsedUpdate id) tt]).
Qed.

Lemma finish_settled s l p id_ok tr :
  agree l p -> id_ok (TrimSpace (ul_RequestID l)) -> clean tr ->
  always (finish s l p) tr (settled s (ul_APIKeyID l) id_ok).
Proof.
  intros Hag Hid (Hc & Hl & Hd). unfold charge_and_log. destruct (simple_mode s) eqn:Es.
  - apply finish_write; [done..| | | | |by right; eexists].
    + rewrite Hc. by intros c ?%elem_of_nil.
    + rewrite Hc. cbn. lia.
    + done.
    + congruence.
  - unfold attempt. eapply always_step; [by apply apply_charges|].
    intros tr' r _ (cmd & Hpay & Hlogs & Hr). destruct r as [b|e].
    + apply finish_write; [done..| | | | |by left]; destruct (sv_usageBillingRepo s) eqn:Er.
      * destruct Hr as (after & before & a & -> & [Hb _] & [Ha _]). rewrite charges_around by done.
        intros c ->%list_elem_of_singleton. by apply pays_same_key.
      * rewrite Hr. by intros c ?%elem_of_nil.
      * destruct Hr as (after & before & a & -> & [Hb _] & [Ha _]). by rewrite charges_around.
      * rewrite Hr. cbn. lia.
      * intros _. destruct Hr as (after & before & a & -> & (_ & _ & Hb) & (_ & _ & Ha)).
        unfold directs in *. rewrite flat_map_app, Ha. exact Hb.
      * done.
      * intros _ _. destruct Hr as (after & before & a & -> & ? & [? _]). by exists after, before, cmd, a.
      * by intros _ [=].
    + destruct Hr as (before & -> & (Hb & Hb' & Hb'')). cbn. unfold settled.
      assert (charges (Ev (ApplyCharge cmd) (Err e) :: before) = [(cmd, Err e)]) as -> by (by apply (charges_around [])).
      split_and!; [|cbn; lia|done..|by repeat constructor].
      intros c ->%list_elem_of_singleton. cbn [fst]. destruct Hpay as (-> & -> & _). done.
Qed.

(** ** Both gateways *)

Lemma clean_step {A B} (p : uprog A) (f : A -> uprog B) tr Q :
  only harmless p -> clean tr -> (∀ tr' a, clean tr' -> always (f a) tr' Q) -> always (pbind p f) tr Q.
Proof. intros Hp Hc Hf. eapply always_step; [by apply clean_harmless|]. intros tr' a _. apply Hf. Qed.
Lemma settled_err s key id_ok tr e : clean tr -> settled s key id_ok tr (Err e).
Proof.
  intros (Hc & Hl & Hd). unfold settled. rewrite Hc. split_and!; [by intros c ?%elem_of_nil|cbn; lia|done..|constructor].
Qed.
Lemma attempt_step {A B} (p : uprog (result A)) (f : A -> uprog (result B)) tr s key id_ok (g : result B -> result unit) :
  only harmless p -> clean tr -> (∀ e, g (Err e) = Err e) ->
  (∀ tr' a, clean tr' -> always (f a) tr' (λ t r, settled s key id_ok t (g r))) ->
  always (attempt p f) tr (λ t r, settled s key id_ok t (g r)).
Proof.
  intros Hp Hc Hg Hf. unfold attempt. apply clean_step; [done..|]. intros tr' [a|e] Hc'; [by apply Hf|].
  cbn. rewrite Hg. by apply settled_err.
Qed.

Lemma trim_has c s :
  forallb (λ e, forallb (λ b, negb (Ascii.eqb c b)) e) space_encodings = true ->
  c ∈ to_bytes s -> str_empty (TrimSpace s) = false.
Proof.
  intros H1 H2. pose proof (TrimSpace_keeps c s H1 H2) as H. destruct (TrimSpace s); [|done].
  by apply elem_of_nil in H.
Qed.

(** The identifier a recording is charged under. *)
Definition client_id (ctx : UsageContext) : string := ("client:" ++ TrimSpace (ux_ClientRequestID ctx))%string.
Definition own_id (ctx : UsageContext) (ws : bool) (id : string) : Prop :=
  id ≠ ""%string /\ (ws = false -> str_empty (TrimSpace (ux_ClientRequestID ctx)) = false -> id = TrimSpace (client_id ctx)).

Lemma request_id_ok ctx up tr :
  clean tr -> always (resolveUsageBillingRequestID ctx up) tr (λ tr' id, clean tr' /\ own_id ctx false (TrimSpace id)).
Proof.
  intros Hc. unfold resolveUsageBillingRequestID, own_id, client_id.
  destruct (str_empty (TrimSpace (ux_ClientRequestID ctx))) eqn:E1; cbn [negb].
  - destruct (str_empty (TrimSpace (ux_RequestID ctx))) eqn:E2; cbn [negb];
      [destruct (str_empty (TrimSpace up)) eqn:E3; cbn [negb]|]; cbn; [intros id| |];
      (split; [done || by destruct Hc|]; split; [|done]); apply str_empty_false;
      [by apply (trim_has "g"%char); [|left]|by rewrite TrimSpace_idem|by apply (trim_has "l"%char); [|left]].
  - cbn. split; [done|]. split; [|done]. apply str_empty_false. by apply (trim_has "c"%char); [|left].
Qed.

Lemma attribution_agrees ctx l p : agree l p -> agree (applyPlatformAssetUsageAttribution ctx l) p.
Proof. intros [H1 H2 H3 H4 H5 H6 H7 H8]. unfold applyPlatformAssetUsageAttribution. destruct (ux_Route ctx); by constructor. Qed.
Lemma attribution_key ctx l : ul_APIKeyID (applyPlatformAssetUsageAttribution ctx l) = ul_APIKeyID l.
Proof. unfold applyPlatformAssetUsageAttribution. by destruct (ux_Route ctx). Qed.
Lemma attribution_id ctx l : ul_RequestID (applyPlatformAssetUsageAttribution ctx l) = ul_RequestID l.
Proof. unfold applyPlatformAssetUsageAttribution. by destruct (ux_Route ctx). Qed.

Lemma finish_attributed {R} s ctx ws (input : UsageInput R) l cost platform tr :
  clean tr -> own_id ctx ws (TrimSpace (ul_RequestID l)) ->
  (own_id ctx ws (TrimSpace (ul_RequestID l)) -> agree l (billing_params ctx input cost platform)) ->
  always (finish s (applyPlatformAssetUsageAttribution ctx l) (billing_params ctx input cost platform)) tr
    (settled s (key_ID (ui_APIKey input)) (own_id ctx ws)).
Proof.
  intros Hc Hid Hag. specialize (Hag Hid).
  replace (key_ID (ui_APIKey input)) with (ul_APIKeyID (applyPlatformAssetUsageAttribution ctx l))
    by (rewrite attribution_key; apply Hag).
  apply finish_settled; [by apply attribution_agrees|by rewrite attribution_id|done].
Qed.

Lemma gateway_settled s ctx input opts tr :
  clean tr -> always (core s ctx input opts) tr (settled s (key_ID (ui_APIKey input)) (own_id ctx false)).
Proof.
  intros Hc. unfold recordUsageCore. cbv zeta. apply clean_step; [apply billed_usage_harmless|done|].
  clear tr Hc. intros tr billed Hc. destruct (resolveBillingMultipliers _ _) as [[m im] vm].
  destruct (overridePlatformAssetBillingMultipliers _ _ _ _) as [[x xi] xv].
  apply clean_step; [apply fallback_harmless|done|]. clear tr Hc. intros tr model Hc.
  apply (attempt_step _ _ _ _ _ _ id); [apply gateway_cost_harmless|done..|]. clear tr Hc. intros tr cost Hc.
  unfold buildRecordUsageLog. cbv zeta. apply always_bind, always_bind.
  eapply always_then; [by apply request_id_ok|]. clear tr Hc. intros tr id [Hc Hid]. intros now.
  apply finish_attributed; [by destruct Hc|done|]. cbn. intros [Hne _]. constructor; try done. by apply str_empty_false.
Qed.

Definition over_websocket (input : UsageInput (option OpenAIForwardResult)) : bool :=
  match ui_Result input with Some r => or_OpenAIWSMode r | None => false end.
Lemma openai_settled s ctx input tr :
  clean tr ->
  always (openai s ctx (Some input)) tr (settled s (key_ID (ui_APIKey input)) (own_id ctx (over_websocket input))).
Proof.
  intros Hc. unfold openai_RecordUsage, over_websocket. cbv zeta. destruct (ui_Result input) as [r0|]; [|by apply settled_err].
  apply clean_step; [only_tac|done|]. clear tr Hc. intros tr [] Hc.
  set (r := if isGrokVideoUsageResult r0 [] then _ else _).
  assert (or_OpenAIWSMode r = or_OpenAIWSMode r0) as <- by (unfold r; by destruct (isGrokVideoUsageResult r0 [])).
  clearbody r.
  destruct (resolveBillingMultipliers _ _) as [[m im] vm].
  destruct (overridePlatformAssetBillingMultipliers _ _ _ _) as [[xb x] xi].
  destruct (overridePlatformAssetBillingMultipliers _ _ _ _) as [[x1 x2] xv].
  apply (attempt_step _ _ _ _ _ _ id); [apply credential_harmless|done..|]. clear tr Hc. intros tr account Hc.
  apply clean_step; [apply openai_cost_harmless|done|]. clear tr Hc. intros tr priced Hc.
  apply (attempt_step _ _ _ _ _ _ id); [done..|]. clear tr Hc. intros tr cost Hc.
  apply always_bind. eapply always_then; [by apply request_id_ok|]. clear tr Hc. intros tr id [Hc Hid]. intros now.
  apply finish_attributed; [by destruct Hc| |]; [|intros [Hne _]; constructor; try done; by apply str_empty_false].
  cbn [ul_RequestID openai_usage_log].
  destruct (or_OpenAIWSMode r) eqn:Ews; cbn [andb]; [|done].
  destruct (str_empty (TrimSpace (or_RequestID r))) eqn:E; cbn [negb]; [by destruct Hid as [? _]|].
  rewrite TrimSpace_idem. split; [by apply str_empty_false|done].
Qed.

(** ** What every recording guarantees *)

(** A recording by either gateway: the key it charges, and whether its
    identifier may be the upstream's (a websocket serves many requests). *)
Inductive recording (s : Recorder) (ctx : UsageContext) : Z -> bool -> uprog (result unit) -> Prop :=
| rec_gateway input opts : recording s ctx (key_ID (ui_APIKey input)) false (core s ctx input opts)
| rec_openai input : recording s ctx (key_ID (ui_APIKey input)) (over_websocket input) (openai s ctx (Some input)).

Lemma recording_settled s ctx key ws p tr :
  recording s ctx key ws p -> clean tr -> always p tr (settled s key (own_id ctx ws)).
Proof. intros [input opts|input] Hc; [by apply gateway_settled|by apply openai_settled]. Qed.

(** C4. Whatever the services answer, over the billing repository and outside
    simple mode (which charges nothing): a recording that succeeds has sent
    exactly one billing command, which takes the cost its log shows from the
    subscription the log names or else from the balance of its user; the command was answered before the log was written, and only
    that log was.  A recording that fails has charged nothing and logged
    nothing. *)
Theorem charged_then_logged s ctx key ws p :
  recording s ctx key ws p -> simple_mode s = false -> sv_usageBillingRepo s = true ->
  always p [] (λ tr r,
    match r with
    | Err _ => logs tr = [] /\ Forall (λ c, is_ok c.2 = false) (charges tr)
    | Ok _ =>
      ∃ l cmd a after before, charges tr = [(cmd, Ok a)] /\ pays_for cmd l /\ Forall (eq l) (logs tr) /\
        tr = after ++ Ev (ApplyCharge cmd) (Ok a) :: before /\ logs before = []
    end).
Proof.
  intros Hp Hs Hr. eapply always_then; [by apply (recording_settled _ _ _ _ _ _ Hp)|].
  intros tr [[]|e] (_ & _ & _ & H); [|done]. destruct H as (l & Hl & _ & _ & Hpaid).
  destruct (Hpaid Hs Hr) as (after & before & cmd & a & -> & (Hb & Hbl & _) & Ha & Hpay).
  exists l, cmd, a, after, before. by rewrite charges_around.
Qed.

End Props.

Section Props.
Context {UC : UnicodeCase} {Host : GoHost}.
Context (catalog : option (string -> option LiteLLMPricingLookup)) (map_order : list string)
        (decimal_round8 : float64 -> float64) (sha256_hex : string -> string)
        (format_d : Z -> string) (format_f10 : float64 -> string) (scan_decimal : Z -> float64)
        (error_text : error -> string).

Abbreviation core := (recordUsageCore catalog map_order decimal_round8 sha256_hex format_d format_f10 scan_decimal).
Abbreviation openai :=
  (openai_RecordUsage catalog map_order decimal_round8 sha256_hex format_d format_f10 scan_decimal error_text).
Abbreviation finish := (charge_and_log decimal_round8 sha256_hex format_d format_f10 scan_decimal).
Abbreviation finalize :=
  (Finalize catalog map_order decimal_round8 sha256_hex format_d format_f10 scan_decimal error_text).
Abbreviation record_one :=
  (record_event catalog map_order decimal_round8 sha256_hex format_d format_f10 scan_decimal error_text).
Abbreviation record_each :=
  (record_all catalog map_order decimal_round8 sha256_hex format_d format_f10 scan_decimal error_text).
Abbreviation dispatch :=
  (Dispatch catalog map_order decimal_round8 sha256_hex format_d format_f10 scan_decimal error_text).

(** ** What is logged *)

Definition unlogged B (c : ucall B) : Prop := match kind c with KLog => False | _ => True end.
Lemma harmless_unlogged B (c : ucall B) : harmless B c -> unlogged B c.
Proof. by destruct c. Qed.

Lemma apply_unlogged s id l p :
  only unlogged (applyUsageBilling decimal_round8 sha256_hex format_d format_f10 scan_decimal s id l p).
Proof.
  unfold applyUsageBilling. cbv zeta. destruct (_ || _).
  { apply only_bind; [|done]. eapply only_weaken; [|apply legacy_uncounted]. by intros B []. }
  apply only_bind; [apply only_call; exact I|]. intros [[r|]|e]; cbn; [|done..]. destruct (Applied r); [|done].
  apply only_bind; [by destruct (_ && _)|]. intros _. apply only_bind; [|done].
  eapply only_weaken; [apply harmless_unlogged|apply finalize_harmless].
Qed.
Lemma finish_logs s l p tr : clean tr -> always (finish s l p) tr (λ tr' _, Forall (eq l) (logs tr')).
Proof.
  intros (_ & Hl & _). unfold charge_and_log.
  assert (∀ tr' (k : uprog (result unit)), logs tr' = [] -> only unlogged k ->
    always (pbind (writeUsageLogBestEffort s l) (λ _, k)) tr' (λ t _, Forall (eq l) (logs t))) as Hwrite.
  { intros tr' k Hl' Hk. apply always_bind. eapply always_then; [apply logs_only_always, write_logs_only|].
    intros t [] (new & -> & _ & _ & Hnew). eapply always_then; [apply (only_same unlogged logs); [|exact Hk]; by intros B []|].
    intros t' r ->. unfold logs in *. rewrite flat_map_app, Hl', app_nil_r. done. }
  destruct (simple_mode s); [by apply Hwrite|]. unfold attempt. apply always_bind.
  eapply always_then; [apply (only_same unlogged logs); [by intros B []|apply apply_unlogged]|].
  intros tr' [b|e] Hsame; [by apply Hwrite; [congruence|]|]. cbn. rewrite Hsame, Hl. constructor.
Qed.

(** The logs of an OpenAI recording are made of its input and result. *)
Definition openai_log (ctx : UsageContext) (input : UsageInput (option OpenAIForwardResult)) (l : UsageLog) : Prop :=
  ∃ r0 r isVideo id cost x xi xv now,
    ui_Result input = Some r0 /\
    (r = r0 \/ r = or_with_images r0 (apply_image_resolution (or_Images r0))) /\
    l = applyPlatformAssetUsageAttribution ctx (openai_usage_log input r isVideo id cost x xi xv now).
Lemma openai_logs s ctx input tr :
  clean tr -> always (openai s ctx (Some input)) tr (λ tr' _, Forall (openai_log ctx input) (logs tr')).
Proof.
  intros Hc. assert (∀ t : trace ucall, clean t -> Forall (openai_log ctx input) (logs t)) as Hnone
    by (intros t (_ & -> & _); constructor).
  unfold openai_RecordUsage. cbv zeta. destruct (ui_Result input) as [r0|] eqn:Er; [|by apply Hnone].
  apply clean_step; [only_tac|done|]. clear tr Hc. intros tr [] Hc.
  set (r := if isGrokVideoUsageResult r0 [] then _ else _).
  assert (r = r0 \/ r = or_with_images r0 (apply_image_resolution (or_Images r0))) as Hr
    by (unfold r; destruct (isGrokVideoUsageResult r0 []); auto).
  clearbody r. destruct (resolveBillingMultipliers _ _) as [[m im] vm].
  destruct (overridePlatformAssetBillingMultipliers _ _ _ _) as [[xb x] xi].
  destruct (overridePlatformAssetBillingMultipliers _ _ _ _) as [[x1 x2] xv].
  unfold attempt. apply clean_step; [apply credential_harmless|done|]. clear tr Hc. intros tr [account|e] Hc; [|by apply Hnone].
  apply clean_step; [apply openai_cost_harmless|done|]. clear tr Hc. intros tr priced Hc.
  apply clean_step; [done|done|]. clear tr Hc. intros tr [cost|e] Hc; [|by apply Hnone].
  apply clean_step; [apply request_id_harmless|done|]. clear tr Hc. intros tr id Hc. intros now.
  eapply always_then; [apply finish_logs; by destruct Hc|]. intros tr' res H.
  eapply Forall_impl; [exact H|]. intros l <-. unfold openai_log. eauto 12.
Qed.

(** The logs of a gateway recording. *)
Definition gateway_log (ctx : UsageContext) (input : UsageInput ForwardResult) (l : UsageLog) : Prop :=
  ul_VideoCount l = 0 /\
  ul_ImageSize l = optionalTrimmedStringPtr (im_ImageSize (apply_image_resolution (fr_Images (ui_Result input)))).
Lemma gateway_logs s ctx input opts tr :
  clean tr -> always (core s ctx input opts) tr (λ tr' _, Forall (gateway_log ctx input) (logs tr')).
Proof.
  intros Hc. assert (∀ t : trace ucall, clean t -> Forall (gateway_log ctx input) (logs t)) as Hnone
    by (intros t (_ & -> & _); constructor).
  unfold recordUsageCore. cbv zeta. apply clean_step; [apply billed_usage_harmless|done|].
  clear tr Hc. intros tr billed Hc. destruct (resolveBillingMultipliers _ _) as [[m im] vm].
  destruct (overridePlatformAssetBillingMultipliers _ _ _ _) as [[x xi] xv].
  apply clean_step; [apply fallback_harmless|done|]. clear tr Hc. intros tr model Hc. unfold attempt.
  apply clean_step; [apply gateway_cost_harmless|done|]. clear tr Hc. intros tr [cost|e] Hc; [|by apply Hnone].
  unfold buildRecordUsageLog. cbv zeta. apply always_bind.
  apply clean_step; [apply request_id_harmless|done|]. clear tr Hc. intros tr id Hc. cbn [always pbind call]. intros now.
  eapply always_then; [apply finish_logs; by destruct Hc|]. intros tr' res H.
  eapply Forall_impl; [exact H|]. intros l <-. unfold gateway_log, applyPlatformAssetUsageAttribution.
  by destruct (ux_Route ctx).
Qed.
(** ** One event *)

(** A property of traces that the reads before a recording do not matter to. *)
Lemma finalize_always fz ctx snapshot e tr (Q : trace ucall -> Prop) :
  clean tr -> (∀ t, clean t -> Q t) ->
  (∀ t ctx' key user account sub, clean t ->
     always (record_one fz ctx' (sn_Decision snapshot) e key user account sub) t (λ t' _, Q t')) ->
  always (finalize fz ctx snapshot e) tr (λ t _, Q t).
Proof.
  intros Hc Hclean Hrec. unfold Finalize. cbv zeta.
  destruct (negb (ev_Success e)); [by apply Hclean|]. destruct (negb (_ || _)); [by apply Hclean|].
  destruct (_ || _); [by apply Hclean|].
  unfold attempt. apply clean_step; [only_tac|done|]. clear tr Hc. intros tr [[key|]|er] Hc; [|by apply Hclean..].
  apply clean_step; [only_tac|done|]. clear tr Hc. intros tr [user|er] Hc; [|by apply Hclean].
  apply clean_step; [only_tac|done|]. clear tr Hc. intros tr [account|er] Hc; [|by apply Hclean].
  destruct user as [user|]; [|by apply Hclean]. destruct account as [account|]; [|by apply Hclean].
  apply clean_step; [only_tac|done|]. clear tr Hc. intros tr [sub|er] Hc; [|by apply Hclean].
  by apply Hrec.
Qed.

Lemma record_recorded sink events : record_each sink true events = Ret true.
Proof. induction events as [|[ctx e] rest IH]; [done|]. cbn. exact IH. Qed.

(** A dispatch runs one event of its runtime at most. *)
Lemma dispatch_always fz decision grant endpoint events err (Q : trace ucall -> Prop) :
  (∀ t, clean t -> Q t) ->
  (∀ d t ctx e key user account sub, clean t ->
     always (record_one fz ctx d e key user account sub) t (λ t' _, Q t')) ->
  always (dispatch fz decision grant endpoint events err) [] (λ t _, Q t).
Proof.
  intros Hclean Hrec. unfold Dispatch. destruct decision as [[d|]|er]; [|by apply Hclean..]. cbv zeta.
  apply always_bind. destruct events as [|[ctx e] rest]; [by apply Hclean|].
  unfold record_all; fold record_each. unfold RecordFinal. apply always_bind, always_bind.
  assert (∀ t, Q t -> always (record_each (if isNonBillingEndpoint endpoint then NoBillingUsageSink
      else ProductUsageSink fz {| sn_Decision := d; sn_Grant := grant |}) true rest) t (λ tr' (recorded : bool),
        always (Ret (if recorded then err else Some (match err with Some e => EJoin e ErrGatewayTerminalMissing
                                                   | None => ErrGatewayTerminalMissing end))) tr' (λ t _, Q t))) as Hend.
  { intros t Ht. rewrite record_recorded. exact Ht. }
  destruct (isNonBillingEndpoint endpoint); [by apply Hend, Hclean|].
  eapply always_then; [|intros t r Ht; exact (Hend t Ht)].
  apply finalize_always; [done|done|]. intros. by apply Hrec.
Qed.

(** ** Every dispatch *)

Lemma record_one_settled fz d t ctx e key user account sub (Q : trace ucall -> Prop) :
  clean t -> (∀ t, clean t -> Q t) ->
  (∀ s key ws t r, settled decimal_round8 s key (own_id ctx ws) t r -> Q t) ->
  always (record_one fz ctx d e key user account sub) t (λ t' _, Q t').
Proof.
  intros Hc Hclean Hs. unfold record_event. cbv zeta. destruct (isOpenAIUsageAdapter _ _).
  - destruct (fz_openai fz) as [s|]; [|by apply Hclean].
    eapply always_then; [by apply openai_settled|]. intros t' r. apply Hs.
  - destruct (fz_gateway fz) as [s|]; [|by apply Hclean].
    eapply always_then; [by apply gateway_settled|]. intros t' r. apply Hs.
Qed.

(** C23. However many events a runtime records, in whatever order they pass
    its recorder and whatever the services answer: a dispatch sends at most one
    billing command and writes at most one log. *)
Theorem dispatch_charges_once fz decision grant endpoint events err :
  always (dispatch fz decision grant endpoint events err) [] (λ tr _,
    (List.length (charges tr) <= 1)%nat /\ ∀ l l', l ∈ logs tr -> l' ∈ logs tr -> l = l').
Proof.
  assert (∀ t : trace ucall, clean t -> (List.length (charges t) <= 1)%nat /\
            ∀ l l', l ∈ logs t -> l' ∈ logs t -> l = l') as Hclean.
  { intros t (-> & -> & _). split; [cbn; lia|]. by intros l l' ?%elem_of_nil. }
  apply dispatch_always; [done|]. intros d t ctx e key user account sub Hc.
  apply record_one_settled; [done..|]. intros s k ws tr r (_ & Hlen & _ & Hr). split; [done|].
  destruct r as [[]|er]; [|destruct Hr as [-> _]; by intros l l' ?%elem_of_nil].
  destruct Hr as (l0 & Hl & _). rewrite Forall_forall in Hl. intros l l' H1 H2. by rewrite <- (Hl l H1), <- (Hl l' H2).
Qed.

(** A log whose videos are of the default length and resolution, and whose
    images are of the default size. *)
Definition default_media (l : UsageLog) : Prop :=
  (ul_VideoCount l ≠ 0 ->
   ul_VideoResolution l = Some VideoBillingResolution480P /\
   ul_VideoDurationSeconds l = Some VideoBillingDefaultDurationSeconds) /\
  (∀ size, ul_ImageSize l = Some size -> size = ImageBillingSize2K).

Lemma unsized_images count :
  im_ImageSize (apply_image_resolution (no_images count)) = ""%string \/
  im_ImageSize (apply_image_resolution (no_images count)) = ImageBillingSize2K.
Proof. unfold apply_image_resolution. destruct (_ <=? _); [by left|by right]. Qed.
Lemma unsized_default size d : (d = ""%string \/ d = ImageBillingSize2K) ->
  optionalTrimmedStringPtr d = Some size -> size = ImageBillingSize2K.
Proof. by intros [-> | ->]; vm_compute; [|intros [= <-]]. Qed.

(** Every log a dispatch writes has its videos at eight seconds in 480p
    and its images at 2K, whatever was asked for and produced: the events
    carry the numbers of images and videos, and neither sizes, resolutions
    nor durations. *)
Theorem dispatched_media_at_defaults fz decision grant endpoint events err :
  always (dispatch fz decision grant endpoint events err) [] (λ tr _, Forall default_media (logs tr)).
Proof.
  apply dispatch_always; [intros t (_ & -> & _); constructor|]. intros d t ctx e key user account sub Hc.
  unfold record_event. cbv zeta. destruct (isOpenAIUsageAdapter _ _).
  - destruct (fz_openai fz) as [s|]; [|cbn; by destruct Hc as (_ & -> & _)].
    eapply always_then; [by apply openai_logs|]. intros t' r H. eapply Forall_impl; [exact H|].
    intros l (r0 & r' & isVideo & id & cost & x & xi & xv & now & [= <-] & Hr & ->).
    set (r0 := openAIForwardResultFromProductUsage e) in *.
    assert (or_VideoResolution r' = ""%string /\ or_VideoDurationSeconds r' = 0 /\
            (im_ImageSize (or_Images r') = ""%string \/ im_ImageSize (or_Images r') = ImageBillingSize2K)) as (Hv & Hd & Hi).
    { destruct Hr as [-> | ->]; cbn; split_and!; auto. apply unsized_images. }
    unfold default_media, applyPlatformAssetUsageAttribution.
    destruct (ux_Route ctx); cbn; rewrite Hv, Hd; (split; [destruct isVideo; [by vm_compute|done]|]);
      intros size; by apply unsized_default.
  - destruct (fz_gateway fz) as [s|]; [|cbn; by destruct Hc as (_ & -> & _)].
    eapply always_then; [by apply gateway_logs|]. intros t' r H. eapply Forall_impl; [exact H|].
    intros l [Hv Hi]. split; [by rewrite Hv|]. rewrite Hi. intros size. apply unsized_default, (unsized_images 0).
Qed.

End Props.
