(* ===== verification/UsageRuns.v ===== *)
(** * Usage recording over the billing database

    The services answer from a world that holds the billing database: the
    billing command is the transaction of [UsageBilling.Apply].  A client's
    request is charged once, however often and by whatever gateway it is
    recorded; concrete recordings of the cases the two gateways disagree on. *)

From Stdlib Require Import QArith.
From S2P Require Import Prelude GoErrors Prog Float64 GoTime GoStrings GoText Subscription SubscriptionRepo APIKeys SchedulerOutbox Account AccountQuota AccountQuotaProps AccountSelection ModelMapping OpenAIModels ProductCore AssetResolver ProductCoreAdapter PlatformModels ModelPricing PricingIntervals PricingCatalog Billing UsageBilling UsageBillingProps UsageMedia UsageRecord UsageGateways UsageRecordProps UsageEvents.
From Stdlib Require Import Ascii String.

Open Scope prog_scope.

Section Books.
Context {UC : UnicodeCase} {Host : GoHost} {PG : Postgres}.
Context (catalog : option (string -> option LiteLLMPricingLookup)) (map_order : list string)
        (decimal_round8 : float64 -> float64) (sha256_hex : string -> string)
        (format_d : Z -> string) (format_f10 : float64 -> string) (scan_decimal : Z -> float64)
        (error_text : error -> string) (sent : float64 -> Q) (db_add db_sub : float64 -> float64 -> float64)
        (db_zone : Location).

Abbreviation apply_ := (Apply decimal_round8 sha256_hex format_d format_f10 sent db_add db_sub db_zone).
Abbreviation normal := (Normalize decimal_round8 sha256_hex format_d format_f10).
Abbreviation operations := (run_ops decimal_round8 sha256_hex format_d format_f10 sent db_add db_sub db_zone).
Abbreviation recorded := (recording catalog map_order decimal_round8 sha256_hex format_d format_f10 scan_decimal error_text).

Definition charge_key (cmd : UsageBillingCommand) : string * Z := (TrimSpace (RequestID cmd), cmd_APIKeyID cmd).

Lemma apply_ok_claimed cmd (d d' : BillingDB) b : apply_ cmd d = (Ok b, d') -> claimed (charge_key cmd) d'.
Proof.
  intros H. pose proof H as Hi. apply apply_inv in Hi as [[-> _]|(b' & [= <-] & _ & _ & _ & He)].
  - revert H. unfold Apply. destruct (str_empty _); [done|]. unfold transaction, mbind_, claimUsageBillingRequest. cbv beta zeta.
    change (RequestID (normal cmd), cmd_APIKeyID (normal cmd)) with (charge_key cmd). unfold claimed.
    destruct (bd_dedup d !! charge_key cmd) eqn:E1; [intros _; left; eauto|]. cbn [set_dedup bd_archive].
    destruct (bd_archive d !! charge_key cmd) eqn:E2; [intros _; right; eauto|]. cbn [negb].
    set (d1 := set_dedup _ d). destruct (applyUsageBillingEffects _ _ _ _ _ _ d1) as [[b'|e] d2] eqn:E; [|done].
    intros [= -> ->]. exfalso. pose proof (keeps_effects sha256_hex sent db_add db_sub db_zone (normal cmd) d1) as [Hk _].
    rewrite E in Hk. cbn in Hk. rewrite Hk in E1. unfold d1 in E1. cbn in E1. by rewrite lookup_insert_eq in E1.
  - left. pose proof (keeps_effects sha256_hex sent db_add db_sub db_zone (normal cmd)
      (set_dedup (<[charge_key cmd := RequestFingerprint (normal cmd)]> (bd_dedup d)) d)) as [Hk _].
    change (RequestID (normal cmd), cmd_APIKeyID (normal cmd)) with (charge_key cmd) in He.
    rewrite He in Hk. cbn in Hk. rewrite Hk, lookup_insert_eq. eauto.
Qed.

Lemma apply_claimed cmd (d d' : BillingDB) r : claimed (charge_key cmd) d -> apply_ cmd d = (r, d') -> d' = d.
Proof.
  intros Hc H. apply apply_inv in H as [[-> _]|(b & _ & _ & H1 & H2 & _)]; [done|].
  change (RequestID (normal cmd), cmd_APIKeyID (normal cmd)) with (charge_key cmd) in H1, H2.
  unfold claimed in Hc. rewrite H1, H2 in Hc. by destruct Hc as [[]|[]].
Qed.

(** ** A world with the database *)

Context {W : Type} (db : W -> BillingDB) (h : ∀ B, ucall B -> W -> B * W).

Definition answer (r : result UsageBillingApplyResult) : result (option UsageBillingApplyResult) :=
  match r with Ok b => Ok (Some b) | Err e => Err e end.

(** The billing command is the transaction; no call outside the direct charges
    of the path without it touches the database. *)
Definition transactional : Prop :=
  (∀ cmd w, (h _ (ApplyCharge cmd) w).1 = answer (apply_ cmd (db w)).1
            /\ db (h _ (ApplyCharge cmd) w).2 = (apply_ cmd (db w)).2) /\
  (∀ B (c : ucall B) w, kind c ≠ KCharge -> kind c ≠ KDirect -> db (h B c w).2 = db w).

(** Commands answered from a database, newest first. *)
Fixpoint moves (cs : list (UsageBillingCommand * result (option UsageBillingApplyResult))) (d d' : BillingDB) : Prop :=
  match cs with
  | [] => d' = d
  | (cmd, a) :: rest => ∃ dm, moves rest d dm /\ a = answer (apply_ cmd dm).1 /\ d' = (apply_ cmd dm).2
  end.
Lemma moves_app c2 c1 d dm d' : moves c1 d dm -> moves c2 dm d' -> moves (c2 ++ c1) d d'.
Proof.
  intros H1. revert d'. induction c2 as [|[cmd a] rest IH]; cbn; intros d'; [by intros ->|].
  intros (dx & Hx & -> & ->). eauto.
Qed.
Lemma moves_claimed cs d d' key :
  claimed key d -> Forall (λ c, charge_key c.1 = key) cs -> moves cs d d' -> d' = d.
Proof.
  intros Hc. revert d'. induction cs as [|[cmd a] rest IH]; cbn; intros d'; [done|].
  intros [Hk Hrest]%Forall_cons (dm & Hm & _ & ->). cbn in Hk.
  rewrite (IH dm Hrest Hm). destruct (apply_ cmd d) as [r dn] eqn:E. cbn. eapply apply_claimed; [|exact E]. by rewrite Hk.
Qed.

Lemma exec_moves {A} (p : uprog A) tr w :
  transactional -> directs (exec h p tr w).1.2 = [] ->
  ∃ new, (exec h p tr w).1.2 = new ++ tr /\ moves (charges new) (db w) (db (exec h p tr w).2).
Proof.
  intros [Happly Hother]. revert tr w. induction p as [a|B c k IH]; cbn; intros tr w Hd; [by exists []|].
  destruct (h B c w) as [b w1] eqn:E. destruct (IH b (Ev c b :: tr) w1 Hd) as (new & Hnew & Hm).
  exists (new ++ [Ev c b]). split; [by rewrite Hnew, <- app_assoc|].
  unfold charges. rewrite flat_map_app. eapply moves_app; [|exact Hm].
  assert (directs [Ev c b] = []) as Hdc.
  { rewrite Hnew in Hd. unfold directs in *. rewrite flat_map_app in Hd. apply app_eq_nil in Hd as [_ Hd].
    cbn in Hd |- *. apply app_eq_nil in Hd as [Hd _]. by rewrite app_nil_r. }
  assert (kind c ≠ KCharge -> kind c ≠ KDirect -> db w1 = db w) as Hsame.
  { intros H1 H2. pose proof (Hother B c w H1 H2) as Ho. by rewrite E in Ho. }
  destruct c; cbn in *; try (apply Hsame; done); try done.
  pose proof (Happly cmd w) as Ha. rewrite E in Ha. cbn in Ha. destruct Ha as [-> ->]. by exists (db w).
Qed.

(** C3. A client's request is charged once: after a recording of it has
    succeeded, another recording under the same client identifier and key,
    whatever it reports, by whatever gateway, and whatever charges, holds and
    archive rounds ran in between, leaves the database as it is.  The first
    gateway is not in simple mode, and both recordings are of requests that are
    not websocket turns (those have identifiers of their own). *)
Theorem client_request_charged_once s1 s2 ctx1 ctx2 key p1 p2 ops w w2 :
  transactional ->
  recorded s1 ctx1 key false p1 -> recorded s2 ctx2 key false p2 ->
  simple_mode s1 = false -> sv_usageBillingRepo s1 = true -> sv_usageBillingRepo s2 = true ->
  str_empty (TrimSpace (ux_ClientRequestID ctx1)) = false ->
  TrimSpace (ux_ClientRequestID ctx2) = TrimSpace (ux_ClientRequestID ctx1) ->
  (exec h p1 [] w).1.1 = Ok tt ->
  db w2 = (operations ops (db (exec h p1 [] w).2)).2 ->
  db (exec h p2 [] w2).2 = db w2.
Proof.
  intros Ht Hp1 Hp2 Hs Hr1 Hr2 Hid1 Hid2 Hok Hw2.
  assert (clean []) as Hclean by done.
  pose proof (always_exec h _ _ _ w (recording_settled _ _ _ _ _ _ _ _ _ _ _ _ _ [] Hp1 Hclean)) as H1.
  pose proof (always_exec h _ _ _ w2 (recording_settled _ _ _ _ _ _ _ _ _ _ _ _ _ [] Hp2 Hclean)) as H2.
  destruct H1 as (Hk1 & _ & Hd1 & Hres). destruct H2 as (Hk2 & _ & Hd2 & _).
  rewrite Hok in Hres. destruct Hres as (l & _ & _ & _ & Hpaid).
  destruct (Hpaid Hs Hr1) as (after & before & cmd & a & Htr & (Hb & _) & Ha & _).
  destruct (exec_moves p1 [] w Ht (Hd1 Hr1)) as (new1 & Hn1 & Hm1).
  destruct (exec_moves p2 [] w2 Ht (Hd2 Hr2)) as (new2 & Hn2 & Hm2).
  rewrite app_nil_r in Hn1, Hn2. rewrite <- Hn1, Htr, charges_around in Hm1 by done.
  destruct Hm1 as (d & -> & Hans & Hdb). destruct (apply_ cmd (db w)) as [r dn] eqn:E. cbn in Hans, Hdb.
  destruct r as [b|e]; [|done]. pose proof (apply_ok_claimed _ _ _ _ E) as Hc. rewrite <- Hdb in Hc.
  set (id := TrimSpace (TrimSpace (client_id ctx1))).
  assert (charge_key cmd = (id, key)) as Hkey.
  { destruct (Hk1 (cmd, Ok a)) as [[_ Hi] Hkk]; [rewrite Htr, charges_around by done; by left|].
    unfold charge_key. cbn in Hi, Hkk. by rewrite Hkk, Hi. }
  rewrite Hkey in Hc. apply (run_ops_claimed decimal_round8 sha256_hex format_d format_f10 sent db_add db_sub db_zone ops) in Hc.
  rewrite <- Hw2 in Hc. eapply moves_claimed; [exact Hc| |exact Hm2].
  apply Forall_forall. intros c Hin. rewrite <- Hn2 in Hin. destruct (Hk2 c Hin) as [[_ Hi] Hkk].
  unfold charge_key. rewrite Hkk, Hi by (done || by rewrite Hid2). unfold id, client_id. by rewrite Hid2.
Qed.
End Books.

(** ** A small world

    The billing database of [UsageBillingProps] and the logs; no price
    overrides, no failures. *)

#[local] Existing Instance ascii_only_case.
#[local] Existing Instance ex_host.
#[local] Existing Instance ex_postgres.

Record world := mk_world { wd_db : BillingDB; wd_logs : list UsageLog }.
Definition run_user : User := {| user_ID := 3; user_Balance := f64_of_Z 10 |}.
Definition run_key : APIKey := 
  Build_APIKey 1 3 "k" "k" "active" [] [] None [] [] false true 0 f0 f0 None f0 f0 f0 f0 f0 f0 None None None.
Definition run_account (platform : string) : Account :=
  let a := ex_account ∅ in
  {| acc_ID := 9; acc_Name := "a"; acc_Notes := None; acc_Platform := platform; acc_PlatformID := acc_PlatformID a;
     acc_PlatformName := "p"; acc_Type := AccountTypeOAuth; acc_Credentials := ∅; acc_Extra := ∅;
     acc_ProxyID := None; acc_ProxyFallbackOriginID := None; acc_ProxyFallbackOriginName := None;
     acc_Concurrency := 1; acc_Priority := 1; acc_RateMultiplier := None; acc_LoadFactor := None;
     acc_Status := acc_Status a; acc_ErrorMessage := ""; acc_LastUsedAt := None; acc_ExpiresAt := None;
     acc_AutoPauseOnExpired := false; acc_CreatedAt := ex_now; acc_UpdatedAt := ex_now;
     acc_Schedulable := true; acc_RateLimitedAt := None; acc_RateLimitResetAt := None;
     acc_OverloadUntil := None; acc_TempUnschedulableUntil := None; acc_TempUnschedulableReason := "";
     acc_SessionWindowStart := None; acc_SessionWindowEnd := None; acc_SessionWindowStatus := "";
     acc_ParentAccountID := None; acc_QuotaDimension := "" |}.

Abbreviation run_apply := (Apply ex_id ex_hash ex_d ex_f ex_sent fadd fsub UTC).
Definition run_services (platform : string) : ∀ B, ucall B -> world -> B * world := λ B c w,
  match c in ucall T return T * world with
  | LookupOverride _ => (Ok None, w)
  | CacheTTL1hInjectionEnabled => (false, w)
  | GenerateRequestID => ("id"%string, w)
  | UsageNow => (ex_now, w)
  | LoadAPIKey _ => (Ok (Some (run_key, [])), w)
  | LoadUser _ => (Ok (Some run_user), w)
  | GetAccount _ => (Ok (Some (run_account platform)), w)
  | LoadSubscription _ => (Ok None, w)
  | ResetOpenAI403Counter _ => (tt, w)
  | ApplyCharge cmd => let '(r, d) := run_apply cmd (wd_db w) in (answer r, mk_world d (wd_logs w))
  | IncrementSubscriptionUsage _ _ | DeductUserBalance _ _ | UpdateQuotaUsed _ _ | UpdateRateLimitUsage _ _
  | IncrementAccountQuota _ _ | IncrementPlatformUsage _ _ _ _ | InvalidateUserBalance _ => (None, w)
  | QueueUpdateSubscriptionUsage _ _ _ | QueueDeductBalance _ _ | QueueUpdateAPIKeyRateLimitUsage _ _
  | IncrementUserPlatformQuotaUsage _ _ _ | InvalidateAuthCache _ | ScheduleLastUsedUpdate _
  | CheckBalanceAfterDeduction _ _ _ | CheckAccountQuotaAfterIncrement _ _ _ => (tt, w)
  | BalanceBelowEligibilityThreshold _ | HasUserPlatformQuotaLimit _ _ | WriteContextExpired => (false, w)
  | CreateBestEffort l | CreateLog l => (None, mk_world (wd_db w) (l :: wd_logs w))
  end.
Lemma run_transactional platform : transactional ex_id ex_hash ex_d ex_f ex_sent fadd fsub UTC wd_db (run_services platform).
Proof.
  split.
  - intros cmd w. cbn. by destruct (run_apply cmd (wd_db w)).
  - intros B c w Hc _. by destruct c.
Qed.

Definition run_service : Recorder :=
  Build_Recorder None true false true BestEffortLogRepo false false false.
Definition run_context (id : string) : UsageContext := Build_UsageContext id "" None "" "".
Definition no_routing : ModelRoutingUsageFields := Build_ModelRoutingUsageFields "" "" "" "".
Definition run_input {R} (platform : string) (r : R) : UsageInput R :=
  {| ui_Result := r; ui_APIKey := run_key; ui_AllowedPlatforms := []; ui_User := run_user;
     ui_Account := run_account platform; ui_Subscription := None; ui_InboundEndpoint := ""; ui_UpstreamEndpoint := "";
     ui_UserAgent := ""; ui_IPAddress := ""; ui_SessionID := ""; ui_RequestPayloadHash := "";
     ui_ForceCacheBilling := false; ui_HasAPIKeyService := true; ui_HasInvalidator := true; ui_QuotaPlatform := "";
     ui_CyberBlocked := false; ui_Routing := no_routing |}.
Definition run_result (model : string) (tokens : Z) : ForwardResult :=
  mk_forward "up" (mk_usage tokens 0 0 0 0 0 0) model "" false 0 None None (no_images 0).
Definition run_openai_result (model : string) (tokens : Z) : OpenAIForwardResult :=
  mk_openai_forward "up" (mk_openai_usage tokens 0 0 0 0 0) model "" "" "" None None false false 0 None (no_images 0)
    0 "" 0 0.
Abbreviation run_core :=
  (recordUsageCore None [] ex_id ex_hash ex_d ex_f (λ z, f64_of_Z z)).
Abbreviation run_openai :=
  (openai_RecordUsage None [] ex_id ex_hash ex_d ex_f (λ z, f64_of_Z z) (λ _, ""%string)).
Definition run_start : world := mk_world ex_db [].
Definition no_opts : recordUsageOpts := Build_recordUsageOpts 0 f0.

Example run_ex1 :
  let '(r, _, w) := exec (run_services "anthropic") (run_core run_service (run_context "c1")
      (run_input "anthropic" (run_result "claude-sonnet-4" 1000000)) no_opts) [] run_start in
  (r, map (λ l, (ul_RequestID l, f64_to_int64 (ActualCost (ul_Cost l) * f64_of_Z 100)%f64)) (wd_logs w),
   fund_Balance <$> live_funds 3 (wd_db w)) = (Ok tt, [("client:c1"%string, 300)], Some 700000000).
Proof. vm_compute. reflexivity. Qed.

Abbreviation run_recording := (recording None [] ex_id ex_hash ex_d ex_f (λ z, f64_of_Z z) (λ _, ""%string)).
Lemma run_gateway ctx model tokens :
  run_recording run_service ctx 1 false (run_core run_service ctx (run_input "anthropic" (run_result model tokens)) no_opts).
Proof. exact (rec_gateway _ _ _ _ _ _ _ _ run_service ctx (run_input "anthropic" (run_result model tokens)) no_opts). Qed.
Lemma run_openai_recording ctx model tokens :
  run_recording run_service ctx 1 false
    (run_openai run_service ctx (Some (run_input "openai" (Some (run_openai_result model tokens))))).
Proof.
  exact (rec_openai _ _ _ _ _ _ _ _ run_service ctx (run_input "openai" (Some (run_openai_result model tokens)))).
Qed.

Lemma charged_then_logged_witness :
  always (run_core run_service (run_context "c1") (run_input "anthropic" (run_result "claude-sonnet-4" 1000000)) no_opts) []
    (λ tr r, is_ok r = true -> List.length (charges tr) = 1%nat).
Proof.
  eapply always_then.
  - apply (charged_then_logged None [] ex_id ex_hash ex_d ex_f (λ z, f64_of_Z z) (λ _, ""%string)
             run_service (run_context "c1") 1 false); [apply run_gateway|reflexivity..].
  - intros tr [[]|e]; [|intros _ [=]]. intros (l & cmd & a & after & before & -> & _) _. reflexivity.
Defined.

(** The second recording is the OpenAI gateway's, after an archive round. *)
Definition run_first : world :=
  (exec (run_services "anthropic") (run_core run_service (run_context "c1")
     (run_input "anthropic" (run_result "claude-sonnet-4" 1000000)) no_opts) [] run_start).2.
Definition run_second : world := mk_world (ex_run [BArchive (λ _, true)] (wd_db run_first)).2 [].
Lemma client_request_charged_once_witness :
  fund_Balance <$> live_funds 3 (wd_db run_second) = Some 700000000 /\
  wd_db (exec (run_services "anthropic") (run_openai run_service (run_context " c1 ")
     (Some (run_input "openai" (Some (run_openai_result "gpt-5.4" 500))))) [] run_second).2 = wd_db run_second.
Proof.
  split; [vm_compute; reflexivity|].
  apply (client_request_charged_once None [] ex_id ex_hash ex_d ex_f (λ z, f64_of_Z z) (λ _, ""%string) ex_sent fadd fsub UTC
    wd_db (run_services "anthropic") run_service run_service (run_context "c1") (run_context " c1 ") 1
    (run_core run_service (run_context "c1") (run_input "anthropic" (run_result "claude-sonnet-4" 1000000)) no_opts)
    (run_openai run_service (run_context " c1 ") (Some (run_input "openai" (Some (run_openai_result "gpt-5.4" 500)))))
    [BArchive (λ _, true)] run_start run_second).
  - apply run_transactional.
  - apply run_gateway.
  - apply run_openai_recording.
  - reflexivity.
  - reflexivity.
  - reflexivity.
  - vm_compute. reflexivity.
  - vm_compute. reflexivity.
  - vm_compute. reflexivity.
  - reflexivity.
Defined.

(** ** Where the gateways differ

    A model without a price: the gateway fails and neither charges nor logs
    the request, OpenAI's logs it at no cost. *)
Theorem unpriced_usage_is_lost :
  let gateway := exec (run_services "anthropic") (run_core run_service (run_context "c1")
    (run_input "anthropic" (run_result "no-such-model" 1000000)) no_opts) [] run_start in
  let openai := exec (run_services "openai") (run_openai run_service (run_context "c1")
    (Some (run_input "openai" (Some (run_openai_result "no-such-model" 1000000))))) [] run_start in
  (∃ e, gateway.1.1 = Err e /\ error_is e ErrModelPricingUnavailable = true) /\ wd_logs gateway.2 = [] /\
  openai.1.1 = Ok tt /\ map (λ l, (ul_InputTokens l, ActualCost (ul_Cost l))) (wd_logs openai.2) = [(1000000, f0)].
Proof.
  cbv zeta. split_and!; [|vm_compute; reflexivity..]. eexists. split; vm_compute; reflexivity.
Qed.

(** ** The same request, recorded from its result and from its event *)

Definition run_finalizer : Finalizer := Build_Finalizer (Some run_service) (Some run_service) true.
Definition run_decision (platform model : string) : Decision := {|
  dec_Platform := Build_Platform 1 "p" platform model model [] 0; dec_BillingAsset := None |}.
Definition run_grant : AccessGrant := Build_AccessGrant 1 3 f0 [] [] true.
Definition run_request (platform endpoint model : string) : RuntimeRequest :=
  Build_RuntimeRequest "r" platform endpoint "/v1" model model false "" "" "" None.
(** The cost a run logs, in 10^-4 USD. *)
Definition logged_costs (w : world) : list Z :=
  map (λ l, f64_to_int64 (ActualCost (ul_Cost l) * f64_of_Z 10000 + f64_lit 5 (-1))%f64) (wd_logs w).
Definition direct_openai (catalog : option (string -> option LiteLLMPricingLookup)) (s : Recorder)
    (r : OpenAIForwardResult) : list Z :=
  logged_costs (exec (run_services "grok")
    (openai_RecordUsage catalog [] ex_id ex_hash ex_d ex_f (λ z, f64_of_Z z) (λ _, ""%string) s (run_context "c1")
       (Some (run_input "grok" (Some r)))) [] run_start).2.
Definition dispatched (catalog : option (string -> option LiteLLMPricingLookup)) (platform model : string)
    (facts : UsageFacts) : list Z :=
  logged_costs (exec (run_services platform)
    (Dispatch catalog [] ex_id ex_hash ex_d ex_f (λ z, f64_of_Z z) (λ _, ""%string) run_finalizer
       (Ok (Some (run_decision platform model))) run_grant "videos"
       [(run_context "c1", mk_event "r" true facts)] None) [] run_start).2.

(** Fifteen seconds of video in 1080p, one web search. *)
Definition long_video : OpenAIForwardResult :=
  mk_openai_forward "up" (mk_openai_usage 0 0 0 0 0 0) "grok-imagine-video-1.5" "" "" "" None None false false 0 None
    (no_images 0) 1 "1080p" 15 0.
Definition one_search : OpenAIForwardResult :=
  mk_openai_forward "up" (mk_openai_usage 0 0 0 0 0 0) "gpt-5.4" "" "" "" None None false false 0 None
    (no_images 0) 0 "" 0 1.
(** A million tokens written to the one-hour cache. *)
Definition hour_cache : ForwardResult :=
  mk_forward "up" (mk_usage 0 0 1000000 0 0 1000000 0) "claude-sonnet-4" "" false 0 None None (no_images 0).
(** Its price for an hour is above that for five minutes, as in the remote
    list. *)
Definition hour_price : LiteLLMModelPricing :=
  Build_LiteLLMModelPricing (f64_lit 3 (-6)) f0 (f64_lit 15 (-6)) f0 (f64_lit 375 (-8)) f0 (f64_lit 6 (-6))
    (f64_lit 3 (-7)) f0 0 f0 f0 false "anthropic" "chat" true f0 f0 f0 true true true true false false false false.
Definition hour_catalog : option (string -> option LiteLLMPricingLookup) :=
  Some (λ m, Some (Build_LiteLLMPricingLookup (Some hour_price) m (Build_PricingSourceInfo "litellm" "l" "" m None))).
Definition direct_hour : list Z :=
  logged_costs (exec (run_services "anthropic")
    (recordUsageCore hour_catalog [] ex_id ex_hash ex_d ex_f (λ z, f64_of_Z z) run_service (run_context "c1")
       (run_input "anthropic" hour_cache) no_opts) [] run_start).2.
Definition dispatched_hour : list Z :=
  logged_costs (exec (run_services "anthropic")
    (Dispatch hour_catalog [] ex_id ex_hash ex_d ex_f (λ z, f64_of_Z z) (λ _, ""%string) run_finalizer
       (Ok (Some (run_decision "anthropic" "claude-sonnet-4"))) run_grant "messages"
       [(run_context "c1", gatewayUsageEvent (run_input "anthropic" hour_cache))] None) [] run_start).2.

(** A video of 3.75 USD is dispatched at 0.64, a search of 0.01 at nothing, an
    hour's cache of 6 USD at 3.75. The list knows the models. *)
Theorem dispatch_undercharges :
  let grok := run_request "grok" "videos" "grok-imagine-video-1.5" in
  let search := run_request "openai" EndpointAlphaSearch "gpt-5.4" in
  direct_openai hour_catalog run_service long_video = [37500] /\
  dispatched hour_catalog "grok" "grok-imagine-video-1.5" (openAIMediaUsageFacts grok (run_account "grok") long_video)
    = [6400] /\
  direct_openai hour_catalog run_service one_search = [100] /\
  dispatched hour_catalog "openai" "gpt-5.4" (openAIForwardUsageFacts search (run_account "openai") one_search) = [0] /\
  direct_hour = [60000] /\ dispatched_hour = [37500].
Proof. vm_compute. by split_and!. Qed.

(** The built-in prices of a Grok video are found when there is no resolver;
    with one, a video no list and no override prices is recorded at no cost. *)
Definition without_resolver : Recorder :=
  Build_Recorder None false false true BestEffortLogRepo false false false.
Theorem unlisted_video_is_free :
  direct_openai None without_resolver long_video = [37500] /\ direct_openai None run_service long_video = [0].
Proof. vm_compute. by split. Qed.
