(* ===== verification/OpenAIScheduler.v ===== *)
(** * The OpenAI account scheduler

    [service/openai_account_scheduler.go]: which account of the OpenAI and Grok
    gateways serves a request.  Candidates get a score of their priority,
    load, queue, errors, latency, windows and costs; the best [topK] of them
    are kept by a heap and put in an order drawn with weights; accounts are
    tried in this order, within a budget of probes when the order was
    widened for its costs; when none has a slot, the request may wait.

    The functions are programs of calls ([ocall]).  What they ask of the rest
    of the gateway is a call with any answer: the freshness checks of an
    account ([resolveFreshSchedulableOpenAIAccount],
    [recheckSelectedOpenAIAccountFromDB]), whether it can serve the request
    ([isAccountRequestCompatibleReason]) over the transport
    ([isOpenAIAccountTransportCompatible]), the bindings of sessions
    ([openai_sticky_compat.go]), the settings and the decoded billing probes.
    [log] lines, metrics and the texts of errors are left out; the accounts of
    the lists are never nil. *)

From Stdlib Require Import SpecFloat Ascii String.
From stdpp Require Import pretty.
From S2P Require Import Prelude GoErrors Prog Float64 GoTime GoStrings GoText PlatformModels Account ModelMapping Redis Concurrency AccountSelection.

Open Scope prog_scope.

(** ** Numbers *)

Definition fsqrt (x : float64) : float64 := SFsqrt f64_prec f64_emax x.
Definition f_half : float64 := f64_lit 5 (-1).

Definition clamp01 (value : float64) : float64 :=
  if fltb value f0 then f0 else if fgtb value f1 then f1 else value.
Definition calcLoadSkewByMoments (sum sumSquares : float64) (count : Z) : float64 :=
  if count <=? 1 then f0 else
  let mean := fdiv sum (f64_of_Z count) in
  let variance := fsub (fdiv sumSquares (f64_of_Z count)) (fmul mean mean) in
  fsqrt (if fltb variance f0 then f0 else variance).
(** [Duration.Seconds] *)
Definition Seconds (d : Z) : float64 :=
  fadd (f64_of_Z (Z.quot d second)) (fdiv (f64_of_Z (Z.rem d second)) (f64_of_Z 1000000000)).

(** ** Errors and latencies of accounts

    A NaN latency is one that was never reported; the loops of
    compare-and-swap are one update. *)

Record openAIAccountRuntimeStat := { st_errorRate : float64; st_ttft : float64 }.
Abbreviation runtime_stats := (gmap Z openAIAccountRuntimeStat).
Definition new_stat : openAIAccountRuntimeStat := {| st_errorRate := f0; st_ttft := S754_nan |}.
Definition ewma_alpha : float64 := f64_lit 2 (-1).
Definition updateEWMA (old sample : float64) : float64 :=
  fadd (fmul ewma_alpha sample) (fmul (fsub f1 ewma_alpha) old).
(** The constant of the latency and the difference of the error rate. *)
Example ewma_ex1 : fsub f1 ewma_alpha = f64_lit 8 (-1).
Proof. vm_compute. reflexivity. Qed.
Definition stats_report (accountID : Z) (success : bool) (firstTokenMs : option Z) (m : runtime_stats) : runtime_stats :=
  if accountID <=? 0 then m else
  let st := default new_stat (m !! accountID) in
  <[accountID := {|
      st_errorRate := updateEWMA (st_errorRate st) (if success then f0 else f1);
      st_ttft := match firstTokenMs with
                 | Some ms =>
                   if 0 <? ms then
                     if is_nan (st_ttft st) then f64_of_Z ms else updateEWMA (st_ttft st) (f64_of_Z ms)
                   else st_ttft st
                 | None => st_ttft st
                 end |}]> m.
(** The error rate, and the latency when there is one. *)
Definition stats_snapshot (accountID : Z) (m : runtime_stats) : float64 * option float64 :=
  if accountID <=? 0 then (f0, None) else
  match m !! accountID with
  | None => (f0, None)
  | Some st => (clamp01 (st_errorRate st), if is_nan (st_ttft st) then None else Some (st_ttft st))
  end.

Record openAIStickyEscapeConfig := { esc_enabled : bool; esc_ttftMs : float64; esc_errorRate : float64 }.
Definition escapes (cfg : openAIStickyEscapeConfig) (snapshot : float64 * option float64) : bool :=
  match snapshot.2 with Some ttft => fgtb ttft (esc_ttftMs cfg) | None => false end
  || fgtb snapshot.1 (esc_errorRate cfg).

(** ** The budget of probes *)

Definition openAIAccountSelectionProbeLimit : Z := 64.
Record openAISelectionProbeBudget := mk_budget {
  bg_acquires : Z; bg_rechecks : Z; bg_attempted : gset Z; bg_limited : bool
}.
Definition newOpenAISelectionProbeBudget : openAISelectionProbeBudget := mk_budget 0 0 ∅ false.
Definition enableLimit (b : openAISelectionProbeBudget) : openAISelectionProbeBudget :=
  mk_budget (bg_acquires b) (bg_rechecks b) (bg_attempted b) true.
(** The budget left, or none. *)
Definition recordAcquire (accountID : Z) (b : openAISelectionProbeBudget) : option openAISelectionProbeBudget :=
  if negb (bg_limited b) then Some b else
  if openAIAccountSelectionProbeLimit <=? bg_acquires b then None else
  Some (mk_budget (bg_acquires b + 1) (bg_rechecks b) ({[accountID]} ∪ bg_attempted b) true).
Definition recordRecheck (b : openAISelectionProbeBudget) : option openAISelectionProbeBudget :=
  if negb (bg_limited b) then Some b else
  if openAIAccountSelectionProbeLimit <=? bg_rechecks b then None else
  Some (mk_budget (bg_acquires b) (bg_rechecks b + 1) (bg_attempted b) true).
Definition acquireExhausted (b : openAISelectionProbeBudget) : bool :=
  bg_limited b && (openAIAccountSelectionProbeLimit <=? bg_acquires b).
Definition wasAttempted (b : openAISelectionProbeBudget) (accountID : Z) : bool :=
  bool_decide (accountID ∈ bg_attempted b).

(** ** Candidates *)

Record openAIAccountCandidateScore := mk_candidate {
  cd_account : Account;
  cd_loadInfo : AccountLoadInfo;
  cd_loadKnown : bool;
  cd_score : float64;
  cd_errorRate : float64;
  cd_ttft : option float64
}.
Abbreviation candidate := openAIAccountCandidateScore.
Definition cd_ID (c : candidate) : Z := acc_ID (cd_account c).
Definition with_score (score : float64) (c : candidate) : candidate :=
  mk_candidate (cd_account c) (cd_loadInfo c) (cd_loadKnown c) score (cd_errorRate c) (cd_ttft c).
Definition known_full (c : candidate) : bool :=
  cd_loadKnown c && (0 <? acc_Concurrency (cd_account c))
  && (acc_Concurrency (cd_account c) <=? li_CurrentConcurrency (cd_loadInfo c)).

Definition isOpenAIAccountCandidateBetter (left right : candidate) : bool :=
  if negb (feqb (cd_score left) (cd_score right)) then fgtb (cd_score left) (cd_score right) else
  let pl := acc_Priority (cd_account left) in let pr := acc_Priority (cd_account right) in
  if negb (pl =? pr) then pl <? pr else
  let ll := li_LoadRate (cd_loadInfo left) in let lr := li_LoadRate (cd_loadInfo right) in
  if negb (ll =? lr) then ll <? lr else
  let wl := li_WaitingCount (cd_loadInfo left) in let wr := li_WaitingCount (cd_loadInfo right) in
  if negb (wl =? wr) then wl <? wr else
  cd_ID left <? cd_ID right.

(** ** Heaps

    [container/heap] of the standard library over a slice, for any [better]:
    the order of the heap ([Less]) puts the worst element at the root. *)

Section Heap.
Context {A : Type} (better : A -> A -> bool).

Definition heap_less (h : list A) (i j : nat) : bool :=
  match h !! i, h !! j with Some a, Some b => better b a | _, _ => false end.
Definition heap_swap (h : list A) (i j : nat) : list A :=
  match h !! i, h !! j with Some a, Some b => <[i := b]> (<[j := a]> h) | _, _ => h end.

(** The parent of the root is the root itself in Go: [(0-1)/2] is 0. *)
Definition heap_parent (j : nat) : nat := Nat.div2 (j - 1).
Fixpoint heap_up (fuel : nat) (h : list A) (j : nat) : list A :=
  match fuel with
  | O => h
  | S fuel =>
    let i := heap_parent j in
    if Nat.eqb i j || negb (heap_less h j i) then h else heap_up fuel (heap_swap h i j) i
  end.
Fixpoint heap_down (fuel : nat) (h : list A) (i : nat) : list A :=
  match fuel with
  | O => h
  | S fuel =>
    let n := length h in
    let j1 := (2 * i + 1)%nat in
    if (n <=? j1)%nat then h else
    let j2 := (j1 + 1)%nat in
    let j := if (j2 <? n)%nat && heap_less h j2 j1 then j2 else j1 in
    if negb (heap_less h j i) then h else heap_down fuel (heap_swap h i j) j
  end.
Definition heap_Push (h : list A) (x : A) : list A := heap_up (length h) (h ++ [x]) (length h).
(** [heap.Fix(&h, 0)]: the root has no way up. *)
Definition heap_Fix0 (h : list A) : list A := heap_down (length h) h 0.

Definition topk_step (topK : nat) (best : list A) (c : A) : list A :=
  if (length best <? topK)%nat then heap_Push best c
  else match best with
       | root :: rest => if better c root then heap_Fix0 (c :: rest) else best
       | [] => best
       end.
(** [selectTopKOpenAICandidates] *)
Definition selectTopK (candidates : list A) (topK : Z) : list A :=
  if is_nil candidates then [] else
  let topK := Z.to_nat (if topK <=? 0 then 1 else topK) in
  if (length candidates <=? topK)%nat then stable_sort better candidates
  else stable_sort better (foldl (topk_step topK) [] candidates).
End Heap.
Definition selectTopKOpenAICandidates : list candidate -> Z -> list candidate :=
  selectTopK isOpenAIAccountCandidateBetter.

(** ** Random numbers *)

Definition golden : Z := 0x9e3779b97f4a7c15.
Definition newOpenAISelectionRNG (seed : Z) : Z := if seed =? 0 then golden else seed.
Definition xorshift (x : Z) : Z :=
  let x := Z.lxor x (Z.shiftr x 12) in
  let x := Z.lxor x (wrapu64 (Z.shiftl x 25)) in
  Z.lxor x (Z.shiftr x 27).
(** The number and the next state. *)
Definition nextUint64 (state : Z) : Z * Z :=
  let x := xorshift state in (wrapu64 (x * 2685821657736338717), x).
Definition nextFloat64 (state : Z) : float64 * Z :=
  let '(u, x) := nextUint64 state in (fdiv (f64_of_Z (Z.shiftr u 11)) (f64_of_Z (2 ^ 53)), x).

(** [hash/fnv], 64 bit FNV-1a. *)
Definition fnv64_offset : Z := 14695981039346656037.
Definition fnv64_write (h : Z) (l : bytes) : Z :=
  foldl (λ h c, wrapu64 (Z.lxor h (byte_val c) * 1099511628211)) h l.

(** ** Requests and calls *)

Definition OpenAIUpstreamTransportAny : string := "".
Definition OpenAIUpstreamTransportHTTPSSE : string := "http_sse".

Record OpenAIAccountScheduleRequest := {
  sq_PlatformID : option Z;
  sq_Platform : string;
  sq_SessionHash : string;
  sq_StickyAccountID : Z;
  sq_StickyPreviousAccountID : Z;
  sq_StickyWeighted : bool;
  sq_SubscriptionPriority : bool;
  sq_PreserveStickyBinding : bool;
  sq_PreviousResponseID : string;
  sq_PreviousResponseCanMove : bool;
  sq_UseUpstreamTokenCost : bool;
  sq_RequestedModel : string;
  sq_RequiredTransport : string;
  sq_RequiredCapability : string;
  sq_RequiredImageCapability : string;
  sq_RequireCompact : bool;
  sq_ExcludedIDs : gset Z
}.

Record ScoreWeights := {
  sw_Priority : float64;
  sw_Load : float64;
  sw_Queue : float64;
  sw_ErrorRate : float64;
  sw_TTFT : float64;
  sw_Reset : float64;
  sw_QuotaHeadroom : float64;
  sw_UpstreamCost : float64;
  sw_Previous : float64;
  sw_SessionSticky : float64
}.

(** The calls of the gateways that are shared, and those of this one. *)
Inductive ocall : Type -> Type :=
| OSvc {B : Type} (c : svc B) : ocall B
| OWeights : ocall ScoreWeights
| OTopK : ocall Z
| OOAuthRate : ocall float64
| OStats (accountID : Z) : ocall (float64 * option float64)
| OFreshRate (a : Account) (now : time) : ocall (option float64)
| OList (platformID : option Z) (platform : string) : ocall (result (list Account))
| OLoadFresh (accounts : list AccountWithConcurrency) : ocall (result (gmap Z AccountLoadInfo))
| OSchedulableAccount (accountID : Z) : ocall (result (option Account))
| ORuntimeBlocked (a : Account) (model : string) : ocall bool
| OIncompatible (a : Account) (req : OpenAIAccountScheduleRequest) : ocall (option string)
| OTransport (a : Account) (transport : string) : ocall bool
| OResolveFresh (a : Account) (platform model capability : string) : ocall (option Account)
| ORecheck (a : Account) (platform model capability : string) (requireCompact : bool) : ocall (option Account)
| OPreviousResponse (id : string) (req : OpenAIAccountScheduleRequest) : ocall (result (option AccountSelectionResult))
| OStickyGet (session : string) : ocall (result Z)
| OStickyBind (session : string) (accountID : Z) : ocall unit
| OStickyDelete (session : string) : ocall unit
| OStickyRefresh (session : string) (ttl : Z) : ocall unit.
Abbreviation oprog := (prog ocall).

Fixpoint lift {A} (p : sprog A) : oprog A :=
  match p with Ret a => Ret a | Do c k => Do (OSvc c) (λ b, lift (k b)) end.
Definition onow : oprog time := call (OSvc CNow).

Definition unix_nano (now : time) : Z := wrapu64 (t_ns now).
Definition seed_value (h : Z) (value : string) : Z :=
  let trimmed := TrimSpace value in
  if str_empty trimmed then h else fnv64_write (fnv64_write h (to_bytes trimmed)) [zero].
(** Without a session the clock is mixed in. *)
Definition deriveOpenAISelectionSeed (req : OpenAIAccountScheduleRequest) : oprog Z :=
  let h := seed_value (seed_value (seed_value fnv64_offset (sq_SessionHash req)) (sq_PreviousResponseID req))
             (sq_RequestedModel req) in
  let h := match sq_PlatformID req with Some id => fnv64_write h (to_bytes (pretty id)) | None => h end in
  let* seed :=
    (if str_empty (TrimSpace (sq_SessionHash req)) && str_empty (TrimSpace (sq_PreviousResponseID req))
     then let* now := onow in Ret (Z.lxor h (unix_nano now)) else Ret h) in
  if seed =? 0 then let* now := onow in Ret (Z.lxor (unix_nano now) golden) else Ret seed.

(** ** The weighted order *)

Definition min_score (c : candidate) (rest : list candidate) : float64 :=
  foldl (λ m x, if fltb (cd_score x) m then cd_score x else m) (cd_score c) rest.
Definition selection_weight (minScore : float64) (c : candidate) : float64 :=
  let w := fadd (fsub (cd_score c) minScore) f1 in
  if is_nan w || is_inf w || fleb w f0 then f1 else w.
(** The first index at which the sum of the weights reaches [r], or 0. *)
Fixpoint pick_index (r acc : float64) (i : nat) (weights : list float64) : nat :=
  match weights with
  | [] => 0
  | w :: rest => let acc := fadd acc w in if fleb r acc then i else pick_index r acc (S i) rest
  end.
Fixpoint weighted_loop (fuel : nat) (pool : list (candidate * float64)) (rng : Z) : list candidate :=
  match fuel with
  | O => []
  | S fuel =>
    let total := foldl fadd f0 (map snd pool) in
    let '(i, rng) :=
      if fgtb total f0 then let '(x, rng) := nextFloat64 rng in (pick_index (fmul x total) f0 0 (map snd pool), rng)
      else let '(u, rng) := nextUint64 rng in (Z.to_nat (u mod Z.of_nat (length pool)), rng) in
    match pool !! i with
    | Some c => c.1 :: weighted_loop fuel (delete i pool) rng
    | None => []
    end
  end.
Definition buildOpenAIWeightedSelectionOrder (candidates : list candidate) (req : OpenAIAccountScheduleRequest)
    : oprog (list candidate) :=
  match candidates with
  | [] | [_] => Ret candidates
  | c :: rest =>
    let minScore := min_score c rest in
    let* seed := deriveOpenAISelectionSeed req in
    Ret (weighted_loop (length candidates) (map (λ c, (c, selection_weight minScore c)) candidates)
           (newOpenAISelectionRNG seed))
  end.

(** ** Compact support *)

Definition OpenAICompactModeAuto : string := "auto".
Definition OpenAICompactModeForceOn : string := "force_on".
Definition OpenAICompactModeForceOff : string := "force_off".

Section Scheduler.
Context {Host : GoHost} {UC : UnicodeCase}.

Definition normalizeOpenAICompactMode (mode : string) : string :=
  let m := ToLower (TrimSpace mode) in
  if String.eqb m OpenAICompactModeForceOn then OpenAICompactModeForceOn
  else if String.eqb m OpenAICompactModeForceOff then OpenAICompactModeForceOff else OpenAICompactModeAuto.
Definition GetOpenAICompactMode (a : Account) : string :=
  if negb (IsOpenAI a) then OpenAICompactModeAuto
  else normalizeOpenAICompactMode (default "" (acc_Extra a !! "openai_compact_mode"%string ≫= json_string)).
(** Whether it is supported, when that is known. *)
Definition OpenAICompactSupportKnown (a : Account) : option bool :=
  if negb (IsOpenAI a) then None
  else if String.eqb (GetOpenAICompactMode a) OpenAICompactModeForceOn then Some true
  else if String.eqb (GetOpenAICompactMode a) OpenAICompactModeForceOff then Some false
  else extra_bool a "openai_compact_supported".
Definition IsGrok (a : Account) : bool := String.eqb (acc_Platform a) PlatformGrok.
Definition IsOpenAICompatible (a : Account) : bool := IsOpenAI a || IsGrok a.
Definition IsOpenAIApiKey (a : Account) : bool := IsOpenAI a && String.eqb (acc_Type a) AccountTypeAPIKey.
Definition openAICompactSupportTier (a : Account) : Z :=
  if IsGrok a then 2 else if negb (IsOpenAI a) then 0 else
  match OpenAICompactSupportKnown a with None => 1 | Some true => 2 | Some false => 0 end.
Definition normalizeOpenAICompatiblePlatform (platform : string) : string :=
  if String.eqb platform PlatformGrok then PlatformGrok else PlatformOpenAI.

Definition GetCredential (a : Account) (key : string) : string :=
  match acc_Credentials a !! key with
  | Some (JString v) => v
  | Some (JNumber v) => pretty (f64_to_int64 v)
  | _ => ""
  end.
Definition IsOpenAIChatGPTSubscription (a : Account) : bool :=
  IsOpenAIOAuth a && negb (bool_decide (ToLower (TrimSpace (GetCredential a "plan_type")) ∈ [""; "free"; "abnormal"]%string)).

(** ** Quota headroom *)

Definition openAIQuotaHeadroomNeutralFactor : float64 := f_half.
Definition openAIQuotaHeadroomSecondaryLowRemain : float64 := f64_lit 1 (-1).
Definition openAIQuotaHeadroomSnapshotStaleAfter : Z := 8 * hour.

Fixpoint resolveAccountExtraNumber (extra : jmap) (keys : list string) : option float64 :=
  match keys with
  | [] => None
  | key :: keys =>
    match extra !! key with
    | Some (JNumber v) => Some v
    | Some (JString v) =>
      match ParseFloat (TrimSpace v) with Some x => Some x | None => resolveAccountExtraNumber extra keys end
    | _ => resolveAccountExtraNumber extra keys
    end
  end.
(** [parseTime(fmt.Sprint(v))]: only a string prints as a time; the other two
    formats of [parseTime] are cases of RFC 3339. *)
Definition parse_time_value (v : json) : option time :=
  match v with
  | JString t => match ParseRFC3339 t with Some r => Some r | None => ParseRFC3339Nano t end
  | _ => None
  end.
Definition openAIQuotaWindowReset (extra : jmap) (window : string) (now : time) : bool :=
  match extra !! ("codex_" ++ window ++ "_reset_at")%string ≫= parse_time_value with
  | Some resetAt => negb (before now resetAt)
  | None =>
    let resetAfter := match extra !! ("codex_" ++ window ++ "_reset_after_seconds")%string with
                      | Some v => parseExtraInt v | None => 0 end in
    if resetAfter <=? 0 then false else
    let base := default now (extra !! "codex_usage_updated_at"%string ≫= parse_time_value) in
    negb (before now (time_add base (mul64 resetAfter second)))
  end.
Definition openAIQuotaWindowResetAny (extra : jmap) (now : time) (windows : list string) : bool :=
  existsb (λ w, openAIQuotaWindowReset extra w now) windows.
Definition openAIQuotaHeadroomSnapshotStale (extra : jmap) (now : time) : bool :=
  match extra !! "codex_usage_updated_at"%string ≫= parse_time_value with
  | None => true
  | Some updatedAt => openAIQuotaHeadroomSnapshotStaleAfter <=? time_sub now updatedAt
  end.
Definition openAIQuotaHeadroomFactor (a : Account) (now : time) : float64 :=
  let extra := acc_Extra a in
  if openAIQuotaHeadroomSnapshotStale extra now then openAIQuotaHeadroomNeutralFactor else
  match resolveAccountExtraNumber extra ["codex_primary_used_percent"; "codex_7d_used_percent"] with
  | None => openAIQuotaHeadroomNeutralFactor
  | Some primary =>
    if openAIQuotaWindowResetAny extra now ["primary"; "7d"] then openAIQuotaHeadroomNeutralFactor else
    let hundred := f64_of_Z 100 in
    let factor := fsub f1 (clamp01 (fdiv primary hundred)) in
    match resolveAccountExtraNumber extra ["codex_secondary_used_percent"; "codex_5h_used_percent"] with
    | Some secondary =>
      if negb (openAIQuotaWindowResetAny extra now ["secondary"; "5h"])
         && fltb (fsub f1 (clamp01 (fdiv secondary hundred))) openAIQuotaHeadroomSecondaryLowRemain
      then fmul factor openAIQuotaHeadroomNeutralFactor else factor
    | None => factor
    end
  end.

(** ** Costs of the upstreams *)

(** [math.Log] and [math.Exp]. *)
Context (math_Log math_Exp : float64 -> float64).

Definition openAIUpstreamCostNeutralFactor : float64 := f_half.
Definition openAISchedulingRate (a : Account) (now : time) (oauthRate : float64) : oprog (option float64) :=
  if IsOpenAIOAuth a then Ret (Some oauthRate) else call (OFreshRate a now).
(** The accounts with a rate, and how many could have one. *)
Fixpoint rate_samples (accounts : list Account) (now : time) (oauthRate : float64) : oprog (list (Z * float64) * Z) :=
  match accounts with
  | [] => Ret ([], 0)
  | a :: rest =>
    if negb (IsOpenAIApiKey a) && negb (IsOpenAIOAuth a) then rate_samples rest now oauthRate else
    let* rate := openAISchedulingRate a now oauthRate in
    let* r := rate_samples rest now oauthRate in
    Ret (match rate with Some x => (acc_ID a, x) :: r.1 | None => r.1 end, r.2 + 1)
  end.
Definition median (logs : list float64) : float64 :=
  let middle := Nat.div2 (length logs) in
  let m := default f0 (logs !! middle) in
  if Nat.even (length logs) then fdiv (fadd (default f0 (logs !! (middle - 1)%nat)) m) (f64_of_Z 2) else m.
Definition cost_factor (center coverage rate : float64) : float64 :=
  let raw := if fgtb rate f0 then fdiv f1 (fadd f1 (fdiv rate center)) else f1 in
  clamp01 (fadd openAIUpstreamCostNeutralFactor (fmul coverage (fsub raw openAIUpstreamCostNeutralFactor))).
Definition cost_factors (accounts : list Account) (samples : list (Z * float64)) (eligible : Z) : gmap Z float64 :=
  let neutral := foldl (λ m a, <[acc_ID a := openAIUpstreamCostNeutralFactor]> m) ∅ accounts in
  match samples with
  | (_, first) :: (_ :: _) as others =>
    let logs := stable_sort fltb (map math_Log (filterb (λ x, fgtb x f0) (map snd samples))) in
    if forallb (λ x, feqb x.2 first) others || is_nil logs then neutral else
    let center := math_Exp (median logs) in
    if fleb center f0 || is_nan center || is_inf center then neutral else
    let coverage := fdiv (f64_of_Z (Z.of_nat (length samples))) (f64_of_Z eligible) in
    foldl (λ m x, <[x.1 := cost_factor center coverage x.2]> m) neutral samples
  | _ => neutral
  end.
Definition openAIUpstreamCostFactors (accounts : list Account) (now : time) (oauthRate : float64)
    : oprog (gmap Z float64) :=
  let* r := rate_samples accounts now oauthRate in Ret (cost_factors accounts r.1 r.2).

(** ** The load plan *)

Record openAIAccountLoadPlan := mk_plan {
  pn_allCandidates : list candidate;
  pn_candidates : list candidate;
  pn_staleSnapshotCompactRetry : list candidate;
  pn_selectionOrder : list candidate;
  pn_candidateCount : Z;
  pn_topK : Z;
  pn_loadSkew : float64;
  pn_includeOverflowFallback : bool
}.

Fixpoint load_candidates (accounts : list Account) (loadMap : gmap Z AccountLoadInfo) : oprog (list candidate) :=
  match accounts with
  | [] => Ret []
  | a :: rest =>
    let* st := call (OStats (acc_ID a)) in
    let* cs := load_candidates rest loadMap in
    let known := loadMap !! acc_ID a in
    Ret (mk_candidate a (default (no_load a) known) (bool_decide (is_Some known)) f0 st.1 st.2 :: cs)
  end.

(** The least and the greatest, of what is not empty. *)
Definition float_range (l : list float64) : option (float64 * float64) :=
  match l with
  | [] => None
  | x :: rest => Some (foldl (λ m y, if fltb y m then y else m) x rest, foldl (λ m y, if fgtb y m then y else m) x rest)
  end.
Definition reset_remaining (now : time) (c : candidate) : option float64 :=
  end_ ← acc_SessionWindowEnd (cd_account c);
  if before now end_ then Some (Seconds (time_sub end_ now)) else None.
(** What the candidates are compared with. *)
Record score_ranges := {
  rg_minPriority : Z; rg_maxPriority : Z; rg_maxWaiting : Z;
  rg_ttft : option (float64 * float64); rg_reset : option (float64 * float64)
}.
Definition ranges_of (weights : ScoreWeights) (now : time) (candidates : list candidate) : score_ranges :=
  let priorities := map (λ c, acc_Priority (cd_account c)) candidates in
  let first := default 0 (head priorities) in {|
  rg_minPriority := foldl Z.min first priorities;
  rg_maxPriority := foldl Z.max first priorities;
  rg_maxWaiting := foldl Z.max 1 (map (λ c, li_WaitingCount (cd_loadInfo c)) candidates);
  rg_ttft := float_range (filterb (λ t, fgtb t f0) (omap cd_ttft candidates));
  rg_reset := if fgtb (sw_Reset weights) f0 then float_range (omap (reset_remaining now) candidates) else None |}.

Definition priority_factor (r : score_ranges) (c : candidate) : float64 :=
  if rg_minPriority r <? rg_maxPriority r then
    fsub f1 (fdiv (f64_of_Z (sub64 (acc_Priority (cd_account c)) (rg_minPriority r)))
                  (f64_of_Z (sub64 (rg_maxPriority r) (rg_minPriority r))))
  else f1.
Definition ttft_factor (r : score_ranges) (c : candidate) : float64 :=
  match cd_ttft c, rg_ttft r with
  | Some ttft, Some (lo, hi) => if fgtb hi lo then fsub f1 (clamp01 (fdiv (fsub ttft lo) (fsub hi lo))) else f_half
  | _, _ => f_half
  end.
Definition reset_factor (r : score_ranges) (now : time) (c : candidate) : float64 :=
  match rg_reset r, reset_remaining now c with
  | Some (lo, hi), Some remaining =>
    if fgtb hi lo then fsub f1 (clamp01 (fdiv (fsub remaining lo) (fsub hi lo))) else f1
  | _, _ => f0
  end.
Definition base_score (weights : ScoreWeights) (now : time) (costs : gmap Z float64) (r : score_ranges) (c : candidate)
    : float64 :=
  let load := cd_loadInfo c in
  let headroom := if fgtb (sw_QuotaHeadroom weights) f0 then openAIQuotaHeadroomFactor (cd_account c) now else f0 in
  let cost := default openAIUpstreamCostNeutralFactor (costs !! cd_ID c) in
  (sw_Priority weights * priority_factor r c
   + sw_Load weights * (f1 - clamp01 (f64_of_Z (li_LoadRate load) / f64_of_Z 100))
   + sw_Queue weights * (f1 - clamp01 (f64_of_Z (li_WaitingCount load) / f64_of_Z (rg_maxWaiting r)))
   + sw_ErrorRate weights * (f1 - clamp01 (cd_errorRate c))
   + sw_TTFT weights * ttft_factor r c
   + sw_Reset weights * reset_factor r now c
   + sw_QuotaHeadroom weights * headroom
   + sw_UpstreamCost weights * (cost - openAIUpstreamCostNeutralFactor))%f64.
Definition sticky_score (weights : ScoreWeights) (req : OpenAIAccountScheduleRequest) (id : Z) (score : float64)
    : float64 :=
  if negb (sq_StickyWeighted req) then score else
  let score := if sq_PreviousResponseCanMove req && (0 <? sq_StickyPreviousAccountID req)
                  && (id =? sq_StickyPreviousAccountID req) then fadd score (sw_Previous weights) else score in
  if (0 <? sq_StickyAccountID req) && (id =? sq_StickyAccountID req) then fadd score (sw_SessionSticky weights) else score.
Definition score_candidate (weights : ScoreWeights) (now : time) (costs : gmap Z float64) (r : score_ranges)
    (req : OpenAIAccountScheduleRequest) (c : candidate) : candidate :=
  with_score (sticky_score weights req (cd_ID c) (base_score weights now costs r c)) c.

(** ** The order in which accounts are tried *)

(** The best of the pool with the sticky account in front, when it is one of
    them. *)
Definition sticky_first (ranked : list candidate) (stickyID : Z) : option (list candidate) :=
  if stickyID <=? 0 then None else
  match list_find (λ c, cd_ID c = stickyID) ranked with
  | Some (i, c) => Some (c :: delete i ranked)
  | None => None
  end.
Definition sticky_order (req : OpenAIAccountScheduleRequest) (ranked : list candidate) : option (list candidate) :=
  if negb (sq_StickyWeighted req) then None else
  match sticky_first ranked (sq_StickyPreviousAccountID req) with
  | Some l => Some l
  | None => sticky_first ranked (sq_StickyAccountID req)
  end.
Definition overflow_of (pool primary : list candidate) : list candidate :=
  stable_sort isOpenAIAccountCandidateBetter
    (filterb (λ c, negb (bool_decide (cd_ID c ∈ map cd_ID primary))) pool).
Definition group_order (req : OpenAIAccountScheduleRequest) (topK : Z) (overflow : bool) (pool : list candidate)
    : oprog (list candidate) :=
  if is_nil pool || (topK <=? 0) then Ret [] else
  let n := Z.of_nat (length pool) in
  let groupTopK := if n <? topK then n else topK in
  let ranked := selectTopKOpenAICandidates pool groupTopK in
  let* primary := match sticky_order req ranked with
                  | Some l => Ret l
                  | None => buildOpenAIWeightedSelectionOrder ranked req
                  end in
  Ret (if negb overflow || (n <=? groupTopK) then primary else primary ++ overflow_of pool primary).

Definition compact_less (a b : candidate) : bool :=
  let x := cd_account a in let y := cd_account b in
  if negb (acc_Priority x =? acc_Priority y) then acc_Priority x <? acc_Priority y else
  let lx := cd_loadInfo a in let ly := cd_loadInfo b in
  if negb (li_LoadRate lx =? li_LoadRate ly) then li_LoadRate lx <? li_LoadRate ly else
  if negb (li_WaitingCount lx =? li_WaitingCount ly) then li_WaitingCount lx <? li_WaitingCount ly else
  match acc_LastUsedAt x, acc_LastUsedAt y with
  | None, Some _ => true
  | Some t, Some u => before t u
  | _, None => false
  end.
Definition sortOpenAICompactRetryCandidates (pool : list candidate) : list candidate := stable_sort compact_less pool.

Definition tier_is_account (tier : Z) (a : Account) : bool := openAICompactSupportTier a =? tier.
Definition tier_is (tier : Z) (c : candidate) : bool := tier_is_account tier (cd_account c).
Definition buildOpenAISelectionOrder (snapshot : bool) (req : OpenAIAccountScheduleRequest) (plan : openAIAccountLoadPlan)
    : oprog (list candidate) :=
  let order := group_order req (pn_topK plan) (pn_includeOverflowFallback plan) in
  if sq_RequireCompact req then
    let* supported := order (filterb (tier_is 2) (pn_candidates plan)) in
    let* unknown := order (filterb (tier_is 1) (pn_candidates plan)) in
    Ret (supported ++ unknown
         ++ (if snapshot then sortOpenAICompactRetryCandidates (pn_staleSnapshotCompactRetry plan) else []))
  else order (pn_candidates plan).

Definition buildOpenAIAccountLoadPlan (snapshot : bool) (req : OpenAIAccountScheduleRequest) (filtered : list Account)
    (loadMap : gmap Z AccountLoadInfo) : oprog openAIAccountLoadPlan :=
  let* all := load_candidates filtered loadMap in
  let compact := sq_RequireCompact req in
  let candidates := if compact then filterb (λ c, negb (tier_is 0 c)) all else all in
  let stale := if compact then filterb (tier_is 0) all else [] in
  let count := Z.of_nat (length candidates) in
  if is_nil candidates then
    let plan := mk_plan all candidates stale [] count 0 f0 false in
    let* order := buildOpenAISelectionOrder snapshot req plan in
    Ret (mk_plan all candidates stale order count 0 f0 false)
  else
    let rates := map (λ c, f64_of_Z (li_LoadRate (cd_loadInfo c))) candidates in
    let skew := calcLoadSkewByMoments (foldl fadd f0 rates) (foldl (λ s x, fadd s (fmul x x)) f0 rates) count in
    let* weights := call OWeights in
    let* now := onow in
    let* costs :=
      (if sq_UseUpstreamTokenCost req && fgtb (sw_UpstreamCost weights) f0 then
         let* oauthRate := call OOAuthRate in openAIUpstreamCostFactors (map cd_account candidates) now oauthRate
       else Ret ∅) in
    let overflow := existsb (λ x, negb (feqb x.2 openAIUpstreamCostNeutralFactor)) (map_to_list costs) in
    let scored := map (score_candidate weights now costs (ranges_of weights now candidates) req) candidates in
    let* topK := call OTopK in
    let topK := if count <? topK then count else topK in
    let topK := if topK <=? 0 then 1 else topK in
    let plan := mk_plan all scored stale [] count topK skew overflow in
    let* order := buildOpenAISelectionOrder snapshot req plan in
    Ret (mk_plan all scored stale order count topK skew overflow).

(** ** Taking a slot *)

(** Which services are set, and the settings that do not change. *)
Record defaultOpenAIAccountScheduler := {
  os_concurrencyService : bool;
  os_schedulerSnapshot : bool;
  os_accountRepo : bool;
  os_cache : bool;
  os_cfg : GatewaySchedulingConfig;
  os_escape : openAIStickyEscapeConfig;
  os_stickyTTL : Z
}.
Context (s : defaultOpenAIAccountScheduler).

Definition ErrNoAvailableCompactAccounts : error := EPlain "ErrNoAvailableCompactAccounts".
Definition noAvailableOpenAISelectionError (compactBlocked : bool) : error :=
  if compactBlocked then ErrNoAvailableCompactAccounts
  else EWrap "no available OpenAI accounts" ErrNoAvailableAccounts.

(** [OpenAIGatewayService.tryAcquireAccountSlot] *)
Definition acquire_slot (accountID maxConcurrency : Z) : oprog (result AcquireResult) :=
  if negb (os_concurrencyService s) then Ret (Ok {| aq_Acquired := true; aq_ReleaseFunc := Some NoRelease |})
  else lift (AcquireAccountSlot accountID maxConcurrency).
Definition release_slot (r : option release) : oprog unit := lift (run_release r).

(** None when the budget has no probe left. *)
Definition tryAcquireOpenAIAccountSlot (accountID maxConcurrency : Z) (b : openAISelectionProbeBudget)
    : oprog (option (result AcquireResult) * openAISelectionProbeBudget) :=
  if os_concurrencyService s && (0 <? maxConcurrency) then
    match recordAcquire accountID b with
    | None => Ret (None, b)
    | Some b => let* r := acquire_slot accountID maxConcurrency in Ret (Some r, b)
    end
  else let* r := acquire_slot accountID maxConcurrency in Ret (Some r, b).
Definition consumeOpenAISelectionDBRecheck (b : openAISelectionProbeBudget) : option openAISelectionProbeBudget :=
  if negb (os_schedulerSnapshot s) || negb (os_accountRepo s) then Some b else recordRecheck b.

Definition isAccountTransportCompatible (a : Account) (transport : string) : oprog bool :=
  if String.eqb transport OpenAIUpstreamTransportAny || String.eqb transport OpenAIUpstreamTransportHTTPSSE
  then Ret true else call (OTransport a transport).
Definition isAccountRequestCompatible (a : Account) (req : OpenAIAccountScheduleRequest) : oprog bool :=
  let* reason := call (OIncompatible a req) in Ret (bool_decide (reason = None)).
(** What is still an account that can serve the request. *)
Definition serving (req : OpenAIAccountScheduleRequest) (fresh : option Account) : oprog (option Account) :=
  match fresh with
  | None => Ret None
  | Some a =>
    let* transport := isAccountTransportCompatible a (sq_RequiredTransport req) in
    if negb transport then Ret None else
    let* compatible := isAccountRequestCompatible a req in
    Ret (if (compatible : bool) then Some a else None)
  end.
Definition resolve_fresh (req : OpenAIAccountScheduleRequest) (a : Account) : oprog (option Account) :=
  let* fresh := call (OResolveFresh a (sq_Platform req) (sq_RequestedModel req) (sq_RequiredCapability req)) in
  serving req fresh.
Definition recheck_serving (req : OpenAIAccountScheduleRequest) (a : Account) : oprog (option Account) :=
  let* fresh := call (ORecheck a (sq_Platform req) (sq_RequestedModel req) (sq_RequiredCapability req) false) in
  serving req fresh.
Definition bind_selected (req : OpenAIAccountScheduleRequest) (a : Account) : oprog unit :=
  if os_cache s && negb (str_empty (sq_SessionHash req)) && negb (sq_PreserveStickyBinding req) && (0 <? acc_ID a)
  then call (OStickyBind (sq_SessionHash req) (acc_ID a)) else Ret tt.
Definition acquired_result (a : Account) (rel : option release) : AccountSelectionResult :=
  {| sr_Account := a; sr_Acquired := true; sr_ReleaseFunc := rel; sr_WaitPlan := None |}.
Definition waiting_result (a : Account) (timeout maxWaiting : Z) : AccountSelectionResult :=
  {| sr_Account := a; sr_Acquired := false; sr_ReleaseFunc := None;
     sr_WaitPlan := Some {| wp_AccountID := acc_ID a; wp_MaxConcurrency := acc_Concurrency a;
                            wp_Timeout := timeout; wp_MaxWaiting := maxWaiting |} |}.

(** The result, whether a fresh account turned out not to support compact
    requests, and the budget left. *)
Definition attempted : Type := result (option AccountSelectionResult) * bool * openAISelectionProbeBudget.
(** The end of one round: with the slot of the account as it is now. *)
Definition keep_slot (req : OpenAIAccountScheduleRequest) (a : Account) (rel : option release) (blocked : bool)
    (b : openAISelectionProbeBudget) : oprog attempted :=
  let* _ := bind_selected req a in Ret (Ok (Some (acquired_result a rel)), blocked, b).
Fixpoint tryAcquireOpenAISelectionOrderWithBudget (req : OpenAIAccountScheduleRequest) (order : list candidate)
    (blocked : bool) (b : openAISelectionProbeBudget) : oprog attempted :=
  match order with
  | [] => Ret (Ok None, blocked, b)
  | c :: rest =>
    let next := tryAcquireOpenAISelectionOrderWithBudget req rest in
    if known_full c then next blocked b else
    let* r := tryAcquireOpenAIAccountSlot (cd_ID c) (acc_Concurrency (cd_account c)) b in
    let b := r.2 in
    match r.1 with
    | None => Ret (Ok None, blocked, b)
    | Some (Err e) => Ret (Err e, blocked, b)
    | Some (Ok slot) =>
      if negb (aq_Acquired slot) then next blocked b else
      let rel := aq_ReleaseFunc slot in
      let* fresh := resolve_fresh req (cd_account c) in
      match fresh with
      | None => let* _ := release_slot rel in next blocked b
      | Some fresh =>
        match consumeOpenAISelectionDBRecheck b with
        | None => let* _ := release_slot rel in Ret (Ok None, blocked, b)
        | Some b =>
          let* latest := recheck_serving req fresh in
          match latest with
          | None => let* _ := release_slot rel in next blocked b
          | Some a =>
            if sq_RequireCompact req && tier_is_account 0 a then let* _ := release_slot rel in next true b
            else if acc_Concurrency a =? acc_Concurrency (cd_account c) then keep_slot req a rel blocked b
            else
              let* _ := release_slot rel in
              let* r := tryAcquireOpenAIAccountSlot (acc_ID a) (acc_Concurrency a) b in
              let b := r.2 in
              match r.1 with
              | None => next blocked b
              | Some (Err e) => Ret (Err e, blocked, b)
              | Some (Ok slot) =>
                if aq_Acquired slot then keep_slot req a (aq_ReleaseFunc slot) blocked b else next blocked b
              end
          end
        end
      end
    end
  end.
Definition tryAcquireOpenAISelectionOrder (req : OpenAIAccountScheduleRequest) (order : list candidate)
    : oprog attempted :=
  tryAcquireOpenAISelectionOrderWithBudget req order false (enableLimit newOpenAISelectionProbeBudget).

Definition delete_binding (req : OpenAIAccountScheduleRequest) : oprog unit :=
  if os_cache s then call (OStickyDelete (sq_SessionHash req)) else Ret tt.
(** The sticky accounts, with a slot or waiting for one. *)
Fixpoint try_weighted_sticky (req : OpenAIAccountScheduleRequest) (ids : list Z)
    : oprog (result (option AccountSelectionResult)) :=
  match ids with
  | [] => Ret (Ok None)
  | id :: rest =>
    let next := try_weighted_sticky req rest in
    if (id <=? 0) || bool_decide (id ∈ sq_ExcludedIDs req) then next else
    let* found := call (OSchedulableAccount id) in
    match found with
    | Ok (Some a) =>
      let* compatible := isAccountRequestCompatible a req in
      if negb compatible then next else
      let* transport := isAccountTransportCompatible a (sq_RequiredTransport req) in
      if negb transport then next else
      let* latest := call (ORecheck a (sq_Platform req) (sq_RequestedModel req) (sq_RequiredCapability req)
                             (sq_RequireCompact req)) in
      match latest with
      | None =>
        let* _ := (if (id =? sq_StickyAccountID req) && negb (str_empty (TrimSpace (sq_SessionHash req)))
                   then delete_binding req else Ret tt) in next
      | Some a =>
        let* compatible := isAccountRequestCompatible a req in
        if negb compatible then next else
        let* transport := isAccountTransportCompatible a (sq_RequiredTransport req) in
        if negb transport then next else
        if sq_RequireCompact req && tier_is_account 0 a then next else
        let* slot := acquire_slot (acc_ID a) (acc_Concurrency a) in
        match slot with
        | Err e => Ret (Err e)
        | Ok slot =>
          if aq_Acquired slot then
            let* _ := bind_selected req a in Ret (Ok (Some (acquired_result a (aq_ReleaseFunc slot))))
          else if os_concurrencyService s then
            Ret (Ok (Some (waiting_result a (StickySessionWaitTimeout (os_cfg s)) (StickySessionMaxWaiting (os_cfg s)))))
          else next
        end
      end
    | _ => next
    end
  end.
Definition tryFallbackToWeightedSticky (req : OpenAIAccountScheduleRequest) : oprog (result (option AccountSelectionResult)) :=
  if negb (sq_StickyWeighted req) then Ret (Ok None)
  else try_weighted_sticky req [sq_StickyPreviousAccountID req; sq_StickyAccountID req].

(** ** Session and load *)

(** The account a session is bound to, or that it left its account. *)
Definition selectBySessionHash (req : OpenAIAccountScheduleRequest)
    : oprog (option AccountSelectionResult * bool) :=
  let session := TrimSpace (sq_SessionHash req) in
  let none := Ret (None, false) in
  let forget := let* _ := call (OStickyDelete session) in none in
  if str_empty session || negb (os_cache s) then none else
  let* bound := (if 0 <? sq_StickyAccountID req then Ret (Ok (sq_StickyAccountID req)) else call (OStickyGet session)) in
  match bound with
  | Err _ => none
  | Ok id =>
    if (id <=? 0) || bool_decide (id ∈ sq_ExcludedIDs req) then none else
    let* found := call (OSchedulableAccount id) in
    match found with
    | Ok (Some a) =>
      let* now := onow in
      if shouldClearStickySession now a (sq_RequestedModel req)
         || negb (String.eqb (acc_Platform a) (normalizeOpenAICompatiblePlatform (sq_Platform req)))
         || negb (IsOpenAICompatible a) || negb (IsSchedulable now a) then forget else
      let* compatible := isAccountRequestCompatible a req in
      if negb compatible then none else
      let* transport := isAccountTransportCompatible a (sq_RequiredTransport req) in
      if negb transport then forget else
      let* latest := call (ORecheck a (sq_Platform req) (sq_RequestedModel req) (sq_RequiredCapability req)
                             (sq_RequireCompact req)) in
      match latest with
      | None => forget
      | Some a =>
        let* transport := isAccountTransportCompatible a (sq_RequiredTransport req) in
        if negb transport then forget else
        let* escape := (if esc_enabled (os_escape s) then
                          let* st := call (OStats id) in Ret (escapes (os_escape s) st) else Ret false) in
        if (escape : bool) then Ret (None, true) else
        let* slot := acquire_slot id (acc_Concurrency a) in
        let wait := Ret (Some {| sr_Account := a; sr_Acquired := false; sr_ReleaseFunc := None;
                           sr_WaitPlan := Some {| wp_AccountID := id; wp_MaxConcurrency := acc_Concurrency a;
                                                  wp_Timeout := StickySessionWaitTimeout (os_cfg s);
                                                  wp_MaxWaiting := StickySessionMaxWaiting (os_cfg s) |} |}, false) in
        match slot with
        | Ok slot =>
          if aq_Acquired slot then
            let* _ := call (OStickyRefresh session (os_stickyTTL s)) in
            Ret (Some (acquired_result a (aq_ReleaseFunc slot)), false)
          else if negb (os_concurrencyService s) then none
          else if esc_enabled (os_escape s) then Ret (None, true) else wait
        | Err _ => if os_concurrencyService s then wait else none
        end
      end
    | _ => forget
    end
  end.

(** [openAICostOverflowExpanded] *)
Definition openAICostOverflowExpanded (req : OpenAIAccountScheduleRequest) (plan : openAIAccountLoadPlan) : bool :=
  let more l := pn_topK plan <? Z.of_nat (length (l : list candidate)) in
  if negb (pn_includeOverflowFallback plan) || (pn_topK plan <=? 0) then false
  else if negb (sq_RequireCompact req) then more (pn_candidates plan)
  else more (filterb (tier_is 2) (pn_candidates plan)) || more (filterb (tier_is 1) (pn_candidates plan)).
Definition limit_for (req : OpenAIAccountScheduleRequest) (plan : openAIAccountLoadPlan) (b : openAISelectionProbeBudget)
    : openAISelectionProbeBudget := if openAICostOverflowExpanded req plan then enableLimit b else b.
Definition buildOpenAIAccountLoadRequest (accounts : list Account) : list AccountWithConcurrency :=
  map (λ a, {| awc_ID := acc_ID a; awc_MaxConcurrency := EffectiveLoadFactor a |}) accounts.

Record load_figures := { lf_candidateCount : Z; lf_topK : Z; lf_loadSkew : float64 }.
Definition no_figures : load_figures := {| lf_candidateCount := 0; lf_topK := 0; lf_loadSkew := f0 |}.
Definition figures_of (plan : openAIAccountLoadPlan) : load_figures :=
  {| lf_candidateCount := pn_candidateCount plan; lf_topK := pn_topK plan; lf_loadSkew := pn_loadSkew plan |}.
Record openAIAccountLoadSelectionAttempt := mk_attempt {
  at_result : result (option AccountSelectionResult);
  at_selectionOrder : list candidate;
  at_figures : load_figures;
  at_compactBlocked : bool;
  at_noCompactCandidates : bool
}.

Definition trySelectByLoadBalancePool (req : OpenAIAccountScheduleRequest) (filtered : list Account)
    (loadMap : gmap Z AccountLoadInfo) (b : openAISelectionProbeBudget)
    : oprog (openAIAccountLoadSelectionAttempt * openAISelectionProbeBudget) :=
  let* plan := buildOpenAIAccountLoadPlan (os_schedulerSnapshot s) req filtered loadMap in
  let b := limit_for req plan b in
  let order := pn_selectionOrder plan in
  let compact := sq_RequireCompact req in
  if (compact && is_nil (pn_candidates plan) && is_nil (pn_staleSnapshotCompactRetry plan))
     || (compact && is_nil order && negb (os_schedulerSnapshot s))
  then Ret (mk_attempt (Err ErrNoAvailableCompactAccounts) order (figures_of plan) false true, b) else
  if is_nil order
  then Ret (mk_attempt (Ok None) order (figures_of plan) (compact && negb (is_nil (pn_allCandidates plan))) false, b) else
  let* tried := tryAcquireOpenAISelectionOrderWithBudget req order false b in
  let '(r, blocked, b) := tried in
  let attempt := mk_attempt r order (figures_of plan) blocked false in
  match r with
  | Err _ | Ok (Some _) => Ret (attempt, b)
  | Ok None =>
    if negb (os_concurrencyService s) || acquireExhausted b then Ret (attempt, b) else
    let* fresh := call (OLoadFresh (buildOpenAIAccountLoadRequest filtered)) in
    match fresh with
    | Err _ => Ret (attempt, b)
    | Ok loadMap =>
      let* plan := buildOpenAIAccountLoadPlan (os_schedulerSnapshot s) req filtered loadMap in
      let b := limit_for req plan b in
      if is_nil (pn_selectionOrder plan) then Ret (attempt, b) else
      let* tried := tryAcquireOpenAISelectionOrderWithBudget req (pn_selectionOrder plan) false b in
      let '(r, blocked', b) := tried in
      Ret (match r with
           | Err e => mk_attempt (Err e) order (at_figures attempt) blocked false
           | Ok (Some _) => mk_attempt r (pn_selectionOrder plan) (figures_of plan) blocked false
           | Ok None => mk_attempt r (pn_selectionOrder plan) (figures_of plan) (blocked || blocked') false
           end, b)
    end
  end.

(** ** Waiting for a slot *)

(** One pass over the candidates: an account to wait for, or that the budget
    is used up. *)
Fixpoint wait_pass (req : OpenAIAccountScheduleRequest) (wantAttempted wantKnownFull : bool) (order : list candidate)
    (blocked : bool) (b : openAISelectionProbeBudget)
    : oprog (option Account * bool * bool * openAISelectionProbeBudget) :=
  match order with
  | [] => Ret (None, false, blocked, b)
  | c :: rest =>
    let next := wait_pass req wantAttempted wantKnownFull rest in
    if bg_limited b && (negb (Bool.eqb (wasAttempted b (cd_ID c)) wantAttempted)
                        || negb (Bool.eqb (known_full c) wantKnownFull)) then next blocked b else
    let* fresh := resolve_fresh req (cd_account c) in
    match fresh with
    | None => next blocked b
    | Some fresh =>
      match consumeOpenAISelectionDBRecheck b with
      | None => Ret (None, true, blocked, b)
      | Some b =>
        let* latest := recheck_serving req fresh in
        match latest with
        | None => next blocked b
        | Some a =>
          if sq_RequireCompact req && tier_is_account 0 a then next true b
          else Ret (Some a, false, blocked, b)
        end
      end
    end
  end.
Fixpoint wait_passes (req : OpenAIAccountScheduleRequest) (order : list candidate) (passes : list (bool * bool))
    (blocked : bool) (b : openAISelectionProbeBudget)
    : oprog (option Account * bool * openAISelectionProbeBudget) :=
  match passes with
  | [] => Ret (None, blocked, b)
  | (wantAttempted, wantKnownFull) :: rest =>
    let* r := wait_pass req wantAttempted wantKnownFull order blocked b in
    let '(found, exhausted, blocked, b) := r in
    match found with
    | Some a => Ret (Some a, blocked, b)
    | None => if (exhausted : bool) then Ret (None, blocked, b) else wait_passes req order rest blocked b
    end
  end.
Definition passes_of (b : openAISelectionProbeBudget) : list (bool * bool) :=
  if bg_limited b then [(false, false); (true, false); (false, true); (true, true)] else [(false, false)].

Definition load_selected : Type := result (option AccountSelectionResult) * load_figures * openAISelectionProbeBudget.
Definition finishLoadBalanceSelectionFallback (req : OpenAIAccountScheduleRequest)
    (attempt : openAIAccountLoadSelectionAttempt) (b : openAISelectionProbeBudget) : oprog load_selected :=
  let figures := at_figures attempt in
  if is_nil (at_selectionOrder attempt)
  then Ret (Err (noAvailableOpenAISelectionError (at_compactBlocked attempt)), figures, b) else
  let* sticky := tryFallbackToWeightedSticky req in
  match sticky with
  | Err _ | Ok (Some _) => Ret (sticky, figures, b)
  | Ok None =>
    let* r := wait_passes req (at_selectionOrder attempt) (passes_of b) (at_compactBlocked attempt) b in
    let '(found, blocked, b) := r in
    Ret (match found with
         | Some a => Ok (Some (waiting_result a (FallbackWaitTimeout (os_cfg s)) (FallbackMaxWaiting (os_cfg s))))
         | None => Err (noAvailableOpenAISelectionError blocked)
         end, figures, b)
  end.

(** ** The choice by load *)

Fixpoint filter_accounts (req : OpenAIAccountScheduleRequest) (accounts : list Account) : oprog (list Account) :=
  match accounts with
  | [] => Ret []
  | a :: rest =>
    let next := filter_accounts req rest in
    if bool_decide (acc_ID a ∈ sq_ExcludedIDs req) then next else
    let* now := onow in
    if negb (IsSchedulable now a) then next else
    if negb (String.eqb (acc_Platform a) (normalizeOpenAICompatiblePlatform (sq_Platform req)))
       || negb (IsOpenAICompatible a) then next else
    let* blocked := call (ORuntimeBlocked a (sq_RequestedModel req)) in
    if (blocked : bool) then next else
    let* compatible := isAccountRequestCompatible a req in
    if negb compatible then next else
    let* transport := isAccountTransportCompatible a (sq_RequiredTransport req) in
    if negb transport then next else
    let* l := next in Ret (a :: l)
  end.
Definition partitionOpenAIChatGPTSubscriptionAccounts (accounts : list Account) : list Account * list Account :=
  (filterb IsOpenAIChatGPTSubscription accounts, filterb (λ a, negb (IsOpenAIChatGPTSubscription a)) accounts).

Definition finish_attempt (req : OpenAIAccountScheduleRequest)
    (tried : openAIAccountLoadSelectionAttempt * openAISelectionProbeBudget) : oprog load_selected :=
  match at_result tried.1 with
  | Ok None => finishLoadBalanceSelectionFallback req tried.1 tried.2
  | r => Ret (r, at_figures tried.1, tried.2)
  end.
(** The regular accounts after the subscriptions [sub] had no slot. *)
Definition regular_after (req : OpenAIAccountScheduleRequest) (sub : openAIAccountLoadSelectionAttempt)
    (regular : list Account) (loadMap : gmap Z AccountLoadInfo) (b : openAISelectionProbeBudget) : oprog load_selected :=
  let* tried := trySelectByLoadBalancePool req regular loadMap b in
  let '(attempt, b) := tried in
  match at_result attempt with
  | Ok (Some _) => Ret (at_result attempt, at_figures attempt, b)
  | Err e =>
    if negb (at_noCompactCandidates attempt) then Ret (Err e, at_figures attempt, b) else
    let* waiting := finishLoadBalanceSelectionFallback req sub b in
    Ret (match waiting.1.1 with Ok (Some _) => waiting | _ => (Err e, at_figures attempt, waiting.2) end)
  | Ok None =>
    let* r := finishLoadBalanceSelectionFallback req attempt b in
    match r.1.1 with
    | Ok (Some _) => Ret r
    | _ =>
      let* waiting := finishLoadBalanceSelectionFallback req sub r.2 in
      Ret (match waiting.1.1 with Ok (Some _) => waiting | _ => (r.1, waiting.2) end)
    end
  end.
Definition selectByLoadBalance (req : OpenAIAccountScheduleRequest)
    : oprog (result (option AccountSelectionResult) * load_figures) :=
  let* listed := call (OList (sq_PlatformID req) (sq_Platform req)) in
  match listed with
  | Err e => Ret (Err e, no_figures)
  | Ok accounts =>
    if is_nil accounts then Ret (Err (noAvailableOpenAISelectionError false), no_figures) else
    let* filtered := filter_accounts req accounts in
    if is_nil filtered then Ret (Err (noAvailableOpenAISelectionError false), no_figures) else
    let* loadMap :=
      (if os_concurrencyService s then
         let* r := call (OSvc (CLoadBatch (buildOpenAIAccountLoadRequest filtered))) in
         Ret (match r with Ok m => m | Err _ => ∅ end)
       else Ret ∅) in
    let b := newOpenAISelectionProbeBudget in
    let '(subs, regular) := partitionOpenAIChatGPTSubscriptionAccounts filtered in
    let* r :=
      (if sq_SubscriptionPriority req && negb (is_nil subs) then
         let* tried := trySelectByLoadBalancePool req subs loadMap b in
         match at_result tried.1 with
         | Err e => if negb (at_noCompactCandidates tried.1) || is_nil regular
                    then Ret (Err e, at_figures tried.1, tried.2)
                    else regular_after req tried.1 regular loadMap tried.2
         | Ok (Some _) => Ret (at_result tried.1, at_figures tried.1, tried.2)
         | Ok None => if is_nil regular then finish_attempt req tried
                      else regular_after req tried.1 regular loadMap tried.2
         end
       else
         let* tried := trySelectByLoadBalancePool req filtered loadMap b in finish_attempt req tried) in
    Ret r.1
  end.

(** ** Select *)

Record OpenAIAccountScheduleDecision := mk_decision {
  dn_Layer : string;
  dn_StickyPreviousHit : bool;
  dn_StickySessionHit : bool;
  dn_figures : load_figures;
  dn_SelectedAccount : option (Z * string)
}.
Definition no_decision : OpenAIAccountScheduleDecision := mk_decision "" false false no_figures None.
Definition selected_account (r : option AccountSelectionResult) : option (Z * string) :=
  (λ x, (acc_ID (sr_Account x), acc_Type (sr_Account x))) <$> r.
Definition preserve_binding (req : OpenAIAccountScheduleRequest) : OpenAIAccountScheduleRequest := {|
  sq_PlatformID := sq_PlatformID req; sq_Platform := sq_Platform req; sq_SessionHash := sq_SessionHash req;
  sq_StickyAccountID := sq_StickyAccountID req; sq_StickyPreviousAccountID := sq_StickyPreviousAccountID req;
  sq_StickyWeighted := sq_StickyWeighted req; sq_SubscriptionPriority := sq_SubscriptionPriority req;
  sq_PreserveStickyBinding := true; sq_PreviousResponseID := sq_PreviousResponseID req;
  sq_PreviousResponseCanMove := sq_PreviousResponseCanMove req; sq_UseUpstreamTokenCost := sq_UseUpstreamTokenCost req;
  sq_RequestedModel := sq_RequestedModel req; sq_RequiredTransport := sq_RequiredTransport req;
  sq_RequiredCapability := sq_RequiredCapability req; sq_RequiredImageCapability := sq_RequiredImageCapability req;
  sq_RequireCompact := sq_RequireCompact req; sq_ExcludedIDs := sq_ExcludedIDs req |}.

(** The account that holds the previous response, unless it has not the
    transport. *)
Definition previous_selection (req : OpenAIAccountScheduleRequest) : oprog (result (option AccountSelectionResult)) :=
  let id := TrimSpace (sq_PreviousResponseID req) in
  if negb (str_empty id) && String.eqb (normalizeOpenAICompatiblePlatform (sq_Platform req)) PlatformOpenAI
     && (negb (sq_StickyWeighted req) || negb (sq_PreviousResponseCanMove req)) then
    let* r := call (OPreviousResponse id req) in
    match r with
    | Ok (Some sel) =>
      let* transport := isAccountTransportCompatible (sr_Account sel) (sq_RequiredTransport req) in
      if (transport : bool) then Ret (Ok (Some sel))
      else let* _ := release_slot (sr_ReleaseFunc sel) in Ret (Ok None)
    | _ => Ret r
    end
  else Ret (Ok None).
Definition select_by_load (req : OpenAIAccountScheduleRequest)
    : oprog (result (option AccountSelectionResult) * OpenAIAccountScheduleDecision) :=
  let* r := selectByLoadBalance req in
  match r.1 with
  | Err e => Ret (Err e, mk_decision "load_balance" false false r.2 None)
  | Ok sel =>
    let hit (id : Z) := sq_StickyWeighted req && (0 <? id) && bool_decide (fst <$> selected_account sel = Some id) in
    Ret (Ok sel, mk_decision "load_balance" (hit (sq_StickyPreviousAccountID req)) (hit (sq_StickyAccountID req)) r.2
                   (selected_account sel))
  end.
Definition scheduler_Select (req : OpenAIAccountScheduleRequest)
    : oprog (result (option AccountSelectionResult) * OpenAIAccountScheduleDecision) :=
  let* previous := previous_selection req in
  match previous with
  | Err e => Ret (Err e, no_decision)
  | Ok (Some sel) =>
    let* _ := (if os_cache s && negb (str_empty (sq_SessionHash req)) && (0 <? acc_ID (sr_Account sel))
               then call (OStickyBind (sq_SessionHash req) (acc_ID (sr_Account sel))) else Ret tt) in
    Ret (Ok (Some sel), mk_decision "previous_response_id" true false no_figures (selected_account (Some sel)))
  | Ok None =>
    if sq_StickyWeighted req then select_by_load req else
    let* sticky := selectBySessionHash req in
    match sticky with
    | (Some sel, _) => Ret (Ok (Some sel), mk_decision "session_hash" false true no_figures (selected_account (Some sel)))
    | (None, escaped) => select_by_load (if escaped then preserve_binding req else req)
    end
  end.
End Scheduler.
