(* ===== verification/OpenAISchedulerProps.v ===== *)
(** * Properties of the OpenAI account scheduler

    The heap keeps the best candidates: what it selects are the first ones of
    the sorted candidates.  The order in which accounts are tried is a
    rearrangement of what was selected.  Whatever the services answer, every
    slot that is taken is in the result or given back, a selected account was
    read again and serves the request, and the probes stay within their
    budget.  The runs at the end select among three accounts. *)

From Stdlib Require Import SpecFloat Ascii String.
From stdpp Require Import pretty sorting.
From S2P Require Import Prelude GoErrors Prog Float64 GoTime GoStrings GoText PlatformModels Account ModelMapping Redis Concurrency AccountSelection SelectionProps SelectionRuns OpenAIScheduler.

Open Scope prog_scope.

(** ** Exchanges in a list *)

Section Swap.
Context {A : Type}.
Implicit Types h : list A.

Lemma lookup_swap h i j a b k : h !! i = Some a -> h !! j = Some b ->
  heap_swap h i j !! k = if decide (k = i) then Some b else if decide (k = j) then Some a else h !! k.
Proof.
  intros Hi Hj. unfold heap_swap. rewrite Hi, Hj. apply lookup_lt_Some in Hi, Hj.
  destruct (decide (k = i)) as [->|Hki]; [by rewrite list_lookup_insert_eq by (by rewrite length_insert)|].
  rewrite list_lookup_insert_ne by done.
  destruct (decide (k = j)) as [->|Hkj]; [by rewrite list_lookup_insert_eq|by rewrite list_lookup_insert_ne].
Qed.
Lemma length_swap h i j : length (heap_swap h i j) = length h.
Proof. unfold heap_swap. do 2 (destruct (_ !! _); [|done]). by rewrite !length_insert. Qed.
Lemma swap_perm h i j : heap_swap h i j ≡ₚ h.
Proof.
  destruct (h !! i) as [a|] eqn:Hi, (h !! j) as [b|] eqn:Hj; try (unfold heap_swap; by rewrite Hi, ?Hj).
  apply Permutation_inj. split; [apply length_swap|].
  exists (λ k, if decide (k = i) then j else if decide (k = j) then i else k). split.
  - intros k l. repeat case_decide; congruence.
  - intros k. rewrite (lookup_swap _ _ _ _ _ _ Hi Hj). repeat case_decide; congruence.
Qed.
End Swap.

(** ** Heaps *)

Section Heap.
Context {A : Type} (better : A -> A -> bool).
Context (Hasym : ∀ x y, better x y = true -> better y x = false)
        (Hneg : ∀ x y z, better x y = false -> better y z = false -> better x z = false).
Implicit Types h : list A.

(** The element at [i] is not better than that at [k]. *)
Definition under h (i k : nat) : Prop := ∀ a b, h !! i = Some a -> h !! k = Some b -> better a b = false.
Definition heap h : Prop := ∀ k, (0 < k)%nat -> under h (heap_parent k) k.

Lemma better_trans x y z : better x y = true -> better y z = true -> better x z = true.
Proof.
  intros H1 H2. destruct (better x z) eqn:E; [done|]. apply Hasym in H2.
  pose proof (Hneg _ _ _ E H2). congruence.
Qed.
Lemma parent_bounds k : (2 * heap_parent k <= k - 1 <= 2 * heap_parent k + 1)%nat.
Proof.
  unfold heap_parent. rewrite Nat.div2_div. pose proof (Nat.div_mod_eq (k - 1) 2).
  pose proof (Nat.mod_upper_bound (k - 1) 2). lia.
Qed.
Lemma parent_lt k : (0 < k)%nat -> (heap_parent k < k)%nat.
Proof. intros H. pose proof (parent_bounds k). lia. Qed.
Lemma parent_children k i : (0 < k)%nat -> heap_parent k = i <-> k = (2 * i + 1)%nat \/ k = (2 * i + 2)%nat.
Proof. pose proof (parent_bounds k). lia. Qed.

Lemma root_worst h r k a : heap h -> h !! 0%nat = Some r -> h !! k = Some a -> k ≠ 0%nat -> better r a = false.
Proof.
  intros Hh Hr. revert a. induction k as [k IH] using lt_wf_ind. intros a Ha Hk.
  pose proof (parent_lt k ltac:(lia)) as Hp.
  destruct (lookup_lt_is_Some_2 h (heap_parent k)) as [p Hpa]; [apply lookup_lt_Some in Ha; lia|].
  pose proof (Hh k ltac:(lia) p a Hpa Ha) as H1.
  destruct (decide (heap_parent k = 0%nat)) as [E|E]; [congruence|].
  eapply Hneg; [exact (IH _ Hp p Hpa E)|exact H1].
Qed.

(** Ordered but for the way up from [j]. *)
Definition up_inv h (j : nat) : Prop :=
  (∀ k, (0 < k)%nat -> k ≠ j -> under h (heap_parent k) k) /\
  ((0 < j)%nat -> ∀ k, (0 < k)%nat -> heap_parent k = j -> under h (heap_parent j) k).
Lemma heap_up_heap fuel h j : (j <= fuel)%nat -> (j < length h)%nat -> up_inv h j -> heap (heap_up better fuel h j).
Proof.
  revert h j. induction fuel as [|fuel IH]; intros h j Hf Hj [H1 H2]; cbn [heap_up].
  { intros k Hk. apply H1; lia. }
  cbv zeta. destruct (decide (j = 0%nat)) as [->|Hj0].
  { rewrite (proj2 (Nat.eqb_eq _ _)) by done. cbn. intros k Hk. apply H1; lia. }
  pose proof (parent_lt j ltac:(lia)) as Hp. set (i := heap_parent j) in *.
  rewrite (proj2 (Nat.eqb_neq _ _)) by lia. cbn [orb].
  destruct (lookup_lt_is_Some_2 h i) as [a Ha]; [lia|]. destruct (lookup_lt_is_Some_2 h j Hj) as [b Hb].
  unfold heap_less. rewrite Ha, Hb. destruct (better a b) eqn:E; cbn [negb].
  2:{ intros k Hk. destruct (decide (k = j)) as [->|]; [|by apply H1]. intros x y Hx Hy. fold i in Hx. congruence. }
  pose proof (lookup_swap h i j a b) as Hl.
  apply IH; [lia|rewrite length_swap; lia|]. split.
  - intros k Hk Hki x y. rewrite !(Hl _ Ha Hb). destruct (decide (k = i)); [done|].
    destruct (decide (k = j)) as [->|Hkj].
    + fold i. rewrite decide_True by done. intros [= <-] [= <-]. by apply Hasym.
    + destruct (decide (heap_parent k = i)) as [Ei|Ei].
      * intros [= <-] Hy. destruct (better b y) eqn:Eb; [|done].
        pose proof (H1 k Hk Hkj a y ltac:(by rewrite Ei) Hy). pose proof (better_trans _ _ _ E Eb). congruence.
      * destruct (decide (heap_parent k = j)) as [Ej|Ej].
        -- intros [= <-] Hy. by apply (H2 ltac:(lia) k Hk Ej a y).
        -- by apply (H1 k Hk Hkj).
  - intros Hi k Hk Hki x y. pose proof (parent_lt i Hi) as Hpi. rewrite !(Hl _ Ha Hb).
    rewrite (decide_False (P := heap_parent i = i)), (decide_False (P := heap_parent i = j)) by lia.
    intros Hx. pose proof (H1 i Hi ltac:(lia) x a Hx Ha) as Hxa.
    destruct (decide (k = i)) as [->|Hki']; [pose proof (parent_lt i Hi); lia|].
    destruct (decide (k = j)) as [->|Hkj]; [by intros [= <-]|].
    intros Hy. eapply Hneg; [exact Hxa|]. by apply (H1 k Hk Hkj); [rewrite Hki|].
Qed.

(** Ordered but for the ways down from [i]. *)
Definition down_inv h (i : nat) : Prop :=
  (∀ k, (0 < k)%nat -> heap_parent k ≠ i -> under h (heap_parent k) k) /\
  ((0 < i)%nat -> ∀ k, (0 < k)%nat -> heap_parent k = i -> under h (heap_parent i) k).
(** The child the element at [i] is compared with is the worst one. *)
Lemma down_child h i : (2 * i + 1 < length h)%nat ->
  let j1 := (2 * i + 1)%nat in let j2 := (j1 + 1)%nat in
  let j := if (j2 <? length h)%nat && heap_less better h j2 j1 then j2 else j1 in
  (j < length h)%nat /\ (0 < j)%nat /\ heap_parent j = i /\
  ∀ k, (0 < k)%nat -> heap_parent k = i -> k ≠ j -> under h j k.
Proof.
  cbv zeta. intros Hn. set (j := if _ && _ then _ else _).
  assert ((j < length h)%nat /\ (j = 2 * i + 1 \/ j = 2 * i + 1 + 1)%nat) as [Hj Hc].
  { unfold j. destruct (_ <? _)%nat eqn:E; [apply Nat.ltb_lt in E|]; cbn [andb]; [|lia].
    destruct (heap_less _ _ _ _); lia. }
  split; [done|]. split; [lia|]. split; [apply parent_children; lia|].
  intros k Hk Hp Hkj x y Hx Hy. apply (parent_children k i Hk) in Hp.
  assert (k < length h)%nat as Hkl by (by eapply lookup_lt_Some).
  revert Hj Hc Hkj Hx. unfold j.
  destruct ((2 * i + 1 + 1 <? length h)%nat) eqn:E; [apply Nat.ltb_lt in E|apply Nat.ltb_ge in E]; cbn [andb].
  2:{ intros. lia. }
  unfold heap_less. destruct (lookup_lt_is_Some_2 h (2 * i + 1 + 1) E) as [c2 Hc2].
  destruct (lookup_lt_is_Some_2 h (2 * i + 1) Hn) as [c1 Hc1]. rewrite Hc1, Hc2.
  destruct (better c1 c2) eqn:Eb; intros _ _ Hkj Hx.
  - assert (k = (2 * i + 1)%nat) as -> by lia. rewrite Hc2 in Hx. rewrite Hc1 in Hy.
    injection Hx as [= <-]. injection Hy as [= <-]. by apply Hasym.
  - assert (k = (2 * i + 1 + 1)%nat) as -> by lia. congruence.
Qed.
Lemma heap_down_heap fuel h i : (length h <= i + fuel)%nat -> down_inv h i -> heap (heap_down better fuel h i).
Proof.
  revert h i. induction fuel as [|fuel IH]; intros h i Hf [H1 H2]; cbn [heap_down].
  { intros k Hk x y Hx Hy. destruct (decide (heap_parent k = i)) as [E|E]; [|by eapply H1].
    apply lookup_lt_Some in Hx. lia. }
  cbv zeta. destruct (length h <=? 2 * i + 1)%nat eqn:En; [apply Nat.leb_le in En|apply Nat.leb_gt in En].
  { intros k Hk x y Hx Hy. destruct (decide (heap_parent k = i)) as [E|E]; [|by eapply H1].
    apply (parent_children k i Hk) in E. apply lookup_lt_Some in Hy. lia. }
  pose proof (down_child h i En) as Hc. cbv zeta in Hc. set (j := if _ && _ then _ else _) in *.
  destruct Hc as (Hj & Hj0 & Hp & Hworst).
  destruct (lookup_lt_is_Some_2 h i) as [a Ha]; [lia|]. destruct (lookup_lt_is_Some_2 h j Hj) as [b Hb].
  assert (i ≠ j) as Hij by (pose proof (parent_lt j Hj0); lia).
  unfold heap_less. rewrite Ha, Hb. destruct (better a b) eqn:E; cbn [negb].
  2:{ intros k Hk x y Hx Hy. destruct (decide (heap_parent k = i)) as [Ek|Ek]; [|by eapply H1].
      rewrite Ek, Ha in Hx. injection Hx as [= <-].
      destruct (decide (k = j)) as [->|Hkj]; [congruence|].
      eapply Hneg; [exact E|]. by apply (Hworst k Hk Ek Hkj). }
  pose proof (lookup_swap h i j a b) as Hl.
  apply IH; [rewrite length_swap; pose proof (parent_lt j Hj0); lia|]. split.
  - intros k Hk Hkj x y. rewrite !(Hl _ Ha Hb). rewrite (decide_False (P := heap_parent k = j)) by done.
    destruct (decide (heap_parent k = i)) as [Ek|Ek].
    + intros [= <-]. destruct (decide (k = i)) as [->|Hki]; [pose proof (parent_lt i Hk); lia|].
      destruct (decide (k = j)) as [->|Hkj']; [intros [= <-]; by apply Hasym|].
      intros Hy. by apply (Hworst k Hk Ek Hkj').
    + intros Hx. destruct (decide (k = i)) as [->|Hki].
      * intros [= <-]. by apply (H2 Hk j Hj0 Hp).
      * destruct (decide (k = j)) as [->|Hkj']; [congruence|]. by apply (H1 k Hk Ek).
  - intros _ k Hk Hkj x y. rewrite Hp, !(Hl _ Ha Hb), decide_True by done. intros [= <-].
    destruct (decide (k = i)) as [->|Hki]; [pose proof (parent_lt i Hk); pose proof (parent_lt j Hj0); lia|].
    destruct (decide (k = j)) as [->|Hkj']; [pose proof (parent_lt j Hj0); lia|].
    intros Hy. by apply (H1 k Hk ltac:(lia)); [rewrite Hkj|].
Qed.

Lemma heap_up_perm fuel h j : heap_up better fuel h j ≡ₚ h.
Proof.
  revert h j. induction fuel as [|fuel IH]; intros h j; [done|]. cbn [heap_up]. cbv zeta.
  destruct (_ || _); [done|]. by rewrite IH, swap_perm.
Qed.
Lemma heap_down_perm fuel h i : heap_down better fuel h i ≡ₚ h.
Proof.
  revert h i. induction fuel as [|fuel IH]; intros h i; [done|]. cbn [heap_down]. cbv zeta.
  destruct (_ <=? _)%nat; [done|]. destruct (negb _); [done|]. by rewrite IH, swap_perm.
Qed.
Lemma heap_nil : heap [].
Proof. intros k _ a b Ha. by rewrite lookup_nil in Ha. Qed.
Lemma heap_Push_heap h x : heap h -> heap (heap_Push better h x).
Proof.
  intros Hh. apply heap_up_heap; [lia|rewrite length_app; cbn; lia|]. split.
  - intros k Hk Hne a b Ha Hb. pose proof (lookup_lt_Some _ _ _ Hb) as Hl. rewrite length_app in Hl. cbn in Hl.
    pose proof (parent_lt k Hk). rewrite lookup_app_l in Ha, Hb by lia. by eapply Hh.
  - intros _ k Hk Hp a b _ Hb. apply lookup_lt_Some in Hb. rewrite length_app in Hb. cbn in Hb.
    pose proof (parent_lt k Hk). lia.
Qed.
Lemma heap_Fix0_heap c root rest : heap (root :: rest) -> heap (heap_Fix0 better (c :: rest)).
Proof.
  intros Hh. apply heap_down_heap; [lia|]. split; [|intros; lia]. intros k Hk Hp a b Ha Hb.
  destruct k as [|k]; [lia|]. destruct (heap_parent (S k)) as [|p] eqn:E; [done|].
  apply (Hh (S k) Hk); [by rewrite E|done].
Qed.

(** The heap holds the best ones of what was seen. *)
Definition best_of (K : nat) (best seen : list A) : Prop :=
  heap best /\ length best = Nat.min K (length seen) /\
  ∃ rest, best ++ rest ≡ₚ seen /\ ∀ b r, b ∈ best -> r ∈ rest -> better r b = false.
Lemma topk_step_best K best seen c : (0 < K)%nat -> best_of K best seen -> best_of K (topk_step better K best c) (c :: seen).
Proof.
  intros HK (Hh & Hlen & rest & Hp & Hb). pose proof (Permutation_length Hp) as Hpl. rewrite length_app in Hpl.
  unfold topk_step. destruct (length best <? K)%nat eqn:E; [apply Nat.ltb_lt in E|apply Nat.ltb_ge in E].
  - assert (rest = []) as -> by (apply nil_length_inv; lia). rewrite app_nil_r in Hp.
    assert (heap_Push better best c ≡ₚ c :: seen) as Hperm
      by (unfold heap_Push; rewrite heap_up_perm, Hp; symmetry; apply Permutation_cons_append).
    split; [by apply heap_Push_heap|]. split; [rewrite Hperm; cbn; lia|].
    exists []. rewrite app_nil_r. split; [done|]. intros b r _ []%elem_of_nil.
  - destruct best as [|root best']; [cbn in *; lia|].
    assert (∀ b, b ∈ root :: best' -> better root b = false) as Hroot.
    { intros b [k Hk]%list_elem_of_lookup_1. destruct k as [|k]; [|by eapply (root_worst _ root (S k))].
      injection Hk as [= <-]. destruct (better root root) eqn:Er; [|done]. by rewrite (Hasym _ _ Er) in Er. }
    destruct (better c root) eqn:Ec.
    + assert (heap_Fix0 better (c :: best') ≡ₚ c :: best') as Hperm by apply heap_down_perm.
      split; [by eapply heap_Fix0_heap|]. split; [rewrite Hperm; cbn in *; lia|].
      exists (root :: rest). split; [rewrite Hperm, <- Hp; cbn; by rewrite <- Permutation_middle|].
      assert (∀ r, r ∈ root :: rest -> better r root = false) as Hr.
      { intros r [->|Hr]%elem_of_cons; [apply Hroot; by left|apply Hb; [by left|done]]. }
      intros b r Hbe Hre. rewrite Hperm in Hbe. apply (Hneg _ root); [by apply Hr|].
      apply elem_of_cons in Hbe as [->|Hbe]; [by apply Hasym|apply Hroot; by right].
    + split; [done|]. split; [cbn in *; lia|]. exists (c :: rest).
      split; [by rewrite <- Permutation_middle, Hp|].
      intros b r Hbe [->|Hr]%elem_of_cons; [|by apply Hb]. apply (Hneg _ root); [done|by apply Hroot].
Qed.
Lemma topk_best K l : (0 < K)%nat -> best_of K (foldl (topk_step better K) [] l) l.
Proof.
  intros HK. assert (∀ best seen, best_of K best seen -> best_of K (foldl (topk_step better K) best l) (rev l ++ seen)) as H.
  { induction l as [|c l IH]; intros best seen Hb; [done|]. cbn. rewrite <- app_assoc. by apply IH, topk_step_best. }
  assert (best_of K [] []) as H0.
  { split; [apply heap_nil|]. split; [by rewrite Nat.min_0_r|]. exists []. split; [done|]. intros b r []%elem_of_nil. }
  pose proof (H _ _ H0) as (Hh & Hlen & rest & Hp & Hb). rewrite app_nil_r in Hlen, Hp.
  split; [done|]. split; [by rewrite length_rev in Hlen|]. exists rest. split; [|done].
  by rewrite Hp, <- Permutation_rev.
Qed.

Lemma sorted_app l1 l2 : StronglySorted (not_after better) l1 -> StronglySorted (not_after better) l2 ->
  (∀ b r, b ∈ l1 -> r ∈ l2 -> better r b = false) -> StronglySorted (not_after better) (l1 ++ l2).
Proof.
  induction 1 as [|x l1 H1 IH Hx]; intros H2 Hb; [done|]. cbn. constructor.
  - apply IH; [done|]. intros b r Hbe. apply Hb. by right.
  - apply Forall_app. split; [done|]. apply Forall_forall. intros r Hr. apply Hb; [by left|done].
Qed.
(** What is kept is the beginning of what would be sorted. *)
Lemma selectTopK_sorted l K : (∀ x y, x ∈ l -> y ∈ l -> better x y = false -> better y x = false -> x = y) ->
  selectTopK better l K = take (Z.to_nat (Z.max 1 K)) (stable_sort better l).
Proof.
  intros Hanti. unfold selectTopK. destruct l as [|x0 l0]; [symmetry; apply take_nil|]. cbn [is_nil]. set (l := x0 :: l0) in *.
  replace (if K <=? 0 then 1 else K) with (Z.max 1 K) by (destruct (K <=? 0) eqn:E; lia).
  set (n := Z.to_nat (Z.max 1 K)). assert (0 < n)%nat as Hn by lia.
  destruct (length l <=? n)%nat eqn:El; [apply Nat.leb_le in El|apply Nat.leb_gt in El].
  { by rewrite take_ge by (rewrite length_stable_sort; lia). }
  destruct (topk_best n l Hn) as (_ & Hlen & rest & Hp & Hb). set (best := foldl _ _ _) in *.
  assert (stable_sort better best ++ stable_sort better rest = stable_sort better l) as <-.
  { apply (StronglySorted_unique_strong (not_after better)).
    - intros x y Hx Hy Hxy Hyx. assert (∀ z, z ∈ stable_sort better best ++ stable_sort better rest -> z ∈ l) as Hin.
      { intros z. by rewrite elem_of_app, !elem_of_stable_sort, <- elem_of_app, Hp. }
      apply Hanti; [by apply Hin|by apply elem_of_stable_sort in Hy|done|done].
    - apply sorted_app; [apply stable_sort_sorted; eauto..|].
      intros b r. rewrite !elem_of_stable_sort. apply Hb.
    - apply stable_sort_sorted; eauto.
    - by rewrite !stable_sort_perm. }
  rewrite take_app_length'; [done|]. rewrite length_stable_sort. lia.
Qed.
End Heap.

(** Orders that agree on what is compared select the same. *)
Section Agree.
Context {A : Type} (b1 b2 : A -> A -> bool) (good : A -> Prop)
        (Hagree : ∀ x y, good x -> good y -> b1 x y = b2 x y).
Implicit Types h l : list A.

Lemma sort_agree l : Forall good l -> stable_sort b1 l = stable_sort b2 l.
Proof.
  induction 1 as [|x l Hx Hl IH]; [done|]. cbn. fold (stable_sort b1 l) (stable_sort b2 l). rewrite IH.
  assert (Forall good (stable_sort b2 l)) as Hs by (by rewrite stable_sort_perm). clear Hl IH.
  induction Hs as [|y s Hy Hs IH]; [done|]. cbn. rewrite (Hagree y x), IH by done. done.
Qed.
Lemma less_agree h i j : Forall good h -> heap_less b1 h i j = heap_less b2 h i j.
Proof.
  intros Hh. unfold heap_less. destruct (h !! i) eqn:Ei, (h !! j) eqn:Ej; try done.
  apply Hagree; by eapply Forall_lookup_1.
Qed.
Lemma up_agree fuel h j : Forall good h -> heap_up b1 fuel h j = heap_up b2 fuel h j.
Proof.
  revert h j. induction fuel as [|fuel IH]; intros h j Hh; [done|]. cbn [heap_up]. cbv zeta.
  rewrite less_agree, IH by (by rewrite ?swap_perm). done.
Qed.
Lemma down_agree fuel h i : Forall good h -> heap_down b1 fuel h i = heap_down b2 fuel h i.
Proof.
  revert h i. induction fuel as [|fuel IH]; intros h i Hh; [done|]. cbn [heap_down]. cbv zeta.
  rewrite !less_agree, IH by (by rewrite ?swap_perm). done.
Qed.
Lemma step_agree K best c : good c -> Forall good best ->
  topk_step b1 K best c = topk_step b2 K best c /\ Forall good (topk_step b2 K best c).
Proof.
  intros Hc Hb. unfold topk_step, heap_Push, heap_Fix0. destruct (_ <? _)%nat.
  - assert (Forall good (best ++ [c])) as Hbc by (apply Forall_app; auto).
    rewrite up_agree by done. split; [done|by rewrite heap_up_perm].
  - inversion Hb as [|root rest Hr Hrest]; subst; [done|]. rewrite (Hagree c root) by done. destruct (b2 c root); [|done].
    assert (Forall good (c :: rest)) as Hcr by auto. rewrite down_agree by done. split; [done|by rewrite heap_down_perm].
Qed.
Lemma selectTopK_agree l K : Forall good l -> selectTopK b1 l K = selectTopK b2 l K.
Proof.
  intros Hl. unfold selectTopK. destruct (is_nil l); [done|]. destruct (_ <=? _)%nat; [by apply sort_agree|].
  set (n := Z.to_nat _). cut (∀ best, Forall good best -> foldl (topk_step b1 n) best l = foldl (topk_step b2 n) best l /\
    Forall good (foldl (topk_step b2 n) best l)).
  { intros H. destruct (H [] (Forall_nil_2 _)) as [-> H2]. by apply sort_agree. }
  induction Hl as [|c l Hc Hl IH]; intros best Hb; [done|]. cbn.
  destruct (step_agree n best c Hc Hb) as [-> H2]. by apply IH.
Qed.
End Agree.

(** ** The order of the candidates *)

Fixpoint lex_ltb (x y : list Z) : bool :=
  match x, y with
  | a :: x, b :: y => if a =? b then lex_ltb x y else a <? b
  | [], _ :: _ => true
  | _, [] => false
  end.
Lemma lex_asym x y : lex_ltb x y = true -> lex_ltb y x = false.
Proof.
  revert y. induction x as [|a x IH]; intros [|b y]; try done. cbn. rewrite (Z.eqb_sym b a).
  destruct (a =? b); [apply IH|lia].
Qed.
Lemma lex_neg x y z : lex_ltb x y = false -> lex_ltb y z = false -> lex_ltb x z = false.
Proof.
  revert y z. induction x as [|a x IH]; intros [|b y] [|c z]; try done. cbn.
  destruct (a =? b) eqn:E1, (b =? c) eqn:E2, (a =? c) eqn:E3; try lia. apply IH.
Qed.
Lemma lex_total x y : lex_ltb x y = false -> lex_ltb y x = false -> x = y.
Proof.
  revert y. induction x as [|a x IH]; intros [|b y]; try done. cbn. rewrite (Z.eqb_sym b a).
  destruct (a =? b) eqn:E; [|lia]. intros H1 H2. apply Z.eqb_eq in E as ->. f_equal. by apply IH.
Qed.

(** Higher scores come first; zeros are equal. *)
Definition score_key (x : float64) : list Z :=
  match x with
  | S754_infinity false => [-2; 0; 0]
  | S754_finite false m e => [-1; - e; - Z.pos m]
  | S754_zero _ | S754_nan => [0; 0; 0]
  | S754_finite true m e => [1; e; Z.pos m]
  | S754_infinity true => [2; 0; 0]
  end.
Lemma score_key_lex x y tx ty : is_nan x = false -> is_nan y = false ->
  (if negb (feqb x y) then fgtb x y else lex_ltb tx ty) = lex_ltb (score_key x ++ tx) (score_key y ++ ty).
Proof.
  intros Hx Hy. unfold feqb, fgtb, SFeqb, SFltb.
  destruct x as [[]|[]| |[] m e], y as [[]|[]| |[] n f]; try done; cbn.
  all: rewrite (Z.compare_antisym e f); destruct (Z.compare_spec e f) as [->|H|H]; cbn;
    rewrite ?Z.eqb_refl, ?(proj2 (Z.eqb_neq _ _)) by lia; try lia.
  all: change (Pos.compare_cont Eq m n) with (Pos.compare m n); change (Pos.compare_cont Eq n m) with (Pos.compare n m);
    rewrite (Pos.compare_antisym m n); destruct (Pos.compare_spec m n) as [->|H|H]; cbn;
    rewrite ?Z.eqb_refl, ?Pos.eqb_refl; try done; try (rewrite (proj2 (Pos.eqb_neq m n)) by lia); try lia; case_match; lia.
Qed.

Definition candidate_key (c : candidate) : list Z :=
  score_key (cd_score c) ++ [acc_Priority (cd_account c); li_LoadRate (cd_loadInfo c);
                             li_WaitingCount (cd_loadInfo c); cd_ID c].
Definition key_better (c d : candidate) : bool := lex_ltb (candidate_key c) (candidate_key d).
Lemma better_key c d : is_nan (cd_score c) = false -> is_nan (cd_score d) = false ->
  isOpenAIAccountCandidateBetter c d = key_better c d.
Proof.
  intros Hc Hd. unfold key_better, candidate_key. rewrite <- score_key_lex by done. unfold isOpenAIAccountCandidateBetter.
  cbn. destruct (feqb _ _); cbn; [|done]. do 3 (destruct (_ =? _); cbn; [|done]). destruct (_ =? _) eqn:E; lia.
Qed.
Definition scored (l : list candidate) : Prop := Forall (λ c, is_nan (cd_score c) = false) l.
Lemma key_anti l x y : NoDup (map cd_ID l) -> x ∈ l -> y ∈ l -> key_better x y = false -> key_better y x = false -> x = y.
Proof.
  intros Hnd Hx Hy H1 H2. pose proof (lex_total _ _ H1 H2) as E. apply app_inj_2 in E as [_ E]; [|done].
  injection E as _ _ _ E. apply list_elem_of_lookup_1 in Hx as [i Hi], Hy as [j Hj].
  assert (i = j) as ->; [|congruence]. eapply NoDup_lookup; [exact Hnd| |].
  - by rewrite list_lookup_fmap, Hi.
  - rewrite list_lookup_fmap, Hj. cbn. by f_equal.
Qed.
Lemma better_sort l : scored l -> stable_sort isOpenAIAccountCandidateBetter l = stable_sort key_better l.
Proof. intros Hl. by apply (sort_agree _ _ _ better_key). Qed.
Lemma topK_sorted l K : NoDup (map cd_ID l) -> scored l ->
  selectTopKOpenAICandidates l K = take (Z.to_nat (Z.max 1 K)) (stable_sort isOpenAIAccountCandidateBetter l).
Proof.
  intros Hnd Hl. unfold selectTopKOpenAICandidates. rewrite (selectTopK_agree _ _ _ better_key) by done.
  rewrite better_sort by done. apply selectTopK_sorted.
  - intros x y. apply lex_asym.
  - intros x y z. apply lex_neg.
  - intros x y. by apply key_anti.
Qed.
(** Two sorted rearrangements are the same. *)
Lemma sorted_unique l l' : NoDup (map cd_ID l) -> scored l -> l' ≡ₚ l ->
  StronglySorted (not_after key_better) l' -> stable_sort isOpenAIAccountCandidateBetter l = l'.
Proof.
  intros Hnd Hl Hp Hs. rewrite better_sort by done. apply (StronglySorted_unique_strong (not_after key_better)).
  - intros x y Hx Hy H1 H2. apply elem_of_stable_sort in Hx. rewrite Hp in Hy. by apply (key_anti l).
  - apply stable_sort_sorted; [intros x y; apply lex_asym|intros x y z H1 H2; by eapply lex_neg].
  - done.
  - by rewrite stable_sort_perm.
Qed.

(** ** The weighted order *)

Lemma pick_index_lt r acc i ws : (0 < length ws)%nat -> (pick_index r acc i ws < i + length ws)%nat \/ pick_index r acc i ws = 0%nat.
Proof.
  revert acc i. induction ws as [|w ws IH]; intros acc i Hl; [cbn in Hl; lia|]. cbn [pick_index length]. cbv zeta.
  destruct (fleb _ _); [lia|]. destruct ws as [|w' ws]; [by right|].
  destruct (IH (fadd acc w) (S i) ltac:(cbn; lia)); [left; lia|by right].
Qed.
Lemma weighted_loop_perm fuel pool rng : length pool = fuel -> weighted_loop fuel pool rng ≡ₚ map fst pool.
Proof.
  revert pool rng. induction fuel as [|fuel IH]; intros pool rng Hl; [by apply nil_length_inv in Hl as ->|].
  cbn [weighted_loop]. cbv zeta. destruct (if fgtb _ _ then _ else _) as [i rng'] eqn:E.
  assert (i < length pool)%nat as Hi.
  { revert E. destruct (fgtb _ _).
    - destruct (nextFloat64 rng) as [x r]. intros [= <- <-].
      destruct (pick_index_lt (fmul x (foldl fadd f0 (map snd pool))) f0 0 (map snd pool)) as [H|H];
        rewrite ?length_map in *; lia.
    - destruct (nextUint64 rng) as [u r]. intros [= <- <-].
      pose proof (Z.mod_pos_bound u (Z.of_nat (length pool))). lia. }
  destruct (lookup_lt_is_Some_2 pool i Hi) as [c Hc]. rewrite Hc, IH by (rewrite length_delete by (by eexists); lia).
  change (c.1 :: map fst (delete i pool)) with (map fst (c :: delete i pool)). by rewrite <- (delete_Permutation pool i c Hc).
Qed.
Lemma weighted_perm l req tr : always (buildOpenAIWeightedSelectionOrder l req) tr (λ _ l', l' ≡ₚ l).
Proof.
  unfold buildOpenAIWeightedSelectionOrder. destruct l as [|c [|c' l]]; [by cbn..|]. apply always_skip. intros tr' seed _. cbn [always].
  rewrite weighted_loop_perm by (by rewrite length_map). apply reflexive_eq. rewrite map_map. apply map_id.
Qed.

(** ** The order of a group *)

Lemma sorted_drop n l : StronglySorted (not_after key_better) l -> StronglySorted (not_after key_better) (drop n l).
Proof.
  revert n. induction l as [|x l IH]; intros [|n] H; [constructor|constructor|done|]. apply StronglySorted_inv in H as [H _]. by apply IH.
Qed.
Lemma filterb_perm {A} (p : A -> bool) l l' : l ≡ₚ l' -> filterb p l ≡ₚ filterb p l'.
Proof.
  induction 1 as [|x l l' _ IH|x y l|l1 l2 l3 _ IH1 _ IH2]; cbn; [done|destruct (p x); by rewrite ?IH| |by etrans].
  destruct (p x), (p y); try done. apply Permutation_swap.
Qed.
Lemma filterb_id {A} (p : A -> bool) l : (∀ x, x ∈ l -> p x = true) -> filterb p l = l.
Proof.
  induction l as [|x l IH]; intros H; [done|]. cbn. rewrite H by (by left). f_equal. apply IH. intros y Hy. apply H. by right.
Qed.
(** What is left of the pool is the end of the sorted pool. *)
Lemma overflow_drop pool primary n : NoDup (map cd_ID pool) -> scored pool ->
  primary ≡ₚ take n (stable_sort isOpenAIAccountCandidateBetter pool) ->
  overflow_of pool primary = drop n (stable_sort isOpenAIAccountCandidateBetter pool).
Proof.
  intros Hnd Hs Hp. set (sorted := stable_sort _ pool) in *. unfold overflow_of.
  assert (sorted ≡ₚ pool) as Hsp by apply stable_sort_perm.
  assert (NoDup (map cd_ID (take n sorted ++ drop n sorted))) as Hnd' by (by rewrite take_drop, Hsp).
  rewrite map_app in Hnd'. apply NoDup_app in Hnd' as (_ & Hdis & _).
  apply sorted_unique.
  - by apply NoDup_map_filterb.
  - apply Forall_forall. intros c [Hc _]%elem_of_filterb. by apply (proj1 (Forall_forall _ _) Hs).
  - rewrite (filterb_perm _ pool (take n sorted ++ drop n sorted)) by (by rewrite take_drop).
    unfold filterb. rewrite List.filter_app. fold (filterb (λ c, negb (bool_decide (cd_ID c ∈ map cd_ID primary)))).
    rewrite (proj2 (filterb_nil _ (take n sorted))), filterb_id; [done| |].
    + intros c Hc. apply negb_true_iff, bool_decide_eq_false_2. rewrite Hp. intros Hin.
      apply (Hdis _ Hin). by apply list_elem_of_fmap_2.
    + intros c Hc. apply negb_false_iff, bool_decide_eq_true_2. rewrite Hp. by apply list_elem_of_fmap_2.
  - apply sorted_drop. unfold sorted. rewrite better_sort by done.
    apply stable_sort_sorted; [intros x y; apply lex_asym|intros x y z H1 H2; by eapply lex_neg].
Qed.

Lemma sticky_first_spec ranked id l : sticky_first ranked id = Some l ->
  l ≡ₚ ranked /\ ∃ c, c ∈ ranked /\ cd_ID c = id /\ head l = Some c.
Proof.
  unfold sticky_first. destruct (id <=? 0); [done|]. destruct (list_find _ ranked) as [[i c]|] eqn:E; [|done].
  intros [= <-]. apply list_find_Some in E as (Hi & Hc & _). split; [by rewrite <- (delete_Permutation ranked i c Hi)|].
  exists c. split; [by eapply list_elem_of_lookup_2|done].
Qed.
Lemma sticky_first_None ranked id c : sticky_first ranked id = None -> c ∈ ranked -> cd_ID c = id -> cd_ID c <= 0.
Proof.
  unfold sticky_first. destruct (id <=? 0) eqn:E; [intros; lia|]. destruct (list_find _ ranked) as [[i d]|] eqn:El; [done|].
  intros _ Hc Hid. apply list_find_None in El. by apply (proj1 (Forall_forall _ _) El) in Hc.
Qed.
Lemma unique_ID l c d : NoDup (map cd_ID l) -> c ∈ l -> d ∈ l -> cd_ID c = cd_ID d -> c = d.
Proof.
  intros Hnd [i Hi]%list_elem_of_lookup_1 [j Hj]%list_elem_of_lookup_1 E.
  assert (i = j) as ->; [|congruence]. eapply NoDup_lookup; [exact Hnd| |]; rewrite list_lookup_fmap, ?Hi, ?Hj; cbn; by rewrite ?E.
Qed.
(** Of the sticky accounts the one that comes first. *)
Definition sticky_choice (req : OpenAIAccountScheduleRequest) (ranked : list candidate) (c : candidate) : Prop :=
  sq_StickyWeighted req = true /\ c ∈ ranked /\ 0 < cd_ID c /\
  (cd_ID c = sq_StickyPreviousAccountID req \/
   cd_ID c = sq_StickyAccountID req /\ sq_StickyPreviousAccountID req ∉ map cd_ID ranked).
Lemma sticky_order_spec req ranked : NoDup (map cd_ID ranked) ->
  match sticky_order req ranked with
  | Some l => l ≡ₚ ranked /\ ∀ c, sticky_choice req ranked c -> head l = Some c
  | None => ∀ c, ~ sticky_choice req ranked c
  end.
Proof.
  intros Hnd. unfold sticky_order, sticky_choice. destruct (sq_StickyWeighted req); cbn; [|by intros c [? _]].
  destruct (sticky_first ranked (sq_StickyPreviousAccountID req)) as [l|] eqn:E.
  { apply sticky_first_spec in E as (Hp & d & Hd & Hid & Hh). split; [done|]. intros c (_ & Hc & _ & [Hcid|[_ Hn]]).
    - rewrite Hh. f_equal. apply (unique_ID ranked); congruence.
    - destruct Hn. apply list_elem_of_fmap. by exists d. }
  destruct (sticky_first ranked (sq_StickyAccountID req)) as [l|] eqn:E'.
  { apply sticky_first_spec in E' as (Hp & d & Hd & Hid & Hh). split; [done|]. intros c (_ & Hc & Hpos & [Hcid|[Hcid _]]).
    - pose proof (sticky_first_None _ _ _ E Hc Hcid). lia.
    - rewrite Hh. f_equal. apply (unique_ID ranked); congruence. }
  intros c (_ & Hc & Hpos & [Hcid|[Hcid _]]).
  - pose proof (sticky_first_None _ _ _ E Hc Hcid). lia.
  - pose proof (sticky_first_None _ _ _ E' Hc Hcid). lia.
Qed.
Lemma topK_sort_ranked pool topK : NoDup (map cd_ID pool) -> scored pool -> 0 < topK -> pool ≠ [] ->
  selectTopKOpenAICandidates pool (if Z.of_nat (length pool) <? topK then Z.of_nat (length pool) else topK)
  = take (Z.to_nat topK) (stable_sort isOpenAIAccountCandidateBetter pool).
Proof.
  intros Hnd Hs HK Hp. rewrite topK_sorted by done. assert (length pool ≠ 0%nat) by (by destruct pool).
  destruct (_ <? _) eqn:E; [|f_equal; lia]. rewrite !take_ge by (rewrite length_stable_sort; lia). done.
Qed.
Lemma sublist_ids n l : NoDup (map cd_ID l) -> NoDup (map cd_ID (take n l)).
Proof. intros H. rewrite <- (take_drop n l), map_app in H. by apply NoDup_app in H as [? _]. Qed.

(** C26. The accounts of a group are tried in this order: first the [topK] best
    ones of the sorted candidates, which the heap keeps without sorting all of
    them, rearranged (drawn with weights, or with the sticky account in front
    when it is one of them); then, when the order is widened for the costs of
    the upstreams, every other candidate, the best first. *)
Theorem group_order_correct (req : OpenAIAccountScheduleRequest) (topK : Z) (overflow : bool) (pool : list candidate)
    (tr : trace ocall) : 0 < topK -> NoDup (map cd_ID pool) -> scored pool ->
  let sorted := stable_sort isOpenAIAccountCandidateBetter pool in
  let n := Z.to_nat topK in
  always (group_order req topK overflow pool) tr (λ _ order, ∃ front,
    order = front ++ (if overflow then drop n sorted else []) /\ front ≡ₚ take n sorted /\
    ∀ c, sticky_choice req (take n sorted) c -> head order = Some c).
Proof.
  intros HK Hnd Hs. cbv zeta. unfold group_order. destruct (decide (pool = [])) as [->|Hne].
  { cbn. exists []. rewrite take_nil, drop_nil. destruct overflow; repeat split; try done.
    all: by intros c (_ & []%elem_of_nil & _). }
  set (sorted := stable_sort _ pool). set (n := Z.to_nat topK).
  replace (is_nil pool || (topK <=? 0)) with false by (destruct pool; [done|cbn; lia]).
  cbv zeta. rewrite (topK_sort_ranked pool topK) by done. fold sorted n.
  assert (NoDup (map cd_ID (take n sorted))) as Hnd' by (apply sublist_ids; unfold sorted; by rewrite stable_sort_perm).
  apply (always_step _ _ _ (λ _ front, front ≡ₚ take n sorted /\ ∀ c, sticky_choice req (take n sorted) c -> head front = Some c)).
  { pose proof (sticky_order_spec req _ Hnd') as Ho. destruct (sticky_order req _) as [l|]; [by cbn|].
    eapply always_then; [apply weighted_perm|]. intros tr' l Hl. split; [done|]. intros c Hc. by destruct (Ho c). }
  intros tr' front _ [Hp Hh]. cbn [always]. exists front.
  assert (length sorted = length pool) as Hlen by apply length_stable_sort.
  assert ((if negb overflow || (Z.of_nat (length pool) <=? (if Z.of_nat (length pool) <? topK then Z.of_nat (length pool) else topK))
           then front else front ++ overflow_of pool front) = front ++ (if overflow then drop n sorted else [])) as ->.
  { destruct overflow; cbn [negb orb]; [|by rewrite app_nil_r].
    destruct (_ <=? _) eqn:E.
    - rewrite drop_ge, app_nil_r; [done|]. destruct (_ <? topK) eqn:E'; lia.
    - f_equal. by apply overflow_drop. }
  split; [done|]. split; [done|]. intros c Hc. specialize (Hh c Hc). destruct front; [done|]. by injection Hh as [= ->].
Qed.

(** ** Slots *)

(** The slots of the shared calls, and the one that comes with the account of a
    previous response. *)
Definition odelta (a : Z) (q : string) (e : event ocall) : Z :=
  match e with
  | Ev c b =>
    match c in ocall B return B -> Z with
    | OSvc c => λ b, delta a q (Ev c b)
    | OPreviousResponse _ _ => λ b, match b with Ok (Some sel) => carried a q (sr_ReleaseFunc sel) | _ => 0 end
    | _ => λ _, 0
    end b
  end.
Definition oheld (a : Z) (q : string) (tr : trace ocall) : Z := foldr (λ e n, odelta a q e + n) 0 tr.
Lemma oheld_cons a q e tr : oheld a q (e :: tr) = odelta a q e + oheld a q tr.
Proof. done. Qed.
#[global] Arguments oheld : simpl never.
Definition o_no_slot : ∀ B, ocall B -> Prop := λ B c,
  match c with OSvc c => no_slot _ c | OPreviousResponse _ _ => False | _ => True end.
Lemma o_slot_quiet a q B (c : ocall B) b tr : o_no_slot _ c -> oheld a q (Ev c b :: tr) = oheld a q tr.
Proof. intros Hc. rewrite oheld_cons. destruct c; try done. cbn. by destruct c. Qed.

(** What a program over the shared calls does to the slots, it does here. *)
Lemma lift_settles {A} a q (f : A -> Z) n (p : sprog A) :
  settles (held a q) f 0 p -> settles (oheld a q) f n (lift p).
Proof.
  intros Hp otr Ho.
  assert (∀ tr otr K d, held a q tr = oheld a q otr + d -> always p tr (λ tr' r, held a q tr' = K + f r) ->
    always (lift p) otr (λ otr' r, oheld a q otr' = K - d + f r)) as H.
  { clear. induction p as [x|B c k IH]; cbn [lift always]; intros tr otr K d Hd Hq; [lia|]. intros b.
    eapply IH; [|apply Hq]. rewrite held_cons, oheld_cons. cbn. lia. }
  specialize (H [] otr 0 (- n)). eapply always_then; [apply H; [rewrite Ho; unfold held; cbn; lia|by apply Hp]|].
  intros otr' r Hr. cbn in *. lia.
Qed.

(** Neither slots nor rechecks. *)
Definition o_plain : ∀ B, ocall B -> Prop := λ B c, match c with ORecheck _ _ _ _ _ => False | _ => o_no_slot _ c end.
Lemma plain_no_slot {A} (p : oprog A) : only o_plain p -> only o_no_slot p.
Proof. apply only_weaken. by intros B []. Qed.

Create HintDb oquiet.
#[local] Hint Resolve plain_no_slot : oquiet.
Ltac oquiet :=
  repeat first
    [ done
    | solve [auto with oquiet]
    | apply only_bind; [|intros ?]
    | apply only_call; exact I
    | match goal with |- only _ (Do _ _) => cbn [only] end
    | match goal with |- o_no_slot _ _ /\ _ => split; [exact I|intros ?] | |- o_plain _ _ /\ _ => split; [exact I|intros ?] | |- True /\ _ => split; [exact I|intros ?] end
    | match goal with |- only _ (if ?b then _ else _) => destruct b
                    | |- only _ (match ?o with _ => _ end) => destruct o end ].

Section Scheduler.
Context {Host : GoHost} {UC : UnicodeCase} (math_Log math_Exp : float64 -> float64) (s : defaultOpenAIAccountScheduler).

(** *** Which functions leave the slots alone *)

Lemma oquiet_seed req : only o_plain (deriveOpenAISelectionSeed req).
Proof. unfold deriveOpenAISelectionSeed, onow. oquiet. Qed.
#[local] Hint Resolve oquiet_seed : oquiet.
Lemma oquiet_weighted l req : only o_plain (buildOpenAIWeightedSelectionOrder l req).
Proof. unfold buildOpenAIWeightedSelectionOrder. oquiet. Qed.
#[local] Hint Resolve oquiet_weighted : oquiet.
Lemma oquiet_samples l now r : only o_plain (rate_samples l now r).
Proof. induction l as [|a l IH]; cbn [rate_samples]; unfold openAISchedulingRate; oquiet. Qed.
#[local] Hint Resolve oquiet_samples : oquiet.
Lemma oquiet_costs l now r : only o_plain (openAIUpstreamCostFactors math_Log math_Exp l now r).
Proof. unfold openAIUpstreamCostFactors. oquiet. Qed.
#[local] Hint Resolve oquiet_costs : oquiet.
Lemma oquiet_candidates l m : only o_plain (load_candidates l m).
Proof. induction l as [|a l IH]; cbn [load_candidates]; oquiet. Qed.
#[local] Hint Resolve oquiet_candidates : oquiet.
Lemma oquiet_group req k b l : only o_plain (group_order req k b l).
Proof. unfold group_order. oquiet. Qed.
#[local] Hint Resolve oquiet_group : oquiet.
Lemma oquiet_order b req plan : only o_plain (buildOpenAISelectionOrder b req plan).
Proof. unfold buildOpenAISelectionOrder. oquiet. Qed.
#[local] Hint Resolve oquiet_order : oquiet.
Lemma oquiet_plan b req l m : only o_plain (buildOpenAIAccountLoadPlan math_Log math_Exp b req l m).
Proof. unfold buildOpenAIAccountLoadPlan, onow. oquiet. Qed.
#[local] Hint Resolve oquiet_plan : oquiet.
Lemma oquiet_transport a t : only o_plain (isAccountTransportCompatible a t).
Proof. unfold isAccountTransportCompatible. oquiet. Qed.
#[local] Hint Resolve oquiet_transport : oquiet.
Lemma oquiet_compatible a req : only o_plain (isAccountRequestCompatible a req).
Proof. unfold isAccountRequestCompatible. oquiet. Qed.
#[local] Hint Resolve oquiet_compatible : oquiet.
Lemma oquiet_serving req o : only o_plain (serving req o).
Proof. unfold serving. oquiet. Qed.
#[local] Hint Resolve oquiet_serving : oquiet.
Lemma oquiet_fresh req a : only o_plain (resolve_fresh req a).
Proof. unfold resolve_fresh. oquiet. Qed.
#[local] Hint Resolve oquiet_fresh : oquiet.
Lemma oquiet_bind req a : only o_plain (bind_selected s req a).
Proof. unfold bind_selected. oquiet. Qed.
#[local] Hint Resolve oquiet_bind : oquiet.
Lemma oquiet_recheck req a : only o_no_slot (recheck_serving req a).
Proof. unfold recheck_serving. oquiet. Qed.
#[local] Hint Resolve oquiet_recheck : oquiet.
Lemma oquiet_unbind req : only o_no_slot (delete_binding s req).
Proof. unfold delete_binding. oquiet. Qed.
#[local] Hint Resolve oquiet_unbind : oquiet.
Lemma oquiet_wait_pass req wa wf order blocked b : only o_no_slot (wait_pass s req wa wf order blocked b).
Proof. revert blocked b. induction order as [|c order IH]; cbn [wait_pass]; intros; oquiet. Qed.
#[local] Hint Resolve oquiet_wait_pass : oquiet.
Lemma oquiet_wait req order passes blocked b : only o_no_slot (wait_passes s req order passes blocked b).
Proof. revert blocked b. induction passes as [|[wa wf] passes IH]; cbn [wait_passes]; intros; oquiet. Qed.
#[local] Hint Resolve oquiet_wait : oquiet.
Lemma oquiet_filter req l : only o_no_slot (filter_accounts req l).
Proof. induction l as [|a l IH]; cbn [filter_accounts]; unfold onow; oquiet. Qed.
#[local] Hint Resolve oquiet_filter : oquiet.

(** *** Every slot is in the result or was given back *)

Section Slots.
Context (a : Z) (q : string).
#[local] Abbreviation held := (oheld a q).
#[local] Abbreviation settles := (settles held).
#[local] Abbreviation settles_then := (settles_then held).
#[local] Abbreviation settles_zero := (settles_zero held).
#[local] Abbreviation settles_ret := (settles_ret held).
#[local] Abbreviation settles_after := (settles_after held o_no_slot (o_slot_quiet a q)).
#[local] Abbreviation settles_quiet := (settles_quiet held o_no_slot (o_slot_quiet a q)).

Definition in_sel (r : result (option AccountSelectionResult)) : Z :=
  match r with Ok (Some sel) => carried a q (sr_ReleaseFunc sel) | _ => 0 end.
Definition in_slot (r : option (result AcquireResult) * openAISelectionProbeBudget) : Z :=
  match r.1 with Some r => taken a q r | None => 0 end.
Definition in_attempted (r : attempted) : Z := in_sel r.1.1.

Lemma settles_acquire_slot n id max : settles (taken a q) n (acquire_slot s id max).
Proof.
  unfold acquire_slot. destruct (negb _); [by apply settles_ret|]. apply lift_settles, settles_AcquireAccountSlot.
Qed.
Lemma settles_try_slot n id max b : settles in_slot n (tryAcquireOpenAIAccountSlot s id max b).
Proof.
  assert (∀ b, settles in_slot n (let* r := acquire_slot s id max in Ret (Some r, b))) as H.
  { intros b'. apply (settles_then (taken a q)); [apply settles_acquire_slot|]. intros r. apply settles_ret. cbn. lia. }
  unfold tryAcquireOpenAIAccountSlot. destruct (_ && _); [|apply H]. destruct (recordAcquire _ _); [apply H|by apply settles_ret].
Qed.
Lemma settles_release_slot n rel : settles (λ _, - carried a q rel) n (release_slot rel).
Proof. apply lift_settles, settles_release. Qed.
(** Give the slot back and go on. *)
Lemma settles_back {B} (g : B -> Z) n rel (next : oprog B) : settles g n next ->
  settles (λ r, g r - carried a q rel) (n + carried a q rel) (let* _ := release_slot rel in next).
Proof.
  intros Hn. apply (settles_then (λ _, - carried a q rel)); [apply settles_release_slot|]. intros _ tr Htr.
  eapply always_then; [apply Hn; lia|]. intros tr' r Hr. cbn in *. lia.
Qed.
(** The slot is handed on. *)
Lemma settles_keep_slot n req acc rel blocked b :
  settles (λ r, in_attempted r - carried a q rel) (n + carried a q rel) (keep_slot s req acc rel blocked b).
Proof. unfold keep_slot. apply settles_after; [auto with oquiet|]. intros _. apply settles_ret. cbn. lia. Qed.

Lemma settles_order_slots n req order blocked b :
  settles in_attempted n (tryAcquireOpenAISelectionOrderWithBudget s req order blocked b).
Proof.
  revert n blocked b. induction order as [|c order IH]; intros n blocked b; cbn [tryAcquireOpenAISelectionOrderWithBudget];
    [by apply settles_ret|].
  cbv zeta. destruct (known_full c); [apply IH|].
  apply (settles_then in_slot); [apply settles_try_slot|]. intros [[[slot|e]|] b1]; cbn [fst snd].
  2,3: apply settles_zero; [done|]; by apply settles_ret.
  destruct slot as [[|] rel]; cbn [negb aq_Acquired aq_ReleaseFunc]; [|by apply settles_zero, IH].
  change (in_slot _) with (carried a q rel). apply settles_after; [auto with oquiet|]. intros [fresh|]; [|apply settles_back, IH].
  destruct (consumeOpenAISelectionDBRecheck s b1) as [b2|]; [|apply settles_back; by apply settles_ret].
  apply settles_after; [auto with oquiet|]. intros [acc|]; [|apply settles_back, IH].
  destruct (_ && _); [apply settles_back, IH|]. destruct (_ =? _); [apply settles_keep_slot|].
  apply settles_back. apply (settles_then in_slot); [apply settles_try_slot|].
  intros [[[slot|e]|] b3]; cbn [fst snd].
  2,3: apply settles_zero; [done|]; first [by apply settles_ret|apply IH].
  destruct slot as [[|] rel']; cbn [negb aq_Acquired aq_ReleaseFunc]; [|by apply settles_zero, IH].
  apply settles_keep_slot.
Qed.
Lemma settles_weighted_sticky n req ids : settles in_sel n (try_weighted_sticky s req ids).
Proof.
  induction ids as [|id ids IH]; cbn [try_weighted_sticky]; cbv zeta; [by apply settles_ret|].
  destruct (_ || _); [done|]. apply settles_after; [oquiet|]. intros [[acc|]|e]; [|done..].
  apply settles_after; [oquiet|]. intros [|]; [|done]. apply settles_after; [oquiet|]. intros [|]; [|done]. cbn [negb].
  apply settles_after; [oquiet|]. intros [acc'|]; [|by apply settles_after; [oquiet|]].
  apply settles_after; [oquiet|]. intros [|]; [|done]. apply settles_after; [oquiet|]. intros [|]; [|done]. cbn [negb].
  destruct (_ && _); [done|]. apply (settles_then (taken a q)); [apply settles_acquire_slot|].
  intros [[[|] rel]|e]; cbn [aq_Acquired aq_ReleaseFunc]; [| |by apply settles_zero, settles_ret].
  - apply settles_after; [oquiet|]. intros _. apply settles_ret. cbn. lia.
  - apply settles_zero; [done|]. destruct (os_concurrencyService s); [by apply settles_ret|done].
Qed.
Lemma settles_fallback_sticky n req : settles in_sel n (tryFallbackToWeightedSticky s req).
Proof. unfold tryFallbackToWeightedSticky. destruct (negb _); [by apply settles_ret|apply settles_weighted_sticky]. Qed.

Definition in_session (r : option AccountSelectionResult * bool) : Z := in_sel (Ok r.1).
Lemma settles_session n req : settles in_session n (selectBySessionHash s req).
Proof.
  assert (∀ n b, settles in_session n (Ret (None, b))) as Hnone by (intros; by apply settles_ret).
  assert (∀ n, settles in_session n (let* _ := call (OStickyDelete (TrimSpace (sq_SessionHash req))) in Ret (None, false))) as Hforget
    by (intros m; apply settles_after; [oquiet|]; done).
  unfold selectBySessionHash. cbv zeta. destruct (_ || _); [done|].
  apply settles_after; [oquiet|]. intros [id|e]; [|done]. destruct (_ || _); [done|].
  apply settles_after; [oquiet|]. intros [[acc|]|e]; [|done..]. apply settles_after; [unfold onow; oquiet|]. intros now.
  destruct (_ || _); [done|]. apply settles_after; [oquiet|]. intros [|]; cbn [negb]; [|done].
  apply settles_after; [oquiet|]. intros [|]; cbn [negb]; [|done]. apply settles_after; [oquiet|]. intros [acc'|]; [|done].
  apply settles_after; [oquiet|]. intros [|]; cbn [negb]; [|done]. apply settles_after; [oquiet|]. intros [|]; [done|].
  apply (settles_then (taken a q)); [apply settles_acquire_slot|].
  intros [[[|] rel]|e]; cbn [aq_Acquired aq_ReleaseFunc].
  - apply settles_after; [oquiet|]. intros _. apply settles_ret. cbn. lia.
  - apply settles_zero; [done|]. destruct (negb _); [done|]. destruct (esc_enabled _); [done|by apply settles_ret].
  - apply settles_zero; [done|]. destruct (os_concurrencyService s); [by apply settles_ret|done].
Qed.

Definition in_pool (r : openAIAccountLoadSelectionAttempt * openAISelectionProbeBudget) : Z := in_sel (at_result r.1).
Lemma settles_pool n req l m b : settles in_pool n (trySelectByLoadBalancePool math_Log math_Exp s req l m b).
Proof.
  unfold trySelectByLoadBalancePool. cbv zeta. apply settles_after; [oquiet|]. intros plan.
  destruct (_ || _); [by apply settles_ret|]. destruct (is_nil _); [by apply settles_ret|].
  apply (settles_then in_attempted); [apply settles_order_slots|]. intros [[r blocked] b1].
  destruct r as [[sel|]|e]; [by apply settles_ret; cbn; lia| |by apply settles_ret].
  apply settles_zero; [done|]. destruct (_ || _); [by apply settles_ret|]. apply settles_after; [oquiet|].
  intros [fresh|e]; [|by apply settles_ret]. apply settles_after; [oquiet|]. intros plan2.
  destruct (is_nil _); [by apply settles_ret|].
  apply (settles_then in_attempted); [apply settles_order_slots|]. intros [[r blocked'] b2].
  apply settles_ret. destruct r as [[sel|]|e]; cbn; lia.
Qed.
Definition in_load (r : load_selected) : Z := in_sel r.1.1.
Lemma settles_finish n req attempt b : settles in_load n (finishLoadBalanceSelectionFallback s req attempt b).
Proof.
  unfold finishLoadBalanceSelectionFallback. cbv zeta. destruct (is_nil _); [by apply settles_ret|].
  apply (settles_then in_sel); [apply settles_fallback_sticky|]. intros [[sel|]|e]; [by apply settles_ret; cbn; lia| |by apply settles_ret].
  apply settles_zero; [done|]. apply settles_after; [oquiet|]. intros [[found blocked] b']. apply settles_ret. by destruct found.
Qed.
Lemma settles_finish_attempt n req tried : in_pool tried = 0 -> settles in_load n (finish_attempt s req tried).
Proof.
  unfold in_pool, finish_attempt. destruct (at_result tried.1) as [[sel|]|e] eqn:E; intros H; [|apply settles_finish|by apply settles_ret].
  by apply settles_ret.
Qed.
Lemma settles_regular n req sub regular m b : settles in_load n (regular_after math_Log math_Exp s req sub regular m b).
Proof.
  assert (∀ n b (other : load_selected), in_load other = 0 -> settles in_load n
    (let* waiting := finishLoadBalanceSelectionFallback s req sub b in
     Ret (match waiting.1.1 with Ok (Some _) => waiting | _ => (other.1, waiting.2) end))) as Hsub.
  { intros n' b' other Ho. apply (settles_then in_load); [apply settles_finish|]. intros w. apply settles_ret.
    unfold in_load in *. destruct w as [[[[sel|]|e] f] b1]; cbn in *; lia. }
  unfold regular_after. apply (settles_then in_pool); [apply settles_pool|]. intros [attempt b1]. unfold in_pool. cbn [fst].
  destruct (at_result attempt) as [[sel|]|e] eqn:E.
  - apply settles_ret. cbn. lia.
  - apply settles_zero; [done|]. apply (settles_then in_load); [apply settles_finish|]. intros r.
    destruct (r.1.1) as [[sel|]|e] eqn:Er; [apply settles_ret; lia| |].
    all: apply settles_zero; [by unfold in_load; rewrite Er|]; apply Hsub; by unfold in_load; rewrite Er.
  - apply settles_zero; [done|]. destruct (negb _); [by apply settles_ret|].
    by apply (Hsub _ _ (Err e, at_figures attempt, b1)).
Qed.
Definition in_selected {D} (r : result (option AccountSelectionResult) * D) : Z := in_sel r.1.
Lemma settles_by_load_balance n req : settles in_selected n (selectByLoadBalance math_Log math_Exp s req).
Proof.
  unfold selectByLoadBalance. apply settles_after; [oquiet|]. intros [accounts|e]; [|by apply settles_ret].
  destruct (is_nil _); [by apply settles_ret|]. apply settles_after; [oquiet|]. intros filtered.
  destruct (is_nil _); [by apply settles_ret|]. apply settles_after; [oquiet|]. intros m. cbv zeta.
  destruct (partitionOpenAIChatGPTSubscriptionAccounts filtered) as [subs regular].
  apply (settles_then in_load); [|intros r; apply settles_ret; unfold in_selected, in_load; lia].
  destruct (_ && _); apply (settles_then in_pool); try apply settles_pool; intros tried.
  - destruct (at_result tried.1) as [[sel|]|e] eqn:E.
    + apply settles_ret. unfold in_load, in_pool. cbn. rewrite E. cbn. lia.
    + apply settles_zero; [by unfold in_pool; rewrite E|]. destruct (is_nil regular); [|apply settles_regular].
      apply settles_finish_attempt. by unfold in_pool; rewrite E.
    + apply settles_zero; [by unfold in_pool; rewrite E|]. destruct (_ || _); [by apply settles_ret|apply settles_regular].
  - unfold finish_attempt. destruct (at_result tried.1) as [[sel|]|e] eqn:E.
    + apply settles_ret. unfold in_load, in_pool. cbn. rewrite E. cbn. lia.
    + apply settles_zero; [by unfold in_pool; rewrite E|]. apply settles_finish.
    + apply settles_zero; [by unfold in_pool; rewrite E|]. by apply settles_ret.
Qed.
Lemma settles_select_by_load n req : settles in_selected n (select_by_load math_Log math_Exp s req).
Proof.
  unfold select_by_load. apply (settles_then in_selected); [apply settles_by_load_balance|]. intros r. unfold in_selected.
  destruct (r.1) as [sel|e]; apply settles_ret; cbn; lia.
Qed.
Lemma settles_previous n req : settles in_sel n (previous_selection req).
Proof.
  unfold previous_selection. cbv zeta. destruct (_ && _); [|by apply settles_ret].
  apply (settles_then in_sel).
  { intros tr Htr. apply always_call. intros b. rewrite oheld_cons, Htr. destruct b as [[sel|]|e]; cbn; lia. }
  intros [[sel|]|e]; [|by apply settles_zero, settles_ret..]. cbn [in_sel].
  apply settles_after; [oquiet|]. intros [|]; [apply settles_ret; cbn; lia|].
  apply settles_back. by apply settles_ret.
Qed.
Lemma settles_select n req : settles in_selected n (scheduler_Select math_Log math_Exp s req).
Proof.
  unfold scheduler_Select. apply (settles_then in_sel); [apply settles_previous|].
  intros [[sel|]|e]; [| |by apply settles_zero, settles_ret].
  - apply settles_after; [oquiet|]. intros _. apply settles_ret. unfold in_selected. cbn. lia.
  - apply settles_zero; [done|]. destruct (sq_StickyWeighted req); [apply settles_select_by_load|].
    apply (settles_then in_session); [apply settles_session|]. intros [[sel|] escaped].
    + apply settles_ret. unfold in_session, in_selected. cbn. lia.
    + apply settles_zero; [done|]. apply settles_select_by_load.
Qed.
End Slots.

(** *** Probes *)

(** How many slots were asked for, and how many accounts were read again. *)
Definition acquisition (e : event ocall) : Z :=
  match e with @Ev _ _ c _ => match c with OSvc (CSlotAcquire _ _ _) => 1 | _ => 0 end end.
Definition recheck (e : event ocall) : Z :=
  match e with @Ev _ _ c _ => match c with ORecheck _ _ _ _ _ => 1 | _ => 0 end end.
Definition probes (f : event ocall -> Z) (tr : trace ocall) : Z := foldr (λ e n, f e + n) 0 tr.
Definition budgeted : bool := os_schedulerSnapshot s && os_accountRepo s.

(** The probes made are those the budget counted. *)
Definition counted (b b' : openAISelectionProbeBudget) (tr tr' : trace ocall) : Prop :=
  bg_limited b' = true /\ bg_acquires b' <= openAIAccountSelectionProbeLimit /\
  bg_rechecks b' <= openAIAccountSelectionProbeLimit /\
  probes acquisition tr' - probes acquisition tr = bg_acquires b' - bg_acquires b /\
  (budgeted = true -> probes recheck tr' - probes recheck tr = bg_rechecks b' - bg_rechecks b).
Definition limited (b : openAISelectionProbeBudget) : Prop :=
  bg_limited b = true /\ bg_acquires b <= openAIAccountSelectionProbeLimit /\
  bg_rechecks b <= openAIAccountSelectionProbeLimit.
Lemma counted_refl b tr : limited b -> counted b b tr tr.
Proof. intros (H1 & H2 & H3). split_and!; [done..|lia|lia]. Qed.
Lemma counted_limited b b' tr tr' : counted b b' tr tr' -> limited b'.
Proof. by intros (H1 & H2 & H3 & _). Qed.
Lemma counted_trans b1 b2 b3 t1 t2 t3 : counted b1 b2 t1 t2 -> counted b2 b3 t2 t3 -> counted b1 b3 t1 t3.
Proof. intros (_ & _ & _ & A1 & R1) (H1 & H2 & H3 & A2 & R2). split_and!; [done..|lia|]. intros H. specialize (R1 H). specialize (R2 H). lia. Qed.

(** [p] makes the probes that its budget counts. *)
Definition counts {A} (bud : A -> openAISelectionProbeBudget) (b : openAISelectionProbeBudget) (p : oprog A) : Prop :=
  ∀ tr, always p tr (λ tr' r, counted b (bud r) tr tr').
Lemma counts_bind {A B} (f : A -> openAISelectionProbeBudget) (g : B -> openAISelectionProbeBudget) b (p : oprog A) (k : A -> oprog B) :
  counts f b p -> (∀ x, limited (f x) -> counts g (f x) (k x)) -> counts g b (pbind p k).
Proof.
  intros Hp Hk tr. apply always_bind. eapply always_then; [apply Hp|]. intros tr1 x H1.
  eapply always_then; [apply Hk, (counted_limited _ _ _ _ H1)|]. intros tr2 y H2. exact (counted_trans _ _ _ _ _ _ H1 H2).
Qed.
(** Nothing that counts. *)
Definition uncounted {A} (p : oprog A) : Prop :=
  ∀ tr, always p tr (λ tr' _, probes acquisition tr' = probes acquisition tr /\ probes recheck tr' = probes recheck tr).
Lemma plain_uncounted {A} (p : oprog A) : only o_plain p -> uncounted p.
Proof.
  intros Hp tr. apply always_and; apply (only_same o_plain); try done; intros B c b tr' Hc; destruct c as [T c| | | | | | | | | | | | | | | | | |]; try done; by destruct c.
Qed.
Lemma release_uncounted rel : uncounted (release_slot rel).
Proof. unfold release_slot, run_release. destruct rel as [[|id req]|]; cbn; done. Qed.
Lemma counts_after {A B} (g : B -> openAISelectionProbeBudget) b (p : oprog A) (k : A -> oprog B) :
  uncounted p -> (∀ x, counts g b (k x)) -> counts g b (pbind p k).
Proof.
  intros Hp Hk tr. apply always_bind. eapply always_then; [apply Hp|]. intros tr1 x [H1 H2].
  eapply always_then; [apply Hk|]. unfold counted. rewrite H1, H2. auto.
Qed.
Lemma counts_ret {A} (g : A -> openAISelectionProbeBudget) b x : limited b -> g x = b -> counts g b (Ret x).
Proof. intros Hb <- tr. by apply counted_refl. Qed.

Lemma counts_try_slot b id max : limited b -> counts snd b (tryAcquireOpenAIAccountSlot s id max b).
Proof.
  intros Hb. unfold tryAcquireOpenAIAccountSlot, acquire_slot, AcquireAccountSlot.
  destruct (os_concurrencyService s) eqn:Es; cbn [andb negb pbind]; [|by apply counts_ret].
  destruct (0 <? max) eqn:Em; [|rewrite (proj2 (Z.leb_le _ _)) by lia; cbn [lift pbind]; by apply counts_ret].
  destruct Hb as (H1 & H2 & H3). unfold recordAcquire. rewrite H1. cbn [negb].
  destruct (_ <=? bg_acquires b) eqn:E; [by apply counts_ret|]. rewrite (proj2 (Z.leb_gt _ _)) by lia.
  intros tr req r. destruct r as [[|]|e]; cbn; split_and!; unfold probes; cbn; intros; first [done|lia].
Qed.
Lemma counts_recheck req b b' fresh : limited b -> consumeOpenAISelectionDBRecheck s b = Some b' ->
  limited b' /\ ∀ tr, always (recheck_serving req fresh) tr (λ tr' _, counted b b' tr tr').
Proof.
  intros (H1 & H2 & H3). unfold consumeOpenAISelectionDBRecheck, counted, budgeted. intros Hc.
  assert (bg_limited b' = true /\ bg_acquires b' = bg_acquires b /\ bg_rechecks b' <= openAIAccountSelectionProbeLimit /\
    (os_schedulerSnapshot s && os_accountRepo s = true -> bg_rechecks b' = bg_rechecks b + 1)) as (B1 & B2 & B3 & B4).
  { rewrite <- negb_andb in Hc. destruct (os_schedulerSnapshot s && os_accountRepo s); cbn [negb] in Hc; [|by injection Hc as [= <-]].
    unfold recordRecheck in Hc. rewrite H1 in Hc. cbn in Hc. destruct (_ <=? _) eqn:E; [done|]. injection Hc as [= <-]. cbn.
    split_and!; done || lia. }
  split; [split_and!; [done|lia|done]|]. intros tr. unfold recheck_serving. apply always_bind. intros o. cbn [always]. cbv beta.
  eapply always_then; [apply plain_uncounted, oquiet_serving|]. cbn. intros tr' _ [E1 E2]. unfold probes in *. cbn in E1, E2. split_and!; [done|lia|done|lia|].
  intros Hb. specialize (B4 Hb). lia.
Qed.

Lemma counts_keep_slot req acc rel blocked b : limited b -> counts snd b (keep_slot s req acc rel blocked b).
Proof.
  intros Hb. unfold keep_slot. apply counts_after; [apply plain_uncounted; auto with oquiet|]. intros _. by apply counts_ret.
Qed.
Lemma counts_order req order blocked b : limited b ->
  counts snd b (tryAcquireOpenAISelectionOrderWithBudget s req order blocked b).
Proof.
  revert blocked b. induction order as [|c order IH]; intros blocked b Hb; cbn [tryAcquireOpenAISelectionOrderWithBudget];
    [by apply counts_ret|].
  cbv zeta. destruct (known_full c); [by apply IH|].
  assert (∀ rel blocked b, limited b -> counts snd b (let* _ := release_slot rel in
    tryAcquireOpenAISelectionOrderWithBudget s req order blocked b)) as Hback.
  { intros rel bl b' Hb'. apply counts_after; [apply release_uncounted|]. intros _. by apply IH. }
  apply (counts_bind snd); [by apply counts_try_slot|]. intros [[[slot|e]|] b1] Hb1; cbn [fst snd] in *; [|by apply counts_ret..].
  destruct slot as [[|] rel]; cbn [negb aq_Acquired aq_ReleaseFunc]; [|by apply IH].
  apply counts_after; [apply plain_uncounted; auto with oquiet|]. intros [fresh|]; [|by apply Hback].
  destruct (consumeOpenAISelectionDBRecheck s b1) as [b2|] eqn:Ec.
  2:{ apply counts_after; [apply release_uncounted|]. intros _. by apply counts_ret. }
  destruct (counts_recheck req b1 b2 fresh Hb1 Ec) as [Hb2 Hr]. apply (counts_bind (λ _, b2)); [exact Hr|].
  intros [acc|] _; [|by apply Hback]. destruct (_ && _); [by apply Hback|]. destruct (_ =? _); [by apply counts_keep_slot|].
  apply counts_after; [apply release_uncounted|]. intros _.
  apply (counts_bind snd); [by apply counts_try_slot|]. intros [[[slot|e]|] b3] Hb3; cbn [fst snd] in *;
    [|by apply counts_ret|by apply IH].
  destruct slot as [[|] rel']; cbn [aq_Acquired aq_ReleaseFunc]; [by apply counts_keep_slot|by apply IH].
Qed.
Lemma limit_limited req plan b : limited b -> limit_for req plan b = b.
Proof. intros (H & _). unfold limit_for, enableLimit. destruct (openAICostOverflowExpanded _ _); [|done]. by destruct b; cbn in *; subst. Qed.
Lemma counts_pool req l m b : limited b -> counts snd b (trySelectByLoadBalancePool math_Log math_Exp s req l m b).
Proof.
  intros Hb. unfold trySelectByLoadBalancePool. cbv zeta.
  apply counts_after; [apply plain_uncounted; auto with oquiet|]. intros plan. rewrite limit_limited by done.
  destruct (_ || _); [by apply counts_ret|]. destruct (is_nil _); [by apply counts_ret|].
  apply (counts_bind snd); [by apply counts_order|]. intros [[r blocked] b1] Hb1. cbn [snd] in *.
  destruct r as [[sel|]|e]; [by apply counts_ret| |by apply counts_ret].
  destruct (_ || _); [by apply counts_ret|]. apply counts_after; [apply plain_uncounted; oquiet|].
  intros [fresh|e]; [|by apply counts_ret]. apply counts_after; [apply plain_uncounted; auto with oquiet|]. intros plan2.
  rewrite limit_limited by done. destruct (is_nil _); [by apply counts_ret|].
  apply (counts_bind snd); [by apply counts_order|]. intros [[r blocked'] b2] Hb2. by apply counts_ret.
Qed.

(** *** What was checked of the account *)

Definition transport_checked (req : OpenAIAccountScheduleRequest) (a : Account) (tr : trace ocall) : Prop :=
  sq_RequiredTransport req ∈ [OpenAIUpstreamTransportAny; OpenAIUpstreamTransportHTTPSSE] \/
  Ev (OTransport a (sq_RequiredTransport req)) true ∈ tr.
Definition read_again (req : OpenAIAccountScheduleRequest) (a : Account) (tr : trace ocall) : Prop :=
  ∃ a0 compact, Ev (ORecheck a0 (sq_Platform req) (sq_RequestedModel req) (sq_RequiredCapability req) compact) (Some a) ∈ tr.
(** It was read again, serves the request over the transport, and is not known
    to lack compact requests when this is one. *)
Definition checked (req : OpenAIAccountScheduleRequest) (a : Account) (tr : trace ocall) : Prop :=
  read_again req a tr /\ Ev (OIncompatible a req) None ∈ tr /\ transport_checked req a tr /\
  (sq_RequireCompact req = true -> openAICompactSupportTier a ≠ 0).

Section Checked.
Context (req : OpenAIAccountScheduleRequest).
Definition serves (a : Account) (tr : trace ocall) : Prop := Ev (OIncompatible a req) None ∈ tr /\ transport_checked req a tr.
Lemma read_grows a tr tr' : grows tr tr' -> read_again req a tr -> read_again req a tr'.
Proof. intros Hg (a0 & c & H). exists a0, c. by eapply grows_elem. Qed.
Lemma transport_grows a tr tr' : grows tr tr' -> transport_checked req a tr -> transport_checked req a tr'.
Proof. intros Hg [H|H]; [by left|right; by eapply grows_elem]. Qed.
Lemma checked_grows a tr tr' : grows tr tr' -> checked req a tr -> checked req a tr'.
Proof.
  intros Hg (H1 & H2 & H3 & H4). split_and!; [by eapply read_grows|by eapply grows_elem|by eapply transport_grows|done].
Qed.

(** Every account that the result names was checked. *)
Definition finds {A} (f : A -> option Account) (p : oprog A) : Prop :=
  ∀ tr, always p tr (λ tr' r, ∀ a, f r = Some a -> checked req a tr').
Lemma finds_ret {A} (f : A -> option Account) x : f x = None -> finds f (Ret x).
Proof. intros Hf tr a Ha. congruence. Qed.
Lemma finds_after {A B} (g : B -> option Account) (p : oprog A) (k : A -> oprog B) :
  (∀ x, finds g (k x)) -> finds g (pbind p k).
Proof. intros Hk tr. apply always_skip. intros tr' x _. apply Hk. Qed.
Lemma finds_bind {A B} (f : A -> option Account) (g : B -> option Account) (p : oprog A) (k : A -> oprog B) :
  finds f p -> (∀ x tr, (∀ a, f x = Some a -> checked req a tr) -> always (k x) tr (λ tr' r, ∀ a, g r = Some a -> checked req a tr')) ->
  finds g (pbind p k).
Proof. intros Hp Hk tr. apply always_bind. eapply always_then; [apply Hp|]. intros tr' x Hx. by apply Hk. Qed.
(** The program after it names what is already known. *)
Lemma keeps {A} (f : A -> option Account) (p : oprog A) a tr : checked req a tr ->
  (∀ tr, always p tr (λ _ r, f r = Some a)) -> always p tr (λ tr' r, ∀ a, f r = Some a -> checked req a tr').
Proof.
  intros Hc Hp. eapply always_then; [apply always_and; [apply (always_grows p)|apply Hp]|]. cbn.
  intros tr' r [Hg Hf] a' Ha. rewrite Hf in Ha. injection Ha as [= <-]. by eapply checked_grows.
Qed.

Lemma transport_serves a tr :
  always (isAccountTransportCompatible a (sq_RequiredTransport req)) tr (λ tr' ok, ok = true -> transport_checked req a tr').
Proof.
  unfold isAccountTransportCompatible, transport_checked.
  destruct (_ || _) eqn:E; cbn.
  - intros _. left. apply orb_true_iff in E as [E|E]; apply String.eqb_eq in E; rewrite E; [left|right; left].
  - intros b Hb. subst b. right. by left.
Qed.
Lemma compatible_serves a tr :
  always (isAccountRequestCompatible a req) tr (λ tr' ok, ok = true -> Ev (OIncompatible a req) None ∈ tr').
Proof. unfold isAccountRequestCompatible. cbn. intros b Hb. apply bool_decide_eq_true in Hb as ->. left. Qed.
Lemma serving_serves o tr : always (serving req o) tr (λ tr' r, ∀ a, r = Some a -> o = Some a /\ serves a tr').
Proof.
  unfold serving. destruct o as [a|]; [|by cbn]. apply (always_step _ _ _ _ _ (transport_serves a tr)).
  intros tr1 [|] _ Ht; [|by cbn]. cbn [negb]. apply (always_step _ _ _ _ _ (compatible_serves a tr1)).
  intros tr2 [|] Hg Hc; cbn; [|done]. intros a' [= <-]. split; [done|]. split; [by apply Hc|].
  eapply transport_grows; [exact Hg|by apply Ht].
Qed.
(** An account that was read again, but for compact requests. *)
Definition rechecked (a : Account) (tr : trace ocall) : Prop :=
  read_again req a tr /\ serves a tr.
Lemma recheck_rechecked a tr : always (recheck_serving req a) tr (λ tr' r, ∀ a, r = Some a -> rechecked a tr').
Proof.
  unfold recheck_serving. apply always_bind. intros o. cbn [always].
  eapply always_then; [apply always_strengthen, serving_serves|]. intros tr' r [Hg Hr] a' Ha.
  destruct (Hr a' Ha) as [-> Hs]. split; [|done]. exists a, false. eapply grows_elem; [exact Hg|]. left.
Qed.
Lemma rechecked_checked a tr : rechecked a tr -> (sq_RequireCompact req && tier_is_account 0 a) = false -> checked req a tr.
Proof.
  intros (H1 & H2 & H3) Hc. split_and!; [done..|]. intros Hr. rewrite Hr in Hc. unfold tier_is_account in Hc. cbn in Hc. lia.
Qed.

Definition sel_account (r : result (option AccountSelectionResult)) : option Account :=
  match r with Ok (Some sel) => Some (sr_Account sel) | _ => None end.
Definition tried_account (r : attempted) : option Account := sel_account r.1.1.
Lemma finds_keep_slot a rel blocked b tr : checked req a tr ->
  always (keep_slot s req a rel blocked b) tr (λ tr' r, ∀ a, tried_account r = Some a -> checked req a tr').
Proof. intros Hc. apply (keeps _ _ a); [done|]. intros tr'. unfold keep_slot. by apply always_skip. Qed.
Lemma finds_order order blocked b : finds tried_account (tryAcquireOpenAISelectionOrderWithBudget s req order blocked b).
Proof.
  revert blocked b. induction order as [|c order IH]; intros blocked b; cbn [tryAcquireOpenAISelectionOrderWithBudget];
    [by apply finds_ret|].
  cbv zeta. destruct (known_full c); [apply IH|].
  apply finds_after. intros [[[slot|e]|] b1]; cbn [fst snd]; [|by apply finds_ret..].
  destruct slot as [[|] rel]; cbn [negb aq_Acquired aq_ReleaseFunc]; [|apply IH].
  apply finds_after. intros [fresh|]; [|by apply finds_after].
  destruct (consumeOpenAISelectionDBRecheck s b1) as [b2|]; [|apply finds_after; intros; by apply finds_ret].
  intros tr. apply (always_step _ _ _ _ _ (recheck_rechecked fresh tr)). intros tr1 [a|] _ Ha; [|by apply finds_after].
  destruct (_ && tier_is_account 0 a) eqn:Et; [by apply finds_after|].
  pose proof (rechecked_checked _ _ (Ha a eq_refl) Et) as Hc.
  destruct (_ =? _); [by apply finds_keep_slot|]. apply always_skip. intros tr2 _ Hg2.
  apply always_skip. intros tr3 [[[slot|e]|] b3] Hg3; cbn [fst snd]; [|done|apply IH].
  destruct slot as [[|] rel']; cbn [aq_Acquired aq_ReleaseFunc]; [|apply IH].
  apply finds_keep_slot. do 2 (eapply checked_grows; [done|]). done.
Qed.
Lemma finds_weighted_sticky ids : finds sel_account (try_weighted_sticky s req ids).
Proof.
  induction ids as [|id ids IH]; cbn [try_weighted_sticky]; cbv zeta; [by apply finds_ret|].
  destruct (_ || _); [done|]. apply finds_after. intros [[a0|]|e]; [|done..].
  apply finds_after. intros [|]; cbn [negb]; [|done]. apply finds_after. intros [|]; cbn [negb]; [|done].
  intros tr. apply always_bind. cbn [always]. intros [a|]; [|by apply finds_after].
  set (tr0 := Ev _ _ :: tr). apply (always_step _ _ _ _ _ (compatible_serves a tr0)). intros tr1 [|] Hg1 Hc; cbn [negb]; [|apply IH].
  apply (always_step _ _ _ _ _ (transport_serves a tr1)). intros tr2 [|] Hg2 Ht; cbn [negb]; [|apply IH].
  destruct (_ && tier_is_account 0 a) eqn:Et; [apply IH|].
  assert (checked req a tr2) as Hck.
  { apply rechecked_checked; [|done]. split.
    - exists a0, (sq_RequireCompact req). eapply grows_elem; [etrans; [exact Hg1|exact Hg2]|]. left.
    - split; [|by apply Ht]. eapply grows_elem; [exact Hg2|by apply Hc]. }
  apply always_skip. intros tr3 [[[|] rel]|e] Hg3; cbn [aq_Acquired aq_ReleaseFunc]; [| |done].
  - apply always_skip. intros tr4 _ Hg4. cbn. intros a' [= <-]. do 2 (eapply checked_grows; [done|]). done.
  - destruct (os_concurrencyService s); [|apply IH]. cbn. intros a' [= <-]. by eapply checked_grows.
Qed.
Lemma finds_fallback_sticky : finds sel_account (tryFallbackToWeightedSticky s req).
Proof. unfold tryFallbackToWeightedSticky. destruct (negb _); [by apply finds_ret|apply finds_weighted_sticky]. Qed.

Definition pass_account (r : option Account * bool * bool * openAISelectionProbeBudget) : option Account := r.1.1.1.
Lemma finds_wait_pass wa wf order blocked b : finds pass_account (wait_pass s req wa wf order blocked b).
Proof.
  revert blocked b. induction order as [|c order IH]; intros blocked b; cbn [wait_pass]; cbv zeta; [by apply finds_ret|].
  destruct (_ && _); [apply IH|]. apply finds_after. intros [fresh|]; [|apply IH].
  destruct (consumeOpenAISelectionDBRecheck s b) as [b2|]; [|by apply finds_ret].
  intros tr. apply (always_step _ _ _ _ _ (recheck_rechecked fresh tr)). intros tr1 [a|] _ Ha; [|apply IH].
  destruct (_ && tier_is_account 0 a) eqn:Et; [apply IH|]. intros a' [= <-]. by apply rechecked_checked; [apply Ha|].
Qed.
Definition passes_account (r : option Account * bool * openAISelectionProbeBudget) : option Account := r.1.1.
Lemma finds_wait order passes blocked b : finds passes_account (wait_passes s req order passes blocked b).
Proof.
  revert blocked b. induction passes as [|[wa wf] passes IH]; intros blocked b; cbn [wait_passes]; [by apply finds_ret|].
  apply (finds_bind pass_account); [apply finds_wait_pass|]. intros [[[[a|] exhausted] blocked'] b'] tr Ha; [exact Ha|].
  destruct exhausted; [done|apply IH].
Qed.

Definition pool_account (r : openAIAccountLoadSelectionAttempt * openAISelectionProbeBudget) : option Account := sel_account (at_result r.1).
Lemma finds_pool l m b : finds pool_account (trySelectByLoadBalancePool math_Log math_Exp s req l m b).
Proof.
  unfold trySelectByLoadBalancePool. cbv zeta. apply finds_after. intros plan.
  destruct (_ || _); [by apply finds_ret|]. destruct (is_nil _); [by apply finds_ret|].
  apply (finds_bind tried_account); [apply finds_order|]. intros [[r blocked] b1] tr Hr.
  destruct r as [[sel|]|e]; [exact Hr| |done].
  destruct (_ || _); [done|]. apply always_skip. intros tr1 [fresh|e] _; [|done]. apply always_skip. intros tr2 plan2 _.
  destruct (is_nil _); [done|]. eapply (finds_bind tried_account); [apply finds_order|].
  intros [[r blocked'] b2] tr3 Hr3. by destruct r as [[sel|]|e].
Qed.
Definition load_account (r : load_selected) : option Account := sel_account r.1.1.
Lemma finds_finish attempt b : finds load_account (finishLoadBalanceSelectionFallback s req attempt b).
Proof.
  unfold finishLoadBalanceSelectionFallback. cbv zeta. destruct (is_nil _); [by apply finds_ret|].
  apply (finds_bind sel_account); [apply finds_fallback_sticky|]. intros [[sel|]|e] tr Hr; [exact Hr| |done].
  eapply (finds_bind passes_account); [apply finds_wait|]. intros [[found blocked] b'] tr' Hf. by destruct found.
Qed.
Lemma finds_attempt tried tr : (∀ a, pool_account tried = Some a -> checked req a tr) ->
  always (finish_attempt s req tried) tr (λ tr' r, ∀ a, load_account r = Some a -> checked req a tr').
Proof.
  unfold pool_account, finish_attempt. destruct (at_result tried.1) as [[sel|]|e] eqn:E; intros H; [|apply finds_finish|done].
  exact H.
Qed.
Lemma finds_regular sub regular m b : finds load_account (regular_after math_Log math_Exp s req sub regular m b).
Proof.
  unfold regular_after. apply (finds_bind pool_account); [apply finds_pool|]. intros [attempt b1] tr Ha. unfold pool_account in Ha. cbn [fst] in Ha.
  destruct (at_result attempt) as [[sel|]|e] eqn:E.
  - exact Ha.
  - eapply (finds_bind load_account); [apply finds_finish|]. intros r tr1 Hr. unfold load_account in Hr.
    destruct (r.1.1) as [[sel|]|e] eqn:Er; [unfold load_account; cbn; by rewrite Er| |].
    all: eapply (finds_bind load_account); [apply finds_finish|]; intros w tr2 Hw; cbn; unfold load_account in *;
      destruct w as [[[[sel|]|e'] f] b2]; cbn in *; first [done|by rewrite Er].
  - destruct (negb _); [done|]. eapply (finds_bind load_account); [apply finds_finish|].
    intros [[[[sel|]|e'] f] b2] tr2 Hw; cbn; done.
Qed.
Definition selected_of {D} (r : result (option AccountSelectionResult) * D) : option Account := sel_account r.1.
Lemma finds_by_load_balance : finds selected_of (selectByLoadBalance math_Log math_Exp s req).
Proof.
  unfold selectByLoadBalance. apply finds_after. intros [accounts|e]; [|by apply finds_ret].
  destruct (is_nil _); [by apply finds_ret|]. apply finds_after. intros filtered.
  destruct (is_nil _); [by apply finds_ret|]. apply finds_after. intros m. cbv zeta.
  destruct (partitionOpenAIChatGPTSubscriptionAccounts filtered) as [subs regular].
  apply (finds_bind load_account); [|intros r tr Hr; exact Hr].
  destruct (_ && _); apply (finds_bind pool_account); try apply finds_pool; intros tried tr Ht; [|by apply finds_attempt].
  unfold pool_account in Ht. destruct (at_result tried.1) as [[sel|]|e] eqn:E.
  - unfold load_account. cbn. exact Ht.
  - destruct (is_nil regular); [|apply finds_regular]. apply finds_attempt. unfold pool_account. by rewrite E.
  - destruct (_ || _); [done|apply finds_regular].
Qed.
Lemma finds_select_by_load : finds selected_of (select_by_load math_Log math_Exp s req).
Proof.
  unfold select_by_load. apply (finds_bind selected_of); [apply finds_by_load_balance|]. intros r tr Hr. unfold selected_of in Hr.
  by destruct (r.1) as [sel|e].
Qed.
Lemma session_read_again tr : always (selectBySessionHash s req) tr (λ tr' r, ∀ sel, r.1 = Some sel ->
  read_again req (sr_Account sel) tr' /\ transport_checked req (sr_Account sel) tr').
Proof.
  unfold selectBySessionHash. cbv zeta. destruct (_ || _); [done|].
  apply always_skip. intros tr1 [id|e] _; [|done]. destruct (_ || _); [done|].
  apply always_skip. intros tr2 [[a0|]|e] _; [|by apply always_skip..]. apply always_skip. intros tr3 now _.
  destruct (_ || _); [by apply always_skip|]. apply always_skip. intros tr4 [|] _; cbn [negb]; [|done].
  apply always_skip. intros tr5 [|] _; cbn [negb]; [|by apply always_skip].
  apply always_bind. cbn [always]. intros [a|]; [|by apply always_skip]. set (tr6 := Ev _ _ :: tr5).
  assert (read_again req a tr6) as Hread by (exists a0, (sq_RequireCompact req); left).
  clearbody tr6. apply (always_step _ _ _ _ _ (transport_serves a tr6)). intros tr7 [|] Hg7 Ht; cbn [negb]; [|by apply always_skip].
  specialize (Ht eq_refl). apply (read_grows _ _ _ Hg7) in Hread. clear Hg7.
  assert (∀ tr', grows tr7 tr' -> read_again req a tr' /\ transport_checked req a tr') as Hlater
    by (intros tr' Hg; split; [by eapply read_grows|by eapply transport_grows]).
  apply always_skip. intros tr8 [|] Hg8; [done|]. apply always_skip. intros tr9 [[[|] rel]|e] Hg9; cbn [aq_Acquired aq_ReleaseFunc].
  - apply always_skip. intros tr10 _ Hg10. cbn. intros sel [= <-]. apply Hlater. etrans; [exact Hg8|]. by etrans.
  - destruct (negb _); [done|]. destruct (esc_enabled _); [done|]. cbn. intros sel [= <-]. apply Hlater. by etrans.
  - destruct (os_concurrencyService s); [|done]. cbn. intros sel [= <-]. apply Hlater. by etrans.
Qed.
Lemma previous_answered tr : always (previous_selection req) tr (λ tr' r, ∀ sel, r = Ok (Some sel) ->
  Ev (OPreviousResponse (TrimSpace (sq_PreviousResponseID req)) req) (Ok (Some sel)) ∈ tr' /\
  transport_checked req (sr_Account sel) tr').
Proof.
  unfold previous_selection. cbv zeta. destruct (_ && _); [|by cbn]. apply always_bind. cbn [always].
  intros [[sel|]|e]; [|by cbn..]. set (tr1 := Ev _ _ :: tr).
  assert (Ev (OPreviousResponse (TrimSpace (sq_PreviousResponseID req)) req) (Ok (Some sel)) ∈ tr1) as Hin by left.
  apply (always_step _ _ _ _ _ (transport_serves (sr_Account sel) tr1)). intros tr2 [|] Hg Ht; [|by apply always_skip].
  cbn. intros sel' [= <-]. split; [by eapply grows_elem|by apply Ht].
Qed.
End Checked.

(** What is known of the account of a result, by the layer that selected it. *)
Definition vetted (req : OpenAIAccountScheduleRequest)
    (r : result (option AccountSelectionResult) * OpenAIAccountScheduleDecision) (tr : trace ocall) : Prop :=
  match r with
  | (Ok (Some sel), d) =>
    let a := sr_Account sel in
    transport_checked req a tr /\
    ((dn_Layer d = "previous_response_id"%string /\
      Ev (OPreviousResponse (TrimSpace (sq_PreviousResponseID req)) req) (Ok (Some sel)) ∈ tr) \/
     (dn_Layer d = "session_hash"%string /\ read_again req a tr) \/
     (dn_Layer d = "load_balance"%string /\ (checked req a tr \/ checked (preserve_binding req) a tr)))
  | _ => True
  end.
Lemma vetted_by_load req req' tr : req' ∈ [req; preserve_binding req] ->
  always (select_by_load math_Log math_Exp s req') tr (λ tr' r, vetted req r tr').
Proof.
  intros Hreq. assert (always (select_by_load math_Log math_Exp s req') tr (λ _ r, ∀ sel, r.1 = Ok sel -> dn_Layer r.2 = "load_balance"%string)) as Hl.
  { unfold select_by_load. apply always_skip. intros tr' r _. by destruct (r.1). }
  eapply always_then; [apply always_and; [apply (finds_select_by_load req' tr)|exact Hl]|]. cbn.
  intros tr' [[[sel|]|e] d] [Hf Hd]; [|done..]. specialize (Hf _ eq_refl). specialize (Hd _ eq_refl). cbn [vetted]. cbv zeta.
  split; [|right; right; split; [done|]].
  - destruct Hf as (_ & _ & H & _). repeat (apply elem_of_cons in Hreq as [->|Hreq]; [exact H|]). by apply elem_of_nil in Hreq.
  - apply elem_of_cons in Hreq as [->|Hreq%list_elem_of_singleton]; [by left|right; by rewrite <- Hreq].
Qed.

(** C9. Whatever the services answer, an account the OpenAI scheduler selected
    is one that may serve the request: it is compatible with the transport;
    the layer of the previous response returns the account that holds it; a
    bound account was read again before it was returned; an account selected
    by load was read again and, as it was then, compatible with the request
    and, for a compact request, not known to lack support for it. *)
Theorem scheduler_Select_vets (req : OpenAIAccountScheduleRequest) (tr : trace ocall) :
  always (scheduler_Select math_Log math_Exp s req) tr (λ tr' r, vetted req r tr').
Proof.
  unfold scheduler_Select. apply (always_step _ _ _ _ _ (previous_answered req tr)). intros tr1 [[sel|]|e] _ Hp; [| |done].
  - destruct (Hp sel eq_refl) as [Hp1 Hp2]. apply always_skip. intros tr2 _ Hg. cbn. split; [by eapply transport_grows|left].
    split; [done|by eapply grows_elem].
  - destruct (sq_StickyWeighted req); [apply vetted_by_load; left|].
    apply (always_step _ _ _ _ _ (session_read_again req tr1)). intros tr2 [[sel|] escaped] _ Hs.
    + destruct (Hs sel eq_refl) as [H1 H2]. cbn. split; [done|right; by left].
    + apply vetted_by_load. destruct escaped; [right; left|left].
Qed.

(** C39. While the probes are limited, the choice of an account from a pool
    asks for at most 64 slots and reads at most 64 accounts again, its second
    attempt with fresh loads included, however many candidates there are: the
    budget it leaves counts exactly what it did. *)
Theorem probes_within_limit (req : OpenAIAccountScheduleRequest) (pool : list Account) (loads : gmap Z AccountLoadInfo)
    (b : openAISelectionProbeBudget) (tr : trace ocall) : limited b ->
  always (trySelectByLoadBalancePool math_Log math_Exp s req pool loads b) tr (λ tr' r,
    probes acquisition tr' - probes acquisition tr = bg_acquires r.2 - bg_acquires b /\
    bg_acquires r.2 <= 64 /\
    (os_schedulerSnapshot s && os_accountRepo s = true ->
     probes recheck tr' - probes recheck tr = bg_rechecks r.2 - bg_rechecks b) /\
    bg_rechecks r.2 <= 64).
Proof.
  intros Hb. eapply always_then; [apply (counts_pool req pool loads b Hb)|]. by intros tr' r (_ & H2 & H3 & H4 & H5).
Qed.

(** C8. Whatever the repository, the caches, the slots and the clock answer,
    after the OpenAI scheduler selected an account every slot that it took is
    either in the release function of the result or was given back, for every
    account and request ID: a failed selection holds none. *)
Theorem scheduler_Select_settles_slots (req : OpenAIAccountScheduleRequest) (a : Z) (q : string) (tr : trace ocall) :
  always (scheduler_Select math_Log math_Exp s req) tr (λ tr' r,
    oheld a q tr' = oheld a q tr + match r.1 with
                                   | Ok (Some sel) => carried a q (sr_ReleaseFunc sel)
                                   | _ => 0
                                   end).
Proof. eapply always_then; [by apply (settles_select a q (oheld a q tr))|]. done. Qed.
End Scheduler.

(** ** Runs *)

#[local] Existing Instance ascii_only_case.
#[local] Existing Instance run_host.
Definition run_openai : list Account := [run_account 1 PlatformOpenAI ∅; run_account 2 PlatformOpenAI ∅; run_account 3 PlatformOpenAI ∅].
Definition run_scheduler : defaultOpenAIAccountScheduler := {|
  os_concurrencyService := true; os_schedulerSnapshot := true; os_accountRepo := true; os_cache := true;
  os_cfg := gs_cfg (run_service true);
  os_escape := {| esc_enabled := false; esc_ttftMs := f0; esc_errorRate := f0 |}; os_stickyTTL := hour |}.
Definition run_weights : ScoreWeights := {|
  sw_Priority := f1; sw_Load := f1; sw_Queue := f1; sw_ErrorRate := f1; sw_TTFT := f1; sw_Reset := f0;
  sw_QuotaHeadroom := f0; sw_UpstreamCost := f0; sw_Previous := f0; sw_SessionSticky := f0 |}.
Definition run_request (sticky : Z) : OpenAIAccountScheduleRequest := {|
  sq_PlatformID := Some 1; sq_Platform := PlatformOpenAI; sq_SessionHash := "s"; sq_StickyAccountID := sticky;
  sq_StickyPreviousAccountID := 0; sq_StickyWeighted := 0 <? sticky; sq_SubscriptionPriority := false;
  sq_PreserveStickyBinding := false; sq_PreviousResponseID := ""; sq_PreviousResponseCanMove := false;
  sq_UseUpstreamTokenCost := false; sq_RequestedModel := "gpt"; sq_RequiredTransport := ""; sq_RequiredCapability := "";
  sq_RequiredImageCapability := ""; sq_RequireCompact := false; sq_ExcludedIDs := ∅ |}.
(** Every account serves every request; no session is bound. *)
Definition run_answers (B : Type) (c : ocall B) (st : slots) : B * slots :=
  match c in ocall B return B * slots with
  | OSvc c => run_handler _ c st
  | OWeights => (run_weights, st)
  | OTopK => (2, st)
  | OOAuthRate => (f1, st)
  | OStats _ => ((f0, None), st)
  | OFreshRate _ _ => (None, st)
  | OList _ _ => (Ok run_openai, st)
  | OLoadFresh _ => (Ok ∅, st)
  | OSchedulableAccount id => (Ok (List.find (λ a, acc_ID a =? id) run_openai), st)
  | ORuntimeBlocked _ _ => (false, st)
  | OIncompatible _ _ => (None, st)
  | OTransport _ _ => (true, st)
  | OResolveFresh a _ _ _ => (Some a, st)
  | ORecheck a _ _ _ _ => (Some a, st)
  | OPreviousResponse _ _ => (Ok None, st)
  | OStickyGet _ => (Ok 0, st)
  | OStickyBind _ _ => (tt, st)
  | OStickyDelete _ => (tt, st)
  | OStickyRefresh _ _ => (tt, st)
  end.
Definition run_select (sticky : Z) (taken : slots) :=
  exec run_answers (scheduler_Select id id run_scheduler (run_request sticky)) [] taken.
Definition run_outcome (r : (result (option AccountSelectionResult) * OpenAIAccountScheduleDecision) * trace ocall * slots)
    : option (Z * bool) * string * slots :=
  (match r.1.1.1 with Ok (Some sel) => Some (acc_ID (sr_Account sel), sr_Acquired sel) | _ => None end,
   dn_Layer r.1.1.2, r.2).
(** The account that was drawn or the sticky one, with a slot; to wait for the
    first when every slot is taken. *)
Example run_select_ex : run_outcome (run_select 0 []) = (Some (2, true), "load_balance"%string, [(2, "r"%string)])
  /\ run_outcome (run_select 1 []) = (Some (1, true), "load_balance"%string, [(1, "r"%string)])
  /\ run_outcome (run_select 0 [(1, "x"); (2, "x"); (3, "x")]%string)
     = (Some (2, false), "load_balance"%string, [(1, "x"); (2, "x"); (3, "x")]%string).
Proof. vm_compute. auto. Qed.
(** Three candidates, the worst first, of which the best two are kept. *)
Definition run_candidates : list candidate :=
  map (λ a, mk_candidate a (no_load a) true (f64_of_Z (acc_ID a)) f0 None) run_openai.
Example run_topk_ex : map cd_ID (selectTopKOpenAICandidates run_candidates 2) = [3; 2].
Proof. vm_compute. reflexivity. Qed.
Lemma group_order_correct_witness :
  (0 < 2 /\ NoDup (map cd_ID run_candidates) /\ scored run_candidates) /\
  always (group_order (run_request 2) 2 true run_candidates) [] (λ _ order, ∃ front,
    order = front ++ drop 2 (stable_sort isOpenAIAccountCandidateBetter run_candidates) /\
    front ≡ₚ take 2 (stable_sort isOpenAIAccountCandidateBetter run_candidates) /\
    ∀ c, sticky_choice (run_request 2) (take 2 (stable_sort isOpenAIAccountCandidateBetter run_candidates)) c -> head order = Some c).
Proof.
  assert (NoDup (map cd_ID run_candidates)) as Hnd by (cbn; repeat constructor; set_solver).
  assert (scored run_candidates) as Hs by (repeat constructor).
  split; [done|]. exact (group_order_correct (run_request 2) 2 true run_candidates [] eq_refl Hnd Hs).
Defined.
Definition run_budget : openAISelectionProbeBudget := enableLimit newOpenAISelectionProbeBudget.
Lemma probes_within_limit_witness :
  limited run_budget /\
  let r := exec run_answers (trySelectByLoadBalancePool id id run_scheduler (run_request 0) run_openai ∅ run_budget) [] [] in
  probes acquisition r.1.2 = 1 /\ probes recheck r.1.2 = 1 /\
  (probes acquisition r.1.2 - 0 = bg_acquires r.1.1.2 - 0 /\ bg_acquires r.1.1.2 <= 64 /\
   (true = true -> probes recheck r.1.2 - 0 = bg_rechecks r.1.1.2 - 0) /\ bg_rechecks r.1.1.2 <= 64).
Proof.
  assert (limited run_budget) as Hb by done. split; [done|]. cbv zeta. split; [vm_compute; reflexivity|].
  split; [vm_compute; reflexivity|].
  exact (always_exec run_answers _ _ _ [] (probes_within_limit id id run_scheduler (run_request 0) run_openai ∅ run_budget [] Hb)).
Defined.
